(* ===== verification/_CoqProject ===== *)
-Q . S2P
Prelude.v
Interval.v
TimeOfDay.v
Date.v
DateProofs.v
Timestamp.v
LinkedList.v
LinkedListProofs.v
ListSort.v
ListSpec.v
Timer.v
TimerProofs.v
Spsc.v
SpscProofs.v
Buffer.v
Bytes.v
Rijndael.v
RijndaelProofs.v
Sha.v
ShaSpec.v
ShaProofs.v
Hash.v
Io.v
Digits.v
DigitsProofs.v
Format.v
FormatProofs.v
Swar.v
Memory.v
MemoryProofs.v
MemoryFindProofs.v
Block.v
BlockProofs.v
StrPtr.v
StrPtrProofs.v
DateText.v
DateTextProofs.v
Modbus.v
ModbusProofs.v
ModbusFrame.v
ModbusPlan.v
ModbusLink.v
ModbusLinkProofs.v
ModbusLinkSpec.v
View.v
ViewProofs.v
Http.v
HttpProofs.v
HttpFormat.v
Framing.v
FramingProofs.v
Chunked.v
ChunkedSpec.v
ChunkedProofs.v
DecoderProofs.v
Body.v
BodyProofs.v
HeadProofs.v
StartLine.v
HttpFormatProofs.v
Exec.v
QueueProofs.v
QueueThreads.v
MailboxProofs.v
Deflate.v
HuffmanProofs.v
DeflateSpec.v
PutProofs.v
InflateProofs.v
DeflateProofs.v
Gzip.v
GzipProofs.v
