(* ===== verification/Prelude.v ===== *)
(** * lh: verification of the core library

    [lh] is a C library of small, freestanding parts.  This development models
    a group of parts of [src/lh/core] and [src/lh/exec] that build on each other
    and carry logic of their own, function by function, and proves what each is
    for.

    ** Parts, files, sources

    - [Prelude]: machine integers, the [outcome] of a C call, shared automation.
    - [Interval], [TimeOfDay], [Date], [Timestamp]: the calendar.
      [util/interval/wrap.h] is the wrapping addition that [time/hour.c],
      [time/minute.c], [time/second.c], [date/year.c] and [date/month/index.c]
      share; [time.c] and [date.c] chain the fields by their carries;
      [datetime.c] and [timestamp.c] put a date and a time of day together.
    - [LinkedList]: [list.c] and [list/node.c], intrusive circular lists over an
      explicit store of nodes, the merge sort ([ListSort]) included; [ListSpec]
      is what a list promises.
    - [Timer]: [timer.c] and [timer/tick.c]; a group of timers is such a list in
      priority order.
    - [Spsc]: [spsc.c], the queue between one producer and one consumer thread.
    - [Buffer], [Bytes]: arrays, the access to them, counted loops, words in byte
      order; used by all that follow.
    - [Swar], [Memory], [Block]: the bit tricks on words of [bit/swar.h] and
      [bit/scan.h]; the portable kernels of [memory/std/words.h] and the entry
      points of [memory/std.c] over a flat memory; [memory.c] on top of them.
      [MemoryProofs] shows that the kernels have the effects that [Buffer] and
      [Bytes] give to copying, setting and exclusive or.
    - [Rijndael], [Sha]: [crypto/rijndael.c] and [crypto/sha.c]; [ShaSpec] is the
      standard, written without reference to the code.
    - [Hash]: [hash/crc.c] and [hash/fnv.c].
    - [Io]: [io/reader.c], [io/writer.c] and [io/stream.c], streams as callbacks.
    - [Digits], [Format], [DateText]: integers as text (the parsers and formatters
      of [str/parse] and [str/format]), masks and formatted text
      ([str/scanf/next.c], [str/format/text.c]), and times and dates as text.
    - [StrPtr]: the scanning kernels of [util/str/ptr.c] for a text at any address.
    - [Modbus]: [net/modbus.c], [modbus/want.c], [modbus/read.c]: data units,
      whole serial frames (with [Hash]'s CRC), and the read planner.
    - [ModbusFrame]: the first half of [net/modbus/link.c], framing.
    - [ModbusLink]: the rest of [net/modbus/link.c] and [link/counters.c], the
      client's state machine over a stream of [Io] and a clock.
    - [View]: [str/view.c] and [str/cursor.c] as HTTP uses them, and the characters
      of HTTP.  [Http]: records, versions, methods and the parser of heads
      ([http/parser.c]); [HttpFormat]: heads of responses as text ([http/format.c],
      [http/status.c]); [Framing]: what the fields say of the body
      ([http/framing.c], [http/expect.c], [http/content/encoding.c]).  The grammar
      of heads is in [HeadProofs] and [StartLine].
    - [Chunked], [Body]: [http/chunked.c], [http/chunked/decoder.c] and
      [http/body/reader.c]; the grammar of chunked bodies is [ChunkedSpec].
    - [Exec]: [exec/task.c], [exec/queue.c] (many producers, one consumer),
      [exec/mailbox.c] and [exec/executor.c].
    - [Deflate]: [compress/deflate.c] with its tokens, matcher and encoder, against
      the format in [DeflateSpec]; [Gzip]: [compress/gzip.c] and
      [gzip/header/decoder.c], members around streams of [Deflate], with [Hash]'s
      CRC.

    A file of definitions [X] that has long proofs keeps them in [XProofs] (of
    [Exec] in [QueueProofs], [QueueThreads] and [MailboxProofs]; of [Deflate] in
    [HuffmanProofs], [PutProofs], [InflateProofs] and [DeflateProofs]; of
    [Chunked] in [ChunkedProofs] and [DecoderProofs]; of [Memory] in
    [MemoryProofs] and [MemoryFindProofs]), and the statements for the user of the
    part, or the standard it follows, in [XSpec].  A definition has the name of the
    C function it translates; a loop of a function is a [Fixpoint] named after it
    ([size_loop], [frames_loop]), and a long body is cut at the blocks of the
    source ([handler_visit], [read_answer], [settle]).

    ** How C is read

    - An unsigned value is a [Z] in its range and every operation or conversion
      that can leave the range is wrapped ([u8] to [u64]).  Signed 64-bit
      arithmetic goes through [s64], which is undefined outside the range.  The
      target has 64-bit pointers and sizes and is little-endian.
    - A call ends in an [outcome]: [Done], [Fault] with the code of the run-time
      check that failed (the handler is told and the program ends), or [Undef]
      for undefined behaviour: an overflow, a read or write outside an array or of
      an address without an object, a null dereferenced without a check.
      Proving that a call is [Done] therefore proves that none of these happens.
    - State is passed.  A pointer to a plain struct that a function updates is the
      struct, returned with the result; out-parameters are returned.  A pointer
      the code compares with null is an [option], or in a store an address with 0
      for null.  The null check on a [self] that is passed as a value is not
      modelled.  Lists, timers and the queues' records, where aliasing matters,
      live in explicit stores, and the memory kernels work on one flat memory in
      which ranges may overlap.
    - A view of text is the bytes it shows.  A character is a byte.
    - Functions that threads run at the same time ([Spsc], [Exec]) are programs over
      the actions on what they share.  A program is run alone, or its actions
      are interleaved with those of other threads by a step relation in which a read
      may give an old value, as far as the orders asked of the atomics allow it.
    - A function [try_f] of [Deflate] and [Gzip] that can refuse gives [None] for
      false; one that also writes into the output gives the output with it
      ([attempt], [writing]).
    - Callbacks are functions on the state of the program or of the world outside
      ([cmp] of a list, [call] of a timer group, the class [Callbacks] of streams,
      [Clock]), or logged with what they can see ([Call] of a task).  What a theorem
      needs of them is a hypothesis or a class with a law ([Sink], [Source], [Line],
      [own_timer_only]), and each has an instance or a concrete function in the
      theorem's witness.
    - Local arrays start zero-filled in the model; no modelled function reads a
      byte of one before it is written.
    - A loop without a structural measure has fuel, and running out of it is
      [Undef], so every theorem that says [Done] proves that the fuel given was
      enough.  Bounds: a walk over a list has one step more than there are nodes
      in the store; the merge sort makes at most 65 passes, each doubling the run;
      the search for a year or a month has a constant bound, the estimate being
      close; a poll steps over at most as many frames as there are bytes held; a
      loop over text or memory has a step for each byte; the decoders of DEFLATE
      take a bit at least in each round, the encoder a byte, and the entries of a
      hash chain fall; a gzip member takes a byte at least.
      [lh_timer_group_handler], [lh_io_reader_drain] and
      [lh_exec_mailbox_try_reserve] take their fuel as an argument, because
      a callback or another thread may keep them running for ever; that the
      handler of timers then makes any number of rounds without a fault is said by
      [rounds].

    ** What is proved

    - Calendar.  The conversion between dates and day numbers is a bijection and
      counts Gregorian days ([date_epoch_bijection], [date_count_is_gregorian]);
      date-times and timestamps are the same points in time
      ([timestamp_datetime_iso]); arithmetic on days, months, years and clock
      fields is arithmetic on the numbers of days, months and seconds, with the
      carries and the borrows exact, and where it is not, what it does instead.
    - Lists.  A refinement: any program of list operations that is legal on
      sequences runs on the store without fault, returns the same pointers, and
      leaves a whole ring with the resulting sequence
      ([list_operations_refine]); the merge sort is stable and touches nothing
      else; splices, observers and the guards against misuse.
    - Timers.  Starting a timer and changing a priority keep the priority order;
      the time to the next firing is exact across the wrap of the tick
      ([until_next_is_next_firing]); the handler visits each timer once when
      callbacks keep to their own timer, and never returns when one stops the next
      ([timer_handler_callback_faults]).
    - Queues.  Over all interleavings, with values as old as release and acquire
      allow.  One producer and one consumer: records arrive whole, once, in
      order, and no byte is written by one thread while the other may touch it; run
      alone it is a bounded FIFO.  Many producers: each task comes out once, in the
      order of the exchanges ([tasks_come_out_once_in_order]).  The places of a
      mailbox never pass its capacity, and a task keeps its place until its last
      callback has run ([places_never_exceed], [dispatch_delivers]).
    - Memory.  The word kernels do what their names say for every alignment and
      overlap ([move_is_exact], [find_is_first_match]); fills with patterns and
      searches on a grid follow.
    - Cryptography.  The table code is Rijndael over its field, for every key and
      block size, and decryption inverts encryption over whole sessions
      ([cipher_is_rijndael], [blocks_roundtrip]); the digests are those of the
      standard however a message is cut ([sha_is_standard]).
    - Hashes.  Streaming, burst detection of a CRC of any width, injectivity of
      FNV-1a in one byte.
    - Text.  What formatting by a mask writes, also into too small a buffer
      ([format_text_by_mask]); date-times survive their text
      ([datetime_text_roundtrip]); numbers round-trip and overflow is refused; the
      word-wise searches against the search character by character
      ([find_not_of_chars_is_search], and [find_of_chars_overlooks], where they
      differ).
    - Modbus.  Requests and answers of data units ([question_goes_out_from_idle]
      for the first step of a question), framing and its round trip,
      damage detected on a serial line, the planner's optimality, and the link:
      an invariant over all runs against any stream that keeps the reading
      contract, one verdict per question, the answer found behind any number of
      other frames, no start of a frame lost.
    - HTTP.  The parsers of heads and the decoders of chunked bodies decide their
      grammars: what is accepted, what only breaks off and what is an error are
      told apart exactly ([heads_are_standard], [chunked_decode_is_standard]), also
      by pieces ([decoder_is_standard]); what is written is read back
      ([response_survives_wire]); the framing of a message is unambiguous
      ([framing_is_unambiguous]); a body is delivered whole from any source
      ([body_is_delivered]).
    - Compression.  The decoder of DEFLATE accepts exactly the streams of the format
      ([inflate_is_standard]); the encoder returns, stays under its bound, and is
      inverted by the decoder ([deflate_roundtrip]); the same for files of gzip
      members and their headers ([gunzip_is_standard], [gzip_roundtrip]).
    - Sizes at which the code leaves an array or narrows a number too early are
      part of the statements, not assumed away ([encode_bounds],
      [read_frame_bounds], [serial_answer_overcounts], [date_ymd_is_valid_spec],
      [date_add_year_spec], [date_add_day_wrap_faults]).

    ** What is not modelled

    Of the parts above: the builds for vector units, for the AES instructions and
    with the C library, of which the portable code is modelled instead; printing
    through a writer; [lh_spsc_destroy]; the handlers behind a failed check; the
    executors themselves, which need threads of an operating system; the string
    functions that ignore case, other than comparing views and their prefixes;
    [lh_http_request_get_query_value_size]; and the readers that inflate piece by
    piece from a source.

    The rest of the library is outside this development: the user interface and
    the operating system layer, which are calls of the system; JSON, XML, HTML,
    JavaScript, INI and SQL; UTF-8 and the other string objects; floating point and
    the mathematics over it; wide numbers; allocators and containers of values;
    sockets and addresses; and the vendored libraries. *)
From stdpp Require Export base numbers list gmap.
From Stdlib Require Export ZArith Lia Bool.

(** ** Machine integers

    A [w]-bit unsigned value is a [Z] in [0, 2^w); every C conversion or
    unsigned operation that can leave the range is written as the wrap-around
    below.  The moduli are literals so that [lia] sees them. *)

Open Scope Z_scope.

Definition u8 (x : Z) : Z := x mod 256.
Definition u16 (x : Z) : Z := x mod 65536.
Definition u32 (x : Z) : Z := x mod 4294967296.
Definition u64 (x : Z) : Z := x mod 18446744073709551616.

Definition LH_U16_T_MAX : Z := 65535.
Definition LH_UINT_T_MAX : Z := 4294967295.
Definition LH_USIZE_T_MAX : Z := 18446744073709551615.

Definition is_u8 (x : Z) : Prop := 0 <= x < 256.
Definition is_u16 (x : Z) : Prop := 0 <= x < 65536.
Definition is_u32 (x : Z) : Prop := 0 <= x < 4294967296.
Definition is_u64 (x : Z) : Prop := 0 <= x < 18446744073709551616.
Definition is_s64 (x : Z) : Prop :=
  -9223372036854775808 <= x <= 9223372036854775807.

(** Solve a linear goal with [/], [mod] and the machine-integer wrappers. *)
Ltac unfold_cint :=
  unfold u8, u16, u32, u64, is_u8, is_u16, is_u32, is_u64, is_s64,
    LH_U16_T_MAX, LH_UINT_T_MAX, LH_USIZE_T_MAX in *.
Ltac zdm := unfold_cint; Z.div_mod_to_equations; lia.
Ltac zb := unfold_cint; lia.

Lemma u8_id x : is_u8 x -> u8 x = x.
Proof. intros; apply Z.mod_small; zb. Qed.
Lemma u16_id x : is_u16 x -> u16 x = x.
Proof. intros; apply Z.mod_small; zb. Qed.
Lemma u32_id x : is_u32 x -> u32 x = x.
Proof. intros; apply Z.mod_small; zb. Qed.
Lemma u64_id x : is_u64 x -> u64 x = x.
Proof. intros; apply Z.mod_small; zb. Qed.
Lemma u8_range x : is_u8 (u8 x).
Proof. apply Z.mod_pos_bound; lia. Qed.
Lemma u16_range x : is_u16 (u16 x).
Proof. apply Z.mod_pos_bound; lia. Qed.
Lemma u32_range x : is_u32 (u32 x).
Proof. apply Z.mod_pos_bound; lia. Qed.
Lemma u64_range x : is_u64 (u64 x).
Proof. apply Z.mod_pos_bound; lia. Qed.

Create HintDb cint.
#[export] Hint Resolve u8_range u16_range u32_range u64_range : cint.

(** Remove every wrap-around whose argument is in range, innermost first. *)
Ltac cint_with tac :=
  repeat match goal with
  | |- context [u8 ?x] => rewrite (u8_id x) by tac
  | |- context [u16 ?x] => rewrite (u16_id x) by tac
  | |- context [u32 ?x] => rewrite (u32_id x) by tac
  | |- context [u64 ?x] => rewrite (u64_id x) by tac
  end.
Ltac cint := cint_with zb.

(** ** Outcomes

    What a C call ends in: a value, a failed run-time check
    ([lh_assert_runtime], [lh_runtime_check]: the error code goes to the
    host's handler and the program is terminated), or undefined behaviour
    (signed overflow, a dangling pointer, an access outside an object). *)
Inductive outcome (A : Type) : Type :=
| Done (a : A)
| Fault (code : Z)
| Undef.
Arguments Done {A} _.
Arguments Fault {A} _.
Arguments Undef {A}.

#[export] Instance outcome_ret : MRet outcome := fun A a => Done a.
#[export] Instance outcome_bind : MBind outcome := fun A B f m =>
  match m with Done a => f a | Fault c => Fault c | Undef => Undef end.

(** The codes of [lh/core/runtime/error/code.h] that the model uses. *)
Definition lh_runtime_error_code_null_pointer : Z := 0x02.
Definition lh_runtime_error_code_memory_not_allocated : Z := 0x03.
Definition lh_runtime_error_code_invalid_range : Z := 0x06.
Definition lh_runtime_error_code_out_of_range : Z := 0x08.
Definition lh_runtime_error_code_invalid_argument : Z := 0x09.
Definition lh_runtime_error_code_null_dereference : Z := 0x0A.

(** [lh_assert_runtime_if(b, code)] / [lh_assert_runtime_ifn(b, code)]. *)
Definition fail_if (b : bool) (code : Z) : outcome unit :=
  if b then Fault code else Done tt.
Definition fail_ifn (b : bool) (code : Z) : outcome unit := fail_if (negb b) code.

(** A signed 64-bit result: C leaves the overflow undefined. *)
Definition s64 (x : Z) : outcome Z :=
  if (-9223372036854775808 <=? x) && (x <=? 9223372036854775807) then Done x else Undef.

Lemma s64_ok x : is_s64 x -> s64 x = Done x.
Proof.
  unfold is_s64, s64; intros.
  by rewrite (proj2 (Z.leb_le _ _)), (proj2 (Z.leb_le _ _)) by lia.
Qed.
Lemma s64_inv x y : s64 x = Done y -> y = x /\ is_s64 x.
Proof.
  unfold s64, is_s64. destruct (Z.leb_spec (-9223372036854775808) x); simpl; [|done].
  destruct (Z.leb_spec x 9223372036854775807); simpl; [|done].
  intros [= ->]; lia.
Qed.

Lemma bind_done {A B} (a : A) (f : A -> outcome B) : mbind f (Done a) = f a.
Proof. done. Qed.
Lemma bind_assoc {A B C} (m : outcome A) (f : A -> outcome B) (g : B -> outcome C) :
  mbind g (mbind f m) = mbind (fun a => mbind g (f a)) m.
Proof. by destruct m. Qed.
Lemma bind_inv {A B} (m : outcome A) (f : A -> outcome B) b :
  mbind f m = Done b -> exists a, m = Done a /\ f a = Done b.
Proof. destruct m; simpl; try discriminate; eauto. Qed.

(** Run a chain of checked 64-bit operations whose operands are in range. *)
Ltac run_s64 :=
  repeat (first [rewrite s64_ok by (unfold is_s64; zdm) | rewrite bind_done]).

(** Decompose [m ≫= f = Done b] hypotheses. *)
Ltac outcome_inv :=
  repeat match goal with
  | H : mbind _ _ = Done _ |- _ =>
      apply bind_inv in H; let a := fresh "a" in let E := fresh "E" in
      destruct H as (a & E & H)
  | H : Done _ = Done _ |- _ => injection H as H; subst
  | H : Fault _ = Done _ |- _ => discriminate H
  | H : Undef = Done _ |- _ => discriminate H
  end.

(** Decide the comparisons of the code in the goal or a hypothesis. *)
Ltac zcases :=
  repeat match goal with
  | |- context [Z.leb ?a ?b] => destruct (Z.leb_spec a b)
  | |- context [Z.ltb ?a ?b] => destruct (Z.ltb_spec a b)
  | |- context [Z.eqb ?a ?b] => destruct (Z.eqb_spec a b)
  | |- context [Z.gtb ?a ?b] => rewrite (Z.gtb_ltb a b)
  | |- context [Z.geb ?a ?b] => rewrite (Z.geb_leb a b)
  end; simpl in *; try lia.

(** ** Lists *)

Lemma filter_all {A} (P : A -> Prop) `{!forall x, Decision (P x)} (l : list A) :
  Forall P l -> filter P l = l.
Proof. induction 1; [done|]. by rewrite filter_cons_True, IHForall. Qed.
Lemma filter_none {A} (P : A -> Prop) `{!forall x, Decision (P x)} (l : list A) :
  Forall (fun x => ~ P x) l -> filter P l = [].
Proof. induction 1; [done|]. by rewrite filter_cons_False, IHForall. Qed.
Lemma filter_ext_in {A} (P Q : A -> Prop) `{!forall x, Decision (P x), !forall x, Decision (Q x)}
    (l : list A) :
  (forall x, x ∈ l -> (P x <-> Q x)) -> filter P l = filter Q l.
Proof.
  induction l as [|x l IH]; intros Hext; [done|].
  pose proof (Hext x ltac:(by left)) as Hx.
  rewrite !filter_cons. rewrite IH by (intros y Hy; apply Hext; by right).
  do 2 case_decide; naive_solver.
Qed.
