(* ===== verification/Interval.v ===== *)
(** * Closed-interval wrap-around on [lh_ullong_t]

    [lh/core/util/interval/wrap.h] and the macros of
    [lh/core/util/interval.h] it expands: one implementation shared by the
    year, month-index, hour, minute and second fields of the calendar. *)
From S2P Require Import Prelude.

(** [lh_interval_closed_get_size] *)
Definition closed_get_size (lower upper : Z) : Z := u64 (u64 (upper - lower) + 1).

(** [lh_interval_wrap_get_overflow], [lh_interval_wrap_get_value] *)
Definition wrap_get_overflow (value origin size : Z) : Z := u64 (value - origin) / size.
Definition wrap_get_value (value origin size : Z) : Z :=
  u64 (origin + u64 (value - origin) mod size).

(** [lh_interval_wrap_unsigned_sub_overflow], [.._value] *)
Definition wrap_unsigned_sub_overflow (a b origin size : Z) : Z :=
  if b <=? u64 (a - origin) then 0
  else u64 (u64 (b - u64 (a - origin)) + u64 (size - 1)) / size.
Definition wrap_unsigned_sub_value (a b origin size : Z) : Z :=
  if b <=? u64 (a - origin) then u64 (a - b)
  else u64 (origin +
         u64 (u64 (u64 (wrap_unsigned_sub_overflow a b origin size * size)
                   + u64 (a - origin)) - b)).

(** The operations return the new [*self] and the [lh_uint_t] result. *)
Definition lh_interval_closed_wrap_set (value min max : Z) : Z * Z :=
  (wrap_get_value value min (closed_get_size min max),
   u32 (wrap_get_overflow value min (closed_get_size min max))).
Definition lh_interval_closed_wrap_add (self value min max : Z) : Z * Z :=
  lh_interval_closed_wrap_set (u64 (self + value)) min max.
Definition lh_interval_closed_wrap_sub (self value min max : Z) : Z * Z :=
  (wrap_unsigned_sub_value self value min (closed_get_size min max),
   u32 (wrap_unsigned_sub_overflow self value min (closed_get_size min max))).

(** ** Behaviour

    Every field of the calendar wraps on [0, max] with [max < 2^16], and adds
    or subtracts an [lh_uint_t].  The pair (overflow, value) is then exactly
    the quotient and remainder of the mathematical sum or difference. *)

Lemma closed_get_size_0 max : 0 <= max < 65536 -> closed_get_size 0 max = max + 1.
Proof. intros; unfold closed_get_size. cint. lia. Qed.

Section Field.
(** The field: its largest value and its current, in-range value. *)
Variables (max self value : Z).
Hypotheses (Hmax : 0 <= max < 65536) (Hself : 0 <= self <= max) (Hvalue : is_u32 value).

#[local] Abbreviation size := (max + 1).

Lemma quotient_u32 x : 0 <= x <= max + 4294967295 -> is_u32 (x / size).
Proof.
  intros Hx. unfold is_u32. split; [apply Z.div_pos; lia|].
  apply Z.div_lt_upper_bound; [lia|]. nia.
Qed.

Lemma wrap_set_eq x :
  0 <= x <= max + 4294967295 ->
  lh_interval_closed_wrap_set x 0 max = (x mod size, x / size).
Proof.
  intros Hx. pose proof (quotient_u32 x Hx) as Hq.
  unfold lh_interval_closed_wrap_set, wrap_get_value, wrap_get_overflow.
  rewrite closed_get_size_0, Z.sub_0_r by lia.
  pose proof (Z.mod_pos_bound x size ltac:(lia)).
  by cint_with ltac:(zb).
Qed.

(** Setting a value splits it into remainder and whole lengths. *)
Lemma wrap_set_spec :
  lh_interval_closed_wrap_set value 0 max = (value mod size, value / size).
Proof. apply wrap_set_eq. zb. Qed.

(** Adding wraps modulo the length and returns the whole lengths carried. *)
Lemma wrap_add_spec :
  lh_interval_closed_wrap_add self value 0 max
  = ((self + value) mod size, (self + value) / size).
Proof.
  unfold lh_interval_closed_wrap_add. cint. apply wrap_set_eq. zb.
Qed.

Lemma sub_borrow_eq :
  self < value -> (value - self + max) / size = - ((self - value) / size).
Proof.
  intros. symmetry. apply (Z.div_unique_pos _ _ _ (max - (self - value) mod (max + 1))).
  - pose proof (Z.mod_pos_bound (self - value) (max + 1)). lia.
  - pose proof (Z.div_mod (self - value) (max + 1)). lia.
Qed.

(** Subtracting wraps modulo the length and returns the whole lengths borrowed. *)
Lemma wrap_sub_spec :
  lh_interval_closed_wrap_sub self value 0 max
  = ((self - value) mod size, - ((self - value) / size)).
Proof.
  unfold lh_interval_closed_wrap_sub, wrap_unsigned_sub_value, wrap_unsigned_sub_overflow.
  rewrite closed_get_size_0 by lia. cint.
  rewrite Z.sub_0_r. destruct (Z.leb_spec value self).
  - cint. by rewrite Z.mod_small, Z.div_small by zb.
  - replace (max + 1 - 1) with max by lia. cint.
    rewrite sub_borrow_eq by done.
    pose proof (Z.div_mod (self - value) size ltac:(lia)) as Hdm.
    pose proof (Z.mod_pos_bound (self - value) size ltac:(lia)).
    assert (is_u32 (- ((self - value) / size))) as Hq.
    { rewrite <- sub_borrow_eq by done. apply quotient_u32. zb. }
    assert (- ((self - value) / size) * size + self
            = value + (self - value) mod size) as Heq by lia.
    assert (- ((self - value) / size) * size
            = value + (self - value) mod size - self) as Heq' by lia.
    rewrite (u32_id _ Hq), Heq'. cint. f_equal. lia.
Qed.
End Field.
