(* ===== verification/TimeOfDay.v ===== *)
(** * Time of day

    [lh/core/time/hour.c], [minute.c], [second.c] and [lh/core/time.c].  A
    field value is an [lh_u8_t]; an operation on [lh_time_hour_t *self]
    becomes a function of the stored value that returns the new one and the
    [lh_uint_t] the C function returns.  [lh_time_t] is a record; a pointer to
    one is the record itself (the null checks on it are therefore not
    modelled), and [lh_time_t *out] is the result. *)
From S2P Require Import Prelude Interval.

Definition LH_TIME_HOUR_MAX : Z := 23.
Definition LH_TIME_MINUTE_MAX : Z := 59.
Definition LH_TIME_SECOND_MAX : Z := 59.
Definition LH_TIME_HOUR_RADIX : Z := 24.
Definition LH_TIME_MINUTE_RADIX : Z := 60.
Definition LH_TIME_SECOND_RADIX : Z := 60.
Definition LH_TIME_SECONDS_PER_MINUTE : Z := LH_TIME_SECOND_RADIX.
Definition LH_TIME_SECONDS_PER_HOUR : Z := LH_TIME_MINUTE_RADIX * LH_TIME_SECOND_RADIX.

(** ** Fields *)

Definition lh_time_hour_set (value : Z) : Z * Z :=
  let '(cur, overflow) := lh_interval_closed_wrap_set value 0 LH_TIME_HOUR_MAX in
  (u8 cur, overflow).
Definition lh_time_hour_init (value : Z) : Z := value.
Definition lh_time_hour_get (self : Z) : Z := self.
Definition lh_time_hour_add (self value : Z) : Z * Z :=
  let '(cur, overflow) :=
    lh_interval_closed_wrap_add (lh_time_hour_get self) value 0 LH_TIME_HOUR_MAX in
  (u8 cur, overflow).
Definition lh_time_hour_sub (self value : Z) : Z * Z :=
  let '(cur, overflow) :=
    lh_interval_closed_wrap_sub (lh_time_hour_get self) value 0 LH_TIME_HOUR_MAX in
  (u8 cur, overflow).
Definition lh_time_hour_equals (self other : Z) : bool :=
  lh_time_hour_get self =? lh_time_hour_get other.
Definition lh_time_hour_is_at_least (self minimum : Z) : bool :=
  lh_time_hour_get self >=? lh_time_hour_get minimum.
Definition lh_time_hour_is_less (self other : Z) : bool :=
  lh_time_hour_get self <? lh_time_hour_get other.
Definition lh_time_hour_is_greater (self other : Z) : bool :=
  lh_time_hour_is_less other self.

Definition lh_time_minute_set (value : Z) : Z * Z :=
  let '(cur, overflow) := lh_interval_closed_wrap_set value 0 LH_TIME_MINUTE_MAX in
  (u8 cur, overflow).
Definition lh_time_minute_init (value : Z) : Z := value.
Definition lh_time_minute_get (self : Z) : Z := self.
Definition lh_time_minute_add (self value : Z) : Z * Z :=
  let '(cur, overflow) :=
    lh_interval_closed_wrap_add (lh_time_minute_get self) value 0 LH_TIME_MINUTE_MAX in
  (u8 cur, overflow).
Definition lh_time_minute_sub (self value : Z) : Z * Z :=
  let '(cur, overflow) :=
    lh_interval_closed_wrap_sub (lh_time_minute_get self) value 0 LH_TIME_MINUTE_MAX in
  (u8 cur, overflow).
Definition lh_time_minute_equals (self other : Z) : bool :=
  lh_time_minute_get self =? lh_time_minute_get other.
Definition lh_time_minute_is_at_least (self minimum : Z) : bool :=
  lh_time_minute_get self >=? lh_time_minute_get minimum.
Definition lh_time_minute_is_less (self other : Z) : bool :=
  lh_time_minute_get self <? lh_time_minute_get other.
Definition lh_time_minute_is_greater (self other : Z) : bool :=
  lh_time_minute_is_less other self.

Definition lh_time_second_set (value : Z) : Z * Z :=
  let '(cur, overflow) := lh_interval_closed_wrap_set value 0 LH_TIME_SECOND_MAX in
  (u8 cur, overflow).
Definition lh_time_second_init (value : Z) : Z := value.
Definition lh_time_second_get (self : Z) : Z := self.
Definition lh_time_second_add (self value : Z) : Z * Z :=
  let '(cur, overflow) :=
    lh_interval_closed_wrap_add (lh_time_second_get self) value 0 LH_TIME_SECOND_MAX in
  (u8 cur, overflow).
Definition lh_time_second_sub (self value : Z) : Z * Z :=
  let '(cur, overflow) :=
    lh_interval_closed_wrap_sub (lh_time_second_get self) value 0 LH_TIME_SECOND_MAX in
  (u8 cur, overflow).
Definition lh_time_second_equals (self other : Z) : bool :=
  lh_time_second_get self =? lh_time_second_get other.
Definition lh_time_second_is_at_least (self minimum : Z) : bool :=
  lh_time_second_get self >=? lh_time_second_get minimum.
Definition lh_time_second_is_less (self other : Z) : bool :=
  lh_time_second_get self <? lh_time_second_get other.
Definition lh_time_second_is_greater (self other : Z) : bool :=
  lh_time_second_is_less other self.

(** ** Times *)

Record lh_time_t := mk_time { hour : Z; minute : Z; second : Z }.

Definition lh_time_set_hour (self : lh_time_t) (h : Z) : lh_time_t :=
  mk_time h (minute self) (second self).
Definition lh_time_set_minute (self : lh_time_t) (m : Z) : lh_time_t :=
  mk_time (hour self) m (second self).
Definition lh_time_set_second (self : lh_time_t) (s : Z) : lh_time_t :=
  mk_time (hour self) (minute self) s.
Definition lh_time_set (self : lh_time_t) (h m s : Z) : lh_time_t :=
  let self := lh_time_set_hour self h in
  let self := lh_time_set_minute self m in
  lh_time_set_second self s.
Definition lh_time_get_hour (self : lh_time_t) : Z := hour self.
Definition lh_time_get_minute (self : lh_time_t) : Z := minute self.
Definition lh_time_get_second (self : lh_time_t) : Z := second self.
Definition lh_time_assign (self other : lh_time_t) : lh_time_t :=
  lh_time_set self (lh_time_get_hour other) (lh_time_get_minute other)
    (lh_time_get_second other).

Definition lh_time_add_custom (self : lh_time_t) (h m s : Z) : lh_time_t * Z :=
  let '(self_second, overflow) := lh_time_second_add (lh_time_get_second self) s in
  let '(self_minute, overflow) :=
    lh_time_minute_add (lh_time_get_minute self) (u32 (m + overflow)) in
  let '(self_hour, overflow) :=
    lh_time_hour_add (lh_time_get_hour self) (u32 (h + overflow)) in
  (lh_time_set self self_hour self_minute self_second, overflow).
Definition lh_time_sub_custom (self : lh_time_t) (h m s : Z) : lh_time_t * Z :=
  let '(self_second, overflow) := lh_time_second_sub (lh_time_get_second self) s in
  let '(self_minute, overflow) :=
    lh_time_minute_sub (lh_time_get_minute self) (u32 (m + overflow)) in
  let '(self_hour, overflow) :=
    lh_time_hour_sub (lh_time_get_hour self) (u32 (h + overflow)) in
  (lh_time_set self self_hour self_minute self_second, overflow).

Definition lh_time_add_hour (self : lh_time_t) (value : Z) := lh_time_add_custom self value 0 0.
Definition lh_time_sub_hour (self : lh_time_t) (value : Z) := lh_time_sub_custom self value 0 0.
Definition lh_time_add_minute (self : lh_time_t) (value : Z) := lh_time_add_custom self 0 value 0.
Definition lh_time_sub_minute (self : lh_time_t) (value : Z) := lh_time_sub_custom self 0 value 0.
Definition lh_time_add_second (self : lh_time_t) (value : Z) := lh_time_add_custom self 0 0 value.
Definition lh_time_sub_second (self : lh_time_t) (value : Z) := lh_time_sub_custom self 0 0 value.
Definition lh_time_add (self other : lh_time_t) : lh_time_t * Z :=
  lh_time_add_custom self (lh_time_get_hour other) (lh_time_get_minute other)
    (lh_time_get_second other).
Definition lh_time_sub (self other : lh_time_t) : lh_time_t * Z :=
  lh_time_sub_custom self (lh_time_get_hour other) (lh_time_get_minute other)
    (lh_time_get_second other).

Definition lh_time_seconds_of_day (self : lh_time_t) : Z :=
  let hour_seconds := u32 (lh_time_get_hour self * LH_TIME_SECONDS_PER_HOUR) in
  let minute_seconds := u32 (lh_time_get_minute self * LH_TIME_SECONDS_PER_MINUTE) in
  u32 (u32 (hour_seconds + minute_seconds) + lh_time_get_second self).
(** [time] is the uninitialised local the C function fills. *)
Definition lh_time_from_seconds_of_day (time : lh_time_t) (seconds : Z) : lh_time_t :=
  let seconds_of_hour := seconds mod LH_TIME_SECONDS_PER_HOUR in
  lh_time_set time
    (u8 (seconds / LH_TIME_SECONDS_PER_HOUR))
    (u8 (seconds_of_hour / LH_TIME_SECONDS_PER_MINUTE))
    (u8 (seconds mod LH_TIME_SECONDS_PER_MINUTE)).

Definition lh_time_equals (self other : lh_time_t) : bool :=
  (lh_time_get_hour self =? lh_time_get_hour other)
  && (lh_time_get_minute self =? lh_time_get_minute other)
  && (lh_time_get_second self =? lh_time_get_second other).
Definition lh_time_is_at_least (self minimum : lh_time_t) : bool :=
  let self_hour := lh_time_get_hour self in
  let minimum_hour := lh_time_get_hour minimum in
  if negb (self_hour =? minimum_hour) then self_hour >? minimum_hour else
  let self_minute := lh_time_get_minute self in
  let minimum_minute := lh_time_get_minute minimum in
  if negb (self_minute =? minimum_minute) then self_minute >? minimum_minute else
  lh_time_get_second self >=? lh_time_get_second minimum.
Definition lh_time_is_less (self other : lh_time_t) : bool :=
  negb (lh_time_is_at_least self other).
Definition lh_time_is_greater (self other : lh_time_t) : bool :=
  lh_time_is_less other self.

(** ** Correctness *)

(** A time whose fields are in range, and the second of the day it names. *)
Definition time_valid (t : lh_time_t) : Prop :=
  0 <= hour t <= 23 /\ 0 <= minute t <= 59 /\ 0 <= second t <= 59.
#[export] Instance time_valid_dec t : Decision (time_valid t).
Proof. unfold time_valid. apply _. Defined.

Definition second_of_day (t : lh_time_t) : Z := hour t * 3600 + minute t * 60 + second t.
Definition duration (h m s : Z) : Z := h * 3600 + m * 60 + s.

Lemma second_of_day_inj t u :
  time_valid t -> time_valid u -> second_of_day t = second_of_day u -> t = u.
Proof.
  destruct t, u; unfold time_valid, second_of_day; simpl; intros. f_equal; lia.
Qed.

(** Each field operation is the quotient and remainder of its radix. *)
Section Fields.
Variables self value : Z.
Hypothesis Hvalue : is_u32 value.

Lemma hour_add_spec : 0 <= self <= 23 ->
  lh_time_hour_add self value = ((self + value) mod 24, (self + value) / 24).
Proof.
  intros. unfold lh_time_hour_add, lh_time_hour_get, LH_TIME_HOUR_MAX.
  rewrite wrap_add_spec by (done || lia). by rewrite u8_id by zdm.
Qed.
Lemma hour_sub_spec : 0 <= self <= 23 ->
  lh_time_hour_sub self value = ((self - value) mod 24, - ((self - value) / 24)).
Proof.
  intros. unfold lh_time_hour_sub, lh_time_hour_get, LH_TIME_HOUR_MAX.
  rewrite wrap_sub_spec by (done || lia). by rewrite u8_id by zdm.
Qed.
Lemma minute_add_spec : 0 <= self <= 59 ->
  lh_time_minute_add self value = ((self + value) mod 60, (self + value) / 60).
Proof.
  intros. unfold lh_time_minute_add, lh_time_minute_get, LH_TIME_MINUTE_MAX.
  rewrite wrap_add_spec by (done || lia). by rewrite u8_id by zdm.
Qed.
Lemma minute_sub_spec : 0 <= self <= 59 ->
  lh_time_minute_sub self value = ((self - value) mod 60, - ((self - value) / 60)).
Proof.
  intros. unfold lh_time_minute_sub, lh_time_minute_get, LH_TIME_MINUTE_MAX.
  rewrite wrap_sub_spec by (done || lia). by rewrite u8_id by zdm.
Qed.
Lemma second_add_spec : 0 <= self <= 59 ->
  lh_time_second_add self value = ((self + value) mod 60, (self + value) / 60).
Proof.
  intros. unfold lh_time_second_add, lh_time_second_get, LH_TIME_SECOND_MAX.
  rewrite wrap_add_spec by (done || lia). by rewrite u8_id by zdm.
Qed.
Lemma second_sub_spec : 0 <= self <= 59 ->
  lh_time_second_sub self value = ((self - value) mod 60, - ((self - value) / 60)).
Proof.
  intros. unfold lh_time_second_sub, lh_time_second_get, LH_TIME_SECOND_MAX.
  rewrite wrap_sub_spec by (done || lia). by rewrite u8_id by zdm.
Qed.
End Fields.

(** The minute and hour operands leave room for the carry coming from below:
    past that the C addition [minute + overflow] wraps. *)
Definition duration_fits (h m s : Z) : Prop :=
  is_u32 s /\ 0 <= m <= 4223384506 /\ 0 <= h <= 4223384506.

Lemma add_custom_fields t h m s :
  time_valid t -> duration_fits h m s ->
  let q1 := (second t + s) / 60 in
  let q2 := (minute t + (m + q1)) / 60 in
  lh_time_add_custom t h m s
  = (mk_time ((hour t + (h + q2)) mod 24) ((minute t + (m + q1)) mod 60)
       ((second t + s) mod 60),
     (hour t + (h + q2)) / 24).
Proof.
  intros (Hh & Hm & Hs) (Fs & Fm & Fh) q1 q2.
  unfold lh_time_add_custom, lh_time_get_hour, lh_time_get_minute, lh_time_get_second.
  rewrite second_add_spec by done. fold q1.
  assert (is_u32 (m + q1)) by (unfold q1; zdm).
  rewrite u32_id by done. rewrite minute_add_spec by done. fold q2.
  assert (is_u32 (h + q2)) by (unfold q2; zdm).
  rewrite u32_id by done. by rewrite hour_add_spec by done.
Qed.

Lemma sub_custom_fields t h m s :
  time_valid t -> duration_fits h m s ->
  let q1 := - ((second t - s) / 60) in
  let q2 := - ((minute t - (m + q1)) / 60) in
  lh_time_sub_custom t h m s
  = (mk_time ((hour t - (h + q2)) mod 24) ((minute t - (m + q1)) mod 60)
       ((second t - s) mod 60),
     - ((hour t - (h + q2)) / 24)).
Proof.
  intros (Hh & Hm & Hs) (Fs & Fm & Fh) q1 q2.
  unfold lh_time_sub_custom, lh_time_get_hour, lh_time_get_minute, lh_time_get_second.
  rewrite second_sub_spec by done. fold q1.
  assert (is_u32 (m + q1)) by (unfold q1; zdm).
  rewrite u32_id by done. rewrite minute_sub_spec by done. fold q2.
  assert (is_u32 (h + q2)) by (unfold q2; zdm).
  rewrite u32_id by done. by rewrite hour_sub_spec by done.
Qed.

Lemma add_custom_spec t h m s :
  time_valid t -> duration_fits h m s ->
  exists t' days, lh_time_add_custom t h m s = (t', days) /\ time_valid t' /\
    second_of_day t' + 86400 * days = second_of_day t + duration h m s.
Proof.
  intros Ht Hf. rewrite add_custom_fields by done. do 2 eexists. split; [done|].
  destruct Hf as (?&?&?), Ht as (?&?&?).
  unfold time_valid, second_of_day, duration; simpl. zdm.
Qed.

Lemma sub_custom_spec t h m s :
  time_valid t -> duration_fits h m s ->
  exists t' days, lh_time_sub_custom t h m s = (t', days) /\ time_valid t' /\
    second_of_day t' = second_of_day t - duration h m s + 86400 * days.
Proof.
  intros Ht Hf. rewrite sub_custom_fields by done. do 2 eexists. split; [done|].
  destruct Hf as (?&?&?), Ht as (?&?&?).
  unfold time_valid, second_of_day, duration; simpl. zdm.
Qed.

Lemma seconds_of_day_eq t : time_valid t -> lh_time_seconds_of_day t = second_of_day t.
Proof.
  intros (Hh & Hm & Hs). unfold lh_time_seconds_of_day, second_of_day,
    LH_TIME_SECONDS_PER_HOUR, LH_TIME_SECONDS_PER_MINUTE, LH_TIME_MINUTE_RADIX,
    LH_TIME_SECOND_RADIX, lh_time_get_hour, lh_time_get_minute, lh_time_get_second.
  by cint.
Qed.

Lemma from_seconds_of_day_spec t0 n :
  0 <= n < 86400 ->
  time_valid (lh_time_from_seconds_of_day t0 n)
  /\ second_of_day (lh_time_from_seconds_of_day t0 n) = n.
Proof.
  intros. unfold lh_time_from_seconds_of_day, LH_TIME_SECONDS_PER_HOUR,
    LH_TIME_SECONDS_PER_MINUTE, LH_TIME_MINUTE_RADIX, LH_TIME_SECOND_RADIX,
    time_valid, second_of_day; simpl. zdm.
Qed.

Lemma time_is_at_least_spec t u :
  time_valid t -> time_valid u ->
  lh_time_is_at_least t u = (second_of_day u <=? second_of_day t).
Proof.
  intros (?&?&?) (?&?&?). unfold lh_time_is_at_least, lh_time_get_hour,
    lh_time_get_minute, lh_time_get_second, second_of_day. zcases.
Qed.

Lemma time_equals_spec t u : lh_time_equals t u = true <-> t = u.
Proof.
  destruct t, u. unfold lh_time_equals; simpl.
  rewrite !andb_true_iff, !Z.eqb_eq. naive_solver.
Qed.

(** ** Properties *)

(** [lh_time_add_custom] is clock arithmetic.  For a valid time and a
    duration that leaves room for the carries, the result is the valid time
    whose second of the day is the sum modulo 86400, and the value returned is
    the number of whole days carried. *)
Theorem time_add_custom_clock t h m s :
  time_valid t -> duration_fits h m s ->
  let '(t', days) := lh_time_add_custom t h m s in
  time_valid t'
  /\ second_of_day t' = (second_of_day t + duration h m s) mod 86400
  /\ days = (second_of_day t + duration h m s) / 86400.
Proof.
  intros Ht Hf. destruct (add_custom_spec t h m s Ht Hf) as (t' & days & -> & Hv & Hs).
  split; [done|]. rewrite <- Hs.
  unfold time_valid, second_of_day in *. zdm.
Qed.

Lemma time_add_custom_clock_witness :
  let '(t', days) := lh_time_add_custom (mk_time 23 59 30) 25 0 45 in
  time_valid t'
  /\ second_of_day t' = (second_of_day (mk_time 23 59 30) + duration 25 0 45) mod 86400
  /\ days = (second_of_day (mk_time 23 59 30) + duration 25 0 45) / 86400.
Proof.
  apply (time_add_custom_clock (mk_time 23 59 30) 25 0 45).
  - unfold time_valid; simpl; lia.
  - unfold duration_fits; zb.
Defined.

(** [lh_time_sub_custom] undoes [lh_time_add_custom]: subtracting the
    duration just added restores the time, field by field, and borrows exactly
    the days the addition carried. *)
Theorem time_sub_undoes_add t h m s :
  time_valid t -> duration_fits h m s ->
  let '(t', days) := lh_time_add_custom t h m s in
  lh_time_sub_custom t' h m s = (t, days).
Proof.
  intros Ht Hf. destruct (add_custom_spec t h m s Ht Hf) as (t' & days & -> & Hv & Hs).
  destruct (sub_custom_spec t' h m s Hv Hf) as (t'' & days' & -> & Hv' & Hs').
  assert (days' = days) as ->.
  { destruct Ht as (?&?&?), Hv' as (?&?&?). unfold second_of_day in *. lia. }
  f_equal. apply second_of_day_inj; [done..|lia].
Qed.

Lemma time_sub_undoes_add_witness :
  let '(t', days) := lh_time_add_custom (mk_time 12 34 56) 100 4000000000 4294967295 in
  lh_time_sub_custom t' 100 4000000000 4294967295 = (mk_time 12 34 56, days).
Proof.
  apply (time_sub_undoes_add (mk_time 12 34 56) 100 4000000000 4294967295).
  - unfold time_valid; simpl; lia.
  - unfold duration_fits; zb.
Defined.
