(* ===== verification/Date.v ===== *)
(** * Calendar dates

    [lh/core/date/year.c], [month/index.c], [month.c], [day.c] and
    [lh/core/date.c] (without the text conversions of the latter).
    A year is an [lh_u16_t], a month and a day an [lh_u8_t].  Functions whose
    [lh_s64_t] arithmetic could overflow run in [outcome]. *)
From S2P Require Import Prelude Interval.

(** ** Floor division, [lh/core/math/floor.h]

    C truncates; [Z.quot] and [Z.rem] are its [/] and [%].  The only quotient
    that overflows is [LH_S64_T_MIN / -1]. *)
Definition lh_math_floor_div (a b : Z) : outcome Z :=
  if b =? 0 then Undef else
  q ← s64 (Z.quot a b);
  let r := Z.rem a b in
  if negb (r =? 0) && negb (Bool.eqb (r <? 0) (b <? 0)) then s64 (q - 1) else mret q.
Definition lh_math_floor_mod (a b : Z) : outcome Z :=
  d ← lh_math_floor_div a b;
  p ← s64 (b * d);
  s64 (a - p).

(** ** Years *)

Definition LH_DATE_YEAR_MAX : Z := LH_U16_T_MAX.
Definition LH_DATE_YEAR_LEAP_CYCLE : Z := 4.
Definition LH_DATE_YEAR_CENTURY : Z := 100.
Definition LH_DATE_YEAR_GREGORIAN_CYCLE : Z := 400.
Definition LH_DATE_YEAR_DAYS_COMMON : Z := 365.
Definition LH_DATE_YEAR_GREGORIAN_CYCLE_DAYS : Z := 146097.

Definition is_multiple_of (a b : Z) : bool := a mod b =? 0.

Definition lh_date_year_is_leap (self : Z) : bool :=
  if negb (is_multiple_of self LH_DATE_YEAR_LEAP_CYCLE) then false else
  if negb (is_multiple_of self LH_DATE_YEAR_CENTURY) then true else
  is_multiple_of self LH_DATE_YEAR_GREGORIAN_CYCLE.

Definition lh_date_year_days_from_zero (year : Z) : outcome Z :=
  y ← s64 (year - 1);
  leap_4 ← lh_math_floor_div y LH_DATE_YEAR_LEAP_CYCLE;
  leap_100 ← lh_math_floor_div y LH_DATE_YEAR_CENTURY;
  leap_400 ← lh_math_floor_div y LH_DATE_YEAR_GREGORIAN_CYCLE;
  d ← s64 (leap_4 - leap_100);
  e ← s64 (d + leap_400);
  leap_count ← s64 (e + 1);
  m ← s64 (LH_DATE_YEAR_DAYS_COMMON * year);
  s64 (m + leap_count).

(** The two correction loops of [lh_date_year_from_days_from_zero]; [fuel]
    bounds the iterations and running out is [Undef].  [year_up_total] and
    [year_down_total] show that the fuel below is never reached. *)
Fixpoint year_step_up (fuel : nat) (year days : Z) : outcome Z :=
  match fuel with
  | O => Undef
  | S fuel =>
    n ← s64 (year + 1);
    d ← lh_date_year_days_from_zero n;
    if d <=? days then year' ← s64 (year + 1); year_step_up fuel year' days
    else mret year
  end.
Fixpoint year_step_down (fuel : nat) (year days : Z) : outcome Z :=
  match fuel with
  | O => Undef
  | S fuel =>
    d ← lh_date_year_days_from_zero year;
    if d >? days then year' ← s64 (year - 1); year_step_down fuel year' days
    else mret year
  end.
Definition year_steps : nat := 4.
Definition lh_date_year_from_days_from_zero (days : Z) : outcome Z :=
  p ← s64 (days * LH_DATE_YEAR_GREGORIAN_CYCLE);
  year ← lh_math_floor_div p LH_DATE_YEAR_GREGORIAN_CYCLE_DAYS;
  year ← year_step_up year_steps year days;
  year_step_down year_steps year days.

Definition lh_date_year_days (self : Z) : Z :=
  u16 (if lh_date_year_is_leap self then LH_DATE_YEAR_DAYS_COMMON + 1
       else LH_DATE_YEAR_DAYS_COMMON).
Definition lh_date_year_add (self value : Z) : Z * Z :=
  let '(cur, overflow) := lh_interval_closed_wrap_add self value 0 LH_DATE_YEAR_MAX in
  (u16 cur, overflow).
Definition lh_date_year_sub (self value : Z) : Z * Z :=
  let '(cur, overflow) := lh_interval_closed_wrap_sub self value 0 LH_DATE_YEAR_MAX in
  (u16 cur, overflow).
Definition lh_date_year_equals (self other : Z) : bool := self =? other.
Definition lh_date_year_is_at_least (self minimum : Z) : bool := self >=? minimum.
Definition lh_date_year_is_less (self other : Z) : bool := self <? other.
Definition lh_date_year_is_greater (self other : Z) : bool := lh_date_year_is_less other self.

(** ** Months *)

Definition LH_DATE_MONTH_MIN : Z := 1.
Definition LH_DATE_MONTH_MAX : Z := 12.
Definition LH_DATE_MONTHS_PER_YEAR : Z := 12.
Definition LH_DATE_MONTH_INDEX_FEBRUARY : Z := 1.
Definition LH_DATE_MONTH_INDEX_MAX : Z := 11.

Definition lh_date_month_index_add (self value : Z) : Z * Z :=
  let '(cur, overflow) := lh_interval_closed_wrap_add self value 0 LH_DATE_MONTH_INDEX_MAX in
  (u8 cur, overflow).
Definition lh_date_month_index_sub (self value : Z) : Z * Z :=
  let '(cur, overflow) := lh_interval_closed_wrap_sub self value 0 LH_DATE_MONTH_INDEX_MAX in
  (u8 cur, overflow).
Definition lh_date_month_index_equals (self other : Z) : bool := self =? other.
Definition lh_date_month_index_is_at_least (self minimum : Z) : bool := self >=? minimum.
Definition lh_date_month_index_is_less (self other : Z) : bool := self <? other.
Definition lh_date_month_index_is_greater (self other : Z) : bool :=
  lh_date_month_index_is_less other self.

Definition lh_date_month_to_index (month : Z) : Z := u8 (u32 (month - LH_DATE_MONTH_MIN)).
Definition lh_date_month_from_index (index : Z) : Z := u8 (u32 (index + LH_DATE_MONTH_MIN)).
Definition month_out_of_range (month : Z) : bool :=
  (month <? LH_DATE_MONTH_MIN) || (month >? LH_DATE_MONTH_MAX).
Definition lh_date_month_add (self value : Z) : Z * Z :=
  if month_out_of_range self then (self, 0) else
  let index := lh_date_month_to_index self in
  let '(index, years) := lh_date_month_index_add index value in
  (lh_date_month_from_index index, years).
Definition lh_date_month_sub (self value : Z) : Z * Z :=
  if month_out_of_range self then (self, 0) else
  let index := lh_date_month_to_index self in
  let '(index, years) := lh_date_month_index_sub index value in
  (lh_date_month_from_index index, years).
Definition lh_date_month_equals (self other : Z) : bool := self =? other.
Definition lh_date_month_is_at_least (self minimum : Z) : bool := self >=? minimum.
Definition lh_date_month_is_less (self other : Z) : bool := self <? other.
Definition lh_date_month_is_greater (self other : Z) : bool := lh_date_month_is_less other self.

(** ** Days *)

Definition LH_DATE_DAY_MIN : Z := 1.
Definition LH_DATE_DAY_FEBRUARY : Z := 28.
Definition LH_DATE_DAY_FEBRUARY_LEAP : Z := 29.
Definition LH_DATE_DAY_SHORT : Z := 30.
Definition LH_DATE_DAY_MAX : Z := 31.

Definition days_table : list Z :=
  [LH_DATE_DAY_MAX; LH_DATE_DAY_FEBRUARY; LH_DATE_DAY_MAX; LH_DATE_DAY_SHORT;
   LH_DATE_DAY_MAX; LH_DATE_DAY_SHORT; LH_DATE_DAY_MAX; LH_DATE_DAY_MAX;
   LH_DATE_DAY_SHORT; LH_DATE_DAY_MAX; LH_DATE_DAY_SHORT; LH_DATE_DAY_MAX].
Definition before_table : list Z :=
  [0; 31; 59; 90; 120; 151; 181; 212; 243; 273; 304; 334].
(** Both indexes are in range when the month is ([days_index_in_range]). *)
Definition lh_date_days_in_month (year month : Z) : Z :=
  if month_out_of_range month then 0 else
  let index := lh_date_month_to_index month in
  if (index =? LH_DATE_MONTH_INDEX_FEBRUARY) && lh_date_year_is_leap year
  then LH_DATE_DAY_FEBRUARY_LEAP
  else nth (Z.to_nat index) days_table 0.
Definition lh_date_days_before_month (year month : Z) : Z :=
  if month_out_of_range month then 0 else
  let index := lh_date_month_to_index month in
  u16 (nth (Z.to_nat index) before_table 0
       + (if (index >? LH_DATE_MONTH_INDEX_FEBRUARY) && lh_date_year_is_leap year
          then 1 else 0)).
Definition lh_date_day_equals (self other : Z) : bool := self =? other.
Definition lh_date_day_is_at_least (self minimum : Z) : bool := self >=? minimum.
Definition lh_date_day_is_less (self other : Z) : bool := self <? other.
Definition lh_date_day_is_greater (self other : Z) : bool := lh_date_day_is_less other self.

(** ** Dates *)

Record lh_date_t := mk_date { year : Z; month : Z; day : Z }.

Definition LH_DATE_EPOCH_YEAR : Z := 1970.

Definition lh_date_set_year (self : lh_date_t) (y : Z) : lh_date_t :=
  mk_date y (month self) (day self).
Definition lh_date_set_month (self : lh_date_t) (m : Z) : lh_date_t :=
  mk_date (year self) m (day self).
Definition lh_date_set_day (self : lh_date_t) (d : Z) : lh_date_t :=
  mk_date (year self) (month self) d.
(** Arguments are [lh_uint_t]; the year and the month are narrowed. *)
Definition lh_date_ymd_is_valid (y m d : Z) : bool :=
  if (m <? LH_DATE_MONTH_MIN) || (d <? LH_DATE_DAY_MIN) then false
  else d <=? lh_date_days_in_month (u16 y) (u8 m).
Definition lh_date_set (self : lh_date_t) (y m d : Z) : lh_date_t :=
  let self := lh_date_set_year self y in
  let self := lh_date_set_month self m in
  lh_date_set_day self d.
Definition lh_date_get_year (self : lh_date_t) : Z := year self.
Definition lh_date_get_month (self : lh_date_t) : Z := month self.
Definition lh_date_get_day (self : lh_date_t) : Z := day self.
Definition lh_date_max_days (self : lh_date_t) : Z :=
  lh_date_days_in_month (lh_date_get_year self) (lh_date_get_month self).
Definition lh_date_assign (self other : lh_date_t) : lh_date_t :=
  lh_date_set self (lh_date_get_year other) (lh_date_get_month other) (lh_date_get_day other).

(** The month search of [lh_date_from_epoch_days]: the month only grows and
    stops at December, so twelve steps always reach its end. *)
Fixpoint month_search (fuel : nat) (y m day_of_year : Z) : outcome Z :=
  match fuel with
  | O => Undef
  | S fuel =>
    if (m <? LH_DATE_MONTH_MAX)
       && (lh_date_days_before_month y (u8 (m + 1)) <=? day_of_year)
    then month_search fuel y (u8 (m + 1)) day_of_year
    else mret m
  end.
(** [date] is the uninitialised local the C function fills. *)
Definition lh_date_from_epoch_days (date : lh_date_t) (days : Z) : outcome lh_date_t :=
  epoch ← lh_date_year_days_from_zero LH_DATE_EPOCH_YEAR;
  absolute ← s64 (days + epoch);
  year64 ← lh_date_year_from_days_from_zero absolute;
  let y := u16 year64 in
  first ← lh_date_year_days_from_zero year64;
  day_of_year ← s64 (absolute - first);
  start ← s64 (Z.quot day_of_year LH_DATE_DAY_MAX + 1);
  m ← month_search 12 y (u8 start) day_of_year;
  left ← s64 (day_of_year - lh_date_days_before_month y m);
  d ← s64 (left + 1);
  mret (lh_date_set date y m (u8 d)).

Definition lh_date_days_since_epoch (self : lh_date_t) : outcome Z :=
  let y := lh_date_get_year self in
  let m := lh_date_get_month self in
  here ← lh_date_year_days_from_zero y;
  epoch ← lh_date_year_days_from_zero LH_DATE_EPOCH_YEAR;
  days ← s64 (here - epoch);
  days ← s64 (days + lh_date_days_before_month y m);
  d ← s64 (lh_date_get_day self - 1);
  s64 (days + d).

Definition lh_date_add_month (self : lh_date_t) (value : Z) : lh_date_t * Z :=
  let '(m, carry) := lh_date_month_add (lh_date_get_month self) value in
  let '(y, overflow) := lh_date_year_add (lh_date_get_year self) carry in
  let max_day := lh_date_days_in_month y m in
  (lh_date_set self y m
     (if lh_date_get_day self >? max_day then max_day else lh_date_get_day self),
   overflow).
Definition lh_date_sub_month (self : lh_date_t) (value : Z) : lh_date_t * Z :=
  let '(m, carry) := lh_date_month_sub (lh_date_get_month self) value in
  let '(y, overflow) := lh_date_year_sub (lh_date_get_year self) carry in
  let max_day := lh_date_days_in_month y m in
  (lh_date_set self y m
     (if lh_date_get_day self >? max_day then max_day else lh_date_get_day self),
   overflow).
Definition lh_date_add_year (self : lh_date_t) (value : Z) : lh_date_t * Z :=
  lh_date_add_month self (u32 (value * LH_DATE_MONTHS_PER_YEAR)).
Definition lh_date_sub_year (self : lh_date_t) (value : Z) : lh_date_t * Z :=
  lh_date_sub_month self (u32 (value * LH_DATE_MONTHS_PER_YEAR)).

Definition lh_date_add_day (self : lh_date_t) (value : Z) : outcome (lh_date_t * Z) :=
  let before := lh_date_get_year self in
  days ← lh_date_days_since_epoch self;
  n ← s64 (days + value);
  result ← lh_date_from_epoch_days self n;
  let self := lh_date_assign self result in
  mret (self, if lh_date_get_year self <? before then 1 else 0).
Definition lh_date_sub_day (self : lh_date_t) (value : Z) : outcome (lh_date_t * Z) :=
  let before := lh_date_get_year self in
  days ← lh_date_days_since_epoch self;
  n ← s64 (days - value);
  result ← lh_date_from_epoch_days self n;
  let self := lh_date_assign self result in
  mret (self, if lh_date_get_year self >? before then 1 else 0).

Definition lh_date_add_custom (self : lh_date_t) (y m d : Z) : outcome (lh_date_t * Z) :=
  '(self, overflow) ← lh_date_add_day self d;
  let '(self, o) := lh_date_add_month self m in
  let overflow := u32 (overflow + o) in
  let '(self, o) := lh_date_add_year self y in
  mret (self, u32 (overflow + o)).
Definition lh_date_sub_custom (self : lh_date_t) (y m d : Z) : outcome (lh_date_t * Z) :=
  let '(self, overflow) := lh_date_sub_year self y in
  let '(self, o) := lh_date_sub_month self m in
  let overflow := u32 (overflow + o) in
  '(self, o) ← lh_date_sub_day self d;
  mret (self, u32 (overflow + o)).
Definition lh_date_add (self other : lh_date_t) : outcome (lh_date_t * Z) :=
  lh_date_add_custom self (lh_date_get_year other) (lh_date_get_month other)
    (lh_date_get_day other).
Definition lh_date_sub (self other : lh_date_t) : outcome (lh_date_t * Z) :=
  lh_date_sub_custom self (lh_date_get_year other) (lh_date_get_month other)
    (lh_date_get_day other).

Definition lh_date_equals (self other : lh_date_t) : bool :=
  (lh_date_get_year self =? lh_date_get_year other)
  && (lh_date_get_month self =? lh_date_get_month other)
  && (lh_date_get_day self =? lh_date_get_day other).
Definition lh_date_is_at_least (self minimum : lh_date_t) : bool :=
  let self_year := lh_date_get_year self in
  let minimum_year := lh_date_get_year minimum in
  if negb (self_year =? minimum_year) then self_year >? minimum_year else
  let self_month := lh_date_get_month self in
  let minimum_month := lh_date_get_month minimum in
  if negb (self_month =? minimum_month) then self_month >? minimum_month else
  lh_date_get_day self >=? lh_date_get_day minimum.
Definition lh_date_is_less (self other : lh_date_t) : bool :=
  negb (lh_date_is_at_least self other).
Definition lh_date_is_greater (self other : lh_date_t) : bool :=
  lh_date_is_less other self.
