(* ===== verification/DateProofs.v ===== *)
(** * The calendar is the Gregorian one

    A reference calendar (year lengths, month lengths, the next day) and the
    proofs that the closed forms and searches of [Date] implement it. *)
From S2P Require Import Prelude Interval Date.

(** ** Reference calendar *)

Definition leap (y : Z) : bool :=
  (y mod 4 =? 0) && (negb (y mod 100 =? 0) || (y mod 400 =? 0)).
Definition year_length (y : Z) : Z := if leap y then 366 else 365.
Definition month_length (y m : Z) : Z :=
  if m =? 2 then (if leap y then 29 else 28)
  else if (m =? 4) || (m =? 6) || (m =? 9) || (m =? 11) then 30 else 31.

Definition date_valid (d : lh_date_t) : Prop :=
  0 <= year d <= 65535 /\ 1 <= month d <= 12 /\ 1 <= day d <= month_length (year d) (month d).
#[export] Instance date_valid_dec d : Decision (date_valid d).
Proof. unfold date_valid. apply _. Defined.

Definition next_day (d : lh_date_t) : lh_date_t :=
  if day d <? month_length (year d) (month d) then mk_date (year d) (month d) (day d + 1)
  else if month d <? 12 then mk_date (year d) (month d + 1) 1
  else mk_date (year d + 1) 1 1.

(** The day number of 1 January, counted from year 0. *)
Definition dfz (y : Z) : Z :=
  365 * y + ((y - 1) / 4 - (y - 1) / 100 + (y - 1) / 400 + 1).
Definition before (y m : Z) : Z := lh_date_days_before_month y m.
Definition epoch_day (d : lh_date_t) : Z :=
  dfz (year d) - dfz 1970 + before (year d) (month d) + (day d - 1).

(** ** Years *)

Lemma floor_div_eq a b : is_s64 a -> 0 < b -> lh_math_floor_div a b = Done (a / b).
Proof.
  intros Ha Hb. unfold lh_math_floor_div.
  destruct (Z.eqb_spec b 0); [lia|].
  pose proof (Z.quot_rem' a b) as Hqr.
  pose proof (Z.rem_bound_abs a b ltac:(lia)) as Hr.
  pose proof (Z.rem_sign_nz a b) as Hs.
  assert (is_s64 (Z.quot a b)) as Hq by (unfold is_s64 in *; nia).
  rewrite s64_ok, bind_done by done.
  replace (b <? 0) with false by (symmetry; apply Z.ltb_ge; lia).
  destruct (Z.eqb_spec (Z.rem a b) 0) as [E|E]; simpl.
  - f_equal. rewrite E, Z.add_0_r in Hqr. rewrite Hqr at 2.
    by rewrite Z.mul_comm, Z.div_mul.
  - specialize (Hs ltac:(lia) E). destruct (Z.ltb_spec (Z.rem a b) 0); simpl.
    + assert (a / b = Z.quot a b - 1) as ->.
      { symmetry. apply (Z.div_unique_pos _ _ _ (Z.rem a b + b)); lia. }
      apply s64_ok. unfold is_s64 in *. nia.
    + f_equal. apply (Z.div_unique_pos _ _ _ (Z.rem a b)); lia.
Qed.

Lemma is_leap_eq y : lh_date_year_is_leap y = leap y.
Proof.
  unfold lh_date_year_is_leap, is_multiple_of, leap, LH_DATE_YEAR_LEAP_CYCLE,
    LH_DATE_YEAR_CENTURY, LH_DATE_YEAR_GREGORIAN_CYCLE.
  by destruct (y mod 4 =? 0), (y mod 100 =? 0), (y mod 400 =? 0).
Qed.

(** Years for which no intermediate value of the 64-bit code overflows. *)
Definition year_bound (y : Z) : Prop := -1000000000000000 <= y <= 1000000000000000.

Lemma days_from_zero_eq y :
  year_bound y -> lh_date_year_days_from_zero y = Done (dfz y).
Proof.
  unfold year_bound. intros Hy. unfold lh_date_year_days_from_zero, LH_DATE_YEAR_LEAP_CYCLE,
    LH_DATE_YEAR_CENTURY, LH_DATE_YEAR_GREGORIAN_CYCLE, LH_DATE_YEAR_DAYS_COMMON.
  run_s64. rewrite !floor_div_eq by (unfold is_s64; lia). run_s64. done.
Qed.

(** 400 [dfz y] stays within a few days of [146097 y]. *)
Lemma dfz_bounds y : 146097 * y - 396 <= 400 * dfz y <= 146097 * y + 699.
Proof. unfold dfz. Z.div_mod_to_equations. lia. Qed.

Lemma dfz_step y : dfz (y + 1) = dfz y + year_length y.
Proof.
  unfold dfz, year_length, leap. replace (y + 1 - 1) with y by lia.
  destruct (Z.eqb_spec (y mod 4) 0), (Z.eqb_spec (y mod 100) 0), (Z.eqb_spec (y mod 400) 0);
    simpl; Z.div_mod_to_equations; lia.
Qed.

Lemma year_length_bounds y : 365 <= year_length y <= 366.
Proof. unfold year_length. destruct (leap y); lia. Qed.

Lemma dfz_grows y n : 0 <= n -> dfz y + 365 * n <= dfz (y + n).
Proof.
  intros Hn. pattern n. apply natlike_ind; [|intros k Hk IH|done].
  - rewrite (Z.add_0_r y). lia.
  - replace (y + Z.succ k) with (y + k + 1) by lia. rewrite dfz_step.
    pose proof (year_length_bounds (y + k)). lia.
Qed.

Lemma dfz_mono y z : y <= z -> dfz y <= dfz z.
Proof. intros. pose proof (dfz_grows y (z - y)). replace (y + (z - y)) with z in * by lia. lia. Qed.

Lemma year_unique y z n :
  dfz y <= n < dfz (y + 1) -> dfz z <= n < dfz (z + 1) -> y = z.
Proof.
  intros. destruct (Z.lt_trichotomy y z) as [?|[?|?]]; [|done|].
  - pose proof (dfz_mono (y + 1) z). lia.
  - pose proof (dfz_mono (z + 1) y). lia.
Qed.

Definition day_bound (n : Z) : Prop := -20000000000000000 <= n <= 20000000000000000.

(** The estimate is off by at most one year, so each loop runs at most once:
    the fuel [year_steps] is never exhausted. *)
Lemma year_from_days_spec n :
  day_bound n ->
  exists y, lh_date_year_from_days_from_zero n = Done y /\ dfz y <= n < dfz (y + 1).
Proof.
  unfold day_bound. intros Hn.
  unfold lh_date_year_from_days_from_zero, LH_DATE_YEAR_GREGORIAN_CYCLE,
    LH_DATE_YEAR_GREGORIAN_CYCLE_DAYS.
  run_s64. rewrite floor_div_eq, bind_done by (unfold is_s64; lia).
  pose proof (Z.div_mod (n * 400) 146097 ltac:(done)) as He.
  pose proof (Z.mod_pos_bound (n * 400) 146097 ltac:(done)) as Hr.
  remember (n * 400 / 146097) as e eqn:Ee. clear Ee.
  pose proof (dfz_bounds (e - 1)) as B1. pose proof (dfz_bounds (e + 2)) as B2.
  assert (-60000000000000 <= e <= 60000000000000) as Hb by lia.
  assert (forall k, -3 <= k <= 3 ->
    lh_date_year_days_from_zero (e + k) = Done (dfz (e + k))) as Hd
    by (intros; apply days_from_zero_eq; unfold year_bound; lia).
  pose proof (Hd 0 ltac:(lia)) as E0. rewrite Z.add_0_r in E0.
  pose proof (Hd (-1) ltac:(lia)) as Em1. pose proof (Hd 1 ltac:(lia)) as E1.
  pose proof (Hd 2 ltac:(lia)) as E2.
  change (e + -1) with (e - 1) in Em1.
  unfold year_steps. cbn [year_step_up].
  run_s64. rewrite E1, bind_done. destruct (Z.leb_spec (dfz (e + 1)) n).
  - run_s64. replace (e + 1 + 1) with (e + 2) by lia. rewrite E2, bind_done.
    destruct (Z.leb_spec (dfz (e + 2)) n); [lia|].
    cbn [year_step_down mret outcome_ret]. rewrite bind_done, E1, bind_done.
    rewrite Z.gtb_ltb. destruct (Z.ltb_spec n (dfz (e + 1))); [lia|].
    exists (e + 1). split; [done|]. replace (e + 1 + 1) with (e + 2) by lia. lia.
  - cbn [year_step_down mret outcome_ret]. rewrite bind_done, E0, bind_done, Z.gtb_ltb.
    destruct (Z.ltb_spec n (dfz e)).
    + run_s64. rewrite Em1, bind_done, Z.gtb_ltb.
      destruct (Z.ltb_spec n (dfz (e - 1))); [lia|].
      exists (e - 1). split; [done|]. replace (e - 1 + 1) with e by lia. lia.
    + exists e. done.
Qed.

(** ** Months *)

(** The month tables depend on the year through its leap bit only, so facts
    about them are checked by evaluation on one leap and one common year. *)
Definition sample (b : bool) : Z := if b then 2000 else 2001.
Lemma leap_sample b : leap (sample b) = b.
Proof. by destruct b. Qed.

Lemma days_in_month_leap y z m :
  leap y = leap z -> lh_date_days_in_month y m = lh_date_days_in_month z m.
Proof. unfold lh_date_days_in_month. rewrite !is_leap_eq. by intros ->. Qed.
Lemma before_leap y z m : leap y = leap z -> before y m = before z m.
Proof. unfold before, lh_date_days_before_month. rewrite !is_leap_eq. by intros ->. Qed.
Lemma month_length_leap y z m : leap y = leap z -> month_length y m = month_length z m.
Proof. unfold month_length. by intros ->. Qed.
Lemma year_length_leap y z : leap y = leap z -> year_length y = year_length z.
Proof. unfold year_length. by intros ->. Qed.

(** Reduce a statement about the tables of [y] to the sample year. *)
Ltac to_sample y :=
  let H := fresh "Hs" in
  pose proof (leap_sample (leap y)) as H; symmetry in H;
  repeat (rewrite (days_in_month_leap y _ _ H) || rewrite (before_leap y _ _ H)
          || rewrite (month_length_leap y _ _ H) || rewrite (year_length_leap y _ H));
  clear H; generalize (leap y).

(** A boolean statement about every integer of a range, by evaluation. *)
Lemma forall_range (P : Z -> bool) lo n :
  forallb P (seqZ lo n) = true -> forall x, lo <= x < lo + n -> P x = true.
Proof.
  intros H x Hx. rewrite forallb_forall in H. apply H.
  apply list_elem_of_In, elem_of_seqZ. lia.
Qed.

Lemma days_in_month_eq y m : 1 <= m <= 12 -> lh_date_days_in_month y m = month_length y m.
Proof.
  intros Hm. to_sample y. intros b.
  apply Z.eqb_eq, (forall_range (fun m => lh_date_days_in_month (sample b) m
    =? month_length (sample b) m) 1 12); [by destruct b|lia].
Qed.

Lemma days_in_month_out y m : ~ 1 <= m <= 12 -> lh_date_days_in_month y m = 0.
Proof.
  intros Hm. unfold lh_date_days_in_month, month_out_of_range, LH_DATE_MONTH_MIN,
    LH_DATE_MONTH_MAX. rewrite Z.gtb_ltb.
  destruct (Z.ltb_spec m 1); [done|]. destruct (Z.ltb_spec 12 m); [done|lia].
Qed.

Lemma month_length_bounds y m : 28 <= month_length y m <= 31.
Proof. unfold month_length. destruct (leap y), (m =? 2), (m =? 4), (m =? 6), (m =? 9), (m =? 11); simpl; lia. Qed.

Lemma before_next y m :
  1 <= m < 12 -> before y (m + 1) = before y m + month_length y m.
Proof.
  intros Hm. to_sample y. intros b.
  apply Z.eqb_eq, (forall_range (fun m => before (sample b) (m + 1)
    =? before (sample b) m + month_length (sample b) m) 1 11); [by destruct b|lia].
Qed.
Lemma before_first y : before y 1 = 0.
Proof. done. Qed.
Lemma before_last y : before y 12 + month_length y 12 = year_length y.
Proof. to_sample y. by intros []. Qed.
Lemma before_bounds y m : 0 <= before y m <= 335.
Proof.
  destruct (decide (1 <= m <= 12)) as [Hm|Hm].
  - to_sample y. intros b.
    pose proof (forall_range (fun m => (0 <=? before (sample b) m) && (before (sample b) m <=? 335))
      1 12 ltac:(by destruct b) m ltac:(lia)) as H. simpl in H. lia.
  - unfold before, lh_date_days_before_month, month_out_of_range, LH_DATE_MONTH_MIN,
      LH_DATE_MONTH_MAX. rewrite Z.gtb_ltb.
    destruct (Z.ltb_spec m 1); [simpl; lia|]. destruct (Z.ltb_spec 12 m); simpl; lia.
Qed.
Lemma before_mono y m n : 1 <= m -> m < n -> n <= 12 -> before y m + month_length y m <= before y n.
Proof.
  intros Hm Hmn Hn. replace n with (m + 1 + (n - m - 1)) by lia.
  assert (n - m - 1 <= 12 - m - 1) as Hle by lia. revert Hle.
  generalize (n - m - 1) as k, (ltac:(lia) : 0 <= n - m - 1). clear n Hmn Hn.
  intros k Hk. pattern k. apply natlike_ind; [| |done].
  - intros ?. rewrite (Z.add_0_r (m + 1)), before_next; lia.
  - intros j Hj IH Hle. replace (m + 1 + Z.succ j) with (m + 1 + j + 1) by lia.
    rewrite before_next by lia. pose proof (month_length_bounds y (m + 1 + j)). lia.
Qed.

(** The month search finds the month the day of the year is in, from the
    estimate [day_of_year / 31 + 1] on; evaluated for all 731 days. *)
Definition month_found (y doy : Z) (r : outcome Z) : bool :=
  match r with
  | Done m => (1 <=? m) && (m <=? 12) && (before y m <=? doy)
              && (doy <? before y m + month_length y m)
  | _ => false
  end.
Lemma month_search_sample b doy :
  0 <= doy < year_length (sample b) ->
  month_found (sample b) doy
    (month_search 12 (sample b) (u8 (Z.quot doy 31 + 1)) doy) = true.
Proof.
  intros. apply (forall_range (fun doy => month_found (sample b) doy
    (month_search 12 (sample b) (u8 (Z.quot doy 31 + 1)) doy)) 0
    (year_length (sample b))); [by destruct b; vm_compute|lia].
Qed.
Lemma month_search_leap fuel y z m doy :
  leap y = leap z -> month_search fuel y m doy = month_search fuel z m doy.
Proof.
  intros H. revert m. induction fuel as [|fuel IH]; intros m; simpl; [done|].
  change (lh_date_days_before_month y) with (before y).
  change (lh_date_days_before_month z) with (before z).
  by rewrite (before_leap y z (u8 (m + 1)) H), IH.
Qed.
Lemma month_search_spec y doy :
  0 <= doy < year_length y ->
  exists m, month_search 12 y (u8 (Z.quot doy 31 + 1)) doy = Done m /\
    1 <= m <= 12 /\ before y m <= doy < before y m + month_length y m.
Proof.
  intros H. pose proof (leap_sample (leap y)) as Hs. symmetry in Hs.
  rewrite (year_length_leap y _ Hs) in H.
  pose proof (month_search_sample (leap y) doy H) as Hm.
  rewrite <- (month_search_leap _ y _ _ _ Hs) in Hm. unfold month_found in Hm.
  destruct (month_search 12 y _ doy) as [m| |]; try done.
  rewrite <- (before_leap y _ m Hs), <- (month_length_leap y _ m Hs) in Hm.
  exists m. split; [done|]. lia.
Qed.

(** ** Day numbers *)

Lemma dfz_1970 : dfz 1970 = 719528.
Proof. done. Qed.
Lemma dfz_u16 y : 0 <= y <= 65536 -> 0 <= dfz y <= 23936532.
Proof. intros. unfold dfz. Z.div_mod_to_equations. lia. Qed.

Lemma days_since_epoch_eq d :
  0 <= year d <= 65535 -> 0 <= day d <= 255 -> lh_date_days_since_epoch d = Done (epoch_day d).
Proof.
  intros Hy Hd. unfold lh_date_days_since_epoch, lh_date_get_year, lh_date_get_month,
    lh_date_get_day, LH_DATE_EPOCH_YEAR, epoch_day.
  change (lh_date_days_before_month (year d) (month d)) with (before (year d) (month d)).
  rewrite !days_from_zero_eq, !bind_done, dfz_1970 by (unfold year_bound; lia).
  pose proof (dfz_u16 (year d) ltac:(lia)). pose proof (before_bounds (year d) (month d)).
  run_s64. done.
Qed.

(** The day of the year, from the epoch day. *)
Lemma epoch_day_in_year d :
  date_valid d ->
  dfz (year d) <= epoch_day d + dfz 1970 < dfz (year d + 1)
  /\ before (year d) (month d) <= epoch_day d + dfz 1970 - dfz (year d)
     < before (year d) (month d) + month_length (year d) (month d).
Proof.
  intros (Hy & Hm & Hd). unfold epoch_day. rewrite dfz_step.
  pose proof (before_bounds (year d) (month d)). pose proof (before_last (year d)).
  pose proof (month_length_bounds (year d) 12).
  destruct (decide (month d = 12)) as [E|]; [rewrite E in *; lia|].
  pose proof (before_mono (year d) (month d) 12). lia.
Qed.

(** Converting a day number gives the date whose year, cut to 16 bits, selects
    the month; in the years a date can hold the cut does nothing. *)
Lemma from_epoch_days_spec d0 n :
  0 <= n + dfz 1970 < dfz 65536 ->
  exists d, lh_date_from_epoch_days d0 n = Done d /\ date_valid d /\ epoch_day d = n.
Proof.
  intros Hn. rewrite dfz_1970 in *. change (dfz 65536) with 23936532 in *.
  unfold lh_date_from_epoch_days, LH_DATE_EPOCH_YEAR.
  rewrite days_from_zero_eq, bind_done, dfz_1970 by (unfold year_bound; lia). run_s64.
  destruct (year_from_days_spec (n + 719528)) as (y & -> & Hy); [unfold day_bound; lia|].
  rewrite bind_done.
  assert (0 <= y <= 65535) as Hb.
  { pose proof (dfz_mono (y + 1) 0) as H0. pose proof (dfz_mono 65536 y) as H1.
    change (dfz 65536) with 23936532 in H1. change (dfz 0) with 0 in H0. lia. }
  rewrite u16_id by zb. rewrite days_from_zero_eq, bind_done by (unfold year_bound; lia).
  pose proof (dfz_u16 y ltac:(lia)). rewrite dfz_step in Hy.
  pose proof (year_length_bounds y).
  rewrite s64_ok, bind_done by (unfold is_s64; lia).
  assert (0 <= Z.quot (n + 719528 - dfz y) 31 <= 11) as Hq.
  { rewrite Z.quot_div_nonneg by lia. zdm. }
  unfold LH_DATE_DAY_MAX. rewrite s64_ok, bind_done by (unfold is_s64; lia).
  destruct (month_search_spec y (n + 719528 - dfz y)) as (m & -> & Hm & Hd); [lia|].
  rewrite bind_done.
  change (lh_date_days_before_month y m) with (before y m).
  pose proof (month_length_bounds y m). run_s64. rewrite u8_id by zb.
  eexists. split; [done|]. unfold date_valid, epoch_day. simpl. rewrite dfz_1970. lia.
Qed.

(** Day numbers order valid dates lexicographically, hence injectively. *)
Lemma epoch_day_lex d e :
  date_valid d -> date_valid e ->
  (epoch_day d < epoch_day e <->
   year d < year e \/ year d = year e /\ (month d < month e
     \/ month d = month e /\ day d < day e)).
Proof.
  intros Hd He.
  pose proof (epoch_day_in_year d Hd) as [Hyd Hmd].
  pose proof (epoch_day_in_year e He) as [Hye Hme].
  destruct Hd as (?&?&?), He as (?&?&?).
  destruct (Z.lt_trichotomy (year d) (year e)) as [Hlt|[Heq|Hgt]].
  - pose proof (dfz_mono (year d + 1) (year e)). lia.
  - rewrite Heq in *. destruct (Z.lt_trichotomy (month d) (month e)) as [Hlt|[Hm|Hgt]].
    + pose proof (before_mono (year e) (month d) (month e)). lia.
    + unfold epoch_day. rewrite Heq, Hm. lia.
    + pose proof (before_mono (year e) (month e) (month d)). lia.
  - pose proof (dfz_mono (year e + 1) (year d)). lia.
Qed.
Lemma epoch_day_inj d e :
  date_valid d -> date_valid e -> epoch_day d = epoch_day e -> d = e.
Proof.
  intros Hd He Heq. pose proof (epoch_day_lex d e Hd He). pose proof (epoch_day_lex e d He Hd).
  destruct d, e; simpl in *. f_equal; lia.
Qed.

Lemma epoch_day_next d : date_valid d -> epoch_day (next_day d) = epoch_day d + 1.
Proof.
  intros (Hy & Hm & Hd). unfold next_day.
  destruct (Z.ltb_spec (day d) (month_length (year d) (month d))).
  { unfold epoch_day; simpl. lia. }
  assert (day d = month_length (year d) (month d)) as Hday by lia.
  destruct (Z.ltb_spec (month d) 12).
  - unfold epoch_day; simpl. rewrite before_next; lia.
  - assert (month d = 12) as H12 by lia. unfold epoch_day; simpl.
    rewrite dfz_step, before_first, Hday, H12. pose proof (before_last (year d)). lia.
Qed.

Lemma date_is_at_least_spec d e :
  date_valid d -> date_valid e ->
  lh_date_is_at_least d e = (epoch_day e <=? epoch_day d).
Proof.
  intros Hd He. pose proof (epoch_day_lex d e Hd He) as Hlex.
  apply eq_true_iff_eq. rewrite Z.leb_le.
  unfold lh_date_is_at_least, lh_date_get_year, lh_date_get_month, lh_date_get_day.
  rewrite !Z.gtb_ltb, Z.geb_leb.
  destruct (Z.eqb_spec (year d) (year e)); simpl; [|rewrite Z.ltb_lt; lia].
  destruct (Z.eqb_spec (month d) (month e)); simpl; [rewrite Z.leb_le|rewrite Z.ltb_lt]; lia.
Qed.

(** ** Month arithmetic *)

Lemma month_add_spec m v :
  1 <= m <= 12 -> is_u32 v ->
  lh_date_month_add m v = ((m - 1 + v) mod 12 + 1, (m - 1 + v) / 12).
Proof.
  intros Hm Hv. unfold lh_date_month_add, month_out_of_range, lh_date_month_to_index,
    lh_date_month_from_index, lh_date_month_index_add, LH_DATE_MONTH_MIN, LH_DATE_MONTH_MAX,
    LH_DATE_MONTH_INDEX_MAX.
  rewrite Z.gtb_ltb, (proj2 (Z.ltb_ge m 1)), (proj2 (Z.ltb_ge 12 m)) by lia. cbn [orb].
  cint. rewrite wrap_add_spec by (zb || done || lia). by cint_with zdm.
Qed.
Lemma month_sub_spec m v :
  1 <= m <= 12 -> is_u32 v ->
  lh_date_month_sub m v = ((m - 1 - v) mod 12 + 1, - ((m - 1 - v) / 12)).
Proof.
  intros Hm Hv. unfold lh_date_month_sub, month_out_of_range, lh_date_month_to_index,
    lh_date_month_from_index, lh_date_month_index_sub, LH_DATE_MONTH_MIN, LH_DATE_MONTH_MAX,
    LH_DATE_MONTH_INDEX_MAX.
  rewrite Z.gtb_ltb, (proj2 (Z.ltb_ge m 1)), (proj2 (Z.ltb_ge 12 m)) by lia. cbn [orb].
  cint. rewrite wrap_sub_spec by (zb || done || lia). by cint_with zdm.
Qed.
Lemma year_add_spec y v :
  is_u16 y -> is_u32 v ->
  lh_date_year_add y v = ((y + v) mod 65536, (y + v) / 65536).
Proof.
  intros Hy Hv. unfold lh_date_year_add, LH_DATE_YEAR_MAX, LH_U16_T_MAX.
  rewrite wrap_add_spec by zb. by rewrite u16_id by zdm.
Qed.
Lemma year_sub_spec y v :
  is_u16 y -> is_u32 v ->
  lh_date_year_sub y v = ((y - v) mod 65536, - ((y - v) / 65536)).
Proof.
  intros Hy Hv. unfold lh_date_year_sub, LH_DATE_YEAR_MAX, LH_U16_T_MAX.
  rewrite wrap_sub_spec by zb. by rewrite u16_id by zdm.
Qed.

(** The month of a date, counted from year 0. *)
Definition month_number (d : lh_date_t) : Z := 12 * year d + (month d - 1).
(** The date [k] months from year 0, keeping the day where the month has it. *)
Definition date_at_month (k dd : Z) : lh_date_t :=
  mk_date (k / 12) (k mod 12 + 1) (Z.min dd (month_length (k / 12) (k mod 12 + 1))).
Definition months_total : Z := 12 * 65536.

Lemma clamp_min dd y m :
  1 <= m <= 12 ->
  (if dd >? lh_date_days_in_month y m then lh_date_days_in_month y m else dd)
  = Z.min dd (month_length y m).
Proof. intros Hm. rewrite days_in_month_eq by done. zcases. Qed.

Lemma date_at_month_valid k dd :
  0 <= k < months_total -> 1 <= dd -> date_valid (date_at_month k dd).
Proof.
  intros Hk Hd. unfold date_valid, date_at_month, months_total in *; simpl.
  pose proof (month_length_bounds (k / 12) (k mod 12 + 1)). zdm.
Qed.

Lemma date_at_month_split k y i dd :
  0 <= i < 12 -> k = 12 * y + i ->
  date_at_month (k mod months_total) dd
  = mk_date (y mod 65536) (i + 1) (Z.min dd (month_length (y mod 65536) (i + 1)))
  /\ k / months_total = y / 65536.
Proof.
  intros Hi ->. unfold date_at_month, months_total.
  assert ((12 * y + i) mod (12 * 65536) / 12 = y mod 65536) as -> by zdm.
  assert ((12 * y + i) mod (12 * 65536) mod 12 = i) as -> by zdm.
  split; [done|zdm].
Qed.
Lemma add_month_eq d v :
  date_valid d -> is_u32 v ->
  lh_date_add_month d v
  = (date_at_month ((month_number d + v) mod months_total) (day d),
     (month_number d + v) / months_total).
Proof.
  intros (Hy & Hm & Hd) Hv. unfold lh_date_add_month, lh_date_get_month, lh_date_get_year,
    lh_date_get_day.
  rewrite month_add_spec, year_add_spec by zdm. rewrite clamp_min by zdm.
  destruct (date_at_month_split (month_number d + v) (year d + (month d - 1 + v) / 12)
              ((month d - 1 + v) mod 12) (day d)) as [-> ->]; [zdm| |done].
  unfold month_number. zdm.
Qed.
Lemma sub_month_eq d v :
  date_valid d -> is_u32 v ->
  lh_date_sub_month d v
  = (date_at_month ((month_number d - v) mod months_total) (day d),
     - ((month_number d - v) / months_total)).
Proof.
  intros (Hy & Hm & Hd) Hv. unfold lh_date_sub_month, lh_date_get_month, lh_date_get_year,
    lh_date_get_day.
  rewrite month_sub_spec, year_sub_spec by zdm. rewrite clamp_min by zdm.
  rewrite Z.sub_opp_r.
  destruct (date_at_month_split (month_number d - v) (year d + (month d - 1 - v) / 12)
              ((month d - 1 - v) mod 12) (day d)) as [-> ->]; [zdm| |done].
  unfold month_number. zdm.
Qed.

(** The first and the last day an [lh_date_t] can hold. *)
Definition first_date : lh_date_t := mk_date 0 1 1.
Definition last_date : lh_date_t := mk_date 65535 12 31.
Definition epoch_range (n : Z) : Prop := -719528 <= n <= 23217003.

Lemma epoch_range_iff n : epoch_range n <-> 0 <= n + dfz 1970 < dfz 65536.
Proof. unfold epoch_range. change (dfz 1970) with 719528. change (dfz 65536) with 23936532. lia. Qed.
Lemma epoch_day_range d : date_valid d -> epoch_range (epoch_day d).
Proof.
  intros Hd. apply epoch_range_iff. pose proof (epoch_day_in_year d Hd) as [Hy _].
  destruct Hd as (Hr & _). pose proof (dfz_mono (year d + 1) 65536).
  pose proof (dfz_u16 (year d)). lia.
Qed.
Lemma date_assign_eq d e : lh_date_assign d e = e.
Proof. by destruct d, e. Qed.

Lemma add_day_in_range d v :
  date_valid d -> 0 <= v -> epoch_range (epoch_day d + v) ->
  exists d', lh_date_add_day d v = Done (d', 0) /\ date_valid d'
    /\ epoch_day d' = epoch_day d + v.
Proof.
  intros Hd Hv Hr. unfold lh_date_add_day.
  destruct (Hd) as (Hy & _ & Hday). pose proof (month_length_bounds (year d) (month d)).
  rewrite days_since_epoch_eq, bind_done by lia.
  pose proof (epoch_day_range d Hd). unfold epoch_range in *.
  rewrite s64_ok, bind_done by (unfold is_s64; lia).
  destruct (from_epoch_days_spec d (epoch_day d + v)) as (d' & Hf & Hv' & He).
  { apply epoch_range_iff. unfold epoch_range. lia. }
  (* the uninitialised local does not influence the result *)
  unfold lh_date_from_epoch_days in *. rewrite Hf, bind_done, date_assign_eq.
  exists d'. split; [|done].
  assert (year d <= year d') as Hle.
  { destruct (Z.le_gt_cases (year d) (year d')); [done|].
    pose proof (epoch_day_lex d' d Hv' Hd). lia. }
  unfold lh_date_get_year. by rewrite (proj2 (Z.ltb_ge _ _) Hle).
Qed.
Lemma sub_day_in_range d v :
  date_valid d -> 0 <= v -> epoch_range (epoch_day d - v) ->
  exists d', lh_date_sub_day d v = Done (d', 0) /\ date_valid d'
    /\ epoch_day d' = epoch_day d - v.
Proof.
  intros Hd Hv Hr. unfold lh_date_sub_day.
  destruct (Hd) as (Hy & _ & Hday). pose proof (month_length_bounds (year d) (month d)).
  rewrite days_since_epoch_eq, bind_done by lia.
  pose proof (epoch_day_range d Hd). unfold epoch_range in *.
  rewrite s64_ok, bind_done by (unfold is_s64; lia).
  destruct (from_epoch_days_spec d (epoch_day d - v)) as (d' & Hf & Hv' & He).
  { apply epoch_range_iff. unfold epoch_range. lia. }
  unfold lh_date_from_epoch_days in *. rewrite Hf, bind_done, date_assign_eq.
  exists d'. split; [|done].
  assert (year d' <= year d) as Hle.
  { destruct (Z.le_gt_cases (year d') (year d)); [done|].
    pose proof (epoch_day_lex d d' Hd Hv'). lia. }
  unfold lh_date_get_year. rewrite Z.gtb_ltb. by rewrite (proj2 (Z.ltb_ge _ _) Hle).
Qed.

(** ** Properties *)

(** Claim C29: [lh_date_from_epoch_days] and [lh_date_days_since_epoch] are
    inverse bijections between the valid dates of the years 0 to 65535 and the
    day numbers of 0000-01-01 to 65535-12-31: both loops end, no 64-bit
    operation overflows, the date produced is a real calendar day. *)
Theorem date_epoch_bijection d0 n :
  epoch_range n ->
  (exists d, lh_date_from_epoch_days d0 n = Done d /\ date_valid d
             /\ lh_date_days_since_epoch d = Done n)
  /\ (forall d, date_valid d -> lh_date_days_since_epoch d = Done n ->
        lh_date_from_epoch_days d0 n = Done d).
Proof.
  intros Hn. apply epoch_range_iff in Hn.
  destruct (from_epoch_days_spec d0 n Hn) as (d & Hf & Hv & He).
  assert (forall e, date_valid e -> lh_date_days_since_epoch e = Done (epoch_day e)) as Hs.
  { intros e (Hy & _ & Hd). pose proof (month_length_bounds (year e) (month e)).
    apply days_since_epoch_eq; lia. }
  split.
  - exists d. rewrite Hs, He by done. done.
  - intros e Hve Hde. rewrite Hs in Hde by done. injection Hde as Hde.
    rewrite Hf. f_equal. apply epoch_day_inj; [done..|lia].
Qed.

Lemma date_epoch_bijection_witness :
  (exists d, lh_date_from_epoch_days first_date 19782 = Done d /\ date_valid d
             /\ lh_date_days_since_epoch d = Done 19782)
  /\ (forall d, date_valid d -> lh_date_days_since_epoch d = Done 19782 ->
        lh_date_from_epoch_days first_date 19782 = Done d).
Proof. apply (date_epoch_bijection first_date 19782). unfold epoch_range; lia. Defined.

(** Claim C30: the day count is the Gregorian calendar: 1970-01-01 is day 0 and
    the day after a date (next day of the month, first of the next month, or
    1 January of the next year) has the next number.  With the order of
    [lh_date_is_at_least] this fixes the numbering of every valid date. *)
Theorem date_count_is_gregorian d :
  date_valid d -> date_valid (next_day d) ->
  lh_date_days_since_epoch (mk_date 1970 1 1) = Done 0
  /\ exists n, lh_date_days_since_epoch d = Done n
       /\ lh_date_days_since_epoch (next_day d) = Done (n + 1)
       /\ lh_date_is_at_least d (next_day d) = false.
Proof.
  intros Hd Hn. split; [done|]. exists (epoch_day d).
  rewrite date_is_at_least_spec, (epoch_day_next d Hd) by done.
  rewrite !days_since_epoch_eq, (epoch_day_next d Hd).
  - split; [done|]. split; [done|]. apply Z.leb_gt. lia.
  - by destruct Hn.
  - destruct Hn as (_ & _ & ?). pose proof (month_length_bounds (year (next_day d)) (month (next_day d))). lia.
  - by destruct Hd.
  - destruct Hd as (_ & _ & ?). pose proof (month_length_bounds (year d) (month d)). lia.
Qed.

Lemma date_count_is_gregorian_witness :
  lh_date_days_since_epoch (mk_date 1970 1 1) = Done 0
  /\ exists n, lh_date_days_since_epoch (mk_date 2024 2 29) = Done n
       /\ lh_date_days_since_epoch (next_day (mk_date 2024 2 29)) = Done (n + 1)
       /\ lh_date_is_at_least (mk_date 2024 2 29) (next_day (mk_date 2024 2 29)) = false.
Proof.
  apply (date_count_is_gregorian (mk_date 2024 2 29));
    unfold date_valid, month_length; simpl; lia.
Defined.

(** [lh_date_add_month] and [lh_date_sub_month] count months from
    year 0 modulo the 65536 years a date can hold, return the whole ranges
    carried or borrowed, keep the day unless the month is shorter, and always
    leave a valid date, for every [lh_uint_t] operand. *)
Theorem date_month_arithmetic d v :
  date_valid d -> is_u32 v ->
  let at_month n := date_at_month (n mod months_total) (day d) in
  lh_date_add_month d v
  = (at_month (month_number d + v), (month_number d + v) / months_total)
  /\ lh_date_sub_month d v
     = (at_month (month_number d - v), - ((month_number d - v) / months_total))
  /\ date_valid (at_month (month_number d + v))
  /\ date_valid (at_month (month_number d - v)).
Proof.
  intros Hd Hv at_month. split; [by apply add_month_eq|]. split; [by apply sub_month_eq|].
  destruct Hd as (_ & _ & ?).
  split; apply date_at_month_valid; try lia; apply Z.mod_pos_bound; done.
Qed.

Lemma date_month_arithmetic_witness :
  let at_month n := date_at_month (n mod months_total) 31 in
  lh_date_add_month (mk_date 2024 1 31) 1
  = (at_month (month_number (mk_date 2024 1 31) + 1),
     (month_number (mk_date 2024 1 31) + 1) / months_total)
  /\ lh_date_sub_month (mk_date 2024 1 31) 1
     = (at_month (month_number (mk_date 2024 1 31) - 1),
        - ((month_number (mk_date 2024 1 31) - 1) / months_total))
  /\ date_valid (at_month (month_number (mk_date 2024 1 31) + 1))
  /\ date_valid (at_month (month_number (mk_date 2024 1 31) - 1)).
Proof.
  apply (date_month_arithmetic (mk_date 2024 1 31) 1);
    unfold date_valid, month_length; simpl; zb.
Defined.

(** While the day reached is one a date can hold, [lh_date_add_day]
    moves a valid date exactly [v] days forward and reports no wrap, and
    [lh_date_sub_day] by the same [v] restores the date. *)
Theorem date_day_arithmetic d v :
  date_valid d -> 0 <= v -> epoch_range (epoch_day d + v) ->
  exists d', lh_date_add_day d v = Done (d', 0) /\ date_valid d'
    /\ lh_date_days_since_epoch d' = (n ← lh_date_days_since_epoch d; mret (n + v))
    /\ lh_date_sub_day d' v = Done (d, 0).
Proof.
  intros Hd Hv Hr. destruct (add_day_in_range d v Hd Hv Hr) as (d' & Ha & Hd' & He).
  exists d'. split; [done|]. split; [done|].
  assert (forall e, date_valid e -> lh_date_days_since_epoch e = Done (epoch_day e)) as Hs.
  { intros e (Hy & _ & Hx). pose proof (month_length_bounds (year e) (month e)).
    apply days_since_epoch_eq; lia. }
  split. { rewrite !Hs, He by done. done. }
  destruct (sub_day_in_range d' v Hd' Hv) as (d'' & Hsub & Hd'' & He'').
  { replace (epoch_day d' - v) with (epoch_day d) by lia. by apply epoch_day_range. }
  rewrite Hsub. do 2 f_equal. apply epoch_day_inj; [done..|lia].
Qed.

Lemma date_day_arithmetic_witness :
  exists d', lh_date_add_day (mk_date 2023 12 31) 60 = Done (d', 0) /\ date_valid d'
    /\ lh_date_days_since_epoch d'
       = (n ← lh_date_days_since_epoch (mk_date 2023 12 31); mret (n + 60))
    /\ lh_date_sub_day d' 60 = Done (mk_date 2023 12 31, 0).
Proof.
  apply (date_day_arithmetic (mk_date 2023 12 31) 60).
  - unfold date_valid, month_length; simpl; lia.
  - lia.
  - unfold epoch_range; vm_compute; split; discriminate.
Defined.

(** Past year 65535 the day arithmetic is not that of the header.
    [lh_date_from_epoch_days] cuts the year to 16 bits before it looks for the
    month, so a leap year whose cut year is common leaves a date that does not
    exist (65535-01-01 plus 37255 days is 0100-12-32); and the wrap is reported
    by comparing years, so one that comes back to the same or a later year
    (0000-01-01 plus 23936532 days) returns 0 where the header says 1. *)
Theorem date_add_day_wrap_faults :
  (date_valid (mk_date 65535 1 1)
   /\ lh_date_add_day (mk_date 65535 1 1) 37255 = Done (mk_date 100 12 32, 1)
   /\ ~ date_valid (mk_date 100 12 32))
  /\ (date_valid first_date /\ ~ epoch_range (epoch_day first_date + 23936532)
      /\ lh_date_add_day first_date 23936532 = Done (first_date, 0)).
Proof.
  split.
  - split; [by apply (bool_decide_unpack _)|]. split; [by vm_compute|].
    unfold date_valid; simpl. vm_compute. intros (_ & _ & _ & H). by apply H.
  - split; [by apply (bool_decide_unpack _)|]. split; [|by vm_compute].
    unfold epoch_range. vm_compute. intros [_ H]. by apply H.
Qed.

Lemma ymd_valid y m d : is_u32 y -> is_u32 m -> is_u32 d -> y <= 65535 -> m <= 255 ->
  (lh_date_ymd_is_valid y m d = true <-> date_valid (mk_date y m d)).
Proof.
  intros Hy Hm Hd ??. unfold lh_date_ymd_is_valid, LH_DATE_MONTH_MIN, LH_DATE_DAY_MIN.
  rewrite u16_id, u8_id by zb. unfold date_valid; simpl. destruct (decide (1 <= m <= 12)).
  - rewrite days_in_month_eq by done. zcases; split; intros; try done; zb.
  - rewrite days_in_month_out by done. zcases; split; intros; try done; zb.
Qed.

(** [lh_date_ymd_is_valid] narrows the year and the month before
    looking the month up, so it accepts every month that is valid modulo 256,
    whatever the year; on operands that fit the fields it is exact. *)
Theorem date_ymd_is_valid_spec y m d :
  is_u32 y -> is_u32 m -> is_u32 d ->
  (y <= 65535 -> m <= 255 ->
   (lh_date_ymd_is_valid y m d = true <-> date_valid (mk_date y m d)))
  /\ (lh_date_ymd_is_valid y (m mod 16777216 * 256 + 1) 31 = true).
Proof.
  intros Hy Hm Hd. split; [by apply ymd_valid|].
  unfold lh_date_ymd_is_valid, LH_DATE_MONTH_MIN, LH_DATE_DAY_MIN.
  rewrite (proj2 (Z.ltb_ge _ _)) by zdm.
    assert (u8 (m mod 16777216 * 256 + 1) = 1) as -> by zdm. done.
Qed.

Lemma date_ymd_is_valid_spec_witness :
  (2024 <= 65535 -> 1 <= 255 ->
   (lh_date_ymd_is_valid 2024 1 31 = true <-> date_valid (mk_date 2024 1 31)))
  /\ (lh_date_ymd_is_valid 2024 (1 mod 16777216 * 256 + 1) 31 = true).
Proof. apply (date_ymd_is_valid_spec 2024 1 31); zb. Defined.

(** [lh_date_add_year] is [lh_date_add_month] by twelve times the
    value as long as that product fits 32 bits; the header allows any
    [lh_uint_t], but 357913942 years move the date by eight months only. *)
Theorem date_add_year_spec d v :
  date_valid d -> is_u32 v ->
  (v <= 357913941 ->
   fst (lh_date_add_year d v)
   = date_at_month ((month_number d + 12 * v) mod months_total) (day d)
   /\ snd (lh_date_add_year d v) = (year d + v) / 65536)
  /\ lh_date_add_year (mk_date 2024 5 5) 357913942 = (mk_date 2025 1 5, 0).
Proof.
  intros Hd Hv. split; [|by vm_compute]. intros Hle. unfold lh_date_add_year,
    LH_DATE_MONTHS_PER_YEAR.
  rewrite u32_id by zb. rewrite add_month_eq by (done || zb). simpl.
  replace (v * 12) with (12 * v) by lia. split; [done|].
  destruct Hd as (?&?&_). unfold month_number, months_total. zdm.
Qed.

Lemma date_add_year_spec_witness :
  (1 <= 357913941 ->
   fst (lh_date_add_year (mk_date 2024 2 29) 1)
   = date_at_month ((month_number (mk_date 2024 2 29) + 12 * 1) mod months_total) 29
   /\ snd (lh_date_add_year (mk_date 2024 2 29) 1) = (2024 + 1) / 65536)
  /\ lh_date_add_year (mk_date 2024 5 5) 357913942 = (mk_date 2025 1 5, 0).
Proof.
  apply (date_add_year_spec (mk_date 2024 2 29) 1);
    unfold date_valid, month_length; simpl; zb.
Defined.
