(* ===== verification/Timestamp.v ===== *)
(** * Date-times and timestamps

    [lh/core/datetime.c] and [lh/core/timestamp.c] (without the text
    conversions of the former).  A timestamp is an
    [lh_s64_t]: seconds since 1970-01-01 00:00:00. *)
From S2P Require Import Prelude Interval TimeOfDay Date DateProofs.

(** ** Date-times *)

Record lh_datetime_t := mk_datetime { date : lh_date_t; time : lh_time_t }.

Definition lh_datetime_set_date (self : lh_datetime_t) (d : lh_date_t) : lh_datetime_t :=
  mk_datetime (lh_date_assign (date self) d) (time self).
Definition lh_datetime_set_time (self : lh_datetime_t) (t : lh_time_t) : lh_datetime_t :=
  mk_datetime (date self) (lh_time_assign (time self) t).
Definition lh_datetime_set (self : lh_datetime_t) (d : lh_date_t) (t : lh_time_t)
    : lh_datetime_t :=
  let self := lh_datetime_set_date self d in
  lh_datetime_set_time self t.
Definition lh_datetime_get_date (self : lh_datetime_t) : lh_date_t := date self.
Definition lh_datetime_get_time (self : lh_datetime_t) : lh_time_t := time self.
Definition lh_datetime_assign (self other : lh_datetime_t) : lh_datetime_t :=
  let d := lh_datetime_get_date other in
  let t := lh_datetime_get_time other in
  lh_datetime_set self d t.

Definition lh_datetime_add (self other : lh_datetime_t) : outcome (lh_datetime_t * Z) :=
  let other_date := lh_datetime_get_date other in
  let other_time := lh_datetime_get_time other in
  let d := lh_datetime_get_date self in
  let t := lh_datetime_get_time self in
  let '(t, day_carry) := lh_time_add t other_time in
  '(d, overflow) ← lh_date_add_day d day_carry;
  '(d, o) ← lh_date_add d other_date;
  let overflow := u32 (overflow + o) in
  mret (lh_datetime_set self d t, overflow).
Definition lh_datetime_sub (self other : lh_datetime_t) : outcome (lh_datetime_t * Z) :=
  let other_date := lh_datetime_get_date other in
  let other_time := lh_datetime_get_time other in
  let d := lh_datetime_get_date self in
  let t := lh_datetime_get_time self in
  '(d, overflow) ← lh_date_sub d other_date;
  let '(t, day_borrow) := lh_time_sub t other_time in
  '(d, o) ← lh_date_sub_day d day_borrow;
  let overflow := u32 (overflow + o) in
  mret (lh_datetime_set self d t, overflow).

Definition lh_datetime_equals (self other : lh_datetime_t) : bool :=
  lh_date_equals (lh_datetime_get_date self) (lh_datetime_get_date other)
  && lh_time_equals (lh_datetime_get_time self) (lh_datetime_get_time other).
Definition lh_datetime_is_at_least (self minimum : lh_datetime_t) : bool :=
  let self_date := lh_datetime_get_date self in
  let minimum_date := lh_datetime_get_date minimum in
  if negb (lh_date_equals self_date minimum_date)
  then lh_date_is_at_least self_date minimum_date else
  lh_time_is_at_least (lh_datetime_get_time self) (lh_datetime_get_time minimum).
Definition lh_datetime_is_less (self other : lh_datetime_t) : bool :=
  negb (lh_datetime_is_at_least self other).
Definition lh_datetime_is_greater (self other : lh_datetime_t) : bool :=
  lh_datetime_is_less other self.

(** ** Timestamps

    [date0] and [time0] are the indeterminate contents of the local [lh_date_t]
    and [lh_time_t] variables that the C functions declare and then fill. *)

Definition LH_TIMESTAMP_SECONDS_PER_DAY : Z := 86400.

Section Timestamps.
  Variables (date0 : lh_date_t) (time0 : lh_time_t).

Definition lh_timestamp_floor_div (a b : Z) : outcome Z := lh_math_floor_div a b.
Definition lh_timestamp_floor_mod (a b : Z) : outcome Z := lh_math_floor_mod a b.
Definition lh_timestamp_from_date (self : lh_date_t) : outcome Z :=
  days ← lh_date_days_since_epoch self;
  s64 (days * LH_TIMESTAMP_SECONDS_PER_DAY).
Definition lh_timestamp_from_time (self : lh_time_t) : Z := lh_time_seconds_of_day self.
Definition lh_timestamp_from_datetime (self : lh_datetime_t) : outcome Z :=
  let d := lh_datetime_get_date self in
  let t := lh_datetime_get_time self in
  days ← lh_timestamp_from_date d;
  s64 (days + lh_timestamp_from_time t).

Definition lh_timestamp_get_days (self : Z) : outcome Z :=
  lh_timestamp_floor_div self LH_TIMESTAMP_SECONDS_PER_DAY.
Definition lh_timestamp_get_seconds_of_day (self : Z) : outcome Z :=
  lh_timestamp_floor_mod self LH_TIMESTAMP_SECONDS_PER_DAY.
Definition lh_timestamp_get_date (self : Z) : outcome lh_date_t :=
  days ← lh_timestamp_get_days self;
  lh_date_from_epoch_days date0 days.
Definition lh_timestamp_get_time (self : Z) : outcome lh_time_t :=
  seconds ← lh_timestamp_get_seconds_of_day self;
  mret (lh_time_from_seconds_of_day time0 (u32 seconds)).
Definition lh_timestamp_to_datetime (self : Z) (out : lh_datetime_t) : outcome lh_datetime_t :=
  d ← lh_timestamp_get_date self;
  t ← lh_timestamp_get_time self;
  mret (lh_datetime_set out d t).

Definition lh_timestamp_get_year (self : Z) : outcome Z :=
  d ← lh_timestamp_get_date self; mret (lh_date_get_year d).
Definition lh_timestamp_get_month (self : Z) : outcome Z :=
  d ← lh_timestamp_get_date self; mret (lh_date_get_month d).
Definition lh_timestamp_get_day (self : Z) : outcome Z :=
  d ← lh_timestamp_get_date self; mret (lh_date_get_day d).
Definition lh_timestamp_get_hour (self : Z) : outcome Z :=
  t ← lh_timestamp_get_time self; mret (lh_time_get_hour t).
Definition lh_timestamp_get_minute (self : Z) : outcome Z :=
  t ← lh_timestamp_get_time self; mret (lh_time_get_minute t).
Definition lh_timestamp_get_second (self : Z) : outcome Z :=
  t ← lh_timestamp_get_time self; mret (lh_time_get_second t).

Definition lh_timestamp_add_seconds (self seconds : Z) : outcome Z := s64 (self + seconds).
Definition lh_timestamp_sub_seconds (self seconds : Z) : outcome Z := s64 (self - seconds).
Definition lh_timestamp_add_days (self days : Z) : outcome Z :=
  seconds ← s64 (days * LH_TIMESTAMP_SECONDS_PER_DAY);
  lh_timestamp_add_seconds self seconds.
Definition lh_timestamp_sub_days (self days : Z) : outcome Z :=
  seconds ← s64 (days * LH_TIMESTAMP_SECONDS_PER_DAY);
  lh_timestamp_sub_seconds self seconds.

Definition lh_timestamp_add_months (self months : Z) : outcome Z :=
  d ← lh_timestamp_get_date self;
  seconds_of_day ← lh_timestamp_get_seconds_of_day self;
  let '(d, _) := lh_date_add_month d months in
  days ← lh_timestamp_from_date d;
  s64 (days + seconds_of_day).
Definition lh_timestamp_sub_months (self months : Z) : outcome Z :=
  d ← lh_timestamp_get_date self;
  seconds_of_day ← lh_timestamp_get_seconds_of_day self;
  let '(d, _) := lh_date_sub_month d months in
  days ← lh_timestamp_from_date d;
  s64 (days + seconds_of_day).
Definition lh_timestamp_add_years (self years : Z) : outcome Z :=
  d ← lh_timestamp_get_date self;
  seconds_of_day ← lh_timestamp_get_seconds_of_day self;
  let '(d, _) := lh_date_add_year d years in
  days ← lh_timestamp_from_date d;
  s64 (days + seconds_of_day).
Definition lh_timestamp_sub_years (self years : Z) : outcome Z :=
  d ← lh_timestamp_get_date self;
  seconds_of_day ← lh_timestamp_get_seconds_of_day self;
  let '(d, _) := lh_date_sub_year d years in
  days ← lh_timestamp_from_date d;
  s64 (days + seconds_of_day).

Definition lh_timestamp_diff (self other : Z) : outcome Z := s64 (self - other).
Definition lh_timestamp_equals (self other : Z) : bool := self =? other.
Definition lh_timestamp_is_at_least (self minimum : Z) : bool := self >=? minimum.
Definition lh_timestamp_is_less (self other : Z) : bool :=
  negb (lh_timestamp_is_at_least self other).
Definition lh_timestamp_is_greater (self other : Z) : bool := lh_timestamp_is_less other self.

(** ** Lemmas *)

Definition datetime_valid (dt : lh_datetime_t) : Prop :=
  date_valid (date dt) /\ time_valid (time dt).
Definition second_number (dt : lh_datetime_t) : Z :=
  86400 * epoch_day (date dt) + second_of_day (time dt).
(** The seconds of the days a date can hold. *)
Definition timestamp_range (n : Z) : Prop := epoch_range (n / 86400).

Lemma second_of_day_range t : time_valid t -> 0 <= second_of_day t < 86400.
Proof. intros (?&?&?). unfold second_of_day. lia. Qed.
Lemma days_since_epoch_valid d :
  date_valid d -> lh_date_days_since_epoch d = Done (epoch_day d).
Proof.
  intros (Hy & _ & Hd). pose proof (month_length_bounds (year d) (month d)).
  apply days_since_epoch_eq; lia.
Qed.
Lemma from_date_eq d : date_valid d -> lh_timestamp_from_date d = Done (86400 * epoch_day d).
Proof.
  intros Hd. unfold lh_timestamp_from_date, LH_TIMESTAMP_SECONDS_PER_DAY.
  rewrite days_since_epoch_valid, bind_done by done.
  pose proof (epoch_day_range d Hd). unfold epoch_range in *.
  rewrite s64_ok by (unfold is_s64; lia). f_equal. lia.
Qed.
Lemma from_datetime_eq dt :
  datetime_valid dt -> lh_timestamp_from_datetime dt = Done (second_number dt).
Proof.
  intros [Hd Ht]. unfold lh_timestamp_from_datetime, lh_datetime_get_date,
    lh_datetime_get_time, lh_timestamp_from_time, second_number.
  rewrite from_date_eq, bind_done, seconds_of_day_eq by done.
  pose proof (epoch_day_range _ Hd). pose proof (second_of_day_range _ Ht).
  unfold epoch_range in *. by rewrite s64_ok by (unfold is_s64; lia).
Qed.
Lemma second_number_split dt :
  datetime_valid dt ->
  second_number dt / 86400 = epoch_day (date dt)
  /\ second_number dt mod 86400 = second_of_day (time dt).
Proof.
  intros [_ Ht]. pose proof (second_of_day_range _ Ht). unfold second_number. zdm.
Qed.
Lemma second_number_inj d e :
  datetime_valid d -> datetime_valid e -> second_number d = second_number e -> d = e.
Proof.
  intros Hd He Heq. pose proof (second_number_split d Hd) as [H1 H2].
  pose proof (second_number_split e He) as [H3 H4]. rewrite <- Heq in H3, H4.
  destruct Hd as [Hd Ht], He as [He Hu].
  destruct d as [dd dt], e as [ed et]; simpl in *. f_equal.
  - apply epoch_day_inj; [done..|congruence].
  - apply second_of_day_inj; [done..|congruence].
Qed.

Lemma get_days_eq n : timestamp_range n -> lh_timestamp_get_days n = Done (n / 86400).
Proof.
  intros Hn. apply floor_div_eq; unfold timestamp_range, epoch_range in *; [|done].
  unfold is_s64. zdm.
Qed.
Lemma get_seconds_of_day_eq n :
  timestamp_range n -> lh_timestamp_get_seconds_of_day n = Done (n mod 86400).
Proof.
  intros Hn. unfold lh_timestamp_get_seconds_of_day, lh_timestamp_floor_mod, lh_math_floor_mod,
    LH_TIMESTAMP_SECONDS_PER_DAY.
  unfold timestamp_range, epoch_range in *.
  rewrite floor_div_eq, bind_done by (unfold is_s64; zdm).
  rewrite (s64_ok (86400 * _)), bind_done by (unfold is_s64; zdm).
  rewrite s64_ok by (unfold is_s64; zdm). f_equal. zdm.
Qed.
Lemma get_date_spec n :
  timestamp_range n ->
  exists d, lh_timestamp_get_date n = Done d /\ date_valid d /\ epoch_day d = n / 86400.
Proof.
  intros Hn. unfold lh_timestamp_get_date. rewrite get_days_eq, bind_done by done.
  apply from_epoch_days_spec. by apply epoch_range_iff.
Qed.
Lemma get_time_spec n :
  timestamp_range n ->
  exists t, lh_timestamp_get_time n = Done t /\ time_valid t /\ second_of_day t = n mod 86400.
Proof.
  intros Hn. unfold lh_timestamp_get_time. rewrite get_seconds_of_day_eq, bind_done by done.
  assert (0 <= n mod 86400 < 86400) by (apply Z.mod_pos_bound; done).
  rewrite u32_id by zb. eexists. split; [done|]. by apply from_seconds_of_day_spec.
Qed.
Lemma datetime_set_eq self d t : lh_datetime_set self d t = mk_datetime d t.
Proof. by destruct self, d, t. Qed.
Lemma to_datetime_spec n out :
  timestamp_range n ->
  exists dt, lh_timestamp_to_datetime n out = Done dt /\ datetime_valid dt
    /\ second_number dt = n.
Proof.
  intros Hn. unfold lh_timestamp_to_datetime.
  destruct (get_date_spec n Hn) as (d & -> & Hd & Ed).
  destruct (get_time_spec n Hn) as (t & -> & Ht & Et).
  rewrite !bind_done, datetime_set_eq. exists (mk_datetime d t).
  split; [done|]. split; [done|]. unfold second_number; simpl. rewrite Ed, Et. zdm.
Qed.
Lemma datetime_order d e :
  datetime_valid d -> datetime_valid e ->
  lh_datetime_is_at_least d e = (second_number e <=? second_number d).
Proof.
  intros [Hd Ht] [He Hu]. unfold lh_datetime_is_at_least, lh_datetime_get_date,
    lh_datetime_get_time, second_number.
  pose proof (second_of_day_range _ Ht). pose proof (second_of_day_range _ Hu).
  destruct (lh_date_equals (date d) (date e)) eqn:E; simpl.
  - assert (date d = date e) as ->.
    { unfold lh_date_equals in E. rewrite !andb_true_iff, !Z.eqb_eq in E.
      destruct (date d), (date e); simpl in *. f_equal; tauto. }
    rewrite time_is_at_least_spec by done. zcases.
  - rewrite date_is_at_least_spec by done.
    assert (epoch_day (date d) <> epoch_day (date e)).
    { intros Heq. apply epoch_day_inj in Heq; [|done..]. rewrite Heq in E.
      unfold lh_date_equals in E. by rewrite !Z.eqb_refl in E. }
    zcases.
Qed.

End Timestamps.

(** ** Adding a clock duration *)

(** A date-time whose date is all zero is a duration of hours, minutes and
    seconds. *)
Definition no_days : lh_date_t := mk_date 0 0 0.

Lemma date_at_month_self d :
  date_valid d -> date_at_month (month_number d mod months_total) (day d) = d.
Proof.
  intros (Hy & Hm & Hd).
  destruct (date_at_month_split (month_number d) (year d) (month d - 1) (day d)) as [-> _];
    [lia|unfold month_number; lia|].
  rewrite Z.mod_small by lia. replace (month d - 1 + 1) with (month d) by lia.
  destruct d; simpl in *. f_equal. lia.
Qed.
Lemma month_carry_self d : date_valid d -> month_number d / months_total = 0.
Proof. intros (Hy & Hm & _). unfold month_number, months_total. zdm. Qed.
Lemma add_zero_date d : date_valid d -> lh_date_add d no_days = Done (d, 0).
Proof.
  intros Hd. unfold lh_date_add, lh_date_add_custom, no_days; simpl.
  destruct (add_day_in_range d 0) as (d' & Ha & Hd' & He); [done..| |].
  { rewrite Z.add_0_r. by apply epoch_day_range. }
  rewrite Z.add_0_r in He. apply epoch_day_inj in He as ->; [|done..].
  rewrite Ha. cbn [mbind outcome_bind].
  change (lh_date_add_year ?x 0) with (lh_date_add_month x 0).
  rewrite !add_month_eq, !Z.add_0_r, date_at_month_self, month_carry_self by done.
  by rewrite add_month_eq, !Z.add_0_r, date_at_month_self, month_carry_self by done.
Qed.
Lemma sub_zero_date d : date_valid d -> lh_date_sub d no_days = Done (d, 0).
Proof.
  intros Hd. unfold lh_date_sub, lh_date_sub_custom, no_days; simpl.
  change (lh_date_sub_year d 0) with (lh_date_sub_month d 0).
  rewrite sub_month_eq, Z.sub_0_r, date_at_month_self, month_carry_self by done.
  rewrite sub_month_eq, Z.sub_0_r, date_at_month_self, month_carry_self by done.
  destruct (sub_day_in_range d 0) as (d' & Ha & Hd' & He); [done..| |].
  { rewrite Z.sub_0_r. by apply epoch_day_range. }
  rewrite Z.sub_0_r in He. apply epoch_day_inj in He as ->; [|done..]. by rewrite Ha.
Qed.
Lemma time_fits t : time_valid t -> duration_fits (hour t) (minute t) (second t).
Proof. intros (?&?&?). unfold duration_fits. zb. Qed.

Lemma datetime_add_clock dt t :
  datetime_valid dt -> time_valid t -> timestamp_range (second_number dt + second_of_day t) ->
  exists dt', lh_datetime_add dt (mk_datetime no_days t) = Done (dt', 0)
    /\ datetime_valid dt' /\ second_number dt' = second_number dt + second_of_day t.
Proof.
  intros [Hd Hs] Ht Hr. unfold lh_datetime_add, lh_datetime_get_time, lh_datetime_get_date.
  cbn [date time].
  destruct (add_custom_spec (time dt) (hour t) (minute t) (second t) Hs (time_fits t Ht))
    as (u & c & Ha & Hu & Es).
  unfold lh_time_add, lh_time_get_hour, lh_time_get_minute, lh_time_get_second. rewrite Ha.
  change (duration _ _ _) with (second_of_day t) in Es.
  pose proof (second_of_day_range _ Hu). pose proof (second_of_day_range _ Ht).
  pose proof (second_of_day_range _ Hs).
  destruct (add_day_in_range (date dt) c) as (d' & Hadd & Hd' & He); [done|lia| |].
  { unfold timestamp_range, second_number in Hr.
    replace (epoch_day (date dt) + c) with
      ((86400 * epoch_day (date dt) + second_of_day (time dt) + second_of_day t) / 86400)
      by zdm. done. }
  rewrite Hadd. cbn [mbind outcome_bind]. rewrite add_zero_date by done.
  cbn [mbind outcome_bind]. rewrite datetime_set_eq. exists (mk_datetime d' u).
  split; [done|]. split; [done|]. unfold second_number in *; simpl. lia.
Qed.
Lemma datetime_sub_clock dt t :
  datetime_valid dt -> time_valid t -> timestamp_range (second_number dt - second_of_day t) ->
  exists dt', lh_datetime_sub dt (mk_datetime no_days t) = Done (dt', 0)
    /\ datetime_valid dt' /\ second_number dt' = second_number dt - second_of_day t.
Proof.
  intros [Hd Hs] Ht Hr. unfold lh_datetime_sub, lh_datetime_get_time, lh_datetime_get_date.
  cbn [date time].
  rewrite sub_zero_date by done. cbn [mbind outcome_bind].
  destruct (sub_custom_spec (time dt) (hour t) (minute t) (second t) Hs (time_fits t Ht))
    as (u & c & Ha & Hu & Es).
  unfold lh_time_sub, lh_time_get_hour, lh_time_get_minute, lh_time_get_second. rewrite Ha.
  change (duration _ _ _) with (second_of_day t) in Es.
  pose proof (second_of_day_range _ Hu). pose proof (second_of_day_range _ Ht).
  pose proof (second_of_day_range _ Hs).
  destruct (sub_day_in_range (date dt) c) as (d' & Hadd & Hd' & He); [done|lia| |].
  { unfold timestamp_range, second_number in Hr.
    replace (epoch_day (date dt) - c) with
      ((86400 * epoch_day (date dt) + second_of_day (time dt) - second_of_day t) / 86400)
      by zdm. done. }
  rewrite Hadd. cbn [mbind outcome_bind]. rewrite datetime_set_eq. exists (mk_datetime d' u).
  split; [done|]. split; [done|]. unfold second_number in *; simpl. lia.
Qed.

(** ** Properties *)

(** Claim C31: timestamps and date-times are the same points in time.  Every
    second of the years 0 to 65535 converts to a valid date-time that converts
    back to it, every valid date-time converts to such a second and back, no
    64-bit operation overflows, and the order of [lh_datetime_is_at_least] is
    that of [lh_timestamp_is_at_least]. *)
Theorem timestamp_datetime_iso date0 time0 out :
  (forall n, timestamp_range n ->
     exists dt, lh_timestamp_to_datetime date0 time0 n out = Done dt
       /\ datetime_valid dt /\ lh_timestamp_from_datetime dt = Done n)
  /\ (forall dt, datetime_valid dt ->
        exists n, lh_timestamp_from_datetime dt = Done n /\ timestamp_range n
          /\ lh_timestamp_to_datetime date0 time0 n out = Done dt)
  /\ (forall d e, datetime_valid d -> datetime_valid e ->
        exists m n, lh_timestamp_from_datetime d = Done m
          /\ lh_timestamp_from_datetime e = Done n
          /\ lh_datetime_is_at_least d e = lh_timestamp_is_at_least m n).
Proof.
  split; [|split].
  - intros n Hn. destruct (to_datetime_spec date0 time0 n out Hn) as (dt & ? & Hv & Hs).
    exists dt. rewrite from_datetime_eq, Hs by done. done.
  - intros dt Hv. exists (second_number dt). rewrite from_datetime_eq by done.
    assert (timestamp_range (second_number dt)) as Hr.
    { unfold timestamp_range. destruct (second_number_split dt Hv) as [-> _].
      destruct Hv. by apply epoch_day_range. }
    destruct (to_datetime_spec date0 time0 _ out Hr) as (e & -> & He & Hs).
    split; [done|]. split; [done|]. f_equal. by apply second_number_inj.
  - intros d e Hd He. exists (second_number d), (second_number e).
    rewrite !from_datetime_eq, datetime_order by done.
    unfold lh_timestamp_is_at_least. by rewrite Z.geb_leb.
Qed.

(** [lh_timestamp_add_months] and [lh_timestamp_sub_months] move the
    date by months as [lh_date_add_month] does and keep the time of day, for
    every operand: the timestamp that comes out is that of a valid date-time
    with the same clock time. *)
Theorem timestamp_months_keep_clock date0 dt v :
  datetime_valid dt -> is_u32 v ->
  let moved k := mk_datetime (date_at_month (k mod months_total) (day (date dt))) (time dt) in
  (n ← lh_timestamp_from_datetime dt; lh_timestamp_add_months date0 n v)
  = lh_timestamp_from_datetime (moved (month_number (date dt) + v))
  /\ (n ← lh_timestamp_from_datetime dt; lh_timestamp_sub_months date0 n v)
     = lh_timestamp_from_datetime (moved (month_number (date dt) - v))
  /\ datetime_valid (moved (month_number (date dt) + v))
  /\ datetime_valid (moved (month_number (date dt) - v)).
Proof.
  intros Hdt Hv moved. pose proof (second_number_split dt Hdt) as [Hdiv Hmod].
  rewrite from_datetime_eq, !bind_done by done.
  pose proof Hdt as [Hd Ht].
  assert (timestamp_range (second_number dt)) as Hr.
  { unfold timestamp_range. rewrite Hdiv. by apply epoch_day_range. }
  assert (forall k, datetime_valid (moved k)) as Hm.
  { intros k. split; [|done]. apply date_at_month_valid; [|by destruct Hd as (_&_&?); lia].
    by apply Z.mod_pos_bound. }
  unfold lh_timestamp_add_months, lh_timestamp_sub_months.
  destruct (get_date_spec date0 _ Hr) as (d & -> & Hd' & Ed).
  rewrite Hdiv in Ed. apply epoch_day_inj in Ed as ->; [|done..].
  rewrite get_seconds_of_day_eq, !bind_done, add_month_eq, sub_month_eq, Hmod by done.
  unfold lh_timestamp_from_datetime, lh_timestamp_from_time, lh_datetime_get_date,
    lh_datetime_get_time. simpl. rewrite seconds_of_day_eq by done. auto.
Qed.

Lemma timestamp_months_keep_clock_witness :
  let dt := mk_datetime (mk_date 1968 2 29) (mk_time 23 59 59) in
  let moved k := mk_datetime (date_at_month (k mod months_total) (day (date dt))) (time dt) in
  (n ← lh_timestamp_from_datetime dt; lh_timestamp_add_months no_days n 12)
  = lh_timestamp_from_datetime (moved (month_number (date dt) + 12))
  /\ (n ← lh_timestamp_from_datetime dt; lh_timestamp_sub_months no_days n 12)
     = lh_timestamp_from_datetime (moved (month_number (date dt) - 12))
  /\ datetime_valid (moved (month_number (date dt) + 12))
  /\ datetime_valid (moved (month_number (date dt) - 12)).
Proof.
  apply (timestamp_months_keep_clock no_days (mk_datetime (mk_date 1968 2 29) (mk_time 23 59 59)) 12).
  - by apply (bool_decide_unpack _).
  - zb.
Defined.

(** Adding a clock duration to a date-time ([lh_datetime_add] with an
    all-zero date) is adding its seconds to the timestamp, carrying into the
    date, and [lh_datetime_sub] takes it back, while the result is a date the
    record can hold. *)
Theorem datetime_clock_arithmetic dt t :
  datetime_valid dt -> time_valid t ->
  timestamp_range (second_number dt + second_of_day t) ->
  exists dt', lh_datetime_add dt (mk_datetime no_days t) = Done (dt', 0)
    /\ lh_timestamp_from_datetime dt'
       = (n ← lh_timestamp_from_datetime dt;
          lh_timestamp_add_seconds n (lh_timestamp_from_time t))
    /\ lh_datetime_sub dt' (mk_datetime no_days t) = Done (dt, 0).
Proof.
  intros Hdt Ht Hr. destruct (datetime_add_clock dt t Hdt Ht Hr) as (dt' & Ha & Hv & Hn).
  exists dt'. split; [done|]. split.
  - rewrite !from_datetime_eq, bind_done by done.
    unfold lh_timestamp_add_seconds, lh_timestamp_from_time.
    rewrite seconds_of_day_eq, <- Hn by done.
    rewrite s64_ok; [done|]. pose proof (second_number_split dt' Hv) as [Hdiv _].
    destruct Hv as [Hd _]. pose proof (epoch_day_range _ Hd). unfold epoch_range in *.
    unfold is_s64. zdm.
  - destruct (datetime_sub_clock dt' t Hv Ht) as (dt'' & -> & Hv' & Hn').
    { unfold timestamp_range. rewrite Hn, Z.add_simpl_r.
      destruct (second_number_split dt Hdt) as [-> _]. destruct Hdt.
      by apply epoch_day_range. }
    do 2 f_equal. apply second_number_inj; [done..|lia].
Qed.

Lemma datetime_clock_arithmetic_witness :
  exists dt', lh_datetime_add (mk_datetime (mk_date 1999 12 31) (mk_time 23 59 50))
                (mk_datetime no_days (mk_time 0 0 10)) = Done (dt', 0)
    /\ lh_timestamp_from_datetime dt'
       = (n ← lh_timestamp_from_datetime (mk_datetime (mk_date 1999 12 31) (mk_time 23 59 50));
          lh_timestamp_add_seconds n (lh_timestamp_from_time (mk_time 0 0 10)))
    /\ lh_datetime_sub dt' (mk_datetime no_days (mk_time 0 0 10))
       = Done (mk_datetime (mk_date 1999 12 31) (mk_time 23 59 50), 0).
Proof.
  apply (datetime_clock_arithmetic (mk_datetime (mk_date 1999 12 31) (mk_time 23 59 50))
           (mk_time 0 0 10)).
  - by apply (bool_decide_unpack _).
  - by apply (bool_decide_unpack _).
  - unfold timestamp_range, epoch_range. vm_compute. split; discriminate.
Defined.
