(* ===== verification/LinkedList.v ===== *)
(** * Intrusive doubly linked lists: the code

    [lh/core/list/node.c] and [lh/core/list.c].  A node is a cell of a store
    indexed by addresses; a list is the address of its head node (the head is
    the first member of [lh_list_t], so [lh_addr_of(self->head)] is [self]).
    Every function takes the store and returns the new one.  Reading or writing
    an address without a node is [Undef], a null [self] fails the run-time check
    the code has.  The proofs are in [LinkedListProofs] and [ListSort]. *)
From S2P Require Import Prelude.

Record lh_list_node_t := mk_node { next : Z; prev : Z }.
Notation store := (gmap Z lh_list_node_t).

Definition lh_null : Z := 0.
Definition lh_ptr_is_null (p : Z) : bool := p =? lh_null.
Definition lh_ptr_is_set (p : Z) : bool := negb (lh_ptr_is_null p).
Definition lh_ptr_eq (p q : Z) : bool := p =? q.
(** [lh_assert_runtime_ref]. *)
Definition lh_assert_runtime_ref (p : Z) : outcome unit :=
  fail_if (lh_ptr_is_null p) lh_runtime_error_code_null_pointer.
Definition load (h : store) (p : Z) : outcome lh_list_node_t :=
  match h !! p with Some n => Done n | None => Undef end.

(** ** Nodes *)

Definition lh_list_node_set_next (h : store) (self nx : Z) : outcome store :=
  _ ← lh_assert_runtime_ref self;
  n ← load h self;
  mret (<[self := mk_node nx (prev n)]> h).
Definition lh_list_node_set_prev (h : store) (self pv : Z) : outcome store :=
  _ ← lh_assert_runtime_ref self;
  n ← load h self;
  mret (<[self := mk_node (next n) pv]> h).
Definition lh_list_node_get_next (h : store) (self : Z) : outcome Z :=
  _ ← lh_assert_runtime_ref self;
  n ← load h self;
  mret (next n).
Definition lh_list_node_get_prev (h : store) (self : Z) : outcome Z :=
  _ ← lh_assert_runtime_ref self;
  n ← load h self;
  mret (prev n).
Definition lh_list_node_get_entry (self offset : Z) : Z :=
  if lh_ptr_is_null self then lh_null else u64 (self - offset).
Definition lh_list_node_init (h : store) (self : Z) : outcome store :=
  h ← lh_list_node_set_next h self self;
  lh_list_node_set_prev h self self.
Definition lh_list_node_is_linked (h : store) (self : Z) : outcome bool :=
  n ← lh_list_node_get_next h self;
  mret (negb (lh_ptr_eq n self)).
Definition lh_list_node_link (h : store) (self pv nx : Z) : outcome store :=
  linked ← lh_list_node_is_linked h self;
  _ ← fail_if linked lh_runtime_error_code_invalid_argument;
  h ← lh_list_node_set_prev h self pv;
  h ← lh_list_node_set_next h self nx;
  h ← lh_list_node_set_next h pv self;
  lh_list_node_set_prev h nx self.
Definition lh_list_node_unlink (h : store) (self : Z) : outcome store :=
  pv ← lh_list_node_get_prev h self;
  nx ← lh_list_node_get_next h self;
  h ← lh_list_node_set_next h pv nx;
  h ← lh_list_node_set_prev h nx pv;
  lh_list_node_init h self.
Definition lh_list_node_insert_after (h : store) (self pos : Z) : outcome store :=
  nx ← lh_list_node_get_next h pos;
  lh_list_node_link h self pos nx.
Definition lh_list_node_insert_before (h : store) (self pos : Z) : outcome store :=
  pv ← lh_list_node_get_prev h pos;
  lh_list_node_link h self pv pos.
Definition lh_list_node_move_after (h : store) (self pos : Z) : outcome store :=
  if lh_ptr_eq self pos then mret h else
  h ← lh_list_node_unlink h self;
  lh_list_node_insert_after h self pos.
Definition lh_list_node_move_before (h : store) (self pos : Z) : outcome store :=
  if lh_ptr_eq self pos then mret h else
  h ← lh_list_node_unlink h self;
  lh_list_node_insert_before h self pos.

(** ** Lists *)

Definition lh_list_get_head_mut (self : Z) : outcome Z :=
  _ ← lh_assert_runtime_ref self; mret self.
Definition lh_list_get_head (self : Z) : outcome Z :=
  _ ← lh_assert_runtime_ref self; mret self.
Definition lh_list_as_element (self node : Z) : outcome Z :=
  head ← lh_list_get_head self;
  mret (if lh_ptr_eq node head then lh_null else node).
Definition lh_list_init (h : store) (self : Z) : outcome store :=
  head ← lh_list_get_head_mut self;
  lh_list_node_init h head.
Definition lh_list_is_empty (h : store) (self : Z) : outcome bool :=
  head ← lh_list_get_head self;
  linked ← lh_list_node_is_linked h head;
  mret (negb linked).
Definition lh_list_push_front (h : store) (self node : Z) : outcome store :=
  head ← lh_list_get_head_mut self;
  lh_list_node_insert_after h node head.
Definition lh_list_push_back (h : store) (self node : Z) : outcome store :=
  head ← lh_list_get_head_mut self;
  lh_list_node_insert_before h node head.
Definition lh_list_get_first (h : store) (self : Z) : outcome Z :=
  head ← lh_list_get_head self;
  n ← lh_list_node_get_next h head;
  lh_list_as_element self n.
Definition lh_list_get_last (h : store) (self : Z) : outcome Z :=
  head ← lh_list_get_head self;
  n ← lh_list_node_get_prev h head;
  lh_list_as_element self n.
Definition lh_list_get_next (h : store) (self node : Z) : outcome Z :=
  n ← lh_list_node_get_next h node;
  lh_list_as_element self n.
Definition lh_list_get_prev (h : store) (self node : Z) : outcome Z :=
  n ← lh_list_node_get_prev h node;
  lh_list_as_element self n.

(** A walk visits each node of a ring once, so it ends within the number of
    nodes of the store; [walk_fuel] is one more. *)
Definition walk_fuel (h : store) : nat := S (size h).

Fixpoint size_loop (fuel : nat) (h : store) (self node size : Z) : outcome Z :=
  match fuel with
  | O => Undef
  | S fuel =>
    if lh_ptr_is_set node then
      let size := u64 (size + 1) in
      node ← lh_list_get_next h self node;
      size_loop fuel h self node size
    else mret size
  end.
Definition lh_list_get_size (h : store) (self : Z) : outcome Z :=
  node ← lh_list_get_first h self;
  size_loop (walk_fuel h) h self node 0.

Fixpoint at_loop (fuel : nat) (h : store) (self node index : Z) : outcome Z :=
  match fuel with
  | O => Undef
  | S fuel =>
    if lh_ptr_is_set node && negb (index =? 0) then
      node ← lh_list_get_next h self node;
      at_loop fuel h self node (u64 (index - 1))
    else mret node
  end.
Definition lh_list_get_at (h : store) (self index : Z) : outcome Z :=
  node ← lh_list_get_first h self;
  at_loop (walk_fuel h) h self node index.

Definition LH_LIST_INVALID : Z := LH_USIZE_T_MAX.
Fixpoint index_loop (fuel : nat) (h : store) (self node at_ index : Z) : outcome Z :=
  match fuel with
  | O => Undef
  | S fuel =>
    if lh_ptr_is_set at_ then
      if lh_ptr_eq at_ node then mret index else
      let index := u64 (index + 1) in
      at_ ← lh_list_get_next h self at_;
      index_loop fuel h self node at_ index
    else mret LH_LIST_INVALID
  end.
Definition lh_list_index_of (h : store) (self node : Z) : outcome Z :=
  at_ ← lh_list_get_first h self;
  index_loop (walk_fuel h) h self node at_ 0.
Definition lh_list_contains (h : store) (self node : Z) : outcome bool :=
  i ← lh_list_index_of h self node;
  mret (negb (i =? LH_LIST_INVALID)).

Definition lh_list_pop_front (h : store) (self : Z) : outcome (store * Z) :=
  node ← lh_list_get_first h self;
  h ← (if lh_ptr_is_set node then lh_list_node_unlink h node else mret h);
  mret (h, node).
Definition lh_list_pop_back (h : store) (self : Z) : outcome (store * Z) :=
  node ← lh_list_get_last h self;
  h ← (if lh_ptr_is_set node then lh_list_node_unlink h node else mret h);
  mret (h, node).

Fixpoint clear_loop (fuel : nat) (h : store) (self : Z) : outcome store :=
  match fuel with
  | O => Undef
  | S fuel =>
    '(h, node) ← lh_list_pop_front h self;
    if lh_ptr_is_set node then clear_loop fuel h self else mret h
  end.
Definition lh_list_clear (h : store) (self : Z) : outcome store :=
  clear_loop (walk_fuel h) h self.

Definition lh_list_splice_between (h : store) (other pv nx : Z) : outcome store :=
  empty ← lh_list_is_empty h other;
  if (empty : bool) then mret h else
  first ← lh_list_get_first h other;
  last ← lh_list_get_last h other;
  h ← lh_list_node_set_prev h first pv;
  h ← lh_list_node_set_next h pv first;
  h ← lh_list_node_set_next h last nx;
  h ← lh_list_node_set_prev h nx last;
  lh_list_init h other.
Definition lh_list_splice_back (h : store) (self other : Z) : outcome store :=
  _ ← fail_if (lh_ptr_eq self other) lh_runtime_error_code_invalid_argument;
  head ← lh_list_get_head_mut self;
  pv ← lh_list_node_get_prev h head;
  lh_list_splice_between h other pv head.
Definition lh_list_splice_front (h : store) (self other : Z) : outcome store :=
  _ ← fail_if (lh_ptr_eq self other) lh_runtime_error_code_invalid_argument;
  head ← lh_list_get_head_mut self;
  nx ← lh_list_node_get_next h head;
  lh_list_splice_between h other head nx.

(** ** Ordered operations

    [cmp] is the caller's comparison with its context; it may itself fail. *)
Section Ordered.
  Variable cmp : Z -> Z -> outcome Z.

Fixpoint insert_loop (fuel : nat) (h : store) (self node pos : Z) : outcome store :=
  match fuel with
  | O => Undef
  | S fuel =>
    if lh_ptr_is_set pos then
      c ← cmp node pos;
      if c <? 0 then lh_list_node_insert_before h node pos else
      pos ← lh_list_get_next h self pos;
      insert_loop fuel h self node pos
    else lh_list_push_back h self node
  end.
Definition lh_list_insert_sorted (h : store) (self node : Z) : outcome store :=
  pos ← lh_list_get_first h self;
  insert_loop (walk_fuel h) h self node pos.

(** [while (left_size < run && right)]: the left run, skipped over. *)
Fixpoint sort_skip (fuel : nat) (h : store) (run right left_size : Z) : outcome (Z * Z) :=
  match fuel with
  | O => Undef
  | S fuel =>
    if (left_size <? run) && lh_ptr_is_set right then
      let left_size := u64 (left_size + 1) in
      right ← lh_list_node_get_next h right;
      sort_skip fuel h run right left_size
    else mret (right, left_size)
  end.

(** The merge of one pair of runs: [m_chain] and [m_tail] are the ends of the
    chain built so far, [m_left] and [m_right] the next nodes of the two runs,
    with what is left of each. *)
Record merge_state := mk_merge
  { m_chain : Z; m_tail : Z; m_left : Z; m_right : Z;
    m_left_size : Z; m_right_size : Z }.
Definition right_left (s : merge_state) : bool :=
  (m_right_size s >? 0) && lh_ptr_is_set (m_right s).
Definition sort_take_right (s : merge_state) : outcome bool :=
  if m_left_size s =? 0 then mret true else
  if right_left s then c ← cmp (m_left s) (m_right s); mret (c >? 0) else mret false.
Definition sort_append (h : store) (s : merge_state) (take : Z) : outcome (store * Z) :=
  if lh_ptr_is_set (m_tail s)
  then h ← lh_list_node_set_next h (m_tail s) take; mret (h, m_chain s)
  else mret (h, take).
Fixpoint sort_merge (fuel : nat) (h : store) (s : merge_state)
    : outcome (store * merge_state) :=
  match fuel with
  | O => Undef
  | S fuel =>
    if (m_left_size s >? 0) || right_left s then
      pick ← sort_take_right s;
      if (pick : bool) then
        let take := m_right s in
        nx ← lh_list_node_get_next h take;
        '(h, chain) ← sort_append h s take;
        sort_merge fuel h
          (mk_merge chain take (m_left s) nx (m_left_size s) (u64 (m_right_size s - 1)))
      else
        let take := m_left s in
        nx ← lh_list_node_get_next h take;
        '(h, chain) ← sort_append h s take;
        sort_merge fuel h
          (mk_merge chain take nx (m_right s) (u64 (m_left_size s - 1)) (m_right_size s))
    else mret (h, s)
  end.

(** [while (left)]: one pass over the chain, merging its runs in pairs. *)
Fixpoint sort_pass (fuel walk : nat) (h : store) (run chain tail left merges : Z)
    : outcome (store * Z * Z * Z) :=
  match fuel with
  | O => Undef
  | S fuel =>
    if lh_ptr_is_set left then
      let merges := u64 (merges + 1) in
      '(rest, left_size) ← sort_skip walk h run left 0;
      '(h, s) ← sort_merge walk h (mk_merge chain tail left rest left_size run);
      sort_pass fuel walk h run (m_chain s) (m_tail s) (m_right s) merges
    else mret (h, chain, tail, merges)
  end.

(** [for (run = 1;; run *= 2)]. *)
Fixpoint sort_runs (fuel walk : nat) (h : store) (run chain : Z) : outcome (store * Z) :=
  match fuel with
  | O => Undef
  | S fuel =>
    '(h, chain, tail, merges) ← sort_pass walk walk h run lh_null lh_null chain 0;
    h ← lh_list_node_set_next h tail lh_null;
    if merges <=? 1 then mret (h, chain) else
    sort_runs fuel walk h (u64 (run * 2)) chain
  end.

(** The last loop: every [prev] rebuilt; the node visited last is returned. *)
Fixpoint sort_close (fuel : nat) (h : store) (node pv : Z) : outcome (store * Z) :=
  match fuel with
  | O => Undef
  | S fuel =>
    if lh_ptr_is_set node then
      h ← lh_list_node_set_prev h node pv;
      nx ← lh_list_node_get_next h node;
      sort_close fuel h nx node
    else mret (h, pv)
  end.

(** A run of [2^64] nodes does not fit an address space: 65 passes. *)
Definition lh_list_sort (h : store) (self : Z) : outcome store :=
  head ← lh_list_get_head_mut self;
  chain ← lh_list_get_first h self;
  if lh_ptr_is_null chain then mret h else
  end_ ← lh_list_node_get_prev h head;
  h ← lh_list_node_set_next h end_ lh_null;
  let walk := S (walk_fuel h) in
  '(h, chain) ← sort_runs 65 walk h 1 chain;
  '(h, pv) ← sort_close walk h chain head;
  h ← lh_list_node_set_next h head chain;
  h ← lh_list_node_set_next h pv head;
  lh_list_node_set_prev h head pv.

End Ordered.
