(* ===== verification/LinkedListProofs.v ===== *)
(** * Intrusive doubly linked lists: rings

    [ring h l]: the nodes [l] of the store form a ring in that order.  A list
    with elements [xs] is the ring [head :: xs], an unlinked node the ring of
    itself.  Each operation of [LinkedList] is an operation on such lists, and
    leaves every other node alone ([frame]). *)
From S2P Require Import Prelude LinkedList.

(** ** Rings *)

Definition nx (h : store) (p : Z) : option Z := next <$> h !! p.
Definition pv (h : store) (p : Z) : option Z := prev <$> h !! p.
Definition links (h : store) (a b : Z) : Prop := nx h a = Some b /\ pv h b = Some a.
(** [a], then [l], then [b], doubly linked. *)
Fixpoint path (h : store) (a : Z) (l : list Z) (b : Z) : Prop :=
  match l with
  | [] => links h a b
  | x :: l => links h a x /\ path h x l b
  end.
(** An address a node can have. *)
Definition valid_ptr (p : Z) : Prop := 0 < p < 18446744073709551616.
Definition ring (h : store) (l : list Z) : Prop :=
  match l with [] => False | a :: l' => path h a l' a end
  /\ NoDup l /\ Forall valid_ptr l.
Definition is_list (h : store) (self : Z) (xs : list Z) : Prop := ring h (self :: xs).
Definition unlinked (h : store) (n : Z) : Prop := ring h [n].
Definition frame (h h' : store) (l : list Z) : Prop :=
  dom h' = dom h /\ forall p, p ∉ l -> h' !! p = h !! p.

Lemma frame_refl h l : frame h h l.
Proof. by split. Qed.
Lemma frame_trans h1 h2 h3 l : frame h1 h2 l -> frame h2 h3 l -> frame h1 h3 l.
Proof.
  intros [D1 F1] [D2 F2]. split; [congruence|]. intros p Hp. by rewrite F2, F1.
Qed.
Lemma frame_mono h h' l l' : frame h h' l -> (forall p, p ∈ l -> p ∈ l') -> frame h h' l'.
Proof. intros [D F] Hs. split; [done|]. intros p Hp. apply F. naive_solver. Qed.

Lemma path_app h a l1 b l2 c :
  path h a (l1 ++ b :: l2) c <-> path h a l1 b /\ path h b l2 c.
Proof.
  revert a. induction l1 as [|x l1 IH]; intros a; simpl; [done|]. rewrite IH. tauto.
Qed.
Lemma path_agree h h' a l b :
  (forall p, p ∈ a :: l -> nx h' p = nx h p) -> (forall p, p ∈ l ++ [b] -> pv h' p = pv h p) ->
  path h a l b -> path h' a l b.
Proof.
  unfold links. revert a. induction l as [|x l IH]; intros a Hn Hp; simpl in *; unfold links.
  - rewrite Hn, Hp by set_solver. done.
  - intros [Hl Hr]. rewrite Hn, Hp by set_solver. split; [done|].
    apply IH; [intros; apply Hn|intros; apply Hp|done]; set_solver.
Qed.
Lemma path_frame h h' a l b :
  (forall p, p ∈ a :: l ++ [b] -> h' !! p = h !! p) -> path h a l b -> path h' a l b.
Proof.
  intros Hf. apply path_agree; intros p Hp; unfold nx, pv; rewrite Hf; set_solver.
Qed.

Lemma ring_rotate h l1 l2 : ring h (l1 ++ l2) -> ring h (l2 ++ l1).
Proof.
  intros (Hp & Hn & Hv). split; [|split].
  - destruct l1 as [|a l1], l2 as [|b l2]; simpl in *; rewrite ?app_nil_r in *; try done.
    apply path_app in Hp as [H1 H2]. apply path_app. done.
  - by rewrite Permutation_app_comm.
  - apply Forall_app in Hv as [H1 H2]. by apply Forall_app.
Qed.
Lemma ring_frame h h' l l' :
  ring h l -> frame h h' l' -> (forall p, p ∈ l -> p ∉ l') -> ring h' l.
Proof.
  intros (Hp & Hn & Hv) [_ Hf] Hd. split; [|done].
  destruct l as [|a l]; [done|]. eapply path_frame, Hp.
  intros p Hin. apply Hf, Hd. set_solver.
Qed.
Lemma nx_some h p q : nx h p = Some q -> is_Some (h !! p).
Proof. unfold nx. destruct (h !! p); [eauto|done]. Qed.
Lemma pv_some h p q : pv h p = Some q -> is_Some (h !! p).
Proof. unfold pv. destruct (h !! p); [eauto|done]. Qed.
Lemma path_dom h a l b p : path h a l b -> p ∈ a :: l ++ [b] -> is_Some (h !! p).
Proof.
  revert a. induction l as [|x l IH]; intros a; simpl.
  - intros [Hn Hp] Hin. rewrite !elem_of_cons, elem_of_nil in Hin.
    destruct Hin as [->|[->|[]]]; eauto using nx_some, pv_some.
  - intros [[Hn _] Hp] Hin. rewrite elem_of_cons in Hin.
    destruct Hin as [->|Hin]; [eauto using nx_some|]. by eapply IH.
Qed.
Lemma ring_dom h l p : ring h l -> p ∈ l -> is_Some (h !! p).
Proof.
  intros (Hp & _) Hin. destruct l as [|a l]; [done|].
  eapply path_dom; [done|]. set_solver.
Qed.
Lemma ring_valid h l p : ring h l -> p ∈ l -> valid_ptr p.
Proof. intros (_ & _ & Hv) Hin. by eapply Forall_forall. Qed.

(** ** The two writes and the two reads *)

Lemma ptr_null_valid p : valid_ptr p -> lh_ptr_is_null p = false.
Proof. intros Hp. apply Z.eqb_neq. unfold valid_ptr, lh_null in *. lia. Qed.
Lemma ref_valid p : valid_ptr p -> lh_assert_runtime_ref p = Done tt.
Proof. intros Hp. unfold lh_assert_runtime_ref. by rewrite ptr_null_valid. Qed.
(** The effect of a write, link by link. *)
Definition upd (f : Z -> option Z) (p v q : Z) : option Z :=
  if decide (q = p) then Some v else f q.
Lemma upd_eq f p v : upd f p v p = Some v.
Proof. unfold upd. by rewrite decide_True. Qed.
Lemma upd_ne f p v q : q <> p -> upd f p v q = f q.
Proof. intros. unfold upd. by rewrite decide_False. Qed.

Lemma dom_insert_is_some (h : store) p n : is_Some (h !! p) -> dom (<[p := n]> h) = dom h.
Proof. intros Hp. apply dom_insert_lookup_L. done. Qed.
Lemma insert_frame (h : store) p n : is_Some (h !! p) -> frame h (<[p := n]> h) [p].
Proof.
  intros Hp. split; [by apply dom_insert_is_some|].
  intros q Hq. apply lookup_insert_ne. set_solver.
Qed.
Lemma set_next_spec h p v :
  valid_ptr p -> is_Some (h !! p) ->
  exists h', lh_list_node_set_next h p v = Done h'
    /\ (forall q, nx h' q = upd (nx h) p v q) /\ (forall q, pv h' q = pv h q)
    /\ frame h h' [p].
Proof.
  intros Hp [n Hn]. unfold lh_list_node_set_next, load. rewrite ref_valid, bind_done, Hn by done.
  eexists. split; [done|]. split; [|split; [|by apply insert_frame; eauto]]; intros q;
    unfold nx, pv, upd; destruct (decide (q = p)) as [->|];
    rewrite ?lookup_insert_eq, ?lookup_insert_ne, ?Hn by done; done.
Qed.
Lemma set_prev_spec h p v :
  valid_ptr p -> is_Some (h !! p) ->
  exists h', lh_list_node_set_prev h p v = Done h'
    /\ (forall q, nx h' q = nx h q) /\ (forall q, pv h' q = upd (pv h) p v q)
    /\ frame h h' [p].
Proof.
  intros Hp [n Hn]. unfold lh_list_node_set_prev, load. rewrite ref_valid, bind_done, Hn by done.
  eexists. split; [done|]. split; [|split; [|by apply insert_frame; eauto]]; intros q;
    unfold nx, pv, upd; destruct (decide (q = p)) as [->|];
    rewrite ?lookup_insert_eq, ?lookup_insert_ne, ?Hn by done; done.
Qed.
Lemma get_next_eq h p q :
  valid_ptr p -> nx h p = Some q -> lh_list_node_get_next h p = Done q.
Proof.
  intros Hp. unfold lh_list_node_get_next, load, nx. rewrite ref_valid, bind_done by done.
  destruct (h !! p); [|done]. by intros [= <-].
Qed.
Lemma get_prev_eq h p q :
  valid_ptr p -> pv h p = Some q -> lh_list_node_get_prev h p = Done q.
Proof.
  intros Hp. unfold lh_list_node_get_prev, load, pv. rewrite ref_valid, bind_done by done.
  destruct (h !! p); [|done]. by intros [= <-].
Qed.
Lemma frame_some h h' l p : frame h h' l -> is_Some (h !! p) -> is_Some (h' !! p).
Proof. intros [Hd _]. rewrite <- !elem_of_dom. by rewrite Hd. Qed.
Lemma links_next h a b : links h a b -> valid_ptr a -> lh_list_node_get_next h a = Done b.
Proof. intros [Hn _] Ha. by apply get_next_eq. Qed.
Lemma links_prev h a b : links h a b -> valid_ptr b -> lh_list_node_get_prev h b = Done a.
Proof. intros [_ Hn] Hb. by apply get_prev_eq. Qed.

(** What follows and what precedes a node of a ring. *)
Lemma ring_next h a l :
  ring h (a :: l) -> lh_list_node_get_next h a = Done (default a (head l)).
Proof.
  intros Hr. pose proof (ring_valid h _ a Hr ltac:(set_solver)). destruct Hr as (Hp & _).
  destruct l as [|b l]; simpl in *; [|destruct Hp as [Hp _]]; by apply links_next.
Qed.
Lemma ring_prev h a l :
  ring h (a :: l) -> lh_list_node_get_prev h a = Done (default a (last l)).
Proof.
  intros Hr. pose proof (ring_valid h _ a Hr ltac:(set_solver)). destruct Hr as (Hp & _).
  destruct l as [|b l _] using rev_ind; simpl in *; [by apply links_prev|].
  apply path_app in Hp as [_ Hp]. rewrite last_snoc. by apply links_prev.
Qed.

(** One write: the store after it, what it changed and that the rest stays. *)
Ltac write_step :=
  match goal with
  | |- context [lh_list_node_set_next ?h ?p ?v] =>
      let h' := fresh "h" in let E := fresh "E" in
      let N := fresh "Hnx" in let P := fresh "Hpv" in let F := fresh "Hfr" in
      destruct (set_next_spec h p v) as (h' & E & N & P & F);
      [eauto|eauto using frame_some|rewrite E, ?bind_done; clear E]
  | |- context [lh_list_node_set_prev ?h ?p ?v] =>
      let h' := fresh "h" in let E := fresh "E" in
      let N := fresh "Hnx" in let P := fresh "Hpv" in let F := fresh "Hfr" in
      destruct (set_prev_spec h p v) as (h' & E & N & P & F);
      [eauto|eauto using frame_some|rewrite E, ?bind_done; clear E]
  end.

(** Compose the frames of the context into the one of the goal. *)
Ltac frames :=
  lazymatch goal with
  | |- frame ?a ?b ?L =>
      repeat match goal with
      | F : frame ?x ?y ?M |- _ =>
          lazymatch M with L => fail | _ => idtac end;
          apply (fun F => frame_mono x y M L F ltac:(set_solver)) in F
      end; eauto using frame_refl, frame_trans
  end.

Lemma init_spec h p :
  valid_ptr p -> is_Some (h !! p) ->
  exists h', lh_list_node_init h p = Done h'
    /\ (forall q, nx h' q = upd (nx h) p p q) /\ (forall q, pv h' q = upd (pv h) p p q)
    /\ frame h h' [p].
Proof.
  intros Hp Hn. unfold lh_list_node_init. write_step. write_step.
  eexists. split; [done|]. split; [|split; [|by eapply frame_trans]]; intros q.
  - by rewrite Hnx0, Hnx.
  - rewrite Hpv0. unfold upd. by rewrite Hpv.
Qed.
Lemma is_linked_eq h n l :
  ring h (n :: l) -> lh_list_node_is_linked h n = Done (negb (bool_decide (l = []))).
Proof.
  intros Hr. unfold lh_list_node_is_linked. rewrite (ring_next h n l), bind_done by done.
  unfold lh_ptr_eq. do 2 f_equal. destruct l as [|b l]; simpl; [by rewrite Z.eqb_refl|].
  apply Z.eqb_neq. intros ->. destruct Hr as (_ & Hnd & _). apply NoDup_cons in Hnd. set_solver.
Qed.

(** Linking the unlinked [n] after [a]. *)
Lemma link_spec h n a l :
  ring h (a :: l) -> unlinked h n -> n ∉ a :: l ->
  exists h', lh_list_node_link h n a (default a (head l)) = Done h'
    /\ ring h' (a :: n :: l) /\ frame h h' (n :: a :: l).
Proof.
  unfold unlinked. intros Hr Hu Hn. unfold lh_list_node_link.
  rewrite (is_linked_eq h n []), bind_done by done. simpl (fail_if _ _). rewrite bind_done.
  set (b := default a (head l)). assert (b ∈ a :: l) by (destruct l; set_solver).
  pose proof (ring_valid h [n] n Hu ltac:(set_solver)).
  pose proof (ring_dom h [n] n Hu ltac:(set_solver)).
  assert (forall p, p ∈ a :: l -> valid_ptr p) as Hv by eauto using ring_valid.
  assert (forall p, p ∈ a :: l -> is_Some (h !! p)) as Hd by eauto using ring_dom.
  assert (a ∈ a :: l) by set_solver.
  do 4 write_step.
  exists h3. split; [done|]. destruct Hr as (Hp & Hnd & Hval).
  assert (forall q, nx h3 q = upd (upd (nx h) n b) a n q) as Hnx'.
  { intros q. rewrite Hnx2, Hnx1. unfold upd. rewrite Hnx0. unfold upd. by rewrite Hnx. }
  assert (forall q, pv h3 q = upd (upd (pv h) n a) b n q) as Hpv'.
  { intros q. rewrite Hpv2. unfold upd. by rewrite Hpv1, Hpv0, Hpv. }
  split.
  - split; [|split].
    2: { apply NoDup_cons in Hnd as [? ?].
         apply NoDup_cons; split; [set_solver|apply NoDup_cons; split; [set_solver|done]]. }
    2: { apply Forall_cons in Hval as [? ?]. constructor; [done|by constructor]. }
    assert (n <> a) by (intros ->; set_solver). assert (n <> b) by (intros ->; set_solver).
    simpl. split; [|destruct l as [|x l]; simpl in *].
    + unfold links. rewrite Hnx', Hpv'. rewrite upd_eq, upd_ne, upd_eq by done. done.
    + unfold links. rewrite Hnx', Hpv'. rewrite upd_ne, !upd_eq by done. done.
    + split; [unfold links; rewrite Hnx', Hpv', upd_ne, !upd_eq by done; done|].
      apply NoDup_cons in Hnd as [Ha Hnd]. apply NoDup_cons in Hnd as [Hx _].
      eapply path_agree, Hp; intros p Hin; rewrite ?Hnx', ?Hpv'; subst b;
        rewrite !upd_ne; set_solver.
  - frames.
Qed.

(** Unlinking [n]: it ends alone, the rest of its ring closes up. *)
Lemma unlink_spec h n l :
  ring h (n :: l) ->
  exists h', lh_list_node_unlink h n = Done h'
    /\ unlinked h' n /\ (l <> [] -> ring h' l) /\ frame h h' (n :: l).
Proof.
  intros Hr. unfold lh_list_node_unlink, unlinked.
  rewrite (ring_prev h n l), bind_done, (ring_next h n l), bind_done by done.
  assert (forall p, p ∈ n :: l -> valid_ptr p) as Hv by eauto using ring_valid.
  assert (forall p, p ∈ n :: l -> is_Some (h !! p)) as Hd by eauto using ring_dom.
  set (a := default n (last l)). set (b := default n (head l)).
  assert (a ∈ n :: l).
  { subst a. destruct (last l) eqn:E; simpl; [|set_solver].
    apply last_Some_elem_of in E. set_solver. }
  assert (b ∈ n :: l) by (destruct l; set_solver). assert (n ∈ n :: l) by set_solver.
  do 2 write_step.
  destruct (init_spec h1 n) as (h2 & -> & Hnx1 & Hpv1 & Hfr1); [eauto|eauto using frame_some|].
  exists h2. split; [done|].
  assert (forall q, nx h2 q = upd (upd (nx h) a b) n n q) as Hnx'.
  { intros q. rewrite Hnx1. unfold upd. rewrite Hnx0, Hnx. done. }
  assert (forall q, pv h2 q = upd (upd (pv h) b a) n n q) as Hpv'.
  { intros q. rewrite Hpv1. unfold upd. rewrite Hpv0. unfold upd. by rewrite Hpv. }
  destruct Hr as (Hp & Hnd & Hval).
  apply NoDup_cons in Hnd as [Hn Hnd]. apply Forall_cons in Hval as [Hvn Hval].
  split; [|split; [|frames]].
  - split; [|split; [by apply NoDup_singleton|by constructor]].
    simpl. unfold links. by rewrite Hnx', Hpv', !upd_eq.
  - intros Hl. split; [|done]. destruct l as [|x l]; [done|]. subst b. simpl in *.
    destruct Hp as [_ Hp]. apply NoDup_cons in Hnd as [Hx Hnd].
    destruct l as [|z l _] using rev_ind; subst a; simpl in *.
    + unfold links. rewrite Hnx', Hpv', upd_ne, upd_eq, upd_ne, upd_eq by set_solver. done.
    + rewrite last_cons, last_snoc in *; simpl in *.
      apply path_app in Hp as [Hp Hz]. apply path_app. split.
      * assert (z ∉ x :: l).
        { apply NoDup_app in Hnd as (_ & Hd' & _). rewrite elem_of_cons. intros [->|Hz'].
          - apply Hx. rewrite elem_of_app, elem_of_cons. auto.
          - apply (Hd' z Hz'). by left. }
        clear -Hp Hnx' Hpv' Hn Hx H2.
        eapply path_agree, Hp; intros p Hin.
        -- rewrite Hnx', !upd_ne; [done|by intros ->|intros ->].
           apply Hn. rewrite app_comm_cons, elem_of_app. by left.
        -- rewrite Hpv', !upd_ne; [done|by intros ->|intros ->]. apply Hn. by right.
      * simpl. unfold links. rewrite Hnx', Hpv', upd_ne, upd_eq, upd_ne, upd_eq by set_solver.
        done.
Qed.

(** ** Insertion around a node *)

Lemma insert_after_spec h n a l :
  ring h (a :: l) -> unlinked h n -> n ∉ a :: l ->
  exists h', lh_list_node_insert_after h n a = Done h'
    /\ ring h' (a :: n :: l) /\ frame h h' (n :: a :: l).
Proof.
  intros Hr Hu Hn. unfold lh_list_node_insert_after.
  rewrite (ring_next h a l), bind_done by done. by apply link_spec.
Qed.
Lemma insert_before_spec h n a l :
  ring h (a :: l) -> unlinked h n -> n ∉ a :: l ->
  exists h', lh_list_node_insert_before h n a = Done h'
    /\ ring h' (a :: l ++ [n]) /\ frame h h' (n :: a :: l).
Proof.
  intros Hr Hu Hn. unfold lh_list_node_insert_before.
  rewrite (ring_prev h a l), bind_done by done.
  destruct l as [|z l _] using rev_ind; simpl.
  - by apply (link_spec h n a []).
  - rewrite last_snoc; simpl.
    destruct (link_spec h n z (a :: l)) as (h' & E & Hr' & Hf); [|done|set_solver|].
    { by apply (ring_rotate h (a :: l) [z]). }
    exists h'. split; [done|]. split.
    + rewrite <- app_assoc. by apply (ring_rotate h' [z; n] (a :: l)).
    + eapply frame_mono; [done|]. set_solver.
Qed.

(** ** Lists *)

Lemma list_valid h self xs : is_list h self xs -> valid_ptr self.
Proof. intros Hl. eapply ring_valid; [done|]. by left. Qed.
Lemma elem_valid h self xs x : is_list h self xs -> x ∈ xs -> valid_ptr x.
Proof. intros Hl Hx. eapply ring_valid; [done|]. by right. Qed.
Lemma list_nodup h self xs : is_list h self xs -> NoDup xs /\ self ∉ xs.
Proof. intros (_ & Hn & _). by apply NoDup_cons in Hn as [? ?]. Qed.
Lemma get_head_eq h self xs : is_list h self xs -> lh_list_get_head self = Done self.
Proof. intros Hl. unfold lh_list_get_head. by rewrite ref_valid by eauto using list_valid. Qed.
Lemma as_element_eq h self xs n :
  is_list h self xs -> lh_list_as_element self n = Done (if n =? self then lh_null else n).
Proof. intros Hl. unfold lh_list_as_element. by rewrite (get_head_eq h self xs). Qed.
Lemma as_element_in h self xs n :
  is_list h self xs -> n ∈ xs -> lh_list_as_element self n = Done n.
Proof.
  intros Hl Hn. rewrite (as_element_eq h self xs) by done.
  apply list_nodup in Hl as [_ Hs]. destruct (Z.eqb_spec n self); [by subst|done].
Qed.
Lemma as_element_self h self xs :
  is_list h self xs -> lh_list_as_element self self = Done lh_null.
Proof. intros Hl. rewrite (as_element_eq h self xs) by done. by rewrite Z.eqb_refl. Qed.

(** What a walk reads: the address of the first of [xs], null when there is none. *)
Definition first_of (xs : list Z) : Z := default lh_null (head xs).
Lemma ptr_set_cons x xs : valid_ptr x -> lh_ptr_is_set (first_of (x :: xs)) = true.
Proof. intros Hx. unfold lh_ptr_is_set. simpl. by rewrite ptr_null_valid. Qed.

Lemma get_first_eq h self xs : is_list h self xs -> lh_list_get_first h self = Done (first_of xs).
Proof.
  intros Hl. unfold lh_list_get_first.
  rewrite (get_head_eq h self xs), bind_done, (ring_next h self xs), bind_done by done.
  destruct xs as [|x xs]; simpl; [by eapply as_element_self|].
  eapply as_element_in; [done|]. by left.
Qed.
Lemma get_last_eq h self xs :
  is_list h self xs -> lh_list_get_last h self = Done (default lh_null (last xs)).
Proof.
  intros Hl. unfold lh_list_get_last.
  rewrite (get_head_eq h self xs), bind_done, (ring_prev h self xs), bind_done by done.
  destruct xs as [|x xs _] using rev_ind; [by eapply as_element_self|].
  rewrite last_snoc. eapply as_element_in; [done|]. set_solver.
Qed.
(** Any node of a list is reached by turning the ring. *)
Lemma list_turn h self xs x ys :
  is_list h self (xs ++ x :: ys) -> ring h (x :: ys ++ self :: xs).
Proof. intros Hl. by apply (ring_rotate h (self :: xs) (x :: ys)). Qed.
Lemma list_turn_back h self xs ys : ring h (ys ++ self :: xs) -> is_list h self (xs ++ ys).
Proof. intros Hl. by apply (ring_rotate h ys (self :: xs)). Qed.
Lemma get_next_list h self xs x ys :
  is_list h self (xs ++ x :: ys) -> lh_list_get_next h self x = Done (first_of ys).
Proof.
  intros Hl. unfold lh_list_get_next.
  rewrite (ring_next h x (ys ++ self :: xs)), bind_done by by apply list_turn.
  destruct ys as [|y ys]; simpl; [by eapply as_element_self|].
  eapply as_element_in; [done|]. set_solver.
Qed.
Lemma get_prev_list h self xs x ys :
  is_list h self (xs ++ x :: ys) ->
  lh_list_get_prev h self x = Done (default lh_null (last xs)).
Proof.
  intros Hl. unfold lh_list_get_prev.
  rewrite (ring_prev h x (ys ++ self :: xs)), bind_done by by apply list_turn.
  rewrite last_app_cons, last_cons.
  destruct (last xs) as [z|] eqn:E; simpl; [|by eapply as_element_self].
  apply last_Some_elem_of in E. eapply as_element_in; [done|]. set_solver.
Qed.
Lemma is_empty_eq h self xs :
  is_list h self xs -> lh_list_is_empty h self = Done (bool_decide (xs = [])).
Proof.
  intros Hl. unfold lh_list_is_empty.
  rewrite (get_head_eq h self xs), bind_done, (is_linked_eq h self xs), bind_done by done.
  by rewrite negb_involutive.
Qed.

(** A walk of a list fits the store and the address space. *)
Lemma ring_length h l : ring h l -> (length l <= size h)%nat.
Proof.
  intros Hr. rewrite <- (size_dom (D := gset Z)).
  assert (length l = size (list_to_set l : gset Z)) as ->.
  { symmetry. apply size_list_to_set. by destruct Hr as (_ & ? & _). }
  apply subseteq_size. intros p Hp. apply elem_of_list_to_set in Hp.
  apply elem_of_dom. by eapply ring_dom.
Qed.
Lemma ring_fits h l : ring h l -> Z.of_nat (length l) < 18446744073709551616.
Proof.
  intros Hr. assert (l ⊆+ seqZ 1 18446744073709551615) as Hs.
  { apply NoDup_submseteq; [by destruct Hr as (_ & ? & _)|]. intros p Hp.
    apply elem_of_seqZ. pose proof (ring_valid _ _ _ Hr Hp). unfold valid_ptr in *. lia. }
  apply submseteq_length in Hs. rewrite length_seqZ in Hs. lia.
Qed.

(** ** Operations on a list *)

Section Operations.
Variables (h : store) (self n : Z) (xs ys : list Z).
Let all := self :: xs ++ ys.

Lemma list_push_front :
  is_list h self ys -> unlinked h n -> n ∉ self :: ys ->
  exists h', lh_list_push_front h self n = Done h' /\ is_list h' self (n :: ys)
    /\ frame h h' (n :: self :: ys).
Proof.
  intros Hl Hu Hn. unfold lh_list_push_front, lh_list_get_head_mut.
  rewrite ref_valid, bind_done by eauto using list_valid. by apply insert_after_spec.
Qed.
Lemma list_push_back :
  is_list h self xs -> unlinked h n -> n ∉ self :: xs ->
  exists h', lh_list_push_back h self n = Done h' /\ is_list h' self (xs ++ [n])
    /\ frame h h' (n :: self :: xs).
Proof.
  intros Hl Hu Hn. unfold lh_list_push_back, lh_list_get_head_mut.
  rewrite ref_valid, bind_done by eauto using list_valid. by apply insert_before_spec.
Qed.
Lemma list_insert_after p :
  is_list h self (xs ++ p :: ys) -> unlinked h n -> n ∉ self :: xs ++ p :: ys ->
  exists h', lh_list_node_insert_after h n p = Done h'
    /\ is_list h' self (xs ++ p :: n :: ys) /\ frame h h' (n :: self :: xs ++ p :: ys).
Proof.
  intros Hl Hu Hn. apply list_turn in Hl.
  destruct (insert_after_spec h n p _ Hl Hu) as (h' & E & Hr & Hf); [set_solver|].
  exists h'. split; [done|]. split; [by apply list_turn_back|].
  eapply frame_mono; [done|]. set_solver.
Qed.
Lemma list_insert_before p :
  is_list h self (xs ++ p :: ys) -> unlinked h n -> n ∉ self :: xs ++ p :: ys ->
  exists h', lh_list_node_insert_before h n p = Done h'
    /\ is_list h' self (xs ++ n :: p :: ys) /\ frame h h' (n :: self :: xs ++ p :: ys).
Proof.
  intros Hl Hu Hn. apply list_turn in Hl.
  destruct (insert_before_spec h n p _ Hl Hu) as (h' & E & Hr & Hf); [set_solver|].
  exists h'. split; [done|]. split.
  - assert (ring h' ((p :: ys) ++ self :: (xs ++ [n]))) as Hr' by by rewrite <- app_assoc in Hr.
    apply list_turn_back in Hr'. by rewrite <- app_assoc in Hr'.
  - eapply frame_mono; [done|]. set_solver.
Qed.
Lemma list_unlink :
  is_list h self (xs ++ n :: ys) ->
  exists h', lh_list_node_unlink h n = Done h' /\ is_list h' self (xs ++ ys)
    /\ unlinked h' n /\ frame h h' (self :: xs ++ n :: ys).
Proof.
  intros Hl. apply list_turn in Hl.
  destruct (unlink_spec h n _ Hl) as (h' & E & Hu & Hr & Hf).
  exists h'. split; [done|]. split; [|split; [done|]].
  - apply list_turn_back, Hr. by destruct ys.
  - eapply frame_mono; [done|]. set_solver.
Qed.
End Operations.

Lemma list_nodup_app h self xs n ys :
  is_list h self (xs ++ n :: ys) -> n ∉ self :: xs ++ ys.
Proof.
  intros Hl. apply list_turn in Hl as (_ & Hn & _). apply NoDup_cons in Hn as [Hn _].
  set_solver.
Qed.

Lemma list_pop_front h self xs :
  is_list h self xs ->
  exists h', lh_list_pop_front h self = Done (h', first_of xs)
    /\ is_list h' self (tail xs) /\ frame h h' (self :: xs)
    /\ forall n, head xs = Some n -> unlinked h' n.
Proof.
  intros Hl. unfold lh_list_pop_front. rewrite (get_first_eq h self xs), bind_done by done.
  destruct xs as [|x xs].
  - exists h. split; [done|]. split; [done|]. split; [apply frame_refl|done].
  - rewrite ptr_set_cons by (eapply elem_valid; [done|by left]).
    change (first_of (x :: xs)) with x. cbv iota.
    destruct (list_unlink h self x [] xs Hl) as (h' & -> & Hl' & Hu & Hf).
    exists h'. split; [done|]. split; [done|]. split; [done|]. by intros ? [= <-].
Qed.
Lemma list_pop_back h self xs :
  is_list h self xs ->
  exists h', lh_list_pop_back h self = Done (h', default lh_null (last xs))
    /\ is_list h' self (take (length xs - 1) xs) /\ frame h h' (self :: xs)
    /\ forall n, last xs = Some n -> unlinked h' n.
Proof.
  intros Hl. unfold lh_list_pop_back. rewrite (get_last_eq h self xs), bind_done by done.
  destruct xs as [|x xs _] using rev_ind.
  - exists h. split; [done|]. split; [done|]. split; [apply frame_refl|done].
  - rewrite last_snoc. change (default lh_null (Some x)) with x.
    unfold lh_ptr_is_set. rewrite ptr_null_valid by (eapply elem_valid; [done|set_solver]).
    destruct (list_unlink h self x xs [] Hl) as (h' & E & Hl' & Hu & Hf).
    cbn [negb]. rewrite E. exists h'. split; [done|]. split; [|split; [done|by intros ? [= <-]]].
    rewrite length_app, Nat.add_sub, take_app_length. by rewrite app_nil_r in Hl'.
Qed.
Lemma clear_loop_spec fuel h self xs :
  is_list h self xs -> (length xs < fuel)%nat ->
  exists h', clear_loop fuel h self = Done h' /\ is_list h' self []
    /\ Forall (unlinked h') xs /\ frame h h' (self :: xs).
Proof.
  revert h xs. induction fuel as [|fuel IH]; intros h xs Hl Hlt; [lia|]. simpl.
  destruct (list_pop_front h self xs Hl) as (h' & -> & Hl' & Hf & Hu).
  rewrite bind_done. destruct xs as [|x xs]; [|cbn [tail head length] in *].
  - exists h'. split; [done|]. split; [done|]. split; [done|]. done.
  - rewrite ptr_set_cons by (eapply elem_valid; [exact Hl|by left]).
    destruct (IH h' xs Hl') as (h'' & -> & Hl'' & Hall & Hf'); [lia|].
    exists h''. split; [done|]. split; [done|]. split; [constructor; [|done]|].
    + eapply ring_frame; [by apply Hu|done|]. intros p. rewrite list_elem_of_singleton.
      intros ->. by apply (list_nodup_app h self [] x xs).
    + eapply frame_trans; [done|]. eapply frame_mono; [done|]. set_solver.
Qed.
Lemma list_clear h self xs :
  is_list h self xs ->
  exists h', lh_list_clear h self = Done h' /\ is_list h' self []
    /\ Forall (unlinked h') xs /\ frame h h' (self :: xs).
Proof.
  intros Hl. apply clear_loop_spec; [done|]. pose proof (ring_length h (self :: xs) Hl).
  unfold walk_fuel. simpl in *. lia.
Qed.

(** ** Walks *)

Lemma walk_step h self xs x ys A (f : Z -> outcome A) :
  is_list h self (xs ++ x :: ys) ->
  (p ← lh_list_get_next h self x; f p) = f (first_of ys).
Proof. intros Hl. by rewrite (get_next_list h self xs x ys), bind_done. Qed.
Lemma ptr_set_in h self xs x ys :
  is_list h self (xs ++ x :: ys) -> lh_ptr_is_set (first_of (x :: ys)) = true.
Proof. intros Hl. apply ptr_set_cons. eapply elem_valid; [done|]. set_solver. Qed.

Lemma size_loop_spec h self xs ys fuel :
  is_list h self (xs ++ ys) -> (length ys < fuel)%nat ->
  size_loop fuel h self (first_of ys) (Z.of_nat (length xs))
  = Done (Z.of_nat (length (xs ++ ys))).
Proof.
  revert fuel xs. induction ys as [|y ys IH]; intros [|fuel] xs Hl Hf; try (simpl in Hf; lia).
  - by rewrite app_nil_r.
  - simpl size_loop. rewrite (ptr_set_in h self xs y ys) by done.
    rewrite (walk_step h self xs y ys) by done.
    pose proof (ring_fits h (self :: xs ++ y :: ys) Hl) as Hfit. simpl in Hfit. rewrite length_app in Hfit. simpl in *.
    rewrite u64_id by zb.
    replace (Z.of_nat (length xs) + 1) with (Z.of_nat (length (xs ++ [y])))
      by (rewrite length_app; simpl; lia).
    replace (xs ++ y :: ys) with ((xs ++ [y]) ++ ys) in * by by rewrite <- app_assoc.
    apply IH; [done|lia].
Qed.
Lemma at_loop_spec h self xs ys fuel i :
  is_list h self (xs ++ ys) -> (length ys < fuel)%nat -> is_u64 i ->
  at_loop fuel h self (first_of ys) i = Done (first_of (drop (Z.to_nat i) ys)).
Proof.
  revert fuel xs i. induction ys as [|y ys IH]; intros [|fuel] xs i Hl Hf Hi;
    try (simpl in Hf; lia).
  - simpl. by rewrite drop_nil.
  - simpl at_loop. rewrite (ptr_set_in h self xs y ys) by done. simpl.
    destruct (Z.eqb_spec i 0) as [->|Hne]; [done|]. simpl.
    rewrite (walk_step h self xs y ys), u64_id by (done || zb).
    rewrite (IH fuel (xs ++ [y])); [|by rewrite <- app_assoc|simpl in Hf; lia|zb].
    replace (Z.to_nat i) with (S (Z.to_nat (i - 1))) by zb. done.
Qed.
(** The position of [n], counted from [i]. *)
Fixpoint position (n : Z) (xs : list Z) (i : Z) : Z :=
  match xs with
  | [] => LH_LIST_INVALID
  | x :: xs => if x =? n then i else position n xs (i + 1)
  end.
Lemma index_loop_spec h self n xs ys fuel :
  is_list h self (xs ++ ys) -> (length ys < fuel)%nat ->
  index_loop fuel h self n (first_of ys) (Z.of_nat (length xs))
  = Done (position n ys (Z.of_nat (length xs))).
Proof.
  revert fuel xs. induction ys as [|y ys IH]; intros [|fuel] xs Hl Hf; try (simpl in Hf; lia).
  - done.
  - simpl index_loop. rewrite (ptr_set_in h self xs y ys) by done. change (first_of (y :: ys)) with y.
    unfold lh_ptr_eq. cbn [position]. destruct (y =? n); [done|].
    rewrite (walk_step h self xs y ys) by done.
    pose proof (ring_fits h (self :: xs ++ y :: ys) Hl) as Hfit. simpl in Hfit. rewrite length_app in Hfit. simpl in *.
    rewrite u64_id by zb.
    replace (Z.of_nat (length xs) + 1) with (Z.of_nat (length (xs ++ [y])))
      by (rewrite length_app; simpl; lia).
    apply IH; [by rewrite <- app_assoc|lia].
Qed.
Lemma position_lookup n xs i :
  NoDup xs -> 0 <= i -> i + Z.of_nat (length xs) < LH_LIST_INVALID ->
  (n ∉ xs /\ position n xs i = LH_LIST_INVALID)
  \/ exists k, xs !! k = Some n /\ position n xs i = i + Z.of_nat k.
Proof.
  revert i. induction xs as [|x xs IH]; intros i Hn Hi Hl; simpl in *.
  - left. split; [apply not_elem_of_nil|done].
  - apply NoDup_cons in Hn as [Hx Hn]. destruct (Z.eqb_spec x n) as [->|Hne].
    + right. exists 0%nat. split; [done|lia].
    + destruct (IH (i + 1) Hn) as [[H1 H2]|(k & H1 & H2)]; [lia..| |].
      * left. split; [|done]. rewrite elem_of_cons. naive_solver.
      * right. exists (S k). split; [done|lia].
Qed.
Lemma list_walk_fuel h self xs : is_list h self xs -> (length xs < walk_fuel h)%nat.
Proof. intros Hl. pose proof (ring_length h (self :: xs) Hl). unfold walk_fuel. simpl in *. lia. Qed.
Lemma list_get_size h self xs :
  is_list h self xs -> lh_list_get_size h self = Done (Z.of_nat (length xs)).
Proof.
  intros Hl. unfold lh_list_get_size. rewrite (get_first_eq h self xs), bind_done by done.
  apply (size_loop_spec h self [] xs); [done|by eapply list_walk_fuel].
Qed.
Lemma list_get_at h self xs i :
  is_list h self xs -> is_u64 i ->
  lh_list_get_at h self i = Done (default lh_null (xs !! Z.to_nat i)).
Proof.
  intros Hl Hi. unfold lh_list_get_at. rewrite (get_first_eq h self xs), bind_done by done.
  rewrite (at_loop_spec h self [] xs) by (done || by eapply list_walk_fuel).
  assert (head (drop (Z.to_nat i) xs) = xs !! Z.to_nat i) as <-; [|done].
  rewrite <- (Nat.add_0_r (Z.to_nat i)) at 2. rewrite <- lookup_drop. by destruct (drop _ xs).
Qed.
Lemma list_index_of h self xs n :
  is_list h self xs -> lh_list_index_of h self n = Done (position n xs 0).
Proof.
  intros Hl. unfold lh_list_index_of. rewrite (get_first_eq h self xs), bind_done by done.
  apply (index_loop_spec h self n [] xs); [done|by eapply list_walk_fuel].
Qed.

(** ** Splicing *)

Lemma path_relink h h' o y ys a b :
  path h o (y :: ys) o -> NoDup (y :: ys) ->
  nx h' a = Some y -> pv h' y = Some a ->
  nx h' (default y (last ys)) = Some b -> pv h' b = Some (default y (last ys)) ->
  (forall p, p ∈ y :: ys -> p <> default y (last ys) -> nx h' p = nx h p) ->
  (forall p, p ∈ ys -> pv h' p = pv h p) ->
  path h' a (y :: ys) b.
Proof.
  intros [_ Hp] Hnd Ha Hy Hz Hb Hn Hv. simpl. split; [done|].
  destruct ys as [|z l _] using rev_ind; [done|]. rewrite last_snoc in *. simpl in Hz, Hb, Hn.
  apply path_app in Hp as [Hp _]. apply path_app. split; [|done].
  eapply path_agree, Hp; intros p Hin.
  - apply Hn; [rewrite app_comm_cons, elem_of_app; by left|]. intros ->.
    apply (NoDup_app (y :: l)) in Hnd as (_ & Hd & _). apply (Hd z); [done|by left].
  - by apply Hv.
Qed.
Lemma splice_between_spec h other ys a l :
  ring h (a :: l) -> is_list h other ys -> (forall p, p ∈ a :: l -> p ∉ other :: ys) ->
  exists h', lh_list_splice_between h other a (default a (head l)) = Done h'
    /\ ring h' (a :: ys ++ l) /\ is_list h' other [] /\ frame h h' (a :: l ++ other :: ys).
Proof.
  intros Hr Ho Hd. unfold lh_list_splice_between.
  rewrite (is_empty_eq h other ys), bind_done by done.
  destruct ys as [|y ys]; simpl bool_decide; cbv iota.
  { exists h. split; [done|]. split; [done|]. split; [done|apply frame_refl]. }
  rewrite (get_first_eq h other (y :: ys)), bind_done by done.
  rewrite (get_last_eq h other (y :: ys)), bind_done by done.
  set (b := default a (head l)). change (first_of (y :: ys)) with y.
  rewrite last_cons. set (z := default y (last ys)).
  replace (default lh_null _) with z by (by destruct (last ys)).
  assert (b ∈ a :: l) as Hb by (destruct l; set_solver).
  assert (z ∈ y :: ys) as Hz.
  { subst z. destruct (last ys) eqn:E; simpl; [|by left].
    apply last_Some_elem_of in E. by right. }
  assert (forall p, p ∈ a :: l -> valid_ptr p /\ is_Some (h !! p)) as V1.
  { intros p Hp. split; [by apply (ring_valid _ _ p Hr)|by apply (ring_dom _ _ p Hr)]. }
  assert (forall p, p ∈ other :: y :: ys -> valid_ptr p /\ is_Some (h !! p)) as V2.
  { unfold is_list in Ho. intros p Hp. split; [by apply (ring_valid h _ p Ho)|by apply (ring_dom h _ p Ho)]. }
  destruct (V1 a) as [? ?]; [by left|]. destruct (V1 b) as [? ?]; [done|].
  destruct (V2 other) as [? ?]; [by left|]. destruct (V2 y) as [? ?]; [by right; left|].
  destruct (V2 z) as [? ?]; [by right|]. clear V1 V2.
  do 4 write_step. unfold lh_list_init, lh_list_get_head_mut.
  rewrite ref_valid by done. cbn [mbind outcome_bind mret outcome_ret].
  destruct (init_spec h3 other) as (h4 & -> & Hnx3 & Hpv3 & Hfr3);
    [done|eauto 10 using frame_some|].
  exists h4. split; [done|].
  assert (forall q, nx h4 q = upd (upd (upd (nx h) a y) z b) other other q) as Hnx'.
  { intros q. rewrite Hnx3. unfold upd. rewrite Hnx2, Hnx1. unfold upd. rewrite Hnx0. unfold upd.
    by rewrite Hnx. }
  assert (forall q, pv h4 q = upd (upd (upd (pv h) y a) b z) other other q) as Hpv'.
  { intros q. rewrite Hpv3. unfold upd. rewrite Hpv2. unfold upd. rewrite Hpv1, Hpv0, Hpv. done. }
  clear -Hr Ho Hd Hb Hz Hnx' Hpv' Hfr Hfr0 Hfr1 Hfr2 Hfr3.
  assert (other ∉ a :: l /\ a ∉ y :: ys /\ b ∉ y :: ys /\ z ∉ a :: l /\ y ∉ a :: l)
    as (Ho1 & Ha1 & Hb1 & Hz1 & Hy1).
  { split; [|split; [|split; [|split]]]; intros Hin;
      [apply (Hd other Hin)|apply (Hd a)|apply (Hd b)|apply (Hd z)|apply (Hd y)];
      try done; rewrite ?elem_of_cons in *; tauto. }
  destruct Hr as (Hp & Hnd & Hval), Ho as (Hpo & Hndo & Hvalo).
  apply NoDup_cons in Hndo as [Ho2 Hndo]. pose proof Hnd as [Ha Hndl]%NoDup_cons.
  assert (other <> a /\ other <> b /\ other <> y /\ other <> z /\ z <> a /\ y <> b)
    as (Na & Nb & Ny & Nz & Nza & Nyb).
  { repeat split; intros ->; rewrite ?elem_of_cons in *; tauto. }
  assert (path h4 a (y :: ys) b) as Hseg.
  { eapply path_relink; [exact Hpo|done|..].
    - by rewrite Hnx', upd_ne, upd_ne, upd_eq by done.
    - by rewrite Hpv', upd_ne, upd_ne, upd_eq by done.
    - fold z. by rewrite Hnx', upd_ne, upd_eq by done.
    - fold z. by rewrite Hpv', upd_ne, upd_eq by done.
    - fold z. intros p Hin Hne. rewrite Hnx', !upd_ne; [done|..]; [| |]; by intros ->.
    - intros p Hin. rewrite Hpv', !upd_ne; [done|..]; intros ->.
      + by apply NoDup_cons in Hndo as [? _].
      + apply Hb1. by right.
      + apply Ho2. by right. }
  split; [|split; [|frames]].
  - split; [|split].
    + destruct l as [|x l]; [by rewrite app_nil_r|]. subst b. simpl in Hseg, Hp, Hb1.
      apply path_app. split; [done|]. destruct Hp as [_ Hp].
      assert (a ∉ x :: l /\ x ∉ l) as [Hax Hx] by (split; [done|by apply NoDup_cons in Hndl as [? _]]).
      eapply path_agree, Hp; intros p Hin.
      * rewrite Hnx', !upd_ne; [done|..]; intros ->; [done|..].
        -- apply Hz1. by right.
        -- apply Ho1. by right.
      * rewrite Hpv', !upd_ne; [done|..]; intros ->.
        -- apply elem_of_app in Hin as [Hin|Hin%list_elem_of_singleton]; [|by subst; apply Ha1; left].
           apply Hy1. by right; right.
        -- apply elem_of_app in Hin as [Hin|Hin%list_elem_of_singleton]; [done|].
           apply Hax. simpl in Hin. subst x. by left.
        -- apply elem_of_app in Hin as [Hin|Hin%list_elem_of_singleton]; [|done].
           apply Ho1. by right; right.
    + apply NoDup_cons. split; [rewrite elem_of_app; tauto|]. apply NoDup_app.
      split; [done|]. split; [|done]. intros p Hin1 Hin2. apply (Hd p); by right.
    + apply Forall_cons in Hval as [? ?]. apply Forall_cons in Hvalo as [? ?].
      constructor; [done|]. by apply Forall_app.
  - split; [|split; [by apply NoDup_singleton|]].
    + simpl. unfold links. by rewrite Hnx', Hpv', !upd_eq.
    + apply Forall_cons in Hvalo as [? ?]. by constructor.
Qed.
