(* ===== verification/ListSort.v ===== *)
(** * Intrusive lists: ordered insertion and the merge sort

    [lh_list_insert_sorted] inserts before the first larger element, and
    [lh_list_sort], the bottom-up merge sort that rewires the ring through
    [next] and rebuilds [prev] at the end, is proved to leave the list that
    inserting the elements one by one would: a stable sort. *)
From Stdlib Require Import Sorted.
From S2P Require Import Prelude LinkedList LinkedListProofs.

(** ** Stable insertion on sequences *)

Section Order.
Variable c : Z -> Z -> Z.

Fixpoint sorted_insert (n : Z) (xs : list Z) : list Z :=
match xs with
| [] => [n]
| x :: xs' => if c n x <? 0 then n :: xs else x :: sorted_insert n xs'
end.
(** The reference: insert the elements in order into an empty list. *)
Definition insertion_sort (xs : list Z) : list Z :=
fold_left (fun acc x => sorted_insert x acc) xs [].
Fixpoint merge (l r : list Z) : list Z :=
match l with
| [] => r
| x :: l' =>
  (fix merge_x (r : list Z) : list Z :=
     match r with
     | [] => l
     | y :: r' => if c x y >? 0 then y :: merge_x r' else x :: merge l' r
     end) r
end.

Lemma merge_nil_l r : merge [] r = r.
Proof. done. Qed.
Lemma merge_nil_r l : merge l [] = l.
Proof. by destruct l. Qed.
Lemma merge_cons x l y r :
merge (x :: l) (y :: r)
= if c x y >? 0 then y :: merge (x :: l) r else x :: merge l (y :: r).
Proof. done. Qed.

Lemma sorted_insert_perm n xs : sorted_insert n xs ≡ₚ n :: xs.
Proof.
induction xs as [|x xs IH]; simpl; [done|]. destruct (c n x <? 0); [done|].
rewrite IH. constructor.
Qed.
Lemma insertion_sort_snoc xs x : insertion_sort (xs ++ [x]) = sorted_insert x (insertion_sort xs).
Proof. unfold insertion_sort. by rewrite fold_left_app. Qed.
Lemma insertion_sort_perm xs : insertion_sort xs ≡ₚ xs.
Proof.
induction xs as [|x xs IH] using rev_ind; [done|].
rewrite insertion_sort_snoc, sorted_insert_perm, IH. by rewrite Permutation_cons_append.
Qed.
Lemma insertion_sort_length xs : length (insertion_sort xs) = length xs.
Proof. by rewrite insertion_sort_perm. Qed.

(** The comparison's contract: a consistent sign and a transitive order. *)
Record comparison : Prop := {
cmp_sign : forall x y, c x y < 0 <-> c y x > 0;
cmp_trans : forall x y z, c x y <= 0 -> c y z <= 0 -> c x z <= 0 }.
Definition in_order : list Z -> Prop := StronglySorted (fun x y => c x y <= 0).

Context (Hc : comparison).

Lemma cmp_le_flip x y : c x y >= 0 <-> c y x <= 0.
Proof. pose proof (cmp_sign Hc x y). lia. Qed.
Lemma sorted_insert_sorted n xs : in_order xs -> in_order (sorted_insert n xs).
Proof.
unfold in_order. induction xs as [|x xs IH]; simpl; intros Hs; [by repeat constructor|].
apply StronglySorted_inv in Hs as [Hs Hx].
destruct (Z.ltb_spec (c n x) 0).
- constructor; [by constructor|]. constructor; [lia|].
  eapply Forall_impl; [exact Hx|]. intros y Hy. simpl in *.
  apply (cmp_trans Hc n x y); lia.
- constructor; [by apply IH|]. rewrite sorted_insert_perm. constructor; [|done].
  apply cmp_le_flip. lia.
Qed.
Lemma insertion_sort_sorted xs : in_order (insertion_sort xs).
Proof.
induction xs as [|x xs IH] using rev_ind; [constructor|].
rewrite insertion_sort_snoc. by apply sorted_insert_sorted.
Qed.

(** Merging commutes with inserting into the right run. *)
Lemma merge_insert n l r :
in_order l -> in_order r -> merge l (sorted_insert n r) = sorted_insert n (merge l r).
Proof.
revert r. induction l as [|x l IHl]; [done|]. induction r as [|y r IHr]; intros Hl Hr.
- simpl sorted_insert at 1. rewrite merge_cons, merge_nil_r. simpl sorted_insert.
  pose proof (cmp_sign Hc n x). rewrite Z.gtb_ltb.
  destruct (Z.ltb_spec (c n x) 0), (Z.ltb_spec 0 (c x n)); try lia; [done|].
  f_equal. apply StronglySorted_inv in Hl as [Hl _].
  pose proof (IHl [] Hl Hr) as E. by rewrite merge_nil_r in E.
- pose proof (StronglySorted_inv Hl) as [Hl' Hx]. pose proof (StronglySorted_inv Hr) as [Hr' Hy].
  specialize (IHr Hl Hr'). rewrite merge_cons.
  pose proof (cmp_sign Hc n x) as Hnx. pose proof (cmp_sign Hc n y) as Hny.
  destruct (Z_lt_ge_dec (c n y) 0) as [Hlt|Hge].
  + assert (sorted_insert n (y :: r) = n :: y :: r) as ->
      by (simpl; by rewrite (proj2 (Z.ltb_lt (c n y) 0))).
    rewrite merge_cons, !Z.gtb_ltb. destruct (Z.ltb_spec 0 (c x n)) as [Hxn|Hxn].
    * (* n goes first *)
      rewrite merge_cons, Z.gtb_ltb. destruct (Z.ltb_spec 0 (c x y)); cbn [sorted_insert].
      -- by rewrite (proj2 (Z.ltb_lt (c n y) 0)) by lia.
      -- by rewrite (proj2 (Z.ltb_lt (c n x) 0)) by lia.
    * (* x goes before n, hence before y *)
      assert (c x y <= 0). { apply (cmp_trans Hc x n y); lia. }
      rewrite (proj2 (Z.ltb_ge 0 (c x y))) by lia. cbn [sorted_insert].
      rewrite (proj2 (Z.ltb_ge (c n x) 0)) by lia. f_equal.
      rewrite <- IHl by done. cbn [sorted_insert].
      by rewrite (proj2 (Z.ltb_lt (c n y) 0)) by lia.
  + assert (sorted_insert n (y :: r) = y :: sorted_insert n r) as E
      by (simpl; by rewrite (proj2 (Z.ltb_ge (c n y) 0)) by lia).
    rewrite E, merge_cons, Z.gtb_ltb. destruct (Z.ltb_spec 0 (c x y)) as [Hxy|Hxy].
    * cbn [sorted_insert]. rewrite (proj2 (Z.ltb_ge (c n y) 0)) by lia.
      f_equal. exact IHr.
    * cbn [sorted_insert]. rewrite (proj2 (Z.ltb_ge (c n x) 0)); [f_equal|].
      -- rewrite <- IHl by done. by rewrite E.
      -- assert (c x n <= 0); [|lia]. apply (cmp_trans Hc x y n); [lia|].
         apply cmp_le_flip. lia.
Qed.
Lemma insertion_sort_merge xs ys :
merge (insertion_sort xs) (insertion_sort ys) = insertion_sort (xs ++ ys).
Proof.
induction ys as [|y ys IH] using rev_ind; [by rewrite app_nil_r, merge_nil_r|].
rewrite app_assoc, !insertion_sort_snoc, merge_insert, IH
  by apply insertion_sort_sorted. done.
Qed.
Lemma merge_length l r : length (merge l r) = (length l + length r)%nat.
Proof.
revert r. induction l as [|x l IHl]; [done|]. induction r as [|y r IHr].
- rewrite merge_nil_r. simpl; lia.
- rewrite merge_cons. destruct (c x y >? 0); cbn [length]; [rewrite IHr|rewrite IHl];
    cbn [length]; lia.
Qed.

End Order.

(** ** Chains through [next] *)

Fixpoint nseg (h : store) (p : Z) (xs : list Z) (q : Z) : Prop :=
  match xs with
  | [] => p = q
  | x :: xs => p = x /\ exists n, nx h x = Some n /\ nseg h n xs q
  end.
Fixpoint pseg (h : store) (a : Z) (xs : list Z) : Prop :=
  match xs with [] => True | x :: xs => pv h x = Some a /\ pseg h x xs end.
(** A chain under construction: the [next] of its [tail] is not set yet. *)
Definition built (h : store) (ch tl : Z) (out : list Z) : Prop :=
  (out = [] /\ tl = lh_null) \/ exists o, out = o ++ [tl] /\ nseg h ch o tl.

Lemma nseg_app h p xs ys q :
  nseg h p (xs ++ ys) q <-> exists m, nseg h p xs m /\ nseg h m ys q.
Proof.
  revert p. induction xs as [|x xs IH]; intros p; simpl.
  - naive_solver.
  - setoid_rewrite IH. naive_solver.
Qed.
Lemma nseg_agree h h' p xs q :
  (forall x, x ∈ xs -> nx h' x = nx h x) -> nseg h p xs q -> nseg h' p xs q.
Proof.
  revert p. induction xs as [|x xs IH]; intros p Hag; simpl; [done|].
  intros (-> & n & Hn & Hs). split; [done|]. exists n.
  rewrite Hag by (by left). split; [done|]. apply IH; [|done]. intros y Hy. apply Hag. by right.
Qed.
Lemma frame_nx h h' l x : frame h h' l -> x ∉ l -> nx h' x = nx h x.
Proof. intros [_ Hf] Hx. unfold nx. by rewrite Hf. Qed.
Lemma frame_walk h h' l : frame h h' l -> walk_fuel h' = walk_fuel h.
Proof.
  intros [Hd _]. unfold walk_fuel. by rewrite <- !(size_dom (D := gset Z)), Hd.
Qed.
Lemma nseg_frame h h' l p xs q :
  frame h h' l -> (forall x, x ∈ xs -> x ∉ l) -> nseg h p xs q -> nseg h' p xs q.
Proof. intros Hf Hd. apply nseg_agree. intros x Hx. by eapply frame_nx, Hd. Qed.
Lemma nseg_first h p xs : nseg h p xs lh_null -> p = first_of xs.
Proof. destruct xs; simpl; [done|]. by intros [-> _]. Qed.
Lemma nseg_built h p xs q : nseg h p xs q -> built h p (default lh_null (last xs)) xs.
Proof.
  destruct xs as [|t o _] using rev_ind; [by left|]. rewrite last_snoc. intros Hs.
  right. exists o. split; [done|]. apply nseg_app in Hs as (m & Hs & Hm).
  simpl in Hm. by destruct Hm as [-> _].
Qed.
Lemma path_nseg h a xs b :
  path h a xs b -> exists p, nx h a = Some p /\ nseg h p xs b.
Proof.
  revert a. induction xs as [|x xs IH]; intros a; simpl.
  - intros [Hn _]. eauto.
  - intros [[Hn _] Hp]. destruct (IH x Hp) as (p & Hx & Hs). exists x. eauto.
Qed.
Lemma pseg_agree h h' a xs :
  (forall x, x ∈ xs -> pv h' x = pv h x) -> pseg h a xs -> pseg h' a xs.
Proof.
  revert a. induction xs as [|x xs IH]; intros a Hag; simpl; [done|].
  intros [Hx Hs]. rewrite Hag by (by left). split; [done|].
  apply IH; [|done]. intros y Hy. apply Hag. by right.
Qed.
Lemma path_of_segs h a p ys b :
  nx h a = Some p -> nseg h p ys b -> pseg h a ys -> pv h b = Some (default a (last ys)) ->
  path h a ys b.
Proof.
  revert a p. induction ys as [|y ys IH]; intros a p Hn Hs Hp Hb; simpl in *; subst.
  - done.
  - destruct Hs as (-> & n & Hy & Hs), Hp as [Hpy Hp]. split; [done|].
    eapply IH; [done..|]. rewrite last_cons in Hb. by destruct (last ys).
Qed.

(** The nodes that are sorted, all present in the store. *)
Section Sort.
Variables (cmp : Z -> Z -> outcome Z) (c : Z -> Z -> Z) (all : list Z).
Hypothesis Hvalid : forall x, x ∈ all -> valid_ptr x.
Hypothesis Hcmp : forall x y, x ∈ all -> y ∈ all -> cmp x y = Done (c x y).
Hypothesis Hc : comparison c.

Definition present (h : store) : Prop := forall x, x ∈ all -> is_Some (h !! x).
Lemma present_frame h h' l : frame h h' l -> present h -> present h'.
Proof. intros Hf Hp x Hx. eapply frame_some; [done|]. by apply Hp. Qed.

Lemma built_close h ch tl out v :
  present h -> built h ch tl out -> out <> [] -> NoDup out -> (forall x, x ∈ out -> x ∈ all) ->
  exists h', lh_list_node_set_next h tl v = Done h' /\ nseg h' ch out v
    /\ (forall q, pv h' q = pv h q) /\ frame h h' out.
Proof.
  intros Hp [[-> _]|(o & -> & Hs)] Hne Hnd Hin; [done|].
  assert (tl ∈ all) by (apply Hin; rewrite elem_of_app, list_elem_of_singleton; by right).
  destruct (set_next_spec h tl v) as (h' & -> & Hn & Hv & Hf); [auto..|].
  exists h'. split; [done|]. split; [|split; [done|]].
  - apply nseg_app. exists tl. split; [|simpl; split; [done|]].
    + eapply nseg_agree; [|done]. intros x Hx. rewrite Hn. apply upd_ne. intros ->.
      apply NoDup_app in Hnd as (_ & Hd & _). apply (Hd tl Hx). by left.
    + exists v. by rewrite Hn, upd_eq.
  - eapply frame_mono; [done|]. intros p. rewrite list_elem_of_singleton. intros ->.
    rewrite elem_of_app, list_elem_of_singleton. by right.
Qed.

Lemma append_spec h s x out :
  present h -> built h (m_chain s) (m_tail s) out -> NoDup (out ++ [x]) ->
  (forall y, y ∈ out -> y ∈ all) ->
  exists h' ch, sort_append h s x = Done (h', ch) /\ built h' ch x (out ++ [x])
    /\ frame h h' out.
Proof.
  intros Hp Hb Hnd Hin. unfold sort_append. destruct (decide (out = [])) as [->|Hne].
  - destruct Hb as [[_ ->]|(o & Ho & _)]; [|by destruct o].
    exists h, x. split; [done|]. split; [|apply frame_refl]. right. by exists [].
  - assert (m_tail s ∈ all) as Ht.
    { destruct Hb as [[-> _]|(o & -> & _)]; [done|]. apply Hin. set_solver. }
    unfold lh_ptr_is_set. rewrite ptr_null_valid by auto. cbn [negb].
    apply NoDup_app in Hnd as (Hnd & _).
    destruct (built_close h (m_chain s) (m_tail s) out x) as (h' & -> & Hs & _ & Hf); [done..|].
    exists h', (m_chain s). split; [done|]. split; [|done]. right. by exists out.
Qed.

Lemma skip_spec fuel h run p xs k :
  present h -> nseg h p xs lh_null -> (forall x, x ∈ xs -> x ∈ all) ->
  (length xs < fuel)%nat -> 0 <= k <= run -> is_u64 run ->
  sort_skip fuel h run p k
  = Done (first_of (drop (Z.to_nat (run - k)) xs),
          k + Z.of_nat (length (take (Z.to_nat (run - k)) xs))).
Proof.
  intros Hp. revert p xs k. induction fuel as [|fuel IH]; intros p xs k Hs Hin Hf Hk Hr; [lia|].
  simpl sort_skip. rewrite (nseg_first h p xs Hs). destruct (Z.ltb_spec k run) as [Hlt|Hge].
  - destruct xs as [|x xs]; simpl.
    { by rewrite drop_nil, take_nil, Z.add_0_r. }
    destruct Hs as (-> & n & Hn & Hs).
    rewrite ptr_set_cons by (apply Hvalid, Hin; by left).
    change (first_of (x :: xs)) with x. cbn [andb].
    rewrite (get_next_eq h x n), bind_done, u64_id by (zb || done || apply Hvalid, Hin; by left).
    rewrite (IH n xs) by (done || (intros; apply Hin; by right) || simpl in Hf; lia).
    replace (Z.to_nat (run - k)) with (S (Z.to_nat (run - (k + 1)))) by lia.
    simpl. do 2 f_equal. lia.
  - cbn [andb]. replace (Z.to_nat (run - k)) with 0%nat by lia.
    rewrite drop_0. simpl. by rewrite Z.add_0_r.
Qed.

(** The merge of two runs: [L] is left of the left one, [R1] of the right one,
    and [R2] is what follows. *)
Definition right_run (size : Z) (R1 R2 : list Z) : Prop :=
  Z.of_nat (length R1) = size \/ (Z.of_nat (length R1) <= size /\ R2 = []).
Lemma right_left_eq h s R1 R2 :
  nseg h (m_right s) (R1 ++ R2) lh_null -> right_run (m_right_size s) R1 R2 ->
  (forall x, x ∈ R1 -> x ∈ all) -> right_left s = negb (bool_decide (R1 = [])).
Proof.
  intros HR Hrun Hin. unfold right_left. rewrite (nseg_first _ _ _ HR), Z.gtb_ltb.
  destruct R1 as [|r R1].
  - destruct Hrun as [<-|[_ ->]]; [done|]. simpl. by rewrite andb_false_r.
  - change ((r :: R1) ++ R2) with (r :: R1 ++ R2).
    rewrite ptr_set_cons by (apply Hvalid, Hin; by left).
    rewrite (proj2 (Z.ltb_lt 0 _)); [done|]. destruct Hrun as [?|[? _]]; simpl in *; lia.
Qed.
Lemma take_right_spec h s L R1 R2 q :
  nseg h (m_left s) L q -> nseg h (m_right s) (R1 ++ R2) lh_null ->
  right_run (m_right_size s) R1 R2 -> m_left_size s = Z.of_nat (length L) ->
  (forall x, x ∈ L ++ R1 -> x ∈ all) -> L ++ R1 <> [] ->
  exists b, sort_take_right cmp s = Done b /\
    if b then exists r R', R1 = r :: R' /\ (L = [] \/ exists l L', L = l :: L' /\ c l r > 0)
    else exists l L', L = l :: L' /\ (R1 = [] \/ exists r R', R1 = r :: R' /\ c l r <= 0).
Proof.
  intros HL HR Hrun Hls Hin Hne. unfold sort_take_right. rewrite Hls.
  rewrite (right_left_eq h s R1 R2) by (done || (clear -Hin; set_solver)).
  destruct L as [|l L].
  - exists true. split; [done|]. destruct R1 as [|r R']; [done|]. eauto 10.
  - rewrite (proj2 (Z.eqb_neq _ _)) by (simpl; lia).
    destruct R1 as [|r R']; simpl; [exists false; eauto 10|].
    destruct HL as (-> & _). destruct HR as (-> & _).
    rewrite Hcmp by (apply Hin; clear; set_solver). simpl. eexists. split; [done|].
    rewrite Z.gtb_ltb. destruct (Z.ltb_spec 0 (c l r)); eauto 10 with lia.
Qed.
Lemma merge_take_right l L r R :
  c l r > 0 -> merge c (l :: L) (r :: R) = r :: merge c (l :: L) R.
Proof. intros H. by rewrite merge_cons, Z.gtb_ltb, (proj2 (Z.ltb_lt 0 (c l r))) by lia. Qed.
Lemma merge_take_left l L r R :
  c l r <= 0 -> merge c (l :: L) (r :: R) = l :: merge c L (r :: R).
Proof. intros H. by rewrite merge_cons, Z.gtb_ltb, (proj2 (Z.ltb_ge 0 (c l r))) by lia. Qed.

Lemma merge_spec fuel h s out L R1 R2 :
  present h -> built h (m_chain s) (m_tail s) out ->
  (exists q, nseg h (m_left s) L q) -> nseg h (m_right s) (R1 ++ R2) lh_null ->
  m_left_size s = Z.of_nat (length L) -> is_u64 (m_left_size s) ->
  right_run (m_right_size s) R1 R2 -> is_u64 (m_right_size s) ->
  NoDup (out ++ L ++ R1 ++ R2) -> (forall x, x ∈ out ++ L ++ R1 ++ R2 -> x ∈ all) ->
  (length L + length R1 < fuel)%nat ->
  exists h' s', sort_merge cmp fuel h s = Done (h', s')
    /\ built h' (m_chain s') (m_tail s') (out ++ merge c L R1)
    /\ nseg h' (m_right s') R2 lh_null
    /\ frame h h' (out ++ L ++ R1).
Proof.
  revert h s out L R1. induction fuel as [|fuel IH];
    intros h s out L R1 Hp Hb (q & HL) HR Hls Hul Hrun Hur Hnd Hin Hf; [lia|].
  simpl sort_merge. rewrite (right_left_eq h s R1 R2) by (done || (clear -Hin; set_solver)).
  destruct (decide (L ++ R1 = [])) as [E|Hmore].
  { apply app_eq_nil in E as [-> ->]. rewrite Hls. simpl. exists h, s.
    rewrite app_nil_r. split; [done|]. split; [done|]. split; [done|apply frame_refl]. }
  replace ((m_left_size s >? 0) || _) with true.
  2: { rewrite Z.gtb_ltb, Hls. destruct L as [|l L]; simpl; [|done].
       by rewrite bool_decide_false. }
  destruct (take_right_spec h s L R1 R2 q) as (b & -> & Hpick); [done..|clear -Hin; set_solver|done|].
  rewrite bind_done. destruct b.
  - (* from the right run *)
    destruct Hpick as (r & R' & -> & HLr). destruct HR as (Hr & n & Hn & HR).
    assert (out ++ L ++ (r :: R') ++ R2 ≡ₚ (out ++ [r]) ++ L ++ R' ++ R2) as HP.
    { rewrite <- app_assoc. apply Permutation_app_head. simpl. symmetry.
      apply Permutation_middle. }
    rewrite HP in Hnd. setoid_rewrite HP in Hin.
    rewrite Hr, (get_next_eq h r n), bind_done by (done || apply Hvalid, Hin; clear; set_solver).
    destruct (append_spec h s r out) as (h1 & ch & -> & Hb1 & Hf1);
      [done|done|by apply NoDup_app in Hnd as [? _]|clear -Hin; set_solver|].
    rewrite bind_done.
    assert (forall x, x ∈ L ++ R' ++ R2 -> x ∉ out) as Hd.
    { rewrite <- app_assoc in Hnd. apply NoDup_app in Hnd as (_ & Hd & _). clear -Hd. set_solver. }
    destruct (IH h1 (mk_merge ch r (m_left s) n (m_left_size s) (u64 (m_right_size s - 1)))
                (out ++ [r]) L R') as (h' & s' & -> & Hb' & HR' & Hf');
      cbn [m_chain m_tail m_left m_right m_left_size m_right_size].
    + by eapply present_frame.
    + done.
    + exists q. eapply nseg_frame; [exact Hf1| |exact HL]. clear -Hd. set_solver.
    + eapply nseg_frame; [exact Hf1| |exact HR]. clear -Hd. set_solver.
    + done.
    + done.
    + destruct Hrun as [Hrun|[Hrun ->]]; simpl in Hrun; rewrite u64_id by zb;
        [left; lia|right; split; [lia|done]].
    + apply u64_range.
    + done.
    + done.
    + simpl in Hf. lia.
    + exists h', s'. split; [done|].
      assert (merge c L (r :: R') = r :: merge c L R') as ->.
      { destruct HLr as [->|(l & L' & -> & Hgt)]; [done|by apply merge_take_right]. }
      rewrite <- app_assoc in Hb'. split; [done|]. split; [done|].
      eapply frame_trans; [eapply frame_mono; [done|clear; set_solver]|].
      eapply frame_mono; [exact Hf'|clear; set_solver].
  - (* from the left run *)
    destruct Hpick as (l & L' & -> & HlR). destruct HL as (Hl & n & Hn & HL).
    assert (out ++ (l :: L') ++ R1 ++ R2 = (out ++ [l]) ++ L' ++ R1 ++ R2) as HP
      by by rewrite <- app_assoc.
    rewrite HP in Hnd. setoid_rewrite HP in Hin.
    rewrite Hl, (get_next_eq h l n), bind_done by (done || apply Hvalid, Hin; clear; set_solver).
    destruct (append_spec h s l out) as (h1 & ch & -> & Hb1 & Hf1);
      [done|done|by apply NoDup_app in Hnd as [? _]|clear -Hin; set_solver|].
    rewrite bind_done.
    assert (forall x, x ∈ L' ++ R1 ++ R2 -> x ∉ out) as Hd.
    { rewrite <- app_assoc in Hnd. apply NoDup_app in Hnd as (_ & Hd & _). clear -Hd. set_solver. }
    destruct (IH h1 (mk_merge ch l n (m_right s) (u64 (m_left_size s - 1)) (m_right_size s))
                (out ++ [l]) L' R1) as (h' & s' & -> & Hb' & HR' & Hf');
      cbn [m_chain m_tail m_left m_right m_left_size m_right_size].
    + by eapply present_frame.
    + done.
    + exists q. eapply nseg_frame; [exact Hf1| |exact HL]. clear -Hd. set_solver.
    + eapply nseg_frame; [exact Hf1| |exact HR]. clear -Hd. set_solver.
    + simpl in Hls. rewrite u64_id by zb. lia.
    + apply u64_range.
    + done.
    + done.
    + done.
    + done.
    + simpl in Hf. lia.
    + exists h', s'. split; [done|].
      assert (merge c (l :: L') R1 = l :: merge c L' R1) as ->.
      { destruct HlR as [->|(r & R' & -> & Hle)];
          [by rewrite !merge_nil_r|by apply merge_take_left]. }
      rewrite <- app_assoc in Hb'. split; [done|]. split; [done|].
      eapply frame_trans; [eapply frame_mono; [done|clear; set_solver]|].
      eapply frame_mono; [exact Hf'|clear; set_solver].
Qed.

(** ** One pass *)

(** [xs] is [o] cut into pieces of [r] elements, the last one perhaps shorter,
    each piece sorted. *)
Inductive blocks (r : Z) : list Z -> list Z -> Prop :=
| blocks_nil : blocks r [] []
| blocks_cons o1 o2 xs :
    0 < Z.of_nat (length o1) <= r -> Z.of_nat (length o1) = r \/ o2 = [] ->
    blocks r o2 xs -> blocks r (o1 ++ o2) (insertion_sort c o1 ++ xs).

Lemma blocks_perm r o xs : blocks r o xs -> xs ≡ₚ o.
Proof.
  induction 1 as [|o1 o2 xs Hl Hr Hb IH]; [done|]. by rewrite IH, insertion_sort_perm.
Qed.
Lemma blocks_nil_inv r xs : blocks r [] xs -> xs = [].
Proof. intros H. apply blocks_perm in H. by apply Permutation_nil_r in H. Qed.
Lemma blocks_one o : blocks 1 o o.
Proof.
  induction o as [|x o IH]; [constructor|].
  apply (blocks_cons 1 [x] o o); simpl; [lia|by left|done].
Qed.
Lemma blocks_done r o xs :
  blocks r o xs -> Z.of_nat (length o) <= r -> xs = insertion_sort c o.
Proof.
  destruct 1 as [|o1 o2 xs Hl Hr Hb]; intros Hle; [done|].
  assert (o2 = []) as ->.
  { destruct Hr as [Hr| ->]; [|done]. rewrite length_app in Hle. destruct o2; simpl in *; [done|lia]. }
  apply blocks_nil_inv in Hb as ->. by rewrite !app_nil_r.
Qed.
(** The first piece, empty when there is none, as a right run. *)
Lemma blocks_head r o xs :
  0 <= r -> blocks r o xs ->
  exists o1 o2 xs2, o = o1 ++ o2 /\ xs = insertion_sort c o1 ++ xs2 /\ blocks r o2 xs2
    /\ right_run r (insertion_sort c o1) xs2 /\ (length o1 <= length o)%nat
    /\ Z.of_nat (length o1) <= r /\ (Z.of_nat (length o1) = r \/ o2 = []).
Proof.
  intros Hr. destruct 1 as [|o1 o2 xs Hl Ho Hb].
  - exists [], [], []. repeat split; try (simpl; lia); [constructor|by right|by right].
  - exists o1, o2, xs. split; [done|]. split; [done|]. split; [done|].
    rewrite length_app. repeat split; [|lia|lia|done].
    unfold right_run. rewrite insertion_sort_length. destruct Ho as [Ho| ->]; [by left|].
    right. split; [lia|]. by apply blocks_nil_inv in Hb.
Qed.

(** The merges of a pass over [n] elements. *)
Definition merge_count (r n : Z) : Z := (n + 2 * r - 1) / (2 * r).
Lemma merge_count_zero r : 0 < r -> merge_count r 0 = 0.
Proof. intros. apply Z.div_small. lia. Qed.
Lemma merge_count_one r n : 0 < n <= 2 * r -> merge_count r n = 1.
Proof. intros. unfold merge_count. symmetry. apply (Z.div_unique_pos _ _ _ (n - 1)); lia. Qed.
Lemma merge_count_step r n : 0 < r -> merge_count r (2 * r + n) = 1 + merge_count r n.
Proof.
  intros. unfold merge_count. replace (2 * r + n + 2 * r - 1) with (n + 2 * r - 1 + 1 * (2 * r)) by lia.
  rewrite Z.div_add by lia. lia.
Qed.
Lemma merge_count_bounds r n : 0 < r -> 0 <= n -> 0 <= merge_count r n <= n.
Proof.
  intros. destruct (decide (n = 0)) as [->|]; [by rewrite merge_count_zero|].
  unfold merge_count. split; [apply Z.div_pos; lia|].
  apply Z.div_le_upper_bound; nia.
Qed.
Lemma merge_count_le_one r n : 0 < r -> merge_count r n <= 1 -> n <= 2 * r.
Proof.
  intros Hr Hle. destruct (Z.le_gt_cases n (2 * r)); [done|].
  replace n with (2 * r + (n - 2 * r)) in Hle by lia.
  rewrite merge_count_step in Hle by done.
  assert (1 <= merge_count r (n - 2 * r)); [|lia].
  unfold merge_count. apply Z.div_le_lower_bound; lia.
Qed.

Lemma merge_count_pair r (o1 o3 o4 : list Z) :
  0 < Z.of_nat (length o1) <= r -> Z.of_nat (length o3) <= r ->
  Z.of_nat (length o1) = r \/ o3 ++ o4 = [] -> Z.of_nat (length o3) = r \/ o4 = [] ->
  1 + merge_count r (Z.of_nat (length o4))
  = merge_count r (Z.of_nat (length o1 + (length o3 + length o4))).
Proof.
  intros H1 H3 Ho1 Ho3. destruct (decide (o4 = [])) as [->|Hne]; simpl.
  - rewrite merge_count_zero, merge_count_one by lia. done.
  - destruct Ho3 as [Ho3|?]; [|done].
    destruct Ho1 as [Ho1|[_ ?]%app_nil]; [|done].
    replace (Z.of_nat (length o1 + _)) with (2 * r + Z.of_nat (length o4)) by lia.
    by rewrite merge_count_step by lia.
Qed.
Lemma skip_run h walk run p o1 xs :
  present h -> nseg h p (insertion_sort c o1 ++ xs) lh_null ->
  (forall x, x ∈ insertion_sort c o1 ++ xs -> x ∈ all) ->
  (length (insertion_sort c o1 ++ xs) < walk)%nat -> is_u64 run ->
  right_run run (insertion_sort c o1) xs ->
  sort_skip walk h run p 0 = Done (first_of xs, Z.of_nat (length o1)).
Proof.
  intros Hp Hs Hin Hw Hu Hrun. rewrite (skip_spec walk h run p (insertion_sort c o1 ++ xs)) by (done || zb).
  rewrite Z.sub_0_r, Z.add_0_l. destruct Hrun as [Hrun|[Hrun ->]].
  - rewrite <- Hrun, Nat2Z.id, drop_app_length, take_app_length. by rewrite insertion_sort_length.
  - rewrite app_nil_r, drop_ge, take_ge by lia. by rewrite insertion_sort_length.
Qed.

Lemma pass_spec fuel walk h run out o xs ch tl p m :
  present h -> built h ch tl out -> nseg h p xs lh_null -> blocks run o xs ->
  NoDup (out ++ xs) -> (forall x, x ∈ out ++ xs -> x ∈ all) ->
  0 < run -> is_u64 run -> 0 <= m -> m + Z.of_nat (length o) < 18446744073709551616 ->
  (length o < fuel)%nat -> (length o < walk)%nat ->
  exists h' ch' tl' ys,
    sort_pass cmp fuel walk h run ch tl p m
    = Done (h', ch', tl', m + merge_count run (Z.of_nat (length o)))
    /\ built h' ch' tl' (out ++ ys) /\ blocks (2 * run) o ys /\ frame h h' (out ++ xs).
Proof.
  revert h out o xs ch tl p m. induction fuel as [|fuel IH];
    intros h out o xs ch tl p m Hp Hb Hs Hbl Hnd Hin Hr Hu Hm Hmo Hf Hw; [lia|].
  pose proof (nseg_first _ _ _ Hs) as Hpf. simpl sort_pass.
  destruct Hbl as [|o1 o2 xs Hl1 Ho1 Hbl].
  { rewrite Hpf. simpl. exists h, ch, tl, []. rewrite merge_count_zero, Z.add_0_r by done.
    split; [done|]. rewrite app_nil_r. split; [done|]. split; [constructor|apply frame_refl]. }
  destruct (blocks_head run o2 xs) as (o3 & o4 & x4 & -> & -> & Hbl4 & Hrun3 & Hl3 & Hle3 & Ho3);
    [lia|done|].
  assert (right_run run (insertion_sort c o1) (insertion_sort c o3 ++ x4)) as Hrun1.
  { unfold right_run. rewrite insertion_sort_length. destruct Ho1 as [Ho1|Ho1]; [by left|].
    right. split; [lia|]. rewrite Ho1 in Hbl. by apply blocks_nil_inv in Hbl. }
  assert (length (insertion_sort c o1 ++ insertion_sort c o3 ++ x4) = length (o1 ++ o3 ++ o4))
    as Hlen.
  { apply blocks_perm in Hbl4. by rewrite !insertion_sort_perm, Hbl4. }
  rewrite !length_app in Hmo, Hf, Hw. rewrite !length_app, !insertion_sort_length in Hlen.
  assert (lh_ptr_is_set p = true) as ->.
  { rewrite Hpf. destruct (insertion_sort c o1) as [|z l] eqn:E.
    - pose proof (insertion_sort_length c o1) as E'. rewrite E in E'. simpl in E'. lia.
    - apply ptr_set_cons, Hvalid, Hin. clear. set_solver. }
  rewrite (skip_run h walk run p o1 (insertion_sort c o3 ++ x4)); [|done|done|..].
  2: { intros x Hx. apply Hin. apply elem_of_app. by right. }
  2: { rewrite !length_app, !insertion_sort_length. lia. }
  2: done. 2: done.
  rewrite bind_done. apply nseg_app in Hs as (q & Hs1 & Hs3).
  destruct (merge_spec walk h (mk_merge ch tl p (first_of (insertion_sort c o3 ++ x4))
              (Z.of_nat (length o1)) run) out (insertion_sort c o1) (insertion_sort c o3) x4)
    as (h1 & s1 & -> & Hb1 & HR1 & Hf1);
    cbn [m_chain m_tail m_left m_right m_left_size m_right_size]; try done.
  + by exists q.
  + by rewrite (nseg_first _ _ _ Hs3) in Hs3.
  + by rewrite insertion_sort_length.
  + zb.
  + rewrite !insertion_sort_length. lia.
  + rewrite bind_done. rewrite insertion_sort_merge in Hb1 by done.
    assert ((out ++ insertion_sort c (o1 ++ o3)) ++ x4
            ≡ₚ out ++ insertion_sort c o1 ++ insertion_sort c o3 ++ x4) as HP.
    { by rewrite !insertion_sort_perm, !app_assoc. }
    destruct (IH h1 (out ++ insertion_sort c (o1 ++ o3)) o4 x4 (m_chain s1) (m_tail s1)
                (m_right s1) (u64 (m + 1))) as (h2 & ch2 & tl2 & ys & E & Hb2 & Hbl2 & Hf2);
      try done.
    * by eapply present_frame.
    * by rewrite HP.
    * intros x. rewrite HP. apply Hin.
    * apply u64_range.
    * rewrite u64_id by zb. lia.
    * lia.
    * lia.
    * exists h2, ch2, tl2, (insertion_sort c (o1 ++ o3) ++ ys). split; [|split; [|split]].
      -- rewrite E, u64_id by zb. do 2 f_equal. rewrite <- Z.add_assoc. f_equal.
         rewrite !length_app. by apply merge_count_pair.
      -- by rewrite app_assoc.
      -- rewrite app_assoc. constructor; [rewrite length_app; lia| |done].
         rewrite length_app. destruct Ho3 as [Ho3| ->]; [|by right].
         destruct Ho1 as [Ho1|Ho1]; [left; lia|]. apply app_nil in Ho1 as [_ ->]. by right.
      -- eapply frame_trans; [eapply frame_mono; [exact Hf1|]|eapply frame_mono; [exact Hf2|]];
           intros x; [clear; set_solver|]. rewrite HP. done.
Qed.

(** ** The passes, and the ring closed again *)

Lemma runs_spec fuel walk h run o xs p :
  present h -> nseg h p xs lh_null -> blocks run o xs -> o <> [] ->
  NoDup xs -> (forall x, x ∈ xs -> x ∈ all) -> 0 < run -> is_u64 run ->
  Z.of_nat (length o) < 18446744073709551616 -> (length o < walk)%nat ->
  (0 < fuel)%nat -> Z.of_nat (length o) <= run * 2 ^ Z.of_nat fuel ->
  exists h' p', sort_runs cmp fuel walk h run p = Done (h', p')
    /\ nseg h' p' (insertion_sort c o) lh_null /\ frame h h' xs.
Proof.
  revert h run xs p. induction fuel as [|fuel IH];
    intros h run xs p Hp Hs Hb Hne Hnd Hin Hr Hu Hl Hw Hf Hle; [lia|]. simpl sort_runs.
  destruct (pass_spec walk walk h run [] o xs lh_null lh_null p 0) as
    (h1 & ch & tl & ys & -> & Hb1 & Hbl & Hf1); try done; [by left|].
  rewrite bind_done. simpl in Hb1, Hf1.
  pose proof (blocks_perm _ _ _ Hb) as HPx. pose proof (blocks_perm _ _ _ Hbl) as HPy.
  assert (forall x, x ∈ ys -> x ∈ xs) as Hyx by (intros x; rewrite HPy, HPx; done).
  destruct (built_close h1 ch tl ys lh_null) as (h2 & -> & Hs2 & _ & Hf2).
  { by eapply present_frame. }
  { done. }
  { intros ->. apply Permutation_nil_l in HPy. done. }
  { by rewrite HPy, <- HPx. }
  { auto. }
  rewrite bind_done. rewrite Z.add_0_l.
  assert (frame h h2 xs) as Hf02 by (eapply frame_trans; [done|by eapply frame_mono]).
  destruct (Z.leb_spec (merge_count run (Z.of_nat (length o))) 1) as [Hmc|Hmc].
  - exists h2, ch. split; [done|]. split; [|done].
    apply merge_count_le_one in Hmc; [|done]. by rewrite <- (blocks_done _ _ _ Hbl Hmc).
  - assert (2 * run < Z.of_nat (length o)) as Hbig.
    { destruct (Z.le_gt_cases (Z.of_nat (length o)) (2 * run)); [|done].
      rewrite merge_count_one in Hmc; [lia|]. destruct o; simpl in *; [done|lia]. }
    rewrite u64_id by zb. replace (run * 2) with (2 * run) by lia.
    rewrite Nat2Z.inj_succ, Z.pow_succ_r in Hle by lia.
    destruct fuel as [|fuel]; [simpl in Hle; lia|].
    destruct (IH h2 (2 * run) ys ch) as (h3 & p3 & E & Hs3 & Hf3); try done.
    + by eapply present_frame.
    + by rewrite HPy, <- HPx.
    + auto.
    + lia.
    + zb.
    + lia.
    + lia.
    + exists h3, p3. split; [done|]. split; [done|].
      eapply frame_trans; [done|by eapply frame_mono].
Qed.

Lemma close_spec fuel h p xs a :
  present h -> nseg h p xs lh_null -> NoDup xs -> (forall x, x ∈ xs -> x ∈ all) ->
  (length xs < fuel)%nat ->
  exists h', sort_close fuel h p a = Done (h', default a (last xs))
    /\ (forall q, nx h' q = nx h q) /\ pseg h' a xs /\ frame h h' xs.
Proof.
  revert h p xs a. induction fuel as [|fuel IH]; intros h p xs a Hp Hs Hnd Hin Hf; [lia|].
  rewrite (nseg_first h p xs Hs). simpl sort_close. destruct xs as [|x xs].
  { simpl. exists h. split; [done|]. split; [done|]. split; [done|apply frame_refl]. }
  destruct Hs as (-> & n & Hn & Hs). apply NoDup_cons in Hnd as [Hx Hnd].
  assert (x ∈ all) by (apply Hin; by left).
  rewrite ptr_set_cons by auto. change (first_of (x :: xs)) with x.
  destruct (set_prev_spec h x a) as (h1 & -> & Hn1 & Hv1 & Hf1); [auto..|].
  rewrite bind_done, (get_next_eq h1 x n), bind_done by (auto || by rewrite Hn1).
  destruct (IH h1 n xs x) as (h2 & -> & Hn2 & Hv2 & Hf2).
  { by eapply present_frame. }
  { eapply nseg_agree; [|done]. intros; apply Hn1. }
  { done. }
  { intros y Hy. apply Hin. by right. }
  { simpl in Hf. lia. }
  exists h2. split; [by rewrite last_cons; destruct (last xs)|].
  split; [intros q; by rewrite Hn2, Hn1|]. split.
  - split; [|done]. unfold pv. destruct Hf2 as [_ Hf2]. rewrite Hf2 by done.
    change (pv h1 x = Some a). by rewrite Hv1, upd_eq.
  - eapply frame_trans; (eapply frame_mono; [done|]); clear; set_solver.
Qed.
End Sort.

(** ** The whole functions *)

Section Ordered.
Variables (cmp : Z -> Z -> outcome Z) (c : Z -> Z -> Z).

Lemma insert_loop_spec fuel h self n xs ys :
  is_list h self (xs ++ ys) -> unlinked h n -> n ∉ self :: xs ++ ys ->
  (forall x, x ∈ xs ++ ys -> cmp n x = Done (c n x)) -> (length ys < fuel)%nat ->
  exists h', insert_loop cmp fuel h self n (first_of ys) = Done h'
    /\ is_list h' self (xs ++ sorted_insert c n ys) /\ frame h h' (n :: self :: xs ++ ys).
Proof.
  revert xs ys. induction fuel as [|fuel IH]; intros xs ys Hl Hu Hn Hcmp Hf; [lia|].
  simpl insert_loop. destruct ys as [|y ys].
  - rewrite app_nil_r in *. by apply list_push_back.
  - rewrite (ptr_set_in h self xs y ys) by done. change (first_of (y :: ys)) with y.
    rewrite Hcmp, bind_done by (clear; set_solver). simpl sorted_insert.
    destruct (c n y <? 0); [by apply list_insert_before|].
    rewrite (walk_step h self xs y ys) by done.
    destruct (IH (xs ++ [y]) ys) as (h' & -> & Hl' & Hf'); rewrite <- ?app_assoc; try done.
    { simpl in Hf. lia. }
    rewrite <- app_assoc in Hl', Hf'. by exists h'.
Qed.
Lemma list_insert_sorted h self n xs :
  is_list h self xs -> unlinked h n -> n ∉ self :: xs ->
  (forall x, x ∈ xs -> cmp n x = Done (c n x)) ->
  exists h', lh_list_insert_sorted cmp h self n = Done h'
    /\ is_list h' self (sorted_insert c n xs) /\ frame h h' (n :: self :: xs).
Proof.
  intros Hl Hu Hn Hcmp. unfold lh_list_insert_sorted.
  rewrite (get_first_eq h self xs), bind_done by done.
  apply (insert_loop_spec _ h self n [] xs); try done. by eapply list_walk_fuel.
Qed.
End Ordered.

Lemma list_sort cmp c h self xs :
  is_list h self xs -> comparison c ->
  (forall x y, x ∈ xs -> y ∈ xs -> cmp x y = Done (c x y)) ->
  exists h', lh_list_sort cmp h self = Done h'
    /\ is_list h' self (insertion_sort c xs) /\ frame h h' (self :: xs).
Proof.
  intros Hl Hc Hcmp. unfold lh_list_sort, lh_list_get_head_mut.
  pose proof (list_valid h self xs Hl) as Hvs. rewrite ref_valid, bind_done by done.
  cbn [mbind outcome_bind mret outcome_ret].
  rewrite (get_first_eq h self xs), bind_done by done.
  destruct (decide (xs = [])) as [->|Hne].
  { simpl. exists h. split; [done|]. split; [done|apply frame_refl]. }
  assert (forall x, x ∈ xs -> valid_ptr x) as Hvalid by eauto using elem_valid.
  assert (present xs h) as Hp.
  { intros x Hx. apply (ring_dom h (self :: xs)); [done|by right]. }
  pose proof (list_nodup h self xs Hl) as [Hnd Hself].
  assert (is_Some (h !! self)) as Hds by (apply (ring_dom h (self :: xs)); [done|by left]).
  replace (lh_ptr_is_null (first_of xs)) with false.
  2: { destruct xs as [|x xs]; [done|]. symmetry. apply ptr_null_valid, Hvalid. by left. }
  rewrite (ring_prev h self xs), bind_done by done.
  pose proof Hl as (Hpath & _ & _). apply path_nseg in Hpath as (p & Hnp & Hs).
  pose proof (nseg_built h p xs self Hs) as Hb.
  assert (default self (last xs) = default lh_null (last xs)) as ->.
  { destruct xs as [|x xs' _] using rev_ind; [done|]. by rewrite last_snoc. }
  destruct (built_close xs Hvalid h p (default lh_null (last xs)) xs lh_null)
    as (h1 & -> & Hs1 & _ & Hf1); [done..|].
  rewrite bind_done. rewrite <- (nseg_first h1 p xs) by done.
  assert (length xs < walk_fuel h1)%nat as Hwalk.
  { rewrite (frame_walk h h1 xs) by done. by eapply list_walk_fuel. }
  destruct (runs_spec cmp c xs Hvalid Hcmp Hc 65 (S (walk_fuel h1)) h1 1 xs xs p)
    as (h2 & p2 & -> & Hs2 & Hf2); try done.
  { by eapply present_frame. }
  { apply blocks_one. }
  { pose proof (ring_fits h (self :: xs) Hl). simpl in *. lia. }
  { lia. }
  { lia. }
  { pose proof (ring_fits h (self :: xs) Hl). simpl in *. lia. }
  cbn [mbind outcome_bind].
  set (ys := insertion_sort c xs) in *. pose proof (insertion_sort_perm c xs : ys ≡ₚ xs) as HP.
  assert (forall x, x ∈ ys -> x ∈ xs) as Hyx by (intros x; by rewrite HP).
  assert (ys <> []) as Hney. { intros E. rewrite E in HP. by apply Permutation_nil_l in HP. }
  assert (self ∉ ys) as Hsy by (by rewrite HP).
  assert (NoDup ys) as Hndy by by rewrite HP.
  assert (frame h h2 xs) as Hf02 by by eapply frame_trans.
  destruct (close_spec xs Hvalid (S (walk_fuel h1)) h2 p2 ys self)
    as (h3 & -> & Hn3 & Hv3 & Hf3); try done.
  { by eapply present_frame. }
  { rewrite HP. lia. }
  cbn [mbind outcome_bind].
  assert (frame h h3 xs) as Hf03 by (eapply frame_trans; [done|by eapply frame_mono]).
  destruct (set_next_spec h3 self p2) as (h4 & -> & Hn4 & Hv4 & Hf4);
    [done|by eapply frame_some|]. rewrite bind_done.
  assert (forall q, q ∈ ys -> nx h4 q = nx h2 q) as Hn42.
  { intros q Hq. rewrite Hn4, upd_ne, Hn3; [done|]. by intros ->. }
  assert (default self (last ys) = default lh_null (last ys)) as Elast.
  { destruct ys as [|y ys' _] using rev_ind; [done|]. by rewrite last_snoc. }
  destruct (built_close xs Hvalid h4 p2 (default lh_null (last ys)) ys self)
    as (h5 & E5 & Hs5 & Hv5 & Hf5).
  { eapply present_frame; [done|]. by eapply present_frame. }
  { eapply nseg_built, nseg_agree; [exact Hn42|exact Hs2]. }
  { done. } { done. } { done. }
  rewrite Elast, E5, bind_done, <- Elast.
  destruct (set_prev_spec h5 self (default self (last ys))) as (h6 & -> & Hn6 & Hv6 & Hf6).
  { done. }
  { eapply frame_some; [exact Hf5|]. eapply frame_some; [exact Hf4|]. by eapply frame_some. }
  exists h6. split; [done|]. split.
  - split; [|split; [by constructor|]].
    + apply path_of_segs with (p := p2).
      * rewrite Hn6. rewrite (frame_nx h4 h5 ys) by done. by rewrite Hn4, upd_eq.
      * eapply nseg_agree; [|exact Hs5]. intros; apply Hn6.
      * apply (pseg_agree h3); [|done]. intros q Hq. rewrite Hv6, upd_ne, Hv5, Hv4; [done|].
        by intros ->.
      * by rewrite Hv6, upd_eq.
    + constructor; [done|]. apply Forall_forall. auto.
  - eapply frame_trans; [eapply frame_mono; [exact Hf03|by right]|].
    eapply frame_trans; [eapply frame_mono; [exact Hf4|clear; set_solver]|].
    eapply frame_trans; [eapply frame_mono; [exact Hf5|intros; right; auto]|].
    eapply frame_mono; [exact Hf6|clear; set_solver].
Qed.
