(* ===== verification/ListSpec.v ===== *)
(** * Intrusive lists: specification and refinement

    The abstract state of a list is the sequence of its elements, with the
    nodes of the program that are in no list beside it.  The operations of
    [LinkedList] refine the sequence operations below; the theorems about
    observers, splicing, sorting and the run-time checks are here too. *)
From S2P Require Import Prelude LinkedList LinkedListProofs ListSort.

(** ** Sequences *)

Definition remove_elem (n : Z) (xs : list Z) : list Z := filter (fun x => x <> n) xs.
Fixpoint insert_after_elem (n p : Z) (xs : list Z) : list Z :=
  match xs with
  | [] => []
  | x :: xs => if decide (x = p) then x :: n :: xs else x :: insert_after_elem n p xs
  end.
Fixpoint insert_before_elem (n p : Z) (xs : list Z) : list Z :=
  match xs with
  | [] => []
  | x :: xs => if decide (x = p) then n :: x :: xs else x :: insert_before_elem n p xs
  end.

Lemma remove_elem_not n xs : n ∉ xs -> remove_elem n xs = xs.
Proof.
  induction xs as [|x xs IH]; [done|]. rewrite elem_of_cons. intros Hn.
  unfold remove_elem. rewrite filter_cons, decide_True by naive_solver.
  f_equal. apply IH. naive_solver.
Qed.
Lemma remove_elem_split n l1 l2 :
  n ∉ l1 -> n ∉ l2 -> remove_elem n (l1 ++ n :: l2) = l1 ++ l2.
Proof.
  intros H1 H2. unfold remove_elem. rewrite filter_app, filter_cons, decide_False by tauto.
  f_equal; by apply remove_elem_not.
Qed.
Lemma insert_after_split n p l1 l2 :
  p ∉ l1 -> insert_after_elem n p (l1 ++ p :: l2) = l1 ++ p :: n :: l2.
Proof.
  induction l1 as [|x l1 IH]; intros Hp; simpl; [by rewrite decide_True|].
  rewrite elem_of_cons in Hp. rewrite decide_False by naive_solver. f_equal. apply IH. tauto.
Qed.
Lemma insert_before_split n p l1 l2 :
  p ∉ l1 -> insert_before_elem n p (l1 ++ p :: l2) = l1 ++ n :: p :: l2.
Proof.
  induction l1 as [|x l1 IH]; intros Hp; simpl; [by rewrite decide_True|].
  rewrite elem_of_cons in Hp. rewrite decide_False by naive_solver. f_equal. apply IH. tauto.
Qed.
Lemma remove_elem_in n xs x : x ∈ remove_elem n xs <-> x ∈ xs /\ x <> n.
Proof. unfold remove_elem. rewrite list_elem_of_filter. tauto. Qed.
Lemma remove_elem_perm n xs : NoDup xs -> n ∈ xs -> xs ≡ₚ n :: remove_elem n xs.
Proof.
  intros Hnd (l1 & l2 & ->)%list_elem_of_split.
  apply NoDup_app in Hnd as (_ & Hd & [Hn _]%NoDup_cons).
  rewrite remove_elem_split; [|intros H; apply (Hd n H); by left|done].
  symmetry. apply Permutation_middle.
Qed.

(** ** Operations and their two meanings *)

Inductive list_op :=
| PushFront (n : Z) | PushBack (n : Z)
| InsertAfter (n p : Z) | InsertBefore (n p : Z) | InsertSorted (n : Z)
| Unlink (n : Z) | MoveAfter (n p : Z) | MoveBefore (n p : Z)
| PopFront | PopBack | Sort | Clear.

(** Elements and unlinked nodes. *)
Record seq_state := mk_seq { elems : list Z; spare : list Z }.

Section Meaning.
Variables (cmp : Z -> Z -> outcome Z) (c : Z -> Z -> Z).

Definition add_elem (n : Z) (xs : list Z) (a : seq_state) : option (seq_state * Z) :=
if decide (n ∈ spare a) then Some (mk_seq xs (remove_elem n (spare a)), lh_null) else None.
Definition drop_elem (n r : Z) (a : seq_state) : seq_state * Z :=
(mk_seq (remove_elem n (elems a)) (n :: spare a), r).

(** The operation on sequences with the pointer it returns (null for a
  [lh_void] function); [None] when its precondition fails. *)
Definition seq_step (op : list_op) (a : seq_state) : option (seq_state * Z) :=
let xs := elems a in
match op with
| PushFront n => add_elem n (n :: xs) a
| PushBack n => add_elem n (xs ++ [n]) a
| InsertAfter n p => if decide (p ∈ xs) then add_elem n (insert_after_elem n p xs) a else None
| InsertBefore n p => if decide (p ∈ xs) then add_elem n (insert_before_elem n p xs) a else None
| InsertSorted n => add_elem n (sorted_insert c n xs) a
| Unlink n => if decide (n ∈ xs) then Some (drop_elem n lh_null a) else None
| MoveAfter n p =>
    if decide (n ∈ xs /\ p ∈ xs) then
      if decide (n = p) then Some (a, lh_null)
      else Some (mk_seq (insert_after_elem n p (remove_elem n xs)) (spare a), lh_null)
    else None
| MoveBefore n p =>
    if decide (n ∈ xs /\ p ∈ xs) then
      if decide (n = p) then Some (a, lh_null)
      else Some (mk_seq (insert_before_elem n p (remove_elem n xs)) (spare a), lh_null)
    else None
| PopFront => match head xs with Some n => Some (drop_elem n n a) | None => Some (a, lh_null) end
| PopBack => match last xs with Some n => Some (drop_elem n n a) | None => Some (a, lh_null) end
| Sort => Some (mk_seq (insertion_sort c xs) (spare a), lh_null)
| Clear => Some (mk_seq [] (xs ++ spare a), lh_null)
end.

Definition void (m : outcome store) : outcome (store * Z) := h ← m; mret (h, lh_null).
Definition code_step (op : list_op) (h : store) (self : Z) : outcome (store * Z) :=
match op with
| PushFront n => void (lh_list_push_front h self n)
| PushBack n => void (lh_list_push_back h self n)
| InsertAfter n p => void (lh_list_node_insert_after h n p)
| InsertBefore n p => void (lh_list_node_insert_before h n p)
| InsertSorted n => void (lh_list_insert_sorted cmp h self n)
| Unlink n => void (lh_list_node_unlink h n)
| MoveAfter n p => void (lh_list_node_move_after h n p)
| MoveBefore n p => void (lh_list_node_move_before h n p)
| PopFront => lh_list_pop_front h self
| PopBack => lh_list_pop_back h self
| Sort => void (lh_list_sort cmp h self)
| Clear => void (lh_list_clear h self)
end.

Fixpoint seq_run (ops : list list_op) (a : seq_state) : option (seq_state * list Z) :=
match ops with
| [] => Some (a, [])
| op :: ops =>
  '(a, r) ← seq_step op a; '(a, rs) ← seq_run ops a; Some (a, r :: rs)
end.
Fixpoint code_run (ops : list list_op) (h : store) (self : Z) : outcome (store * list Z) :=
match ops with
| [] => mret (h, [])
| op :: ops =>
  '(h, r) ← code_step op h self; '(h, rs) ← code_run ops h self; mret (h, r :: rs)
end.

(** The store holds the list [elems a], every spare node is alone, and the two
  share no node. *)
Definition rep (h : store) (self : Z) (a : seq_state) : Prop :=
is_list h self (elems a) /\ Forall (unlinked h) (spare a)
/\ NoDup (self :: elems a ++ spare a).
End Meaning.

(** ** Refinement *)

Section Refinement.
Variables (cmp : Z -> Z -> outcome Z) (c : Z -> Z -> Z).
Hypothesis Hc : comparison c.

Lemma rep_nodup h self a :
  rep h self a -> self ∉ elems a ++ spare a /\ NoDup (elems a ++ spare a).
Proof. intros (_ & _ & Hnd). by apply NoDup_cons in Hnd. Qed.
Lemma rep_spare h self a n :
  rep h self a -> n ∈ spare a -> unlinked h n /\ n ∉ self :: elems a.
Proof.
  intros Hr Hn. pose proof (rep_nodup h self a Hr) as [Hs Hnd].
  destruct Hr as (_ & Hu & _). split; [by eapply Forall_forall|].
  apply NoDup_app in Hnd as (_ & Hd & _). rewrite elem_of_cons. intros [->|Hin].
  - apply Hs, elem_of_app. by right.
  - by apply (Hd n Hin).
Qed.
Lemma unlinked_frame h h' l n : unlinked h n -> frame h h' l -> n ∉ l -> unlinked h' n.
Proof.
  intros Hu Hf Hn. eapply ring_frame; [done..|]. intros p. by rewrite list_elem_of_singleton => ->.
Qed.

(** The three shapes of a step. *)
Definition refines (a : seq_state) (self : Z) (res : outcome (store * Z))
    (a' : seq_state) (r : Z) : Prop :=
  exists h', res = Done (h', r) /\ rep h' self a'
    /\ elems a' ++ spare a' ≡ₚ elems a ++ spare a.
Lemma refines_add h self a n xs' res :
  rep h self a -> n ∈ spare a -> xs' ≡ₚ n :: elems a ->
  (exists h', res = Done h' /\ is_list h' self xs' /\ frame h h' (n :: self :: elems a)) ->
  refines a self (void res) (mk_seq xs' (remove_elem n (spare a))) lh_null.
Proof.
  intros Hr Hn HP (h' & -> & Hl & Hf). exists h'. split; [done|].
  pose proof (rep_nodup h self a Hr) as [Hs Hnd].
  pose proof Hnd as (Hnx & Hd & Hns)%NoDup_app.
  assert (xs' ++ remove_elem n (spare a) ≡ₚ elems a ++ spare a) as HP2.
  { rewrite HP. etransitivity; [apply (Permutation_middle (elems a))|].
    apply Permutation_app_head. symmetry. by apply remove_elem_perm. }
  split; [|done]. split; [done|]. split.
  - apply Forall_forall. intros m [Hm Hne]%remove_elem_in.
    destruct (rep_spare h self a m Hr Hm) as [Hum Hmx].
    eapply unlinked_frame; [exact Hum|exact Hf|]. rewrite elem_of_cons. tauto.
  - simpl. by rewrite HP2; constructor.
Qed.
Lemma refines_drop h self a n xs' r res :
  rep h self a -> elems a ≡ₚ n :: xs' ->
  (exists h', res = Done (h', r) /\ is_list h' self xs' /\ unlinked h' n
     /\ frame h h' (self :: elems a)) ->
  refines a self res (mk_seq xs' (n :: spare a)) r.
Proof.
  intros Hr HP (h' & -> & Hl & Hu & Hf). exists h'. split; [done|].
  pose proof (rep_nodup h self a Hr) as [Hs Hnd].
  assert (xs' ++ n :: spare a ≡ₚ elems a ++ spare a) as HP2.
  { rewrite HP. symmetry. apply Permutation_middle. }
  split; [|done]. split; [done|]. split.
  - constructor; [done|]. apply Forall_forall. intros m Hm.
    destruct (rep_spare h self a m Hr Hm) as [Hum Hmx]. by eapply unlinked_frame.
  - simpl. by rewrite HP2; constructor.
Qed.
Lemma refines_same h self a xs' res :
  rep h self a -> xs' ≡ₚ elems a ->
  (exists h', res = Done h' /\ is_list h' self xs' /\ frame h h' (self :: elems a)) ->
  refines a self (void res) (mk_seq xs' (spare a)) lh_null.
Proof.
  intros Hr HP (h' & -> & Hl & Hf). exists h'. split; [done|].
  pose proof (rep_nodup h self a Hr) as [Hs Hnd].
  assert (xs' ++ spare a ≡ₚ elems a ++ spare a) as HP2 by by rewrite HP.
  split; [|done]. split; [done|]. split.
  - apply Forall_forall. intros m Hm.
    destruct (rep_spare h self a m Hr Hm) as [Hum Hmx]. by eapply unlinked_frame.
  - simpl. by rewrite HP2; constructor.
Qed.
Lemma list_split_elem h self xs n :
  is_list h self xs -> n ∈ xs -> exists l1 l2, xs = l1 ++ n :: l2 /\ n ∉ l1 /\ n ∉ l2.
Proof.
  intros Hl (l1 & l2 & ->)%list_elem_of_split. exists l1, l2.
  pose proof (list_nodup h self _ Hl) as [(_ & Hd & [Hn _]%NoDup_cons)%NoDup_app _].
  split; [done|]. split; [|done]. intros H. apply (Hd n H). by left.
Qed.
Lemma insert_after_perm n p xs : p ∈ xs -> insert_after_elem n p xs ≡ₚ n :: xs.
Proof.
  induction xs as [|x xs IH]; simpl; [by intros ?%not_elem_of_nil|]. intros Hp.
  destruct (decide (x = p)); [constructor|]. rewrite IH; [constructor|].
  apply elem_of_cons in Hp as [?|?]; [congruence|done].
Qed.
Lemma insert_before_perm n p xs : p ∈ xs -> insert_before_elem n p xs ≡ₚ n :: xs.
Proof.
  induction xs as [|x xs IH]; simpl; [by intros ?%not_elem_of_nil|]. intros Hp.
  destruct (decide (x = p)); [done|]. rewrite IH; [constructor|].
  apply elem_of_cons in Hp as [?|?]; [congruence|done].
Qed.

Lemma move_split h self xs n p :
  is_list h self xs -> n ∈ xs -> p ∈ xs -> n <> p ->
  exists h1 l1 l2, lh_list_node_unlink h n = Done h1 /\ unlinked h1 n
    /\ remove_elem n xs = l1 ++ p :: l2 /\ p ∉ l1
    /\ is_list h1 self (l1 ++ p :: l2) /\ n ∉ self :: l1 ++ p :: l2
    /\ frame h h1 (self :: xs)
    /\ (forall x, x ∈ n :: self :: l1 ++ p :: l2 -> x ∈ self :: xs).
Proof.
  intros Hl Hn Hp Hne. destruct (list_split_elem h self xs n Hl Hn) as (k1 & k2 & -> & H1 & H2).
  destruct (list_unlink h self n k1 k2 Hl) as (h1 & E & Hl1 & Hu & Hf).
  destruct (list_split_elem h1 self (k1 ++ k2) p Hl1) as (l1 & l2 & El & Hp1 & Hp2).
  { rewrite elem_of_app, elem_of_cons in Hp. rewrite elem_of_app. naive_solver. }
  exists h1, l1, l2. split; [done|]. split; [done|]. split; [by rewrite remove_elem_split|].
  split; [done|]. rewrite <- El. split; [done|]. split; [by apply list_nodup_app in Hl|].
  split; [done|]. clear. set_solver.
Qed.
Lemma move_after_spec h self xs n p :
  is_list h self xs -> n ∈ xs -> p ∈ xs -> n <> p ->
  exists h', lh_list_node_move_after h n p = Done h'
    /\ is_list h' self (insert_after_elem n p (remove_elem n xs)) /\ frame h h' (self :: xs).
Proof.
  intros Hl Hn Hp Hne. destruct (move_split h self xs n p Hl Hn Hp Hne)
    as (h1 & l1 & l2 & E & Hu & -> & Hp1 & Hl1 & Hn1 & Hf & Hsub).
  destruct (list_insert_after h1 self n l1 l2 p Hl1 Hu Hn1) as (h2 & E2 & Hl2 & Hf2).
  exists h2. unfold lh_list_node_move_after, lh_ptr_eq.
  rewrite (proj2 (Z.eqb_neq n p)), E, bind_done by done. split; [done|].
  rewrite insert_after_split by done. split; [done|]. eapply frame_trans; [done|].
  by eapply frame_mono.
Qed.
Lemma move_before_spec h self xs n p :
  is_list h self xs -> n ∈ xs -> p ∈ xs -> n <> p ->
  exists h', lh_list_node_move_before h n p = Done h'
    /\ is_list h' self (insert_before_elem n p (remove_elem n xs)) /\ frame h h' (self :: xs).
Proof.
  intros Hl Hn Hp Hne. destruct (move_split h self xs n p Hl Hn Hp Hne)
    as (h1 & l1 & l2 & E & Hu & -> & Hp1 & Hl1 & Hn1 & Hf & Hsub).
  destruct (list_insert_before h1 self n l1 l2 p Hl1 Hu Hn1) as (h2 & E2 & Hl2 & Hf2).
  exists h2. unfold lh_list_node_move_before, lh_ptr_eq.
  rewrite (proj2 (Z.eqb_neq n p)), E, bind_done by done. split; [done|].
  rewrite insert_before_split by done. split; [done|]. eapply frame_trans; [done|].
  by eapply frame_mono.
Qed.

Lemma add_elem_inv n xs a a' r :
  add_elem n xs a = Some (a', r) ->
  n ∈ spare a /\ a' = mk_seq xs (remove_elem n (spare a)) /\ r = lh_null.
Proof. unfold add_elem. case_decide; [|done]. by intros [= <- <-]. Qed.

(** Each operation of the code, on a represented state. *)
Definition cmp_agrees (a : seq_state) : Prop :=
  forall x y, x ∈ elems a ++ spare a -> y ∈ elems a ++ spare a -> cmp x y = Done (c x y).
Lemma insert_refines h self a op a' r :
  rep h self a -> cmp_agrees a ->
  match op with
  | PushFront _ | PushBack _ | InsertAfter _ _ | InsertBefore _ _ | InsertSorted _ => True
  | _ => False
  end ->
  seq_step c op a = Some (a', r) -> refines a self (code_step cmp op h self) a' r.
Proof.
  intros Hr Hcmp Hop. pose proof Hr as (Hl & _).
  destruct op; try done; simpl; try case_decide; try done;
    intros (Hn & -> & ->)%add_elem_inv; pose proof (rep_spare h self a n Hr Hn) as [Hu Hx];
    (eapply refines_add; [done|done| |]).
  - done.
  - by apply list_push_front.
  - by rewrite Permutation_app_comm.
  - by apply list_push_back.
  - by apply insert_after_perm.
  - destruct (list_split_elem h self _ p Hl) as (l1 & l2 & E & Hp & _); [done|].
    rewrite E in *. rewrite insert_after_split by done. by apply list_insert_after.
  - by apply insert_before_perm.
  - destruct (list_split_elem h self _ p Hl) as (l1 & l2 & E & Hp & _); [done|].
    rewrite E in *. rewrite insert_before_split by done. by apply list_insert_before.
  - apply sorted_insert_perm.
  - apply list_insert_sorted; [done..|]. intros x Hin. apply Hcmp; apply elem_of_app; auto.
Qed.
Lemma drop_refines h self a l1 n l2 r res :
  rep h self a -> elems a = l1 ++ n :: l2 ->
  (exists h', res = Done (h', r) /\ is_list h' self (l1 ++ l2) /\ unlinked h' n
     /\ frame h h' (self :: elems a)) ->
  refines a self res (fst (drop_elem n r a)) (snd (drop_elem n r a)).
Proof.
  intros Hr E Hres. pose proof (rep_nodup h self a Hr) as [_ (Hnd & _)%NoDup_app].
  rewrite E in Hnd. apply NoDup_app in Hnd as (_ & Hd & [Hn2 _]%NoDup_cons).
  unfold drop_elem; simpl. rewrite E at 1. rewrite remove_elem_split;
    [|intros H; apply (Hd n H); by left|done].
  eapply refines_drop; [done| |done]. rewrite E. symmetry. apply Permutation_middle.
Qed.
Lemma unlink_refines h self a n a' r :
  rep h self a -> seq_step c (Unlink n) a = Some (a', r) ->
  refines a self (code_step cmp (Unlink n) h self) a' r.
Proof.
  intros Hr. pose proof Hr as (Hl & _). simpl. case_decide as Hn; [|done]. intros [= <- <-].
  destruct (list_split_elem h self _ n Hl Hn) as (l1 & l2 & E & _).
  apply (drop_refines h self a l1 n l2 lh_null); [done|done|]. rewrite E in *.
  destruct (list_unlink h self n l1 l2 Hl) as (h' & -> & ?). by exists h'.
Qed.
Lemma pop_refines h self a op a' r :
  rep h self a -> op = PopFront \/ op = PopBack ->
  seq_step c op a = Some (a', r) -> refines a self (code_step cmp op h self) a' r.
Proof.
  intros Hr Hop. pose proof Hr as (Hl & _). destruct Hop as [-> | ->]; simpl.
  - destruct (list_pop_front h self _ Hl) as (h' & E & Hl' & Hf & Hu).
    destruct (head (elems a)) as [n|] eqn:En; intros [= <- <-].
    + destruct (elems a) as [|x xs] eqn:Ex; [done|]. injection En as ->.
      rewrite <- Ex. apply (drop_refines h self a [] n xs n); [done|done|]. exists h'. rewrite Ex. auto.
    + destruct (elems a) eqn:Ex; [|done]. exists h'. split; [done|]. split; [|done].
      destruct Hr as (_ & Hu' & Hnd). split; [by rewrite Ex|]. split; [|done].
      eapply Forall_impl; [exact Hu'|]. intros m Hm. unfold lh_list_pop_front in E.
      rewrite (get_first_eq h self []), bind_done in E by done. simpl in E.
      injection E as <-. done.
  - destruct (list_pop_back h self _ Hl) as (h' & E & Hl' & Hf & Hu).
    destruct (last (elems a)) as [n|] eqn:En; intros [= <- <-].
    + destruct (elems a) as [|n' xs _] eqn:Ex using rev_ind; [done|].
      rewrite last_snoc in En. injection En as ->.
      rewrite <- Ex. apply (drop_refines h self a xs n [] n); [done|done|]. exists h'. rewrite Ex.
      rewrite length_app, Nat.add_sub, take_app_length in Hl'.
      rewrite app_nil_r. auto.
    + apply last_None in En. rewrite En in *. exists h'. split; [done|]. split; [|by rewrite En].
      destruct Hr as (_ & Hu' & Hnd). split; [by rewrite En|]. split; [|done].
      eapply Forall_impl; [exact Hu'|]. intros m Hm. unfold lh_list_pop_back in E.
      rewrite (get_last_eq h self []), bind_done in E by done. simpl in E.
      injection E as <-. done.
Qed.
Lemma refines_id h self a : rep h self a -> refines a self (void (mret h)) a lh_null.
Proof. intros Hr. by exists h. Qed.
Lemma rest_refines h self a op a' r :
  rep h self a -> cmp_agrees a ->
  match op with MoveAfter _ _ | MoveBefore _ _ | Sort | Clear => True | _ => False end ->
  seq_step c op a = Some (a', r) -> refines a self (code_step cmp op h self) a' r.
Proof.
  intros Hr Hcmp Hop. pose proof Hr as (Hl & _). destruct op; try done; simpl.
  - case_decide as Hin; [|done]. destruct Hin as [Hn Hp].
    destruct (decide (n = p)) as [->|Hne]; intros [= <- <-].
    + unfold lh_list_node_move_after, lh_ptr_eq. rewrite Z.eqb_refl. by apply refines_id.
    + eapply refines_same; [done| |by apply move_after_spec].
      rewrite insert_after_perm by (by apply remove_elem_in).
      symmetry. apply remove_elem_perm; [|done]. by eapply list_nodup.
  - case_decide as Hin; [|done]. destruct Hin as [Hn Hp].
    destruct (decide (n = p)) as [->|Hne]; intros [= <- <-].
    + unfold lh_list_node_move_before, lh_ptr_eq. rewrite Z.eqb_refl. by apply refines_id.
    + eapply refines_same; [done| |by apply move_before_spec].
      rewrite insert_before_perm by (by apply remove_elem_in).
      symmetry. apply remove_elem_perm; [|done]. by eapply list_nodup.
  - intros [= <- <-]. eapply refines_same; [done|apply insertion_sort_perm|].
    apply list_sort; [done..|]. intros x y Hx Hy. apply Hcmp; apply elem_of_app; auto.
  - intros [= <- <-]. destruct (list_clear h self _ Hl) as (h' & -> & Hl' & Hu & Hf).
    exists h'. split; [done|]. split; [|done]. split; [done|]. split.
    + apply Forall_app. split; [done|]. apply Forall_forall. intros m Hm.
      destruct (rep_spare h self a m Hr Hm) as [Hum Hmx]. by eapply unlinked_frame.
    + by destruct Hr as (_ & _ & Hnd).
Qed.
Lemma step_refines h self a op a' r :
  rep h self a -> cmp_agrees a -> seq_step c op a = Some (a', r) ->
  refines a self (code_step cmp op h self) a' r.
Proof.
  intros Hr Hcmp. destruct op; eauto using insert_refines, rest_refines, unlink_refines, pop_refines.
Qed.
Lemma run_refines ops h self a a' rs :
  rep h self a -> cmp_agrees a -> seq_run c ops a = Some (a', rs) ->
  exists h', code_run cmp ops h self = Done (h', rs) /\ rep h' self a'.
Proof.
  revert h a rs. induction ops as [|op ops IH]; intros h a rs Hr Hcmp; cbn [seq_run code_run].
  - intros [= <- <-]. by exists h.
  - intros ([b r] & Hs & E)%bind_Some.
    destruct (step_refines h self a op b r Hr Hcmp Hs) as (h1 & -> & Hr1 & HP).
    apply bind_Some in E as ([b' rs'] & Hrun & [= <- <-]).
    destruct (IH h1 b rs' Hr1) as (h' & E & Hr'); [|done|].
    { intros x y. rewrite HP. apply Hcmp. }
    exists h'. split; [|done]. cbn [mbind outcome_bind]. rewrite E. done.
Qed.
End Refinement.

(** ** A concrete store *)

Definition demo_store : store :=
  list_to_map (map (fun p => (p, mk_node p p)) [8; 16; 24; 32; 40]).
Definition demo_key (p : Z) : Z := p mod 16.
Definition demo_cmp (x y : Z) : Z := demo_key x - demo_key y.
Definition demo_state : seq_state := mk_seq [] [16; 24; 32].
Lemma demo_comparison : comparison demo_cmp.
Proof. unfold demo_cmp. split; intros; lia. Qed.
Lemma demo_unlinked p : p ∈ [8; 16; 24; 32; 40] -> unlinked demo_store p.
Proof.
  rewrite !elem_of_cons, elem_of_nil. intros H.
  repeat (destruct H as [->|H]; [split; [done|split; [apply NoDup_singleton|]];
    constructor; [unfold valid_ptr; lia|constructor]|]). done.
Qed.
Lemma demo_rep : rep demo_store 8 demo_state.
Proof.
  split; [apply demo_unlinked; by left|]. split.
  - apply Forall_forall. intros p Hp. apply demo_unlinked. simpl in Hp. set_solver.
  - by apply (bool_decide_unpack _).
Qed.
Lemma demo_agrees : cmp_agrees (fun x y => Done (demo_cmp x y)) demo_cmp demo_state.
Proof. done. Qed.
Definition demo_ops : list list_op :=
  [PushBack 32; PushFront 24; InsertAfter 16 24; Sort; MoveAfter 32 24; PopFront; Unlink 24;
   InsertSorted 24; InsertBefore 16 32; PopBack; Clear].

(** ** Properties *)

(** Claim C5: the pointer code implements the sequence operations.  Whatever
    sequence of insertions, removals, moves, pops, sorts and clears a program
    performs, as long as each respects its precondition on the sequence (the
    node inserted is in no list, the position is an element), the C functions
    complete without a failed check or a stray access, return the pointers the
    sequence operations return, and leave a ring that holds exactly the
    resulting sequence, every other node unlinked. *)
Theorem list_operations_refine cmp c h self a ops a' rs :
  comparison c -> rep h self a -> cmp_agrees cmp c a ->
  seq_run c ops a = Some (a', rs) ->
  exists h', code_run cmp ops h self = Done (h', rs) /\ rep h' self a'.
Proof. intros. by eapply run_refines. Qed.

Lemma list_operations_refine_witness :
  exists h', code_run (fun x y => Done (demo_cmp x y)) demo_ops demo_store 8
             = Done (h', [0; 0; 0; 0; 0; 16; 0; 0; 0; 24; 0])
    /\ rep h' 8 (mk_seq [] [16; 32; 24]).
Proof.
  apply (list_operations_refine (fun x y => Done (demo_cmp x y)) demo_cmp demo_store 8
           demo_state demo_ops (mk_seq [] [16; 32; 24]) [0; 0; 0; 0; 0; 16; 0; 0; 0; 24; 0]).
  - apply demo_comparison.
  - apply demo_rep.
  - apply demo_agrees.
  - vm_compute. reflexivity.
Defined.

(** Claim C6: [lh_list_sort] ends and sorts stably.  For a consistent comparison
    the bottom-up merge sort leaves the list that inserting its elements one by
    one, each before the first larger one, gives: a permutation of the
    elements, in order, equal ones in their former order; the ring is whole
    again and no other node is written. *)
Theorem list_sort_is_stable_sort cmp c h self xs :
  is_list h self xs -> comparison c ->
  (forall x y, x ∈ xs -> y ∈ xs -> cmp x y = Done (c x y)) ->
  exists h' ys, lh_list_sort cmp h self = Done h' /\ is_list h' self ys
    /\ ys = fold_left (fun acc x => sorted_insert c x acc) xs []
    /\ ys ≡ₚ xs /\ in_order c ys /\ frame h h' (self :: xs).
Proof.
  intros Hl Hc Hcmp. destruct (list_sort cmp c h self xs Hl Hc Hcmp) as (h' & E & Hl' & Hf).
  exists h', (insertion_sort c xs). split; [done|]. split; [done|]. split; [done|].
  split; [apply insertion_sort_perm|]. split; [by apply insertion_sort_sorted|done].
Qed.

Definition demo_list : store :=
  <[8 := mk_node 24 32]> (<[24 := mk_node 16 8]> (<[16 := mk_node 32 24]>
    (<[32 := mk_node 8 16]> demo_store))).
Lemma demo_is_list : is_list demo_list 8 [24; 16; 32].
Proof.
  split; [by repeat split|]. split; [by apply (bool_decide_unpack _)|].
  repeat constructor; done.
Qed.
Lemma list_sort_is_stable_sort_witness :
  exists h' ys, lh_list_sort (fun x y => Done (demo_cmp x y)) demo_list 8 = Done h'
    /\ is_list h' 8 ys
    /\ ys = fold_left (fun acc x => sorted_insert demo_cmp x acc) [24; 16; 32] []
    /\ ys ≡ₚ [24; 16; 32] /\ in_order demo_cmp ys /\ frame demo_list h' [8; 24; 16; 32].
Proof.
  apply (list_sort_is_stable_sort (fun x y => Done (demo_cmp x y)) demo_cmp demo_list 8 [24; 16; 32]).
  - apply demo_is_list.
  - apply demo_comparison.
  - intros; reflexivity.
Defined.

(** [lh_list_splice_back] and [lh_list_splice_front] move all of
    another list's elements to the end or the front in order, leave the other
    list empty, and touch no node outside the two lists. *)
Theorem list_splice_joins h self xs other ys :
  is_list h self xs -> is_list h other ys -> (forall p, p ∈ self :: xs -> p ∉ other :: ys) ->
  (exists h', lh_list_splice_back h self other = Done h'
     /\ is_list h' self (xs ++ ys) /\ is_list h' other []
     /\ frame h h' (self :: xs ++ other :: ys))
  /\ (exists h', lh_list_splice_front h self other = Done h'
        /\ is_list h' self (ys ++ xs) /\ is_list h' other []
        /\ frame h h' (self :: xs ++ other :: ys)).
Proof.
  intros Hl Ho Hd. pose proof (list_valid h self xs Hl) as Hv.
  assert (self <> other) as Hne by (intros ->; apply (Hd other); by left).
  unfold lh_list_splice_back, lh_list_splice_front, lh_list_get_head_mut, lh_ptr_eq.
  rewrite (proj2 (Z.eqb_neq self other)), ref_valid by done.
  cbn [fail_if mbind outcome_bind mret outcome_ret]. split.
  - rewrite (ring_prev h self xs), bind_done by done.
    destruct xs as [|z xs _] using rev_ind.
    + pose proof (splice_between_spec h other ys self [] Hl Ho Hd) as H. by rewrite app_nil_r in H.
    + rewrite last_snoc. change (default self (Some z)) with z.
      destruct (splice_between_spec h other ys z (self :: xs)) as (h' & E & Hr & Ho' & Hf).
      { by apply (ring_rotate h (self :: xs) [z]). } { done. } { clear -Hd. set_solver. }
      exists h'. split; [exact E|]. split; [|split; [done|]].
      * apply (ring_rotate h' (z :: ys) (self :: xs)) in Hr. simpl in Hr.
        unfold is_list. by rewrite <- app_assoc.
      * eapply frame_mono; [exact Hf|]. clear. set_solver.
  - rewrite (ring_next h self xs), bind_done by done.
    by apply splice_between_spec.
Qed.

Definition demo_two : store := demo_list.
Lemma list_splice_joins_witness :
  (exists h', lh_list_splice_back demo_two 8 40 = Done h'
     /\ is_list h' 8 ([24; 16; 32] ++ []) /\ is_list h' 40 []
     /\ frame demo_two h' (8 :: [24; 16; 32] ++ [40]))
  /\ (exists h', lh_list_splice_front demo_two 8 40 = Done h'
        /\ is_list h' 8 ([] ++ [24; 16; 32]) /\ is_list h' 40 []
        /\ frame demo_two h' (8 :: [24; 16; 32] ++ [40])).
Proof.
  apply (list_splice_joins demo_two 8 [24; 16; 32] 40 []).
  - apply demo_is_list.
  - split; [by repeat split|]. split; [apply NoDup_singleton|]. repeat constructor; done.
  - intros p. rewrite !elem_of_cons, elem_of_nil. lia.
Defined.

(** The observers read the sequence: size, element at an index (null
    past the end), index of a node ([LH_LIST_INVALID] and not contained when it
    is no element), first, last and neighbours, null at the ends. *)
Theorem list_observers h self xs :
  is_list h self xs ->
  lh_list_get_size h self = Done (Z.of_nat (length xs))
  /\ lh_list_is_empty h self = Done (bool_decide (xs = []))
  /\ lh_list_get_first h self = Done (default lh_null (head xs))
  /\ lh_list_get_last h self = Done (default lh_null (last xs))
  /\ (forall i, is_u64 i -> lh_list_get_at h self i = Done (default lh_null (xs !! Z.to_nat i)))
  /\ (forall k n, xs !! k = Some n ->
        lh_list_index_of h self n = Done (Z.of_nat k)
        /\ lh_list_get_next h self n = Done (default lh_null (xs !! S k))
        /\ lh_list_get_prev h self n
           = Done (match k with O => lh_null | S k => default lh_null (xs !! k) end))
  /\ (forall n, lh_list_contains h self n = Done (bool_decide (n ∈ xs)))
  /\ (forall n, n ∉ xs -> lh_list_index_of h self n = Done LH_LIST_INVALID).
Proof.
  intros Hl. pose proof (list_nodup h self xs Hl) as [Hnd _].
  pose proof (ring_fits h (self :: xs) Hl) as Hfit. simpl in Hfit.
  assert (forall n, (n ∉ xs /\ position n xs 0 = LH_LIST_INVALID)
    \/ exists k, xs !! k = Some n /\ position n xs 0 = 0 + Z.of_nat k) as Hpos.
  { intros n. apply position_lookup; [done..|]. unfold LH_LIST_INVALID. zb. }
  split; [by apply list_get_size|]. split; [by apply is_empty_eq|].
  split; [by apply get_first_eq|]. split; [by apply get_last_eq|].
  split; [intros; by apply list_get_at|]. split; [|split].
  - intros k n Hk. split; [|].
    { rewrite (list_index_of h self xs) by done.
      destruct (Hpos n) as [[Hn _]|(j & Hj & ->)].
      - exfalso. apply Hn. by eapply list_elem_of_lookup_2.
      - do 2 f_equal. assert (j = k) by by eapply NoDup_lookup. lia. }
    apply list_elem_of_split_length in Hk as (l1 & l2 & -> & ->).
    rewrite (get_next_list h self l1 n l2), (get_prev_list h self l1 n l2) by done. split.
    + rewrite lookup_app_r by lia. replace (S (length l1) - length l1)%nat with 1%nat by lia.
      by destruct l2.
    + destruct l1 as [|z l1 _] using rev_ind; [done|]. rewrite last_snoc, length_app, Nat.add_1_r.
      rewrite <- app_assoc, lookup_app_r, Nat.sub_diag by lia. done.
  - intros n. unfold lh_list_contains. rewrite (list_index_of h self xs), bind_done by done.
    f_equal. destruct (Hpos n) as [[Hn ->]|(k & Hk & ->)].
    + by rewrite bool_decide_false.
    + rewrite bool_decide_true by by eapply list_elem_of_lookup_2.
      apply lookup_lt_Some in Hk. rewrite (proj2 (Z.eqb_neq _ _)); [done|].
      unfold LH_LIST_INVALID. zb.
  - intros n Hn. rewrite (list_index_of h self xs) by done.
    destruct (Hpos n) as [[_ ->]|(k & Hk & _)]; [done|].
    exfalso. apply Hn. by eapply list_elem_of_lookup_2.
Qed.

Lemma list_observers_witness :
  lh_list_get_size demo_list 8 = Done 3
  /\ lh_list_is_empty demo_list 8 = Done (bool_decide ([24; 16; 32] = []))
  /\ lh_list_get_first demo_list 8 = Done (default lh_null (head [24; 16; 32]))
  /\ lh_list_get_last demo_list 8 = Done (default lh_null (last [24; 16; 32]))
  /\ (forall i, is_u64 i ->
        lh_list_get_at demo_list 8 i = Done (default lh_null ([24; 16; 32] !! Z.to_nat i)))
  /\ (forall k n, [24; 16; 32] !! k = Some n ->
        lh_list_index_of demo_list 8 n = Done (Z.of_nat k)
        /\ lh_list_get_next demo_list 8 n = Done (default lh_null ([24; 16; 32] !! S k))
        /\ lh_list_get_prev demo_list 8 n
           = Done (match k with O => lh_null | S k => default lh_null ([24; 16; 32] !! k) end))
  /\ (forall n, lh_list_contains demo_list 8 n = Done (bool_decide (n ∈ [24; 16; 32])))
  /\ (forall n, n ∉ [24; 16; 32] -> lh_list_index_of demo_list 8 n = Done LH_LIST_INVALID).
Proof. apply (list_observers demo_list 8 [24; 16; 32]). apply demo_is_list. Defined.

(** The run-time checks hold off misuse before anything is written:
    inserting a node that is linked anywhere, or splicing a list into itself,
    ends in [lh_runtime_error_code_invalid_argument]. *)
Theorem list_guards h self xs n m l :
  is_list h self xs -> ring h (n :: m :: l) ->
  lh_list_push_front h self n = Fault lh_runtime_error_code_invalid_argument
  /\ lh_list_push_back h self n = Fault lh_runtime_error_code_invalid_argument
  /\ lh_list_splice_back h self self = Fault lh_runtime_error_code_invalid_argument
  /\ lh_list_splice_front h self self = Fault lh_runtime_error_code_invalid_argument.
Proof.
  intros Hl Hn. unfold lh_list_push_front, lh_list_push_back, lh_list_splice_back,
    lh_list_splice_front, lh_list_get_head_mut, lh_list_node_insert_after,
    lh_list_node_insert_before, lh_list_node_link, lh_ptr_eq.
  rewrite ref_valid, Z.eqb_refl by by eapply list_valid.
  cbn [fail_if mbind outcome_bind mret outcome_ret].
  rewrite (ring_next h self xs), (ring_prev h self xs), !bind_done by done.
  by rewrite (is_linked_eq h n (m :: l)), bind_done.
Qed.

Lemma list_guards_witness :
  lh_list_push_front demo_list 40 24 = Fault lh_runtime_error_code_invalid_argument
  /\ lh_list_push_back demo_list 40 24 = Fault lh_runtime_error_code_invalid_argument
  /\ lh_list_splice_back demo_list 40 40 = Fault lh_runtime_error_code_invalid_argument
  /\ lh_list_splice_front demo_list 40 40 = Fault lh_runtime_error_code_invalid_argument.
Proof.
  apply (list_guards demo_list 40 [] 24 16 [32; 8]).
  - split; [by repeat split|]. split; [apply NoDup_singleton|]. repeat constructor; done.
  - apply (ring_rotate demo_list [8] [24; 16; 32]). apply demo_is_list.
Defined.
