(* ===== verification/Timer.v ===== *)
(** * Timers

    [lh/core/timer.c] and [lh/core/timer/tick.c].  A group is a list of timers
    in priority order; the host calls [lh_timer_group_handler] with the current
    tick.  [link] is the first member of [lh_timer_t] and [timers] that of
    [lh_timer_group_t], so a timer has the address of its node and a group that
    of its list.  Timers live in a map beside the node store; [env] is the rest
    of the program's state, which callbacks change. *)
From S2P Require Import Prelude LinkedList LinkedListProofs ListSort ListSpec.

(** ** Ticks *)

Definition LH_TICK_T_MAX : Z := 4294967295.
Definition lh_tick_equals (self other : Z) : bool := self =? other.
Definition lh_tick_is_at_least (self minimum : Z) : bool := self >=? minimum.
Definition lh_tick_is_less (self other : Z) : bool := self <? other.
Definition lh_tick_is_greater (self other : Z) : bool := lh_tick_is_less other self.
Definition lh_tick_elapsed (since now : Z) : Z := u32 (now - since).
(** The conversion to [lh_s32_t] keeps the 32 bits. *)
Definition lh_tick_is_after (self other : Z) : bool :=
  let d := lh_tick_elapsed other self in
  (if d <? 2147483648 then d else d - 4294967296) >? 0.

(** ** Timers and groups *)

Record lh_timer_t := mk_timer
  { period : Z; last : Z; priority : Z; repeat : bool; paused : bool; cb : Z; context : Z }.

Section Timers.
  Context {env : Type}.

Record world := mk_world { nodes : store; timers : gmap Z lh_timer_t; rest : env }.
Definition set_nodes (w : world) (h : store) : world := mk_world h (timers w) (rest w).

Definition lh_timer_group_get_timers_mut (self : Z) : outcome Z :=
  _ ← lh_assert_runtime_ref self; mret self.
Definition lh_timer_group_get_timers (self : Z) : outcome Z :=
  _ ← lh_assert_runtime_ref self; mret self.
Definition lh_timer_get_node_mut (self : Z) : outcome Z :=
  _ ← lh_assert_runtime_ref self; mret self.
Definition lh_timer_get_node (self : Z) : outcome Z :=
  _ ← lh_assert_runtime_ref self; mret self.
Definition lh_timer_get_by_node_mut (node : Z) : Z := lh_list_node_get_entry node 0.
Definition lh_timer_get_by_node (node : Z) : Z := lh_list_node_get_entry node 0.

Definition get_timer (w : world) (self : Z) : outcome lh_timer_t :=
  _ ← lh_assert_runtime_ref self;
  match timers w !! self with Some t => Done t | None => Undef end.
Definition put_timer (w : world) (self : Z) (f : lh_timer_t -> lh_timer_t) : outcome world :=
  t ← get_timer w self;
  mret (mk_world (nodes w) (<[self := f t]> (timers w)) (rest w)).

Definition lh_timer_set_priority (w : world) (self v : Z) : outcome world :=
  put_timer w self (fun t =>
    mk_timer (period t) (last t) v (repeat t) (paused t) (cb t) (context t)).
Definition lh_timer_get_priority (w : world) (self : Z) : outcome Z :=
  t ← get_timer w self; mret (priority t).
Definition lh_timer_get_period (w : world) (self : Z) : outcome Z :=
  t ← get_timer w self; mret (period t).
Definition lh_timer_set_period (w : world) (self v : Z) : outcome world :=
  put_timer w self (fun t =>
    mk_timer v (last t) (priority t) (repeat t) (paused t) (cb t) (context t)).
Definition lh_timer_get_last (w : world) (self : Z) : outcome Z :=
  t ← get_timer w self; mret (last t).
Definition lh_timer_set_last (w : world) (self v : Z) : outcome world :=
  put_timer w self (fun t =>
    mk_timer (period t) v (priority t) (repeat t) (paused t) (cb t) (context t)).
Definition lh_timer_get_repeat (w : world) (self : Z) : outcome bool :=
  t ← get_timer w self; mret (repeat t).
Definition lh_timer_set_repeat (w : world) (self : Z) (v : bool) : outcome world :=
  put_timer w self (fun t =>
    mk_timer (period t) (last t) (priority t) v (paused t) (cb t) (context t)).
Definition lh_timer_get_paused (w : world) (self : Z) : outcome bool :=
  t ← get_timer w self; mret (paused t).
Definition lh_timer_set_paused (w : world) (self : Z) (v : bool) : outcome world :=
  put_timer w self (fun t =>
    mk_timer (period t) (last t) (priority t) (repeat t) v (cb t) (context t)).
Definition lh_timer_get_cb (w : world) (self : Z) : outcome Z :=
  t ← get_timer w self; mret (cb t).
Definition lh_timer_set_cb (w : world) (self v : Z) : outcome world :=
  put_timer w self (fun t =>
    mk_timer (period t) (last t) (priority t) (repeat t) (paused t) v (context t)).
Definition lh_timer_get_context (w : world) (self : Z) : outcome Z :=
  t ← get_timer w self; mret (context t).
Definition lh_timer_set_context (w : world) (self v : Z) : outcome world :=
  put_timer w self (fun t =>
    mk_timer (period t) (last t) (priority t) (repeat t) (paused t) (cb t) v).

Definition on_nodes (w : world) (m : outcome store) : outcome world :=
  h ← m; mret (set_nodes w h).

Definition lh_timer_group_init (w : world) (self : Z) : outcome world :=
  timers ← lh_timer_group_get_timers_mut self;
  on_nodes w (lh_list_init (nodes w) timers).
(** Each turn unlinks the first node: the nodes of the store bound them. *)
Fixpoint deinit_loop (fuel : nat) (w : world) (timers : Z) : outcome world :=
  match fuel with
  | O => Undef
  | S fuel =>
    empty ← lh_list_is_empty (nodes w) timers;
    if (empty : bool) then mret w else
    first ← lh_list_get_first (nodes w) timers;
    w ← on_nodes w (lh_list_node_unlink (nodes w) first);
    deinit_loop fuel w timers
  end.
Definition lh_timer_group_deinit (w : world) (self : Z) : outcome world :=
  timers ← lh_timer_group_get_timers_mut self;
  deinit_loop (walk_fuel (nodes w)) w timers.

Fixpoint until_loop (fuel : nat) (w : world) (timers node now best : Z) : outcome Z :=
  match fuel with
  | O => Undef
  | S fuel =>
    if lh_ptr_is_set node then
      let timer := lh_timer_get_by_node node in
      is_paused ← lh_timer_get_paused w timer;
      if (is_paused : bool) then
        node ← lh_list_get_next (nodes w) timers node;
        until_loop fuel w timers node now best
      else
        period ← lh_timer_get_period w timer;
        last ← lh_timer_get_last w timer;
        let remain := u32 (period - u32 (now - last)) in
        if u32 (now - last) >=? period then mret 0 else
        let best := if remain <? best then remain else best in
        node ← lh_list_get_next (nodes w) timers node;
        until_loop fuel w timers node now best
    else mret best
  end.
Definition lh_timer_group_until_next (w : world) (self now : Z) : outcome Z :=
  timers ← lh_timer_group_get_timers self;
  node ← lh_list_get_first (nodes w) timers;
  until_loop (walk_fuel (nodes w)) w timers node now LH_TICK_T_MAX.

Definition lh_timer_stop (w : world) (self : Z) : outcome world :=
  _ ← lh_assert_runtime_ref self;
  node ← lh_timer_get_node_mut self;
  linked ← lh_list_node_is_linked (nodes w) node;
  w ← (if (linked : bool) then on_nodes w (lh_list_node_unlink (nodes w) node) else mret w);
  lh_timer_set_paused w self false.
Definition lh_timer_is_running (w : world) (self : Z) : outcome bool :=
  node ← lh_timer_get_node self;
  lh_list_node_is_linked (nodes w) node.

Definition lh_timer_priority_equals (w : world) (self other : Z) : outcome bool :=
  a ← lh_timer_get_priority w self; b ← lh_timer_get_priority w other; mret (a =? b).
Definition lh_timer_priority_is_at_least (w : world) (self minimum : Z) : outcome bool :=
  a ← lh_timer_get_priority w self; b ← lh_timer_get_priority w minimum; mret (a >=? b).
Definition lh_timer_priority_is_less (w : world) (self other : Z) : outcome bool :=
  b ← lh_timer_priority_is_at_least w self other; mret (negb b).
Definition lh_timer_priority_is_greater (w : world) (self other : Z) : outcome bool :=
  lh_timer_priority_is_less w other self.
Definition lh_timer_cmp_priority (w : world) (a b : Z) : outcome Z :=
  let left := lh_timer_get_by_node a in
  let right := lh_timer_get_by_node b in
  greater ← lh_timer_priority_is_greater w left right;
  if (greater : bool) then mret (-1) else
  less ← lh_timer_priority_is_less w left right;
  if (less : bool) then mret 1 else mret 0.

Definition lh_timer_init (w : world) (self : Z) : outcome world :=
  _ ← lh_assert_runtime_ref self;
  node ← lh_timer_get_node_mut self;
  w ← on_nodes w (lh_list_node_init (nodes w) node);
  w ← lh_timer_set_period w self 0;
  w ← lh_timer_set_last w self 0;
  w ← lh_timer_set_priority w self 0;
  w ← lh_timer_set_repeat w self false;
  w ← lh_timer_set_paused w self false;
  w ← lh_timer_set_cb w self lh_null;
  lh_timer_set_context w self lh_null.
Definition lh_timer_deinit (w : world) (self : Z) : outcome world :=
  _ ← lh_assert_runtime_ref self;
  w ← lh_timer_stop w self;
  w ← lh_timer_set_cb w self lh_null;
  lh_timer_set_context w self lh_null.

Definition lh_timer_group_set_priority (w : world) (group self priority : Z) : outcome world :=
  _ ← lh_assert_runtime_ref group;
  _ ← lh_assert_runtime_ref self;
  old ← lh_timer_get_priority w self;
  if old =? priority then mret w else
  timers ← lh_timer_group_get_timers_mut group;
  node ← lh_timer_get_node_mut self;
  running ← lh_timer_is_running w self;
  w ← (if (running : bool) then
         member ← lh_list_contains (nodes w) timers node;
         _ ← fail_if (negb member) lh_runtime_error_code_invalid_argument;
         on_nodes w (lh_list_node_unlink (nodes w) node)
       else mret w);
  w ← lh_timer_set_priority w self priority;
  if (running : bool)
  then on_nodes w (lh_list_insert_sorted (lh_timer_cmp_priority w) (nodes w) timers node)
  else mret w.
Definition lh_timer_pause (w : world) (self : Z) : outcome world :=
  _ ← lh_assert_runtime_ref self;
  running ← lh_timer_is_running w self;
  if (running : bool) then lh_timer_set_paused w self true else mret w.
Definition lh_timer_resume (w : world) (self now : Z) : outcome world :=
  _ ← lh_assert_runtime_ref self;
  running ← lh_timer_is_running w self;
  if (running : bool) then
    w ← lh_timer_set_paused w self false;
    lh_timer_set_last w self now
  else mret w.
Definition lh_timer_start (w : world) (group self period : Z) (repeat : bool)
    (priority cb context now : Z) : outcome world :=
  _ ← lh_assert_runtime_ref group;
  _ ← lh_assert_runtime_ref self;
  _ ← lh_assert_runtime_ref cb;
  _ ← fail_if (period =? 0) lh_runtime_error_code_invalid_argument;
  w ← lh_timer_stop w self;
  w ← lh_timer_set_period w self period;
  w ← lh_timer_set_last w self now;
  w ← lh_timer_set_priority w self priority;
  w ← lh_timer_set_repeat w self repeat;
  w ← lh_timer_set_paused w self false;
  w ← lh_timer_set_cb w self cb;
  w ← lh_timer_set_context w self context;
  timers ← lh_timer_group_get_timers_mut group;
  node ← lh_timer_get_node_mut self;
  on_nodes w (lh_list_insert_sorted (lh_timer_cmp_priority w) (nodes w) timers node).

(** [call f timer context] runs the function at address [f]. *)
Variable call : Z -> Z -> Z -> world -> outcome world.

(** The body of the handler's loop for one timer. *)
Definition handler_visit (now timer : Z) (w : world) : outcome world :=
  is_paused ← lh_timer_get_paused w timer;
  if (is_paused : bool) then mret w else
  last ← lh_timer_get_last w timer;
  period ← lh_timer_get_period w timer;
  if u32 (now - last) <? period then mret w else
  w ← lh_timer_set_last w timer now;
  f ← lh_timer_get_cb w timer;
  _ ← lh_assert_runtime_ref f;
  ctx ← lh_timer_get_context w timer;
  w ← call f timer ctx w;
  again ← lh_timer_get_repeat w timer;
  running ← (if (again : bool) then mret false else lh_timer_is_running w timer);
  if (running : bool) then lh_timer_stop w timer else mret w.
(** A callback may relink timers, so nothing bounds this loop in general;
    [timer_handler_visits_each] gives the bound for callbacks that do not. *)
Fixpoint handler_loop (fuel : nat) (w : world) (timers node now : Z) : outcome world :=
  match fuel with
  | O => Undef
  | S fuel =>
    if lh_ptr_is_set node then
      next ← lh_list_get_next (nodes w) timers node;
      let timer := lh_timer_get_by_node_mut node in
      w ← handler_visit now timer w;
      handler_loop fuel w timers next now
    else mret w
  end.
Definition lh_timer_group_handler (fuel : nat) (w : world) (self now : Z) : outcome world :=
  timers ← lh_timer_group_get_timers_mut self;
  node ← lh_list_get_first (nodes w) timers;
  handler_loop fuel w timers node now.

End Timers.
Arguments world : clear implicits.
