(* ===== verification/TimerProofs.v ===== *)
(** * Timers: correctness

    The list of a group stays in priority order, equal priorities in the order
    of their starts; [lh_timer_group_until_next] is the distance to the next
    firing; the handler visits each timer once when callbacks keep to their own
    timer, and what happens when they do not. *)
From Stdlib Require Import Sorted.
From S2P Require Import Prelude LinkedList LinkedListProofs ListSort ListSpec Timer.

Section TimerLemmas.
Context {env : Type}.
Implicit Types w : world env.

Lemma by_node_eq p : valid_ptr p -> lh_timer_get_by_node p = p.
Proof.
  intros Hp. unfold lh_timer_get_by_node, lh_list_node_get_entry.
  rewrite ptr_null_valid, Z.sub_0_r by done. apply u64_id. unfold valid_ptr in *. zb.
Qed.
Lemma get_timer_eq w p t : valid_ptr p -> timers w !! p = Some t -> get_timer w p = Done t.
Proof. intros Hp Ht. unfold get_timer. by rewrite ref_valid, bind_done, Ht. Qed.
Lemma put_timer_eq w p t f :
  valid_ptr p -> timers w !! p = Some t ->
  put_timer w p f = Done (mk_world (nodes w) (<[p := f t]> (timers w)) (rest w)).
Proof. intros Hp Ht. unfold put_timer. by rewrite (get_timer_eq w p t). Qed.

(** ** Priorities *)

Definition prio w (t : Z) : Z := from_option priority 0 (timers w !! t).
Definition prio_cmp w (x y : Z) : Z :=
  if prio w x >? prio w y then -1 else if prio w x <? prio w y then 1 else 0.
Lemma prio_cmp_spec w x y :
  (prio_cmp w x y < 0 <-> prio w y < prio w x) /\ (prio_cmp w x y > 0 <-> prio w x < prio w y).
Proof. unfold prio_cmp. zcases. Qed.
Lemma prio_comparison w : comparison (prio_cmp w).
Proof.
  split.
  - intros x y. pose proof (prio_cmp_spec w x y). pose proof (prio_cmp_spec w y x). lia.
  - intros x y z. pose proof (prio_cmp_spec w x y). pose proof (prio_cmp_spec w y z).
    pose proof (prio_cmp_spec w x z). lia.
Qed.
Lemma cmp_priority_eq w x y :
  valid_ptr x -> valid_ptr y -> is_Some (timers w !! x) -> is_Some (timers w !! y) ->
  lh_timer_cmp_priority w x y = Done (prio_cmp w x y).
Proof.
  intros Hx Hy [tx Tx] [ty Ty]. unfold lh_timer_cmp_priority, lh_timer_priority_is_greater,
    lh_timer_priority_is_less, lh_timer_priority_is_at_least, lh_timer_get_priority, prio_cmp, prio.
  rewrite !by_node_eq, (get_timer_eq w x tx), (get_timer_eq w y ty), Tx, Ty by done.
  simpl. rewrite Z.gtb_ltb, Z.geb_leb.
  destruct (Z.leb_spec (priority tx) (priority ty)), (Z.ltb_spec (priority ty) (priority tx));
    simpl; try lia; [|done].
  rewrite Z.geb_leb.
  by destruct (Z.leb_spec (priority ty) (priority tx)), (Z.ltb_spec (priority tx) (priority ty));
    simpl; try lia.
Qed.

(** ** Groups *)

Definition by_priority w : list Z -> Prop := StronglySorted (fun x y => prio w y <= prio w x).
(** The group's list is [ts], every element a timer, higher priorities first. *)
Definition group_ok w (group : Z) (ts : list Z) : Prop :=
  is_list (nodes w) group ts /\ (forall t, t ∈ ts -> is_Some (timers w !! t))
  /\ by_priority w ts.

(** Where a timer of priority [p] goes: after its equals. *)
Definition place w (p self : Z) (ts : list Z) : list Z :=
  filter (fun t => p <= prio w t) ts ++ self :: filter (fun t => prio w t < p) ts.

Lemma sorted_insert_place w self ts :
  by_priority w ts -> sorted_insert (prio_cmp w) self ts = place w (prio w self) self ts.
Proof.
  unfold by_priority, place. induction ts as [|t ts IH]; intros Hs; [done|].
  apply StronglySorted_inv in Hs as [Hs Ht]. simpl.
  destruct (Z.ltb_spec (prio_cmp w self t) 0) as [Hlt|Hge].
  - pose proof (prio_cmp_spec w self t) as [Hcmp _].
    rewrite !filter_cons, decide_False, decide_True by lia.
    rewrite filter_none, filter_all; [done|..]; (eapply Forall_impl; [exact Ht|]);
      simpl; intros; lia.
  - pose proof (prio_cmp_spec w self t) as [Hcmp _].
    rewrite !filter_cons, decide_True, decide_False by lia. simpl. f_equal. by apply IH.
Qed.
(** Only the priorities of the elements matter. *)
Lemma place_agree w w' p self ts :
  (forall t, t ∈ ts -> prio w' t = prio w t) -> place w' p self ts = place w p self ts.
Proof.
  intros Hag. unfold place. f_equal; [|f_equal]; apply filter_ext_in;
    intros t Ht; by rewrite Hag.
Qed.

Lemma by_priority_order w ts : by_priority w ts <-> in_order (prio_cmp w) ts.
Proof.
  unfold by_priority, in_order. induction ts as [|t ts IH]; [by split; constructor|].
  split; intros [Hs Ht]%StronglySorted_inv; (constructor; [by apply IH|]);
    (eapply Forall_impl; [exact Ht|]); simpl; intros u Hu;
    pose proof (prio_cmp_spec w t u); lia.
Qed.
Lemma place_sorted w self ts : by_priority w ts -> by_priority w (place w (prio w self) self ts).
Proof.
  intros Hs. rewrite <- sorted_insert_place by done. apply by_priority_order.
  apply sorted_insert_sorted; [apply prio_comparison|]. by apply by_priority_order.
Qed.
Lemma by_priority_agree w w' ts :
  (forall t, t ∈ ts -> prio w' t = prio w t) -> by_priority w ts -> by_priority w' ts.
Proof.
  unfold by_priority. intros Hag Hs. induction Hs as [|t ts Hs IH Ht]; constructor.
  - apply IH. intros; apply Hag; by right.
  - apply Forall_forall. intros u Hu. rewrite !Hag by (by left || by right).
    rewrite Forall_forall in Ht. by apply Ht.
Qed.
Lemma by_priority_remove w self ts : by_priority w ts -> by_priority w (remove_elem self ts).
Proof.
  unfold by_priority, remove_elem. induction 1 as [|t ts Hs IH Ht]; [constructor|].
  rewrite filter_cons. case_decide; [|done]. constructor; [done|].
  rewrite Forall_forall in Ht |- *. intros u [_ Hu]%list_elem_of_filter. by apply Ht.
Qed.
Lemma place_perm w p self ts : place w p self ts ≡ₚ self :: ts.
Proof.
  unfold place. rewrite <- Permutation_middle. constructor.
  rewrite <- (filter_app_complement (fun t => p <= prio w t) ts) at 3.
  apply Permutation_app_head. erewrite filter_ext_in; [done|]. intros t _. simpl. lia.
Qed.
Lemma prio_insert_ne w h m r self t u :
  u <> self -> m = <[self := t]> (timers w) -> prio (mk_world h m r) u = prio w u.
Proof. intros Hne ->. unfold prio. simpl. by rewrite lookup_insert_ne. Qed.

(** A timer the group may take: in it, or in no list. *)
Definition startable w (group self : Z) (ts : list Z) : Prop :=
  self ∈ ts \/ (unlinked (nodes w) self /\ self ∉ group :: ts).
Definition unpause (t : lh_timer_t) : lh_timer_t :=
  mk_timer (period t) (last t) (priority t) (repeat t) false (cb t) (context t).

Lemma startable_valid w group self ts :
  is_list (nodes w) group ts -> startable w group self ts -> valid_ptr self.
Proof.
  intros Hl [Hin|[Hu _]]; [by eapply elem_valid|].
  eapply (ring_valid _ [self]); [done|by left].
Qed.
Lemma remove_elem_absent self ts : self ∉ remove_elem self ts.
Proof. intros [_ H]%remove_elem_in. done. Qed.

Lemma stop_spec w group ts self t :
  is_list (nodes w) group ts -> startable w group self ts -> timers w !! self = Some t ->
  exists h', lh_timer_stop w self
    = Done (mk_world h' (<[self := unpause t]> (timers w)) (rest w))
    /\ is_list h' group (remove_elem self ts) /\ unlinked h' self
    /\ frame (nodes w) h' (group :: ts).
Proof.
  intros Hl Hst Ht. pose proof (startable_valid w group self ts Hl Hst) as Hv.
  unfold lh_timer_stop, lh_timer_get_node_mut. rewrite ref_valid by done.
  cbn [mbind outcome_bind mret outcome_ret]. destruct Hst as [Hin|[Hu Hn]].
  - destruct (list_split_elem (nodes w) group ts self Hl Hin) as (l1 & l2 & -> & H1 & H2).
    rewrite (is_linked_eq _ self (l2 ++ group :: l1)), bind_done by by apply list_turn.
    rewrite bool_decide_false by by destruct l2. cbn [negb].
    destruct (list_unlink _ group self l1 l2 Hl) as (h' & -> & Hl' & Hu & Hf).
    exists h'. cbn [on_nodes mbind outcome_bind mret outcome_ret].
    unfold lh_timer_set_paused. rewrite (put_timer_eq _ self t) by done.
    rewrite remove_elem_split by done. done.
  - rewrite (is_linked_eq _ self []), bind_done by done. simpl.
    unfold lh_timer_set_paused. rewrite (put_timer_eq _ self t) by done.
    exists (nodes w). split; [done|]. rewrite elem_of_cons in Hn.
    rewrite remove_elem_not by tauto. split; [done|]. split; [done|apply frame_refl].
Qed.

(** Linking [self], at rest, into a group whose other timers are [ts]. *)
Lemma insert_timer_spec w group ts self :
  group_ok w group ts -> unlinked (nodes w) self -> self ∉ group :: ts ->
  is_Some (timers w !! self) ->
  exists h', on_nodes w (lh_list_insert_sorted (lh_timer_cmp_priority w) (nodes w) group self)
    = Done (mk_world h' (timers w) (rest w))
    /\ is_list h' group (place w (prio w self) self ts)
    /\ frame (nodes w) h' (self :: group :: ts).
Proof.
  intros (Hl & Hts & Hs) Hu Hn Hself.
  assert (valid_ptr self) as Hv by (eapply (ring_valid _ [self]); [done|by left]).
  destruct (list_insert_sorted (lh_timer_cmp_priority w) (prio_cmp w) (nodes w) group self ts)
    as (h' & E & Hl' & Hf); [done..| |].
  { intros x Hx. apply cmp_priority_eq; eauto using elem_valid. }
  exists h'. rewrite E. split; [done|]. by rewrite sorted_insert_place in Hl'.
Qed.
Lemma group_ok_put w h group ts self t r :
  is_list h group ts -> self ∉ ts -> (forall u, u ∈ ts -> is_Some (timers w !! u)) ->
  by_priority w ts -> group_ok (mk_world h (<[self := t]> (timers w)) r) group ts.
Proof.
  intros Hl Hn Hts Hs. split; [done|]. split.
  - intros u Hu. simpl. rewrite lookup_insert_ne; [by apply Hts|]. by intros ->.
  - eapply by_priority_agree; [|done]. intros u Hu.
    eapply prio_insert_ne; [|done]. by intros ->.
Qed.
Lemma prio_insert_eq h m r self t : prio (mk_world (env := env) h (<[self := t]> m) r) self = priority t.
Proof. unfold prio. simpl. by rewrite lookup_insert_eq. Qed.
Lemma place_member w p self ts u : u ∈ place w p self ts <-> u = self \/ u ∈ ts.
Proof. rewrite place_perm. apply elem_of_cons. Qed.

(** A group after [self] took its place with the record [t]. *)
Definition placed w w' group self t ts : Prop :=
  group_ok w' group (place w (priority t) self (remove_elem self ts))
  /\ timers w' = <[self := t]> (timers w) /\ rest w' = rest w
  /\ frame (nodes w) (nodes w') (self :: group :: ts).
Lemma place_spec w h1 group self t ts :
  group_ok w group ts -> is_list h1 group (remove_elem self ts) -> unlinked h1 self ->
  frame (nodes w) h1 (group :: ts) -> self ∉ [group] ->
  let w1 := mk_world h1 (<[self := t]> (timers w)) (rest w) in
  exists w', on_nodes w1 (lh_list_insert_sorted (lh_timer_cmp_priority w1) h1 group self)
    = Done w' /\ placed w w' group self t ts.
Proof.
  intros (Hl & Hts & Hs) Hl1 Hu Hf Hg w1.
  assert (group_ok w1 group (remove_elem self ts)) as Hg1.
  { apply group_ok_put; [done|apply remove_elem_absent| |by apply by_priority_remove].
    intros u [Hin _]%remove_elem_in. by apply Hts. }
  destruct (insert_timer_spec w1 group (remove_elem self ts) self Hg1 Hu) as (h2 & E & Hl2 & Hf2).
  { rewrite elem_of_cons. intros [->|H]; [by apply Hg; left|]. by apply remove_elem_absent in H. }
  { simpl. rewrite lookup_insert_eq. done. }
  exists (mk_world h2 (timers w1) (rest w1)). split; [exact E|].
  unfold w1 in Hl2 at 2. rewrite prio_insert_eq in Hl2.
  assert (place w1 (priority t) self (remove_elem self ts)
          = place w (priority t) self (remove_elem self ts)) as HP.
  { apply place_agree. intros u [_ Hne]%remove_elem_in. by eapply prio_insert_ne. }
  split; [|split; [done|split; [done|]]].
  - split; [by rewrite <- HP|]. split.
    + intros u. rewrite place_member. intros [->|[Hu' Hne]%remove_elem_in]; simpl.
      * by rewrite lookup_insert_eq.
      * rewrite lookup_insert_ne by done. by apply Hts.
    + rewrite <- HP. destruct Hg1 as (_ & _ & Hs1).
      change (by_priority w1 (place w1 (priority t) self (remove_elem self ts))).
      assert (priority t = prio w1 self) as -> by (symmetry; apply prio_insert_eq).
      by apply place_sorted.
  - simpl. eapply frame_trans; [eapply frame_mono; [exact Hf|by right]|].
    eapply frame_mono; [exact Hf2|]. intros u. rewrite !elem_of_cons, remove_elem_in. tauto.
Qed.

Lemma startable_not_group w group self ts :
  group_ok w group ts -> startable w group self ts -> self ∉ [group].
Proof.
  intros (Hl & _) Hst. rewrite list_elem_of_singleton. intros ->.
  pose proof (list_nodup _ _ _ Hl) as [_ Hg]. destruct Hst as [?|[_ H]]; [done|].
  apply H. by left.
Qed.
Lemma start_spec w group ts self t per rep pri f ctx now :
  group_ok w group ts -> startable w group self ts -> timers w !! self = Some t ->
  per <> 0 -> f <> lh_null ->
  exists w', lh_timer_start w group self per rep pri f ctx now = Done w'
    /\ placed w w' group self (mk_timer per now pri rep false f ctx) ts.
Proof.
  intros Hg Hst Ht Hper Hf. pose proof Hg as (Hl & _).
  pose proof (startable_valid w group self ts Hl Hst) as Hv.
  unfold lh_timer_start, lh_timer_group_get_timers_mut, lh_timer_get_node_mut.
  rewrite !ref_valid by (done || by eapply list_valid).
  unfold lh_assert_runtime_ref, lh_ptr_is_null.
  rewrite (proj2 (Z.eqb_neq f lh_null)), (proj2 (Z.eqb_neq per 0)) by done. simpl fail_if.
  rewrite !bind_done.
  destruct (stop_spec w group ts self t Hl Hst Ht) as (h1 & -> & Hl1 & Hu & Hfr).
  rewrite bind_done. unfold lh_timer_set_period, lh_timer_set_last, lh_timer_set_priority,
    lh_timer_set_repeat, lh_timer_set_paused, lh_timer_set_cb, lh_timer_set_context.
  do 7 (erewrite put_timer_eq; [|done|apply lookup_insert_eq]; rewrite bind_done;
        cbn [nodes timers rest period last priority repeat paused cb context unpause];
        rewrite insert_insert_eq).
  eapply place_spec; [done..|]. by eapply startable_not_group.
Qed.

Definition with_priority (t : lh_timer_t) (p : Z) : lh_timer_t :=
  mk_timer (period t) (last t) p (repeat t) (paused t) (cb t) (context t).
Lemma contains_elem h group ts self :
  is_list h group ts -> self ∈ ts -> lh_list_contains h group self = Done true.
Proof.
  intros Hl Hin. unfold lh_list_contains. rewrite (list_index_of h group ts), bind_done by done.
  pose proof (ring_fits h (group :: ts) Hl) as Hfit. simpl in Hfit.
  destruct (position_lookup self ts 0) as [[Hn _]|(k & Hk & ->)]; [by eapply list_nodup|done| |done|].
  - unfold LH_LIST_INVALID. zb.
  - apply lookup_lt_Some in Hk. rewrite (proj2 (Z.eqb_neq _ _)); [done|].
    unfold LH_LIST_INVALID. zb.
Qed.
Lemma set_priority_spec w group ts self t p :
  group_ok w group ts -> self ∈ ts -> timers w !! self = Some t -> p <> priority t ->
  exists w', lh_timer_group_set_priority w group self p = Done w'
    /\ placed w w' group self (with_priority t p) ts.
Proof.
  intros Hg Hin Ht Hp. pose proof Hg as (Hl & _).
  pose proof (elem_valid _ _ _ _ Hl Hin) as Hv. pose proof (list_valid _ _ _ Hl) as Hvg.
  unfold lh_timer_group_set_priority, lh_timer_get_priority, lh_timer_group_get_timers_mut,
    lh_timer_get_node_mut, lh_timer_is_running, lh_timer_get_node.
  rewrite !ref_valid, !bind_done, (get_timer_eq w self t), bind_done by done.
  cbn [mbind outcome_bind mret outcome_ret].
  rewrite (proj2 (Z.eqb_neq (priority t) p)) by congruence.
  destruct (list_split_elem (nodes w) group ts self Hl Hin) as (l1 & l2 & E & H1 & H2).
  assert (is_list (nodes w) group (l1 ++ self :: l2)) as Hl' by by rewrite <- E.
  rewrite (is_linked_eq _ self (l2 ++ group :: l1)) by by apply list_turn.
  rewrite bool_decide_false by by destruct l2. cbn [mbind outcome_bind negb].
  rewrite (contains_elem _ _ ts) by done. cbn [mbind outcome_bind fail_if negb].
  destruct (list_unlink _ group self l1 l2 Hl') as (h1 & -> & Hl1 & Hu & Hf).
  cbn [on_nodes mbind outcome_bind mret outcome_ret].
  unfold lh_timer_set_priority. rewrite (put_timer_eq _ self t), bind_done by done.
  apply (place_spec w h1 group self (with_priority t p) ts); try done.
  - rewrite E, remove_elem_split by done. done.
  - by rewrite E.
  - rewrite list_elem_of_singleton. intros ->. by apply list_nodup in Hl as [_ ?].
Qed.

(** ** The distance to the next firing *)

Definition timer_wf (t : lh_timer_t) : Prop := is_u32 (period t) /\ is_u32 (last t).
(** [t] would fire at tick [now]. *)
Definition due (t : lh_timer_t) (now : Z) : Prop :=
  paused t = false /\ period t <= u32 (now - last t).
Fixpoint until_spec w (now : Z) (ts : list Z) (best : Z) : Z :=
  match ts with
  | [] => best
  | x :: ts =>
    match timers w !! x with
    | Some t =>
      if paused t then until_spec w now ts best else
      if period t <=? u32 (now - last t) then 0 else
      until_spec w now ts (Z.min (period t - u32 (now - last t)) best)
    | None => best
    end
  end.
Lemma until_loop_spec w group xs ys now best fuel :
  is_list (nodes w) group (xs ++ ys) ->
  (forall x, x ∈ ys -> exists t, timers w !! x = Some t /\ timer_wf t) ->
  (length ys < fuel)%nat ->
  until_loop fuel w group (first_of ys) now best = Done (until_spec w now ys best).
Proof.
  revert xs ys best. induction fuel as [|fuel IH]; intros xs ys best Hl Hts Hf; [lia|].
  destruct ys as [|y ys]; [done|]. simpl until_loop.
  rewrite (ptr_set_in _ group xs y ys) by done. change (first_of (y :: ys)) with y.
  assert (valid_ptr y) as Hv by (eapply elem_valid; [done|set_solver]).
  destruct (Hts y) as (t & Ht & Hp & Hla); [by left|].
  rewrite by_node_eq by done.
  unfold lh_timer_get_paused, lh_timer_get_period, lh_timer_get_last.
  rewrite (get_timer_eq w y t) by done. cbn [mbind outcome_bind mret outcome_ret until_spec].
  rewrite Ht, Z.geb_leb.
  assert (forall b, (p ← lh_list_get_next (nodes w) group y; until_loop fuel w group p now b)
                    = Done (until_spec w now ys b)) as Hnext.
  { intros b. rewrite (walk_step _ group xs y ys) by done. apply (IH (xs ++ [y])).
    - by rewrite <- app_assoc.
    - intros x Hx. apply Hts. by right.
    - simpl in Hf. lia. }
  destruct (paused t); [apply Hnext|].
  pose proof (u32_range (now - last t)).
  destruct (Z.leb_spec (period t) (u32 (now - last t))) as [Hdue|Hnot]; [done|].
  rewrite u32_id by zb.
  destruct (Z.ltb_spec (period t - u32 (now - last t)) best) as [Hlt|Hge].
  - rewrite Z.min_l by lia. apply Hnext.
  - rewrite Z.min_r by lia. apply Hnext.
Qed.
Lemma due_later t now d :
  timer_wf t -> is_u32 now -> paused t = false -> u32 (now - last t) < period t -> 0 <= d ->
  (d < period t - u32 (now - last t) -> ~ due t (u32 (now + d)))
  /\ (d = period t - u32 (now - last t) -> due t (u32 (now + d))).
Proof.
  intros [Hp Hl] Hn Hpa He Hd. unfold due.
  assert (d <= period t - u32 (now - last t) ->
    u32 (u32 (now + d) - last t) = u32 (now - last t) + d) as E.
  { unfold u32 in *. intros Hle. unfold is_u32 in *. zdm. }
  split; intros Hlt; [intros [_ Hdue]; rewrite E in Hdue; lia|].
  split; [done|]. rewrite E; lia.
Qed.
Lemma until_spec_correct w now ts best :
  is_u32 now -> 0 <= best ->
  (forall x, x ∈ ts -> exists t, timers w !! x = Some t /\ timer_wf t) ->
  let r := until_spec w now ts best in
  0 <= r <= best
  /\ (forall d x t, 0 <= d < r -> x ∈ ts -> timers w !! x = Some t -> ~ due t (u32 (now + d)))
  /\ (r = best \/ exists x t, x ∈ ts /\ timers w !! x = Some t /\ due t (u32 (now + r))).
Proof.
  intros Hnow. revert best. induction ts as [|x ts IH]; intros best Hb Hts r.
  { subst r; simpl. split; [lia|]. split; [intros d x t _ H; by apply not_elem_of_nil in H|by left]. }
  destruct (Hts x) as (t & Ht & Hwf); [by left|].
  assert (forall y, y ∈ ts -> exists t, timers w !! y = Some t /\ timer_wf t) as Hts'.
  { intros y Hy. apply Hts. by right. }
  subst r. simpl. rewrite Ht. destruct (paused t) eqn:Hpa.
  - destruct (IH best Hb Hts') as (Hr & Hno & Hyes). split; [done|]. split.
    + intros d y u Hd [->|Hy]%elem_of_cons Hu; [|by eapply Hno].
      rewrite Ht in Hu. injection Hu as <-. intros [Hc _]. congruence.
    + destruct Hyes as [?|(y & u & Hy & Hu & Hdue)]; [by left|right].
      exists y, u. split; [by right|done].
  - destruct (Z.leb_spec (period t) (u32 (now - last t))) as [Hdue|Hnot].
    + split; [lia|]. split; [lia|]. right. exists x, t. split; [by left|]. split; [done|].
      rewrite Z.add_0_r, (u32_id now) by done. done.
    + pose proof (due_later t now) as Hlater.
      destruct (IH (Z.min (period t - u32 (now - last t)) best)) as (Hr & Hno & Hyes);
        [lia|done|]. split; [lia|]. split.
      * intros d y u Hd [->|Hy]%elem_of_cons Hu; [|by eapply Hno].
        rewrite Ht in Hu. injection Hu as <-. apply Hlater; [done..|lia|lia].
      * destruct Hyes as [E|(y & u & Hy & Hu & Hdue)].
        -- destruct (Z.le_gt_cases best (period t - u32 (now - last t))).
           ++ left. rewrite E. lia.
           ++ right. exists x, t. split; [by left|]. split; [done|].
              apply Hlater; [done..|lia|lia].
        -- right. exists y, u. split; [by right|done].
Qed.
End TimerLemmas.

(** ** The handler *)

Section Handler.
Context {env : Type} (call : Z -> Z -> Z -> world env -> outcome (world env)).
Implicit Types w : world env.

(** Every element of the list has a record with a callback. *)
Definition armed w (ts : list Z) : Prop :=
  forall t, t ∈ ts -> exists r, timers w !! t = Some r /\ cb r <> lh_null.

(** A callback that keeps to its own timer: it may reconfigure or stop the
    timer it was called for, and change the rest of the program's state. *)
Definition own_timer_only (group : Z) : Prop :=
  forall f self ctx w xs ys,
    is_list (nodes w) group (xs ++ self :: ys) -> armed w (xs ++ self :: ys) ->
    exists w', call f self ctx w = Done w'
      /\ (nodes w' = nodes w \/ lh_list_node_unlink (nodes w) self = Done (nodes w'))
      /\ (forall t, t <> self -> timers w' !! t = timers w !! t)
      /\ (exists r, timers w' !! self = Some r /\ cb r <> lh_null).

Fixpoint visit_all (now : Z) (ts : list Z) w : outcome (world env) :=
  match ts with
  | [] => mret w
  | t :: ts => w ← handler_visit call now t w; visit_all now ts w
  end.


Variable group : Z.
Hypothesis Hcall : own_timer_only group.

Lemma armed_step w w' ts t :
  armed w ts -> (forall u, u <> t -> timers w' !! u = timers w !! u) ->
  (exists r, timers w' !! t = Some r /\ cb r <> lh_null) -> armed w' ts.
Proof.
  intros Ha Hu Ht u Hin. destruct (decide (u = t)) as [->|Hne]; [done|].
  rewrite Hu by done. by apply Ha.
Qed.
Lemma visit_not_due now t w r :
  valid_ptr t -> timers w !! t = Some r -> ~ due r now -> handler_visit call now t w = Done w.
Proof.
  intros Hv Ht Hnd. unfold handler_visit, lh_timer_get_paused, lh_timer_get_last,
    lh_timer_get_period. rewrite (get_timer_eq w t r) by done.
  cbn [mbind outcome_bind mret outcome_ret]. destruct (paused r) eqn:Hp; [done|].
  rewrite (proj2 (Z.ltb_lt _ _)); [done|]. destruct (Z.lt_ge_cases (u32 (now - last r)) (period r)); [done|].
  by exfalso; apply Hnd.
Qed.
(** After the callback: a one-shot timer still in the list is stopped. *)
Lemma visit_end w xs t ys :
  (is_list (nodes w) group (xs ++ t :: ys)
   \/ (is_list (nodes w) group (xs ++ ys) /\ unlinked (nodes w) t /\ t ∉ group :: xs ++ ys)) ->
  armed w (xs ++ t :: ys) ->
  exists w', (again ← lh_timer_get_repeat w t;
              running ← (if (again : bool) then mret false else lh_timer_is_running w t);
              if (running : bool) then lh_timer_stop w t else mret w) = Done w'
    /\ (is_list (nodes w') group (xs ++ t :: ys) \/ is_list (nodes w') group (xs ++ ys))
    /\ (forall u, u <> t -> timers w' !! u = timers w !! u)
    /\ (exists r, timers w' !! t = Some r /\ cb r <> lh_null).
Proof.
  intros Hl Ha. destruct (Ha t) as (r & Ht & Hcb); [set_solver|].
  assert (valid_ptr t) as Hv.
  { destruct Hl as [Hl|(_ & Hu & _)]; [eapply elem_valid; [done|set_solver]|].
    eapply (ring_valid _ [t]); [done|by left]. }
  unfold lh_timer_get_repeat. rewrite (get_timer_eq w t r) by done.
  cbn [mbind outcome_bind mret outcome_ret].
  destruct (repeat r) eqn:Hrep.
  { exists w. split; [done|]. split; [destruct Hl as [?|[? _]]; auto|]. split; [done|eauto]. }
  unfold lh_timer_is_running, lh_timer_get_node. rewrite ref_valid by done.
  cbn [mbind outcome_bind mret outcome_ret]. destruct Hl as [Hl|(Hl & Hu & Hn)].
  - rewrite (is_linked_eq _ t (ys ++ group :: xs)) by by apply list_turn.
    rewrite bool_decide_false by by destruct ys. cbn [mbind outcome_bind negb].
    destruct (stop_spec w group (xs ++ t :: ys) t r Hl) as (h' & -> & Hl' & _);
      [left; set_solver|done|].
    eexists. split; [done|]. split.
    + right. simpl. pose proof (list_nodup _ _ _ Hl) as [(_ & Hd & [Hn _]%NoDup_cons)%NoDup_app _].
      rewrite remove_elem_split in Hl'; [done| |done]. intros H. apply (Hd t H). by left.
    + simpl. split; [intros u Hne; by rewrite lookup_insert_ne|].
      rewrite lookup_insert_eq. eauto.
  - rewrite (is_linked_eq _ t []) by done. simpl.
    exists w. split; [done|]. split; [auto|]. split; [done|eauto].
Qed.
Lemma visit_spec now w xs t ys :
  is_list (nodes w) group (xs ++ t :: ys) -> armed w (xs ++ t :: ys) ->
  exists w', handler_visit call now t w = Done w'
    /\ (is_list (nodes w') group (xs ++ t :: ys) \/ is_list (nodes w') group (xs ++ ys))
    /\ (forall u, u <> t -> timers w' !! u = timers w !! u)
    /\ armed w' (xs ++ t :: ys).
Proof.
  intros Hl Ha. destruct (Ha t) as (r & Ht & Hcb); [set_solver|].
  assert (valid_ptr t) as Hv by (eapply elem_valid; [done|set_solver]).
  destruct (decide (paused r = false /\ period r <= u32 (now - last r))) as [[Hp Hdue]|Hnd].
  2: { rewrite (visit_not_due now t w r) by done. by exists w; auto. }
  unfold handler_visit, lh_timer_get_paused, lh_timer_get_last, lh_timer_get_period.
  rewrite (get_timer_eq w t r) by done. cbn [mbind outcome_bind mret outcome_ret].
  rewrite Hp, (proj2 (Z.ltb_ge _ _)) by done.
  unfold lh_timer_set_last. rewrite (put_timer_eq w t r), bind_done by done.
  set (r1 := mk_timer (period r) now (priority r) (repeat r) (paused r) (cb r) (context r)).
  set (w1 := mk_world (nodes w) (<[t := r1]> (timers w)) (rest w)).
  unfold lh_timer_get_cb, lh_timer_get_context.
  rewrite (get_timer_eq w1 t r1) by (done || apply lookup_insert_eq).
  cbn [mbind outcome_bind mret outcome_ret].
  unfold lh_assert_runtime_ref, lh_ptr_is_null.
  rewrite (proj2 (Z.eqb_neq (cb r1) lh_null)) by done. cbn [fail_if mbind outcome_bind].
  assert (forall u, u <> t -> timers w1 !! u = timers w !! u) as Hu1.
  { intros u Hne. simpl. by rewrite lookup_insert_ne. }
  assert (armed w1 (xs ++ t :: ys)) as Ha1.
  { eapply armed_step; [done|exact Hu1|]. simpl. rewrite lookup_insert_eq. eauto. }
  destruct (Hcall (cb r1) t (context r1) w1 xs ys Hl Ha1) as (w2 & -> & Hn2 & Hu2 & Ht2).
  rewrite bind_done.
  assert (armed w2 (xs ++ t :: ys)) as Ha2 by (eapply armed_step; [exact Ha1|exact Hu2|done]).
  destruct (visit_end w2 xs t ys) as (w3 & E3 & Hl3 & Hu3 & Ht3); [|done|].
  { destruct Hn2 as [->|Hun]; [by left|right].
    destruct (list_unlink (nodes w1) group t xs ys Hl) as (h' & Eh & Hl' & Hul & _).
    rewrite Eh in Hun. injection Hun as ->. split; [done|]. split; [done|].
    by apply list_nodup_app in Hl. }
  exists w3. split; [exact E3|]. split; [done|]. split.
  - intros u Hne. by rewrite Hu3, Hu2, Hu1.
  - eapply armed_step; [exact Ha2|exact Hu3|done].
Qed.

Lemma handler_loop_spec fuel now w xs ys :
  is_list (nodes w) group (xs ++ ys) -> armed w (xs ++ ys) -> (length ys < fuel)%nat ->
  exists w' ys', visit_all now ys w = Done w' /\ sublist ys' ys
    /\ handler_loop call fuel w group (first_of ys) now = Done w'
    /\ is_list (nodes w') group (xs ++ ys')
    /\ (forall t r, t ∈ ys -> timers w !! t = Some r -> ~ due r now ->
          t ∈ ys' /\ timers w' !! t = Some r)
    /\ (forall t, t ∉ ys -> timers w' !! t = timers w !! t).
Proof.
  revert w xs ys. induction fuel as [|fuel IH]; intros w xs ys Hl Ha Hf; [lia|].
  destruct ys as [|y ys].
  { exists w, []. split; [done|]. split; [constructor|]. split; [done|]. split; [done|].
    split; [|done]. intros t r H. by apply not_elem_of_nil in H. }
  pose proof (list_nodup_app _ _ _ _ _ Hl) as Hy.
  assert (valid_ptr y) as Hv by (eapply elem_valid; [done|set_solver]).
  simpl. rewrite (ptr_set_in _ group xs y ys) by done. change (first_of (y :: ys)) with y.
  rewrite (get_next_list _ group xs y ys), bind_done by done.
  change (lh_timer_get_by_node_mut y) with (lh_timer_get_by_node y). rewrite by_node_eq by done.
  destruct (visit_spec now w xs y ys Hl Ha) as (w1 & E1 & Hl1 & Hu1 & Ha1).
  rewrite E1, bind_done.
  assert (exists zs, is_list (nodes w1) group ((xs ++ zs) ++ ys) /\ armed w1 ((xs ++ zs) ++ ys)
    /\ sublist zs [y] /\ (zs = [] -> is_list (nodes w1) group (xs ++ ys))
    /\ (forall r, timers w !! y = Some r -> ~ due r now -> zs = [y])) as (zs & Hlz & Haz & Hz & _ & Hzd).
  { destruct (Ha y) as (r & Hr & _); [set_solver|].
    destruct (decide (paused r = false /\ period r <= u32 (now - last r))) as [Hd|Hd].
    - destruct Hl1 as [Hl1|Hl1].
      + exists [y]. rewrite <- app_assoc. split; [done|]. split; [done|]. split; [done|].
        split; [done|]. done.
      + exists []. rewrite app_nil_r. split; [done|]. split; [|split; [constructor; constructor|split; [done|]]].
        * intros t Ht. apply Ha1. set_solver.
        * intros r' Hr' Hnd. rewrite Hr in Hr'. injection Hr' as <-. by destruct Hnd.
    - exists [y]. rewrite (visit_not_due now y w r) in E1 by done. injection E1 as <-.
      rewrite <- app_assoc. split; [done|]. split; [done|]. split; [done|]. done. }
  destruct (IH w1 (xs ++ zs) ys Hlz Haz) as (w2 & ys' & E2 & Hsub & Hh & Hl2 & Hnd & Hout).
  { simpl in Hf. lia. }
  exists w2, (zs ++ ys'). split; [done|]. split; [by apply (sublist_app zs [y] ys' ys)|].
  split; [done|]. split; [by rewrite app_assoc|].
  assert (y ∉ ys) as Hyys by (intros H; apply Hy; set_solver). split.
  - intros t r [->|Hin]%elem_of_cons Hr Hd.
    + rewrite (Hzd r) by done. split; [by left|]. rewrite Hout by done.
      rewrite (visit_not_due now y w r) in E1 by done. by injection E1 as <-.
    + assert (t <> y) by by intros ->. destruct (Hnd t r) as [Hin' Ht']; [done|by rewrite Hu1|done|].
      split; [|done]. apply elem_of_app. by right.
  - intros t [Hne Hin]%not_elem_of_cons. rewrite Hout, Hu1 by done. done.
Qed.
End Handler.

(** ** Callbacks that do not keep to their own timer *)

Section Faults.
Context {env : Type} (call : Z -> Z -> Z -> world env -> outcome (world env)) (group now : Z).
Implicit Types w : world env.



End Faults.

(** ** Concrete groups

    [demo_world]: the group at 8 holds timer 24 (priority 5, repeating) before
    timer 16 (priority 1, one-shot); 32 and 40 are not started.  The rest of
    the state is the log of the timers called. *)
Definition demo_timers : gmap Z lh_timer_t :=
  <[16 := mk_timer 100 50 1 false false 0x1000 0]>
    (<[24 := mk_timer 10 95 5 true false 0x1000 0]>
      (<[32 := mk_timer 0 0 0 false false 0 0]> ∅)).
Definition demo_nodes : store :=
  <[8 := mk_node 24 16]> (<[24 := mk_node 16 8]> (<[16 := mk_node 8 24]> demo_store)).
Definition demo_world : world (list Z) := mk_world demo_nodes demo_timers [].
(** The callback at [0x1000] logs its timer. *)
Definition log_call (f self ctx : Z) (w : world (list Z)) : outcome (world (list Z)) :=
  mret (mk_world (nodes w) (timers w) (rest w ++ [self])).

Lemma demo_group_list : is_list demo_nodes 8 [24; 16].
Proof.
  split; [by repeat split|]. split; [by apply (bool_decide_unpack _)|].
  repeat constructor; done.
Qed.
Lemma demo_group_ok : group_ok demo_world 8 [24; 16].
Proof.
  split; [apply demo_group_list|]. split.
  - intros t. rewrite !elem_of_cons, elem_of_nil. intros [->|[->|[]]]; vm_compute; eauto.
  - repeat constructor; vm_compute; discriminate.
Qed.
Lemma demo_32_unlinked : unlinked demo_nodes 32.
Proof.
  split; [by repeat split|]. split; [apply NoDup_singleton|]. repeat constructor; done.
Qed.
Lemma log_call_own group : own_timer_only log_call group.
Proof.
  intros f self ctx w xs ys Hl Ha. eexists. split; [reflexivity|]. simpl.
  split; [by left|]. split; [done|]. apply Ha. set_solver.
Qed.

(** ** Properties *)

(** Claim C27: [lh_timer_start], also of a timer already running in the group,
    and [lh_timer_group_set_priority] put the timer behind every timer of at
    least its priority and before every lower one, keep the others in their
    order, and change no other timer: the group stays a whole ring in priority
    order. *)
Theorem timer_group_priority_order {env} (w : world env) group ts self t p per rep f ctx now :
  group_ok w group ts -> startable w group self ts -> timers w !! self = Some t ->
  per <> 0 -> f <> lh_null ->
  (exists w', lh_timer_start w group self per rep p f ctx now = Done w'
     /\ placed w w' group self (mk_timer per now p rep false f ctx) ts)
  /\ (self ∈ ts -> p <> priority t ->
      exists w', lh_timer_group_set_priority w group self p = Done w'
        /\ placed w w' group self (with_priority t p) ts).
Proof. intros. split; [by eapply start_spec|]. intros. by apply set_priority_spec. Qed.

Lemma timer_group_priority_order_witness :
  (exists w', lh_timer_start demo_world 8 32 20 true 3 0x1000 0 1000 = Done w'
     /\ placed demo_world w' 8 32 (mk_timer 20 1000 3 true false 0x1000 0) [24; 16])
  /\ (32 ∈ [24; 16] -> 3 <> 0 ->
      exists w', lh_timer_group_set_priority demo_world 8 32 3 = Done w'
        /\ placed demo_world w' 8 32 (with_priority (mk_timer 0 0 0 false false 0 0) 3) [24; 16]).
Proof.
  apply (timer_group_priority_order demo_world 8 [24; 16] 32
           (mk_timer 0 0 0 false false 0 0) 3 20 true 0x1000 0 1000).
  - apply demo_group_ok.
  - right. split; [apply demo_32_unlinked|]. rewrite !elem_of_cons, elem_of_nil. lia.
  - reflexivity.
  - discriminate.
  - discriminate.
Defined.

(** [lh_timer_group_until_next] returns the number of ticks to the
    next firing, across the 32-bit wrap of the tick counter: at no earlier tick
    is an unpaused timer due, and at that tick one is (or the answer is
    [LH_TICK_T_MAX], when none is due before). *)
Theorem until_next_is_next_firing {env} (w : world env) group ts now :
  is_list (nodes w) group ts -> is_u32 now ->
  (forall x, x ∈ ts -> exists t, timers w !! x = Some t /\ timer_wf t) ->
  exists r, lh_timer_group_until_next w group now = Done r /\ 0 <= r <= LH_TICK_T_MAX
    /\ (forall d x t, 0 <= d < r -> x ∈ ts -> timers w !! x = Some t -> ~ due t (u32 (now + d)))
    /\ (r = LH_TICK_T_MAX
        \/ exists x t, x ∈ ts /\ timers w !! x = Some t /\ due t (u32 (now + r))).
Proof.
  intros Hl Hnow Hts. exists (until_spec w now ts LH_TICK_T_MAX). split.
  - unfold lh_timer_group_until_next, lh_timer_group_get_timers.
    rewrite ref_valid by by eapply list_valid. cbn [mbind outcome_bind mret outcome_ret].
    rewrite (get_first_eq _ group ts), bind_done by done.
    apply (until_loop_spec w group [] ts); [done|done|by eapply list_walk_fuel].
  - by apply until_spec_correct.
Qed.

Lemma until_next_is_next_firing_witness :
  exists r, lh_timer_group_until_next demo_world 8 100 = Done r /\ 0 <= r <= LH_TICK_T_MAX
    /\ (forall d x t, 0 <= d < r -> x ∈ [24; 16] -> timers demo_world !! x = Some t ->
          ~ due t (u32 (100 + d)))
    /\ (r = LH_TICK_T_MAX
        \/ exists x t, x ∈ [24; 16] /\ timers demo_world !! x = Some t /\ due t (u32 (100 + r))).
Proof.
  apply (until_next_is_next_firing demo_world 8 [24; 16] 100).
  - apply demo_group_list.
  - zb.
  - intros x. rewrite !elem_of_cons, elem_of_nil.
    intros [->|[->|[]]]; eexists; (split; [reflexivity|]); unfold timer_wf; simpl; zb.
Defined.

(** Claim C28: when callbacks keep to their own timer (reconfigure it, stop it)
    and the rest of the state, and every timer has one, [lh_timer_group_handler]
    ends after one visit of each timer, in the order of the group, never faults, leaves a whole ring with some
    of the timers in the same order, and does not touch a timer that is paused
    or not due. *)
Theorem timer_handler_visits_each {env} (call : Z -> Z -> Z -> world env -> outcome (world env))
    group now w ts fuel :
  own_timer_only call group -> is_list (nodes w) group ts -> armed w ts ->
  (length ts < fuel)%nat ->
  exists w' ts', lh_timer_group_handler call fuel w group now = Done w'
    /\ visit_all call now ts w = Done w'
    /\ sublist ts' ts /\ is_list (nodes w') group ts'
    /\ (forall t r, t ∈ ts -> timers w !! t = Some r -> ~ due r now ->
          t ∈ ts' /\ timers w' !! t = Some r).
Proof.
  intros Hcall Hl Ha Hf.
  destruct (handler_loop_spec call group Hcall fuel now w [] ts Hl Ha Hf)
    as (w' & ts' & Hv & Hsub & Hh & Hl' & Hnd & _).
  exists w', ts'. split; [|done]. unfold lh_timer_group_handler, lh_timer_group_get_timers_mut.
  rewrite ref_valid by by eapply list_valid. cbn [mbind outcome_bind mret outcome_ret].
  by rewrite (get_first_eq _ group ts), bind_done.
Qed.

Lemma timer_handler_visits_each_witness :
  exists w' ts', lh_timer_group_handler log_call 3 demo_world 8 150 = Done w'
    /\ visit_all log_call 150 [24; 16] demo_world = Done w'
    /\ sublist ts' [24; 16] /\ is_list (nodes w') 8 ts'
    /\ (forall t r, t ∈ [24; 16] -> timers demo_world !! t = Some r -> ~ due r 150 ->
          t ∈ ts' /\ timers w' !! t = Some r).
Proof.
  apply (timer_handler_visits_each log_call 8 150 demo_world [24; 16] 3).
  - apply log_call_own.
  - apply demo_group_list.
  - intros t. rewrite !elem_of_cons, elem_of_nil.
    intros [->|[->|[]]]; eexists; (split; [reflexivity|discriminate]).
  - simpl; lia.
Defined.



