(* ===== verification/Spsc.v ===== *)
(** * Single-producer single-consumer queue: the code

    [lh/core/spsc.c].  The two threads share two atomic counters and the record
    storage, so an operation is a program ([prog]) over those shared actions;
    [Spsc] gives the code and two ways of running it: alone ([run]) and
    interleaved with the other thread ([step]), with the counters read by the
    other side as old as release/acquire order allows.  The proofs are in
    [SpscProofs]. *)
From S2P Require Import Prelude.

(** The fields that do not change while the queue is shared. *)
Record lh_spsc_t := mk_spsc { storage : Z; capacity : Z; item_size : Z }.

Inductive prog (A : Type) : Type :=
| Ret (a : A)
| Get_written (k : Z -> prog A)
| Get_read (k : Z -> prog A)
| Set_written (v : Z) (k : prog A)
| Set_read (v : Z) (k : prog A)
| Copy (addr : Z) (bytes : list Z) (k : prog A)
| Fail (code : Z).
Arguments Ret {A} _.
Arguments Get_written {A} _.
Arguments Get_read {A} _.
Arguments Set_written {A} _ _.
Arguments Set_read {A} _ _.
Arguments Copy {A} _ _ _.
Arguments Fail {A} _.

#[export] Instance prog_ret : MRet prog := fun A a => Ret a.
#[export] Instance prog_bind : MBind prog := fun A B f =>
  fix bind m :=
    match m with
    | Ret a => f a
    | Get_written k => Get_written (fun v => bind (k v))
    | Get_read k => Get_read (fun v => bind (k v))
    | Set_written v k => Set_written v (bind k)
    | Set_read v k => Set_read v (bind k)
    | Copy a b k => Copy a b (bind k)
    | Fail c => Fail c
    end.

(** ** The functions *)

Definition lh_spsc_get_storage (self : lh_spsc_t) : Z := storage self.
Definition lh_spsc_set_storage (self : lh_spsc_t) (v : Z) : lh_spsc_t :=
  mk_spsc v (capacity self) (item_size self).
Definition lh_spsc_get_capacity (self : lh_spsc_t) : Z := capacity self.
Definition lh_spsc_set_capacity (self : lh_spsc_t) (v : Z) : lh_spsc_t :=
  mk_spsc (storage self) v (item_size self).
Definition lh_spsc_get_item_size (self : lh_spsc_t) : Z := item_size self.
Definition lh_spsc_set_item_size (self : lh_spsc_t) (v : Z) : lh_spsc_t :=
  mk_spsc (storage self) (capacity self) v.
Definition lh_spsc_get_written : prog Z := Get_written Ret.
Definition lh_spsc_set_written (written : Z) : prog unit := Set_written written (Ret tt).
Definition lh_spsc_get_read : prog Z := Get_read Ret.
Definition lh_spsc_set_read (read : Z) : prog unit := Set_read read (Ret tt).

Definition lh_spsc_is_valid_shape (storage capacity item_size : Z) : bool :=
  negb (storage =? 0) && negb (capacity =? 0)
  && (Z.land capacity (u32 (capacity - 1)) =? 0)
  && (capacity <=? LH_UINT_T_MAX / 2)
  && negb (item_size =? 0) && (item_size <=? LH_USIZE_T_MAX / capacity).
(** Pointer arithmetic: the offset is computed in [lh_usize_t]. *)
Definition lh_spsc_get_slot (self : lh_spsc_t) (position : Z) : Z :=
  lh_spsc_get_storage self
  + u64 (Z.land position (u32 (lh_spsc_get_capacity self - 1)) * lh_spsc_get_item_size self).

(** The runtime allocator: whether it has both callbacks, and what its
    [try_alloc] answers; [lock_free] is the target's
    [lh_atomic_uint_is_lock_free]. *)
Record runtime_allocator := mk_allocator
  { alloc_cb : bool; dealloc_cb : bool; try_alloc : option lh_spsc_t }.
(** The counters a new queue starts with: both zero. *)
Definition lh_spsc_init_counters : Z * Z := (0, 0).
Definition lh_spsc_create (runtime : runtime_allocator) (lock_free : bool)
    (storage capacity item_size : Z) : option (lh_spsc_t * (Z * Z)) :=
  if negb (lh_spsc_is_valid_shape storage capacity item_size) then None else
  if negb (alloc_cb runtime) || negb (dealloc_cb runtime) then None else
  match try_alloc runtime with
  | None => None
  | Some q =>
    let q := lh_spsc_set_storage q storage in
    let q := lh_spsc_set_capacity q capacity in
    let q := lh_spsc_set_item_size q item_size in
    let counters := lh_spsc_init_counters in
    if negb lock_free then None else Some (q, counters)
  end.

Definition assert_ref (p : Z) : prog unit :=
  if p =? 0 then Fail lh_runtime_error_code_null_pointer else Ret tt.
Definition lh_spsc_push (self : lh_spsc_t) (item : list Z) : prog bool :=
  position ← lh_spsc_get_written;
  read ← lh_spsc_get_read;
  if u32 (position - read) >=? lh_spsc_get_capacity self then mret false else
  Copy (lh_spsc_get_slot self position) item
    (_ ← lh_spsc_set_written (u32 (position + 1));
     mret true).
Definition lh_spsc_peek (self : lh_spsc_t) : prog Z :=
  position ← lh_spsc_get_read;
  written ← lh_spsc_get_written;
  if position =? written then mret 0 else mret (lh_spsc_get_slot self position).
Definition lh_spsc_release (self : lh_spsc_t) : prog unit :=
  p ← lh_spsc_peek self;
  _ ← assert_ref p;
  read ← lh_spsc_get_read;
  lh_spsc_set_read (u32 (read + 1)).

(** ** Running one thread alone *)

Record shared := mk_shared { written : Z; read : Z; bytes : gmap Z Z }.
Fixpoint write_bytes (m : gmap Z Z) (addr : Z) (bs : list Z) : gmap Z Z :=
  match bs with [] => m | b :: bs => write_bytes (<[addr := b]> m) (addr + 1) bs end.
Definition read_bytes (m : gmap Z Z) (addr : Z) (n : nat) : list (option Z) :=
  map (fun i => m !! (addr + Z.of_nat i)) (seq 0 n).
Fixpoint run {A} (p : prog A) (s : shared) : outcome (shared * A) :=
  match p with
  | Ret a => Done (s, a)
  | Get_written k => run (k (written s)) s
  | Get_read k => run (k (read s)) s
  | Set_written v k => run k (mk_shared v (read s) (bytes s))
  | Set_read v k => run k (mk_shared (written s) v (bytes s))
  | Copy a bs k => run k (mk_shared (written s) (read s) (write_bytes (bytes s) a bs))
  | Fail c => Fault c
  end.

(** ** Two threads

    Each counter has one writer, so its modification order is the list of the
    values stored ([written_log], [read_log]).  The writer reads the newest; the
    other side may read any value that is not older than one it read before
    ([seen_read], [seen_written]: how many of the stores it has acquired).  The
    producer repeats pushes of any records; the consumer repeats peek, use of
    the record, release. *)
Inductive producer :=
| PIdle
| PPush (item : list Z) (p : prog bool).
Inductive consumer :=
| CIdle
| CPeek (p : prog Z)
| CBorrow (slot : Z)
| CRelease (slot : Z) (p : prog unit).
Record config := mk_config {
  prod : producer; cons : consumer;
  written_log : list Z; read_log : list Z;
  seen_read : nat; seen_written : nat;
  mem : gmap Z Z;
  (* the records published so far; what the consumer read before each release *)
  pushed : list (list Z); consumed : list (list (option Z)) }.

Section Steps.
  Variable q : lh_spsc_t.

(** The producer's turn: one shared action of its program. *)
Inductive producer_step : config -> config -> Prop :=
| p_start c item :
    prod c = PIdle -> Z.of_nat (length item) = item_size q ->
    producer_step c
      (mk_config (PPush item (lh_spsc_push q item)) (cons c) (written_log c) (read_log c)
         (seen_read c) (seen_written c) (mem c) (pushed c) (consumed c))
| p_get_written c item k v :
    prod c = PPush item (Get_written k) -> last (written_log c) = Some v ->
    producer_step c
      (mk_config (PPush item (k v)) (cons c) (written_log c) (read_log c)
         (seen_read c) (seen_written c) (mem c) (pushed c) (consumed c))
| p_get_read c item k i v :
    prod c = PPush item (Get_read k) -> (seen_read c <= i)%nat -> read_log c !! i = Some v ->
    producer_step c
      (mk_config (PPush item (k v)) (cons c) (written_log c) (read_log c)
         i (seen_written c) (mem c) (pushed c) (consumed c))
| p_copy c item k a bs :
    prod c = PPush item (Copy a bs k) ->
    producer_step c
      (mk_config (PPush item k) (cons c) (written_log c) (read_log c)
         (seen_read c) (seen_written c) (write_bytes (mem c) a bs) (pushed c) (consumed c))
| p_set_written c item k v :
    prod c = PPush item (Set_written v k) ->
    producer_step c
      (mk_config (PPush item k) (cons c) (written_log c ++ [v]) (read_log c)
         (seen_read c) (seen_written c) (mem c) (pushed c ++ [item]) (consumed c))
| p_return c item b :
    prod c = PPush item (Ret b) ->
    producer_step c
      (mk_config PIdle (cons c) (written_log c) (read_log c)
         (seen_read c) (seen_written c) (mem c) (pushed c) (consumed c)).

(** The consumer's turn. *)
Inductive consumer_step : config -> config -> Prop :=
| c_start c :
    cons c = CIdle ->
    consumer_step c
      (mk_config (prod c) (CPeek (lh_spsc_peek q)) (written_log c) (read_log c)
         (seen_read c) (seen_written c) (mem c) (pushed c) (consumed c))
| c_peek_read c k v :
    cons c = CPeek (Get_read k) -> last (read_log c) = Some v ->
    consumer_step c
      (mk_config (prod c) (CPeek (k v)) (written_log c) (read_log c)
         (seen_read c) (seen_written c) (mem c) (pushed c) (consumed c))
| c_peek_written c k i v :
    cons c = CPeek (Get_written k) -> (seen_written c <= i)%nat -> written_log c !! i = Some v ->
    consumer_step c
      (mk_config (prod c) (CPeek (k v)) (written_log c) (read_log c)
         (seen_read c) i (mem c) (pushed c) (consumed c))
| c_empty c :
    cons c = CPeek (Ret 0) ->
    consumer_step c
      (mk_config (prod c) CIdle (written_log c) (read_log c)
         (seen_read c) (seen_written c) (mem c) (pushed c) (consumed c))
| c_borrow c slot :
    cons c = CPeek (Ret slot) -> slot <> 0 ->
    consumer_step c
      (mk_config (prod c) (CBorrow slot) (written_log c) (read_log c)
         (seen_read c) (seen_written c) (mem c) (pushed c) (consumed c))
| c_use c slot :
    cons c = CBorrow slot ->
    consumer_step c
      (mk_config (prod c) (CRelease slot (lh_spsc_release q)) (written_log c) (read_log c)
         (seen_read c) (seen_written c) (mem c) (pushed c)
         (consumed c ++ [read_bytes (mem c) slot (Z.to_nat (item_size q))]))
| c_release_read c slot k v :
    cons c = CRelease slot (Get_read k) -> last (read_log c) = Some v ->
    consumer_step c
      (mk_config (prod c) (CRelease slot (k v)) (written_log c) (read_log c)
         (seen_read c) (seen_written c) (mem c) (pushed c) (consumed c))
| c_release_written c slot k i v :
    cons c = CRelease slot (Get_written k) -> (seen_written c <= i)%nat ->
    written_log c !! i = Some v ->
    consumer_step c
      (mk_config (prod c) (CRelease slot (k v)) (written_log c) (read_log c)
         (seen_read c) i (mem c) (pushed c) (consumed c))
| c_release_set c slot k v :
    cons c = CRelease slot (Set_read v k) ->
    consumer_step c
      (mk_config (prod c) (CRelease slot k) (written_log c) (read_log c ++ [v])
         (seen_read c) (seen_written c) (mem c) (pushed c) (consumed c))
| c_return c slot :
    cons c = CRelease slot (Ret tt) ->
    consumer_step c
      (mk_config (prod c) CIdle (written_log c) (read_log c)
         (seen_read c) (seen_written c) (mem c) (pushed c) (consumed c)).

(** Any interleaving of the two threads from a fresh queue over storage that
    holds anything. *)
Definition initial (m : gmap Z Z) : config :=
  mk_config PIdle CIdle [fst lh_spsc_init_counters] [snd lh_spsc_init_counters] 0 0 m [] [].
Inductive reachable (m : gmap Z Z) : config -> Prop :=
| reach_init : reachable m (initial m)
| reach_prod c c' : reachable m c -> producer_step c c' -> reachable m c'
| reach_cons c c' : reachable m c -> consumer_step c c' -> reachable m c'.
End Steps.
