(* ===== verification/SpscProofs.v ===== *)
(** * Single-producer single-consumer queue: correctness

    The invariant of every interleaving: with [nW] records published and [nR]
    released, [nR <= nW <= nR + capacity], the slots of the records in between
    hold them, the producer only writes a slot whose last record it has seen
    released, the consumer only borrows a record it has seen published. *)
From S2P Require Import Prelude Spsc.

(** ** Bytes *)

Lemma write_lookup m a bs x :
  write_bytes m a bs !! x
  = if decide (a <= x < a + Z.of_nat (length bs)) then bs !! Z.to_nat (x - a) else m !! x.
Proof.
  revert m a. induction bs as [|b bs IH]; intros m a; simpl.
  - case_decide; [lia|done].
  - rewrite IH. case_decide as H1; case_decide as H2; try lia.
    + by replace (Z.to_nat (x - a)) with (S (Z.to_nat (x - (a + 1)))) by lia.
    + replace x with a by lia. by rewrite lookup_insert_eq, Z.sub_diag.
    + by rewrite lookup_insert_ne by lia.
Qed.
Lemma read_write_same m a bs : read_bytes (write_bytes m a bs) a (length bs) = map Some bs.
Proof.
  apply list_eq. intros i. unfold read_bytes. rewrite !list_lookup_fmap.
  destruct (decide (i < length bs)%nat) as [Hi|Hi].
  - rewrite lookup_seq_lt by done. simpl. rewrite write_lookup, decide_True by lia.
    replace (Z.to_nat _) with i by lia. by apply lookup_lt_is_Some in Hi as [b ->].
  - rewrite lookup_seq_ge, lookup_ge_None_2 by lia. done.
Qed.
Lemma read_write_disjoint m a bs b n :
  b + Z.of_nat n <= a \/ a + Z.of_nat (length bs) <= b ->
  read_bytes (write_bytes m a bs) b n = read_bytes m b n.
Proof.
  intros Hd. unfold read_bytes. apply map_ext_in. intros i Hi%in_seq.
  rewrite write_lookup, decide_False by lia. done.
Qed.

(** ** Shapes and slots *)

Lemma power_of_two c : 0 < c -> Z.land c (c - 1) = 0 -> c = 2 ^ Z.log2 c.
Proof.
  intros Hc Hl. pose proof (Z.log2_spec c Hc) as [Hlo Hhi].
  destruct (Z.eq_dec c (2 ^ Z.log2 c)) as [|Hne]; [done|].
  assert (Z.log2 (c - 1) = Z.log2 c) as E.
  { apply Z.log2_unique; [apply Z.log2_nonneg|]. lia. }
  assert (Z.testbit (Z.land c (c - 1)) (Z.log2 c) = true) as Hb.
  { rewrite Z.land_spec, Z.bit_log2 by done. rewrite <- E at 1. apply Z.bit_log2.
    pose proof (Z.log2_nonneg c). pose proof (Z.pow_pos_nonneg 2 (Z.log2 c)). lia. }
  rewrite Hl, Z.bits_0 in Hb. done.
Qed.

Record shape (q : lh_spsc_t) (k : Z) : Prop := {
  shape_storage : 0 < storage q;
  shape_capacity : capacity q = 2 ^ k;
  shape_k : 0 <= k <= 30;
  shape_size : 0 < item_size q;
  shape_fits : capacity q * item_size q <= LH_USIZE_T_MAX }.
Lemma valid_shape_iff s c n :
  is_u64 s -> is_u32 c -> is_u64 n ->
  lh_spsc_is_valid_shape s c n = true <-> exists k, shape (mk_spsc s c n) k.
Proof.
  intros Hs Hc Hn. unfold lh_spsc_is_valid_shape.
  rewrite !andb_true_iff, !negb_true_iff, !Z.eqb_neq, !Z.eqb_eq, !Z.leb_le.
  change (LH_UINT_T_MAX / 2) with 2147483647. split.
  - intros (((((Hs0 & Hc0) & Hl) & Hm) & Hn0) & Hf). rewrite u32_id in Hl by zb.
    assert (0 < c) as Hc1 by zb. pose proof (power_of_two c Hc1 Hl) as E.
    assert (c * n <= LH_USIZE_T_MAX) as Hf'.
    { unfold LH_USIZE_T_MAX in *. pose proof (Z.mul_div_le 18446744073709551615 c). nia. }
    exists (Z.log2 c). split; simpl; try done; try zb.
    split; [apply Z.log2_nonneg|]. assert (Z.log2 c < 31); [|lia].
    apply Z.log2_lt_pow2; lia.
  - intros (k & [H1 H2 H3 H4 H5]). simpl in *.
    assert (0 < c <= 1073741824) as Hb.
    { rewrite H2. split; [lia|]. change 1073741824 with (2 ^ 30). apply Z.pow_le_mono_r; lia. }
    rewrite u32_id by zb. repeat split; try zb.
    + rewrite H2, Z.sub_1_r, <- Z.ones_equiv. rewrite Z.land_ones by lia. by apply Z.mod_same; lia.
    + apply Z.div_le_lower_bound; lia.
Qed.

Section Queue.
Context (q : lh_spsc_t) (k : Z) (Hq : shape q k).

Definition cap : Z := capacity q.
Definition width : nat := Z.to_nat (item_size q).
Lemma cap_bounds : 0 < cap <= 1073741824.
Proof.
  unfold cap. rewrite (shape_capacity _ _ Hq). pose proof (shape_k _ _ Hq).
  split; [lia|]. change 1073741824 with (2 ^ 30). apply Z.pow_le_mono_r; lia.
Qed.
(** The slot of record number [n]. *)
Definition slot (n : Z) : Z := storage q + n mod cap * item_size q.
Lemma u32_mod_cap n : u32 n mod cap = n mod cap.
Proof.
  unfold u32, cap. rewrite (shape_capacity _ _ Hq). pose proof (shape_k _ _ Hq).
  change 4294967296 with (2 ^ 32). replace 32 with (k + (32 - k)) by lia.
  rewrite Z.pow_add_r by lia. rewrite Z.rem_mul_r by lia.
  rewrite (Z.mul_comm (2 ^ k)), Z.mod_add by lia. apply Z.mod_mod. lia.
Qed.
Lemma slot_eq n : lh_spsc_get_slot q (u32 n) = slot n.
Proof.
  unfold lh_spsc_get_slot, lh_spsc_get_capacity, lh_spsc_get_item_size, lh_spsc_get_storage, slot.
  fold cap. pose proof cap_bounds as Hc. rewrite (u32_id (cap - 1)) by zb.
  assert (cap - 1 = Z.ones k) as ->.
  { unfold cap. rewrite (shape_capacity _ _ Hq), Z.ones_equiv. lia. }
  rewrite Z.land_ones by apply (shape_k _ _ Hq). rewrite <- (shape_capacity _ _ Hq).
  fold cap. rewrite u32_mod_cap. pose proof (Z.mod_pos_bound n cap).
  pose proof (shape_size _ _ Hq). pose proof (shape_fits _ _ Hq) as Hf. fold cap in Hf.
  rewrite u64_id; [done|]. unfold is_u64, LH_USIZE_T_MAX in *. nia.
Qed.
Lemma slot_pos n : slot n <> 0.
Proof.
  unfold slot. pose proof (shape_storage _ _ Hq). pose proof (shape_size _ _ Hq).
  pose proof cap_bounds. pose proof (Z.mod_pos_bound n cap). nia.
Qed.
Lemma slots_disjoint i j :
  i <> j -> - cap < i - j < cap -> slot i + item_size q <= slot j \/ slot j + item_size q <= slot i.
Proof.
  intros Hne Hd. unfold slot. pose proof cap_bounds. pose proof (shape_size _ _ Hq).
  assert (i mod cap <> j mod cap) as Hm.
  { intros E. pose proof (Z.div_mod i cap ltac:(lia)). pose proof (Z.div_mod j cap ltac:(lia)).
    assert (i - j = cap * (i / cap - j / cap)) as Hij by lia.
    destruct (Z.lt_trichotomy (i / cap - j / cap) 0) as [?|[Ez|?]]; [nia| |nia].
    rewrite Ez in Hij. lia. }
  destruct (Z.lt_total (i mod cap) (j mod cap)) as [?|[?|?]]; [left; nia|done|right; nia].
Qed.
Lemma counters_differ i j : i <= j -> j - i <= cap -> (u32 i = u32 j <-> i = j).
Proof. pose proof cap_bounds. intros. split; [|by intros ->]. unfold u32. zdm. Qed.
Lemma counters_distance i j : i <= j -> j - i <= cap -> u32 (u32 j - u32 i) = j - i.
Proof. pose proof cap_bounds. intros. unfold u32. zdm. Qed.

(** ** The points a program stops at *)

Definition push_3 (pos : Z) : prog bool := Set_written (u32 (pos + 1)) (Ret true).
Definition push_2 (item : list Z) (pos : Z) : prog bool :=
  Copy (lh_spsc_get_slot q pos) item (push_3 pos).
Definition push_1 (item : list Z) (pos : Z) : prog bool :=
  Get_read (fun r => if u32 (pos - r) >=? cap then Ret false else push_2 item pos).
Lemma push_eq item : lh_spsc_push q item = Get_written (push_1 item).
Proof. done. Qed.
Definition peek_1 (pos : Z) : prog Z :=
  Get_written (fun w => if pos =? w then Ret 0 else Ret (lh_spsc_get_slot q pos)).
Lemma peek_eq : lh_spsc_peek q = Get_read peek_1.
Proof. done. Qed.
Definition release_2 : prog unit := Get_read (fun r => Set_read (u32 (r + 1)) (Ret tt)).
Definition release_1 (pos : Z) : prog unit :=
  Get_written (fun w =>
    p ← (if pos =? w then Ret 0 else Ret (lh_spsc_get_slot q pos) : prog Z);
    _ ← assert_ref p; release_2).
Lemma release_eq : lh_spsc_release q = Get_read release_1.
Proof. done. Qed.

(** ** Logs *)

(** A counter that has been stored [n] times. *)
Definition log (n : nat) : list Z := map (fun i => u32 (Z.of_nat i)) (seq 0 (S n)).
Lemma log_snoc n : log n ++ [u32 (Z.of_nat n + 1)] = log (S n).
Proof.
  replace (Z.of_nat n + 1) with (Z.of_nat (S n)) by lia.
  unfold log. by rewrite (seq_S (S n)), map_app.
Qed.
Lemma log_last n : last (log n) = Some (u32 (Z.of_nat n)).
Proof. unfold log. rewrite seq_S, map_app. simpl. by rewrite last_snoc. Qed.
Lemma log_lookup n i v : log n !! i = Some v -> (i <= n)%nat /\ v = u32 (Z.of_nat i).
Proof.
  unfold log. rewrite list_lookup_fmap. intros (j & Hj & ->)%fmap_Some.
  apply lookup_seq in Hj as [-> Hj]. split; [lia|done].
Qed.

(** ** The invariant *)

Definition zslot (n : nat) : Z := slot (Z.of_nat n).
Definition holds (m : gmap Z Z) (n : nat) (item : list Z) : Prop :=
  read_bytes m (zslot n) width = map Some item.

Definition producer_at (c : config) (nW : nat) : Prop :=
  match prod c with
  | PIdle => True
  | PPush item p =>
    length item = width
    /\ (p = lh_spsc_push q item \/ p = push_1 item (u32 (Z.of_nat nW))
        \/ (Z.of_nat nW < Z.of_nat (seen_read c) + cap
            /\ (p = push_2 item (u32 (Z.of_nat nW))
                \/ (p = push_3 (u32 (Z.of_nat nW)) /\ holds (mem c) nW item)))
        \/ exists b, p = Ret b)
  end.
Definition consumer_at (c : config) (nR : nat) : Prop :=
  match cons c with
  | CIdle => length (consumed c) = nR
  | CPeek p =>
    length (consumed c) = nR
    /\ (p = lh_spsc_peek q \/ p = peek_1 (u32 (Z.of_nat nR)) \/ p = Ret 0
        \/ (p = Ret (zslot nR) /\ (nR < seen_written c)%nat))
  | CBorrow s => length (consumed c) = nR /\ s = zslot nR /\ (nR < seen_written c)%nat
  | CRelease s p =>
    (length (consumed c) = S nR /\ s = zslot nR /\ (nR < seen_written c)%nat
     /\ (p = lh_spsc_release q \/ p = release_1 (u32 (Z.of_nat nR)) \/ p = release_2
         \/ p = Set_read (u32 (Z.of_nat nR + 1)) (Ret tt)))
    \/ (length (consumed c) = nR /\ p = Ret tt)
  end.
Record inv (c : config) (nW nR : nat) : Prop := {
  inv_written : written_log c = log nW;
  inv_read : read_log c = log nR;
  inv_pushed : length (pushed c) = nW;
  inv_order : (nR <= nW)%nat;
  inv_seen_read : (seen_read c <= nR)%nat;
  inv_seen_written : (nR <= seen_written c <= nW)%nat;
  inv_room : Z.of_nat nW <= Z.of_nat (seen_read c) + cap;
  inv_slots : forall n item, (nR <= n)%nat -> pushed c !! n = Some item -> holds (mem c) n item;
  inv_consumed : consumed c = map (map Some) (take (length (consumed c)) (pushed c));
  inv_producer : producer_at c nW;
  inv_consumer : consumer_at c nR }.

Lemma inv_initial m : inv (initial m) 0 0.
Proof.
  pose proof cap_bounds. split; try done; simpl; try lia.
Qed.

(** The producer's copy lands in a slot no live record uses. *)
Lemma holds_copy m n j item other :
  length item = width -> n <> j -> - cap < Z.of_nat n - Z.of_nat j < cap ->
  holds m j other -> holds (write_bytes m (zslot n) item) j other.
Proof.
  intros Hi Hne Hd Hh. unfold holds. rewrite read_write_disjoint; [done|].
  pose proof (slots_disjoint (Z.of_nat n) (Z.of_nat j)) as Hs.
  pose proof (shape_size _ _ Hq). rewrite Hi. unfold width, zslot in *.
  rewrite Z2Nat.id by lia. destruct Hs; lia.
Qed.

Ltac same H := destruct H as [Hw Hr Hp Ho Hsr Hsw Hroom Hsl Hcon Hpr Hco].

Lemma producer_step_inv c c' nW nR :
  inv c nW nR -> producer_step q c c' -> exists nW', inv c' nW' nR.
Proof.
  intros H. same H. destruct 1 as [c item Hst Hlen|c item kk v Hst Hv|c item kk i v Hst Hi Hv
    |c item kk a bs Hst|c item kk v Hst|c item b Hst];
    unfold producer_at in Hpr; rewrite Hst in Hpr.
  - exists nW. split; simpl; try done. split; [|by left]. unfold width. lia.
  - exists nW. split; simpl; try done. destruct Hpr as (Hit & Hpr).
    rewrite Hw, log_last in Hv. injection Hv as <-. split; [done|].
    destruct Hpr as [E|[E|[(_ & [E|[E _]])|[b E]]]]; try done.
    rewrite push_eq in E. injection E as ->. right; by left.
  - destruct Hpr as (Hit & Hpr). exists nW.
    rewrite Hr in Hv. apply log_lookup in Hv as [Hin ->].
    split; simpl; try done; try lia. split; [done|].
    destruct Hpr as [E|[E|[(_ & [E|[E _]])|[b E]]]]; try done.
    injection E as ->. rewrite (counters_distance (Z.of_nat i) (Z.of_nat nW)), Z.geb_leb by lia.
    destruct (Z.leb_spec cap (Z.of_nat nW - Z.of_nat i)).
    + do 3 right. by exists false.
    + right. right. left. split; [simpl; lia|by left].
  - destruct Hpr as (Hit & Hpr). exists nW.
    destruct Hpr as [E|[E|[(Hlt & [E|[E _]])|[b E]]]]; try done.
    injection E as -> -> ->. rewrite slot_eq. fold (zslot nW).
    split; simpl; try done.
    + intros n it Hn Hit'. assert (n < nW)%nat by (rewrite <- Hp; by eapply lookup_lt_Some).
      apply holds_copy; [done|lia|lia|]. by apply Hsl.
    + split; [done|]. right. right. left. split; [done|]. right. split; [done|].
      unfold holds. rewrite <- Hit. apply read_write_same.
  - destruct Hpr as (Hit & Hpr). exists (S nW).
    destruct Hpr as [E|[E|[(Hlt & [E|[E Hh]])|[b E]]]]; try done.
    injection E as -> ->. split; simpl; try done; try lia.
    + rewrite Hw. replace (u32 (u32 (Z.of_nat nW) + 1)) with (u32 (Z.of_nat nW + 1))
        by (unfold u32; zdm). apply log_snoc.
    + rewrite length_app; simpl; lia.
    + intros n it Hn Hit'. apply lookup_snoc_Some in Hit' as [[Hl Hit']|[-> <-]].
      * by apply Hsl.
      * by rewrite Hp.
    + rewrite take_app_le; [done|]. rewrite Hcon, length_map, length_take. lia.
    + split; [done|]. do 3 right. by exists true.
  - exists nW. split; simpl; try done.
Qed.

Lemma consumer_step_inv c c' nW nR :
  inv c nW nR -> consumer_step q c c' -> exists nR', inv c' nW nR'.
Proof.
  intros H. same H. destruct 1 as [c Hst|c kk v Hst Hv|c kk i v Hst Hi Hv|c Hst|c s Hst Hs0
    |c s Hst|c s kk v Hst Hv|c s kk i v Hst Hi Hv|c s kk v Hst|c s Hst];
    unfold consumer_at in Hco; rewrite Hst in Hco.
  - exists nR. split; simpl; try done. split; [done|by left].
  - exists nR. rewrite Hr, log_last in Hv. injection Hv as <-.
    split; simpl; try done. destruct Hco as (Hlen & Hco). split; [done|].
    destruct Hco as [E|[E|[E|[E _]]]]; try done.
    rewrite peek_eq in E. injection E as ->. right; by left.
  - exists nR. rewrite Hw in Hv. apply log_lookup in Hv as [Hin ->].
    split; simpl; try done; try lia. destruct Hco as (Hlen & Hco). split; [done|].
    destruct Hco as [E|[E|[E|[E _]]]]; try done. injection E as ->.
    destruct (Z.eqb_spec (u32 (Z.of_nat nR)) (u32 (Z.of_nat i))) as [Heq|Hne].
    + right; right; by left.
    + do 3 right. rewrite slot_eq. split; [done|].
      assert (i <> nR) by by intros ->. simpl. lia.
  - exists nR. split; simpl; try done. by destruct Hco.
  - exists nR. split; simpl; try done. destruct Hco as (Hlen & Hco). split; [done|].
    destruct Hco as [E|[E|[E|[E ?]]]]; try done; by injection E as ->.
  - exists nR. destruct Hco as (Hlen & -> & Hlt). split; simpl; try done.
    + assert (nR < nW)%nat as Hlt' by lia. rewrite <- Hp in Hlt'.
      apply lookup_lt_is_Some in Hlt' as [it Hit].
      rewrite length_app, Hlen. simpl. rewrite Nat.add_1_r, (take_S_r _ _ it Hit), map_app.
      rewrite Hcon, Hlen at 1. simpl. do 2 f_equal. by apply (Hsl nR).
    + left. simpl. rewrite length_app. simpl. split; [lia|]. split; [done|]. split; [done|]. by left.
  - exists nR. rewrite Hr, log_last in Hv. injection Hv as <-. split; simpl; try done.
    destruct Hco as [(Hlen & -> & Hlt & Hco)|[_ E]]; [|done]. left.
    split; [done|]. split; [done|]. split; [done|].
    destruct Hco as [E|[E|[E|E]]]; try done.
    + rewrite release_eq in E. injection E as ->. right; by left.
    + injection E as ->. do 3 right. f_equal. unfold u32; zdm.
  - exists nR. rewrite Hw in Hv. apply log_lookup in Hv as [Hin ->].
    destruct Hco as [(Hlen & -> & Hlt & Hco)|[_ E]]; [|done].
    split; simpl; try done; try lia. left. split; [done|]. split; [done|]. split; [simpl; lia|].
    destruct Hco as [E|[E|[E|E]]]; try done. injection E as ->.
    rewrite (proj2 (Z.eqb_neq _ _)) by (rewrite counters_differ by lia; lia).
    rewrite slot_eq. simpl. unfold assert_ref.
    rewrite (proj2 (Z.eqb_neq _ 0)) by apply slot_pos. right; right; by left.
  - destruct Hco as [(Hlen & -> & Hlt & Hco)|[_ E]]; [|done]. exists (S nR).
    destruct Hco as [E|[E|[E|E]]]; try done. injection E as -> ->.
    split; simpl; try done; try lia.
    + rewrite Hr. apply log_snoc.
    + intros n it Hn. apply Hsl. lia.
    + right. done.
  - exists nR. split; simpl; try done. destruct Hco as [(_ & _ & _ & Hco)|[Hlen _]]; [|done].
    destruct Hco as [E|[E|[E|E]]]; done.
Qed.

Lemma reachable_inv m c : reachable q m c -> exists nW nR, inv c nW nR.
Proof.
  induction 1 as [|c c' _ (nW & nR & IH) Hs|c c' _ (nW & nR & IH) Hs].
  - exists 0%nat, 0%nat. apply inv_initial.
  - destruct (producer_step_inv c c' nW nR IH Hs) as [nW' ?]. eauto.
  - destruct (consumer_step_inv c c' nW nR IH Hs) as [nR' ?]. eauto.
Qed.

(** ** Alone: a bounded FIFO *)

(** [items], oldest first, are what the queue holds. *)
Definition represents (s : shared) (items : list (list Z)) : Prop :=
  exists nW nR : nat, written s = u32 (Z.of_nat nW) /\ read s = u32 (Z.of_nat nR)
    /\ nW = (nR + length items)%nat /\ Z.of_nat (length items) <= cap
    /\ forall i it, items !! i = Some it -> holds (bytes s) (nR + i) it.

Lemma run_push s items item :
  represents s items -> length item = width ->
  run (lh_spsc_push q item) s
  = (if Z.of_nat (length items) <? cap
     then Done (mk_shared (u32 (written s + 1)) (read s)
                  (write_bytes (bytes s) (lh_spsc_get_slot q (written s)) item), true)
     else Done (s, false)).
Proof.
  intros (nW & nR & Ew & Er & EW & Hle & _) Hlen. rewrite push_eq. simpl.
  rewrite Ew, Er, (counters_distance (Z.of_nat nR) (Z.of_nat nW)), Z.geb_leb by lia.
  destruct (Z.leb_spec cap (Z.of_nat nW - Z.of_nat nR)), (Z.ltb_spec (Z.of_nat (length items)) cap);
    try lia; [done|]. simpl. by rewrite Er.
Qed.
Lemma push_represents s items item :
  represents s items -> length item = width -> Z.of_nat (length items) < cap ->
  represents (mk_shared (u32 (written s + 1)) (read s)
                (write_bytes (bytes s) (lh_spsc_get_slot q (written s)) item)) (items ++ [item]).
Proof.
  intros (nW & nR & Ew & Er & -> & Hle & Hi) Hlen Hlt. exists (S (nR + length items)), nR.
  simpl. rewrite Ew, slot_eq. fold (zslot (nR + length items)).
  split; [unfold u32; zdm|]. split; [done|]. rewrite length_app. simpl.
  split; [lia|]. split; [lia|]. intros i it [[Hl Hit]|[-> <-]]%lookup_snoc_Some.
  - apply holds_copy; [done|lia|lia|]. by apply Hi.
  - unfold holds. rewrite <- Hlen. apply read_write_same.
Qed.
Lemma run_peek s items :
  represents s items ->
  run (lh_spsc_peek q) s
  = Done (s, match items with [] => 0 | _ => lh_spsc_get_slot q (read s) end).
Proof.
  intros (nW & nR & Ew & Er & EW & Hle & _). rewrite peek_eq. simpl. rewrite Ew, Er.
  destruct items as [|it items]; simpl in *.
  - replace nW with nR by lia. by rewrite Z.eqb_refl.
  - rewrite (proj2 (Z.eqb_neq _ _)); [done|]. rewrite counters_differ by lia. lia.
Qed.
Lemma run_release s items :
  represents s items ->
  run (lh_spsc_release q) s
  = match items with
    | [] => Fault lh_runtime_error_code_null_pointer
    | _ => Done (mk_shared (written s) (u32 (read s + 1)) (bytes s), tt)
    end.
Proof.
  intros (nW & nR & Ew & Er & EW & Hle & _). rewrite release_eq. simpl. rewrite Ew, Er.
  destruct items as [|it items]; simpl in *.
  - replace nW with nR by lia. by rewrite Z.eqb_refl.
  - rewrite (proj2 (Z.eqb_neq _ _)) by (rewrite counters_differ by lia; lia).
    rewrite slot_eq. simpl. unfold assert_ref.
    rewrite (proj2 (Z.eqb_neq _ 0)) by apply slot_pos. simpl. by rewrite Ew, Er.
Qed.
Lemma release_represents s it items :
  represents s (it :: items) ->
  represents (mk_shared (written s) (u32 (read s + 1)) (bytes s)) items.
Proof.
  intros (nW & nR & Ew & Er & EW & Hle & Hi). exists nW, (S nR). simpl in *. rewrite Er.
  split; [done|]. split; [unfold u32; zdm|]. split; [lia|]. split; [lia|].
  intros i it' Hit. replace (S (nR + i)) with (nR + S i)%nat by lia. by apply Hi.
Qed.
End Queue.

(** ** A concrete queue and run *)

Definition demo_queue : lh_spsc_t := mk_spsc 4096 2 2.
Lemma demo_shape : shape demo_queue 1.
Proof. split; simpl; try done; unfold LH_USIZE_T_MAX; lia. Qed.
Definition demo_mem : gmap Z Z := write_bytes ∅ 4096 [7; 8].
(** The record [7; 8] pushed and borrowed, the producer about to copy [9; 10]. *)
Definition demo_config : config :=
  mk_config (PPush [9; 10] (Copy 4098 [9; 10] (Set_written 2 (Ret true)))) (CBorrow 4096)
    [0; 1] [0] 0 1 demo_mem [[7; 8]] [].
Definition demo_push (p : prog bool) (rl : nat) : config :=
  mk_config (PPush [7; 8] p) CIdle [0] [0] rl 0 ∅ [] [].
Definition demo_copied : config :=
  mk_config (PPush [7; 8] (push_3 0)) CIdle [0] [0] 0 0 demo_mem [] [].
Definition demo_pushed (p : producer) (cs : consumer) (w : nat) : config :=
  mk_config p cs [0; 1] [0] 0 w demo_mem [[7; 8]] [].
(** Add one step to a reachable configuration. *)
Ltac reach c' st :=
  match goal with
  | H : reachable ?q ?m ?c |- _ =>
      let H' := fresh "H" in
      assert (reachable q m c') as H'
        by (first [exact (reach_prod q m c c' H st) | exact (reach_cons q m c c' H st)]);
      clear H
  end.
Lemma demo_reachable : reachable demo_queue ∅ demo_config.
Proof.
  pose proof (reach_init demo_queue ∅).
  reach (demo_push (lh_spsc_push demo_queue [7; 8]) 0)
    (p_start demo_queue (initial ∅) [7; 8] eq_refl eq_refl).
  reach (demo_push (push_1 demo_queue [7; 8] 0) 0)
    (p_get_written demo_queue (demo_push (lh_spsc_push demo_queue [7; 8]) 0) [7; 8]
            (push_1 demo_queue [7; 8]) 0 eq_refl eq_refl).
  reach (demo_push (push_2 demo_queue [7; 8] 0) 0)
    (p_get_read demo_queue (demo_push (push_1 demo_queue [7; 8] 0) 0) [7; 8]
            (fun r => if u32 (0 - r) >=? 2 then Ret false else push_2 demo_queue [7; 8] 0)
            0 0 eq_refl (le_n 0) eq_refl).
  reach (demo_copied)
    (p_copy demo_queue (demo_push (push_2 demo_queue [7; 8] 0) 0) [7; 8] (push_3 0) 4096 [7; 8] eq_refl).
  reach (demo_pushed (PPush [7; 8] (Ret true)) CIdle 0)
    (p_set_written demo_queue (demo_copied) [7; 8] (Ret true) 1 eq_refl).
  reach (demo_pushed PIdle CIdle 0)
    (p_return demo_queue (demo_pushed (PPush [7; 8] (Ret true)) CIdle 0) [7; 8] true eq_refl).
  reach (demo_pushed PIdle (CPeek (lh_spsc_peek demo_queue)) 0)
    (c_start demo_queue (demo_pushed PIdle CIdle 0) eq_refl).
  reach (demo_pushed PIdle (CPeek (peek_1 demo_queue 0)) 0)
    (c_peek_read demo_queue (demo_pushed PIdle (CPeek (lh_spsc_peek demo_queue)) 0) (peek_1 demo_queue) 0 eq_refl eq_refl).
  reach (demo_pushed PIdle (CPeek (Ret 4096)) 1)
    (c_peek_written demo_queue (demo_pushed PIdle (CPeek (peek_1 demo_queue 0)) 0)
            (fun w => if 0 =? w then Ret 0 else Ret (lh_spsc_get_slot demo_queue 0))
            1 1 eq_refl (le_S 0 0 (le_n 0)) eq_refl).
  reach (demo_pushed PIdle (CBorrow 4096) 1)
    (c_borrow demo_queue (demo_pushed PIdle (CPeek (Ret 4096)) 1) 4096 eq_refl ltac:(discriminate)).
  reach (demo_pushed (PPush [9; 10] (lh_spsc_push demo_queue [9; 10])) (CBorrow 4096) 1)
    (p_start demo_queue (demo_pushed PIdle (CBorrow 4096) 1) [9; 10] eq_refl eq_refl).
  reach (demo_pushed (PPush [9; 10] (push_1 demo_queue [9; 10] 1)) (CBorrow 4096) 1)
    (p_get_written demo_queue (demo_pushed (PPush [9; 10] (lh_spsc_push demo_queue [9; 10])) (CBorrow 4096) 1) [9; 10]
            (push_1 demo_queue [9; 10]) 1 eq_refl eq_refl).
  reach (demo_config)
    (p_get_read demo_queue (demo_pushed (PPush [9; 10] (push_1 demo_queue [9; 10] 1)) (CBorrow 4096) 1) [9; 10]
            (fun r => if u32 (1 - r) >=? 2 then Ret false else push_2 demo_queue [9; 10] 1)
            0 0 eq_refl (le_n 0) eq_refl).
  assumption.
Qed.

(** ** Properties *)

(** Claim C7: in every interleaving of the producer's and the consumer's shared
    actions, with each reading the other's counter as stale as acquire order
    allows, the consumer reads exactly the records pushed, in order and whole,
    across the wrap of the 32-bit counters; no more than [capacity] are in
    flight; and no program ever reaches a failed check. *)
Theorem spsc_fifo_intact q k m c :
  shape q k -> reachable q m c ->
  consumed c = map (map Some) (take (length (consumed c)) (pushed c))
  /\ (length (read_log c) <= length (written_log c))%nat
  /\ Z.of_nat (length (written_log c)) <= Z.of_nat (length (read_log c)) + capacity q
  /\ (forall item code, prod c <> PPush item (Fail code))
  /\ (forall code, cons c <> CPeek (Fail code))
  /\ (forall slot code, cons c <> CRelease slot (Fail code)).
Proof.
  intros Hq Hr. destruct (reachable_inv q k Hq m c Hr) as (nW & nR & H).
  destruct H as [Hw Hrd Hp Ho Hsr Hsw Hroom Hsl Hcon Hpr Hco].
  split; [done|]. rewrite Hw, Hrd. unfold log. rewrite !length_map, !length_seq.
  unfold cap in Hroom. split; [lia|]. split; [lia|]. split; [|split].
  - intros item code E. unfold producer_at in Hpr. rewrite E in Hpr.
    destruct Hpr as (_ & [?|[?|[(_ & [?|[? _]])|[b ?]]]]); discriminate.
  - intros code E. unfold consumer_at in Hco. rewrite E in Hco.
    destruct Hco as (_ & [?|[?|[?|[? _]]]]); discriminate.
  - intros s code E. unfold consumer_at in Hco. rewrite E in Hco.
    destruct Hco as [(_ & _ & _ & [?|[?|[?|?]]])|[_ ?]]; discriminate.
Qed.

Lemma spsc_fifo_intact_witness :
  consumed demo_config
  = map (map Some) (take (length (consumed demo_config)) (pushed demo_config))
  /\ (length (read_log demo_config) <= length (written_log demo_config))%nat
  /\ Z.of_nat (length (written_log demo_config))
     <= Z.of_nat (length (read_log demo_config)) + capacity demo_queue
  /\ (forall item code, prod demo_config <> PPush item (Fail code))
  /\ (forall code, cons demo_config <> CPeek (Fail code))
  /\ (forall slot code, cons demo_config <> CRelease slot (Fail code)).
Proof.
  apply (spsc_fifo_intact demo_queue 1 ∅ demo_config).
  - apply demo_shape.
  - apply demo_reachable.
Defined.

(** Claim C8: the record bytes are free of data races.  When the producer is
    about to copy record number [n], every earlier record of that slot has been
    released by a store the producer acquired; when the consumer holds record
    [n], it has acquired the store that published it, the bytes are the ones
    pushed, and the producer's copy is in a disjoint slot. *)
Theorem spsc_no_data_race q k m c :
  shape q k -> reachable q m c ->
  (forall item a bs p, prod c = PPush item (Copy a bs p) ->
     bs = item /\ a = slot q (Z.of_nat (length (pushed c)))
     /\ Z.of_nat (length (pushed c)) < Z.of_nat (seen_read c) + capacity q
     /\ (forall s, cons c = CBorrow s -> a + item_size q <= s \/ s + item_size q <= a))
  /\ (forall s, cons c = CBorrow s ->
        s = slot q (Z.of_nat (length (consumed c)))
        /\ (length (consumed c) < seen_written c)%nat
        /\ exists item, pushed c !! length (consumed c) = Some item
             /\ read_bytes (mem c) s (Z.to_nat (item_size q)) = map Some item).
Proof.
  intros Hq Hr. destruct (reachable_inv q k Hq m c Hr) as (nW & nR & H).
  destruct H as [Hw Hrd Hp Ho Hsr Hsw Hroom Hsl Hcon Hpr Hco]. split.
  - intros item a bs p E. unfold producer_at in Hpr. rewrite E in Hpr.
    destruct Hpr as (_ & [?|[?|[(Hlt & [E'|[? _]])|[b ?]]]]); try discriminate.
    injection E' as -> -> ->. rewrite (slot_eq q k Hq), Hp.
    split; [done|]. split; [done|]. split; [done|]. intros s Es.
    unfold consumer_at in Hco. rewrite Es in Hco. destruct Hco as (_ & -> & Hlt').
    apply (slots_disjoint q k Hq); lia.
  - intros s E. unfold consumer_at in Hco. rewrite E in Hco. destruct Hco as (Hlen & -> & Hlt).
    rewrite Hlen. split; [done|]. split; [done|].
    assert (nR < nW)%nat as Hlt' by lia. rewrite <- Hp in Hlt'.
    apply lookup_lt_is_Some in Hlt' as [it Hit]. exists it. split; [done|]. by apply (Hsl nR).
Qed.

Lemma spsc_no_data_race_witness :
  (forall item a bs p, prod demo_config = PPush item (Copy a bs p) ->
     bs = item /\ a = slot demo_queue (Z.of_nat (length (pushed demo_config)))
     /\ Z.of_nat (length (pushed demo_config))
        < Z.of_nat (seen_read demo_config) + capacity demo_queue
     /\ (forall s, cons demo_config = CBorrow s ->
           a + item_size demo_queue <= s \/ s + item_size demo_queue <= a))
  /\ (forall s, cons demo_config = CBorrow s ->
        s = slot demo_queue (Z.of_nat (length (consumed demo_config)))
        /\ (length (consumed demo_config) < seen_written demo_config)%nat
        /\ exists item, pushed demo_config !! length (consumed demo_config) = Some item
             /\ read_bytes (mem demo_config) s (Z.to_nat (item_size demo_queue)) = map Some item).
Proof.
  apply (spsc_no_data_race demo_queue 1 ∅ demo_config).
  - apply demo_shape.
  - apply demo_reachable.
Defined.

(** Claim C9: used by one thread the queue is a bounded FIFO: a push succeeds
    exactly when fewer than [capacity] records are held and appends its record,
    peek gives the oldest record's bytes or null, release drops it, and release
    of an empty queue ends in [lh_runtime_error_code_null_pointer]. *)
Theorem spsc_is_bounded_fifo q k s items item :
  shape q k -> represents q s items -> Z.of_nat (length item) = item_size q ->
  (exists s', run (lh_spsc_push q item) s
              = Done (s', Z.of_nat (length items) <? capacity q)
     /\ represents q s' (if Z.of_nat (length items) <? capacity q
                         then items ++ [item] else items))
  /\ match items with
     | [] => run (lh_spsc_peek q) s = Done (s, 0)
             /\ run (lh_spsc_release q) s = Fault lh_runtime_error_code_null_pointer
     | oldest :: rest =>
       (exists p, run (lh_spsc_peek q) s = Done (s, p) /\ p <> 0
          /\ read_bytes (bytes s) p (Z.to_nat (item_size q)) = map Some oldest)
       /\ exists s', run (lh_spsc_release q) s = Done (s', tt) /\ represents q s' rest
     end.
Proof.
  intros Hq Hr Hi. assert (length item = width q) as Hlen by (unfold width; lia).
  change (capacity q) with (cap q). split.
  - rewrite (run_push q k Hq s items item Hr Hlen).
    destruct (Z.ltb_spec (Z.of_nat (length items)) (cap q)); eexists; (split; [done|]); [|done].
    by eapply push_represents.
  - rewrite (run_peek q k Hq s items Hr), (run_release q k Hq s items Hr).
    destruct items as [|it items]; [done|]. split.
    + pose proof Hr as (nW & nR & _ & Er & _ & _ & Hh). eexists. split; [done|].
      rewrite Er, (slot_eq q k Hq). split; [by eapply slot_pos|].
      specialize (Hh 0%nat it eq_refl). by rewrite Nat.add_0_r in Hh.
    + eexists. split; [done|]. by eapply release_represents.
Qed.

Lemma spsc_is_bounded_fifo_witness :
  (exists s', run (lh_spsc_push demo_queue [7; 8]) (mk_shared 0 0 ∅) = Done (s', true)
     /\ represents demo_queue s' [[7; 8]])
  /\ run (lh_spsc_peek demo_queue) (mk_shared 0 0 ∅) = Done (mk_shared 0 0 ∅, 0)
  /\ run (lh_spsc_release demo_queue) (mk_shared 0 0 ∅)
     = Fault lh_runtime_error_code_null_pointer.
Proof.
  apply (spsc_is_bounded_fifo demo_queue 1 (mk_shared 0 0 ∅) [] [7; 8]).
  - apply demo_shape.
  - exists 0%nat, 0%nat. split; [reflexivity|]. split; [reflexivity|]. split; [reflexivity|].
    split; [vm_compute; discriminate|]. intros i it Hit. discriminate Hit.
  - reflexivity.
Defined.

(** [lh_spsc_create] succeeds exactly for a non-null storage, a
    capacity that is a power of two up to [2^30], a record size whose product
    with it fits [lh_usize_t], an allocator with both callbacks that allocates,
    and a lock-free target; the queue then has that shape and is empty. *)
Theorem spsc_create_shape runtime lock_free s c n :
  is_u64 s -> is_u32 c -> is_u64 n ->
  match lh_spsc_create runtime lock_free s c n with
  | Some (q, (w, r)) =>
      q = mk_spsc s c n /\ (exists k, shape q k) /\ forall m, represents q (mk_shared w r m) []
  | None => ~ (exists k, shape (mk_spsc s c n) k) \/ lock_free = false
            \/ alloc_cb runtime = false \/ dealloc_cb runtime = false
            \/ try_alloc runtime = None
  end.
Proof.
  intros Hs Hc Hn. unfold lh_spsc_create. pose proof (valid_shape_iff s c n Hs Hc Hn) as Hv.
  destruct (lh_spsc_is_valid_shape s c n); simpl.
  2: { left. intros Hk. by apply Hv in Hk. }
  destruct (alloc_cb runtime), (dealloc_cb runtime); simpl; auto 10.
  destruct (try_alloc runtime) as [q|]; simpl; auto 10.
  destruct lock_free; simpl; auto 10. split; [done|].
  destruct Hv as [Hv _]. destruct (Hv eq_refl) as [k Hk]. split; [by exists k|].
  intros m. exists 0%nat, 0%nat. split; [done|]. split; [done|]. split; [done|].
  pose proof (cap_bounds _ _ Hk). unfold cap in *. simpl in *. split; [lia|].
  intros i it Hit. by rewrite lookup_nil in Hit.
Qed.

Lemma spsc_create_shape_witness :
  match lh_spsc_create (mk_allocator true true (Some (mk_spsc 0 0 0))) true 4096 8 16 with
  | Some (q, (w, r)) =>
      q = mk_spsc 4096 8 16 /\ (exists k, shape q k)
      /\ forall m, represents q (mk_shared w r m) []
  | None => ~ (exists k, shape (mk_spsc 4096 8 16) k) \/ true = false
            \/ true = false \/ true = false \/ Some (mk_spsc 0 0 0) = None
  end.
Proof.
  apply (spsc_create_shape (mk_allocator true true (Some (mk_spsc 0 0 0))) true 4096 8 16); zb.
Defined.
