(* ===== verification/Buffer.v ===== *)
(** * Byte buffers

    A C array is the list of its elements; an index or a copy outside it is
    undefined behaviour.  A pointer argument that the code compares with null is
    an [option]: [None] is the null pointer.  [copy_bytes] is what
    [lh_memory_std_copy] and [lh_memory_std_move] promise (the bytes arrive, the
    ranges have to be inside their objects), which [MemoryProofs] shows of their
    portable bodies; the vectorised ones are not modelled.  [filled p out] is [out] after its first bytes became [p],
    which is the state every builder of a frame goes through. *)
From S2P Require Import Prelude.

Notation buffer := (list Z).

(** The length of a list as the [Z] the code compares. *)
Notation len l := (Z.of_nat (length l)).

Definition load {A} (b : list A) (i : Z) : outcome A :=
  if i <? 0 then Undef else
  match b !! Z.to_nat i with Some v => Done v | None => Undef end.
Definition put {A} (b : list A) (i : Z) (v : A) : outcome (list A) :=
  if (0 <=? i) && (i <? len b) then Done (<[Z.to_nat i := v]> b) else Undef.
(** [n] bytes from [src] to [dst + at_]; a source pointer [&src[k]] is [drop k src]. *)
Definition copy_bytes (dst : buffer) (at_ : Z) (src : buffer) (n : Z) : outcome buffer :=
  if (0 <=? at_) && (0 <=? n) && (at_ + n <=? len dst) && (n <=? len src)
  then Done (take (Z.to_nat at_) dst ++ take (Z.to_nat n) src
             ++ drop (Z.to_nat (at_ + n)) dst)
  else Undef.
(** A local array before anything is stored in it. *)
Definition local (n : Z) : buffer := replicate (Z.to_nat n) 0.
(** [if (p != lh_null) { *p = v; }] *)
Definition set_out {A} (p : option A) (v : A) : option A := (fun _ => v) <$> p.

Definition is_bytes (b : buffer) : Prop := Forall is_u8 b.
Definition is_words (b : buffer) : Prop := Forall is_u16 b.

(** ** Laws *)

Lemma load_ok {A} (b : list A) i v : b !! i = Some v -> load b (Z.of_nat i) = Done v.
Proof.
  intros Hb. unfold load. destruct (Z.ltb_spec (Z.of_nat i) 0); [lia|].
  by rewrite Nat2Z.id, Hb.
Qed.
Lemma load_nth (b : buffer) i : 0 <= i < len b -> load b i = Done (nth (Z.to_nat i) b 0).
Proof.
  intros Hi. rewrite <-(Z2Nat.id i) at 1 by lia. apply load_ok.
  rewrite nth_lookup.
  destruct (lookup_lt_is_Some_2 b (Z.to_nat i)) as [v ->]; [lia|done].
Qed.
Lemma load_byte b i : is_bytes b -> 0 <= i < len b -> exists v, load b i = Done v /\ is_u8 v.
Proof.
  intros Hb Hi. destruct (lookup_lt_is_Some_2 b (Z.to_nat i)) as [v Hv]; [lia|].
  exists v. split; [|by eapply Forall_lookup_1].
  rewrite <-(Z2Nat.id i) by lia. by apply load_ok.
Qed.
Lemma load_app_l {A} (b c : list A) i : 0 <= i < len b -> load (b ++ c) i = load b i.
Proof.
  intros Hi. unfold load. by rewrite lookup_app_l by lia.
Qed.
Lemma load_app_r {A} (b c : list A) i : len b <= i -> load (b ++ c) i = load c (i - len b).
Proof.
  intros Hi. unfold load. rewrite lookup_app_r by lia.
  destruct (Z.ltb_spec i 0), (Z.ltb_spec (i - len b) 0); try lia.
  by replace (Z.to_nat (i - len b)) with (Z.to_nat i - length b)%nat by lia.
Qed.
Lemma load_undef {A} (b : list A) i : len b <= i -> load b i = Undef.
Proof.
  intros Hi. unfold load. destruct (i <? 0); [done|].
  by rewrite lookup_ge_None_2 by lia.
Qed.
Lemma load_drop {A} (b : list A) k i : 0 <= i -> load (drop k b) i = load b (Z.of_nat k + i).
Proof.
  intros Hi. unfold load. destruct (Z.ltb_spec i 0), (Z.ltb_spec (Z.of_nat k + i) 0); try lia.
  rewrite lookup_drop. by replace (Z.to_nat (Z.of_nat k + i)) with (k + Z.to_nat i)%nat by lia.
Qed.
Lemma load_take {A} (b : list A) k i : i < Z.of_nat k -> load (take k b) i = load b i.
Proof.
  intros Hi. unfold load. destruct (Z.ltb_spec i 0); [done|].
  by rewrite lookup_take_lt by lia.
Qed.

Lemma put_ok {A} (b : list A) i v : 0 <= i < len b -> put b i v = Done (<[Z.to_nat i := v]> b).
Proof.
  intros Hi. unfold put. by rewrite (proj2 (Z.leb_le _ _)), (proj2 (Z.ltb_lt _ _)) by lia.
Qed.
Lemma put_undef {A} (b : list A) i v : len b <= i -> put b i v = Undef.
Proof.
  intros Hi. unfold put. rewrite (proj2 (Z.ltb_ge i _)) by lia. by rewrite andb_false_r.
Qed.
Lemma put_inv {A} (b : list A) i v b' :
  put b i v = Done b' -> 0 <= i < len b /\ b' = <[Z.to_nat i := v]> b.
Proof.
  unfold put. destruct (Z.leb_spec 0 i); simpl; [|done].
  destruct (Z.ltb_spec i (len b)); simpl; [|done]. by intros [= <-].
Qed.

Lemma copy_ok dst a src n :
  0 <= a -> 0 <= n -> a + n <= len dst -> n <= len src ->
  copy_bytes dst a src n
  = Done (take (Z.to_nat a) dst ++ take (Z.to_nat n) src ++ drop (Z.to_nat (a + n)) dst).
Proof.
  intros. unfold copy_bytes. by rewrite !(proj2 (Z.leb_le _ _)) by lia.
Qed.
Lemma copy_undef dst a src n : len dst < a + n -> copy_bytes dst a src n = Undef.
Proof.
  intros. unfold copy_bytes. rewrite (proj2 (Z.leb_gt (a + n) _)) by lia.
  by rewrite andb_false_r.
Qed.
Lemma copy_length dst a src n b : copy_bytes dst a src n = Done b -> length b = length dst.
Proof.
  unfold copy_bytes. zcases; intros [= <-].
  rewrite !length_app, !length_take, length_drop. lia.
Qed.

Lemma length_local n : 0 <= n -> len (local n) = n.
Proof. intros. unfold local. rewrite length_replicate. lia. Qed.

(** ** Filling a buffer from its start *)

Definition filled {A} (p out : list A) : list A := p ++ drop (length p) out.

Lemma filled_nil {A} (out : list A) : filled [] out = out.
Proof. done. Qed.
Lemma length_filled {A} (p out : list A) : (length p <= length out)%nat -> length (filled p out) = length out.
Proof. intros. unfold filled. rewrite length_app, length_drop. lia. Qed.
Lemma take_filled {A} (p out : list A) : take (length p) (filled p out) = p.
Proof. unfold filled. by rewrite take_app_length. Qed.
Lemma put_filled {A} (p out : list A) i v :
  i = len p -> (length p < length out)%nat ->
  put (filled p out) i v = Done (filled (p ++ [v]) out).
Proof.
  intros -> Hl. rewrite put_ok by (rewrite length_filled; lia).
  f_equal. unfold filled. rewrite Nat2Z.id, insert_app_r_alt, Nat.sub_diag by lia.
  destruct (drop (length p) out) as [|x r] eqn:E.
  { apply (f_equal length) in E. rewrite length_drop in E. simpl in E. lia. }
  simpl. rewrite <-app_assoc, length_app. simpl. do 2 f_equal.
  rewrite <-drop_drop, E. done.
Qed.
Lemma copy_filled p out a s n :
  a = len p -> 0 <= n <= len s -> (length p + Z.to_nat n <= length out)%nat ->
  copy_bytes (filled p out) a s n = Done (filled (p ++ take (Z.to_nat n) s) out).
Proof.
  intros -> Hn Hl. rewrite copy_ok by (try rewrite length_filled; lia).
  f_equal. unfold filled at 1 2. rewrite Nat2Z.id, take_app_length.
  unfold filled. rewrite <-app_assoc, length_app, length_take, drop_app_ge by lia.
  rewrite drop_drop. do 3 f_equal. lia.
Qed.
(** [put] at the end of what was put before. *)
Lemma put_next {A} (dn : list A) x y tl : put (dn ++ y :: tl) (len dn) x = Done ((dn ++ [x]) ++ tl).
Proof.
  unfold put. rewrite (proj2 (Z.leb_le _ _)), (proj2 (Z.ltb_lt _ _)) by (rewrite ?length_app; cbn [length]; lia). cbn [andb].
  rewrite Nat2Z.id, insert_app_r_alt, Nat.sub_diag by lia. by rewrite <-app_assoc.
Qed.
Lemma load_filled {A} (p out : list A) i : 0 <= i < len p -> load (filled p out) i = load p i.
Proof. apply load_app_l. Qed.

(** ** The first element that passes a test *)

Fixpoint index_of {A} (p : A -> bool) (s : list A) : option nat :=
  match s with
  | [] => None
  | c :: s => if p c then Some O else S <$> index_of p s
  end.
Lemma index_of_none {A} (p : A -> bool) s : index_of p s = None <-> Forall (fun c => p c = false) s.
Proof.
  induction s as [|c s IH]; cbn [index_of]; [done|]. rewrite Forall_cons. destruct (p c) eqn:E.
  - split; [done|]. by intros [? _].
  - rewrite fmap_None, IH. tauto.
Qed.
Lemma index_of_some {A} (p : A -> bool) x c r : Forall (fun c => p c = false) x -> p c = true ->
  index_of p (x ++ c :: r) = Some (length x).
Proof.
  intros Hx Hc. induction Hx as [|a x Ha Hx IH]; cbn [index_of app length].
  - by rewrite Hc.
  - by rewrite Ha, IH.
Qed.

Lemma index_of_app {A} (p : A -> bool) s t :
  index_of p (s ++ t)
  = match index_of p s with Some i => Some i | None => Nat.add (length s) <$> index_of p t end.
Proof.
  induction s as [|c s IH]; cbn [index_of app length]; [by destruct (index_of p t)|].
  destruct (p c); [done|]. rewrite IH. destruct (index_of p s); [done|]. by destruct (index_of p t).
Qed.
Lemma index_of_inv {A} (p : A -> bool) s i : index_of p s = Some i ->
  exists c, s !! i = Some c /\ p c = true /\ (i < length s)%nat /\
    Forall (fun c => p c = false) (take i s).
Proof.
  revert i. induction s as [|c s IH]; intros i; cbn [index_of]; [done|]. destruct (p c) eqn:E.
  - intros [= <-]. exists c. split_and!; try done. simpl. lia.
  - destruct (index_of p s) as [j|]; [|done]. intros [= <-].
    destruct (IH j eq_refl) as (d & Hd & Hp & Hl & Ht). exists d. split_and!; try done; [simpl; lia|].
    by constructor.
Qed.
Lemma index_of_ext {A} (p q : A -> bool) s : Forall (fun c => p c = q c) s -> index_of p s = index_of q s.
Proof. induction 1 as [|c s Hc Hs IH]; cbn [index_of]; [done|]. by rewrite Hc, IH. Qed.
Lemma index_of_map {A B} (f : A -> B) (p : B -> bool) s : index_of p (map f s) = index_of (fun c => p (f c)) s.
Proof. induction s as [|c s IH]; cbn [index_of map]; [done|]. by rewrite IH. Qed.

(** ** Big-endian 16-bit words *)

Definition hi (w : Z) : Z := u8 (Z.land (Z.shiftr w 8) 255).
Definition lo (w : Z) : Z := u8 (Z.land w 255).
Definition be16 (h l : Z) : Z := u16 (Z.lor (Z.shiftl h 8) l).

Lemma lo_mod w : lo w = w mod 256.
Proof. unfold lo. change 255 with (Z.ones 8). rewrite Z.land_ones by lia. zdm. Qed.
Lemma hi_div w : hi w = (w / 256) mod 256.
Proof.
  unfold hi. change 255 with (Z.ones 8).
  rewrite Z.land_ones, Z.shiftr_div_pow2 by lia. zdm.
Qed.
Lemma testbit_above x w n : 0 <= x < 2 ^ w -> 0 <= w <= n -> Z.testbit x n = false.
Proof.
  intros Hx Hn. pose proof (Z.pow_le_mono_r 2 w n ltac:(lia) ltac:(lia)).
  rewrite Z.testbit_false by lia. by rewrite Z.div_small by lia.
Qed.
Lemma land_bytes h l : is_u8 l -> Z.land (Z.shiftl h 8) l = 0.
Proof.
  intros Hl. apply Z.bits_inj'; intros n Hn. rewrite Z.land_spec, Z.bits_0.
  destruct (Z.ltb_spec n 8).
  - by rewrite Z.shiftl_spec_low by lia.
  - rewrite (testbit_above l 8), andb_false_r; [done|zb|lia].
Qed.
Lemma lxor_bytes h l : is_u8 l -> Z.lxor (Z.shiftl h 8) l = 256 * h + l.
Proof.
  intros Hl. rewrite <-Z.add_nocarry_lxor by by apply land_bytes.
  rewrite Z.shiftl_mul_pow2 by lia. lia.
Qed.
Lemma lor_bytes h l : is_u8 l -> Z.lor (Z.shiftl h 8) l = 256 * h + l.
Proof. intros Hl. rewrite <-Z.lxor_lor by by apply land_bytes. by apply lxor_bytes. Qed.
Lemma be16_val h l : is_u8 h -> is_u8 l -> be16 h l = 256 * h + l.
Proof. intros. unfold be16. rewrite lor_bytes by done. cint. done. Qed.
Lemma be16_hi_lo w : is_u16 w -> be16 (hi w) (lo w) = w.
Proof.
  intros. rewrite be16_val, hi_div, lo_mod; [zdm|..];
    rewrite ?hi_div, ?lo_mod; zdm.
Qed.
Lemma hi_u8 w : is_u8 (hi w).
Proof. apply u8_range. Qed.
Lemma lo_u8 w : is_u8 (lo w).
Proof. apply u8_range. Qed.
#[export] Hint Resolve hi_u8 lo_u8 : cint.

(** The words as they go over the wire, and back. *)
Definition be_bytes (ws : list Z) : list Z := ws ≫= (fun w => [hi w; lo w]).
Fixpoint be_words (bs : list Z) : list Z :=
  match bs with h :: l :: r => be16 h l :: be_words r | _ => [] end.

Lemma be_bytes_cons w ws : be_bytes (w :: ws) = hi w :: lo w :: be_bytes ws.
Proof. done. Qed.
Lemma length_be_bytes ws : length (be_bytes ws) = (2 * length ws)%nat.
Proof.
  induction ws as [|w ws IH]; [done|]. rewrite be_bytes_cons. simpl length. lia.
Qed.
Lemma be_words_bytes ws : is_words ws -> be_words (be_bytes ws) = ws.
Proof.
  induction 1 as [|w ws Hw _ IH]; [done|].
  rewrite be_bytes_cons. cbn [be_words]. by rewrite be16_hi_lo, IH.
Qed.
Lemma be_bytes_u8 ws : is_bytes (be_bytes ws).
Proof.
  induction ws as [|w ws IH]; [constructor|]. rewrite be_bytes_cons.
  repeat constructor; try done; (apply hi_u8 || apply lo_u8).
Qed.

(** Bounds of the elements of a list built from pieces. *)
Ltac bytes :=
  repeat first
    [ done | apply Forall_nil_2 | apply Forall_cons_2 | apply Forall_app_2
    | apply hi_u8 | apply lo_u8 | apply Forall_take | apply Forall_drop
    | (progress unfold is_bytes, is_words) | solve [zb] ].

(** Run loads at literal offsets of a list whose head is known. *)
Ltac run_loads :=
  repeat match goal with |- context [load (?a :: ?r) ?i] =>
    let k := eval vm_compute in (Z.to_nat i) in
    rewrite (load_ok (a :: r) k _ eq_refl : load (a :: r) i = Done _), bind_done end.
