(* ===== verification/Bytes.v ===== *)
(** * Arrays of bytes, counted loops, words in byte order

    What the parts that work on arrays share: [byte_at], the byte at a place, and lists
    described by it; [for_up], the loop [for (i = from; i < to; ++i)]; the effect of
    [lh_memory_std_set] and [lh_memory_std_xor] on arrays, which [MemoryProofs] shows of
    their bodies; and [bit/endian.h], [bit/half.h] and [bit/rotate.h]. *)
From S2P Require Import Prelude Buffer.
From Stdlib Require Import btauto.Btauto.

(** An identity of exclusive ors, bit by bit. *)
Ltac xor_ac := apply Z.bits_inj'; intros ? _; rewrite ?Z.lxor_spec; btauto.

(** [lh_assert_runtime_ref] on a pointer to an array or an out-parameter. *)
Definition assert_set {A} (p : option A) : outcome A :=
  match p with Some v => Done v | None => Fault lh_runtime_error_code_null_pointer end.
(** [lh_memory_std_set]: [n] bytes [v] from [at_] on. *)
Definition set_bytes (b : buffer) (at_ v n : Z) : outcome buffer :=
  copy_bytes b at_ (replicate (Z.to_nat n) v) n.
(** [lh_memory_std_xor]: [n] bytes of [l] and [r] into [dst], which may be either of them. *)
Definition xor_into (dst l r : buffer) (n : Z) : outcome buffer :=
  if (n <=? len l) && (n <=? len r)
  then copy_bytes dst 0 (zip_with Z.lxor (take (Z.to_nat n) l) (take (Z.to_nat n) r)) n
  else Undef.

(** [for (i = from; i < to; ++i)] over the state [a]. *)
Fixpoint for_steps {A} (n : nat) (i : Z) (body : Z -> A -> outcome A) (a : A) : outcome A :=
  match n with
  | O => mret a
  | S n => a ← body i a; for_steps n (i + 1) body a
  end.
Definition for_up {A} (from to : Z) (body : Z -> A -> outcome A) (a : A) : outcome A :=
  for_steps (Z.to_nat (to - from)) from body a.

(** ** [bit/endian.h], [bit/half.h], [bit/rotate.h] *)

Definition lh_bit_pack_be32 (value : Z) (out : buffer) (at_ : Z) : outcome buffer :=
  out ← put out at_ (u8 (Z.shiftr value 24));
  out ← put out (at_ + 1) (u8 (Z.shiftr value 16));
  out ← put out (at_ + 2) (u8 (Z.shiftr value 8));
  put out (at_ + 3) (u8 value).
Definition lh_bit_unpack_be32 (b : buffer) (at_ : Z) : outcome Z :=
  b0 ← load b at_;
  b1 ← load b (at_ + 1);
  b2 ← load b (at_ + 2);
  b3 ← load b (at_ + 3);
  mret (Z.lor (Z.lor (u32 (Z.shiftl b0 24)) (u32 (Z.shiftl b1 16)))
              (Z.lor (u32 (Z.shiftl b2 8)) b3)).
Definition lh_bit_make_u64 (high low : Z) : Z := Z.lor (u64 (Z.shiftl high 32)) low.
Definition lh_bit_get_high_u32 (x : Z) : Z := u32 (Z.shiftr x 32).
Definition lh_bit_get_low_u32 (x : Z) : Z := u32 x.
Definition lh_bit_pack_be64 (value : Z) (out : buffer) (at_ : Z) : outcome buffer :=
  out ← lh_bit_pack_be32 (lh_bit_get_high_u32 value) out at_;
  lh_bit_pack_be32 (lh_bit_get_low_u32 value) out (at_ + 4).
Definition lh_bit_unpack_be64 (b : buffer) (at_ : Z) : outcome Z :=
  high ← lh_bit_unpack_be32 b at_;
  low ← lh_bit_unpack_be32 b (at_ + 4);
  mret (lh_bit_make_u64 high low).

Definition lh_bit_rotate_left_u32 (x r : Z) : Z :=
  let r := Z.land r 31 in
  if r =? 0 then x else Z.lor (u32 (Z.shiftl x r)) (Z.shiftr x (32 - r)).
Definition lh_bit_rotate_right_u32 (x r : Z) : Z :=
  let r := Z.land r 31 in
  if r =? 0 then x else Z.lor (Z.shiftr x r) (u32 (Z.shiftl x (32 - r))).
Definition lh_bit_rotate_left_u64 (x r : Z) : Z :=
  let r := Z.land r 63 in
  if r =? 0 then x else Z.lor (u64 (Z.shiftl x r)) (Z.shiftr x (64 - r)).
Definition lh_bit_rotate_right_u64 (x r : Z) : Z :=
  let r := Z.land r 63 in
  if r =? 0 then x else Z.lor (Z.shiftr x r) (u64 (Z.shiftl x (64 - r))).

(** ** The byte at a place *)

Definition byte_at (m : buffer) (i : Z) : Z := nth (Z.to_nat i) m 0.

Lemma byte_at_load m i : 0 <= i < len m -> load m i = Done (byte_at m i).
Proof. apply load_nth. Qed.
Lemma byte_at_u8 m i : is_bytes m -> is_u8 (byte_at m i).
Proof.
  intros Hm. unfold byte_at. rewrite nth_lookup. destruct (m !! Z.to_nat i) as [b|] eqn:E; [|cbn; zb].
  by eapply Forall_lookup_1.
Qed.
Lemma byte_at_app_l a b i : 0 <= i < len a -> byte_at (a ++ b) i = byte_at a i.
Proof. intros Hi. unfold byte_at. apply app_nth1. lia. Qed.
Lemma byte_at_app_r a b i : len a <= i -> byte_at (a ++ b) i = byte_at b (i - len a).
Proof.
  intros Hi. unfold byte_at. rewrite app_nth2 by lia. f_equal. lia.
Qed.
Lemma byte_at_drop m k i : 0 <= i -> byte_at (drop k m) i = byte_at m (Z.of_nat k + i).
Proof.
  intros Hi. unfold byte_at. rewrite !nth_lookup, lookup_drop. do 2 f_equal. lia.
Qed.
Lemma byte_at_take m k i : i < Z.of_nat k -> 0 <= i -> byte_at (take k m) i = byte_at m i.
Proof. intros Hi H0. unfold byte_at. rewrite !nth_lookup, lookup_take_lt by lia. done. Qed.
Lemma bytes_of_byte_at m : (forall i, 0 <= i < len m -> is_u8 (byte_at m i)) -> is_bytes m.
Proof.
  intros H. apply Forall_lookup_2. intros i b Hb. pose proof (lookup_lt_Some _ _ _ Hb).
  specialize (H (Z.of_nat i) ltac:(lia)). unfold byte_at in H. by rewrite Nat2Z.id, nth_lookup, Hb in H.
Qed.
Lemma byte_at_ext m1 m2 : len m1 = len m2 -> (forall i, 0 <= i < len m1 -> byte_at m1 i = byte_at m2 i) -> m1 = m2.
Proof.
  intros Hl H. apply (list_eq_same_length _ _ (length m1)); [lia|done|]. intros i x y Hi Hx Hy.
  specialize (H (Z.of_nat i) ltac:(lia)). unfold byte_at in H. by rewrite Nat2Z.id, !nth_lookup, Hx, Hy in H.
Qed.
Lemma byte_at_replicate k v i : 0 <= i < Z.of_nat k -> byte_at (replicate k v) i = v.
Proof. intros Hi. unfold byte_at. rewrite nth_lookup, lookup_replicate_2 by lia. done. Qed.
Lemma byte_at_zip g a b i : length a = length b -> 0 <= i < len a ->
  byte_at (zip_with g a b) i = g (byte_at a i) (byte_at b i).
Proof.
  intros Hl Hi. unfold byte_at. rewrite !nth_lookup, lookup_zip_with.
  destruct (lookup_lt_is_Some_2 a (Z.to_nat i)) as [x ->]; [lia|].
  by destruct (lookup_lt_is_Some_2 b (Z.to_nat i)) as [y ->]; [lia|].
Qed.
Lemma byte_at_rev a i : 0 <= i < len a -> byte_at (rev a) i = byte_at a (len a - 1 - i).
Proof.
  intros Hi. unfold byte_at. rewrite rev_nth by lia. f_equal. lia.
Qed.
Lemma byte_at_insert b i j v : 0 <= i < len b -> 0 <= j ->
  byte_at (<[Z.to_nat i := v]> b) j = if j =? i then v else byte_at b j.
Proof.
  intros Hi Hj. unfold byte_at. rewrite !nth_lookup. destruct (Z.eqb_spec j i) as [->|Hn].
  - by rewrite list_lookup_insert_eq by lia.
  - by rewrite list_lookup_insert_ne by lia.
Qed.
Lemma put_bytes b i v : is_bytes b -> is_u8 v -> is_bytes (<[Z.to_nat i := v]> b).
Proof. intros. by apply Forall_insert. Qed.
Lemma byte_at_out b i : len b <= i -> byte_at b i = 0.
Proof. intros Hi. unfold byte_at. apply nth_overflow. lia. Qed.
Lemma copy_byte_at dst a src n b : copy_bytes dst a src n = Done b ->
  len b = len dst /\
  forall j, 0 <= j -> byte_at b j = if (a <=? j) && (j <? a + n) then byte_at src (j - a) else byte_at dst j.
Proof.
  intros Hc. split; [apply copy_length in Hc; lia|]. revert Hc. unfold copy_bytes.
  destruct (Z.leb_spec 0 a); [|done]. destruct (Z.leb_spec 0 n); [|done].
  destruct (Z.leb_spec (a + n) (len dst)); [|done]. destruct (Z.leb_spec n (len src)); [|done]. cbn [andb].
  intros [= <-] j Hj.
  assert (len (take (Z.to_nat a) dst) = a) as E1 by (rewrite length_take; lia).
  assert (len (take (Z.to_nat n) src) = n) as E2 by (rewrite length_take; lia).
  destruct (Z.leb_spec a j) as [Haj|Haj]; cbn [andb].
  - rewrite byte_at_app_r by lia. rewrite E1. destruct (Z.ltb_spec j (a + n)).
    + rewrite byte_at_app_l, byte_at_take by lia. done.
    + rewrite byte_at_app_r, E2, byte_at_drop by lia. f_equal. lia.
  - rewrite byte_at_app_l, byte_at_take by lia. done.
Qed.
Lemma copy_is_bytes dst a src n b : is_bytes dst -> is_bytes src -> copy_bytes dst a src n = Done b -> is_bytes b.
Proof.
  intros Hd Hs Hc. apply bytes_of_byte_at. intros i Hi. destruct (copy_byte_at _ _ _ _ _ Hc) as [_ ->]; [|lia].
  by destruct (_ && _); apply byte_at_u8.
Qed.
Lemma copy_done dst a src n : 0 <= a -> 0 <= n -> a + n <= len dst -> n <= len src ->
  exists b, copy_bytes dst a src n = Done b.
Proof. intros. rewrite copy_ok by done. eauto. Qed.

(** Bytes are closed under the exclusive or. *)
Lemma xor_u8 a b : is_u8 a -> is_u8 b -> is_u8 (Z.lxor a b).
Proof.
  intros Ha Hb. assert (0 <= Z.lxor a b) by (apply Z.lxor_nonneg; zb). split; [done|].
  destruct (Z.eqb_spec (Z.lxor a b) 0) as [->|Hn]; [lia|].
  apply (Z.log2_lt_cancel _ 256). change (Z.log2 256) with 8.
  pose proof (Z.log2_lxor a b ltac:(zb) ltac:(zb)).
  assert (forall x, is_u8 x -> Z.log2 x < 8) as Hlog.
  { intros x Hx. destruct (Z.eqb_spec x 0) as [->|]; [done|]. apply Z.log2_lt_pow2; zb. }
  pose proof (Hlog a Ha). pose proof (Hlog b Hb). lia.
Qed.
#[export] Hint Resolve xor_u8 : cint.
Lemma xor_into_at dst l r n : is_bytes dst -> is_bytes l -> is_bytes r ->
  0 <= n <= len dst -> n <= len l -> n <= len r ->
  exists b, xor_into dst l r n = Done b /\ len b = len dst /\ is_bytes b /\
    forall j, 0 <= j -> byte_at b j = if j <? n then Z.lxor (byte_at l j) (byte_at r j) else byte_at dst j.
Proof.
  intros Hd Hl Hr Hn Hnl Hnr. unfold xor_into. rewrite !(proj2 (Z.leb_le _ _)) by lia. cbn [andb].
  set (x := zip_with _ _ _). assert (len x = n) as Hx by (unfold x; rewrite length_zip_with, !length_take; lia).
  assert (forall j, 0 <= j < n -> byte_at x j = Z.lxor (byte_at l j) (byte_at r j)) as Hxj.
  { intros j Hj. unfold x. rewrite byte_at_zip, !byte_at_take by (rewrite ?length_take; lia). done. }
  destruct (copy_done dst 0 x n) as [b E]; [lia..|]. rewrite E. destruct (copy_byte_at _ _ _ _ _ E) as [Hlb Hbb].
  exists b. split_and!; [done|lia| |].
  - eapply copy_is_bytes; [exact Hd| |exact E]. apply bytes_of_byte_at. intros i Hi.
    rewrite Hxj by lia. apply xor_u8; by apply byte_at_u8.
  - intros j Hj. rewrite Hbb by lia. rewrite (proj2 (Z.leb_le 0 j)), Z.add_0_l, Z.sub_0_r by lia. cbn [andb].
    destruct (Z.ltb_spec j n); [apply Hxj; lia|done].
Qed.

(** ** Counted loops *)

Lemma for_up_rule {A} (P : Z -> A -> Prop) from to body a :
  from <= to -> P from a ->
  (forall i a, from <= i < to -> P i a -> exists a', body i a = Done a' /\ P (i + 1) a') ->
  exists a', for_up from to body a = Done a' /\ P to a'.
Proof.
  intros Hft HP Hbody. unfold for_up. remember (Z.to_nat (to - from)) as k eqn:Ek.
  revert from a Hft HP Hbody Ek. induction k as [|k IH]; intros from a Hft HP Hbody Ek; cbn [for_steps].
  - exists a. split; [done|]. by replace to with from by lia.
  - destruct (Hbody from a ltac:(lia) HP) as (a1 & -> & HP1). rewrite bind_done.
    apply IH; [lia|done| |lia]. intros i a' Hi. apply Hbody. lia.
Qed.
Lemma for_up_none {A} from to (body : Z -> A -> outcome A) a : to <= from -> for_up from to body a = Done a.
Proof. intros. unfold for_up. by replace (Z.to_nat (to - from)) with O by lia. Qed.

(** ** Words in byte order *)

(** The value of four bytes, the first the highest. *)
Definition be32 (a b c d : Z) : Z := 16777216 * a + 65536 * b + 256 * c + d.
Lemma be32_u32 a b c d : is_u8 a -> is_u8 b -> is_u8 c -> is_u8 d -> is_u32 (be32 a b c d).
Proof. unfold be32. zb. Qed.
Lemma lor_disjoint a b k : 0 <= k -> 0 <= b < 2 ^ k -> Z.lor (a * 2 ^ k) b = a * 2 ^ k + b.
Proof.
  intros Hk Hb. rewrite <-Z.lxor_lor, <-Z.add_nocarry_lxor; try done.
  all: apply Z.bits_inj'; intros n Hn; rewrite Z.land_spec, Z.bits_0, <-Z.shiftl_mul_pow2 by lia.
  all: destruct (Z.ltb_spec n k); [by rewrite Z.shiftl_spec_low by lia|];
    by rewrite (testbit_above b k), andb_false_r by lia.
Qed.
Lemma unpack_be32_ok b i : is_bytes b -> 0 <= i -> i + 4 <= len b ->
  lh_bit_unpack_be32 b i = Done (be32 (byte_at b i) (byte_at b (i + 1)) (byte_at b (i + 2)) (byte_at b (i + 3))).
Proof.
  intros Hb Hi Hl. unfold lh_bit_unpack_be32. rewrite !byte_at_load, !bind_done by lia.
  pose proof (byte_at_u8 b i Hb). pose proof (byte_at_u8 b (i + 1) Hb). pose proof (byte_at_u8 b (i + 2) Hb).
  pose proof (byte_at_u8 b (i + 3) Hb).
  generalize dependent (byte_at b i). generalize dependent (byte_at b (i + 1)).
  generalize dependent (byte_at b (i + 2)). generalize dependent (byte_at b (i + 3)).
  intros d Hd c Hc x2 H2 x1 H1. rewrite !Z.shiftl_mul_pow2 by lia. unfold be32. f_equal.
  rewrite !u32_id by (change (2 ^ 24) with 16777216; change (2 ^ 16) with 65536; change (2 ^ 8) with 256; zb).
  rewrite (lor_disjoint c d 8) by zb.
  assert (Z.lor (x1 * 2 ^ 24) (x2 * 2 ^ 16) = (x1 * 2 ^ 8 + x2) * 2 ^ 16) as ->.
  { replace (x1 * 2 ^ 24) with (x1 * 2 ^ 8 * 2 ^ 16) by lia.
    rewrite <-!Z.shiftl_mul_pow2, <-Z.shiftl_lor, !Z.shiftl_mul_pow2, lor_disjoint by zb. done. }
  rewrite lor_disjoint by zb. lia.
Qed.
Lemma be32_horner a b c d : be32 a b c d = 256 * (256 * (256 * a + b) + c) + d.
Proof. unfold be32. lia. Qed.
Lemma word_bytes4 a0 a1 a2 a3 : is_u8 a0 -> is_u8 a1 -> is_u8 a2 -> is_u8 a3 ->
  Z.lor (Z.lor (Z.lor (u32 (Z.shiftl a0 24)) (u32 (Z.shiftl a1 16))) (u32 (Z.shiftl a2 8))) a3 = be32 a0 a1 a2 a3.
Proof.
  intros. rewrite !Z.shiftl_mul_pow2 by lia. change (2 ^ 24) with 16777216. change (2 ^ 16) with 65536. change (2 ^ 8) with 256.
  rewrite !u32_id by zb.
  replace (Z.lor (a0 * 16777216) (a1 * 65536)) with ((256 * a0 + a1) * 2 ^ 16).
  2:{ replace (a0 * 16777216) with (a0 * 2 ^ 8 * 2 ^ 16) by lia. change 65536 with (2 ^ 16).
      rewrite <-!(Z.shiftl_mul_pow2 _ 16), <-Z.shiftl_lor, lor_disjoint by zb. f_equal. lia. }
  replace ((256 * a0 + a1) * 2 ^ 16) with ((256 * a0 + a1) * 2 ^ 8 * 2 ^ 8) by lia.
  replace (a2 * 256) with (a2 * 2 ^ 8) by lia.
  rewrite <-!(Z.shiftl_mul_pow2 _ 8), <-Z.shiftl_lor, !Z.shiftl_mul_pow2, !lor_disjoint by zb. unfold be32. lia.
Qed.
Lemma u8_low h l : is_u8 l -> u8 (256 * h + l) = l.
Proof. intros. zdm. Qed.
Lemma be32_bytes a0 a1 a2 a3 : is_u8 a0 -> is_u8 a1 -> is_u8 a2 -> is_u8 a3 ->
  let w := be32 a0 a1 a2 a3 in
  u8 (Z.shiftr w 24) = a0 /\ u8 (Z.shiftr w 16) = a1 /\ u8 (Z.shiftr w 8) = a2 /\ u8 w = a3.
Proof.
  intros H0 H1 H2 H3. cbv zeta. rewrite !Z.shiftr_div_pow2 by lia. change (2 ^ 24) with 16777216. change (2 ^ 16) with 65536.
  change (2 ^ 8) with 256.
  replace (be32 a0 a1 a2 a3 / 16777216) with a0 by (unfold be32; zdm).
  replace (be32 a0 a1 a2 a3 / 65536) with (256 * a0 + a1) by (unfold be32; zdm).
  replace (be32 a0 a1 a2 a3 / 256) with (256 * (256 * a0 + a1) + a2) by (unfold be32; zdm).
  rewrite (be32_horner a0 a1 a2 a3), !u8_low, u8_id by done. done.
Qed.
Lemma pack_be32_at out i a0 a1 a2 a3 : is_bytes out -> 0 <= i -> i + 4 <= len out ->
  is_u8 a0 -> is_u8 a1 -> is_u8 a2 -> is_u8 a3 ->
  exists out', lh_bit_pack_be32 (be32 a0 a1 a2 a3) out i = Done out' /\ len out' = len out /\ is_bytes out' /\
    forall j, 0 <= j -> byte_at out' j
      = if (i <=? j) && (j <? i + 4) then nth (Z.to_nat (j - i)) [a0; a1; a2; a3] 0 else byte_at out j.
Proof.
  intros Hb Hi Hl H0 H1 H2 H3. unfold lh_bit_pack_be32.
  destruct (be32_bytes a0 a1 a2 a3) as (-> & -> & -> & ->); [done..|].
  do 3 (rewrite put_ok, bind_done by (rewrite ?length_insert; lia)). rewrite put_ok by (rewrite !length_insert; lia).
  eexists. split; [done|]. split; [rewrite !length_insert; done|]. split; [by repeat apply put_bytes|].
  intros j Hj. rewrite !byte_at_insert by (rewrite ?length_insert; lia).
  destruct (Z.eqb_spec j (i + 3)) as [->|]; [|destruct (Z.eqb_spec j (i + 2)) as [->|];
    [|destruct (Z.eqb_spec j (i + 1)) as [->|]; [|destruct (Z.eqb_spec j i) as [->|]]]].
  5: by destruct (Z.leb_spec i j), (Z.ltb_spec j (i + 4)); try lia.
  all: rewrite (proj2 (Z.leb_le _ _)), (proj2 (Z.ltb_lt _ _)) by lia; cbn [andb].
  - by replace (i + 3 - i) with 3 by lia.
  - by replace (i + 2 - i) with 2 by lia.
  - by replace (i + 1 - i) with 1 by lia.
  - by rewrite Z.sub_diag.
Qed.
