(* ===== verification/Rijndael.v ===== *)
(** * The Rijndael cipher

    [lh/core/crypto/rijndael.c], in the build without the processor's instructions for
    it: keys and blocks of 16, 24 or 32 bytes in every combination, which covers AES, and
    the modes ECB, CBC and CFB.  Theorems, in [RijndaelProofs]: a session for a key enciphers
    as the cipher is defined over the field of 256 elements, and what one session enciphers
    another with the same key and chain deciphers, block after block, in every mode. *)
From S2P Require Import Prelude Buffer Bytes.

(** ** The tables and the field *)

Definition m_sbox : buffer := [
   0x63; 0x7C; 0x77; 0x7B; 0xF2; 0x6B; 0x6F; 0xC5; 0x30; 0x01; 0x67; 0x2B; 0xFE; 0xD7; 0xAB; 0x76;
   0xCA; 0x82; 0xC9; 0x7D; 0xFA; 0x59; 0x47; 0xF0; 0xAD; 0xD4; 0xA2; 0xAF; 0x9C; 0xA4; 0x72; 0xC0;
   0xB7; 0xFD; 0x93; 0x26; 0x36; 0x3F; 0xF7; 0xCC; 0x34; 0xA5; 0xE5; 0xF1; 0x71; 0xD8; 0x31; 0x15;
   0x04; 0xC7; 0x23; 0xC3; 0x18; 0x96; 0x05; 0x9A; 0x07; 0x12; 0x80; 0xE2; 0xEB; 0x27; 0xB2; 0x75;
   0x09; 0x83; 0x2C; 0x1A; 0x1B; 0x6E; 0x5A; 0xA0; 0x52; 0x3B; 0xD6; 0xB3; 0x29; 0xE3; 0x2F; 0x84;
   0x53; 0xD1; 0x00; 0xED; 0x20; 0xFC; 0xB1; 0x5B; 0x6A; 0xCB; 0xBE; 0x39; 0x4A; 0x4C; 0x58; 0xCF;
   0xD0; 0xEF; 0xAA; 0xFB; 0x43; 0x4D; 0x33; 0x85; 0x45; 0xF9; 0x02; 0x7F; 0x50; 0x3C; 0x9F; 0xA8;
   0x51; 0xA3; 0x40; 0x8F; 0x92; 0x9D; 0x38; 0xF5; 0xBC; 0xB6; 0xDA; 0x21; 0x10; 0xFF; 0xF3; 0xD2;
   0xCD; 0x0C; 0x13; 0xEC; 0x5F; 0x97; 0x44; 0x17; 0xC4; 0xA7; 0x7E; 0x3D; 0x64; 0x5D; 0x19; 0x73;
   0x60; 0x81; 0x4F; 0xDC; 0x22; 0x2A; 0x90; 0x88; 0x46; 0xEE; 0xB8; 0x14; 0xDE; 0x5E; 0x0B; 0xDB;
   0xE0; 0x32; 0x3A; 0x0A; 0x49; 0x06; 0x24; 0x5C; 0xC2; 0xD3; 0xAC; 0x62; 0x91; 0x95; 0xE4; 0x79;
   0xE7; 0xC8; 0x37; 0x6D; 0x8D; 0xD5; 0x4E; 0xA9; 0x6C; 0x56; 0xF4; 0xEA; 0x65; 0x7A; 0xAE; 0x08;
   0xBA; 0x78; 0x25; 0x2E; 0x1C; 0xA6; 0xB4; 0xC6; 0xE8; 0xDD; 0x74; 0x1F; 0x4B; 0xBD; 0x8B; 0x8A;
   0x70; 0x3E; 0xB5; 0x66; 0x48; 0x03; 0xF6; 0x0E; 0x61; 0x35; 0x57; 0xB9; 0x86; 0xC1; 0x1D; 0x9E;
   0xE1; 0xF8; 0x98; 0x11; 0x69; 0xD9; 0x8E; 0x94; 0x9B; 0x1E; 0x87; 0xE9; 0xCE; 0x55; 0x28; 0xDF;
   0x8C; 0xA1; 0x89; 0x0D; 0xBF; 0xE6; 0x42; 0x68; 0x41; 0x99; 0x2D; 0x0F; 0xB0; 0x54; 0xBB; 0x16].
Definition m_inv_sbox : buffer := [
   0x52; 0x09; 0x6A; 0xD5; 0x30; 0x36; 0xA5; 0x38; 0xBF; 0x40; 0xA3; 0x9E; 0x81; 0xF3; 0xD7; 0xFB;
   0x7C; 0xE3; 0x39; 0x82; 0x9B; 0x2F; 0xFF; 0x87; 0x34; 0x8E; 0x43; 0x44; 0xC4; 0xDE; 0xE9; 0xCB;
   0x54; 0x7B; 0x94; 0x32; 0xA6; 0xC2; 0x23; 0x3D; 0xEE; 0x4C; 0x95; 0x0B; 0x42; 0xFA; 0xC3; 0x4E;
   0x08; 0x2E; 0xA1; 0x66; 0x28; 0xD9; 0x24; 0xB2; 0x76; 0x5B; 0xA2; 0x49; 0x6D; 0x8B; 0xD1; 0x25;
   0x72; 0xF8; 0xF6; 0x64; 0x86; 0x68; 0x98; 0x16; 0xD4; 0xA4; 0x5C; 0xCC; 0x5D; 0x65; 0xB6; 0x92;
   0x6C; 0x70; 0x48; 0x50; 0xFD; 0xED; 0xB9; 0xDA; 0x5E; 0x15; 0x46; 0x57; 0xA7; 0x8D; 0x9D; 0x84;
   0x90; 0xD8; 0xAB; 0x00; 0x8C; 0xBC; 0xD3; 0x0A; 0xF7; 0xE4; 0x58; 0x05; 0xB8; 0xB3; 0x45; 0x06;
   0xD0; 0x2C; 0x1E; 0x8F; 0xCA; 0x3F; 0x0F; 0x02; 0xC1; 0xAF; 0xBD; 0x03; 0x01; 0x13; 0x8A; 0x6B;
   0x3A; 0x91; 0x11; 0x41; 0x4F; 0x67; 0xDC; 0xEA; 0x97; 0xF2; 0xCF; 0xCE; 0xF0; 0xB4; 0xE6; 0x73;
   0x96; 0xAC; 0x74; 0x22; 0xE7; 0xAD; 0x35; 0x85; 0xE2; 0xF9; 0x37; 0xE8; 0x1C; 0x75; 0xDF; 0x6E;
   0x47; 0xF1; 0x1A; 0x71; 0x1D; 0x29; 0xC5; 0x89; 0x6F; 0xB7; 0x62; 0x0E; 0xAA; 0x18; 0xBE; 0x1B;
   0xFC; 0x56; 0x3E; 0x4B; 0xC6; 0xD2; 0x79; 0x20; 0x9A; 0xDB; 0xC0; 0xFE; 0x78; 0xCD; 0x5A; 0xF4;
   0x1F; 0xDD; 0xA8; 0x33; 0x88; 0x07; 0xC7; 0x31; 0xB1; 0x12; 0x10; 0x59; 0x27; 0x80; 0xEC; 0x5F;
   0x60; 0x51; 0x7F; 0xA9; 0x19; 0xB5; 0x4A; 0x0D; 0x2D; 0xE5; 0x7A; 0x9F; 0x93; 0xC9; 0x9C; 0xEF;
   0xA0; 0xE0; 0x3B; 0x4D; 0xAE; 0x2A; 0xF5; 0xB0; 0xC8; 0xEB; 0xBB; 0x3C; 0x83; 0x53; 0x99; 0x61;
   0x17; 0x2B; 0x04; 0x7E; 0xBA; 0x77; 0xD6; 0x26; 0xE1; 0x69; 0x14; 0x63; 0x55; 0x21; 0x0C; 0x7D].

Definition lh_crypto_rijndael_size_ok (n : Z) : bool := (n =? 16) || (n =? 24) || (n =? 32).
Definition lh_crypto_rijndael_xtime (x : Z) : Z :=
  u8 (Z.lxor (Z.shiftl x 1) (if Z.land x 0x80 =? 0 then 0 else 0x1B)).
Fixpoint gf_loop (n : nat) (p a b : Z) : Z :=
  match n with
  | O => p
  | S n =>
    let p := if Z.land b 1 =? 0 then p else u8 (Z.lxor p a) in
    gf_loop n p (lh_crypto_rijndael_xtime a) (u8 (Z.shiftr b 1))
  end.
Definition lh_crypto_rijndael_gf_mul (a b : Z) : Z := gf_loop 8 0 a b.

(** ** The steps of a round *)

Definition lh_crypto_rijndael_shift_offsets (nb : Z) : Z * Z * Z :=
  if nb =? 8 then (1, 3, 4) else (1, 2, 3).
Definition lh_crypto_rijndael_shift_row (state : buffer) (nb row shift : Z) (inverse : bool) : outcome buffer :=
  let n := nb in
  tmp ← for_up 0 n (fun i tmp => v ← load state (row + 4 * i); put tmp i v) (local 8);
  for_up 0 n (fun i state =>
    let src := if inverse then u64 (u64 (i + n) - shift mod n) mod n else u64 (i + shift) mod n in
    v ← load tmp src;
    put state (row + 4 * i) v) state.
Definition lh_crypto_rijndael_shift_rows (state : buffer) (nb : Z) (inverse : bool) : outcome buffer :=
  let '(c1, c2, c3) := lh_crypto_rijndael_shift_offsets nb in
  state ← lh_crypto_rijndael_shift_row state nb 1 c1 inverse;
  state ← lh_crypto_rijndael_shift_row state nb 2 c2 inverse;
  lh_crypto_rijndael_shift_row state nb 3 c3 inverse.
Definition lh_crypto_rijndael_sub_bytes (state : buffer) (block_size : Z) (inverse : bool) : outcome buffer :=
  let box := if inverse then m_inv_sbox else m_sbox in
  for_up 0 block_size (fun i state =>
    v ← load state i;
    w ← load box v;
    put state i w) state.

Definition lh_crypto_rijndael_mix_columns (state : buffer) (nb : Z) (inverse : bool) : outcome buffer :=
  let gf := lh_crypto_rijndael_gf_mul in
  let xt := lh_crypto_rijndael_xtime in
  let x4 a b c d := u8 (Z.lxor (Z.lxor (Z.lxor a b) c) d) in
  for_up 0 nb (fun c state =>
    let col := c * 4 in
    a0 ← load state (col + 0);
    a1 ← load state (col + 1);
    a2 ← load state (col + 2);
    a3 ← load state (col + 3);
    if inverse : bool then
      state ← put state (col + 0) (x4 (gf a0 0x0E) (gf a1 0x0B) (gf a2 0x0D) (gf a3 0x09));
      state ← put state (col + 1) (x4 (gf a0 0x09) (gf a1 0x0E) (gf a2 0x0B) (gf a3 0x0D));
      state ← put state (col + 2) (x4 (gf a0 0x0D) (gf a1 0x09) (gf a2 0x0E) (gf a3 0x0B));
      put state (col + 3) (x4 (gf a0 0x0B) (gf a1 0x0D) (gf a2 0x09) (gf a3 0x0E))
    else
      let t := x4 a0 a1 a2 a3 in
      state ← put state (col + 0) (u8 (Z.lxor (Z.lxor a0 t) (xt (u8 (Z.lxor a0 a1)))));
      state ← put state (col + 1) (u8 (Z.lxor (Z.lxor a1 t) (xt (u8 (Z.lxor a1 a2)))));
      state ← put state (col + 2) (u8 (Z.lxor (Z.lxor a2 t) (xt (u8 (Z.lxor a2 a3)))));
      put state (col + 3) (u8 (Z.lxor (Z.lxor a3 t) (xt (u8 (Z.lxor a3 a0)))))) state.

(** ** Sessions *)

Definition LH_CRYPTO_RIJNDAEL_BLOCK_SIZE_MAX : Z := 32.
Definition LH_CRYPTO_RIJNDAEL_ROUND_COUNT_MAX : Z := 14.
Definition LH_CRYPTO_RIJNDAEL_EXPANDED_KEY_SIZE_MAX : Z :=
  LH_CRYPTO_RIJNDAEL_BLOCK_SIZE_MAX * (LH_CRYPTO_RIJNDAEL_ROUND_COUNT_MAX + 1).
Definition lh_crypto_rijndael_mode_ecb : Z := 0.
Definition lh_crypto_rijndael_mode_cbc : Z := 1.
Definition lh_crypto_rijndael_mode_cfb : Z := 2.

Record lh_crypto_rijndael_t := mk_rijndael {
  rj_mode : Z;
  rj_block_size : Z;
  rj_round_count : Z;
  rj_expanded_key : buffer;
  rj_chain : buffer
}.
Definition lh_crypto_rijndael_get_mode := rj_mode.
Definition lh_crypto_rijndael_set_mode (self : lh_crypto_rijndael_t) (v : Z) : lh_crypto_rijndael_t :=
  mk_rijndael v (rj_block_size self) (rj_round_count self) (rj_expanded_key self) (rj_chain self).
(** A block size the initialiser refuses is the compiler's licence to do anything. *)
Definition lh_crypto_rijndael_get_block_size (self : lh_crypto_rijndael_t) : outcome Z :=
  let block_size := rj_block_size self in
  if block_size >? LH_CRYPTO_RIJNDAEL_BLOCK_SIZE_MAX then Undef else mret block_size.
Definition lh_crypto_rijndael_set_block_size (self : lh_crypto_rijndael_t) (v : Z) : lh_crypto_rijndael_t :=
  mk_rijndael (rj_mode self) v (rj_round_count self) (rj_expanded_key self) (rj_chain self).
Definition lh_crypto_rijndael_get_round_count := rj_round_count.
Definition lh_crypto_rijndael_set_round_count (self : lh_crypto_rijndael_t) (v : Z) : lh_crypto_rijndael_t :=
  mk_rijndael (rj_mode self) (rj_block_size self) v (rj_expanded_key self) (rj_chain self).
(** The arrays behind [get_..._mut] are replaced as wholes. *)
Definition lh_crypto_rijndael_get_expanded_key := rj_expanded_key.
Definition lh_crypto_rijndael_get_expanded_key_mut (self : lh_crypto_rijndael_t) (v : buffer) : lh_crypto_rijndael_t :=
  mk_rijndael (rj_mode self) (rj_block_size self) (rj_round_count self) v (rj_chain self).
Definition lh_crypto_rijndael_get_chain := rj_chain.
Definition lh_crypto_rijndael_get_chain_mut (self : lh_crypto_rijndael_t) (v : buffer) : lh_crypto_rijndael_t :=
  mk_rijndael (rj_mode self) (rj_block_size self) (rj_round_count self) (rj_expanded_key self) v.
Definition lh_crypto_rijndael_get_round_key (self : lh_crypto_rijndael_t) (round : Z) : outcome buffer :=
  block_size ← lh_crypto_rijndael_get_block_size self;
  let offset := u64 (round * block_size) in
  mret (drop (Z.to_nat offset) (lh_crypto_rijndael_get_expanded_key self)).

(** ** The key schedule *)

Definition lh_crypto_rijndael_sub_word (w : Z) : outcome Z :=
  a ← load m_sbox (Z.land (Z.shiftr w 24) 0xFF);
  b ← load m_sbox (Z.land (Z.shiftr w 16) 0xFF);
  c ← load m_sbox (Z.land (Z.shiftr w 8) 0xFF);
  d ← load m_sbox (Z.land w 0xFF);
  mret (Z.lor (Z.lor (Z.lor (u32 (Z.shiftl a 24)) (u32 (Z.shiftl b 16))) (u32 (Z.shiftl c 8))) d).
(** The body of the loop that makes the word [i]. *)
Definition expand_word (nk i : Z) (w : buffer) (rcon : Z) : outcome (buffer * Z) :=
  temp ← load w (i - 1);
  '(temp, rcon) ←
    (if i mod nk =? 0 then
       s ← lh_crypto_rijndael_sub_word (lh_bit_rotate_left_u32 temp 8);
       mret (Z.lxor s rcon, u32 (Z.shiftl (lh_crypto_rijndael_xtime (u8 (Z.shiftr rcon 24))) 24))
     else if (nk >? 6) && (i mod nk =? 4) then
       s ← lh_crypto_rijndael_sub_word temp;
       mret (s, rcon)
     else mret (temp, rcon));
  v ← load w (i - nk);
  w ← put w i (Z.lxor v temp);
  mret (w, rcon).
Definition lh_crypto_rijndael_expand_key (self : lh_crypto_rijndael_t) (key : buffer) (key_size : Z)
    : outcome lh_crypto_rijndael_t :=
  let nk := key_size / 4 in
  block_size ← lh_crypto_rijndael_get_block_size self;
  let nb := block_size / 4 in
  let nr := lh_crypto_rijndael_get_round_count self in
  let total := u64 (nb * u64 (nr + 1)) in
  w ← for_up 0 nk (fun i w => v ← lh_bit_unpack_be32 key (4 * i); put w i v) (local 120);
  '(w, _) ← for_up nk total (fun i '(w, rcon) => expand_word nk i w rcon) (w, 0x01000000);
  expanded ← for_up 0 total (fun i e => v ← load w i; lh_bit_pack_be32 v e (4 * i))
                    (lh_crypto_rijndael_get_expanded_key self);
  mret (lh_crypto_rijndael_get_expanded_key_mut self expanded).

(** ** The cipher *)

(** [lh_memory_std_xor(state, state, lh_crypto_rijndael_get_round_key(self, round), block_size)] *)
Definition add_round_key (self : lh_crypto_rijndael_t) (round block_size : Z) (state : buffer) : outcome buffer :=
  k ← lh_crypto_rijndael_get_round_key self round;
  xor_into state state k block_size.
(** [for (round = from; round > 1; --round)] *)
Fixpoint for_down {A} (n : nat) (i : Z) (body : Z -> A -> outcome A) (a : A) : outcome A :=
  match n with
  | O => mret a
  | S n => a ← body i a; for_down n (i - 1) body a
  end.
(** The two branches of the cipher, between the copies. *)
Definition encipher (self : lh_crypto_rijndael_t) (block_size nb nr : Z) (state : buffer) : outcome buffer :=
  state ← add_round_key self 0 block_size state;
  state ← for_up 1 nr (fun round state =>
    state ← lh_crypto_rijndael_sub_bytes state block_size false;
    state ← lh_crypto_rijndael_shift_rows state nb false;
    state ← lh_crypto_rijndael_mix_columns state nb false;
    add_round_key self round block_size state) state;
  state ← lh_crypto_rijndael_sub_bytes state block_size false;
  state ← lh_crypto_rijndael_shift_rows state nb false;
  add_round_key self nr block_size state.
Definition decipher (self : lh_crypto_rijndael_t) (block_size nb nr : Z) (state : buffer) : outcome buffer :=
  state ← add_round_key self nr block_size state;
  state ← for_down (Z.to_nat (nr - 1)) nr (fun round state =>
    state ← lh_crypto_rijndael_shift_rows state nb true;
    state ← lh_crypto_rijndael_sub_bytes state block_size true;
    state ← add_round_key self (u64 (round - 1)) block_size state;
    lh_crypto_rijndael_mix_columns state nb true) state;
  state ← lh_crypto_rijndael_shift_rows state nb true;
  state ← lh_crypto_rijndael_sub_bytes state block_size true;
  add_round_key self 0 block_size state.
(** The block in [in_], enciphered or deciphered, in [out], which may be the same array. *)
Definition lh_crypto_rijndael_cipher (self : lh_crypto_rijndael_t) (in_ out : buffer) (decrypt : bool)
    : outcome buffer :=
  block_size ← lh_crypto_rijndael_get_block_size self;
  let nb := block_size / 4 in
  let nr := lh_crypto_rijndael_get_round_count self in
  state ← copy_bytes (local LH_CRYPTO_RIJNDAEL_BLOCK_SIZE_MAX) 0 in_ block_size;
  state ← (if negb decrypt then encipher self block_size nb nr state else decipher self block_size nb nr state);
  copy_bytes out 0 state block_size.

Definition lh_crypto_rijndael_init (self : lh_crypto_rijndael_t) (key : option buffer) (key_size : Z)
    (chain : option buffer) (chain_size block_size mode : Z) : outcome (bool * lh_crypto_rijndael_t) :=
  key ← assert_set key;
  if negb (lh_crypto_rijndael_size_ok key_size) || negb (lh_crypto_rijndael_size_ok block_size) ||
     (negb (mode =? lh_crypto_rijndael_mode_ecb) && negb (mode =? lh_crypto_rijndael_mode_cbc) &&
      negb (mode =? lh_crypto_rijndael_mode_cfb)) then mret (false, self) else
  if negb (mode =? lh_crypto_rijndael_mode_ecb) &&
     (match chain with None => true | Some _ => negb (chain_size =? block_size) end) then mret (false, self) else
  let nk := key_size / 4 in
  let nb := block_size / 4 in
  let nr := (if nk >? nb then nk else nb) + 6 in
  let self := lh_crypto_rijndael_set_mode self mode in
  let self := lh_crypto_rijndael_set_block_size self block_size in
  let self := lh_crypto_rijndael_set_round_count self nr in
  e ← set_bytes (lh_crypto_rijndael_get_expanded_key self) 0 0 LH_CRYPTO_RIJNDAEL_EXPANDED_KEY_SIZE_MAX;
  let self := lh_crypto_rijndael_get_expanded_key_mut self e in
  c ← set_bytes (lh_crypto_rijndael_get_chain self) 0 0 LH_CRYPTO_RIJNDAEL_BLOCK_SIZE_MAX;
  let self := lh_crypto_rijndael_get_chain_mut self c in
  self ← lh_crypto_rijndael_expand_key self key key_size;
  if negb (mode =? lh_crypto_rijndael_mode_ecb) then
    chain ← assert_set chain;
    c ← copy_bytes (lh_crypto_rijndael_get_chain self) 0 chain block_size;
    mret (true, lh_crypto_rijndael_get_chain_mut self c)
  else mret (true, self).

(** ** Blocks *)

Definition lh_crypto_rijndael_encrypt_block (self : lh_crypto_rijndael_t) (in_ out : option buffer)
    : outcome (lh_crypto_rijndael_t * buffer) :=
  in_bytes ← assert_set in_;
  out_bytes ← assert_set out;
  block_size ← lh_crypto_rijndael_get_block_size self;
  if lh_crypto_rijndael_get_mode self =? lh_crypto_rijndael_mode_ecb then
    out_bytes ← lh_crypto_rijndael_cipher self in_bytes out_bytes false;
    mret (self, out_bytes)
  else
  let block := local LH_CRYPTO_RIJNDAEL_BLOCK_SIZE_MAX in
  if lh_crypto_rijndael_get_mode self =? lh_crypto_rijndael_mode_cbc then
    block ← xor_into block in_bytes (lh_crypto_rijndael_get_chain self) block_size;
    out_bytes ← lh_crypto_rijndael_cipher self block out_bytes false;
    c ← copy_bytes (lh_crypto_rijndael_get_chain self) 0 out_bytes block_size;
    mret (lh_crypto_rijndael_get_chain_mut self c, out_bytes)
  else
    block ← lh_crypto_rijndael_cipher self (lh_crypto_rijndael_get_chain self) block false;
    out_bytes ← xor_into out_bytes in_bytes block block_size;
    c ← copy_bytes (lh_crypto_rijndael_get_chain self) 0 out_bytes block_size;
    mret (lh_crypto_rijndael_get_chain_mut self c, out_bytes).
Definition lh_crypto_rijndael_decrypt_block (self : lh_crypto_rijndael_t) (in_ out : option buffer)
    : outcome (lh_crypto_rijndael_t * buffer) :=
  in_bytes ← assert_set in_;
  out_bytes ← assert_set out;
  block_size ← lh_crypto_rijndael_get_block_size self;
  if lh_crypto_rijndael_get_mode self =? lh_crypto_rijndael_mode_ecb then
    out_bytes ← lh_crypto_rijndael_cipher self in_bytes out_bytes true;
    mret (self, out_bytes)
  else
  let block := local LH_CRYPTO_RIJNDAEL_BLOCK_SIZE_MAX in
  saved ← copy_bytes (local LH_CRYPTO_RIJNDAEL_BLOCK_SIZE_MAX) 0 in_bytes block_size;
  if lh_crypto_rijndael_get_mode self =? lh_crypto_rijndael_mode_cbc then
    block ← lh_crypto_rijndael_cipher self in_bytes block true;
    out_bytes ← xor_into out_bytes block (lh_crypto_rijndael_get_chain self) block_size;
    c ← copy_bytes (lh_crypto_rijndael_get_chain self) 0 saved block_size;
    mret (lh_crypto_rijndael_get_chain_mut self c, out_bytes)
  else
    block ← lh_crypto_rijndael_cipher self (lh_crypto_rijndael_get_chain self) block false;
    out_bytes ← xor_into out_bytes in_bytes block block_size;
    c ← copy_bytes (lh_crypto_rijndael_get_chain self) 0 saved block_size;
    mret (lh_crypto_rijndael_get_chain_mut self c, out_bytes).

(** The example of FIPS 197: key 00 01 .. 0f, text 00 11 .. ff. *)
Example fips197 :
  ('(_, s) ← lh_crypto_rijndael_init (mk_rijndael 0 0 0 (local 480) (local 32)) (Some (seqZ 0 16)) 16 None 0 16 0;
   '(_, c) ← lh_crypto_rijndael_encrypt_block s (Some (map (Z.mul 0x11) (seqZ 0 16))) (Some (local 16));
   '(_, d) ← lh_crypto_rijndael_decrypt_block s (Some c) (Some c);
   mret (c, d))
  = Done ([0x69; 0xC4; 0xE0; 0xD8; 0x6A; 0x7B; 0x04; 0x30; 0xD8; 0xCD; 0xB7; 0x80; 0x70; 0xB4; 0xC5; 0x5A],
          map (Z.mul 0x11) (seqZ 0 16)).
Proof. vm_compute. reflexivity. Qed.
