(* ===== verification/RijndaelProofs.v ===== *)
(** * The Rijndael cipher: correctness

    The reference is the cipher over the field of 256 elements, with polynomials over two
    elements multiplied modulo x^8 + x^4 + x^3 + x + 1 ([gmul]), the substitution as an
    inverse and an affine map ([ref_sub]), the mixing of a column as a product with a matrix,
    and the key schedule on words of four bytes.  Blocks are functions from places to bytes. *)
From S2P Require Import Prelude Buffer Bytes Rijndael.

(** ** The field *)

(** The product of two polynomials over two elements, and its rest. *)
Definition clmul (a b : Z) : Z :=
  foldr (fun i r => Z.lxor (if Z.testbit b i then Z.shiftl a i else 0) r) 0 (seqZ 0 8).
Definition gred (x : Z) : Z :=
  foldl (fun x i => if Z.testbit x (14 - i) then Z.lxor x (Z.shiftl 0x11B (6 - i)) else x) x (seqZ 0 7).
Definition gmul (a b : Z) : Z := gred (clmul a b).
(** [a^254], which is the inverse of [a], and 0 of 0. *)
Definition ginv (a : Z) : Z :=
  let a2 := gmul a a in
  let a4 := gmul a2 a2 in
  let a8 := gmul a4 a4 in
  let a16 := gmul a8 a8 in
  let a32 := gmul a16 a16 in
  let a64 := gmul a32 a32 in
  gmul (gmul (gmul a2 a4) (gmul a8 a16)) (gmul (gmul a32 a64) (gmul a64 a64)).
Definition rotl8 (x k : Z) : Z := u8 (Z.lor (Z.shiftl x k) (Z.shiftr x (8 - k))).
Definition ref_sub (x : Z) : Z :=
  let b := ginv x in
  Z.lxor (Z.lxor (Z.lxor (Z.lxor (Z.lxor b (rotl8 b 1)) (rotl8 b 2)) (rotl8 b 3)) (rotl8 b 4)) 0x63.

(** A statement about every byte, checked byte by byte. *)
Lemma all_bytes (p : Z -> bool) : forallb p (seqZ 0 256) = true -> forall x, is_u8 x -> p x = true.
Proof. intros H x Hx. rewrite forallb_forall in H. apply H, list_elem_of_In, elem_of_seqZ. zb. Qed.
Ltac by_bytes p :=
  let x := fresh "x" in let Hx := fresh "Hx" in
  intros x Hx; pose proof (all_bytes p ltac:(vm_compute; reflexivity) x Hx) as H; cbv beta in H.

Lemma ginv_inverse x : is_u8 x -> x <> 0 -> gmul x (ginv x) = 1.
Proof.
  revert x. by_bytes (fun x => (x =? 0) || (gmul x (ginv x) =? 1)). intros Hn.
  apply orb_true_iff in H as [H|H]; [lia|]. by apply Z.eqb_eq.
Qed.
Lemma sbox_is_sub : forall x, is_u8 x -> byte_at m_sbox x = ref_sub x.
Proof. by_bytes (fun x => byte_at m_sbox x =? ref_sub x). by apply Z.eqb_eq. Qed.
Lemma inv_sbox_inverse : forall x, is_u8 x -> byte_at m_inv_sbox (byte_at m_sbox x) = x.
Proof. by_bytes (fun x => byte_at m_inv_sbox (byte_at m_sbox x) =? x). by apply Z.eqb_eq. Qed.
Lemma sbox_bytes inv : is_bytes (if inv : bool then m_inv_sbox else m_sbox).
Proof. destruct inv; repeat constructor; zb. Qed.
Lemma box_length (inv : bool) : len (if inv then m_inv_sbox else m_sbox) = 256.
Proof. by destruct inv. Qed.

Notation xtime := lh_crypto_rijndael_xtime.
Notation gf_mul := lh_crypto_rijndael_gf_mul.

Lemma xtime_u8 x : is_u8 (xtime x).
Proof. apply u8_range. Qed.
Lemma xtime_xor : forall a, is_u8 a -> forall b, is_u8 b -> xtime (Z.lxor a b) = Z.lxor (xtime a) (xtime b).
Proof.
  by_bytes (fun a => forallb (fun b => xtime (Z.lxor a b) =? Z.lxor (xtime a) (xtime b)) (seqZ 0 256)).
  intros b Hb. apply Z.eqb_eq. by apply (all_bytes (fun b => xtime (Z.lxor x b) =? Z.lxor (xtime x) (xtime b))).
Qed.

Lemma gf_loop_xor n : forall p q a b c, is_u8 p -> is_u8 q -> is_u8 a -> is_u8 b ->
  gf_loop n (Z.lxor p q) (Z.lxor a b) c = Z.lxor (gf_loop n p a c) (gf_loop n q b c).
Proof.
  induction n as [|n IH]; intros p q a b c Hp Hq Ha Hb; cbn [gf_loop]; [done|].
  rewrite xtime_xor by done. assert (is_u8 (Z.lxor p a) /\ is_u8 (Z.lxor q b)) as [Hpa Hqb] by auto with cint.
  destruct (Z.land c 1 =? 0); [apply IH; (done || apply xtime_u8)|].
  rewrite <-IH by (apply u8_range || apply xtime_u8). f_equal.
  rewrite !u8_id by auto with cint. xor_ac.
Qed.
Lemma gf_mul_xor a b c : is_u8 a -> is_u8 b -> gf_mul (Z.lxor a b) c = Z.lxor (gf_mul a c) (gf_mul b c).
Proof. intros Ha Hb. unfold gf_mul. rewrite <-gf_loop_xor by (zb || done). done. Qed.
Lemma gf_mul_u8 a c : is_u8 a -> is_u8 (gf_mul a c).
Proof.
  intros Ha. unfold gf_mul. assert (is_u8 0) as H0 by zb. revert H0 Ha. generalize 0, a, c. generalize 8%nat.
  induction n as [|n IH]; intros p x d Hp Hx; cbn [gf_loop]; [done|].
  apply IH; [|apply xtime_u8]. by destruct (_ =? 0); [|apply u8_range].
Qed.
#[export] Hint Resolve xtime_u8 gf_mul_u8 : cint.

(** ** The steps on the state *)

(** A state of 32 bytes that differs from [st] by the bytes [f] where [p] holds. *)
Definition becomes (st : buffer) (p : Z -> bool) (f : Z -> Z) (st' : buffer) : Prop :=
  len st' = 32 /\ is_bytes st' /\
  forall j, 0 <= j < 32 -> byte_at st' j = if p j then f j else byte_at st j.
Definition is_state (st : buffer) : Prop := len st = 32 /\ is_bytes st.

Lemma becomes_state st p f st' : becomes st p f st' -> is_state st'.
Proof. by intros (? & ? & _). Qed.
Lemma becomes_none st f : is_state st -> becomes st (fun _ => false) f st.
Proof. by intros []. Qed.
Lemma becomes_ext st p q f g st' : becomes st p f st' ->
  (forall j, 0 <= j < 32 -> p j = q j /\ (p j = true -> f j = g j)) -> becomes st q g st'.
Proof.
  intros (Hl & Hb & H) He. split_and!; [done..|]. intros j Hj. rewrite H by done.
  destruct (He j Hj) as [<- Hf]. destruct (p j); [by apply Hf|done].
Qed.
(** One byte more. *)
Lemma becomes_put st p f st' i v : becomes st p f st' -> 0 <= i < 32 -> is_u8 v ->
  exists st2, put st' i v = Done st2 /\ becomes st (fun j => (j =? i) || p j) (fun j => if j =? i then v else f j) st2.
Proof.
  intros (Hl & Hb & H) Hi Hv. rewrite put_ok by lia. eexists. split; [done|]. split_and!.
  - rewrite length_insert. lia.
  - by apply put_bytes.
  - intros j Hj. rewrite byte_at_insert, H by lia. by destruct (Z.eqb_spec j i).
Qed.

Lemma sub_bytes_ok st n inv : is_state st -> 0 <= n <= 32 ->
  exists st', lh_crypto_rijndael_sub_bytes st n inv = Done st' /\
    becomes st (fun j => j <? n) (fun j => byte_at (if inv then m_inv_sbox else m_sbox) (byte_at st j)) st'.
Proof.
  intros Hst Hn. unfold lh_crypto_rijndael_sub_bytes. set (box := if inv then _ else _).
  assert (len box = 256 /\ is_bytes box) as [Hbl Hbb] by (split; [apply box_length|apply sbox_bytes]). clearbody box.
  apply (for_up_rule (fun i st' => becomes st (fun j => j <? i) (fun j => byte_at box (byte_at st j)) st')); [lia| |].
  { eapply becomes_ext; [by apply (becomes_none st (fun j => j))|]. intros j Hj. rewrite (proj2 (Z.ltb_ge j 0)) by lia. done. }
  intros i s Hi Hs. assert (byte_at s i = byte_at st i) as E.
  { destruct Hs as (_ & _ & ->); [|lia]. by rewrite (proj2 (Z.ltb_ge i i)) by lia. }
  assert (is_u8 (byte_at st i)) as Hu by by apply byte_at_u8; destruct Hst.
  rewrite byte_at_load, bind_done, E by (destruct Hs; lia). rewrite byte_at_load, bind_done by zb.
  destruct (becomes_put _ _ _ _ i (byte_at box (byte_at st i)) Hs) as (s2 & -> & H2); [lia|by apply byte_at_u8|].
  exists s2. split; [done|]. eapply becomes_ext; [exact H2|]. intros j Hj. split.
  - destruct (Z.eqb_spec j i), (Z.ltb_spec j i), (Z.ltb_spec j (i + 1)); try done; lia.
  - destruct (Z.eqb_spec j i) as [->|]; done.
Qed.

(** The column a byte of a row comes from. *)
Definition from_col (inv : bool) (nb shift c : Z) : Z := if inv then (c - shift) mod nb else (c + shift) mod nb.
Lemma from_col_range inv nb shift c : 0 < nb -> 0 <= from_col inv nb shift c < nb.
Proof. intros. unfold from_col. destruct inv; apply Z.mod_pos_bound; lia. Qed.
Lemma from_col_src (inv : bool) nb shift c : 0 < nb <= 8 -> 0 <= shift -> shift < 8 -> 0 <= c < nb ->
  (if inv then u64 (u64 (c + nb) - shift mod nb) mod nb else u64 (c + shift) mod nb) = from_col inv nb shift c.
Proof.
  intros Hnb Hs Hs8 Hc. unfold from_col. pose proof (Z.mod_pos_bound shift nb ltac:(lia)).
  destruct inv; [|by rewrite u64_id by zb]. rewrite (u64_id (c + nb)), u64_id by zb.
  rewrite Zminus_mod_idemp_r. replace (c + nb - shift) with (c - shift + 1 * nb) by lia. apply Z.mod_add. lia.
Qed.

Lemma shift_row_ok st nb row shift inv : is_state st -> 0 < nb <= 8 -> 0 <= row < 4 -> 0 <= shift < 8 ->
  exists st', lh_crypto_rijndael_shift_row st nb row shift inv = Done st' /\
    becomes st (fun j => (j mod 4 =? row) && (j / 4 <? nb))
            (fun j => byte_at st (row + 4 * from_col inv nb shift (j / 4))) st'.
Proof.
  intros [Hl Hb] Hnb Hrow Hsh. unfold lh_crypto_rijndael_shift_row.
  edestruct (for_up_rule (fun i tmp => len tmp = 8 /\ is_bytes tmp /\
    forall k, 0 <= k < i -> byte_at tmp k = byte_at st (row + 4 * k)) 0 nb) as (tmp & -> & Ht & Htb & Hk); [lia| | |].
  { split_and!; [done|repeat constructor; zb|lia]. }
  { intros i tmp Hi (Ht & Htb & Hk). cbv beta. rewrite byte_at_load, bind_done, put_ok by lia.
    eexists. split; [done|]. split_and!; [by rewrite length_insert|by apply put_bytes; [|apply byte_at_u8]|].
    intros k Hki. rewrite byte_at_insert by lia. destruct (Z.eqb_spec k i) as [->|]; [done|]. apply Hk. lia. }
  rewrite bind_done.
  edestruct (for_up_rule (fun i s => becomes st (fun j => (j mod 4 =? row) && (j / 4 <? i))
    (fun j => byte_at st (row + 4 * from_col inv nb shift (j / 4))) s) 0 nb) as (s & -> & Hs); [lia| | |by exists s].
  { eapply becomes_ext; [by apply (becomes_none st (fun j => j))|]. intros j Hj.
    rewrite (proj2 (Z.ltb_ge (j / 4) 0)), andb_false_r by (apply Z.div_pos; lia). done. }
  intros i s Hi Hs. cbv beta zeta. rewrite from_col_src by lia.
  pose proof (from_col_range inv nb shift i ltac:(lia)). rewrite byte_at_load, bind_done, Hk by lia.
  destruct (becomes_put _ _ _ _ (row + 4 * i) (byte_at st (row + 4 * from_col inv nb shift i)) Hs) as (s2 & -> & H2);
    [lia|by apply byte_at_u8|].
  exists s2. split; [done|]. eapply becomes_ext; [exact H2|]. clear - Hi Hrow Hnb. intros j Hj. split.
  - destruct (Z.eqb_spec j (row + 4 * i)), (Z.eqb_spec (j mod 4) row), (Z.ltb_spec (j / 4) i), (Z.ltb_spec (j / 4) (i + 1));
      try done; zdm.
  - destruct (Z.eqb_spec j (row + 4 * i)) as [->|]; [|done]. intros _. do 4 f_equal. zdm.
Qed.

(** How far a row goes. *)
Definition row_shift (nb r : Z) : Z :=
  if (r =? 3) && (nb =? 8) then 4 else if (r =? 2) && (nb =? 8) then 3 else r.
Lemma shift_rows_ok st nb inv : is_state st -> 0 < nb <= 8 ->
  exists st', lh_crypto_rijndael_shift_rows st nb inv = Done st' /\
    becomes st (fun j => j / 4 <? nb)
            (fun j => byte_at st (j mod 4 + 4 * from_col inv nb (row_shift nb (j mod 4)) (j / 4))) st'.
Proof.
  intros Hst Hnb. unfold lh_crypto_rijndael_shift_rows.
  assert (lh_crypto_rijndael_shift_offsets nb = (row_shift nb 1, row_shift nb 2, row_shift nb 3)) as ->.
  { unfold lh_crypto_rijndael_shift_offsets, row_shift. by destruct (nb =? 8). }
  assert (forall r, 0 <= r < 4 -> 0 <= row_shift nb r < 8) as Hr.
  { intros r Hr. unfold row_shift. destruct (_ && _); [lia|]. destruct (_ && _); lia. }
  destruct (shift_row_ok st nb 1 (row_shift nb 1) inv) as (s1 & -> & H1); [done|lia|lia|by apply Hr|]. rewrite bind_done.
  destruct (shift_row_ok s1 nb 2 (row_shift nb 2) inv) as (s2 & -> & H2); [by eapply becomes_state|lia|lia|by apply Hr|].
  rewrite bind_done.
  destruct (shift_row_ok s2 nb 3 (row_shift nb 3) inv) as (s3 & -> & H3); [by eapply becomes_state|lia|lia|by apply Hr|].
  exists s3. split; [done|]. destruct H1 as (_ & _ & H1), H2 as (_ & _ & H2), H3 as (Hl & Hb & H3). split_and!; [done..|].
  intros j Hj. pose proof (Z.mod_pos_bound j 4 ltac:(lia)).
  assert (forall r k, 0 <= r < 4 -> 0 <= k < nb -> 0 <= r + 4 * k < 32 /\ (r + 4 * k) mod 4 = r /\ (r + 4 * k) / 4 = k) as Hrk.
  { clear - Hnb. intros r k Hr Hk. zdm. }
  pose proof (fun s => from_col_range inv nb s (j / 4) ltac:(lia)) as Hfc.
  rewrite H3 by done. destruct (Z.eqb_spec (j mod 4) 3) as [E3|E3]; cbn [andb].
  { rewrite E3. destruct (Z.ltb_spec (j / 4) nb).
    - destruct (Hrk 3 _ ltac:(lia) (Hfc (row_shift nb 3))) as (? & Em & _). rewrite H2, Em by done. cbn [Z.eqb Pos.eqb andb]. rewrite H1, Em by done. done.
    - rewrite H2, E3 by done. cbn [Z.eqb Pos.eqb andb]. rewrite H1, E3 by done. done. }
  rewrite H2 by done. destruct (Z.eqb_spec (j mod 4) 2) as [E2|E2]; cbn [andb].
  { rewrite E2. destruct (Z.ltb_spec (j / 4) nb).
    - destruct (Hrk 2 _ ltac:(lia) (Hfc (row_shift nb 2))) as (? & Em & _). rewrite H1, Em by done. done.
    - rewrite H1, E2 by done. done. }
  rewrite H1 by done. destruct (Z.eqb_spec (j mod 4) 1) as [E1|E1]; cbn [andb].
  { rewrite E1. done. }
  assert (j mod 4 = 0) as E0 by lia. rewrite E0. destruct (Z.ltb_spec (j / 4) nb); [|done].
  replace (from_col inv nb (row_shift nb 0) (j / 4)) with (j / 4).
  { f_equal. clear - E0 Hj. zdm. }
  unfold row_shift, from_col. cbn [Z.eqb andb]. rewrite Z.sub_0_r, Z.add_0_r.
  assert (0 <= j / 4) by (apply Z.div_pos; lia). destruct inv; by rewrite Z.mod_small.
Qed.

(** ** Columns *)

(** The product of a column with the matrix whose first row is [m0 m1 m2 m3] and whose
    rows are its rotations: the byte in the row [r]. *)
Definition mix_with (mul : Z -> Z -> Z) (m0 m1 m2 m3 : Z) (a : Z -> Z) (r : Z) : Z :=
  Z.lxor (Z.lxor (Z.lxor (mul (a (r mod 4)) m0) (mul (a ((r + 1) mod 4)) m1))
                 (mul (a ((r + 2) mod 4)) m2)) (mul (a ((r + 3) mod 4)) m3).
Definition mixed (inv : bool) : (Z -> Z) -> Z -> Z :=
  if inv then mix_with gf_mul 0x0E 0x0B 0x0D 0x09 else mix_with gf_mul 2 3 1 1.

Lemma gf_mul_table : forall a, is_u8 a ->
  gf_mul a 1 = a /\ gf_mul a 2 = xtime a /\ gf_mul a 3 = Z.lxor (xtime a) a.
Proof.
  by_bytes (fun a => (gf_mul a 1 =? a) && (gf_mul a 2 =? xtime a) && (gf_mul a 3 =? Z.lxor (xtime a) a)).
  rewrite !andb_true_iff, !Z.eqb_eq in H. tauto.
Qed.
(** The two matrices are inverse: the products of their entries on one byte. *)
Lemma gf_mul_inverse : forall a, is_u8 a ->
  let g c d := gf_mul (gf_mul a c) d in
  let x4 a b c d := Z.lxor (Z.lxor (Z.lxor a b) c) d in
  x4 (g 2 0x0E) (g 1 0x0B) (g 1 0x0D) (g 3 0x09) = a /\
  x4 (g 3 0x0E) (g 2 0x0B) (g 1 0x0D) (g 1 0x09) = 0 /\
  x4 (g 1 0x0E) (g 3 0x0B) (g 2 0x0D) (g 1 0x09) = 0 /\
  x4 (g 1 0x0E) (g 1 0x0B) (g 3 0x0D) (g 2 0x09) = 0.
Proof.
  by_bytes (fun a =>
    let g c d := gf_mul (gf_mul a c) d in
    let x4 a b c d := Z.lxor (Z.lxor (Z.lxor a b) c) d in
    (x4 (g 2 0x0E) (g 1 0x0B) (g 1 0x0D) (g 3 0x09) =? a) &&
    (x4 (g 3 0x0E) (g 2 0x0B) (g 1 0x0D) (g 1 0x09) =? 0) &&
    (x4 (g 1 0x0E) (g 3 0x0B) (g 2 0x0D) (g 1 0x09) =? 0) &&
    (x4 (g 1 0x0E) (g 1 0x0B) (g 3 0x0D) (g 2 0x09) =? 0)).
  cbv zeta in *. rewrite !andb_true_iff, !Z.eqb_eq in H. tauto.
Qed.

Lemma row_cases r : 0 <= r < 4 -> r = 0 \/ r = 1 \/ r = 2 \/ r = 3.
Proof. lia. Qed.
Lemma mixed_u8 inv a r : (forall i, is_u8 (a i)) -> is_u8 (mixed inv a r).
Proof. intros Ha. unfold mixed, mix_with. destruct inv; repeat apply xor_u8; by apply gf_mul_u8. Qed.
Lemma column_inverse c0 c1 c2 c3 : is_u8 c0 -> is_u8 c1 -> is_u8 c2 -> is_u8 c3 ->
  let x4 a b c d := Z.lxor (Z.lxor (Z.lxor a b) c) d in
  let b a0 a1 a2 a3 := x4 (gf_mul a0 2) (gf_mul a1 3) (gf_mul a2 1) (gf_mul a3 1) in
  x4 (gf_mul (b c0 c1 c2 c3) 0x0E) (gf_mul (b c1 c2 c3 c0) 0x0B)
     (gf_mul (b c2 c3 c0 c1) 0x0D) (gf_mul (b c3 c0 c1 c2) 0x09) = c0.
Proof.
  intros H0 H1 H2 H3. cbv beta zeta. rewrite !gf_mul_xor by auto 10 with cint.
  destruct (gf_mul_inverse c0 H0) as (E0 & _). destruct (gf_mul_inverse c1 H1) as (_ & E1 & _).
  destruct (gf_mul_inverse c2 H2) as (_ & _ & E2 & _). destruct (gf_mul_inverse c3 H3) as (_ & _ & _ & E3).
  cbv beta zeta in E0, E1, E2, E3.
  transitivity (Z.lxor (Z.lxor (Z.lxor c0 0) 0) 0); [|by rewrite !Z.lxor_0_r].
  rewrite <-E0 at 5. rewrite <-E1 at 1. rewrite <-E2 at 1. rewrite <-E3 at 1. clear. xor_ac.
Qed.
Lemma mixed_inverse a r : (forall i, is_u8 (a i)) -> 0 <= r < 4 -> mixed true (mixed false a) r = a r.
Proof.
  intros Ha Hr. unfold mixed, mix_with.
  destruct (row_cases r Hr) as [->|[->|[->| ->]]];
  repeat match goal with |- context [?x mod 4] => let v := eval vm_compute in (x mod 4) in change (x mod 4) with v end;
  by apply column_inverse.
Qed.

Lemma put4 st p f s i v0 v1 v2 v3 : becomes st p f s -> 0 <= i -> i + 4 <= 32 ->
  is_u8 v0 -> is_u8 v1 -> is_u8 v2 -> is_u8 v3 ->
  exists s', (s ← put s (i + 0) v0; s ← put s (i + 1) v1; s ← put s (i + 2) v2; put s (i + 3) v3) = Done s' /\
    becomes st (fun j => ((i <=? j) && (j <? i + 4)) || p j)
      (fun j => if j =? i then v0 else if j =? i + 1 then v1 else if j =? i + 2 then v2
                else if j =? i + 3 then v3 else f j) s'.
Proof.
  intros H Hi Hl H0 H1 H2 H3. rewrite Z.add_0_r.
  destruct (becomes_put _ _ _ _ i v0 H) as (s0 & -> & B0); [lia|done|]. rewrite bind_done.
  destruct (becomes_put _ _ _ _ (i + 1) v1 B0) as (s1 & -> & B1); [lia|done|]. rewrite bind_done.
  destruct (becomes_put _ _ _ _ (i + 2) v2 B1) as (s2 & -> & B2); [lia|done|]. rewrite bind_done.
  destruct (becomes_put _ _ _ _ (i + 3) v3 B2) as (s3 & -> & B3); [lia|done|].
  exists s3. split; [done|]. eapply becomes_ext; [exact B3|]. clear - Hi Hl. intros j Hj. split.
  - destruct (Z.eqb_spec j i), (Z.eqb_spec j (i + 1)), (Z.eqb_spec j (i + 2)), (Z.eqb_spec j (i + 3)),
      (Z.leb_spec i j), (Z.ltb_spec j (i + 4)); try done; lia.
  - intros _. destruct (Z.eqb_spec j i), (Z.eqb_spec j (i + 1)), (Z.eqb_spec j (i + 2)), (Z.eqb_spec j (i + 3)); try done; lia.
Qed.

(** The bytes of a column as the code computes them. *)
Lemma mixed_code a0 a1 a2 a3 : is_u8 a0 -> is_u8 a1 -> is_u8 a2 -> is_u8 a3 ->
  let a r := if r =? 0 then a0 else if r =? 1 then a1 else if r =? 2 then a2 else a3 in
  let x4 a b c d := u8 (Z.lxor (Z.lxor (Z.lxor a b) c) d) in
  let xt a b t := u8 (Z.lxor (Z.lxor a t) (xtime (u8 (Z.lxor a b)))) in
  let t := x4 a0 a1 a2 a3 in
  (mixed true a 0 = x4 (gf_mul a0 0x0E) (gf_mul a1 0x0B) (gf_mul a2 0x0D) (gf_mul a3 0x09) /\
   mixed true a 1 = x4 (gf_mul a0 0x09) (gf_mul a1 0x0E) (gf_mul a2 0x0B) (gf_mul a3 0x0D) /\
   mixed true a 2 = x4 (gf_mul a0 0x0D) (gf_mul a1 0x09) (gf_mul a2 0x0E) (gf_mul a3 0x0B) /\
   mixed true a 3 = x4 (gf_mul a0 0x0B) (gf_mul a1 0x0D) (gf_mul a2 0x09) (gf_mul a3 0x0E)) /\
  (mixed false a 0 = xt a0 a1 t /\ mixed false a 1 = xt a1 a2 t /\
   mixed false a 2 = xt a2 a3 t /\ mixed false a 3 = xt a3 a0 t).
Proof.
  intros H0 H1 H2 H3. cbv beta zeta. unfold mixed, mix_with.
  repeat match goal with |- context [?x mod 4] => let v := eval vm_compute in (x mod 4) in change (x mod 4) with v end.
  cbn [Z.eqb Pos.eqb].
  destruct (gf_mul_table a0 H0) as (-> & -> & ->). destruct (gf_mul_table a1 H1) as (-> & -> & ->).
  destruct (gf_mul_table a2 H2) as (-> & -> & ->). destruct (gf_mul_table a3 H3) as (-> & -> & ->).
  rewrite !(u8_id (Z.lxor _ _)) by auto 10 with cint. rewrite !xtime_xor by done.
  split_and!; clear; xor_ac.
Qed.
Lemma mix_columns_ok st nb inv : is_state st -> 0 < nb <= 8 ->
  exists st', lh_crypto_rijndael_mix_columns st nb inv = Done st' /\
    becomes st (fun j => j / 4 <? nb) (fun j => mixed inv (fun r => byte_at st (4 * (j / 4) + r)) (j mod 4)) st'.
Proof.
  intros Hst Hnb. unfold lh_crypto_rijndael_mix_columns.
  apply (for_up_rule (fun i s => becomes st (fun j => j / 4 <? i)
    (fun j => mixed inv (fun r => byte_at st (4 * (j / 4) + r)) (j mod 4)) s)); [lia| |].
  { eapply becomes_ext; [by apply (becomes_none st (fun j => j))|]. intros j Hj.
    rewrite (proj2 (Z.ltb_ge (j / 4) 0)) by (apply Z.div_pos; lia). done. }
  intros c s Hc Hs. cbv beta zeta.
  assert (forall k, 0 <= k < 4 -> byte_at s (c * 4 + k) = byte_at st (4 * c + k)) as Hk.
  { intros k Hk. destruct Hs as (_ & _ & ->); [|lia]. rewrite (proj2 (Z.ltb_ge _ c)) by (clear - Hk; zdm). f_equal. lia. }
  assert (len s = 32) as Hl by apply Hs.
  rewrite !byte_at_load, !bind_done, !Hk by lia.
  assert (forall k, is_u8 (byte_at st k)) as Hu by (intros; by apply byte_at_u8; destruct Hst).
  destruct (mixed_code _ _ _ _ (Hu (4 * c + 0)) (Hu (4 * c + 1)) (Hu (4 * c + 2)) (Hu (4 * c + 3)))
    as [(I0 & I1 & I2 & I3) (F0 & F1 & F2 & F3)].
  set (a := fun r : Z => if r =? 0 then _ else _) in *.
  assert (forall i r, mixed i a r = mixed i (fun r => byte_at st (4 * c + r)) r) as Ea.
  { intros i r. assert (forall x, a (x mod 4) = byte_at st (4 * c + x mod 4)) as E.
    { intros x. destruct (row_cases (x mod 4)) as [->|[->|[->| ->]]]; [apply Z.mod_pos_bound; lia|done..]. }
    unfold mixed, mix_with. destruct i; by rewrite !E. }
  rewrite Ea in I0, I1, I2, I3, F0, F1, F2, F3. cbv zeta in *.
  assert (forall v0 v1 v2 v3, mixed inv (fun r => byte_at st (4 * c + r)) 0 = v0 ->
    mixed inv (fun r => byte_at st (4 * c + r)) 1 = v1 -> mixed inv (fun r => byte_at st (4 * c + r)) 2 = v2 ->
    mixed inv (fun r => byte_at st (4 * c + r)) 3 = v3 ->
    exists s', (s ← put s (c * 4 + 0) v0; s ← put s (c * 4 + 1) v1; s ← put s (c * 4 + 2) v2; put s (c * 4 + 3) v3) = Done s' /\
      becomes st (fun j => j / 4 <? c + 1) (fun j => mixed inv (fun r => byte_at st (4 * (j / 4) + r)) (j mod 4)) s') as Hput.
  { intros v0 v1 v2 v3 <- <- <- <-. destruct (put4 _ _ _ _ (c * 4) _ _ _ _ Hs ltac:(lia) ltac:(lia)
      (mixed_u8 inv _ 0 (fun r => Hu (4 * c + r))) (mixed_u8 inv _ 1 (fun r => Hu (4 * c + r))) (mixed_u8 inv _ 2 (fun r => Hu (4 * c + r)))
      (mixed_u8 inv _ 3 (fun r => Hu (4 * c + r)))) as (s' & E & B).
    exists s'. split; [exact E|]. eapply becomes_ext; [exact B|]. clear - Hc. intros j Hj. split.
    - destruct (Z.leb_spec (c * 4) j), (Z.ltb_spec j (c * 4 + 4)), (Z.ltb_spec (j / 4) c), (Z.ltb_spec (j / 4) (c + 1)); try done; zdm.
    - intros _.
      destruct (Z.eqb_spec j (c * 4)) as [->|]; [by rewrite Z.div_mul, Z.mod_mul by lia|].
      destruct (Z.eqb_spec j (c * 4 + 1)) as [->|]; [by rewrite Z.div_add_l, (Z.add_comm _ 1), Z.mod_add, Z.add_0_r by lia|].
      destruct (Z.eqb_spec j (c * 4 + 2)) as [->|]; [by rewrite Z.div_add_l, (Z.add_comm _ 2), Z.mod_add, Z.add_0_r by lia|].
      destruct (Z.eqb_spec j (c * 4 + 3)) as [->|]; [by rewrite Z.div_add_l, (Z.add_comm _ 3), Z.mod_add, Z.add_0_r by lia|done]. }
  destruct inv; by apply Hput.
Qed.

(** ** The round keys *)

(** A session for blocks of [n] bytes whose key is expanded. *)
Definition keyed (s : lh_crypto_rijndael_t) (n nr : Z) : Prop :=
  rj_block_size s = n /\ rj_round_count s = nr /\ len (rj_expanded_key s) = 480 /\ is_bytes (rj_expanded_key s) /\
  lh_crypto_rijndael_size_ok n = true /\ 1 <= nr <= 14.
Lemma size_ok n : lh_crypto_rijndael_size_ok n = true -> n = 16 \/ n = 24 \/ n = 32.
Proof. unfold lh_crypto_rijndael_size_ok. rewrite !orb_true_iff, !Z.eqb_eq. tauto. Qed.
Lemma keyed_size s n nr : keyed s n nr -> lh_crypto_rijndael_get_block_size s = Done n.
Proof.
  intros (H & _ & _ & _ & Hn & _). unfold lh_crypto_rijndael_get_block_size. rewrite H.
  destruct (size_ok n Hn) as [->|[->| ->]]; done.
Qed.
Lemma xor_into_ok st k n : is_state st -> is_bytes k -> 0 <= n <= 32 -> n <= len k ->
  exists st', xor_into st st k n = Done st' /\
    becomes st (fun j => j <? n) (fun j => Z.lxor (byte_at st j) (byte_at k j)) st'.
Proof.
  intros [Hl Hb] Hk Hn Hnk. destruct (xor_into_at st st k n) as (b & E & Hlb & Hbb & H); [done..|lia|lia|lia|].
  exists b. split; [exact E|]. split_and!; [lia|done|]. intros j Hj. apply H. lia.
Qed.
Lemma add_round_key_ok s n nr st round : keyed s n nr -> is_state st -> 0 <= round <= nr ->
  exists st', add_round_key s round n st = Done st' /\
    becomes st (fun j => j <? n) (fun j => Z.lxor (byte_at st j) (byte_at (rj_expanded_key s) (round * n + j))) st'.
Proof.
  intros Hk Hst Hr. unfold add_round_key, lh_crypto_rijndael_get_round_key. rewrite (keyed_size _ _ _ Hk), bind_done.
  destruct Hk as (_ & _ & Hl & Hb & Hn & Hnr). assert (0 <= n <= 32) by (destruct (size_ok n Hn) as [->|[->| ->]]; lia).
  assert (round * n + n <= 480) by (destruct (size_ok n Hn) as [->|[->| ->]]; lia).
  rewrite u64_id by zb. cbv zeta. rewrite bind_done. unfold lh_crypto_rijndael_get_expanded_key.
  destruct (xor_into_ok st (drop (Z.to_nat (round * n)) (rj_expanded_key s)) n) as (st' & -> & B);
    [done|by apply Forall_drop|done|rewrite length_drop; lia|].
  exists st'. split; [done|]. eapply becomes_ext; [exact B|]. intros j Hj. split; [done|]. intros _.
  rewrite byte_at_drop by lia. do 2 f_equal. lia.
Qed.

(** ** Blocks as functions *)

(** The same first [n] bytes. *)
Definition same (n : Z) (f g : Z -> Z) : Prop := forall j, 0 <= j < n -> f j = g j.
#[export] Instance same_equiv n : Equivalence (same n).
Proof.
  split; [by intros f j|by intros f g H j Hj; rewrite H|]. intros f g h H1 H2 j Hj. by rewrite H1, H2.
Qed.
Definition byte_fun (f : Z -> Z) : Prop := forall j, is_u8 (f j).

Definition f_sub (inv : bool) (f : Z -> Z) (j : Z) : Z := byte_at (if inv then m_inv_sbox else m_sbox) (f j).
Definition f_shift (inv : bool) (nb : Z) (f : Z -> Z) (j : Z) : Z :=
  f (j mod 4 + 4 * from_col inv nb (row_shift nb (j mod 4)) (j / 4)).
Definition f_mix (inv : bool) (f : Z -> Z) (j : Z) : Z := mixed inv (fun r => f (4 * (j / 4) + r)) (j mod 4).
Definition f_add (k f : Z -> Z) (j : Z) : Z := Z.lxor (f j) (k j).

(** A block size in columns. *)
Definition columns (n nb : Z) : Prop := n = 4 * nb /\ 0 < nb <= 8.

Lemma mixed_ext inv a b r : (forall i, 0 <= i < 4 -> a i = b i) -> mixed inv a r = mixed inv b r.
Proof.
  intros H. assert (forall x, a (x mod 4) = b (x mod 4)) as E by (intros; apply H, Z.mod_pos_bound; lia).
  unfold mixed, mix_with. destruct inv; by rewrite !E.
Qed.
#[export] Instance f_sub_proper n inv : Proper (same n ==> same n) (f_sub inv).
Proof. intros f g H j Hj. unfold f_sub. by rewrite H. Qed.
#[export] Instance f_add_proper n : Proper (same n ==> same n ==> same n) f_add.
Proof. intros k l Hk f g H j Hj. unfold f_add. by rewrite H, Hk. Qed.
Lemma f_shift_proper n nb inv f g : columns n nb -> same n f g -> same n (f_shift inv nb f) (f_shift inv nb g).
Proof.
  intros [-> Hnb] H j Hj. apply H. pose proof (Z.mod_pos_bound j 4 ltac:(lia)).
  pose proof (from_col_range inv nb (row_shift nb (j mod 4)) (j / 4) ltac:(lia)). lia.
Qed.
Lemma f_mix_proper n nb inv f g : columns n nb -> same n f g -> same n (f_mix inv f) (f_mix inv g).
Proof. intros [-> Hnb] H j Hj. apply mixed_ext. intros i Hi. apply H. clear - Hi Hj. zdm. Qed.

Lemma f_sub_bytes inv f : byte_fun (f_sub inv f).
Proof. intros j. apply byte_at_u8, sbox_bytes. Qed.
Lemma f_shift_bytes inv nb f : byte_fun f -> byte_fun (f_shift inv nb f).
Proof. intros H j. apply H. Qed.
Lemma f_mix_bytes inv f : byte_fun f -> byte_fun (f_mix inv f).
Proof. intros H j. apply mixed_u8. intros. apply H. Qed.
Lemma f_add_bytes k f : byte_fun k -> byte_fun f -> byte_fun (f_add k f).
Proof. intros Hk Hf j. by apply xor_u8. Qed.
#[export] Hint Resolve f_sub_bytes f_shift_bytes f_mix_bytes f_add_bytes : cint.

(** Each step undoes its inverse. *)
Lemma f_add_undo k f n : same n (f_add k (f_add k f)) f.
Proof. intros j Hj. unfold f_add. by rewrite Z.lxor_assoc, Z.lxor_nilpotent, Z.lxor_0_r. Qed.
Lemma f_sub_undo f n : byte_fun f -> same n (f_sub true (f_sub false f)) f.
Proof. intros Hf j Hj. by apply inv_sbox_inverse. Qed.
Lemma f_mix_undo f n : byte_fun f -> same n (f_mix true (f_mix false f)) f.
Proof.
  intros Hf j Hj. unfold f_mix. pose proof (Z.mod_pos_bound j 4 ltac:(lia)) as Hm.
  transitivity (mixed true (mixed false (fun r => f (4 * (j / 4) + r))) (j mod 4)).
  - apply mixed_ext. intros i Hi. replace ((4 * (j / 4) + i) / 4) with (j / 4) by (clear - Hi; zdm).
    by replace ((4 * (j / 4) + i) mod 4) with i by (clear - Hi; zdm).
  - rewrite mixed_inverse by (done || intros; apply Hf). f_equal. clear. zdm.
Qed.
Lemma f_shift_undo f n nb : columns n nb -> same n (f_shift true nb (f_shift false nb f)) f.
Proof.
  intros [-> Hnb] j Hj. unfold f_shift. pose proof (Z.mod_pos_bound j 4 ltac:(lia)) as Hm.
  pose proof (from_col_range true nb (row_shift nb (j mod 4)) (j / 4) ltac:(lia)) as Hc.
  set (k := from_col true nb _ (j / 4)) in *.
  replace ((j mod 4 + 4 * k) mod 4) with (j mod 4) by (clear - Hm; clearbody k; zdm).
  replace ((j mod 4 + 4 * k) / 4) with k by (clear - Hm; clearbody k; zdm).
  f_equal. transitivity (j mod 4 + 4 * (j / 4)); [|clear; zdm]. do 2 f_equal. unfold k, from_col.
  rewrite Zplus_mod_idemp_l. replace (j / 4 - row_shift nb (j mod 4) + row_shift nb (j mod 4)) with (j / 4) by lia.
  apply Z.mod_small. clear - Hj. zdm.
Qed.

(** ** The cipher as a function *)

Section Cipher.
Context (n nb nr : Z) (key : Z -> Z -> Z).
Context (Hn : columns n nb) (Hnr : 1 <= nr) (Hkey : forall r, byte_fun (key r)).

Definition f_round (f : Z -> Z) (r : Z) : Z -> Z :=
  f_add (key r) (f_mix false (f_shift false nb (f_sub false f))).
Definition f_encrypt (f : Z -> Z) : Z -> Z :=
  f_add (key nr) (f_shift false nb (f_sub false (foldl f_round (f_add (key 0) f) (seqZ 1 (nr - 1))))).
Definition f_unround (f : Z -> Z) (r : Z) : Z -> Z :=
  f_mix true (f_add (key (r - 1)) (f_sub true (f_shift true nb f))).
Definition f_decrypt (f : Z -> Z) : Z -> Z :=
  f_add (key 0) (f_sub true (f_shift true nb
    (foldl f_unround (f_add (key nr) f) (map (fun i => nr - i) (seqZ 0 (nr - 1)))))).

Lemma f_unround_proper f g r : same n f g -> same n (f_unround f r) (f_unround g r).
Proof using Hn.
  intros H. eapply f_mix_proper; [done|]. apply f_add_proper; [done|]. apply f_sub_proper. by apply f_shift_proper.
Qed.
Lemma unrounds_proper l : forall f g, same n f g -> same n (foldl f_unround f l) (foldl f_unround g l).
Proof using Hn. induction l as [|r l IH]; intros f g H; cbn [foldl]; [done|]. by apply IH, f_unround_proper. Qed.
Lemma rounds_bytes l : forall f, byte_fun f -> byte_fun (foldl f_round f l).
Proof using Hkey.
  induction l as [|r l IH]; intros f Hf; cbn [foldl]; [done|]. apply IH. unfold f_round. auto with cint.
Qed.

(** What comes before the key of a round in either direction. *)
Lemma unround_round f r : byte_fun f ->
  same n (f_unround (f_shift false nb (f_sub false (f_round f r))) (r + 1)) (f_shift false nb (f_sub false f)).
Proof using Hn Hkey.
  intros Hf. unfold f_unround. rewrite Z.add_simpl_r.
  set (g := f_shift false nb (f_sub false f)). assert (byte_fun g) as Hg by (unfold g; auto with cint).
  transitivity (f_mix true (f_mix false g)); [|by apply f_mix_undo].
  eapply f_mix_proper; [done|]. etransitivity; [|apply (f_add_undo (key r))]. apply f_add_proper; [done|].
  etransitivity; [|apply f_sub_undo; unfold g; auto with cint]. apply f_sub_proper. by apply f_shift_undo.
Qed.
Lemma unrounds_rounds f k : byte_fun f -> 0 <= k ->
  same n (foldl f_unround (f_shift false nb (f_sub false (foldl f_round f (seqZ 1 k)))) (map (fun i => k + 1 - i) (seqZ 0 k)))
         (f_shift false nb (f_sub false f)).
Proof using Hn Hkey.
  intros Hf Hk. revert k Hk. apply natlike_ind; [done|]. intros k Hk IH.
  replace (Z.succ k) with (k + 1) by lia. rewrite (seqZ_app 1 k 1), foldl_app by lia.
  change (seqZ (1 + k) 1) with [0 + (1 + k)]. cbn [foldl].
  replace (map (fun i => k + 1 + 1 - i) (seqZ 0 (k + 1))) with ((k + 2) :: map (fun i => k + 1 - i) (seqZ 0 k)).
  2:{ rewrite (seqZ_cons 0 (k + 1)) by lia. cbn [map]. f_equal; [lia|]. replace (Z.pred (k + 1)) with k by lia.
      rewrite <-(fmap_add_seqZ 1 0 k : map (Z.add 1) (seqZ 0 k) = seqZ (Z.succ 0) k), map_map.
      apply map_ext. intros. lia. }
  cbn [foldl]. etransitivity; [|exact IH]. apply unrounds_proper. replace (0 + (1 + k)) with (k + 1) by lia.
  replace (k + 2) with (k + 1 + 1) by lia. apply unround_round, rounds_bytes, Hf.
Qed.
Lemma decrypt_encrypt f : byte_fun f -> same n (f_decrypt (f_encrypt f)) f.
Proof using Hn Hnr Hkey.
  intros Hf. unfold f_decrypt, f_encrypt. etransitivity; [|apply (f_add_undo (key 0))].
  apply f_add_proper; [done|]. set (g := f_add (key 0) f). assert (byte_fun g) as Hg by (unfold g; auto with cint).
  etransitivity; [|by apply f_sub_undo]. apply f_sub_proper.
  etransitivity; [|by apply (f_shift_undo _ n nb)]. apply f_shift_proper; [done|].
  etransitivity; [|by apply (unrounds_rounds g (nr - 1)); [|lia]].
  replace (nr - 1 + 1) with nr by lia. apply unrounds_proper, f_add_undo.
Qed.
End Cipher.

(** ** The code computes these functions *)

Definition shows (n : Z) (st : buffer) (f : Z -> Z) : Prop := is_state st /\ same n (byte_at st) f.
Lemma byte_at_fun st : is_bytes st -> byte_fun (byte_at st).
Proof. intros H j. by apply byte_at_u8. Qed.
Lemma shows_state n st f : shows n st f -> is_state st.
Proof. by intros []. Qed.
Lemma shows_same n st f g : shows n st f -> same n f g -> shows n st g.
Proof. intros [H1 H2] H. split; [done|]. by etransitivity. Qed.
Lemma becomes_shows n nb st p f st' g : columns n nb -> becomes st p f st' ->
  (forall j, 0 <= j < n -> p j = true /\ f j = g j) -> shows n st' g.
Proof.
  intros [-> Hnb] (Hl & Hb & H) Hg. split; [done|]. intros j Hj. rewrite H by lia.
  destruct (Hg j Hj) as [-> ->]. done.
Qed.
Lemma column_range n nb j : columns n nb -> 0 <= j < n -> (j / 4 <? nb) = true.
Proof. intros [-> Hnb] Hj. apply Z.ltb_lt. clear - Hj. zdm. Qed.

Lemma sub_shows n nb st f inv : columns n nb -> shows n st f ->
  exists st', lh_crypto_rijndael_sub_bytes st n inv = Done st' /\ shows n st' (f_sub inv f).
Proof.
  intros Hn [Hst Hf]. destruct (sub_bytes_ok st n inv) as (st' & E & B); [done|destruct Hn; lia|].
  exists st'. split; [exact E|]. eapply becomes_shows; [done|exact B|]. intros j Hj. split; [by apply Z.ltb_lt, Hj|].
  exact (f_sub_proper n inv (byte_at st) f Hf j Hj).
Qed.
Lemma shift_shows n nb st f inv : columns n nb -> shows n st f ->
  exists st', lh_crypto_rijndael_shift_rows st nb inv = Done st' /\ shows n st' (f_shift inv nb f).
Proof.
  intros Hn [Hst Hf]. destruct (shift_rows_ok st nb inv) as (st' & E & B); [done|destruct Hn; lia|].
  exists st'. split; [exact E|]. eapply becomes_shows; [done|exact B|]. intros j Hj.
  split; [by apply (column_range n)|]. exact (f_shift_proper n nb inv (byte_at st) f Hn Hf j Hj).
Qed.
Lemma mix_shows n nb st f inv : columns n nb -> shows n st f ->
  exists st', lh_crypto_rijndael_mix_columns st nb inv = Done st' /\ shows n st' (f_mix inv f).
Proof.
  intros Hn [Hst Hf]. destruct (mix_columns_ok st nb inv) as (st' & E & B); [done|destruct Hn; lia|].
  exists st'. split; [exact E|]. eapply becomes_shows; [done|exact B|]. intros j Hj.
  split; [by apply (column_range n)|]. exact (f_mix_proper n nb inv (byte_at st) f Hn Hf j Hj).
Qed.
(** The key of a round, as it lies in the session. *)
Definition key_of (s : lh_crypto_rijndael_t) (r : Z) : Z -> Z :=
  fun j => byte_at (rj_expanded_key s) (r * rj_block_size s + j).
Lemma key_of_bytes s r : is_bytes (rj_expanded_key s) -> byte_fun (key_of s r).
Proof. intros H j. by apply byte_at_u8. Qed.
Lemma add_shows s n nr nb st f r : keyed s n nr -> columns n nb -> 0 <= r <= nr -> shows n st f ->
  exists st', add_round_key s r n st = Done st' /\ shows n st' (f_add (key_of s r) f).
Proof.
  intros Hk Hn Hr [Hst Hf]. destruct (add_round_key_ok s n nr st r) as (st' & E & B); [done..|].
  exists st'. split; [exact E|]. eapply becomes_shows; [done|exact B|]. intros j Hj.
  split; [by apply Z.ltb_lt, Hj|]. unfold f_add, key_of. rewrite Hf by done. by destruct Hk as (-> & _).
Qed.
Lemma for_up_shows {A} n (F : (Z -> Z) -> Z -> Z -> Z) (body : Z -> buffer -> outcome buffer) from k st f
  (G : A) : 0 <= k ->
  (forall i st f, from <= i < from + k -> shows n st f -> exists st', body i st = Done st' /\ shows n st' (F f i)) ->
  shows n st f -> exists st', for_up from (from + k) body st = Done st' /\ shows n st' (foldl F f (seqZ from k)).
Proof.
  intros Hk Hbody Hs. destruct (for_up_rule (fun i st' => shows n st' (foldl F f (seqZ from (i - from)))) from (from + k) body st)
    as (st' & E & H); [lia| | |].
  - by rewrite Z.sub_diag.
  - intros i s Hi H. destruct (Hbody i s _ Hi H) as (s' & E & H'). exists s'. split; [done|].
    replace (i + 1 - from) with (i - from + 1) by lia. rewrite seqZ_app, foldl_app by lia.
    change (seqZ (from + (i - from)) 1) with [0 + (from + (i - from))]. cbn [foldl].
    by replace (0 + (from + (i - from))) with i by lia.
  - exists st'. split; [exact E|]. by replace (from + k - from) with k in H by lia.
Qed.
Lemma for_down_shows n (F : (Z -> Z) -> Z -> Z -> Z) (body : Z -> buffer -> outcome buffer) k : forall from st f,
  (forall i st f, from - Z.of_nat k < i <= from -> shows n st f -> exists st', body i st = Done st' /\ shows n st' (F f i)) ->
  shows n st f ->
  exists st', for_down k from body st = Done st' /\ shows n st' (foldl F f (map (fun i => from - i) (seqZ 0 (Z.of_nat k)))).
Proof.
  induction k as [|k IH]; intros from st f Hbody Hs; cbn [for_down]; [by exists st|].
  destruct (Hbody from st f ltac:(lia) Hs) as (s1 & -> & H1). rewrite bind_done.
  destruct (IH (from - 1) s1 (F f from)) as (s2 & -> & H2); [|done|].
  { intros i s g Hi. apply Hbody. lia. }
  exists s2. split; [done|]. rewrite seqZ_cons by lia. cbn [map foldl]. rewrite Z.sub_0_r.
  replace (Z.pred (Z.of_nat (S k))) with (Z.of_nat k) by lia.
  rewrite <-(fmap_add_seqZ 1 0 (Z.of_nat k) : map (Z.add 1) (seqZ 0 (Z.of_nat k)) = seqZ (Z.succ 0) (Z.of_nat k)), map_map.
  rewrite (map_ext _ (fun i => from - 1 - i)); [exact H2|]. intros i. lia.
Qed.

Definition f_cipher (s : lh_crypto_rijndael_t) (decrypt : bool) : (Z -> Z) -> Z -> Z :=
  let nb := rj_block_size s / 4 in
  (if decrypt then f_decrypt else f_encrypt) nb (rj_round_count s) (key_of s).

Lemma keyed_columns s n nr : keyed s n nr -> columns n (n / 4).
Proof. intros (_ & _ & _ & _ & Hn & _). destruct (size_ok n Hn) as [->|[->| ->]]; done. Qed.

Lemma encipher_shows s n nr st f : keyed s n nr -> shows n st f ->
  exists st', encipher s n (n / 4) nr st = Done st' /\ shows n st' (f_encrypt (n / 4) nr (key_of s) f).
Proof.
  intros Hk Hs. pose proof (keyed_columns _ _ _ Hk) as Hn. pose proof Hk as (_ & _ & _ & _ & _ & Hnr). unfold encipher.
  destruct (add_shows s n nr _ st _ 0 Hk Hn ltac:(lia) Hs) as (s1 & -> & H1). rewrite bind_done.
  destruct (for_up_shows n (f_round (n / 4) (key_of s)) (fun round state =>
       state ← lh_crypto_rijndael_sub_bytes state n false;
       state ← lh_crypto_rijndael_shift_rows state (n / 4) false;
       state ← lh_crypto_rijndael_mix_columns state (n / 4) false;
       add_round_key s round n state) 1 (nr - 1) s1 (f_add (key_of s 0) f) tt) with (3 := H1) as (s2 & E2 & H2); [lia| |].
  { intros i st0 f0 Hi0 H0.
    destruct (sub_shows _ _ _ _ false Hn H0) as (s3 & -> & H3). rewrite bind_done.
    destruct (shift_shows _ _ _ _ false Hn H3) as (s4 & -> & H4). rewrite bind_done.
    destruct (mix_shows _ _ _ _ false Hn H4) as (s5 & -> & H5). rewrite bind_done.
    destruct (add_shows s n nr _ s5 _ i Hk Hn ltac:(lia) H5) as (s6 & -> & H6). by exists s6. }
  replace (1 + (nr - 1)) with nr in E2 by lia. rewrite E2, bind_done.
  destruct (sub_shows _ _ _ _ false Hn H2) as (s3 & -> & H3). rewrite bind_done.
  destruct (shift_shows _ _ _ _ false Hn H3) as (s4 & -> & H4). rewrite bind_done.
  destruct (add_shows s n nr _ s4 _ nr Hk Hn ltac:(lia) H4) as (s5 & -> & H5). by exists s5.
Qed.
Lemma decipher_shows s n nr st f : keyed s n nr -> shows n st f ->
  exists st', decipher s n (n / 4) nr st = Done st' /\ shows n st' (f_decrypt (n / 4) nr (key_of s) f).
Proof.
  intros Hk Hs. pose proof (keyed_columns _ _ _ Hk) as Hn. pose proof Hk as (_ & _ & _ & _ & _ & Hnr). unfold decipher.
  destruct (add_shows s n nr _ st _ nr Hk Hn ltac:(lia) Hs) as (s1 & -> & H1). rewrite bind_done.
  destruct (for_down_shows n (f_unround (n / 4) (key_of s)) (fun round state =>
       state ← lh_crypto_rijndael_shift_rows state (n / 4) true;
       state ← lh_crypto_rijndael_sub_bytes state n true;
       state ← add_round_key s (u64 (round - 1)) n state;
       lh_crypto_rijndael_mix_columns state (n / 4) true) (Z.to_nat (nr - 1)) nr s1 (f_add (key_of s nr) f)) with (2 := H1) as (s2 & -> & H2).
  { intros i st0 f0 Hi0 H0. rewrite u64_id by zb.
    destruct (shift_shows _ _ _ _ true Hn H0) as (s3 & -> & H3). rewrite bind_done.
    destruct (sub_shows _ _ _ _ true Hn H3) as (s4 & -> & H4). rewrite bind_done.
    destruct (add_shows s n nr _ s4 _ (i - 1) Hk Hn ltac:(lia) H4) as (s5 & -> & H5). rewrite bind_done.
    destruct (mix_shows _ _ _ _ true Hn H5) as (s6 & -> & H6). by exists s6. }
  rewrite bind_done. destruct (shift_shows _ _ _ _ true Hn H2) as (s3 & -> & H3). rewrite bind_done.
  destruct (sub_shows _ _ _ _ true Hn H3) as (s4 & -> & H4). rewrite bind_done.
  destruct (add_shows s n nr _ s4 _ 0 Hk Hn ltac:(lia) H4) as (s5 & -> & H5). exists s5. split; [done|].
  unfold f_decrypt. by rewrite Z2Nat.id in H5 by lia.
Qed.

Lemma cipher_ok s n nr in_ out dec : keyed s n nr -> is_bytes in_ -> n <= len in_ -> is_bytes out -> n <= len out ->
  exists b, lh_crypto_rijndael_cipher s in_ out dec = Done b /\ len b = len out /\ is_bytes b /\
    forall j, 0 <= j -> byte_at b j = if j <? n then f_cipher s dec (byte_at in_) j else byte_at out j.
Proof.
  intros Hk Hi Hni Ho Hno. unfold lh_crypto_rijndael_cipher.
  rewrite (keyed_size _ _ _ Hk), bind_done. cbv zeta. pose proof Hk as (En & Er & _ & _ & Hsz & Hnr).
  assert (0 <= n <= 32) by (destruct (size_ok n Hsz) as [->|[->| ->]]; lia).
  assert (len (local LH_CRYPTO_RIJNDAEL_BLOCK_SIZE_MAX) = 32) as H32 by done.
  destruct (copy_done (local LH_CRYPTO_RIJNDAEL_BLOCK_SIZE_MAX) 0 in_ n) as [st E]; [lia..|].
  rewrite E, bind_done. pose proof (copy_byte_at _ _ _ _ _ E) as [Hl Hb].
  assert (shows n st (byte_at in_)) as Hs.
  { split; [split; [lia|by eapply copy_is_bytes; [|exact Hi|exact E]; repeat constructor; zb]|].
    intros j Hj. rewrite Hb by lia. rewrite (proj2 (Z.leb_le 0 j)), (proj2 (Z.ltb_lt j _)), Z.sub_0_r by lia. done. }
  assert (exists st', (if negb dec then encipher s n (n / 4) nr st else decipher s n (n / 4) nr st) = Done st' /\
    shows n st' (f_cipher s dec (byte_at in_))) as (st' & E' & [[Hl' Hb'] Hf]).
  { unfold f_cipher. rewrite Er, En. destruct dec; cbn [negb]; [by apply decipher_shows|by apply encipher_shows]. }
  unfold lh_crypto_rijndael_get_round_count. rewrite Er, E', bind_done.
  destruct (copy_done out 0 st' n) as [b Ec]; [lia..|]. pose proof (copy_byte_at _ _ _ _ _ Ec) as [Hlb Hbb].
  exists b. split; [done|]. split; [done|]. split; [by apply (copy_is_bytes _ _ _ _ _ Ho Hb' Ec)|].
  intros j Hj. rewrite Hbb, Z.add_0_l, Z.sub_0_r, (proj2 (Z.leb_le 0 j)) by lia. cbn [andb].
  destruct (Z.ltb_spec j n); [apply Hf; lia|done].
Qed.

(** ** Blocks and their chaining *)

(** A session: its key is expanded and its chain is an array of bytes. *)
Definition session (s : lh_crypto_rijndael_t) (n nr : Z) : Prop :=
  keyed s n nr /\ len (rj_chain s) = 32 /\ is_bytes (rj_chain s).
(** An array that holds a block. *)
Definition holds (n : Z) (b : buffer) : Prop := is_bytes b /\ n <= len b.

Lemma f_cipher_bytes s n nr dec f : keyed s n nr -> byte_fun f -> byte_fun (f_cipher s dec f).
Proof.
  intros (_ & _ & _ & Hb & _) Hf. assert (forall r, byte_fun (key_of s r)) as Hk by (intros; by apply key_of_bytes).
  unfold f_cipher. destruct dec; unfold f_decrypt, f_encrypt; auto with cint.
Qed.
Lemma cipher_undo s n nr f : keyed s n nr -> byte_fun f -> same n (f_cipher s true (f_cipher s false f)) f.
Proof.
  intros Hk Hf. pose proof (keyed_columns _ _ _ Hk). destruct Hk as (En & Er & _ & Hb & _ & Hnr).
  unfold f_cipher. rewrite En, Er. apply decrypt_encrypt; try done; [lia|]. intros. by apply key_of_bytes.
Qed.
Lemma f_cipher_proper s n nr dec f g : keyed s n nr -> same n f g -> same n (f_cipher s dec f) (f_cipher s dec g).
Proof.
  intros Hk H. pose proof (keyed_columns _ _ _ Hk) as Hn. destruct Hk as (En & Er & _ & _ & _ & Hnr).
  unfold f_cipher. rewrite En, Er. destruct dec; unfold f_decrypt, f_encrypt.
  - apply f_add_proper; [done|]. apply f_sub_proper, f_shift_proper; [done|]. apply unrounds_proper; [done|].
    by apply f_add_proper.
  - apply f_add_proper; [done|]. apply f_shift_proper, f_sub_proper; [done|].
    assert (forall l f g, same n f g -> same n (foldl (f_round (n / 4) (key_of s)) f l) (foldl (f_round (n / 4) (key_of s)) g l)) as Hl.
    { induction l as [|r l IH]; intros f' g' H'; cbn [foldl]; [done|]. apply IH, f_add_proper; [done|].
      eapply f_mix_proper; [done|]. apply f_shift_proper; [done|]. by apply f_sub_proper. }
    apply Hl. by apply f_add_proper.
Qed.
Lemma with_chain_keyed s n nr c : keyed s n nr -> keyed (lh_crypto_rijndael_get_chain_mut s c) n nr.
Proof. done. Qed.
Lemma with_chain_cipher s c : f_cipher (lh_crypto_rijndael_get_chain_mut s c) = f_cipher s.
Proof. done. Qed.

(** What a block becomes, by the mode, and the chain after it. *)
Definition f_block (s : lh_crypto_rijndael_t) (f : Z -> Z) : Z -> Z :=
  let chain := byte_at (rj_chain s) in
  if rj_mode s =? lh_crypto_rijndael_mode_ecb then f_cipher s false f
  else if rj_mode s =? lh_crypto_rijndael_mode_cbc then f_cipher s false (fun j => Z.lxor (f j) (chain j))
  else fun j => Z.lxor (f j) (f_cipher s false chain j).
Definition next_chain (s : lh_crypto_rijndael_t) (n : Z) (f : Z -> Z) (s' : lh_crypto_rijndael_t) : Prop :=
  if rj_mode s =? lh_crypto_rijndael_mode_ecb then s' = s
  else exists c, s' = lh_crypto_rijndael_get_chain_mut s c /\ len c = 32 /\ is_bytes c /\
    forall j, 0 <= j -> byte_at c j = if j <? n then f j else byte_at (rj_chain s) j.
Lemma next_chain_unique s n f g s1 s2 : same n f g -> next_chain s n f s1 -> next_chain s n g s2 -> s1 = s2.
Proof.
  intros Hfg. unfold next_chain. destruct (_ =? _); [by intros -> ->|].
  intros (c & -> & Hl & _ & Hc) (d & -> & Hl' & _ & Hd). f_equal. apply byte_at_ext; [lia|].
  intros i Hi. rewrite Hc, Hd by lia. destruct (Z.ltb_spec i n); [apply Hfg; lia|done].
Qed.
Lemma next_chain_session s n nr f s' : session s n nr -> next_chain s n f s' -> session s' n nr.
Proof.
  intros (Hk & Hl & Hb). unfold next_chain. destruct (_ =? _); [by intros ->|].
  intros (c & -> & Hlc & Hbc & _). done.
Qed.
Lemma new_chain s n f out : 0 <= n <= 32 -> len (rj_chain s) = 32 -> is_bytes (rj_chain s) -> holds n out ->
  same n (byte_at out) f -> (rj_mode s =? lh_crypto_rijndael_mode_ecb) = false ->
  exists c, copy_bytes (rj_chain s) 0 out n = Done c /\ next_chain s n f (lh_crypto_rijndael_get_chain_mut s c).
Proof.
  intros Hn Hl Hb [Ho Hno] Hf Hm. destruct (copy_done (rj_chain s) 0 out n) as [c E]; [lia..|].
  exists c. split; [done|]. unfold next_chain. rewrite Hm. destruct (copy_byte_at _ _ _ _ _ E) as [Hlc Hc].
  exists c. split_and!; [done|lia|by apply (copy_is_bytes _ _ _ _ _ Hb Ho E)|]. intros j Hj.
  rewrite Hc, Z.add_0_l, Z.sub_0_r, (proj2 (Z.leb_le 0 j)) by lia. cbn [andb].
  destruct (Z.ltb_spec j n); [apply Hf; lia|done].
Qed.

Lemma session_size s n nr : session s n nr -> 0 < n <= 32 /\ lh_crypto_rijndael_get_block_size s = Done n.
Proof.
  intros (Hk & _). split; [|by eapply keyed_size]. destruct Hk as (_ & _ & _ & _ & Hn & _).
  destruct (size_ok n Hn) as [->|[->| ->]]; lia.
Qed.
Lemma local_holds n k : 0 <= n <= k -> holds n (local k).
Proof. intros. split; [by apply Forall_replicate|]. rewrite length_local; lia. Qed.

Lemma encrypt_block_ok s n nr in_ out : session s n nr -> holds n in_ -> holds n out ->
  exists s' c, lh_crypto_rijndael_encrypt_block s (Some in_) (Some out) = Done (s', c) /\
    len c = len out /\ is_bytes c /\ same n (byte_at c) (f_block s (byte_at in_)) /\
    next_chain s n (f_block s (byte_at in_)) s'.
Proof.
  intros Hs [Hi Hni] [Ho Hno]. destruct (session_size s n nr Hs) as [Hn Hsz]. pose proof Hs as (Hk & Hlc & Hbc).
  destruct (local_holds n LH_CRYPTO_RIJNDAEL_BLOCK_SIZE_MAX) as [Hlo Hlo']; [unfold LH_CRYPTO_RIJNDAEL_BLOCK_SIZE_MAX; lia|].
  unfold lh_crypto_rijndael_encrypt_block. cbn [assert_set]. rewrite !bind_done, Hsz, bind_done.
  unfold lh_crypto_rijndael_get_mode, lh_crypto_rijndael_get_chain.
  assert (forall c f, len c = len out -> is_bytes c -> same n (byte_at c) f -> same n f (f_block s (byte_at in_)) ->
    (rj_mode s =? lh_crypto_rijndael_mode_ecb) = false ->
    exists s' c0, (c0 ← copy_bytes (rj_chain s) 0 c n; mret (lh_crypto_rijndael_get_chain_mut s c0, c)) = Done (s', c0) /\
    len c0 = len out /\ is_bytes c0 /\ same n (byte_at c0) (f_block s (byte_at in_)) /\
    next_chain s n (f_block s (byte_at in_)) s') as Hchain.
  { intros c f Hlc' Hc Hcf Hf Hm. assert (same n (byte_at c) (f_block s (byte_at in_))) as Hb by (by etransitivity).
    assert (holds n c) as Hh by (split; [done|lia]).
    destruct (new_chain s n _ c ltac:(lia) Hlc Hbc Hh Hb Hm) as (c0 & -> & Hnc). rewrite bind_done.
    by eexists _, _. }
  destruct (rj_mode s =? lh_crypto_rijndael_mode_ecb) eqn:Em.
  { destruct (cipher_ok s n nr in_ out false) as (c & -> & Hlc' & Hc & Hcf); [done..|]. exists s, c. split; [done|].
    unfold next_chain, f_block. rewrite Em. split_and!; try done. intros j Hj. rewrite Hcf by lia.
    by rewrite (proj2 (Z.ltb_lt j n)) by lia. }
  destruct (rj_mode s =? lh_crypto_rijndael_mode_cbc) eqn:Ec.
  - destruct (xor_into_at (local LH_CRYPTO_RIJNDAEL_BLOCK_SIZE_MAX) in_ (rj_chain s) n) as (b & -> & Hlb & Hb & Hbf); [done..|lia|lia|lia|].
    rewrite bind_done. destruct (cipher_ok s n nr b out false) as (c & -> & Hlc' & Hc & Hcf); [done..|lia|done|done|]. rewrite bind_done.
    apply (Hchain c (f_cipher s false (byte_at b))); try done.
    + intros j Hj. rewrite Hcf by lia. by rewrite (proj2 (Z.ltb_lt j n)) by lia.
    + unfold f_block. rewrite Em, Ec. eapply f_cipher_proper; [done|]. intros j Hj. rewrite Hbf by lia.
      by rewrite (proj2 (Z.ltb_lt j n)) by lia.
  - destruct (cipher_ok s n nr (rj_chain s) (local LH_CRYPTO_RIJNDAEL_BLOCK_SIZE_MAX) false) as (b & -> & Hlb & Hb & Hbf); [done..|lia|done|done|].
    rewrite bind_done. destruct (xor_into_at out in_ b n) as (c & -> & Hlc' & Hc & Hcf); [done..|lia|lia|lia|]. rewrite bind_done.
    apply (Hchain c (f_block s (byte_at in_))); try done. unfold f_block. rewrite Em, Ec. intros j Hj.
    rewrite Hcf, Hbf by lia. by rewrite (proj2 (Z.ltb_lt j n)) by lia.
Qed.
(** What deciphering makes of a block. *)
Definition f_unblock (s : lh_crypto_rijndael_t) (f : Z -> Z) : Z -> Z :=
  let chain := byte_at (rj_chain s) in
  if rj_mode s =? lh_crypto_rijndael_mode_ecb then f_cipher s true f
  else if rj_mode s =? lh_crypto_rijndael_mode_cbc then fun j => Z.lxor (f_cipher s true f j) (chain j)
  else fun j => Z.lxor (f j) (f_cipher s false chain j).
Lemma f_unblock_block s n nr f g : session s n nr -> byte_fun g -> same n f (f_block s g) -> same n (f_unblock s f) g.
Proof.
  intros (Hk & _ & Hb) Hg. unfold f_unblock, f_block. destruct (_ =? _); [|destruct (_ =? _)]; intros Hf j Hj.
  - by rewrite (f_cipher_proper s n nr true _ _ Hk Hf j Hj), (cipher_undo s n nr _ Hk).
  - rewrite (f_cipher_proper s n nr true _ _ Hk Hf j Hj), (cipher_undo s n nr _ Hk) by
      (done || (intros i; apply xor_u8; [apply Hg|by apply byte_at_u8])).
    by rewrite Z.lxor_assoc, Z.lxor_nilpotent, Z.lxor_0_r.
  - rewrite Hf by done. by rewrite Z.lxor_assoc, Z.lxor_nilpotent, Z.lxor_0_r.
Qed.
Lemma next_chain_same s n f g s' : same n f g -> next_chain s n f s' -> next_chain s n g s'.
Proof.
  intros H. unfold next_chain. destruct (_ =? _); [done|]. intros (c & -> & Hl & Hb & Hc). exists c. split_and!; [done..|].
  intros j Hj. rewrite Hc by done. destruct (Z.ltb_spec j n); [apply H; lia|done].
Qed.
Lemma decrypt_block_runs s n nr in_ out : session s n nr -> holds n in_ -> holds n out ->
  exists s' d, lh_crypto_rijndael_decrypt_block s (Some in_) (Some out) = Done (s', d) /\
    len d = len out /\ is_bytes d /\ same n (byte_at d) (f_unblock s (byte_at in_)) /\ next_chain s n (byte_at in_) s'.
Proof.
  intros Hs [Hi Hni] [Ho Hno]. destruct (session_size s n nr Hs) as [Hn Hsz]. pose proof Hs as (Hk & Hlc & Hbc).
  destruct (local_holds n LH_CRYPTO_RIJNDAEL_BLOCK_SIZE_MAX) as [Hlo Hlo']; [unfold LH_CRYPTO_RIJNDAEL_BLOCK_SIZE_MAX; lia|].
  unfold lh_crypto_rijndael_decrypt_block. cbn [assert_set]. rewrite !bind_done, Hsz, bind_done.
  unfold lh_crypto_rijndael_get_mode, lh_crypto_rijndael_get_chain, f_unblock.
  destruct (rj_mode s =? lh_crypto_rijndael_mode_ecb) eqn:Em.
  { destruct (cipher_ok s n nr in_ out true) as (c & -> & Hlc' & Hc & Hcf); [done..|]. exists s, c. split; [done|].
    unfold next_chain. rewrite Em. split_and!; try done. intros j Hj. rewrite Hcf by lia. by rewrite (proj2 (Z.ltb_lt j n)) by lia. }
  destruct (copy_done (local LH_CRYPTO_RIJNDAEL_BLOCK_SIZE_MAX) 0 in_ n) as [sv Es]; [lia..|]. rewrite Es, bind_done.
  destruct (copy_byte_at _ _ _ _ _ Es) as [Hls Hsv].
  assert (same n (byte_at sv) (byte_at in_)) as Hsf.
  { intros j Hj. rewrite Hsv, (proj2 (Z.leb_le 0 j)), (proj2 (Z.ltb_lt j _)), Z.sub_0_r by lia. done. }
  assert (holds n sv) as Hh by (split; [by apply (copy_is_bytes _ _ _ _ _ Hlo Hi Es)|lia]).
  destruct (new_chain s n _ sv ltac:(lia) Hlc Hbc Hh Hsf Em) as (c0 & -> & Hnc).
  destruct (rj_mode s =? lh_crypto_rijndael_mode_cbc) eqn:Ec.
  - destruct (cipher_ok s n nr in_ (local LH_CRYPTO_RIJNDAEL_BLOCK_SIZE_MAX) true) as (b & -> & Hlb & Hb & Hbf); [done..|].
    rewrite bind_done. destruct (xor_into_at out b (rj_chain s) n) as (d & -> & Hld & Hd & Hdf); [done..|lia|lia|lia|].
    rewrite !bind_done. eexists _, d. split_and!; [done..| |exact Hnc]. intros j Hj.
    rewrite Hdf, Hbf by lia. by rewrite (proj2 (Z.ltb_lt j n)) by lia.
  - destruct (cipher_ok s n nr (rj_chain s) (local LH_CRYPTO_RIJNDAEL_BLOCK_SIZE_MAX) false) as (b & -> & Hlb & Hb & Hbf); [done..|lia|done|done|].
    rewrite bind_done. destruct (xor_into_at out in_ b n) as (d & -> & Hld & Hd & Hdf); [done..|lia|lia|lia|].
    rewrite !bind_done. eexists _, d. split_and!; [done..| |exact Hnc]. intros j Hj.
    rewrite Hdf, Hbf by lia. by rewrite (proj2 (Z.ltb_lt j n)) by lia.
Qed.
Lemma decrypt_block_ok s n nr in_ out g : session s n nr -> holds n in_ -> holds n out ->
  byte_fun g -> same n (byte_at in_) (f_block s g) ->
  exists s' d, lh_crypto_rijndael_decrypt_block s (Some in_) (Some out) = Done (s', d) /\
    len d = len out /\ is_bytes d /\ same n (byte_at d) g /\ next_chain s n (f_block s g) s'.
Proof.
  intros Hs Hi Ho Hg Hin. destruct (decrypt_block_runs s n nr in_ out Hs Hi Ho) as (s' & d & E & Hl & Hd & Hf & Hn).
  exists s', d. split_and!; [done..| |by eapply next_chain_same].
  etransitivity; [exact Hf|]. by apply (f_unblock_block s n nr).
Qed.

(** ** The key schedule *)

(** Words are lists of four bytes, the first the highest. *)
Definition xor4 (a b : list Z) : list Z := zip_with Z.lxor a b.
Definition rot4 (a : list Z) : list Z := match a with x :: r => r ++ [x] | [] => [] end.
Definition ref_rcon (k : nat) : Z := Nat.iter (k - 1) (fun x => gmul x 2) 1.
Definition ref_temp (nk i : nat) (t : list Z) : list Z :=
  if (i mod nk =? 0)%nat then xor4 (map ref_sub (rot4 t)) [ref_rcon (i / nk); 0; 0; 0]
  else if ((6 <? nk) && (i mod nk =? 4))%nat then map ref_sub t else t.
(** The words of the key, and [k] more. *)
Fixpoint ref_words (nk : nat) (key : list Z) (k : nat) : list (list Z) :=
  match k with
  | O => map (fun i => take 4 (drop (4 * i) key)) (seq 0 nk)
  | S k =>
    let ws := ref_words nk key k in
    let i := length ws in
    ws ++ [xor4 (nth (i - nk) ws []) (ref_temp nk i (nth (i - 1) ws []))]
  end.

Definition word_of (l : list Z) : Z := match l with [a; b; c; d] => be32 a b c d | _ => 0 end.
Definition is_word4 (l : list Z) : Prop := length l = 4%nat /\ is_bytes l.
Ltac word4 := split; [done|unfold is_bytes; repeat (apply Forall_cons_2; [auto with cint|]); apply Forall_nil_2].
Lemma word4_inv l : is_word4 l -> exists a b c d, l = [a; b; c; d] /\ is_u8 a /\ is_u8 b /\ is_u8 c /\ is_u8 d.
Proof.
  intros [Hl Hb]. destruct l as [|a [|b [|c [|d [|e l]]]]]; try done. exists a, b, c, d. split; [done|].
  unfold is_bytes in Hb. rewrite !Forall_cons in Hb. tauto.
Qed.
Lemma lxor_pair h l h' l' : is_u8 l -> is_u8 l' ->
  Z.lxor (256 * h + l) (256 * h' + l') = 256 * Z.lxor h h' + Z.lxor l l'.
Proof.
  intros H H'. rewrite <-!lxor_bytes by auto with cint. rewrite Z.shiftl_lxor. xor_ac.
Qed.
Lemma word_xor a b : is_word4 a -> is_word4 b ->
  is_word4 (xor4 a b) /\ word_of (xor4 a b) = Z.lxor (word_of a) (word_of b).
Proof.
  intros (a0 & a1 & a2 & a3 & -> & ? & ? & ? & ?)%word4_inv (b0 & b1 & b2 & b3 & -> & ? & ? & ? & ?)%word4_inv.
  split; [word4|]. unfold xor4. cbn [zip_with word_of].
  rewrite !be32_horner, !lxor_pair by done. done.
Qed.
Lemma word_rot a : is_word4 a -> is_word4 (rot4 a) /\ word_of (rot4 a) = lh_bit_rotate_left_u32 (word_of a) 8.
Proof.
  intros (a0 & a1 & a2 & a3 & -> & ? & ? & ? & ?)%word4_inv. split; [word4|].
  cbn [rot4 app word_of]. unfold lh_bit_rotate_left_u32. change (Z.land 8 31) with 8. cbn [Z.eqb].
  change (32 - 8) with 24. rewrite Z.shiftl_mul_pow2, Z.shiftr_div_pow2 by lia.
  change (2 ^ 8) with 256. change (2 ^ 24) with 16777216.
  replace (u32 (be32 a0 a1 a2 a3 * 256)) with ((256 * (256 * a1 + a2) + a3) * 2 ^ 8) by (change (2 ^ 8) with 256; unfold be32; zdm).
  replace (be32 a0 a1 a2 a3 / 16777216) with a0 by (unfold be32; zdm).
  rewrite lor_disjoint by zb. unfold be32. lia.
Qed.
Lemma ref_sub_u8 x : is_u8 x -> is_u8 (ref_sub x).
Proof. intros. rewrite <-sbox_is_sub by done. apply byte_at_u8. exact (sbox_bytes false). Qed.
#[export] Hint Resolve ref_sub_u8 : cint.
Lemma land_ff x : Z.land x 0xFF = u8 x.
Proof. change 0xFF with (Z.ones 8). by rewrite Z.land_ones by lia. Qed.
Lemma word_sub a : is_word4 a ->
  is_word4 (map ref_sub a) /\ lh_crypto_rijndael_sub_word (word_of a) = Done (word_of (map ref_sub a)).
Proof.
  intros (a0 & a1 & a2 & a3 & -> & ? & ? & ? & ?)%word4_inv. cbn [map word_of].
  split; [word4|].
  unfold lh_crypto_rijndael_sub_word. rewrite !land_ff.
  destruct (be32_bytes a0 a1 a2 a3) as (-> & -> & -> & ->); [done..|].
  assert (len m_sbox = 256) as Hl by exact (box_length false).
  rewrite !byte_at_load, !bind_done by zb. rewrite !sbox_is_sub by done. unfold mret, outcome_ret. f_equal.
  apply word_bytes4; by apply ref_sub_u8.
Qed.
Lemma gmul_u8_2 : forall x, is_u8 x -> gmul x 2 = xtime x.
Proof. by_bytes (fun x => gmul x 2 =? xtime x). by apply Z.eqb_eq. Qed.
Lemma ref_rcon_u8 k : is_u8 (ref_rcon k).
Proof.
  unfold ref_rcon. induction (k - 1)%nat as [|n IH]; cbn [Nat.iter nat_rect]; [zb|].
  change (is_u8 (gmul (Nat.iter n (fun x => gmul x 2) 1) 2)). rewrite gmul_u8_2 by exact IH. apply xtime_u8.
Qed.
Lemma ref_rcon_next k : (0 < k)%nat -> ref_rcon (S k) = xtime (ref_rcon k).
Proof.
  intros Hk. rewrite <-gmul_u8_2 by apply ref_rcon_u8. unfold ref_rcon.
  replace (S k - 1)%nat with (S (k - 1)) by lia. done.
Qed.

Section Schedule.
Context (nk : nat) (key : list Z).
Context (Hnk : (4 <= nk <= 8)%nat) (Hkey : is_bytes key) (Hlen : (4 * nk <= length key)%nat).

Lemma ref_words_length k : length (ref_words nk key k) = (nk + k)%nat.
Proof. induction k as [|k IH]; cbn [ref_words]; [by rewrite length_map, length_seq, Nat.add_0_r|].
  rewrite length_app, IH. cbn [length]. lia.
Qed.
(** The word [i] of the schedule. *)
Definition ref_word (i : nat) : list Z := nth i (ref_words nk key (i + 1 - nk)) [].
Lemma ref_words_nth i m : (i < nk + m)%nat -> nth i (ref_words nk key m) [] = ref_word i.
Proof.
  intros Hi. unfold ref_word. assert (forall a, (i < nk + a)%nat -> forall b, nth i (ref_words nk key (a + b)) [] = nth i (ref_words nk key a) []) as Hst.
  { intros a Ha b. induction b as [|b IH]; [by rewrite Nat.add_0_r|]. rewrite Nat.add_succ_r. cbn [ref_words].
    rewrite app_nth1 by (rewrite ref_words_length; lia). exact IH. }
  destruct (Nat.le_ge_cases m (i + 1 - nk)) as [Hle|Hle].
  - replace (i + 1 - nk)%nat with (m + (i + 1 - nk - m))%nat by lia. by rewrite Hst.
  - replace m with (i + 1 - nk + (m - (i + 1 - nk)))%nat by lia. apply Hst. lia.
Qed.
Lemma ref_word_head i : (i < nk)%nat -> ref_word i = take 4 (drop (4 * i) key).
Proof.
  intros Hi. unfold ref_word. replace (i + 1 - nk)%nat with O by lia. cbn [ref_words].
  rewrite (nth_indep _ [] (take 4 (drop (4 * O) key))) by (rewrite length_map, length_seq; lia).
  by rewrite (map_nth (fun i => take 4 (drop (4 * i) key))), seq_nth by lia.
Qed.
Lemma ref_word_step i : (nk <= i)%nat -> ref_word i = xor4 (ref_word (i - nk)) (ref_temp nk i (ref_word (i - 1))).
Proof.
  intros Hi. unfold ref_word at 1. replace (i + 1 - nk)%nat with (S (i - nk)) by lia. cbn [ref_words].
  pose proof (ref_words_length (i - nk)) as Hl. replace (nk + (i - nk))%nat with i in Hl by lia.
  rewrite app_nth2 by lia. rewrite Hl, Nat.sub_diag. cbn [nth]. by rewrite !ref_words_nth by lia.
Qed.
Lemma ref_temp_word i t : is_word4 t -> is_word4 (ref_temp nk i t).
Proof.
  intros Ht. unfold ref_temp. destruct (i mod nk =? 0)%nat.
  - apply word_xor; [by apply word_sub, word_rot|]. pose proof (ref_rcon_u8 (i / nk)). split; [done|bytes].
  - destruct (_ && _); [by apply word_sub|done].
Qed.
Lemma ref_word_ok i : is_word4 (ref_word i).
Proof.
  induction (lt_wf i) as [i _ IH]. destruct (Nat.lt_ge_cases i nk) as [Hi|Hi].
  - rewrite ref_word_head by done. split; [rewrite length_take, length_drop; lia|by apply Forall_take, Forall_drop].
  - rewrite ref_word_step by done. apply word_xor; [apply IH; lia|]. apply ref_temp_word, IH. lia.
Qed.

(** The loop that makes the words. *)
Definition schedule (i : Z) (w : buffer) : Prop :=
  len w = 120 /\ forall k, 0 <= k < i -> byte_at w k = word_of (ref_word (Z.to_nat k)).
Definition rcon_at (i : Z) : Z := be32 (ref_rcon (Z.to_nat ((i - 1) / Z.of_nat nk + 1))) 0 0 0.

Lemma schedule_put i w v : schedule i w -> 0 <= i < 120 -> v = word_of (ref_word (Z.to_nat i)) ->
  exists w', put w i v = Done w' /\ schedule (i + 1) w'.
Proof.
  intros [Hl Hw] Hi ->. rewrite put_ok by lia. eexists. split; [done|]. split; [by rewrite length_insert|].
  intros k Hk. rewrite byte_at_insert by lia. destruct (Z.eqb_spec k i) as [->|]; [done|]. apply Hw. lia.
Qed.
Lemma key_loop : exists w, for_up 0 (Z.of_nat nk) (fun i w => v ← lh_bit_unpack_be32 key (4 * i); put w i v) (local 120) = Done w /\
  schedule (Z.of_nat nk) w.
Proof.
  apply (for_up_rule schedule); [lia| |].
  - split; [done|]. intros k Hk. lia.
  - intros i w Hi Hw. rewrite unpack_be32_ok, bind_done by (done || lia). apply schedule_put; [done|lia|].
    destruct (ref_word_ok (Z.to_nat i)) as [Hl _]. rewrite ref_word_head in * by lia.
    assert (forall j, (j < 4)%nat -> nth j (take 4 (drop (4 * Z.to_nat i) key)) 0 = byte_at key (4 * i + Z.of_nat j)) as Hj.
    { intros j Hj. rewrite nth_lookup, lookup_take_lt, lookup_drop by done. unfold byte_at. rewrite nth_lookup. do 2 f_equal. lia. }
    destruct (take 4 _) as [|a [|b [|c [|d [|]]]]]; try done.
    pose proof (Hj 0%nat ltac:(lia)) as E0. pose proof (Hj 1%nat ltac:(lia)) as E1. pose proof (Hj 2%nat ltac:(lia)) as E2.
    pose proof (Hj 3%nat ltac:(lia)) as E3. cbn [nth Z.of_nat Pos.of_succ_nat Pos.succ] in *. rewrite Z.add_0_r in E0. by rewrite E0, E1, E2, E3.
Qed.

(** The constant of the rounds goes from multiple to multiple of the key's length. *)
Lemma rcon_same i : Z.of_nat nk <= i -> i mod Z.of_nat nk <> 0 -> rcon_at (i + 1) = rcon_at i.
Proof.
  intros Hi Hm. unfold rcon_at. do 3 f_equal. replace (i + 1 - 1) with i by lia.
  pose proof (Z.mod_pos_bound i (Z.of_nat nk) ltac:(lia)). pose proof (Z.div_mod i (Z.of_nat nk) ltac:(lia)).
  f_equal. apply (Z.div_unique _ _ _ (i mod Z.of_nat nk - 1)); lia.
Qed.
Lemma rcon_next i : Z.of_nat nk <= i -> i mod Z.of_nat nk = 0 ->
  rcon_at i = be32 (ref_rcon (Z.to_nat i / nk)) 0 0 0 /\ rcon_at (i + 1) = be32 (xtime (ref_rcon (Z.to_nat i / nk))) 0 0 0.
Proof.
  intros Hi Hm. unfold rcon_at. replace (i + 1 - 1) with i by lia.
  assert (Z.to_nat i / nk = Z.to_nat (i / Z.of_nat nk))%nat as E by (rewrite Z2Nat.inj_div, Nat2Z.id by lia; done).
  assert (1 <= i / Z.of_nat nk) by (apply Z.div_le_lower_bound; lia). rewrite E. split.
  - do 3 f_equal. pose proof (Z.div_mod i (Z.of_nat nk) ltac:(lia)).
    rewrite <-(Z.div_unique (i - 1) (Z.of_nat nk) (i / Z.of_nat nk - 1) (Z.of_nat nk - 1)) by lia. lia.
  - rewrite <-ref_rcon_next by lia. do 3 f_equal. lia.
Qed.
Lemma expand_word_ok i w : schedule i w -> Z.of_nat nk <= i < 120 ->
  exists w', expand_word (Z.of_nat nk) i w (rcon_at i) = Done (w', rcon_at (i + 1)) /\ schedule (i + 1) w'.
Proof.
  intros Hw Hi. unfold expand_word. pose proof Hw as [Hl Hb].
  rewrite (byte_at_load w (i - 1)), bind_done, Hb by lia.
  replace (Z.to_nat (i - 1)) with (Z.to_nat i - 1)%nat by lia.
  pose proof (ref_word_ok (Z.to_nat i - 1)) as Ht. pose proof (ref_word_ok (Z.to_nat i - nk)) as Hp.
  assert (forall t, is_word4 t -> ref_temp nk (Z.to_nat i) (ref_word (Z.to_nat i - 1)) = t ->
    exists w', ('(temp, rcon) ← mret (word_of t, rcon_at (i + 1)); v ← load w (i - Z.of_nat nk);
                 w ← put w i (Z.lxor v temp); mret (w, rcon)) = Done (w', rcon_at (i + 1)) /\ schedule (i + 1) w') as Hput.
  { intros t Hw4 Et. change (mret (word_of t, rcon_at (i + 1))) with (Done (word_of t, rcon_at (i + 1))).
    rewrite bind_done, byte_at_load, bind_done, Hb by lia.
    replace (Z.to_nat (i - Z.of_nat nk)) with (Z.to_nat i - nk)%nat by lia.
    destruct (schedule_put i w _ Hw ltac:(lia) (eq_refl (word_of (ref_word (Z.to_nat i))))) as (w' & E & Hs).
    rewrite ref_word_step, Et in E by lia. destruct (word_xor _ _ Hp Hw4) as [_ <-]. rewrite E, bind_done. by exists w'. }
  assert ((Z.to_nat i mod nk)%nat = Z.to_nat (i mod Z.of_nat nk)) as Em by (rewrite Z2Nat.inj_mod, Nat2Z.id by lia; done).
  unfold ref_temp in Hput. pose proof (Z.mod_pos_bound i (Z.of_nat nk) ltac:(lia)).
  destruct (Z.eqb_spec (i mod Z.of_nat nk) 0) as [E0|E0].
  - rewrite Em, E0 in Hput. cbn [Nat.eqb Z.to_nat] in Hput. destruct (word_rot _ Ht) as [Hr <-].
    destruct (word_sub _ Hr) as [Hs ->]. rewrite bind_done. destruct (rcon_next i ltac:(lia) E0) as [-> E].
    pose proof (ref_rcon_u8 (Z.to_nat i / nk)) as Hrc.
    assert (is_word4 [ref_rcon (Z.to_nat i / nk); 0; 0; 0]) as Hc by (split; [done|bytes]).
    destruct (word_xor _ _ Hs Hc) as [Hx Ex].
    destruct (be32_bytes (ref_rcon (Z.to_nat i / nk)) 0 0 0) as (-> & _); [done|zb..|].
    replace (u32 (Z.shiftl (xtime (ref_rcon (Z.to_nat i / nk))) 24)) with (rcon_at (i + 1)).
    2:{ rewrite E, Z.shiftl_mul_pow2 by lia. pose proof (xtime_u8 (ref_rcon (Z.to_nat i / nk))). change (2 ^ 24) with 16777216.
        rewrite u32_id by zb. unfold be32. lia. }
    change (be32 (ref_rcon (Z.to_nat i / nk)) 0 0 0) with (word_of [ref_rcon (Z.to_nat i / nk); 0; 0; 0]).
    rewrite <-Ex. by apply Hput.
  - rewrite Em in Hput. rewrite (proj2 (Nat.eqb_neq (Z.to_nat (i mod Z.of_nat nk)) 0)) in Hput by lia.
    rewrite (rcon_same i) in Hput |- * by (done || lia).
    replace (Z.of_nat nk >? 6) with (6 <? nk)%nat by (rewrite Z.gtb_ltb; destruct (Nat.ltb_spec 6 nk), (Z.ltb_spec 6 (Z.of_nat nk)); done || lia).
    replace (i mod Z.of_nat nk =? 4) with (Z.to_nat (i mod Z.of_nat nk) =? 4)%nat
      by (destruct (Nat.eqb_spec (Z.to_nat (i mod Z.of_nat nk)) 4), (Z.eqb_spec (i mod Z.of_nat nk) 4); done || lia).
    destruct ((6 <? nk) && _)%nat.
    + destruct (word_sub _ Ht) as [Hs ->]. rewrite bind_done. by apply Hput.
    + by apply Hput.
Qed.

(** The words as bytes. *)
Definition ref_key_byte (j : Z) : Z := nth (Z.to_nat (j mod 4)) (ref_word (Z.to_nat (j / 4))) 0.
Lemma store_words w e total : schedule total w -> 0 <= total <= 120 -> len e = 480 -> is_bytes e ->
  exists e', for_up 0 total (fun i e => v ← load w i; lh_bit_pack_be32 v e (4 * i)) e = Done e' /\
    len e' = 480 /\ is_bytes e' /\ forall j, 0 <= j < 4 * total -> byte_at e' j = ref_key_byte j.
Proof.
  intros [Hl Hw] Ht He Hb. destruct (for_up_rule (fun i e' => len e' = 480 /\ is_bytes e' /\
    forall j, 0 <= j < 4 * i -> byte_at e' j = ref_key_byte j) 0 total
    (fun i e => v ← load w i; lh_bit_pack_be32 v e (4 * i)) e) as (e' & E & H); [lia|split_and!; [done|done|lia]| |by exists e'].
  intros i s Hi (Hls & Hbs & Hs). rewrite byte_at_load, bind_done, Hw by lia.
  pose proof (ref_word_ok (Z.to_nat i)) as Hwi. unfold ref_key_byte. destruct (word4_inv _ Hwi) as (a & b & c & d & Ew & ? & ? & ? & ?).
  rewrite Ew. cbn [word_of]. destruct (pack_be32_at s (4 * i) a b c d) as (s' & -> & Hl' & Hb' & Hs'); [done|lia|lia|done..|].
  exists s'. split_and!; [done|lia|done|]. intros j Hj. rewrite Hs' by lia.
  destruct (Z.leb_spec (4 * i) j); cbn [andb].
  - rewrite (proj2 (Z.ltb_lt _ _)) by lia. replace (j / 4) with i by (clear - H3 Hj; zdm). rewrite Ew. f_equal. f_equal.
    clear - H3 Hj. zdm.
  - rewrite Hs by lia. done.
Qed.
End Schedule.

(** A session object before it is set up. *)
Definition blank (s : lh_crypto_rijndael_t) : Prop := len (rj_expanded_key s) = 480 /\ len (rj_chain s) = 32.
Definition rounds_for (ks bs : Z) : Z := Z.max (ks / 4) (bs / 4) + 6.

Lemma expand_key_ok s key ks bs :
  lh_crypto_rijndael_size_ok ks = true -> lh_crypto_rijndael_size_ok bs = true -> holds ks key ->
  rj_block_size s = bs -> rj_round_count s = rounds_for ks bs -> len (rj_expanded_key s) = 480 -> is_bytes (rj_expanded_key s) ->
  exists e, lh_crypto_rijndael_expand_key s key ks = Done (lh_crypto_rijndael_get_expanded_key_mut s e) /\
    len e = 480 /\ is_bytes e /\
    forall j, 0 <= j < bs * (rounds_for ks bs + 1) -> byte_at e j = ref_key_byte (Z.to_nat (ks / 4)) key j.
Proof.
  intros Hks Hbs [Hkey Hkl] Eb Er Hl Hb. unfold lh_crypto_rijndael_expand_key, lh_crypto_rijndael_get_block_size.
  assert (exists nk, ks = 4 * Z.of_nat nk /\ (4 <= nk <= 8)%nat) as (nk & -> & Hnk).
  { destruct (size_ok ks Hks) as [->|[->| ->]]; [exists 4%nat; lia|exists 6%nat; lia|exists 8%nat; lia]. }
  assert (exists nb, bs = 4 * nb /\ 4 <= nb <= 8) as (nb & -> & Hnb).
  { destruct (size_ok bs Hbs) as [->|[->| ->]]; [exists 4; lia|exists 6; lia|exists 8; lia]. }
  assert (forall x, 4 * x / 4 = x) as Hdiv by (intros; rewrite Z.mul_comm; by apply Z.div_mul).
  unfold rounds_for in *. rewrite !Hdiv in Er |- *. rewrite Nat2Z.id.
  rewrite Eb. replace (4 * nb >? LH_CRYPTO_RIJNDAEL_BLOCK_SIZE_MAX) with false
    by (symmetry; rewrite Z.gtb_ltb; apply Z.ltb_ge; unfold LH_CRYPTO_RIJNDAEL_BLOCK_SIZE_MAX; lia).
  change (mret (4 * nb)) with (Done (4 * nb)). rewrite bind_done.
  cbv zeta. rewrite !Hdiv.
  unfold lh_crypto_rijndael_get_round_count, lh_crypto_rijndael_get_expanded_key. rewrite Er.
  set (nr := Z.max (Z.of_nat nk) nb + 6) in *. assert (10 <= nr <= 14) by lia.
  assert (Z.of_nat nk <= nb * (nr + 1) <= 120) by nia. rewrite (u64_id (nr + 1)), u64_id by zb.
  destruct (key_loop nk key Hnk Hkey ltac:(lia)) as (w & -> & Hw). rewrite bind_done.
  destruct (for_up_rule (fun i '(w, rcon) => schedule nk key i w /\ rcon = rcon_at nk i) (Z.of_nat nk) (nb * (nr + 1))
    (fun i '(w, rcon) => expand_word (Z.of_nat nk) i w rcon) (w, 0x01000000)) as ([w' rcon] & -> & Hw' & _); [lia| | |].
  { split; [done|]. unfold rcon_at. rewrite Z.div_small by lia. done. }
  { intros i [w1 rcon] Hi [Hs ->]. destruct (expand_word_ok nk key Hnk Hkey ltac:(lia) i w1 Hs) as (w2 & E & Hs2); [lia|].
    exists (w2, rcon_at nk (i + 1)). done. }
  rewrite bind_done. destruct (store_words nk key Hnk Hkey ltac:(lia) w' (rj_expanded_key s) (nb * (nr + 1)) Hw') as (e & -> & He);
    [lia|done|done|]. rewrite bind_done. exists e. split; [done|]. destruct He as (? & ? & He). split_and!; [done..|].
  intros j Hj. apply He. lia.
Qed.

(** The arguments of the initialiser that make a session, and the key it then has. *)
Definition accepted (ks bs mode chain_size : Z) (key : buffer) (chain : option buffer) : Prop :=
  lh_crypto_rijndael_size_ok ks = true /\ lh_crypto_rijndael_size_ok bs = true /\ holds ks key /\
  (mode = lh_crypto_rijndael_mode_ecb \/
   (mode = lh_crypto_rijndael_mode_cbc \/ mode = lh_crypto_rijndael_mode_cfb) /\
   chain_size = bs /\ exists c, chain = Some c /\ holds bs c).
Definition ref_key (ks bs : Z) (key : buffer) (r j : Z) : Z := ref_key_byte (Z.to_nat (ks / 4)) key (r * bs + j).

Lemma init_ok self key ks chain cs bs mode : blank self -> accepted ks bs mode cs key chain ->
  exists s, lh_crypto_rijndael_init self (Some key) ks chain cs bs mode = Done (true, s) /\
    session s bs (rounds_for ks bs) /\ rj_mode s = mode /\
    forall r, 0 <= r <= rounds_for ks bs -> same bs (key_of s r) (ref_key ks bs key r).
Proof.
  intros [He Hc] (Hks & Hbs & Hkey & Hmode). unfold lh_crypto_rijndael_init. cbn [assert_set]. rewrite bind_done, Hks, Hbs. cbn [negb orb].
  assert (negb (mode =? lh_crypto_rijndael_mode_ecb) && negb (mode =? lh_crypto_rijndael_mode_cbc) &&
      negb (mode =? lh_crypto_rijndael_mode_cfb) = false) as -> by (destruct Hmode as [->|[[->| ->] _]]; done).
  assert (negb (mode =? lh_crypto_rijndael_mode_ecb) &&
     (match chain with None => true | Some _ => negb (cs =? bs) end) = false) as ->.
  { destruct Hmode as [->|(_ & -> & c & -> & _)]; [done|]. by rewrite Z.eqb_refl, andb_false_r. }
  replace ((if ks / 4 >? bs / 4 then ks / 4 else bs / 4) + 6) with (rounds_for ks bs)
    by (unfold rounds_for; rewrite Z.gtb_ltb; destruct (Z.ltb_spec (bs / 4) (ks / 4)); lia).
  assert (1 <= rounds_for ks bs <= 14) as Hr
    by (destruct (size_ok ks Hks) as [->|[->| ->]]; destruct (size_ok bs Hbs) as [->|[->| ->]]; vm_compute; split; done).
  unfold set_bytes, lh_crypto_rijndael_get_expanded_key. cbn [rj_expanded_key rj_chain lh_crypto_rijndael_set_mode
    lh_crypto_rijndael_set_block_size lh_crypto_rijndael_set_round_count].
  assert (forall b n, 0 <= n -> len b = n -> copy_bytes b 0 (replicate (Z.to_nat n) 0) n = Done (replicate (Z.to_nat n) 0)) as Hz.
  { intros b n Hn Hl. rewrite copy_ok by (rewrite ?length_replicate; lia).
    rewrite (take_ge (replicate _ _)) by (rewrite length_replicate; lia).
    rewrite drop_ge by lia. cbn [Z.to_nat take app]. by rewrite app_nil_r. }
  rewrite Hz, bind_done by done. unfold lh_crypto_rijndael_get_chain. cbn [rj_chain lh_crypto_rijndael_get_expanded_key_mut]. rewrite Hz, bind_done by done.
  set (s := lh_crypto_rijndael_get_chain_mut _ _).
  destruct (expand_key_ok s key ks bs) as (e & -> & Hel & Heb & Hej); try done; [by apply Forall_replicate|].
  rewrite bind_done. set (s' := lh_crypto_rijndael_get_expanded_key_mut s e).
  assert (session s' bs (rounds_for ks bs)) as Hs'.
  { split; [done|]. split; [done|]. by apply Forall_replicate. }
  assert (forall r, 0 <= r <= rounds_for ks bs -> same bs (key_of s' r) (ref_key ks bs key r)) as Hk.
  { intros r Hr' j Hj. unfold key_of, ref_key. apply Hej. change (rj_block_size s') with bs. nia. }
  destruct Hmode as [->|(Hm & _ & c & -> & Hcb & Hcl)]; [by exists s'|].
  replace (negb (mode =? lh_crypto_rijndael_mode_ecb)) with true by (destruct Hm as [->| ->]; done).
  cbn [assert_set]. rewrite bind_done. assert (0 <= bs <= 32) by (destruct (size_ok bs Hbs) as [->|[->| ->]]; lia).
  destruct Hs' as (Hs1 & Hs2 & Hs3).
  destruct (copy_done (rj_chain s') 0 c bs) as [c' E]; [lia..|]. rewrite E, bind_done.
  exists (lh_crypto_rijndael_get_chain_mut s' c'). split; [done|]. split; [|done]. split; [done|].
  destruct (copy_byte_at _ _ _ _ _ E) as [Hl' _]. split; [cbn; lia|]. by apply (copy_is_bytes _ _ _ _ _ Hs3 Hcb E).
Qed.
Lemma init_refuses self key ks chain cs bs mode :
  lh_crypto_rijndael_size_ok ks = false \/ lh_crypto_rijndael_size_ok bs = false \/ 3 <= mode \/
  (mode <> lh_crypto_rijndael_mode_ecb /\ (chain = None \/ cs <> bs)) ->
  lh_crypto_rijndael_init self (Some key) ks chain cs bs mode = Done (false, self) /\
  lh_crypto_rijndael_init self None ks chain cs bs mode = Fault lh_runtime_error_code_null_pointer.
Proof.
  intros H. split; [|done]. unfold lh_crypto_rijndael_init. cbn [assert_set]. rewrite bind_done.
  unfold lh_crypto_rijndael_mode_ecb, lh_crypto_rijndael_mode_cbc, lh_crypto_rijndael_mode_cfb in *.
  destruct (lh_crypto_rijndael_size_ok ks) eqn:E1, (lh_crypto_rijndael_size_ok bs) eqn:E2; try done. cbn [negb orb].
  destruct (Z.eqb_spec mode 0) as [Hm|Hm]; cbn [negb andb].
  { destruct H as [?|[?|[?|[? _]]]]; (done || lia). }
  destruct (negb (mode =? 1) && negb (mode =? 2)) eqn:E; [done|].
  apply andb_false_iff in E. rewrite !negb_false_iff, !Z.eqb_eq in E.
  destruct H as [?|[?|[?|(_ & [->|Hc])]]]; try done; [lia|]. destruct chain; [|done].
  by rewrite (proj2 (Z.eqb_neq cs bs)).
Qed.

(** ** The reference, and the theorems *)

Section Reference.
Context (nb nr : Z) (key : Z -> Z -> Z).
Definition ref_shifted (f : Z -> Z) (j : Z) : Z :=
  ref_sub (f (j mod 4 + 4 * ((j / 4 + row_shift nb (j mod 4)) mod nb))).
Definition ref_mix (f : Z -> Z) (j : Z) : Z := mix_with gmul 2 3 1 1 (fun r => f (4 * (j / 4) + r)) (j mod 4).
Fixpoint ref_rounds (k : nat) (f : Z -> Z) (j : Z) : Z :=
  match k with
  | O => Z.lxor (f j) (key 0 j)
  | S k => Z.lxor (ref_mix (ref_shifted (ref_rounds k f)) j) (key (Z.of_nat (S k)) j)
  end.
Definition ref_encrypt (f : Z -> Z) (j : Z) : Z :=
  Z.lxor (ref_shifted (ref_rounds (Z.to_nat (nr - 1)) f) j) (key nr j).
End Reference.

Lemma gmul_table : forall a, is_u8 a -> gmul a 1 = a /\ gmul a 2 = gf_mul a 2 /\ gmul a 3 = gf_mul a 3.
Proof.
  by_bytes (fun a => (gmul a 1 =? a) && (gmul a 2 =? gf_mul a 2) && (gmul a 3 =? gf_mul a 3)).
  rewrite !andb_true_iff, !Z.eqb_eq in H. tauto.
Qed.
Lemma mix_is_ref a r : (forall i, is_u8 (a i)) -> mixed false a r = mix_with gmul 2 3 1 1 a r.
Proof.
  intros Ha. unfold mixed, mix_with.
  destruct (gmul_table _ (Ha (r mod 4))) as (_ & -> & _). destruct (gmul_table _ (Ha ((r + 1) mod 4))) as (_ & _ & ->).
  destruct (gmul_table _ (Ha ((r + 2) mod 4))) as (-> & _). destruct (gmul_table _ (Ha ((r + 3) mod 4))) as (-> & _).
  destruct (gf_mul_table _ (Ha ((r + 2) mod 4))) as (-> & _). by destruct (gf_mul_table _ (Ha ((r + 3) mod 4))) as (-> & _).
Qed.
Lemma shifted_is_ref nb f j : byte_fun f -> f_shift false nb (f_sub false f) j = ref_shifted nb f j.
Proof. intros Hf. unfold f_shift, f_sub, ref_shifted, from_col. by apply sbox_is_sub. Qed.
Lemma mixed_is_ref nb f j : byte_fun f ->
  f_mix false (f_shift false nb (f_sub false f)) j = ref_mix (ref_shifted nb f) j.
Proof.
  intros Hf. unfold f_mix, ref_mix. rewrite mix_is_ref by (intros i; apply f_shift_bytes, f_sub_bytes).
  unfold mix_with. by rewrite !shifted_is_ref.
Qed.
Lemma ref_shifted_ext nb f g j : (forall i, f i = g i) -> ref_shifted nb f j = ref_shifted nb g j.
Proof. intros H. unfold ref_shifted. by rewrite H. Qed.
Lemma ref_mix_ext nb f g j : (forall i, f i = g i) -> ref_mix (ref_shifted nb f) j = ref_mix (ref_shifted nb g) j.
Proof. intros H. unfold ref_mix, mix_with. by rewrite !(ref_shifted_ext nb f g) by done. Qed.
Lemma rounds_are_ref nb key f k : (forall r, byte_fun (key r)) -> byte_fun f ->
  forall j, foldl (f_round nb key) (f_add (key 0) f) (seqZ 1 (Z.of_nat k)) j = ref_rounds nb key k f j.
Proof.
  intros Hkey Hf. induction k as [|k IH]; intros j; [done|].
  replace (Z.of_nat (S k)) with (Z.of_nat k + 1) by lia. rewrite seqZ_app, foldl_app by lia.
  change (seqZ (1 + Z.of_nat k) 1) with [0 + (1 + Z.of_nat k)]. cbn [foldl ref_rounds].
  replace (0 + (1 + Z.of_nat k)) with (Z.of_nat (S k)) by lia. unfold f_round at 1, f_add at 1. f_equal.
  rewrite mixed_is_ref by (apply rounds_bytes; auto with cint). by apply ref_mix_ext.
Qed.
Lemma encrypt_is_ref nb nr key f j : 1 <= nr -> (forall r, byte_fun (key r)) -> byte_fun f ->
  f_encrypt nb nr key f j = ref_encrypt nb nr key f j.
Proof.
  intros Hnr Hkey Hf. unfold f_encrypt, ref_encrypt, f_add at 1. f_equal.
  rewrite shifted_is_ref by (apply rounds_bytes; auto with cint). apply ref_shifted_ext. intros i.
  rewrite <-rounds_are_ref by done. by rewrite Z2Nat.id by lia.
Qed.
Lemma encrypt_same_key n nb nr key rkey f : columns n nb -> 1 <= nr ->
  (forall r, 0 <= r <= nr -> same n (key r) (rkey r)) -> same n (f_encrypt nb nr key f) (f_encrypt nb nr rkey f).
Proof.
  intros Hn Hnr Hr. unfold f_encrypt. apply f_add_proper; [apply Hr; lia|]. apply f_shift_proper, f_sub_proper; [done|].
  assert (forall l g h, (forall r, r ∈ l -> 0 <= r <= nr) -> same n g h ->
    same n (foldl (f_round nb key) g l) (foldl (f_round nb rkey) h l)) as Hl.
  { induction l as [|r l IH]; intros g h Hin Hgh; cbn [foldl]; [done|].
    apply IH; [intros; apply Hin; by right|]. apply f_add_proper; [apply Hr, Hin; by left|].
    eapply f_mix_proper; [done|]. apply f_shift_proper; [done|]. by apply f_sub_proper. }
  apply Hl; [|apply f_add_proper; [apply Hr; lia|done]]. intros r Hr'%elem_of_seqZ. lia.
Qed.
Lemma ref_key_bytes ks bs key r : lh_crypto_rijndael_size_ok ks = true -> holds ks key -> byte_fun (ref_key ks bs key r).
Proof.
  intros Hks [Hb Hl] j. unfold ref_key, ref_key_byte.
  assert (exists nk, ks = 4 * Z.of_nat nk /\ (4 <= nk <= 8)%nat) as (nk & -> & Hnk).
  { destruct (size_ok ks Hks) as [->|[->| ->]]; [exists 4%nat; lia|exists 6%nat; lia|exists 8%nat; lia]. }
  rewrite (Z.mul_comm 4), Z.div_mul, Nat2Z.id by lia.
  destruct (ref_word_ok nk key Hnk Hb ltac:(lia) (Z.to_nat ((r * bs + j) / 4))) as [_ Hw].
  by apply (byte_at_u8 _ ((r * bs + j) mod 4)) in Hw.
Qed.

(** Claim C22: the cipher is Rijndael: for a key and a block of 16, 24 or 32 bytes in every
    combination, a session set up by [lh_crypto_rijndael_init] enciphers a block as the cipher is
    defined over the field of 256 elements (inverse and affine map, rotation of the rows,
    product with the matrix of the columns, and the round keys of the key schedule), with no
    access outside its arrays, and leaves the bytes behind the block alone. *)
Theorem cipher_is_rijndael self key ks chain cs bs mode : blank self -> accepted ks bs mode cs key chain ->
  exists s, lh_crypto_rijndael_init self (Some key) ks chain cs bs mode = Done (true, s) /\
    forall in_ out, holds bs in_ -> holds bs out ->
    exists b, lh_crypto_rijndael_cipher s in_ out false = Done b /\ len b = len out /\
      forall j, 0 <= j -> byte_at b j
        = if j <? bs then ref_encrypt (bs / 4) (rounds_for ks bs) (ref_key ks bs key) (byte_at in_) j
          else byte_at out j.
Proof.
  intros Hself Hacc. destruct (init_ok self key ks chain cs bs mode Hself Hacc) as (s & E & (Hk & _) & _ & Hkey).
  destruct Hacc as (Hks & Hbs & Hh & _). exists s. split; [exact E|]. intros in_ out [Hi Hni] [Ho Hno].
  destruct (cipher_ok s bs _ in_ out false Hk Hi Hni Ho Hno) as (b & Eb & Hl & _ & Hb). exists b. split; [exact Eb|]. split; [exact Hl|].
  intros j Hj. rewrite Hb by done. destruct (Z.ltb_spec j bs); [|done].
  pose proof (keyed_columns _ _ _ Hk) as Hn. destruct Hk as (En & Er & _ & Hek & _ & Hnr). unfold f_cipher. rewrite En, Er.
  rewrite <-encrypt_is_ref; [|lia|intros; by apply ref_key_bytes|by apply byte_at_fun].
  apply (encrypt_same_key bs); (done || lia).
Qed.
Lemma cipher_is_rijndael_witness :
  exists s, lh_crypto_rijndael_init (mk_rijndael 0 0 0 (local 480) (local 32)) (Some (seqZ 0 24)) 24 None 0 32 0 = Done (true, s) /\
  exists b, lh_crypto_rijndael_cipher s (seqZ 7 32) (local 33) false = Done b /\ byte_at b 32 = 0.
Proof.
  destruct (cipher_is_rijndael (mk_rijndael 0 0 0 (local 480) (local 32)) (seqZ 0 24) 24 None 0 32 0) as (s & E & H).
  { split; vm_compute; done. }
  { split; [done|]. split; [done|]. split; [split; [repeat constructor; zb|vm_compute; done]|by left]. }
  exists s. split; [exact E|]. destruct (H (seqZ 7 32) (local 33)) as (b & Eb & _ & Hb).
  { split; [repeat constructor; zb|vm_compute; done]. }
  { split; [repeat constructor; zb|vm_compute; done]. }
  exists b. split; [exact Eb|]. exact (Hb 32 ltac:(lia)).
Defined.

(** Blocks one after the other, each into an array of its own. *)
Fixpoint run_blocks (step : lh_crypto_rijndael_t -> option buffer -> option buffer -> outcome (lh_crypto_rijndael_t * buffer))
    (s : lh_crypto_rijndael_t) (blocks : list buffer) : outcome (lh_crypto_rijndael_t * list buffer) :=
  match blocks with
  | [] => mret (s, [])
  | b :: r =>
    '(s, c) ← step s (Some b) (Some (local (len b)));
    '(s, cs) ← run_blocks step s r;
    mret (s, c :: cs)
  end.
Lemma run_blocks_roundtrip n nr blocks : Forall (fun b => is_bytes b /\ len b = n) blocks ->
  forall s, session s n nr ->
  exists s' cs, run_blocks lh_crypto_rijndael_encrypt_block s blocks = Done (s', cs) /\
    session s' n nr /\ Forall (fun b => is_bytes b /\ len b = n) cs /\
    run_blocks lh_crypto_rijndael_decrypt_block s cs = Done (s', blocks).
Proof.
  induction 1 as [|b blocks [Hb Hl] _ IH]; intros s Hs; cbn [run_blocks]; [by exists s, []|].
  destruct (session_size s n nr Hs) as [Hn _].
  destruct (encrypt_block_ok s n nr b (local (len b)) Hs) as (s1 & c & -> & Hlc & Hc & Hcf & Hnc);
    [by split; [|lia]|apply local_holds; lia|]. rewrite bind_done, length_local in * by lia.
  destruct (IH s1 (next_chain_session _ _ _ _ _ Hs Hnc)) as (s2 & cs & -> & Hs2 & Hcs & E). rewrite bind_done.
  exists s2, (c :: cs). split; [done|]. split; [done|]. split; [constructor; [split; [done|lia]|done]|]. cbn [run_blocks].
  destruct (decrypt_block_ok s n nr c (local (len c)) (byte_at b) Hs) as (s1' & d & -> & Hld & Hd & Hdf & Hnc');
    [by split; [|lia]|apply local_holds; lia|by apply byte_at_fun|done|]. rewrite bind_done, length_local in * by lia.
  assert (s1' = s1) as -> by (eapply next_chain_unique; [reflexivity|exact Hnc'|exact Hnc]).
  assert (d = b) as -> by (apply byte_at_ext; [lia|]; intros i Hi; apply Hdf; lia).
  by rewrite E.
Qed.

(** Claim C23: what a session enciphers another session with the same key and chain deciphers: in each
    of the modes ECB, CBC and CFB, for all nine combinations of sizes, every sequence of
    blocks is enciphered without a fault, and deciphering the result from the same start gives
    the blocks back one by one and leaves the two sessions in the same state. *)
Theorem blocks_roundtrip self key ks chain cs bs mode blocks :
  blank self -> accepted ks bs mode cs key chain -> Forall (fun b => is_bytes b /\ len b = bs) blocks ->
  exists s s' secret,
    lh_crypto_rijndael_init self (Some key) ks chain cs bs mode = Done (true, s) /\
    run_blocks lh_crypto_rijndael_encrypt_block s blocks = Done (s', secret) /\
    Forall (fun b => is_bytes b /\ len b = bs) secret /\
    run_blocks lh_crypto_rijndael_decrypt_block s secret = Done (s', blocks).
Proof.
  intros Hself Hacc Hbl. destruct (init_ok self key ks chain cs bs mode Hself Hacc) as (s & E & Hs & _ & _).
  destruct (run_blocks_roundtrip bs _ blocks Hbl s Hs) as (s' & secret & E1 & _ & Hb & E2). by exists s, s', secret.
Qed.
Lemma blocks_roundtrip_witness :
  exists s s' secret,
    lh_crypto_rijndael_init (mk_rijndael 0 0 0 (local 480) (local 32)) (Some (seqZ 0 32)) 32 (Some (seqZ 3 24)) 24 24 1 = Done (true, s) /\
    run_blocks lh_crypto_rijndael_encrypt_block s [seqZ 9 24; seqZ 8 24] = Done (s', secret) /\
    run_blocks lh_crypto_rijndael_decrypt_block s secret = Done (s', [seqZ 9 24; seqZ 8 24]).
Proof.
  destruct (blocks_roundtrip (mk_rijndael 0 0 0 (local 480) (local 32)) (seqZ 0 32) 32 (Some (seqZ 3 24)) 24 24 1
    [seqZ 9 24; seqZ 8 24]) as (s & s' & secret & E1 & E2 & _ & E3).
  { split; vm_compute; done. }
  { split; [done|]. split; [done|]. split; [split; [repeat constructor; zb|vm_compute; done]|]. right. split; [by left|].
    split; [done|]. exists (seqZ 3 24). split; [done|]. split; [repeat constructor; zb|vm_compute; done]. }
  { repeat constructor; zb. }
  exists s, s', secret. split; [exact E1|]. split; [exact E2|exact E3].
Defined.

(** A session stays whole: initialising one from arguments the cipher takes gives a session
    whose key is expanded and whose arrays have their sizes; every block enciphered or
    deciphered, whatever it holds, succeeds and gives such a session again, for the same block
    size and number of rounds; arguments it does not take leave the object as it was. *)
Theorem session_is_kept self key ks chain cs bs mode : blank self ->
  (accepted ks bs mode cs key chain ->
   exists s, lh_crypto_rijndael_init self (Some key) ks chain cs bs mode = Done (true, s) /\ session s bs (rounds_for ks bs)) /\
  (lh_crypto_rijndael_size_ok ks = false \/ lh_crypto_rijndael_size_ok bs = false \/ 3 <= mode \/
   (mode <> lh_crypto_rijndael_mode_ecb /\ (chain = None \/ cs <> bs)) ->
   lh_crypto_rijndael_init self (Some key) ks chain cs bs mode = Done (false, self)) /\
  (forall s n nr in_ out, session s n nr -> holds n in_ -> holds n out ->
   (exists s' c, lh_crypto_rijndael_encrypt_block s (Some in_) (Some out) = Done (s', c) /\ session s' n nr /\ len c = len out) /\
   (exists s' c, lh_crypto_rijndael_decrypt_block s (Some in_) (Some out) = Done (s', c) /\ session s' n nr /\ len c = len out)).
Proof.
  intros Hself. split; [|split].
  - intros Hacc. destruct (init_ok self key ks chain cs bs mode Hself Hacc) as (s & E & Hs & _). exists s. split; [exact E|exact Hs].
  - intros H. by apply (init_refuses self key).
  - intros s n nr in_ out Hs Hi Ho. split.
    + destruct (encrypt_block_ok s n nr in_ out Hs Hi Ho) as (s' & c & E & Hl & _ & _ & Hn). exists s', c.
      split; [exact E|]. split; [by eapply next_chain_session|done].
    + destruct (decrypt_block_runs s n nr in_ out Hs Hi Ho) as (s' & c & E & Hl & _ & _ & Hn). exists s', c.
      split; [exact E|]. split; [by eapply next_chain_session|done].
Qed.
Lemma session_is_kept_witness :
  let self := mk_rijndael 0 0 0 (local 480) (local 32) in
  lh_crypto_rijndael_init self (Some (seqZ 0 16)) 16 None 0 17 0 = Done (false, self) /\
  exists s, lh_crypto_rijndael_init self (Some (seqZ 0 16)) 16 None 0 16 0 = Done (true, s) /\ session s 16 10.
Proof.
  intros self. assert (blank self) as Hb by (split; vm_compute; done). split.
  - apply (session_is_kept self (seqZ 0 16) 16 None 0 17 0 Hb). right. by left.
  - apply (session_is_kept self (seqZ 0 16) 16 None 0 16 0 Hb).
    split; [done|]. split; [done|]. split; [split; [repeat constructor; zb|vm_compute; done]|by left].
Defined.
