(* ===== verification/Sha.v ===== *)
(** * The SHA family

    [lh/core/crypto/sha.c]: SHA-1, SHA-224, SHA-256, SHA-384 and SHA-512, in one call or by
    pieces.  Theorem, in [ShaProofs]: for every way a message is cut into pieces the digest
    is the one the standard defines on the padded message, by the compression functions in
    the standard's notation. *)
From S2P Require Import Prelude Buffer Bytes.

Definition LH_CRYPTO_SHA_BLOCK_SIZE_32 : Z := 64.
Definition LH_CRYPTO_SHA_BLOCK_SIZE_64 : Z := 128.
Definition LH_CRYPTO_SHA_BLOCK_SIZE_MAX : Z := 128.
Definition LH_CRYPTO_SHA1_DIGEST_SIZE : Z := 20.
Definition LH_CRYPTO_SHA224_DIGEST_SIZE : Z := 28.
Definition LH_CRYPTO_SHA256_DIGEST_SIZE : Z := 32.
Definition LH_CRYPTO_SHA384_DIGEST_SIZE : Z := 48.
Definition LH_CRYPTO_SHA512_DIGEST_SIZE : Z := 64.
Definition lh_crypto_sha_kind_1 : Z := 0.
Definition lh_crypto_sha_kind_224 : Z := 1.
Definition lh_crypto_sha_kind_256 : Z := 2.
Definition lh_crypto_sha_kind_384 : Z := 3.
Definition lh_crypto_sha_kind_512 : Z := 4.

Definition m_k256 : list Z := [
   0x428A2F98; 0x71374491; 0xB5C0FBCF; 0xE9B5DBA5; 0x3956C25B; 0x59F111F1; 0x923F82A4; 0xAB1C5ED5;
   0xD807AA98; 0x12835B01; 0x243185BE; 0x550C7DC3; 0x72BE5D74; 0x80DEB1FE; 0x9BDC06A7; 0xC19BF174;
   0xE49B69C1; 0xEFBE4786; 0x0FC19DC6; 0x240CA1CC; 0x2DE92C6F; 0x4A7484AA; 0x5CB0A9DC; 0x76F988DA;
   0x983E5152; 0xA831C66D; 0xB00327C8; 0xBF597FC7; 0xC6E00BF3; 0xD5A79147; 0x06CA6351; 0x14292967;
   0x27B70A85; 0x2E1B2138; 0x4D2C6DFC; 0x53380D13; 0x650A7354; 0x766A0ABB; 0x81C2C92E; 0x92722C85;
   0xA2BFE8A1; 0xA81A664B; 0xC24B8B70; 0xC76C51A3; 0xD192E819; 0xD6990624; 0xF40E3585; 0x106AA070;
   0x19A4C116; 0x1E376C08; 0x2748774C; 0x34B0BCB5; 0x391C0CB3; 0x4ED8AA4A; 0x5B9CCA4F; 0x682E6FF3;
   0x748F82EE; 0x78A5636F; 0x84C87814; 0x8CC70208; 0x90BEFFFA; 0xA4506CEB; 0xBEF9A3F7; 0xC67178F2].
Definition m_k512 : list Z := [
   0x428A2F98D728AE22; 0x7137449123EF65CD; 0xB5C0FBCFEC4D3B2F; 0xE9B5DBA58189DBBC;
   0x3956C25BF348B538; 0x59F111F1B605D019; 0x923F82A4AF194F9B; 0xAB1C5ED5DA6D8118;
   0xD807AA98A3030242; 0x12835B0145706FBE; 0x243185BE4EE4B28C; 0x550C7DC3D5FFB4E2;
   0x72BE5D74F27B896F; 0x80DEB1FE3B1696B1; 0x9BDC06A725C71235; 0xC19BF174CF692694;
   0xE49B69C19EF14AD2; 0xEFBE4786384F25E3; 0x0FC19DC68B8CD5B5; 0x240CA1CC77AC9C65;
   0x2DE92C6F592B0275; 0x4A7484AA6EA6E483; 0x5CB0A9DCBD41FBD4; 0x76F988DA831153B5;
   0x983E5152EE66DFAB; 0xA831C66D2DB43210; 0xB00327C898FB213F; 0xBF597FC7BEEF0EE4;
   0xC6E00BF33DA88FC2; 0xD5A79147930AA725; 0x06CA6351E003826F; 0x142929670A0E6E70;
   0x27B70A8546D22FFC; 0x2E1B21385C26C926; 0x4D2C6DFC5AC42AED; 0x53380D139D95B3DF;
   0x650A73548BAF63DE; 0x766A0ABB3C77B2A8; 0x81C2C92E47EDAEE6; 0x92722C851482353B;
   0xA2BFE8A14CF10364; 0xA81A664BBC423001; 0xC24B8B70D0F89791; 0xC76C51A30654BE30;
   0xD192E819D6EF5218; 0xD69906245565A910; 0xF40E35855771202A; 0x106AA07032BBD1B8;
   0x19A4C116B8D2D0C8; 0x1E376C085141AB53; 0x2748774CDF8EEB99; 0x34B0BCB5E19B48A8;
   0x391C0CB3C5C95A63; 0x4ED8AA4AE3418ACB; 0x5B9CCA4F7763E373; 0x682E6FF3D6B2B8A3;
   0x748F82EE5DEFB2FC; 0x78A5636F43172F60; 0x84C87814A1F0AB72; 0x8CC702081A6439EC;
   0x90BEFFFA23631E28; 0xA4506CEBDE82BDE9; 0xBEF9A3F7B2C67915; 0xC67178F2E372532B;
   0xCA273ECEEA26619C; 0xD186B8C721C0C207; 0xEADA7DD6CDE0EB1E; 0xF57D4F7FEE6ED178;
   0x06F067AA72176FBA; 0x0A637DC5A2C898A6; 0x113F9804BEF90DAE; 0x1B710B35131C471B;
   0x28DB77F523047D84; 0x32CAAB7B40C72493; 0x3C9EBE0A15C9BEBC; 0x431D67C49C100D4C;
   0x4CC5D4BECB3E42B6; 0x597F299CFC657E2A; 0x5FCB6FAB3AD6FAEC; 0x6C44198C4A475817].

Definition lh_crypto_sha_kind_is_wide (kind : Z) : bool :=
  (kind =? lh_crypto_sha_kind_384) || (kind =? lh_crypto_sha_kind_512).
Definition lh_crypto_sha_digest_size (kind : Z) : Z :=
  if kind =? lh_crypto_sha_kind_1 then LH_CRYPTO_SHA1_DIGEST_SIZE else
  if kind =? lh_crypto_sha_kind_224 then LH_CRYPTO_SHA224_DIGEST_SIZE else
  if kind =? lh_crypto_sha_kind_256 then LH_CRYPTO_SHA256_DIGEST_SIZE else
  if kind =? lh_crypto_sha_kind_384 then LH_CRYPTO_SHA384_DIGEST_SIZE else
  if kind =? lh_crypto_sha_kind_512 then LH_CRYPTO_SHA512_DIGEST_SIZE else 0.
Definition lh_crypto_sha_block_size (kind : Z) : Z :=
  if lh_crypto_sha_digest_size kind =? 0 then 0 else
  if lh_crypto_sha_kind_is_wide kind then LH_CRYPTO_SHA_BLOCK_SIZE_64 else LH_CRYPTO_SHA_BLOCK_SIZE_32.

(** ** The hasher *)

Record lh_crypto_sha_t := mk_sha {
  sha_kind : Z;
  sha_finished : bool;
  sha_state : list Z;
  sha_bit_count_lo : Z;
  sha_bit_count_hi : Z;
  sha_block : buffer;
  sha_block_fill : Z
}.
Definition lh_crypto_sha_get_kind := sha_kind.
Definition lh_crypto_sha_set_kind (self : lh_crypto_sha_t) (v : Z) : lh_crypto_sha_t :=
  mk_sha v (sha_finished self) (sha_state self) (sha_bit_count_lo self) (sha_bit_count_hi self) (sha_block self) (sha_block_fill self).
Definition lh_crypto_sha_is_finished := sha_finished.
Definition lh_crypto_sha_set_finished (self : lh_crypto_sha_t) (v : bool) : lh_crypto_sha_t :=
  mk_sha (sha_kind self) v (sha_state self) (sha_bit_count_lo self) (sha_bit_count_hi self) (sha_block self) (sha_block_fill self).
Definition lh_crypto_sha_get_state_word (self : lh_crypto_sha_t) (index : Z) : outcome Z := load (sha_state self) index.
Definition put_state (self : lh_crypto_sha_t) (v : list Z) : lh_crypto_sha_t :=
  mk_sha (sha_kind self) (sha_finished self) v (sha_bit_count_lo self) (sha_bit_count_hi self) (sha_block self) (sha_block_fill self).
Definition lh_crypto_sha_set_state_word (self : lh_crypto_sha_t) (index word : Z) : outcome lh_crypto_sha_t :=
  st ← put (sha_state self) index word; mret (put_state self st).
Definition lh_crypto_sha_get_bit_count_lo := sha_bit_count_lo.
Definition lh_crypto_sha_set_bit_count_lo (self : lh_crypto_sha_t) (v : Z) : lh_crypto_sha_t :=
  mk_sha (sha_kind self) (sha_finished self) (sha_state self) v (sha_bit_count_hi self) (sha_block self) (sha_block_fill self).
Definition lh_crypto_sha_get_bit_count_hi := sha_bit_count_hi.
Definition lh_crypto_sha_set_bit_count_hi (self : lh_crypto_sha_t) (v : Z) : lh_crypto_sha_t :=
  mk_sha (sha_kind self) (sha_finished self) (sha_state self) (sha_bit_count_lo self) v (sha_block self) (sha_block_fill self).
Definition lh_crypto_sha_get_block_fill := sha_block_fill.
Definition lh_crypto_sha_set_block_fill (self : lh_crypto_sha_t) (v : Z) : lh_crypto_sha_t :=
  mk_sha (sha_kind self) (sha_finished self) (sha_state self) (sha_bit_count_lo self) (sha_bit_count_hi self) (sha_block self) v.
Definition lh_crypto_sha_get_block := sha_block.
(** What is stored through the pointer to the block replaces the array as a whole. *)
Definition lh_crypto_sha_get_block_mut (self : lh_crypto_sha_t) (v : buffer) : lh_crypto_sha_t :=
  mk_sha (sha_kind self) (sha_finished self) (sha_state self) (sha_bit_count_lo self) (sha_bit_count_hi self) v (sha_block_fill self).

Definition lh_crypto_sha_add_bits (self : lh_crypto_sha_t) (byte_count : Z) : lh_crypto_sha_t :=
  let bits := u64 (Z.shiftl byte_count 3) in
  let lo := u64 (lh_crypto_sha_get_bit_count_lo self + bits) in
  let self := if lo <? lh_crypto_sha_get_bit_count_lo self
              then lh_crypto_sha_set_bit_count_hi self (u64 (lh_crypto_sha_get_bit_count_hi self + 1)) else self in
  let self := lh_crypto_sha_set_bit_count_lo self lo in
  lh_crypto_sha_set_bit_count_hi self (u64 (lh_crypto_sha_get_bit_count_hi self + Z.shiftr byte_count 61)).

(** The switch of the initialiser: eight words. *)
Definition initial_state (kind : Z) : list Z :=
  if kind =? lh_crypto_sha_kind_1 then
    [0x67452301; 0xEFCDAB89; 0x98BADCFE; 0x10325476;
     0xC3D2E1F0; 0; 0; 0]
  else if kind =? lh_crypto_sha_kind_224 then
    [0xC1059ED8; 0x367CD507; 0x3070DD17; 0xF70E5939;
     0xFFC00B31; 0x68581511; 0x64F98FA7; 0xBEFA4FA4]
  else if kind =? lh_crypto_sha_kind_256 then
    [0x6A09E667; 0xBB67AE85; 0x3C6EF372; 0xA54FF53A;
     0x510E527F; 0x9B05688C; 0x1F83D9AB; 0x5BE0CD19]
  else if kind =? lh_crypto_sha_kind_384 then
    [0xCBBB9D5DC1059ED8; 0x629A292A367CD507; 0x9159015A3070DD17; 0x152FECD8F70E5939;
     0x67332667FFC00B31; 0x8EB44A8768581511; 0xDB0C2E0D64F98FA7; 0x47B5481DBEFA4FA4]
  else
    [0x6A09E667F3BCC908; 0xBB67AE8584CAA73B; 0x3C6EF372FE94F82B; 0xA54FF53A5F1D36F1;
     0x510E527FADE682D1; 0x9B05688C2B3E6C1F; 0x1F83D9ABFB41BD6B; 0x5BE0CD19137E2179].
Fixpoint store_state (self : lh_crypto_sha_t) (index : Z) (ws : list Z) : outcome lh_crypto_sha_t :=
  match ws with
  | [] => mret self
  | v :: ws => self ← lh_crypto_sha_set_state_word self index v; store_state self (index + 1) ws
  end.
Definition lh_crypto_sha_init (self : lh_crypto_sha_t) (kind : Z) : outcome lh_crypto_sha_t :=
  _ ← fail_if (lh_crypto_sha_digest_size kind =? 0) lh_runtime_error_code_invalid_argument;
  let self := lh_crypto_sha_set_kind self kind in
  let self := lh_crypto_sha_set_finished self false in
  let self := lh_crypto_sha_set_bit_count_lo self 0 in
  let self := lh_crypto_sha_set_bit_count_hi self 0 in
  let self := lh_crypto_sha_set_block_fill self 0 in
  b ← set_bytes (lh_crypto_sha_get_block self) 0 0 LH_CRYPTO_SHA_BLOCK_SIZE_MAX;
  let self := lh_crypto_sha_get_block_mut self b in
  store_state self 0 (initial_state kind).

Definition lh_crypto_sha_add_state_word (self : lh_crypto_sha_t) (index word : Z) : outcome lh_crypto_sha_t :=
  v ← lh_crypto_sha_get_state_word self index;
  lh_crypto_sha_set_state_word self index (u64 (v + word)).
Definition lh_crypto_sha_add_state_word_32 (self : lh_crypto_sha_t) (index word : Z) : outcome lh_crypto_sha_t :=
  v ← lh_crypto_sha_get_state_word self index;
  let low := u32 v in
  lh_crypto_sha_set_state_word self index (u32 (low + word)).
Definition lh_crypto_sha_put_digest (self : lh_crypto_sha_t) (out : buffer) : outcome buffer :=
  let kind := lh_crypto_sha_get_kind self in
  let digest_size := lh_crypto_sha_digest_size kind in
  if lh_crypto_sha_kind_is_wide kind then
    for_up 0 (digest_size / 8) (fun i out =>
      v ← lh_crypto_sha_get_state_word self i;
      lh_bit_pack_be64 v out (i * 8)) out
  else
    for_up 0 (digest_size / 4) (fun i out =>
      v ← lh_crypto_sha_get_state_word self i;
      lh_bit_pack_be32 (u32 v) out (i * 4)) out.

(** ** Compression *)

Definition lnot32 (x : Z) : Z := u32 (Z.lnot x).

(** SHA-1: the function and the constant of the step [i], and the step. *)
Definition sha1_f (i b c d : Z) : Z :=
  if i <? 20 then Z.lor (Z.land b c) (Z.land (lnot32 b) d) else
  if i <? 40 then Z.lxor (Z.lxor b c) d else
  if i <? 60 then Z.lor (Z.lor (Z.land b c) (Z.land b d)) (Z.land c d) else Z.lxor (Z.lxor b c) d.
Definition sha1_k (i : Z) : Z :=
  if i <? 20 then 0x5A827999 else if i <? 40 then 0x6ED9EBA1 else if i <? 60 then 0x8F1BBCDC else 0xCA62C1D6.
Definition sha1_step (w : list Z) (i : Z) (st : Z * Z * Z * Z * Z) : outcome (Z * Z * Z * Z * Z) :=
  let '(a, b, c, d, e) := st in
  wi ← load w i;
  let temp := u32 (lh_bit_rotate_left_u32 a 5 + sha1_f i b c d + e + sha1_k i + wi) in
  mret (temp, a, lh_bit_rotate_left_u32 b 30, c, d).
Definition lh_crypto_sha_process_1 (self : lh_crypto_sha_t) (block : buffer) : outcome lh_crypto_sha_t :=
  w ← for_up 0 16 (fun i w => v ← lh_bit_unpack_be32 block (i * 4); put w i v) (local 80);
  w ← for_up 16 80 (fun i w =>
    w3 ← load w (i - 3);
    w8 ← load w (i - 8);
    w14 ← load w (i - 14);
    w16 ← load w (i - 16);
    put w i (lh_bit_rotate_left_u32 (Z.lxor (Z.lxor (Z.lxor w3 w8) w14) w16) 1)) w;
  a ← lh_crypto_sha_get_state_word self 0;
  b ← lh_crypto_sha_get_state_word self 1;
  c ← lh_crypto_sha_get_state_word self 2;
  d ← lh_crypto_sha_get_state_word self 3;
  e ← lh_crypto_sha_get_state_word self 4;
  '(a, b, c, d, e) ← for_up 0 80 (sha1_step w) (u32 a, u32 b, u32 c, u32 d, u32 e);
  self ← lh_crypto_sha_add_state_word_32 self 0 a;
  self ← lh_crypto_sha_add_state_word_32 self 1 b;
  self ← lh_crypto_sha_add_state_word_32 self 2 c;
  self ← lh_crypto_sha_add_state_word_32 self 3 d;
  lh_crypto_sha_add_state_word_32 self 4 e.

(** The loops that [lh_crypto_sha_process_256] and [lh_crypto_sha_process_512] have alike:
    [wrap] is the word's range, [s0], [s1] the functions of the message words, [S0], [S1]
    those of the steps, [k] the constants. *)
Section Sha2.
Context (wrap s0 s1 S0 S1 : Z -> Z) (k : list Z).
Definition sha2_word (i : Z) (w : list Z) : outcome (list Z) :=
  w15 ← load w (i - 15);
  w2 ← load w (i - 2);
  w16 ← load w (i - 16);
  w7 ← load w (i - 7);
  put w i (wrap (w16 + s0 w15 + w7 + s1 w2)).
Definition sha2_step (w : list Z) (i : Z) (st : Z * Z * Z * Z * Z * Z * Z * Z)
    : outcome (Z * Z * Z * Z * Z * Z * Z * Z) :=
  let '(a, b, c, d, e, f, g, h) := st in
  let ch := Z.lxor (Z.land e f) (Z.land (wrap (Z.lnot e)) g) in
  ki ← load k i;
  wi ← load w i;
  let temp1 := wrap (h + S1 e + ch + ki + wi) in
  let maj := Z.lxor (Z.lxor (Z.land a b) (Z.land a c)) (Z.land b c) in
  let temp2 := wrap (S0 a + maj) in
  mret (wrap (temp1 + temp2), a, b, c, wrap (d + temp1), e, f, g).
End Sha2.

Definition rr32 := lh_bit_rotate_right_u32.
Definition s0_256 (x : Z) : Z := Z.lxor (Z.lxor (rr32 x 7) (rr32 x 18)) (Z.shiftr x 3).
Definition s1_256 (x : Z) : Z := Z.lxor (Z.lxor (rr32 x 17) (rr32 x 19)) (Z.shiftr x 10).
Definition S0_256 (x : Z) : Z := Z.lxor (Z.lxor (rr32 x 2) (rr32 x 13)) (rr32 x 22).
Definition S1_256 (x : Z) : Z := Z.lxor (Z.lxor (rr32 x 6) (rr32 x 11)) (rr32 x 25).
Definition lh_crypto_sha_process_256 (self : lh_crypto_sha_t) (block : buffer) : outcome lh_crypto_sha_t :=
  w ← for_up 0 16 (fun i w => v ← lh_bit_unpack_be32 block (i * 4); put w i v) (local 64);
  w ← for_up 16 64 (sha2_word u32 s0_256 s1_256) w;
  a ← lh_crypto_sha_get_state_word self 0;
  b ← lh_crypto_sha_get_state_word self 1;
  c ← lh_crypto_sha_get_state_word self 2;
  d ← lh_crypto_sha_get_state_word self 3;
  e ← lh_crypto_sha_get_state_word self 4;
  f ← lh_crypto_sha_get_state_word self 5;
  g ← lh_crypto_sha_get_state_word self 6;
  h ← lh_crypto_sha_get_state_word self 7;
  '(a, b, c, d, e, f, g, h) ← for_up 0 64 (sha2_step u32 S0_256 S1_256 m_k256 w)
    (u32 a, u32 b, u32 c, u32 d, u32 e, u32 f, u32 g, u32 h);
  self ← lh_crypto_sha_add_state_word_32 self 0 a;
  self ← lh_crypto_sha_add_state_word_32 self 1 b;
  self ← lh_crypto_sha_add_state_word_32 self 2 c;
  self ← lh_crypto_sha_add_state_word_32 self 3 d;
  self ← lh_crypto_sha_add_state_word_32 self 4 e;
  self ← lh_crypto_sha_add_state_word_32 self 5 f;
  self ← lh_crypto_sha_add_state_word_32 self 6 g;
  lh_crypto_sha_add_state_word_32 self 7 h.

Definition rr64 := lh_bit_rotate_right_u64.
Definition s0_512 (x : Z) : Z := Z.lxor (Z.lxor (rr64 x 1) (rr64 x 8)) (Z.shiftr x 7).
Definition s1_512 (x : Z) : Z := Z.lxor (Z.lxor (rr64 x 19) (rr64 x 61)) (Z.shiftr x 6).
Definition S0_512 (x : Z) : Z := Z.lxor (Z.lxor (rr64 x 28) (rr64 x 34)) (rr64 x 39).
Definition S1_512 (x : Z) : Z := Z.lxor (Z.lxor (rr64 x 14) (rr64 x 18)) (rr64 x 41).
Definition lh_crypto_sha_process_512 (self : lh_crypto_sha_t) (block : buffer) : outcome lh_crypto_sha_t :=
  w ← for_up 0 16 (fun i w => v ← lh_bit_unpack_be64 block (i * 8); put w i v) (local 80);
  w ← for_up 16 80 (sha2_word u64 s0_512 s1_512) w;
  a ← lh_crypto_sha_get_state_word self 0;
  b ← lh_crypto_sha_get_state_word self 1;
  c ← lh_crypto_sha_get_state_word self 2;
  d ← lh_crypto_sha_get_state_word self 3;
  e ← lh_crypto_sha_get_state_word self 4;
  f ← lh_crypto_sha_get_state_word self 5;
  g ← lh_crypto_sha_get_state_word self 6;
  h ← lh_crypto_sha_get_state_word self 7;
  '(a, b, c, d, e, f, g, h) ← for_up 0 80 (sha2_step u64 S0_512 S1_512 m_k512 w) (a, b, c, d, e, f, g, h);
  self ← lh_crypto_sha_add_state_word self 0 a;
  self ← lh_crypto_sha_add_state_word self 1 b;
  self ← lh_crypto_sha_add_state_word self 2 c;
  self ← lh_crypto_sha_add_state_word self 3 d;
  self ← lh_crypto_sha_add_state_word self 4 e;
  self ← lh_crypto_sha_add_state_word self 5 f;
  self ← lh_crypto_sha_add_state_word self 6 g;
  lh_crypto_sha_add_state_word self 7 h.

(** ** Streaming *)

(** A pointer into the block, as the offset in it. *)
Definition lh_crypto_sha_get_block_tail_mut (self : lh_crypto_sha_t) : Z := lh_crypto_sha_get_block_fill self.
Definition lh_crypto_sha_fill_block (self : lh_crypto_sha_t) (bytes : buffer) (size : Z) : outcome lh_crypto_sha_t :=
  b ← copy_bytes (lh_crypto_sha_get_block self) (lh_crypto_sha_get_block_tail_mut self) bytes size;
  let self := lh_crypto_sha_get_block_mut self b in
  mret (lh_crypto_sha_set_block_fill self (u64 (lh_crypto_sha_get_block_fill self + size))).
Definition lh_crypto_sha_zero_block_to (self : lh_crypto_sha_t) (end_ : Z) : outcome lh_crypto_sha_t :=
  b ← set_bytes (lh_crypto_sha_get_block self) (lh_crypto_sha_get_block_tail_mut self) 0
                (u64 (end_ - lh_crypto_sha_get_block_fill self));
  mret (lh_crypto_sha_get_block_mut self b).
Definition lh_crypto_sha_process (self : lh_crypto_sha_t) (block : buffer) : outcome lh_crypto_sha_t :=
  if lh_crypto_sha_get_kind self =? lh_crypto_sha_kind_1 then lh_crypto_sha_process_1 self block else
  if lh_crypto_sha_kind_is_wide (lh_crypto_sha_get_kind self) then lh_crypto_sha_process_512 self block else
  lh_crypto_sha_process_256 self block.

Fixpoint update_loop (fuel : nat) (self : lh_crypto_sha_t) (bytes : buffer) (block_size remaining : Z)
    : outcome (lh_crypto_sha_t * buffer * Z) :=
  match fuel with
  | O => Undef
  | S fuel =>
    if remaining >=? block_size then
      self ← lh_crypto_sha_process self bytes;
      update_loop fuel self (drop (Z.to_nat block_size) bytes) block_size (remaining - block_size)
    else mret (self, bytes, remaining)
  end.
(** The part before the loop: bytes for the block that is begun. *)
Definition top_up (self : lh_crypto_sha_t) (bytes : buffer) (block_size remaining : Z)
    : outcome (lh_crypto_sha_t * buffer * Z) :=
  if negb (lh_crypto_sha_get_block_fill self =? 0) then
    let room := u64 (block_size - lh_crypto_sha_get_block_fill self) in
    let take := if remaining <? room then remaining else room in
    self ← lh_crypto_sha_fill_block self bytes take;
    let bytes := drop (Z.to_nat take) bytes in
    let remaining := u64 (remaining - take) in
    if lh_crypto_sha_get_block_fill self =? block_size then
      self ← lh_crypto_sha_process self (lh_crypto_sha_get_block self);
      mret (lh_crypto_sha_set_block_fill self 0, bytes, remaining)
    else mret (self, bytes, remaining)
  else mret (self, bytes, remaining).
Definition lh_crypto_sha_update (self : lh_crypto_sha_t) (data : option buffer) (size : Z) : outcome lh_crypto_sha_t :=
  _ ← fail_if (lh_crypto_sha_is_finished self) lh_runtime_error_code_invalid_argument;
  if size =? 0 then mret self else
  bytes ← assert_set data;
  let block_size := lh_crypto_sha_block_size (lh_crypto_sha_get_kind self) in
  let remaining := size in
  let self := lh_crypto_sha_add_bits self size in
  '(self, bytes, remaining) ← top_up self bytes block_size remaining;
  '(self, bytes, remaining) ← update_loop (S (Z.to_nat remaining)) self bytes block_size remaining;
  if negb (remaining =? 0) then lh_crypto_sha_fill_block self bytes remaining else mret self.

Definition lh_crypto_sha_pad (self : lh_crypto_sha_t) : outcome lh_crypto_sha_t :=
  let mark := 0x80 in
  let kind := lh_crypto_sha_get_kind self in
  let block_size := lh_crypto_sha_block_size kind in
  let length_size := if lh_crypto_sha_kind_is_wide kind then 16 else 8 in
  self ← lh_crypto_sha_fill_block self [mark] 1;
  self ← (if lh_crypto_sha_get_block_fill self >? u64 (block_size - length_size) then
            self ← lh_crypto_sha_zero_block_to self block_size;
            self ← lh_crypto_sha_process self (lh_crypto_sha_get_block self);
            mret (lh_crypto_sha_set_block_fill self 0)
          else mret self);
  self ← lh_crypto_sha_zero_block_to self (u64 (block_size - length_size));
  self ← (if lh_crypto_sha_kind_is_wide kind then
            b ← lh_bit_pack_be64 (lh_crypto_sha_get_bit_count_hi self) (lh_crypto_sha_get_block self) (block_size - 16);
            mret (lh_crypto_sha_get_block_mut self b)
          else mret self);
  b ← lh_bit_pack_be64 (lh_crypto_sha_get_bit_count_lo self) (lh_crypto_sha_get_block self) (block_size - 8);
  let self := lh_crypto_sha_get_block_mut self b in
  lh_crypto_sha_process self (lh_crypto_sha_get_block self).

(** The number of bytes of the digest, or 0 and nothing changed when it does not fit. *)
Definition lh_crypto_sha_finish (self : lh_crypto_sha_t) (out : option buffer) (out_size : Z)
    : outcome (lh_crypto_sha_t * buffer * Z) :=
  out ← assert_set out;
  _ ← fail_if (lh_crypto_sha_is_finished self) lh_runtime_error_code_invalid_argument;
  let digest_size := lh_crypto_sha_digest_size (lh_crypto_sha_get_kind self) in
  if digest_size >? out_size then mret (self, out, 0) else
  self ← lh_crypto_sha_pad self;
  let self := lh_crypto_sha_set_finished self true in
  out ← lh_crypto_sha_put_digest self out;
  mret (self, out, digest_size).

(** The hasher is a local, with whatever its memory holds. *)
Definition lh_crypto_sha_hash (hasher : lh_crypto_sha_t) (kind : Z) (data : option buffer) (size : Z)
    (out : option buffer) (out_size : Z) : outcome (option buffer * Z) :=
  if lh_crypto_sha_digest_size kind =? 0 then mret (out, 0) else
  hasher ← lh_crypto_sha_init hasher kind;
  hasher ← lh_crypto_sha_update hasher data size;
  '(_, out, n) ← lh_crypto_sha_finish hasher out out_size;
  mret (Some out, n).

Definition no_sha : lh_crypto_sha_t := mk_sha 0 false (local 8) 0 0 (local 128) 0.
(** The digests of "abc" in the standard, by their first bytes. *)
Example sha_abc :
  let start kind := match lh_crypto_sha_hash no_sha kind (Some [97; 98; 99]) 3 (Some (local 64)) 64 with
                    | Done (Some o, _) => take 4 o | _ => [] end in
  map start [0; 1; 2; 3; 4]
  = [[0xA9; 0x99; 0x3E; 0x36]; [0x23; 0x09; 0x7D; 0x22]; [0xBA; 0x78; 0x16; 0xBF];
     [0xCB; 0x00; 0x75; 0x3F]; [0xDD; 0xAF; 0x35; 0xA1]].
Proof. vm_compute. reflexivity. Qed.
