(* ===== verification/ShaSpec.v ===== *)
(** * The compression functions of the SHA family

    The standard's definitions over [w]-bit words (rotation, Ch, Maj, the message schedule,
    the steps, the addition of the result to the state) and, for each of
    [lh_crypto_sha_process_1], [_256] and [_512], that it replaces the state of the hasher by
    what they give. *)
From S2P Require Import Prelude Buffer Bytes Sha.
From Stdlib Require Import btauto.Btauto.

(** ** The standard's notation *)

Section Words.
Context (w : Z).
Definition word (x : Z) : Prop := 0 <= x < 2 ^ w.
Definition wsum (l : list Z) : Z := foldl Z.add 0 l mod 2 ^ w.
Definition rotr (n x : Z) : Z := (x mod 2 ^ n) * 2 ^ (w - n) + x / 2 ^ n.
Definition wnot (x : Z) : Z := 2 ^ w - 1 - x.
Definition ch (x y z : Z) : Z := Z.lxor (Z.land x y) (Z.land (wnot x) z).
Definition maj (x y z : Z) : Z := Z.lxor (Z.lxor (Z.land x y) (Z.land x z)) (Z.land y z).
Definition xor3 (x y z : Z) : Z := Z.lxor (Z.lxor x y) z.
End Words.

(** The number whose digits to the base 256 are the bytes, and the 16 words of a block. *)
Definition number_of (bs : buffer) : Z := foldl (fun a b => 256 * a + b) 0 bs.
Definition word_at (size : nat) (block : buffer) (t : nat) : Z := number_of (take size (drop (t * size) block)).
Definition message_words (size : nat) (block : buffer) : list Z := map (word_at size block) (seq 0 16).

(** A schedule: [n] more words, each from those before it; [ago k ws] is the word [k] places back. *)
Fixpoint grow (next : list Z -> Z) (n : nat) (ws : list Z) : list Z :=
  match n with O => ws | S n => grow next n (ws ++ [next ws]) end.
Definition ago (k : nat) (ws : list Z) : Z := nth (length ws - k) ws 0.

Section Sha2Reference.
Context (w : Z) (sigma0 sigma1 Sigma0 Sigma1 : Z -> Z) (K : list Z).
Definition schedule2 (M : list Z) : list Z :=
  grow (fun W => wsum w [ago 16 W; sigma0 (ago 15 W); ago 7 W; sigma1 (ago 2 W)]) (length K - 16) M.
Definition step2 (st : list Z) (kw : Z * Z) : list Z :=
  match st with
  | [a; b; c; d; e; f; g; h] =>
    let T1 := wsum w [h; Sigma1 e; ch w e f g; fst kw; snd kw] in
    let T2 := wsum w [Sigma0 a; maj a b c] in
    [wsum w [T1; T2]; a; b; c; wsum w [d; T1]; e; f; g]
  | _ => st
  end.
Definition compress2 (H : list Z) (block : buffer) : list Z :=
  let W := schedule2 (message_words (Z.to_nat (w / 8)) block) in
  zip_with (fun x y => wsum w [x; y]) H (foldl step2 H (zip K W)).
End Sha2Reference.

(** The constants: the first [w] bits of the fractional parts of the square and the cube
    roots of the primes. *)
Definition is_prime (n : Z) : bool := forallb (fun d => negb (n mod d =? 0)) (seqZ 2 (n - 2)).
Definition primes : list Z := List.filter is_prime (seqZ 2 408).
Fixpoint cube_root (n : nat) (r x : Z) : Z :=
  match n with
  | O => r
  | S n => let r' := r + 2 ^ Z.of_nat n in cube_root n (if r' ^ 3 <=? x then r' else r) x
  end.
Definition square_roots (w : Z) (ps : list Z) : list Z := map (fun p => Z.sqrt (p * 2 ^ (2 * w)) mod 2 ^ w) ps.
Definition cube_roots (w : Z) (ps : list Z) : list Z := map (fun p => cube_root 70 0 (p * 2 ^ (3 * w)) mod 2 ^ w) ps.
Definition K256 : list Z := cube_roots 32 (take 64 primes).
Definition K512 : list Z := cube_roots 64 (take 80 primes).
Definition K1 : list Z := map (fun n => Z.sqrt (n * 2 ^ 60)) [2; 3; 5; 10].

Definition compress_256 : list Z -> buffer -> list Z :=
  compress2 32
    (fun x => xor3 (rotr 32 7 x) (rotr 32 18 x) (x / 2 ^ 3))
    (fun x => xor3 (rotr 32 17 x) (rotr 32 19 x) (x / 2 ^ 10))
    (fun x => xor3 (rotr 32 2 x) (rotr 32 13 x) (rotr 32 22 x))
    (fun x => xor3 (rotr 32 6 x) (rotr 32 11 x) (rotr 32 25 x)) K256.
Definition compress_512 : list Z -> buffer -> list Z :=
  compress2 64
    (fun x => xor3 (rotr 64 1 x) (rotr 64 8 x) (x / 2 ^ 7))
    (fun x => xor3 (rotr 64 19 x) (rotr 64 61 x) (x / 2 ^ 6))
    (fun x => xor3 (rotr 64 28 x) (rotr 64 34 x) (rotr 64 39 x))
    (fun x => xor3 (rotr 64 14 x) (rotr 64 18 x) (rotr 64 41 x)) K512.

Definition schedule1 (M : list Z) : list Z :=
  grow (fun W => rotr 32 31 (Z.lxor (xor3 (ago 3 W) (ago 8 W) (ago 14 W)) (ago 16 W))) 64 M.
Definition step1 (st : list Z) (tw : Z * Z) : list Z :=
  match st with
  | [a; b; c; d; e] =>
    let '(t, W) := tw in
    let f := if t <? 20 then ch 32 b c d else if (40 <=? t) && (t <? 60) then maj b c d else xor3 b c d in
    let K := nth (Z.to_nat (t / 20)) K1 0 in
    [wsum 32 [rotr 32 27 a; f; e; K; W]; a; rotr 32 2 b; c; d]
  | _ => st
  end.
Definition compress_1 (H : list Z) (block : buffer) : list Z :=
  let W := schedule1 (message_words 4 block) in
  zip_with (fun x y => wsum 32 [x; y]) H (foldl step1 H (zip (seqZ 0 80) W)).

(** ** Words *)

Lemma wsum_word w l : 0 < w -> word w (wsum w l).
Proof. intros. unfold word, wsum. apply Z.mod_pos_bound. lia. Qed.
Lemma rotr_lor w x r : word w x -> 0 < r < w ->
  Z.lor (Z.shiftr x r) (Z.shiftl x (w - r) mod 2 ^ w) = rotr w r x.
Proof.
  intros Hx Hr. unfold rotr. rewrite Z.shiftl_mul_pow2, Z.shiftr_div_pow2 by lia.
  assert (2 ^ w = 2 ^ r * 2 ^ (w - r)) as E by (rewrite <-Z.pow_add_r by lia; f_equal; lia).
  rewrite E, Z.mul_mod_distr_r by lia. rewrite Z.lor_comm. apply lor_disjoint; [lia|].
  split; [apply Z.div_pos; [apply Hx|lia]|]. apply Z.div_lt_upper_bound; [lia|]. rewrite <-E. apply Hx.
Qed.
Lemma rotr_word w x r : word w x -> 0 < r < w -> word w (rotr w r x).
Proof.
  intros Hx Hr. unfold rotr, word.
  assert (2 ^ w = 2 ^ r * 2 ^ (w - r)) as E by (rewrite <-Z.pow_add_r by lia; f_equal; lia).
  pose proof (Z.mod_pos_bound x (2 ^ r) ltac:(lia)). pose proof (Z.div_pos x (2 ^ r) (proj1 Hx) ltac:(lia)).
  assert (x / 2 ^ r < 2 ^ (w - r)) by (apply Z.div_lt_upper_bound; [lia|]; rewrite <-E; apply Hx). nia.
Qed.
Lemma rr32_is x r : word 32 x -> 0 < r < 32 -> lh_bit_rotate_right_u32 x r = rotr 32 r x.
Proof.
  intros Hx Hr. unfold lh_bit_rotate_right_u32. change 31 with (Z.ones 5). rewrite Z.land_ones, Z.mod_small by lia.
  cbv zeta. rewrite (proj2 (Z.eqb_neq r 0)) by lia. by apply rotr_lor.
Qed.
Lemma rr64_is x r : word 64 x -> 0 < r < 64 -> lh_bit_rotate_right_u64 x r = rotr 64 r x.
Proof.
  intros Hx Hr. unfold lh_bit_rotate_right_u64. change 63 with (Z.ones 6). rewrite Z.land_ones, Z.mod_small by lia.
  cbv zeta. rewrite (proj2 (Z.eqb_neq r 0)) by lia. by apply rotr_lor.
Qed.
Lemma rl32_is x r : word 32 x -> 0 < r < 32 -> lh_bit_rotate_left_u32 x r = rotr 32 (32 - r) x.
Proof.
  intros Hx Hr. unfold lh_bit_rotate_left_u32. change 31 with (Z.ones 5). rewrite Z.land_ones, Z.mod_small by lia.
  cbv zeta. rewrite (proj2 (Z.eqb_neq r 0)) by lia. rewrite <-rotr_lor by (done || lia).
  rewrite Z.lor_comm. by replace (32 - (32 - r)) with r by lia.
Qed.
Lemma wnot_is w x : 0 <= w -> word w x -> Z.lnot x mod 2 ^ w = wnot w x.
Proof.
  intros Hw Hx. unfold wnot, Z.lnot. symmetry. apply (Z.mod_unique_pos _ _ (-1)); unfold word in Hx; lia.
Qed.
Lemma xor_word w x y : 0 <= w -> word w x -> word w y -> word w (Z.lxor x y).
Proof.
  intros Hw Hx Hy. unfold word in *. assert (0 <= Z.lxor x y) by (apply Z.lxor_nonneg; lia). split; [done|].
  apply Z.lt_nge. intros Hge. assert (Z.lxor x y = Z.lxor x y mod 2 ^ w) as E.
  { apply Z.bits_inj'. intros n Hn. destruct (Z.ltb_spec n w); [by rewrite Z.mod_pow2_bits_low by lia|].
    rewrite Z.mod_pow2_bits_high, Z.lxor_spec, !(testbit_above _ w) by lia. done. }
  pose proof (Z.mod_pos_bound (Z.lxor x y) (2 ^ w) ltac:(lia)). lia.
Qed.

(** ** The code's loops *)

Lemma for_up_fold {A B X} (R : A -> B -> Prop) (next : B -> X -> B) body l :
  forall from to a b, len l = to - from -> R a b ->
  (forall i x a b, l !! Z.to_nat (i - from) = Some x -> from <= i < to -> R a b ->
     exists a', body i a = Done a' /\ R a' (next b x)) ->
  exists a', for_up from to body a = Done a' /\ R a' (foldl next b l).
Proof.
  induction l as [|x l IH]; intros from to a b Hl HR Hbody; cbn [length foldl] in *.
  { exists a. rewrite for_up_none by lia. done. }
  unfold for_up. replace (Z.to_nat (to - from)) with (S (Z.to_nat (to - (from + 1)))) by lia. cbn [for_steps].
  destruct (Hbody from x a b) as (a1 & -> & HR1); [by rewrite Z.sub_diag|lia|done|]. rewrite bind_done.
  apply (IH (from + 1) to a1 (next b x)); [lia|done|]. intros i y a' b' Hy Hi. apply Hbody; [|lia].
  by replace (Z.to_nat (i - from)) with (S (Z.to_nat (i - (from + 1)))) by lia.
Qed.
Lemma grow_snoc next n ws : grow next (S n) ws = grow next n ws ++ [next (grow next n ws)].
Proof. revert ws. induction n as [|n IH]; intros ws; [done|]. cbn [grow] in *. by rewrite IH. Qed.
Lemma grow_map f n ws : grow (fun ws => f (length ws)) n ws = ws ++ map f (seq (length ws) n).
Proof.
  revert ws. induction n as [|n IH]; intros ws; cbn [grow seq map]; [by rewrite app_nil_r|].
  rewrite IH, length_app, <-app_assoc. cbn [length app]. by rewrite Nat.add_1_r.
Qed.
Lemma grow_all (P : Z -> Prop) next n ws : Forall P ws ->
  (forall l, Forall P l -> (length ws <= length l)%nat -> P (next l)) -> Forall P (grow next n ws).
Proof.
  intros Hw Hn. induction n as [|n IH]; [done|]. rewrite grow_snoc. apply Forall_app. split; [done|].
  constructor; [|done]. apply Hn; [done|]. clear -n. induction n as [|n IH]; [done|].
  rewrite grow_snoc, length_app. lia.
Qed.
Lemma length_grow next n ws : length (grow next n ws) = (n + length ws)%nat.
Proof. induction n as [|n IH]; [done|]. rewrite grow_snoc, length_app, IH. cbn. lia. Qed.

(** An array filled from [from] on, each word computed from those before it. *)
Lemma for_up_grow next body from to w :
  0 <= from <= to -> to <= len w ->
  (forall i w', from <= i < to -> len w' = len w -> take (Z.to_nat i) w' = grow next (Z.to_nat (i - from)) (take (Z.to_nat from) w) ->
     body i w' = put w' i (next (take (Z.to_nat i) w'))) ->
  exists w', for_up from to body w = Done w' /\ len w' = len w /\
    take (Z.to_nat to) w' = grow next (Z.to_nat (to - from)) (take (Z.to_nat from) w).
Proof.
  intros Hft Hto Hbody.
  destruct (for_up_rule (fun i w' => len w' = len w /\
    take (Z.to_nat i) w' = grow next (Z.to_nat (i - from)) (take (Z.to_nat from) w)) from to body w) as (w' & E & Hw').
  { lia. } { by rewrite Z.sub_diag. } 2: { by exists w'. }
  intros i w' Hi [Hl Hw']. rewrite Hbody by done. rewrite put_ok by lia. eexists. split; [done|].
  split; [rewrite length_insert; lia|].
  replace (Z.to_nat (i + 1)) with (S (Z.to_nat i)) by lia. replace (Z.to_nat (i + 1 - from)) with (S (Z.to_nat (i - from))) by lia.
  erewrite take_S_r by (apply list_lookup_insert_eq; lia). rewrite take_insert_ge, grow_snoc by lia. by rewrite Hw'.
Qed.
Lemma ago_at w i k : 0 < k <= i -> i <= len w -> load w (i - k) = Done (ago (Z.to_nat k) (take (Z.to_nat i) w)).
Proof.
  intros Hk Hi. rewrite byte_at_load by lia. f_equal. unfold ago, byte_at. rewrite length_take, !nth_lookup, lookup_take_lt by lia.
  do 2 f_equal. lia.
Qed.

(** ** The words of a block *)

Lemma four_bytes b k : (k + 4 <= length b)%nat ->
  let i := Z.of_nat k in take 4 (drop k b) = [byte_at b i; byte_at b (i + 1); byte_at b (i + 2); byte_at b (i + 3)].
Proof.
  intros Hl i. assert (forall j, 0 <= j -> byte_at b (i + j) = byte_at (drop k b) j) as E by (intros; by rewrite byte_at_drop).
  rewrite <-(Z.add_0_r i) at 1. rewrite !E by lia. pose proof (length_drop b k) as Hd.
  destruct (drop k b) as [|x0 [|x1 [|x2 [|x3 r]]]]; cbn [length] in Hd; try lia. done.
Qed.
Lemma take_bytes k b : is_bytes b -> is_bytes (take k b).
Proof. apply Forall_take. Qed.
Lemma number_of_app a b : number_of (a ++ b) = 256 ^ len b * number_of a + number_of b.
Proof.
  unfold number_of. rewrite foldl_app. generalize (foldl (fun a b => 256 * a + b) 0 a). clear a.
  induction b as [|x b IH] using rev_ind; intros y; [cbn [length foldl]; lia|].
  rewrite !foldl_app. cbn [foldl]. rewrite IH, length_app. cbn [length].
  replace (Z.of_nat (length b + 1)) with (len b + 1) by lia. rewrite Z.pow_add_r by lia. lia.
Qed.
Lemma number_of_bound b : is_bytes b -> 0 <= number_of b < 256 ^ len b.
Proof.
  induction b as [|x b IH] using rev_ind; [done|]. intros [Hb Hx]%Forall_app. apply (Forall_singleton is_u8) in Hx.
  specialize (IH Hb). rewrite number_of_app, length_app. cbn [length]. change (number_of [x]) with x.
  replace (Z.of_nat (length b + 1)) with (len b + 1) by lia. rewrite Z.pow_add_r by lia. change (256 ^ Z.of_nat 1) with 256. change (256 ^ 1) with 256.
  generalize dependent (256 ^ len b). intros m Hm. zb.
Qed.
Lemma unpack32_number b k : is_bytes b -> (k + 4 <= length b)%nat ->
  lh_bit_unpack_be32 b (Z.of_nat k) = Done (number_of (take 4 (drop k b))).
Proof.
  intros Hb Hl. rewrite unpack_be32_ok by (done || lia). rewrite four_bytes by done. f_equal.
  unfold number_of, be32. cbn [foldl]. lia.
Qed.
Lemma unpack64_number b k : is_bytes b -> (k + 8 <= length b)%nat ->
  lh_bit_unpack_be64 b (Z.of_nat k) = Done (number_of (take 8 (drop k b))).
Proof.
  intros Hb Hl. unfold lh_bit_unpack_be64. rewrite unpack32_number, bind_done by (done || lia).
  replace (Z.of_nat k + 4) with (Z.of_nat (k + 4)) by lia. rewrite unpack32_number, bind_done by (done || lia).
  change (mret ?x) with (Done x). f_equal. rewrite <-drop_drop.
  rewrite <-(take_drop 4 (take 8 (drop k b))), take_take, number_of_app, skipn_firstn_comm.
  cbn [Nat.min Nat.sub]. rewrite (length_take (drop 4 (drop k b))), !length_drop, Nat.min_l by lia.
  pose proof (number_of_bound (take 4 (drop k b)) ltac:(by apply Forall_take, Forall_drop)) as B1.
  pose proof (number_of_bound (take 4 (drop 4 (drop k b))) ltac:(by apply Forall_take, Forall_drop, Forall_drop)) as B2.
  rewrite length_take, length_drop, Nat.min_l in B1 by lia. rewrite length_take, !length_drop, Nat.min_l in B2 by lia.
  change (256 ^ Z.of_nat 4) with 4294967296 in *. unfold lh_bit_make_u64. rewrite Z.shiftl_mul_pow2 by lia.
  change (2 ^ 32) with 4294967296. rewrite u64_id by zb. change 4294967296 with (2 ^ 32) in *. rewrite lor_disjoint by lia. lia.
Qed.

(** The first loop of each function. *)
Lemma message_loop size unpack n block : (size = 4 \/ size = 8)%nat -> 16 <= n ->
  unpack = (if (size =? 4)%nat then lh_bit_unpack_be32 else lh_bit_unpack_be64) ->
  is_bytes block -> (16 * size <= length block)%nat ->
  exists w, for_up 0 16 (fun i w => v ← unpack block (i * Z.of_nat size); put w i v) (local n) = Done w /\
    len w = n /\ take 16 w = message_words size block.
Proof.
  intros Hs Hn -> Hb Hl.
  destruct (for_up_grow (fun ws => word_at size block (length ws))
    (fun i w => v ← (if (size =? 4)%nat then lh_bit_unpack_be32 else lh_bit_unpack_be64) block (i * Z.of_nat size); put w i v)
    0 16 (local n)) as (w & E & Hw & Ht); [lia|rewrite length_local; lia| |].
  - intros i w' Hi Hw' _. rewrite length_local in Hw' by lia.
    replace (i * Z.of_nat size) with (Z.of_nat (Z.to_nat i * size)) by lia. unfold word_at. rewrite length_take, Nat.min_l by lia.
    destruct Hs as [-> | ->]; cbn [Nat.eqb]; (rewrite unpack32_number || rewrite unpack64_number); (done || lia || by rewrite bind_done).
  - rewrite length_local in Hw by lia. exists w. split; [exact E|]. split; [exact Hw|]. exact (eq_trans Ht (grow_map _ 16 [])).
Qed.
Lemma message_words_word size w block : w = 8 * Z.of_nat size -> is_bytes block -> Forall (word w) (message_words size block).
Proof.
  intros -> Hb. unfold message_words. apply Forall_map, Forall_true. intros t. unfold word_at.
  pose proof (number_of_bound (take size (drop (t * size) block)) ltac:(by apply Forall_take, Forall_drop)) as H.
  split; [lia|]. eapply Z.lt_le_trans; [apply H|]. rewrite Z.pow_mul_r by lia. change (2 ^ 8) with 256.
  apply Z.pow_le_mono_r; [lia|]. rewrite length_take. lia.
Qed.
Lemma ago_word P k l : Forall P l -> (0 < k <= length l)%nat -> P (ago k l).
Proof.
  intros Hl Hk. unfold ago. rewrite nth_lookup.
  destruct (lookup_lt_is_Some_2 l (length l - k)) as [x Hx]; [lia|]. rewrite Hx. by eapply Forall_lookup_1.
Qed.
(** The pairs of two lists as the loads that give them. *)
Lemma zip_load (l1 l2 : list Z) i p : zip l1 l2 !! Z.to_nat (i - 0) = Some p -> 0 <= i ->
  load l1 i = Done (fst p) /\ load l2 i = Done (snd p).
Proof.
  intros (x & y & -> & Hx & Hy)%lookup_zip_with_Some Hi. rewrite Z.sub_0_r in *.
  rewrite <-(Z2Nat.id i) by lia. split; by apply load_ok.
Qed.

(** ** SHA-2 *)

Section Sha2Proof.
Context (w : Z) (wrap s0 s1 S0 S1 sigma0 sigma1 Sigma0 Sigma1 : Z -> Z) (K : list Z).
Context (Hw : 0 < w) (Hwrap : forall x, wrap x = x mod 2 ^ w).
Context (Hs0 : forall x, word w x -> s0 x = sigma0 x) (Hs1 : forall x, word w x -> s1 x = sigma1 x).
Context (HS0 : forall x, word w x -> S0 x = Sigma0 x) (HS1 : forall x, word w x -> S1 x = Sigma1 x).

Lemma schedule2_word n M : Forall (word w) M ->
  Forall (word w) (grow (fun W => wsum w [ago 16 W; sigma0 (ago 15 W); ago 7 W; sigma1 (ago 2 W)]) n M).
Proof. intros HM. apply grow_all; [done|]. intros. by apply wsum_word. Qed.
Lemma schedule2_loop m : (16 <= length K)%nat -> len m = len K -> Forall (word w) (take 16 m) ->
  exists m', for_up 16 (len K) (sha2_word wrap s0 s1) m = Done m' /\ m' = schedule2 w sigma0 sigma1 K (take 16 m).
Proof.
  intros HK Hm HM.
  destruct (for_up_grow (fun W => wsum w [ago 16 W; sigma0 (ago 15 W); ago 7 W; sigma1 (ago 2 W)])
    (sha2_word wrap s0 s1) 16 (len K) m) as (m' & E & Hl & Ht); [lia..| |].
  - intros i m' Hi Hl Ht. pose proof (schedule2_word (Z.to_nat (i - 16)) _ HM) as HW.
    change (Z.to_nat 16) with 16%nat in Ht. rewrite <-Ht in HW.
    unfold sha2_word. rewrite (ago_at m' i 15), bind_done, (ago_at m' i 2), bind_done, (ago_at m' i 16), bind_done,
      (ago_at m' i 7), bind_done by lia. f_equal.
    rewrite Hs0, Hs1 by (apply ago_word; [done|rewrite length_take; lia]). by rewrite Hwrap.
  - exists m'. split; [exact E|]. rewrite take_ge in Ht by lia. rewrite Ht. unfold schedule2. f_equal. lia.
Qed.

Definition list8 (st : Z * Z * Z * Z * Z * Z * Z * Z) : list Z :=
  let '(a, b, c, d, e, f, g, h) := st in [a; b; c; d; e; f; g; h].
Lemma steps2_loop W st : len W = len K -> Forall (word w) (list8 st) ->
  exists st', for_up 0 (len K) (sha2_step wrap S0 S1 K W) st = Done st' /\
    list8 st' = foldl (step2 w Sigma0 Sigma1) (list8 st) (zip K W) /\ Forall (word w) (list8 st').
Proof.
  intros HW Hst.
  destruct (for_up_fold (fun st l => l = list8 st /\ Forall (word w) l) (step2 w Sigma0 Sigma1)
    (sha2_step wrap S0 S1 K W) (zip K W) 0 (len K) st (list8 st)) as (st' & E & Hst' & Hall).
  - rewrite length_zip_with. lia.
  - done.
  - clear st Hst. intros i p st l Hp Hi [-> Hl]. destruct st as [[[[[[[a b] c] d] e] f] g] h]. cbn [list8] in *.
    destruct (zip_load _ _ _ _ Hp ltac:(lia)) as [E1 E2]. unfold sha2_step. rewrite E1, bind_done, E2, bind_done.
    eexists. split; [done|]. cbn [list8 step2]. rewrite !Forall_cons in Hl. destruct Hl as (? & ? & ? & ? & ? & ? & ? & ? & _).
    split.
    + rewrite !Hwrap, HS0, HS1, wnot_is by (done || lia). done.
    + repeat apply Forall_cons_2; try done; by apply wsum_word.
  - exists st'. split; [exact E|]. by rewrite <-Hst' in *.
Qed.

(** The three loops of the function, on the words of a block. *)
Lemma sha2_loops size unpack st block : (size = 4 \/ size = 8)%nat -> w = 8 * Z.of_nat size -> (16 <= length K)%nat ->
  unpack = (if (size =? 4)%nat then lh_bit_unpack_be32 else lh_bit_unpack_be64) ->
  is_bytes block -> (16 * size <= length block)%nat -> Forall (word w) (list8 st) ->
  exists m m' st',
    for_up 0 16 (fun i w => v ← unpack block (i * Z.of_nat size); put w i v) (local (len K)) = Done m /\
    for_up 16 (len K) (sha2_word wrap s0 s1) m = Done m' /\
    for_up 0 (len K) (sha2_step wrap S0 S1 K m') st = Done st' /\
    zip_with (fun x y => wsum w [x; y]) (list8 st) (list8 st') = compress2 w sigma0 sigma1 Sigma0 Sigma1 K (list8 st) block.
Proof.
  intros Hsz Hwsz HK Hunp Hb Hl Hst.
  destruct (message_loop size unpack (len K) block Hsz) as (m & E & Hm & Hmw); [lia|done..|].
  pose proof (message_words_word size w block Hwsz Hb) as HM. rewrite <-Hmw in HM.
  destruct (schedule2_loop m HK Hm HM) as (m' & E' & Hm'). rewrite Hmw in Hm'.
  destruct (steps2_loop m' st) as (st' & E'' & Hst' & _); [|done|].
  { rewrite Hm'. unfold schedule2, message_words. rewrite length_grow, length_map, length_seq. lia. }
  exists m, m', st'. split_and!; try done. unfold compress2. rewrite Hst', Hm'.
  by replace (Z.to_nat (w / 8)) with size by (rewrite Hwsz, Z.mul_comm, Z.div_mul, Nat2Z.id; lia).
Qed.
End Sha2Proof.

Lemma word_at_take size n block t : ((t + 1) * size <= n)%nat -> word_at size (take n block) t = word_at size block t.
Proof. intros Hn. unfold word_at. rewrite skipn_firstn_comm, take_take. f_equal. f_equal. lia. Qed.
Lemma message_words_take size block : message_words size (take (16 * size) block) = message_words size block.
Proof.
  unfold message_words. apply map_ext_in. intros t Ht%in_seq. apply word_at_take. nia.
Qed.
Lemma seg8 {A} (l : list A) : length l = 8%nat -> exists a b c d e f g h, l = [a; b; c; d; e; f; g; h].
Proof.
  destruct l as [|a [|b [|c [|d [|e [|f [|g [|h [|]]]]]]]]]; cbn [length]; intros Hl; try lia. by exists a, b, c, d, e, f, g, h.
Qed.
(** The additions at the end of [lh_crypto_sha_process_256] and [lh_crypto_sha_process_512]. *)
Lemma add_state_32 self s0 s1 s2 s3 s4 s5 s6 s7 a b c d e f g h :
  sha_state self = [s0; s1; s2; s3; s4; s5; s6; s7] -> Forall (word 32) (sha_state self) ->
  (self ← lh_crypto_sha_add_state_word_32 self 0 a;
   self ← lh_crypto_sha_add_state_word_32 self 1 b;
   self ← lh_crypto_sha_add_state_word_32 self 2 c;
   self ← lh_crypto_sha_add_state_word_32 self 3 d;
   self ← lh_crypto_sha_add_state_word_32 self 4 e;
   self ← lh_crypto_sha_add_state_word_32 self 5 f;
   self ← lh_crypto_sha_add_state_word_32 self 6 g;
   lh_crypto_sha_add_state_word_32 self 7 h)
  = Done (put_state self (zip_with (fun x y => wsum 32 [x; y]) (sha_state self) [a; b; c; d; e; f; g; h])).
Proof.
  intros E. rewrite E, !Forall_cons. intros H. destruct self as [k fi st lo hi b0 fl]. cbn in E. subst st.
  transitivity (Done (put_state (mk_sha k fi [] lo hi b0 fl)
    [u32 (u32 s0 + a); u32 (u32 s1 + b); u32 (u32 s2 + c); u32 (u32 s3 + d);
     u32 (u32 s4 + e); u32 (u32 s5 + f); u32 (u32 s6 + g); u32 (u32 s7 + h)])); [reflexivity|].
  rewrite (u32_id s0), (u32_id s1), (u32_id s2), (u32_id s3), (u32_id s4), (u32_id s5), (u32_id s6), (u32_id s7) by apply H.
  reflexivity.
Qed.
Lemma add_state_64 self s0 s1 s2 s3 s4 s5 s6 s7 a b c d e f g h :
  sha_state self = [s0; s1; s2; s3; s4; s5; s6; s7] ->
  (self ← lh_crypto_sha_add_state_word self 0 a;
   self ← lh_crypto_sha_add_state_word self 1 b;
   self ← lh_crypto_sha_add_state_word self 2 c;
   self ← lh_crypto_sha_add_state_word self 3 d;
   self ← lh_crypto_sha_add_state_word self 4 e;
   self ← lh_crypto_sha_add_state_word self 5 f;
   self ← lh_crypto_sha_add_state_word self 6 g;
   lh_crypto_sha_add_state_word self 7 h)
  = Done (put_state self (zip_with (fun x y => wsum 64 [x; y]) (sha_state self) [a; b; c; d; e; f; g; h])).
Proof.
  intros E. rewrite E. destruct self as [k fi st lo hi b0 fl]. cbn in E. subst st. reflexivity.
Qed.

(** What a compression function does to a hasher: the state changes, and nothing else. *)
Definition compresses (process : lh_crypto_sha_t -> buffer -> outcome lh_crypto_sha_t) (w size : Z) (spare : list Z)
    (compress : list Z -> buffer -> list Z) : Prop :=
  forall self H block, sha_state self = H ++ spare -> len (sha_state self) = 8 -> Forall (word w) H ->
    is_bytes block -> size <= len block ->
    process self block = Done (put_state self (compress H (take (Z.to_nat size) block) ++ spare)) /\
    length (compress H (take (Z.to_nat size) block)) = length H /\
    Forall (word w) (compress H (take (Z.to_nat size) block)).

Lemma compress2_take w a b c d K H block size : size = Z.to_nat (w / 8) ->
  compress2 w a b c d K H (take (16 * size) block) = compress2 w a b c d K H block.
Proof. intros ->. unfold compress2. by rewrite message_words_take. Qed.
Lemma length_compress2 w a b c d K H block : length H = 8%nat -> length (compress2 w a b c d K H block) = 8%nat.
Proof.
  intros Hl. unfold compress2. rewrite length_zip_with, Hl. set (l := foldl _ _ _).
  assert (length l = 8%nat) as ->; [|done]. unfold l. generalize (zip K (schedule2 w a b K (message_words (Z.to_nat (w / 8)) block))).
  intros kws. clear l. revert H Hl. induction kws as [|kw kws IH]; intros H Hl; [done|]. cbn [foldl]. apply IH.
  destruct (seg8 H Hl) as (? & ? & ? & ? & ? & ? & ? & ? & ->). done.
Qed.
Lemma sum_words w H l : 0 < w -> Forall (word w) (zip_with (fun x y => wsum w [x; y]) H l).
Proof. intros Hw. revert l. induction H as [|x H IH]; intros [|y l]; cbn [zip_with]; constructor; [by apply wsum_word|done]. Qed.

Lemma k256_is : K256 = m_k256.
Proof. vm_compute. reflexivity. Qed.
Lemma k512_is : K512 = m_k512.
Proof. vm_compute. reflexivity. Qed.

Lemma compress2_word w a b c d K H block : 0 < w -> Forall (word w) (compress2 w a b c d K H block).
Proof. apply sum_words. Qed.

Ltac words8 Hw := assert (Hw' := Hw); rewrite !Forall_cons in Hw'; destruct Hw' as (? & ? & ? & ? & ? & ? & ? & ? & _).

Lemma process_256_ok : compresses lh_crypto_sha_process_256 32 64 [] compress_256.
Proof.
  intros self H block HH Hl HHw Hb Hlb. rewrite app_nil_r in *. rewrite <-HH in *.
  destruct (seg8 (sha_state self) ltac:(lia)) as (a & b & c & d & e & f & g & h & Es). rewrite Es in HHw. words8 HHw.
  destruct (sha2_loops 32 u32 s0_256 s1_256 S0_256 S1_256
    (fun x => xor3 (rotr 32 7 x) (rotr 32 18 x) (x / 2 ^ 3)) (fun x => xor3 (rotr 32 17 x) (rotr 32 19 x) (x / 2 ^ 10))
    (fun x => xor3 (rotr 32 2 x) (rotr 32 13 x) (rotr 32 22 x)) (fun x => xor3 (rotr 32 6 x) (rotr 32 11 x) (rotr 32 25 x))
    K256) with (size := 4%nat) (unpack := lh_bit_unpack_be32) (st := (a, b, c, d, e, f, g, h)) (block := block)
    as (m & m' & st' & E1 & E2 & E3 & E4);
    [lia|done|..|by left|lia|rewrite k256_is; cbn; lia|done|done|lia|done|].
  1-4: intros x Hx; unfold s0_256, s1_256, S0_256, S1_256, rr32; rewrite !rr32_is, ?Z.shiftr_div_pow2 by (done || lia); reflexivity.
  rewrite (compress2_take 32 _ _ _ _ _ _ _ 4 eq_refl : compress_256 _ (take (Z.to_nat 64) block) = compress_256 _ block).
  split; [|unfold compress_256; split; [rewrite Es; apply length_compress2; reflexivity|apply compress2_word; lia]].
  rewrite k256_is in E1, E2, E3. unfold lh_crypto_sha_process_256.
  rewrite (E1 : for_up 0 16 (fun i w => v ← lh_bit_unpack_be32 block (i * 4); put w i v) (local 64) = Done m), bind_done.
  rewrite (E2 : for_up 16 64 _ m = Done m'), bind_done. unfold lh_crypto_sha_get_state_word. rewrite Es. run_loads.
  rewrite (u32_id a), (u32_id b), (u32_id c), (u32_id d), (u32_id e), (u32_id f), (u32_id g), (u32_id h) by done.
  rewrite (E3 : for_up 0 64 _ _ = Done st'), bind_done. destruct st' as [[[[[[[a' b'] c'] d'] e'] f'] g'] h'].
  rewrite (add_state_32 self _ _ _ _ _ _ _ _ _ _ _ _ _ _ _ _ Es) by by rewrite Es.
  rewrite Es. exact (f_equal (fun s => Done (put_state self s)) E4).
Qed.
Lemma process_512_ok : compresses lh_crypto_sha_process_512 64 128 [] compress_512.
Proof.
  intros self H block HH Hl HHw Hb Hlb. rewrite app_nil_r in *. rewrite <-HH in *.
  destruct (seg8 (sha_state self) ltac:(lia)) as (a & b & c & d & e & f & g & h & Es). rewrite Es in HHw.
  destruct (sha2_loops 64 u64 s0_512 s1_512 S0_512 S1_512
    (fun x => xor3 (rotr 64 1 x) (rotr 64 8 x) (x / 2 ^ 7)) (fun x => xor3 (rotr 64 19 x) (rotr 64 61 x) (x / 2 ^ 6))
    (fun x => xor3 (rotr 64 28 x) (rotr 64 34 x) (rotr 64 39 x)) (fun x => xor3 (rotr 64 14 x) (rotr 64 18 x) (rotr 64 41 x))
    K512) with (size := 8%nat) (unpack := lh_bit_unpack_be64) (st := (a, b, c, d, e, f, g, h)) (block := block)
    as (m & m' & st' & E1 & E2 & E3 & E4);
    [lia|done|..|by right|lia|rewrite k512_is; cbn; lia|done|done|lia|done|].
  1-4: intros x Hx; unfold s0_512, s1_512, S0_512, S1_512, rr64; rewrite !rr64_is, ?Z.shiftr_div_pow2 by (done || lia); reflexivity.
  rewrite (compress2_take 64 _ _ _ _ _ _ _ 8 eq_refl : compress_512 _ (take (Z.to_nat 128) block) = compress_512 _ block).
  split; [|unfold compress_512; split; [rewrite Es; apply length_compress2; reflexivity|apply compress2_word; lia]].
  rewrite k512_is in E1, E2, E3. unfold lh_crypto_sha_process_512.
  rewrite (E1 : for_up 0 16 (fun i w => v ← lh_bit_unpack_be64 block (i * 8); put w i v) (local 80) = Done m), bind_done.
  rewrite (E2 : for_up 16 80 _ m = Done m'), bind_done. unfold lh_crypto_sha_get_state_word. rewrite Es. run_loads.
  rewrite (E3 : for_up 0 80 _ _ = Done st'), bind_done. destruct st' as [[[[[[[a' b'] c'] d'] e'] f'] g'] h'].
  rewrite (add_state_64 self _ _ _ _ _ _ _ _ _ _ _ _ _ _ _ _ Es). rewrite Es. exact (f_equal (fun s => Done (put_state self s)) E4).
Qed.

(** ** SHA-1 *)

Lemma sha1_ch b c d : Z.lor (Z.land b c) (Z.land (lnot32 b) d) = Z.lxor (Z.land b c) (Z.land (lnot32 b) d).
Proof.
  apply Z.bits_inj'. intros n Hn. rewrite Z.lor_spec, Z.lxor_spec, !Z.land_spec. unfold lnot32, u32.
  change 4294967296 with (2 ^ 32). destruct (Z.ltb_spec n 32).
  - rewrite Z.mod_pow2_bits_low, Z.lnot_spec by lia. btauto.
  - rewrite Z.mod_pow2_bits_high by lia. btauto.
Qed.
Lemma sha1_maj b c d : Z.lor (Z.lor (Z.land b c) (Z.land b d)) (Z.land c d) = maj b c d.
Proof. apply Z.bits_inj'. intros n Hn. unfold maj. rewrite !Z.lor_spec, !Z.lxor_spec, !Z.land_spec. btauto. Qed.
Lemma sha1_f_is i b c d : word 32 b ->
  sha1_f i b c d = if i <? 20 then ch 32 b c d else if (40 <=? i) && (i <? 60) then maj b c d else xor3 b c d.
Proof.
  intros Hb. unfold sha1_f. rewrite sha1_ch, sha1_maj. unfold ch, lnot32.
  change (u32 (Z.lnot b)) with (Z.lnot b mod 2 ^ 32). rewrite wnot_is by (done || lia).
  by destruct (Z.ltb_spec i 20), (Z.ltb_spec i 40), (Z.leb_spec 40 i), (Z.ltb_spec i 60); try lia.
Qed.
Lemma sha1_k_is i : 0 <= i < 80 -> sha1_k i = nth (Z.to_nat (i / 20)) K1 0.
Proof.
  intros Hi. change K1 with [0x5A827999; 0x6ED9EBA1; 0x8F1BBCDC; 0xCA62C1D6]. unfold sha1_k.
  assert (forall k, 20 * Z.of_nat k <= i < 20 * Z.of_nat k + 20 -> Z.to_nat (i / 20) = k) as Hk.
  { intros k Hk. replace (i / 20) with (Z.of_nat k) by zdm. lia. }
  destruct (Z.ltb_spec i 20); [by rewrite (Hk 0%nat) by lia|]. destruct (Z.ltb_spec i 40); [by rewrite (Hk 1%nat) by lia|].
  destruct (Z.ltb_spec i 60); [by rewrite (Hk 2%nat) by lia|by rewrite (Hk 3%nat) by lia].
Qed.

Lemma schedule1_word n M : Forall (word 32) M -> length M = 16%nat ->
  Forall (word 32) (grow (fun W => rotr 32 31 (Z.lxor (xor3 (ago 3 W) (ago 8 W) (ago 14 W)) (ago 16 W))) n M).
Proof.
  intros HM Hl. apply grow_all; [done|]. intros l Hw Hll. apply rotr_word; [|lia]. unfold xor3.
  repeat apply xor_word; try lia; (apply ago_word; [done|lia]).
Qed.
Lemma schedule1_loop m : len m = 80 -> Forall (word 32) (take 16 m) ->
  exists m', for_up 16 80 (fun i w =>
      w3 ← load w (i - 3);
      w8 ← load w (i - 8);
      w14 ← load w (i - 14);
      w16 ← load w (i - 16);
      put w i (lh_bit_rotate_left_u32 (Z.lxor (Z.lxor (Z.lxor w3 w8) w14) w16) 1)) m = Done m' /\
    m' = schedule1 (take 16 m).
Proof.
  intros Hm HM. match goal with |- context [for_up 16 80 ?body m] =>
  destruct (for_up_grow (fun W => rotr 32 31 (Z.lxor (xor3 (ago 3 W) (ago 8 W) (ago 14 W)) (ago 16 W))) body 16 80 m)
    as (m' & E & Hl & Ht); [lia..| |] end.
  - intros i m' Hi Hl Ht. pose proof (schedule1_word (Z.to_nat (i - 16)) _ HM ltac:(rewrite length_take; lia)) as HW.
    change (Z.to_nat 16) with 16%nat in Ht. rewrite <-Ht in HW.
    rewrite (ago_at m' i 3), bind_done, (ago_at m' i 8), bind_done, (ago_at m' i 14), bind_done,
      (ago_at m' i 16), bind_done by lia. f_equal. apply (rl32_is _ 1); [|lia].
    repeat apply xor_word; try lia; (apply ago_word; [done|rewrite length_take; lia]).
  - exists m'. split; [exact E|]. rewrite take_ge in Ht by lia. exact Ht.
Qed.

Definition list5 (st : Z * Z * Z * Z * Z) : list Z := let '(a, b, c, d, e) := st in [a; b; c; d; e].
Lemma steps1_loop W st : len W = 80 -> Forall (word 32) W -> Forall (word 32) (list5 st) ->
  exists st', for_up 0 80 (sha1_step W) st = Done st' /\
    list5 st' = foldl step1 (list5 st) (zip (seqZ 0 80) W).
Proof.
  intros HW HWw Hst.
  destruct (for_up_fold (fun st l => l = list5 st /\ Forall (word 32) l) step1
    (sha1_step W) (zip (seqZ 0 80) W) 0 80 st (list5 st)) as (st' & E & Hst' & Hall).
  - rewrite length_zip_with, length_seqZ. lia.
  - done.
  - clear st Hst. intros i p st l Hp Hi [-> Hl]. destruct st as [[[[a b] c] d] e]. cbn [list5] in *.
    apply lookup_zip_with_Some in Hp as (t & x & -> & Ht & Hx). rewrite Z.sub_0_r in *.
    apply lookup_seqZ in Ht as [-> _]. unfold sha1_step. pose proof (load_ok _ _ _ Hx) as Hx'. rewrite Z2Nat.id in Hx' by lia. rewrite Hx', bind_done. clear Hx'.
    eexists. split; [done|]. cbn [list5 step1]. rewrite Z.add_0_l, Z2Nat.id by lia. rewrite !Forall_cons in Hl. destruct Hl as (? & ? & ? & ? & ? & _).
    pose proof (Forall_lookup_1 _ _ _ _ HWw Hx).
    rewrite !rl32_is, sha1_f_is, sha1_k_is by (done || lia). split; [done|].
    repeat apply Forall_cons_2; try done; [by apply wsum_word|apply rotr_word; (done || lia)].
  - exists st'. split; [exact E|]. by rewrite <-Hst'.
Qed.
Lemma add_state_5 self s0 s1 s2 s3 s4 x y z a b c d e :
  sha_state self = [s0; s1; s2; s3; s4; x; y; z] -> Forall (word 32) [s0; s1; s2; s3; s4] ->
  (self ← lh_crypto_sha_add_state_word_32 self 0 a;
   self ← lh_crypto_sha_add_state_word_32 self 1 b;
   self ← lh_crypto_sha_add_state_word_32 self 2 c;
   self ← lh_crypto_sha_add_state_word_32 self 3 d;
   lh_crypto_sha_add_state_word_32 self 4 e)
  = Done (put_state self (zip_with (fun x y => wsum 32 [x; y]) [s0; s1; s2; s3; s4] [a; b; c; d; e] ++ [x; y; z])).
Proof.
  intros E. rewrite !Forall_cons. intros H. destruct self as [k fi st lo hi b0 fl]. cbn in E. subst st.
  transitivity (Done (put_state (mk_sha k fi [] lo hi b0 fl)
    [u32 (u32 s0 + a); u32 (u32 s1 + b); u32 (u32 s2 + c); u32 (u32 s3 + d); u32 (u32 s4 + e); x; y; z])); [reflexivity|].
  rewrite (u32_id s0), (u32_id s1), (u32_id s2), (u32_id s3), (u32_id s4) by apply H. reflexivity.
Qed.
Lemma length_steps1 kws : forall H, length H = 5%nat -> length (foldl step1 H kws) = 5%nat.
Proof.
  induction kws as [|[t W] kws IH]; intros H Hl; [done|]. cbn [foldl]. apply IH.
  destruct H as [|? [|? [|? [|? [|? [|]]]]]]; try done.
Qed.
Lemma process_1_ok x y z : compresses lh_crypto_sha_process_1 32 64 [x; y; z] compress_1.
Proof.
  intros self H block HH Hl HHw Hb Hlb. rewrite HH, length_app in Hl. cbn [length] in Hl.
  assert (length H = 5%nat) as Hl5 by lia.
  assert (exists a b c d e, H = [a; b; c; d; e]) as (a & b & c & d & e & ->).
  { destruct H as [|a [|b [|c [|d [|e [|]]]]]]; try done. by exists a, b, c, d, e. }
  assert (Hw' := HHw). rewrite !Forall_cons in Hw'. destruct Hw' as (? & ? & ? & ? & ? & _).
  destruct (message_loop 4 lh_bit_unpack_be32 80 block) as (m & E1 & Hm & Hmw); [by left|lia|done|done|lia|].
  pose proof (message_words_word 4 32 block eq_refl Hb) as HM. rewrite <-Hmw in HM.
  destruct (schedule1_loop m Hm HM) as (m' & E2 & Hm').
  destruct (steps1_loop m' (a, b, c, d, e)) as (st' & E3 & E4); [| |done|].
  { rewrite Hm', Hmw. unfold schedule1, message_words. rewrite length_grow, length_map, length_seq. done. }
  { rewrite Hm'. apply schedule1_word; [done|]. rewrite length_take. lia. }
  rewrite Hm', Hmw in E4. assert (compress_1 [a; b; c; d; e] (take (Z.to_nat 64) block)
    = zip_with (fun x y => wsum 32 [x; y]) [a; b; c; d; e] (list5 st')) as ->.
  { unfold compress_1. rewrite (message_words_take 4 : forall b, message_words 4 (take (Z.to_nat 64) b) = message_words 4 b). by rewrite E4. }
  split; [|split; [rewrite length_zip_with, E4, length_steps1 by done; done|by apply sum_words]].
  unfold lh_crypto_sha_process_1.
  rewrite (E1 : for_up 0 16 (fun i w => v ← lh_bit_unpack_be32 block (i * 4); put w i v) (local 80) = Done m), bind_done.
  rewrite E2, bind_done. unfold lh_crypto_sha_get_state_word. rewrite HH. cbn [app]. run_loads.
  rewrite (u32_id a), (u32_id b), (u32_id c), (u32_id d), (u32_id e) by done.
  change (list5 (a, b, c, d, e)) with [a; b; c; d; e] in E4. rewrite E3, bind_done. destruct st' as [[[[a' b'] c'] d'] e'].
  by rewrite (add_state_5 self a b c d e x y z).
Qed.
