(* ===== verification/ShaProofs.v ===== *)
(** * The digests of the SHA family

    Over a hasher and the bytes it was given, whatever the pieces: the state is what the
    compression function makes of the whole blocks, the block holds the bytes after them,
    the counter is the number of bits.  From it: the digest by pieces, or in one call, is
    the standard's digest of the padded message. *)
From S2P Require Import Prelude Buffer Bytes Sha ShaSpec.

(** ** The padded message and its digest *)

Fixpoint digits (n : nat) (v : Z) : buffer :=
  match n with O => [] | S n => digits n (v / 256) ++ [v mod 256] end.

Record standard := mk_standard {
  std_word : Z; std_block : Z; std_size : Z;
  std_start : list Z;
  std_compress : list Z -> buffer -> list Z
}.
Section Standard.
Context (s : standard).
(** The padding: one bit, as few zeros as needed, the length in bits in two words. *)
Definition padding (count tail : Z) : buffer :=
  let n := 2 * (std_word s / 8) in
  [0x80] ++ replicate (Z.to_nat ((std_block s - n - 1 - tail) mod std_block s)) 0 ++ digits (Z.to_nat n) (8 * count).
Definition padded (msg : buffer) : buffer := msg ++ padding (len msg) (len msg mod std_block s).
Fixpoint absorb (n : nat) (H : list Z) (m : buffer) : list Z :=
  match n with
  | O => H
  | S n => absorb n (std_compress s H (take (Z.to_nat (std_block s)) m)) (drop (Z.to_nat (std_block s)) m)
  end.
Definition digest_of (H : list Z) : buffer :=
  take (Z.to_nat (std_size s)) (H ≫= digits (Z.to_nat (std_word s / 8))).
Definition digest (msg : buffer) : buffer :=
  digest_of (absorb (Z.to_nat (len (padded msg) / std_block s)) (std_start s) (padded msg)).
End Standard.

(** The square roots of the first sixteen primes start the hashes of two kinds each: SHA-224
    has the second halves of SHA-384's words. *)
Definition std_1 : standard :=
  mk_standard 32 64 20 (map number_of [[0x67; 0x45; 0x23; 0x01]; [0xEF; 0xCD; 0xAB; 0x89]; [0x98; 0xBA; 0xDC; 0xFE];
                                       [0x10; 0x32; 0x54; 0x76]; [0xC3; 0xD2; 0xE1; 0xF0]]) compress_1.
Definition roots (w : Z) : list Z := square_roots w (take 16 primes).
Definition std_224 : standard := mk_standard 32 64 28 (map (fun x => x mod 2 ^ 32) (drop 8 (roots 64))) compress_256.
Definition std_256 : standard := mk_standard 32 64 32 (take 8 (roots 32)) compress_256.
Definition std_384 : standard := mk_standard 64 128 48 (drop 8 (roots 64)) compress_512.
Definition std_512 : standard := mk_standard 64 128 64 (take 8 (roots 64)) compress_512.
Definition std_of (kind : Z) : standard :=
  if kind =? lh_crypto_sha_kind_1 then std_1 else
  if kind =? lh_crypto_sha_kind_224 then std_224 else
  if kind =? lh_crypto_sha_kind_256 then std_256 else
  if kind =? lh_crypto_sha_kind_384 then std_384 else std_512.

(** ** Digits *)

Lemma length_digits n v : length (digits n v) = n.
Proof. revert v. induction n as [|n IH]; intros v; [done|]. cbn [digits]. rewrite length_app, IH. cbn. lia. Qed.
Lemma digits_app n m v : digits (n + m) v = digits n (v / 256 ^ Z.of_nat m) ++ digits m v.
Proof.
  revert v. induction m as [|m IH]; intros v.
  - rewrite Nat.add_0_r. change (256 ^ Z.of_nat 0) with 1. by rewrite Z.div_1_r, app_nil_r.
  - rewrite Nat.add_succ_r. cbn [digits]. rewrite IH, app_assoc. do 3 f_equal.
    rewrite Nat2Z.inj_succ, Z.pow_succ_r, Z.div_div by lia. done.
Qed.
Lemma digits_mod n v : digits n (v mod 256 ^ Z.of_nat n) = digits n v.
Proof.
  revert v. induction n as [|n IH]; intros v; [done|]. cbn [digits].
  rewrite Nat2Z.inj_succ, Z.pow_succ_r by lia. set (P := 256 ^ Z.of_nat n).
  assert (0 < P) by (apply Z.pow_pos_nonneg; lia). rewrite Z.rem_mul_r by lia. f_equal.
  - rewrite <-(IH (v / 256)), Z.mul_comm, Z.div_add by lia. rewrite Z.div_small; [done|]. apply Z.mod_pos_bound. lia.
  - rewrite Z.mul_comm, Z.mod_add, Z.mod_mod by lia. done.
Qed.
Lemma digits_u8 n v : is_bytes (digits n v).
Proof.
  revert v. induction n as [|n IH]; intros v; [constructor|]. cbn [digits]. apply Forall_app. split; [apply IH|].
  constructor; [apply u8_range|constructor].
Qed.

Lemma pack_be32_digits v pre old : (4 <= length old)%nat ->
  lh_bit_pack_be32 v (pre ++ old) (len pre) = Done (pre ++ digits 4 v ++ drop 4 old).
Proof.
  intros Hl. destruct old as [|o0 [|o1 [|o2 [|o3 r]]]]; cbn [length] in Hl; try lia. unfold lh_bit_pack_be32.
  assert (forall (a : list Z) i x b y, i = len a -> put (a ++ x :: b) i y = Done (a ++ y :: b)) as Hput.
  { intros a i x b y ->. rewrite put_ok by (rewrite length_app; cbn [length]; lia). rewrite Nat2Z.id.
    by rewrite insert_app_r_alt, Nat.sub_diag by lia. }
  rewrite Hput, bind_done by done.
  rewrite (cons_middle (u8 (Z.shiftr v 24))), app_assoc, Hput, bind_done by (rewrite length_app; cbn; lia).
  rewrite (cons_middle (u8 (Z.shiftr v 16))), app_assoc, Hput, bind_done by (rewrite !length_app; cbn; lia).
  rewrite (cons_middle (u8 (Z.shiftr v 8))), app_assoc, Hput by (rewrite !length_app; cbn; lia).
  rewrite <-!app_assoc. cbn [digits drop app]. rewrite !Z.shiftr_div_pow2, !Z.div_div by lia. done.
Qed.
Lemma pack_be64_digits v pre old : (8 <= length old)%nat ->
  lh_bit_pack_be64 v (pre ++ old) (len pre) = Done (pre ++ digits 8 v ++ drop 8 old).
Proof.
  intros Hl. unfold lh_bit_pack_be64, lh_bit_get_high_u32, lh_bit_get_low_u32. rewrite pack_be32_digits, bind_done by lia.
  rewrite app_assoc. replace (len pre + 4) with (len (pre ++ digits 4 (u32 (Z.shiftr v 32)))) by (rewrite length_app, length_digits; lia).
  rewrite pack_be32_digits by (rewrite length_drop; lia). rewrite drop_drop, <-app_assoc, (digits_app 4 4).
  rewrite Z.shiftr_div_pow2 by lia. change (256 ^ Z.of_nat 4) with (2 ^ 32).
  change (u32 ?x) with (x mod 256 ^ Z.of_nat 4). rewrite !digits_mod. by rewrite <-app_assoc.
Qed.

(** ** The hasher and the bytes it was given *)

Ltac sha_fields :=
  unfold lh_crypto_sha_set_block_fill, lh_crypto_sha_get_block_mut, put_state, lh_crypto_sha_set_bit_count_lo,
    lh_crypto_sha_set_bit_count_hi, lh_crypto_sha_set_finished, lh_crypto_sha_set_kind, lh_crypto_sha_get_block,
    lh_crypto_sha_get_block_fill, lh_crypto_sha_get_kind, lh_crypto_sha_get_bit_count_lo,
    lh_crypto_sha_get_bit_count_hi, lh_crypto_sha_is_finished;
  cbn [sha_kind sha_finished sha_state sha_bit_count_lo sha_bit_count_hi sha_block sha_block_fill].

(** The addition of two words with the carry, and the bits of [k] bytes above the low word. *)
Lemma add_carry lo hi k n : is_u64 lo -> is_u64 hi -> is_u64 k -> hi * 2 ^ 64 + lo = (8 * n) mod 2 ^ 128 ->
  let lo' := u64 (lo + u64 (k * 8)) in let c := if lo' <? lo then 1 else 0 in
  u64 (u64 (hi + c) + k / 2 ^ 61) * 2 ^ 64 + lo' = (8 * (n + k)) mod 2 ^ 128.
Proof.
  intros Hlo Hhi Hk Hn lo' c. set (q := k / 2 ^ 61). set (bits := u64 (k * 8)).
  assert (8 * k = 2 ^ 64 * q + bits) as Ek.
  { unfold q, bits. change (2 ^ 64) with 18446744073709551616. change (2 ^ 61) with 2305843009213693952. zdm. }
  assert (lo + bits = 2 ^ 64 * c + lo') as El.
  { unfold c, lo'. assert (is_u64 bits) by apply u64_range. fold bits. change (2 ^ 64) with 18446744073709551616.
    destruct (Z.ltb_spec (u64 (lo + bits)) lo); zdm. }
  assert (u64 (u64 (hi + c) + q) = (hi + c + q) mod 2 ^ 64) as ->.
  { unfold u64. change 18446744073709551616 with (2 ^ 64). by rewrite Zplus_mod_idemp_l. }
  pose proof (Z.div_mod (8 * n) (2 ^ 128) ltac:(done)) as En. rewrite <-Hn in En.
  pose proof (Z.div_mod (hi + c + q) (2 ^ 64) ltac:(done)) as Eh.
  apply (Z.mod_unique_pos _ _ (8 * n / 2 ^ 128 + (hi + c + q) / 2 ^ 64)).
  - pose proof (Z.mod_pos_bound (hi + c + q) (2 ^ 64) ltac:(done)).
    assert (is_u64 lo') as Hlo' by apply u64_range. change (2 ^ 128) with (2 ^ 64 * 2 ^ 64). change (2 ^ 64) with 18446744073709551616 in *. zb.
  - change (2 ^ 128) with (2 ^ 64 * 2 ^ 64) in *. lia.
Qed.

Section Stream.
Context (kind : Z) (s : standard) (spare : list Z).
Notation w := (std_word s). Notation bs := (std_block s).
(** What the kind determines. *)
Record fits : Prop := {
  fit_process : forall self H block, lh_crypto_sha_get_kind self = kind ->
    sha_state self = H ++ spare -> len (sha_state self) = 8 -> Forall (word w) H -> is_bytes block -> bs <= len block ->
    lh_crypto_sha_process self block = Done (put_state self (std_compress s H (take (Z.to_nat bs) block) ++ spare)) /\
    length (std_compress s H (take (Z.to_nat bs) block)) = length H /\
    Forall (word w) (std_compress s H (take (Z.to_nat bs) block));
  fit_block : lh_crypto_sha_block_size kind = bs;
  fit_size : lh_crypto_sha_digest_size kind = std_size s;
  fit_wide : w = 32 /\ bs = 64 /\ lh_crypto_sha_kind_is_wide kind = false \/
             w = 64 /\ bs = 128 /\ lh_crypto_sha_kind_is_wide kind = true;
  fit_start : initial_state kind = std_start s ++ spare;
  fit_start_word : Forall (word w) (std_start s) /\ len (std_start s ++ spare) = 8;
  fit_digest : exists n, std_size s = Z.of_nat n * (w / 8) /\ (0 < n <= length (std_start s))%nat
}.
Context (F : fits).

(** The state is [H], the block starts with [tail], which is as full as the hasher says. *)
Definition buffered (self : lh_crypto_sha_t) (H : list Z) (tail : buffer) : Prop :=
  sha_kind self = kind /\ sha_state self = H ++ spare /\ len (sha_state self) = 8 /\ Forall (word w) H /\
  (exists junk, sha_block self = tail ++ junk) /\ is_bytes (sha_block self) /\ len (sha_block self) = 128 /\
  sha_block_fill self = len tail.
Definition kept (a b : lh_crypto_sha_t) : Prop :=
  sha_finished b = sha_finished a /\ sha_bit_count_lo b = sha_bit_count_lo a /\ sha_bit_count_hi b = sha_bit_count_hi a.
Lemma kept_trans a b c : kept a b -> kept b c -> kept a c.
Proof. unfold kept. intuition congruence. Qed.
Lemma bs_128 : bs = 64 \/ bs = 128.
Proof. destruct (fit_wide F) as [(_ & ? & _)|(_ & ? & _)]; auto. Qed.

Lemma copy_app pre old src n : 0 <= n <= len src -> n <= len old ->
  copy_bytes (pre ++ old) (len pre) src n = Done ((pre ++ take (Z.to_nat n) src) ++ drop (Z.to_nat n) old).
Proof.
  intros Hn Ho. rewrite copy_ok by (rewrite ?length_app; lia). rewrite Nat2Z.id, take_app_length, <-app_assoc.
  do 3 f_equal. rewrite drop_app_ge by lia. f_equal. lia.
Qed.
Lemma fill_ok self H tail d n : buffered self H tail -> is_bytes d -> 0 <= n <= len d -> len tail + n <= bs ->
  exists self', lh_crypto_sha_fill_block self d n = Done self' /\ buffered self' H (tail ++ take (Z.to_nat n) d) /\ kept self self'.
Proof.
  intros (Hk & Hst & H8 & Hw & (junk & Hj) & Hb & Hl & Hf) Hd Hn Hroom. pose proof bs_128.
  unfold lh_crypto_sha_fill_block, lh_crypto_sha_get_block_tail_mut, lh_crypto_sha_get_block, lh_crypto_sha_get_block_fill.
  rewrite Hj, length_app in Hl. rewrite Hf, Hj, copy_app, bind_done by lia.
  rewrite Hj in Hb. apply Forall_app in Hb as [Hb1 Hb2].
  eexists. split; [done|]. split; [|done]. unfold buffered. sha_fields. split_and!; try done.
  - by eexists.
  - apply Forall_app. split; [apply Forall_app; split; [done|by apply Forall_take]|by apply Forall_drop].
  - rewrite !length_app, length_take, length_drop. lia.
  - rewrite length_app, length_take. rewrite u64_id by zb. lia.
Qed.
Lemma process_ok self H tail block : buffered self H tail -> is_bytes block -> bs <= len block ->
  exists self', lh_crypto_sha_process self block = Done self' /\
    buffered self' (std_compress s H (take (Z.to_nat bs) block)) tail /\ kept self self' /\
    sha_block self' = sha_block self.
Proof.
  intros (Hk & Hst & H8 & Hw & Hj & Hb & Hl & Hf) Hbl Hlb.
  destruct (fit_process F self H block Hk Hst H8 Hw Hbl Hlb) as (E & Hlen & Hw').
  eexists. split; [exact E|]. split; [|done]. unfold buffered. sha_fields. split_and!; try done.
  rewrite Hst in H8. rewrite length_app in *. lia.
Qed.
Lemma empty_ok self H tail : buffered self H tail -> buffered (lh_crypto_sha_set_block_fill self 0) H [].
Proof. unfold buffered. sha_fields. intros (? & ? & ? & ? & _ & ? & ? & _). split_and!; try done. by exists (sha_block self). Qed.
Lemma absorb_snoc n H a b : len a = Z.of_nat n * bs ->
  absorb s (S n) H (a ++ b) = std_compress s (absorb s n H a) (take (Z.to_nat bs) b).
Proof.
  pose proof bs_128 as Hbs. revert H a. induction n as [|n IH]; intros H a Ha.
  - destruct a; [done|]. cbn [length] in Ha. lia.
  - change (absorb s (S (S n)) H (a ++ b)) with (absorb s (S n) (std_compress s H (take (Z.to_nat bs) (a ++ b))) (drop (Z.to_nat bs) (a ++ b))).
    rewrite take_app_le, drop_app_le by nia. rewrite IH by (rewrite length_drop; nia). done.
Qed.
Lemma absorb_app n k H a b : len a = Z.of_nat n * bs -> absorb s (n + k) H (a ++ b) = absorb s k (absorb s n H a) b.
Proof.
  pose proof bs_128 as Hbs. revert H a. induction n as [|n IH]; intros H a Ha.
  - destruct a; [done|]. cbn [length] in Ha. lia.
  - cbn [absorb Nat.add]. rewrite take_app_le, drop_app_le by nia. apply IH. rewrite length_drop. nia.
Qed.
Lemma absorb_take k H m : Z.of_nat k * bs <= len m -> absorb s k H (take (k * Z.to_nat bs) m) = absorb s k H m.
Proof.
  intros Hl. pose proof bs_128. rewrite <-(take_drop (k * Z.to_nat bs) m) at 2. rewrite <-(Nat.add_0_r k) at 3.
  rewrite absorb_app; [done|]. rewrite length_take. nia.
Qed.
Lemma loop_ok tail n : forall fuel self H bytes r, buffered self H tail -> is_bytes bytes -> 0 <= r < bs -> (n < fuel)%nat ->
  Z.of_nat n * bs + r <= len bytes ->
  exists self', update_loop fuel self bytes bs (Z.of_nat n * bs + r) = Done (self', drop (n * Z.to_nat bs) bytes, r) /\
    buffered self' (absorb s n H bytes) tail /\ kept self self'.
Proof.
  pose proof bs_128 as Hbs. induction n as [|n IH]; intros [|fuel] self H bytes r Hself Hb Hr Hf Hl; try lia; cbn [update_loop].
  - rewrite Z.geb_leb, (proj2 (Z.leb_gt _ _)) by lia. by exists self.
  - rewrite Z.geb_leb, (proj2 (Z.leb_le _ _)) by nia.
    destruct (process_ok self H tail bytes Hself Hb ltac:(nia)) as (self1 & -> & Hself1 & Hk1 & _). rewrite bind_done.
    replace (Z.of_nat (S n) * bs + r - bs) with (Z.of_nat n * bs + r) by lia.
    destruct (IH fuel self1 _ (drop (Z.to_nat bs) bytes) r Hself1) as (self2 & E & Hself2 & Hk2);
      [by apply Forall_drop|done|lia|rewrite length_drop; nia|].
    exists self2. rewrite E, drop_drop. split; [do 3 f_equal; lia|]. split; [done|]. by eapply kept_trans.
Qed.

(** ** Pieces *)

Definition counted (self : lh_crypto_sha_t) (n : Z) : Prop :=
  is_u64 (sha_bit_count_lo self) /\ is_u64 (sha_bit_count_hi self) /\
  sha_bit_count_hi self * 2 ^ 64 + sha_bit_count_lo self = (8 * n) mod 2 ^ 128.
(** The hasher has taken [msg] and is not finished. *)
Definition received (self : lh_crypto_sha_t) (msg : buffer) : Prop :=
  sha_finished self = false /\ counted self (len msg) /\
  exists n front tail, msg = front ++ tail /\ len front = Z.of_nat n * bs /\ len tail < bs /\
    buffered self (absorb s n (std_start s) front) tail.
Lemma add_bits_ok self n k H tail : is_u64 k -> counted self n -> buffered self H tail ->
  counted (lh_crypto_sha_add_bits self k) (n + k) /\ buffered (lh_crypto_sha_add_bits self k) H tail /\
  sha_finished (lh_crypto_sha_add_bits self k) = sha_finished self.
Proof.
  intros Hk (Hlo & Hhi & Hc) Hb. pose proof (add_carry _ _ _ _ Hlo Hhi Hk Hc) as E.
  unfold lh_crypto_sha_add_bits. rewrite Z.shiftl_mul_pow2, Z.shiftr_div_pow2 by lia. change (2 ^ 3) with 8.
  destruct self as [k0 fi st lo0 hi0 b fl]. revert E. unfold counted. sha_fields. cbn [sha_bit_count_lo sha_bit_count_hi] in *.
  destruct (u64 (lo0 + u64 (k * 8)) <? lo0); sha_fields; intros E.
  all: split; [split; [apply u64_range|]; split; [apply u64_range|]|split; [exact Hb|reflexivity]].
  - exact E.
  - by rewrite Z.add_0_r, (u64_id hi0) in E.
Qed.
Lemma top_up_ok self H tail d : buffered self H tail -> is_bytes d -> len tail < bs -> is_u64 (len d) ->
  exists self' rest tail', top_up self d bs (len d) = Done (self', rest, len rest) /\ kept self self' /\ is_bytes rest /\
    (tail' = [] \/ rest = []) /\ len tail' < bs /\
    ((tail ++ d = tail' ++ rest /\ buffered self' H tail') \/
     (exists b, tail ++ d = b ++ tail' ++ rest /\ len b = bs /\ buffered self' (std_compress s H b) tail')).
Proof.
  intros Hs Hd Ht Hu. pose proof bs_128 as Hbs. assert (Hs' := Hs). destruct Hs' as (_ & _ & _ & _ & _ & _ & _ & Hf).
  unfold top_up, lh_crypto_sha_get_block_fill. rewrite Hf. destruct (Z.eqb_spec (len tail) 0) as [E|E]; cbn [negb].
  { exists self, d, []. destruct tail; [|done]. split_and!; try done; by left. }
  rewrite (u64_id (bs - len tail)) by zb. cbv zeta.
  set (t := if len d <? bs - len tail then len d else bs - len tail).
  assert (0 <= t <= len d /\ len tail + t <= bs /\ (len tail + t = bs \/ t = len d)) as (Ht1 & Ht2 & Ht3).
  { unfold t. destruct (Z.ltb_spec (len d) (bs - len tail)); lia. }
  destruct (fill_ok self H tail d t Hs Hd Ht1 Ht2) as (self1 & -> & Hs1 & Hk1). rewrite bind_done.
  rewrite (u64_id (len d - t)) by zb. replace (len d - t) with (len (drop (Z.to_nat t) d)) by (rewrite length_drop; lia).
  assert (Hs1' := Hs1). destruct Hs1' as (_ & _ & _ & _ & (junk & Hj) & Hb1 & Hl1 & Hf1).
  rewrite Hf1, length_app, length_take.
  destruct (Z.eqb_spec (Z.of_nat (length tail + Nat.min (Z.to_nat t) (length d))) bs) as [Ef|Ef].
  - destruct (process_ok self1 H _ (lh_crypto_sha_get_block self1) Hs1 Hb1) as (self2 & -> & Hs2 & Hk2 & _).
    { unfold lh_crypto_sha_get_block. lia. }
    rewrite bind_done. exists (lh_crypto_sha_set_block_fill self2 0), (drop (Z.to_nat t) d), [].
    split_and!; try done; [by apply (kept_trans _ self1 _)|by apply Forall_drop|by left|cbn; lia|]. right.
    exists (tail ++ take (Z.to_nat t) d). rewrite <-app_assoc. cbn [app]. rewrite take_drop.
    split; [done|]. split; [rewrite length_app, length_take; lia|]. apply (empty_ok _ _ _) in Hs2.
    unfold lh_crypto_sha_get_block in Hs2. rewrite Hj, take_app_le, take_ge in Hs2 by (rewrite length_app, length_take; lia). done.
  - assert (t = len d) as -> by lia. rewrite drop_ge, take_ge in * by lia.
    exists self1, [], (tail ++ d). rewrite app_nil_r. split_and!; try done; [constructor|by right|rewrite length_app; lia|by left].
Qed.

Lemma update_ok self msg d : received self msg -> is_bytes d -> is_u64 (len d) ->
  exists self', lh_crypto_sha_update self (Some d) (len d) = Done self' /\ received self' (msg ++ d).
Proof.
  intros (Hfi & Hc & n & front & tail & -> & Hfr & Htl & Hs) Hd Hu. pose proof bs_128 as Hbs.
  unfold lh_crypto_sha_update, lh_crypto_sha_is_finished. rewrite Hfi. cbn [fail_if assert_set]. rewrite bind_done.
  destruct (Z.eqb_spec (len d) 0) as [E|E].
  { destruct d; [|done]. rewrite app_nil_r. exists self. split; [done|]. split; [done|]. split; [done|]. by exists n, front, tail. }
  rewrite bind_done. destruct (add_bits_ok self _ (len d) _ _ Hu Hc Hs) as (Hc0 & Hs0 & Hf0).
  set (self0 := lh_crypto_sha_add_bits self (len d)) in *. assert (lh_crypto_sha_get_kind self = kind) as -> by apply Hs.
  rewrite (fit_block F). destruct (top_up_ok self0 _ tail d Hs0 Hd Htl Hu) as (self1 & rest & tail1 & -> & Hk1 & Hrb & Hor & Ht1 & Hcase).
  rewrite bind_done.
  assert (exists n1 front1, (front ++ tail) ++ d = front1 ++ tail1 ++ rest /\ len front1 = Z.of_nat n1 * bs /\
    buffered self1 (absorb s n1 (std_start s) front1) tail1) as (n1 & front1 & Emsg & Hf1 & Hs1).
  { rewrite <-app_assoc. destruct Hcase as [[-> Hs1]|(b & -> & Hb & Hs1)]; [by exists n, front|].
    exists (S n), (front ++ b). rewrite <-app_assoc. split; [done|]. split; [rewrite length_app; lia|].
    rewrite absorb_snoc, take_ge by (done || lia). done. }
  pose proof (Z.div_mod (len rest) bs ltac:(lia)) as Hdm. pose proof (Z.mod_pos_bound (len rest) bs ltac:(lia)) as Hr.
  set (k := Z.to_nat (len rest / bs)). set (r := len rest mod bs) in *.
  assert (len rest = Z.of_nat k * bs + r) as Ek by (unfold k; rewrite Z2Nat.id; [lia|apply Z.div_pos; lia]).
  assert (k < S (Z.to_nat (len rest)))%nat as Hkf by nia. clearbody k r.
  destruct (loop_ok tail1 k (S (Z.to_nat (len rest))) self1 _ rest r Hs1 Hrb Hr Hkf ltac:(lia)) as (self2 & E2 & Hs2 & Hk2).
  rewrite <-Ek in E2. rewrite E2, bind_done. clear E2.
  set (last := drop (k * Z.to_nat bs) rest). assert (len last = r) as El by (unfold last; rewrite length_drop; nia).
  assert (len (take (k * Z.to_nat bs) rest) = Z.of_nat k * bs) as Et by (rewrite length_take; nia).
  assert (exists front2 n2, front1 ++ tail1 ++ rest = front2 ++ tail1 ++ last /\
    len front2 = Z.of_nat n2 * bs /\ len (tail1 ++ last) < bs /\ buffered self2 (absorb s n2 (std_start s) front2) tail1)
    as (front2 & n2 & Ef & Hf2 & Hl2 & Hs3).
  { destruct Hor as [-> | ->].
    - exists (front1 ++ take (k * Z.to_nat bs) rest), (n1 + k)%nat. rewrite <-app_assoc. unfold last. cbn [app].
      rewrite take_drop. split; [done|]. split; [rewrite length_app; lia|]. split; [unfold last in El; cbn [app]; lia|]. rewrite absorb_app, absorb_take by (done || lia). exact Hs2.
    - exists front1, n1. cbn [length] in *. assert (k = 0%nat) as -> by nia.
      unfold last. rewrite drop_nil, app_nil_r. by split_and!. }
  assert (exists self3, (if negb (r =? 0) then lh_crypto_sha_fill_block self2 last r else mret self2) = Done self3 /\
    kept self2 self3 /\ buffered self3 (absorb s n2 (std_start s) front2) (tail1 ++ last)) as (self3 & -> & Hk3 & Hs4).
  { destruct (Z.eqb_spec r 0) as [Er|Er]; cbn [negb].
    - assert (last = []) as -> by (apply length_zero_iff_nil; lia). rewrite app_nil_r. by exists self2.
    - destruct (fill_ok self2 _ tail1 last r Hs3) as (self3 & E3 & Hs4 & Hk3);
        [by apply Forall_drop|lia|rewrite length_app in Hl2; lia|]. exists self3. rewrite take_ge in Hs4 by lia. done. }
  exists self3. split; [done|]. destruct (kept_trans _ _ _ (kept_trans _ _ _ Hk1 Hk2) Hk3) as (K1 & K2 & K3).
  split; [by rewrite K1, Hf0|]. split; [|exists n2, front2, (tail1 ++ last); by rewrite Emsg, Ef].
  unfold counted. rewrite K2, K3, (length_app (front ++ tail)), Nat2Z.inj_add. exact Hc0.
Qed.

(** ** The end of the message *)

Notation nl := (2 * (w / 8)).
Lemma nl_is : nl = if lh_crypto_sha_kind_is_wide kind then 16 else 8.
Proof. by destruct (fit_wide F) as [(-> & _ & ->)|(-> & _ & ->)]. Qed.
Lemma zeros_bytes n : is_bytes (replicate n 0).
Proof. apply Forall_replicate. zb. Qed.
Lemma zero_ok self H t e : buffered self H t -> len t <= e <= bs ->
  exists junk, lh_crypto_sha_zero_block_to self e
      = Done (lh_crypto_sha_get_block_mut self ((t ++ replicate (Z.to_nat (e - len t)) 0) ++ junk)) /\
    is_bytes t /\ is_bytes junk /\ e + len junk = 128.
Proof.
  intros (Hk & Hst & H8 & Hw & (junk & Hj) & Hb & Hl & Hf) He. pose proof bs_128.
  unfold lh_crypto_sha_zero_block_to, lh_crypto_sha_get_block_tail_mut, lh_crypto_sha_get_block, lh_crypto_sha_get_block_fill, set_bytes.
  rewrite Hj, length_app in Hl. rewrite Hf, u64_id, Hj, copy_app, bind_done by (rewrite ?length_replicate; zb).
  rewrite take_ge by (rewrite length_replicate; lia). rewrite Hj in Hb. apply Forall_app in Hb as [Hb1 Hb2].
  exists (drop (Z.to_nat (e - len t)) junk). split_and!; try done; [by apply Forall_drop|rewrite length_drop; lia].
Qed.
(** The two counters are the digits of the length. *)
Lemma length_digits_ok self n : counted self n ->
  digits 16 (8 * n) = digits 8 (sha_bit_count_hi self) ++ digits 8 (sha_bit_count_lo self) /\
  digits 8 (8 * n) = digits 8 (sha_bit_count_lo self).
Proof.
  intros (Hlo & Hhi & E). assert (digits 16 (8 * n) = digits 8 (sha_bit_count_hi self) ++ digits 8 (sha_bit_count_lo self)) as E16.
  { rewrite <-(digits_mod 16). change (256 ^ Z.of_nat 16) with (2 ^ 128). rewrite <-E, (digits_app 8 8).
    change (256 ^ Z.of_nat 8) with (2 ^ 64). rewrite Z.div_add_l, Z.div_small, Z.add_0_r by (done || zb). f_equal.
    rewrite <-(digits_mod 8). change (256 ^ Z.of_nat 8) with (2 ^ 64). rewrite Z.add_comm, Z.mod_add, Z.mod_small by (done || zb). done. }
  split; [done|]. rewrite (digits_app 8 8) in E16. apply app_inj_2 in E16 as [_ E8]; [done|]. by rewrite !length_digits.
Qed.
(** What follows the zeros: the counters, and the last compression. *)
Definition put_length (self : lh_crypto_sha_t) : outcome lh_crypto_sha_t :=
  self ← (if lh_crypto_sha_kind_is_wide kind then
            b ← lh_bit_pack_be64 (lh_crypto_sha_get_bit_count_hi self) (lh_crypto_sha_get_block self) (bs - 16);
            mret (lh_crypto_sha_get_block_mut self b)
          else mret self);
  b ← lh_bit_pack_be64 (lh_crypto_sha_get_bit_count_lo self) (lh_crypto_sha_get_block self) (bs - 8);
  let self := lh_crypto_sha_get_block_mut self b in
  lh_crypto_sha_process self (lh_crypto_sha_get_block self).
Lemma put_length_ok self H pre junk n : sha_kind self = kind -> sha_state self = H ++ spare -> len (sha_state self) = 8 ->
  Forall (word w) H -> sha_block self = pre ++ junk -> is_bytes pre -> is_bytes junk -> len pre = bs - nl ->
  bs - nl + len junk = 128 -> counted self n ->
  exists self', put_length self = Done self' /\ sha_kind self' = kind /\ sha_finished self' = sha_finished self /\
    sha_state self' = std_compress s H (pre ++ digits (Z.to_nat nl) (8 * n)) ++ spare /\
    length (std_compress s H (pre ++ digits (Z.to_nat nl) (8 * n))) = length H /\
    Forall (word w) (std_compress s H (pre ++ digits (Z.to_nat nl) (8 * n))).
Proof.
  intros Hk Hst H8 Hw Hb Hpb Hjb Hp Hj Hc. pose proof bs_128 as Hbs. destruct (length_digits_ok self n Hc) as [E16 E8].
  assert (exists junk', is_bytes junk' /\
    (put_length self = let self' := lh_crypto_sha_get_block_mut self ((pre ++ digits (Z.to_nat nl) (8 * n)) ++ junk') in
                       lh_crypto_sha_process self' (sha_block self'))) as (junk' & Hjb' & ->).
  { rewrite nl_is in *. unfold put_length. destruct (lh_crypto_sha_kind_is_wide kind).
    - exists (drop 16 junk). split; [by apply Forall_drop|]. sha_fields. rewrite Hb. replace (bs - 16) with (len pre) by lia.
      rewrite pack_be64_digits, !bind_done by lia. sha_fields. rewrite app_assoc.
      replace (bs - 8) with (len (pre ++ digits 8 (sha_bit_count_hi self))) by (rewrite length_app, length_digits; lia).
      rewrite pack_be64_digits, bind_done by (rewrite length_drop; lia). rewrite drop_drop.
      change (Z.to_nat 16) with 16%nat. rewrite E16, !app_assoc. done.
    - exists (drop 8 junk). split; [by apply Forall_drop|]. rewrite bind_done. sha_fields. rewrite Hb.
      replace (bs - 8) with (len pre) by lia. rewrite pack_be64_digits, bind_done by lia.
      change (Z.to_nat 8) with 8%nat. rewrite E8, !app_assoc. done. }
  assert (0 <= nl <= bs) as Hn by (rewrite nl_is; destruct (lh_crypto_sha_kind_is_wide kind); lia).
  cbv zeta. set (self' := lh_crypto_sha_get_block_mut self _).
  assert (len (pre ++ digits (Z.to_nat nl) (8 * n)) = bs) as Hl by (rewrite length_app, length_digits; lia).
  destruct (fit_process F self' H (sha_block self') Hk Hst H8 Hw) as (E & El & Ew).
  { unfold self'. sha_fields. repeat apply Forall_app_2; try done. apply digits_u8. }
  { unfold self'. sha_fields. rewrite length_app. lia. }
  assert (take (Z.to_nat bs) (sha_block self') = pre ++ digits (Z.to_nat nl) (8 * n)) as Et.
  { unfold self'. sha_fields. rewrite take_app_le, take_ge by lia. done. }
  rewrite Et in E, El, Ew. rewrite E. eexists. by split_and!.
Qed.

(** The block that is begun when there is no room for the length in it. *)
Definition wrap_block (self : lh_crypto_sha_t) : outcome lh_crypto_sha_t :=
  if lh_crypto_sha_get_block_fill self >? bs - nl then
    self ← lh_crypto_sha_zero_block_to self bs;
    self ← lh_crypto_sha_process self (lh_crypto_sha_get_block self);
    mret (lh_crypto_sha_set_block_fill self 0)
  else mret self.
Lemma wrap_block_ok self H t : buffered self H t -> len t <= bs ->
  exists self' z n b t', wrap_block self = Done self' /\ kept self self' /\ t ++ replicate z 0 = b ++ t' /\
    len b = Z.of_nat n * bs /\ len t' <= bs - nl /\ buffered self' (absorb s n H b) t' /\
    (z = 0%nat /\ n = 0%nat \/ Z.of_nat z = bs - len t /\ n = 1%nat /\ bs - nl < len t).
Proof.
  intros Hs Ht. pose proof bs_128 as Hbs. assert (0 <= nl <= bs) as Hn by (rewrite nl_is; destruct (lh_crypto_sha_kind_is_wide kind); lia).
  unfold wrap_block, lh_crypto_sha_get_block_fill. assert (sha_block_fill self = len t) as -> by apply Hs.
  destruct (Z.gtb_spec (len t) (bs - nl)) as [Hg|Hg].
  - destruct (zero_ok self H t bs Hs ltac:(lia)) as (junk & -> & Hbt & Hbj & Hj). rewrite bind_done.
    set (t0 := t ++ _) in *. assert (len t0 = bs) as Hl0 by (unfold t0; rewrite length_app, length_replicate; lia).
    assert (is_bytes (t0 ++ junk)) as Hb0 by (repeat apply Forall_app_2; try done; apply zeros_bytes).
    assert (buffered (lh_crypto_sha_get_block_mut self (t0 ++ junk)) H t) as Hs1.
    { destruct Hs as (Hk & Hst & H8 & Hw & _ & _ & _ & Hf). unfold buffered. sha_fields. split_and!; try done.
      - unfold t0. rewrite <-app_assoc. by eexists.
      - rewrite length_app. lia. }
    destruct (process_ok _ H t (t0 ++ junk) Hs1 Hb0) as (self2 & E & Hs2 & Hk2 & _); [rewrite length_app; lia|].
    change (lh_crypto_sha_get_block (lh_crypto_sha_get_block_mut self (t0 ++ junk))) with (t0 ++ junk).
    rewrite E, bind_done. apply empty_ok in Hs2.
    rewrite take_app_le, take_ge in Hs2 by lia.
    exists (lh_crypto_sha_set_block_fill self2 0), (Z.to_nat (bs - len t)), 1%nat, t0, [].
    split; [done|]. split; [exact Hk2|]. split; [by rewrite app_nil_r|]. split; [lia|]. split; [cbn; lia|]. split; [|right; lia].
    cbn [absorb]. by rewrite take_ge by lia.
  - exists self, 0%nat, 0%nat, [], t. cbn [replicate app absorb length]. rewrite app_nil_r. split_and!; try done; by left.
Qed.
Lemma pad_ok self msg : received self msg ->
  exists self', lh_crypto_sha_pad self = Done self' /\ sha_kind self' = kind /\
    exists n, len (padded s msg) = Z.of_nat n * bs /\
    sha_state self' = absorb s n (std_start s) (padded s msg) ++ spare /\
    length (absorb s n (std_start s) (padded s msg)) = length (std_start s) /\
    Forall (word w) (absorb s n (std_start s) (padded s msg)).
Proof.
  intros (Hfi & Hc & n & front & tail & -> & Hfr & Htl & Hs). pose proof bs_128 as Hbs.
  assert (0 < nl < bs) as Hn by (rewrite nl_is; destruct (lh_crypto_sha_kind_is_wide kind); lia).
  destruct (fill_ok self _ tail [0x80] 1 Hs) as (self1 & E1 & Hs1 & Hk1); [by repeat constructor|cbn; lia|lia|].
  change (take (Z.to_nat 1) [0x80]) with [0x80] in Hs1. set (t := tail ++ [0x80]) in *.
  assert (len t = len tail + 1) as Ht by (unfold t; rewrite length_app; cbn; lia).
  destruct (wrap_block_ok self1 _ t Hs1 ltac:(lia)) as (self2 & z & k & b & t' & E2 & Hk2 & Ez & Hb & Ht' & Hs2 & Hz).
  destruct (zero_ok self2 _ t' (bs - nl) Hs2 ltac:(lia)) as (junk & E3 & Hbt & Hbj & Hj).
  set (pre := t' ++ _) in E3. set (self3 := lh_crypto_sha_get_block_mut self2 (pre ++ junk)) in E3.
  assert (len pre = bs - nl) as Hpre by (unfold pre; rewrite length_app, length_replicate; lia).
  assert (is_bytes pre) as Hpb by (unfold pre; apply Forall_app_2; [done|apply zeros_bytes]).
  set (msg := front ++ tail) in *.
  assert (counted self3 (len msg)) as Hc3.
  { destruct (kept_trans _ _ _ Hk1 Hk2) as (_ & K1 & K2). unfold counted, self3. sha_fields. by rewrite K1, K2. }
  assert (Hs2' := Hs2). destruct Hs2' as (Hk & Hst & H8 & Hw & _).
  destruct (put_length_ok self3 _ pre junk (len msg) Hk Hst H8 Hw eq_refl Hpb Hbj Hpre Hj Hc3)
    as (self4 & E4 & Hk4 & _ & Hst4 & Hl4 & Hw4).
  exists self4. split; [|split; [exact Hk4|]].
  { unfold lh_crypto_sha_pad. assert (lh_crypto_sha_get_kind self = kind) as -> by apply Hs.
    rewrite (fit_block F), <-nl_is, E1, bind_done. rewrite (u64_id (bs - nl)) by zb.
    unfold wrap_block in E2. rewrite E2, bind_done, E3, bind_done. exact E4. }
  assert (padded s msg = (front ++ b) ++ pre ++ digits (Z.to_nat nl) (8 * len msg)) as Ep.
  { unfold padded, padding. assert (len msg mod bs = len tail) as ->.
    { unfold msg. rewrite length_app, Nat2Z.inj_add, Hfr, Z.add_comm, Z.mod_add, Z.mod_small by lia. done. }
    replace (Z.to_nat ((bs - nl - 1 - len tail) mod bs)) with (z + Z.to_nat (bs - nl - len t'))%nat.
    - rewrite replicate_add. unfold pre, msg. apply (f_equal (fun x => front ++ x ++ replicate (Z.to_nat (bs - nl - len t')) 0 ++ digits (Z.to_nat nl) (8 * len msg))) in Ez.
      unfold t in Ez. rewrite <-!app_assoc in *. exact Ez.
    - apply (f_equal length) in Ez. rewrite !length_app, length_replicate in Ez.
      assert (len t + Z.of_nat z = Z.of_nat k * bs + len t') by (rewrite <-Hb; lia).
      rewrite <-(Z.mod_unique_pos (bs - nl - 1 - len tail) bs (- Z.of_nat k) (Z.of_nat z + (bs - nl - len t'))); lia. }
  exists (S (n + k)). rewrite Ep.
  assert (absorb s (S (n + k)) (std_start s) ((front ++ b) ++ pre ++ digits (Z.to_nat nl) (8 * len msg))
    = std_compress s (absorb s k (absorb s n (std_start s) front) b) (pre ++ digits (Z.to_nat nl) (8 * len msg))) as ->.
  { rewrite absorb_snoc by (rewrite length_app; lia). rewrite absorb_app by done. f_equal. apply take_ge.
    rewrite length_app, length_digits. lia. }
  split; [rewrite !length_app, length_digits; nia|]. split; [exact Hst4|]. split; [|exact Hw4].
  rewrite Hl4. rewrite Hst, length_app in H8. pose proof (fit_start_word F) as [_ H8']. rewrite length_app in H8'. lia.
Qed.

(** ** The digest *)

Lemma length_words wb H : length (H ≫= digits wb) = (length H * wb)%nat.
Proof.
  induction H as [|h H IH]; [done|]. change ((h :: H) ≫= digits wb) with (digits wb h ++ (H ≫= digits wb)).
  rewrite length_app, length_digits, IH. cbn [length]. lia.
Qed.
Lemma words_snoc wb H h : (H ++ [h]) ≫= digits wb = (H ≫= digits wb) ++ digits wb h.
Proof. rewrite bind_app. f_equal. apply app_nil_r. Qed.
Lemma take_words wb n H : (n <= length H)%nat -> take (n * wb) (H ≫= digits wb) = take n H ≫= digits wb.
Proof.
  intros Hn. rewrite <-(take_drop n H) at 1. rewrite bind_app, take_app_le, take_ge; [done|..];
    rewrite length_words, length_take; nia.
Qed.
(** One turn of the loop: the word [i] after those before it. *)
Lemma put_words wb pack H out n : (wb = 4 \/ wb = 8)%nat -> (n <= length H)%nat -> (n * wb <= length out)%nat ->
  (forall v pre old, (wb <= length old)%nat -> pack v (pre ++ old) (len pre) = Done (pre ++ digits wb v ++ drop wb old)) ->
  for_up 0 (Z.of_nat n) (fun i out => v ← load (H ++ spare) i; pack v out (i * Z.of_nat wb)) out
  = Done (filled (take n H ≫= digits wb) out).
Proof.
  intros Hwb Hn Ho Hpack.
  destruct (for_up_rule (fun i out' => out' = filled (take (Z.to_nat i) H ≫= digits wb) out) 0 (Z.of_nat n)
    (fun i out => v ← load (H ++ spare) i; pack v out (i * Z.of_nat wb)) out) as (out' & E & ->); [lia|done| |by rewrite Nat2Z.id in E].
  intros i out' Hi ->. destruct (lookup_lt_is_Some_2 H (Z.to_nat i)) as [v Hv]; [lia|].
  rewrite load_app_l by lia. pose proof (load_ok H _ _ Hv) as E. rewrite Z2Nat.id in E by lia. rewrite E, bind_done. clear E.
  set (p := take (Z.to_nat i) H ≫= digits wb). assert (length p = Z.to_nat i * wb)%nat as Hp.
  { unfold p. rewrite length_words, length_take. nia. }
  unfold filled at 1. replace (i * Z.of_nat wb) with (len p) by lia. rewrite Hpack by (rewrite length_drop; nia).
  eexists. split; [reflexivity|]. replace (Z.to_nat (i + 1)) with (S (Z.to_nat i)) by lia.
  rewrite (take_S_r _ _ _ Hv), words_snoc. fold p. unfold filled. rewrite length_app, length_digits, <-app_assoc, drop_drop. done.
Qed.
Lemma put_digest_ok self H out : sha_kind self = kind -> sha_state self = H ++ spare -> Forall (word w) H ->
  length H = length (std_start s) -> std_size s <= len out ->
  lh_crypto_sha_put_digest self out = Done (filled (digest_of s H) out) /\ len (digest_of s H) = std_size s.
Proof.
  intros Hk Hst Hw Hl Ho. destruct (fit_digest F) as (n & En & Hn). unfold lh_crypto_sha_put_digest, lh_crypto_sha_get_kind.
  rewrite Hk, (fit_size F). unfold lh_crypto_sha_get_state_word. rewrite Hst. unfold digest_of. rewrite En in *.
  destruct (fit_wide F) as [(Ew & _ & ->)|(Ew & _ & ->)]; rewrite Ew in *.
  - change (32 / 8) with (Z.of_nat 4) in *. rewrite Z.div_mul by lia.
    replace (Z.to_nat (Z.of_nat n * Z.of_nat 4)) with (n * 4)%nat by lia. rewrite Nat2Z.id, take_words by lia.
    split; [|rewrite length_words, length_take; lia]. rewrite <-(put_words 4 (fun v => lh_bit_pack_be32 (u32 v))); [reflexivity|by left|lia|lia|].
    intros v pre old Hold. rewrite pack_be32_digits by done. by rewrite (digits_mod 4 v : digits 4 (u32 v) = _).
  - change (64 / 8) with (Z.of_nat 8) in *. rewrite Z.div_mul by lia.
    replace (Z.to_nat (Z.of_nat n * Z.of_nat 8)) with (n * 8)%nat by lia. rewrite Nat2Z.id, take_words by lia.
    split; [|rewrite length_words, length_take; lia]. rewrite <-(put_words 8 lh_bit_pack_be64); [reflexivity|by right|lia|lia|].
    intros v pre old Hold. by apply pack_be64_digits.
Qed.
Lemma finish_ok self msg out out_size : received self msg -> std_size s <= out_size -> out_size <= len out ->
  exists self', lh_crypto_sha_finish self (Some out) out_size = Done (self', filled (digest s msg) out, std_size s) /\
    sha_finished self' = true /\ len (digest s msg) = std_size s.
Proof.
  intros Hr Hsz Ho. assert (Hr' := Hr). destruct Hr' as (Hfi & _ & _ & _ & _ & _ & _ & _ & (Hk & _)).
  unfold lh_crypto_sha_finish, lh_crypto_sha_is_finished. cbn [assert_set]. rewrite Hfi. cbn [fail_if]. rewrite !bind_done.
  assert (lh_crypto_sha_get_kind self = kind) as -> by done. rewrite (fit_size F).
  rewrite Z.gtb_ltb, (proj2 (Z.ltb_ge _ _)) by lia.
  destruct (pad_ok self msg Hr) as (self1 & -> & Hk1 & n & Hn & Hst & Hl & Hw). rewrite bind_done.
  destruct (put_digest_ok (lh_crypto_sha_set_finished self1 true) _ out Hk1 Hst Hw Hl ltac:(lia)) as [-> Hlen].
  rewrite bind_done. pose proof bs_128. assert (Z.to_nat (len (padded s msg) / bs) = n) as E by (rewrite Hn, Z.div_mul, Nat2Z.id; lia).
  exists (lh_crypto_sha_set_finished self1 true). unfold digest. rewrite E. done.
Qed.
End Stream.

(** ** The five kinds *)

Lemma fits_intro kind s spare process :
  (forall self block, lh_crypto_sha_get_kind self = kind -> lh_crypto_sha_process self block = process self block) ->
  compresses process (std_word s) (std_block s) spare (std_compress s) ->
  lh_crypto_sha_block_size kind = std_block s -> lh_crypto_sha_digest_size kind = std_size s ->
  std_word s = 32 /\ std_block s = 64 /\ lh_crypto_sha_kind_is_wide kind = false \/
  std_word s = 64 /\ std_block s = 128 /\ lh_crypto_sha_kind_is_wide kind = true ->
  initial_state kind = std_start s ++ spare -> Forall (word (std_word s)) (initial_state kind) -> len (initial_state kind) = 8 ->
  (exists n, std_size s = Z.of_nat n * (std_word s / 8) /\ (0 < n /\ n + length spare <= 8)%nat) ->
  fits kind s spare.
Proof.
  intros Hp Hc Hb Hd Hw Hi Hiw Hil (n & En & Hn). rewrite Hi in Hiw, Hil. split; try done.
  - intros self H block Hk. rewrite Hp by done. apply Hc.
  - split; [|done]. by apply Forall_app in Hiw as [? _].
  - exists n. split; [done|]. rewrite length_app in Hil. lia.
Qed.
Ltac fits_kind process ok n :=
  apply (fits_intro _ _ _ process);
  [intros self block Hk; unfold lh_crypto_sha_process; rewrite Hk; reflexivity|exact ok|reflexivity|reflexivity
   |first [left; split; [reflexivity|split; reflexivity] | right; split; [reflexivity|split; reflexivity]]
   |vm_compute; reflexivity|repeat constructor; discriminate|reflexivity|exists n; split; [reflexivity|cbn; lia]].
Lemma fits_1 : fits 0 std_1 [0; 0; 0].
Proof. fits_kind lh_crypto_sha_process_1 (process_1_ok 0 0 0) 5%nat. Qed.
Lemma fits_224 : fits 1 std_224 [].
Proof. fits_kind lh_crypto_sha_process_256 process_256_ok 7%nat. Qed.
Lemma fits_256 : fits 2 std_256 [].
Proof. fits_kind lh_crypto_sha_process_256 process_256_ok 8%nat. Qed.
Lemma fits_384 : fits 3 std_384 [].
Proof. fits_kind lh_crypto_sha_process_512 process_512_ok 6%nat. Qed.
Lemma fits_512 : fits 4 std_512 [].
Proof. fits_kind lh_crypto_sha_process_512 process_512_ok 8%nat. Qed.
Lemma fits_kinds kind : 0 <= kind <= 4 -> exists spare, fits kind (std_of kind) spare.
Proof.
  intros Hk. assert (kind = 0 \/ kind = 1 \/ kind = 2 \/ kind = 3 \/ kind = 4) as [->|[->|[->|[->| ->]]]] by lia.
  - exists [0; 0; 0]. apply fits_1.
  - exists []. apply fits_224.
  - exists []. apply fits_256.
  - exists []. apply fits_384.
  - exists []. apply fits_512.
Qed.

(** The arrays of a hasher have their sizes, whatever is in them. *)
Definition hasher (self : lh_crypto_sha_t) : Prop := len (sha_state self) = 8 /\ len (sha_block self) = 128.
Lemma store_state_ok self ws : len (sha_state self) = 8 -> length ws = 8%nat ->
  store_state self 0 ws = Done (put_state self ws).
Proof.
  intros Hs Hw. destruct self as [k fi st lo hi b fl]. cbn [sha_state] in Hs.
  destruct (seg8 st ltac:(lia)) as (? & ? & ? & ? & ? & ? & ? & ? & ->).
  destruct (seg8 ws Hw) as (? & ? & ? & ? & ? & ? & ? & ? & ->). reflexivity.
Qed.
Lemma hasher_init_ok self kind s spare : fits kind s spare -> hasher self ->
  exists h, lh_crypto_sha_init self kind = Done h /\ received kind s spare h [].
Proof.
  intros F [Hs Hb]. destruct (fit_start_word _ _ _ F) as [Hw H8]. unfold lh_crypto_sha_init.
  rewrite (fit_size _ _ _ F). assert (0 < std_block s) as Hbs by (destruct (bs_128 _ _ _ F); lia).
  destruct (Z.eqb_spec (std_size s) 0) as [E|E].
  { destruct (fit_digest _ _ _ F) as (n & En & Hn). destruct (fit_wide _ _ _ F) as [(Ew & _)|(Ew & _)]; rewrite Ew in En;
    [change (32 / 8) with 4 in En|change (64 / 8) with 8 in En]; lia. }
  cbn [fail_if]. rewrite bind_done. cbv zeta. unfold set_bytes, LH_CRYPTO_SHA_BLOCK_SIZE_MAX. sha_fields.
  rewrite copy_ok by (rewrite ?length_replicate; lia). rewrite bind_done. sha_fields.
  rewrite store_state_ok by (rewrite ?(fit_start _ _ _ F); (done || lia)).
  eexists. split; [reflexivity|]. split; [done|]. split; [by split_and!|]. exists 0%nat, [], [].
  split; [done|]. split; [cbn; lia|]. split; [cbn; lia|]. unfold buffered. sha_fields. cbn [absorb].
  rewrite (fit_start _ _ _ F). split_and!; try done; [by eexists| |].
  - apply Forall_app_2; [by constructor|]. apply Forall_app_2; [apply Forall_take, zeros_bytes|].
    rewrite drop_ge; [constructor|lia].
  - rewrite !length_app, !length_take, length_replicate, length_drop. lia.
Qed.

Fixpoint update_all (self : lh_crypto_sha_t) (pieces : list buffer) : outcome lh_crypto_sha_t :=
  match pieces with
  | [] => mret self
  | d :: pieces => self ← lh_crypto_sha_update self (Some d) (len d); update_all self pieces
  end.
Lemma update_all_ok kind s spare pieces : fits kind s spare -> Forall (fun d => is_bytes d /\ is_u64 (len d)) pieces ->
  forall self msg, received kind s spare self msg ->
  exists self', update_all self pieces = Done self' /\ received kind s spare self' (msg ++ concat pieces).
Proof.
  intros F. induction 1 as [|d pieces [Hd Hu] _ IH]; intros self msg Hs; cbn [update_all concat]; [rewrite app_nil_r; by exists self|].
  destruct (update_ok kind s spare F self msg d Hs Hd Hu) as (self1 & -> & Hs1). rewrite bind_done, app_assoc. by apply IH.
Qed.

(** Claim C21: the digests are the standard's: for each of the five kinds and every way to cut a
    message into pieces (empty ones, pieces that end inside a block, any number of them), to
    initialise, update with the pieces in turn and finish gives the digest that FIPS 180-4
    defines on the whole message (its padding, its schedule and steps, constants from the roots
    of the primes) in the first bytes of the output, leaves the others alone and returns the
    digest's size; the one-call form gives the same; and a finished hasher refuses both to
    update and to finish. *)
Theorem sha_is_standard self kind pieces out out_size :
  0 <= kind <= 4 -> hasher self -> Forall (fun d => is_bytes d /\ is_u64 (len d)) pieces ->
  std_size (std_of kind) <= out_size -> out_size <= len out ->
  exists h0 h h', lh_crypto_sha_init self kind = Done h0 /\ update_all h0 pieces = Done h /\
    lh_crypto_sha_finish h (Some out) out_size
      = Done (h', filled (digest (std_of kind) (concat pieces)) out, std_size (std_of kind)) /\
    len (digest (std_of kind) (concat pieces)) = std_size (std_of kind) /\
    (is_u64 (len (concat pieces)) ->
     lh_crypto_sha_hash self kind (Some (concat pieces)) (len (concat pieces)) (Some out) out_size
     = Done (Some (filled (digest (std_of kind) (concat pieces)) out), std_size (std_of kind))) /\
    (forall more n o m, lh_crypto_sha_update h' more n = Fault lh_runtime_error_code_invalid_argument /\
       lh_crypto_sha_finish h' (Some o) m = Fault lh_runtime_error_code_invalid_argument).
Proof.
  intros Hkind Hself Hp Hsz Ho. destruct (fits_kinds kind Hkind) as (spare & F).
  destruct (hasher_init_ok self kind _ spare F Hself) as (h0 & E0 & H0).
  destruct (update_all_ok _ _ _ pieces F Hp h0 [] H0) as (h & E1 & H1). cbn [app] in H1.
  destruct (finish_ok _ _ _ F h _ out out_size H1 Hsz Ho) as (h' & E2 & Hf & Hl).
  exists h0, h, h'. split; [done|]. split; [done|]. split; [exact E2|]. split; [exact Hl|]. split.
  - intros Hu. unfold lh_crypto_sha_hash. rewrite (fit_size _ _ _ F).
    assert (std_size (std_of kind) <> 0) as Hne.
    { rewrite <-(fit_size _ _ _ F). assert (kind = 0 \/ kind = 1 \/ kind = 2 \/ kind = 3 \/ kind = 4) as [->|[->|[->|[->| ->]]]] by lia; done. }
    rewrite (proj2 (Z.eqb_neq _ _) Hne), E0, bind_done.
    assert (is_bytes (concat pieces)) as Hb by (apply Forall_concat; eapply Forall_impl; [exact Hp|]; by intros d [? _]).
    destruct (update_ok _ _ _ F h0 [] (concat pieces) H0 Hb Hu) as (g & -> & Hg). rewrite bind_done.
    destruct (finish_ok _ _ _ F g _ out out_size Hg Hsz Ho) as (g' & -> & _). done.
  - intros more n o m. unfold lh_crypto_sha_update, lh_crypto_sha_finish, lh_crypto_sha_is_finished. cbn [assert_set].
    by rewrite bind_done, Hf.
Qed.
Lemma sha_is_standard_witness :
  exists h0 h h', lh_crypto_sha_init no_sha 2 = Done h0 /\ update_all h0 [[97]; []; [98; 99]] = Done h /\
    lh_crypto_sha_finish h (Some (local 40)) 33 = Done (h', filled (digest std_256 [97; 98; 99]) (local 40), 32).
Proof.
  destruct (sha_is_standard no_sha 2 [[97]; []; [98; 99]] (local 40) 33) as (h0 & h & h' & E0 & E1 & E2 & _).
  - lia.
  - split; reflexivity.
  - repeat constructor; cbn; zb.
  - discriminate.
  - discriminate.
  - exists h0, h, h'. split; [exact E0|]. split; [exact E1|exact E2].
Defined.

(** The reference itself on the standard's message "abc". *)
Example digest_abc :
  map (fun kind => take 4 (digest (std_of kind) [97; 98; 99])) [0; 1; 2; 3; 4]
  = [[0xA9; 0x99; 0x3E; 0x36]; [0x23; 0x09; 0x7D; 0x22]; [0xBA; 0x78; 0x16; 0xBF];
     [0xCB; 0x00; 0x75; 0x3F]; [0xDD; 0xAF; 0x35; 0xA1]].
Proof. vm_compute. reflexivity. Qed.
