(* ===== verification/Hash.v ===== *)
(** * Hashes

    [lh/core/hash/crc.c] and [lh/core/hash/fnv.c].  The data is a byte buffer and
    its size is an argument of its own, so reading past the buffer is visible.
    Theorems: a reflected CRC over a register of [w] bits tells any two messages
    apart that differ inside a window of [w] bits, hashing in pieces is hashing
    the whole, and FNV-1a tells two messages apart that differ in one byte. *)
From S2P Require Import Prelude Buffer.

(** ** The functions *)

Definition LH_HASH_CRC32_POLYNOMIAL : Z := 0xEDB88320.
Definition LH_HASH_FNV1A_32_OFFSET : Z := 2166136261.
Definition LH_HASH_FNV1A_32_PRIME : Z := 16777619.

(** The body of the bit loop, and the loop. *)
Definition crc_bit (crc polynomial : Z) : Z :=
  let low := negb (Z.land crc 1 =? 0) in
  let crc := Z.shiftr crc 1 in
  if low then Z.lxor crc polynomial else crc.
Fixpoint crc_bits (n : nat) (crc polynomial : Z) : Z :=
  match n with O => crc | S n => crc_bits n (crc_bit crc polynomial) polynomial end.
Definition lh_hash_crc_reflected_byte (crc byte polynomial : Z) : Z :=
  crc_bits 8 (Z.lxor crc byte) polynomial.

Fixpoint crc_loop (n : nat) (i : Z) (crc : Z) (data : buffer) (polynomial : Z) : outcome Z :=
  match n with
  | O => Done crc
  | S n =>
    b ← load data i;
    crc_loop n (i + 1) (lh_hash_crc_reflected_byte crc b polynomial) data polynomial
  end.
Definition lh_hash_crc_reflected_update (crc : Z) (data : buffer) (size polynomial : Z)
    : outcome Z := crc_loop (Z.to_nat size) 0 crc data polynomial.
Definition lh_hash_crc32_update (crc : Z) (data : buffer) (size : Z) : outcome Z :=
  r ← lh_hash_crc_reflected_update (Z.lxor crc 0xFFFFFFFF) data size LH_HASH_CRC32_POLYNOMIAL;
  mret (Z.lxor r 0xFFFFFFFF).
Definition lh_hash_crc32 (data : buffer) (size : Z) : outcome Z :=
  lh_hash_crc32_update 0 data size.

Definition lh_hash_fnv1a_32_byte (hash byte : Z) : Z :=
  u32 (Z.lxor hash byte * LH_HASH_FNV1A_32_PRIME).
Fixpoint fnv_loop (n : nat) (i : Z) (hash : Z) (data : buffer) : outcome Z :=
  match n with
  | O => Done hash
  | S n => b ← load data i; fnv_loop n (i + 1) (lh_hash_fnv1a_32_byte hash b) data
  end.
Definition lh_hash_fnv1a_32_update (hash : Z) (data : buffer) (size : Z) : outcome Z :=
  fnv_loop (Z.to_nat size) 0 hash data.
Definition lh_hash_fnv1a_32 (data : buffer) (size : Z) : outcome Z :=
  lh_hash_fnv1a_32_update LH_HASH_FNV1A_32_OFFSET data size.

Example crc32_check : lh_hash_crc32 [49;50;51;52;53;54;55;56;57] 9 = Done 0xCBF43926.
Proof. vm_compute. reflexivity. Qed.

(** ** The loops are folds over the first [size] bytes *)

Definition crc_fold (crc : Z) (bytes : list Z) (polynomial : Z) : Z :=
  foldl (fun c b => lh_hash_crc_reflected_byte c b polynomial) crc bytes.
Definition fnv_fold (hash : Z) (bytes : list Z) : Z := foldl lh_hash_fnv1a_32_byte hash bytes.

Lemma crc_loop_fold n : forall i crc data polynomial,
  (i + n <= length data)%nat ->
  crc_loop n (Z.of_nat i) crc data polynomial
  = Done (crc_fold crc (take n (drop i data)) polynomial).
Proof.
  induction n as [|n IH]; intros i crc data polynomial Hl; [done|].
  destruct (lookup_lt_is_Some_2 data i) as [b Hb]; [lia|].
  cbn [crc_loop]. rewrite (load_ok _ _ _ Hb), bind_done.
  replace (Z.of_nat i + 1) with (Z.of_nat (S i)) by lia.
  rewrite IH by lia. by rewrite (drop_S _ _ _ Hb).
Qed.
Lemma crc_update_fold crc data size polynomial :
  0 <= size <= len data ->
  lh_hash_crc_reflected_update crc data size polynomial
  = Done (crc_fold crc (take (Z.to_nat size) data) polynomial).
Proof.
  intros. unfold lh_hash_crc_reflected_update. change 0 with (Z.of_nat 0).
  rewrite crc_loop_fold by lia. done.
Qed.
Lemma fnv_loop_fold n : forall i hash data,
  (i + n <= length data)%nat ->
  fnv_loop n (Z.of_nat i) hash data = Done (fnv_fold hash (take n (drop i data))).
Proof.
  induction n as [|n IH]; intros i hash data Hl; [done|].
  destruct (lookup_lt_is_Some_2 data i) as [b Hb]; [lia|].
  cbn [fnv_loop]. rewrite (load_ok _ _ _ Hb), bind_done.
  replace (Z.of_nat i + 1) with (Z.of_nat (S i)) by lia.
  rewrite IH by lia. by rewrite (drop_S _ _ _ Hb).
Qed.
Lemma fnv_update_fold hash data size :
  0 <= size <= len data ->
  lh_hash_fnv1a_32_update hash data size = Done (fnv_fold hash (take (Z.to_nat size) data)).
Proof.
  intros. unfold lh_hash_fnv1a_32_update. change 0 with (Z.of_nat 0).
  rewrite fnv_loop_fold by lia. done.
Qed.

(** ** The shift register *)

Lemma testbit_low x : Z.testbit x 0 = negb (Z.land x 1 =? 0).
Proof.
  change 1 with (Z.ones 1). rewrite Z.land_ones, Z.bit0_odd, Zodd_mod by lia.
  change (2 ^ 1) with 2. pose proof (Z.mod_pos_bound x 2 ltac:(lia)).
  destruct (Zeq_bool (x mod 2) 1) eqn:E.
  - apply Zeq_bool_eq in E. rewrite E. done.
  - apply Zeq_bool_neq in E. by replace (x mod 2) with 0 by lia.
Qed.
Lemma crc_bit_spec n c polynomial :
  0 <= n ->
  Z.testbit (crc_bit c polynomial) n
  = xorb (Z.testbit c (n + 1)) (Z.testbit c 0 && Z.testbit polynomial n).
Proof.
  intros Hn. unfold crc_bit. rewrite <-testbit_low.
  destruct (Z.testbit c 0); rewrite ?Z.lxor_spec, Z.shiftr_spec by done; [done|].
  simpl. by rewrite xorb_false_r.
Qed.
(** Feeding bits above the low one is the same as feeding them later. *)
Lemma crc_bit_later c d polynomial :
  crc_bit (Z.lxor c (Z.shiftl d 1)) polynomial = Z.lxor (crc_bit c polynomial) d.
Proof.
  apply Z.bits_inj'; intros n Hn.
  rewrite crc_bit_spec, !Z.lxor_spec, crc_bit_spec, !Z.shiftl_spec by lia.
  rewrite (Z.testbit_neg_r d (0 - 1)) by lia. replace (n + 1 - 1) with n by lia.
  rewrite xorb_false_r. by destruct (Z.testbit c (n + 1)), (Z.testbit c 0),
    (Z.testbit polynomial n), (Z.testbit d n).
Qed.
Lemma crc_bits_later n : forall c d polynomial,
  crc_bits n (Z.lxor c (Z.shiftl d (Z.of_nat n))) polynomial
  = Z.lxor (crc_bits n c polynomial) d.
Proof.
  induction n as [|n IH]; intros c d polynomial.
  { simpl. by rewrite Z.shiftl_0_r. }
  cbn [crc_bits]. rewrite <-IH, <-crc_bit_later, Z.shiftl_shiftl by lia.
  do 4 f_equal. lia.
Qed.
Lemma crc_bits_add m n c polynomial :
  crc_bits n (crc_bits m c polynomial) polynomial = crc_bits (m + n) c polynomial.
Proof. revert c. induction m as [|m IH]; intros c; [done|]. apply IH. Qed.

(** The bytes as one little-endian number. *)
Fixpoint le_value (bs : list Z) : Z :=
  match bs with [] => 0 | b :: bs => Z.lxor b (Z.shiftl (le_value bs) 8) end.

Lemma crc_fold_window bs : forall c polynomial,
  crc_fold c bs polynomial = crc_bits (8 * length bs) (Z.lxor c (le_value bs)) polynomial.
Proof.
  induction bs as [|b bs IH]; intros c polynomial.
  { simpl. by rewrite Z.lxor_0_r. }
  unfold crc_fold in *. cbn [foldl]. rewrite IH. unfold lh_hash_crc_reflected_byte.
  rewrite <-crc_bits_later, crc_bits_add. cbn [le_value length].
  rewrite Z.lxor_assoc. f_equal. lia.
Qed.
Lemma le_value_cons b bs : is_u8 b -> le_value (b :: bs) = 256 * le_value bs + b.
Proof. intros Hb. cbn [le_value]. rewrite Z.lxor_comm. by apply lxor_bytes. Qed.
Lemma le_value_range bs : is_bytes bs -> 0 <= le_value bs < 2 ^ (8 * len bs).
Proof.
  induction 1 as [|b bs Hb _ IH]; [simpl; lia|].
  rewrite le_value_cons by done. cbn [length].
  replace (8 * Z.of_nat (S (length bs))) with (8 + 8 * len bs) by lia.
  rewrite Z.pow_add_r by lia. change (2 ^ 8) with 256. zb.
Qed.
Lemma le_value_inj xs : forall ys,
  is_bytes xs -> is_bytes ys -> length xs = length ys -> le_value xs = le_value ys -> xs = ys.
Proof.
  induction xs as [|x xs IH]; intros [|y ys] Hx Hy Hl He; try discriminate Hl; [done|].
  inversion_clear Hx; inversion_clear Hy.
  rewrite !le_value_cons in He by done.
  assert (x = y) as -> by zdm.
  f_equal. apply IH; [done..| simpl in Hl; lia | lia].
Qed.

Lemma lxor_range w x y : 0 <= w -> 0 <= x < 2 ^ w -> 0 <= y < 2 ^ w -> 0 <= Z.lxor x y < 2 ^ w.
Proof.
  intros Hw Hx Hy.
  assert (Z.lxor x y = Z.lxor x y mod 2 ^ w) as ->.
  { apply Z.bits_inj'; intros n Hn. destruct (Z.ltb_spec n w).
    - by rewrite Z.mod_pow2_bits_low by lia.
    - by rewrite Z.mod_pow2_bits_high, Z.lxor_spec, !(testbit_above _ w) by lia. }
  apply Z.mod_pos_bound. lia.
Qed.
Lemma lxor_cancel_l a b c : Z.lxor a b = Z.lxor a c -> b = c.
Proof.
  intros H. apply (f_equal (Z.lxor a)) in H.
  by rewrite <-!Z.lxor_assoc, Z.lxor_nilpotent, !Z.lxor_0_l in H.
Qed.

Section Register.
(** A register of [w] bits and a polynomial whose top coefficient is there. *)
Context (w polynomial : Z) (Hw : 0 < w) (Hp : 0 <= polynomial < 2 ^ w).

Lemma crc_bit_range c : 0 <= c < 2 ^ w -> 0 <= crc_bit c polynomial < 2 ^ w.
Proof using Hw Hp.
  intros Hc. assert (0 <= Z.shiftr c 1 < 2 ^ w).
  { rewrite Z.shiftr_div_pow2 by lia. change (2 ^ 1) with 2. zdm. }
  unfold crc_bit. destruct (negb _); [|done]. apply lxor_range; lia.
Qed.
Lemma crc_bits_range n : forall c,
  0 <= c < 2 ^ w -> 0 <= crc_bits n c polynomial < 2 ^ w.
Proof using Hw Hp. induction n as [|n IH]; intros c Hc; [done|]. apply IH, crc_bit_range, Hc. Qed.
Lemma crc_fold_range bs : forall c,
  8 <= w -> is_bytes bs -> 0 <= c < 2 ^ w -> 0 <= crc_fold c bs polynomial < 2 ^ w.
Proof using Hw Hp.
  induction bs as [|b bs IH]; intros c H8 Hb Hc; [done|]. inversion_clear Hb.
  apply IH; [done..|]. apply crc_bits_range, lxor_range; [lia|done|].
  pose proof (Z.pow_le_mono_r 2 8 w ltac:(lia) H8). zb.
Qed.

Hypothesis Htop : Z.testbit polynomial (w - 1) = true.

Lemma crc_bit_inj a b :
  0 <= a < 2 ^ w -> 0 <= b < 2 ^ w -> crc_bit a polynomial = crc_bit b polynomial -> a = b.
Proof using Hw Htop.
  intros Ha Hb He.
  assert (Hn : forall n, 0 <= n ->
    xorb (Z.testbit a (n + 1)) (Z.testbit a 0 && Z.testbit polynomial n)
    = xorb (Z.testbit b (n + 1)) (Z.testbit b 0 && Z.testbit polynomial n)).
  { intros n Hn. rewrite <-!crc_bit_spec by done. by rewrite He. }
  assert (H0 : Z.testbit a 0 = Z.testbit b 0).
  { specialize (Hn (w - 1) ltac:(lia)).
    rewrite Htop, (testbit_above a w), (testbit_above b w), !andb_true_r in Hn by lia.
    by destruct (Z.testbit a 0), (Z.testbit b 0). }
  apply Z.bits_inj'; intros n Hn0. destruct (Z.eq_dec n 0) as [->|]; [done|].
  specialize (Hn (n - 1) ltac:(lia)). rewrite H0 in Hn.
  replace (n - 1 + 1) with n in Hn by lia.
  by destruct (Z.testbit a n), (Z.testbit b n), (_ && _).
Qed.
Lemma crc_bits_inj n : forall a b,
  0 <= a < 2 ^ w -> 0 <= b < 2 ^ w ->
  crc_bits n a polynomial = crc_bits n b polynomial -> a = b.
Proof using Hw Hp Htop.
  induction n as [|n IH]; intros a b Ha Hb He; [done|].
  apply crc_bit_inj; [done..|]. apply IH; [by apply crc_bit_range..|done].
Qed.
Lemma crc_fold_inj bs : forall a b,
  8 <= w -> is_bytes bs -> 0 <= a < 2 ^ w -> 0 <= b < 2 ^ w ->
  crc_fold a bs polynomial = crc_fold b bs polynomial -> a = b.
Proof using Hw Hp Htop.
  induction bs as [|x bs IH]; intros a b H8 Hx Ha Hb He; [done|]. inversion_clear Hx.
  pose proof (Z.pow_le_mono_r 2 8 w ltac:(lia) H8).
  assert (0 <= x < 2 ^ w) by zb.
  apply IH in He; [|done..| |]; [|apply crc_bits_range, lxor_range; lia..].
  apply crc_bits_inj in He; [|apply lxor_range; lia..].
  apply (lxor_cancel_l x). by rewrite !(Z.lxor_comm x).
Qed.
Lemma crc_window_inj c xs ys :
  0 <= c < 2 ^ w -> is_bytes xs -> is_bytes ys -> length xs = length ys ->
  8 * len xs <= w -> crc_fold c xs polynomial = crc_fold c ys polynomial -> xs = ys.
Proof using Hw Hp Htop.
  intros Hc Hx Hy Hl Hlw He. rewrite !crc_fold_window, Hl in He.
  assert (Hle : forall zs, is_bytes zs -> length zs = length xs ->
    0 <= le_value zs < 2 ^ w).
  { intros zs Hz E. pose proof (le_value_range zs Hz).
    pose proof (Z.pow_le_mono_r 2 (8 * len zs) w ltac:(lia) ltac:(lia)). lia. }
  apply crc_bits_inj in He; [|apply lxor_range; [lia|done|by apply Hle]..].
  apply lxor_cancel_l in He. by apply le_value_inj.
Qed.
End Register.

Lemma crc_fold_app c xs ys polynomial :
  crc_fold c (xs ++ ys) polynomial = crc_fold (crc_fold c xs polynomial) ys polynomial.
Proof. apply foldl_app. Qed.
Lemma crc_fold_burst w polynomial c p x y s :
  8 <= w -> 0 <= polynomial < 2 ^ w -> Z.testbit polynomial (w - 1) = true ->
  0 <= c < 2 ^ w -> is_bytes p -> is_bytes x -> is_bytes y -> is_bytes s ->
  length x = length y -> 8 * len x <= w ->
  crc_fold c (p ++ x ++ s) polynomial = crc_fold c (p ++ y ++ s) polynomial -> x = y.
Proof.
  intros Hw Hp Ht Hc Bp Bx By Bs Hl Hlw He. rewrite !crc_fold_app in He.
  assert (Hr : forall zs c', is_bytes zs -> 0 <= c' < 2 ^ w ->
    0 <= crc_fold c' zs polynomial < 2 ^ w).
  { intros. apply crc_fold_range; [lia|done..]. }
  apply (crc_fold_inj w) in He; [|first [lia | done | by auto]..].
  apply (crc_window_inj w) in He; first [done | lia | by auto].
Qed.

(** Claim C38: the reflected CRC over a register of [w] bits (the polynomial's top
    coefficient set) is defined for every message, stays inside the register, and
    two messages of one length that differ only inside a run of at most [w] bits
    of whole bytes never have the same CRC. *)
Theorem crc_detects_bursts w polynomial crc p x y s :
  8 <= w <= 32 -> 0 <= polynomial < 2 ^ w -> Z.testbit polynomial (w - 1) = true ->
  0 <= crc < 2 ^ w -> is_bytes (p ++ x ++ y ++ s) ->
  length x = length y -> 8 * len x <= w -> x <> y ->
  exists a b,
    lh_hash_crc_reflected_update crc (p ++ x ++ s) (len (p ++ x ++ s)) polynomial = Done a /\
    lh_hash_crc_reflected_update crc (p ++ y ++ s) (len (p ++ y ++ s)) polynomial = Done b /\
    a <> b /\ 0 <= a < 2 ^ w /\ 0 <= b < 2 ^ w.
Proof.
  intros Hw Hp Ht Hc HB Hl Hlw Hne. unfold is_bytes in HB. rewrite !Forall_app in HB.
  destruct HB as (Bp & Bx & By & Bs).
  rewrite !crc_update_fold, !Nat2Z.id, !take_ge by lia.
  do 2 eexists. split; [done|]. split; [done|]. split; [|split].
  - intros He. apply Hne. by apply (crc_fold_burst w) in He; first [done | lia].
  - apply crc_fold_range; try lia. unfold is_bytes. by rewrite !Forall_app.
  - apply crc_fold_range; try lia. unfold is_bytes. by rewrite !Forall_app.
Qed.
Lemma crc_detects_bursts_witness :
  exists a b,
    lh_hash_crc_reflected_update 0xFFFF [1; 3; 2; 0; 7] 5 0xA001 = Done a /\
    lh_hash_crc_reflected_update 0xFFFF [1; 3; 9; 8; 7] 5 0xA001 = Done b /\
    a <> b /\ 0 <= a < 2 ^ 16 /\ 0 <= b < 2 ^ 16.
Proof.
  apply (crc_detects_bursts 16 0xA001 0xFFFF [1; 3] [2; 0] [9; 8] [7]);
    [lia|lia|reflexivity|lia| |reflexivity|simpl; lia|discriminate].
  repeat constructor; compute; congruence.
Defined.

(** ** Hashing in pieces *)

Lemma fnv_byte_inj h g x y :
  is_u32 h -> is_u32 g -> is_u8 x -> is_u8 y ->
  lh_hash_fnv1a_32_byte h x = lh_hash_fnv1a_32_byte g y -> Z.lxor h x = Z.lxor g y.
Proof.
  unfold lh_hash_fnv1a_32_byte, u32, LH_HASH_FNV1A_32_PRIME. intros Hh Hg Hx Hy He.
  assert (Hr : forall u v, is_u32 u -> is_u8 v -> 0 <= Z.lxor u v < 2 ^ 32).
  { intros. apply lxor_range; [lia|zb|zb]. }
  pose proof (Hr _ _ Hh Hx) as H1. pose proof (Hr _ _ Hg Hy) as H2.
  set (a := Z.lxor h x) in *. set (b := Z.lxor g y) in *. clearbody a b.
  (* 899433627 is the inverse of the prime modulo 2^32. *)
  assert (Hi : forall z, 0 <= z < 2 ^ 32 ->
    z = (z * 16777619 mod 4294967296 * 899433627) mod 4294967296).
  { intros z Hz. rewrite Z.mul_mod_idemp_l, <-Z.mul_assoc by lia.
    rewrite <-(Z.mul_mod_idemp_r z) by lia.
    change ((16777619 * 899433627) mod 4294967296) with 1.
    rewrite Z.mul_1_r, Z.mod_small by lia. done. }
  rewrite (Hi a), (Hi b) by done. by rewrite He.
Qed.
Lemma fnv_fold_range bs h : is_u32 h -> is_u32 (fnv_fold h bs).
Proof.
  revert h. induction bs as [|b bs IH]; intros h Hh; [done|].
  apply IH, u32_range.
Qed.
Lemma fnv_fold_inj bs : forall h g,
  is_u32 h -> is_u32 g -> is_bytes bs -> fnv_fold h bs = fnv_fold g bs -> h = g.
Proof.
  induction bs as [|b bs IH]; intros h g Hh Hg Hb He; [done|]. inversion_clear Hb.
  apply IH in He; [|apply u32_range..|done].
  apply fnv_byte_inj in He; [|done..]. apply (lxor_cancel_l b). by rewrite !(Z.lxor_comm b).
Qed.

(** Hashing a message in pieces, each call continuing from the one
    before, gives the hash of the whole, for CRC-32 and for FNV-1a; both are
    defined on every message and stay in 32 bits; and FNV-1a never gives one value
    to two messages of the same length that differ in exactly one byte. *)
Theorem hash_streams h x y a b :
  is_u32 h -> is_u8 x -> is_u8 y -> is_bytes a -> is_bytes b ->
  (exists r q,
    lh_hash_crc32_update h a (len a) = Done r /\ is_u32 r /\
    lh_hash_crc32_update r b (len b) = Done q /\ is_u32 q /\
    lh_hash_crc32_update h (a ++ b) (len (a ++ b)) = Done q) /\
  (exists r q,
    lh_hash_fnv1a_32_update h a (len a) = Done r /\ is_u32 r /\
    lh_hash_fnv1a_32_update r b (len b) = Done q /\ is_u32 q /\
    lh_hash_fnv1a_32_update h (a ++ b) (len (a ++ b)) = Done q) /\
  (lh_hash_fnv1a_32 (a ++ x :: b) (len (a ++ x :: b))
   = lh_hash_fnv1a_32 (a ++ y :: b) (len (a ++ y :: b)) <-> x = y).
Proof.
  intros Hh Hx Hy Ha Hb. split; [|split].
  - unfold lh_hash_crc32_update. rewrite !crc_update_fold, !Nat2Z.id, !take_ge by lia.
    assert (Hr : forall c zs, is_u32 c -> is_bytes zs ->
      is_u32 (crc_fold c zs LH_HASH_CRC32_POLYNOMIAL)).
    { intros. apply (crc_fold_range 32); [lia|compute; split; congruence|lia|done..]. }
    assert (Hn : forall c, is_u32 c -> is_u32 (Z.lxor c 0xFFFFFFFF)).
    { intros. apply (lxor_range 32); [lia|done|lia]. }
    do 2 eexists. rewrite !bind_done. split; [done|]. split; [auto|].
    rewrite !crc_update_fold, !Nat2Z.id, !take_ge by lia. rewrite !bind_done.
    split; [done|]. rewrite Z.lxor_assoc, Z.lxor_nilpotent, Z.lxor_0_r.
    split; [auto|]. by rewrite crc_fold_app.
  - rewrite !fnv_update_fold, !Nat2Z.id, !take_ge by lia.
    do 2 eexists. split; [done|]. split; [by apply fnv_fold_range|].
    rewrite !fnv_update_fold, !Nat2Z.id, !take_ge by lia.
    split; [done|]. split; [by apply fnv_fold_range, fnv_fold_range|].
    f_equal. apply foldl_app.
  - unfold lh_hash_fnv1a_32. rewrite !fnv_update_fold, !Nat2Z.id, !take_ge by lia.
    unfold fnv_fold. rewrite !foldl_app. cbn [foldl].
    set (g := foldl _ _ a). assert (Hg : is_u32 g) by by apply fnv_fold_range.
    split; [|by intros ->]. intros [= He].
    apply fnv_fold_inj in He; [|apply u32_range..|done].
    apply fnv_byte_inj in He; [|done..]. by apply lxor_cancel_l in He.
Qed.
Lemma hash_streams_witness :
  lh_hash_fnv1a_32 ([1] ++ 2 :: [3]) 3 = lh_hash_fnv1a_32 ([1] ++ 4 :: [3]) 3 <-> 2 = 4.
Proof.
  assert (B : forall v, 0 <= v < 256 -> is_bytes [v]) by (intros; by constructor).
  apply (hash_streams 0 2 4 [1] [3]); [zb|zb|zb|apply B; lia|apply B; lia].
Defined.
