(* ===== verification/Io.v ===== *)
(** * Readers, writers and streams

    [lh/core/io/reader.c], [writer.c] and [stream.c] (printing through a writer
    needs the text formatter and is not modelled).  A reader is a callback and
    its context, both opaque; what a callback does is a function on the state [W]
    of the world outside, which is where the bytes come from and go to.  A read
    answers its result and the bytes it stored at the start of the caller's
    buffer. *)
From S2P Require Import Prelude Buffer.

Definition LH_IO_ERROR : Z := -1.
Definition LH_IO_PENDING : Z := -2.

(** [lh_null] is 0. *)
Record lh_io_reader_t := mk_reader { read_cb : Z; reader_context : Z }.
Record lh_io_writer_t := mk_writer { write_cb : Z; writer_context : Z }.
Record lh_io_stream_t := mk_stream { reader : lh_io_reader_t; writer : lh_io_writer_t }.

(** ** [reader.c] *)

Definition lh_io_reader_set_read_cb (self : lh_io_reader_t) (cb : Z) : lh_io_reader_t :=
  mk_reader cb (reader_context self).
Definition lh_io_reader_set_context (self : lh_io_reader_t) (context : Z) : lh_io_reader_t :=
  mk_reader (read_cb self) context.
Definition lh_io_reader_set (self : lh_io_reader_t) (cb context : Z) : lh_io_reader_t :=
  lh_io_reader_set_context (lh_io_reader_set_read_cb self cb) context.
Definition lh_io_reader_init (self : lh_io_reader_t) (cb context : Z) : lh_io_reader_t :=
  lh_io_reader_set self cb context.
Definition lh_io_reader_deinit (self : lh_io_reader_t) : lh_io_reader_t :=
  lh_io_reader_set self 0 0.
Definition lh_io_reader_get_read_cb (self : lh_io_reader_t) : Z := read_cb self.
Definition lh_io_reader_get_context (self : lh_io_reader_t) : Z := reader_context self.
Definition lh_io_reader_assign (self other : lh_io_reader_t) : lh_io_reader_t :=
  lh_io_reader_set self (lh_io_reader_get_read_cb other) (lh_io_reader_get_context other).

(** ** [writer.c] *)

Definition lh_io_writer_set_write_cb (self : lh_io_writer_t) (cb : Z) : lh_io_writer_t :=
  mk_writer cb (writer_context self).
Definition lh_io_writer_set_context (self : lh_io_writer_t) (context : Z) : lh_io_writer_t :=
  mk_writer (write_cb self) context.
Definition lh_io_writer_set (self : lh_io_writer_t) (cb context : Z) : lh_io_writer_t :=
  lh_io_writer_set_context (lh_io_writer_set_write_cb self cb) context.
Definition lh_io_writer_init (self : lh_io_writer_t) (cb context : Z) : lh_io_writer_t :=
  lh_io_writer_set self cb context.
Definition lh_io_writer_deinit (self : lh_io_writer_t) : lh_io_writer_t :=
  lh_io_writer_set self 0 0.
Definition lh_io_writer_get_write_cb (self : lh_io_writer_t) : Z := write_cb self.
Definition lh_io_writer_get_context (self : lh_io_writer_t) : Z := writer_context self.
Definition lh_io_writer_assign (self other : lh_io_writer_t) : lh_io_writer_t :=
  lh_io_writer_set self (lh_io_writer_get_write_cb other) (lh_io_writer_get_context other).

(** ** [stream.c] *)

Definition lh_io_stream_get_reader (self : lh_io_stream_t) : lh_io_reader_t := reader self.
Definition lh_io_stream_set_reader (self : lh_io_stream_t) (r : lh_io_reader_t)
    : lh_io_stream_t := mk_stream r (writer self).
Definition lh_io_stream_get_writer (self : lh_io_stream_t) : lh_io_writer_t := writer self.
Definition lh_io_stream_set_writer (self : lh_io_stream_t) (w : lh_io_writer_t)
    : lh_io_stream_t := mk_stream (reader self) w.
Definition lh_io_stream_set (self : lh_io_stream_t) (r : lh_io_reader_t) (w : lh_io_writer_t)
    : lh_io_stream_t := lh_io_stream_set_writer (lh_io_stream_set_reader self r) w.
Definition lh_io_stream_init (self : lh_io_stream_t) (r : lh_io_reader_t) (w : lh_io_writer_t)
    : lh_io_stream_t := lh_io_stream_set self r w.
Definition lh_io_stream_assign (self other : lh_io_stream_t) : lh_io_stream_t :=
  let r := lh_io_stream_get_reader other in
  let w := lh_io_stream_get_writer other in
  lh_io_stream_set self r w.

(** ** Calls *)

(** The callbacks: what a call to each does to the world. *)
Class Callbacks (W : Type) := {
  call_read : Z -> Z -> W -> Z -> W * (Z * buffer);
  call_write : Z -> Z -> W -> buffer -> W * Z
}.

(** The [n] bytes at [&buf[off]]. *)
Definition slice (buf : buffer) (off n : Z) : outcome buffer :=
  if (0 <=? off) && (0 <=? n) && (off + n <=? len buf)
  then Done (take (Z.to_nat n) (drop (Z.to_nat off) buf)) else Undef.

Section Calls.
Context {W : Type} `{Callbacks W}.

Definition lh_io_reader_read (w : W) (self : lh_io_reader_t) (size : Z)
    : outcome (W * (Z * buffer)) :=
  let cb := lh_io_reader_get_read_cb self in
  _ ← fail_if (cb =? 0) lh_runtime_error_code_invalid_argument;
  mret (call_read cb (lh_io_reader_get_context self) w size).
(** The bytes read are stored over [scratch] and dropped. *)
Fixpoint drain_loop (fuel : nat) (w : W) (self : lh_io_reader_t) (scratch : buffer)
    (capacity : Z) : outcome (W * Z) :=
  match fuel with
  | O => Undef
  | S fuel =>
    '(w, (result, bytes)) ← lh_io_reader_read w self capacity;
    scratch ← copy_bytes scratch 0 bytes (len bytes);
    if result <=? 0 then mret (w, result) else drain_loop fuel w self scratch capacity
  end.
Definition lh_io_reader_drain (fuel : nat) (w : W) (self : lh_io_reader_t) (scratch : buffer)
    (capacity : Z) : outcome (W * Z) :=
  _ ← fail_if (capacity =? 0) lh_runtime_error_code_invalid_range;
  drain_loop fuel w self scratch capacity.

Definition lh_io_writer_write (w : W) (self : lh_io_writer_t) (buf : buffer)
    : outcome (W * Z) :=
  let cb := lh_io_writer_get_write_cb self in
  _ ← fail_if (cb =? 0) lh_runtime_error_code_invalid_argument;
  mret (call_write cb (lh_io_writer_get_context self) w buf).
(** [p] is the offset of the pointer in [buf]. *)
Fixpoint write_all_loop (fuel : nat) (w : W) (self : lh_io_writer_t) (buf : buffer)
    (p left : Z) : outcome (W * bool) :=
  match fuel with
  | O => Undef
  | S fuel =>
    if negb (left >? 0) then mret (w, true) else
    bytes ← slice buf p left;
    '(w, r) ← lh_io_writer_write w self bytes;
    let n := u64 r in
    if r <=? 0 then mret (w, false) else
    write_all_loop fuel w self buf (p + n) (u64 (left - n))
  end.
Definition lh_io_writer_write_all (w : W) (self : lh_io_writer_t) (buf : option buffer)
    (size : Z) : outcome (W * bool) :=
  if size =? 0 then mret (w, true) else
  match buf with
  | None => Fault lh_runtime_error_code_null_pointer
  | Some buf => write_all_loop (S (Z.to_nat size)) w self buf 0 size
  end.

Definition lh_io_stream_read (w : W) (self : lh_io_stream_t) (size : Z)
    : outcome (W * (Z * buffer)) :=
  lh_io_reader_read w (lh_io_stream_get_reader self) size.
Definition lh_io_stream_write (w : W) (self : lh_io_stream_t) (buf : buffer)
    : outcome (W * Z) :=
  lh_io_writer_write w (lh_io_stream_get_writer self) buf.
End Calls.

(** ** What the transfer loops promise *)

(** A writer that takes some prefix of what it is given, or nothing. *)
Class Sink (W : Type) `{Callbacks W} := {
  accepted : W -> buffer;
  sink_law cb context w buf w' r :
    call_write cb context w buf = (w', r) ->
    (r <= 0 /\ accepted w' = accepted w) \/
    (0 < r <= len buf /\ accepted w' = accepted w ++ take (Z.to_nat r) buf)
}.
(** A reader that ends: [chunks] bounds the reads still to come. *)
Class Source (W : Type) `{Callbacks W} := {
  chunks : W -> nat;
  source_law cb context w size w' r bytes :
    call_read cb context w size = (w', (r, bytes)) ->
    len bytes = Z.max 0 r /\ r <= size /\ (r <= 0 \/ (chunks w' < chunks w)%nat)
}.

Section Loops.
Context {W : Type} `{Callbacks W}.

Lemma write_all_loop_spec `{!Sink W} self buf size : forall fuel w p,
  write_cb self <> 0 -> 0 <= p <= size -> size <= len buf -> is_u64 size ->
  size - p < Z.of_nat fuel ->
  exists w' ok k,
    write_all_loop fuel w self buf p (size - p) = Done (w', ok) /\ p <= k <= size /\
    (ok = true <-> k = size) /\
    accepted w' = accepted w ++ take (Z.to_nat (k - p)) (drop (Z.to_nat p) buf).
Proof.
  induction fuel as [|fuel IH]; intros w p Hcb Hp Hs Hu Hf; [lia|].
  cbn [write_all_loop]. destruct (Z.gtb_spec (size - p) 0) as [Hlt|]; cbn [negb].
  2:{ exists w, true, size. split; [done|]. split; [lia|]. split; [lia|].
      replace (size - p) with 0 by lia. by rewrite app_nil_r. }
  unfold slice. rewrite !(proj2 (Z.leb_le _ _)) by lia. cbn [andb]. rewrite bind_done.
  unfold lh_io_writer_write, lh_io_writer_get_write_cb, fail_if.
  rewrite (proj2 (Z.eqb_neq _ _)) by done. rewrite bind_done.
  destruct (call_write _ _ w _) as [w1 r] eqn:E. cbn [mret outcome_ret].
  rewrite bind_done. apply sink_law in E. destruct (Z.leb_spec r 0).
  { exists w1, false, p. split; [done|]. split; [lia|]. split; [lia|].
    destruct E as [[_ ->]|[? _]]; [|lia]. rewrite Z.sub_diag. by rewrite app_nil_r. }
  destruct E as [[? _]|[Hr Ha]]; [lia|].
  rewrite length_take, length_drop in Hr. cint.
  replace (size - p - r) with (size - (p + r)) by lia.
  destruct (IH w1 (p + r)) as (w' & ok & k & -> & Hk & Hok & Hacc); [done|lia|lia|done|lia|].
  exists w', ok, k. split; [done|]. split; [lia|]. split; [done|].
  rewrite Hacc, Ha, <-app_assoc. f_equal. rewrite take_take.
  replace (Z.to_nat (p + r)) with (Z.to_nat p + Z.to_nat r)%nat by lia.
  rewrite <-drop_drop. replace (Z.to_nat r `min` Z.to_nat (size - p))%nat with (Z.to_nat r) by lia.
  replace (Z.to_nat (k - p)) with (Z.to_nat r + Z.to_nat (k - (p + r)))%nat by lia.
  by rewrite take_take_drop.
Qed.

(** Writing all of a buffer through a writer that may take less than
    it is offered terminates; whatever was taken is a prefix of the buffer, in
    order and without repetition, and the answer is true exactly when that is
    the whole of it. *)
Theorem write_all_takes_a_prefix `{!Sink W} w self buf size :
  write_cb self <> 0 -> 0 <= size <= len buf -> is_u64 size ->
  exists w' ok k,
    lh_io_writer_write_all w self (Some buf) size = Done (w', ok) /\
    0 <= k <= size /\ (ok = true <-> k = size) /\
    accepted w' = accepted w ++ take (Z.to_nat k) buf.
Proof.
  intros Hcb Hs Hu. unfold lh_io_writer_write_all. destruct (Z.eqb_spec size 0) as [->|].
  { exists w, true, 0. split; [done|]. split; [lia|]. split; [done|]. by rewrite app_nil_r. }
  destruct (write_all_loop_spec self buf size (S (Z.to_nat size)) w 0)
    as (w' & ok & k & Hrun & Hk & Hok & Ha); [done|lia..|done|lia|].
  rewrite !Z.sub_0_r in *. exists w', ok, k. done.
Qed.

Lemma drain_loop_ends `{!Source W} self (scratch : buffer) capacity : forall fuel w (b : buffer),
  read_cb self <> 0 -> capacity <= len scratch -> length b = length scratch ->
  0 < capacity -> (chunks w < fuel)%nat ->
  exists w' r, drain_loop fuel w self b capacity = Done (w', r) /\ r <= 0.
Proof.
  induction fuel as [|fuel IH]; intros w b Hcb Hc Hl Hp Hf; [lia|].
  cbn [drain_loop]. unfold lh_io_reader_read, lh_io_reader_get_read_cb, fail_if.
  rewrite (proj2 (Z.eqb_neq _ _)) by done. rewrite bind_done.
  destruct (call_read _ _ w capacity) as [w1 [r bytes]] eqn:E. cbn [mret outcome_ret].
  rewrite bind_done. apply source_law in E as (Hb & Hr & Hch).
  rewrite copy_ok by lia. rewrite bind_done. destruct (Z.leb_spec r 0).
  { exists w1, r. done. }
  apply IH; [done..| |done|lia].
  rewrite Z.add_0_l, !length_app, !length_take, length_drop. lia.
Qed.
End Loops.

(** A sink that takes at most two bytes a call. *)
Module Two.
#[export] Instance callbacks : Callbacks (list Z) := {
  call_read _ _ w _ := (w, (0, []));
  call_write _ _ w buf := (w ++ take 2 buf, Z.min 2 (len buf)) }.
#[export] Program Instance sink : Sink (list Z) := { accepted w := w }.
Next Obligation.
  intros cb context w buf w' r [= <- <-]. destruct buf as [|x buf].
  - left. by rewrite take_nil, app_nil_r.
  - right. split; [simpl length; lia|]. f_equal.
    destruct buf; [done|]. cbn [length]. rewrite Z.min_l by lia. done.
Qed.
End Two.
Lemma write_all_takes_a_prefix_witness :
  exists w' ok k,
    lh_io_writer_write_all (H := Two.callbacks) [9] (mk_writer 1 0) (Some [1; 2; 3; 4; 5]) 5 = Done (w', ok) /\
    0 <= k <= 5 /\ (ok = true <-> k = 5) /\ w' = [9] ++ take (Z.to_nat k) [1; 2; 3; 4; 5].
Proof.
  apply (write_all_takes_a_prefix (Sink0 := Two.sink) [9] (mk_writer 1 0) [1; 2; 3; 4; 5] 5);
    [discriminate | simpl; lia | zb].
Defined.
