(* ===== verification/Digits.v ===== *)
(** * Numbers as text: the code

    [lh/core/char/digit.h] and [xdigit.h], [lh/core/str/parse/] [uint.c], [ullong.c],
    [sllong.c], [radix.c] and [hex.c], and [lh/core/str/format/] [uint.c], [sint.c],
    [ullong.c], [sllong.c], [hex.c] and [put.c].  A character is the value of its byte:
    the code compares characters with ASCII ones only, which gives the same answer
    whether [char] is signed or not.  A text is a pointer and a size, the pointer an
    [option]; an out-parameter goes in and comes out.  The proofs are in
    [DigitsProofs]. *)
From S2P Require Import Prelude Buffer Bytes.

(** [p + n]. *)
Definition ptr_add (p : option buffer) (n : Z) : option buffer := drop (Z.to_nat n) <$> p.
(** A call that fills [b + n]: what it leaves there, with the bytes before. *)
Definition at_offset {A} (b : buffer) (n : Z) (f : buffer -> outcome (buffer * A))
    : outcome (buffer * A) :=
  '(tail, r) ← f (drop (Z.to_nat n) b);
  mret (take (Z.to_nat n) b ++ tail, r).

(** ** Characters *)

Definition lh_char_map_minus : Z := 45.
Definition lh_char_map_digit_0 : Z := 48.
Definition lh_char_map_digit_9 : Z := 57.
Definition lh_char_map_capital_a : Z := 65.
Definition lh_char_map_capital_f : Z := 70.
Definition lh_char_map_capital_z : Z := 90.
Definition lh_char_map_small_a : Z := 97.
Definition lh_char_map_small_f : Z := 102.
Definition lh_char_map_small_z : Z := 122.
Definition LH_CHAR_DIGIT_RADIX : Z := 10.
Definition LH_CHAR_XDIGIT_RADIX : Z := 16.

Definition lh_char_is_digit (ch : Z) : bool :=
  (ch >=? lh_char_map_digit_0) && (ch <=? lh_char_map_digit_9).
Definition lh_char_to_digit (ch : Z) : outcome Z :=
  _ ← fail_if (negb (lh_char_is_digit ch)) lh_runtime_error_code_invalid_argument;
  mret (u8 (ch - lh_char_map_digit_0)).
Definition lh_char_from_digit (digit : Z) : outcome Z :=
  _ ← fail_if (digit >? 9) lh_runtime_error_code_invalid_argument;
  mret (lh_char_map_digit_0 + digit).
Definition lh_char_is_upper (ch : Z) : bool :=
  (ch >=? lh_char_map_capital_a) && (ch <=? lh_char_map_capital_z).
Definition lh_char_is_lower (ch : Z) : bool :=
  (ch >=? lh_char_map_small_a) && (ch <=? lh_char_map_small_z).
Definition lh_char_is_xdigit (ch : Z) : bool :=
  lh_char_is_digit ch || (lh_char_is_lower ch && (ch <=? lh_char_map_small_f))
  || (lh_char_is_upper ch && (ch <=? lh_char_map_capital_f)).
Definition lh_char_to_xdigit (ch : Z) : outcome Z :=
  _ ← fail_if (negb (lh_char_is_xdigit ch)) lh_runtime_error_code_invalid_argument;
  if lh_char_is_digit ch then lh_char_to_digit ch else
  if lh_char_is_lower ch then mret (u8 (ch - lh_char_map_small_a + 10)) else
  mret (u8 (ch - lh_char_map_capital_a + 10)).
Definition lh_char_is_radix_digit (ch radix : Z) : outcome bool :=
  _ ← fail_if (radix >? LH_CHAR_XDIGIT_RADIX) lh_runtime_error_code_invalid_argument;
  if lh_char_is_xdigit ch then d ← lh_char_to_xdigit ch; mret (d <? radix) else mret false.
Definition lh_char_from_xdigit (digit : Z) (uppercase : bool) : outcome Z :=
  _ ← fail_if (digit >? 15) lh_runtime_error_code_invalid_argument;
  if digit <? 10 then lh_char_from_digit digit else
  mret ((if uppercase then lh_char_map_capital_a else lh_char_map_small_a) + (digit - 10)).

(** [*value = *value * radix + digit] unless it overflows the type. *)
Definition lh_char_digit_accumulate_radix (value digit radix : Z) : outcome (Z * bool) :=
  _ ← fail_if (digit >=? radix) lh_runtime_error_code_invalid_argument;
  if value >? u32 (LH_UINT_T_MAX - digit) / radix then mret (value, false)
  else mret (u32 (u32 (value * radix) + digit), true).
Definition lh_char_digit_accumulate (value digit : Z) : outcome (Z * bool) :=
  lh_char_digit_accumulate_radix value digit LH_CHAR_DIGIT_RADIX.
Definition lh_char_digit_accumulate_ullong (value digit : Z) : outcome (Z * bool) :=
  _ ← fail_if (digit >=? LH_CHAR_DIGIT_RADIX) lh_runtime_error_code_invalid_argument;
  if value >? u64 (LH_USIZE_T_MAX - digit) / LH_CHAR_DIGIT_RADIX then mret (value, false)
  else mret (u64 (u64 (value * LH_CHAR_DIGIT_RADIX) + digit), true).
Definition lh_char_digit_accumulate_radix_ullong (value digit radix : Z) : outcome (Z * bool) :=
  _ ← fail_if (digit >=? radix) lh_runtime_error_code_invalid_argument;
  if value >? u64 (LH_USIZE_T_MAX - digit) / radix then mret (value, false)
  else mret (u64 (u64 (value * radix) + digit), true).
Definition lh_char_xdigit_accumulate (value digit : Z) : outcome (Z * bool) :=
  lh_char_digit_accumulate_radix value digit LH_CHAR_XDIGIT_RADIX.
(** The digit, and the value without it. *)
Definition lh_char_digit_extract (value radix : Z) : Z * Z := (u8 (value mod radix), value / radix).

(** ** Parsing

    The five number parsers have one loop, over different digits. *)
Section Parse.
Variables (is_digit : Z -> outcome bool) (to_digit : Z -> outcome Z)
  (accumulate : Z -> Z -> outcome (Z * bool)).

Fixpoint parse_loop (fuel : nat) (str : buffer) (str_size max value pos : Z)
    : outcome (option (Z * Z)) :=
  match fuel with
  | O => Undef
  | S fuel =>
    if pos <? str_size then
      ch ← load str pos;
      more ← is_digit ch;
      if more : bool then
        digit ← to_digit ch;
        '(value, fits) ← accumulate value digit;
        if negb fits then mret None else
        if value >? max then mret None else
        parse_loop fuel str str_size max value (u64 (pos + 1))
      else mret (Some (value, pos))
    else mret (Some (value, pos))
  end.
(** The whole text has to be digits. *)
Definition parse_digits (str : option buffer) (str_size max : Z) (out : option Z)
    : outcome (option Z * bool) :=
  str ← assert_set str;
  o ← assert_set out;
  if str_size =? 0 then mret (out, false) else
  parsed ← parse_loop (S (Z.to_nat str_size)) str str_size max 0 0;
  match parsed with
  | None => mret (out, false)
  | Some (value, pos) =>
    if negb (pos =? str_size) then mret (out, false) else mret (Some value, true)
  end.
(** The number of digits at the start of the text. *)
Fixpoint prefix_loop (fuel : nat) (str : buffer) (str_size n : Z) : outcome Z :=
  match fuel with
  | O => Undef
  | S fuel =>
    if n <? str_size then
      ch ← load str n;
      more ← is_digit ch;
      if more : bool then prefix_loop fuel str str_size (u64 (n + 1)) else mret n
    else mret n
  end.
End Parse.

Definition decimal_digit (ch : Z) : outcome bool := mret (lh_char_is_digit ch).
Definition hex_digit (ch : Z) : outcome bool := mret (lh_char_is_xdigit ch).

Definition lh_str_ptr_parse_uint_digits (str : option buffer) (str_size max : Z)
    (out : option Z) : outcome (option Z * bool) :=
  parse_digits decimal_digit lh_char_to_digit lh_char_digit_accumulate str str_size max out.
(** No leading zero. *)
Definition lh_str_ptr_parse_uint (str : option buffer) (str_size max : Z) (out : option Z)
    : outcome (option Z * bool) :=
  s ← assert_set str;
  zero ← (if str_size >? 1 then c ← load s 0; mret (c =? lh_char_map_digit_0) else mret false);
  if zero : bool then mret (out, false) else lh_str_ptr_parse_uint_digits str str_size max out.
Definition lh_str_ptr_parse_uint_prefix (str : option buffer) (str_size max : Z)
    (out : option Z) : outcome (option Z * Z) :=
  s ← assert_set str;
  n ← prefix_loop decimal_digit (S (Z.to_nat str_size)) s str_size 0;
  if n =? 0 then mret (out, 0) else
  '(out, ok) ← lh_str_ptr_parse_uint str n max out;
  mret (out, if ok : bool then n else 0).

Definition lh_str_ptr_parse_ullong_digits (str : option buffer) (str_size max : Z)
    (out : option Z) : outcome (option Z * bool) :=
  parse_digits decimal_digit lh_char_to_digit lh_char_digit_accumulate_ullong
    str str_size max out.
Definition lh_str_ptr_parse_ullong (str : option buffer) (str_size max : Z) (out : option Z)
    : outcome (option Z * bool) :=
  s ← assert_set str;
  zero ← (if str_size >? 1 then c ← load s 0; mret (c =? lh_char_map_digit_0) else mret false);
  if zero : bool then mret (out, false) else lh_str_ptr_parse_ullong_digits str str_size max out.

Definition lh_str_ptr_parse_sllong (str : option buffer) (str_size min max : Z)
    (out : option Z) : outcome (option Z * bool) :=
  let magnitude_max := 9223372036854775808 in
  s ← assert_set str;
  _ ← assert_set out;
  negative ←
    (if str_size >? 0 then c ← load s 0; mret (c =? lh_char_map_minus) else mret false);
  value ←
    (if negative : bool then
       '(magnitude, ok) ←
         lh_str_ptr_parse_ullong (ptr_add str 1) (str_size - 1) magnitude_max (Some 0);
       magnitude ← assert_set magnitude;
       if negb ok then mret None else
       if magnitude =? 0 then mret (Some 0) else
       v ← s64 (- (magnitude - 1));
       v ← s64 (v - 1);
       mret (Some v)
     else
       '(magnitude, ok) ← lh_str_ptr_parse_ullong str str_size (magnitude_max - 1) (Some 0);
       magnitude ← assert_set magnitude;
       mret (if ok : bool then Some magnitude else None));
  match value with
  | None => mret (out, false)
  | Some value =>
    if (value <? min) || (value >? max) then mret (out, false) else mret (Some value, true)
  end.

Definition lh_str_ptr_count_radix_digits (str : option buffer) (str_size radix : Z)
    : outcome Z :=
  s ← assert_set str;
  prefix_loop (fun ch => lh_char_is_radix_digit ch radix) (S (Z.to_nat str_size)) s str_size 0.
Definition lh_str_ptr_parse_radix (str : option buffer) (str_size radix max : Z)
    (out : option Z) : outcome (option Z * bool) :=
  parse_digits (fun ch => lh_char_is_radix_digit ch radix) lh_char_to_xdigit
    (fun value digit => lh_char_digit_accumulate_radix value digit radix) str str_size max out.
Definition lh_str_ptr_parse_radix_ullong (str : option buffer) (str_size radix max : Z)
    (out : option Z) : outcome (option Z * bool) :=
  parse_digits (fun ch => lh_char_is_radix_digit ch radix) lh_char_to_xdigit
    (fun value digit => lh_char_digit_accumulate_radix_ullong value digit radix)
    str str_size max out.

Definition lh_str_ptr_parse_hex (str : option buffer) (str_size max : Z) (out : option Z)
    : outcome (option Z * bool) :=
  parse_digits hex_digit lh_char_to_xdigit lh_char_xdigit_accumulate str str_size max out.
Definition lh_str_ptr_parse_hex_prefix (str : option buffer) (str_size max : Z)
    (out : option Z) : outcome (option Z * Z) :=
  s ← assert_set str;
  n ← prefix_loop hex_digit (S (Z.to_nat str_size)) s str_size 0;
  if n =? 0 then mret (out, 0) else
  '(out, ok) ← lh_str_ptr_parse_hex str n max out;
  mret (out, if ok : bool then n else 0).

(** The text is checked, then converted: [n] pairs from pair [i] on. *)
Fixpoint pairs_check (n : nat) (i : Z) (str : buffer) : outcome bool :=
  match n with
  | O => mret true
  | S n =>
    a ← load str (u64 (i * 2));
    if negb (lh_char_is_xdigit a) then mret false else
    b ← load str (u64 (u64 (i * 2) + 1));
    if negb (lh_char_is_xdigit b) then mret false else pairs_check n (i + 1) str
  end.
Fixpoint pairs_store (n : nat) (i : Z) (str out : buffer) : outcome buffer :=
  match n with
  | O => mret out
  | S n =>
    a ← load str (u64 (i * 2));
    high ← lh_char_to_xdigit a;
    b ← load str (u64 (u64 (i * 2) + 1));
    low ← lh_char_to_xdigit b;
    out ← put out i (u8 (Z.lor (Z.shiftl high 4) low));
    pairs_store n (i + 1) str out
  end.
Definition lh_str_ptr_parse_hex_bytes (str : option buffer) (str_size : Z)
    (out : option buffer) (out_size : Z) : outcome (option buffer * bool) :=
  s ← assert_set str;
  o ← assert_set out;
  if (out_size =? 0) || (str_size <? u64 (out_size * 2)) then mret (out, false) else
  good ← pairs_check (Z.to_nat out_size) 0 s;
  if negb good then mret (out, false) else
  o ← pairs_store (Z.to_nat out_size) 0 s o;
  mret (Some o, true).

(** ** Formatting *)

Definition LH_STR_FORMAT_UINT_DIGITS_MAX : Z := 12.

(** The digits, last one first. *)
Fixpoint extract_loop (fuel : nat) (value : Z) (digits : buffer) (digit_count : Z)
    : outcome (buffer * Z) :=
  match fuel with
  | O => Undef
  | S fuel =>
    let '(digit, value) := lh_char_digit_extract value LH_CHAR_DIGIT_RADIX in
    ch ← lh_char_from_digit digit;
    digits ← put digits digit_count ch;
    let digit_count := u64 (digit_count + 1) in
    if value >? 0 then extract_loop fuel value digits digit_count
    else mret (digits, digit_count)
  end.
(** [lh_memory_std_copy_rev] stores the bytes in the reverse order. *)
Definition lh_str_ptr_format_uint (value : Z) (str : option buffer) (str_size : Z)
    : outcome (option buffer * Z) :=
  s ← assert_set str;
  '(digits, digit_count) ←
    extract_loop (Z.to_nat LH_STR_FORMAT_UINT_DIGITS_MAX) value
      (local LH_STR_FORMAT_UINT_DIGITS_MAX) 0;
  if digit_count >? str_size then mret (str, 0) else
  s ← copy_bytes s 0 (rev (take (Z.to_nat digit_count) digits)) digit_count;
  mret (Some s, digit_count).

(** [str] after a call that filled [str + n]. *)
Definition fill_from (s : buffer) (n : Z) (f : option buffer -> outcome (option buffer * Z))
    : outcome (buffer * Z) :=
  at_offset s n (fun tail => '(tail, r) ← f (Some tail); tail ← assert_set tail; mret (tail, r)).

(** [lh_math_sub(0U, value)] wraps: the magnitude of a negative value. *)
Definition lh_str_ptr_format_sint (value : Z) (str : option buffer) (str_size : Z)
    : outcome (option buffer * Z) :=
  s ← assert_set str;
  if negb (value <? 0) then lh_str_ptr_format_uint (u32 value) str str_size else
  if str_size =? 0 then mret (str, 0) else
  s ← put s 0 lh_char_map_minus;
  '(s, written) ←
    fill_from s 1 (fun p => lh_str_ptr_format_uint (u32 (0 - u32 value)) p (u64 (str_size - 1)));
  mret (Some s, if written =? 0 then 0 else u64 (written + 1)).

Definition LH_STR_FORMAT_ULLONG_CHUNK : Z := 1000000000.
Definition LH_STR_FORMAT_ULLONG_CHUNK_DIGITS : Z := 9.
Definition LH_STR_FORMAT_ULLONG_PARTS_MAX : Z := 3.

(** The value in base [10^9], least part first. *)
Fixpoint parts_loop (fuel : nat) (x : Z) (parts : list Z) (count : Z) : outcome (list Z * Z) :=
  match fuel with
  | O => Undef
  | S fuel =>
    parts ← put parts count (u32 (x mod LH_STR_FORMAT_ULLONG_CHUNK));
    let count := u64 (count + 1) in
    let x := x / LH_STR_FORMAT_ULLONG_CHUNK in
    if (x >? 0) && (count <? LH_STR_FORMAT_ULLONG_PARTS_MAX)
    then parts_loop fuel x parts count else mret (parts, count)
  end.
(** The parts below the first, each padded to nine digits. *)
Fixpoint chunks_loop (fuel : nat) (parts : list Z) (i : Z) (s : buffer) (str_size written : Z)
    : outcome (buffer * Z) :=
  match fuel with
  | O => Undef
  | S fuel =>
    if i >? 1 then
      let i := u64 (i - 1) in
      part ← load parts (u64 (i - 1));
      '(digits, n) ← lh_str_ptr_format_uint part (Some (local LH_STR_FORMAT_ULLONG_CHUNK_DIGITS))
                       LH_STR_FORMAT_ULLONG_CHUNK_DIGITS;
      digits ← assert_set digits;
      if n =? 0 then mret (s, 0) else
      let pad := u64 (LH_STR_FORMAT_ULLONG_CHUNK_DIGITS - n) in
      if u64 (written + LH_STR_FORMAT_ULLONG_CHUNK_DIGITS) >? str_size then mret (s, 0) else
      s ← set_bytes s written lh_char_map_digit_0 pad;
      s ← copy_bytes s (u64 (written + pad)) digits n;
      chunks_loop fuel parts i s str_size (u64 (written + LH_STR_FORMAT_ULLONG_CHUNK_DIGITS))
    else mret (s, written)
  end.
Definition lh_str_ptr_format_ullong (value : Z) (str : option buffer) (str_size : Z)
    : outcome (option buffer * Z) :=
  _ ← assert_set str;
  '(parts, count) ← parts_loop (Z.to_nat LH_STR_FORMAT_ULLONG_PARTS_MAX) value
                      (local LH_STR_FORMAT_ULLONG_PARTS_MAX) 0;
  part ← load parts (u64 (count - 1));
  '(str, written) ← lh_str_ptr_format_uint part str str_size;
  if written =? 0 then mret (str, 0) else
  s ← assert_set str;
  '(s, written) ← chunks_loop (S (Z.to_nat count)) parts count s str_size written;
  mret (Some s, written).

Definition lh_str_ptr_format_sllong (value : Z) (str : option buffer) (str_size : Z)
    : outcome (option buffer * Z) :=
  s ← assert_set str;
  if negb (value <? 0) then lh_str_ptr_format_ullong (u64 value) str str_size else
  if str_size =? 0 then mret (str, 0) else
  s ← put s 0 lh_char_map_minus;
  '(s, written) ←
    fill_from s 1 (fun p => lh_str_ptr_format_ullong (u64 (0 - u64 value)) p (u64 (str_size - 1)));
  mret (Some s, if written =? 0 then 0 else u64 (written + 1)).

Definition LH_STR_FORMAT_HEX_RADIX : Z := 16.
Definition hex_alphabet (uppercase : bool) : buffer :=
  [48; 49; 50; 51; 52; 53; 54; 55; 56; 57]
  ++ (if uppercase then [65; 66; 67; 68; 69; 70] else [97; 98; 99; 100; 101; 102]).
(** The digits, last one first, each at its place. *)
Fixpoint hex_loop (fuel : nat) (alphabet : buffer) (value i : Z) (s : buffer) : outcome buffer :=
  match fuel with
  | O => Undef
  | S fuel =>
    let i := u64 (i - 1) in
    let '(digit, value) := lh_char_digit_extract value LH_STR_FORMAT_HEX_RADIX in
    ch ← load alphabet digit;
    s ← put s i ch;
    if i >? 0 then hex_loop fuel alphabet value i s else mret s
  end.
(** [lh_bit_scan_reverse_u32] is the index of the highest set bit. *)
Definition lh_str_ptr_format_hex (value : Z) (uppercase : bool) (str : option buffer)
    (str_size : Z) : outcome (option buffer * Z) :=
  let digit_count := if value =? 0 then 1 else Z.log2 value / 4 + 1 in
  s ← assert_set str;
  if digit_count >? str_size then mret (str, 0) else
  s ← hex_loop (Z.to_nat digit_count) (hex_alphabet uppercase) value digit_count s;
  mret (Some s, digit_count).
(** As many whole pairs as the room has, the terminator counted in. *)
Fixpoint hex_bytes_loop (n : nat) (i : Z) (alphabet bytes s : buffer) (room written : Z)
    : outcome (buffer * Z) :=
  match n with
  | O => mret (s, written)
  | S n =>
    byte ← load bytes i;
    if u64 (written + 2) >? room then mret (s, written) else
    h ← load alphabet (Z.land (Z.shiftr byte 4) 0x0f);
    s ← put s written h;
    l ← load alphabet (Z.land byte 0x0f);
    s ← put s (u64 (written + 1)) l;
    hex_bytes_loop n (i + 1) alphabet bytes s room (u64 (written + 2))
  end.
Definition lh_str_ptr_format_hex_bytes (bytes : option buffer) (size : Z) (str : option buffer)
    (str_size : Z) (uppercase : bool) : outcome (option buffer * Z) :=
  s ← assert_set str;
  match bytes with
  | None => mret (str, 0)
  | Some bytes =>
    if (size =? 0) || (str_size =? 0) then mret (str, 0) else
    let room := u64 (str_size - 1) in
    '(s, written) ← hex_bytes_loop (Z.to_nat size) 0 (hex_alphabet uppercase) bytes s room 0;
    s ← put s written 0;
    mret (Some s, written)
  end.

Definition lh_str_ptr_format_put (str : option buffer) (str_size : Z) (text : buffer) (n : Z)
    : outcome (option buffer * Z) :=
  s ← assert_set str;
  if n >? str_size then mret (str, 0) else
  s ← copy_bytes s 0 text n;
  mret (Some s, n).
