(* ===== verification/DigitsProofs.v ===== *)
(** * Numbers as text: correctness

    A text is read as a numeral by Horner's rule; the parsers accept exactly the
    numerals of their radix that do not exceed the limit, without overflow, and the
    formatters write the one decimal text without a leading zero, so that the two
    are inverse. *)
From S2P Require Import Prelude Buffer Bytes Digits.

(** ** Numerals *)

(** The value of a text by Horner's rule, if every character is a digit. *)
Fixpoint horner (val : Z -> option Z) (r acc : Z) (s : list Z) : option Z :=
  match s with
  | [] => Some acc
  | ch :: s => match val ch with Some d => horner val r (acc * r + d) s | None => None end
  end.
Definition numeral (val : Z -> option Z) (r : Z) (s : list Z) : option Z := horner val r 0 s.
Definition xvalue (ch : Z) : option Z :=
  if lh_char_is_digit ch then Some (ch - 48) else
  if (97 <=? ch) && (ch <=? 102) then Some (ch - 87) else
  if (65 <=? ch) && (ch <=? 70) then Some (ch - 55) else None.
Definition dvalue (ch : Z) : option Z := if lh_char_is_digit ch then Some (ch - 48) else None.
(** The digits of a radix up to 16. *)
Definition rvalue (r ch : Z) : option Z := d ← xvalue ch; if d <? r then Some d else None.

Lemma horner_app val r s t : forall acc,
  horner val r acc (s ++ t) = v ← horner val r acc s; horner val r v t.
Proof. induction s as [|c s IH]; intros acc; simpl; [done|]. by destruct (val c). Qed.
Lemma horner_ge val r s : forall acc v,
  (forall c d, val c = Some d -> 0 <= d) -> 2 <= r -> 0 <= acc ->
  horner val r acc s = Some v -> acc <= v.
Proof.
  induction s as [|c s IH]; intros acc v Hd Hr Ha; simpl; [intros [= ->]; lia|].
  destruct (val c) as [d|] eqn:E; [|done]. apply Hd in E as ?. intros Hh.
  apply IH in Hh; [nia|done|done|nia].
Qed.

Section Loop.
Variables (is_digit : Z -> outcome bool) (to_digit : Z -> outcome Z)
  (accumulate : Z -> Z -> outcome (Z * bool)) (val : Z -> option Z) (r M : Z).
Hypothesis r_ok : 2 <= r.
Hypothesis digit_ok : forall ch, is_digit ch = Done (bool_decide (is_Some (val ch))).
Hypothesis to_ok : forall ch d, val ch = Some d -> to_digit ch = Done d /\ 0 <= d < r.
Hypothesis acc_ok : forall v d, 0 <= v <= M -> 0 <= d < r ->
  accumulate v d = Done (if v * r + d <=? M then (v * r + d, true) else (v, false)).

Lemma val_nonneg c d : val c = Some d -> 0 <= d.
Proof using to_ok. intros H. apply to_ok in H. lia. Qed.

Lemma parse_loop_spec str size max : forall fuel k v,
  size <= len str -> is_u64 size -> Z.of_nat k <= size -> size - Z.of_nat k < Z.of_nat fuel ->
  0 <= v <= max -> max <= M ->
  exists res, parse_loop is_digit to_digit accumulate fuel str size max v (Z.of_nat k) = Done res /\
  let rest := horner val r v (drop k (take (Z.to_nat size) str)) in
  match res with
  | Some (w, p) => (p = size /\ rest = Some w /\ w <= max) \/ (p <> size /\ rest = None)
  | None => match rest with Some w => max < w | None => True end
  end.
Proof using r_ok digit_ok to_ok acc_ok.
  induction fuel as [|fuel IH]; intros k v Hs Hu Hk Hf Hv Hm; [lia|].
  cbn [parse_loop]. destruct (Z.ltb_spec (Z.of_nat k) size) as [Hlt|].
  2:{ exists (Some (v, Z.of_nat k)). split; [done|]. left. split; [lia|].
      rewrite drop_ge by (rewrite length_take; lia). split; [done|lia]. }
  destruct (lookup_lt_is_Some_2 str k) as [ch Hch]; [lia|].
  rewrite (load_ok _ _ _ Hch), bind_done, digit_ok, bind_done.
  assert (drop k (take (Z.to_nat size) str) = ch :: drop (S k) (take (Z.to_nat size) str)) as Hd.
  { apply drop_S. rewrite lookup_take_lt by lia. done. }
  destruct (val ch) as [d|] eqn:E.
  2:{ rewrite bool_decide_false by (by intros []). exists (Some (v, Z.of_nat k)).
      split; [done|]. right. split; [lia|]. rewrite Hd. simpl. by rewrite E. }
  rewrite bool_decide_true by done. destruct (to_ok _ _ E) as [-> Hdr].
  rewrite bind_done, (acc_ok v d) by lia. cbv zeta. rewrite Hd. cbn [horner]. rewrite E.
  assert (0 <= v * r + d) by nia.
  destruct (Z.leb_spec (v * r + d) M); rewrite bind_done; cbn [negb].
  2:{ exists None. split; [done|]. destruct (horner _ _ _ _) as [w|] eqn:Eh; [|done].
      apply horner_ge in Eh; [lia|apply val_nonneg|done|done]. }
  destruct (Z.gtb_spec (v * r + d) max).
  { exists None. split; [done|]. destruct (horner _ _ _ _) as [w|] eqn:Eh; [|done].
    apply horner_ge in Eh; [lia|apply val_nonneg|done|done]. }
  rewrite u64_id by zb. replace (Z.of_nat k + 1) with (Z.of_nat (S k)) by lia.
  apply IH; lia || done.
Qed.

(** A parser stores and accepts the value of a numeral that is not too large, and
    otherwise leaves its out-parameter alone. *)
Definition accepts (val : Z -> option Z) (r max : Z) (s : list Z) (o : Z) : option Z * bool :=
  match s, numeral val r s with
  | _ :: _, Some v => if v <=? max then (Some v, true) else (Some o, false)
  | _, _ => (Some o, false)
  end.

Lemma parse_digits_spec str size max o :
  0 <= size <= len str -> is_u64 size -> 0 <= max <= M ->
  parse_digits is_digit to_digit accumulate (Some str) size max (Some o)
  = Done (accepts val r max (take (Z.to_nat size) str) o).
Proof using r_ok digit_ok to_ok acc_ok.
  intros Hs Hu Hm. unfold parse_digits, accepts, assert_set. rewrite !bind_done.
  destruct (Z.eqb_spec size 0) as [->|]; [done|].
  destruct (parse_loop_spec str size max (S (Z.to_nat size)) 0 0) as (res & El & Hres); try lia.
  { done. }
  change (Z.of_nat 0) with 0 in El. rewrite El, bind_done. rewrite drop_0 in Hres. cbv zeta in Hres.
  clear El. unfold numeral.
  destruct (take (Z.to_nat size) str) as [|c s] eqn:Et.
  { apply (f_equal length) in Et. rewrite length_take in Et. simpl in Et. lia. }
  destruct res as [[w p]|].
  - destruct Hres as [(-> & -> & Hw)|(Hp & ->)].
    + by rewrite Z.eqb_refl, (proj2 (Z.leb_le _ _)) by done.
    + by rewrite (proj2 (Z.eqb_neq _ _)) by done.
  - destruct (horner _ _ _ _) as [w|]; [|done]. by rewrite (proj2 (Z.leb_gt _ _)) by done.
Qed.
End Loop.

(** ** The digits of each parser *)

Lemma u8_bound ch : 0 <= ch < 256 -> u8 ch = ch.
Proof. intros. apply u8_id. zb. Qed.

Lemma is_digit_spec ch : lh_char_is_digit ch = true <-> 48 <= ch <= 57.
Proof.
  unfold lh_char_is_digit, lh_char_map_digit_0, lh_char_map_digit_9.
  rewrite andb_true_iff, Z.geb_leb, !Z.leb_le. done.
Qed.
Lemma dvalue_spec ch d : dvalue ch = Some d <-> 48 <= ch <= 57 /\ d = ch - 48.
Proof.
  unfold dvalue. destruct (lh_char_is_digit ch) eqn:E.
  - apply is_digit_spec in E. split; [intros [= <-]; lia|intros [_ ->]; done].
  - split; [done|]. intros [H _]. apply is_digit_spec in H. congruence.
Qed.
Lemma decimal_digit_ok ch : decimal_digit ch = Done (bool_decide (is_Some (dvalue ch))).
Proof.
  unfold decimal_digit, dvalue. cbn [mret outcome_ret]. f_equal.
  destruct (lh_char_is_digit ch); [by rewrite bool_decide_true by eauto|].
  by rewrite bool_decide_false by (by intros []).
Qed.
Lemma to_digit_ok ch d : dvalue ch = Some d -> lh_char_to_digit ch = Done d /\ 0 <= d < 10.
Proof.
  intros Hd. apply dvalue_spec in Hd as [Hc ->]. split; [|lia].
  unfold lh_char_to_digit. rewrite (proj2 (is_digit_spec ch)) by done.
  simpl. f_equal. apply u8_id. unfold lh_char_map_digit_0. zb.
Qed.

Lemma xvalue_spec ch d :
  xvalue ch = Some d <->
  (48 <= ch <= 57 /\ d = ch - 48) \/ (97 <= ch <= 102 /\ d = ch - 87) \/
  (65 <= ch <= 70 /\ d = ch - 55).
Proof.
  unfold xvalue. destruct (lh_char_is_digit ch) eqn:E.
  { apply is_digit_spec in E. split; [intros [= <-]; lia|]. intros. f_equal. lia. }
  assert (~ (48 <= ch <= 57)) by (rewrite <- is_digit_spec; congruence).
  destruct (Z.leb_spec 97 ch), (Z.leb_spec ch 102), (Z.leb_spec 65 ch), (Z.leb_spec ch 70); simpl;
    split; try lia; try done; try (intros [= <-]; lia); intros; f_equal; lia.
Qed.
Lemma xvalue_digit ch : lh_char_is_digit ch = true -> xvalue ch = Some (ch - 48).
Proof. unfold xvalue. by intros ->. Qed.
Lemma is_xdigit_spec ch : lh_char_is_xdigit ch = bool_decide (is_Some (xvalue ch)).
Proof.
  unfold lh_char_is_xdigit, xvalue, lh_char_is_lower, lh_char_is_upper, lh_char_map_small_a,
    lh_char_map_small_z, lh_char_map_small_f, lh_char_map_capital_a, lh_char_map_capital_z,
    lh_char_map_capital_f.
  destruct (lh_char_is_digit ch); [by rewrite bool_decide_true by eauto|].
  rewrite !Z.geb_leb.
  destruct (Z.leb_spec 97 ch), (Z.leb_spec ch 102), (Z.leb_spec 65 ch), (Z.leb_spec ch 70),
    (Z.leb_spec ch 122), (Z.leb_spec ch 90); simpl; try lia; try done.
Qed.
Lemma hex_digit_ok ch : hex_digit ch = Done (bool_decide (is_Some (xvalue ch))).
Proof. unfold hex_digit. by rewrite is_xdigit_spec. Qed.
Lemma to_xdigit_ok ch d : xvalue ch = Some d -> lh_char_to_xdigit ch = Done d /\ 0 <= d < 16.
Proof.
  intros Hd. unfold lh_char_to_xdigit. rewrite is_xdigit_spec, bool_decide_true by eauto.
  apply xvalue_spec in Hd as Hx. split; [|lia]. simpl.
  destruct (lh_char_is_digit ch) eqn:E.
  { rewrite xvalue_digit in Hd by done. injection Hd as <-.
    apply is_digit_spec in E as Hc. unfold lh_char_to_digit. rewrite E. simpl.
    f_equal. apply u8_id. unfold lh_char_map_digit_0. zb. }
  assert (~ (48 <= ch <= 57)) by (rewrite <- is_digit_spec; congruence).
  unfold lh_char_is_lower, lh_char_map_small_a, lh_char_map_small_z, lh_char_map_capital_a.
  rewrite Z.geb_leb. destruct Hx as [[]|[[? ->]|[? ->]]]; [lia|..].
  - rewrite !(proj2 (Z.leb_le _ _)) by lia. simpl. f_equal. rewrite u8_id by zb. lia.
  - rewrite (proj2 (Z.leb_gt 97 ch)) by lia. simpl. f_equal. rewrite u8_id by zb. lia.
Qed.
Lemma rvalue_spec r ch d : rvalue r ch = Some d <-> xvalue ch = Some d /\ d < r.
Proof.
  unfold rvalue. destruct (xvalue ch) as [e|]; simpl; [|naive_solver].
  destruct (Z.ltb_spec e r); naive_solver lia.
Qed.
Lemma radix_digit_ok r ch :
  r <= 16 -> lh_char_is_radix_digit ch r = Done (bool_decide (is_Some (rvalue r ch))).
Proof.
  intros Hr. unfold lh_char_is_radix_digit, LH_CHAR_XDIGIT_RADIX, fail_if.
  destruct (Z.gtb_spec r 16); [lia|]. rewrite bind_done, is_xdigit_spec. unfold rvalue.
  destruct (xvalue ch) as [d|] eqn:E.
  - rewrite bool_decide_true by eauto. destruct (to_xdigit_ok ch d E) as [-> _]. simpl.
    by destruct (d <? r).
  - by rewrite bool_decide_false by (by intros []).
Qed.
Lemma to_radix_ok r ch d : rvalue r ch = Some d -> lh_char_to_xdigit ch = Done d /\ 0 <= d < r.
Proof. intros [Hx Hr]%rvalue_spec. apply to_xdigit_ok in Hx. naive_solver lia. Qed.

(** The overflow check before the multiplication is exact. *)
Lemma quotient_check M v d r : 2 <= r -> 0 <= v -> 0 <= d < r -> d <= M ->
  (v >? (M - d) / r) = negb (v * r + d <=? M).
Proof.
  intros Hr Hv Hd HM. destruct (Z.gtb_spec v ((M - d) / r)), (Z.leb_spec (v * r + d) M); try done; exfalso.
  - assert (v <= (M - d) / r) by (apply Z.div_le_lower_bound; nia). lia.
  - assert (v <= (M - d) / r) as Hle by lia.
    assert (r * ((M - d) / r) <= M - d) by (apply Z.mul_div_le; lia). nia.
Qed.
Lemma accumulate_radix_ok r v d : 2 <= r <= 16 -> 0 <= v <= LH_UINT_T_MAX -> 0 <= d < r ->
  lh_char_digit_accumulate_radix v d r
  = Done (if v * r + d <=? LH_UINT_T_MAX then (v * r + d, true) else (v, false)).
Proof.
  intros Hr Hv Hd. unfold lh_char_digit_accumulate_radix, fail_if.
  rewrite Z.geb_leb, (proj2 (Z.leb_gt r d)), bind_done by lia.
  rewrite u32_id by zb. rewrite quotient_check by (unfold LH_UINT_T_MAX in *; lia).
  destruct (Z.leb_spec (v * r + d) LH_UINT_T_MAX); simpl; [|done].
  assert (0 <= v * r) by nia. unfold LH_UINT_T_MAX in *.
  by rewrite (u32_id (v * r)), u32_id by zb.
Qed.
Lemma accumulate_radix_ullong_ok r v d : 2 <= r <= 16 -> 0 <= v <= LH_USIZE_T_MAX -> 0 <= d < r ->
  lh_char_digit_accumulate_radix_ullong v d r
  = Done (if v * r + d <=? LH_USIZE_T_MAX then (v * r + d, true) else (v, false)).
Proof.
  intros Hr Hv Hd. unfold lh_char_digit_accumulate_radix_ullong, fail_if.
  rewrite Z.geb_leb, (proj2 (Z.leb_gt r d)), bind_done by lia.
  rewrite u64_id by zb. rewrite quotient_check by (unfold LH_USIZE_T_MAX in *; lia).
  destruct (Z.leb_spec (v * r + d) LH_USIZE_T_MAX); simpl; [|done].
  assert (0 <= v * r) by nia. unfold LH_USIZE_T_MAX in *.
  by rewrite (u64_id (v * r)), u64_id by zb.
Qed.

(** ** What each parser accepts *)

Lemma parse_uint_digits_spec str size max o :
  0 <= size <= len str -> is_u64 size -> is_u32 max ->
  lh_str_ptr_parse_uint_digits (Some str) size max (Some o)
  = Done (accepts dvalue 10 max (take (Z.to_nat size) str) o).
Proof.
  intros Hs Hu Hm. apply (parse_digits_spec _ _ _ _ _ LH_UINT_T_MAX); try done; try zb.
  - apply decimal_digit_ok.
  - apply to_digit_ok.
  - intros. by apply accumulate_radix_ok.
Qed.
Lemma parse_ullong_digits_spec str size max o :
  0 <= size <= len str -> is_u64 size -> is_u64 max ->
  lh_str_ptr_parse_ullong_digits (Some str) size max (Some o)
  = Done (accepts dvalue 10 max (take (Z.to_nat size) str) o).
Proof.
  intros Hs Hu Hm. apply (parse_digits_spec _ _ _ _ _ LH_USIZE_T_MAX); try done; try zb.
  - apply decimal_digit_ok.
  - apply to_digit_ok.
  - intros. by apply (accumulate_radix_ullong_ok 10).
Qed.
Lemma parse_hex_spec str size max o :
  0 <= size <= len str -> is_u64 size -> is_u32 max ->
  lh_str_ptr_parse_hex (Some str) size max (Some o)
  = Done (accepts xvalue 16 max (take (Z.to_nat size) str) o).
Proof.
  intros Hs Hu Hm. apply (parse_digits_spec _ _ _ _ _ LH_UINT_T_MAX); try done; try zb.
  - apply hex_digit_ok.
  - apply to_xdigit_ok.
  - intros. by apply accumulate_radix_ok.
Qed.
Lemma parse_radix_spec str size r max o :
  2 <= r <= 16 -> 0 <= size <= len str -> is_u64 size -> is_u32 max ->
  lh_str_ptr_parse_radix (Some str) size r max (Some o)
  = Done (accepts (rvalue r) r max (take (Z.to_nat size) str) o).
Proof.
  intros Hr Hs Hu Hm. apply (parse_digits_spec _ _ _ _ _ LH_UINT_T_MAX); try done; try zb.
  - intros. apply radix_digit_ok. lia.
  - apply to_radix_ok.
  - intros. by apply accumulate_radix_ok.
Qed.
Lemma parse_radix_ullong_spec str size r max o :
  2 <= r <= 16 -> 0 <= size <= len str -> is_u64 size -> is_u64 max ->
  lh_str_ptr_parse_radix_ullong (Some str) size r max (Some o)
  = Done (accepts (rvalue r) r max (take (Z.to_nat size) str) o).
Proof.
  intros Hr Hs Hu Hm. apply (parse_digits_spec _ _ _ _ _ LH_USIZE_T_MAX); try done; try zb.
  - intros. apply radix_digit_ok. lia.
  - apply to_radix_ok.
  - intros. by apply accumulate_radix_ullong_ok.
Qed.

(** ** The decimal text of a number *)

(** [s] is a decimal numeral of value [v] without a leading zero. *)
Definition is_decimal (s : list Z) (v : Z) : Prop :=
  s <> [] /\ numeral dvalue 10 s = Some v /\ (head s = Some 48 -> s = [48]).

Lemma numeral_snoc val r s c :
  numeral val r (s ++ [c]) = v ← numeral val r s; d ← val c; Some (v * r + d).
Proof.
  unfold numeral. rewrite horner_app. destruct (horner _ _ _ s); [|done].
  simpl. by destruct (val c).
Qed.
Lemma dvalue_range c d : dvalue c = Some d -> 0 <= d < 10.
Proof. intros [? ->]%dvalue_spec. lia. Qed.
Lemma numeral_nonneg s v : numeral dvalue 10 s = Some v -> 0 <= v.
Proof. intros. by eapply horner_ge; [..|done]; [intros; by eapply dvalue_range| |]. Qed.
Lemma decimal_positive s v :
  is_decimal s v -> s <> [48] -> 1 <= v.
Proof.
  intros (Hne & Hv & Hz) Hs. destruct s as [|c s]; [done|].
  unfold numeral in Hv. cbn [horner] in Hv. destruct (dvalue c) as [d|] eqn:E; [|done].
  apply dvalue_spec in E as [? ->].
  assert (c <> 48) by (intros ->; by apply Hs, Hz).
  apply horner_ge in Hv; [lia|intros; by eapply dvalue_range|lia|lia].
Qed.
Lemma decimal_init s c v :
  is_decimal (s ++ [c]) v -> s <> [] ->
  exists w d, is_decimal s w /\ dvalue c = Some d /\ v = w * 10 + d /\ 1 <= w.
Proof.
  intros (_ & Hv & Hz) Hs. rewrite numeral_snoc in Hv.
  destruct (numeral dvalue 10 s) as [w|] eqn:Ew; [|done]. simpl in Hv.
  destruct (dvalue c) as [d|] eqn:Ed; [|done]. injection Hv as <-.
  assert (head s <> Some 48) as Hh.
  { intros Hh. destruct s as [|x s]; [done|]. injection Hh as ->.
    specialize (Hz eq_refl). by destruct s. }
  assert (is_decimal s w) as Hd by (split; [done|]; split; [done|]; intros; done).
  exists w, d. split; [done|]. split; [done|]. split; [done|].
  apply (decimal_positive s w Hd). intros ->. by apply Hh.
Qed.
Lemma decimal_unique s : forall t v, is_decimal s v -> is_decimal t v -> s = t.
Proof.
  induction s as [|c s IH] using rev_ind; intros t v Hs Ht; [by destruct Hs|].
  destruct t as [|e t _] using rev_ind; [by destruct Ht|].
  destruct (decide (s = [])) as [->|Hsn], (decide (t = [])) as [->|Htn]; simpl.
  - destruct Hs as (_ & Hs & _), Ht as (_ & Ht & _). unfold numeral in *. simpl in *.
    destruct (dvalue c) as [d|] eqn:Ec, (dvalue e) as [d'|] eqn:Ee; try done.
    apply dvalue_spec in Ec as [? ->], Ee as [? ->]. f_equal. congruence || (simplify_eq; lia).
  - destruct Hs as (_ & Hs & _). unfold numeral in Hs. simpl in Hs.
    destruct (dvalue c) as [d|] eqn:Ec; [|done]. apply dvalue_range in Ec. simplify_eq.
    apply decimal_init in Ht as (w & d' & _ & Hd & Heq & Hw); [|done].
    apply dvalue_range in Hd. lia.
  - destruct Ht as (_ & Ht & _). unfold numeral in Ht. simpl in Ht.
    destruct (dvalue e) as [d|] eqn:Ec; [|done]. apply dvalue_range in Ec. simplify_eq.
    apply decimal_init in Hs as (w & d' & _ & Hd & Heq & Hw); [|done].
    apply dvalue_range in Hd. lia.
  - apply decimal_init in Hs as (w & d & Hw & Hd & -> & _); [|done].
    apply decimal_init in Ht as (w' & d' & Hw' & Hd' & Heq & _); [|done].
    apply dvalue_range in Hd as ?, Hd' as ?. assert (w = w') as -> by lia.
    assert (d = d') as -> by lia.
    apply dvalue_spec in Hd as [? ->], Hd' as [? Hd']. f_equal; [by eapply IH|f_equal; lia].
Qed.

(** The digits of a number, last one first, as the formatter extracts them. *)
Fixpoint digits_rev (fuel : nat) (v : Z) : list Z :=
  match fuel with
  | O => []
  | S fuel => (48 + v mod 10) :: if v / 10 >? 0 then digits_rev fuel (v / 10) else []
  end.
Definition decimal (v : Z) : list Z := rev (digits_rev 20 v).

Lemma digits_rev_fuel k : forall n v, 0 <= v < 10 ^ Z.of_nat k -> (k <= n)%nat ->
  digits_rev n v = digits_rev k v \/ k = O.
Proof.
  induction k as [|k IH]; intros n v Hv Hk; [by right|]. left.
  destruct n as [|n]; [lia|]. cbn [digits_rev]. f_equal.
  destruct (Z.gtb_spec (v / 10) 0); [|done].
  rewrite Nat2Z.inj_succ, Z.pow_succ_r in Hv by lia.
  destruct (IH n (v / 10)) as [->| ->]; [|lia|done|].
  - split; [zdm|]. apply Z.div_lt_upper_bound; lia.
  - simpl in Hv. zdm.
Qed.
Lemma digits_rev_ten k v : 0 <= v < 10 ^ Z.of_nat k -> (1 <= k <= 20)%nat ->
  digits_rev k v = digits_rev 20 v.
Proof. intros Hv Hk. destruct (digits_rev_fuel k 20 v) as [?|?]; [done|lia|done|lia]. Qed.
Lemma digits_rev_length k : forall v, 0 <= v < 10 ^ Z.of_nat k -> (length (digits_rev k v) <= k)%nat.
Proof.
  induction k as [|k IH]; intros v Hv; simpl; [lia|].
  rewrite Nat2Z.inj_succ, Z.pow_succ_r in Hv by lia.
  destruct (v / 10 >? 0); simpl; [|lia]. specialize (IH (v / 10)).
  assert (0 <= v / 10 < 10 ^ Z.of_nat k) as Hr
    by (split; [zdm|apply Z.div_lt_upper_bound; lia]). specialize (IH Hr). lia.
Qed.
Lemma digits_rev_decimal k : forall v, 0 <= v < 10 ^ Z.of_nat k -> (1 <= k)%nat ->
  is_decimal (rev (digits_rev k v)) v.
Proof.
  induction k as [|k IH]; intros v Hv Hk; [lia|]. cbn [digits_rev rev].
  rewrite Nat2Z.inj_succ, Z.pow_succ_r in Hv by lia.
  assert (dvalue (48 + v mod 10) = Some (v mod 10)) as Hd
    by (apply dvalue_spec; split; zdm).
  destruct (Z.gtb_spec (v / 10) 0) as [Hgt|].
  - destruct k as [|k]; [simpl in Hv; zdm|].
    assert (0 <= v / 10 < 10 ^ Z.of_nat (S k)) as Hr
      by (split; [zdm|apply Z.div_lt_upper_bound; lia]).
    destruct (IH (v / 10) Hr ltac:(lia)) as (Hne & Hn & Hz).
    split; [by intros [? ?]%app_eq_nil|]. split.
    + rewrite numeral_snoc, Hn. simpl. rewrite Hd. simpl. f_equal. zdm.
    + intros Hh. exfalso. destruct (rev (digits_rev (S k) (v / 10))) as [|x s] eqn:E; [done|].
      injection Hh as ->. specialize (Hz eq_refl). injection Hz as ->.
      change (Some 0 = Some (v / 10)) in Hn. injection Hn. lia.
  - rewrite app_nil_l. split; [done|]. split; [|intros Hh; by injection Hh as ->].
    unfold numeral. cbn [horner]. rewrite Hd. f_equal. zdm.
Qed.
Lemma decimal_ok v : is_u64 v -> is_decimal (decimal v) v.
Proof. intros. apply digits_rev_decimal; [split; [zb|]|lia]. change (10 ^ Z.of_nat 20) with 100000000000000000000. zb. Qed.

(** ** The decimal formatters write it *)

Lemma from_digit_ok d : 0 <= d < 10 -> lh_char_from_digit d = Done (48 + d).
Proof.
  intros Hd. unfold lh_char_from_digit, fail_if. by rewrite Z.gtb_ltb, (proj2 (Z.ltb_ge _ _)) by lia.
Qed.
Lemma extract_loop_spec k : forall v p b,
  0 <= v < 10 ^ Z.of_nat k -> (1 <= k)%nat -> (length p + k <= length b)%nat ->
  len b < 18446744073709551616 ->
  extract_loop k v (filled p b) (len p)
  = Done (filled (p ++ digits_rev k v) b, len (p ++ digits_rev k v)).
Proof.
  induction k as [|k IH]; intros v p b Hv Hk Hl Hb; [lia|].
  cbn [extract_loop digits_rev]. unfold lh_char_digit_extract, LH_CHAR_DIGIT_RADIX.
  rewrite u8_id by zdm. rewrite from_digit_ok by zdm. rewrite bind_done.
  rewrite put_filled by lia. rewrite bind_done. rewrite u64_id by zb.
  replace (len p + 1) with (len (p ++ [48 + v mod 10])) by (rewrite length_app; simpl; lia).
  rewrite Nat2Z.inj_succ, Z.pow_succ_r in Hv by lia.
  destruct (Z.gtb_spec (v / 10) 0); [|done].
  assert (0 <= v / 10 < 10 ^ Z.of_nat k) as Hr by (split; [zdm|apply Z.div_lt_upper_bound; lia]).
  destruct k as [|k]; [simpl in Hr; lia|].
  rewrite IH by (try rewrite length_app; simpl; lia || done).
  by rewrite <-app_assoc.
Qed.
Lemma decimal_length v : is_u64 v -> 1 <= len (decimal v) <= 20.
Proof.
  intros Hv. unfold decimal. rewrite length_rev. split.
  - simpl. destruct (v / 10 >? 0); simpl; lia.
  - enough (length (digits_rev 20 v) <= 20)%nat by lia. apply digits_rev_length.
    change (10 ^ Z.of_nat 20) with 100000000000000000000. zb.
Qed.
Lemma decimal_length_pow v k : 0 <= v < 10 ^ Z.of_nat k -> (1 <= k <= 20)%nat ->
  len (decimal v) <= Z.of_nat k.
Proof.
  intros Hv Hk. unfold decimal. rewrite length_rev, <- (digits_rev_ten k) by done.
  apply digits_rev_length in Hv. lia.
Qed.

Lemma format_uint_spec v b size :
  is_u32 v -> 0 <= size <= len b ->
  lh_str_ptr_format_uint v (Some b) size
  = Done (if size <? len (decimal v) then (Some b, 0)
          else (Some (filled (decimal v) b), len (decimal v))).
Proof.
  intros Hv Hs. unfold lh_str_ptr_format_uint, assert_set. rewrite bind_done.
  assert (0 <= v < 10 ^ Z.of_nat 12) as Hr
    by (change (10 ^ Z.of_nat 12) with 1000000000000; zb).
  change (extract_loop _ v _ 0)
    with (extract_loop 12 v (filled [] (local LH_STR_FORMAT_UINT_DIGITS_MAX)) (len (@nil Z))).
  rewrite extract_loop_spec by (done || (simpl; lia)). rewrite bind_done. cbv zeta.
  rewrite app_nil_l, (digits_rev_ten 12) by (done || lia).
  replace (len (digits_rev 20 v)) with (len (decimal v))
    by (unfold decimal; by rewrite length_rev).
  rewrite Z.gtb_ltb. destruct (Z.ltb_spec size (len (decimal v))); [done|].
  rewrite Nat2Z.id.
  replace (length (decimal v)) with (length (digits_rev 20 v)) at 1
    by (unfold decimal; by rewrite length_rev).
  rewrite take_filled. change (rev (digits_rev 20 v)) with (decimal v).
  rewrite copy_ok by lia. rewrite bind_done. cbn [mret outcome_ret]. do 2 f_equal.
  unfold filled. rewrite Nat2Z.id, firstn_all.
  by replace (Z.to_nat (0 + len (decimal v))) with (length (decimal v)) by lia.
Qed.

(** A part below the first: nine digits, zeros in front. *)
Definition pad9 (m : Z) : list Z := replicate (9 - length (decimal m)) 48 ++ decimal m.
Fixpoint tail_text (parts : list Z) (k : nat) : list Z :=
  match k with O => [] | S j => pad9 (nth j parts 0) ++ tail_text parts j end.

Lemma pad9_length m : 0 <= m < 1000000000 -> len (pad9 m) = 9.
Proof.
  intros Hm. pose proof (decimal_length_pow m 9 ltac:(done) ltac:(lia)).
  unfold pad9. rewrite length_app, length_replicate. lia.
Qed.
Lemma horner_shift s : forall acc v, numeral dvalue 10 s = Some v ->
  horner dvalue 10 acc s = Some (acc * 10 ^ len s + v).
Proof.
  induction s as [|c s IH] using rev_ind; intros acc v Hv.
  { injection Hv as <-. simpl. f_equal. lia. }
  rewrite numeral_snoc in Hv. destruct (numeral dvalue 10 s) as [w|]; [|done]. simpl in Hv.
  destruct (dvalue c) as [d|] eqn:Ed; [|done]. injection Hv as <-.
  rewrite horner_app, (IH acc w) by done. simpl. rewrite Ed. f_equal.
  rewrite length_app. simpl. rewrite Nat2Z.inj_add, Z.pow_add_r by lia. lia.
Qed.
Lemma numeral_zeros n s : numeral dvalue 10 (replicate n 48 ++ s) = numeral dvalue 10 s.
Proof. unfold numeral. by induction n. Qed.
Lemma decimal_pad q m : 1 <= q -> is_u64 q -> 0 <= m < 1000000000 ->
  is_u64 (q * 1000000000 + m) ->
  decimal (q * 1000000000 + m) = decimal q ++ pad9 m.
Proof.
  intros Hq Hq' Hm Hu. apply (decimal_unique _ _ (q * 1000000000 + m)); [by apply decimal_ok|].
  destruct (decimal_ok q Hq') as (Hne & Hv & Hz). destruct (decimal_ok m ltac:(zb)) as (_ & Hmv & _).
  split; [by intros [? ?]%app_eq_nil|]. split.
  - unfold numeral. rewrite horner_app. fold (numeral dvalue 10 (decimal q)). rewrite Hv.
    cbn [mbind option_bind]. rewrite (horner_shift _ q m), pad9_length by
      (done || (unfold pad9; by rewrite numeral_zeros)). done.
  - intros Hh. exfalso. destruct (decimal q) as [|x s] eqn:E; [done|].
    injection Hh as ->. specialize (Hz eq_refl). injection Hz as ->.
    change (Some 0 = Some q) in Hv. injection Hv. lia.
Qed.

Lemma parts_loop_step k x parts count :
  is_u64 x -> 0 <= count < 3 -> len parts = 3 ->
  parts_loop (S k) x parts count
  = let parts := <[Z.to_nat count := x mod 1000000000]> parts in
    if (x / 1000000000 >? 0) && (count + 1 <? 3)
    then parts_loop k (x / 1000000000) parts (count + 1) else Done (parts, count + 1).
Proof.
  intros Hx Hc Hl. cbn [parts_loop]. unfold LH_STR_FORMAT_ULLONG_CHUNK, LH_STR_FORMAT_ULLONG_PARTS_MAX.
  rewrite u32_id by zdm. rewrite put_ok by lia. rewrite bind_done, u64_id by zb. done.
Qed.
Lemma parts_loop_spec v : is_u64 v ->
  parts_loop 3 v (local 3) 0
  = Done (if v / 1000000000 =? 0 then ([v; 0; 0], 1)
          else if v / 1000000000000000000 =? 0
               then ([v mod 1000000000; v / 1000000000; 0], 2)
          else ([v mod 1000000000; v / 1000000000 mod 1000000000; v / 1000000000000000000], 3)).
Proof.
  intros Hv. pose proof (Z.div_div v 1000000000 1000000000 ltac:(lia) ltac:(lia)) as Hq.
  change (1000000000 * 1000000000) with 1000000000000000000 in Hq.
  change (local 3) with [0; 0; 0]. rewrite parts_loop_step by (done || lia). cbv zeta.
  change (0 + 1 <? 3) with true. rewrite andb_true_r, Z.gtb_ltb.
  destruct (Z.eqb_spec (v / 1000000000) 0) as [E|E].
  { rewrite (proj2 (Z.ltb_ge 0 _)) by zdm. simpl. do 3 f_equal. zdm. }
  rewrite (proj2 (Z.ltb_lt 0 _)) by zdm.
  rewrite parts_loop_step by (done || zdm). rewrite Hq. cbv zeta.
  change (0 + 1 + 1 <? 3) with true. rewrite andb_true_r, Z.gtb_ltb.
  destruct (Z.eqb_spec (v / 1000000000000000000) 0) as [E'|E'].
  { rewrite (proj2 (Z.ltb_ge 0 _)) by zdm. simpl. do 4 f_equal. rewrite <- Hq in E'. zdm. }
  rewrite (proj2 (Z.ltb_lt 0 _)) by zdm.
  rewrite parts_loop_step by (done || zdm). cbv zeta.
  change (0 + 1 + 1 + 1 <? 3) with false. rewrite andb_false_r. simpl. do 5 f_equal. zdm.
Qed.

Lemma pad9_chunk p b m : 0 <= m < 1000000000 -> (length p + 9 <= length b)%nat ->
  (s ← set_bytes (filled p b) (len p) 48 (9 - len (decimal m));
   copy_bytes s (len p + (9 - len (decimal m)))
     (filled (decimal m) (local 9)) (len (decimal m)))
  = Done (filled (p ++ pad9 m) b).
Proof.
  intros Hm Hl. pose proof (decimal_length_pow m 9 ltac:(done) ltac:(lia)) as H9.
  pose proof (decimal_length m ltac:(zb)) as H1.
  unfold set_bytes. rewrite copy_filled; [|done|rewrite length_replicate; lia|lia].
  rewrite bind_done. rewrite copy_filled.
  - rewrite <- app_assoc. do 3 f_equal. unfold pad9. f_equal.
    + rewrite firstn_all2 by (rewrite length_replicate; lia). f_equal. lia.
    + by rewrite Nat2Z.id, take_filled.
  - rewrite length_app, length_take, length_replicate. lia.
  - change (length (local 9)) with 9%nat.
    rewrite length_filled by (change (length (local 9)) with 9%nat; lia).
    change (length (local 9)) with 9%nat. lia.
  - rewrite length_app, length_take, length_replicate. lia.
Qed.
Lemma chunks_loop_spec parts b size : forall k p fuel,
  (forall j, (j < k)%nat -> 0 <= nth j parts 0 < 1000000000) -> (k < length parts)%nat ->
  (k < fuel)%nat -> (length p <= length b)%nat -> size <= len b -> is_u64 size ->
  len p + 9 * Z.of_nat k < 18446744073709551616 ->
  len p <= size ->
  exists b', length b' = length b /\
  chunks_loop fuel parts (Z.of_nat k + 1) (filled p b) size (len p)
  = Done (if size <? len (p ++ tail_text parts k) then (b', 0)
          else (filled (p ++ tail_text parts k) b, len (p ++ tail_text parts k))).
Proof.
  induction k as [|k IH]; intros p fuel Hp Hk Hf Hl Hs Hu Hb Hle;
    (destruct fuel as [|fuel]; [lia|]); cbn [chunks_loop tail_text].
  { exists b. split; [done|]. rewrite app_nil_r. change (0 + 1 >? 1) with false. cbv iota.
    by rewrite (proj2 (Z.ltb_ge size (len p))) by lia. }
  destruct (Z.gtb_spec (Z.of_nat (S k) + 1) 1); [|lia].
  rewrite (u64_id (Z.of_nat (S k) + 1 - 1)) by zb.
  rewrite (u64_id (Z.of_nat (S k) + 1 - 1 - 1)) by zb.
  replace (Z.of_nat (S k) + 1 - 1 - 1) with (Z.of_nat k) by lia.
  rewrite load_nth, Nat2Z.id, bind_done by lia.
  assert (0 <= nth k parts 0 < 1000000000) as Hm by (apply Hp; lia).
  pose proof (decimal_length_pow _ 9 Hm ltac:(lia)) as H9.
  pose proof (decimal_length (nth k parts 0) ltac:(zb)) as H1.
  unfold LH_STR_FORMAT_ULLONG_CHUNK_DIGITS. rewrite format_uint_spec by (done || zb).
  rewrite (proj2 (Z.ltb_ge 9 _)), bind_done by lia. cbv zeta. unfold assert_set at 1.
  rewrite bind_done, (proj2 (Z.eqb_neq _ 0)) by lia.
  rewrite (u64_id (9 - _)) by zb.
  rewrite (u64_id (len p + 9)) by zb. rewrite Z.gtb_ltb.
  pose proof (pad9_length _ Hm) as Hpad.
  destruct (Z.ltb_spec size (len p + 9)).
  { exists (filled p b). split; [by apply length_filled|].
    rewrite (proj2 (Z.ltb_lt _ _)); [done|]. rewrite !length_app. lia. }
  rewrite (u64_id (len p + _)) by zb.
  pose proof (pad9_chunk p b _ Hm ltac:(lia)) as Hc.
  unfold lh_char_map_digit_0.
  destruct (set_bytes _ _ _ _) as [s| |]; [|discriminate Hc..]. rewrite bind_done in Hc.
  rewrite bind_done, Hc, bind_done.
  replace (len p + 9) with (len (p ++ pad9 (nth k parts 0))) by (rewrite length_app; lia).
  replace (Z.of_nat (S k)) with (Z.of_nat k + 1) by lia.
  destruct (IH (p ++ pad9 (nth k parts 0)) fuel) as (b' & Hb' & E);
    [intros j Hj; apply Hp; lia|lia|lia|try (rewrite length_app); (done || lia)..|].
  exists b'. split; [done|]. rewrite app_assoc. rewrite Z.add_simpl_r.
  apply E.
Qed.

(** The first part and the padded ones are the text of the whole. *)
Lemma parts_text v parts count :
  is_u64 v -> parts_loop 3 v (local 3) 0 = Done (parts, count) ->
  exists k, count = Z.of_nat k + 1 /\ (k < length parts)%nat /\ (k < 3)%nat /\ is_u32 (nth k parts 0) /\
    (forall j, (j < k)%nat -> 0 <= nth j parts 0 < 1000000000) /\
    decimal (nth k parts 0) ++ tail_text parts k = decimal v.
Proof.
  intros Hv. rewrite parts_loop_spec by done.
  pose proof (Z.div_div v 1000000000 1000000000 ltac:(lia) ltac:(lia)) as Hq.
  change (1000000000 * 1000000000) with 1000000000000000000 in Hq.
  assert (v = v / 1000000000 * 1000000000 + v mod 1000000000) as Hv0 by zdm.
  assert (v / 1000000000 = v / 1000000000000000000 * 1000000000 + v / 1000000000 mod 1000000000)
    as Hv1 by (rewrite <- Hq; zdm).
  destruct (Z.eqb_spec (v / 1000000000) 0) as [E|E];
    [|destruct (Z.eqb_spec (v / 1000000000000000000) 0) as [E'|E']]; intros [= <- <-].
  - exists 0%nat. cbn [nth length tail_text]. rewrite app_nil_r.
    repeat (split; [lia || (unfold is_u32; zdm)|]). done.
  - exists 1%nat. cbn [nth length tail_text]. rewrite app_nil_r.
    split; [lia|]. split; [lia|]. split; [lia|]. split; [zdm|]. split.
    { intros [|j] ?; [zdm|lia]. }
    rewrite (f_equal decimal Hv0). rewrite decimal_pad; [done|zdm..|]. by rewrite <- Hv0.
  - exists 2%nat. cbn [nth length tail_text]. rewrite app_nil_r.
    split; [lia|]. split; [lia|]. split; [lia|]. split; [zdm|]. split.
    { intros [|[|j]] ?; [zdm|zdm|lia]. }
    rewrite (f_equal decimal Hv0). rewrite decimal_pad; [|zdm..|by rewrite <- Hv0].
    rewrite (f_equal decimal Hv1). rewrite decimal_pad; [by rewrite <- app_assoc|zdm..|].
    rewrite <- Hv1. zdm.
Qed.
Lemma format_ullong_spec v b size :
  is_u64 v -> 0 <= size <= len b -> is_u64 size ->
  exists b', length b' = length b /\
  lh_str_ptr_format_ullong v (Some b) size
  = Done (if size <? len (decimal v) then (Some b', 0)
          else (Some (filled (decimal v) b), len (decimal v))).
Proof.
  intros Hv Hs Hu. unfold lh_str_ptr_format_ullong, assert_set. rewrite bind_done.
  unfold LH_STR_FORMAT_ULLONG_PARTS_MAX. change (Z.to_nat 3) with 3%nat.
  destruct (parts_loop 3 v (local 3) 0) as [[parts count]| |] eqn:E;
    [|rewrite parts_loop_spec in E by done; destruct (_ =? _) in E; [|destruct (_ =? _) in E]; discriminate E..].
  rewrite bind_done. destruct (parts_text v parts count Hv E) as (k & -> & Hk & Hk3 & Hp & Hj & <-).
  rewrite (u64_id (_ - 1)) by zb. replace (Z.of_nat k + 1 - 1) with (Z.of_nat k) by lia.
  rewrite load_nth, Nat2Z.id, bind_done by lia. rewrite format_uint_spec by done.
  pose proof (decimal_length (nth k parts 0) ltac:(zb)) as Hd.
  rewrite length_app. destruct (Z.ltb_spec size (len (decimal (nth k parts 0)))).
  { rewrite bind_done. cbv iota. change (0 =? 0) with true. exists b. split; [done|].
    by rewrite (proj2 (Z.ltb_lt _ _)) by lia. }
  rewrite bind_done. cbv iota. rewrite (proj2 (Z.eqb_neq _ 0)), bind_done by lia.
  destruct (chunks_loop_spec parts b size k (decimal (nth k parts 0)) (S (Z.to_nat (Z.of_nat k + 1))))
    as (b' & Hb' & ->); [done|done|lia|lia|lia|done|zb|lia|].
  exists b'. split; [done|]. rewrite bind_done, length_app. by destruct (_ <? _).
Qed.

(** ** Parsing decimal text *)

Definition leading_zero (s : list Z) : bool := (1 <? len s) && (nth 0 s 0 =? 48).
Definition accepts_decimal (max : Z) (s : list Z) (o : Z) : option Z * bool :=
  if leading_zero s then (Some o, false) else accepts dvalue 10 max s o.

Lemma leading_zero_check str size :
  0 <= size <= len str ->
  (if size >? 1 then c ← load str 0; mret (c =? lh_char_map_digit_0) else mret false)
  = Done (leading_zero (take (Z.to_nat size) str)).
Proof.
  intros Hs. unfold leading_zero. rewrite length_take, Z.gtb_ltb.
  replace (Z.of_nat (Z.to_nat size `min` length str)) with size by lia.
  destruct (Z.ltb_spec 1 size); [|done].
  rewrite load_nth, bind_done by lia. cbn [andb]. do 2 f_equal.
  destruct (Z.to_nat size) as [|n] eqn:E; [lia|]. by destruct str.
Qed.
Lemma parse_uint_spec str size max o :
  0 <= size <= len str -> is_u64 size -> is_u32 max ->
  lh_str_ptr_parse_uint (Some str) size max (Some o)
  = Done (accepts_decimal max (take (Z.to_nat size) str) o).
Proof.
  intros Hs Hu Hm. unfold lh_str_ptr_parse_uint. cbn [assert_set]. rewrite bind_done.
  rewrite leading_zero_check, bind_done by done. unfold accepts_decimal.
  destruct (leading_zero _); [done|]. by apply parse_uint_digits_spec.
Qed.
Lemma parse_ullong_spec str size max o :
  0 <= size <= len str -> is_u64 size -> is_u64 max ->
  lh_str_ptr_parse_ullong (Some str) size max (Some o)
  = Done (accepts_decimal max (take (Z.to_nat size) str) o).
Proof.
  intros Hs Hu Hm. unfold lh_str_ptr_parse_ullong. cbn [assert_set]. rewrite bind_done.
  rewrite leading_zero_check, bind_done by done. unfold accepts_decimal.
  destruct (leading_zero _); [done|]. by apply parse_ullong_digits_spec.
Qed.
Lemma accepts_decimal_iff max s o v :
  accepts_decimal max s o = (Some v, true) <-> is_decimal s v /\ v <= max.
Proof.
  unfold accepts_decimal, accepts, leading_zero, is_decimal.
  destruct s as [|c s]; cbn [length nth head].
  { split; [done|]. by intros [[? _] _]. }
  destruct (Z.eqb_spec c 48) as [->|Hc].
  - rewrite andb_true_r. destruct (Z.ltb_spec 1 (Z.of_nat (S (length s)))).
    + split; [done|]. intros [(_ & _ & Hz) _]. specialize (Hz eq_refl). injection Hz as ->.
      simpl in *. lia.
    + destruct s; [|cbn [length] in *; lia]. change (numeral dvalue 10 [48]) with (Some 0). cbv iota beta.
      destruct (Z.leb_spec 0 max).
      * split; [by intros [= <-]|]. intros [(_ & [= <-] & _) _]. done.
      * split; [done|]. intros [(_ & [= <-] & _) ?]. lia.
  - rewrite andb_false_r. destruct (numeral dvalue 10 (c :: s)) as [w|].
    2:{ split; [done|]. by intros [(_ & ? & _) _]. }
    destruct (Z.leb_spec w max).
    + split; [intros [= <-]; split; [|done]; split; [done|]; split; [done|]; congruence|].
      intros [(_ & [= <-] & _) _]. done.
    + split; [done|]. intros [(_ & [= <-] & _) ?]. lia.
Qed.
Lemma accepts_decimal_text max s o v : is_u64 v -> v <= max ->
  accepts_decimal max s o = (Some v, true) <-> s = decimal v.
Proof.
  intros Hv Hm. rewrite accepts_decimal_iff. pose proof (decimal_ok v Hv) as Hd.
  split; [|by intros ->]. intros [Hs _]. by eapply decimal_unique.
Qed.

(** A number survives the text.  [lh_str_ptr_format_uint] writes one
    decimal text of at most ten characters when it fits and nothing otherwise, and
    of all texts [lh_str_ptr_parse_uint] takes exactly that one for the number. *)
Theorem decimal_roundtrip v max b o :
  is_u32 v -> v <= max -> is_u32 max ->
  exists t, 1 <= len t <= 10 /\
    lh_str_ptr_format_uint v (Some b) (len b)
    = Done (if len b <? len t then (Some b, 0) else (Some (t ++ drop (length t) b), len t)) /\
    forall s, len s < 18446744073709551616 ->
      exists r, lh_str_ptr_parse_uint (Some s) (len s) max (Some o) = Done r /\
        (r = (Some v, true) <-> s = t).
Proof.
  intros Hv Hm Hx. exists (decimal v). split.
  { pose proof (decimal_length v ltac:(zb)).
    pose proof (decimal_length_pow v 10 ltac:(change (10 ^ Z.of_nat 10) with 10000000000; zb)
                  ltac:(lia)). lia. }
  split; [by rewrite format_uint_spec by (done || lia)|]. intros s Hs.
  eexists. split; [apply parse_uint_spec; [lia|zb|done]|].
  rewrite Nat2Z.id, firstn_all. apply accepts_decimal_text; [zb|done].
Qed.
Lemma decimal_roundtrip_witness :
  (is_u32 905 /\ 905 <= 1000 /\ is_u32 1000) /\
  exists t, 1 <= len t <= 10 /\
    lh_str_ptr_format_uint 905 (Some (local 4)) 4
    = Done (if 4 <? len t then (Some (local 4), 0)
            else (Some (t ++ drop (length t) (local 4)), len t)) /\
    forall s, len s < 18446744073709551616 ->
      exists r, lh_str_ptr_parse_uint (Some s) (len s) 1000 (Some 0) = Done r /\
        (r = (Some 905, true) <-> s = t).
Proof. split; [zb|]. apply (decimal_roundtrip 905 1000 (local 4) 0); zb. Defined.

(** ** Signed numbers *)

Definition signed_text (v : Z) : list Z := if v <? 0 then 45 :: decimal (- v) else decimal v.

Lemma decimal_head v : is_u64 v -> head (decimal v) <> Some 45.
Proof.
  intros Hv Hh. destruct (decimal_ok v Hv) as (_ & Hn & _).
  destruct (decimal v) as [|c s]; [done|]. injection Hh as ->. done.
Qed.
(** A call that fills a buffer from its second character on. *)
Lemma fill_from_one (f : option buffer -> outcome (option buffer * Z)) c b b' r :
  f (Some b) = Done (Some b', r) -> fill_from (c :: b) 1 f = Done (c :: b', r).
Proof. intros Hf. unfold fill_from, at_offset. change (drop (Z.to_nat 1) (c :: b)) with b. by rewrite Hf. Qed.

Lemma format_sllong_spec v b :
  is_s64 v -> is_u64 (len b) ->
  exists b', length b' = length b /\
  lh_str_ptr_format_sllong v (Some b) (len b)
  = Done (if len b <? len (signed_text v) then (Some b', 0)
          else (Some (filled (signed_text v) b), len (signed_text v))).
Proof.
  intros Hv Hb. unfold lh_str_ptr_format_sllong, signed_text, assert_set. rewrite bind_done.
  destruct (Z.ltb_spec v 0); cbn [negb].
  2:{ rewrite u64_id by (unfold is_s64 in Hv; zb). apply format_ullong_spec; [unfold is_s64 in Hv; zb|lia|done]. }
  assert (u64 (0 - u64 v) = - v) as ->.
  { unfold u64. rewrite Zminus_mod_idemp_r. apply Z.mod_small. unfold is_s64 in Hv. lia. }
  assert (is_u64 (- v)) as Hn by (unfold is_s64 in Hv; zb).
  pose proof (decimal_length _ Hn) as Hd.
  destruct b as [|c b]; [exists []; split; [done|]; by rewrite (proj2 (Z.ltb_lt _ _)) by (simpl in *; lia)|].
  cbn [length] in *. rewrite (proj2 (Z.eqb_neq _ 0)) by lia.
  rewrite put_ok by (cbn [length]; lia). rewrite bind_done.
  change (<[Z.to_nat 0:=lh_char_map_minus]> (c :: b)) with (lh_char_map_minus :: b).
  rewrite (u64_id (_ - 1)) by zb. replace (Z.of_nat (S (length b)) - 1) with (len b) by lia.
  destruct (format_ullong_spec (- v) b (len b) Hn) as (b' & Hb' & E); [lia|zb|].
  destruct (Z.ltb_spec (len b) (len (decimal (- v)))) as [Hlt|Hge].
  - rewrite (fill_from_one _ _ _ _ _ E). exists (lh_char_map_minus :: b').
    cbn [length]. split; [lia|]. rewrite (proj2 (Z.ltb_lt _ _)) by lia. done.
  - rewrite (fill_from_one _ _ _ _ _ E).
    exists (c :: b). split; [done|]. rewrite (proj2 (Z.ltb_ge (Z.of_nat (S (length b))) _)) by (cbn [length]; lia).
    rewrite bind_done. cbv iota. rewrite (proj2 (Z.eqb_neq _ 0)), u64_id by zb.
    cbn [mret outcome_ret length]. unfold filled. cbn [length app skipn].
    do 2 f_equal. lia.
Qed.


Lemma decimal_inj m n : is_u64 m -> is_u64 n -> decimal m = decimal n -> m = n.
Proof.
  intros Hm Hn E. destruct (decimal_ok m Hm) as (_ & H1 & _), (decimal_ok n Hn) as (_ & H2 & _).
  rewrite E, H2 in H1. by injection H1.
Qed.
(** Either the text is the decimal text of an allowed number, or of none. *)
Lemma accepts_decimal_cases M s o : is_u64 M ->
  (exists m, 0 <= m <= M /\ s = decimal m /\ accepts_decimal M s o = (Some m, true)) \/
  (accepts_decimal M s o = (Some o, false) /\ forall m, 0 <= m <= M -> s <> decimal m).
Proof.
  intros HM. destruct (accepts_decimal M s o) as [out ok] eqn:E. destruct ok.
  - left. assert (exists m, out = Some m) as [m ->].
    { unfold accepts_decimal, accepts in E. destruct (leading_zero s); [done|].
      destruct s; [done|]. destruct (numeral _ _ _); [|done]. destruct (_ <=? _); naive_solver. }
    apply accepts_decimal_iff in E as [Hd Hm]. exists m.
    assert (0 <= m) by (destruct Hd as (_ & Hd & _); by apply numeral_nonneg in Hd).
    split; [lia|]. split; [|done]. eapply decimal_unique; [done|apply decimal_ok; zb].
  - right. split.
    + unfold accepts_decimal, accepts in E. destruct (leading_zero s); [naive_solver|].
      destruct s; [naive_solver|]. destruct (numeral _ _ _); [|naive_solver].
      destruct (_ <=? _); naive_solver.
    + intros m Hm ->.
      assert (accepts_decimal M (decimal m) o = (Some m, true)); [|congruence].
      apply accepts_decimal_text; [zb|lia|done].
Qed.

(** The texts of a signed number: a zero may carry a sign. *)
Definition signed_reads (s : list Z) (v : Z) : Prop := s = signed_text v \/ (v = 0 /\ s = [45; 48]).

Lemma signed_reads_minus s v : is_s64 v ->
  signed_reads (45 :: s) v <-> v <= 0 /\ s = decimal (- v).
Proof.
  intros Hv. unfold signed_reads, signed_text, is_s64 in *. destruct (Z.ltb_spec v 0).
  - split; [intros [[= ->]|[-> _]]; split; lia || done|intros [_ ->]; by left].
  - split.
    + intros [Hx|[-> [= ->]]]; [|done]. exfalso. apply (decimal_head v); [zb|by rewrite <- Hx].
    + intros [? ->]. right. by assert (v = 0) as -> by lia.
Qed.
Lemma signed_reads_plain s v : is_s64 v -> head s <> Some 45 ->
  signed_reads s v <-> 0 <= v /\ s = decimal v.
Proof.
  intros Hv Hh. unfold signed_reads, signed_text. destruct (Z.ltb_spec v 0).
  - split; [intros [->|[_ ->]]; done|lia].
  - split; [intros [->|[_ ->]]; done|intros [_ ->]; by left].
Qed.
Lemma negate_magnitude m : 0 <= m <= 9223372036854775808 ->
  (if m =? 0 then mret (Some 0)
   else v ← s64 (- (m - 1)); v ← s64 (v - 1); mret (Some v)) = Done (Some (- m)).
Proof. intros Hm. destruct (Z.eqb_spec m 0) as [->|]; [done|]. run_s64. simpl. do 2 f_equal. lia. Qed.

Lemma parse_sllong_spec s min max o :
  len s < 18446744073709551616 ->
  exists w, (forall v, is_s64 v -> (w = Some v <-> signed_reads s v)) /\
  lh_str_ptr_parse_sllong (Some s) (len s) min max (Some o)
  = Done (match w with
          | Some w => if (w <? min) || (w >? max) then (Some o, false) else (Some w, true)
          | None => (Some o, false)
          end).
Proof.
  intros Hs. unfold lh_str_ptr_parse_sllong. cbn [assert_set]. rewrite !bind_done.
  assert ((if len s >? 0 then c ← load s 0; mret (c =? lh_char_map_minus) else mret false)
          = Done (bool_decide (head s = Some 45))) as ->.
  { destruct s as [|c s]; [done|]. change (load (c :: s) 0) with (Done c).
    destruct (Z.gtb_spec (len (c :: s)) 0); [|cbn [length] in *; lia]. rewrite bind_done.
    cbn [mret outcome_ret head]. f_equal. unfold lh_char_map_minus.
    destruct (Z.eqb_spec c 45) as [->|]; [done|]. rewrite bool_decide_false; congruence. }
  rewrite bind_done. case_bool_decide as Hh.
  - destruct s as [|c s]; [done|]. injection Hh as ->.
    change (ptr_add (Some (45 :: s)) 1) with (Some s). cbn [length] in Hs.
    replace (len (45 :: s) - 1) with (len s) by (cbn [length]; lia).
    rewrite parse_ullong_spec by zb. rewrite bind_done, Nat2Z.id, firstn_all.
    destruct (accepts_decimal_cases 9223372036854775808 s 0) as [(m & Hm & -> & ->)|[-> Hn]]; [zb|..];
      cbn [assert_set negb]; rewrite bind_done.
    + rewrite negate_magnitude, bind_done by done. exists (Some (- m)). split; [|by destruct (_ || _)].
      intros v Hv. rewrite signed_reads_minus by done. unfold is_s64 in Hv. split.
      * intros [= <-]. split; [lia|]. f_equal. lia.
      * intros [? Hd%decimal_inj]; [f_equal; lia|zb..].
    + exists None. split; [|done]. intros v Hv. rewrite signed_reads_minus by done.
      unfold is_s64 in Hv. split; [done|]. intros [? ->]. exfalso. apply (Hn (- v)); [lia|done].
  - rewrite parse_ullong_spec by zb. rewrite bind_done, Nat2Z.id, firstn_all.
    destruct (accepts_decimal_cases (9223372036854775808 - 1) s 0) as [(m & Hm & -> & ->)|[-> Hn]]; [zb|..];
      cbn [assert_set]; rewrite bind_done; cbn [mret outcome_ret]; rewrite bind_done.
    + exists (Some m). split; [|by destruct (_ || _)]. intros v Hv.
      rewrite signed_reads_plain by done. unfold is_s64 in Hv. split.
      * intros [= <-]. split; [lia|done].
      * intros [? Hd%decimal_inj]; [f_equal; lia|zb..].
    + exists None. split; [|done]. intros v Hv. rewrite signed_reads_plain by done.
      unfold is_s64 in Hv. split; [done|]. intros [? ->]. exfalso. apply (Hn v); [lia|done].
Qed.

(** A signed 64-bit number survives the text, the least one included, and
    no step of the conversion overflows.  [lh_str_ptr_format_sllong] writes its
    decimal text when it fits and answers 0 when it does not, and
    [lh_str_ptr_parse_sllong] reads the number from exactly that text, zero also from
    "-0". *)
Theorem signed_roundtrip v b min max o :
  is_s64 v -> min <= v <= max -> is_u64 (len b) ->
  exists t, 1 <= len t <= 21 /\
    (exists b', length b' = length b /\
       lh_str_ptr_format_sllong v (Some b) (len b)
       = Done (if len b <? len t then (Some b', 0)
               else (Some (t ++ drop (length t) b), len t))) /\
    forall s, len s < 18446744073709551616 ->
      exists r, lh_str_ptr_parse_sllong (Some s) (len s) min max (Some o) = Done r /\
        (r = (Some v, true) <-> s = t \/ (v = 0 /\ s = [45; 48])).
Proof.
  intros Hv Hm Hb. exists (signed_text v). split.
  { unfold signed_text, is_s64 in *. destruct (Z.ltb_spec v 0); cbn [length];
      [pose proof (decimal_length (- v) ltac:(zb))|pose proof (decimal_length v ltac:(zb))]; lia. }
  split; [by apply format_sllong_spec|]. intros s Hs.
  destruct (parse_sllong_spec s min max o Hs) as (w & Hw & ->). eexists. split; [done|].
  change (s = signed_text v \/ _) with (signed_reads s v). rewrite <- Hw by done.
  destruct w as [w|]; [|done].
  destruct ((w <? min) || (w >? max)) eqn:E; [|split; congruence].
  split; [done|]. intros [= ->]. rewrite orb_true_iff, Z.ltb_lt, Z.gtb_lt in E. lia.
Qed.
Lemma signed_roundtrip_witness :
  (is_s64 (-9223372036854775808) /\ is_u64 20) /\
  exists t, 1 <= len t <= 21 /\
    (exists b', length b' = length (local 20) /\
       lh_str_ptr_format_sllong (-9223372036854775808) (Some (local 20)) 20
       = Done (if 20 <? len t then (Some b', 0)
               else (Some (t ++ drop (length t) (local 20)), len t))) /\
    forall s, len s < 18446744073709551616 ->
      exists r, lh_str_ptr_parse_sllong (Some s) (len s) (-9223372036854775808) 5 (Some 0) = Done r /\
        (r = (Some (-9223372036854775808), true)
         <-> s = t \/ (-9223372036854775808 = 0 /\ s = [45; 48])).
Proof.
  split; [split; [unfold is_s64; lia|zb]|].
  apply (signed_roundtrip (-9223372036854775808) (local 20) (-9223372036854775808) 5 0);
    [unfold is_s64; lia|lia|done].
Defined.

(** ** Hexadecimal *)

Definition hex_char (uppercase : bool) (d : Z) : Z :=
  if d <? 10 then 48 + d else (if uppercase then 55 else 87) + d.
Lemma hex_char_value uppercase d : 0 <= d < 16 -> xvalue (hex_char uppercase d) = Some d.
Proof.
  intros Hd. apply xvalue_spec. unfold hex_char. destruct (Z.ltb_spec d 10), uppercase; lia.
Qed.
Lemma alphabet_load uppercase d : 0 <= d < 16 ->
  load (hex_alphabet uppercase) d = Done (hex_char uppercase d).
Proof.
  intros Hd. assert (In d [0;1;2;3;4;5;6;7;8;9;10;11;12;13;14;15]) as Hin by (simpl; lia).
  destruct uppercase; simpl in Hin; repeat (destruct Hin as [<-|Hin]; [done|]); done.
Qed.
(** Two characters a byte. *)
Fixpoint hex_text (uppercase : bool) (bytes : list Z) : list Z :=
  match bytes with
  | [] => []
  | x :: r => hex_char uppercase (x / 16) :: hex_char uppercase (x mod 16) :: hex_text uppercase r
  end.
Lemma length_hex_text uppercase bytes : length (hex_text uppercase bytes) = (2 * length bytes)%nat.
Proof. induction bytes as [|x l IH]; [done|]. cbn [hex_text length]. lia. Qed.

Lemma nibbles x : is_u8 x -> Z.land (Z.shiftr x 4) 15 = x / 16 /\ Z.land x 15 = x mod 16.
Proof.
  intros Hx. change 15 with (Z.ones 4). rewrite !Z.land_ones, Z.shiftr_div_pow2 by lia.
  change (2 ^ 4) with 16. split; [apply Z.mod_small; zdm|done].
Qed.
Lemma nibbles_join h l : 0 <= h < 16 -> 0 <= l < 16 -> Z.lor (Z.shiftl h 4) l = h * 16 + l.
Proof.
  intros Hh Hl. rewrite <- Z.lxor_lor, <- Z.add_nocarry_lxor.
  1: rewrite Z.shiftl_mul_pow2 by lia; lia.
  all: apply Z.bits_inj'; intros n Hn; rewrite Z.land_spec, Z.bits_0;
    destruct (Z.ltb_spec n 4);
    [by rewrite Z.shiftl_spec_low by lia|by rewrite (testbit_above l 4), andb_false_r by lia].
Qed.

Lemma hex_bytes_loop_spec uppercase bytes b room : forall q n k p,
  (k + n <= length bytes)%nat -> (q <= n)%nat -> is_bytes bytes ->
  0 <= room < len b -> len b < 9223372036854775808 ->
  Z.of_nat q = Z.min (Z.of_nat n) ((room - len p) / 2) -> len p <= room ->
  let t := p ++ hex_text uppercase (take q (drop k bytes)) in
  hex_bytes_loop n (Z.of_nat k) (hex_alphabet uppercase) bytes (filled p b) room (len p)
  = Done (filled t b, len t).
Proof.
  induction q as [|q IH]; intros n k p Hk Hq Hy Hr Hu Hm Hp; cbv zeta.
  - rewrite take_0. cbn [hex_text]. rewrite app_nil_r. destruct n as [|n]; [done|].
    cbn [hex_bytes_loop]. destruct (lookup_lt_is_Some_2 bytes k) as [x Hx]; [lia|].
    rewrite (load_ok _ _ _ Hx), bind_done, u64_id, Z.gtb_ltb, (proj2 (Z.ltb_lt room _)); [done| |];
      zdm.
  - destruct n as [|n]; [lia|]. cbn [hex_bytes_loop].
    destruct (lookup_lt_is_Some_2 bytes k) as [x Hx]; [lia|].
    rewrite (load_ok _ _ _ Hx), bind_done.
    assert (is_u8 x) as Hx8 by by eapply Forall_lookup_1.
    assert (len p + 2 <= room) by zdm. destruct (nibbles x Hx8) as [-> ->].
    rewrite !u64_id by zb. rewrite Z.gtb_ltb, (proj2 (Z.ltb_ge room _)) by lia; cbv iota.
    rewrite !alphabet_load by zdm. rewrite bind_done, put_filled by lia.
    rewrite !bind_done, put_filled by (rewrite length_app; cbn [length]; lia). rewrite bind_done, (drop_S _ x) by done.
    cbn [take hex_text]. rewrite <- !app_assoc. cbn [app].
    set (p' := p ++ [_; _]).
    assert (len p' = len p + 2) as Hp' by (unfold p'; rewrite length_app; cbn [length]; lia).
    replace (Z.of_nat k + 1) with (Z.of_nat (S k)) by lia. rewrite <- Hp'.
    rewrite IH; [|lia|lia|done|done|done|zdm|lia].
    unfold p'. by rewrite <- !app_assoc.
Qed.
Lemma format_hex_bytes_spec uppercase bytes b :
  is_bytes bytes -> 0 < len bytes < 18446744073709551616 -> 0 < len b < 9223372036854775808 ->
  let t := hex_text uppercase (take (Z.to_nat ((len b - 1) / 2)) bytes) in
  lh_str_ptr_format_hex_bytes (Some bytes) (len bytes) (Some b) (len b) uppercase
  = Done (Some (filled (t ++ [0]) b), len t).
Proof.
  intros Hy Hn Hb t. unfold lh_str_ptr_format_hex_bytes, assert_set. rewrite bind_done.
  rewrite !(proj2 (Z.eqb_neq _ 0)) by lia. cbn [orb]. cbv zeta. rewrite u64_id by zb.
  rewrite Nat2Z.id. set (q := Nat.min (length bytes) (Z.to_nat ((len b - 1) / 2))).
  change (hex_bytes_loop _ _ ?a ?y b ?r 0)
    with (hex_bytes_loop (length bytes) (Z.of_nat 0) a y (filled [] b) r (len (@nil Z))).
  assert (0 <= (len b - 1) / 2) by zdm.
  rewrite (hex_bytes_loop_spec _ _ _ _ q) by (unfold q; cbn [length]; rewrite ?Z.sub_0_r; zb || done).
  cbv zeta. rewrite bind_done, app_nil_l, drop_0.
  replace (take q bytes) with (take (Z.to_nat ((len b - 1) / 2)) bytes).
  2:{ unfold q. destruct (Nat.min_spec (length bytes) (Z.to_nat ((len b - 1) / 2))) as [[? ->]|[? ->]];
        [by rewrite !take_ge by lia|done]. }
  fold t. rewrite put_filled; [done|done|].
  unfold t. rewrite length_hex_text, length_take. zdm.
Qed.

(** The bytes a text of pairs stands for. *)
Fixpoint unhex (s : list Z) : option (list Z) :=
  match s with
  | [] => Some []
  | [_] => None
  | a :: b :: r => x ← xvalue a; y ← xvalue b; l ← unhex r; Some (16 * x + y :: l)
  end.
Lemma unhex_hex_text uppercase bytes : is_bytes bytes -> unhex (hex_text uppercase bytes) = Some bytes.
Proof.
  induction 1 as [|x l Hx _ IH]; [done|]. cbn [hex_text unhex].
  rewrite !hex_char_value, IH by zdm. cbn [mbind option_bind]. do 2 f_equal. zdm.
Qed.
Lemma unhex_length : forall n s l, (length s <= n)%nat -> unhex s = Some l -> length s = (2 * length l)%nat.
Proof.
  induction n as [|n IH]; intros [|a [|b s]] l Hn Hu; cbn [length unhex] in *; try lia;
    try (by injection Hu as <-); [done|].
  destruct (xvalue a), (xvalue b), (unhex s) as [t|] eqn:E; try done. cbn in Hu.
  injection Hu as <-. apply IH in E; cbn [length]; lia.
Qed.
Lemma unhex_bad : forall n s, (length s <= n)%nat -> Exists (fun c => xvalue c = None) s -> unhex s = None.
Proof.
  induction n as [|n IH]; intros [|a [|b s]] Hn Hx; cbn [length unhex] in *; try lia; try done;
    [by inversion Hx..|].
  inversion Hx as [? ? Ha|? ? Hx' ]; subst; [by rewrite Ha|]. destruct (xvalue a); [|done].
  inversion Hx' as [? ? Hb|? ? Hx'']; subst; cbn; [by rewrite Hb|]. destruct (xvalue b); [|done].
  cbn. by rewrite IH by (done || lia).
Qed.
Lemma xdigit_or ch :
  (exists d, xvalue ch = Some d /\ lh_char_is_xdigit ch = true /\ lh_char_to_xdigit ch = Done d /\ 0 <= d < 16)
  \/ (xvalue ch = None /\ lh_char_is_xdigit ch = false).
Proof.
  rewrite is_xdigit_spec. destruct (xvalue ch) as [d|] eqn:E; [left|by right].
  destruct (to_xdigit_ok _ _ E). by exists d.
Qed.
(** The two characters of a pair, and the rest. *)
Lemma pair_at (s : buffer) i : (2 * i + 2 <= length s)%nat ->
  len s < 18446744073709551616 ->
  exists a b, drop (2 * i) s = a :: b :: drop (2 * S i) s /\
    load s (u64 (Z.of_nat i * 2)) = Done a /\ load s (u64 (u64 (Z.of_nat i * 2) + 1)) = Done b.
Proof.
  intros Hl Hs. rewrite !u64_id by zb.
  destruct (lookup_lt_is_Some_2 s (2 * i)) as [a Ha]; [lia|].
  destruct (lookup_lt_is_Some_2 s (S (2 * i))) as [b Hb]; [lia|]. exists a, b. split_and!.
  - rewrite (drop_S _ a), (drop_S _ b) by done. do 3 f_equal. lia.
  - replace (Z.of_nat i * 2) with (Z.of_nat (2 * i)) by lia. by apply load_ok.
  - replace (Z.of_nat i * 2 + 1) with (Z.of_nat (S (2 * i))) by lia. by apply load_ok.
Qed.
Lemma pairs_check_spec s : len s < 18446744073709551616 -> forall n i,
  (2 * (i + n) <= length s)%nat ->
  pairs_check n (Z.of_nat i) s
  = Done (bool_decide (is_Some (unhex (take (2 * n) (drop (2 * i) s))))).
Proof.
  intros Hs. induction n as [|n IH]; intros i Hi; [done|].
  destruct (pair_at s i) as (a & b & Hd & Ha & Hb); [lia..|]. cbn [pairs_check].
  rewrite Ha, Hb, Hd, !bind_done.
  replace (2 * S n)%nat with (S (S (2 * n))) by lia. cbn [take unhex].
  destruct (xdigit_or a) as [(x & -> & -> & _)|[-> ->]]; cbn [negb]; [|done].
  destruct (xdigit_or b) as [(y & -> & -> & _)|[-> ->]]; cbn [negb]; [|done].
  replace (Z.of_nat i + 1) with (Z.of_nat (S i)) by lia. rewrite IH by lia.
  cbn [mbind option_bind]. f_equal. apply bool_decide_ext.
  destruct (unhex _); cbn; split; intros []; by eauto || done.
Qed.
Lemma pairs_store_spec s o : len s < 18446744073709551616 -> forall n i p l,
  (2 * (i + n) <= length s)%nat -> length p = i -> (i + n <= length o)%nat ->
  unhex (take (2 * n) (drop (2 * i) s)) = Some l ->
  pairs_store n (Z.of_nat i) s (filled p o) = Done (filled (p ++ l) o).
Proof.
  intros Hs. induction n as [|n IH]; intros i p l Hi Hp Ho Hu.
  { injection Hu as <-. by rewrite app_nil_r. }
  destruct (pair_at s i) as (a & b & Hd & Ha & Hb); [lia..|]. cbn [pairs_store].
  revert Hu. rewrite Ha, Hb, Hd, !bind_done.
  replace (2 * S n)%nat with (S (S (2 * n))) by lia. cbn [take unhex].
  destruct (xdigit_or a) as [(x & -> & _ & -> & Hx)|[-> _]]; [|done].
  rewrite !bind_done.
  destruct (xdigit_or b) as [(y & -> & _ & -> & Hy)|[-> _]]; [|done].
  destruct (unhex _) as [t|] eqn:E; [|done]. cbn [mbind option_bind]. intros [= <-].
  rewrite !bind_done, nibbles_join by done. rewrite u8_id by zb.
  rewrite put_filled by lia. rewrite bind_done.
  replace (Z.of_nat i + 1) with (Z.of_nat (S i)) by lia.
  rewrite (IH (S i) _ t) by (rewrite ?length_app; cbn [length]; lia || done).
  rewrite <-app_assoc. cbn [app]. do 4 f_equal. lia.
Qed.
Lemma parse_hex_bytes_spec s o : len s < 18446744073709551616 -> 0 < len o < 9223372036854775808 ->
  lh_str_ptr_parse_hex_bytes (Some s) (len s) (Some o) (len o)
  = Done (if len s <? 2 * len o then (Some o, false) else
          match unhex (take (2 * length o) s) with
          | Some l => (Some l, true)
          | None => (Some o, false)
          end).
Proof.
  intros Hs Ho. unfold lh_str_ptr_parse_hex_bytes, assert_set. rewrite !bind_done.
  rewrite (proj2 (Z.eqb_neq _ 0)), u64_id, (Z.mul_comm _ 2) by zb. cbn [orb].
  destruct (Z.ltb_spec (len s) (2 * len o)); [done|]. rewrite Nat2Z.id.
  change (pairs_check _ 0 s) with (pairs_check (length o) (Z.of_nat 0) s).
  rewrite pairs_check_spec by lia. rewrite Nat.mul_0_r, drop_0, bind_done.
  destruct (unhex _) as [l|] eqn:E; [|done]. rewrite bool_decide_true by done. cbn [negb].
  change (pairs_store _ 0 s o) with (pairs_store (length o) (Z.of_nat 0) s (filled [] o)).
  rewrite (pairs_store_spec s o Hs (length o) 0 [] l)
    by (rewrite ?Nat.mul_0_r, ?drop_0; cbn [length]; lia || done).
  rewrite bind_done. cbn [app mret outcome_ret]. do 3 f_equal. unfold filled.
  apply unhex_length with (n := length s) in E; [|rewrite length_take; lia].
  rewrite length_take in E. rewrite drop_ge by lia. by rewrite app_nil_r.
Qed.

(** Bytes survive their hexadecimal text.  [lh_str_ptr_format_hex_bytes]
    writes two characters a byte and a terminator into room enough, and only whole
    pairs into less; [lh_str_ptr_parse_hex_bytes] reads the bytes back from any text
    that starts so, in capitals or not.  A character that is no digit anywhere in the
    pairs leaves the whole array as it was. *)
Theorem hex_bytes_roundtrip uppercase bytes b s o :
  is_bytes bytes -> 0 < len bytes < 4611686018427387904 ->
  0 < len b < 9223372036854775808 -> length o = length bytes ->
  len s < 18446744073709551616 ->
  let n := Z.min (len bytes) ((len b - 1) / 2) in
  exists t b', length b' = length b /\ len t = 2 * n /\
    lh_str_ptr_format_hex_bytes (Some bytes) (len bytes) (Some b) (len b) uppercase
    = Done (Some b', 2 * n) /\
    take (S (length t)) b' = t ++ [0] /\
    (n = len bytes -> t `prefix_of` s ->
     lh_str_ptr_parse_hex_bytes (Some s) (len s) (Some o) (len o) = Done (Some bytes, true)) /\
    (len s < 2 * len o \/ Exists (fun c => xvalue c = None) (take (2 * length o) s) ->
     lh_str_ptr_parse_hex_bytes (Some s) (len s) (Some o) (len o) = Done (Some o, false)).
Proof.
  intros Hy Hn Hb Ho Hs n. assert (0 <= (len b - 1) / 2) by zdm.
  set (t := hex_text uppercase (take (Z.to_nat ((len b - 1) / 2)) bytes)).
  assert (len t = 2 * n) as Ht by (unfold t; rewrite length_hex_text, length_take; lia).
  exists t, (filled (t ++ [0]) b). split_and!.
  - apply length_filled. rewrite length_app. cbn [length]. zdm.
  - done.
  - rewrite format_hex_bytes_spec by (done || lia). cbv zeta. fold t. by rewrite Ht.
  - replace (S (length t)) with (length (t ++ [0])) by (rewrite length_app; cbn [length]; lia).
    apply take_filled.
  - intros Hnb (r & ->). rewrite parse_hex_bytes_spec by lia.
    rewrite length_app, (proj2 (Z.ltb_ge _ _)) by lia.
    replace (2 * length o)%nat with (length t) by lia. rewrite take_app_length.
    unfold t. rewrite take_ge by lia. by rewrite unhex_hex_text.
  - intros Hbad. rewrite parse_hex_bytes_spec by lia. destruct (Z.ltb_spec (len s) (2 * len o)); [done|].
    destruct Hbad as [?|Hbad]; [lia|]. by rewrite (unhex_bad (length s)) by (rewrite ?length_take; lia || done).
Qed.
Lemma hex_bytes_roundtrip_witness :
  let bytes := [0; 171; 255] in
  exists t b', length b' = length (local 9) /\ len t = 6 /\
    lh_str_ptr_format_hex_bytes (Some bytes) 3 (Some (local 9)) 9 true = Done (Some b', 6) /\
    take (S (length t)) b' = t ++ [0] /\
    (3 = 3 -> t `prefix_of` [48; 48; 65; 66; 70; 70; 10] ->
     lh_str_ptr_parse_hex_bytes (Some [48; 48; 65; 66; 70; 70; 10]) 7 (Some (local 3)) 3
     = Done (Some bytes, true)) /\
    (7 < 6 \/ Exists (fun c => xvalue c = None) [48; 48; 65; 66; 70; 70] ->
     lh_str_ptr_parse_hex_bytes (Some [48; 48; 65; 66; 70; 70; 10]) 7 (Some (local 3)) 3
     = Done (Some (local 3), false)).
Proof.
  apply (hex_bytes_roundtrip true [0; 171; 255] (local 9) [48; 48; 65; 66; 70; 70; 10] (local 3));
    [bytes|done..].
Defined.
