(* ===== verification/Format.v ===== *)
(** * Masks and formatted text: the code

    [lh/core/str/scanf/spec.c], the token of a printf-like mask; [scanf/next.c], which
    walks a mask token by token; and [lh/core/str/format/text.c], which formats
    arguments by a mask into a buffer, or only counts the characters when there is no
    buffer.  A mask is an array that holds a NUL; a pointer into it is the rest of
    the array.  The position of the walk and the token are values that go in and come
    out.  The variable arguments are the list of the values passed, [va_arg] takes the
    first one, and taking one of another type is undefined. *)
From S2P Require Import Prelude Buffer Bytes Digits.

Definition lh_char_map_nul : Z := 0.
Definition lh_char_map_space : Z := 32.
Definition lh_char_map_percent : Z := 37.
Definition lh_char_map_period : Z := 46.
Definition lh_char_map_slash : Z := 47.
Definition lh_char_map_colon : Z := 58.
Definition lh_char_map_capital_x : Z := 88.
Definition lh_char_map_small_c : Z := 99.
Definition lh_char_map_small_d : Z := 100.
Definition lh_char_map_small_i : Z := 105.
Definition lh_char_map_small_s : Z := 115.
Definition lh_char_map_small_u : Z := 117.
Definition lh_char_map_small_x : Z := 120.

(** ** Tokens *)

Inductive lh_str_scanf_spec_kind_t :=
| lh_str_scanf_spec_kind_invalid
| lh_str_scanf_spec_kind_literal
| lh_str_scanf_spec_kind_percent
| lh_str_scanf_spec_kind_char
| lh_str_scanf_spec_kind_str
| lh_str_scanf_spec_kind_uint
| lh_str_scanf_spec_kind_sint
| lh_str_scanf_spec_kind_hex.
#[export] Instance kind_eq_dec : EqDecision lh_str_scanf_spec_kind_t.
Proof. solve_decision. Defined.

Record lh_str_scanf_spec_t := Spec {
  kind : lh_str_scanf_spec_kind_t;
  zero_pad : bool;
  left_justify : bool;
  uppercase : bool;
  width : Z;
  have_precision : bool;
  precision : Z;
  literal : option buffer;
  literal_size : Z;
}.

Section Tokens.
Implicit Types self : lh_str_scanf_spec_t.

Definition lh_str_scanf_spec_get_kind self := kind self.
Definition lh_str_scanf_spec_get_zero_pad self := zero_pad self.
Definition lh_str_scanf_spec_get_left_justify self := left_justify self.
Definition lh_str_scanf_spec_get_uppercase self := uppercase self.
Definition lh_str_scanf_spec_get_width self := width self.
Definition lh_str_scanf_spec_get_have_precision self := have_precision self.
Definition lh_str_scanf_spec_get_precision self := precision self.
Definition lh_str_scanf_spec_get_literal self := literal self.
Definition lh_str_scanf_spec_get_literal_size self := literal_size self.

Definition lh_str_scanf_spec_set_kind self v :=
  let '(Spec _ z l u w h p s n) := self in Spec v z l u w h p s n.
Definition lh_str_scanf_spec_set_zero_pad self v :=
  let '(Spec k _ l u w h p s n) := self in Spec k v l u w h p s n.
Definition lh_str_scanf_spec_set_left_justify self v :=
  let '(Spec k z _ u w h p s n) := self in Spec k z v u w h p s n.
Definition lh_str_scanf_spec_set_uppercase self v :=
  let '(Spec k z l _ w h p s n) := self in Spec k z l v w h p s n.
Definition lh_str_scanf_spec_set_width self v :=
  let '(Spec k z l u _ h p s n) := self in Spec k z l u v h p s n.
Definition lh_str_scanf_spec_set_have_precision self v :=
  let '(Spec k z l u w _ p s n) := self in Spec k z l u w v p s n.
Definition lh_str_scanf_spec_set_precision self v :=
  let '(Spec k z l u w h _ s n) := self in Spec k z l u w h v s n.
Definition lh_str_scanf_spec_set_literal self v :=
  let '(Spec k z l u w h p _ n) := self in Spec k z l u w h p v n.
Definition lh_str_scanf_spec_set_literal_size self v :=
  let '(Spec k z l u w h p s _) := self in Spec k z l u w h p s v.

(** [(lh_str_scanf_spec_t){0}] *)
Definition spec_zero : lh_str_scanf_spec_t :=
  Spec lh_str_scanf_spec_kind_invalid false false false 0 false 0 None 0.
Definition lh_str_scanf_spec_clear self (fmt : option buffer) : lh_str_scanf_spec_t :=
  lh_str_scanf_spec_set_literal spec_zero fmt.
Definition lh_str_scanf_spec_get_limit self (remaining : Z) : Z :=
  let width := lh_str_scanf_spec_get_width self in
  if (width >? 0) && (width <? remaining) then width else remaining.
Definition lh_str_scanf_spec_get_pad self (size : Z) : Z :=
  let width := lh_str_scanf_spec_get_width self in
  if width >? size then u64 (width - size) else 0.
Definition lh_str_scanf_spec_set_conversion self (conversion : Z) : lh_str_scanf_spec_t :=
  if conversion =? lh_char_map_percent then
    lh_str_scanf_spec_set_kind self lh_str_scanf_spec_kind_percent
  else if conversion =? lh_char_map_small_c then
    lh_str_scanf_spec_set_kind self lh_str_scanf_spec_kind_char
  else if conversion =? lh_char_map_small_s then
    lh_str_scanf_spec_set_kind self lh_str_scanf_spec_kind_str
  else if conversion =? lh_char_map_small_u then
    lh_str_scanf_spec_set_kind self lh_str_scanf_spec_kind_uint
  else if (conversion =? lh_char_map_small_d) || (conversion =? lh_char_map_small_i) then
    lh_str_scanf_spec_set_kind self lh_str_scanf_spec_kind_sint
  else if conversion =? lh_char_map_small_x then
    lh_str_scanf_spec_set_kind self lh_str_scanf_spec_kind_hex
  else if conversion =? lh_char_map_capital_x then
    lh_str_scanf_spec_set_uppercase
      (lh_str_scanf_spec_set_kind self lh_str_scanf_spec_kind_hex) true
  else self.
End Tokens.

(** ** The walk over a mask *)

Fixpoint literal_loop (fuel : nat) (fmt : buffer) (fmt_pos : Z) : outcome Z :=
  match fuel with
  | O => Undef
  | S fuel =>
    ch ← load fmt fmt_pos;
    if negb (ch =? lh_char_map_nul) && negb (ch =? lh_char_map_percent)
    then literal_loop fuel fmt (u64 (fmt_pos + 1)) else mret fmt_pos
  end.
Definition lh_str_ptr_scanf_next_literal (fmt : option buffer) (pos : Z)
    (out : lh_str_scanf_spec_t) : outcome (Z * lh_str_scanf_spec_t) :=
  f ← assert_set fmt;
  let run_start := pos in
  fmt_pos ← literal_loop (S (length f)) f run_start;
  let out := lh_str_scanf_spec_set_kind out lh_str_scanf_spec_kind_literal in
  let out := lh_str_scanf_spec_set_literal out (ptr_add fmt run_start) in
  let out := lh_str_scanf_spec_set_literal_size out (u64 (fmt_pos - run_start)) in
  mret (fmt_pos, out).

Fixpoint flags_loop (fuel : nat) (fmt : buffer) (fmt_pos : Z) (out : lh_str_scanf_spec_t)
    : outcome (Z * lh_str_scanf_spec_t) :=
  match fuel with
  | O => Undef
  | S fuel =>
    ch ← load fmt fmt_pos;
    if ch =? lh_char_map_digit_0 then
      flags_loop fuel fmt (u64 (fmt_pos + 1)) (lh_str_scanf_spec_set_zero_pad out true)
    else if ch =? lh_char_map_minus then
      flags_loop fuel fmt (u64 (fmt_pos + 1)) (lh_str_scanf_spec_set_left_justify out true)
    else mret (fmt_pos, out)
  end.
Definition lh_str_ptr_scanf_next_flags (fmt : option buffer) (pos : Z)
    (out : lh_str_scanf_spec_t) : outcome (Z * lh_str_scanf_spec_t) :=
  f ← assert_set fmt;
  flags_loop (S (length f)) f pos out.

(** The position, the number, and whether it fits. *)
Fixpoint number_loop (fuel : nat) (fmt : buffer) (fmt_pos number : Z)
    : outcome (Z * Z * bool) :=
  match fuel with
  | O => Undef
  | S fuel =>
    ch ← load fmt fmt_pos;
    if lh_char_is_digit ch then
      digit ← lh_char_to_digit ch;
      '(number, fits) ← lh_char_digit_accumulate number digit;
      if negb fits then mret (fmt_pos, number, false)
      else number_loop fuel fmt (u64 (fmt_pos + 1)) number
    else mret (fmt_pos, number, true)
  end.
Definition lh_str_ptr_scanf_next_number (fmt : option buffer) (pos : Z)
    : outcome (Z * Z * bool) :=
  f ← assert_set fmt;
  number_loop (S (length f)) f pos 0.

Definition lh_str_ptr_scanf_next (fmt : option buffer) (pos : Z) (out : lh_str_scanf_spec_t)
    : outcome (Z * lh_str_scanf_spec_t * bool) :=
  f ← assert_set fmt;
  let out := lh_str_scanf_spec_set_literal spec_zero fmt in
  ch ← load f pos;
  if ch =? lh_char_map_nul then mret (pos, out, false) else
  if negb (ch =? lh_char_map_percent) then
    '(pos, out) ← lh_str_ptr_scanf_next_literal fmt pos out;
    mret (pos, out, true)
  else
  let fmt_pos := u64 (pos + 1) in
  ch ← load f fmt_pos;
  if negb (ch =? lh_char_map_digit_0) && negb (ch =? lh_char_map_minus)
     && negb (ch =? lh_char_map_period) && negb (ch =? lh_char_map_nul)
     && negb (lh_char_is_digit ch)
  then mret (u64 (fmt_pos + 1), lh_str_scanf_spec_set_conversion out ch, true) else
  '(fmt_pos, out) ← lh_str_ptr_scanf_next_flags fmt fmt_pos out;
  '(fmt_pos, number, fits) ← lh_str_ptr_scanf_next_number fmt fmt_pos;
  if negb fits then mret (fmt_pos, out, true) else
  let out := lh_str_scanf_spec_set_width out number in
  ch ← load f fmt_pos;
  '(fmt_pos, out, fits) ←
    (if ch =? lh_char_map_period then
       let fmt_pos := u64 (fmt_pos + 1) in
       let out := lh_str_scanf_spec_set_have_precision out true in
       '(fmt_pos, number, fits) ← lh_str_ptr_scanf_next_number fmt fmt_pos;
       mret (fmt_pos, if fits : bool then lh_str_scanf_spec_set_precision out number else out, fits)
     else mret (fmt_pos, out, true));
  if negb fits then mret (fmt_pos, out, true) else
  ch ← load f fmt_pos;
  if ch =? lh_char_map_nul then mret (fmt_pos, out, true) else
  mret (u64 (fmt_pos + 1), lh_str_scanf_spec_set_conversion out ch, true).

(** ** Formatting *)

Definition LH_STR_PTR_INVALID : Z := LH_USIZE_T_MAX.
Definition LH_STR_FORMAT_TEXT_VALUE_BUF_MAX : Z := LH_STR_FORMAT_UINT_DIGITS_MAX + 1.

(** A variable argument.  An [unsigned] and an [int] argument may be taken as one
    another when the value is in the range of both. *)
Inductive lh_va_arg :=
| va_uint (v : Z)
| va_sint (v : Z)
| va_str (s : option buffer).
Definition va_arg_uint (args : list lh_va_arg) : outcome (Z * list lh_va_arg) :=
  match args with
  | va_uint v :: args => mret (v, args)
  | va_sint v :: args => if 0 <=? v then mret (v, args) else Undef
  | _ => Undef
  end.
Definition va_arg_sint (args : list lh_va_arg) : outcome (Z * list lh_va_arg) :=
  match args with
  | va_sint v :: args => mret (v, args)
  | va_uint v :: args => if v <? 2147483648 then mret (v, args) else Undef
  | _ => Undef
  end.
Definition va_arg_str (args : list lh_va_arg) : outcome (option buffer * list lh_va_arg) :=
  match args with va_str s :: args => mret (s, args) | _ => Undef end.

(** What [lh_str_ptr_len] promises: the number of characters before the NUL. *)
Fixpoint strlen (s : buffer) : outcome Z :=
  match s with
  | [] => Undef
  | ch :: s => if ch =? lh_char_map_nul then mret 0 else n ← strlen s; mret (n + 1)
  end.

(** Each of the steps below returns the buffer, the position and the result. *)
Definition lh_str_ptr_format_text_put_text (str : option buffer) (str_size pos : Z)
    (text : option buffer) (n : Z) : outcome (option buffer * Z * bool) :=
  let at_ := pos in
  match str with
  | Some s =>
    if n >? u64 (str_size - at_) then mret (str, pos, false) else
    text ← assert_set text;
    s ← copy_bytes s at_ text n;
    mret (Some s, u64 (at_ + n), true)
  | None => mret (str, u64 (at_ + n), true)
  end.
Definition lh_str_ptr_format_text_put_run (str : option buffer) (str_size pos ch n : Z)
    : outcome (option buffer * Z * bool) :=
  let at_ := pos in
  match str with
  | Some s =>
    if n >? u64 (str_size - at_) then mret (str, pos, false) else
    s ← set_bytes s at_ (u8 ch) n;
    mret (Some s, u64 (at_ + n), true)
  | None => mret (str, u64 (at_ + n), true)
  end.

(** The arguments left, [buf], the content and the size, which are not set by a
    conversion the engine does not know, and the result. *)
Record value_text := ValueText {
  vt_args : list lh_va_arg;
  vt_buf : buffer;
  vt_content : option buffer;
  vt_size : Z;
  vt_ok : bool;
}.
Definition lh_str_ptr_format_text_get_value (spec : lh_str_scanf_spec_t)
    (args : list lh_va_arg) (buf : buffer) (size : Z) : outcome value_text :=
  let kind := lh_str_scanf_spec_get_kind spec in
  let number r :=
    '(b, n) ← r;
    b ← assert_set b;
    mret (b, n) in
  match kind with
  | lh_str_scanf_spec_kind_percent =>
    buf ← put buf 0 lh_char_map_percent;
    mret (ValueText args buf (Some buf) 1 true)
  | lh_str_scanf_spec_kind_char =>
    '(v, args) ← va_arg_sint args;
    buf ← put buf 0 (u8 v);
    mret (ValueText args buf (Some buf) 1 true)
  | lh_str_scanf_spec_kind_uint =>
    '(v, args) ← va_arg_uint args;
    '(buf, n) ← number (lh_str_ptr_format_uint v (Some buf) LH_STR_FORMAT_TEXT_VALUE_BUF_MAX);
    mret (ValueText args buf (Some buf) n (negb (n =? 0)))
  | lh_str_scanf_spec_kind_sint =>
    '(v, args) ← va_arg_sint args;
    '(buf, n) ← number (lh_str_ptr_format_sint v (Some buf) LH_STR_FORMAT_TEXT_VALUE_BUF_MAX);
    mret (ValueText args buf (Some buf) n (negb (n =? 0)))
  | lh_str_scanf_spec_kind_hex =>
    '(v, args) ← va_arg_uint args;
    '(buf, n) ← number (lh_str_ptr_format_hex v (lh_str_scanf_spec_get_uppercase spec) (Some buf)
                          LH_STR_FORMAT_TEXT_VALUE_BUF_MAX);
    mret (ValueText args buf (Some buf) n (negb (n =? 0)))
  | lh_str_scanf_spec_kind_str =>
    '(content, args) ← va_arg_str args;
    s ← assert_set content;
    n ← strlen s;
    let n := if lh_str_scanf_spec_get_have_precision spec
             then Z.min n (lh_str_scanf_spec_get_precision spec) else n in
    mret (ValueText args buf content n true)
  | _ => mret (ValueText args buf (Some buf) size false)
  end.

Definition lh_str_ptr_format_text_put_field (str : option buffer) (str_size pos : Z)
    (spec : lh_str_scanf_spec_t) (content : option buffer) (size : Z)
    : outcome (option buffer * Z * bool) :=
  let width := lh_str_scanf_spec_get_width spec in
  let pad := if width >? size then u64 (width - size) else 0 in
  let at_ := pos in
  if (if str then u64 (pad + size) >? u64 (str_size - at_) else false)
  then mret (str, pos, false) else
  if pad =? 0 then
    '(str, at_, _) ← lh_str_ptr_format_text_put_text str str_size at_ content size;
    mret (str, at_, true)
  else
  has_sign ←
    (if size >? 0 then
       c ← assert_set content; ch ← load c 0; mret (ch =? lh_char_map_minus)
     else mret false);
  if lh_str_scanf_spec_get_left_justify spec then
    '(str, at_, _) ← lh_str_ptr_format_text_put_text str str_size at_ content size;
    '(str, at_, _) ← lh_str_ptr_format_text_put_run str str_size at_ lh_char_map_space pad;
    mret (str, at_, true)
  else if lh_str_scanf_spec_get_zero_pad spec && has_sign then
    '(str, at_, _) ← lh_str_ptr_format_text_put_text str str_size at_ content 1;
    '(str, at_, _) ← lh_str_ptr_format_text_put_run str str_size at_ lh_char_map_digit_0 pad;
    '(str, at_, _) ← lh_str_ptr_format_text_put_text str str_size at_
                       (ptr_add content 1) (u64 (size - 1));
    mret (str, at_, true)
  else
    '(str, at_, _) ← lh_str_ptr_format_text_put_run str str_size at_
      (if lh_str_scanf_spec_get_zero_pad spec then lh_char_map_digit_0 else lh_char_map_space)
      pad;
    '(str, at_, _) ← lh_str_ptr_format_text_put_text str str_size at_ content size;
    mret (str, at_, true).

(** The token of the round before is what [lh_str_ptr_scanf_next] starts from, and
    wipes. *)
Fixpoint walk_loop (fuel : nat) (str : option buffer) (str_size : Z) (fmt : option buffer)
    (args : list lh_va_arg) (failed out_pos fmt_pos : Z) (spec : lh_str_scanf_spec_t)
    (buf : buffer) : outcome (option buffer * Z) :=
  match fuel with
  | O => Undef
  | S fuel =>
    '(fmt_pos, spec, more) ← lh_str_ptr_scanf_next fmt fmt_pos spec;
    if negb more then mret (str, out_pos) else
    match lh_str_scanf_spec_get_kind spec with
    | lh_str_scanf_spec_kind_literal =>
      '(str, out_pos, ok) ← lh_str_ptr_format_text_put_text str str_size out_pos
        (lh_str_scanf_spec_get_literal spec) (lh_str_scanf_spec_get_literal_size spec);
      if negb ok then mret (str, 0)
      else walk_loop fuel str str_size fmt args failed out_pos fmt_pos spec buf
    | lh_str_scanf_spec_kind_invalid => mret (str, failed)
    | _ =>
      v ← lh_str_ptr_format_text_get_value spec args buf 0;
      if negb (vt_ok v) then mret (str, failed) else
      '(str, out_pos, ok) ← lh_str_ptr_format_text_put_field str str_size out_pos spec
        (vt_content v) (vt_size v);
      if negb ok then mret (str, 0)
      else walk_loop fuel str str_size fmt (vt_args v) failed out_pos fmt_pos spec (vt_buf v)
    end
  end.
(** Every token takes a character of the mask. *)
Definition lh_str_ptr_format_text_walk (str : option buffer) (str_size : Z)
    (fmt : option buffer) (args : list lh_va_arg) : outcome (option buffer * Z) :=
  let failed := match str with None => LH_STR_PTR_INVALID | Some _ => 0 end in
  walk_loop (S (length (default [] fmt))) str str_size fmt args failed 0 0 spec_zero
    (local LH_STR_FORMAT_TEXT_VALUE_BUF_MAX).

Definition lh_str_ptr_format_text_v (str : option buffer) (str_size : Z)
    (fmt : option buffer) (args : list lh_va_arg) : outcome (option buffer * Z) :=
  _ ← assert_set str;
  lh_str_ptr_format_text_walk str str_size fmt args.
Definition lh_str_ptr_format_text_size_v (fmt : option buffer) (args : list lh_va_arg)
    : outcome Z :=
  '(_, n) ← lh_str_ptr_format_text_walk None 0 fmt args;
  mret n.
Definition lh_str_ptr_format_text (str : option buffer) (str_size : Z)
    (fmt : option buffer) (args : list lh_va_arg) : outcome (option buffer * Z) :=
  lh_str_ptr_format_text_v str str_size fmt args.
Definition lh_str_ptr_format_text_size (fmt : option buffer) (args : list lh_va_arg)
    : outcome Z :=
  lh_str_ptr_format_text_size_v fmt args.
Definition lh_str_ptr_format_cstr_v (str : option buffer) (str_size : Z)
    (fmt : option buffer) (args : list lh_va_arg) : outcome (option buffer * Z) :=
  _ ← assert_set str;
  _ ← fail_if (str_size =? 0) lh_runtime_error_code_invalid_argument;
  '(str, size) ← lh_str_ptr_format_text_v str (u64 (str_size - 1)) fmt args;
  s ← assert_set str;
  s ← put s size lh_char_map_nul;
  mret (Some s, size).
Definition lh_str_ptr_format_cstr (str : option buffer) (str_size : Z)
    (fmt : option buffer) (args : list lh_va_arg) : outcome (option buffer * Z) :=
  lh_str_ptr_format_cstr_v str str_size fmt args.
