(* ===== verification/FormatProofs.v ===== *)
(** * Masks and formatted text: correctness

    A mask is a list of tokens: the walk is total on an array with a NUL, moves
    forward with every token and never reads past the NUL.  Formatting then writes the
    texts of the tokens one after the other, each whole, and stops at the first that
    does not fit; counting answers the size writing takes. *)
From S2P Require Import Prelude Buffer Bytes Digits DigitsProofs Format.

(** ** The walk *)

(** [m] before the NUL, anything after it. *)
Definition is_mask (m : list Z) : Prop := Forall (fun c => c <> 0) m.
Definition cstring (m r : list Z) : buffer := m ++ 0 :: r.

Lemma cstring_at m r k : is_mask m -> (k <= length m)%nat ->
  exists c, load (cstring m r) (Z.of_nat k) = Done c /\ cstring m r !! k = Some c /\
    (c = 0 <-> k = length m).
Proof.
  intros Hm Hk. destruct (decide (k = length m)) as [->|Hne].
  - exists 0. assert (cstring m r !! length m = Some 0) as Hl
      by (unfold cstring; by rewrite lookup_app_r, Nat.sub_diag by lia).
    split; [by apply load_ok|done].
  - destruct (lookup_lt_is_Some_2 m k) as [c Hc]; [lia|]. exists c.
    assert (cstring m r !! k = Some c) as Hl by (unfold cstring; by rewrite lookup_app_l by lia).
    split; [by apply load_ok|]. split; [done|]. split; [|done]. intros ->.
    by eapply (Forall_lookup_1 _ _ _ _ Hm) in Hc.
Qed.
Lemma length_cstring m r : len (cstring m r) = len m + 1 + len r.
Proof. unfold cstring. rewrite length_app. cbn [length]. lia. Qed.
Lemma next_pos k n : Z.of_nat n < 18446744073709551615 -> (k < n)%nat ->
  u64 (Z.of_nat k + 1) = Z.of_nat (S k).
Proof. intros. rewrite u64_id by zb. lia. Qed.

Section Walk.
Context (m r : list Z) (Hm : is_mask m) (Hl : len (cstring m r) < 18446744073709551616).
Notation f := (cstring m r).

(** Read the character at [k]. *)
Local Ltac read k c Hz :=
  let Hc := fresh "Hc" in let Ha := fresh "Ha" in
  destruct (cstring_at m r k Hm ltac:(lia)) as (c & Hc & Ha & Hz);
  rewrite Hc, bind_done.

Lemma literal_loop_spec : forall fuel k, (length m - k < fuel)%nat -> (k <= length m)%nat ->
  exists j, literal_loop fuel f (Z.of_nat k) = Done (Z.of_nat j) /\ (k <= j <= length m)%nat /\
    (forall c, f !! k = Some c -> c <> 0 -> c <> 37 -> (k < j)%nat).
Proof using Hm Hl.
  rewrite length_cstring in Hl.
  induction fuel as [|fuel IH]; intros k Hf Hk; [lia|]. cbn [literal_loop]. read k c Hz.
  unfold lh_char_map_nul, lh_char_map_percent.
  destruct (Z.eqb_spec c 0) as [->|Hc0]; cbn [negb andb].
  { exists k. split; [done|]. split; [lia|]. intros c' [= <-]%(eq_trans (eq_sym Ha)). done. }
  destruct (Z.eqb_spec c 37) as [->|Hc37]; cbn [negb].
  { exists k. split; [done|]. split; [lia|]. intros c' [= <-]%(eq_trans (eq_sym Ha)). done. }
  assert (k <> length m) by tauto. rewrite (next_pos k (length m)) by lia.
  destruct (IH (S k)) as (j & -> & Hj & _); [lia..|]. exists j. split; [done|]. split; [lia|]. lia.
Qed.
Lemma flags_loop_spec : forall fuel k s, (length m - k < fuel)%nat -> (k <= length m)%nat ->
  exists j s', flags_loop fuel f (Z.of_nat k) s = Done (Z.of_nat j, s') /\
    (k <= j <= length m)%nat /\ exists z l, s' = lh_str_scanf_spec_set_zero_pad
      (lh_str_scanf_spec_set_left_justify s l) z.
Proof using Hm Hl.
  rewrite length_cstring in Hl.
  induction fuel as [|fuel IH]; intros k s Hf Hk; [lia|]. cbn [flags_loop]. read k c Hz.
  unfold lh_char_map_digit_0, lh_char_map_minus.
  destruct (Z.eqb_spec c 48) as [->|].
  { assert (k <> length m) by (intros ?%Hz; done). rewrite (next_pos k (length m)) by lia.
    destruct (IH (S k) (lh_str_scanf_spec_set_zero_pad s true)) as (j & s' & -> & Hj & z & l & ->);
      [lia..|]. eexists j, _. split; [done|]. split; [lia|]. exists z, l. by destruct s. }
  destruct (Z.eqb_spec c 45) as [->|].
  { assert (k <> length m) by (intros ?%Hz; done). rewrite (next_pos k (length m)) by lia.
    destruct (IH (S k) (lh_str_scanf_spec_set_left_justify s true)) as (j & s' & -> & Hj & z & l & ->);
      [lia..|]. eexists j, _. split; [done|]. split; [lia|]. exists z, l. by destruct s. }
  exists k, s. split; [done|]. split; [lia|]. exists (zero_pad s), (left_justify s). by destruct s.
Qed.
Lemma number_loop_spec : forall fuel k v, (length m - k < fuel)%nat -> (k <= length m)%nat ->
  is_u32 v ->
  exists j v' fits, number_loop fuel f (Z.of_nat k) v = Done (Z.of_nat j, v', fits) /\
    (k <= j <= length m)%nat /\ is_u32 v'.
Proof using Hm Hl.
  rewrite length_cstring in Hl.
  induction fuel as [|fuel IH]; intros k v Hf Hk Hv; [lia|]. cbn [number_loop]. read k c Hz.
  destruct (lh_char_is_digit c) eqn:Hd.
  2:{ exists k, v, true. split; [done|]. split; [lia|done]. }
  assert (k <> length m) by (intros ->%Hz; done).
  assert (dvalue c = Some (c - 48)) as Hdv by (unfold dvalue; by rewrite Hd).
  destruct (to_digit_ok _ _ Hdv) as [-> Hr]. rewrite bind_done.
  unfold lh_char_digit_accumulate. rewrite accumulate_radix_ok by (unfold LH_CHAR_DIGIT_RADIX; zb).
  unfold LH_CHAR_DIGIT_RADIX, LH_UINT_T_MAX.
  destruct (Z.leb_spec (v * 10 + (c - 48)) 4294967295); rewrite bind_done; cbn [negb].
  2:{ exists k, v, false. split; [done|]. split; [lia|done]. }
  rewrite (next_pos k (length m)) by lia.
  destruct (IH (S k) (v * 10 + (c - 48))) as (j & v' & b & -> & Hj & Hv'); [lia|lia|zb|].
  exists j, v', b. split; [done|]. split; [lia|done].
Qed.

(** What a step of the walk gives from position [k]. *)
Definition step_ok (k : nat) (j : nat) (s : lh_str_scanf_spec_t) (more : bool) : Prop :=
  (k <= j <= length m)%nat /\ is_u32 (width s) /\ is_u32 (precision s) /\
  (if more then (k < j)%nat else k = length m) /\
  (kind s = lh_str_scanf_spec_kind_literal ->
   literal s = Some (drop k f) /\ literal_size s = Z.of_nat (j - k)).

Lemma conversion_ok k j s c : (k < j <= length m)%nat -> is_u32 (width s) -> is_u32 (precision s) ->
  kind s = lh_str_scanf_spec_kind_invalid ->
  step_ok k j (lh_str_scanf_spec_set_conversion s c) true.
Proof using.
  intros Hj Hw Hp Hk. unfold step_ok, lh_str_scanf_spec_set_conversion. destruct s; simpl in *. subst.
  repeat case_match; simpl in *; split_and!; try done; lia.
Qed.
Lemma invalid_ok k j s : (k < j <= length m)%nat -> is_u32 (width s) -> is_u32 (precision s) ->
  kind s = lh_str_scanf_spec_kind_invalid -> step_ok k j s true.
Proof using. intros ? ? ? E. unfold step_ok. rewrite E. split_and!; try done; lia. Qed.

(** The end of a token: its conversion, after the flags, the width and the precision. *)
Lemma tail_ok k j s b : (k < j <= length m)%nat -> is_u32 (width s) -> is_u32 (precision s) ->
  kind s = lh_str_scanf_spec_kind_invalid ->
  exists j' s' more,
    (if negb b then mret (Z.of_nat j, s, true) else
     ch ← load f (Z.of_nat j);
     if ch =? lh_char_map_nul then mret (Z.of_nat j, s, true) else
     mret (u64 (Z.of_nat j + 1), lh_str_scanf_spec_set_conversion s ch, true))
    = Done (Z.of_nat j', s', more) /\ step_ok k j' s' more.
Proof using Hm Hl.
  rewrite length_cstring in Hl. intros Hj Hw Hp Hk. destruct b; cbn [negb].
  2:{ exists j, s, true. split; [done|]. by apply invalid_ok. }
  read j c Hz. unfold lh_char_map_nul. destruct (Z.eqb_spec c 0).
  { exists j, s, true. split; [done|]. by apply invalid_ok. }
  assert (j <> length m) by tauto. rewrite (next_pos j (length m)) by lia.
  exists (S j), (lh_str_scanf_spec_set_conversion s c), true. split; [done|]. apply conversion_ok; lia || done.
Qed.
Lemma scanf_next_spec k s : (k <= length m)%nat ->
  exists j s' more, lh_str_ptr_scanf_next (Some f) (Z.of_nat k) s = Done (Z.of_nat j, s', more) /\
    step_ok k j s' more.
Proof using Hm Hl.
  pose proof Hl as Hl'. rewrite length_cstring in Hl'.
  assert (length m < length f)%nat as Hf by (unfold cstring; rewrite length_app; cbn [length]; lia).
  intros Hk. unfold lh_str_ptr_scanf_next. cbn [assert_set]. rewrite bind_done. cbv zeta.
  read k c Hz. unfold lh_char_map_nul, lh_char_map_percent.
  destruct (Z.eqb_spec c 0) as [->|H0].
  { eexists k, _, false. split; [done|]. pose proof (proj1 Hz eq_refl). split_and!; done || lia. }
  destruct (Z.eqb_spec c 37) as [->|H37]; cbn [negb].
  2:{ unfold lh_str_ptr_scanf_next_literal. cbn [assert_set]. rewrite bind_done. cbv zeta.
      destruct (literal_loop_spec (S (length f)) k) as (j & -> & Hj & Hlt); [lia..|].
      rewrite !bind_done. cbn [mret outcome_ret mbind outcome_bind]. eexists j, _, true. split; [done|].
      specialize (Hlt c Ha H0 H37). split_and!; try done; [lia..|]. intros _. simpl.
      unfold ptr_add. rewrite Nat2Z.id. split; [done|]. rewrite u64_id by zb. lia. }
  assert (k <> length m) by tauto. rewrite (next_pos k (length m)) by lia.
  read (S k) c Hz'. destruct (_ && _) eqn:Hplain.
  { assert (c <> 0) as Hnz. { intros ->. by rewrite andb_false_r in Hplain. }
    assert (S k <> length m) by tauto. rewrite (next_pos (S k) (length m)) by lia.
    eexists (S (S k)), _, true. split; [done|]. by apply conversion_ok; [lia|..]. }
  clear Hplain. unfold lh_str_ptr_scanf_next_flags, lh_str_ptr_scanf_next_number. cbn [assert_set].
  rewrite !bind_done.
  destruct (flags_loop_spec (S (length f)) (S k) (lh_str_scanf_spec_set_literal spec_zero (Some f)))
    as (j & s1 & -> & Hj & z & l & ->); [lia..|]. rewrite bind_done. cbv beta iota.
  rewrite bind_done.
  destruct (number_loop_spec (S (length f)) j 0) as (i & w & fits & -> & Hi & Hw); [lia..|zb|].
  rewrite bind_done. cbv beta iota.
  destruct fits; cbn [negb]; [|eexists i, _, true; split; [done|]; by apply invalid_ok; [lia|..]].
  read i c' Hz''. unfold lh_char_map_period. destruct (Z.eqb_spec c' 46) as [->|].
  2:{ cbn [mret outcome_ret]. rewrite bind_done. cbv beta iota. apply (tail_ok k i _ true); [lia|done..]. }
  assert (i <> length m) by (by intros ?%Hz''). rewrite (next_pos i (length m)) by lia.
  rewrite !bind_done.
  destruct (number_loop_spec (S (length f)) (S i) 0) as (i' & p & fits & -> & Hi' & Hp); [lia..|zb|].
  rewrite bind_done. cbv beta iota. cbn [mret outcome_ret]. rewrite bind_done. cbv beta iota.
  apply (tail_ok k i' _ fits); [lia|by destruct fits..].
Qed.
End Walk.

(** ** The texts *)

(** The digits of a hexadecimal number, [n] of them. *)
Fixpoint hex_digits (up : bool) (n : nat) (v : Z) : list Z :=
  match n with O => [] | S n => hex_digits up n (v / 16) ++ [hex_char up (v mod 16)] end.
Definition hex_count (v : Z) : Z := if v =? 0 then 1 else Z.log2 v / 4 + 1.
Definition hex_number (up : bool) (v : Z) : list Z := hex_digits up (Z.to_nat (hex_count v)) v.

Lemma length_hex_digits up n v : length (hex_digits up n v) = n.
Proof. revert v. induction n as [|n IH]; intros v; [done|]. cbn [hex_digits]. rewrite length_app, IH. simpl. lia. Qed.
Lemma hex_count_bound v : is_u32 v -> 1 <= hex_count v <= 8.
Proof.
  intros Hv. unfold hex_count. destruct (Z.eqb_spec v 0); [lia|].
  assert (Z.log2 v < 32) by (apply Z.log2_lt_pow2; [zb|change (2 ^ 32) with 4294967296; zb]).
  pose proof (Z.log2_nonneg v). zdm.
Qed.
Lemma hex_loop_spec up : forall n x v y, length x = n -> is_u32 v -> (1 <= n <= 8)%nat ->
  hex_loop n (hex_alphabet up) v (Z.of_nat n) (x ++ y) = Done (hex_digits up n v ++ y).
Proof.
  induction n as [|n IH]; intros x v y Hx Hv Hn; [lia|]. cbn [hex_loop]. cbv zeta.
  destruct x as [|c x' _] using rev_ind; [done|].
  rewrite length_app in Hx. cbn [length] in Hx. rewrite u64_id by zb.
  unfold lh_char_digit_extract, LH_STR_FORMAT_HEX_RADIX. rewrite u8_id by zdm.
  rewrite alphabet_load by zdm. rewrite bind_done, put_ok by (rewrite !length_app; cbn [length]; lia).
  rewrite bind_done, <-app_assoc. cbn [app].
  rewrite insert_app_r_alt by lia. replace (_ - _)%nat with 0%nat by lia. cbn [list_insert insert].
  destruct (Z.gtb_spec (Z.of_nat (S n) - 1) 0).
  - replace (Z.of_nat (S n) - 1) with (Z.of_nat n) by lia.
    change (<[0%nat:=?a]> (c :: y)) with (a :: y).
    rewrite IH by (zdm || lia). cbn [hex_digits]. by rewrite <-app_assoc.
  - assert (n = 0)%nat as -> by lia. destruct x'; [done|simpl in Hx; lia].
Qed.
Lemma format_hex_spec up v b size : is_u32 v -> 0 <= size <= len b ->
  lh_str_ptr_format_hex v up (Some b) size
  = Done (if size <? len (hex_number up v) then (Some b, 0)
          else (Some (filled (hex_number up v) b), len (hex_number up v))).
Proof.
  intros Hv Hs. pose proof (hex_count_bound v Hv) as Hc. unfold lh_str_ptr_format_hex.
  fold (hex_count v). cbn [assert_set]. rewrite bind_done. cbv zeta.
  unfold hex_number. rewrite length_hex_digits, Z2Nat.id, Z.gtb_ltb by lia.
  destruct (Z.ltb_spec size (hex_count v)); [done|].
  rewrite <-(take_drop (Z.to_nat (hex_count v)) b) at 1.
  rewrite <-(Z2Nat.id (hex_count v)) at 2 by lia.
  rewrite hex_loop_spec by (try rewrite length_take; lia || done).
  rewrite bind_done. unfold filled. by rewrite length_hex_digits.
Qed.

Definition is_s32 (x : Z) : Prop := -2147483648 <= x <= 2147483647.
Lemma format_sint_spec v b : is_s32 v -> 12 <= len b < 18446744073709551616 ->
  lh_str_ptr_format_sint v (Some b) (len b)
  = Done (Some (filled (signed_text v) b), len (signed_text v)).
Proof.
  intros Hv Hb. unfold is_s32 in Hv. unfold lh_str_ptr_format_sint, signed_text. cbn [assert_set].
  rewrite bind_done. destruct (Z.ltb_spec v 0); cbn [negb].
  2:{ rewrite u32_id by zb. pose proof (decimal_length_pow v 10 ltac:(change (10 ^ Z.of_nat 10) with 10000000000; lia) ltac:(lia)).
      rewrite format_uint_spec by (zb || lia). by rewrite (proj2 (Z.ltb_ge _ _)) by lia. }
  assert (u32 (0 - u32 v) = - v) as -> by zdm.
  destruct b as [|c b]; [simpl in Hb; lia|]. cbn [length] in *. rewrite (proj2 (Z.eqb_neq _ 0)) by lia.
  rewrite put_ok by (cbn [length]; lia). rewrite bind_done.
  change (<[Z.to_nat 0:=lh_char_map_minus]> (c :: b)) with (lh_char_map_minus :: b).
  rewrite (u64_id (_ - 1)) by zb. replace (Z.of_nat (S (length b)) - 1) with (len b) by lia.
  pose proof (decimal_length_pow (- v) 10 ltac:(change (10 ^ Z.of_nat 10) with 10000000000; lia) ltac:(lia)).
  pose proof (decimal_length (- v) ltac:(zb)).
  rewrite (fill_from_one _ _ _ (filled (decimal (- v)) b) (len (decimal (- v)))).
  2:{ rewrite format_uint_spec by (zb || lia). by rewrite (proj2 (Z.ltb_ge _ _)) by lia. }
  rewrite bind_done, (proj2 (Z.eqb_neq _ 0)), u64_id by zb.
  cbn [mret outcome_ret]. do 3 f_equal. cbn [length]. lia.
Qed.

(** The characters before the NUL. *)
Fixpoint upto_nul (s : list Z) : list Z :=
  match s with [] => [] | c :: s => if c =? 0 then [] else c :: upto_nul s end.
Lemma strlen_ok s : 0 ∈ s -> strlen s = Done (len (upto_nul s)).
Proof.
  induction s as [|c s IH]; intros Hin; [by apply not_elem_of_nil in Hin|]. cbn [strlen upto_nul].
  unfold lh_char_map_nul. destruct (Z.eqb_spec c 0); [done|].
  apply elem_of_cons in Hin as [?|Hin]; [lia|]. rewrite IH, bind_done by done. simpl. f_equal. lia.
Qed.
Lemma upto_nul_prefix s : exists r, s = upto_nul s ++ r.
Proof.
  induction s as [|c s [r Hr]]; [by exists []|]. cbn [upto_nul]. destruct (c =? 0).
  - by exists (c :: s).
  - exists r. cbn [app]. by rewrite <-Hr.
Qed.

(** An argument as the conversions take it, if they may. *)
Definition uint_arg (a : lh_va_arg) : option Z :=
  match a with
  | va_uint v => if (0 <=? v) && (v <? 4294967296) then Some v else None
  | va_sint v => if (0 <=? v) && (v <? 2147483648) then Some v else None
  | va_str _ => None
  end.
Definition sint_arg (a : lh_va_arg) : option Z :=
  match a with
  | va_sint v => if (-2147483648 <=? v) && (v <? 2147483648) then Some v else None
  | va_uint v => if (0 <=? v) && (v <? 2147483648) then Some v else None
  | va_str _ => None
  end.
Definition str_arg (a : lh_va_arg) : option (list Z) :=
  match a with
  | va_str (Some t) =>
    if bool_decide (0 ∈ t) && (len t <? 9223372036854775808) then Some (upto_nul t) else None
  | _ => None
  end.
(** The text of an argument, before the padding; [None] for a conversion that takes
    no argument or not this one. *)
Definition conv_text (s : lh_str_scanf_spec_t) (a : lh_va_arg) : option (list Z) :=
  match kind s with
  | lh_str_scanf_spec_kind_char => (fun v => [u8 v]) <$> sint_arg a
  | lh_str_scanf_spec_kind_uint => decimal <$> uint_arg a
  | lh_str_scanf_spec_kind_sint => signed_text <$> sint_arg a
  | lh_str_scanf_spec_kind_hex => hex_number (uppercase s) <$> uint_arg a
  | lh_str_scanf_spec_kind_str =>
    (fun t => if have_precision s then take (Z.to_nat (precision s)) t else t) <$> str_arg a
  | _ => None
  end.
(** Padded to the width. *)
Definition field_text (s : lh_str_scanf_spec_t) (t : list Z) : list Z :=
  let pad := (Z.to_nat (width s) - length t)%nat in
  if left_justify s then t ++ replicate pad 32 else
  if zero_pad s && bool_decide (head t = Some 45)
  then take 1 t ++ replicate pad 48 ++ drop 1 t
  else replicate pad (if zero_pad s then 48 else 32) ++ t.
Lemma length_field s t : is_u32 (width s) -> len (field_text s t) = Z.max (width s) (len t).
Proof.
  intros Hw. unfold field_text.
  destruct (left_justify s); [|destruct (zero_pad s && _)];
    rewrite ?length_app, ?length_replicate, ?length_take, ?length_drop; zb.
Qed.
Lemma field_no_pad s t : width s <= len t -> field_text s t = t.
Proof.
  intros Hw. unfold field_text. replace (_ - _)%nat with 0%nat by lia.
  destruct (left_justify s); [|destruct (zero_pad s && _)]; cbn [replicate app]; rewrite ?app_nil_r; try done.
  apply (take_drop 1).
Qed.

Lemma decimal_u32_length v : is_u32 v -> 1 <= len (decimal v) <= 10.
Proof.
  intros Hv. split; [apply decimal_length; zb|].
  apply (decimal_length_pow v 10); [change (10 ^ Z.of_nat 10) with 10000000000; zb|lia].
Qed.
Lemma signed_s32_length v : is_s32 v -> 1 <= len (signed_text v) <= 11.
Proof.
  unfold is_s32, signed_text. intros Hv. destruct (Z.ltb_spec v 0); cbn [length].
  - pose proof (decimal_u32_length (- v) ltac:(zb)). lia.
  - pose proof (decimal_u32_length v ltac:(zb)). lia.
Qed.
Lemma upto_nul_length s : (length (upto_nul s) <= length s)%nat.
Proof. destruct (upto_nul_prefix s) as [r Hr]. rewrite Hr at 2. rewrite length_app. lia. Qed.

(** What taking a value gives: the text somewhere, and [buf] still of its size. *)
Definition value_ok (args : list lh_va_arg) (t : list Z) (v : value_text) : Prop :=
  exists b rest, length b = 13%nat /\ len t < 9223372036854775808 /\
    v = ValueText args b (Some (t ++ rest)) (len t) true.
Lemma number_value args b t : length b = 13%nat -> 1 <= len t <= 13 ->
  value_ok args t
    (ValueText args (filled t b) (Some (filled t b)) (len t) (negb (len t =? 0))).
Proof.
  intros Hb Ht. exists (filled t b), (drop (length t) b). rewrite length_filled by lia.
  rewrite (proj2 (Z.eqb_neq _ 0)) by lia. split_and!; done || lia.
Qed.
Lemma char_value args (b : buffer) c : length b = 13%nat ->
  value_ok args [c] (ValueText args (<[0%nat:=c]> b) (Some (<[0%nat:=c]> b)) 1 true).
Proof.
  intros Hb. destruct b as [|x b]; [done|]. exists (c :: b), b. by split_and!.
Qed.
Lemma put_first (b : buffer) c : length b = 13%nat -> put b 0 c = Done (<[0%nat:=c]> b).
Proof. intros. by rewrite put_ok by lia. Qed.
Lemma uint_arg_ok a args v : uint_arg a = Some v -> va_arg_uint (a :: args) = Done (v, args) /\ is_u32 v.
Proof.
  unfold va_arg_uint. destruct a as [w|w|]; [..|done]; simpl; zcases; intros [= <-]; split; done || zb.
Qed.
Lemma sint_arg_ok a args v : sint_arg a = Some v -> va_arg_sint (a :: args) = Done (v, args) /\ is_s32 v.
Proof.
  unfold va_arg_sint, is_s32. destruct a as [w|w|]; [..|done]; simpl; zcases; intros [= <-];
    split; done || lia.
Qed.

Lemma get_value_spec s a args b t : conv_text s a = Some t -> length b = 13%nat ->
  is_u32 (precision s) ->
  exists v, lh_str_ptr_format_text_get_value s (a :: args) b 0 = Done v /\ value_ok args t v.
Proof.
  intros Ha Hb Hpr. unfold conv_text in Ha.
  unfold lh_str_ptr_format_text_get_value, lh_str_scanf_spec_get_kind,
    LH_STR_FORMAT_TEXT_VALUE_BUF_MAX, LH_STR_FORMAT_UINT_DIGITS_MAX, lh_str_scanf_spec_get_uppercase.
  assert (12 + 1 = len b) as -> by lia. cbv zeta.
  destruct (kind s); try done; apply fmap_Some in Ha as (v & Ha & ->).
  - destruct (sint_arg_ok _ args _ Ha) as [-> _]. rewrite bind_done. cbv beta iota.
    rewrite put_first, bind_done by done. eexists. split; [done|]. by apply char_value.
  - destruct a as [| |[t|]]; try done. simpl in Ha. destruct (_ && _) eqn:E in Ha; [|done].
    apply andb_true_iff in E as [Hin%bool_decide_eq_true Ht%Z.ltb_lt]. injection Ha as <-.
    cbn [va_arg_str mret outcome_ret mbind outcome_bind assert_set]. rewrite strlen_ok by done.
    unfold lh_str_scanf_spec_get_have_precision, lh_str_scanf_spec_get_precision.
    eexists. split; [done|]. pose proof (upto_nul_length t). destruct (upto_nul_prefix t) as [r Hr].
    destruct (have_precision s); [|exists b, r; rewrite <-Hr; split_and!; done || lia].
    exists b, (drop (Z.to_nat (precision s)) (upto_nul t) ++ r).
    rewrite app_assoc, take_drop, <-Hr, length_take. split_and!; [done|lia|]. f_equal. zb.
  - destruct (uint_arg_ok _ args _ Ha) as [-> Hv]. rewrite bind_done. cbv beta iota.
    pose proof (decimal_u32_length v Hv).
    rewrite format_uint_spec, (proj2 (Z.ltb_ge _ _)) by (done || lia).
    eexists. split; [done|]. apply number_value; lia.
  - destruct (sint_arg_ok _ args _ Ha) as [-> Hv]. rewrite bind_done. cbv beta iota.
    pose proof (signed_s32_length v Hv). rewrite format_sint_spec by (done || lia).
    eexists. split; [done|]. apply number_value; lia.
  - destruct (uint_arg_ok _ args _ Ha) as [-> Hv]. rewrite bind_done. cbv beta iota.
    pose proof (hex_count_bound v Hv).
    assert (len (hex_number (uppercase s) v) = hex_count v) as Hlen
      by (unfold hex_number; rewrite length_hex_digits; lia).
    rewrite format_hex_spec, (proj2 (Z.ltb_ge _ _)) by (done || lia).
    eexists. split; [done|]. apply number_value; lia.
Qed.

(** ** Writing and counting

    With a buffer, what has been written is [p] at its start; without one only the
    length of [p] is kept. *)
Definition dest (b : option buffer) (p : list Z) : option buffer := filled p <$> b.
Definition room_ok (b : option buffer) (size : Z) (p t : list Z) : Prop :=
  match b with
  | Some b => len p <= size <= len b /\ len b < 18446744073709551616 /\
              len t < 18446744073709551616
  | None => len p + len t < 18446744073709551616
  end.
Definition too_long (b : option buffer) (size : Z) (p t : list Z) : bool :=
  if b then size <? len p + len t else false.
Definition put_result (b : option buffer) (size : Z) (p t : list Z) : option buffer * Z * bool :=
  if too_long b size p t then (dest b p, len p, false)
  else (dest b (p ++ t), len (p ++ t), true).

Lemma put_text_spec b size p t rest : room_ok b size p t ->
  lh_str_ptr_format_text_put_text (dest b p) size (len p) (Some (t ++ rest)) (len t)
  = Done (put_result b size p t).
Proof.
  intros Hr. unfold lh_str_ptr_format_text_put_text, put_result, too_long.
  destruct b as [b|]; cbn [dest fmap option_fmap option_map].
  - destruct Hr as (Hp & Hb & Ht). rewrite (u64_id (size - _)), Z.gtb_ltb by zb.
    destruct (Z.ltb_spec (size - len p) (len t)), (Z.ltb_spec size (len p + len t)); try lia; [done|].
    cbn [assert_set]. rewrite bind_done, copy_filled by (rewrite ?length_app; lia).
    rewrite bind_done, Nat2Z.id, take_app_length, u64_id, length_app by zb.
    cbn [mret outcome_ret]. do 3 f_equal. lia.
  - simpl in Hr. rewrite u64_id, length_app by zb. cbn [mret outcome_ret]. do 3 f_equal. lia.
Qed.
Lemma put_run_spec b size p ch n : is_u8 ch -> room_ok b size p (replicate n ch) ->
  lh_str_ptr_format_text_put_run (dest b p) size (len p) ch (Z.of_nat n)
  = Done (put_result b size p (replicate n ch)).
Proof.
  intros Hc Hr. unfold lh_str_ptr_format_text_put_run, put_result, too_long, room_ok in *.
  rewrite !length_replicate in *. rewrite u8_id by done.
  destruct b as [b|]; cbn [dest fmap option_fmap option_map].
  - destruct Hr as (Hp & Hb & Ht). rewrite (u64_id (size - _)), Z.gtb_ltb by zb.
    destruct (Z.ltb_spec (size - len p) (Z.of_nat n)), (Z.ltb_spec size (len p + Z.of_nat n)); try lia; [done|].
    unfold set_bytes. rewrite copy_filled by (rewrite ?length_replicate; lia).
    rewrite bind_done, Nat2Z.id, take_ge, u64_id, length_app, length_replicate
      by (try rewrite length_replicate; zb).
    cbn [mret outcome_ret]. do 3 f_equal. lia.
  - rewrite u64_id, length_app, length_replicate by zb. cbn [mret outcome_ret]. do 3 f_equal. lia.
Qed.

(** A piece of a text that fits as a whole. *)
Lemma put_piece b size p t u : room_ok b size p (t ++ u) -> too_long b size p (t ++ u) = false ->
  room_ok b size p t /\ put_result b size p t = (dest b (p ++ t), len (p ++ t), true) /\
  room_ok b size (p ++ t) u /\ too_long b size (p ++ t) u = false.
Proof.
  unfold put_result, too_long, room_ok. rewrite !length_app. destruct b as [b|].
  - rewrite Z.ltb_ge. intros (? & ? & ?) ?. rewrite (proj2 (Z.ltb_ge _ _)) by lia.
    rewrite Z.ltb_ge. split_and!; lia || done.
  - intros ? _. split_and!; lia || done.
Qed.
Lemma put_whole b size p t : too_long b size p t = false ->
  put_result b size p t = (dest b (p ++ t), len (p ++ t), true).
Proof. unfold put_result. by intros ->. Qed.

Lemma put_field_spec b size p s t rest : is_u32 (width s) -> len t < 9223372036854775808 ->
  room_ok b size p (field_text s t) ->
  lh_str_ptr_format_text_put_field (dest b p) size (len p) s (Some (t ++ rest)) (len t)
  = Done (put_result b size p (field_text s t)).
Proof.
  intros Hw Ht Hr. pose proof (length_field s t Hw) as Hlen.
  unfold lh_str_ptr_format_text_put_field, lh_str_scanf_spec_get_width.
  set (pad := (Z.to_nat (width s) - length t)%nat).
  assert ((if width s >? len t then u64 (width s - len t) else 0) = Z.of_nat pad) as ->.
  { unfold pad. destruct (Z.gtb_spec (width s) (len t)); [rewrite u64_id by zb|]; lia. }
  cbv zeta.
  assert ((if dest b p then u64 (Z.of_nat pad + len t) >? u64 (size - len p) else false)
          = too_long b size p (field_text s t)) as ->.
  { unfold too_long, dest. destruct b as [b|]; [|done]. simpl. destruct Hr as (? & ? & ?).
    rewrite !u64_id, Hlen, Z.gtb_ltb by zb.
    destruct (Z.ltb_spec (size - len p) (Z.of_nat pad + len t)), (Z.ltb_spec size (len p + Z.max (width s) (len t)));
      lia || done. }
  unfold put_result. destruct (too_long _ _ _ _) eqn:El; [done|].
  destruct (Z.eqb_spec (Z.of_nat pad) 0) as [Hp0|Hp0].
  { pose proof (field_no_pad s t ltac:(unfold pad in Hp0; lia)) as Hft.
    rewrite Hft in *. rewrite put_text_spec, put_whole by done. done. }
  assert ((if len t >? 0 then c ← assert_set (Some (t ++ rest)); ch ← load c 0; mret (ch =? lh_char_map_minus)
           else mret false) = Done (bool_decide (head t = Some 45))) as ->.
  { destruct t as [|c t]; [done|]. rewrite Z.gtb_ltb, (proj2 (Z.ltb_lt _ _)) by (cbn [length]; lia).
    change (Done (c =? 45) = Done (bool_decide (Some c = Some 45))). f_equal.
    destruct (Z.eqb_spec c 45) as [->|]; [done|]. by rewrite bool_decide_false by (by intros [=]). }
  rewrite bind_done. revert Hr El. unfold field_text. fold pad.
  unfold lh_str_scanf_spec_get_left_justify, lh_str_scanf_spec_get_zero_pad,
    lh_char_map_space, lh_char_map_digit_0.
  destruct (left_justify s); [|destruct (zero_pad s && _) eqn:Ez]; intros Hr El.
  - destruct (put_piece _ _ _ _ _ Hr El) as (H1 & E1 & H2 & E2).
    rewrite put_text_spec, E1, bind_done by done. cbv beta iota.
    rewrite put_run_spec, put_whole, bind_done by (done || zb). cbv beta iota. by rewrite <-app_assoc.
  - apply andb_true_iff in Ez as [_ Hh%bool_decide_eq_true]. destruct t as [|c t]; [done|].
    injection Hh as ->. change (take 1 (45 :: t)) with [45] in *.
    change (drop 1 (45 :: t)) with t in *.
    change (ptr_add (Some ((45 :: t) ++ rest)) 1) with (Some (t ++ rest)).
    destruct (put_piece _ _ _ _ _ Hr El) as (H1 & E1 & H2 & E2).
    replace (u64 (len (45 :: t) - 1)) with (len t) by (cbn [length] in *; rewrite u64_id; zb).
    change (Some ((45 :: t) ++ rest)) with (Some ([45] ++ (t ++ rest))) at 1.
    change 1 with (len [45]) at 1. rewrite put_text_spec, E1, bind_done by done. cbv beta iota.
    destruct (put_piece _ _ _ _ _ H2 E2) as (H3 & E3 & H4 & E4).
    rewrite put_run_spec, E3, bind_done by (done || zb). cbv beta iota.
    rewrite put_text_spec, put_whole, bind_done by done. cbv beta iota. by rewrite <-!app_assoc.
  - destruct (put_piece _ _ _ _ _ Hr El) as (H1 & E1 & H2 & E2).
    rewrite put_run_spec, E1, bind_done by (done || by destruct (zero_pad s)). cbv beta iota.
    rewrite put_text_spec, put_whole, bind_done by done. cbv beta iota. by rewrite <-app_assoc.
Qed.

(** ** Masks as lists of tokens *)

Fixpoint tokens (fuel : nat) (fmt : buffer) (pos : Z) : list lh_str_scanf_spec_t :=
  match fuel with
  | O => []
  | S fuel =>
    match lh_str_ptr_scanf_next (Some fmt) pos spec_zero with
    | Done (pos, s, true) => s :: tokens fuel fmt pos
    | _ => []
    end
  end.
Definition mask_tokens (fmt : buffer) : list lh_str_scanf_spec_t := tokens (S (length fmt)) fmt 0.

(** The texts of the tokens, up to one that is malformed, and whether there was none.
    [None]: an argument is missing or of another type. *)
Fixpoint render (ts : list lh_str_scanf_spec_t) (args : list lh_va_arg)
    : option (list (list Z) * bool) :=
  match ts with
  | [] => Some ([], true)
  | s :: ts =>
    match kind s with
    | lh_str_scanf_spec_kind_invalid => Some ([], false)
    | lh_str_scanf_spec_kind_literal =>
      '(ps, ok) ← render ts args;
      Some (take (Z.to_nat (literal_size s)) (default [] (literal s)) :: ps, ok)
    | lh_str_scanf_spec_kind_percent =>
      '(ps, ok) ← render ts args;
      Some (field_text s [lh_char_map_percent] :: ps, ok)
    | _ =>
      match args with
      | [] => None
      | a :: args =>
        t ← conv_text s a;
        '(ps, ok) ← render ts args;
        Some (field_text s t :: ps, ok)
      end
    end
  end.

(** What gets written: each text whole, up to the first that does not fit. *)
Fixpoint fit (b : option buffer) (size : Z) (p : list Z) (ps : list (list Z))
    : list Z * bool :=
  match ps with
  | [] => (p, true)
  | t :: ps => if too_long b size p t then (p, false) else fit b size (p ++ t) ps
  end.

Definition all_room (b : option buffer) (size : Z) (p : list Z) (ps : list (list Z)) : Prop :=
  match b with
  | Some b => len p <= size <= len b /\ len b < 18446744073709551616
  | None => len p + len (concat ps) < 18446744073709551616
  end.
Lemma all_room_cons b size p t ps : len t < 18446744073709551616 -> all_room b size p (t :: ps) ->
  room_ok b size p t /\ (too_long b size p t = false -> all_room b size (p ++ t) ps).
Proof.
  unfold all_room, room_ok, too_long. cbn [concat]. rewrite !length_app. destruct b as [b|].
  - intros ? [? ?]. split; [done|]. rewrite Z.ltb_ge. lia.
  - intros ? ?. split; [lia|]. intros _. lia.
Qed.

(** One step of the loop, then the rest. *)
Lemma put_step b size p t ps ok failed (go : option buffer -> Z -> outcome (option buffer * Z)) :
  (too_long b size p t = false ->
   go (dest b (p ++ t)) (len (p ++ t))
   = (let '(q, all) := fit b size (p ++ t) ps in
      Done (dest b q, if all then if ok : bool then len q else failed else 0))) ->
  ('(str, pos, done) ← Done (put_result b size p t); if negb done then mret (str, 0) else go str pos)
  = (let '(q, all) := fit b size p (t :: ps) in
     Done (dest b q, if all then if ok then len q else failed else 0)).
Proof.
  intros Hgo. rewrite bind_done. unfold put_result. cbn [fit].
  destruct (too_long b size p t); [done|]. cbn [negb]. by apply Hgo.
Qed.

(** A conversion: its value, padded, then the rest of the loop. *)
Lemma field_step b size p s t args args' buf ps ok failed
    (go : list lh_va_arg -> option buffer -> Z -> buffer -> outcome (option buffer * Z)) :
  (exists v, lh_str_ptr_format_text_get_value s args buf 0 = Done v /\ value_ok args' t v) ->
  is_u32 (width s) -> all_room b size p (field_text s t :: ps) ->
  (forall buf, length buf = 13%nat -> all_room b size (p ++ field_text s t) ps ->
   go args' (dest b (p ++ field_text s t)) (len (p ++ field_text s t)) buf
   = (let '(q, all) := fit b size (p ++ field_text s t) ps in
      Done (dest b q, if all then if ok : bool then len q else failed else 0))) ->
  (v ← lh_str_ptr_format_text_get_value s args buf 0;
   if negb (vt_ok v) then mret (dest b p, failed) else
   '(str, pos, done) ← lh_str_ptr_format_text_put_field (dest b p) size (len p) s
     (vt_content v) (vt_size v);
   if negb done then mret (str, 0) else go (vt_args v) str pos (vt_buf v))
  = (let '(q, all) := fit b size p (field_text s t :: ps) in
     Done (dest b q, if all then if ok then len q else failed else 0)).
Proof.
  intros (v & -> & buf' & rest & Hb & Ht & ->) Hw Ha Hgo. rewrite bind_done.
  cbn [vt_ok vt_content vt_size vt_args vt_buf negb].
  assert (len (field_text s t) < 18446744073709551616) as Hlen by (rewrite length_field by done; zb).
  destruct (all_room_cons _ _ _ _ _ Hlen Ha) as [Hroom Hrest].
  rewrite put_field_spec by done.
  apply (put_step _ _ _ _ _ _ _ (fun str pos => go args' str pos buf')). intros Hs. apply Hgo; auto.
Qed.

Section Run.
Context (m r : list Z) (Hm : is_mask m) (Hl : len (cstring m r) < 9223372036854775808).
Notation f := (cstring m r).

(** A token that takes the argument [a]. *)
Local Ltac conversion :=
  match goal with Hr : _ = Some (?ps, ?ok), IH : _, go : list lh_va_arg -> _ |- context [lh_str_ptr_format_text_get_value ?s ?args ?buf 0] =>
    let a := fresh "a" in let t := fresh "t" in let Ht := fresh "Ht" in let Er := fresh "Er" in
    destruct args as [|a args]; [done|]; apply bind_Some in Hr as (t & Ht & Hr);
    destruct (render _ args) as [[? ?]|] eqn:Er; [|done]; injection Hr as <- <-;
    apply (field_step _ _ _ _ _ _ args _ _ _ _ go);
      [by apply get_value_spec|done|done|intros; by apply IH; [lia|lia|..]]
  end.
Lemma walk_loop_spec b size failed : forall fuel k s p args buf ps ok,
  (k <= length m)%nat -> (length m - k < fuel)%nat -> length buf = 13%nat ->
  render (tokens fuel f (Z.of_nat k)) args = Some (ps, ok) ->
  all_room b size p ps ->
  walk_loop fuel (dest b p) size (Some f) args failed (len p) (Z.of_nat k) s buf
  = (let '(q, all) := fit b size p ps in
     Done (dest b q, if all then if ok then len q else failed else 0)).
Proof using Hm Hl.
  induction fuel as [|fuel IH]; intros k s p args buf ps ok Hk Hf Hb Hr Ha; [lia|].
  cbn [walk_loop tokens] in *.
  change (lh_str_ptr_scanf_next (Some f) (Z.of_nat k) s)
    with (lh_str_ptr_scanf_next (Some f) (Z.of_nat k) spec_zero).
  destruct (scanf_next_spec m r Hm ltac:(zb) k spec_zero Hk) as (j & s' & more & E & Hj & Hw & Hp & Hmore & Hlit).
  rewrite E in *. rewrite bind_done. cbv beta iota. destruct more; cbn [negb].
  2:{ injection Hr as <- <-. done. }
  cbn [render] in Hr. unfold lh_str_scanf_spec_get_kind.
  pose (go := fun args str pos buf =>
    walk_loop fuel str size (Some f) args failed pos (Z.of_nat j) s' buf).
  destruct (kind s') eqn:Ek; try (injection Hr as <- <-; done).
  - destruct (render _ args) as [[ps' ok']|] eqn:Er; [|done]. injection Hr as <- <-.
    destruct Hlit as [El En]; [done|]. rewrite El, En, Nat2Z.id in *. change (default [] (Some (drop k f))) with (drop k f) in *.
    set (t := take (j - k) (drop k f)) in *.
    assert (len t = Z.of_nat (j - k)) as Hlt.
    { unfold t. rewrite length_take, length_drop. unfold cstring. rewrite length_app. cbn [length]. lia. }
    destruct (all_room_cons b size p t ps' ltac:(pose proof (length_cstring m r); lia) Ha) as [Hroom Hrest].
    unfold lh_str_scanf_spec_get_literal, lh_str_scanf_spec_get_literal_size.
    rewrite El, En, <-Hlt, <-(take_drop (j - k) (drop k f)). fold t. rewrite put_text_spec by done.
    apply put_step. intros Hs. apply IH; [lia|lia|done|done|by apply Hrest].
  - destruct (render _ args) as [[ps' ok']|] eqn:Er; [|done]. injection Hr as <- <-.
    apply (field_step _ _ _ _ _ _ args _ _ _ _ go); [|done|done|intros; by apply IH; [lia|lia|..]].
    exists (ValueText args (<[0%nat:=37]> buf) (Some (<[0%nat:=37]> buf)) 1 true).
    split; [|by apply char_value]. unfold lh_str_ptr_format_text_get_value, lh_str_scanf_spec_get_kind.
    by rewrite Ek, put_first by done.
  - conversion.
  - conversion.
  - conversion.
  - conversion.
  - conversion.
Qed.
End Run.

Lemma fit_counting size ps : forall p, fit None size p ps = (p ++ concat ps, true).
Proof.
  induction ps as [|t ps IH]; intros p; cbn [fit concat too_long]; [by rewrite app_nil_r|].
  by rewrite IH, <-app_assoc.
Qed.
Lemma fit_writing b size ps : forall p, len p <= size ->
  exists n, (n <= length ps)%nat /\
    fit (Some b) size p ps = (p ++ concat (take n ps), bool_decide (n = length ps)) /\
    len (p ++ concat (take n ps)) <= size /\
    ((n < length ps)%nat -> size < len (p ++ concat (take (S n) ps))).
Proof.
  induction ps as [|t ps IH]; intros p Hp; cbn [fit].
  { exists 0%nat. cbn [take concat length]. rewrite app_nil_r. split_and!; done || lia. }
  unfold too_long. destruct (Z.ltb_spec size (len p + len t)).
  - exists 0%nat. cbn [take concat length]. rewrite !app_nil_r, length_app. split_and!; done || lia.
  - destruct (IH (p ++ t)) as (n & Hn & E & Hs & Hx); [rewrite length_app; lia|].
    exists (S n). rewrite E. cbn [take concat length]. rewrite <-!app_assoc in *.
    split_and!; [lia| |done|intros; apply Hx; lia].
    f_equal. apply bool_decide_ext. lia.
Qed.
Lemma concat_take_full (ps : list (list Z)) n size : (n <= length ps)%nat ->
  len (concat (take n ps)) <= size ->
  ((n < length ps)%nat -> size < len (concat (take (S n) ps))) ->
  bool_decide (n = length ps) = (len (concat ps) <=? size).
Proof.
  intros Hn Hs Hx. destruct (decide (n = length ps)) as [->|Hne].
  - rewrite firstn_all in Hs. by rewrite bool_decide_true, (proj2 (Z.leb_le _ _)).
  - rewrite bool_decide_false by done. symmetry. apply Z.leb_gt.
    specialize (Hx ltac:(lia)). rewrite <-(take_drop (S n) ps), concat_app, length_app. lia.
Qed.

Lemma walk_spec m r args ps ok b size :
  is_mask m -> len (cstring m r) < 9223372036854775808 ->
  render (mask_tokens (cstring m r)) args = Some (ps, ok) ->
  all_room b size [] ps ->
  lh_str_ptr_format_text_walk b size (Some (cstring m r)) args
  = (let '(q, all) := fit b size [] ps in
     Done (dest b q, if all then if ok then len q
                     else match b with None => LH_STR_PTR_INVALID | Some _ => 0 end else 0)).
Proof.
  intros Hm Hl Hr Ha.
  assert (length m < S (length (cstring m r)))%nat as Hf
    by (unfold cstring; rewrite length_app; cbn [length]; lia).
  pose proof (fun failed => walk_loop_spec m r Hm Hl b size failed (S (length (cstring m r))) 0
    spec_zero [] args (local LH_STR_FORMAT_TEXT_VALUE_BUF_MAX) ps ok ltac:(lia) ltac:(lia) eq_refl Hr Ha)
    as Hwalk.
  destruct b as [b|]; apply Hwalk.
Qed.

(** Claim C32: formatting by a mask writes, and counting counts, the texts of its tokens.
    Every mask that holds a NUL is walked to the end or to a malformed token without
    reading past the NUL; each literal comes out as it is, each argument in its
    conversion padded to its width.  [lh_str_ptr_format_text_size] answers the length
    of the whole text, and [lh_str_ptr_format_text] with that much room writes it and
    nothing else.  With less room, or at a malformed token, the answer is 0, but the
    tokens before have been written already. *)
Theorem format_text_by_mask m r args ps ok b size :
  is_mask m -> len (cstring m r) < 9223372036854775808 ->
  render (mask_tokens (cstring m r)) args = Some (ps, ok) ->
  len (concat ps) < LH_STR_PTR_INVALID ->
  0 <= size <= len b -> len b < 18446744073709551616 ->
  let fmt := Some (cstring m r) in
  lh_str_ptr_format_text_size fmt args
  = Done (if ok then len (concat ps) else LH_STR_PTR_INVALID) /\
  exists n, (n <= length ps)%nat /\
    lh_str_ptr_format_text (Some b) size fmt args
    = Done (Some (filled (concat (take n ps)) b),
            if ok && (len (concat ps) <=? size) then len (concat ps) else 0) /\
    len (concat (take n ps)) <= size /\
    ((n < length ps)%nat -> size < len (concat (take (S n) ps))).
Proof.
  intros Hm Hl Hr Ht Hs Hb fmt. unfold LH_STR_PTR_INVALID, LH_USIZE_T_MAX in Ht.
  split.
  - unfold lh_str_ptr_format_text_size, lh_str_ptr_format_text_size_v.
    rewrite (walk_spec m r args ps ok) by (done || (unfold all_room; cbn [length]; lia)).
    rewrite fit_counting. by destruct ok.
  - unfold lh_str_ptr_format_text, lh_str_ptr_format_text_v. cbn [assert_set]. rewrite bind_done.
    rewrite (walk_spec m r args ps ok) by (done || (unfold all_room; cbn [length]; lia)).
    destruct (fit_writing b size ps []) as (n & Hn & -> & Hfit & Hx); [cbn [length]; lia|].
    rewrite app_nil_l in *. exists n. split; [done|]. split; [|done].
    rewrite <-(concat_take_full ps n size) by done.
    destruct (decide (n = length ps)) as [->|]; [rewrite firstn_all|];
      [rewrite bool_decide_true by done|rewrite bool_decide_false by done]; by destruct ok.
Qed.
(** ["a%03d"] with -5, and three bytes of room: only the literal is written. *)
Lemma format_text_by_mask_witness :
  let fmt := Some [97; 37; 48; 51; 100; 0] in
  lh_str_ptr_format_text_size fmt [va_sint (-5)] = Done 4 /\
  exists n, (n <= 2)%nat /\
    lh_str_ptr_format_text (Some (local 9)) 3 fmt [va_sint (-5)]
    = Done (Some (filled (concat (take n [[97]; [45; 48; 53]])) (local 9)), 0) /\
    len (concat (take n [[97]; [45; 48; 53]])) <= 3 /\
    ((n < 2)%nat -> 3 < len (concat (take (S n) [[97]; [45; 48; 53]]))).
Proof.
  apply (format_text_by_mask [97; 37; 48; 51; 100] [] [va_sint (-5)] [[97]; [45; 48; 53]] true
           (local 9) 3); [by repeat constructor|done..].
Defined.

(** [lh_str_ptr_format_cstr] leaves a string: the text, or the empty one. *)
Lemma format_cstr_spec m r args ps ok b size :
  is_mask m -> len (cstring m r) < 9223372036854775808 ->
  render (mask_tokens (cstring m r)) args = Some (ps, ok) ->
  0 < size <= len b -> len b < 18446744073709551616 ->
  let fits := ok && (len (concat ps) <? size) in
  exists b', lh_str_ptr_format_cstr (Some b) size (Some (cstring m r)) args
    = Done (Some b', if fits then len (concat ps) else 0) /\ length b' = length b /\
    exists w, b' = (if fits then concat ps else []) ++ 0 :: w.
Proof.
  intros Hm Hl Hr Hs Hb fits. unfold lh_str_ptr_format_cstr, lh_str_ptr_format_cstr_v. cbn [assert_set].
  rewrite (proj2 (Z.eqb_neq _ 0)), u64_id by zb. unfold fail_if. rewrite !bind_done.
  unfold lh_str_ptr_format_text_v. cbn [assert_set]. rewrite bind_done.
  rewrite (walk_spec m r args ps ok) by (done || (unfold all_room; cbn [length]; lia)).
  destruct (fit_writing b (size - 1) ps []) as (n & Hn & -> & Hfit & Hx); [cbn [length]; lia|].
  rewrite app_nil_l in *. rewrite bind_done. cbv beta iota.
  assert (bool_decide (n = length ps) = (len (concat ps) <? size)) as E.
  { rewrite (concat_take_full ps n (size - 1)) by done.
    destruct (Z.leb_spec (len (concat ps)) (size - 1)), (Z.ltb_spec (len (concat ps)) size); lia || done. }
  assert ((if bool_decide (n = length ps) then if ok then len (concat (take n ps)) else 0 else 0)
          = if fits then len (concat ps) else 0) as ->.
  { unfold fits. rewrite <-E. destruct (decide (n = length ps)) as [->|];
      [rewrite bool_decide_true, firstn_all by done|rewrite bool_decide_false by done]; by destruct ok. }
  cbn [dest fmap option_fmap option_map assert_set]. rewrite bind_done.
  set (q := concat (take n ps)) in *.
  assert (length (filled q b) = length b) as Hlen by (apply length_filled; lia).
  destruct fits eqn:Ef.
  - apply andb_true_iff in Ef as [_ Ef]. rewrite Ef in E. apply bool_decide_eq_true in E.
    assert (q = concat ps) as Hq by (unfold q; by rewrite E, firstn_all).
    rewrite put_filled by (rewrite ?Hq in *; lia). rewrite bind_done. eexists. split; [done|].
    rewrite Hq in *. split; [apply length_filled; rewrite length_app; cbn [length]; lia|].
    eexists. unfold filled. by rewrite <-app_assoc.
  - rewrite put_ok by lia. rewrite bind_done. eexists. split; [done|].
    rewrite length_insert. split; [done|]. destruct (filled q b) as [|c w]; [simpl in Hlen; lia|].
    by exists w.
Qed.
