(* ===== verification/Swar.v ===== *)
(** * Byte lanes of a machine word

    [lh/core/bit/swar.h] and the portable bit scans of [lh/core/bit/scan.h], on a
    64-bit little-endian target: a word is eight bytes, the first in the lowest
    place.  The range test marks the lanes outside a range; it is exact up to the
    first lane it marks, and beyond it only when no byte is below the range or has its
    top bit set, because a borrow or a carry out of a marked lane runs into the next. *)
From S2P Require Import Prelude Buffer.

Definition LH_BIT_SWAR_ONES : Z := u64 (Z.lnot 0) / 0xFF.
Definition LH_BIT_SWAR_HIGH : Z := u64 (Z.shiftl LH_BIT_SWAR_ONES 7).
Definition LH_BIT_SWAR_RAMP : Z := 0x0706050403020100.

Definition lh_bit_swar_broadcast (b : Z) : Z := u64 (LH_BIT_SWAR_ONES * b).
Definition lh_bit_swar_below_mask (v bound : Z) : Z :=
  Z.land (Z.land (u64 (v - bound)) (u64 (Z.lnot v))) LH_BIT_SWAR_HIGH.
Definition lh_bit_swar_above_mask (v lift : Z) : Z :=
  Z.land (Z.lor (u64 (v + lift)) v) LH_BIT_SWAR_HIGH.
Definition lh_bit_swar_outside_mask (v below lift : Z) : Z :=
  let out := if negb (below =? 0) then lh_bit_swar_below_mask v below else 0 in
  Z.lor out (lh_bit_swar_above_mask v lift).
Definition lh_bit_swar_unmarked (mask : Z) : Z := Z.land (u64 (Z.lnot mask)) LH_BIT_SWAR_HIGH.
Definition lh_bit_swar_zero_mask (v : Z) : Z := lh_bit_swar_below_mask v LH_BIT_SWAR_ONES.

(** The lowest and the highest set bit of a word that is not zero. *)
Fixpoint scan_forward_loop (fuel : nat) (x i : Z) : Z :=
  match fuel with
  | O => i
  | S fuel => if Z.land (Z.shiftr x i) 1 =? 0 then scan_forward_loop fuel x (i + 1) else i
  end.
Definition lh_bit_scan_forward_u64 (x : Z) : Z := scan_forward_loop 64 x 0.
Fixpoint scan_reverse_loop (fuel : nat) (x i : Z) : Z :=
  match fuel with
  | O => i
  | S fuel => if Z.land (Z.shiftr x i) 1 =? 0 then scan_reverse_loop fuel x (i - 1) else i
  end.
Definition lh_bit_scan_reverse_u64 (x : Z) : Z := scan_reverse_loop 64 x 63.
Definition lh_bit_swar_first_lane (mask : Z) : Z := Z.shiftr (lh_bit_scan_forward_u64 mask) 3.
Definition lh_bit_swar_last_lane (mask : Z) : Z := Z.shiftr (lh_bit_scan_reverse_u64 mask) 3.

(** The word that lies at eight bytes. *)
Fixpoint le_word (bs : list Z) : Z :=
  match bs with [] => 0 | b :: r => b + 256 * le_word r end.

(** ** Lanes *)

Lemma testbit_lane b w n : is_u8 b -> 0 <= n ->
  Z.testbit (b + 256 * w) n = if n <? 8 then Z.testbit b n else Z.testbit w (n - 8).
Proof.
  intros Hb Hn. replace (b + 256 * w) with (Z.lor (Z.shiftl w 8) b)
    by (rewrite lor_bytes by done; lia).
  rewrite Z.lor_spec. destruct (Z.ltb_spec n 8).
  - by rewrite Z.shiftl_spec_low by lia.
  - rewrite Z.shiftl_spec by lia. rewrite (testbit_above b 8) by zb. by rewrite orb_false_r.
Qed.
Lemma le_word_testbit bs : is_bytes bs -> forall k j, 0 <= j < 8 ->
  Z.testbit (le_word bs) (8 * Z.of_nat k + j) = Z.testbit (nth k bs 0) j.
Proof.
  induction 1 as [|b bs Hb Hbs IH]; intros k j Hj; cbn [le_word].
  - rewrite Z.bits_0. by destruct k; cbn [nth]; rewrite Z.bits_0.
  - rewrite testbit_lane by (done || lia). destruct k as [|k].
    + rewrite (proj2 (Z.ltb_lt _ _)) by lia. cbn [nth]. f_equal; lia.
    + rewrite (proj2 (Z.ltb_ge _ _)) by lia. cbn [nth]. rewrite <-IH by done. f_equal. lia.
Qed.
Lemma le_word_range bs : is_bytes bs -> 0 <= le_word bs < 256 ^ len bs.
Proof.
  induction 1 as [|b bs Hb Hbs IH]; cbn [le_word length]; [done|].
  rewrite Nat2Z.inj_succ, Z.pow_succ_r by lia. zb.
Qed.
Lemma le_word_inj bs : is_bytes bs -> forall cs, is_bytes cs -> length bs = length cs ->
  le_word bs = le_word cs -> bs = cs.
Proof.
  induction 1 as [|b bs Hb Hbs IH]; intros [|c cs] Hc Hl; try done.
  inversion Hc as [|? ? Hc0 Hcs]; subst. cbn [le_word]. intros E.
  assert (b = c) as <- by zdm. f_equal. apply IH; [done|by injection Hl|lia].
Qed.
Lemma le_word_u64 bs : is_bytes bs -> length bs = 8%nat -> is_u64 (le_word bs).
Proof. intros Hb Hl. apply le_word_range in Hb. rewrite Hl in Hb. exact Hb. Qed.

(** An operation on bits goes lane by lane. *)
Section Lanewise.
Context (op : Z -> Z -> Z) (bop : bool -> bool -> bool).
Hypothesis op_spec : forall a b n, Z.testbit (op a b) n = bop (Z.testbit a n) (Z.testbit b n).
Hypothesis op_u8 : forall a b, is_u8 a -> is_u8 b -> is_u8 (op a b).
Hypothesis op_nil : op 0 0 = 0.

Lemma le_word_op bs cs : is_bytes bs -> is_bytes cs -> length bs = length cs ->
  op (le_word bs) (le_word cs) = le_word (zip_with op bs cs).
Proof using op_spec op_u8 op_nil.
  intros Hb. revert cs. induction Hb as [|b bs Hb Hbs IH]; intros [|c cs] Hc Hl; try done.
  inversion Hc as [|? ? Hc0 Hcs]; subst. cbn [le_word zip_with]. rewrite <-IH by (done || (simpl in Hl; lia)).
  apply Z.bits_inj'. intros n Hn. rewrite op_spec, !testbit_lane by auto.
  destruct (n <? 8); by rewrite op_spec.
Qed.
Lemma op_bytes bs cs : is_bytes bs -> is_bytes cs -> is_bytes (zip_with op bs cs).
Proof using op_u8.
  intros Hb. revert cs. induction Hb as [|b bs Hb Hbs IH]; intros cs Hc; [constructor|].
  destruct Hc as [|c cs]; constructor; [by apply op_u8|by apply IH].
Qed.
End Lanewise.
Lemma land_u8 a b : is_u8 a -> is_u8 b -> is_u8 (Z.land a b).
Proof.
  intros Ha Hb. replace (Z.land a b) with (Z.land (Z.land a b) 255).
  - change 255 with (Z.ones 8). rewrite Z.land_ones by lia. apply u8_range.
  - rewrite <-Z.land_assoc. f_equal. change 255 with (Z.ones 8). rewrite Z.land_ones by lia.
    by apply Z.mod_small.
Qed.
Lemma lor_u8 a b : is_u8 a -> is_u8 b -> is_u8 (Z.lor a b).
Proof.
  intros Ha Hb. replace (Z.lor a b) with (Z.land (Z.lor a b) 255).
  - change 255 with (Z.ones 8). rewrite Z.land_ones by lia. apply u8_range.
  - change 255 with (Z.ones 8). rewrite Z.land_lor_distr_l, !Z.land_ones by lia.
    by rewrite !Z.mod_small by zb.
Qed.
Lemma le_word_land bs cs : is_bytes bs -> is_bytes cs -> length bs = length cs ->
  Z.land (le_word bs) (le_word cs) = le_word (zip_with Z.land bs cs).
Proof. apply le_word_op with andb; [apply Z.land_spec|apply land_u8|done]. Qed.
Lemma le_word_lor bs cs : is_bytes bs -> is_bytes cs -> length bs = length cs ->
  Z.lor (le_word bs) (le_word cs) = le_word (zip_with Z.lor bs cs).
Proof. apply le_word_op with orb; [apply Z.lor_spec|apply lor_u8|done]. Qed.
Lemma lxor_u8 a b : is_u8 a -> is_u8 b -> is_u8 (Z.lxor a b).
Proof.
  intros Ha Hb. replace (Z.lxor a b) with (Z.land (Z.lxor a b) 255).
  - change 255 with (Z.ones 8). rewrite Z.land_ones by lia. apply u8_range.
  - apply Z.bits_inj'. intros n Hn. change 255 with (Z.ones 8). rewrite Z.land_spec, Z.lxor_spec.
    destruct (decide (n < 8)) as [H|H].
    + rewrite Z.ones_spec_low by lia. apply andb_true_r.
    + rewrite !(testbit_above _ 8) by zb. done.
Qed.
Lemma le_word_lxor bs cs : is_bytes bs -> is_bytes cs -> length bs = length cs ->
  Z.lxor (le_word bs) (le_word cs) = le_word (zip_with Z.lxor bs cs).
Proof. apply le_word_op with xorb; [apply Z.lxor_spec|apply lxor_u8|done]. Qed.
Lemma le_word_lnot bs : is_bytes bs -> length bs = 8%nat ->
  u64 (Z.lnot (le_word bs)) = le_word (map (fun b => 255 - b) bs).
Proof.
  intros Hb Hl. assert (forall l, le_word (map (fun b => 255 - b) l) = 256 ^ len l - 1 - le_word l) as H.
  { induction l as [|b l IH]; [done|]. cbn [map le_word length]. rewrite IH.
    rewrite Nat2Z.inj_succ, Z.pow_succ_r by lia. lia. }
  rewrite H, Hl. change (256 ^ Z.of_nat 8) with 18446744073709551616.
  apply le_word_u64 in Hb; [|done]. unfold Z.lnot. zdm.
Qed.

(** Subtraction with a borrow and addition with a carry. *)
Fixpoint sub_lanes (c : Z) (borrow : Z) (bs : list Z) : list Z :=
  match bs with
  | [] => []
  | b :: bs => (b - c - borrow) mod 256 :: sub_lanes c (if b <? c + borrow then 1 else 0) bs
  end.
Fixpoint add_lanes (c : Z) (carry : Z) (bs : list Z) : list Z :=
  match bs with
  | [] => []
  | b :: bs => (b + c + carry) mod 256 :: add_lanes c (if 256 <=? b + c + carry then 1 else 0) bs
  end.
Lemma sub_lanes_bytes c bs : forall k, is_bytes (sub_lanes c k bs).
Proof. induction bs as [|b bs IH]; intros k; constructor; [apply u8_range|apply IH]. Qed.
Lemma add_lanes_bytes c bs : forall k, is_bytes (add_lanes c k bs).
Proof. induction bs as [|b bs IH]; intros k; constructor; [apply u8_range|apply IH]. Qed.
Lemma sub_lanes_length c bs : forall k, length (sub_lanes c k bs) = length bs.
Proof. induction bs as [|b bs IH]; intros k; simpl; [done|]. by rewrite IH. Qed.
Lemma add_lanes_length c bs : forall k, length (add_lanes c k bs) = length bs.
Proof. induction bs as [|b bs IH]; intros k; simpl; [done|]. by rewrite IH. Qed.
Lemma sub_lanes_word c bs : is_bytes bs -> is_u8 c -> forall k, 0 <= k <= 1 ->
  exists q, le_word bs - c * le_word (replicate (length bs) 1) - k
            = le_word (sub_lanes c k bs) + 256 ^ len bs * q.
Proof.
  intros Hb Hc. induction Hb as [|b bs Hb Hbs IH]; intros k Hk; cbn [le_word sub_lanes length replicate].
  - exists (- k). lia.
  - destruct (IH (if b <? c + k then 1 else 0)) as [q Hq]; [destruct (b <? c + k); lia|].
    exists q. rewrite Nat2Z.inj_succ, Z.pow_succ_r by lia.
    assert ((b - c - k) mod 256 = b - c - k + 256 * (if b <? c + k then 1 else 0)) as ->
      by (destruct (Z.ltb_spec b (c + k)); zdm).
    lia.
Qed.
Lemma add_lanes_word c bs : is_bytes bs -> is_u8 c -> forall k, 0 <= k <= 1 ->
  exists q, le_word bs + c * le_word (replicate (length bs) 1) + k
            = le_word (add_lanes c k bs) + 256 ^ len bs * q.
Proof.
  intros Hb Hc. induction Hb as [|b bs Hb Hbs IH]; intros k Hk; cbn [le_word add_lanes length replicate].
  - exists k. lia.
  - destruct (IH (if 256 <=? b + c + k then 1 else 0)) as [q Hq]; [destruct (256 <=? b + c + k); lia|].
    exists q. rewrite Nat2Z.inj_succ, Z.pow_succ_r by lia.
    assert ((b + c + k) mod 256 = b + c + k - 256 * (if 256 <=? b + c + k then 1 else 0)) as ->
      by (destruct (Z.leb_spec 256 (b + c + k)); zdm).
    lia.
Qed.

(** ** Marks *)

Lemma land_pow2 x j : 0 <= j -> Z.land x (2 ^ j) = if Z.testbit x j then 2 ^ j else 0.
Proof.
  intros Hj. apply Z.bits_inj'. intros n Hn. rewrite Z.land_spec, Z.pow2_bits_eqb by done.
  destruct (Z.eqb_spec j n) as [<-|Hne].
  - rewrite andb_true_r. destruct (Z.testbit x j); [by rewrite Z.pow2_bits_true|by rewrite Z.bits_0].
  - rewrite andb_false_r. destruct (Z.testbit x j); [by rewrite Z.pow2_bits_false by lia|by rewrite Z.bits_0].
Qed.
Lemma land_128 x : Z.land x 128 = if Z.testbit x 7 then 128 else 0.
Proof. apply (land_pow2 x 7). lia. Qed.
Lemma testbit_7 x : is_u8 x -> Z.testbit x 7 = (128 <=? x).
Proof.
  intros Hx. rewrite Z.testbit_eqb by lia. change (2 ^ 7) with 128.
  destruct (Z.leb_spec 128 x), (Z.eqb_spec ((x / 128) mod 2) 1); try done; zdm.
Qed.

(** The marks of the lanes of a word: the borrow and the carry run along. *)
Definition below_mark (lo k b : Z) : bool := (128 <=? (b - lo - k) mod 256) && (b <? 128).
Definition above_mark (lift c b : Z) : bool := (128 <=? (b + lift + c) mod 256) || (128 <=? b).
Definition mark (m : bool) : Z := if m then 128 else 0.
Fixpoint below_marks (lo k : Z) (bs : list Z) : list bool :=
  match bs with
  | [] => []
  | b :: bs => below_mark lo k b :: below_marks lo (if b <? lo + k then 1 else 0) bs
  end.
Fixpoint above_marks (lift c : Z) (bs : list Z) : list bool :=
  match bs with
  | [] => []
  | b :: bs => above_mark lift c b :: above_marks lift (if 256 <=? b + lift + c then 1 else 0) bs
  end.
Definition marks_word (ms : list bool) : Z := le_word (map mark ms).

Lemma mark_bytes ms : is_bytes (map mark ms).
Proof. induction ms as [|m ms IH]; constructor; [by destruct m|done]. Qed.
Lemma below_marks_length lo bs : forall k, length (below_marks lo k bs) = length bs.
Proof. induction bs as [|b bs IH]; intros k; simpl; [done|]. by rewrite IH. Qed.
Lemma above_marks_length lift bs : forall c, length (above_marks lift c bs) = length bs.
Proof. induction bs as [|b bs IH]; intros c; simpl; [done|]. by rewrite IH. Qed.
Lemma below_lanes lo bs : is_bytes bs -> forall k,
  zip_with Z.land (zip_with Z.land (sub_lanes lo k bs) (map (fun b => 255 - b) bs)) (replicate (length bs) 128)
  = map mark (below_marks lo k bs).
Proof.
  induction 1 as [|b bs Hb Hbs IH]; intros k; cbn [sub_lanes map zip_with replicate length below_marks]; [done|].
  rewrite IH, land_128, Z.land_spec, !testbit_7 by zdm. f_equal. unfold mark, below_mark.
  by replace (128 <=? 255 - b) with (b <? 128) by (destruct (Z.ltb_spec b 128), (Z.leb_spec 128 (255 - b)); lia || done).
Qed.
Lemma above_lanes lift bs : is_bytes bs -> forall c,
  zip_with Z.land (zip_with Z.lor (add_lanes lift c bs) bs) (replicate (length bs) 128)
  = map mark (above_marks lift c bs).
Proof.
  induction 1 as [|b bs Hb Hbs IH]; intros k; cbn [add_lanes map zip_with replicate length above_marks]; [done|].
  rewrite IH, land_128, Z.lor_spec, !testbit_7 by zdm. done.
Qed.

Lemma bytes_128 n : is_bytes (replicate n 128).
Proof. apply Forall_replicate. zb. Qed.

Section Masks.
Context (bs : list Z) (Hb : is_bytes bs) (Hl : length bs = 8%nat).

Lemma high_lanes : LH_BIT_SWAR_HIGH = le_word (replicate (length bs) 128).
Proof using Hl. by rewrite Hl. Qed.
Lemma bytes_not : is_bytes (map (fun b => 255 - b) bs).
Proof using Hb Hl. apply Forall_map. eapply Forall_impl; [exact Hb|]. intros b H. simpl. zb. Qed.
Lemma broadcast_word c : is_u8 c -> lh_bit_swar_broadcast c = c * le_word (replicate (length bs) 1).
Proof using Hl.
  intros Hc. rewrite Hl. unfold lh_bit_swar_broadcast.
  change LH_BIT_SWAR_ONES with 72340172838076673.
  change (le_word (replicate 8 1)) with 72340172838076673. rewrite u64_id by zb. lia.
Qed.
Lemma below_mask_marks lo : is_u8 lo ->
  lh_bit_swar_below_mask (le_word bs) (lh_bit_swar_broadcast lo) = marks_word (below_marks lo 0 bs).
Proof using Hb Hl.
  intros Hlo. unfold lh_bit_swar_below_mask. rewrite broadcast_word, le_word_lnot, high_lanes by done.
  destruct (sub_lanes_word lo bs Hb Hlo 0) as [q Hq]; [lia|].
  assert (u64 (le_word bs - lo * le_word (replicate (length bs) 1)) = le_word (sub_lanes lo 0 bs)) as ->.
  { rewrite Z.sub_0_r in Hq. rewrite Hq, Hl. change (256 ^ Z.of_nat 8) with 18446744073709551616.
    pose proof (le_word_u64 (sub_lanes lo 0 bs) (sub_lanes_bytes _ _ _)) as Hr.
    rewrite sub_lanes_length in Hr. specialize (Hr Hl). unfold u64. rewrite Z.mul_comm, Z_mod_plus_full.
    by apply Z.mod_small. }
  rewrite le_word_land by (apply sub_lanes_bytes || apply bytes_not || by rewrite sub_lanes_length, length_map).
  rewrite le_word_land.
  - by rewrite below_lanes.
  - apply op_bytes; [apply land_u8|apply sub_lanes_bytes|apply bytes_not].
  - apply bytes_128.
  - by rewrite length_zip_with, sub_lanes_length, length_map, length_replicate, Nat.min_id.
Qed.
Lemma above_mask_marks lift : is_u8 lift ->
  lh_bit_swar_above_mask (le_word bs) (lh_bit_swar_broadcast lift) = marks_word (above_marks lift 0 bs).
Proof using Hb Hl.
  intros Hlo. unfold lh_bit_swar_above_mask. rewrite broadcast_word, high_lanes by done.
  destruct (add_lanes_word lift bs Hb Hlo 0) as [q Hq]; [lia|].
  assert (u64 (le_word bs + lift * le_word (replicate (length bs) 1)) = le_word (add_lanes lift 0 bs)) as ->.
  { rewrite Z.add_0_r in Hq. rewrite Hq, Hl. change (256 ^ Z.of_nat 8) with 18446744073709551616.
    pose proof (le_word_u64 (add_lanes lift 0 bs) (add_lanes_bytes _ _ _)) as Hr.
    rewrite add_lanes_length in Hr. specialize (Hr Hl). unfold u64. rewrite Z.mul_comm, Z_mod_plus_full.
    by apply Z.mod_small. }
  rewrite le_word_lor by (apply add_lanes_bytes || done || by rewrite add_lanes_length).
  rewrite le_word_land.
  - by rewrite above_lanes.
  - apply op_bytes; [apply lor_u8|apply add_lanes_bytes|done].
  - apply bytes_128.
  - by rewrite length_zip_with, add_lanes_length, length_replicate, Nat.min_id.
Qed.
End Masks.

(** ** Marks and lanes *)

Definition outside (lo hi b : Z) : bool := (b <? lo) || (hi <? b).
Definition outside_marks (lo hi : Z) (bs : list Z) : list bool :=
  zip_with orb (below_marks lo 0 bs) (above_marks (127 - hi) 0 bs).

Lemma marks_lor a b : length a = length b ->
  Z.lor (marks_word a) (marks_word b) = marks_word (zip_with orb a b).
Proof.
  intros Hl. unfold marks_word. rewrite le_word_lor by (apply mark_bytes || by rewrite !length_map).
  f_equal. revert b Hl. induction a as [|x a IH]; intros [|y b] Hl; try done.
  cbn [map zip_with]. rewrite IH by (simpl in Hl; lia). by destruct x, y.
Qed.
Lemma marks_word_false n : marks_word (replicate n false) = 0.
Proof. unfold marks_word. induction n as [|n IH]; cbn [replicate map le_word]; [done|]. by rewrite IH. Qed.
Lemma below_zero bs : is_bytes bs -> below_marks 0 0 bs = replicate (length bs) false.
Proof.
  induction 1 as [|b bs Hb Hbs IH]; cbn [below_marks replicate length]; [done|].
  rewrite (proj2 (Z.ltb_ge b (0 + 0))), IH by zb. f_equal. unfold below_mark.
  destruct (Z.leb_spec 128 ((b - 0 - 0) mod 256)), (Z.ltb_spec b 128); try done. zdm.
Qed.
Lemma outside_mask_marks bs lo hi : is_bytes bs -> length bs = 8%nat -> is_u8 lo -> 0 <= hi < 128 ->
  lh_bit_swar_outside_mask (le_word bs) (lh_bit_swar_broadcast lo) (lh_bit_swar_broadcast (127 - hi))
  = marks_word (outside_marks lo hi bs).
Proof.
  intros Hb Hl Hlo Hhi. unfold lh_bit_swar_outside_mask, outside_marks.
  rewrite above_mask_marks, <-marks_lor by (done || zb || by rewrite below_marks_length, above_marks_length).
  f_equal. destruct (decide (lo = 0)) as [->|Hne].
  - by rewrite below_zero, marks_word_false.
  - rewrite below_mask_marks by done. rewrite (proj2 (Z.eqb_neq _ 0)); [done|].
    unfold lh_bit_swar_broadcast. change LH_BIT_SWAR_ONES with 72340172838076673. rewrite u64_id by zb. lia.
Qed.
(** Up to the first lane it marks the test is exact. *)
Lemma outside_marks_first bs lo hi : is_bytes bs -> 0 <= lo <= hi -> hi < 128 ->
  index_of id (outside_marks lo hi bs) = index_of (outside lo hi) bs.
Proof.
  intros Hb Hlo Hhi. unfold outside_marks. induction Hb as [|b bs Hb Hbs IH]; [done|].
  cbn [below_marks above_marks zip_with index_of].
  assert (below_mark lo 0 b || above_mark (127 - hi) 0 b = outside lo hi b) as ->.
  { unfold below_mark, above_mark, outside.
    destruct (Z.leb_spec 128 ((b - lo - 0) mod 256)), (Z.ltb_spec b 128), (Z.leb_spec 128 ((b + (127 - hi) + 0) mod 256)),
      (Z.leb_spec 128 b), (Z.ltb_spec b lo), (Z.ltb_spec hi b); try done; zdm. }
  unfold id at 1. destruct (outside lo hi b) eqn:Eo; [done|].
  unfold outside in Eo. apply orb_false_iff in Eo as [H1%Z.ltb_ge H2%Z.ltb_ge].
  rewrite (proj2 (Z.ltb_ge b (lo + 0))), (proj2 (Z.leb_gt 256 _)) by zb. by rewrite IH.
Qed.
(** Without bytes below the range or beyond ASCII it is exact everywhere. *)
Lemma outside_marks_exact bs lo hi : Forall (fun b => lo <= b < 128) bs -> 0 <= lo <= hi -> hi < 128 ->
  outside_marks lo hi bs = map (outside lo hi) bs.
Proof.
  intros Hb Hlo Hhi. unfold outside_marks. induction Hb as [|b bs Hb Hbs IH]; [done|].
  cbn [below_marks above_marks zip_with map].
  rewrite (proj2 (Z.ltb_ge b (lo + 0))), (proj2 (Z.leb_gt 256 _)), IH by lia. f_equal.
  unfold below_mark, above_mark, outside.
  destruct (Z.leb_spec 128 ((b - lo - 0) mod 256)), (Z.ltb_spec b 128), (Z.leb_spec 128 ((b + (127 - hi) + 0) mod 256)),
    (Z.leb_spec 128 b), (Z.ltb_spec b lo), (Z.ltb_spec hi b); try done; zdm.
Qed.
Lemma outside_marks_length lo hi bs : length (outside_marks lo hi bs) = length bs.
Proof. unfold outside_marks. rewrite length_zip_with, below_marks_length, above_marks_length. lia. Qed.
Lemma zero_mask_marks bs : is_bytes bs -> length bs = 8%nat ->
  lh_bit_swar_zero_mask (le_word bs) = marks_word (below_marks 1 0 bs).
Proof.
  intros Hb Hl. unfold lh_bit_swar_zero_mask. rewrite <-(below_mask_marks bs Hb Hl 1) by zb. done.
Qed.
Lemma zero_marks_first bs : is_bytes bs ->
  index_of id (below_marks 1 0 bs) = index_of (fun b => b =? 0) bs.
Proof.
  induction 1 as [|b bs Hb Hbs IH]; cbn [below_marks index_of]; [done|].
  assert (below_mark 1 0 b = (b =? 0)) as E.
  { unfold below_mark. destruct (Z.leb_spec 128 ((b - 1 - 0) mod 256)), (Z.ltb_spec b 128), (Z.eqb_spec b 0); try done; zdm. }
  unfold id at 1. rewrite E. destruct (Z.eqb_spec b 0); [done|].
  rewrite (proj2 (Z.ltb_ge b (1 + 0))) by zb. by rewrite IH.
Qed.
(** A zero is marked whatever runs in from below. *)
Lemma zero_marked bs i : bs !! i = Some 0 -> forall k, 0 <= k <= 1 -> below_marks 1 k bs !! i = Some true.
Proof.
  revert i. induction bs as [|b bs IH]; intros [|i] H k Hk; try done; cbn [below_marks].
  - injection H as ->. cbn. f_equal. unfold below_mark.
    rewrite (proj2 (Z.leb_le _ _)), (proj2 (Z.ltb_lt _ _)) by zdm. done.
  - apply IH; [done|]. destruct (b <? 1 + k); lia.
Qed.
Lemma unmarked_marks ms : length ms = 8%nat ->
  lh_bit_swar_unmarked (marks_word ms) = marks_word (map negb ms).
Proof.
  intros Hl. unfold lh_bit_swar_unmarked, marks_word.
  assert (length (map mark ms) = 8%nat) as Hl' by by rewrite length_map.
  rewrite le_word_lnot by (done || apply mark_bytes). rewrite (high_lanes _ Hl').
  rewrite le_word_land by (apply bytes_128 || by apply (bytes_not _ (mark_bytes ms) Hl') || by rewrite length_map, length_replicate).
  f_equal. rewrite Hl', <-Hl. clear. induction ms as [|m ms IH]; [done|].
  cbn [map replicate length zip_with]. rewrite IH. by destruct m.
Qed.

(** ** Finding a lane *)

Lemma shiftr_land_1 x i : 0 <= i -> (Z.land (Z.shiftr x i) 1 =? 0) = negb (Z.testbit x i).
Proof.
  intros Hi. change 1 with (Z.ones 1). rewrite Z.land_ones, Z.shiftr_div_pow2 by lia.
  rewrite Z.testbit_eqb by done. change (2 ^ 1) with 2.
  destruct (Z.eqb_spec ((x / 2 ^ i) mod 2) 0), (Z.eqb_spec ((x / 2 ^ i) mod 2) 1); try done; zdm.
Qed.
Lemma scan_forward_spec x k : Z.testbit x (Z.of_nat k) = true ->
  (forall j, (j < k)%nat -> Z.testbit x (Z.of_nat j) = false) ->
  forall fuel i, (i <= k)%nat -> (k < i + fuel)%nat ->
  scan_forward_loop fuel x (Z.of_nat i) = Z.of_nat k.
Proof.
  intros Hk Hj. induction fuel as [|fuel IH]; intros i Hi Hf; [lia|]. cbn [scan_forward_loop].
  rewrite shiftr_land_1 by lia. destruct (decide (i = k)) as [->|Hne]; [by rewrite Hk|].
  rewrite Hj by lia. cbn [negb]. replace (Z.of_nat i + 1) with (Z.of_nat (S i)) by lia. apply IH; lia.
Qed.
Lemma scan_reverse_spec x k : Z.testbit x (Z.of_nat k) = true ->
  (forall j, (k < j)%nat -> Z.testbit x (Z.of_nat j) = false) ->
  forall fuel i, (k <= i)%nat -> (i - k < fuel)%nat ->
  scan_reverse_loop fuel x (Z.of_nat i) = Z.of_nat k.
Proof.
  intros Hk Hj. induction fuel as [|fuel IH]; intros i Hi Hf; [lia|]. cbn [scan_reverse_loop].
  rewrite shiftr_land_1 by lia. destruct (decide (i = k)) as [->|Hne]; [by rewrite Hk|].
  rewrite Hj by lia. cbn [negb]. replace (Z.of_nat i - 1) with (Z.of_nat (i - 1)) by lia. apply IH; lia.
Qed.
Lemma mark_testbit m j : 0 <= j < 8 -> Z.testbit (mark m) j = m && (j =? 7).
Proof.
  intros Hj. destruct m; cbn [mark andb]; [|by rewrite Z.bits_0].
  change 128 with (2 ^ 7). rewrite Z.pow2_bits_eqb by lia. apply Z.eqb_sym.
Qed.
Lemma marks_testbit ms n : Z.testbit (marks_word ms) (Z.of_nat n)
  = nth (n / 8) ms false && (n mod 8 =? 7)%nat.
Proof.
  unfold marks_word. pose proof (Nat.div_mod_eq n 8). pose proof (Nat.mod_upper_bound n 8 ltac:(lia)).
  replace (Z.of_nat n) with (8 * Z.of_nat (n / 8) + Z.of_nat (n mod 8)) by lia.
  rewrite le_word_testbit by (apply mark_bytes || lia).
  change 0 with (mark false) at 1. rewrite map_nth, mark_testbit by lia. f_equal.
  destruct (Nat.eqb_spec (n mod 8) 7), (Z.eqb_spec (Z.of_nat (n mod 8)) 7); lia || done.
Qed.
Lemma first_lane_marks ms i : length ms = 8%nat -> index_of id ms = Some i ->
  lh_bit_swar_first_lane (marks_word ms) = Z.of_nat i.
Proof.
  intros Hl Hi. apply index_of_inv in Hi as (m & Hm & Ht & Hi & Hf). unfold id in *. subst m.
  unfold lh_bit_swar_first_lane, lh_bit_scan_forward_u64.
  change (scan_forward_loop 64 (marks_word ms) 0) with (scan_forward_loop 64 (marks_word ms) (Z.of_nat 0)).
  rewrite (scan_forward_spec _ (8 * i + 7)); [| | |lia|lia].
  - rewrite Z.shiftr_div_pow2 by lia. change (2 ^ 3) with 8. zdm.
  - rewrite marks_testbit. replace ((8 * i + 7) / 8)%nat with i by (apply Nat.div_unique with 7%nat; lia).
    replace ((8 * i + 7) mod 8)%nat with 7%nat by (apply Nat.mod_unique with i; lia).
    rewrite nth_lookup, Hm. done.
  - intros j Hj. rewrite marks_testbit. destruct (Nat.eqb_spec (j mod 8) 7) as [E|]; [|apply andb_false_r].
    pose proof (Nat.div_mod_eq j 8). rewrite andb_true_r, nth_lookup.
    destruct (ms !! (j / 8)%nat) as [x|] eqn:Ex; [|done]. apply (Forall_lookup_1 _ _ (j / 8)%nat x Hf).
    rewrite lookup_take_lt by lia. exact Ex.
Qed.
Lemma marks_none ms : index_of id ms = None -> marks_word ms = 0.
Proof.
  intros H%index_of_none. unfold marks_word. induction H as [|m ms Hm Hms IH]; cbn [map le_word]; [done|].
  rewrite IH. unfold id in Hm. by subst m.
Qed.
Lemma marks_some ms i : index_of id ms = Some i -> marks_word ms <> 0.
Proof.
  intros (m & Hm & Ht & Hi & Hf)%index_of_inv E. unfold id in *. subst m.
  pose proof (marks_testbit ms (8 * i + 7)) as H. rewrite E, Z.bits_0 in H.
  replace ((8 * i + 7) / 8)%nat with i in H by (apply Nat.div_unique with 7%nat; lia).
  replace ((8 * i + 7) mod 8)%nat with 7%nat in H by (apply Nat.mod_unique with i; lia).
  by rewrite nth_lookup, Hm in H.
Qed.
