(* ===== verification/Memory.v ===== *)
(** * Memory and its word kernels

    [memory/word.h], [memory/std/words.h] and the entry points of [memory/std.c] as
    they are built for a 64-bit little-endian target without a vector unit, without
    the C library and other than x86: the portable path.  Memory is one array of
    bytes and an address is an index in it, so two ranges may overlap; the address 0
    is the null pointer.  A pointer that moves through an object is its address, and a
    [size_t] that counts within one is not wrapped: an object ends before the address
    space does. *)
From S2P Require Import Prelude Buffer Swar.

Notation memory := (list Z).

(** ** Words in memory *)

(** The [k] bytes of a word, the lowest first. *)
Fixpoint word_bytes (k : nat) (v : Z) : list Z :=
  match k with O => [] | S k => u8 v :: word_bytes k (v / 256) end.
Definition load_word (k : nat) (mem : memory) (p : Z) : outcome Z :=
  if (0 <=? p) && (p + Z.of_nat k <=? len mem)
  then mret (le_word (take k (drop (Z.to_nat p) mem))) else Undef.
Definition store_word (k : nat) (mem : memory) (p v : Z) : outcome memory :=
  copy_bytes mem p (word_bytes k v) (Z.of_nat k).
Definition lh_memory_load_u16 := load_word 2.
Definition lh_memory_load_u32 := load_word 4.
Definition lh_memory_load_u64 := load_word 8.
Definition lh_memory_load_usize := load_word 8.
Definition lh_memory_store_u16 := store_word 2.
Definition lh_memory_store_u32 := store_word 4.
Definition lh_memory_store_u64 := store_word 8.
Definition lh_memory_store_usize := store_word 8.
(** Only at an aligned address. *)
Definition lh_memory_word_load (mem : memory) (p : Z) : outcome Z :=
  if p mod 8 =? 0 then load_word 8 mem p else Undef.
Definition lh_memory_word_store (mem : memory) (p v : Z) : outcome memory :=
  if p mod 8 =? 0 then store_word 8 mem p v else Undef.

Definition lh_bit_bswap_u16 (x : Z) : Z := u16 (Z.lor (Z.shiftl x 8) (Z.shiftr x 8)).
Definition lh_bit_bswap_u32 (x : Z) : Z :=
  Z.lor (Z.lor (u32 (Z.shiftl x 24)) (Z.land (u32 (Z.shiftl x 8)) 0x00FF0000))
        (Z.lor (Z.land (Z.shiftr x 8) 0x0000FF00) (Z.shiftr x 24)).
Definition lh_bit_bswap_u64 (x : Z) : Z :=
  Z.lor (u64 (Z.shiftl (lh_bit_bswap_u32 (u32 x)) 32)) (lh_bit_bswap_u32 (u32 (Z.shiftr x 32))).

(** ** Copying *)

Definition lh_memory_std_copy_tiny (mem : memory) (dst src n : Z) : outcome memory :=
  if n >=? 8 then
    first ← lh_memory_load_u64 mem src;
    last ← lh_memory_load_u64 mem (src + n - 8);
    mem ← lh_memory_store_u64 mem dst first;
    lh_memory_store_u64 mem (dst + n - 8) last
  else if n >=? 4 then
    first ← lh_memory_load_u32 mem src;
    last ← lh_memory_load_u32 mem (src + n - 4);
    mem ← lh_memory_store_u32 mem dst first;
    lh_memory_store_u32 mem (dst + n - 4) last
  else if n >=? 2 then
    first ← lh_memory_load_u16 mem src;
    last ← lh_memory_load_u16 mem (src + n - 2);
    mem ← lh_memory_store_u16 mem dst first;
    lh_memory_store_u16 mem (dst + n - 2) last
  else if negb (n =? 0) then b ← load mem src; put mem dst b
  else mret mem.
(** [do { ... } while (n >= 8)], then the rest. *)
Fixpoint copy_loop (fuel : nat) (mem : memory) (dst src n : Z) : outcome memory :=
  match fuel with
  | O => Undef
  | S fuel =>
    v ← lh_memory_load_u64 mem src;
    mem ← lh_memory_store_u64 mem dst v;
    let dst := dst + 8 in
    let src := src + 8 in
    let n := n - 8 in
    if n >=? 8 then copy_loop fuel mem dst src n else lh_memory_std_copy_tiny mem dst src n
  end.
Definition lh_memory_std_copy_bytes (mem : memory) (dst src n : Z) : outcome memory :=
  if n <? 16 then lh_memory_std_copy_tiny mem dst src n
  else copy_loop (S (Z.to_nat n)) mem dst src n.

Definition lh_memory_std_copy_rev_tiny (mem : memory) (dst src n : Z) : outcome memory :=
  if n >=? 8 then
    first ← lh_memory_load_u64 mem src;
    last ← lh_memory_load_u64 mem (src + n - 8);
    mem ← lh_memory_store_u64 mem (dst + n - 8) (lh_bit_bswap_u64 first);
    lh_memory_store_u64 mem dst (lh_bit_bswap_u64 last)
  else if n >=? 4 then
    first ← lh_memory_load_u32 mem src;
    last ← lh_memory_load_u32 mem (src + n - 4);
    mem ← lh_memory_store_u32 mem (dst + n - 4) (lh_bit_bswap_u32 first);
    lh_memory_store_u32 mem dst (lh_bit_bswap_u32 last)
  else if n >=? 2 then
    first ← lh_memory_load_u16 mem src;
    last ← lh_memory_load_u16 mem (src + n - 2);
    mem ← lh_memory_store_u16 mem (dst + n - 2) (lh_bit_bswap_u16 first);
    lh_memory_store_u16 mem dst (lh_bit_bswap_u16 last)
  else if negb (n =? 0) then b ← load mem src; put mem dst b
  else mret mem.
Fixpoint copy_rev_loop (fuel : nat) (mem : memory) (dst d_end src n : Z) : outcome memory :=
  match fuel with
  | O => Undef
  | S fuel =>
    if n >=? 4 then
      let d_end := d_end - 4 in
      v ← lh_memory_load_u32 mem src;
      mem ← lh_memory_store_u32 mem d_end (lh_bit_bswap_u32 v);
      copy_rev_loop fuel mem dst d_end (src + 4) (n - 4)
    else lh_memory_std_copy_rev_tiny mem dst src n
  end.
Definition lh_memory_std_copy_rev_bytes (mem : memory) (dst src n : Z) : outcome memory :=
  copy_rev_loop (S (Z.to_nat n)) mem dst (dst + n) src n.

(** [((uaddr(p) | uaddr(q)) & (w - 1)) != 0] *)
Definition unaligned (p q : Z) : bool := negb (Z.land (Z.lor p q) (8 - 1) =? 0).

(** The loops of a kernel that goes down: byte by byte while [stop] does not hold, and
    word by word; each answers how much is left. *)
Fixpoint rcopy_bytes_loop (fuel : nat) (go : Z -> bool) (mem : memory) (dst src n : Z)
    : outcome (memory * Z) :=
  match fuel with
  | O => Undef
  | S fuel =>
    if (n >? 0) && go n then
      let n := n - 1 in
      b ← load mem (src + n);
      mem ← put mem (dst + n) b;
      rcopy_bytes_loop fuel go mem dst src n
    else mret (mem, n)
  end.
Fixpoint rcopy_words_loop (fuel : nat) (mem : memory) (dst src n : Z) : outcome (memory * Z) :=
  match fuel with
  | O => Undef
  | S fuel =>
    if n >=? 8 then
      let n := n - 8 in
      v ← lh_memory_word_load mem (src + n);
      mem ← lh_memory_word_store mem (dst + n) v;
      rcopy_words_loop fuel mem dst src n
    else mret (mem, n)
  end.
Definition lh_memory_std_rcopy_bytes (mem : memory) (dst src n : Z) : outcome memory :=
  let fuel := S (Z.to_nat n) in
  '(mem, n) ← rcopy_bytes_loop fuel (fun n => unaligned (dst + n) (src + n)) mem dst src n;
  '(mem, n) ← rcopy_words_loop fuel mem dst src n;
  '(mem, n) ← rcopy_bytes_loop fuel (fun _ => true) mem dst src n;
  mret mem.

(** The loops of a kernel that goes up; each answers where it stands and how much is
    left.  [emit k mem d] writes [k] bytes at the place [d] of the destination. *)
Section Up.
Context (emit_byte emit_word : memory -> Z -> outcome memory) (go : Z -> bool).
Fixpoint up_bytes (fuel : nat) (mem : memory) (d n : Z) : outcome (memory * Z * Z) :=
  match fuel with
  | O => Undef
  | S fuel =>
    if (n >? 0) && go d then
      mem ← emit_byte mem d;
      up_bytes fuel mem (d + 1) (n - 1)
    else mret (mem, d, n)
  end.
Fixpoint up_words (fuel : nat) (mem : memory) (d n : Z) : outcome (memory * Z * Z) :=
  match fuel with
  | O => Undef
  | S fuel =>
    if n >=? 8 then
      mem ← emit_word mem d;
      up_words fuel mem (d + 8) (n - 8)
    else mret (mem, d, n)
  end.
End Up.
(** Peel to a word boundary, go word by word, and byte by byte through the rest. *)
Definition up_kernel (emit_byte emit_word : memory -> Z -> outcome memory) (go : Z -> bool)
    (mem : memory) (d n : Z) : outcome (memory * Z) :=
  let fuel := S (Z.to_nat n) in
  '(mem, d, n) ← up_bytes emit_byte go fuel mem d n;
  '(mem, d, n) ← up_words emit_word fuel mem d n;
  '(mem, d, n) ← up_bytes emit_byte (fun _ => true) fuel mem d n;
  mret (mem, d).

(** The source pointer keeps its distance from the destination's. *)
Definition lh_memory_std_copy_words (mem : memory) (dst src n : Z) : outcome (memory * Z) :=
  let s d := src + (d - dst) in
  up_kernel (fun mem d => b ← load mem (s d); put mem d b)
            (fun mem d => v ← lh_memory_word_load mem (s d); lh_memory_word_store mem d v)
            (fun d => unaligned d (s d)) mem dst n.
Definition lh_memory_std_fill_words (mem : memory) (dst word n : Z) : outcome (memory * Z) :=
  up_kernel (fun mem d => put mem d (u8 word)) (fun mem d => lh_memory_word_store mem d word)
            (fun d => negb (d mod 8 =? 0)) mem dst n.
Definition lh_memory_std_xor_bytes (mem : memory) (dst lhs rhs n : Z) : outcome memory :=
  let l d := lhs + (d - dst) in
  let r d := rhs + (d - dst) in
  '(mem, d) ← up_kernel
    (fun mem d => a ← load mem (l d); b ← load mem (r d); put mem d (Z.lxor a b))
    (fun mem d => a ← lh_memory_word_load mem (l d); b ← lh_memory_word_load mem (r d);
                  lh_memory_word_store mem d (Z.lxor a b))
    (fun d => negb (Z.land (Z.lor (Z.lor d (l d)) (r d)) (8 - 1) =? 0)) mem dst n;
  mret mem.

(** ** Setting *)

Fixpoint set_words_loop (fuel : nat) (mem : memory) (dst v n : Z) : outcome (memory * Z * Z) :=
  match fuel with
  | O => Undef
  | S fuel =>
    mem ← lh_memory_store_usize mem dst v;
    let dst := dst + 8 in
    let n := n - 8 in
    if n >=? 8 then set_words_loop fuel mem dst v n else mret (mem, dst, n)
  end.
Fixpoint set_bytes_loop (fuel : nat) (mem : memory) (dst val n : Z) : outcome memory :=
  match fuel with
  | O => Undef
  | S fuel =>
    if n >? 0 then
      mem ← put mem dst val;
      set_bytes_loop fuel mem (dst + 1) val (n - 1)
    else mret mem
  end.
Definition lh_memory_std_set_bytes (mem : memory) (dst val n : Z) : outcome memory :=
  let fuel := S (Z.to_nat n) in
  if n >=? 8 then
    let v := lh_bit_swar_broadcast val in
    '(mem, dst, n) ← set_words_loop fuel mem dst v n;
    if negb (n =? 0) then lh_memory_store_usize mem (dst + n - 8) v else mret mem
  else set_bytes_loop fuel mem dst val n.

(** ** Comparing *)

(** A loop has found an address, or has gone on. *)
Inductive search (A : Type) : Type := hit (p : Z) | onward (a : A).
Arguments hit {A} _.
Arguments onward {A} _.
Definition and_then {A B} (m : outcome (search A)) (f : A -> outcome (search B))
    : outcome (search B) :=
  r ← m;
  match r with hit p => mret (hit p) | onward a => f a end.
Definition found_at {A} (m : outcome (search A)) : outcome (option Z) :=
  r ← m;
  match r with hit p => mret (Some p) | onward _ => mret None end.

(** [while ( *lhs == *rhs) { ++lhs; ++rhs; }] over a word that differs. *)
Fixpoint compare_word_loop (fuel : nat) (mem : memory) (lhs rhs : Z) : outcome Z :=
  match fuel with
  | O => Undef
  | S fuel =>
    a ← load mem lhs;
    b ← load mem rhs;
    if a =? b then compare_word_loop fuel mem (lhs + 1) (rhs + 1) else mret lhs
  end.
Definition lh_memory_std_compare_word_byte (mem : memory) (lhs rhs : Z) : outcome Z :=
  compare_word_loop 8 mem lhs rhs.
(** [do { --i; } while (lhs[i] == rhs[i])] *)
Fixpoint rcompare_word_loop (fuel : nat) (mem : memory) (lhs rhs i : Z) : outcome Z :=
  match fuel with
  | O => Undef
  | S fuel =>
    let i := i - 1 in
    a ← load mem (lhs + i);
    b ← load mem (rhs + i);
    if a =? b then rcompare_word_loop fuel mem lhs rhs i else mret (lhs + i)
  end.
Definition lh_memory_std_rcompare_word_byte (mem : memory) (lhs rhs n : Z) : outcome Z :=
  rcompare_word_loop (Z.to_nat n) mem lhs rhs n.

Definition words_differ (mem : memory) (l r : Z) : outcome bool :=
  a ← lh_memory_word_load mem l;
  b ← lh_memory_word_load mem r;
  mret (negb (a =? b)).
Fixpoint compare_bytes_loop (fuel : nat) (go : Z -> Z -> bool) (mem : memory) (l r n : Z)
    : outcome (search (Z * Z * Z)) :=
  match fuel with
  | O => Undef
  | S fuel =>
    if (n >? 0) && go l r then
      a ← load mem l;
      b ← load mem r;
      if negb (a =? b) then mret (hit l) else compare_bytes_loop fuel go mem (l + 1) (r + 1) (n - 1)
    else mret (onward (l, r, n))
  end.
Fixpoint compare_pairs_loop (fuel : nat) (mem : memory) (l r n : Z) : outcome (search (Z * Z * Z)) :=
  match fuel with
  | O => Undef
  | S fuel =>
    if n >=? 8 * 2 then
      a0 ← lh_memory_word_load mem l;
      b0 ← lh_memory_word_load mem r;
      a1 ← lh_memory_word_load mem (l + 8);
      b1 ← lh_memory_word_load mem (r + 8);
      if negb (a0 =? b0) then p ← lh_memory_std_compare_word_byte mem l r; mret (hit p) else
      if negb (a1 =? b1) then p ← lh_memory_std_compare_word_byte mem (l + 8) (r + 8); mret (hit p) else
      compare_pairs_loop fuel mem (l + 8 * 2) (r + 8 * 2) (n - 8 * 2)
    else mret (onward (l, r, n))
  end.
Definition lh_memory_std_compare_bytes (mem : memory) (lhs rhs n : Z) : outcome (option Z) :=
  let fuel := S (Z.to_nat n) in
  found_at (
    and_then (compare_bytes_loop fuel unaligned mem lhs rhs n) (fun '(l, r, n) =>
    and_then (compare_pairs_loop fuel mem l r n) (fun '(l, r, n) =>
    and_then
      (if n >=? 8 then
         differ ← words_differ mem l r;
         if differ : bool then p ← lh_memory_std_compare_word_byte mem l r; mret (hit p)
         else mret (onward (l + 8, r + 8, n - 8))
       else mret (onward (l, r, n))) (fun '(l, r, n) =>
    compare_bytes_loop fuel (fun _ _ => true) mem l r n)))).

Fixpoint rcompare_bytes_loop (fuel : nat) (go : Z -> bool) (mem : memory) (l r n : Z)
    : outcome (search Z) :=
  match fuel with
  | O => Undef
  | S fuel =>
    if (n >? 0) && go n then
      let n := n - 1 in
      a ← load mem (l + n);
      b ← load mem (r + n);
      if negb (a =? b) then mret (hit (l + n)) else rcompare_bytes_loop fuel go mem l r n
    else mret (onward n)
  end.
Fixpoint rcompare_pairs_loop (fuel : nat) (mem : memory) (l r n : Z) : outcome (search Z) :=
  match fuel with
  | O => Undef
  | S fuel =>
    if n >=? 8 * 2 then
      let n := n - 8 * 2 in
      differ ← words_differ mem (l + n + 8) (r + n + 8);
      if differ : bool then
        p ← lh_memory_std_rcompare_word_byte mem (l + n + 8) (r + n + 8) 8; mret (hit p) else
      differ ← words_differ mem (l + n) (r + n);
      if differ : bool then
        p ← lh_memory_std_rcompare_word_byte mem (l + n) (r + n) 8; mret (hit p) else
      rcompare_pairs_loop fuel mem l r n
    else mret (onward n)
  end.
Definition lh_memory_std_rcompare_bytes (mem : memory) (lhs rhs n : Z) : outcome (option Z) :=
  if n =? 0 then mret None else
  let fuel := S (Z.to_nat n) in
  found_at (
    and_then (rcompare_bytes_loop fuel (fun n => unaligned (lhs + n) (rhs + n)) mem lhs rhs n) (fun n =>
    and_then (rcompare_pairs_loop fuel mem lhs rhs n) (fun n =>
    and_then
      (if n >=? 8 then
         let n := n - 8 in
         differ ← words_differ mem (lhs + n) (rhs + n);
         if differ : bool then
           p ← lh_memory_std_rcompare_word_byte mem (lhs + n) (rhs + n) 8; mret (hit p)
         else mret (onward n)
       else mret (onward n)) (fun n =>
    rcompare_bytes_loop fuel (fun _ => true) mem lhs rhs n)))).

(** ** Finding *)

Definition lh_addr_align_down (x align : Z) : Z := Z.land x (u64 (Z.lnot (align - 1))).
Definition lh_bit_swar_lane_bit (lane : Z) : Z := u64 (Z.shiftl 0x80 (Z.shiftl lane 3)).
(** All but the first and the last byte, which the caller has compared. *)
Definition lh_memory_std_find_is_match (mem : memory) (cand needle m : Z) : outcome bool :=
  if m <=? 2 then mret true else
  if m =? 3 then a ← load mem (cand + 1); b ← load mem (needle + 1); mret (a =? b) else
  p ← lh_memory_std_compare_bytes mem (cand + 1) (needle + 1) (m - 2);
  mret (match p with None => true | Some _ => false end).
Definition lh_memory_std_find_at (mem : memory) (hay off needle m first last : Z) : outcome bool :=
  a ← load mem (hay + off);
  if negb (a =? first) then mret false else
  b ← load mem (hay + off + m - 1);
  if negb (b =? last) then mret false else
  lh_memory_std_find_is_match mem (hay + off) needle m.

Section Find.
Variables (mem : memory) (hay needle m first last : Z).

(** The lanes of a mask, in order; a marked lane is compared in full. *)
Fixpoint find_lanes (fuel : nat) (mask off lane : Z) : outcome (search unit) :=
  match fuel with
  | O => Undef
  | S fuel =>
    if lane <? 8 then
      same ← (if negb (Z.land mask (lh_bit_swar_lane_bit lane) =? 0)
              then lh_memory_std_find_at mem hay (off + lane) needle m first last else mret false);
      if same : bool then mret (hit (hay + off + lane)) else find_lanes fuel mask off (lane + 1)
    else mret (onward tt)
  end.
Fixpoint find_words (fuel : nat) (filter filter_off word_limit off : Z) : outcome (search Z) :=
  match fuel with
  | O => Undef
  | S fuel =>
    if off <=? word_limit then
      v ← lh_memory_load_usize mem (hay + off + filter_off);
      let mask := lh_bit_swar_zero_mask (Z.lxor v filter) in
      and_then (if negb (mask =? 0) then find_lanes 9 mask off 0 else mret (onward tt)) (fun _ =>
      find_words fuel filter filter_off word_limit (off + 8))
    else mret (onward off)
  end.
Fixpoint find_offs (fuel : nat) (max_start off : Z) : outcome (search unit) :=
  match fuel with
  | O => Undef
  | S fuel =>
    if off <=? max_start then
      same ← lh_memory_std_find_at mem hay off needle m first last;
      if same : bool then mret (hit (hay + off)) else find_offs fuel max_start (off + 1)
    else mret (onward tt)
  end.

(** [for (off = from;; --off)] down to [until]. *)
Fixpoint rfind_offs (fuel : nat) (until off : Z) : outcome (search unit) :=
  match fuel with
  | O => Undef
  | S fuel =>
    same ← lh_memory_std_find_at mem hay off needle m first last;
    if same : bool then mret (hit (hay + off)) else
    if off =? until then mret (onward tt) else rfind_offs fuel until (off - 1)
  end.
(** [while (lane-- != 0)] *)
Fixpoint rfind_lanes (fuel : nat) (mask off lane : Z) : outcome (search unit) :=
  match fuel with
  | O => Undef
  | S fuel =>
    if negb (lane =? 0) then
      let lane := lane - 1 in
      same ← (if negb (Z.land mask (lh_bit_swar_lane_bit lane) =? 0)
              then lh_memory_std_find_at mem hay (off + lane) needle m first last else mret false);
      if same : bool then mret (hit (hay + off + lane)) else rfind_lanes fuel mask off lane
    else mret (onward tt)
  end.
Fixpoint rfind_words (fuel : nat) (filter filter_off off : Z) : outcome (search unit) :=
  match fuel with
  | O => Undef
  | S fuel =>
    v ← lh_memory_load_usize mem (hay + off + filter_off);
    let mask := lh_bit_swar_zero_mask (Z.lxor v filter) in
    and_then (if negb (mask =? 0) then rfind_lanes 9 mask off 8 else mret (onward tt)) (fun _ =>
    if off =? 0 then mret (onward tt) else rfind_words fuel filter filter_off (off - 8))
  end.
End Find.

Definition lh_memory_std_find_scalar (mem : memory) (hay n needle m off : Z) : outcome (option Z) :=
  first ← load mem needle;
  last ← load mem (needle + (m - 1));
  let max_start := n - m in
  let fuel := S (Z.to_nat n) in
  found_at (
    and_then
      (if (n >=? 32) && (n >=? m + 8 - 1) then
         let filter := lh_bit_swar_broadcast (if m >? 1 then last else first) in
         let filter_off := if m >? 1 then m - 1 else 0 in
         let word_limit := n - (m + 8 - 1) in
         find_words mem hay needle m first last fuel filter filter_off word_limit off
       else mret (onward off)) (fun off =>
    find_offs mem hay needle m first last fuel max_start off)).
Definition lh_memory_std_rfind_scalar (mem : memory) (hay n needle m : Z) : outcome (option Z) :=
  first ← load mem needle;
  last ← load mem (needle + (m - 1));
  let max_start := n - m in
  let fuel := S (Z.to_nat n) in
  if (n >=? 32) && (n >=? m + 8 - 1) then
    let filter := lh_bit_swar_broadcast (if m >? 1 then last else first) in
    let filter_off := if m >? 1 then m - 1 else 0 in
    let word_limit := n - (m + 8 - 1) in
    let block := lh_addr_align_down word_limit 8 in
    found_at (
      and_then
        (if max_start >=? block + 8 then rfind_offs mem hay needle m first last fuel (block + 8) max_start
         else mret (onward tt)) (fun _ =>
      rfind_words mem hay needle m first last fuel filter filter_off block))
  else found_at (rfind_offs mem hay needle m first last fuel 0 max_start).

(** ** The entry points *)

Definition assert_ref (p : Z) : outcome unit := fail_if (p =? 0) lh_runtime_error_code_null_pointer.

Definition lh_memory_std_copy (mem : memory) (dst src n : Z) : outcome (memory * Z) :=
  _ ← assert_ref dst;
  _ ← assert_ref src;
  let end_ := dst + n in
  '(mem, _) ← lh_memory_std_copy_words mem dst src n;
  mret (mem, end_).
Definition lh_memory_std_copy_rev (mem : memory) (dst src n : Z) : outcome (memory * Z) :=
  _ ← assert_ref dst;
  _ ← assert_ref src;
  let end_ := dst + n in
  mem ← lh_memory_std_copy_rev_bytes mem dst src n;
  mret (mem, end_).
Definition lh_memory_std_rcopy (mem : memory) (dst src n : Z) : outcome (memory * Z) :=
  _ ← assert_ref dst;
  _ ← assert_ref src;
  mem ← lh_memory_std_rcopy_bytes mem dst src n;
  mret (mem, dst).
Definition lh_ptr_is_forward_copy (dst src src_end : Z) : bool := (dst <=? src) || (src_end <=? dst).
Definition lh_ptr_is_backward_copy (dst src src_end : Z) : bool :=
  negb (lh_ptr_is_forward_copy dst src src_end).
Definition lh_memory_std_move (mem : memory) (dst src n : Z) : outcome (memory * Z) :=
  _ ← assert_ref dst;
  _ ← assert_ref src;
  let src_end := src + n in
  if lh_ptr_is_backward_copy dst src src_end then
    '(mem, _) ← lh_memory_std_rcopy mem dst src n;
    mret (mem, dst + n)
  else if (dst <? src) && (src - dst <? n) then
    mem ← lh_memory_std_copy_bytes mem dst src n;
    mret (mem, dst + n)
  else lh_memory_std_copy mem dst src n.
Definition lh_memory_std_set (mem : memory) (dst val n : Z) : outcome (memory * Z) :=
  _ ← assert_ref dst;
  let end_ := dst + n in
  mem ← lh_memory_std_set_bytes mem dst val n;
  mret (mem, end_).
Definition lh_memory_std_xor (mem : memory) (dst lhs rhs n : Z) : outcome (memory * Z) :=
  _ ← assert_ref dst;
  _ ← assert_ref lhs;
  _ ← assert_ref rhs;
  mem ← lh_memory_std_xor_bytes mem dst lhs rhs n;
  mret (mem, dst + n).
Definition lh_memory_std_compare (mem : memory) (lhs rhs n : Z) : outcome (option Z) :=
  _ ← assert_ref lhs;
  _ ← assert_ref rhs;
  lh_memory_std_compare_bytes mem lhs rhs n.
Definition lh_memory_std_rcompare (mem : memory) (lhs rhs n : Z) : outcome (option Z) :=
  _ ← assert_ref lhs;
  _ ← assert_ref rhs;
  lh_memory_std_rcompare_bytes mem lhs rhs n.
Definition lh_memory_std_find (mem : memory) (lhs lhs_size rhs rhs_size : Z) : outcome (option Z) :=
  _ ← assert_ref lhs;
  _ ← assert_ref rhs;
  if (rhs_size =? 0) || (lhs_size <? rhs_size) then mret None else
  if rhs_size =? 1 then lh_memory_std_find_scalar mem lhs lhs_size rhs 1 0 else
  lh_memory_std_find_scalar mem lhs lhs_size rhs rhs_size 0.
Definition lh_memory_std_rfind (mem : memory) (lhs lhs_size rhs rhs_size : Z) : outcome (option Z) :=
  _ ← assert_ref lhs;
  _ ← assert_ref rhs;
  if (rhs_size =? 0) || (lhs_size <? rhs_size) then mret None else
  lh_memory_std_rfind_scalar mem lhs lhs_size rhs rhs_size.
