(* ===== verification/MemoryProofs.v ===== *)
(** * Memory: correctness

    The copies are what memmove is, for every overlap their callers allow; setting,
    filling and the exclusive or write exactly their range; the comparisons find the
    first and the last difference and the searches the first and the last match, which
    is the contract the rest of the library uses. *)
From S2P Require Import Prelude Buffer Bytes Swar Memory.

(** ** Loads and stores *)

Lemma word_bytes_length k : forall v, length (word_bytes k v) = k.
Proof. induction k as [|k IH]; intros v; cbn [word_bytes length]; [done|]. by rewrite IH. Qed.
Lemma word_bytes_le_word bs : is_bytes bs -> word_bytes (length bs) (le_word bs) = bs.
Proof.
  induction 1 as [|b bs Hb Hbs IH]; cbn [length word_bytes le_word]; [done|].
  replace (u8 (b + 256 * le_word bs)) with b by zdm. replace ((b + 256 * le_word bs) / 256) with (le_word bs) by zdm.
  by rewrite IH.
Qed.
Definition bytes_at (m : memory) (p : Z) (k : nat) : list Z := take k (drop (Z.to_nat p) m).
Lemma bytes_at_length m p k : 0 <= p -> p + Z.of_nat k <= len m -> length (bytes_at m p k) = k.
Proof. intros. unfold bytes_at. rewrite length_take, length_drop. lia. Qed.
Lemma bytes_at_bytes m p k : is_bytes m -> is_bytes (bytes_at m p k).
Proof. intros. by apply Forall_take, Forall_drop. Qed.
Lemma bytes_at_byte m p k i : 0 <= p -> 0 <= i < Z.of_nat k -> byte_at (bytes_at m p k) i = byte_at m (p + i).
Proof.
  intros. unfold bytes_at. rewrite byte_at_take, byte_at_drop by lia. f_equal. lia.
Qed.
Lemma load_word_ok k m p : 0 <= p -> p + Z.of_nat k <= len m ->
  load_word k m p = Done (le_word (bytes_at m p k)).
Proof. intros. unfold load_word. by rewrite !(proj2 (Z.leb_le _ _)) by lia. Qed.

(** The memory [m] is [m0] with the bytes [f] from [lo] to [hi]. *)
Definition painted (m0 : memory) (f : Z -> Z) (lo hi : Z) (m : memory) : Prop :=
  len m = len m0 /\ is_bytes m /\
  forall i, 0 <= i < len m0 -> byte_at m i = if (lo <=? i) && (i <? hi) then f i else byte_at m0 i.

Lemma painted_none m0 f a : is_bytes m0 -> painted m0 f a a m0.
Proof.
  intros Hm. split_and!; [done..|]. intros i Hi. by destruct (Z.leb_spec a i), (Z.ltb_spec i a); try lia.
Qed.
Lemma painted_out m0 f lo hi m i : painted m0 f lo hi m -> 0 <= i < len m0 -> i < lo \/ hi <= i ->
  byte_at m i = byte_at m0 i.
Proof.
  intros (_ & _ & H) Hi Ho. rewrite H by done. destruct (Z.leb_spec lo i), (Z.ltb_spec i hi); try done. lia.
Qed.
Lemma painted_ext m0 f g lo hi m : (forall i, lo <= i < hi -> f i = g i) ->
  painted m0 f lo hi m -> painted m0 g lo hi m.
Proof.
  intros He (Hl & Hb & H). split_and!; [done..|]. intros i Hi. rewrite H by done.
  destruct (Z.leb_spec lo i), (Z.ltb_spec i hi); try done. by apply He.
Qed.
Lemma painted_unique m0 f lo hi m m' : painted m0 f lo hi m -> painted m0 f lo hi m' -> m = m'.
Proof.
  intros (Hl & Hb & H) (Hl' & Hb' & H'). apply byte_at_ext; [lia|]. intros i Hi. by rewrite H, H' by lia.
Qed.

Section Paint.
Context (m0 : memory) (f : Z -> Z).

Lemma write_paint lo hi m a bs : painted m0 f lo hi m -> is_bytes bs -> 0 <= a -> a + len bs <= len m0 ->
  lo <= a + len bs -> a <= hi -> (forall i, 0 <= i < len bs -> byte_at bs i = f (a + i)) ->
  exists m', copy_bytes m a bs (len bs) = Done m' /\ painted m0 f (Z.min lo a) (Z.max hi (a + len bs)) m'.
Proof using.
  intros (Hl & Hb & H) Hbs Ha Hn Hlo Hhi Hf. rewrite copy_ok by lia. rewrite Nat2Z.id, firstn_all.
  eexists. split; [done|].
  assert (len (take (Z.to_nat a) m) = a) as Hta by (rewrite length_take; lia).
  split_and!.
  - rewrite !length_app, length_drop. lia.
  - apply Forall_app_2; [by apply Forall_take|]. apply Forall_app_2; [done|by apply Forall_drop].
  - intros i Hi. destruct (decide (i < a)) as [H1|H1].
    { rewrite byte_at_app_l, byte_at_take, H by lia.
      destruct (Z.leb_spec lo i), (Z.ltb_spec i hi), (Z.leb_spec (Z.min lo a) i), (Z.ltb_spec i (Z.max hi (a + len bs)));
        try done; lia. }
    rewrite byte_at_app_r, Hta by lia. destruct (decide (i < a + len bs)) as [H2|H2].
    { rewrite byte_at_app_l, Hf by lia. rewrite (proj2 (Z.leb_le _ _)), (proj2 (Z.ltb_lt _ _)) by lia.
      cbn [andb]. f_equal. lia. }
    rewrite byte_at_app_r, byte_at_drop by lia. replace (Z.of_nat (Z.to_nat (a + len bs)) + (i - a - len bs)) with i by lia.
    rewrite H by lia.
    destruct (Z.leb_spec lo i), (Z.ltb_spec i hi), (Z.leb_spec (Z.min lo a) i), (Z.ltb_spec i (Z.max hi (a + len bs)));
      try done; lia.
Qed.
Lemma store_paint k lo hi m a bs : painted m0 f lo hi m -> is_bytes bs -> length bs = k -> 0 <= a ->
  a + Z.of_nat k <= len m0 -> lo <= a + Z.of_nat k -> a <= hi ->
  (forall i, 0 <= i < Z.of_nat k -> byte_at bs i = f (a + i)) ->
  exists m', store_word k m a (le_word bs) = Done m' /\ painted m0 f (Z.min lo a) (Z.max hi (a + Z.of_nat k)) m'.
Proof using.
  intros Hp Hb <- Ha Hn Hlo Hhi Hf. unfold store_word. rewrite word_bytes_le_word by done. by apply write_paint.
Qed.
Lemma put_paint lo hi m a b : painted m0 f lo hi m -> is_u8 b -> 0 <= a < len m0 -> lo <= a + 1 -> a <= hi ->
  b = f a -> exists m', put m a b = Done m' /\ painted m0 f (Z.min lo a) (Z.max hi (a + 1)) m'.
Proof using.
  intros Hp Hb Ha Hlo Hhi ->. pose proof Hp as (Hl & _).
  destruct (write_paint lo hi m a [f a] Hp) as (m' & Hc & Hp'); [by apply Forall_singleton|lia|cbn; lia|cbn; lia|lia| |].
  { intros i Hi. cbn in Hi. replace i with 0 by lia. unfold byte_at. cbn. f_equal. lia. }
  exists m'. split; [|exact Hp'].
  rewrite copy_ok in Hc by (cbn; lia). injection Hc as <-. rewrite put_ok by lia. f_equal.
  change (len [f a]) with 1. rewrite insert_take_drop by lia.
  replace (Z.to_nat (a + Z.of_nat 1)) with (S (Z.to_nat a)) by lia. done.
Qed.
(** A word of the memory that has not been written. *)
Lemma load_source k lo hi m p : painted m0 f lo hi m -> 0 <= p -> p + Z.of_nat k <= len m0 ->
  (p + Z.of_nat k <= lo \/ hi <= p) ->
  exists bs, load_word k m p = Done (le_word bs) /\ length bs = k /\ is_bytes bs /\
    (forall i, 0 <= i < Z.of_nat k -> byte_at bs i = byte_at m0 (p + i)).
Proof using.
  intros Hp Hp0 Hk Ho. pose proof Hp as (Hl & Hb & _). exists (bytes_at m p k).
  split_and!; [apply load_word_ok; lia|apply bytes_at_length; lia|by apply bytes_at_bytes|].
  intros i Hi. rewrite bytes_at_byte by lia. eapply painted_out; [done|lia|lia].
Qed.
Lemma byte_source lo hi m p : painted m0 f lo hi m -> 0 <= p < len m0 -> (p < lo \/ hi <= p) ->
  load m p = Done (byte_at m0 p).
Proof using.
  intros Hp Hp0 Ho. rewrite byte_at_load by (destruct Hp as (-> & _); lia). f_equal.
  by eapply painted_out.
Qed.
End Paint.

(** What the place [i] of a copy from [s] to [d] gets. *)
Definition moved_byte (m0 : memory) (d s i : Z) : Z := byte_at m0 (s + (i - d)).
(** The source has not been written where it is still to be read. *)
Definition unread (d s n : Z) : Prop := d <= s \/ s + n <= d.

Lemma unaligned_false p q : unaligned p q = false <-> p mod 8 = 0 /\ q mod 8 = 0.
Proof.
  unfold unaligned. rewrite negb_false_iff, Z.eqb_eq. change (8 - 1) with (Z.ones 3).
  rewrite Z.land_lor_distr_l, Z.lor_eq_0_iff, !Z.land_ones by lia. done.
Qed.
Lemma word_load_aligned m p : p mod 8 = 0 -> lh_memory_word_load m p = load_word 8 m p.
Proof. intros H. unfold lh_memory_word_load. by rewrite H. Qed.
Lemma word_store_aligned m p v : p mod 8 = 0 -> lh_memory_word_store m p v = store_word 8 m p v.
Proof. intros H. unfold lh_memory_word_store. by rewrite H. Qed.

(** ** Kernels that go up *)

Section Up.
Context (m0 : memory) (f : Z -> Z) (d0 N : Z) (ok : Z -> Prop).
Context (emit_byte emit_word : memory -> Z -> outcome memory).
Hypothesis byte_ok : forall m d, painted m0 f d0 d m -> d0 <= d < d0 + N ->
  exists m', emit_byte m d = Done m' /\ painted m0 f d0 (d + 1) m'.
Hypothesis word_ok : forall m d, painted m0 f d0 d m -> d0 <= d -> d + 8 <= d0 + N -> ok d ->
  exists m', emit_word m d = Done m' /\ painted m0 f d0 (d + 8) m'.
Hypothesis ok_next : forall d, ok d -> ok (d + 8).

(** Painted up to [d], with [n] left to the end. *)
Definition stands (m : memory) (d n : Z) : Prop :=
  painted m0 f d0 d m /\ d0 <= d /\ 0 <= n /\ d + n = d0 + N.
Lemma up_bytes_spec g fuel : forall m d n, stands m d n -> n < Z.of_nat fuel ->
  exists m' d' n', up_bytes emit_byte g fuel m d n = Done (m', d', n') /\ stands m' d' n' /\
    (n' = 0 \/ g d' = false).
Proof using byte_ok.
  induction fuel as [|fuel IH]; intros m d n (Hp & Hd & Hn & He) Hf; [lia|]. cbn [up_bytes].
  rewrite Z.gtb_ltb. destruct (Z.ltb_spec 0 n); cbn [andb].
  2:{ exists m, d, n. split; [done|]. split; [done|]. left. lia. }
  destruct (g d) eqn:Eg; [|exists m, d, n; split; [done|]; split; [done|]; by right].
  destruct (byte_ok m d Hp) as (m' & -> & Hp'); [lia|]. rewrite bind_done. apply IH; [|lia].
  split_and!; [done|lia..].
Qed.
Lemma up_words_spec fuel : forall m d n, stands m d n -> (n = 0 \/ ok d) -> n < Z.of_nat fuel ->
  exists m' d' n', up_words emit_word fuel m d n = Done (m', d', n') /\ stands m' d' n' /\ n' < 8.
Proof using word_ok ok_next.
  induction fuel as [|fuel IH]; intros m d n (Hp & Hd & Hn & He) Ho Hf; [lia|]. cbn [up_words].
  rewrite Z.geb_leb. destruct (Z.leb_spec 8 n); [|by exists m, d, n].
  destruct Ho as [->|Ho]; [lia|]. destruct (word_ok m d Hp) as (m' & -> & Hp'); [lia|lia|done|].
  rewrite bind_done. apply IH; [split_and!; [done|lia..]|right; by apply ok_next|lia].
Qed.
Lemma up_kernel_spec go : is_bytes m0 -> 0 <= N -> (forall d, go d = false -> ok d) ->
  exists m', up_kernel emit_byte emit_word go m0 d0 N = Done (m', d0 + N) /\ painted m0 f d0 (d0 + N) m'.
Proof using byte_ok word_ok ok_next.
  intros Hm HN Hgo. unfold up_kernel.
  destruct (up_bytes_spec go (S (Z.to_nat N)) m0 d0 N) as (m1 & d1 & n1 & -> & H1 & Hg);
    [split_and!; [by apply painted_none|lia..]|lia|]. rewrite bind_done.
  destruct (up_words_spec (S (Z.to_nat N)) m1 d1 n1 H1) as (m2 & d2 & n2 & -> & H2 & Hlt);
    [destruct Hg; [by left|right; auto]|destruct H1 as (_ & ? & ? & ?); lia|]. rewrite bind_done.
  destruct (up_bytes_spec (fun _ => true) (S (Z.to_nat N)) m2 d2 n2 H2) as (m3 & d3 & n3 & -> & H3 & Hend); [destruct H2 as (_ & ? & ? & ?); lia|].
  rewrite bind_done. destruct H3 as (Hp & ? & ? & ?). destruct Hend as [->|]; [|done].
  assert (d3 = d0 + N) as -> by lia. by exists m3.
Qed.
End Up.

(** ** The copies *)

Section Copy.
Context (m0 : memory) (Hm0 : is_bytes m0) (d s N : Z).
Context (Hd : 0 <= d) (HdN : d + N <= len m0) (Hs : 0 <= s) (HsN : s + N <= len m0).
Notation f := (moved_byte m0 d s).

(** Move [k] bytes at the place [a], which touches what is painted. *)
Lemma move_word k lo hi m a : painted m0 f lo hi m -> d <= a -> a + Z.of_nat k <= d + N ->
  lo <= a + Z.of_nat k -> a <= hi -> (s + (a - d) + Z.of_nat k <= lo \/ hi <= s + (a - d)) ->
  exists v m', load_word k m (s + (a - d)) = Done v /\ store_word k m a v = Done m' /\
    painted m0 f (Z.min lo a) (Z.max hi (a + Z.of_nat k)) m'.
Proof using Hd HdN Hs HsN.
  intros Hp Ha HaN Hlo Hhi Ho.
  destruct (load_source m0 f k lo hi m (s + (a - d)) Hp) as (bs & Hl & Hlen & Hb & Hbs); [lia|lia|done|].
  destruct (store_paint m0 f k lo hi m a bs Hp Hb Hlen) as (m' & Hst & Hp'); [lia|lia|done|done| |by exists (le_word bs), m'].
  intros i Hi. rewrite Hbs by lia. unfold moved_byte. f_equal. lia.
Qed.
Lemma move_byte lo hi m a : painted m0 f lo hi m -> d <= a < d + N -> lo <= a + 1 -> a <= hi ->
  (s + (a - d) < lo \/ hi <= s + (a - d)) ->
  exists v m', load m (s + (a - d)) = Done v /\ put m a v = Done m' /\
    painted m0 f (Z.min lo a) (Z.max hi (a + 1)) m'.
Proof using Hd HdN Hs HsN Hm0.
  intros Hp Ha Hlo Hhi Ho. rewrite (byte_source m0 f lo hi) by (done || lia).
  destruct (put_paint m0 f lo hi m a (byte_at m0 (s + (a - d))) Hp) as (m' & Hst & Hp');
    [by apply byte_at_u8|lia|done|done|done|]. by eexists _, m'.
Qed.
(** Two words that together cover what is left, both read before either is written. *)
Lemma move_ends k m a n : painted m0 f d a m -> d <= a -> a + n = d + N ->
  Z.of_nat k <= n <= 2 * Z.of_nat k -> (s + N <= d \/ a <= s + (a - d)) ->
  exists v1 v2 m1 m2, load_word k m (s + (a - d)) = Done v1 /\
    load_word k m (s + (a - d) + n - Z.of_nat k) = Done v2 /\
    store_word k m a v1 = Done m1 /\ store_word k m1 (a + n - Z.of_nat k) v2 = Done m2 /\
    painted m0 f d (d + N) m2.
Proof using Hd HdN Hs HsN.
  intros Hp Ha He Hk Ho.
  destruct (load_source m0 f k d a m (s + (a - d)) Hp) as (b1 & L1 & Hl1 & Hb1 & Hf1); [lia|lia|lia|].
  destruct (load_source m0 f k d a m (s + (a - d) + n - Z.of_nat k) Hp) as (b2 & L2 & Hl2 & Hb2 & Hf2); [lia|lia|lia|].
  destruct (store_paint m0 f k d a m a b1 Hp Hb1 Hl1) as (m1 & S1 & P1); [lia|lia|lia|lia| |].
  { intros i Hi. rewrite Hf1 by lia. unfold moved_byte. f_equal. lia. }
  destruct (store_paint m0 f k _ _ m1 (a + n - Z.of_nat k) b2 P1 Hb2 Hl2) as (m2 & S2 & P2); [lia|lia|lia|lia| |].
  { intros i Hi. rewrite Hf2 by lia. unfold moved_byte. f_equal. lia. }
  exists (le_word b1), (le_word b2), m1, m2. split_and!; try done.
  replace (Z.min (Z.min d a) (a + n - Z.of_nat k)) with d in P2 by lia.
  by replace (Z.max (Z.max a (a + Z.of_nat k)) (a + n - Z.of_nat k + Z.of_nat k)) with (d + N) in P2 by lia.
Qed.
Lemma copy_tiny_spec m a n : painted m0 f d a m -> d <= a -> a + n = d + N -> 0 <= n < 16 ->
  (s + N <= d \/ a <= s + (a - d)) ->
  exists m', lh_memory_std_copy_tiny m a (s + (a - d)) n = Done m' /\ painted m0 f d (d + N) m'.
Proof using Hd HdN Hs HsN Hm0.
  intros Hp Ha He Hn Ho. unfold lh_memory_std_copy_tiny. rewrite !Z.geb_leb.
  destruct (Z.leb_spec 8 n); [|destruct (Z.leb_spec 4 n); [|destruct (Z.leb_spec 2 n)]].
  1: destruct (move_ends 8 m a n Hp) as (v1 & v2 & m1 & m2 & L1 & L2 & S1 & S2 & P); [lia..|].
  2: destruct (move_ends 4 m a n Hp) as (v1 & v2 & m1 & m2 & L1 & L2 & S1 & S2 & P); [lia..|].
  3: destruct (move_ends 2 m a n Hp) as (v1 & v2 & m1 & m2 & L1 & L2 & S1 & S2 & P); [lia..|].
  1-3: exists m2; split; [|done];
    change (Z.of_nat 8) with 8 in *; change (Z.of_nat 4) with 4 in *; change (Z.of_nat 2) with 2 in *;
    unfold lh_memory_load_u64, lh_memory_load_u32, lh_memory_load_u16, lh_memory_store_u64, lh_memory_store_u32,
      lh_memory_store_u16; rewrite L1, bind_done, L2, bind_done, S1, bind_done; exact S2.
  destruct (Z.eqb_spec n 0) as [->|Hne]; cbn [negb].
  { exists m. split; [done|]. by replace (d + N) with a by lia. }
  destruct (move_byte d a m a Hp) as (v & m' & Lv & Sv & P); [lia..|].
  rewrite Lv, bind_done, Sv. exists m'. split; [done|].
  replace (Z.min d a) with d in P by lia. by replace (Z.max a (a + 1)) with (d + N) in P by lia.
Qed.
Lemma copy_loop_spec : unread d s N -> forall fuel m a n, painted m0 f d a m -> d <= a -> a + n = d + N ->
  8 <= n -> n < Z.of_nat fuel ->
  exists m', copy_loop fuel m a (s + (a - d)) n = Done m' /\ painted m0 f d (d + N) m'.
Proof using Hd HdN Hs HsN Hm0.
  intros Hu. induction fuel as [|fuel IH]; intros m a n Hp Ha He Hn Hf; [lia|]. cbn [copy_loop].
  unfold unread in Hu.
  destruct (move_word 8 d a m a Hp) as (v & m' & L & S & P); [lia..|].
  unfold lh_memory_load_u64, lh_memory_store_u64. rewrite L, bind_done, S, bind_done. cbv zeta.
  replace (Z.min d a) with d in P by lia. replace (Z.max a (a + Z.of_nat 8)) with (a + 8) in P by lia.
  replace (s + (a - d) + 8) with (s + (a + 8 - d)) by lia. rewrite Z.geb_leb.
  destruct (Z.leb_spec 8 (n - 8)); [apply IH; lia || done|apply copy_tiny_spec; lia || done].
Qed.
Lemma copy_bytes_spec : 0 <= N -> unread d s N ->
  exists m', lh_memory_std_copy_bytes m0 d s N = Done m' /\ painted m0 f d (d + N) m'.
Proof using Hd HdN Hs HsN Hm0.
  intros HN Hu. unfold lh_memory_std_copy_bytes. assert (s + (d - d) = s) as E by lia.
  unfold unread in Hu.
  destruct (Z.ltb_spec N 16); [pose proof (copy_tiny_spec m0 d N) as H'|pose proof (copy_loop_spec Hu (S (Z.to_nat N)) m0 d N) as H'];
    rewrite E in H'; apply H'; try lia; by apply painted_none.
Qed.
Lemma copy_words_spec : 0 <= N -> unread d s N ->
  exists m', lh_memory_std_copy_words m0 d s N = Done (m', d + N) /\ painted m0 f d (d + N) m'.
Proof using Hd HdN Hs HsN Hm0.
  intros HN Hu. unfold unread in Hu. unfold lh_memory_std_copy_words.
  apply up_kernel_spec with (ok := fun a => a mod 8 = 0 /\ (s + (a - d)) mod 8 = 0); try done.
  - intros m a Hp Ha. destruct (move_byte d a m a Hp) as (v & m' & L & S & P); [lia..|].
    rewrite L, bind_done, S. exists m'. split; [done|].
    replace (Z.min d a) with d in P by lia. by replace (Z.max a (a + 1)) with (a + 1) in P by lia.
  - intros m a Hp Ha Hn [A1 A2]. destruct (move_word 8 d a m a Hp) as (v & m' & L & S & P); [lia..|].
    rewrite word_load_aligned, L, bind_done, word_store_aligned, S by done. exists m'. split; [done|].
    replace (Z.min d a) with d in P by lia. by replace (Z.max a (a + Z.of_nat 8)) with (a + 8) in P by lia.
  - intros a [A1 A2]. split; zdm.
  - intros a Hg. by apply unaligned_false.
Qed.
End Copy.

(** ** The kernel that goes down *)

Section Down.
Context (m0 : memory) (Hm0 : is_bytes m0) (d s N : Z).
Context (Hd : 0 <= d) (HdN : d + N <= len m0) (Hs : 0 <= s) (HsN : s + N <= len m0).
Context (Hu : s <= d \/ d + N <= s).
Notation f := (moved_byte m0 d s).

(** Painted from [n] to the end. *)
Definition left_over (m : memory) (n : Z) : Prop := painted m0 f (d + n) (d + N) m /\ 0 <= n <= N.
Lemma rcopy_bytes_loop_spec g fuel : forall m n, left_over m n -> n < Z.of_nat fuel ->
  exists m' n', rcopy_bytes_loop fuel g m d s n = Done (m', n') /\ left_over m' n' /\ n' <= n /\
    (n' = 0 \/ g n' = false).
Proof using Hm0 Hd HdN Hs HsN Hu.
  induction fuel as [|fuel IH]; intros m n (Hp & Hn) Hf; [lia|]. cbn [rcopy_bytes_loop].
  rewrite Z.gtb_ltb. destruct (Z.ltb_spec 0 n); cbn [andb].
  2:{ exists m, n. split; [done|]. split; [done|]. split; [lia|]. left. lia. }
  destruct (g n) eqn:Eg; [|exists m, n; split; [done|]; split; [done|]; split; [lia|]; by right].
  cbv zeta. destruct (move_byte m0 Hm0 d s N Hd HdN Hs HsN (d + n) (d + N) m (d + (n - 1)) Hp)
    as (v & m' & L & S & P); [lia..|].
  replace (s + (d + (n - 1) - d)) with (s + (n - 1)) in L by lia. rewrite L, bind_done, S, bind_done.
  replace (Z.min (d + n) (d + (n - 1))) with (d + (n - 1)) in P by lia.
  replace (Z.max (d + N) (d + (n - 1) + 1)) with (d + N) in P by lia.
  destruct (IH m' (n - 1)) as (m'' & n' & -> & ? & ? & ?); [split; [done|lia]|lia|].
  exists m'', n'. split_and!; done || lia.
Qed.
Lemma rcopy_words_loop_spec fuel : forall m n, left_over m n ->
  (n = 0 \/ ((d + n) mod 8 = 0 /\ (s + n) mod 8 = 0)) -> n < Z.of_nat fuel ->
  exists m' n', rcopy_words_loop fuel m d s n = Done (m', n') /\ left_over m' n' /\ n' <= n.
Proof using Hm0 Hd HdN Hs HsN Hu.
  induction fuel as [|fuel IH]; intros m n (Hp & Hn) Ha Hf; [lia|]. cbn [rcopy_words_loop].
  rewrite Z.geb_leb. destruct (Z.leb_spec 8 n); [|by exists m, n].
  cbv zeta. destruct (move_word m0 d s N Hd HdN Hs HsN 8 (d + n) (d + N) m (d + (n - 8)) Hp)
    as (v & m' & L & S & P); [lia..|].
  replace (s + (d + (n - 8) - d)) with (s + (n - 8)) in L by lia.
  destruct Ha as [->|[A1 A2]]; [lia|].
  rewrite word_load_aligned, L, bind_done, word_store_aligned, S, bind_done by zdm.
  replace (Z.min (d + n) (d + (n - 8))) with (d + (n - 8)) in P by lia.
  replace (Z.max (d + N) (d + (n - 8) + Z.of_nat 8)) with (d + N) in P by lia.
  destruct (IH m' (n - 8)) as (m'' & n' & -> & ? & ?); [split; [done|lia]|right; split; zdm|lia|].
  exists m'', n'. split_and!; done || lia.
Qed.
Lemma rcopy_bytes_spec : 0 <= N ->
  exists m', lh_memory_std_rcopy_bytes m0 d s N = Done m' /\ painted m0 f d (d + N) m'.
Proof using Hm0 Hd HdN Hs HsN Hu.
  intros HN. unfold lh_memory_std_rcopy_bytes.
  destruct (rcopy_bytes_loop_spec (fun n => unaligned (d + n) (s + n)) (S (Z.to_nat N)) m0 N)
    as (m1 & n1 & -> & H1 & L1 & G1); [split; [by apply painted_none|lia]|lia|]. rewrite bind_done.
  destruct (rcopy_words_loop_spec (S (Z.to_nat N)) m1 n1 H1) as (m2 & n2 & -> & H2 & L2);
    [destruct G1; [by left|right; by apply unaligned_false]|lia|]. rewrite bind_done.
  destruct (rcopy_bytes_loop_spec (fun _ => true) (S (Z.to_nat N)) m2 n2 H2)
    as (m3 & n3 & -> & [H3 _] & _ & [->|]); [lia| |done]. rewrite bind_done.
  exists m3. split; [done|]. by rewrite Z.add_0_r in H3.
Qed.
End Down.

(** ** As list operations *)

Lemma painted_blit m d bs f : is_bytes m -> is_bytes bs -> 0 <= d -> d + len bs <= len m ->
  (forall i, 0 <= i < len bs -> byte_at bs i = f (d + i)) ->
  forall m', painted m f d (d + len bs) m' ->
  m' = take (Z.to_nat d) m ++ bs ++ drop (Z.to_nat (d + len bs)) m.
Proof.
  intros Hm Hb Hd Hn Hf m' Hp.
  destruct (write_paint m f d d m d bs) as (m'' & Hc & Hp''); try done; try lia; [by apply painted_none|].
  rewrite copy_ok in Hc by lia. injection Hc as <-.
  replace (Z.min d d) with d in Hp'' by lia. replace (Z.max d (d + len bs)) with (d + len bs) in Hp'' by lia.
  rewrite (painted_unique _ _ _ _ _ _ Hp Hp''). by rewrite Nat2Z.id, firstn_all.
Qed.
Lemma painted_move m d s n m' : is_bytes m -> 0 <= d -> 0 <= n -> d + n <= len m -> 0 <= s -> s + n <= len m ->
  painted m (moved_byte m d s) d (d + n) m' -> copy_bytes m d (drop (Z.to_nat s) m) n = Done m'.
Proof.
  intros Hm Hd Hn Hdn Hs Hsn Hp. rewrite copy_ok by (rewrite ?length_drop; lia). f_equal. symmetry.
  set (bs := take (Z.to_nat n) (drop (Z.to_nat s) m)).
  assert (len bs = n) as Hl by (unfold bs; rewrite length_take, length_drop; lia).
  pose proof (painted_blit m d bs (moved_byte m d s) Hm) as Hbl. rewrite Hl in Hbl.
  apply Hbl; try done; [by apply Forall_take, Forall_drop|].
  intros i Hi. unfold bs, moved_byte. rewrite byte_at_take, byte_at_drop by lia. f_equal. lia.
Qed.
Lemma assert_ref_ok p : 0 < p -> assert_ref p = Done tt.
Proof. intros Hp. unfold assert_ref, fail_if. by rewrite (proj2 (Z.eqb_neq p 0)) by lia. Qed.
(** What the copies promise, as [Buffer] has it. *)
Lemma std_copy_contract m dst src n :
  is_bytes m -> 0 < dst -> 0 < src -> 0 <= n -> dst + n <= len m -> src + n <= len m -> unread dst src n ->
  lh_memory_std_copy m dst src n
  = (m' ← copy_bytes m dst (drop (Z.to_nat src) m) n; mret (m', dst + n)).
Proof.
  intros Hm Hd Hs Hn Hdn Hsn Hu. unfold lh_memory_std_copy. rewrite !assert_ref_ok, !bind_done by done.
  destruct (copy_words_spec m Hm dst src n) as (m' & -> & Hp); [lia..|done|].
  by rewrite bind_done, (painted_move _ _ _ _ m') by (done || lia).
Qed.
Lemma std_rcopy_contract m dst src n :
  is_bytes m -> 0 < dst -> 0 < src -> 0 <= n -> dst + n <= len m -> src + n <= len m -> unread src dst n ->
  lh_memory_std_rcopy m dst src n
  = (m' ← copy_bytes m dst (drop (Z.to_nat src) m) n; mret (m', dst)).
Proof.
  intros Hm Hd Hs Hn Hdn Hsn Hu. unfold lh_memory_std_rcopy. rewrite !assert_ref_ok, !bind_done by done.
  destruct (rcopy_bytes_spec m Hm dst src n) as (m' & -> & Hp); [lia..|done|lia|].
  by rewrite bind_done, (painted_move _ _ _ _ m') by (done || lia).
Qed.

(** Claim C36: moving memory is exact for every overlap: [lh_memory_std_move] leaves at the
    destination the bytes the source had before, changes nothing else, and returns the end
    of the destination, though it moves eight bytes at a time in either direction; no word
    is loaded or stored at an address that is not a multiple of eight where the code takes
    it to be one.  Nothing outside the two ranges is read or written. *)
Theorem move_is_exact m dst src n :
  is_bytes m -> 0 < dst -> 0 < src -> 0 <= n -> dst + n <= len m -> src + n <= len m ->
  lh_memory_std_move m dst src n
  = (m' ← copy_bytes m dst (drop (Z.to_nat src) m) n; mret (m', dst + n)).
Proof.
  intros Hm Hd Hs Hn Hdn Hsn. unfold lh_memory_std_move. rewrite !assert_ref_ok, !bind_done by done.
  unfold lh_ptr_is_backward_copy, lh_ptr_is_forward_copy.
  destruct (Z.leb_spec dst src) as [H1|H1]; [|destruct (Z.leb_spec (src + n) dst) as [H2|H2]]; cbn [orb negb].
  - destruct ((dst <? src) && (src - dst <? n)); [|apply std_copy_contract; (done || by left)].
    destruct (copy_bytes_spec m Hm dst src n) as (m' & -> & Hp); [lia..|by left|].
    by rewrite bind_done, (painted_move _ _ _ _ m') by (done || lia).
  - rewrite (proj2 (Z.ltb_ge dst src)) by lia. cbn [andb]. apply std_copy_contract; (done || by right).
  - rewrite std_rcopy_contract by (done || by left; lia).
    by destruct (copy_bytes _ _ _ _).
Qed.
Lemma move_is_exact_witness :
  lh_memory_std_move [9; 1; 2; 3; 4; 5; 6; 7; 8; 9; 10; 11; 12] 3 1 10 = Done ([9; 1; 2; 1; 2; 3; 4; 5; 6; 7; 8; 9; 10], 13).
Proof.
  rewrite (move_is_exact _ 3 1 10); [vm_compute; done|repeat constructor; zb|lia|lia|lia|..]; vm_compute; done.
Defined.

(** ** Searching *)

(** The first and the last number below [n] that passes a test. *)
Definition first_where (p : Z -> bool) (n : Z) : option Z := Z.of_nat <$> index_of p (seqZ 0 n).
Definition last_where (p : Z -> bool) (n : Z) : option Z :=
  (fun i => n - 1 - i) <$> first_where (fun i => p (n - 1 - i)) n.

Lemma first_where_some p n k : 0 <= k < n -> p k = true -> (forall i, 0 <= i < k -> p i = false) ->
  first_where p n = Some k.
Proof.
  intros Hk Hp Hn. unfold first_where.
  replace n with (k + (1 + (n - k - 1))) by lia. rewrite !seqZ_app by lia.
  change (seqZ (0 + k) 1) with [Z.of_nat 0 + (0 + k)]. cbn [app].
  replace (Z.of_nat 0 + (0 + k)) with k by lia. rewrite index_of_some; [|apply Forall_seqZ; intros; apply Hn; lia|done].
  rewrite length_seqZ. cbn. f_equal. lia.
Qed.
Lemma first_where_none p n : (forall i, 0 <= i < n -> p i = false) -> first_where p n = None.
Proof.
  intros Hn. unfold first_where. rewrite (proj2 (index_of_none _ _)); [done|]. apply Forall_seqZ. intros. apply Hn. lia.
Qed.
Lemma last_where_some p n k : 0 <= k < n -> p k = true -> (forall i, k < i < n -> p i = false) ->
  last_where p n = Some k.
Proof.
  intros Hk Hp Hn. unfold last_where. rewrite (first_where_some _ _ (n - 1 - k)).
  - cbn. f_equal. lia.
  - lia.
  - by replace (n - 1 - (n - 1 - k)) with k by lia.
  - intros i Hi. apply Hn. lia.
Qed.
Lemma last_where_none p n : (forall i, 0 <= i < n -> p i = false) -> last_where p n = None.
Proof. intros Hn. unfold last_where. rewrite first_where_none; [done|]. intros i Hi. apply Hn. lia. Qed.

Lemma first_where_ext p q n : (forall i, p i = q i) -> first_where p n = first_where q n.
Proof. intros H. unfold first_where. f_equal. apply index_of_ext, Forall_true. auto. Qed.
Lemma last_where_ext p q n : (forall i, p i = q i) -> last_where p n = last_where q n.
Proof. intros H. unfold last_where. f_equal. by apply first_where_ext. Qed.
Lemma first_where_inv p n : match first_where p n with
  | Some k => 0 <= k < n /\ p k = true /\ forall i, 0 <= i < k -> p i = false
  | None => forall i, 0 <= i < n -> p i = false
  end.
Proof.
  destruct (first_where p n) as [k|] eqn:E; unfold first_where in E.
  - destruct (index_of p (seqZ 0 n)) as [j|] eqn:Ej; [|done]. injection E as <-.
    apply index_of_inv in Ej as (c & Hc & Hp & Hl & Hf). apply lookup_seqZ in Hc as [-> Hj].
    split_and!; [lia|lia|by rewrite <-(Z.add_0_l (Z.of_nat j))|]. intros i Hi.
    apply (Forall_lookup_1 _ _ (Z.to_nat i) i Hf). rewrite lookup_take_lt by lia.
    apply lookup_seqZ. lia.
  - destruct (index_of p (seqZ 0 n)) eqn:Ej; [done|]. apply index_of_none in Ej. rewrite Forall_forall in Ej.
    intros i Hi. apply Ej, elem_of_seqZ. lia.
Qed.

(** A loop that looks upwards from [lo] for a place that passes [p]. *)
Section Seeks.
Context (p : Z -> bool) (base N : Z).
Definition seeks {A} (lo : Z) (r : outcome (search A)) (post : A -> Z -> Prop) : Prop :=
  (exists k, r = Done (hit (base + k)) /\ lo <= k < N /\ p k = true /\ forall i, lo <= i < k -> p i = false) \/
  (exists a j, r = Done (onward a) /\ lo <= j <= N /\ post a j /\ forall i, lo <= i < j -> p i = false).
Lemma seeks_hit {A} lo k (post : A -> Z -> Prop) : lo <= k < N -> p k = true ->
  (forall i, lo <= i < k -> p i = false) -> seeks lo (Done (hit (base + k))) post.
Proof using. intros. left. by exists k. Qed.
Lemma seeks_on {A} lo (a : A) (post : A -> Z -> Prop) : lo <= N -> post a lo -> seeks lo (Done (onward a)) post.
Proof using. intros. right. exists a, lo. split_and!; try done; lia. Qed.
Lemma seeks_step {A} lo j r (post : A -> Z -> Prop) : lo <= j -> (forall i, lo <= i < j -> p i = false) ->
  seeks j r post -> seeks lo r post.
Proof using.
  intros Hj Hn [(k & -> & Hk & Hp & Hf)|(a & k & -> & Hk & Hp & Hf)].
  - left. exists k. split_and!; try done; try lia. intros i Hi. destruct (decide (i < j)); [apply Hn|apply Hf]; lia.
  - right. exists a, k. split_and!; try done; try lia. intros i Hi. destruct (decide (i < j)); [apply Hn|apply Hf]; lia.
Qed.
Lemma seeks_then {A B} lo r (f : A -> outcome (search B)) (post : A -> Z -> Prop) (post' : B -> Z -> Prop) :
  seeks lo r post -> (forall a j, lo <= j <= N -> post a j -> seeks j (f a) post') ->
  seeks lo (and_then r f) post'.
Proof using.
  intros [(k & -> & Hk & Hp & Hf)|(a & j & -> & Hj & Hp & Hf)] Hn; unfold and_then; rewrite bind_done.
  - left. by exists k.
  - apply (seeks_step lo j); [lia|done|]. by apply Hn.
Qed.
Lemma seeks_post {A} lo r (post post' : A -> Z -> Prop) : seeks lo r post ->
  (forall a j, post a j -> post' a j) -> seeks lo r post'.
Proof using.
  intros [(k & -> & H)|(a & j & -> & Hj & Hp & Hf)] Hn; [left; by exists k|right; exists a, j; split_and!; auto; lia].
Qed.
Lemma seeks_found {A} r (post : A -> Z -> Prop) : seeks 0 r post -> (forall a j, post a j -> j = N) ->
  found_at r = Done (Z.add base <$> first_where p N).
Proof using.
  intros [(k & -> & Hk & Hp & Hf)|(a & j & -> & Hj & Hp & Hf)] Hn; unfold found_at; rewrite bind_done.
  - by rewrite (first_where_some _ _ k).
  - rewrite (Hn a j Hp) in Hf. by rewrite first_where_none.
Qed.
End Seeks.

(** And one that looks downwards from [hi]. *)
Section Rseeks.
Context (p : Z -> bool) (base : Z).
Definition rseeks {A} (hi : Z) (r : outcome (search A)) (post : A -> Z -> Prop) : Prop :=
  (exists k, r = Done (hit (base + k)) /\ 0 <= k < hi /\ p k = true /\ forall i, k < i < hi -> p i = false) \/
  (exists a j, r = Done (onward a) /\ 0 <= j <= hi /\ post a j /\ forall i, j <= i < hi -> p i = false).
Lemma rseeks_hit {A} hi k (post : A -> Z -> Prop) : 0 <= k < hi -> p k = true ->
  (forall i, k < i < hi -> p i = false) -> rseeks hi (Done (hit (base + k))) post.
Proof using. intros. left. by exists k. Qed.
Lemma rseeks_on {A} hi (a : A) (post : A -> Z -> Prop) : 0 <= hi -> post a hi -> rseeks hi (Done (onward a)) post.
Proof using. intros. right. exists a, hi. split_and!; try done; lia. Qed.
Lemma rseeks_step {A} hi j r (post : A -> Z -> Prop) : j <= hi -> (forall i, j <= i < hi -> p i = false) ->
  rseeks j r post -> rseeks hi r post.
Proof using.
  intros Hj Hn [(k & -> & Hk & Hp & Hf)|(a & k & -> & Hk & Hp & Hf)].
  - left. exists k. split_and!; try done; try lia. intros i Hi. destruct (decide (i < j)); [apply Hf|apply Hn]; lia.
  - right. exists a, k. split_and!; try done; try lia. intros i Hi. destruct (decide (i < j)); [apply Hf|apply Hn]; lia.
Qed.
Lemma rseeks_then {A B} hi r (f : A -> outcome (search B)) (post : A -> Z -> Prop) (post' : B -> Z -> Prop) :
  rseeks hi r post -> (forall a j, 0 <= j <= hi -> post a j -> rseeks j (f a) post') ->
  rseeks hi (and_then r f) post'.
Proof using.
  intros [(k & -> & Hk & Hp & Hf)|(a & j & -> & Hj & Hp & Hf)] Hn; unfold and_then; rewrite bind_done.
  - left. by exists k.
  - apply (rseeks_step hi j); [lia|done|]. by apply Hn.
Qed.
Lemma rseeks_found {A} N r (post : A -> Z -> Prop) : rseeks N r post -> (forall a j, post a j -> j = 0) ->
  found_at r = Done (Z.add base <$> last_where p N).
Proof using.
  intros [(k & -> & Hk & Hp & Hf)|(a & j & -> & Hj & Hp & Hf)] Hn; unfold found_at; rewrite bind_done.
  - by rewrite (last_where_some _ _ k).
  - rewrite (Hn a j Hp) in Hf. by rewrite last_where_none.
Qed.
End Rseeks.

(** ** Comparing *)

Section Compare.
Context (m : memory) (Hm : is_bytes m) (l0 r0 N : Z).
Context (Hl : 0 <= l0) (HlN : l0 + N <= len m) (Hr : 0 <= r0) (HrN : r0 + N <= len m).

Definition differ (i : Z) : bool := negb (byte_at m (l0 + i) =? byte_at m (r0 + i)).

Lemma words_equal i : 0 <= i -> i + 8 <= N ->
  (le_word (bytes_at m (l0 + i) 8) =? le_word (bytes_at m (r0 + i) 8)) = true ->
  forall j, i <= j < i + 8 -> differ j = false.
Proof using Hm Hl HlN Hr HrN.
  intros Hi Hi8 E%Z.eqb_eq j Hj. apply le_word_inj in E; [|by apply bytes_at_bytes..|by rewrite !bytes_at_length by lia].
  unfold differ. apply negb_false_iff, Z.eqb_eq.
  replace (l0 + j) with (l0 + i + (j - i)) by lia. replace (r0 + j) with (r0 + i + (j - i)) by lia.
  rewrite <-!(bytes_at_byte m _ 8) by lia. by rewrite E.
Qed.
Lemma words_unequal i : 0 <= i -> i + 8 <= N ->
  (le_word (bytes_at m (l0 + i) 8) =? le_word (bytes_at m (r0 + i) 8)) = false ->
  exists j, i <= j < i + 8 /\ differ j = true.
Proof using Hm Hl HlN Hr HrN.
  intros Hi Hi8 E%Z.eqb_neq.
  destruct (decide (Exists (fun j => differ (i + j) = true) (seqZ 0 8))) as [Hx|Hx].
  { apply Exists_exists in Hx as (j & Hj%elem_of_seqZ & Hd). exists (i + j). split; [lia|done]. }
  exfalso. apply E. f_equal. rewrite <-Forall_Exists_neg in Hx. rewrite Forall_forall in Hx.
  apply byte_at_ext; [by rewrite !bytes_at_length by lia|]. rewrite bytes_at_length by lia. intros j Hj.
  rewrite !bytes_at_byte by lia. specialize (Hx j ltac:(apply elem_of_seqZ; lia)). cbv beta in Hx.
  unfold differ in Hx. destruct (Z.eqb_spec (byte_at m (l0 + (i + j))) (byte_at m (r0 + (i + j)))) as [E'|]; [|done].
  by rewrite <-!Z.add_assoc.
Qed.
Lemma words_differ_spec i : 0 <= i -> i + 8 <= N -> (l0 + i) mod 8 = 0 -> (r0 + i) mod 8 = 0 ->
  words_differ m (l0 + i) (r0 + i)
  = Done (negb (le_word (bytes_at m (l0 + i) 8) =? le_word (bytes_at m (r0 + i) 8))).
Proof using Hl HlN Hr HrN.
  intros. unfold words_differ. by rewrite !word_load_aligned, !load_word_ok, !bind_done by (done || lia).
Qed.
Lemma load_differ i : 0 <= i < N ->
  load m (l0 + i) = Done (byte_at m (l0 + i)) /\ load m (r0 + i) = Done (byte_at m (r0 + i)).
Proof using Hl HlN Hr HrN. intros. split; apply byte_at_load; lia. Qed.

(** Up to a difference that is known to come. *)
Lemma compare_word_spec j fuel : forall i, 0 <= i <= j -> j < N -> differ j = true -> j - i < Z.of_nat fuel ->
  exists k, compare_word_loop fuel m (l0 + i) (r0 + i) = Done (l0 + k) /\ i <= k <= j /\ differ k = true /\
    forall x, i <= x < k -> differ x = false.
Proof using Hl HlN Hr HrN.
  induction fuel as [|fuel IH]; intros i Hi Hj Hd Hf; [lia|]. cbn [compare_word_loop].
  destruct (load_differ i) as [-> ->]; [lia|]. rewrite !bind_done. destruct (byte_at m (l0 + i) =? byte_at m (r0 + i)) eqn:E.
  - assert (differ i = false) as Hdi by (unfold differ; by rewrite E).
    destruct (decide (i = j)) as [->|Hne]; [congruence|]. rewrite <-!Z.add_assoc.
    destruct (IH (i + 1)) as (k & -> & Hk & Hdk & Hbe); [lia|lia|done|lia|]. exists k. split_and!; try done; try lia.
    intros x Hx. destruct (decide (x = i)) as [->|]; [done|apply Hbe; lia].
  - exists i. split_and!; try done; try lia. unfold differ. by rewrite E.
Qed.
Lemma rcompare_word_spec j fuel : forall i, 0 <= j < i -> i <= N -> differ j = true -> i - j <= Z.of_nat fuel ->
  forall b, 0 <= b <= j ->
  exists k, rcompare_word_loop fuel m (l0 + b) (r0 + b) (i - b) = Done (l0 + k) /\ j <= k < i /\ differ k = true /\
    forall x, k < x < i -> differ x = false.
Proof using Hl HlN Hr HrN.
  induction fuel as [|fuel IH]; intros i Hi Hj Hd Hf b Hb; [lia|]. cbn [rcompare_word_loop]. cbv zeta.
  replace (l0 + b + (i - b - 1)) with (l0 + (i - 1)) by lia. replace (r0 + b + (i - b - 1)) with (r0 + (i - 1)) by lia.
  destruct (load_differ (i - 1)) as [-> ->]; [lia|]. rewrite !bind_done.
  destruct (byte_at m (l0 + (i - 1)) =? byte_at m (r0 + (i - 1))) eqn:E.
  - assert (differ (i - 1) = false) as Hdi by (unfold differ; by rewrite E).
    destruct (decide (i - 1 = j)) as [<-|Hne]; [congruence|]. replace (i - b - 1) with (i - 1 - b) by lia.
    destruct (IH (i - 1)) with (b := b) as (k & -> & Hk & Hdk & Hbe); [lia|lia|done|lia|lia|]. exists k. split_and!; try done; try lia.
    intros x Hx. destruct (decide (x = i - 1)) as [->|]; [done|apply Hbe; lia].
  - exists (i - 1). split_and!; try done; try lia. unfold differ. by rewrite E.
Qed.

Definition stands_at (a : Z * Z * Z) (j : Z) : Prop := a = (l0 + j, r0 + j, N - j).
Lemma compare_bytes_loop_spec go fuel : forall i, 0 <= i <= N -> N - i < Z.of_nat fuel ->
  seeks differ l0 N i (compare_bytes_loop fuel go m (l0 + i) (r0 + i) (N - i))
    (fun a j => stands_at a j /\ (j = N \/ go (l0 + j) (r0 + j) = false)).
Proof using Hl HlN Hr HrN.
  induction fuel as [|fuel IH]; intros i Hi Hf; [lia|]. cbn [compare_bytes_loop]. rewrite Z.gtb_ltb.
  destruct (Z.ltb_spec 0 (N - i)); cbn [andb].
  2:{ apply seeks_on; [lia|]. split; [done|]. left. lia. }
  destruct (go (l0 + i) (r0 + i)) eqn:Eg; [|apply seeks_on; [lia|split; [done|by right]]].
  destruct (load_differ i) as [-> ->]; [lia|]. rewrite !bind_done. destruct (negb _) eqn:E.
  - apply seeks_hit; [lia|done|intros; lia].
  - apply (seeks_step _ _ _ _ (i + 1)); [lia|intros x Hx; by replace x with i by lia|].
    rewrite <-!Z.add_assoc. replace (N - i - 1) with (N - (i + 1)) by lia. apply IH; lia.
Qed.
Definition aligned_at (j : Z) : Prop := (l0 + j) mod 8 = 0 /\ (r0 + j) mod 8 = 0.
Lemma aligned_at_8 j : aligned_at j -> aligned_at (j + 8).
Proof using. intros [H1 H2]. clear - H1 H2. split; zdm. Qed.
(** One word: the first difference in it, or on. *)
Lemma compare_word_seeks {A} i (post : A -> Z -> Prop) (rest : outcome (search A)) :
  0 <= i -> i + 8 <= N ->
  seeks differ l0 N (i + 8) rest post ->
  seeks differ l0 N i
    (if negb (le_word (bytes_at m (l0 + i) 8) =? le_word (bytes_at m (r0 + i) 8))
     then p ← lh_memory_std_compare_word_byte m (l0 + i) (r0 + i); mret (hit p) else rest) post.
Proof using Hm Hl HlN Hr HrN.
  intros Hi Hi8 Hrest. destruct (le_word _ =? le_word _) eqn:E; cbn [negb].
  - apply (seeks_step _ _ _ _ (i + 8)); [lia|by apply words_equal|done].
  - destruct (words_unequal i Hi Hi8 E) as (j & Hj & Hd). unfold lh_memory_std_compare_word_byte.
    destruct (compare_word_spec j 8 i) as (k & -> & Hk & Hdk & Hbe); [lia|lia|done|lia|]. rewrite bind_done.
    apply seeks_hit; [lia|done|done].
Qed.
Lemma compare_pairs_loop_spec fuel : forall i, 0 <= i <= N -> (i = N \/ aligned_at i) -> N - i < Z.of_nat fuel ->
  seeks differ l0 N i (compare_pairs_loop fuel m (l0 + i) (r0 + i) (N - i))
    (fun a j => stands_at a j /\ (j = N \/ aligned_at j)).
Proof using Hm Hl HlN Hr HrN.
  induction fuel as [|fuel IH]; intros i Hi Ha Hf; [lia|]. cbn [compare_pairs_loop]. rewrite Z.geb_leb.
  destruct (Z.leb_spec (8 * 2) (N - i)); [|apply seeks_on; [lia|by split]].
  destruct Ha as [->|Ha]; [lia|]. pose proof (aligned_at_8 i Ha) as Ha8. pose proof (aligned_at_8 _ Ha8) as Ha16.
  rewrite <-!(Z.add_assoc _ i 8), <-!(Z.add_assoc _ i (8 * 2)).
  destruct Ha as [A1 A2], Ha8 as [B1 B2].
  rewrite !word_load_aligned, !load_word_ok, !bind_done by (done || lia).
  apply compare_word_seeks; [lia|lia|]. apply compare_word_seeks; [lia|lia|].
  replace (i + 8 + 8) with (i + 8 * 2) in * by lia. replace (N - i - 8 * 2) with (N - (i + 8 * 2)) by lia.
  apply IH; [lia|by right|lia].
Qed.
Lemma compare_bytes_spec' : 0 <= N ->
  lh_memory_std_compare_bytes m l0 r0 N = Done (Z.add l0 <$> first_where differ N).
Proof using Hm Hl HlN Hr HrN.
  intros HN. unfold lh_memory_std_compare_bytes. cbv zeta.
  eapply seeks_found with (post := fun a j => stands_at a j /\ (j = N \/ true = false)); [|by intros a j [_ [?|?]]].
  eapply seeks_then.
  { pose proof (compare_bytes_loop_spec unaligned (S (Z.to_nat N)) 0) as H.
    rewrite !Z.add_0_r, Z.sub_0_r in H. apply H; lia. }
  intros a j Hj [-> Ha]. cbv beta iota. eapply seeks_then.
  { apply compare_pairs_loop_spec; [lia|destruct Ha as [?|Ha]; [by left|right; by apply unaligned_false]|lia]. }
  intros a j' Hj' [-> Ha']. cbv beta iota. eapply (seeks_then _ _ _ _ _ _ stands_at).
  { rewrite Z.geb_leb. destruct (Z.leb_spec 8 (N - j')); [|by apply seeks_on; [lia|]].
    destruct Ha' as [->|Ha']; [lia|]. rewrite words_differ_spec by (lia || apply Ha'). rewrite bind_done.
    apply compare_word_seeks; [lia|lia|]. apply seeks_on; [lia|]. unfold stands_at. by rewrite !Z.add_assoc, Z.sub_add_distr. }
  intros a j2 Hj2 ->. cbv beta iota. apply compare_bytes_loop_spec; lia.
Qed.

Lemma rcompare_bytes_loop_spec go fuel : forall i, 0 <= i <= N -> i < Z.of_nat fuel ->
  rseeks differ l0 i (rcompare_bytes_loop fuel go m l0 r0 i)
    (fun a j => a = j /\ (j = 0 \/ go j = false)).
Proof using Hl HlN Hr HrN.
  induction fuel as [|fuel IH]; intros i Hi Hf; [lia|]. cbn [rcompare_bytes_loop]. rewrite Z.gtb_ltb.
  destruct (Z.ltb_spec 0 i); cbn [andb].
  2:{ apply rseeks_on; [lia|]. split; [done|]. left. lia. }
  destruct (go i) eqn:Eg; [|apply rseeks_on; [lia|split; [done|by right]]].
  cbv zeta. destruct (load_differ (i - 1)) as [-> ->]; [lia|]. rewrite !bind_done. destruct (negb _) eqn:E.
  - apply rseeks_hit; [lia|done|intros; lia].
  - apply (rseeks_step _ _ _ (i - 1)); [lia|intros x Hx; by replace x with (i - 1) by lia|]. apply IH; lia.
Qed.
Lemma rcompare_word_seeks {A} i (post : A -> Z -> Prop) (rest : outcome (search A)) :
  0 <= i -> i + 8 <= N -> aligned_at i ->
  rseeks differ l0 i rest post ->
  rseeks differ l0 (i + 8)
    (d ← words_differ m (l0 + i) (r0 + i);
     if d : bool then p ← lh_memory_std_rcompare_word_byte m (l0 + i) (r0 + i) 8; mret (hit p) else rest) post.
Proof using Hm Hl HlN Hr HrN.
  intros Hi Hi8 [A1 A2] Hrest. rewrite words_differ_spec, bind_done by done.
  destruct (le_word _ =? le_word _) eqn:E; cbn [negb].
  - apply (rseeks_step _ _ _ i); [lia|by apply words_equal|done].
  - destruct (words_unequal i Hi Hi8 E) as (j & Hj & Hd). unfold lh_memory_std_rcompare_word_byte.
    destruct (rcompare_word_spec j 8 (i + 8)) with (b := i) as (k & Ek & Hk & Hdk & Hbe); [lia|lia|done|lia|lia|].
    replace (i + 8 - i) with 8 in Ek by lia. change (Z.to_nat 8) with 8%nat. rewrite Ek, bind_done.
    apply rseeks_hit; [lia|done|done].
Qed.
Lemma rcompare_pairs_loop_spec fuel : forall i, 0 <= i <= N -> (i = 0 \/ aligned_at i) -> i < Z.of_nat fuel ->
  rseeks differ l0 i (rcompare_pairs_loop fuel m l0 r0 i) (fun a j => a = j /\ (j = 0 \/ aligned_at j)).
Proof using Hm Hl HlN Hr HrN.
  induction fuel as [|fuel IH]; intros i Hi Ha Hf; [lia|]. cbn [rcompare_pairs_loop]. rewrite Z.geb_leb.
  destruct (Z.leb_spec (8 * 2) i); [|apply rseeks_on; [lia|by split]].
  destruct Ha as [->|Ha]; [lia|]. cbv zeta.
  assert (aligned_at (i - 8 * 2)) as Ha16 by (destruct Ha; split; zdm).
  assert (aligned_at (i - 8 * 2 + 8)) as Ha8 by by apply aligned_at_8.
  rewrite <-!(Z.add_assoc _ (i - 8 * 2) 8).
  replace (rseeks differ l0 i) with (@rseeks differ l0 Z (i - 8 * 2 + 8 + 8)) by (f_equal; lia).
  apply rcompare_word_seeks; [lia|lia|done|]. apply rcompare_word_seeks; [lia|lia|done|].
  apply IH; [lia|by right|lia].
Qed.
Lemma rcompare_bytes_spec' : 0 <= N ->
  lh_memory_std_rcompare_bytes m l0 r0 N = Done (Z.add l0 <$> last_where differ N).
Proof using Hm Hl HlN Hr HrN.
  intros HN. unfold lh_memory_std_rcompare_bytes. destruct (Z.eqb_spec N 0) as [E|_].
  { rewrite last_where_none; [done|]. intros. lia. }
  cbv zeta. eapply rseeks_found with (post := fun a j => a = j /\ (j = 0 \/ true = false)); [|by intros a j [_ [?|?]]].
  eapply rseeks_then; [apply rcompare_bytes_loop_spec; lia|].
  intros a j Hj [-> Ha]. cbv beta. eapply rseeks_then.
  { apply rcompare_pairs_loop_spec; [lia|destruct Ha as [?|Ha]; [by left|right; by apply unaligned_false]|lia]. }
  intros a j' Hj' [-> Ha']. cbv beta. eapply (rseeks_then _ _ _ _ _ (fun a j => a = j)).
  { rewrite Z.geb_leb. destruct (Z.leb_spec 8 j'); [|by apply rseeks_on; [lia|]].
    destruct Ha' as [->|Ha']; [lia|]. cbv zeta.
    replace (rseeks differ l0 j') with (@rseeks differ l0 Z (j' - 8 + 8)) by (f_equal; lia).
    apply rcompare_word_seeks; [lia|lia|destruct Ha'; split; zdm|]. by apply rseeks_on; [lia|]. }
  intros a j2 Hj2 ->. cbv beta. apply rcompare_bytes_loop_spec; lia.
Qed.
End Compare.

(** Comparing memory finds the first difference, and comparing from the end the last, for
    every two ranges, aligned alike or not: the answer is its address in the first range, or
    none when the ranges are equal; nothing outside them is read. *)
Theorem compare_finds_difference m l r n :
  is_bytes m -> 0 < l -> 0 < r -> 0 <= n -> l + n <= len m -> r + n <= len m ->
  let differ i := negb (byte_at m (l + i) =? byte_at m (r + i)) in
  lh_memory_std_compare m l r n = Done (Z.add l <$> first_where differ n) /\
  lh_memory_std_rcompare m l r n = Done (Z.add l <$> last_where differ n).
Proof.
  intros Hm Hl Hr Hn Hln Hrn. cbv zeta. unfold lh_memory_std_compare, lh_memory_std_rcompare.
  rewrite !assert_ref_ok, !bind_done by done.
  split; [apply compare_bytes_spec'|apply rcompare_bytes_spec']; (done || lia).
Qed.
Lemma compare_finds_difference_witness :
  let m := 0 :: seqZ 1 40 ++ [9; 2; 3; 4; 5; 6; 7; 8; 9; 10; 99; 12; 13; 14] in
  lh_memory_std_compare m 2 42 13 = Done (Some 11) /\ lh_memory_std_rcompare m 1 41 14 = Done (Some 11).
Proof.
  intros m. split.
  - rewrite (proj1 (compare_finds_difference m 2 42 13 ltac:(repeat constructor; zb) ltac:(lia) ltac:(lia) ltac:(lia)
      ltac:(vm_compute; done) ltac:(vm_compute; done))). vm_compute. done.
  - rewrite (proj2 (compare_finds_difference m 1 41 14 ltac:(repeat constructor; zb) ltac:(lia) ltac:(lia) ltac:(lia)
      ltac:(vm_compute; done) ltac:(vm_compute; done))). vm_compute. done.
Defined.

(** ** Setting, filling and the exclusive or *)
Lemma broadcast_lanes c : is_u8 c -> lh_bit_swar_broadcast c = le_word (replicate 8 c).
Proof.
  intros Hc. unfold lh_bit_swar_broadcast. change LH_BIT_SWAR_ONES with 72340172838076673.
  rewrite u64_id by zb. cbn [replicate le_word]. lia.
Qed.
Section Set_.
Context (m0 : memory) (Hm0 : is_bytes m0) (d v N : Z) (Hv : is_u8 v).
Context (Hd : 0 <= d) (HdN : d + N <= len m0).
Notation f := (fun _ : Z => v).

Lemma store_broadcast m a b : painted m0 f d a m -> d <= b <= a -> b + 8 <= d + N ->
  exists m', lh_memory_store_usize m b (lh_bit_swar_broadcast v) = Done m' /\
    painted m0 f d (Z.max a (b + 8)) m'.
Proof using Hv Hd HdN.
  intros Hp Hb HbN. rewrite broadcast_lanes by done.
  destruct (store_paint m0 f 8 d a m b (replicate 8 v) Hp) as (m' & S & P); [by apply Forall_replicate|done|lia|lia|lia|lia| |].
  { intros i Hi. by apply byte_at_replicate. }
  exists m'. split; [exact S|]. replace (Z.min d b) with d in P by lia. done.
Qed.
Lemma set_words_loop_spec fuel : forall m a n, painted m0 f d a m -> d <= a -> a + n = d + N -> 8 <= n ->
  n < Z.of_nat fuel ->
  exists m' a' n', set_words_loop fuel m a (lh_bit_swar_broadcast v) n = Done (m', a', n') /\
    painted m0 f d a' m' /\ a + 8 <= a' /\ a' + n' = d + N /\ 0 <= n' < 8.
Proof using Hv Hd HdN.
  induction fuel as [|fuel IH]; intros m a n Hp Ha He Hn Hf; [lia|]. cbn [set_words_loop].
  destruct (store_broadcast m a a Hp) as (m' & -> & P); [lia..|]. rewrite bind_done.
  cbv zeta. replace (Z.max a (a + 8)) with (a + 8) in P by lia. rewrite Z.geb_leb.
  destruct (Z.leb_spec 8 (n - 8)); [|exists m', (a + 8), (n - 8); split_and!; done || lia].
  destruct (IH m' (a + 8) (n - 8)) as (m2 & a2 & n2 & -> & ? & ? & ? & ?); [done|lia..|].
  exists m2, a2, n2. split_and!; done || lia.
Qed.
Lemma set_bytes_loop_spec fuel : forall m a n, painted m0 f d a m -> d <= a -> a + n = d + N -> 0 <= n ->
  n < Z.of_nat fuel ->
  exists m', set_bytes_loop fuel m a v n = Done m' /\ painted m0 f d (d + N) m'.
Proof using Hv Hd HdN.
  induction fuel as [|fuel IH]; intros m a n Hp Ha He Hn Hf; [lia|]. cbn [set_bytes_loop]. rewrite Z.gtb_ltb.
  destruct (Z.ltb_spec 0 n); [|exists m; split; [done|by replace (d + N) with a by lia]].
  destruct (put_paint m0 f d a m a v Hp Hv) as (m' & -> & P); [lia|lia|lia|done|]. rewrite bind_done.
  replace (Z.min d a) with d in P by lia. replace (Z.max a (a + 1)) with (a + 1) in P by lia. apply IH; (done || lia).
Qed.
Lemma set_bytes_paint : 0 <= N ->
  exists m', lh_memory_std_set_bytes m0 d v N = Done m' /\ painted m0 f d (d + N) m'.
Proof using Hm0 Hv Hd HdN.
  intros HN. unfold lh_memory_std_set_bytes. pose proof (painted_none m0 f d Hm0) as Hp. rewrite Z.geb_leb. cbv zeta.
  destruct (Z.leb_spec 8 N); [|by apply (set_bytes_loop_spec (S (Z.to_nat N))); try lia].
  destruct (set_words_loop_spec (S (Z.to_nat N)) m0 d N Hp) as (m' & a & n & -> & P & Ha & He & Hn); [lia..|].
  rewrite bind_done. destruct (Z.eqb_spec n 0) as [->|Hne]; cbn [negb].
  { exists m'. split; [done|]. by replace (d + N) with a by lia. }
  destruct (store_broadcast m' a (a + n - 8) P) as (m2 & -> & P2); [lia..|].
  exists m2. split; [done|]. by replace (Z.max a (a + n - 8 + 8)) with (d + N) in P2 by lia.
Qed.
Lemma fill_words_paint : 0 <= N ->
  exists m', lh_memory_std_fill_words m0 d (le_word (replicate 8 v)) N = Done (m', d + N) /\ painted m0 f d (d + N) m'.
Proof using Hm0 Hv Hd HdN.
  intros HN. unfold lh_memory_std_fill_words. apply up_kernel_spec with (ok := fun a => a mod 8 = 0); try done.
  - intros m a Hp Ha. replace (u8 (le_word (replicate 8 v))) with v by (cbn [replicate le_word]; zdm).
    destruct (put_paint m0 f d a m a v Hp Hv) as (m' & -> & P); [lia|lia|lia|done|]. exists m'. split; [done|].
    replace (Z.min d a) with d in P by lia. by replace (Z.max a (a + 1)) with (a + 1) in P by lia.
  - intros m a Hp Ha Hn Hal. rewrite word_store_aligned by done. rewrite <-broadcast_lanes by done.
    destruct (store_broadcast m a a Hp) as (m' & S & P); [lia..|]. exists m'. split; [exact S|].
    by replace (Z.max a (a + 8)) with (a + 8) in P by lia.
  - intros a Ha. zdm.
  - intros a Hg. by apply negb_false_iff, Z.eqb_eq in Hg.
Qed.
End Set_.
Section Xor.
Context (m0 : memory) (Hm0 : is_bytes m0) (d l r N : Z).
Context (Hd : 0 <= d) (HdN : d + N <= len m0) (Hl : 0 <= l) (HlN : l + N <= len m0) (Hr : 0 <= r) (HrN : r + N <= len m0).
Context (Hul : unread d l N) (Hur : unread d r N).
Notation f := (fun i => Z.lxor (byte_at m0 (l + (i - d))) (byte_at m0 (r + (i - d)))).

Lemma xor_bytes_paint : 0 <= N ->
  exists m', lh_memory_std_xor_bytes m0 d l r N = Done m' /\ painted m0 f d (d + N) m'.
Proof using Hm0 Hd HdN Hl HlN Hr HrN Hul Hur.
  intros HN. unfold lh_memory_std_xor_bytes. unfold unread in *.
  match goal with |- context [up_kernel ?eb ?ew ?gg m0 d N] =>
    destruct (up_kernel_spec m0 f d N (fun a => a mod 8 = 0 /\ (l + (a - d)) mod 8 = 0 /\ (r + (a - d)) mod 8 = 0)
      eb ew) with (go := gg) as (m' & -> & Hp)
  end; [| | | done | done | |rewrite bind_done; by exists m'].
  - intros m a Hp Ha. rewrite (byte_source m0 f d a m (l + (a - d))), bind_done by (done || lia).
    rewrite (byte_source m0 f d a m (r + (a - d))), bind_done by (done || lia).
    destruct (put_paint m0 f d a m a (f a) Hp) as (m2 & -> & P); [by apply lxor_u8; apply byte_at_u8|lia|lia|lia|done|].
    exists m2. split; [done|]. replace (Z.min d a) with d in P by lia. by replace (Z.max a (a + 1)) with (a + 1) in P by lia.
  - intros m a Hp Ha Hn (A1 & A2 & A3). rewrite !word_load_aligned by done.
    destruct (load_source m0 f 8 d a m (l + (a - d)) Hp) as (b1 & -> & Hl1 & Hb1 & Hf1); [lia|lia|lia|]. rewrite bind_done.
    destruct (load_source m0 f 8 d a m (r + (a - d)) Hp) as (b2 & -> & Hl2 & Hb2 & Hf2); [lia|lia|lia|]. rewrite bind_done.
    rewrite word_store_aligned, le_word_lxor by (done || congruence).
    destruct (store_paint m0 f 8 d a m a (zip_with Z.lxor b1 b2) Hp) as (m2 & S & P);
      [by apply op_bytes; [apply lxor_u8|..]|rewrite length_zip_with; lia|lia|lia|lia|lia| |].
    { intros i Hi. rewrite byte_at_zip, Hf1, Hf2 by lia. f_equal; f_equal; lia. }
    exists m2. split; [exact S|]. replace (Z.min d a) with d in P by lia.
    by replace (Z.max a (a + Z.of_nat 8)) with (a + 8) in P by lia.
  - intros a (A1 & A2 & A3). split_and!; zdm.
  - intros a Hg. apply negb_false_iff, Z.eqb_eq in Hg. change (8 - 1) with (Z.ones 3) in Hg.
    rewrite !Z.land_lor_distr_l, !Z.lor_eq_0_iff, !Z.land_ones in Hg by lia. tauto.
Qed.
End Xor.

(** ** Reversing *)

Lemma land_255 b : is_u8 b -> Z.land b 255 = b.
Proof. intros Hb. change 255 with (Z.ones 8). rewrite Z.land_ones by lia. by apply Z.mod_small. Qed.
Ltac byte_list := repeat (apply Forall_cons_2; [done || zb|]); apply Forall_nil_2.
Lemma bswap_u16_rev a b : is_u8 a -> is_u8 b -> lh_bit_bswap_u16 (le_word [a; b]) = le_word [b; a].
Proof.
  intros Ha Hb. unfold lh_bit_bswap_u16.
  assert (Z.shiftl (le_word [a; b]) 8 = le_word [0; a; b]) as -> by (rewrite Z.shiftl_mul_pow2 by lia; cbn; lia).
  assert (Z.shiftr (le_word [a; b]) 8 = le_word [b; 0; 0]) as -> by (rewrite Z.shiftr_div_pow2 by lia; cbn; zdm).
  rewrite le_word_lor by (done || byte_list). cbn [zip_with]. rewrite !Z.lor_0_r, Z.lor_0_l. cbn [le_word]. zdm.
Qed.
Lemma bswap_u32_rev a b c e : is_u8 a -> is_u8 b -> is_u8 c -> is_u8 e ->
  lh_bit_bswap_u32 (le_word [a; b; c; e]) = le_word [e; c; b; a].
Proof.
  intros Ha Hb Hc He. unfold lh_bit_bswap_u32.
  assert (u32 (Z.shiftl (le_word [a; b; c; e]) 24) = le_word [0; 0; 0; a]) as ->
    by (rewrite Z.shiftl_mul_pow2 by lia; cbn [le_word]; change (2 ^ 24) with 16777216; zdm).
  assert (u32 (Z.shiftl (le_word [a; b; c; e]) 8) = le_word [0; a; b; c]) as ->
    by (rewrite Z.shiftl_mul_pow2 by lia; cbn [le_word]; change (2 ^ 8) with 256; zdm).
  assert (Z.shiftr (le_word [a; b; c; e]) 8 = le_word [b; c; e; 0]) as ->
    by (rewrite Z.shiftr_div_pow2 by lia; cbn [le_word]; change (2 ^ 8) with 256; zdm).
  assert (Z.shiftr (le_word [a; b; c; e]) 24 = le_word [e; 0; 0; 0]) as ->
    by (rewrite Z.shiftr_div_pow2 by lia; cbn [le_word]; change (2 ^ 24) with 16777216; zdm).
  change 0x00FF0000 with (le_word [0; 0; 255; 0]). change 0x0000FF00 with (le_word [0; 255; 0; 0]).
  rewrite !le_word_land by (done || byte_list). cbn [zip_with]. rewrite !Z.land_0_r, ?Z.land_0_l, !land_255 by done.
  rewrite !le_word_lor by (done || byte_list). cbn [zip_with].
  rewrite le_word_lor by (done || (rewrite ?Z.lor_0_r, ?Z.lor_0_l; byte_list)). cbn [zip_with].
  by rewrite !Z.lor_0_r, !Z.lor_0_l, ?Z.lor_0_r.
Qed.
Lemma le_word_4_4 a b c e a' b' c' e' : is_bytes [a; b; c; e; a'; b'; c'; e'] ->
  u32 (le_word [a; b; c; e; a'; b'; c'; e']) = le_word [a; b; c; e] /\
  u32 (Z.shiftr (le_word [a; b; c; e; a'; b'; c'; e']) 32) = le_word [a'; b'; c'; e'] /\
  Z.lor (u64 (Z.shiftl (le_word [a'; b'; c'; e']) 32)) (le_word [a; b; c; e]) = le_word [a; b; c; e; a'; b'; c'; e'].
Proof.
  intros H. repeat (apply Forall_cons in H; destruct H as [? H]). cbn [le_word] in *.
  split_and!; [zdm|rewrite Z.shiftr_div_pow2 by lia; change (2 ^ 32) with 4294967296; zdm|].
  change (a + 256 * (b + 256 * (c + 256 * (e + 256 * 0)))) with (le_word [a; b; c; e]).
  assert (u64 (Z.shiftl (a' + 256 * (b' + 256 * (c' + 256 * (e' + 256 * 0)))) 32) = le_word [0; 0; 0; 0; a'; b'; c'; e']) as ->.
  { rewrite Z.shiftl_mul_pow2 by lia. change (2 ^ 32) with 4294967296. cbn [le_word]. zdm. }
  replace (le_word [a; b; c; e]) with (le_word [a; b; c; e; 0; 0; 0; 0]) by (cbn [le_word]; lia).
  rewrite le_word_lor by (done || byte_list). cbn [zip_with]. by rewrite !Z.lor_0_r, !Z.lor_0_l.
Qed.
Lemma bswap_u64_rev a b c e a' b' c' e' : is_bytes [a; b; c; e; a'; b'; c'; e'] ->
  lh_bit_bswap_u64 (le_word [a; b; c; e; a'; b'; c'; e']) = le_word [e'; c'; b'; a'; e; c; b; a].
Proof.
  intros H. unfold lh_bit_bswap_u64. destruct (le_word_4_4 _ _ _ _ _ _ _ _ H) as (-> & -> & _).
  repeat (apply Forall_cons in H; destruct H as [? H]). rewrite !bswap_u32_rev by done.
  apply le_word_4_4. byte_list.
Qed.
(** The three byte swaps reverse the bytes of a word. *)
Lemma bswap_rev k bs : is_bytes bs -> length bs = k ->
  (k = 2%nat -> lh_bit_bswap_u16 (le_word bs) = le_word (rev bs)) /\
  (k = 4%nat -> lh_bit_bswap_u32 (le_word bs) = le_word (rev bs)) /\
  (k = 8%nat -> lh_bit_bswap_u64 (le_word bs) = le_word (rev bs)).
Proof.
  intros Hb Hl. split_and!; intros ->.
  - destruct bs as [|a [|b [|? ?]]]; try done. repeat (apply Forall_cons in Hb; destruct Hb as [? Hb]).
    by apply bswap_u16_rev.
  - destruct bs as [|a [|b [|c [|e [|? ?]]]]]; try done. repeat (apply Forall_cons in Hb; destruct Hb as [? Hb]).
    by apply bswap_u32_rev.
  - destruct bs as [|a [|b [|c [|e [|a' [|b' [|c' [|e' [|? ?]]]]]]]]]; try done. by apply bswap_u64_rev.
Qed.

Section Rev.
Context (m0 : memory) (Hm0 : is_bytes m0) (d s N : Z).
Context (Hd : 0 <= d) (HdN : d + N <= len m0) (Hs : 0 <= s) (HsN : s + N <= len m0).
Context (Hdis : s + N <= d \/ d + N <= s).
Notation f := (fun i => byte_at m0 (s + (d + N - 1 - i))).

(** A word of the source, reversed, is what its place gets. *)
Lemma rev_word k lo hi m p a : painted m0 f lo hi m -> d <= lo -> hi <= d + N -> 1 <= Z.of_nat k ->
  d <= a -> a + Z.of_nat k <= d + N -> p = s + (d + N) - a - Z.of_nat k ->
  exists bs, load_word k m p = Done (le_word bs) /\ length bs = k /\ is_bytes bs /\
    forall i, 0 <= i < Z.of_nat k -> byte_at (rev bs) i = f (a + i).
Proof using Hd HdN Hs HsN Hdis.
  intros Hp Hlo Hhi Hk Ha HaN ->.
  destruct (load_source m0 f k lo hi m (s + (d + N) - a - Z.of_nat k) Hp) as (bs & L & Hl & Hb & Hf); [lia|lia|lia|].
  exists bs. split_and!; try done. intros i Hi. rewrite byte_at_rev, Hf by lia. f_equal. lia.
Qed.
Lemma rev_bytes bs : is_bytes bs -> is_bytes (rev bs).
Proof using. intros Hb. apply Forall_rev, Hb. Qed.
(** The two reversed words that cover what is left. *)
Lemma rev_ends k swap m n : (forall bs, is_bytes bs -> length bs = k -> swap (le_word bs) = le_word (rev bs)) ->
  painted m0 f (d + n) (d + N) m -> Z.of_nat k <= n <= 2 * Z.of_nat k -> n <= N -> 1 <= Z.of_nat k ->
  exists v1 v2 m1 m2, load_word k m (s + (N - n)) = Done v1 /\
    load_word k m (s + (N - n) + n - Z.of_nat k) = Done v2 /\
    store_word k m (d + n - Z.of_nat k) (swap v1) = Done m1 /\ store_word k m1 d (swap v2) = Done m2 /\
    painted m0 f d (d + N) m2.
Proof using Hd HdN Hs HsN Hdis.
  intros Hsw Hp Hn HnN Hk.
  destruct (rev_word k _ _ m (s + (N - n)) (d + n - Z.of_nat k) Hp) as (b1 & L1 & Hl1 & Hb1 & Hf1); [lia..|].
  destruct (rev_word k _ _ m (s + (N - n) + n - Z.of_nat k) d Hp) as (b2 & L2 & Hl2 & Hb2 & Hf2); [lia..|].
  destruct (store_paint m0 f k _ _ m (d + n - Z.of_nat k) (rev b1) Hp (rev_bytes _ Hb1)) as (m1 & S1 & P1);
    [by rewrite length_rev|lia|lia|lia|lia|exact Hf1|].
  destruct (store_paint m0 f k _ _ m1 d (rev b2) P1 (rev_bytes _ Hb2)) as (m2 & S2 & P2);
    [by rewrite length_rev|lia|lia|lia|lia|exact Hf2|].
  exists (le_word b1), (le_word b2), m1, m2. rewrite !Hsw by done. split_and!; try done.
  replace (Z.min (Z.min (d + n) (d + n - Z.of_nat k)) d) with d in P2 by lia.
  by replace (Z.max (Z.max (d + N) (d + n - Z.of_nat k + Z.of_nat k)) (d + Z.of_nat k)) with (d + N) in P2 by lia.
Qed.
Lemma copy_rev_tiny_spec m n : painted m0 f (d + n) (d + N) m -> 0 <= n < 16 -> n <= N ->
  exists m', lh_memory_std_copy_rev_tiny m d (s + (N - n)) n = Done m' /\ painted m0 f d (d + N) m'.
Proof using Hm0 Hd HdN Hs HsN Hdis.
  intros Hp Hn HnN. unfold lh_memory_std_copy_rev_tiny. rewrite !Z.geb_leb.
  destruct (Z.leb_spec 8 n); [|destruct (Z.leb_spec 4 n); [|destruct (Z.leb_spec 2 n)]].
  1: destruct (rev_ends 8 lh_bit_bswap_u64 m n) as (v1 & v2 & m1 & m2 & L1 & L2 & S1 & S2 & P);
    [intros; by eapply bswap_rev|done|lia|lia|lia|].
  2: destruct (rev_ends 4 lh_bit_bswap_u32 m n) as (v1 & v2 & m1 & m2 & L1 & L2 & S1 & S2 & P);
    [intros; by eapply bswap_rev|done|lia|lia|lia|].
  3: destruct (rev_ends 2 lh_bit_bswap_u16 m n) as (v1 & v2 & m1 & m2 & L1 & L2 & S1 & S2 & P);
    [intros; by eapply bswap_rev|done|lia|lia|lia|].
  1-3: exists m2; split; [|done];
    change (Z.of_nat 8) with 8 in *; change (Z.of_nat 4) with 4 in *; change (Z.of_nat 2) with 2 in *;
    unfold lh_memory_load_u64, lh_memory_load_u32, lh_memory_load_u16, lh_memory_store_u64, lh_memory_store_u32,
      lh_memory_store_u16; rewrite L1, bind_done, L2, bind_done, S1, bind_done; exact S2.
  destruct (Z.eqb_spec n 0) as [->|Hne]; cbn [negb].
  { exists m. split; [done|]. by rewrite Z.add_0_r in Hp. }
  rewrite (byte_source m0 f (d + n) (d + N) m (s + (N - n))), bind_done by (done || lia).
  destruct (put_paint m0 f (d + n) (d + N) m d (byte_at m0 (s + (N - n))) Hp) as (m' & -> & P);
    [by apply byte_at_u8|lia|lia|lia|f_equal; lia|].
  exists m'. split; [done|]. replace (Z.min (d + n) d) with d in P by lia.
  by replace (Z.max (d + N) (d + 1)) with (d + N) in P by lia.
Qed.
Lemma copy_rev_loop_spec fuel : forall m n, painted m0 f (d + n) (d + N) m -> 0 <= n <= N -> n < Z.of_nat fuel ->
  exists m', copy_rev_loop fuel m d (d + n) (s + (N - n)) n = Done m' /\ painted m0 f d (d + N) m'.
Proof using Hm0 Hd HdN Hs HsN Hdis.
  induction fuel as [|fuel IH]; intros m n Hp Hn Hf; [lia|]. cbn [copy_rev_loop]. rewrite Z.geb_leb.
  destruct (Z.leb_spec 4 n); [|apply copy_rev_tiny_spec; (done || lia)]. cbv zeta.
  destruct (rev_word 4 _ _ m (s + (N - n)) (d + n - 4) Hp) as (bs & L & Hl & Hb & Hf1); [lia..|].
  unfold lh_memory_load_u32, lh_memory_store_u32. rewrite L, bind_done.
  rewrite (proj1 (proj2 (bswap_rev 4 bs Hb Hl)) eq_refl).
  destruct (store_paint m0 f 4 _ _ m (d + n - 4) (rev bs) Hp (rev_bytes _ Hb)) as (m1 & -> & P1);
    [by rewrite length_rev|lia|lia|lia|lia|exact Hf1|]. rewrite bind_done.
  replace (d + n - 4) with (d + (n - 4)) in * by lia. replace (s + (N - n) + 4) with (s + (N - (n - 4))) by lia.
  apply IH; [|lia|lia]. replace (Z.min (d + n) (d + (n - 4))) with (d + (n - 4)) in P1 by lia.
  by replace (Z.max (d + N) (d + (n - 4) + Z.of_nat 4)) with (d + N) in P1 by lia.
Qed.
Lemma copy_rev_paint : 0 <= N ->
  exists m', lh_memory_std_copy_rev_bytes m0 d s N = Done m' /\ painted m0 f d (d + N) m'.
Proof using Hm0 Hd HdN Hs HsN Hdis.
  intros HN. unfold lh_memory_std_copy_rev_bytes.
  pose proof (copy_rev_loop_spec (S (Z.to_nat N)) m0 N) as H. rewrite Z.sub_diag, Z.add_0_r in H.
  apply H; [by apply painted_none|lia|lia].
Qed.
End Rev.

(** [m] with the bytes [bs] at [d]. *)
Definition with_bytes (m : memory) (d : Z) (bs : list Z) : memory :=
  take (Z.to_nat d) m ++ bs ++ drop (Z.to_nat (d + len bs)) m.

(** The kernels that write memory write exactly their range.  [lh_memory_std_set] leaves the
    value in all of it; [lh_memory_std_xor] the exclusive or of two ranges, of which either may
    be the destination itself; [lh_memory_std_copy_rev] the source's bytes in reverse order;
    every other byte of the memory is as it was, and each call returns the end of the
    destination. *)
Theorem kernels_write_their_range m dst src rhs val n :
  is_bytes m -> is_u8 val -> 0 < dst -> 0 < src -> 0 < rhs -> 0 <= n ->
  dst + n <= len m -> src + n <= len m -> rhs + n <= len m ->
  lh_memory_std_set m dst val n = Done (with_bytes m dst (replicate (Z.to_nat n) val), dst + n) /\
  (unread dst src n -> unread dst rhs n ->
   lh_memory_std_xor m dst src rhs n
   = Done (with_bytes m dst (zip_with Z.lxor (bytes_at m src (Z.to_nat n)) (bytes_at m rhs (Z.to_nat n))), dst + n)) /\
  (src + n <= dst \/ dst + n <= src ->
   lh_memory_std_copy_rev m dst src n = Done (with_bytes m dst (rev (bytes_at m src (Z.to_nat n))), dst + n)).
Proof.
  intros Hm Hv Hd Hs Hr Hn Hdn Hsn Hrn.
  assert (forall f bs m', is_bytes bs -> len bs = n -> painted m f dst (dst + n) m' ->
    (forall i, 0 <= i < n -> byte_at bs i = f (dst + i)) -> m' = with_bytes m dst bs) as Hblit.
  { intros f bs m' Hb Hl Hp Hf. rewrite <-Hl in Hp, Hf, Hdn. by apply (painted_blit m dst bs f); try done; lia. }
  unfold lh_memory_std_set, lh_memory_std_xor, lh_memory_std_copy_rev. rewrite !assert_ref_ok, !bind_done by done.
  split_and!.
  - destruct (set_bytes_paint m Hm dst val n) as (m' & -> & Hp); [done|lia..|]. rewrite bind_done.
    apply (Hblit _ (replicate (Z.to_nat n) val)) in Hp as ->; [done|by apply Forall_replicate|rewrite length_replicate; lia|].
    intros i Hi. apply byte_at_replicate. lia.
  - intros Hu1 Hu2. destruct (xor_bytes_paint m Hm dst src rhs n) as (m' & -> & Hp); [lia..|done|done|done|]. rewrite bind_done.
    apply (Hblit _ (zip_with Z.lxor (bytes_at m src (Z.to_nat n)) (bytes_at m rhs (Z.to_nat n)))) in Hp as ->; [done| | |].
    + apply op_bytes; [apply lxor_u8|by apply bytes_at_bytes..].
    + rewrite length_zip_with, !bytes_at_length by lia. lia.
    + intros i Hi. rewrite byte_at_zip, !bytes_at_byte by (rewrite ?bytes_at_length by lia; lia). f_equal; f_equal; lia.
  - intros Hdis. destruct (copy_rev_paint m Hm dst src n) as (m' & -> & Hp); [lia..|done|done|]. rewrite bind_done.
    apply (Hblit _ (rev (bytes_at m src (Z.to_nat n)))) in Hp as ->; [done|by apply Forall_rev, bytes_at_bytes| |].
    + rewrite length_rev, bytes_at_length by lia. lia.
    + intros i Hi. rewrite byte_at_rev, bytes_at_length, bytes_at_byte by (rewrite ?bytes_at_length by lia; lia).
      f_equal. lia.
Qed.
Lemma kernels_write_their_range_witness :
  lh_memory_std_set (seqZ 0 30) 3 7 9 = Done ([0; 1; 2] ++ replicate 9 7 ++ seqZ 12 18, 12).
Proof.
  refine (eq_trans (proj1 (kernels_write_their_range (seqZ 0 30) 3 20 20 7 9 _ _ _ _ _ _ _ _ _)) _);
    try (vm_compute; done); try lia; try zb. repeat constructor; zb.
Defined.
