(* ===== verification/MemoryFindProofs.v ===== *)
(** * Searching memory: correctness

    The word-wise searches for a run of bytes find its first and its last place.  The
    filter on the words may mark lanes that do not hold the filter byte, which the code
    compares in full; it never leaves one unmarked that does. *)
From S2P Require Import Prelude Buffer Bytes Swar Memory MemoryProofs.

(** The [k] bytes at [p] are the [k] bytes at [q]. *)
Definition same_at (m : memory) (p q k : Z) : bool :=
  bool_decide (bytes_at m p (Z.to_nat k) = bytes_at m q (Z.to_nat k)).
Lemma same_at_spec m p q k : 0 <= k -> 0 <= p -> p + k <= len m -> 0 <= q -> q + k <= len m ->
  same_at m p q k = true <-> forall i, 0 <= i < k -> byte_at m (p + i) = byte_at m (q + i).
Proof.
  intros Hk Hp Hpk Hq Hqk. unfold same_at. rewrite bool_decide_eq_true. split.
  - intros E i Hi. rewrite <-!(bytes_at_byte m _ (Z.to_nat k)) by lia. by rewrite E.
  - intros H. apply byte_at_ext; rewrite !bytes_at_length by lia; [done|]. intros i Hi.
    rewrite !bytes_at_byte by lia. apply H. lia.
Qed.


Section Find.
Context (m : memory) (Hm : is_bytes m) (hay needle n k : Z).
Context (Hk : 1 <= k) (Hkn : k <= n) (Hh : 0 < hay) (Hhn : hay + n <= len m).
Context (Hn : 0 < needle) (Hnk : needle + k <= len m).
Notation first := (byte_at m needle).
Notation last := (byte_at m (needle + (k - 1))).
Definition matches (off : Z) : bool := same_at m (hay + off) needle k.

Lemma matches_spec off : 0 <= off <= n - k ->
  matches off = true <-> forall i, 0 <= i < k -> byte_at m (hay + off + i) = byte_at m (needle + i).
Proof using Hk Hkn Hh Hhn Hn Hnk. intros. apply same_at_spec; lia. Qed.
Lemma matches_false off i : 0 <= off <= n - k -> 0 <= i < k ->
  byte_at m (hay + off + i) <> byte_at m (needle + i) -> matches off = false.
Proof using Hk Hkn Hh Hhn Hn Hnk.
  intros Ho Hi Hne. destruct (matches off) eqn:E; [|done]. rewrite matches_spec in E by done. by rewrite E in Hne.
Qed.

Lemma find_is_match_spec off : 0 <= off <= n - k -> byte_at m (hay + off) = first ->
  byte_at m (hay + off + k - 1) = last ->
  lh_memory_std_find_is_match m (hay + off) needle k = Done (matches off).
Proof using Hm Hk Hkn Hh Hhn Hn Hnk.
  intros Ho Hf Hl. unfold lh_memory_std_find_is_match.
  assert (forall b, (b = true <-> forall i, 0 < i < k - 1 -> byte_at m (hay + off + i) = byte_at m (needle + i)) ->
    b = matches off) as Hmid.
  { intros b Hb. apply eq_true_iff_eq. rewrite Hb, matches_spec by done. split; [|intros H i Hi; apply H; lia].
    intros H i Hi. destruct (decide (i = 0)) as [->|]; [by rewrite !Z.add_0_r|].
    destruct (decide (i = k - 1)) as [->|]; [by rewrite Z.add_sub_assoc|apply H; lia]. }
  destruct (Z.leb_spec k 2).
  { unfold mret, outcome_ret. f_equal. apply Hmid. split; [intros _ i Hi; lia|done]. }
  destruct (Z.eqb_spec k 3) as [E3|Hne].
  { rewrite !byte_at_load, !bind_done by lia. unfold mret, outcome_ret. f_equal. apply Hmid. rewrite Z.eqb_eq. split.
    - intros E i Hi. by assert (i = 1) as -> by lia.
    - intros H'. apply H'. lia. }
  rewrite compare_bytes_spec', bind_done by (done || lia). unfold mret, outcome_ret. f_equal.
  apply Hmid. set (p := differ m (hay + off + 1) (needle + 1)). unfold first_where.
  destruct (index_of p (seqZ 0 (k - 2))) as [x|] eqn:E; cbn.
  - split; [done|]. intros H'. exfalso. apply index_of_inv in E as (c & Hc & Hp & _).
    apply list_elem_of_lookup_2, elem_of_seqZ in Hc. unfold p, differ in Hp. apply negb_true_iff, Z.eqb_neq in Hp.
    apply Hp. rewrite <-!Z.add_assoc. rewrite (Z.add_assoc hay off). apply H'. lia.
  - split; [|done]. intros _ i Hi. apply index_of_none in E. rewrite Forall_forall in E.
    specialize (E (i - 1) ltac:(apply elem_of_seqZ; lia)). unfold p, differ in E.
    apply negb_false_iff, Z.eqb_eq in E. replace (hay + off + 1 + (i - 1)) with (hay + off + i) in E by lia.
    by replace (needle + 1 + (i - 1)) with (needle + i) in E by lia.
Qed.
Lemma find_at_spec off : 0 <= off <= n - k ->
  lh_memory_std_find_at m hay off needle k first last = Done (matches off).
Proof using Hm Hk Hkn Hh Hhn Hn Hnk.
  intros Ho. unfold lh_memory_std_find_at. rewrite (byte_at_load m (hay + off)), bind_done by lia.
  destruct (Z.eqb_spec (byte_at m (hay + off)) first) as [Ef|Hne]; cbn [negb].
  2:{ rewrite (matches_false off 0); [done|done|lia|]. by rewrite !Z.add_0_r. }
  rewrite byte_at_load, bind_done by lia.
  destruct (Z.eqb_spec (byte_at m (hay + off + k - 1)) last) as [El|Hne]; cbn [negb].
  2:{ rewrite (matches_false off (k - 1)); [done|done|lia|]. by rewrite Z.add_sub_assoc. }
  by apply find_is_match_spec.
Qed.

(** *** The filter *)

Notation filter_byte := (if k >? 1 then last else first).
Notation filter_off := (if k >? 1 then k - 1 else 0).
Notation filter := (lh_bit_swar_broadcast filter_byte).
Definition lanes_of (off : Z) : list Z := bytes_at m (hay + off + filter_off) 8.
Definition filter_marks (off : Z) : list bool :=
  below_marks 1 0 (zip_with Z.lxor (lanes_of off) (replicate 8 filter_byte)).

Lemma filter_at : byte_at m (needle + filter_off) = filter_byte.
Proof using Hk. rewrite Z.gtb_ltb. destruct (Z.ltb_spec 1 k); [done|]. by rewrite Z.add_0_r. Qed.
Lemma filter_off_range : 0 <= filter_off < k.
Proof using Hk. clear - Hk. rewrite Z.gtb_ltb. destruct (Z.ltb_spec 1 k); lia. Qed.
Lemma filter_byte_u8 : is_u8 filter_byte.
Proof using Hm. destruct (k >? 1); by apply byte_at_u8. Qed.
Lemma filter_word off : 0 <= off -> off + 7 <= n - k ->
  lh_memory_load_usize m (hay + off + filter_off) = Done (le_word (lanes_of off)) /\
  lh_bit_swar_zero_mask (Z.lxor (le_word (lanes_of off)) filter) = marks_word (filter_marks off).
Proof using Hm Hk Hkn Hh Hhn.
  intros Ho Hob. pose proof filter_off_range as Hfo. pose proof filter_byte_u8 as Hfb.
  assert (length (lanes_of off) = 8%nat) as Hl by (apply bytes_at_length; lia).
  assert (is_bytes (lanes_of off)) as Hb by by apply bytes_at_bytes.
  assert (is_bytes (replicate 8 filter_byte)) as Hr by by apply Forall_replicate.
  split; [apply load_word_ok; lia|]. rewrite broadcast_lanes, le_word_lxor by done.
  apply zero_mask_marks; [apply op_bytes; [apply lxor_u8|done|done]|].
  by rewrite length_zip_with, Hl, length_replicate.
Qed.
Lemma filter_marks_length off : 0 <= off -> off + 7 <= n - k -> length (filter_marks off) = 8%nat.
Proof using Hk Hkn Hh Hhn.
  intros. pose proof filter_off_range. unfold filter_marks.
  rewrite below_marks_length, length_zip_with, length_replicate. unfold lanes_of. by rewrite bytes_at_length by lia.
Qed.
(** A lane that is not marked does not match. *)
Lemma unmarked_no_match off lane : 0 <= off -> off + 7 <= n - k -> 0 <= lane < 8 ->
  filter_marks off !! Z.to_nat lane <> Some true -> matches (off + lane) = false.
Proof using Hm Hk Hkn Hh Hhn Hn Hnk.
  intros Ho Hob Hla Hu. pose proof filter_off_range as Hfo. apply (matches_false _ filter_off); [lia|done|].
  intros E. apply Hu. apply zero_marked; [|lia]. apply lookup_zip_with_Some.
  exists filter_byte, filter_byte. split_and!.
  - by rewrite Z.lxor_nilpotent.
  - unfold lanes_of. assert (length (bytes_at m (hay + off + filter_off) 8) = 8%nat) as Hl by (apply bytes_at_length; lia).
    destruct (lookup_lt_is_Some_2 (bytes_at m (hay + off + filter_off) 8) (Z.to_nat lane)) as [b Hb]; [lia|].
    rewrite Hb. f_equal. rewrite <-filter_at, <-E. replace (hay + (off + lane) + filter_off) with (hay + off + filter_off + lane) by lia.
    rewrite <-(bytes_at_byte m _ 8) by lia. unfold byte_at at 1. by rewrite nth_lookup, Hb.
  - apply lookup_replicate_2. lia.
Qed.
Lemma lane_bit_marked off lane : 0 <= off -> off + 7 <= n - k -> 0 <= lane < 8 ->
  (Z.land (marks_word (filter_marks off)) (lh_bit_swar_lane_bit lane) =? 0)
  = negb (bool_decide (filter_marks off !! Z.to_nat lane = Some true)).
Proof using Hk Hkn Hh Hhn.
  intros Ho Hob Hla. unfold lh_bit_swar_lane_bit.
  assert (u64 (Z.shiftl 128 (Z.shiftl lane 3)) = 2 ^ Z.of_nat (8 * Z.to_nat lane + 7)) as ->.
  { rewrite !Z.shiftl_mul_pow2 by (try apply Z.shiftl_nonneg; lia). change (2 ^ 3) with 8.
    change 128 with (2 ^ 7). rewrite <-Z.pow_add_r by lia.
    replace (7 + lane * 8) with (Z.of_nat (8 * Z.to_nat lane + 7)) by lia. apply u64_id.
    pose proof (Z.pow_lt_mono_r 2 (Z.of_nat (8 * Z.to_nat lane + 7)) 64 ltac:(lia) ltac:(lia) ltac:(lia)).
    pose proof (Z.pow_nonneg 2 (Z.of_nat (8 * Z.to_nat lane + 7)) ltac:(lia)). zb. }
  rewrite land_pow2, marks_testbit by lia.
  replace ((8 * Z.to_nat lane + 7) / 8)%nat with (Z.to_nat lane) by (apply Nat.div_unique with 7%nat; lia).
  replace ((8 * Z.to_nat lane + 7) mod 8)%nat with 7%nat by (apply Nat.mod_unique with (Z.to_nat lane); lia).
  rewrite andb_true_r, nth_lookup. pose proof (Z.pow_pos_nonneg 2 (Z.of_nat (8 * Z.to_nat lane + 7)) ltac:(lia) ltac:(lia)).
  destruct (filter_marks off !! Z.to_nat lane) as [[]|]; cbn [default from_option id].
  - rewrite bool_decide_eq_true_2 by done. apply Z.eqb_neq. lia.
  - by rewrite bool_decide_eq_false_2.
  - by rewrite bool_decide_eq_false_2.
Qed.
Lemma lane_test off lane : 0 <= off -> off + 7 <= n - k -> 0 <= lane < 8 ->
  (if negb (Z.land (marks_word (filter_marks off)) (lh_bit_swar_lane_bit lane) =? 0)
   then lh_memory_std_find_at m hay (off + lane) needle k first last else mret false) = Done (matches (off + lane)).
Proof using Hm Hk Hkn Hh Hhn Hn Hnk.
  intros Ho Hob Hla. rewrite lane_bit_marked, negb_involutive by done. case_bool_decide as E.
  - apply find_at_spec. lia.
  - by rewrite unmarked_no_match.
Qed.

(** *** The loops *)

Notation places := (n - k + 1).
Lemma find_lanes_spec off fuel : 0 <= off -> off + 8 <= places -> forall lane, 0 <= lane <= 8 ->
  8 - lane < Z.of_nat fuel ->
  seeks matches hay places (off + lane)
    (find_lanes m hay needle k first last fuel (marks_word (filter_marks off)) off lane)
    (fun _ j => j = off + 8).
Proof using Hm Hk Hkn Hh Hhn Hn Hnk.
  intros Ho Hob. induction fuel as [|fuel IH]; intros lane Hla Hf; [lia|]. cbn [find_lanes].
  destruct (Z.ltb_spec lane 8).
  2:{ assert (lane = 8) as -> by lia. by apply seeks_on; [lia|]. }
  rewrite lane_test, bind_done by lia. destruct (matches (off + lane)) eqn:E.
  - rewrite <-Z.add_assoc. apply seeks_hit; [lia|done|intros; lia].
  - apply (seeks_step _ _ _ _ (off + lane + 1)); [lia|intros i Hi; by replace i with (off + lane) by lia|].
    rewrite <-Z.add_assoc. apply IH; lia.
Qed.
Lemma find_words_spec fuel : forall off, 0 <= off <= places -> places - off < Z.of_nat fuel ->
  seeks matches hay places off
    (find_words m hay needle k first last fuel filter filter_off (n - (k + 8 - 1)) off) (fun a j => a = j).
Proof using Hm Hk Hkn Hh Hhn Hn Hnk.
  induction fuel as [|fuel IH]; intros off Ho Hf; [lia|]. cbn [find_words].
  destruct (Z.leb_spec off (n - (k + 8 - 1))); [|by apply seeks_on; [lia|]].
  destruct (filter_word off) as [-> Em]; [lia|lia|]. rewrite bind_done. cbv zeta. rewrite Em.
  eapply (seeks_then _ _ _ _ _ _ (fun _ j => j = off + 8)).
  - destruct (Z.eqb_spec (marks_word (filter_marks off)) 0) as [E0|_]; cbn [negb].
    + apply (seeks_step _ _ _ _ (off + 8)); [lia| |by apply seeks_on; [lia|]].
      intros i Hi. replace i with (off + (i - off)) by lia. apply unmarked_no_match; [lia..|]. intros Hi'.
      pose proof (lane_bit_marked off (i - off) ltac:(lia) ltac:(lia) ltac:(lia)) as Hb.
      rewrite bool_decide_eq_true_2 in Hb by done. by rewrite E0, Z.land_0_l in Hb.
    + replace off with (off + 0) at 1 by lia. apply find_lanes_spec; lia.
  - intros _ j Hj ->. apply IH; lia.
Qed.
Lemma find_offs_spec fuel : forall off, 0 <= off <= places -> places - off < Z.of_nat fuel ->
  seeks matches hay places off (find_offs m hay needle k first last fuel (n - k) off) (fun _ j => j = places).
Proof using Hm Hk Hkn Hh Hhn Hn Hnk.
  induction fuel as [|fuel IH]; intros off Ho Hf; [lia|]. cbn [find_offs].
  destruct (Z.leb_spec off (n - k)); [|apply seeks_on; lia].
  rewrite find_at_spec, bind_done by lia. destruct (matches off) eqn:E.
  - apply seeks_hit; [lia|done|intros; lia].
  - apply (seeks_step _ _ _ _ (off + 1)); [lia|intros i Hi; by replace i with off by lia|]. apply IH; lia.
Qed.
Lemma find_scalar_spec :
  lh_memory_std_find_scalar m hay n needle k 0 = Done (Z.add hay <$> first_where matches places).
Proof using Hm Hk Hkn Hh Hhn Hn Hnk.
  unfold lh_memory_std_find_scalar. rewrite (byte_at_load m needle), bind_done by lia.
  rewrite (byte_at_load m (needle + (k - 1))), bind_done by lia. cbv zeta.
  eapply seeks_found with (post := fun (_ : unit) j => j = places); [|done].
  eapply (seeks_then _ _ _ _ _ _ (fun a j => a = j)).
  - destruct (_ && _); [apply find_words_spec; lia|by apply seeks_on; [lia|]].
  - intros a j Hj ->. apply find_offs_spec; lia.
Qed.

Lemma rfind_offs_spec fuel until : 0 <= until -> forall off, until <= off < places -> off - until < Z.of_nat fuel ->
  rseeks matches hay (off + 1) (rfind_offs m hay needle k first last fuel until off) (fun _ j => j = until).
Proof using Hm Hk Hkn Hh Hhn Hn Hnk.
  intros Hu. induction fuel as [|fuel IH]; intros off Ho Hf; [lia|]. cbn [rfind_offs].
  rewrite find_at_spec, bind_done by lia. destruct (matches off) eqn:E; [apply rseeks_hit; [lia|done|intros; lia]|].
  apply (rseeks_step _ _ _ off); [lia|intros i Hi; by replace i with off by lia|].
  destruct (Z.eqb_spec off until) as [->|Hne]; [by apply rseeks_on; [lia|]|].
  replace (rseeks matches hay off) with (@rseeks matches hay unit (off - 1 + 1)) by (f_equal; lia). apply IH; lia.
Qed.
Lemma rfind_lanes_spec off fuel : 0 <= off -> off + 8 <= places -> forall lane, 0 <= lane <= 8 ->
  lane < Z.of_nat fuel ->
  rseeks matches hay (off + lane)
    (rfind_lanes m hay needle k first last fuel (marks_word (filter_marks off)) off lane)
    (fun _ j => j = off).
Proof using Hm Hk Hkn Hh Hhn Hn Hnk.
  intros Ho Hob. induction fuel as [|fuel IH]; intros lane Hla Hf; [lia|]. cbn [rfind_lanes].
  destruct (Z.eqb_spec lane 0) as [->|Hne]; cbn [negb]; [apply rseeks_on; lia|]. cbv zeta.
  rewrite lane_test, bind_done by lia. destruct (matches (off + (lane - 1))) eqn:E.
  - rewrite <-Z.add_assoc. apply rseeks_hit; [lia|done|intros; lia].
  - apply (rseeks_step _ _ _ (off + (lane - 1))); [lia|intros i Hi; by replace i with (off + (lane - 1)) by lia|].
    apply IH; lia.
Qed.
Lemma rfind_words_spec fuel : forall off, 0 <= off -> off mod 8 = 0 -> off + 8 <= places -> off < Z.of_nat fuel ->
  rseeks matches hay (off + 8)
    (rfind_words m hay needle k first last fuel filter filter_off off) (fun _ j => j = 0).
Proof using Hm Hk Hkn Hh Hhn Hn Hnk.
  induction fuel as [|fuel IH]; intros off Ho Hal Hob Hf; [lia|]. cbn [rfind_words].
  destruct (filter_word off) as [-> Em]; [lia|lia|]. rewrite bind_done. cbv zeta. rewrite Em.
  eapply (rseeks_then _ _ _ _ _ (fun _ j => j = off)).
  - destruct (Z.eqb_spec (marks_word (filter_marks off)) 0) as [E0|_]; cbn [negb]; [|apply rfind_lanes_spec; lia].
    apply (rseeks_step _ _ _ off); [lia| |by apply rseeks_on; [lia|]].
    intros i Hi. replace i with (off + (i - off)) by lia. apply unmarked_no_match; [lia..|]. intros Hi'.
    pose proof (lane_bit_marked off (i - off) ltac:(lia) ltac:(lia) ltac:(lia)) as Hb.
    rewrite bool_decide_eq_true_2 in Hb by done. by rewrite E0, Z.land_0_l in Hb.
  - intros _ j Hj ->. destruct (Z.eqb_spec off 0) as [->|Hne]; [by apply rseeks_on; [lia|]|].
    replace (rseeks matches hay off) with (@rseeks matches hay unit (off - 8 + 8)) by (f_equal; lia).
    apply IH; zdm.
Qed.
End Find.

(** The code's two ways to a multiple of a power of two. *)
Lemma mask_down x j : 0 <= x < 2 ^ 63 -> 0 <= j < 64 ->
  Z.land x (u64 (Z.lnot (2 ^ j - 1))) = x - x mod 2 ^ j.
Proof.
  intros Hx Hj. pose proof (Z.pow_pos_nonneg 2 j ltac:(lia) ltac:(lia)).
  assert (2 ^ (64 - j) * 2 ^ j = 18446744073709551616) as E64
    by (rewrite <-Z.pow_add_r by lia; by replace (64 - j + j) with 64 by lia).
  assert (u64 (Z.lnot (2 ^ j - 1)) = Z.shiftl (Z.ones (64 - j)) j) as ->.
  { rewrite Z.shiftl_mul_pow2, Z.ones_equiv by lia. unfold Z.lnot, u64. rewrite <-E64.
    symmetry. apply Z.mod_unique_pos with (-1); nia. }
  transitivity (Z.shiftl (Z.land (Z.shiftr x j) (Z.ones (64 - j))) j).
  - apply Z.bits_inj'. intros i Hi. rewrite Z.land_spec. destruct (decide (i < j)).
    + rewrite !Z.shiftl_spec_low by done. apply andb_false_r.
    + rewrite !Z.shiftl_spec, Z.land_spec, Z.shiftr_spec by lia. do 2 f_equal. lia.
  - rewrite Z.land_ones, Z.shiftl_mul_pow2, Z.shiftr_div_pow2 by lia.
    rewrite Z.mod_small; [pose proof (Z.div_mod x (2 ^ j) ltac:(lia)); lia|].
    split; [apply Z.div_pos; lia|]. apply Z.div_lt_upper_bound; [lia|]. rewrite Z.mul_comm, E64. lia.
Qed.
Lemma align_down_8 x : 0 <= x < 2 ^ 63 -> lh_addr_align_down x 8 = x - x mod 8.
Proof. intros Hx. by apply (mask_down x 3). Qed.
Section Rfind.
Context (m : memory) (Hm : is_bytes m) (hay needle n k : Z).
Context (Hk : 1 <= k) (Hkn : k <= n) (Hh : 0 < hay) (Hhn : hay + n <= len m).
Context (Hn : 0 < needle) (Hnk : needle + k <= len m) (Hsize : n < 2 ^ 63).
Notation matches := (matches m hay needle k).
Notation places := (n - k + 1).
Lemma rfind_scalar_spec :
  lh_memory_std_rfind_scalar m hay n needle k = Done (Z.add hay <$> last_where matches places).
Proof using Hm Hk Hkn Hh Hhn Hn Hnk Hsize.
  unfold lh_memory_std_rfind_scalar. rewrite (byte_at_load m needle), bind_done by lia.
  rewrite (byte_at_load m (needle + (k - 1))), bind_done by lia. cbv zeta.
  destruct ((n >=? 32) && (n >=? k + 8 - 1)) eqn:Eg.
  - apply andb_true_iff in Eg as [_ Eg]. rewrite Z.geb_leb, Z.leb_le in Eg.
    rewrite align_down_8 by lia. set (block := n - (k + 8 - 1) - (n - (k + 8 - 1)) mod 8).
    assert (block mod 8 = 0 /\ 0 <= block <= n - (k + 8 - 1) /\ n - (k + 8 - 1) < block + 8) as (Hb & Hr & Hlt)
      by (clear - Eg; unfold block; split_and!; zdm).
    eapply rseeks_found with (post := fun (_ : unit) j => j = 0); [|done].
    eapply (rseeks_then _ _ _ _ _ (fun _ j => j = block + 8)).
    + rewrite Z.geb_leb. destruct (Z.leb_spec (block + 8) (n - k)).
      * apply (rfind_offs_spec m Hm hay needle n k); lia.
      * apply rseeks_on; lia.
    + intros u j Hj ->. apply (rfind_words_spec m Hm hay needle n k); lia.
  - eapply rseeks_found with (post := fun (_ : unit) j => j = 0); [|done].
    apply (rfind_offs_spec m Hm hay needle n k); lia.
Qed.
End Rfind.

Lemma std_find_spec m hay n needle k :
  is_bytes m -> 0 < hay -> 0 <= n < 2 ^ 63 -> hay + n <= len m -> 0 < needle -> 0 <= k -> needle + k <= len m ->
  let matches off := same_at m (hay + off) needle k in
  lh_memory_std_find m hay n needle k
  = Done (if k =? 0 then None else Z.add hay <$> first_where matches (n - k + 1)).
Proof.
  intros Hm Hh Hn Hhn Hne Hk Hnk. cbv zeta. unfold lh_memory_std_find.
  rewrite !assert_ref_ok, !bind_done by done. destruct (Z.eqb_spec k 0) as [->|Hk0]; [done|]. cbn [orb].
  destruct (Z.ltb_spec n k).
  { rewrite first_where_none by (intros; lia). done. }
  etransitivity; [|apply (find_scalar_spec m Hm hay needle n k); lia]. by destruct (Z.eqb_spec k 1) as [->|].
Qed.
Lemma std_rfind_spec m hay n needle k :
  is_bytes m -> 0 < hay -> 0 <= n < 2 ^ 63 -> hay + n <= len m -> 0 < needle -> 0 <= k -> needle + k <= len m ->
  let matches off := same_at m (hay + off) needle k in
  lh_memory_std_rfind m hay n needle k
  = Done (if k =? 0 then None else Z.add hay <$> last_where matches (n - k + 1)).
Proof.
  intros Hm Hh Hn Hhn Hne Hk Hnk. cbv zeta. unfold lh_memory_std_rfind.
  rewrite !assert_ref_ok, !bind_done by done. destruct (Z.eqb_spec k 0) as [->|Hk0]; [done|]. cbn [orb].
  destruct (Z.ltb_spec n k).
  { rewrite last_where_none by (intros; lia). done. }
  by apply (rfind_scalar_spec m Hm hay needle n k); try lia.
Qed.

(** Claim C37: finding a run of bytes in memory gives its first place and searching from the end its
    last, for every text and every run: no place is missed and none is made up, though the
    searches filter eight places at a time on one byte; nothing outside the text and the run
    is read.  An empty run, and one longer than the text, is nowhere. *)
Theorem find_is_first_match m hay n needle k :
  is_bytes m -> 0 < hay -> 0 <= n < 2 ^ 63 -> hay + n <= len m -> 0 < needle -> 0 <= k -> needle + k <= len m ->
  let matches off := same_at m (hay + off) needle k in
  lh_memory_std_find m hay n needle k
  = Done (if k =? 0 then None else Z.add hay <$> first_where matches (n - k + 1)) /\
  lh_memory_std_rfind m hay n needle k
  = Done (if k =? 0 then None else Z.add hay <$> last_where matches (n - k + 1)).
Proof. intros. split; [by apply std_find_spec|by apply std_rfind_spec]. Qed.
Lemma find_is_first_match_witness :
  let m := 0 :: [1; 2] ++ replicate 30 7 ++ [1; 2; 3; 1; 2; 3; 4] in
  lh_memory_std_find m 3 37 1 2 = Done (Some 33) /\ lh_memory_std_rfind m 3 37 1 2 = Done (Some 36).
Proof.
  intros m. destruct (find_is_first_match m 3 37 1 2) as [E1 E2].
  - unfold m. repeat constructor; zb.
  - lia.
  - lia.
  - vm_compute. done.
  - lia.
  - lia.
  - vm_compute. done.
  - split; [rewrite E1|rewrite E2]; vm_compute; done.
Defined.
