(* ===== verification/Block.v ===== *)
(** * Blocks of memory

    [memory.c]: copies bounded by two sizes, fills with a pattern, and searches on a grid
    of steps, over the kernels of [Memory].  A size may be the whole address space
    behind a pointer ([lh_memory_is_unbounded]); the loops of such a search have fuel for
    every byte of the memory, which is where they have to stop. *)
From S2P Require Import Prelude Buffer Bytes Swar Memory.

Definition lh_memory_size_rest (size off : Z) : Z := if off <=? size then u64 (size - off) else 0.
Definition lh_memory_scan_bound (p : Z) : Z := u64 (LH_USIZE_T_MAX - p).
Definition lh_math_is_power_of_two (n : Z) : bool := (n >? 0) && (Z.land n (u64 (n - 1)) =? 0).

Definition lh_memory_copy (mem : memory) (dst dst_size src src_size : Z) : outcome (memory * Z) :=
  let n := Z.min dst_size src_size in
  lh_memory_std_copy mem dst src n.
Definition lh_memory_copy_rev (mem : memory) (dst dst_size src src_size : Z) : outcome (memory * Z) :=
  let n := Z.min dst_size src_size in
  lh_memory_std_copy_rev mem dst src n.
Definition lh_memory_rcopy (mem : memory) (dst dst_size src src_size : Z) : outcome (memory * Z) :=
  let n := Z.min dst_size src_size in
  lh_memory_std_rcopy mem dst src n.
Definition lh_memory_move (mem : memory) (dst dst_size src src_size : Z) : outcome (memory * Z) :=
  let n := Z.min dst_size src_size in
  lh_memory_std_move mem dst src n.
Definition lh_memory_set (mem : memory) (dst size val : Z) : outcome (memory * Z) :=
  lh_memory_std_set mem dst val size.
Definition lh_memory_xor (mem : memory) (dst dst_size lhs lhs_size rhs rhs_size : Z) : outcome (memory * Z) :=
  let n := Z.min dst_size (Z.min lhs_size rhs_size) in
  lh_memory_std_xor mem dst lhs rhs n.
Definition lh_memory_compare (mem : memory) (lhs lhs_size rhs rhs_size : Z) : outcome (option Z) :=
  let n := Z.min lhs_size rhs_size in
  lh_memory_std_compare mem lhs rhs n.
Definition lh_memory_rcompare (mem : memory) (lhs lhs_size rhs rhs_size : Z) : outcome (option Z) :=
  let n := Z.min lhs_size rhs_size in
  let l := lhs + u64 (lhs_size - n) in
  let r := rhs + u64 (rhs_size - n) in
  lh_memory_std_rcompare mem l r n.

(** ** Filling *)

(** [for (; i + 8 <= count; i += 8)] and [for (; i < count; ++i)] over elements of [k] bytes. *)
Fixpoint set_eights (fuel k : nat) (mem : memory) (dst count val i : Z) : outcome (memory * Z) :=
  match fuel with
  | O => Undef
  | S fuel =>
    if u64 (i + 8) <=? count then
      let at_ j := dst + Z.of_nat k * (i + j) in
      mem ← store_word k mem (at_ 0) val;
      mem ← store_word k mem (at_ 1) val;
      mem ← store_word k mem (at_ 2) val;
      mem ← store_word k mem (at_ 3) val;
      mem ← store_word k mem (at_ 4) val;
      mem ← store_word k mem (at_ 5) val;
      mem ← store_word k mem (at_ 6) val;
      mem ← store_word k mem (at_ 7) val;
      set_eights fuel k mem dst count val (u64 (i + 8))
    else mret (mem, i)
  end.
Fixpoint set_ones (fuel k : nat) (mem : memory) (dst count val i : Z) : outcome memory :=
  match fuel with
  | O => Undef
  | S fuel =>
    if i <? count then
      mem ← store_word k mem (dst + Z.of_nat k * i) val;
      set_ones fuel k mem dst count val (u64 (i + 1))
    else mret mem
  end.
Definition lh_memory_set_u16 (mem : memory) (dst count val : Z) : outcome (memory * Z) :=
  let fuel := S (Z.to_nat count) in
  '(mem, i) ← set_eights fuel 2 mem dst count val 0;
  mem ← set_ones fuel 2 mem dst count val i;
  mret (mem, dst + 2 * count).
Definition lh_memory_set_u32 (mem : memory) (dst count val : Z) : outcome (memory * Z) :=
  let fuel := S (Z.to_nat count) in
  '(mem, i) ← set_eights fuel 4 mem dst count val 0;
  mem ← set_ones fuel 4 mem dst count val i;
  mret (mem, dst + 4 * count).

(** [for (i = 0; i < w; ++i) { rep_bytes[i] = s[i % src_size]; }] *)
Fixpoint rep_loop (fuel : nat) (mem : memory) (s src_size i : Z) : outcome (list Z) :=
  match fuel with
  | O => Undef
  | S fuel =>
    if i <? 8 then
      b ← load mem (s + i mod src_size);
      rest ← rep_loop fuel mem s src_size (i + 1);
      mret (b :: rest)
    else mret []
  end.
(** Bytes of the pattern while [stop] does not hold. *)
Fixpoint pattern_bytes (fuel : nat) (stop : Z -> Z -> bool) (mem : memory) (s src_size out n phase : Z)
    : outcome (memory * Z * Z * Z) :=
  match fuel with
  | O => Undef
  | S fuel =>
    if (n >? 0) && negb (stop out phase) then
      b ← load mem (s + phase);
      mem ← put mem out b;
      let phase := u64 (phase + 1) in
      let phase := if phase =? src_size then 0 else phase in
      pattern_bytes fuel stop mem s src_size (out + 1) (n - 1) phase
    else mret (mem, out, n, phase)
  end.
Fixpoint pattern_words (fuel : nat) (mem : memory) (rep out n : Z) : outcome (memory * Z * Z) :=
  match fuel with
  | O => Undef
  | S fuel =>
    if n >=? 8 then
      mem ← lh_memory_word_store mem out rep;
      pattern_words fuel mem rep (out + 8) (n - 8)
    else mret (mem, out, n)
  end.
Definition set_pattern_word (mem : memory) (d dst_size s src_size : Z) : outcome memory :=
  let fuel := S (Z.to_nat dst_size) in
  rep_bytes ← rep_loop 9 mem s src_size 0;
  let rep := le_word rep_bytes in
  '(mem, out, n, phase) ← pattern_bytes fuel
     (fun out phase => (Z.land out (8 - 1) =? 0) && (phase =? 0)) mem s src_size d dst_size 0;
  '(mem, out, n) ← pattern_words fuel mem rep out n;
  '(mem, _, _, _) ← pattern_bytes fuel (fun _ _ => false) mem s src_size out n phase;
  mret mem.
Fixpoint double_loop (fuel : nat) (mem : memory) (d dst_size filled : Z) : outcome memory :=
  match fuel with
  | O => Undef
  | S fuel =>
    if filled <? dst_size then
      let chunk := Z.min filled (dst_size - filled) in
      '(mem, _) ← lh_memory_std_copy mem (d + filled) d chunk;
      double_loop fuel mem d dst_size (filled + chunk)
    else mret mem
  end.
Definition set_pattern_double (mem : memory) (d dst_size s src_size : Z) : outcome memory :=
  let filled := Z.min src_size dst_size in
  '(mem, _) ← lh_memory_std_copy mem d s filled;
  double_loop (S (Z.to_nat dst_size)) mem d dst_size filled.
(** The end of what was filled, or the null pointer. *)
Definition lh_memory_set_pattern (mem : memory) (dst dst_size src src_size : Z) : outcome (memory * Z) :=
  _ ← assert_ref dst;
  _ ← assert_ref src;
  if dst_size =? 0 then mret (mem, 0) else
  if src_size =? 0 then mret (mem, 0) else
  if src_size =? 1 then b ← load mem src; lh_memory_std_set mem dst b dst_size else
  if (src_size <=? 8) && (8 mod src_size =? 0) then
    mem ← set_pattern_word mem dst dst_size src src_size;
    mret (mem, dst + dst_size)
  else
    mem ← set_pattern_double mem dst dst_size src src_size;
    mret (mem, dst + dst_size).

(** ** Searching on a grid *)

Definition lh_memory_is_unbounded (lhs lhs_size : Z) : bool := lhs_size =? lh_memory_scan_bound lhs.
Definition is_null (p : option Z) : bool := match p with None => true | Some _ => false end.
Definition lh_memory_is_equal (mem : memory) (lhs rhs size : Z) : outcome bool :=
  p ← lh_memory_std_compare mem lhs rhs size;
  mret (is_null p).

Fixpoint byte_by_step (fuel : nat) (mem : memory) (base lhs_size byte step off : Z) : outcome (option Z) :=
  match fuel with
  | O => Undef
  | S fuel =>
    if lh_memory_size_rest lhs_size off >=? 1 then
      let cand := base + off in
      b ← load mem cand;
      if b =? byte then mret (Some cand)
      else byte_by_step fuel mem base lhs_size byte step (u64 (off + step))
    else mret None
  end.
Definition lh_memory_find_byte_by_step (mem : memory) (lhs lhs_size byte step : Z) : outcome (option Z) :=
  byte_by_step (S (length mem)) mem lhs lhs_size byte step 0.
Fixpoint unit_by_step (fuel : nat) (mem : memory) (base lhs_size unit_ unit_size off : Z) : outcome (option Z) :=
  match fuel with
  | O => Undef
  | S fuel =>
    if lh_memory_size_rest lhs_size off >=? unit_size then
      let cand := base + off in
      equal ← lh_memory_is_equal mem cand unit_ unit_size;
      if equal : bool then mret (Some cand)
      else unit_by_step fuel mem base lhs_size unit_ unit_size (u64 (off + unit_size))
    else mret None
  end.
Definition lh_memory_find_unit_by_step (mem : memory) (lhs lhs_size unit_ unit_size : Z) : outcome (option Z) :=
  unit_by_step (S (length mem)) mem lhs lhs_size unit_ unit_size 0.
Fixpoint unit_loop (fuel : nat) (mem : memory) (base lhs_size unit_ unit_size off : Z) : outcome (option Z) :=
  match fuel with
  | O => Undef
  | S fuel =>
    if lh_memory_size_rest lhs_size off >=? unit_size then
      found ← lh_memory_std_find mem (base + off) (lh_memory_size_rest lhs_size off) unit_ unit_size;
      match found with
      | None => mret None
      | Some found =>
        let at_ := u64 (found - base) in
        if at_ mod unit_size =? 0 then mret (Some found)
        else unit_loop fuel mem base lhs_size unit_ unit_size (u64 (at_ - at_ mod unit_size + unit_size))
      end
    else mret None
  end.
Definition lh_memory_find_unit (mem : memory) (lhs lhs_size unit_ unit_size : Z) : outcome (option Z) :=
  unit_loop (S (length mem)) mem lhs lhs_size unit_ unit_size 0.
Fixpoint needle_by_step (fuel : nat) (mem : memory) (base lhs_size rhs rhs_size step first off : Z)
    : outcome (option Z) :=
  match fuel with
  | O => Undef
  | S fuel =>
    if lh_memory_size_rest lhs_size off >=? rhs_size then
      let cand := base + off in
      b ← load mem cand;
      same ← (if b =? first then
                p ← lh_memory_compare mem cand (lh_memory_size_rest lhs_size off) rhs rhs_size;
                mret (is_null p)
              else mret false);
      if same : bool then mret (Some cand)
      else needle_by_step fuel mem base lhs_size rhs rhs_size step first (u64 (off + step))
    else mret None
  end.
Definition lh_memory_find_needle_by_step (mem : memory) (lhs lhs_size rhs rhs_size step : Z) : outcome (option Z) :=
  first ← load mem rhs;
  needle_by_step (S (length mem)) mem lhs lhs_size rhs rhs_size step first 0.
Definition lh_memory_find_step (mem : memory) (lhs lhs_size rhs rhs_size step : Z) : outcome (option Z) :=
  _ ← assert_ref lhs;
  _ ← assert_ref rhs;
  if lhs_size =? 0 then mret None else
  if rhs_size =? 0 then mret None else
  if step =? 0 then mret None else
  if negb (lh_memory_is_unbounded lhs lhs_size) && (step =? 1) then lh_memory_std_find mem lhs lhs_size rhs rhs_size else
  if negb (lh_memory_is_unbounded lhs lhs_size) && (rhs_size =? step) then lh_memory_find_unit mem lhs lhs_size rhs rhs_size else
  if rhs_size =? 1 then b ← load mem rhs; lh_memory_find_byte_by_step mem lhs lhs_size b step else
  if rhs_size =? step then lh_memory_find_unit_by_step mem lhs lhs_size rhs rhs_size else
  lh_memory_find_needle_by_step mem lhs lhs_size rhs rhs_size step.

Definition lh_memory_get_last_step_offset (lhs_size rhs_size step : Z) : Z :=
  let max_start := u64 (lhs_size - rhs_size) in
  if lh_math_is_power_of_two step then Z.land max_start (u64 (Z.lnot (u64 (step - 1))))
  else u64 (max_start / step * step).
Fixpoint rneedle_loop (fuel : nat) (mem : memory) (base rhs rhs_size step first off : Z) : outcome (option Z) :=
  match fuel with
  | O => Undef
  | S fuel =>
    let cand := base + off in
    b ← load mem cand;
    same ← (if b =? first then lh_memory_is_equal mem cand rhs rhs_size else mret false);
    if same : bool then mret (Some cand) else
    if off <? step then mret None else
    rneedle_loop fuel mem base rhs rhs_size step first (off - step)
  end.
Definition lh_memory_rfind_needle_by_step (mem : memory) (lhs lhs_size rhs rhs_size step : Z) : outcome (option Z) :=
  if lhs_size <? rhs_size then mret None else
  first ← load mem rhs;
  rneedle_loop (S (length mem)) mem lhs rhs rhs_size step first
    (lh_memory_get_last_step_offset lhs_size rhs_size step).
Definition lh_memory_rfind_step (mem : memory) (lhs lhs_size rhs rhs_size step : Z) : outcome (option Z) :=
  _ ← assert_ref lhs;
  _ ← assert_ref rhs;
  if lhs_size =? 0 then mret None else
  if rhs_size =? 0 then mret None else
  if step =? 0 then mret None else
  if (step =? 1) && negb (lh_memory_is_unbounded lhs lhs_size) then lh_memory_std_rfind mem lhs lhs_size rhs rhs_size else
  lh_memory_rfind_needle_by_step mem lhs lhs_size rhs rhs_size step.
Definition lh_memory_rfind (mem : memory) (lhs lhs_size rhs rhs_size : Z) : outcome (option Z) :=
  lh_memory_rfind_step mem lhs lhs_size rhs rhs_size 1.
Definition lh_memory_find (mem : memory) (lhs lhs_size rhs rhs_size : Z) : outcome (option Z) :=
  lh_memory_find_step mem lhs lhs_size rhs rhs_size 1.
Definition lh_memory_scan_step (mem : memory) (lhs rhs rhs_size step : Z) : outcome (option Z) :=
  lh_memory_find_step mem lhs (lh_memory_scan_bound lhs) rhs rhs_size step.
Definition lh_memory_scan (mem : memory) (lhs rhs rhs_size : Z) : outcome (option Z) :=
  lh_memory_scan_step mem lhs rhs rhs_size 1.
