(* ===== verification/BlockProofs.v ===== *)
(** * Blocks of memory: correctness

    A pattern fill repeats the pattern by each of its three ways, and the searches find
    the first and the last match on their grid by each of theirs, in a range of a known
    length and up to a match that is known to come. *)
From S2P Require Import Prelude Buffer Bytes Swar Memory MemoryProofs MemoryFindProofs Block.

(** ** Filling with a pattern *)

Section Pattern.
Context (m0 : memory) (Hm0 : is_bytes m0) (d s N k : Z).
Context (Hd : 0 < d) (HdN : d + N <= len m0) (Hs : 0 < s) (Hsk : s + k <= len m0).
Context (Hk : 2 <= k) (Hdis : s + k <= d \/ d + N <= s) (HN : 0 <= N < 2 ^ 63).
Notation f := (fun i => byte_at m0 (s + (i - d) mod k)).

Lemma mod_succ x : 0 <= x -> (x + 1) mod k = if x mod k + 1 =? k then 0 else x mod k + 1.
Proof using Hk.
  clear - Hk. intros Hx. pose proof (Z.div_mod x k ltac:(lia)). pose proof (Z.mod_pos_bound x k ltac:(lia)). symmetry.
  destruct (Z.eqb_spec (x mod k + 1) k).
  - apply Z.mod_unique_pos with (x / k + 1); nia.
  - apply Z.mod_unique_pos with (x / k); nia.
Qed.
Lemma rep_loop_spec fuel : forall i, 0 <= i <= 8 -> 8 - i < Z.of_nat fuel ->
  rep_loop fuel m0 s k i = Done (map (fun j => byte_at m0 (s + j mod k)) (seqZ i (8 - i))).
Proof using Hs Hsk Hk.
  induction fuel as [|fuel IH]; intros i Hi Hf; [lia|]. cbn [rep_loop].
  destruct (Z.ltb_spec i 8); [|by replace (8 - i) with 0 by lia].
  pose proof (Z.mod_pos_bound i k ltac:(lia)). rewrite byte_at_load, bind_done by lia.
  rewrite IH, bind_done by lia. rewrite (seqZ_cons i (8 - i)) by lia. cbn [map].
  by replace (Z.pred (8 - i)) with (8 - (i + 1)) by lia.
Qed.

(** Painted up to [out], with [n] left and the phase that belongs to [out]. *)
Definition in_phase (m : memory) (out n phase : Z) : Prop :=
  painted m0 f d out m /\ d <= out /\ out + n = d + N /\ 0 <= n /\ phase = (out - d) mod k.
Lemma pattern_bytes_spec stop fuel : forall m out n phase, in_phase m out n phase -> n < Z.of_nat fuel -> k < 2 ^ 63 ->
  exists m' out' n' phase', pattern_bytes fuel stop m s k out n phase = Done (m', out', n', phase') /\
    in_phase m' out' n' phase' /\ (n' = 0 \/ stop out' phase' = true).
Proof using Hm0 Hd HdN Hs Hsk Hk Hdis.
  induction fuel as [|fuel IH]; intros m out n phase (Hp & Ho & He & Hn & Hph) Hf Hk63; [lia|]. cbn [pattern_bytes].
  rewrite Z.gtb_ltb. destruct (Z.ltb_spec 0 n); cbn [andb].
  2:{ exists m, out, n, phase. split_and!; try done. left. lia. }
  destruct (stop out phase) eqn:Es; cbn [negb]; [exists m, out, n, phase; split_and!; try done; by right|].
  pose proof (Z.mod_pos_bound (out - d) k ltac:(lia)) as Hb.
  rewrite (byte_source m0 f d out m (s + phase)), bind_done by (done || lia).
  destruct (put_paint m0 f d out m out (byte_at m0 (s + phase)) Hp) as (m' & -> & P);
    [by apply byte_at_u8|lia|lia|lia|by rewrite Hph|]. rewrite bind_done. cbv zeta. rewrite u64_id by zb.
  replace (Z.min d out) with d in P by lia. replace (Z.max out (out + 1)) with (out + 1) in P by lia.
  apply IH; [|lia|done]. split_and!; [done|lia..|].
  replace (out + 1 - d) with (out - d + 1) by lia. rewrite mod_succ by lia. by rewrite Hph.
Qed.
Notation rep := (le_word (map (fun j => byte_at m0 (s + j mod k)) (seqZ 0 8))).
Lemma pattern_words_spec fuel : forall m out n, in_phase m out n 0 -> out mod 8 = 0 -> 8 mod k = 0 -> n < Z.of_nat fuel ->
  exists m' out' n', pattern_words fuel m rep out n = Done (m', out', n') /\ in_phase m' out' n' 0.
Proof using Hm0 Hd HdN Hk Hsk HN.
  induction fuel as [|fuel IH]; intros m out n (Hp & Ho & He & Hn & Hph) Hal Hk8 Hf; [lia|]. cbn [pattern_words].
  rewrite Z.geb_leb. destruct (Z.leb_spec 8 n); [|by exists m, out, n].
  rewrite word_store_aligned by done.
  destruct (store_paint m0 f 8 d out m out (map (fun j => byte_at m0 (s + j mod k)) (seqZ 0 8)) Hp) as (m' & -> & P);
    [apply Forall_map, Forall_true; intros; by apply byte_at_u8|by rewrite length_map, length_seqZ|lia|lia|lia|lia| |].
  { intros i Hi. unfold byte_at at 1. rewrite nth_lookup, list_lookup_fmap, lookup_seqZ_lt by lia. cbn. f_equal.
    f_equal. replace (0 + Z.of_nat (Z.to_nat i)) with i by lia. replace (out + i - d) with (out - d + i) by lia.
    by rewrite (Zplus_mod (out - d) i), <-Hph, Z.add_0_l, Zmod_mod. }
  rewrite bind_done. replace (Z.min d out) with d in P by lia.
  replace (Z.max out (out + Z.of_nat 8)) with (out + 8) in P by lia.
  apply IH; [|zdm|done|lia]. split_and!; [done|lia..|].
  replace (out + 8 - d) with (out - d + 8) by lia. by rewrite Zplus_mod, <-Hph, Hk8.
Qed.
Lemma set_pattern_word_spec : k <= 8 -> 8 mod k = 0 ->
  exists m', set_pattern_word m0 d N s k = Done m' /\ painted m0 f d (d + N) m'.
Proof using Hm0 Hd HdN Hs Hsk Hk Hdis HN.
  intros Hk8 Hkd. unfold set_pattern_word. rewrite rep_loop_spec, bind_done by lia. cbv zeta.
  replace (8 - 0) with 8 by lia.
  destruct (pattern_bytes_spec (fun out phase => (Z.land out (8 - 1) =? 0) && (phase =? 0)) (S (Z.to_nat N)) m0 d N 0)
    as (m1 & out1 & n1 & ph1 & -> & P1 & Hs1); [|lia|lia|].
  { split_and!; [by apply painted_none|lia..|]. by rewrite Z.sub_diag, Zmod_0_l. }
  rewrite bind_done. pose proof P1 as (_ & ? & ? & ? & _).
  assert (exists m2 out2 n2, pattern_words (S (Z.to_nat N)) m1 rep out1 n1 = Done (m2, out2, n2) /\
    in_phase m2 out2 n2 ph1) as (m2 & out2 & n2 & -> & P2).
  { destruct Hs1 as [->|Hs1].
    - exists m1, out1, 0. by split.
    - apply andb_true_iff in Hs1 as [Ha Hph]. rewrite Z.eqb_eq in Ha, Hph. subst ph1.
      change (8 - 1) with (Z.ones 3) in Ha. rewrite Z.land_ones in Ha by lia.
      apply pattern_words_spec; (done || lia). }
  rewrite bind_done. pose proof P2 as (_ & ? & ? & ? & _).
  destruct (pattern_bytes_spec (fun _ _ => false) (S (Z.to_nat N)) m2 out2 n2 ph1 P2)
    as (m3 & out3 & n3 & ph3 & -> & (Hp3 & _ & He3 & _) & [->|]); [lia|lia| |done].
  rewrite bind_done. exists m3. split; [done|]. by replace (d + N) with out3 by lia.
Qed.

(** ** Doubling *)

Lemma std_copy_paint lo hi m dst src n : painted m0 f lo hi m -> 0 < dst -> 0 < src -> 0 <= n ->
  dst + n <= len m0 -> src + n <= len m0 -> unread dst src n -> lo <= dst + n -> dst <= hi ->
  (forall i, 0 <= i < n -> byte_at m (src + i) = f (dst + i)) ->
  exists m', lh_memory_std_copy m dst src n = Done (m', dst + n) /\
    painted m0 f (Z.min lo dst) (Z.max hi (dst + n)) m'.
Proof using.
  intros Hp Hdst Hsrc Hn Hdn Hsn Hu Hlo Hhi Hf. pose proof Hp as (Hl & Hb & _).
  rewrite std_copy_contract by (done || lia).
  assert (len (bytes_at m src (Z.to_nat n)) = n) as Hlb by (rewrite bytes_at_length; lia).
  destruct (write_paint m0 f lo hi m dst (bytes_at m src (Z.to_nat n)) Hp) as (m' & Hc & P);
    [by apply bytes_at_bytes|lia|lia|lia|lia| |].
  { intros i Hi. rewrite bytes_at_byte by lia. apply Hf. lia. }
  exists m'. rewrite Hlb in P, Hc. split; [|done].
  rewrite copy_ok in Hc |- * by (rewrite ?length_drop; lia). injection Hc as <-. rewrite bind_done.
  unfold bytes_at. by rewrite take_take, Nat.min_id.
Qed.
Lemma double_loop_spec fuel : forall m a, painted m0 f d (d + a) m -> 0 < a <= N -> (a mod k = 0 \/ a = N) ->
  N - a < Z.of_nat fuel ->
  exists m', double_loop fuel m d N a = Done m' /\ painted m0 f d (d + N) m'.
Proof using Hm0 Hd HdN Hs Hsk Hk Hdis.
  induction fuel as [|fuel IH]; intros m a Hp Ha Hak Hf; [lia|]. cbn [double_loop].
  destruct (Z.ltb_spec a N); [|exists m; split; [done|by replace (d + N) with (d + a) by lia]].
  destruct Hak as [Hak|]; [|lia]. cbv zeta. set (chunk := Z.min a (N - a)).
  destruct (std_copy_paint d (d + a) m (d + a) d chunk Hp) as (m' & -> & P); [lia|lia|lia|lia|lia|right; lia|lia|lia| |].
  { intros i Hi. pose proof Hp as (Hl & _ & Hpt). rewrite Hpt by lia.
    rewrite (proj2 (Z.leb_le _ _)), (proj2 (Z.ltb_lt _ _)) by lia. cbn [andb]. f_equal. f_equal.
    replace (d + i - d) with i by lia. replace (d + a + i - d) with (a + i) by lia.
    by rewrite (Zplus_mod a i), Hak, Z.add_0_l, Zmod_mod. }
  rewrite bind_done. replace (Z.min d (d + a)) with d in P by lia.
  replace (Z.max (d + a) (d + a + chunk)) with (d + (a + chunk)) in P by lia.
  apply IH; [done|lia| |lia]. destruct (decide (chunk = N - a)) as [E|E]; [right; lia|left].
  assert (chunk = a) as -> by lia. by rewrite Zplus_mod, Hak.
Qed.
Lemma set_pattern_double_spec : 0 < N ->
  exists m', set_pattern_double m0 d N s k = Done m' /\ painted m0 f d (d + N) m'.
Proof using Hm0 Hd HdN Hs Hsk Hk Hdis.
  intros HN0. unfold set_pattern_double. cbv zeta. set (a := Z.min k N).
  destruct (std_copy_paint d d m0 d s a) as (m' & -> & P); [by apply painted_none|lia|lia|lia|lia|lia| |lia|lia| |].
  { unfold unread. lia. }
  { intros i Hi. f_equal. f_equal. replace (d + i - d) with i by lia. symmetry. apply Z.mod_small. lia. }
  rewrite bind_done. replace (Z.min d d) with d in P by lia. replace (Z.max d (d + a)) with (d + a) in P by lia.
  apply double_loop_spec; [done|lia| |lia]. destruct (decide (a = N)); [by right|left].
  assert (a = k) as -> by lia. apply Z_mod_same_full.
Qed.
End Pattern.

(** Filling memory with a pattern repeats the pattern: byte [i] of the destination is byte
    [i mod src_size] of the pattern and nothing else changes, whichever of the three ways the
    code takes (one byte; a pattern whose length divides a word, stored by words from the
    first boundary at which the pattern starts anew; or copying what is filled onto what
    follows, twice as much each time).  The call returns the end of the destination, or the
    null pointer when it or the pattern is empty, and then writes nothing. *)
Theorem set_pattern_repeats m dst n src k :
  is_bytes m -> 0 < dst -> 0 < src -> 0 <= n < 2 ^ 63 -> 0 <= k -> dst + n <= len m -> src + k <= len m ->
  src + k <= dst \/ dst + n <= src ->
  lh_memory_set_pattern m dst n src k
  = Done (if (n =? 0) || (k =? 0) then (m, 0)
          else (with_bytes m dst (map (fun i => byte_at m (src + i mod k)) (seqZ 0 n)), dst + n)).
Proof.
  intros Hm Hd Hs Hn Hk Hdn Hsk Hdis. unfold lh_memory_set_pattern. rewrite !assert_ref_ok, !bind_done by done.
  destruct (Z.eqb_spec n 0) as [->|Hn0]; [done|]. destruct (Z.eqb_spec k 0) as [->|Hk0]; [done|]. cbn [orb].
  assert (forall m', painted m (fun i => byte_at m (src + (i - dst) mod k)) dst (dst + n) m' ->
    m' = with_bytes m dst (map (fun i => byte_at m (src + i mod k)) (seqZ 0 n))) as Hblit.
  { intros m' Hp. set (bs := map _ (seqZ 0 n)).
    assert (len bs = n) as Hlb by (unfold bs; rewrite length_map, length_seqZ; lia).
    pose proof (painted_blit m dst bs (fun i => byte_at m (src + (i - dst) mod k)) Hm) as Hbl. rewrite Hlb in Hbl.
    unfold with_bytes. rewrite Hlb. apply Hbl; try done; try lia.
    - apply Forall_map, Forall_true. intros. by apply byte_at_u8.
    - intros i Hi. unfold bs, byte_at at 1. rewrite nth_lookup, list_lookup_fmap, lookup_seqZ_lt by lia. cbn.
      f_equal. f_equal. f_equal. lia. }
  destruct (Z.eqb_spec k 1) as [->|Hk1].
  { rewrite byte_at_load, bind_done by lia. unfold lh_memory_std_set. rewrite assert_ref_ok, bind_done by done.
    destruct (set_bytes_paint m Hm dst (byte_at m src) n) as (m' & -> & Hp); [by apply byte_at_u8|lia..|].
    rewrite bind_done. rewrite (Hblit m'); [done|]. eapply painted_ext; [|exact Hp]. intros i Hi.
    by rewrite Z.mod_1_r, Z.add_0_r. }
  destruct ((k <=? 8) && (8 mod k =? 0)) eqn:Ek.
  - apply andb_true_iff in Ek as [Hk8 Hkd]. rewrite Z.leb_le in Hk8. rewrite Z.eqb_eq in Hkd.
    destruct (set_pattern_word_spec m Hm dst src n k) as (m' & -> & Hp); [lia..|done|]. by rewrite bind_done, (Hblit m').
  - destruct (set_pattern_double_spec m Hm dst src n k) as (m' & -> & Hp); [lia..|]. by rewrite bind_done, (Hblit m').
Qed.
Lemma set_pattern_repeats_witness :
  lh_memory_set_pattern (seqZ 0 40) 11 21 2 4
  = Done (seqZ 0 11 ++ [2; 3; 4; 5; 2; 3; 4; 5; 2; 3; 4; 5; 2; 3; 4; 5; 2; 3; 4; 5; 2] ++ seqZ 32 8, 32).
Proof.
  refine (eq_trans (set_pattern_repeats (seqZ 0 40) 11 21 2 4 _ _ _ _ _ _ _ _) _);
    try (vm_compute; done); try lia. repeat constructor; zb.
Defined.

(** ** Searching on a grid *)

Section Grid.
Context (base size k step : Z) (test : Z -> bool).
Context (Hstep : 0 < step < 2 ^ 64) (Hsize : 0 <= size < 2 ^ 64) (Hk : 1 <= k).

(** A place of the grid where the run is. *)
Definition on_grid (off : Z) : bool := (off mod step =? 0) && test off.

(** The loops over the grid, with what they test. *)
Fixpoint step_loop (fuel : nat) (try : Z -> outcome bool) (off : Z) : outcome (option Z) :=
  match fuel with
  | O => Undef
  | S fuel =>
    if lh_memory_size_rest size off >=? k then
      same ← try off;
      if same : bool then mret (Some (base + off)) else step_loop fuel try (u64 (off + step))
    else mret None
  end.

Lemma off_grid off i : off mod step = 0 -> off < i < off + step -> on_grid i = false.
Proof using Hstep.
  intros Ho Hi. unfold on_grid. rewrite (proj2 (Z.eqb_neq _ _)); [done|]. intros E.
  pose proof (Z.div_mod off step ltac:(lia)) as D1. pose proof (Z.div_mod i step ltac:(lia)) as D2.
  rewrite Ho, Z.add_0_r in D1. rewrite E, Z.add_0_r in D2.
  assert (off / step < i / step) by (apply (Z.mul_lt_mono_pos_l step); lia).
  assert (i / step < off / step + 1) by (apply (Z.mul_lt_mono_pos_l step); lia). lia.
Qed.
Lemma next_on_grid off : off mod step = 0 -> (off + step) mod step = 0.
Proof using. intros Ho. by rewrite Zplus_mod, Ho, Z_mod_same_full. Qed.
Lemma rest_enough off : 0 <= off -> off + k <= size -> (lh_memory_size_rest size off >=? k) = true.
Proof using Hsize Hk.
  intros Ho Hok. unfold lh_memory_size_rest. rewrite (proj2 (Z.leb_le _ _)), u64_id, Z.geb_leb by (change (2 ^ 64) with 18446744073709551616 in *; zb).
  apply Z.leb_le. lia.
Qed.
Lemma rest_short off : 0 <= off -> size < off + k -> (lh_memory_size_rest size off >=? k) = false.
Proof using Hsize Hk.
  intros Ho Hok. unfold lh_memory_size_rest. rewrite Z.geb_leb. apply Z.leb_gt.
  destruct (Z.leb_spec off size); [rewrite u64_id by (change (2 ^ 64) with 18446744073709551616 in *; zb)|]; lia.
Qed.

(** A match that is known to come is found, and nothing beyond it is looked at. *)
Lemma step_loop_hit try off0 fuel : on_grid off0 = true -> 0 <= off0 -> off0 + k <= size ->
  (forall i, 0 <= i < off0 -> on_grid i = false) ->
  (forall off, 0 <= off <= off0 -> try off = Done (test off)) ->
  forall off, off mod step = 0 -> 0 <= off <= off0 -> off0 - off < Z.of_nat fuel ->
  step_loop fuel try off = Done (Some (base + off0)).
Proof using Hstep Hsize Hk.
  intros Hg H0 Hfit Hno Htry. induction fuel as [|fuel IH]; intros off Hgr Ho Hf; [lia|]. cbn [step_loop].
  rewrite rest_enough, Htry, bind_done by lia. destruct (decide (off = off0)) as [->|Hne].
  { unfold on_grid in Hg. apply andb_true_iff in Hg as [_ ->]. done. }
  pose proof (Hno off ltac:(lia)) as Hn. unfold on_grid in Hn. rewrite (proj2 (Z.eqb_eq _ _) Hgr) in Hn.
  cbn [andb] in Hn. rewrite Hn.
  assert (off + step <= off0) as Hnext.
  { destruct (decide (off + step <= off0)); [done|]. rewrite (off_grid off off0) in Hg by (done || lia). done. }
  rewrite u64_id by (change (2 ^ 64) with 18446744073709551616 in *; zb).
  apply IH; [by apply next_on_grid|lia|lia].
Qed.
(** In a range of a known length the loop is a search. *)
Lemma step_loop_search try fuel : size < 2 ^ 63 ->
  (forall off, 0 <= off <= size - k -> try off = Done (test off)) -> size < Z.of_nat fuel ->
  step_loop fuel try 0 = Done (Z.add base <$> first_where on_grid (size - k + 1)).
Proof using Hstep Hsize Hk.
  intros Hs63 Htry Hf. pose proof (first_where_inv on_grid (size - k + 1)) as Hinv.
  destruct (first_where on_grid (size - k + 1)) as [off0|].
  - destruct Hinv as (Hr & Hg & Hno). cbn. apply step_loop_hit; try done; try lia.
    intros off Ho. apply Htry. lia.
  - cbn. assert (forall fuel off, off mod step = 0 -> 0 <= off -> (off = 0 \/ step <= off) -> (off = 0 \/ off < 2 ^ 64) ->
      Z.max 0 (size - off) < Z.of_nat fuel -> step_loop fuel try off = Done None) as H;
      [|apply H; [by rewrite Zmod_0_l|lia|by left|by left|lia]].
    clear Hf fuel. induction fuel as [|fuel IH]; intros off Hgr Ho Hst Hw Hf; [lia|]. cbn [step_loop].
    destruct (decide (off + k <= size)) as [Hfit|Hover]; [|rewrite rest_short by lia; done].
    rewrite rest_enough, Htry, bind_done by lia.
    pose proof (Hinv off ltac:(lia)) as Hn. unfold on_grid in Hn. rewrite (proj2 (Z.eqb_eq _ _) Hgr) in Hn.
    cbn [andb] in Hn. rewrite Hn.
    rewrite u64_id by (change (2 ^ 64) with 18446744073709551616 in *; change (2 ^ 63) with 9223372036854775808 in *; zb).
    apply IH; [by apply next_on_grid|lia|right; lia| |lia].
    right. change (2 ^ 64) with 18446744073709551616 in *; change (2 ^ 63) with 9223372036854775808 in *. lia.
Qed.
End Grid.

Lemma same_at_cons m p q k : 1 <= k -> 0 <= p -> p + k <= len m -> 0 <= q -> q + k <= len m ->
  byte_at m p <> byte_at m q -> same_at m p q k = false.
Proof.
  intros Hk Hp Hpk Hq Hqk Hne. destruct (same_at m p q k) eqn:E; [|done].
  rewrite same_at_spec in E by lia. specialize (E 0 ltac:(lia)). by rewrite !Z.add_0_r in E.
Qed.
Lemma is_equal_spec m p q k : is_bytes m -> 1 <= k -> 0 < p -> p + k <= len m -> 0 < q -> q + k <= len m ->
  lh_memory_is_equal m p q k = Done (same_at m p q k).
Proof.
  intros Hm Hk Hp Hpk Hq Hqk. unfold lh_memory_is_equal, lh_memory_std_compare. rewrite !assert_ref_ok, !bind_done by done.
  rewrite compare_bytes_spec', bind_done by (done || lia). unfold mret, outcome_ret. f_equal. apply eq_true_iff_eq.
  rewrite same_at_spec by lia. pose proof (first_where_inv (differ m p q) k) as Hinv.
  destruct (first_where (differ m p q) k) as [j|]; cbn.
  - destruct Hinv as (Hj & Hd & _). split; [done|]. intros H. unfold differ in Hd. rewrite (H j Hj), Z.eqb_refl in Hd. done.
  - split; [|done]. intros _ i Hi. specialize (Hinv i Hi). unfold differ in Hinv.
    by apply negb_false_iff, Z.eqb_eq in Hinv.
Qed.
Lemma same_at_1 m p q : 0 <= p < len m -> 0 <= q < len m -> same_at m p q 1 = (byte_at m p =? byte_at m q).
Proof.
  intros Hp Hq. apply eq_true_iff_eq. rewrite same_at_spec, Z.eqb_eq by lia. split.
  - intros H. specialize (H 0 ltac:(lia)). by rewrite !Z.add_0_r in H.
  - intros H i Hi. replace i with 0 by lia. by rewrite !Z.add_0_r.
Qed.

(** The three loops of the code are such a loop. *)
Section Loops.
Context (m : memory) (base size : Z).
Lemma byte_by_step_loop byte step fuel : forall off,
  byte_by_step fuel m base size byte step off
  = step_loop base size 1 step fuel (fun off => b ← load m (base + off); mret (b =? byte)) off.
Proof using.
  induction fuel as [|fuel IH]; intros off; [done|]. cbn [byte_by_step step_loop].
  destruct (_ >=? 1); [|done]. destruct (load m (base + off)); [|done..]. rewrite !bind_done.
  destruct (_ =? byte); [done|apply IH].
Qed.
Lemma unit_by_step_loop unit_ k fuel : forall off,
  unit_by_step fuel m base size unit_ k off
  = step_loop base size k k fuel (fun off => lh_memory_is_equal m (base + off) unit_ k) off.
Proof using.
  induction fuel as [|fuel IH]; intros off; [done|]. cbn [unit_by_step step_loop].
  destruct (_ >=? k); [|done]. destruct (lh_memory_is_equal _ _ _ _) as [[]| |]; try done. apply IH.
Qed.
Lemma needle_by_step_loop rhs k step first fuel : forall off,
  needle_by_step fuel m base size rhs k step first off
  = step_loop base size k step fuel (fun off =>
      b ← load m (base + off);
      if b =? first then p ← lh_memory_compare m (base + off) (lh_memory_size_rest size off) rhs k; mret (is_null p)
      else mret false) off.
Proof using.
  induction fuel as [|fuel IH]; intros off; [done|]. cbn [needle_by_step step_loop].
  destruct (_ >=? k); [|done]. destruct (load m (base + off)) as [b| |]; [|done..]. rewrite !bind_done.
  destruct (b =? first); [|rewrite !bind_done; apply IH].
  destruct (lh_memory_compare _ _ _ _ _) as [p| |]; [|done..]. rewrite !bind_done. destruct (is_null p); [done|apply IH].
Qed.
End Loops.

(** What is searched for at the places of the grid. *)
Definition run_on_grid (m : memory) (lhs rhs k step off : Z) : bool :=
  on_grid step (fun off => same_at m (lhs + off) rhs k) off.

Section FindStep.
Context (m : memory) (Hm : is_bytes m) (lhs size rhs k step : Z).
Context (Hl : 0 < lhs) (Hr : 0 < rhs) (Hk : 1 <= k) (Hrk : rhs + k <= len m).
Context (Hstep : 0 < step < 2 ^ 64) (Hsize : 0 <= size < 2 ^ 64).
Notation grid := (run_on_grid m lhs rhs k step).

(** The tests of the three loops are the comparison. *)
Lemma try_byte off : k = 1 -> 0 <= off -> lhs + off + 1 <= len m ->
  (b ← load m (lhs + off); mret (b =? byte_at m rhs)) = Done (same_at m (lhs + off) rhs k).
Proof using Hl Hr Hk Hrk.
  intros -> Ho Hof. rewrite byte_at_load, bind_done by lia. by rewrite same_at_1 by lia.
Qed.
Lemma try_needle off : 0 <= off -> off + k <= size -> lhs + off + k <= len m ->
  (b ← load m (lhs + off);
   if b =? byte_at m rhs
   then p ← lh_memory_compare m (lhs + off) (lh_memory_size_rest size off) rhs k; mret (is_null p)
   else mret false) = Done (same_at m (lhs + off) rhs k).
Proof using Hm Hl Hr Hk Hrk Hsize.
  intros Ho Hos Hof. rewrite byte_at_load, bind_done by lia.
  destruct (Z.eqb_spec (byte_at m (lhs + off)) (byte_at m rhs)) as [E|Hne].
  - unfold lh_memory_compare. cbv zeta. pose proof (rest_enough size k Hsize Hk off Ho Hos) as Hre.
    rewrite Z.geb_leb, Z.leb_le in Hre. rewrite Z.min_r by lia. by apply is_equal_spec; try lia.
  - by rewrite same_at_cons by (done || lia).
Qed.

(** The loops of a search in the whole memory behind a pointer: which one, and that it
    finds a match that comes. *)
Lemma loops_hit off0 : grid off0 = true -> 0 <= off0 -> off0 + k <= size -> lhs + off0 + k <= len m ->
  (forall i, 0 <= i < off0 -> grid i = false) ->
  (if k =? 1 then b ← load m rhs; lh_memory_find_byte_by_step m lhs size b step else
   if k =? step then lh_memory_find_unit_by_step m lhs size rhs k else
   lh_memory_find_needle_by_step m lhs size rhs k step) = Done (Some (lhs + off0)).
Proof using Hm Hl Hr Hk Hrk Hstep Hsize.
  intros Hg H0 Hfit Hmem Hno. destruct (Z.eqb_spec k 1) as [E1|Hk1].
  { rewrite byte_at_load, bind_done by lia. unfold lh_memory_find_byte_by_step. rewrite byte_by_step_loop.
    eapply (step_loop_hit lhs size 1 step (fun off => same_at m (lhs + off) rhs k)); try done; try lia.
    intros off Ho. apply try_byte; lia. }
  destruct (Z.eqb_spec k step) as [Es|Hks].
  { unfold lh_memory_find_unit_by_step. rewrite unit_by_step_loop.
    eapply (step_loop_hit lhs size k k (fun off => same_at m (lhs + off) rhs k)); try done; try lia.
    - by rewrite Es at 1.
    - intros i Hi. rewrite Es at 1. by apply Hno.
    - intros off Ho. apply is_equal_spec; (done || lia). }
  unfold lh_memory_find_needle_by_step. rewrite byte_at_load, bind_done, needle_by_step_loop by lia.
  eapply (step_loop_hit lhs size k step (fun off => same_at m (lhs + off) rhs k)); try done; try lia.
  intros off Ho. apply try_needle; lia.
Qed.
Lemma loops_search : size < 2 ^ 63 -> lhs + size <= len m ->
  (if k =? 1 then b ← load m rhs; lh_memory_find_byte_by_step m lhs size b step else
   if k =? step then lh_memory_find_unit_by_step m lhs size rhs k else
   lh_memory_find_needle_by_step m lhs size rhs k step)
  = Done (Z.add lhs <$> first_where grid (size - k + 1)).
Proof using Hm Hl Hr Hk Hrk Hstep Hsize.
  intros Hs63 Hmem. destruct (Z.eqb_spec k 1) as [E1|Hk1].
  { rewrite byte_at_load, bind_done by lia. unfold lh_memory_find_byte_by_step. rewrite byte_by_step_loop.
    rewrite (step_loop_search lhs size 1 step (fun off => same_at m (lhs + off) rhs k)); try done; try lia.
    - by rewrite E1.
    - intros off Ho. apply try_byte; lia. }
  destruct (Z.eqb_spec k step) as [Es|Hks].
  { unfold lh_memory_find_unit_by_step. rewrite unit_by_step_loop.
    rewrite (step_loop_search lhs size k k (fun off => same_at m (lhs + off) rhs k)); try done; try lia.
    - by rewrite Es at 1.
    - intros off Ho. apply is_equal_spec; (done || lia). }
  unfold lh_memory_find_needle_by_step. rewrite byte_at_load, bind_done, needle_by_step_loop by lia.
  rewrite (step_loop_search lhs size k step (fun off => same_at m (lhs + off) rhs k)); try done; try lia.
  intros off Ho. apply try_needle; lia.
Qed.

(** The kernel's search, which resumes at the next unit after a hit between units. *)
Lemma unit_loop_spec : size < 2 ^ 63 -> lhs + size <= len m -> k = step -> forall fuel off,
  off mod k = 0 -> 0 <= off <= size + k -> (forall i, 0 <= i < off -> grid i = false) -> Z.max 0 (size - off) < Z.of_nat fuel ->
  unit_loop fuel m lhs size rhs k off = Done (Z.add lhs <$> first_where grid (size - k + 1)).
Proof using Hm Hl Hr Hk Hrk Hstep Hsize.
  intros Hs63 Hmem Es. assert (2 ^ 63 = 9223372036854775808) as E63 by done.
  assert (2 ^ 64 = 18446744073709551616) as E64 by done.
  induction fuel as [|fuel IH]; intros off Hgr Ho Hno Hf; [lia|]. cbn [unit_loop].
  destruct (decide (off + k <= size)) as [Hfit|Hover].
  2:{ rewrite rest_short by (done || lia). rewrite first_where_none; [done|]. intros i Hi. apply Hno. lia. }
  rewrite rest_enough by (done || lia).
  assert (lh_memory_size_rest size off = size - off) as ->.
  { unfold lh_memory_size_rest. rewrite (proj2 (Z.leb_le _ _)), u64_id by zb. done. }
  rewrite (std_find_spec m (lhs + off) (size - off) rhs k) by (done || lia).
  rewrite bind_done, (proj2 (Z.eqb_neq k 0)) by lia.
  pose proof (first_where_inv (fun o => same_at m (lhs + off + o) rhs k) (size - off - k + 1)) as Hinv.
  assert (forall i o, off <= i -> i - off = o -> same_at m (lhs + off + o) rhs k = false -> grid i = false) as Hgf.
  { intros i o Hi <- Hf'. unfold run_on_grid, on_grid. replace (lhs + off + (i - off)) with (lhs + i) in Hf' by lia.
    rewrite Hf'. apply andb_false_r. }
  destruct (first_where (fun o => same_at m (lhs + off + o) rhs k) (size - off - k + 1)) as [o|]; cbn.
  2:{ rewrite first_where_none; [done|]. intros i Hi. destruct (decide (i < off)); [apply Hno; lia|].
      apply (Hgf i (i - off)); [lia|done|]. apply Hinv. lia. }
  destruct Hinv as (Hor & Hsame & Hbefore). rewrite u64_id by zb. replace (lhs + off + o - lhs) with (off + o) by lia.
  assert (forall i, 0 <= i < off + o -> grid i = false) as Hno'.
  { intros i Hi. destruct (decide (i < off)); [apply Hno; lia|]. apply (Hgf i (i - off)); [lia|done|]. apply Hbefore. lia. }
  pose proof (Z.div_mod (off + o) k ltac:(lia)) as Hdm. pose proof (Z.mod_pos_bound (off + o) k ltac:(lia)) as Hmb.
  destruct (Z.eqb_spec ((off + o) mod k) 0) as [Ez|Hnz].
  - rewrite (first_where_some grid _ (off + o)); [cbn; unfold mret, outcome_ret; do 2 f_equal; lia|lia| |done].
    unfold run_on_grid, on_grid. rewrite <-Es, Ez. by replace (lhs + (off + o)) with (lhs + off + o) by lia.
  - rewrite u64_id by zb. set (q := off + o - (off + o) mod k).
    assert (q mod k = 0) as Hq by (unfold q; rewrite Zminus_mod, Zmod_mod, Z.sub_diag; apply Zmod_0_l).
    apply IH; [by rewrite Zplus_mod, Hq, Z_mod_same_full, Zmod_0_l|unfold q; lia| |unfold q; lia].
    intros i Hi. destruct (decide (i < off + o)); [apply Hno'; lia|].
    apply (off_grid step _ Hstep q); [by rewrite <-Es|unfold q in *; lia].
Qed.
End FindStep.

(** Searching memory on a grid finds the first place of the grid that holds the run, by each
    of its five ways: in a range of a known length the byte search, the search by units that
    resumes behind a hit between two units, or a walk over the grid, where no match means
    none; in the whole memory behind a pointer, without knowing its end, the walks stop at
    the first match and look at nothing beyond it. *)
Theorem find_step_is_grid_search m lhs rhs k step :
  is_bytes m -> 0 < lhs -> 0 < rhs -> 1 <= k -> rhs + k <= len m -> 0 < step < 2 ^ 64 -> len m < 2 ^ 63 ->
  let grid := run_on_grid m lhs rhs k step in
  (forall size, 0 <= size -> lhs + size <= len m ->
     lh_memory_find_step m lhs size rhs k step = Done (Z.add lhs <$> first_where grid (size - k + 1))) /\
  (forall off, 0 <= off -> lhs + off + k <= len m -> grid off = true -> (forall i, 0 <= i < off -> grid i = false) ->
     lh_memory_scan_step m lhs rhs k step = Done (Some (lhs + off))).
Proof.
  intros Hm Hl Hr Hk Hrk Hst Hlen. cbv zeta. assert (2 ^ 63 = 9223372036854775808) as E63 by done.
  assert (2 ^ 64 = 18446744073709551616) as E64 by done.
  assert (lhs <= len m -> lh_memory_scan_bound lhs = 18446744073709551615 - lhs) as Eb
    by (intros; unfold lh_memory_scan_bound; rewrite u64_id by zb; zb).
  split.
  - intros size Hs Hfit. unfold lh_memory_find_step. rewrite !assert_ref_ok, !bind_done by done.
    destruct (Z.eqb_spec size 0) as [->|Hs0]; [rewrite first_where_none by (intros; lia); done|].
    rewrite (proj2 (Z.eqb_neq k 0)), (proj2 (Z.eqb_neq step 0)) by lia.
    unfold lh_memory_is_unbounded. rewrite Eb, (proj2 (Z.eqb_neq size _)) by lia. cbn [negb andb].
    destruct (Z.eqb_spec step 1) as [->|Hs1].
    { rewrite (std_find_spec m lhs size rhs k) by (done || lia).
      rewrite (proj2 (Z.eqb_neq k 0)) by lia. do 2 f_equal. apply first_where_ext. intros i.
      unfold run_on_grid, on_grid. by rewrite Z.mod_1_r. }
    pose proof (loops_search m Hm lhs size rhs k step) as Hw.
    destruct (Z.eqb_spec k step) as [Es|Hks]; [|apply Hw; (done || lia)].
    unfold lh_memory_find_unit. apply unit_loop_spec; try done; try lia.
  - intros off Ho Hfit Hg Hno. unfold lh_memory_scan_step, lh_memory_find_step. rewrite !assert_ref_ok, !bind_done by done.
    unfold lh_memory_is_unbounded. rewrite Z.eqb_refl, !Eb by lia.
    rewrite (proj2 (Z.eqb_neq (18446744073709551615 - lhs) 0)) by lia.
    rewrite (proj2 (Z.eqb_neq k 0)), (proj2 (Z.eqb_neq step 0)) by lia. cbn [negb andb].
    apply loops_hit; (done || lia).
Qed.
Lemma find_step_is_grid_search_witness :
  let m := 0 :: [7; 1; 2; 7; 7; 1; 2; 9; 1; 2; 3; 4] in
  lh_memory_find_step m 3 10 9 2 2 = Done (Some 9) /\ lh_memory_scan_step m 3 9 2 3 = Done (Some 6).
Proof.
  intros m. destruct (find_step_is_grid_search m 3 9 2 2) as [E _]; [unfold m; repeat constructor; zb|vm_compute; done..|].
  destruct (find_step_is_grid_search m 3 9 2 3) as [_ E2]; [unfold m; repeat constructor; zb|vm_compute; done..|].
  split; [rewrite E by (vm_compute; done); vm_compute; done|].
  apply (E2 3); [lia|vm_compute; done|vm_compute; done|].
  intros i Hi. assert (i = 0 \/ i = 1 \/ i = 2) as [-> | [-> | ->]] by lia; vm_compute; done.
Defined.

(** ** From the end *)

Lemma power_of_two_spec n : 0 < n < 2 ^ 64 -> lh_math_is_power_of_two n = true -> exists j, 0 <= j < 64 /\ n = 2 ^ j.
Proof.
  intros Hn H. unfold lh_math_is_power_of_two in H. apply andb_true_iff in H as [_ H%Z.eqb_eq].
  rewrite u64_id in H by (change (2 ^ 64) with 18446744073709551616 in *; zb).
  set (j := Z.log2 n). pose proof (Z.log2_spec n ltac:(lia)) as [Hlo Hhi]. fold j in Hlo, Hhi.
  pose proof (Z.log2_nonneg n). exists j. split.
  { split; [done|]. apply (Z.pow_lt_mono_r_iff 2); lia. }
  destruct (decide (n = 2 ^ j)); [done|]. exfalso.
  assert (Z.testbit (Z.land n (n - 1)) j = true) as Hb; [|by rewrite H, Z.bits_0 in Hb].
  rewrite Z.land_spec, andb_true_iff. rewrite Z.pow_succ_r in Hhi by done. split.
  - apply Z.testbit_true; [done|]. rewrite <-(Z.div_unique n (2 ^ j) 1 (n - 2 ^ j)) by lia. done.
  - apply Z.testbit_true; [done|]. rewrite <-(Z.div_unique (n - 1) (2 ^ j) 1 (n - 1 - 2 ^ j)) by lia. done.
Qed.
Lemma last_step_offset_spec size k step : 0 <= k <= size -> size < 2 ^ 63 -> 0 < step < 2 ^ 64 ->
  lh_memory_get_last_step_offset size k step = size - k - (size - k) mod step.
Proof.
  intros Hk Hs Hst. assert (2 ^ 63 = 9223372036854775808) as E63 by done.
  assert (2 ^ 64 = 18446744073709551616) as E64 by done.
  unfold lh_memory_get_last_step_offset. rewrite (u64_id (size - k)) by zb.
  destruct (lh_math_is_power_of_two step) eqn:Ep.
  - apply power_of_two_spec in Ep as (j & Hj & ->); [|done]. rewrite (u64_id (2 ^ j - 1)) by zb.
    apply mask_down; lia.
  - pose proof (Z.div_mod (size - k) step ltac:(lia)) as D. pose proof (Z.mod_pos_bound (size - k) step ltac:(lia)).
    rewrite u64_id; [lia|]. split; [|lia]. apply Z.mul_nonneg_nonneg; [apply Z.div_pos|]; lia.
Qed.
Section Rfind.
Context (m : memory) (Hm : is_bytes m) (lhs size rhs k step : Z).
Context (Hl : 0 < lhs) (Hr : 0 < rhs) (Hk : 1 <= k) (Hrk : rhs + k <= len m).
Context (Hstep : 0 < step < 2 ^ 64) (Hsize : 0 <= size < 2 ^ 63) (Hmem : lhs + size <= len m).
Notation grid := (run_on_grid m lhs rhs k step).

Lemma rneedle_loop_spec fuel : forall off, off mod step = 0 -> 0 <= off <= size - k ->
  (forall i, off < i <= size - k -> grid i = false) -> off < Z.of_nat fuel ->
  rneedle_loop fuel m lhs rhs k step (byte_at m rhs) off = Done (Z.add lhs <$> last_where grid (size - k + 1)).
Proof using Hm Hl Hr Hk Hrk Hstep Hsize Hmem.
  induction fuel as [|fuel IH]; intros off Hgr Ho Hno Hf; [lia|]. cbn [rneedle_loop]. cbv zeta.
  rewrite byte_at_load, bind_done by lia.
  assert ((if byte_at m (lhs + off) =? byte_at m rhs then lh_memory_is_equal m (lhs + off) rhs k else mret false)
    = Done (same_at m (lhs + off) rhs k)) as ->.
  { destruct (Z.eqb_spec (byte_at m (lhs + off)) (byte_at m rhs)); [by apply is_equal_spec; try lia|].
    by rewrite same_at_cons by (done || lia). }
  rewrite bind_done.
  assert (grid off = same_at m (lhs + off) rhs k) as Eg by (unfold run_on_grid, on_grid; by rewrite (proj2 (Z.eqb_eq _ _) Hgr)).
  destruct (same_at m (lhs + off) rhs k).
  { rewrite (last_where_some grid _ off); [done|lia|done|]. intros i Hi. apply Hno. lia. }
  destruct (Z.ltb_spec off step).
  - rewrite last_where_none; [done|]. intros i Hi. destruct (decide (off < i)); [apply Hno; lia|].
    destruct (decide (i = off)) as [->|]; [done|]. assert (off = 0) as ->; [|lia].
    rewrite Z.mod_small in Hgr by lia. done.
  - assert ((off - step) mod step = 0) as Hgr'.
    { rewrite Zminus_mod, Hgr, Z_mod_same_full. apply Zmod_0_l. }
    apply IH; [done|lia| |lia]. intros i Hi. destruct (decide (off < i)); [apply Hno; lia|].
    destruct (decide (i = off)) as [->|]; [done|]. apply (off_grid step _ Hstep (off - step)); [done|lia].
Qed.
End Rfind.
Lemma rfind_step_is_grid_search m lhs size rhs k step :
  is_bytes m -> 0 < lhs -> 0 < rhs -> 1 <= k -> rhs + k <= len m -> 0 < step < 2 ^ 64 -> len m < 2 ^ 63 ->
  0 <= size -> lhs + size <= len m ->
  lh_memory_rfind_step m lhs size rhs k step
  = Done (Z.add lhs <$> last_where (run_on_grid m lhs rhs k step) (size - k + 1)).
Proof.
  intros Hm Hl Hr Hk Hrk Hst Hlen Hs Hfit. unfold lh_memory_rfind_step. rewrite !assert_ref_ok, !bind_done by done.
  destruct (Z.eqb_spec size 0) as [->|Hs0]; [rewrite last_where_none by (intros; lia); done|].
  rewrite (proj2 (Z.eqb_neq k 0)), (proj2 (Z.eqb_neq step 0)) by lia.
  assert (forall b, b = true -> step = 1 -> lh_memory_std_rfind m lhs size rhs k
    = Done (Z.add lhs <$> last_where (run_on_grid m lhs rhs k step) (size - k + 1))) as H1.
  { intros _ _ ->. rewrite (std_rfind_spec m lhs size rhs k) by (done || lia).
    rewrite (proj2 (Z.eqb_neq k 0)) by lia. do 2 f_equal. apply last_where_ext. intros i.
    unfold run_on_grid, on_grid. by rewrite Z.mod_1_r. }
  destruct ((step =? 1) && _) eqn:E1; [apply andb_true_iff in E1 as [E1%Z.eqb_eq _]; by apply (H1 true)|].
  unfold lh_memory_rfind_needle_by_step. destruct (Z.ltb_spec size k).
  { rewrite last_where_none by (intros; lia). done. }
  rewrite byte_at_load, bind_done, last_step_offset_spec by lia.
  pose proof (Z.mod_pos_bound (size - k) step ltac:(lia)) as Hb. pose proof (Z.mod_le (size - k) step ltac:(lia) ltac:(lia)).
  assert ((size - k - (size - k) mod step) mod step = 0) as Hgr.
  { rewrite Zminus_mod, Zmod_mod, Z.sub_diag. apply Zmod_0_l. }
  apply rneedle_loop_spec; (done || lia || idtac).
  intros i Hi. apply (off_grid step _ Hst (size - k - (size - k) mod step)); [done|lia].
Qed.

(** ** Arrays of wider elements *)

Section Elems.
Context (m0 : memory) (Hm0 : is_bytes m0) (k : nat) (dst count val : Z).
Context (Hk : (1 <= k)%nat) (Hd : 0 <= dst) (Hc : 0 <= count < 2 ^ 62) (Hfit : dst + Z.of_nat k * count <= len m0).
Notation f := (fun i => byte_at (word_bytes k val) ((i - dst) mod Z.of_nat k)).

Lemma word_bytes_u8 j : forall v, is_bytes (word_bytes j v).
Proof using. induction j as [|j IH]; intros v; constructor; [apply u8_range|apply IH]. Qed.
Lemma store_elem m i : painted m0 f dst (dst + Z.of_nat k * i) m -> 0 <= i < count ->
  exists m', store_word k m (dst + Z.of_nat k * i) val = Done m' /\ painted m0 f dst (dst + Z.of_nat k * (i + 1)) m'.
Proof using Hm0 Hk Hd Hc Hfit.
  intros Hp Hi. destruct (write_paint m0 f dst (dst + Z.of_nat k * i) m (dst + Z.of_nat k * i) (word_bytes k val) Hp)
    as (m' & Hst & P); [by apply word_bytes_u8|rewrite ?word_bytes_length; nia..| |].
  { intros j Hj. rewrite word_bytes_length in Hj. f_equal.
    replace (dst + Z.of_nat k * i + j - dst) with (j + i * Z.of_nat k) by lia.
    rewrite Z_mod_plus_full. symmetry. by apply Z.mod_small. }
  rewrite word_bytes_length in Hst, P. exists m'. split; [exact Hst|].
  replace (Z.min dst (dst + Z.of_nat k * i)) with dst in P by nia.
  by replace (Z.max (dst + Z.of_nat k * i) (dst + Z.of_nat k * i + Z.of_nat k)) with (dst + Z.of_nat k * (i + 1)) in P by lia.
Qed.
Lemma set_eights_spec fuel : forall m i, painted m0 f dst (dst + Z.of_nat k * i) m -> 0 <= i <= count ->
  count - i < Z.of_nat fuel ->
  exists m' i', set_eights fuel k m dst count val i = Done (m', i') /\ i <= i' <= count /\
    painted m0 f dst (dst + Z.of_nat k * i') m'.
Proof using Hm0 Hk Hd Hc Hfit.
  induction fuel as [|fuel IH]; intros m i Hp Hi Hf; [lia|]. cbn [set_eights].
  rewrite u64_id by (change (2 ^ 62) with 4611686018427387904 in *; zb).
  destruct (Z.leb_spec (i + 8) count); [|exists m, i; split_and!; done || lia]. cbv zeta. rewrite Z.add_0_r.
  destruct (store_elem m i Hp) as (m1 & -> & P1); [lia|]. rewrite bind_done.
  destruct (store_elem m1 (i + 1) P1) as (m2 & -> & P2); [lia|]. rewrite bind_done. rewrite <-Z.add_assoc in P2.
  destruct (store_elem m2 (i + 2) P2) as (m3 & -> & P3); [lia|]. rewrite bind_done. rewrite <-Z.add_assoc in P3.
  destruct (store_elem m3 (i + 3) P3) as (m4 & -> & P4); [lia|]. rewrite bind_done. rewrite <-Z.add_assoc in P4.
  destruct (store_elem m4 (i + 4) P4) as (m5 & -> & P5); [lia|]. rewrite bind_done. rewrite <-Z.add_assoc in P5.
  destruct (store_elem m5 (i + 5) P5) as (m6 & -> & P6); [lia|]. rewrite bind_done. rewrite <-Z.add_assoc in P6.
  destruct (store_elem m6 (i + 6) P6) as (m7 & -> & P7); [lia|]. rewrite bind_done. rewrite <-Z.add_assoc in P7.
  destruct (store_elem m7 (i + 7) P7) as (m8 & -> & P8); [lia|]. rewrite bind_done. rewrite <-Z.add_assoc in P8.
  destruct (IH m8 (i + 8) P8) as (m' & i' & -> & ? & ?); [lia|lia|]. exists m', i'. split_and!; done || lia.
Qed.
Lemma set_ones_spec fuel : forall m i, painted m0 f dst (dst + Z.of_nat k * i) m -> 0 <= i <= count ->
  count - i < Z.of_nat fuel ->
  exists m', set_ones fuel k m dst count val i = Done m' /\ painted m0 f dst (dst + Z.of_nat k * count) m'.
Proof using Hm0 Hk Hd Hc Hfit.
  induction fuel as [|fuel IH]; intros m i Hp Hi Hf; [lia|]. cbn [set_ones].
  destruct (Z.ltb_spec i count); [|exists m; split; [done|by assert (count = i) as -> by lia]].
  destruct (store_elem m i Hp) as (m1 & -> & P1); [lia|]. rewrite bind_done.
  rewrite u64_id by (change (2 ^ 62) with 4611686018427387904 in *; zb). apply IH; [done|lia|lia].
Qed.
End Elems.
(** Filling an array of 16-bit or 32-bit elements repeats the bytes of the element. *)
Lemma set_elems_repeats m dst count val : is_bytes m -> 0 <= dst -> 0 <= count < 2 ^ 62 ->
  (dst + 2 * count <= len m -> exists m', lh_memory_set_u16 m dst count val = Done (m', dst + 2 * count) /\
     painted m (fun i => byte_at (word_bytes 2 val) ((i - dst) mod 2)) dst (dst + 2 * count) m') /\
  (dst + 4 * count <= len m -> exists m', lh_memory_set_u32 m dst count val = Done (m', dst + 4 * count) /\
     painted m (fun i => byte_at (word_bytes 4 val) ((i - dst) mod 4)) dst (dst + 4 * count) m').
Proof.
  intros Hm Hd Hc. split; intros Hfit; unfold lh_memory_set_u16, lh_memory_set_u32; cbv zeta.
  - destruct (set_eights_spec m Hm 2 dst count val ltac:(lia) Hd Hc Hfit (S (Z.to_nat count)) m 0) as (m1 & i1 & -> & Hi & P1);
      [rewrite Z.mul_0_r, Z.add_0_r; by apply painted_none|lia|lia|]. rewrite bind_done.
    destruct (set_ones_spec m Hm 2 dst count val ltac:(lia) Hd Hc Hfit (S (Z.to_nat count)) m1 i1 P1) as (m2 & -> & P2); [lia|lia|].
    rewrite bind_done. by exists m2.
  - destruct (set_eights_spec m Hm 4 dst count val ltac:(lia) Hd Hc Hfit (S (Z.to_nat count)) m 0) as (m1 & i1 & -> & Hi & P1);
      [rewrite Z.mul_0_r, Z.add_0_r; by apply painted_none|lia|lia|]. rewrite bind_done.
    destruct (set_ones_spec m Hm 4 dst count val ltac:(lia) Hd Hc Hfit (S (Z.to_nat count)) m1 i1 P1) as (m2 & -> & P2); [lia|lia|].
    rewrite bind_done. by exists m2.
Qed.
