(* ===== verification/StrPtr.v ===== *)
(** * Characters in memory: the code

    The searching, writing and trimming kernels of [lh/core/util/str/ptr.c].  A text is
    an array at an address: a pointer into it is an index, a null result is [None], and
    the address of the array decides where the word-wise loops start.  A word is loaded
    only at an aligned address inside the array, anything else is undefined; the
    kernels under [lh_memory_find] and [lh_memory_rfind] are used by what they promise
    for one character.  The functions that ignore the case need the table of foldings
    and are not modelled.  The proofs are in [StrPtrProofs]. *)
From S2P Require Import Prelude Buffer Bytes Digits Format Swar.

(** ** Sets of characters *)

Definition LH_STR_PTR_CHAR_SET_BYTES : Z := 32.

(** [set[b >> 3] |= 1 << (b & 7)] for each character. *)
Fixpoint fill_loop (set chars : buffer) : outcome buffer :=
  match chars with
  | [] => mret set
  | b :: chars =>
    x ← load set (Z.shiftr b 3);
    set ← put set (Z.shiftr b 3) (u8 (Z.lor x (u8 (Z.shiftl 1 (Z.land b 7)))));
    fill_loop set chars
  end.
Definition lh_str_ptr_fill_char_set (set chars : buffer) (chars_size : Z) : outcome buffer :=
  set ← set_bytes set 0 0 LH_STR_PTR_CHAR_SET_BYTES;
  if chars_size <=? len chars then fill_loop set (take (Z.to_nat chars_size) chars) else Undef.
Definition lh_str_ptr_char_set_has (set : buffer) (ch : Z) : outcome bool :=
  x ← load set (Z.shiftr ch 3);
  mret (negb (Z.land x (u8 (Z.shiftl 1 (Z.land ch 7))) =? 0)).

(** [lh_memory_load_usize]: any address. *)
Definition load_usize (s : buffer) (i : Z) : outcome Z :=
  if (0 <=? i) && (i + 8 <=? len s) then mret (le_word (take 8 (drop (Z.to_nat i) s))) else Undef.
Fixpoint range_words (fuel : nat) (chars : buffer) (chars_size first i : Z) : outcome (option Z) :=
  match fuel with
  | O => Undef
  | S fuel =>
    if i + 8 <=? chars_size then
      let expect := u64 (u64 (u64 (first + i) * LH_BIT_SWAR_ONES) + LH_BIT_SWAR_RAMP) in
      v ← load_usize chars i;
      if negb (v =? expect) then mret None
      else range_words fuel chars chars_size first (i + 8)
    else mret (Some i)
  end.
Fixpoint range_bytes (fuel : nat) (chars : buffer) (chars_size first i : Z) : outcome bool :=
  match fuel with
  | O => Undef
  | S fuel =>
    if i <? chars_size then
      b ← load chars i;
      if negb (b =? u8 (first + i)) then mret false
      else range_bytes fuel chars chars_size first (i + 1)
    else mret true
  end.
(** The first and the last character, when they ascend one by one. *)
Definition lh_str_ptr_chars_ascending_range (chars : buffer) (chars_size : Z)
    : outcome (option (Z * Z)) :=
  if chars_size <? 2 then mret None else
  first ← load chars 0;
  outside ←
    (if u64 (u64 (first + chars_size) - 1) >? 255 then mret true else
     last ← load chars (chars_size - 1);
     mret (negb (last =? u8 (u64 (u64 (first + chars_size) - 1)))));
  if outside : bool then mret None else
  i ← range_words (S (length chars)) chars chars_size first 0;
  match i with
  | None => mret None
  | Some i =>
    same ← range_bytes (S (length chars)) chars chars_size first i;
    if negb same then mret None
    else mret (Some (first, u8 (u64 (u64 (first + chars_size) - 1))))
  end.

(** ** Scanning *)

(** A loop has found an index, or has gone on to one. *)
Inductive scan := at_ (i : Z) | past (i : Z).
Definition go_on (m : outcome scan) (f : Z -> outcome scan) : outcome scan :=
  r ← m;
  match r with at_ i => mret (at_ i) | past i => f i end.
Definition found (m : outcome scan) : outcome (option Z) :=
  r ← m;
  match r with at_ i => mret (Some i) | past _ => mret None end.

Section Scan.
Variables (base : Z) (s : buffer).

(** [lh_ptr_is_aligned(p, w)] and [lh_memory_word_load(p)]. *)
Definition aligned (i : Z) : bool := (base + i) mod 8 =? 0.
Definition word_load (i : Z) : outcome Z := if aligned i then load_usize s i else Undef.

(** [while (p < end && !stop) { if (hit) return p; ++p; }] *)
Fixpoint bytes_loop (fuel : nat) (stop hit : Z -> bool) (n i : Z) : outcome scan :=
  match fuel with
  | O => Undef
  | S fuel =>
    if (i <? n) && negb (stop i) then
      b ← load s i;
      if hit b : bool then mret (at_ i) else bytes_loop fuel stop hit n (i + 1)
    else mret (past i)
  end.
(** [while (p > base && !stop) { --p; if (hit) return p; }] *)
Fixpoint rbytes_loop (fuel : nat) (stop hit : Z -> bool) (i : Z) : outcome scan :=
  match fuel with
  | O => Undef
  | S fuel =>
    if (i >? 0) && negb (stop i) then
      let i := i - 1 in
      b ← load s i;
      if hit b : bool then mret (at_ i) else rbytes_loop fuel stop hit i
    else mret (past i)
  end.

Fixpoint out_pairs (fuel : nat) (n sub_lo add_hi i : Z) : outcome scan :=
  match fuel with
  | O => Undef
  | S fuel =>
    if i + (8 + 8) <=? n then
      v0 ← word_load i;
      v1 ← word_load (i + 8);
      let m0 := lh_bit_swar_outside_mask v0 sub_lo add_hi in
      let m1 := lh_bit_swar_outside_mask v1 sub_lo add_hi in
      if negb (m0 =? 0) then mret (at_ (i + lh_bit_swar_first_lane m0)) else
      if negb (m1 =? 0) then mret (at_ (i + 8 + lh_bit_swar_first_lane m1)) else
      out_pairs fuel n sub_lo add_hi (i + (8 + 8))
    else mret (past i)
  end.
Fixpoint out_words (fuel : nat) (n sub_lo add_hi i : Z) : outcome scan :=
  match fuel with
  | O => Undef
  | S fuel =>
    if i + 8 <=? n then
      v ← word_load i;
      let out := lh_bit_swar_outside_mask v sub_lo add_hi in
      if negb (out =? 0) then mret (at_ (i + lh_bit_swar_first_lane out)) else
      out_words fuel n sub_lo add_hi (i + 8)
    else mret (past i)
  end.
Fixpoint in_words (fuel : nat) (n sub_lo add_hi i : Z) : outcome scan :=
  match fuel with
  | O => Undef
  | S fuel =>
    if i + 8 <=? n then
      v ← word_load i;
      let out := lh_bit_swar_outside_mask v sub_lo add_hi in
      if out =? 0 then mret (at_ i) else
      let in_ := lh_bit_swar_unmarked out in
      if negb (in_ =? 0) then mret (at_ (i + lh_bit_swar_first_lane in_)) else
      in_words fuel n sub_lo add_hi (i + 8)
    else mret (past i)
  end.

Definition not_in (lo hi b : Z) : bool := (b <? lo) || (b >? hi).
Definition is_in (lo hi b : Z) : bool := (b >=? lo) && (b <=? hi).
Definition never (i : Z) : bool := false.

Definition lh_str_ptr_find_byte_not_in_range (n lo hi : Z) : outcome (option Z) :=
  let fuel := S (length s) in
  let swar := hi <? 128 in
  found (
    go_on (bytes_loop fuel aligned (not_in lo hi) n 0) (fun i =>
    go_on
      (if swar then
         let sub_lo := lh_bit_swar_broadcast lo in
         let add_hi := lh_bit_swar_broadcast (127 - hi) in
         go_on (out_pairs fuel n sub_lo add_hi i) (fun i =>
         out_words fuel n sub_lo add_hi i)
       else mret (past i)) (fun i =>
    bytes_loop fuel never (not_in lo hi) n i))).
Definition lh_str_ptr_find_byte_in_range (n lo hi : Z) : outcome (option Z) :=
  let fuel := S (length s) in
  let swar := hi <? 128 in
  found (
    go_on (bytes_loop fuel aligned (is_in lo hi) n 0) (fun i =>
    go_on
      (if swar then
         in_words fuel n (lh_bit_swar_broadcast lo) (lh_bit_swar_broadcast (127 - hi)) i
       else mret (past i)) (fun i =>
    bytes_loop fuel never (is_in lo hi) n i))).

Fixpoint rout_pairs (fuel : nat) (sub_lo add_hi i : Z) : outcome scan :=
  match fuel with
  | O => Undef
  | S fuel =>
    if i >=? 8 + 8 then
      v1 ← word_load (i - 8);
      v0 ← word_load (i - (8 + 8));
      let m1 := lh_bit_swar_outside_mask v1 sub_lo add_hi in
      let m0 := lh_bit_swar_outside_mask v0 sub_lo add_hi in
      let i := i - (8 + 8) in
      if negb (m1 =? 0) then mret (at_ (i + 8 + lh_bit_swar_last_lane m1)) else
      if negb (m0 =? 0) then mret (at_ (i + lh_bit_swar_last_lane m0)) else
      rout_pairs fuel sub_lo add_hi i
    else mret (past i)
  end.
Fixpoint rout_words (fuel : nat) (sub_lo add_hi i : Z) : outcome scan :=
  match fuel with
  | O => Undef
  | S fuel =>
    if i >=? 8 then
      let i := i - 8 in
      v ← word_load i;
      let out := lh_bit_swar_outside_mask v sub_lo add_hi in
      if negb (out =? 0) then mret (at_ (i + lh_bit_swar_last_lane out)) else
      rout_words fuel sub_lo add_hi i
    else mret (past i)
  end.
Fixpoint rin_words (fuel : nat) (sub_lo add_hi i : Z) : outcome scan :=
  match fuel with
  | O => Undef
  | S fuel =>
    if i >=? 8 then
      let i := i - 8 in
      v ← word_load i;
      let out := lh_bit_swar_outside_mask v sub_lo add_hi in
      if out =? 0 then mret (at_ (i + (8 - 1))) else
      let in_ := lh_bit_swar_unmarked out in
      if negb (in_ =? 0) then mret (at_ (i + lh_bit_swar_last_lane in_)) else
      rin_words fuel sub_lo add_hi i
    else mret (past i)
  end.
Definition lh_str_ptr_rfind_byte_not_in_range (n lo hi : Z) : outcome (option Z) :=
  let fuel := S (length s) in
  let swar := hi <? 128 in
  found (
    go_on (rbytes_loop fuel aligned (not_in lo hi) n) (fun i =>
    go_on
      (if swar then
         let sub_lo := lh_bit_swar_broadcast lo in
         let add_hi := lh_bit_swar_broadcast (127 - hi) in
         go_on (rout_pairs fuel sub_lo add_hi i) (fun i =>
         rout_words fuel sub_lo add_hi i)
       else mret (past i)) (fun i =>
    rbytes_loop fuel never (not_in lo hi) i))).
Definition lh_str_ptr_rfind_byte_in_range (n lo hi : Z) : outcome (option Z) :=
  let fuel := S (length s) in
  let swar := hi <? 128 in
  found (
    go_on (rbytes_loop fuel aligned (is_in lo hi) n) (fun i =>
    go_on
      (if swar then
         rin_words fuel (lh_bit_swar_broadcast lo) (lh_bit_swar_broadcast (127 - hi)) i
       else mret (past i)) (fun i =>
    rbytes_loop fuel never (is_in lo hi) i))).

(** ** The NUL *)

(** The lanes of a word that holds a zero, one by one. *)
Fixpoint lanes_loop (fuel : nat) (i lane : Z) : outcome (option Z) :=
  match fuel with
  | O => Undef
  | S fuel =>
    if lane <? 8 then
      b ← load s (i + lane);
      if b =? 0 then mret (Some (i + lane)) else lanes_loop fuel i (lane + 1)
    else mret None
  end.
Fixpoint nul_bytes (fuel : nat) (i : Z) : outcome scan :=
  match fuel with
  | O => Undef
  | S fuel =>
    if negb (aligned i) then
      b ← load s i;
      if b =? 0 then mret (at_ i) else nul_bytes fuel (i + 1)
    else mret (past i)
  end.
Fixpoint nul_words (fuel : nat) (i : Z) : outcome Z :=
  match fuel with
  | O => Undef
  | S fuel =>
    v ← word_load i;
    at_lane ← (if negb (lh_bit_swar_zero_mask v =? 0) then lanes_loop 9 i 0 else mret None);
    match at_lane with
    | Some j => mret j
    | None => nul_words fuel (i + 8)
    end
  end.
Definition lh_str_ptr_find_of_null_terminator : outcome Z :=
  r ← nul_bytes (S (length s)) 0;
  match r with
  | at_ i => mret i
  | past i => nul_words (S (length s)) i
  end.
Definition lh_str_ptr_len : outcome Z := lh_str_ptr_find_of_null_terminator.

Fixpoint nul_words_by_size (fuel : nat) (n i : Z) : outcome scan :=
  match fuel with
  | O => Undef
  | S fuel =>
    if i + 8 <=? n then
      v ← word_load i;
      at_lane ← (if negb (lh_bit_swar_zero_mask v =? 0) then lanes_loop 9 i 0 else mret None);
      match at_lane with
      | Some j => mret (at_ j)
      | None => nul_words_by_size fuel n (i + 8)
      end
    else mret (past i)
  end.
Definition lh_str_ptr_find_of_null_terminator_by_size (size : Z) : outcome (option Z) :=
  if size =? 0 then mret None else
  let fuel := S (length s) in
  found (
    go_on (bytes_loop fuel aligned (fun b => b =? 0) size 0) (fun i =>
    go_on (nul_words_by_size fuel size i) (fun i =>
    bytes_loop fuel never (fun b => b =? 0) size i))).

(** ** One character of a set *)

(** What [lh_memory_find] and [lh_memory_rfind] promise for one byte. *)
Definition lh_str_ptr_find_of_char (size ch : Z) : outcome (option Z) :=
  if size <=? len s
  then mret (Z.of_nat <$> index_of (fun b => b =? ch) (take (Z.to_nat size) s)) else Undef.
Definition lh_str_ptr_rfind_of_char (size ch : Z) : outcome (option Z) :=
  if size <=? len s
  then mret ((fun i => size - 1 - Z.of_nat i)
             <$> index_of (fun b => b =? ch) (rev (take (Z.to_nat size) s))) else Undef.

Fixpoint pair_loop (fuel : nat) (n a b i : Z) : outcome (option Z) :=
  match fuel with
  | O => Undef
  | S fuel =>
    if i <? n then
      c ← load s i;
      if (c =? a) || (c =? b) then mret (Some i) else pair_loop fuel n a b (i + 1)
    else mret None
  end.
Fixpoint set_loop (fuel : nat) (want : bool) (n : Z) (set : buffer) (i : Z) : outcome (option Z) :=
  match fuel with
  | O => Undef
  | S fuel =>
    if i <? n then
      c ← load s i;
      has ← lh_str_ptr_char_set_has set c;
      if eqb has want then mret (Some i) else set_loop fuel want n set (i + 1)
    else mret None
  end.
Definition lh_str_ptr_find_of_chars (str_size : Z) (chars : buffer) (chars_size : Z)
    : outcome (option Z) :=
  let fuel := S (length s) in
  if chars_size =? 0 then mret None else
  if chars_size =? 1 then c ← load chars 0; lh_str_ptr_find_of_char str_size c else
  if chars_size =? 2 then
    a ← load chars 0;
    b ← load chars 1;
    pair_loop fuel str_size a b 0
  else
  range ← lh_str_ptr_chars_ascending_range chars chars_size;
  match range with
  | Some (lo, hi) => lh_str_ptr_find_byte_in_range str_size lo hi
  | None =>
    set ← lh_str_ptr_fill_char_set (local LH_STR_PTR_CHAR_SET_BYTES) chars chars_size;
    set_loop fuel true str_size set 0
  end.
Definition lh_str_ptr_find_not_of_chars (str_size : Z) (chars : buffer) (chars_size : Z)
    : outcome (option Z) :=
  range ← lh_str_ptr_chars_ascending_range chars chars_size;
  match range with
  | Some (lo, hi) => lh_str_ptr_find_byte_not_in_range str_size lo hi
  | None =>
    set ← lh_str_ptr_fill_char_set (local LH_STR_PTR_CHAR_SET_BYTES) chars chars_size;
    set_loop (S (length s)) false str_size set 0
  end.

(** [do { --i; ... } while (i > 0)] *)
Fixpoint rpair_loop (fuel : nat) (a b i : Z) : outcome (option Z) :=
  match fuel with
  | O => Undef
  | S fuel =>
    let i := u64 (i - 1) in
    c ← load s i;
    if (c =? a) || (c =? b) then mret (Some i) else
    if i >? 0 then rpair_loop fuel a b i else mret None
  end.
Fixpoint rset_loop (fuel : nat) (want : bool) (set : buffer) (i : Z) : outcome (option Z) :=
  match fuel with
  | O => Undef
  | S fuel =>
    let i := u64 (i - 1) in
    c ← load s i;
    has ← lh_str_ptr_char_set_has set c;
    if eqb has want then mret (Some i) else
    if i >? 0 then rset_loop fuel want set i else mret None
  end.
Definition lh_str_ptr_rfind_of_chars (str_size : Z) (chars : buffer) (chars_size : Z)
    : outcome (option Z) :=
  let fuel := S (length s) in
  if chars_size =? 0 then mret None else
  if str_size =? 0 then mret None else
  if chars_size =? 1 then c ← load chars 0; lh_str_ptr_rfind_of_char str_size c else
  if chars_size =? 2 then
    a ← load chars 0;
    b ← load chars 1;
    rpair_loop fuel a b str_size
  else
  range ← lh_str_ptr_chars_ascending_range chars chars_size;
  match range with
  | Some (lo, hi) => lh_str_ptr_rfind_byte_in_range str_size lo hi
  | None =>
    set ← lh_str_ptr_fill_char_set (local LH_STR_PTR_CHAR_SET_BYTES) chars chars_size;
    rset_loop fuel true set str_size
  end.
Definition lh_str_ptr_rfind_not_of_chars (str_size : Z) (chars : buffer) (chars_size : Z)
    : outcome (option Z) :=
  if str_size =? 0 then mret None else
  range ← lh_str_ptr_chars_ascending_range chars chars_size;
  match range with
  | Some (lo, hi) => lh_str_ptr_rfind_byte_not_in_range str_size lo hi
  | None =>
    set ← lh_str_ptr_fill_char_set (local LH_STR_PTR_CHAR_SET_BYTES) chars chars_size;
    rset_loop (S (length s)) false set str_size
  end.
End Scan.
