(* ===== verification/StrPtrProofs.v ===== *)
(** * Characters in memory: correctness

    The word-wise scans against the search for the first byte.  Looking for a byte
    outside a range and looking for the NUL are exact at every address and never load
    a word that is not aligned or not in the array; looking for a byte inside a range
    is exact on texts without bytes below it or beyond ASCII, and misses bytes in
    others. *)
From S2P Require Import Prelude Buffer Bytes Digits Format FormatProofs Swar StrPtr.

Section Scans.
Context (base : Z) (s : buffer) (Hs : is_bytes s).

(** No byte from [i] to before [k] passes the test. *)
Definition none (hit : Z -> bool) (i k : nat) : Prop :=
  forall m b, (i <= m < k)%nat -> s !! m = Some b -> hit b = false.
Definition scanned (hit : Z -> bool) (n i : nat) (r : scan) : Prop :=
  match r with
  | at_ j => exists k b, j = Z.of_nat k /\ (i <= k < n)%nat /\ s !! k = Some b /\ hit b = true /\ none hit i k
  | past j => exists k, j = Z.of_nat k /\ (i <= k <= n)%nat /\ none hit i k
  end.
Definition go_result (hit : Z -> bool) (n i : nat) (m : outcome scan) (post : nat -> Prop) : Prop :=
  exists r, m = Done r /\ scanned hit n i r /\
    forall k, r = past (Z.of_nat k) -> post k.

Lemma none_refl hit i : none hit i i.
Proof using. intros m b. lia. Qed.
Lemma none_app hit i j k : none hit i j -> none hit j k -> none hit i k.
Proof using.
  intros H1 H2 m b Hm. destruct (decide (m < j)%nat); [apply H1|apply H2]; lia.
Qed.
Lemma none_snoc hit i k b : none hit i k -> s !! k = Some b -> hit b = false -> none hit i (S k).
Proof using.
  intros H1 Hb Hh m c Hm. destruct (decide (m = k)) as [->|]; [by rewrite Hb; intros [= <-]|].
  apply H1. lia.
Qed.
Lemma scanned_weaken hit n i j r : (i <= j)%nat -> none hit i j -> scanned hit n j r -> scanned hit n i r.
Proof using.
  intros Hij Hn. destruct r; simpl; intros H; destruct_and?; [destruct H as (k & b & -> & ? & ? & ? & ?)|destruct H as (k & -> & ? & ?)].
  - exists k, b. split_and!; try done; [lia|lia|]. by eapply none_app.
  - exists k. split_and!; try done; [lia|lia|]. by eapply none_app.
Qed.
Lemma go_on_result hit n i m f post post' : go_result hit n i m post ->
  (forall k, (i <= k <= n)%nat -> post k -> go_result hit n k (f (Z.of_nat k)) post') ->
  go_result hit n i (go_on m f) post'.
Proof using.
  intros (r & -> & Hr & Hp) Hf. unfold go_on. rewrite bind_done. destruct r as [j|j].
  - exists (at_ j). split; [done|]. by split.
  - destruct Hr as (k & -> & Hk & Hn). destruct (Hf k Hk (Hp k eq_refl)) as (r & -> & Hr & Hp').
    exists r. split; [done|]. split; [|done]. eapply scanned_weaken; [|done|done]. lia.
Qed.
Lemma go_result_past hit n i (post : nat -> Prop) : (i <= n)%nat -> post i ->
  go_result hit n i (Done (past (Z.of_nat i))) post.
Proof using.
  intros Hi Hp. exists (past (Z.of_nat i)). split; [done|]. split.
  - exists i. split_and!; [done|lia|lia|apply none_refl].
  - intros k [= E]. by assert (k = i) as -> by lia.
Qed.
Lemma go_result_post hit n i m (post post' : nat -> Prop) : go_result hit n i m post ->
  (forall k, post k -> post' k) -> go_result hit n i m post'.
Proof using. intros (r & ? & ? & ?) Hp. exists r. split_and!; try done. intros k Hk. auto. Qed.
Lemma go_result_at hit n i k b (post : nat -> Prop) : (i <= k < n)%nat -> s !! k = Some b -> hit b = true ->
  none hit i k -> go_result hit n i (Done (at_ (Z.of_nat k))) post.
Proof using.
  intros Hk Hb Hh Hn. exists (at_ (Z.of_nat k)). split; [done|]. split; [|done]. exists k, b. split_and!; done || lia.
Qed.
Lemma go_result_step hit n i j m post : (i <= j)%nat -> none hit i j -> go_result hit n j m post ->
  go_result hit n i m post.
Proof using. intros Hij Hn (r & -> & Hr & Hp). exists r. split; [done|]. split; [by eapply scanned_weaken|done]. Qed.

Lemma bytes_loop_spec hit stop n : (n <= length s)%nat -> forall fuel i, (n - i < fuel)%nat -> (i <= n)%nat ->
  go_result hit n i (bytes_loop s fuel stop hit (Z.of_nat n) (Z.of_nat i))
    (fun k => k = n \/ stop (Z.of_nat k) = true).
Proof using.
  intros Hn. induction fuel as [|fuel IH]; intros i Hf Hi; [lia|]. cbn [bytes_loop].
  destruct (Z.ltb_spec (Z.of_nat i) (Z.of_nat n)); cbn [andb].
  2:{ apply go_result_past; [lia|]. left. lia. }
  destruct (stop (Z.of_nat i)) eqn:Es; cbn [negb]; [apply go_result_past; [lia|by right]|].
  destruct (lookup_lt_is_Some_2 s i) as [b Hb]; [lia|]. rewrite (load_ok _ _ _ Hb), bind_done.
  destruct (hit b) eqn:Eh.
  - apply (go_result_at _ _ _ _ b); [lia|done..|apply none_refl].
  - apply (go_result_step _ _ _ (S i)); [lia|by eapply none_snoc; [apply none_refl|..]|].
    replace (Z.of_nat i + 1) with (Z.of_nat (S i)) by lia. apply IH; lia.
Qed.

(** The eight bytes of a word. *)
Definition lanes (i : nat) : list Z := take 8 (drop i s).
Lemma lanes_length i : (i + 8 <= length s)%nat -> length (lanes i) = 8%nat.
Proof using. intros Hi. unfold lanes. rewrite length_take, length_drop. lia. Qed.
Lemma lanes_bytes i : is_bytes (lanes i).
Proof using Hs. by apply Forall_take, Forall_drop. Qed.
Lemma lanes_at i l b : lanes i !! l = Some b -> s !! (i + l)%nat = Some b.
Proof using.
  intros Hl. pose proof (lookup_lt_Some _ _ _ Hl) as Hlt. unfold lanes in *. rewrite length_take in Hlt.
  rewrite lookup_take_lt, lookup_drop in Hl by lia. done.
Qed.
Lemma lanes_none hit i l : (l <= 8)%nat -> (i + 8 <= length s)%nat ->
  Forall (fun b => hit b = false) (take l (lanes i)) -> none hit i (i + l).
Proof using.
  intros Hl Hi Hf m b Hm Hb. apply (Forall_lookup_1 _ _ (m - i)%nat b Hf).
  rewrite lookup_take_lt by lia. unfold lanes. rewrite lookup_take_lt, lookup_drop by lia.
  by replace (i + (m - i))%nat with m by lia.
Qed.
Lemma word_load_ok i : aligned base (Z.of_nat i) = true -> (i + 8 <= length s)%nat ->
  word_load base s (Z.of_nat i) = Done (le_word (lanes i)).
Proof using.
  intros Ha Hi. unfold word_load, load_usize. rewrite Ha, !(proj2 (Z.leb_le _ _)) by lia.
  by rewrite Nat2Z.id.
Qed.
Lemma aligned_next i : aligned base (Z.of_nat i) = true -> aligned base (Z.of_nat (i + 8)) = true.
Proof using. unfold aligned. rewrite !Z.eqb_eq. intros H. zdm. Qed.

(** A word whose lanes are searched exactly: a hit, or on to the next. *)
Lemma word_hit hit n i l (post : nat -> Prop) : (i + 8 <= n)%nat -> (n <= length s)%nat ->
  index_of hit (lanes i) = Some l -> go_result hit n i (Done (at_ (Z.of_nat i + Z.of_nat l))) post.
Proof using.
  intros Hi Hn (b & Hb & Hh & Hl & Hf)%index_of_inv. rewrite lanes_length in Hl by lia.
  rewrite <-Nat2Z.inj_add. apply (go_result_at _ _ _ _ b); [lia|by apply lanes_at|done|].
  apply lanes_none; [lia|lia|done].
Qed.
Lemma word_miss hit i : (i + 8 <= length s)%nat -> index_of hit (lanes i) = None -> none hit i (i + 8).
Proof using.
  intros Hi H%index_of_none. apply lanes_none; [lia|done|]. by apply Forall_take.
Qed.

(** ** Outside a range *)

Lemma not_in_outside lo hi b : not_in lo hi b = outside lo hi b.
Proof using. unfold not_in, outside. by rewrite Z.gtb_ltb. Qed.
Lemma is_in_outside lo hi b : is_in lo hi b = negb (outside lo hi b).
Proof using.
  unfold is_in, outside. rewrite Z.geb_leb, negb_orb, Z.leb_antisym. f_equal. by rewrite Z.leb_antisym.
Qed.
Lemma index_not_in lo hi l : index_of (not_in lo hi) l = index_of (outside lo hi) l.
Proof using. apply index_of_ext, Forall_true. intros. apply not_in_outside. Qed.

Section Outside.
Context (lo hi : Z) (Hlo : 0 <= lo <= hi) (Hhi : hi < 128).
Notation sub_lo := (lh_bit_swar_broadcast lo).
Notation add_hi := (lh_bit_swar_broadcast (127 - hi)).

(** The test of one word: the first byte outside, or none. *)
Lemma out_word i : (i + 8 <= length s)%nat ->
  let out := lh_bit_swar_outside_mask (le_word (lanes i)) sub_lo add_hi in
  match index_of (not_in lo hi) (lanes i) with
  | Some l => (out =? 0) = false /\ lh_bit_swar_first_lane out = Z.of_nat l
  | None => (out =? 0) = true
  end.
Proof using Hs Hlo Hhi.
  intros Hi. cbv zeta. pose proof (lanes_length i Hi) as Hl. pose proof (lanes_bytes i) as Hb.
  rewrite outside_mask_marks by (done || zb).
  pose proof (outside_marks_first (lanes i) lo hi Hb Hlo Hhi) as Hf.
  rewrite index_not_in. destruct (index_of (outside lo hi) (lanes i)) as [l|] eqn:E.
  - split; [apply Z.eqb_neq; by eapply marks_some|].
    apply first_lane_marks; [by rewrite outside_marks_length|done].
  - by rewrite marks_none.
Qed.
Lemma out_words_spec n : (n <= length s)%nat -> forall fuel i, (n - i < fuel)%nat -> (i <= n)%nat ->
  (i = n \/ aligned base (Z.of_nat i) = true) ->
  go_result (not_in lo hi) n i (out_words base s fuel (Z.of_nat n) sub_lo add_hi (Z.of_nat i))
    (fun _ => True).
Proof using Hs Hlo Hhi.
  intros Hn. induction fuel as [|fuel IH]; intros i Hf Hi Ha; [lia|]. cbn [out_words].
  destruct (Z.leb_spec (Z.of_nat i + 8) (Z.of_nat n)); [|by apply go_result_past].
  destruct Ha as [->|Ha]; [lia|]. rewrite word_load_ok, bind_done by (done || lia). cbv zeta.
  pose proof (out_word i ltac:(lia)) as Hw. cbv zeta in Hw.
  destruct (index_of (not_in lo hi) (lanes i)) as [l|] eqn:E.
  - destruct Hw as [-> ->]. by apply word_hit; [lia|..].
  - rewrite Hw. cbn [negb]. apply (go_result_step _ _ _ (i + 8)); [lia|by apply word_miss; [lia|]|].
    replace (Z.of_nat i + 8) with (Z.of_nat (i + 8)) by lia. apply IH; [lia|lia|].
    right. by apply aligned_next.
Qed.
Lemma out_pairs_spec n : (n <= length s)%nat -> forall fuel i, (n - i < fuel)%nat -> (i <= n)%nat ->
  (i = n \/ aligned base (Z.of_nat i) = true) ->
  go_result (not_in lo hi) n i (out_pairs base s fuel (Z.of_nat n) sub_lo add_hi (Z.of_nat i))
    (fun k => k = n \/ aligned base (Z.of_nat k) = true).
Proof using Hs Hlo Hhi.
  intros Hn. induction fuel as [|fuel IH]; intros i Hf Hi Ha; [lia|]. cbn [out_pairs].
  destruct (Z.leb_spec (Z.of_nat i + (8 + 8)) (Z.of_nat n)); [|by apply go_result_past].
  destruct Ha as [->|Ha]; [lia|]. apply aligned_next in Ha as Ha8. apply aligned_next in Ha8 as Ha16.
  rewrite word_load_ok, bind_done by (done || lia).
  replace (Z.of_nat i + 8) with (Z.of_nat (i + 8)) by lia. rewrite word_load_ok, bind_done by (done || lia).
  cbv zeta. pose proof (out_word i ltac:(lia)) as Hw. pose proof (out_word (i + 8) ltac:(lia)) as Hw8.
  cbv zeta in Hw, Hw8. destruct (index_of (not_in lo hi) (lanes i)) as [l|] eqn:E.
  { destruct Hw as [-> ->]. by apply word_hit; [lia|..]. }
  rewrite Hw. cbn [negb]. apply (go_result_step _ _ _ (i + 8)); [lia|by apply word_miss; [lia|]|].
  destruct (index_of (not_in lo hi) (lanes (i + 8))) as [l|] eqn:E8.
  { destruct Hw8 as [-> ->]. by apply word_hit; [lia|..]. }
  rewrite Hw8. cbn [negb]. apply (go_result_step _ _ _ (i + 8 + 8)); [lia|by apply word_miss; [lia|]|].
  replace (Z.of_nat i + (8 + 8)) with (Z.of_nat (i + 8 + 8)) by lia. apply IH; [lia|lia|]. by right.
Qed.
End Outside.

(** What a whole search gives. *)
Lemma found_first hit n m : (n <= length s)%nat -> go_result hit n 0 m (fun k => k = n) ->
  found m = Done (Z.of_nat <$> index_of hit (take n s)).
Proof using.
  intros Hn (r & -> & Hr & Hp). unfold found. rewrite bind_done. destruct r as [j|j].
  - destruct Hr as (k & b & -> & Hk & Hb & Hh & Hno).
    rewrite <-(take_drop_middle (take n s) k b) by (rewrite lookup_take_lt by lia; done).
    rewrite index_of_some; [|apply Forall_lookup_2; intros m c Hm|done].
    + rewrite length_take, length_take. replace (k `min` (n `min` length s))%nat with k by lia. done.
    + pose proof (lookup_lt_Some _ _ _ Hm) as Hlt. rewrite !length_take in Hlt.
      rewrite !lookup_take_lt in Hm by lia. apply (Hno m); [lia|done].
  - destruct Hr as (k & -> & Hk & Hno). pose proof (Hp k eq_refl) as ->.
    rewrite (proj2 (index_of_none _ _)); [done|]. apply Forall_lookup_2. intros m c Hm.
    pose proof (lookup_lt_Some _ _ _ Hm) as Hlt. rewrite !length_take in Hlt.
    rewrite !lookup_take_lt in Hm by lia. apply (Hno m); [lia|done].
Qed.
Lemma find_byte_not_in_range_spec n lo hi : 0 <= n <= len s -> 0 <= lo <= hi ->
  lh_str_ptr_find_byte_not_in_range base s n lo hi
  = Done (Z.of_nat <$> index_of (not_in lo hi) (take (Z.to_nat n) s)).
Proof using Hs.
  intros Hn Hlo. destruct (Z_of_nat_complete n) as [k ->]; [lia|]. rewrite Nat2Z.id.
  unfold lh_str_ptr_find_byte_not_in_range. cbv zeta.
  apply found_first; [lia|]. change 0 with (Z.of_nat 0).
  eapply go_on_result; [apply bytes_loop_spec; lia|]. intros i Hi Hpi. cbv beta in Hpi.
  eapply (go_on_result _ _ _ _ _ (fun _ => True)).
  - destruct (Z.ltb_spec hi 128); [|by apply go_result_past; [lia|]].
    eapply go_on_result; [by apply out_pairs_spec; try lia|]. intros j Hj Hpj.
    by apply out_words_spec; try lia.
  - intros j Hj _. eapply go_result_post; [apply bytes_loop_spec; lia|].
    by intros ? [->|?].
Qed.

(** ** Inside a range *)

(** On bytes that are not below the range and are ASCII. *)
Section Inside.
Context (lo hi : Z) (Hlo : 0 <= lo <= hi) (Hhi : hi < 128).
Context (Hin : Forall (fun b => lo <= b < 128) s).
Notation sub_lo := (lh_bit_swar_broadcast lo).
Notation add_hi := (lh_bit_swar_broadcast (127 - hi)).

Lemma in_word i : (i + 8 <= length s)%nat ->
  let out := lh_bit_swar_outside_mask (le_word (lanes i)) sub_lo add_hi in
  let in_ := lh_bit_swar_unmarked out in
  if out =? 0 then index_of (is_in lo hi) (lanes i) = Some 0%nat else
  match index_of (is_in lo hi) (lanes i) with
  | Some l => (in_ =? 0) = false /\ lh_bit_swar_first_lane in_ = Z.of_nat l
  | None => (in_ =? 0) = true
  end.
Proof using Hs Hlo Hhi Hin.
  intros Hi. cbv zeta. pose proof (lanes_length i Hi) as Hl. pose proof (lanes_bytes i) as Hb.
  assert (Forall (fun b => lo <= b < 128) (lanes i)) as Hx by by apply Forall_take, Forall_drop.
  rewrite outside_mask_marks, outside_marks_exact by (done || zb).
  rewrite unmarked_marks by (by rewrite length_map).
  rewrite map_map, (map_ext (fun b => negb (outside lo hi b)) (is_in lo hi)) by
    (intros b; symmetry; apply is_in_outside).
  destruct (Z.eqb_spec (marks_word (map (outside lo hi) (lanes i))) 0) as [E|_].
  - destruct (lanes i) as [|b l] eqn:El; [done|]. cbn [index_of]. rewrite is_in_outside.
    destruct (outside lo hi b) eqn:Eo; [|done]. exfalso. cbn [map] in E. rewrite Eo in E.
    by apply (marks_some (true :: map (outside lo hi) l) 0) in E.
  - destruct (index_of (is_in lo hi) (lanes i)) as [l|] eqn:E.
    + assert (index_of id (map (is_in lo hi) (lanes i)) = Some l) as Em by by rewrite index_of_map.
      split; [apply Z.eqb_neq; by eapply marks_some|].
      apply first_lane_marks; [by rewrite length_map|done].
    + rewrite marks_none; [done|]. by rewrite index_of_map.
Qed.
Lemma in_words_spec n : (n <= length s)%nat -> forall fuel i, (n - i < fuel)%nat -> (i <= n)%nat ->
  (i = n \/ aligned base (Z.of_nat i) = true) ->
  go_result (is_in lo hi) n i (in_words base s fuel (Z.of_nat n) sub_lo add_hi (Z.of_nat i))
    (fun _ => True).
Proof using Hs Hlo Hhi Hin.
  intros Hn. induction fuel as [|fuel IH]; intros i Hf Hi Ha; [lia|]. cbn [in_words].
  destruct (Z.leb_spec (Z.of_nat i + 8) (Z.of_nat n)); [|by apply go_result_past].
  destruct Ha as [->|Ha]; [lia|]. rewrite word_load_ok, bind_done by (done || lia). cbv zeta.
  pose proof (in_word i ltac:(lia)) as Hw. cbv zeta in Hw.
  destruct (Z.eqb_spec (lh_bit_swar_outside_mask (le_word (lanes i)) sub_lo add_hi) 0) as [E|_].
  { replace (Z.of_nat i) with (Z.of_nat i + Z.of_nat 0) by lia. by apply word_hit; [lia|..]. }
  destruct (index_of (is_in lo hi) (lanes i)) as [l|] eqn:E.
  - destruct Hw as [-> ->]. by apply word_hit; [lia|..].
  - rewrite Hw. cbn [negb]. apply (go_result_step _ _ _ (i + 8)); [lia|by apply word_miss; [lia|]|].
    replace (Z.of_nat i + 8) with (Z.of_nat (i + 8)) by lia. apply IH; [lia|lia|].
    right. by apply aligned_next.
Qed.
End Inside.
Lemma find_byte_in_range_spec n lo hi : 0 <= n <= len s -> 0 <= lo <= hi ->
  128 <= hi \/ Forall (fun b => lo <= b < 128) s ->
  lh_str_ptr_find_byte_in_range base s n lo hi
  = Done (Z.of_nat <$> index_of (is_in lo hi) (take (Z.to_nat n) s)).
Proof using Hs.
  intros Hn Hlo Hex. destruct (Z_of_nat_complete n) as [k ->]; [lia|]. rewrite Nat2Z.id.
  unfold lh_str_ptr_find_byte_in_range. cbv zeta. apply found_first; [lia|]. change 0 with (Z.of_nat 0).
  eapply go_on_result; [apply bytes_loop_spec; lia|]. intros i Hi Hpi. cbv beta in Hpi.
  eapply (go_on_result _ _ _ _ _ (fun _ => True)).
  - destruct (Z.ltb_spec hi 128); [|by apply go_result_past; [lia|]].
    destruct Hex as [?|Hex]; [lia|]. by apply in_words_spec; try lia.
  - intros j Hj _. eapply go_result_post; [apply bytes_loop_spec; lia|].
    by intros ? [->|?].
Qed.
End Scans.

(** ** Sets of characters *)

Definition in_set (chars : list Z) (c : Z) : bool := existsb (Z.eqb c) chars.
Definition set_is (set : buffer) (chars : list Z) : Prop :=
  length set = 32%nat /\ is_bytes set /\
  forall c, is_u8 c -> Z.testbit (nth (Z.to_nat (Z.shiftr c 3)) set 0) (Z.land c 7) = in_set chars c.

Lemma shiftr_3 c : Z.shiftr c 3 = c / 8.
Proof. rewrite Z.shiftr_div_pow2 by lia. done. Qed.
Lemma land_7 c : Z.land c 7 = c mod 8.
Proof. change 7 with (Z.ones 3). by rewrite Z.land_ones by lia. Qed.
Lemma char_bit j : 0 <= j < 8 -> u8 (Z.shiftl 1 j) = 2 ^ j.
Proof.
  intros Hj. rewrite Z.shiftl_1_l. apply u8_id. pose proof (Z.pow_lt_mono_r 2 j 8 ltac:(lia) ltac:(lia) ltac:(lia)).
  pose proof (Z.pow_nonneg 2 j ltac:(lia)). zb.
Qed.
Lemma pow2_u8 j : 0 <= j < 8 -> is_u8 (2 ^ j).
Proof. intros Hj. rewrite <-char_bit by done. apply u8_range. Qed.

Lemma char_set_has_ok set chars c : set_is set chars -> is_u8 c ->
  lh_str_ptr_char_set_has set c = Done (in_set chars c).
Proof.
  intros (Hl & Hb & Hs) Hc. unfold lh_str_ptr_char_set_has. rewrite load_nth by (rewrite Hl, shiftr_3; zdm).
  rewrite bind_done, <-Hs by done. rewrite (land_7 c), char_bit, land_pow2 by zdm. rewrite <-land_7.
  destruct (Z.testbit _ _); [|done]. rewrite (proj2 (Z.eqb_neq _ _)); [done|].
  rewrite land_7. pose proof (Z.pow_pos_nonneg 2 (c mod 8) ltac:(lia) ltac:(zdm)). lia.
Qed.
Lemma fill_step set chars b : set_is set chars -> is_u8 b ->
  set_is (<[Z.to_nat (Z.shiftr b 3) :=
    u8 (Z.lor (nth (Z.to_nat (Z.shiftr b 3)) set 0) (u8 (Z.shiftl 1 (Z.land b 7))))]> set) (chars ++ [b]).
Proof.
  intros (Hl & Hb & Hs) Hu. split_and!.
  - by rewrite length_insert.
  - apply Forall_insert; [done|]. apply u8_range.
  - intros c Hc. unfold in_set. rewrite existsb_app. cbn [existsb]. rewrite orb_false_r.
    fold (in_set chars c). rewrite <-Hs by done. rewrite !land_7, !shiftr_3, char_bit by zdm.
    rewrite !nth_lookup.
    assert (is_u8 (default 0 (set !! Z.to_nat (b / 8)))) as Hx.
    { destruct (lookup_lt_is_Some_2 set (Z.to_nat (b / 8))) as [x Hx]; [rewrite Hl; zdm|].
      rewrite Hx. by eapply Forall_lookup_1. }
    destruct (decide (c / 8 = b / 8)) as [E|Hne].
    + rewrite E, list_lookup_insert_eq by (rewrite Hl; zdm). cbn [default from_option id].
      rewrite u8_id by (apply lor_u8; [done|apply pow2_u8; zdm]).
      rewrite Z.lor_spec, Z.pow2_bits_eqb by zdm. f_equal.
      destruct (Z.eqb_spec (b mod 8) (c mod 8)), (Z.eqb_spec c b); try done; zdm.
    + rewrite list_lookup_insert_ne by zdm. rewrite (proj2 (Z.eqb_neq c b)) by congruence.
      by rewrite orb_false_r.
Qed.
Lemma fill_loop_spec chars : is_bytes chars -> forall set before, set_is set before ->
  exists set', fill_loop set chars = Done set' /\ set_is set' (before ++ chars).
Proof.
  induction 1 as [|b chars Hb Hc IH]; intros set before Hs; cbn [fill_loop].
  - exists set. by rewrite app_nil_r.
  - pose proof Hs as (Hl & Hbs & _). rewrite load_nth, bind_done by (rewrite Hl, shiftr_3; zdm).
    rewrite put_ok, bind_done by (rewrite Hl, shiftr_3; zdm).
    destruct (IH _ _ (fill_step _ _ _ Hs Hb)) as (set' & -> & Hs').
    exists set'. by rewrite <-app_assoc in Hs'.
Qed.
Lemma fill_char_set_ok chars : is_bytes chars ->
  exists set, lh_str_ptr_fill_char_set (local LH_STR_PTR_CHAR_SET_BYTES) chars (len chars) = Done set
    /\ set_is set chars.
Proof.
  intros Hc. unfold lh_str_ptr_fill_char_set.
  change (set_bytes (local LH_STR_PTR_CHAR_SET_BYTES) 0 0 LH_STR_PTR_CHAR_SET_BYTES) with (Done (replicate 32 0)).
  rewrite bind_done, (proj2 (Z.leb_le _ _)), Nat2Z.id, firstn_all by lia.
  apply (fill_loop_spec chars Hc _ []). split_and!; [done|apply Forall_replicate; zb|].
  intros c Hcu. rewrite nth_lookup, lookup_replicate_2 by (rewrite shiftr_3; zdm). cbn [default from_option id in_set existsb]. apply Z.bits_0.
Qed.

(** ** Runs of characters *)

(** The characters ascend one by one, and there are at least two. *)
Definition run_of (chars : list Z) : option (Z * Z) :=
  match chars with
  | first :: _ :: _ =>
    if bool_decide (chars = seqZ first (len chars)) then Some (first, first + len chars - 1) else None
  | _ => None
  end.

Lemma seqZ_lanes a : seqZ a 8 = [a; a + 1; a + 2; a + 3; a + 4; a + 5; a + 6; a + 7].
Proof.
  unfold seqZ. change (Z.to_nat 8) with 8%nat. cbn [seq fmap list_fmap].
  repeat match goal with |- ?x :: _ = ?y :: _ => replace x with y by lia; apply (f_equal (cons y)) end. done.
Qed.
Lemma run_word a : 0 <= a <= 248 ->
  u64 (u64 (a * LH_BIT_SWAR_ONES) + LH_BIT_SWAR_RAMP) = le_word (seqZ a 8).
Proof.
  intros Ha. rewrite seqZ_lanes. change LH_BIT_SWAR_ONES with 72340172838076673.
  unfold LH_BIT_SWAR_RAMP. cbn [le_word]. rewrite (u64_id (a * _)), u64_id by zb. lia.
Qed.
Section Run.
Context (chars : list Z) (Hc : is_bytes chars) (first : Z) (Hfirst : 0 <= first).
Context (Hlast : first + len chars <= 256).

Definition run_to (k : nat) : Prop := take k chars = seqZ first (Z.of_nat k).
Lemma run_to_app k n : (k + n <= length chars)%nat ->
  run_to (k + n) <-> run_to k /\ take n (drop k chars) = seqZ (first + Z.of_nat k) (Z.of_nat n).
Proof using.
  intros Hn. unfold run_to. rewrite Nat2Z.inj_add, seqZ_app by lia. rewrite <-take_take_drop. split.
  - apply app_inj_1. rewrite length_take, length_seqZ. lia.
  - by intros [-> ->].
Qed.
Lemma range_words_spec fuel : forall i, (length chars - i < fuel)%nat -> (i <= length chars)%nat -> run_to i ->
  exists r, range_words fuel chars (len chars) first (Z.of_nat i) = Done r /\
    match r with
    | None => ~ run_to (length chars)
    | Some j => exists k, j = Z.of_nat k /\ (k <= length chars)%nat /\ run_to k
    end.
Proof using Hc Hfirst Hlast.
  induction fuel as [|fuel IH]; intros i Hf Hi Hr; [lia|]. cbn [range_words].
  destruct (Z.leb_spec (Z.of_nat i + 8) (len chars)); [|exists (Some (Z.of_nat i)); split; [done|by exists i]].
  unfold load_usize. rewrite !(proj2 (Z.leb_le _ _)), Nat2Z.id by lia. cbn [andb]. rewrite bind_done.
  rewrite (u64_id (first + Z.of_nat i)), run_word by zb.
  assert (length (take 8 (drop i chars)) = 8%nat) as Hl by (rewrite length_take, length_drop; lia).
  assert (is_bytes (take 8 (drop i chars))) as Hb by by apply Forall_take, Forall_drop.
  assert (is_bytes (seqZ (first + Z.of_nat i) 8)) as Hz.
  { apply Forall_seqZ. intros x Hx. zb. }
  destruct (run_to_app i 8 ltac:(lia)) as [Hsplit Hjoin].
  destruct (Z.eqb_spec (le_word (take 8 (drop i chars))) (le_word (seqZ (first + Z.of_nat i) 8))) as [E|Hne];
    cbn [negb].
  - apply le_word_inj in E; [|done..]. replace (Z.of_nat i + 8) with (Z.of_nat (i + 8)) by lia.
    apply IH; [lia|lia|]. by apply Hjoin.
  - exists None. split; [done|]. intros Hall. apply Hne. f_equal.
    replace (length chars) with (i + 8 + (length chars - (i + 8)))%nat in Hall by lia.
    apply run_to_app in Hall as [Hall _]; [|lia]. by apply Hsplit in Hall as [_ Hall].
Qed.
Lemma range_bytes_spec fuel : forall i, (length chars - i < fuel)%nat -> (i <= length chars)%nat -> run_to i ->
  exists r, range_bytes fuel chars (len chars) first (Z.of_nat i) = Done r /\ (r = true <-> run_to (length chars)).
Proof using Hc Hfirst Hlast.
  induction fuel as [|fuel IH]; intros i Hf Hi Hr; [lia|]. cbn [range_bytes].
  destruct (Z.ltb_spec (Z.of_nat i) (len chars)).
  2:{ exists true. split; [done|]. by assert (length chars = i) as -> by lia. }
  destruct (lookup_lt_is_Some_2 chars i) as [b Hb]; [lia|]. rewrite (load_ok _ _ _ Hb), bind_done.
  assert (take 1 (drop i chars) = [b]) as Ht by by rewrite (drop_S _ _ _ Hb).
  destruct (run_to_app i 1 ltac:(lia)) as [Hsplit Hjoin]. rewrite u8_id by zb.
  destruct (Z.eqb_spec b (first + Z.of_nat i)) as [->|Hne]; cbn [negb].
  - replace (Z.of_nat i + 1) with (Z.of_nat (i + 1)) by lia. apply IH; [lia|lia|]. apply Hjoin.
    split; [done|]. rewrite Ht. unfold seqZ. cbn. f_equal; lia.
  - exists false. split; [done|]. split; [done|]. intros Hall. destruct Hne.
    replace (length chars) with (i + 1 + (length chars - (i + 1)))%nat in Hall by lia.
    apply run_to_app in Hall as [Hall _]; [|lia]. apply Hsplit in Hall as [_ Hall].
    rewrite Ht in Hall. unfold seqZ in Hall. cbn in Hall. injection Hall. lia.
Qed.
End Run.
Lemma chars_ascending_range_spec chars : is_bytes chars -> len chars < 2 ^ 63 ->
  lh_str_ptr_chars_ascending_range chars (len chars) = Done (run_of chars).
Proof.
  intros Hc Hn. unfold lh_str_ptr_chars_ascending_range, run_of.
  destruct chars as [|first [|second rest]]; [done..|]. set (l := first :: second :: rest) in *.
  assert (2 <= len l) as H2 by (unfold l; cbn [length]; lia).
  assert (is_u8 first) as Hu by by inversion Hc.
  rewrite (proj2 (Z.ltb_ge _ _)) by done. rewrite (load_ok l 0 first eq_refl : load l 0 = _), bind_done.
  rewrite (u64_id (first + len l)), u64_id by zb. rewrite Z.gtb_ltb.
  assert (forall i, (i < length l)%nat -> l = seqZ first (len l) -> l !! i = Some (first + Z.of_nat i)) as Hat.
  { intros i Hi E. rewrite E. apply lookup_seqZ. lia. }
  destruct (Z.ltb_spec 255 (first + len l - 1)) as [Hbig|Hbig].
  { rewrite bind_done, bool_decide_eq_false_2; [done|]. intros E.
    pose proof (Forall_lookup_1 _ _ _ _ Hc (Hat (length l - 1)%nat ltac:(lia) E)). zb. }
  destruct (lookup_lt_is_Some_2 l (length l - 1)) as [b Hb]; [lia|].
  replace (len l - 1) with (Z.of_nat (length l - 1)) by lia. rewrite (load_ok _ _ _ Hb), bind_done, u8_id by zb.
  destruct (Z.eqb_spec b (first + len l - 1)) as [->|Hne]; cbn [negb]; rewrite bind_done.
  2:{ rewrite bool_decide_eq_false_2; [done|]. intros E. apply Hne.
      specialize (Hat (length l - 1)%nat ltac:(lia) E). rewrite Hb in Hat.
      assert (b = first + Z.of_nat (length l - 1)) by congruence. lia. }
  assert (run_to l first (length l) <-> l = seqZ first (len l)) as Hrun by (unfold run_to; by rewrite firstn_all).
  destruct (range_words_spec l Hc first ltac:(zb) ltac:(lia) (S (length l)) 0) as ([j|] & Hj & Hr); [lia|lia|done| |];
    change (Z.of_nat 0) with 0 in Hj; rewrite Hj, bind_done.
  - destruct Hr as (k & -> & Hk & Hr).
    destruct (range_bytes_spec l Hc first ltac:(zb) ltac:(lia) (S (length l)) k) as (r & -> & Hb'); [lia|lia|done|].
    rewrite bind_done. rewrite Hrun in Hb'. destruct r; cbn [negb].
    + by rewrite bool_decide_eq_true_2 by by apply Hb'.
    + rewrite bool_decide_eq_false_2; [done|]. intros E. by apply Hb' in E.
  - rewrite bool_decide_eq_false_2; [done|]. by rewrite <-Hrun.
Qed.
Lemma in_set_elem chars c : in_set chars c = bool_decide (c ∈ chars).
Proof.
  unfold in_set. induction chars as [|x chars IH]; cbn [existsb]; [done|]. rewrite IH.
  destruct (Z.eqb_spec c x) as [<-|Hne]; cbn [orb].
  - symmetry. apply bool_decide_eq_true_2. set_solver.
  - apply bool_decide_ext. set_solver.
Qed.
Lemma run_of_some chars lo hi : run_of chars = Some (lo, hi) ->
  is_bytes chars -> 0 <= lo <= hi /\ forall c, in_set chars c = is_in lo hi c.
Proof.
  unfold run_of. destruct chars as [|first [|second rest]]; [done..|].
  set (l := first :: second :: rest) in *. intros H Hb. case_bool_decide as E; [|done].
  assert (lo = first /\ hi = first + len l - 1) as [-> ->] by by injection H.
  assert (is_u8 first) by by inversion Hb.
  assert (2 <= len l) by (unfold l; cbn [length]; lia).
  split; [zb|]. intros c. rewrite in_set_elem. unfold is_in. rewrite Z.geb_leb.
  assert (c ∈ l <-> first <= c <= first + len l - 1) as Hin.
  { rewrite E at 1. rewrite elem_of_seqZ. lia. }
  destruct (Z.leb_spec first c), (Z.leb_spec c (first + len l - 1)); cbn [andb];
    (apply bool_decide_eq_true_2 || apply bool_decide_eq_false_2); rewrite Hin; lia.
Qed.

(** ** The loops over a set *)

Section Search.
Context (base : Z) (s : buffer) (Hs : is_bytes s).

(** Where the first byte from [i] on lies. *)
Definition first_from (hit : Z -> bool) (n i : nat) : option Z :=
  (fun k => Z.of_nat (i + k)) <$> index_of hit (drop i (take n s)).
Lemma first_from_end hit n : first_from hit n n = None.
Proof using. unfold first_from. rewrite drop_ge; [done|]. rewrite length_take. lia. Qed.
Lemma first_from_step hit n i b : (i < n)%nat -> s !! i = Some b ->
  first_from hit n i = if hit b then Some (Z.of_nat i) else first_from hit n (S i).
Proof using.
  intros Hi Hb. unfold first_from. rewrite (drop_S _ b) by by rewrite lookup_take_lt.
  cbn [index_of]. destruct (hit b); cbn [fmap option_fmap option_map]; [do 2 f_equal; lia|].
  destruct (index_of _ _); cbn; [do 2 f_equal; lia|done].
Qed.
Lemma set_loop_spec want set chars n : set_is set chars -> (n <= length s)%nat ->
  forall fuel i, (n - i < fuel)%nat -> (i <= n)%nat ->
  set_loop s fuel want (Z.of_nat n) set (Z.of_nat i)
  = Done (first_from (fun c => eqb (in_set chars c) want) n i).
Proof using Hs.
  intros Hset Hn. induction fuel as [|fuel IH]; intros i Hf Hi; [lia|]. cbn [set_loop].
  destruct (Z.ltb_spec (Z.of_nat i) (Z.of_nat n)).
  2:{ assert (i = n) as -> by lia. by rewrite first_from_end. }
  destruct (lookup_lt_is_Some_2 s i) as [b Hb]; [lia|]. rewrite (load_ok _ _ _ Hb), bind_done.
  rewrite (char_set_has_ok _ _ _ Hset (Forall_lookup_1 _ _ _ _ Hs Hb)), bind_done.
  rewrite (first_from_step _ n i b) by (done || lia). destruct (eqb _ _); [done|].
  replace (Z.of_nat i + 1) with (Z.of_nat (S i)) by lia. apply IH; lia.
Qed.
Lemma pair_loop_spec a c n : (n <= length s)%nat ->
  forall fuel i, (n - i < fuel)%nat -> (i <= n)%nat ->
  pair_loop s fuel (Z.of_nat n) a c (Z.of_nat i) = Done (first_from (in_set [a; c]) n i).
Proof using.
  intros Hn. induction fuel as [|fuel IH]; intros i Hf Hi; [lia|]. cbn [pair_loop].
  destruct (Z.ltb_spec (Z.of_nat i) (Z.of_nat n)).
  2:{ assert (i = n) as -> by lia. by rewrite first_from_end. }
  destruct (lookup_lt_is_Some_2 s i) as [b Hb]; [lia|]. rewrite (load_ok _ _ _ Hb), bind_done.
  rewrite (first_from_step _ n i b) by (done || lia). unfold in_set. cbn [existsb]. rewrite orb_false_r.
  destruct ((b =? a) || (b =? c)); [done|].
  replace (Z.of_nat i + 1) with (Z.of_nat (S i)) by lia. apply IH; lia.
Qed.
Lemma first_from_0 hit n : first_from hit n 0 = Z.of_nat <$> index_of hit (take n s).
Proof using. unfold first_from. by rewrite drop_0. Qed.
End Search.

(** What a search for a character of a set is to find. *)
Definition first_in (chars s : list Z) (n : Z) : option Z :=
  Z.of_nat <$> index_of (fun c => bool_decide (c ∈ chars)) (take (Z.to_nat n) s).
Definition first_not_in (chars s : list Z) (n : Z) : option Z :=
  Z.of_nat <$> index_of (fun c => negb (bool_decide (c ∈ chars))) (take (Z.to_nat n) s).
Lemma index_of_same (p q : Z -> bool) l : (forall c, p c = q c) -> index_of p l = index_of q l.
Proof. intros H. apply index_of_ext, Forall_true. auto. Qed.

Lemma find_not_of_chars_spec base s n chars :
  is_bytes s -> is_bytes chars -> 0 <= n <= len s -> len chars < 2 ^ 63 ->
  lh_str_ptr_find_not_of_chars base s n chars (len chars) = Done (first_not_in chars s n).
Proof.
  intros Hs Hc Hn Hl. unfold lh_str_ptr_find_not_of_chars, first_not_in.
  rewrite chars_ascending_range_spec, bind_done by done.
  destruct (run_of chars) as [[lo hi]|] eqn:Er.
  - destruct (run_of_some _ _ _ Er Hc) as [Hlo Hin]. rewrite find_byte_not_in_range_spec by (done || lia).
    do 2 f_equal. apply index_of_same. intros c. by rewrite <-in_set_elem, Hin, not_in_outside, is_in_outside, negb_involutive.
  - destruct (fill_char_set_ok chars Hc) as (set & -> & Hset). rewrite bind_done.
    destruct (Z_of_nat_complete n) as [k ->]; [lia|]. rewrite Nat2Z.id. change 0 with (Z.of_nat 0).
    rewrite (set_loop_spec _ Hs _ _ chars) by (done || lia). rewrite first_from_0.
    do 2 f_equal. apply index_of_same. intros c. rewrite in_set_elem. by destruct (bool_decide _).
Qed.

(** Claim C34: the search for the first character that is not one of a set gives its index, for any
    text at any address and any set, and no index when all characters are of the set; it
    never loads outside the text, nor a word at an address that is not a multiple of eight,
    though it reads eight and sixteen bytes at a time when the set is a run of characters. *)
Theorem find_not_of_chars_is_search base s n chars :
  is_bytes s -> is_bytes chars -> 0 <= n <= len s -> len chars < 2 ^ 63 ->
  lh_str_ptr_find_not_of_chars base s n chars (len chars) = Done (first_not_in chars s n).
Proof. apply find_not_of_chars_spec. Qed.

(** The search for the first character of a set gives its index, and no index when there is
    none, for every set that is not a run of three or more ASCII characters, and for such a
    run when the text has no character below the run and none beyond ASCII. *)
Theorem find_of_chars_is_search base s n chars :
  is_bytes s -> is_bytes chars -> 0 <= n <= len s -> len chars < 2 ^ 63 ->
  (forall lo hi, run_of chars = Some (lo, hi) ->
     len chars <= 2 \/ 128 <= hi \/ Forall (fun b => lo <= b < 128) s) ->
  lh_str_ptr_find_of_chars base s n chars (len chars) = Done (first_in chars s n).
Proof.
  intros Hs Hc Hn Hl Hex. unfold lh_str_ptr_find_of_chars, first_in.
  destruct (Z_of_nat_complete n) as [k ->]; [lia|]. rewrite Nat2Z.id.
  destruct chars as [|a [|b [|d rest]]]; cbn [length].
  - change (Z.of_nat 0 =? 0) with true. cbv iota. rewrite (index_of_same _ (fun _ => false)) by done.
    by rewrite (proj2 (index_of_none _ _)) by by apply Forall_true.
  - change (Z.of_nat 1 =? 0) with false. change (Z.of_nat 1 =? 1) with true. cbv iota.
    rewrite (load_ok [a] 0 a eq_refl : load [a] 0 = _), bind_done.
    unfold lh_str_ptr_find_of_char. rewrite (proj2 (Z.leb_le _ _)), Nat2Z.id by lia. do 2 f_equal.
    apply index_of_same. intros c. rewrite <-in_set_elem. cbn. by rewrite orb_false_r.
  - change (Z.of_nat 2 =? 0) with false. change (Z.of_nat 2 =? 1) with false.
    change (Z.of_nat 2 =? 2) with true. cbv iota.
    rewrite (load_ok [a; b] 0 a eq_refl : load [a; b] 0 = _), bind_done.
    rewrite (load_ok [a; b] 1 b eq_refl : load [a; b] 1 = _), bind_done. change 0 with (Z.of_nat 0).
    rewrite pair_loop_spec, first_from_0 by lia. do 2 f_equal. apply index_of_same. intros c. apply in_set_elem.
  - rewrite !(proj2 (Z.eqb_neq _ _)) by lia. set (l := a :: b :: d :: rest) in *.
    change (S (S (S (length rest)))) with (length l).
    rewrite chars_ascending_range_spec, bind_done by done. destruct (run_of l) as [[lo hi]|] eqn:Er.
    + destruct (run_of_some _ _ _ Er Hc) as [Hlo Hin].
      assert (2 < len l) by (unfold l; cbn [length]; lia).
      rewrite find_byte_in_range_spec, Nat2Z.id; [|done|lia|done|destruct (Hex lo hi eq_refl); [lia|done]].
      do 2 f_equal. apply index_of_same. intros c. by rewrite <-in_set_elem, Hin.
    + destruct (fill_char_set_ok l Hc) as (set & -> & Hset). rewrite bind_done. change 0 with (Z.of_nat 0).
      rewrite (set_loop_spec _ Hs _ _ l) by (done || lia). rewrite first_from_0.
      do 2 f_equal. apply index_of_same. intros c. rewrite in_set_elem. by destruct (bool_decide _).
Qed.

(** The digits are such a run. *)
Definition digits : list Z := seqZ 48 10.
Lemma find_not_of_chars_is_search_witness :
  lh_str_ptr_find_not_of_chars 0 (replicate 20 50 ++ [32; 51]) 22 digits 10 = Done (Some 20).
Proof.
  etransitivity; [apply (find_not_of_chars_is_search 0 _ 22 digits)|vm_compute; done].
  - repeat constructor; zb.
  - repeat constructor; zb.
  - vm_compute. done.
  - vm_compute. done.
Defined.
Lemma find_of_chars_is_search_witness :
  lh_str_ptr_find_of_chars 0 (replicate 20 60 ++ [51; 60; 60; 60]) 24 digits 10 = Done (Some 20).
Proof.
  etransitivity; [apply (find_of_chars_is_search 0 _ 24 digits)|vm_compute; done].
  - repeat constructor; zb.
  - repeat constructor; zb.
  - vm_compute. done.
  - vm_compute. done.
  - intros lo hi H. vm_compute in H. injection H as <- <-. right. right. repeat constructor; lia.
Defined.

(** *** Where it misses *)

Lemma hidden_marks lo hi b : 0 <= b < lo -> lo <= hi < 128 ->
  outside_marks lo hi (b :: lo :: replicate 6 b) = replicate 8 true.
Proof.
  intros Hb Hlo. unfold outside_marks.
  assert (forall a l, zip_with orb (replicate (length l) true) (above_marks (127 - hi) a l)
    = replicate (length l) true) as Hor.
  { intros a l. revert a. induction l as [|x l IH]; intros a; [done|].
    cbn [above_marks replicate length zip_with]. by rewrite IH. }
  assert (forall n k, 0 <= k <= 1 -> below_marks lo k (replicate n b) = replicate n true) as Hrest.
  { induction n as [|n IH]; intros k Hk; [done|]. cbn [replicate below_marks].
    rewrite (proj2 (Z.ltb_lt b (lo + k))) by lia. rewrite IH by lia. f_equal. unfold below_mark.
    rewrite (proj2 (Z.leb_le 128 _)), (proj2 (Z.ltb_lt b 128)) by zdm. done. }
  assert (below_marks lo 0 (b :: lo :: replicate 6 b) = replicate 8 true) as ->.
  { cbn [below_marks]. rewrite (proj2 (Z.ltb_lt b (lo + 0))), (proj2 (Z.ltb_lt lo (lo + 1))) by lia.
    rewrite Hrest by lia. unfold below_mark. rewrite !(proj2 (Z.leb_le 128 _)) by zdm.
    by rewrite !(proj2 (Z.ltb_lt _ 128)) by lia. }
  apply (Hor 0 (b :: lo :: replicate 6 b)).
Qed.

(** Claim C35: the search for a run of three or more ASCII characters overlooks the first of them
    behind a smaller byte when both lie in one word of the memory: it answers that the text
    holds none of the characters, at every address that is a multiple of eight, though the
    text's second character is one of them. *)
Theorem find_of_chars_overlooks base chars lo hi b :
  is_bytes chars -> len chars < 2 ^ 63 -> run_of chars = Some (lo, hi) -> 2 < len chars ->
  0 <= b < lo -> hi < 128 -> base mod 8 = 0 ->
  let s := b :: lo :: replicate 6 b in
  lh_str_ptr_find_of_chars base s 8 chars (len chars) = Done None /\ first_in chars s 8 = Some 1.
Proof.
  intros Hc Hl Hr Hn Hb Hhi Ha. destruct (run_of_some _ _ _ Hr Hc) as [Hlo Hin]. cbv zeta. split.
  - unfold lh_str_ptr_find_of_chars. rewrite !(proj2 (Z.eqb_neq _ _)) by lia.
    rewrite chars_ascending_range_spec, bind_done, Hr by done.
    unfold lh_str_ptr_find_byte_in_range. rewrite (proj2 (Z.ltb_lt hi 128)) by done.
    assert (aligned base 0 = true) as Ha0 by (unfold aligned; rewrite Z.add_0_r; by apply Z.eqb_eq).
    set (s := b :: lo :: replicate 6 b). change (length s) with 8%nat. cbv zeta.
    assert (is_bytes s) as Hs by (unfold s; repeat constructor; zb).
    change (bytes_loop s 9 (aligned base) (is_in lo hi) 8 0) with
      (if negb (aligned base 0) then b ← load s 0; if is_in lo hi b : bool then mret (at_ 0) else
         bytes_loop s 8 (aligned base) (is_in lo hi) 8 1 else mret (past 0)).
    rewrite Ha0. cbn [negb]. unfold go_on at 1. cbn [mbind outcome_bind mret outcome_ret].
    assert (in_words base s 9 8 (lh_bit_swar_broadcast lo) (lh_bit_swar_broadcast (127 - hi)) 0
      = Done (past 8)) as ->; [|done].
    cbn [in_words]. change (0 + 8 <=? 8) with true. cbv iota.
    rewrite (word_load_ok base s 0 Ha0 ltac:(unfold s; simpl; lia) : word_load base s 0 = _), bind_done.
    change (lanes s 0) with s. rewrite outside_mask_marks by (done || zb).
    unfold s at 1 2. rewrite hidden_marks by lia. done.
  - unfold first_in. change (take (Z.to_nat 8) _) with (b :: lo :: replicate 6 b). cbn [index_of].
    rewrite <-!in_set_elem, !Hin. unfold is_in. rewrite !Z.geb_leb.
    rewrite (proj2 (Z.leb_gt lo b)), Z.leb_refl, (proj2 (Z.leb_le lo hi)) by lia. done.
Qed.
Lemma find_of_chars_overlooks_witness :
  let s := [32; 48; 32; 32; 32; 32; 32; 32] in
  lh_str_ptr_find_of_chars 0 s 8 digits 10 = Done None /\ first_in digits s 8 = Some 1.
Proof.
  apply (find_of_chars_overlooks 0 digits 48 57 32); try (vm_compute; done).
  repeat constructor; zb.
Defined.

(** ** The NUL *)

Notation is_nul := (fun b => b =? 0).
Section Nul.
Context (base : Z) (s : buffer) (Hs : is_bytes s).

Lemma zero_word i : (i + 8 <= length s)%nat ->
  (lh_bit_swar_zero_mask (le_word (lanes s i)) =? 0)
  = match index_of is_nul (lanes s i) with Some _ => false | None => true end.
Proof using Hs.
  intros Hi. pose proof (lanes_length s i Hi) as Hl. pose proof (lanes_bytes s Hs i) as Hb.
  rewrite zero_mask_marks by done. pose proof (zero_marks_first (lanes s i) Hb) as Hf.
  destruct (index_of is_nul (lanes s i)) as [l|] eqn:E.
  - apply Z.eqb_neq. by eapply marks_some.
  - by rewrite marks_none.
Qed.
Lemma lanes_loop_spec i l : (i + 8 <= length s)%nat -> index_of is_nul (lanes s i) = Some l ->
  lanes_loop s 9 (Z.of_nat i) 0 = Done (Some (Z.of_nat i + Z.of_nat l)).
Proof using.
  intros Hi (b & Hb & Hz & Hl & Hf)%index_of_inv. rewrite lanes_length in Hl by done.
  assert (forall fuel j, (j <= l)%nat -> (l - j < fuel)%nat ->
    lanes_loop s fuel (Z.of_nat i) (Z.of_nat j) = Done (Some (Z.of_nat i + Z.of_nat l))) as H.
  { induction fuel as [|fuel IH]; intros j Hj Hfu; [lia|]. cbn [lanes_loop].
    rewrite (proj2 (Z.ltb_lt _ _)) by lia. rewrite <-Nat2Z.inj_add.
    destruct (lookup_lt_is_Some_2 (lanes s i) j) as [c Hc]; [rewrite lanes_length by done; lia|].
    rewrite (load_ok _ _ _ (lanes_at _ _ _ _ Hc)), bind_done.
    destruct (decide (j = l)) as [->|Hne].
    - assert (c = b) as -> by congruence. by rewrite Hz, Nat2Z.inj_add.
    - rewrite (Forall_lookup_1 _ _ j c Hf) by (rewrite lookup_take_lt by lia; done).
      replace (Z.of_nat j + 1) with (Z.of_nat (S j)) by lia. apply IH; lia. }
  apply (H 9%nat 0%nat); lia.
Qed.
Lemma nul_word i (A : Type) (f : option Z -> outcome A) : (i + 8 <= length s)%nat ->
  (at_lane ← (if negb (lh_bit_swar_zero_mask (le_word (lanes s i)) =? 0)
              then lanes_loop s 9 (Z.of_nat i) 0 else mret None); f at_lane)
  = f ((fun l => Z.of_nat i + Z.of_nat l) <$> index_of is_nul (lanes s i)).
Proof using Hs.
  intros Hi. rewrite zero_word by done. destruct (index_of is_nul (lanes s i)) as [l|] eqn:E; [|done].
  cbn [negb]. by rewrite (lanes_loop_spec i l), bind_done.
Qed.
Lemma nul_words_by_size_spec n : (n <= length s)%nat -> forall fuel i, (n - i < fuel)%nat -> (i <= n)%nat ->
  (i = n \/ aligned base (Z.of_nat i) = true) ->
  go_result s is_nul n i (nul_words_by_size base s fuel (Z.of_nat n) (Z.of_nat i)) (fun _ => True).
Proof using Hs.
  intros Hn. induction fuel as [|fuel IH]; intros i Hf Hi Ha; [lia|]. cbn [nul_words_by_size].
  destruct (Z.leb_spec (Z.of_nat i + 8) (Z.of_nat n)); [|by apply go_result_past].
  destruct Ha as [->|Ha]; [lia|]. rewrite word_load_ok, bind_done by (done || lia).
  rewrite nul_word by lia. destruct (index_of is_nul (lanes s i)) as [l|] eqn:E.
  - by apply word_hit; [lia|..].
  - apply (go_result_step _ _ _ _ (i + 8)); [lia|by apply word_miss; [lia|]|].
    cbn [fmap option_fmap option_map].
    replace (Z.of_nat i + 8) with (Z.of_nat (i + 8)) by lia. apply IH; [lia|lia|].
    right. by apply aligned_next.
Qed.
(** Within a size the search is the search for a byte 0. *)
Lemma find_of_null_terminator_by_size_spec n : 0 <= n <= len s ->
  lh_str_ptr_find_of_null_terminator_by_size base s n
  = Done (Z.of_nat <$> index_of is_nul (take (Z.to_nat n) s)).
Proof using Hs.
  intros Hn. destruct (Z_of_nat_complete n) as [k ->]; [lia|]. rewrite Nat2Z.id.
  unfold lh_str_ptr_find_of_null_terminator_by_size.
  destruct (Z.eqb_spec (Z.of_nat k) 0) as [E|_]; [by assert (k = 0%nat) as -> by lia|].
  cbv zeta. apply found_first; [lia|]. change 0 with (Z.of_nat 0) at 3.
  eapply go_on_result; [apply bytes_loop_spec; lia|]. intros i Hi Hpi. cbv beta in Hpi.
  eapply (go_on_result _ _ _ _ _ _ (fun _ => True)); [by apply nul_words_by_size_spec; try lia|].
  intros j Hj _. eapply go_result_post; [apply bytes_loop_spec; lia|]. by intros ? [->|?].
Qed.

(** Without a size: the NUL at [k] is reached, and the word that holds it is readable. *)
Context (k : nat) (Hk : s !! k = Some 0) (Hnone : none s is_nul 0 k).
Context (Hword : (k + 8 - Z.to_nat ((base + Z.of_nat k) mod 8) <= length s)%nat).

Lemma nul_bytes_spec fuel i : (i <= k)%nat -> (k - i < fuel)%nat ->
  nul_bytes base s fuel (Z.of_nat i) = Done (at_ (Z.of_nat k)) \/
  exists j, nul_bytes base s fuel (Z.of_nat i) = Done (past (Z.of_nat j)) /\ (j <= k)%nat /\
    aligned base (Z.of_nat j) = true.
Proof using Hk Hnone.
  clear Hword. revert i. induction fuel as [|fuel IH]; intros i Hi Hf; [lia|]. cbn [nul_bytes].
  destruct (aligned base (Z.of_nat i)) eqn:Ea; cbn [negb]; [right; by exists i|].
  destruct (lookup_lt_is_Some_2 s i) as [b Hb]; [apply lookup_lt_Some in Hk; lia|].
  rewrite (load_ok _ _ _ Hb), bind_done. destruct (decide (i = k)) as [->|Hne].
  - left. rewrite Hb in Hk. by injection Hk as ->.
  - rewrite (Hnone i b ltac:(lia) Hb). replace (Z.of_nat i + 1) with (Z.of_nat (S i)) by lia.
    apply IH; lia.
Qed.
Lemma nul_words_spec fuel i : (i <= k)%nat -> (k - i < fuel)%nat -> aligned base (Z.of_nat i) = true ->
  nul_words base s fuel (Z.of_nat i) = Done (Z.of_nat k).
Proof using Hs Hk Hnone Hword.
  revert i. induction fuel as [|fuel IH]; intros i Hi Hf Ha; [lia|]. cbn [nul_words].
  assert (i + 8 <= length s)%nat as Hfit.
  { unfold aligned in Ha. apply Z.eqb_eq in Ha. apply lookup_lt_Some in Hk as Hlt.
    assert (i <= k - Z.to_nat ((base + Z.of_nat k) mod 8))%nat by zdm. zdm. }
  rewrite word_load_ok, bind_done by (done || lia). rewrite nul_word by lia.
  destruct (index_of is_nul (lanes s i)) as [l|] eqn:E; cbn [fmap option_fmap option_map].
  - apply index_of_inv in E as (b & Hb & Hz & Hl & Hf'). rewrite lanes_length in Hl by lia.
    apply lanes_at in Hb as Hsb. destruct (decide (i + l < k)%nat) as [Hlt|Hge].
    + by rewrite (Hnone (i + l)%nat b ltac:(lia) Hsb) in Hz.
    + destruct (decide (i + l = k)%nat) as [<-|Hne]; [by rewrite Nat2Z.inj_add|]. exfalso.
      assert (lanes s i !! (k - i)%nat = Some 0) as H0.
      { unfold lanes. rewrite lookup_take_lt, lookup_drop by lia. by replace (i + (k - i))%nat with k by lia. }
      pose proof (Forall_lookup_1 _ _ (k - i)%nat 0 Hf') as Hc. cbv beta in Hc.
      rewrite lookup_take_lt in Hc by lia. by specialize (Hc H0).
  - assert (i + 8 <= k)%nat.
    { destruct (decide (i + 8 <= k)%nat); [done|]. apply index_of_none in E.
      assert (lanes s i !! (k - i)%nat = Some 0) as H0.
      { unfold lanes. rewrite lookup_take_lt, lookup_drop by lia. by replace (i + (k - i))%nat with k by lia. }
      by pose proof (Forall_lookup_1 _ _ (k - i)%nat 0 E H0). }
    replace (Z.of_nat i + 8) with (Z.of_nat (i + 8)) by lia. apply IH; [lia|lia|]. by apply aligned_next.
Qed.
Lemma len_spec : lh_str_ptr_len base s = Done (Z.of_nat k).
Proof using Hs Hk Hnone Hword.
  unfold lh_str_ptr_len, lh_str_ptr_find_of_null_terminator. apply lookup_lt_Some in Hk as Hlt.
  change 0 with (Z.of_nat 0).
  destruct (nul_bytes_spec (S (length s)) 0) as [->|(j & -> & Hj & Ha)]; [lia|lia|done|].
  rewrite bind_done. apply nul_words_spec; [done|lia|done].
Qed.
End Nul.

(** The length of a NUL-terminated text is the number of bytes before its NUL, at every
    address, though the code reads whole words; it stays inside the object when the word that
    the NUL lies in does.  With a size it never reads beyond the size. *)
Theorem len_of_text base t rest :
  is_bytes t -> is_bytes rest -> Forall (fun b => b <> 0) t ->
  8 - (base + len t) mod 8 <= 1 + len rest ->
  lh_str_ptr_len base (t ++ 0 :: rest) = Done (len t) /\
  (forall n, 0 <= n <= len (t ++ 0 :: rest) ->
     lh_str_ptr_find_of_null_terminator_by_size base (t ++ 0 :: rest) n
     = Done (if n <=? len t then None else Some (len t))).
Proof.
  intros Ht Hr Hnz Hfit.
  assert (is_bytes (t ++ 0 :: rest)) as Hb by (apply Forall_app_2; [done|by constructor]).
  assert (Forall (fun b => (b =? 0) = false) t) as Hz by (eapply Forall_impl; [exact Hnz|]; intros; by apply Z.eqb_neq).
  split.
  - apply len_spec; [done|by apply list_lookup_middle| |].
    + intros m b Hm Hmb. rewrite lookup_app_l in Hmb by lia. by apply (Forall_lookup_1 _ _ _ _ Hz Hmb).
    + rewrite length_app. cbn [length]. pose proof (Z.mod_pos_bound (base + len t) 8 ltac:(lia)). lia.
  - intros n Hn. rewrite find_of_null_terminator_by_size_spec by done. f_equal.
    destruct (Z.leb_spec n (len t)).
    + rewrite take_app_le by lia. rewrite (proj2 (index_of_none _ _)); [done|]. by apply Forall_take.
    + rewrite take_app_ge by lia. destruct (Z.to_nat n - length t)%nat as [|m] eqn:E; [lia|].
      cbn [take]. by rewrite index_of_some.
Qed.
Lemma len_of_text_witness : lh_str_ptr_len 3 ([104; 101; 108; 108; 111] ++ 0 :: replicate 7 0) = Done 5.
Proof.
  apply (len_of_text 3 [104; 101; 108; 108; 111] (replicate 7 0)).
  - repeat constructor; zb.
  - repeat constructor; zb.
  - repeat constructor; lia.
  - vm_compute. done.
Defined.
