(* ===== verification/DateText.v ===== *)
(** * Times and dates as text: the code

    [lh/core/str/split/next.c], [lh_str_ptr_split_next_uint_digits] of
    [str/parse/uint.c], and the [parse] and [format] functions of [lh/core/time.c],
    [date.c] and [datetime.c].  A field is a pointer into the text.  Out-parameters go
    in and come out; the null checks on [lh_time_t *], [lh_date_t *] and
    [lh_datetime_t *] are not modelled, as in [TimeOfDay]. *)
From S2P Require Import Prelude Buffer Bytes Digits Format TimeOfDay Date Timestamp.

(** What [lh_str_ptr_find_of_chars] promises: where the first of [str_size] characters
    that is one of [chars_size] given ones is. *)
Definition find_of_chars (str : option buffer) (str_size : Z) (chars : option buffer)
    (chars_size : Z) : outcome (option Z) :=
  s ← assert_set str;
  cs ← assert_set chars;
  if (str_size <=? len s) && (chars_size <=? len cs) then
    let set := take (Z.to_nat chars_size) cs in
    mret (Z.of_nat <$> index_of (fun c => bool_decide (c ∈ set)) (take (Z.to_nat str_size) s))
  else Undef.

(** ** Splitting *)

(** The new position, the field, its size, and whether a delimiter ended it; [None] is
    the answer [lh_bool_false], with nothing stored. *)
Definition lh_str_ptr_split_next_of (str : option buffer) (str_size : Z)
    (delims : option buffer) (delim_count pos : Z)
    : outcome (option (Z * option buffer * Z * bool)) :=
  _ ← assert_set str;
  let start := pos in
  if start >=? str_size then mret None else
  let rest := u64 (str_size - start) in
  let from := ptr_add str start in
  delim_at ← find_of_chars from rest delims delim_count;
  match delim_at with
  | Some n => mret (Some (u64 (u64 (start + n) + 1), from, n, true))
  | None => mret (Some (str_size, from, rest, false))
  end.
Definition lh_str_ptr_split_next (str : option buffer) (str_size delim pos : Z)
    : outcome (option (Z * option buffer * Z * bool)) :=
  lh_str_ptr_split_next_of str str_size (Some [delim]) 1 pos.

Definition lh_str_ptr_split_next_uint_digits (str : option buffer) (str_size delim pos max : Z)
    (out : option Z) (want_delim : bool) : outcome (Z * option Z * bool) :=
  next ← lh_str_ptr_split_next str str_size delim pos;
  match next with
  | None => mret (pos, out, false)
  | Some (pos, field, field_size, had_delim) =>
    '(out, ok) ← lh_str_ptr_parse_uint_digits field field_size max out;
    if negb ok then mret (pos, out, false)
    else mret (pos, out, bool_decide (had_delim = want_delim))
  end.

(** ** Times *)

Definition LH_TIME_TEXT_MAX : Z := 8.

(** The locals that receive a number are [Some 0] before they do. *)
Definition lh_time_parse (str : option buffer) (str_size : Z) (out : lh_time_t)
    : outcome (lh_time_t * bool) :=
  '(pos, hour, ok) ← lh_str_ptr_split_next_uint_digits str str_size lh_char_map_colon 0
    LH_TIME_HOUR_MAX (Some 0) true;
  if negb ok then mret (out, false) else
  '(pos, minute, ok) ← lh_str_ptr_split_next_uint_digits str str_size lh_char_map_colon pos
    LH_TIME_MINUTE_MAX (Some 0) true;
  if negb ok then mret (out, false) else
  '(pos, second, ok) ← lh_str_ptr_split_next_uint_digits str str_size lh_char_map_colon pos
    LH_TIME_SECOND_MAX (Some 0) false;
  if negb ok then mret (out, false) else
  hour ← assert_set hour;
  minute ← assert_set minute;
  second ← assert_set second;
  mret (lh_time_set out (u8 hour) (u8 minute) (u8 second), true).

(** ["%02u:%02u:%02u"] *)
Definition time_mask : buffer := [37; 48; 50; 117; 58; 37; 48; 50; 117; 58; 37; 48; 50; 117; 0].
Definition lh_time_format (self : lh_time_t) (str : option buffer) (str_size : Z)
    : outcome (option buffer * Z) :=
  lh_str_ptr_format_text str str_size (Some time_mask)
    [va_uint (lh_time_get_hour self); va_uint (lh_time_get_minute self);
     va_uint (lh_time_get_second self)].

(** ** Dates *)

Definition LH_DATE_TEXT_MAX : Z := 11.

Definition lh_date_parse_by (str : option buffer) (str_size separator : Z) (out : lh_date_t)
    : outcome (lh_date_t * bool) :=
  '(pos, year, ok) ← lh_str_ptr_split_next_uint_digits str str_size separator 0
    LH_DATE_YEAR_MAX (Some 0) true;
  if negb ok then mret (out, false) else
  '(pos, month, ok) ← lh_str_ptr_split_next_uint_digits str str_size separator pos
    LH_DATE_MONTH_MAX (Some 0) true;
  if negb ok then mret (out, false) else
  '(pos, day, ok) ← lh_str_ptr_split_next_uint_digits str str_size separator pos
    LH_DATE_DAY_MAX (Some 0) false;
  if negb ok then mret (out, false) else
  year ← assert_set year;
  month ← assert_set month;
  day ← assert_set day;
  if negb (lh_date_ymd_is_valid year month day) then mret (out, false) else
  mret (lh_date_set out (u16 year) (u8 month) (u8 day), true).
Definition lh_date_parse (str : option buffer) (str_size : Z) (out : lh_date_t)
    : outcome (lh_date_t * bool) :=
  lh_date_parse_by str str_size lh_char_map_slash out.

(** ["%u%c%02u%c%02u"] *)
Definition date_mask : buffer := [37; 117; 37; 99; 37; 48; 50; 117; 37; 99; 37; 48; 50; 117; 0].
(** A [char] is passed as an [int]; on this target [char] is signed. *)
Definition char_arg (ch : Z) : lh_va_arg := va_sint (if ch <? 128 then ch else ch - 256).
Definition lh_date_format_by (self : lh_date_t) (str : option buffer) (str_size separator : Z)
    : outcome (option buffer * Z) :=
  lh_str_ptr_format_text str str_size (Some date_mask)
    [va_uint (lh_date_get_year self); char_arg separator;
     va_uint (lh_date_get_month self); char_arg separator;
     va_uint (lh_date_get_day self)].
Definition lh_date_format (self : lh_date_t) (str : option buffer) (str_size : Z)
    : outcome (option buffer * Z) :=
  lh_date_format_by self str str_size lh_char_map_slash.

(** ** Date-times *)

Definition LH_DATETIME_TEXT_MAX : Z := LH_DATE_TEXT_MAX + 1 + LH_TIME_TEXT_MAX.

Definition lh_datetime_parse (str : option buffer) (str_size : Z) (out : lh_datetime_t)
    : outcome (lh_datetime_t * bool) :=
  next ← lh_str_ptr_split_next str str_size lh_char_map_space 0;
  match next with
  | None => mret (out, false)
  | Some (pos, date_field, date_size, had_delim) =>
    if negb had_delim then mret (out, false) else
    next ← lh_str_ptr_split_next str str_size lh_char_map_space pos;
    match next with
    | None => mret (out, false)
    | Some (pos, time_field, time_size, had_delim) =>
      if had_delim : bool then mret (out, false) else
      '(date, ok) ← lh_date_parse date_field date_size (mk_date 0 0 0);
      if negb ok then mret (out, false) else
      '(time, ok) ← lh_time_parse time_field time_size (mk_time 0 0 0);
      if negb ok then mret (out, false) else
      mret (lh_datetime_set out date time, true)
    end
  end.
(** The text is put together in a local array first. *)
Definition lh_datetime_format (self : lh_datetime_t) (str : option buffer) (str_size : Z)
    : outcome (option buffer * Z) :=
  let scratch := local LH_DATETIME_TEXT_MAX in
  let date := lh_datetime_get_date self in
  let time := lh_datetime_get_time self in
  '(scratch, date_len) ← lh_date_format date (Some scratch) LH_DATE_TEXT_MAX;
  scratch ← assert_set scratch;
  if date_len =? 0 then mret (str, 0) else
  scratch ← put scratch date_len lh_char_map_space;
  '(scratch, time_len) ← fill_from scratch (u64 (date_len + 1))
    (fun p => lh_time_format time p LH_TIME_TEXT_MAX);
  if time_len =? 0 then mret (str, 0) else
  let total := u64 (u64 (date_len + 1) + time_len) in
  if total >? str_size then mret (str, 0) else
  s ← assert_set str;
  s ← copy_bytes s 0 scratch total;
  mret (Some s, total).
