(* ===== verification/DateTextProofs.v ===== *)
(** * Times and dates as text: correctness

    A text is split into its fields in one way; the parsers accept the texts of three
    numbers within the limits, with or without leading zeros, and nothing else; and
    they read what the formatters write. *)
From S2P Require Import Prelude Buffer Bytes Digits DigitsProofs Format FormatProofs TimeOfDay Date DateProofs Timestamp DateText.

(** ** Splitting *)

(** A text is a field without the delimiter, then nothing, or the delimiter and more. *)
Definition plain (d : Z) (x : list Z) : Prop := Forall (fun c => c <> d) x.
Lemma split_text d s : exists x, plain d x /\ (s = x \/ exists r, s = x ++ d :: r).
Proof.
  induction s as [|c s (x & Hx & Hs)]; [by exists []; split; [constructor|left]|].
  destruct (decide (c = d)) as [->|Hc].
  - exists []. split; [constructor|]. right. by exists s.
  - exists (c :: x). split; [by constructor|]. destruct Hs as [->|[r ->]]; [by left|right; by exists r].
Qed.
Lemma plain_none d x : plain d x -> Forall (fun c => bool_decide (c ∈ [d]) = false) x.
Proof.
  intros Hx. eapply Forall_impl; [exact Hx|]. intros c Hc. apply bool_decide_eq_false.
  by intros ->%list_elem_of_singleton.
Qed.

Lemma split_next_last d p x : plain d x -> x <> [] -> len (p ++ x) < 18446744073709551616 ->
  lh_str_ptr_split_next (Some (p ++ x)) (len (p ++ x)) d (len p)
  = Done (Some (len (p ++ x), Some x, len x, false)).
Proof.
  intros Hx Hne Hl. unfold lh_str_ptr_split_next, lh_str_ptr_split_next_of. cbn [assert_set].
  rewrite length_app in *. rewrite Z.geb_leb, (proj2 (Z.leb_gt _ _)) by (destruct x; [done|simpl; lia]).
  rewrite bind_done. unfold ptr_add. cbn [fmap option_fmap option_map].
  rewrite Nat2Z.id, drop_app_length, u64_id by zb.
  replace (_ - _) with (len x) by lia. unfold find_of_chars. cbn [assert_set].
  rewrite !bind_done. rewrite (proj2 (Z.leb_le _ _)) by lia. cbn [length Z.leb andb].
  change (Z.of_nat 1) with 1. change (1 <=? 1) with true. cbn [andb].
  rewrite Nat2Z.id, firstn_all. change (take (Z.to_nat 1) [d]) with [d].
  rewrite (proj2 (index_of_none _ _) (plain_none d x Hx)). cbn [mret outcome_ret]. rewrite bind_done. done.
Qed.
Lemma split_next_more d p x r : plain d x -> len (p ++ x ++ d :: r) < 18446744073709551616 ->
  lh_str_ptr_split_next (Some (p ++ x ++ d :: r)) (len (p ++ x ++ d :: r)) d (len p)
  = Done (Some (len (p ++ x ++ [d]), Some (x ++ d :: r), len x, true)).
Proof.
  intros Hx Hl. unfold lh_str_ptr_split_next, lh_str_ptr_split_next_of. cbn [assert_set].
  rewrite !length_app in *. cbn [length] in *. rewrite Z.geb_leb, (proj2 (Z.leb_gt _ _)) by lia.
  rewrite bind_done. unfold ptr_add. cbn [fmap option_fmap option_map].
  rewrite Nat2Z.id, drop_app_length, u64_id by zb.
  replace (_ - _) with (len (x ++ d :: r)) by (rewrite length_app; cbn [length]; lia).
  unfold find_of_chars. cbn [assert_set].
  rewrite !bind_done. rewrite (proj2 (Z.leb_le _ _)) by lia. cbn [length Z.leb andb].
  change (Z.of_nat 1) with 1. change (1 <=? 1) with true. cbn [andb].
  rewrite Nat2Z.id, firstn_all. change (take (Z.to_nat 1) [d]) with [d].
  rewrite (index_of_some _ x d r) by (try apply plain_none; done || by apply bool_decide_eq_true, list_elem_of_singleton).
  cbn [mret outcome_ret fmap option_fmap option_map]. rewrite bind_done. cbv iota.
  rewrite (u64_id (len p + len x)), u64_id by zb. do 5 f_equal. lia.
Qed.
Lemma split_next_end d s n : len s <= n -> lh_str_ptr_split_next (Some s) (len s) d n = Done None.
Proof.
  intros Hn. unfold lh_str_ptr_split_next, lh_str_ptr_split_next_of. cbn [assert_set].
  by rewrite bind_done, Z.geb_leb, (proj2 (Z.leb_le _ _)) by lia.
Qed.

Lemma plain_unique d x r : plain d x -> forall y q, plain d y -> x ++ d :: r = y ++ d :: q -> x = y /\ r = q.
Proof.
  induction 1 as [|a x Ha Hx IH]; intros y q Hy E; destruct Hy as [|b y Hb Hy]; cbn [app] in E.
  - by injection E as <-.
  - by injection E as <-.
  - by injection E as ->.
  - injection E as <- E. by destruct (IH y q Hy E) as [-> ->].
Qed.
Lemma plain_app d x r : ~ plain d (x ++ d :: r).
Proof. intros [_ Hd]%Forall_app. by inversion Hd. Qed.

(** ** Numbers in fields *)

(** The number a field stands for, when it is one and not too large. *)
Definition field_value (max : Z) (x : list Z) : option Z :=
  match x, numeral dvalue 10 x with
  | _ :: _, Some v => if v <=? max then Some v else None
  | _, _ => None
  end.
Lemma accepts_field max x o :
  accepts dvalue 10 max x o
  = match field_value max x with Some v => (Some v, true) | None => (Some o, false) end.
Proof. unfold accepts, field_value. destruct x; [done|]. destruct (numeral _ _ _); [|done]. by case_match. Qed.
Lemma horner_plain d x : lh_char_is_digit d = false -> forall acc v,
  horner dvalue 10 acc x = Some v -> plain d x.
Proof.
  intros Hd. induction x as [|c x IH]; intros acc v; cbn [horner]; [constructor|].
  destruct (dvalue c) as [e|] eqn:E; [|done]. intros Hv. constructor; [|by eapply IH].
  intros ->. unfold dvalue in E. by rewrite Hd in E.
Qed.
Lemma field_plain d max x v : lh_char_is_digit d = false -> field_value max x = Some v -> plain d x.
Proof.
  intros Hd. unfold field_value, numeral. destruct x as [|c x]; [done|].
  destruct (horner _ _ _ _) eqn:E; [|done]. intros _. by eapply horner_plain.
Qed.
Lemma field_range max x v : field_value max x = Some v -> 0 <= v <= max.
Proof.
  unfold field_value. destruct x as [|c x]; [done|]. destruct (numeral _ _ _) as [w|] eqn:E; [|done].
  apply numeral_nonneg in E. destruct (Z.leb_spec w max); [|done]. intros [= <-]. lia.
Qed.

Section Fields.
Context (d max : Z) (Hmax : 0 <= max <= LH_UINT_T_MAX).

Lemma uint_last p x want : plain d x -> x <> [] -> len (p ++ x) < 18446744073709551616 ->
  exists out, lh_str_ptr_split_next_uint_digits (Some (p ++ x)) (len (p ++ x)) d (len p) max (Some 0) want
  = Done (len (p ++ x), out, match field_value max x with Some _ => negb want | None => false end) /\
  (forall v, field_value max x = Some v -> out = Some v).
Proof using Hmax.
  intros Hx Hne Hl. unfold lh_str_ptr_split_next_uint_digits.
  rewrite split_next_last by done. rewrite bind_done. cbv iota beta.
  rewrite length_app in Hl. rewrite parse_uint_digits_spec by (zb || lia).
  rewrite Nat2Z.id, firstn_all, accepts_field, bind_done.
  destruct (field_value max x) as [v|]; cbn [negb].
  - exists (Some v). split; [by destruct want|]. by intros ? [= <-].
  - by exists (Some 0).
Qed.
Lemma uint_more p x r want : plain d x -> len (p ++ x ++ d :: r) < 18446744073709551616 ->
  exists out, lh_str_ptr_split_next_uint_digits (Some (p ++ x ++ d :: r)) (len (p ++ x ++ d :: r)) d (len p)
    max (Some 0) want
  = Done (len (p ++ x ++ [d]), out, match field_value max x with Some _ => want | None => false end) /\
  (forall v, field_value max x = Some v -> out = Some v).
Proof using Hmax.
  intros Hx Hl. unfold lh_str_ptr_split_next_uint_digits.
  rewrite split_next_more by done. rewrite bind_done. cbv iota beta.
  rewrite !length_app in Hl. cbn [length] in Hl.
  rewrite parse_uint_digits_spec by (rewrite ?length_app; zb).
  rewrite Nat2Z.id, take_app_length, accepts_field, bind_done.
  destruct (field_value max x) as [v|]; cbn [negb].
  - exists (Some v). split; [by destruct want|]. by intros ? [= <-].
  - by exists (Some 0).
Qed.
Lemma uint_end s n want : len s <= n ->
  lh_str_ptr_split_next_uint_digits (Some s) (len s) d n max (Some 0) want = Done (n, Some 0, false).
Proof using. intros Hn. unfold lh_str_ptr_split_next_uint_digits. by rewrite split_next_end. Qed.
(** Nothing past the size is looked at. *)
Lemma uint_junk s j n o want : 0 <= n -> len s < 18446744073709551616 ->
  lh_str_ptr_split_next_uint_digits (Some (s ++ j)) (len s) d n max (Some o) want
  = lh_str_ptr_split_next_uint_digits (Some s) (len s) d n max (Some o) want.
Proof using Hmax.
  intros Hn Hs. unfold lh_str_ptr_split_next_uint_digits, lh_str_ptr_split_next, lh_str_ptr_split_next_of.
  cbn [assert_set]. rewrite !bind_done, Z.geb_leb. destruct (Z.leb_spec (len s) n); [done|].
  unfold ptr_add. cbn [fmap option_fmap option_map]. rewrite drop_app_le by lia.
  set (t := drop (Z.to_nat n) s). assert (len t = len s - n) as Ht by (unfold t; rewrite length_drop; lia).
  rewrite u64_id, <-Ht by zb. unfold find_of_chars. cbn [assert_set].
  rewrite !bind_done, !(proj2 (Z.leb_le _ _)) by (rewrite ?length_app; cbn [length]; lia). cbn [andb].
  rewrite Nat2Z.id, take_app_length, firstn_all. cbn [mret outcome_ret]. rewrite !bind_done.
  change (take (Z.to_nat 1) [d]) with [d].
  destruct (index_of _ t) as [i|] eqn:E; cbn [fmap option_fmap option_map]; rewrite !bind_done.
  - assert (i < length t)%nat.
    { destruct (split_text d t) as (x & Hx & [Ex|[r Ex]]).
      - rewrite Ex, (proj2 (index_of_none _ _) (plain_none d x Hx)) in E. done.
      - rewrite Ex, (index_of_some _ x d r) in E by (try apply plain_none; done || by apply bool_decide_eq_true, list_elem_of_singleton).
        injection E as <-. rewrite Ex, length_app. cbn [length]. lia. }
    rewrite !parse_uint_digits_spec by (rewrite ?length_app; zb). by rewrite Nat2Z.id, take_app_le by lia.
  - rewrite !parse_uint_digits_spec by (rewrite ?length_app; zb). by rewrite Nat2Z.id, take_app_length, firstn_all.
Qed.
End Fields.

(** Three numbers with a delimiter between them. *)
Definition three (d M1 M2 M3 : Z) (s : list Z) (a b c : Z) : Prop :=
  exists x y z, s = x ++ d :: y ++ d :: z /\ field_value M1 x = Some a /\
    field_value M2 y = Some b /\ field_value M3 z = Some c.

Section Three.
Context (d M1 M2 M3 : Z) (Hd : lh_char_is_digit d = false)
  (H1 : 0 <= M1 <= LH_UINT_T_MAX) (H2 : 0 <= M2 <= LH_UINT_T_MAX) (H3 : 0 <= M3 <= LH_UINT_T_MAX).

(** A field in the middle: another one has to follow. *)
Lemma middle_field M p t j : 0 <= M <= LH_UINT_T_MAX -> len (p ++ t) < 18446744073709551616 ->
  let run := lh_str_ptr_split_next_uint_digits (Some ((p ++ t) ++ j)) (len (p ++ t)) d (len p) M (Some 0) true in
  (exists x r v, t = x ++ d :: r /\ field_value M x = Some v /\
     run = Done (len (p ++ x ++ [d]), Some v, true)) \/
  (exists pos o, run = Done (pos, o, false) /\
     forall x r v, field_value M x = Some v -> t <> x ++ d :: r).
Proof using Hd.
  intros HM Hl run. unfold run. rewrite uint_junk by (done || lia). destruct (split_text d t) as (x & Hx & [->|[r ->]]).
  - right. destruct (decide (x = [])) as [->|Hne].
    { rewrite app_nil_r, uint_end by done. do 2 eexists. split; [done|]. by intros [] ? ? ?. }
    destruct (uint_last d M HM p x true Hx Hne Hl) as (o & -> & _). do 2 eexists.
    split; [by destruct (field_value M x)|]. intros y r v _ ->. by apply plain_app in Hx.
  - destruct (uint_more d M HM p x r true Hx Hl) as (o & -> & Ho).
    destruct (field_value M x) as [v|] eqn:E.
    + left. exists x, r, v. by rewrite (Ho v) by done.
    + right. do 2 eexists. split; [done|]. intros y q v Hv Ey.
      apply plain_unique in Ey as [<- <-]; [by rewrite E in Hv|done|by eapply field_plain].
Qed.
(** The last field. *)
Lemma last_field M p t j : 0 <= M <= LH_UINT_T_MAX -> len (p ++ t) < 18446744073709551616 ->
  let run := lh_str_ptr_split_next_uint_digits (Some ((p ++ t) ++ j)) (len (p ++ t)) d (len p) M (Some 0) false in
  (exists pos v, field_value M t = Some v /\ run = Done (pos, Some v, true)) \/
  (exists pos o, run = Done (pos, o, false) /\ field_value M t = None).
Proof using Hd.
  intros HM Hl run. unfold run. rewrite uint_junk by (done || lia). destruct (split_text d t) as (x & Hx & [->|[r ->]]).
  - destruct (decide (x = [])) as [->|Hne].
    { right. rewrite app_nil_r, uint_end by done. by do 2 eexists. }
    destruct (uint_last d M HM p x false Hx Hne Hl) as (o & -> & Ho).
    destruct (field_value M x) as [v|] eqn:E; [left|right].
    + exists (len (p ++ x)), v. by rewrite (Ho v) by done.
    + by do 2 eexists.
  - right. destruct (uint_more d M HM p x r false Hx Hl) as (o & -> & _). do 2 eexists.
    split; [by destruct (field_value M x)|]. destruct (field_value M (x ++ d :: r)) eqn:E; [|done].
    apply field_plain with (d := d) in E; [|done]. by apply plain_app in E.
Qed.

Lemma three_fields {A} s j (go : option Z -> option Z -> option Z -> outcome A) (fail : outcome A) :
  len s < 18446744073709551616 ->
  let run :=
    '(pos, o1, ok) ← lh_str_ptr_split_next_uint_digits (Some (s ++ j)) (len s) d 0 M1 (Some 0) true;
    if negb ok then fail else
    '(pos, o2, ok) ← lh_str_ptr_split_next_uint_digits (Some (s ++ j)) (len s) d pos M2 (Some 0) true;
    if negb ok then fail else
    '(pos, o3, ok) ← lh_str_ptr_split_next_uint_digits (Some (s ++ j)) (len s) d pos M3 (Some 0) false;
    if negb ok then fail else go o1 o2 o3 in
  (exists a b c, three d M1 M2 M3 s a b c /\ run = go (Some a) (Some b) (Some c)) \/
  (run = fail /\ forall a b c, ~ three d M1 M2 M3 s a b c).
Proof using Hd H1 H2 H3.
  intros Hs run.
  destruct (middle_field M1 [] s j H1 Hs) as [(x & r & a & -> & Ea & E1)|(pos & o & E1 & Hno)];
    cbn [app length] in E1; change (Z.of_nat 0) with 0 in E1; unfold run; rewrite E1, bind_done; cbn [negb].
  2:{ right. split; [done|]. intros a b c (x & y & z & E & Ea & _). by apply (Hno x (y ++ d :: z) a). }
  assert (plain d x) as Hx by by eapply field_plain.
  replace (x ++ d :: r) with ((x ++ [d]) ++ r) in * by (by rewrite <-app_assoc).
  destruct (middle_field M2 (x ++ [d]) r j H2 Hs) as [(y & q & b & -> & Eb & E2)|(pos & o & E2 & Hno)];
    rewrite E2, bind_done; cbn [negb].
  2:{ right. split; [done|]. intros a' b c (x' & y & z & E & Ea' & Eb & _).
      rewrite <-app_assoc in E. apply plain_unique in E as [<- ->]; [|done|by eapply field_plain].
      by apply (Hno y z b). }
  assert (plain d y) as Hy by by eapply field_plain.
  replace ((x ++ [d]) ++ y ++ d :: q) with ((x ++ [d] ++ y ++ [d]) ++ q) in * by (by rewrite <-!app_assoc).
  replace ((x ++ [d]) ++ y ++ [d]) with (x ++ [d] ++ y ++ [d]) in * by (by rewrite <-!app_assoc).
  destruct (last_field M3 (x ++ [d] ++ y ++ [d]) q j H3 Hs) as [(pos & c & Ec & E3)|(pos & o & E3 & Hno)];
    rewrite E3, bind_done; cbn [negb]; rewrite <-!app_assoc; [left|right].
  - exists a, b, c. split; [|done]. by exists x, y, q.
  - split; [done|]. intros a' b' c (x' & y' & z & E & Ea' & Eb' & Ec).
    apply plain_unique in E as [<- E]; [|done|by eapply field_plain].
    apply plain_unique in E as [<- <-]; [|done|by eapply field_plain]. by rewrite Hno in Ec.
Qed.
End Three.

(** ** What the formatters write *)

(** At least two digits. *)
Definition pad2 (v : Z) : list Z := replicate (2 - length (decimal v)) 48 ++ decimal v.
Lemma pad2_length v : 0 <= v < 100 -> len (pad2 v) = 2.
Proof.
  intros Hv. pose proof (decimal_length v ltac:(zb)).
  pose proof (decimal_length_pow v 2 ltac:(change (10 ^ Z.of_nat 2) with 100; lia) ltac:(lia)).
  unfold pad2. rewrite length_app, length_replicate. lia.
Qed.
Lemma field_value_padded n max v : is_u64 v -> v <= max ->
  field_value max (replicate n 48 ++ decimal v) = Some v.
Proof.
  intros Hv Hm. destruct (decimal_ok v Hv) as (Hne & Hn & _). unfold field_value.
  destruct (replicate n 48 ++ decimal v) eqn:E; [by apply app_eq_nil in E as [_ ?]|].
  by rewrite <-E, numeral_zeros, Hn, (proj2 (Z.leb_le _ _)) by done.
Qed.
Lemma field_value_pad2 max v : is_u64 v -> v <= max -> field_value max (pad2 v) = Some v.
Proof. apply field_value_padded. Qed.
Lemma field_value_decimal max v : is_u64 v -> v <= max -> field_value max (decimal v) = Some v.
Proof. apply (field_value_padded 0). Qed.

Lemma uint_arg_u32 v : is_u32 v -> uint_arg (va_uint v) = Some v.
Proof. intros. simpl. by rewrite (proj2 (Z.leb_le _ _)), (proj2 (Z.ltb_lt _ _)) by zb. Qed.
(** The field of ["%02u"]. *)
Definition spec_02u (lit : option buffer) : lh_str_scanf_spec_t :=
  Spec lh_str_scanf_spec_kind_uint true false false 2 false 0 lit 0.
Lemma field_02u lit v : is_u64 v -> field_text (spec_02u lit) (decimal v) = pad2 v.
Proof.
  intros Hv. unfold field_text, pad2. cbn [left_justify zero_pad width spec_02u andb].
  by rewrite bool_decide_false by by apply decimal_head.
Qed.
Lemma concat_five {A} (a b c d e : list A) : concat [a; b; c; d; e] = a ++ b ++ c ++ d ++ e.
Proof. cbn [concat]. by rewrite app_nil_r. Qed.

(** Formatting five pieces that fit, or do not. *)
Lemma format_pieces m args ps b size :
  is_mask m -> len m < 1000 -> render (mask_tokens (cstring m [])) args = Some (ps, true) ->
  0 <= size <= len b -> len b < 18446744073709551616 ->
  if len (concat ps) <=? size then
    lh_str_ptr_format_text (Some b) size (Some (cstring m [])) args
    = Done (Some (filled (concat ps) b), len (concat ps))
  else exists b', length b' = length b /\
    lh_str_ptr_format_text (Some b) size (Some (cstring m [])) args = Done (Some b', 0).
Proof.
  intros Hm Hl Hr Hs Hb. unfold lh_str_ptr_format_text, lh_str_ptr_format_text_v. cbn [assert_set].
  rewrite bind_done, (walk_spec m [] args ps true)
    by (done || (unfold all_room; cbn [length]; lia) || (rewrite length_cstring; cbn [length]; lia)).
  destruct (fit_writing b size ps []) as (n & Hn & -> & Hfit & Hx); [cbn [length]; lia|].
  rewrite app_nil_l in *. rewrite (concat_take_full ps n size) by done.
  destruct (Z.leb_spec (len (concat ps)) size) as [Hle|Hgt].
  - destruct (decide (n = length ps)) as [->|Hne]; [by rewrite firstn_all|].
    specialize (Hx ltac:(lia)). rewrite <-(take_drop (S n) ps), concat_app, length_app in Hle. lia.
  - eexists. split; [|done]. apply length_filled. lia.
Qed.

(** ** Times *)

Definition time_text (t : lh_time_t) : list Z :=
  pad2 (hour t) ++ [58] ++ pad2 (minute t) ++ [58] ++ pad2 (second t).
Definition time_reads (s : list Z) (t : lh_time_t) : Prop :=
  three 58 23 59 59 s (hour t) (minute t) (second t).

Lemma time_text_length t : time_valid t -> len (time_text t) = 8.
Proof.
  unfold time_valid, time_text. intros Ht. rewrite !length_app, !Nat2Z.inj_add, !pad2_length by lia. done.
Qed.

Lemma time_pieces t : time_valid t ->
  render (mask_tokens time_mask)
    [va_uint (lh_time_get_hour t); va_uint (lh_time_get_minute t); va_uint (lh_time_get_second t)]
  = Some ([pad2 (hour t); [58]; pad2 (minute t); [58]; pad2 (second t)], true).
Proof.
  intros Ht. unfold time_valid in Ht. destruct t as [h m s]. simpl in Ht.
  unfold lh_time_get_hour, lh_time_get_minute, lh_time_get_second. cbn [hour minute second].
  remember (mask_tokens time_mask) as ts eqn:E. vm_compute in E. subst ts.
  cbn [render kind conv_text mbind option_bind fmap option_fmap option_map].
  rewrite !uint_arg_u32 by zb. cbn [mbind option_bind fmap option_fmap option_map].
  do 2 f_equal. f_equal; [by apply field_02u; zb|]. f_equal. f_equal; [by apply field_02u; zb|].
  do 2 f_equal. by apply field_02u; zb.
Qed.
Lemma time_format_spec t b size : time_valid t -> 0 <= size <= len b -> len b < 18446744073709551616 ->
  if 8 <=? size then lh_time_format t (Some b) size = Done (Some (filled (time_text t) b), 8)
  else exists b', length b' = length b /\ lh_time_format t (Some b) size = Done (Some b', 0).
Proof.
  intros Ht Hs Hb.
  assert (concat [pad2 (hour t); [58]; pad2 (minute t); [58]; pad2 (second t)] = time_text t) as E
    by apply concat_five.
  pose proof (time_text_length t Ht) as El.
  pose proof (format_pieces (removelast time_mask) _ _ b size ltac:(by repeat constructor) eq_refl
    (time_pieces t Ht) Hs Hb) as H.
  rewrite E, El in H. exact H.
Qed.
Lemma time_text_reads t : time_valid t -> time_reads (time_text t) t.
Proof.
  intros Ht. unfold time_valid in Ht. exists (pad2 (hour t)), (pad2 (minute t)), (pad2 (second t)).
  split; [done|]. by rewrite !field_value_pad2 by zb.
Qed.
Lemma three_range d M1 M2 M3 s a b c : three d M1 M2 M3 s a b c ->
  0 <= a <= M1 /\ 0 <= b <= M2 /\ 0 <= c <= M3.
Proof. intros (x & y & z & _ & ?%field_range & ?%field_range & ?%field_range). done. Qed.
Lemma time_parse_spec s j out : len s < 18446744073709551616 ->
  (exists t, time_valid t /\ time_reads s t /\ lh_time_parse (Some (s ++ j)) (len s) out = Done (t, true)) \/
  ((forall t, ~ time_reads s t) /\ lh_time_parse (Some (s ++ j)) (len s) out = Done (out, false)).
Proof.
  intros Hs.
  destruct (three_fields 58 23 59 59 eq_refl ltac:(done) ltac:(done) ltac:(done) s j
    (fun h m c => h ← assert_set h; m ← assert_set m; c ← assert_set c;
                  mret (lh_time_set out (u8 h) (u8 m) (u8 c), true)) (mret (out, false)) Hs)
    as [(h & m & c & Ht & E)|[E Hno]].
  - left. exists (mk_time h m c). apply three_range in Ht as Hr. split; [done|]. split; [done|].
    transitivity (Done (lh_time_set out (u8 h) (u8 m) (u8 c), true)); [exact E|].
    by rewrite !u8_id by zb.
  - right. split; [by intros t Ht; apply Hno in Ht|exact E].
Qed.
Lemma time_parse_plain s out : len s < 18446744073709551616 ->
  (exists t, time_valid t /\ time_reads s t /\ lh_time_parse (Some s) (len s) out = Done (t, true)) \/
  ((forall t, ~ time_reads s t) /\ lh_time_parse (Some s) (len s) out = Done (out, false)).
Proof. intros Hs. pose proof (time_parse_spec s [] out Hs) as H. by rewrite app_nil_r in H. Qed.
Lemma three_inj d M1 M2 M3 s a b c a' b' c' : lh_char_is_digit d = false ->
  three d M1 M2 M3 s a b c -> three d M1 M2 M3 s a' b' c' -> a = a' /\ b = b' /\ c = c'.
Proof.
  intros Hd (x & y & z & -> & Ha & Hb & Hc) (x' & y' & z' & E & Ha' & Hb' & Hc').
  apply plain_unique in E as [<- E]; [|by eapply field_plain..].
  apply plain_unique in E as [<- <-]; [|by eapply field_plain..]. split_and!; congruence.
Qed.
Lemma time_reads_inj s t u : time_reads s t -> time_reads s u -> t = u.
Proof.
  intros Ht Hu. destruct t, u.
  by destruct (three_inj 58 _ _ _ _ _ _ _ _ _ _ eq_refl Ht Hu) as (? & ? & ?); simpl in *; subst.
Qed.

(** A time of day survives its text.  [lh_time_format] writes the eight
    characters HH:MM:SS when there is room for them; [lh_time_parse] reads a text if
    and only if it is three numbers within the limits with colons between them, leading
    zeros allowed, so it reads back what was written, and leaves the result alone
    otherwise. *)
Theorem time_text_roundtrip t b size s out :
  time_valid t -> 8 <= size <= len b -> len b < 18446744073709551616 ->
  len s < 18446744073709551616 ->
  (exists w, len w = 8 /\ lh_time_format t (Some b) size = Done (Some (filled w b), 8) /\
     lh_time_parse (Some w) 8 out = Done (t, true)) /\
  exists r, lh_time_parse (Some s) (len s) out = Done r /\
    (r = (t, true) <-> time_reads s t) /\ (r.2 = false -> r.1 = out).
Proof.
  intros Ht Hs Hb Hl. split.
  - exists (time_text t). pose proof (time_format_spec t b size Ht ltac:(lia) Hb) as Hf.
    rewrite (proj2 (Z.leb_le _ _)) in Hf by lia.
    pose proof (time_text_length t Ht) as El.
    split; [done|]. split; [done|]. rewrite <-El.
    pose proof (time_text_reads t Ht) as Hr.
    destruct (time_parse_plain (time_text t) out ltac:(lia)) as [(t' & _ & Ht' & ->)|[Hno _]].
    + do 2 f_equal. by apply (time_reads_inj (time_text t)).
    + by apply Hno in Hr.
  - destruct (time_parse_plain s out Hl) as [(t' & _ & Ht' & ->)|[Hno ->]]; eexists; (split; [done|]); split; try done.
    + split; [by intros [= ->]|]. intros Hr. f_equal. by apply (time_reads_inj s).
    + split; [done|]. by intros ?%Hno.
Qed.
Lemma time_text_roundtrip_witness :
  let t := mk_time 7 5 59 in let s := [55; 58; 48; 48; 53; 58; 53; 57] in
  (exists w, len w = 8 /\ lh_time_format t (Some (local 12)) 10 = Done (Some (filled w (local 12)), 8) /\
     lh_time_parse (Some w) 8 (mk_time 0 0 0) = Done (t, true)) /\
  exists r, lh_time_parse (Some s) 8 (mk_time 0 0 0) = Done r /\
    (r = (t, true) <-> time_reads s t) /\ (r.2 = false -> r.1 = mk_time 0 0 0).
Proof.
  apply (time_text_roundtrip (mk_time 7 5 59) (local 12) 10 [55; 58; 48; 48; 53; 58; 53; 57]
           (mk_time 0 0 0)); done.
Defined.

(** ** Dates *)

Definition date_text (sep : Z) (d : lh_date_t) : list Z :=
  decimal (year d) ++ [sep] ++ pad2 (month d) ++ [sep] ++ pad2 (day d).
Definition date_reads (sep : Z) (s : list Z) (d : lh_date_t) : Prop :=
  three sep 65535 12 31 s (year d) (month d) (day d) /\ date_valid d.

Lemma date_ranges d : date_valid d -> 0 <= year d <= 65535 /\ 1 <= month d <= 12 /\ 1 <= day d <= 31.
Proof. unfold date_valid, month_length. intros (? & ? & ?). repeat case_match; lia. Qed.
Lemma date_text_length sep d : date_valid d ->
  len (date_text sep d) = len (decimal (year d)) + 6 /\ 1 <= len (decimal (year d)) <= 5.
Proof.
  intros Hd%date_ranges. unfold date_text. rewrite !length_app, !Nat2Z.inj_add, !pad2_length by lia.
  split; [simpl length; lia|]. split; [apply decimal_length; zb|].
  apply (decimal_length_pow _ 5); [change (10 ^ Z.of_nat 5) with 100000; lia|lia].
Qed.
Lemma sint_char sep : is_u8 sep -> u8 <$> sint_arg (char_arg sep) = Some sep.
Proof.
  intros Hs. unfold char_arg, sint_arg. destruct (Z.ltb_spec sep 128);
    rewrite (proj2 (Z.leb_le _ _)), (proj2 (Z.ltb_lt _ _)) by zb; simpl; f_equal; zdm.
Qed.
Lemma date_pieces sep d : is_u8 sep -> date_valid d ->
  render (mask_tokens date_mask)
    [va_uint (lh_date_get_year d); char_arg sep; va_uint (lh_date_get_month d); char_arg sep;
     va_uint (lh_date_get_day d)]
  = Some ([decimal (year d); [sep]; pad2 (month d); [sep]; pad2 (day d)], true).
Proof.
  intros Hs Hd%date_ranges. destruct d as [y m d]. simpl in Hd.
  unfold lh_date_get_year, lh_date_get_month, lh_date_get_day. cbn [year month day].
  pose proof (sint_char sep Hs) as Hc. apply fmap_Some in Hc as (v & Hc & Hv).
  remember (mask_tokens date_mask) as ts eqn:E. vm_compute in E. subst ts.
  cbn [render kind conv_text mbind option_bind fmap option_fmap option_map].
  rewrite !uint_arg_u32, !Hc by zb. cbn [mbind option_bind fmap option_fmap option_map].
  rewrite <-Hv. do 5 f_equal; [by apply field_02u; zb|]. do 2 f_equal. by apply field_02u; zb.
Qed.
Lemma date_format_spec sep d b size : is_u8 sep -> date_valid d ->
  0 <= size <= len b -> len b < 18446744073709551616 ->
  if len (date_text sep d) <=? size then
    lh_date_format_by d (Some b) size sep
    = Done (Some (filled (date_text sep d) b), len (date_text sep d))
  else exists b', length b' = length b /\ lh_date_format_by d (Some b) size sep = Done (Some b', 0).
Proof.
  intros Hp Hd Hs Hb.
  assert (concat [decimal (year d); [sep]; pad2 (month d); [sep]; pad2 (day d)] = date_text sep d) as E
    by apply concat_five.
  pose proof (format_pieces (removelast date_mask) _ _ b size ltac:(by repeat constructor) eq_refl
    (date_pieces sep d Hp Hd) Hs Hb) as H.
  rewrite E in H. exact H.
Qed.
Lemma date_text_reads sep d : date_valid d -> date_reads sep (date_text sep d) d.
Proof.
  intros Hv. apply date_ranges in Hv as Hd. split; [|done].
  exists (decimal (year d)), (pad2 (month d)), (pad2 (day d)).
  split; [done|]. by rewrite field_value_decimal, !field_value_pad2 by zb.
Qed.
Lemma date_reads_inj sep s d e : lh_char_is_digit sep = false ->
  date_reads sep s d -> date_reads sep s e -> d = e.
Proof.
  intros Hs [Hd _] [He _]. destruct d, e.
  by destruct (three_inj sep _ _ _ _ _ _ _ _ _ _ Hs Hd He) as (? & ? & ?); simpl in *; subst.
Qed.
Lemma date_parse_spec sep s j out : lh_char_is_digit sep = false -> len s < 18446744073709551616 ->
  (exists d, date_reads sep s d /\ lh_date_parse_by (Some (s ++ j)) (len s) sep out = Done (d, true)) \/
  ((forall d, ~ date_reads sep s d) /\ lh_date_parse_by (Some (s ++ j)) (len s) sep out = Done (out, false)).
Proof.
  intros Hp Hs.
  destruct (three_fields sep 65535 12 31 Hp ltac:(done) ltac:(done) ltac:(done) s j
    (fun y m d => y ← assert_set y; m ← assert_set m; d ← assert_set d;
                  if negb (lh_date_ymd_is_valid y m d) then mret (out, false) else
                  mret (lh_date_set out (u16 y) (u8 m) (u8 d), true)) (mret (out, false)) Hs)
    as [(y & m & d & Ht & E)|[E Hno]].
  2:{ right. split; [by intros d [Ht _]; apply Hno in Ht|exact E]. }
  apply three_range in Ht as Hr. cbn [assert_set] in E. rewrite !bind_done in E.
  rewrite u16_id, !u8_id in E by zb. pose proof (ymd_valid y m d) as Hv.
  destruct (lh_date_ymd_is_valid y m d); cbn [negb] in E.
  - left. exists (mk_date y m d). split; [|exact E]. split; [done|]. apply Hv; zb || done.
  - right. split; [|exact E]. intros [y' m' d'] [Ht' Hd'].
    destruct (three_inj sep _ _ _ _ _ _ _ _ _ _ Hp Ht Ht') as (-> & -> & ->). simpl in *.
    apply Hv in Hd'; done || zb.
Qed.

Lemma date_parse_plain sep s out : lh_char_is_digit sep = false -> len s < 18446744073709551616 ->
  (exists d, date_reads sep s d /\ lh_date_parse_by (Some s) (len s) sep out = Done (d, true)) \/
  ((forall d, ~ date_reads sep s d) /\ lh_date_parse_by (Some s) (len s) sep out = Done (out, false)).
Proof. intros Hp Hs. pose proof (date_parse_spec sep s [] out Hp Hs) as H. by rewrite app_nil_r in H. Qed.

(** A date survives its text, whatever the separator.  [lh_date_format_by]
    writes the year with as many digits as it has, two digits for the month and for
    the day, when there is room; [lh_date_parse_by] reads a text if and only if it is
    three such numbers that make a date of the calendar, and leaves the result alone
    otherwise. *)
Theorem date_text_roundtrip sep d b s out :
  is_u8 sep -> lh_char_is_digit sep = false -> date_valid d ->
  len b < 18446744073709551616 -> len s < 18446744073709551616 ->
  (exists w, 7 <= len w <= LH_DATE_TEXT_MAX /\
     (len w <= len b -> lh_date_format_by d (Some b) (len b) sep = Done (Some (filled w b), len w)) /\
     (len b < len w -> exists b', lh_date_format_by d (Some b) (len b) sep = Done (Some b', 0)) /\
     lh_date_parse_by (Some w) (len w) sep out = Done (d, true)) /\
  exists r, lh_date_parse_by (Some s) (len s) sep out = Done r /\
    (r = (d, true) <-> date_reads sep s d) /\ (r.2 = false -> r.1 = out).
Proof.
  intros Hp Hdig Hd Hb Hs. split.
  - exists (date_text sep d). destruct (date_text_length sep d Hd) as [El Hy]. unfold LH_DATE_TEXT_MAX.
    pose proof (date_format_spec sep d b (len b) Hp Hd ltac:(lia) Hb) as Hf. split; [lia|].
    destruct (Z.leb_spec (len (date_text sep d)) (len b)).
    all: split_and!; [done || lia|try lia|].
    2:{ intros _. destruct Hf as (b' & _ & ->). by exists b'. }
    all: pose proof (date_text_reads sep d Hd) as Hr;
      destruct (date_parse_plain sep (date_text sep d) out Hdig ltac:(lia)) as [(d' & Hd' & ->)|[Hno _]];
      [by rewrite (date_reads_inj sep _ _ _ Hdig Hd' Hr)|by apply Hno in Hr].
  - destruct (date_parse_plain sep s out Hdig Hs) as [(d' & Hd' & ->)|[Hno ->]]; eexists; (split; [done|]); split; try done.
    + split; [by intros [= <-]|]. intros Hr. by rewrite (date_reads_inj sep _ _ _ Hdig Hd' Hr).
    + split; [done|]. by intros ?%Hno.
Qed.
(** The last day of the range, and a day that no year has. *)
Lemma date_text_roundtrip_witness :
  let d := mk_date 65535 12 31 in let s := [49; 45; 50; 45; 51; 48] in
  (exists w, 7 <= len w <= LH_DATE_TEXT_MAX /\
     (len w <= 11 -> lh_date_format_by d (Some (local 11)) 11 45 = Done (Some (filled w (local 11)), len w)) /\
     (11 < len w -> exists b', lh_date_format_by d (Some (local 11)) 11 45 = Done (Some b', 0)) /\
     lh_date_parse_by (Some w) (len w) 45 (mk_date 0 0 0) = Done (d, true)) /\
  exists r, lh_date_parse_by (Some s) 6 45 (mk_date 0 0 0) = Done r /\
    (r = (d, true) <-> date_reads 45 s d) /\ (r.2 = false -> r.1 = mk_date 0 0 0).
Proof.
  apply (date_text_roundtrip 45 (mk_date 65535 12 31) (local 11) [49; 45; 50; 45; 51; 48] (mk_date 0 0 0));
    [zb|done|by vm_compute; repeat split|done..].
Defined.

(** ** Date-times *)

Definition datetime_valid (t : lh_datetime_t) : Prop := date_valid (date t) /\ time_valid (time t).
Definition datetime_text (t : lh_datetime_t) : list Z :=
  date_text 47 (date t) ++ 32 :: time_text (time t).
Definition datetime_reads (s : list Z) (t : lh_datetime_t) : Prop :=
  exists x y, s = x ++ 32 :: y /\ date_reads 47 x (date t) /\ time_reads y (time t).

Lemma three_plain d e M1 M2 M3 s a b c : lh_char_is_digit e = false -> d <> e ->
  three d M1 M2 M3 s a b c -> plain e s.
Proof.
  intros He Hde (x & y & z & -> & Hx & Hy & Hz). apply Forall_app. split; [by eapply field_plain|].
  constructor; [done|]. apply Forall_app. split; [by eapply field_plain|].
  constructor; [done|by eapply field_plain].
Qed.
Lemma datetime_parts x y t : plain 32 x -> datetime_reads (x ++ 32 :: y) t ->
  date_reads 47 x (date t) /\ time_reads y (time t) /\ plain 32 y.
Proof.
  intros Hx (x' & y' & E & Hd & Ht).
  apply plain_unique in E as [<- <-]; [|done|eapply (three_plain 47); [..|apply Hd]; done].
  split; [done|]. split; [done|]. by eapply (three_plain 58); [..|apply Ht].
Qed.
Lemma datetime_reads_inj s t u : datetime_reads s t -> datetime_reads s u -> t = u.
Proof.
  intros (x & y & -> & Hd & Ht) Hu.
  apply datetime_parts in Hu as (Hd' & Ht' & _); [|eapply (three_plain 47); [..|apply Hd]; done].
  destruct t as [d c], u as [d' c']. simpl in *. f_equal.
  - by eapply (date_reads_inj 47).
  - by eapply time_reads_inj.
Qed.
Lemma datetime_parse_spec s out : len s < 18446744073709551616 ->
  (exists t, datetime_reads s t /\ lh_datetime_parse (Some s) (len s) out = Done (t, true)) \/
  ((forall t, ~ datetime_reads s t) /\ lh_datetime_parse (Some s) (len s) out = Done (out, false)).
Proof.
  intros Hs. unfold lh_datetime_parse, lh_char_map_space.
  destruct (split_text 32 s) as (x & Hx & [->|[r ->]]).
  { right. split; [intros t (? & ? & -> & _); by apply plain_app in Hx|].
    destruct (decide (x = [])) as [->|Hne]; [by rewrite (split_next_end 32 [] 0)|].
    pose proof (split_next_last 32 [] x Hx Hne Hs) as E. cbn [app length] in E.
    change (Z.of_nat 0) with 0 in E. by rewrite E. }
  pose proof (split_next_more 32 [] x r Hx Hs) as E. cbn [app length] in E.
  change (Z.of_nat 0) with 0 in E. rewrite E, bind_done. cbn [negb]. clear E.
  replace (x ++ 32 :: r) with ((x ++ [32]) ++ r) in * by (by rewrite <-app_assoc).
  destruct (split_text 32 r) as (y & Hy & [->|[q ->]]).
  2:{ right. rewrite split_next_more by done. split; [|done]. intros t Ht. rewrite <-app_assoc in Ht.
      apply datetime_parts in Ht as (_ & _ & Ht); [|done]. by apply plain_app in Ht. }
  destruct (decide (y = [])) as [->|Hne].
  { right. rewrite app_nil_r, split_next_end by done. split; [|done]. intros t Ht. rewrite app_nil_r in *.
    apply datetime_parts in Ht as (_ & (x' & ? & ? & E & _) & _); [|done]. by destruct x'. }
  rewrite split_next_last by done. rewrite bind_done, <-app_assoc. cbn [app]. rewrite !length_app in Hs.
  destruct (date_parse_spec 47 x (32 :: y) (mk_date 0 0 0) eq_refl ltac:(lia)) as [(d & Hd & E)|[Hno E]];
    unfold lh_date_parse, lh_char_map_slash; rewrite E, bind_done; cbn [negb].
  2:{ right. split; [|done]. intros t Ht. apply datetime_parts in Ht as (Ht & _); [|done]. by apply Hno in Ht. }
  destruct (time_parse_plain y (mk_time 0 0 0) ltac:(lia)) as [(c & _ & Hc & ->)|[Hno ->]];
    rewrite bind_done; cbn [negb].
  2:{ right. split; [|done]. intros t Ht. apply datetime_parts in Ht as (_ & Ht & _); [|done]. by apply Hno in Ht. }
  left. exists (mk_datetime d c). split; [by exists x, y|]. destruct d, c. done.
Qed.
Lemma datetime_text_length t : datetime_valid t -> 16 <= len (datetime_text t) <= 20.
Proof.
  intros [Hd Ht]. pose proof (date_text_length 47 _ Hd). pose proof (time_text_length _ Ht).
  unfold datetime_text. rewrite length_app. cbn [length]. lia.
Qed.
Lemma datetime_scratch t : datetime_valid t ->
  let dt := date_text 47 (date t) in
  exists junk,
  ('(scratch, date_len) ← lh_date_format (date t) (Some (local LH_DATETIME_TEXT_MAX)) LH_DATE_TEXT_MAX;
   scratch ← assert_set scratch;
   if date_len =? 0 then mret None else
   scratch ← put scratch date_len lh_char_map_space;
   '(scratch, time_len) ← fill_from scratch (u64 (date_len + 1))
     (fun p => lh_time_format (time t) p LH_TIME_TEXT_MAX);
   if time_len =? 0 then mret None else
   mret (Some (scratch, u64 (u64 (date_len + 1) + time_len))))
  = Done (Some (datetime_text t ++ junk, len (datetime_text t))).
Proof.
  intros [Hd Ht] dt. destruct (date_text_length 47 _ Hd) as [El Hy]. fold dt in El.
  unfold LH_DATETIME_TEXT_MAX, LH_DATE_TEXT_MAX, LH_TIME_TEXT_MAX, lh_date_format, lh_char_map_slash.
  pose proof (date_format_spec 47 (date t) (local 20) 11 ltac:(done) Hd ltac:(done) ltac:(done)) as H.
  fold dt in H. rewrite (proj2 (Z.leb_le _ _)) in H by lia.
  change (11 + 1 + 8) with 20. rewrite H, bind_done. cbn [assert_set]. rewrite bind_done.
  rewrite (proj2 (Z.eqb_neq _ 0)) by lia.
  assert (length (local 20) = 20%nat) as H20 by done.
  rewrite put_filled by (rewrite ?H20; lia). rewrite bind_done, u64_id by zb.
  unfold lh_char_map_space. set (p := dt ++ [32]).
  assert (len p = len dt + 1) as Hp by (unfold p; rewrite length_app; cbn [length]; lia).
  rewrite <-Hp. unfold fill_from, at_offset. rewrite Nat2Z.id.
  rewrite take_filled. unfold filled at 1. rewrite drop_app_length.
  set (tail := drop (length p) (local 20)).
  assert (len tail = 20 - len p) as Htl by (unfold tail; rewrite length_drop, H20; lia).
  pose proof (time_format_spec (time t) tail 8 Ht ltac:(lia) ltac:(lia)) as Hf.
  change (8 <=? 8) with true in Hf. cbv iota in Hf. rewrite Hf.
  pose proof (time_text_length _ Ht) as Hlt.
  exists (drop 8 tail). cbn [mbind outcome_bind assert_set mret outcome_ret Z.eqb].
  unfold filled, datetime_text. fold dt. replace (length (time_text (time t))) with 8%nat by lia.
  do 3 f_equal; [unfold p; by rewrite <-!app_assoc|].
  rewrite length_app. cbn [length]. rewrite u64_id by zb. lia.
Qed.
Lemma datetime_format_spec t b size : datetime_valid t -> 0 <= size <= len b -> len b < 18446744073709551616 ->
  lh_datetime_format t (Some b) size
  = Done (if len (datetime_text t) <=? size
          then (Some (filled (datetime_text t) b), len (datetime_text t)) else (Some b, 0)).
Proof.
  intros Ht Hs Hb. destruct (datetime_scratch t Ht) as (junk & E).
  assert (lh_datetime_format t (Some b) size
    = r ← ('(scratch, date_len) ← lh_date_format (date t) (Some (local LH_DATETIME_TEXT_MAX)) LH_DATE_TEXT_MAX;
           scratch ← assert_set scratch;
           if date_len =? 0 then mret None else
           scratch ← put scratch date_len lh_char_map_space;
           '(scratch, time_len) ← fill_from scratch (u64 (date_len + 1))
             (fun p => lh_time_format (time t) p LH_TIME_TEXT_MAX);
           if time_len =? 0 then mret None else
           mret (Some (scratch, u64 (u64 (date_len + 1) + time_len))));
      match r with
      | None => mret (Some b, 0)
      | Some (scratch, total) =>
        if total >? size then mret (Some b, 0) else
        s ← copy_bytes b 0 scratch total; mret (Some s, total)
      end) as ->.
  { unfold lh_datetime_format. cbv zeta. unfold lh_datetime_get_date, lh_datetime_get_time.
    destruct (lh_date_format _ _ _) as [[s n]| |]; cbn [mbind outcome_bind]; [|done..].
    destruct s as [s|]; cbn [assert_set mbind outcome_bind]; [|done].
    destruct (n =? 0); [done|]. destruct (put _ _ _) as [s'| |]; cbn [mbind outcome_bind]; [|done..].
    destruct (fill_from _ _ _) as [[s'' n']| |]; cbn [mbind outcome_bind]; [|done..].
    by destruct (n' =? 0). }
  rewrite E, bind_done, Z.gtb_ltb. set (x := datetime_text t) in *.
  destruct (Z.ltb_spec size (len x)), (Z.leb_spec (len x) size); try lia; [done|].
  rewrite copy_ok by (rewrite ?length_app; lia).
  rewrite bind_done. cbn [mret outcome_ret]. rewrite Nat2Z.id, take_app_length. cbn [Z.to_nat].
  rewrite take_0. replace (Z.to_nat (0 + len x)) with (length x) by lia. done.
Qed.

(** Claim C33: a date-time survives its text.  [lh_datetime_format] writes the date, a
    space and the time when all of it fits, and leaves the buffer alone when it does
    not; the local array it puts the text together in is large enough for every
    date-time.  [lh_datetime_parse] reads a text if and only if it is a date, one
    space and a time, so it reads back what was written, and leaves the result alone
    otherwise. *)
Theorem datetime_text_roundtrip t b s out :
  datetime_valid t -> len b < 18446744073709551616 -> len s < 18446744073709551616 ->
  (exists w, 16 <= len w <= LH_DATETIME_TEXT_MAX /\
     lh_datetime_format t (Some b) (len b)
     = Done (if len w <=? len b then (Some (filled w b), len w) else (Some b, 0)) /\
     lh_datetime_parse (Some w) (len w) out = Done (t, true)) /\
  exists r, lh_datetime_parse (Some s) (len s) out = Done r /\
    (r = (t, true) <-> datetime_reads s t) /\ (r.2 = false -> r.1 = out).
Proof.
  intros Ht Hb Hs. split.
  - exists (datetime_text t). pose proof (datetime_text_length t Ht) as Hl. split; [done|].
    split; [exact (datetime_format_spec t b (len b) Ht ltac:(lia) Hb)|]. destruct Ht as [Hd Hc].
    assert (datetime_reads (datetime_text t) t) as Hr.
    { exists (date_text 47 (date t)), (time_text (time t)). split; [done|].
      split; [by apply date_text_reads|by apply time_text_reads]. }
    destruct (datetime_parse_spec (datetime_text t) out ltac:(lia)) as [(t' & Ht' & ->)|[Hno _]];
      [by rewrite (datetime_reads_inj _ _ _ Ht' Hr)|by apply Hno in Hr].
  - destruct (datetime_parse_spec s out Hs) as [(t' & Ht' & ->)|[Hno ->]]; eexists; (split; [done|]); split; try done.
    + split; [by intros [= <-]|]. intros Hr. by rewrite (datetime_reads_inj _ _ _ Ht' Hr).
    + split; [done|]. by intros ?%Hno.
Qed.
Lemma datetime_text_roundtrip_witness :
  let t := mk_datetime (mk_date 12345 2 28) (mk_time 23 59 58) in
  (exists w, 16 <= len w <= LH_DATETIME_TEXT_MAX /\
     lh_datetime_format t (Some (local 25)) 25
     = Done (if len w <=? 25 then (Some (filled w (local 25)), len w) else (Some (local 25), 0)) /\
     lh_datetime_parse (Some w) (len w) t = Done (t, true)) /\
  exists r, lh_datetime_parse (Some [49; 32; 50]) 3 t = Done r /\
    (r = (t, true) <-> datetime_reads [49; 32; 50] t) /\ (r.2 = false -> r.1 = t).
Proof.
  apply (datetime_text_roundtrip (mk_datetime (mk_date 12345 2 28) (mk_time 23 59 58)) (local 25)
           [49; 32; 50] (mk_datetime (mk_date 12345 2 28) (mk_time 23 59 58)));
    [by vm_compute; repeat split|done..].
Defined.
