(* ===== verification/Modbus.v ===== *)
(** * Modbus: the wire and the plan

    [lh/core/net/modbus.c], [modbus/want.c] and [modbus/read.c]: building and
    parsing protocol data units, and turning a list of wanted registers into
    requests.  A function that fills a buffer returns the buffer with its result;
    a function with out-parameters returns their new values.  The proofs are in
    [ModbusProofs]. *)
From S2P Require Import Prelude Buffer Hash.

Definition LH_MB_FC_READ_HOLDING : Z := 0x03.
Definition LH_MB_FC_READ_INPUT : Z := 0x04.
Definition LH_MB_FC_WRITE_ONE : Z := 0x06.
Definition LH_MB_FC_WRITE_MANY : Z := 0x10.
Definition LH_MB_ADU_MAX : Z := 260.
Definition LH_MB_READ_MAX : Z := 125.
Definition LH_MB_WRITE_MAX : Z := 123.
Definition LH_MB_GAP_MAX : Z := 8.

Inductive lh_mb_status : Type :=
| lh_mb_status_ok
| lh_mb_status_partial
| lh_mb_status_short
| lh_mb_status_crc
| lh_mb_status_exception
| lh_mb_status_wrong_unit
| lh_mb_status_wrong_code
| lh_mb_status_garbage
| lh_mb_status_lost.
#[export] Instance lh_mb_status_eq_dec : EqDecision lh_mb_status.
Proof. solve_decision. Defined.

(** The value behind a pointer the code has not compared with null. *)
Definition deref {A} (p : option A) : outcome A :=
  match p with Some v => Done v | None => Undef end.

(** ** CRC *)

Definition lh_mb_crc16 (bytes : option buffer) (length : Z) : outcome Z :=
  match bytes with
  | None => mret 0xFFFF
  | Some bytes => r ← lh_hash_crc_reflected_update 0xFFFF bytes length 0xA001; mret (u16 r)
  end.

(** ** Frames *)

Definition lh_mb_build_pdu_read (pdu : option buffer) (cap fc address count : Z)
    : outcome (option buffer * Z) :=
  match pdu with
  | None => mret (None, 0)
  | Some b =>
    if (cap <? 6) || (count =? 0) || (count >? LH_MB_READ_MAX) then mret (pdu, 0) else
    if negb ((fc =? LH_MB_FC_READ_HOLDING) || (fc =? LH_MB_FC_READ_INPUT))
    then mret (pdu, 0) else
    b ← put b 0 fc;
    b ← put b 1 (hi address);
    b ← put b 2 (lo address);
    b ← put b 3 (hi count);
    b ← put b 4 (lo count);
    mret (Some b, 5)
  end.

Fixpoint words_loop (n : nat) (i : Z) (values : list Z) (pdu : buffer) : outcome buffer :=
  match n with
  | O => Done pdu
  | S n =>
    v ← load values i;
    pdu ← put pdu (6 + i * 2) (hi v);
    pdu ← put pdu (7 + i * 2) (lo v);
    words_loop n (i + 1) values pdu
  end.
Definition lh_mb_build_pdu_write (pdu : option buffer) (cap address : Z)
    (values : option (list Z)) (count : Z) : outcome (option buffer * Z) :=
  match pdu, values with
  | Some b, Some values =>
    if (count =? 0) || (count >? LH_MB_WRITE_MAX) then mret (pdu, 0) else
    if cap <? u16 (6 + count * 2) then mret (pdu, 0) else
    b ← put b 0 LH_MB_FC_WRITE_MANY;
    b ← put b 1 (hi address);
    b ← put b 2 (lo address);
    b ← put b 3 (hi count);
    b ← put b 4 (lo count);
    b ← put b 5 (u8 (count * 2));
    b ← words_loop (Z.to_nat count) 0 values b;
    mret (Some b, u16 (6 + count * 2))
  | _, _ => mret (pdu, 0)
  end.

Definition lh_mb_build_pdu_write_one (pdu : option buffer) (cap address value : Z)
    : outcome (option buffer * Z) :=
  match pdu with
  | None => mret (None, 0)
  | Some b =>
    if cap <? 5 then mret (pdu, 0) else
    b ← put b 0 LH_MB_FC_WRITE_ONE;
    b ← put b 1 (hi address);
    b ← put b 2 (lo address);
    b ← put b 3 (hi value);
    b ← put b 4 (lo value);
    mret (Some b, 5)
  end.

Definition lh_mb_build_read (adu : option buffer) (cap unit fc address count : Z)
    : outcome (option buffer * Z) :=
  match adu with
  | None => mret (None, 0)
  | Some b =>
    if cap <? 8 then mret (adu, 0) else
    '(pdu, pdu_length) ← lh_mb_build_pdu_read (Some (local 16)) 16 fc address count;
    if pdu_length =? 0 then mret (adu, 0) else
    pdu ← deref pdu;
    b ← put b 0 unit;
    b ← copy_bytes b 1 pdu pdu_length;
    crc ← lh_mb_crc16 (Some b) (u16 (1 + pdu_length));
    b ← put b (1 + pdu_length) (lo crc);
    b ← put b (2 + pdu_length) (hi crc);
    mret (Some b, u16 (3 + pdu_length))
  end.

Definition lh_mb_build_write (adu : option buffer) (cap unit address : Z)
    (values : option (list Z)) (count : Z) : outcome (option buffer * Z) :=
  match adu, values with
  | Some b, Some _ =>
    if (count =? 0) || (count >? LH_MB_READ_MAX) then mret (adu, 0) else
    if cap <? u16 (9 + count * 2) then mret (adu, 0) else
    '(pdu, pdu_length) ←
      lh_mb_build_pdu_write (Some (local LH_MB_ADU_MAX)) LH_MB_ADU_MAX address values count;
    if pdu_length =? 0 then mret (adu, 0) else
    pdu ← deref pdu;
    b ← put b 0 unit;
    b ← copy_bytes b 1 pdu pdu_length;
    crc ← lh_mb_crc16 (Some b) (u16 (1 + pdu_length));
    b ← put b (1 + pdu_length) (lo crc);
    b ← put b (2 + pdu_length) (hi crc);
    mret (Some b, u16 (3 + pdu_length))
  | _, _ => mret (adu, 0)
  end.

(** ** Answers

    What a parser leaves behind: its status, the words, and the two
    out-parameters. *)
Record parsed := mk_parsed
  { status : lh_mb_status; words : option (list Z); out : option Z; exception : option Z }.

Fixpoint values_loop (n : nat) (i : Z) (pdu : buffer) (values : list Z) : outcome (list Z) :=
  match n with
  | O => Done values
  | S n =>
    h ← load pdu (2 + i * 2);
    l ← load pdu (3 + i * 2);
    values ← put values i (be16 h l);
    values_loop n (i + 1) pdu values
  end.
Definition lh_mb_parse_pdu (pdu : option buffer) (length fc expect : Z)
    (values : option (list Z)) (cap : Z) (out exception : option Z) : outcome parsed :=
  let out := set_out out 0 in
  let exception := set_out exception 0 in
  match pdu with
  | None => mret (mk_parsed lh_mb_status_garbage values out exception)
  | Some pdu =>
    if length <? 2 then mret (mk_parsed lh_mb_status_short values out exception) else
    p0 ← load pdu 0;
    if p0 =? u8 (Z.lor fc 0x80) then
      p1 ← load pdu 1;
      mret (mk_parsed lh_mb_status_exception values out (set_out exception p1))
    else
    if length <? 4 then mret (mk_parsed lh_mb_status_short values out exception) else
    if negb (p0 =? fc) then mret (mk_parsed lh_mb_status_wrong_code values out exception) else
    bytes ← load pdu 1;
    if negb (bytes mod 2 =? 0)
    then mret (mk_parsed lh_mb_status_garbage values out exception) else
    let got := u16 (bytes / 2) in
    if u16 (length - 2) <? bytes
    then mret (mk_parsed lh_mb_status_short values out exception) else
    values ←
      match values with
      | None => mret None
      | Some values =>
        let take := if got <? cap then got else cap in
        values ← values_loop (Z.to_nat take) 0 pdu values;
        mret (Some values)
      end;
    mret (mk_parsed (if got <? expect then lh_mb_status_partial else lh_mb_status_ok)
            values (set_out out got) exception)
  end.

Definition lh_mb_parse_pdu_write (pdu : option buffer) (length address count : Z)
    (exception : option Z) : outcome (lh_mb_status * option Z) :=
  let exception := set_out exception 0 in
  match pdu with
  | None => mret (lh_mb_status_garbage, exception)
  | Some pdu =>
    if length <? 2 then mret (lh_mb_status_short, exception) else
    p0 ← load pdu 0;
    if p0 =? u8 (Z.lor LH_MB_FC_WRITE_MANY 0x80) then
      p1 ← load pdu 1; mret (lh_mb_status_exception, set_out exception p1)
    else
    if length <? 5 then mret (lh_mb_status_short, exception) else
    if negb (p0 =? LH_MB_FC_WRITE_MANY) then mret (lh_mb_status_wrong_code, exception) else
    p1 ← load pdu 1; p2 ← load pdu 2; p3 ← load pdu 3; p4 ← load pdu 4;
    if negb (be16 p1 p2 =? address) || negb (be16 p3 p4 =? count)
    then mret (lh_mb_status_garbage, exception)
    else mret (lh_mb_status_ok, exception)
  end.

Definition lh_mb_parse_pdu_write_one (pdu : option buffer) (length address value : Z)
    (exception : option Z) : outcome (lh_mb_status * option Z) :=
  let exception := set_out exception 0 in
  match pdu with
  | None => mret (lh_mb_status_garbage, exception)
  | Some pdu =>
    if length <? 2 then mret (lh_mb_status_short, exception) else
    p0 ← load pdu 0;
    if p0 =? u8 (Z.lor LH_MB_FC_WRITE_ONE 0x80) then
      p1 ← load pdu 1; mret (lh_mb_status_exception, set_out exception p1)
    else
    if length <? 5 then mret (lh_mb_status_short, exception) else
    if negb (p0 =? LH_MB_FC_WRITE_ONE) then mret (lh_mb_status_wrong_code, exception) else
    p1 ← load pdu 1; p2 ← load pdu 2; p3 ← load pdu 3; p4 ← load pdu 4;
    if negb (be16 p1 p2 =? address) || negb (be16 p3 p4 =? value)
    then mret (lh_mb_status_garbage, exception)
    else mret (lh_mb_status_ok, exception)
  end.

Definition lh_mb_parse_read (adu : option buffer) (length unit fc expect : Z)
    (values : option (list Z)) (cap : Z) (out exception : option Z) : outcome parsed :=
  let pdu := local LH_MB_ADU_MAX in
  let out := set_out out 0 in
  let exception := set_out exception 0 in
  match adu with
  | None => mret (mk_parsed lh_mb_status_garbage values out exception)
  | Some adu =>
    if length <? 3 then mret (mk_parsed lh_mb_status_short values out exception) else
    a0 ← load adu 0;
    if negb (a0 =? unit) then mret (mk_parsed lh_mb_status_wrong_unit values out exception) else
    a1 ← load adu 1;
    if a1 =? u8 (Z.lor fc 0x80) then
      a2 ← load adu 2;
      mret (mk_parsed lh_mb_status_exception values out (set_out exception a2))
    else
    if length <? 5 then mret (mk_parsed lh_mb_status_short values out exception) else
    crc ← lh_mb_crc16 (Some adu) (u16 (length - 2));
    h ← load adu (length - 1);
    l ← load adu (length - 2);
    if negb (crc =? be16 h l) then mret (mk_parsed lh_mb_status_crc values out exception) else
    pdu ← put pdu 0 a1;
    pdu ← copy_bytes pdu 1 (drop 2 adu) (length - 4);
    let pdu_length := u16 (length - 3) in
    r ← lh_mb_parse_pdu (Some pdu) pdu_length fc expect values cap out None;
    mret (mk_parsed (status r) (words r) (Modbus.out r) exception)
  end.

(** ** Wants and reads *)

Record lh_mb_want_t := mk_want { address : Z; registers : Z }.
Definition lh_mb_want_get_address (self : lh_mb_want_t) : Z := address self.
Definition lh_mb_want_set_address (self : lh_mb_want_t) (v : Z) : lh_mb_want_t :=
  mk_want v (registers self).
Definition lh_mb_want_get_registers (self : lh_mb_want_t) : Z := registers self.
Definition lh_mb_want_set_registers (self : lh_mb_want_t) (v : Z) : lh_mb_want_t :=
  mk_want (address self) v.

Record lh_mb_read_t := mk_read { start : Z; count : Z; first : Z; last : Z }.
Definition lh_mb_read_get_start (self : lh_mb_read_t) : Z := start self.
Definition lh_mb_read_set_start (self : lh_mb_read_t) (v : Z) : lh_mb_read_t :=
  mk_read v (count self) (first self) (last self).
Definition lh_mb_read_get_count (self : lh_mb_read_t) : Z := count self.
Definition lh_mb_read_set_count (self : lh_mb_read_t) (v : Z) : lh_mb_read_t :=
  mk_read (start self) v (first self) (last self).
Definition lh_mb_read_get_first (self : lh_mb_read_t) : Z := first self.
Definition lh_mb_read_set_first (self : lh_mb_read_t) (v : Z) : lh_mb_read_t :=
  mk_read (start self) (count self) v (last self).
Definition lh_mb_read_get_last (self : lh_mb_read_t) : Z := last self.
Definition lh_mb_read_set_last (self : lh_mb_read_t) (v : Z) : lh_mb_read_t :=
  mk_read (start self) (count self) (first self) v.

(** ** The plan *)

Definition lh_mb_reach (start end_ : Z) (next : lh_mb_want_t) : Z :=
  let next_end :=
    u16 (lh_mb_want_get_address next
         + (if lh_mb_want_get_registers next =? 0 then 1 else lh_mb_want_get_registers next)) in
  let reach := if next_end >? end_ then next_end else end_ in
  if (lh_mb_want_get_address next >? end_)
     && (lh_mb_want_get_address next - end_ >? LH_MB_GAP_MAX) then 0
  else if reach - start >? LH_MB_READ_MAX then 0
  else reach.

(** The inner loop of the planner and of the counter: fold in every want from
    [j + 1] on that [lh_mb_reach] admits. *)
Fixpoint take_loop (fuel : nat) (wants : list lh_mb_want_t) (count start end_ j : Z)
    : outcome (Z * Z) :=
  match fuel with
  | O => Undef
  | S fuel =>
    if j + 1 <? count then
      next ← load wants (j + 1);
      let reach := lh_mb_reach start end_ next in
      if reach =? 0 then mret (end_, j)
      else take_loop fuel wants count start reach (j + 1)
    else mret (end_, j)
  end.
Definition want_end (w : lh_mb_want_t) : Z :=
  u16 (address w + (if registers w =? 0 then 1 else registers w)).

Fixpoint plan_loop (fuel : nat) (wants : list lh_mb_want_t) (count : Z)
    (reads : list lh_mb_read_t) (cap made i : Z) : outcome (list lh_mb_read_t * Z) :=
  match fuel with
  | O => Undef
  | S fuel =>
    if (i <? count) && (made <? cap) then
      w ← load wants i;
      let start := address w in
      '(end_, j) ← take_loop (S (Z.to_nat count)) wants count start (want_end w) i;
      one ← load reads made;
      let one := lh_mb_read_set_start one start in
      let one := lh_mb_read_set_count one (u16 (end_ - start)) in
      let one := lh_mb_read_set_first one i in
      let one := lh_mb_read_set_last one j in
      reads ← put reads made one;
      plan_loop fuel wants count reads cap (made + 1) (u16 (j + 1))
    else mret (reads, made)
  end.
Definition lh_mb_plan_reads (wants : option (list lh_mb_want_t)) (count : Z)
    (reads : option (list lh_mb_read_t)) (cap : Z) : outcome (option (list lh_mb_read_t) * Z) :=
  match wants, reads with
  | Some wants, Some rs =>
    if (count =? 0) || (cap =? 0) then mret (reads, 0) else
    '(rs, made) ← plan_loop (S (Z.to_nat count)) wants count rs cap 0 0;
    mret (Some rs, made)
  | _, _ => mret (reads, 0)
  end.

Fixpoint count_loop (fuel : nat) (wants : list lh_mb_want_t) (count made i : Z) : outcome Z :=
  match fuel with
  | O => Undef
  | S fuel =>
    if i <? count then
      w ← load wants i;
      '(_, j) ← take_loop (S (Z.to_nat count)) wants count (address w) (want_end w) i;
      count_loop fuel wants count (u16 (made + 1)) (u16 (j + 1))
    else mret made
  end.
Definition lh_mb_count_requests (wants : option (list lh_mb_want_t)) (count : Z) : outcome Z :=
  match wants with
  | None => mret 0
  | Some wants => if count =? 0 then mret 0 else count_loop (S (Z.to_nat count)) wants count 0 0
  end.
