(* ===== verification/ModbusProofs.v ===== *)
(** * Modbus: data units

    What [Modbus] promises about building and parsing: requests have the shape
    the protocol gives them, an answer is read exactly and without leaving its
    buffers whatever bytes arrive, and a write is confirmed only by its own
    echo. *)
From S2P Require Import Prelude Buffer Hash Modbus.

(** ** Words *)

Lemma be_words_lookup k : forall bs h l,
  bs !! (2 * k)%nat = Some h -> bs !! (2 * k + 1)%nat = Some l ->
  be_words bs !! k = Some (be16 h l).
Proof.
  induction k as [|k IH]; intros bs h l Hh Hl.
  { destruct bs as [|b0 [|b1 bs]]; [done..|]. by injection Hh as ->; injection Hl as ->. }
  replace (2 * S k)%nat with (S (S (2 * k))) in * by lia.
  destruct bs as [|b0 [|b1 bs]]; [done..|]. by apply IH.
Qed.
Lemma length_be_words bs : length (be_words bs) = Nat.div2 (length bs).
Proof.
  enough (H : forall n bs, (length bs <= n)%nat -> length (be_words bs) = Nat.div2 (length bs))
    by by apply (H (length bs)).
  clear bs. induction n as [|n IH]; intros [|b0 [|b1 bs]] Hl; try done; simpl in Hl; [lia|].
  cbn [be_words length Nat.div2]. by rewrite IH by lia.
Qed.
Lemma be_words_app ws tail :
  is_words ws -> take (length ws) (be_words (be_bytes ws ++ tail)) = ws.
Proof.
  induction 1 as [|w ws Hw _ IH]; [done|].
  rewrite be_bytes_cons. cbn [be_words app length take]. by rewrite be16_hi_lo, IH.
Qed.
Lemma be_words_u16 n : forall bs, (length bs <= n)%nat -> is_bytes bs -> is_words (be_words bs).
Proof.
  induction n as [|n IH]; intros [|b0 [|b1 bs]] Hl Hb; simpl in *; try (by constructor); [lia|].
  inversion_clear Hb as [|? ? H0 H1]. inversion_clear H1.
  constructor; [apply u16_range|]. apply IH; [lia|done].
Qed.

Lemma values_loop_filled pdu : forall n p values,
  (length p + n <= Nat.div2 (length pdu - 2))%nat -> (length p + n <= length values)%nat ->
  values_loop n (len p) pdu (filled p values)
  = Done (filled (p ++ take n (drop (length p) (be_words (drop 2 pdu)))) values).
Proof.
  induction n as [|n IH]; intros p values Hl Hv.
  { by rewrite app_nil_r. }
  assert (Hd : (2 * (length p + S n) <= length pdu - 2)%nat).
  { pose proof (Nat.div2_odd (length pdu - 2)). lia. }
  cbn [values_loop].
  destruct (lookup_lt_is_Some_2 pdu (2 + 2 * length p)) as [h Hh]; [lia|].
  destruct (lookup_lt_is_Some_2 pdu (3 + 2 * length p)) as [l Hlo]; [lia|].
  replace (2 + len p * 2) with (Z.of_nat (2 + 2 * length p)) by lia.
  replace (3 + len p * 2) with (Z.of_nat (3 + 2 * length p)) by lia.
  rewrite (load_ok _ _ _ Hh), bind_done, (load_ok _ _ _ Hlo), bind_done.
  rewrite put_filled, bind_done by lia.
  replace (len p + 1) with (len (p ++ [be16 h l])) by (rewrite length_app; simpl; lia).
  rewrite IH by (rewrite length_app; simpl; lia).
  assert (Hw : be_words (drop 2 pdu) !! length p = Some (be16 h l)).
  { apply be_words_lookup; rewrite lookup_drop;
      [rewrite <-Hh | rewrite <-Hlo]; f_equal; lia. }
  rewrite (drop_S _ _ _ Hw), length_app, <-app_assoc. cbn [length take app].
  by rewrite Nat.add_1_r.
Qed.

(** ** Building *)

Definition pdu_read (fc address count : Z) : buffer :=
  [fc; hi address; lo address; hi count; lo count].
Definition pdu_write (address : Z) (ws : list Z) : buffer :=
  [LH_MB_FC_WRITE_MANY; hi address; lo address; hi (len ws); lo (len ws); u8 (len ws * 2)]
  ++ be_bytes ws.
Definition pdu_write_one (address value : Z) : buffer :=
  [LH_MB_FC_WRITE_ONE; hi address; lo address; hi value; lo value].

(** Run a chain of stores that fills a buffer from its start. *)
Ltac run_puts out :=
  rewrite <-(filled_nil out);
  repeat (rewrite put_filled by (simpl; lia); rewrite bind_done; cbn [app]).

Lemma words_loop_filled values : forall n p out i,
  len p = 6 + i * 2 -> 0 <= i -> i + Z.of_nat n <= len values ->
  (length p + 2 * n <= length out)%nat ->
  words_loop n i values (filled p out)
  = Done (filled (p ++ be_bytes (take n (drop (Z.to_nat i) values))) out).
Proof.
  induction n as [|n IH]; intros p out i Hp Hi Hv Ho; [by rewrite app_nil_r|].
  cbn [words_loop].
  destruct (lookup_lt_is_Some_2 values (Z.to_nat i)) as [v Hl]; [lia|].
  rewrite <-(Z2Nat.id i) at 1 by lia. rewrite (load_ok _ _ _ Hl), bind_done.
  rewrite put_filled, bind_done by lia.
  rewrite put_filled, bind_done by (rewrite length_app; simpl; lia).
  rewrite IH by (rewrite ?length_app; simpl; lia).
  rewrite (drop_S _ _ _ Hl). cbn [take]. rewrite be_bytes_cons, <-!app_assoc.
  by replace (Z.to_nat (i + 1)) with (S (Z.to_nat i)) by lia.
Qed.

Lemma build_pdu_read_ok b fc address count :
  fc = LH_MB_FC_READ_HOLDING \/ fc = LH_MB_FC_READ_INPUT ->
  1 <= count <= LH_MB_READ_MAX -> 6 <= len b ->
  lh_mb_build_pdu_read (Some b) (len b) fc address count
  = Done (Some (filled (pdu_read fc address count) b), 5).
Proof.
  unfold LH_MB_READ_MAX. intros Hfc Hc Hl. unfold lh_mb_build_pdu_read, LH_MB_READ_MAX.
  rewrite (proj2 (Z.ltb_ge _ _)), (proj2 (Z.eqb_neq count 0)) by lia.
  rewrite Z.gtb_ltb, (proj2 (Z.ltb_ge _ _)) by lia. cbn [orb].
  assert (E : (fc =? LH_MB_FC_READ_HOLDING) || (fc =? LH_MB_FC_READ_INPUT) = true)
    by (destruct Hfc; subst fc; reflexivity).
  rewrite E. cbn [negb]. by run_puts b.
Qed.
Lemma build_pdu_write_ok b address values count :
  1 <= count <= LH_MB_WRITE_MAX -> count <= len values -> 6 + 2 * count <= len b ->
  lh_mb_build_pdu_write (Some b) (len b) address (Some values) count
  = Done (Some (filled (pdu_write address (take (Z.to_nat count) values)) b), 6 + count * 2).
Proof.
  unfold LH_MB_WRITE_MAX. intros Hc Hv Hl. unfold lh_mb_build_pdu_write, LH_MB_WRITE_MAX.
  rewrite (proj2 (Z.eqb_neq count 0)) by lia.
  rewrite Z.gtb_ltb, (proj2 (Z.ltb_ge _ _)) by lia. cbn [orb].
  cint. rewrite (proj2 (Z.ltb_ge _ _)) by lia. run_puts b.
  rewrite words_loop_filled by (simpl; lia). rewrite bind_done.
  unfold pdu_write. rewrite length_take, Nat.min_l, Z2Nat.id by lia. by cint.
Qed.
Lemma build_pdu_write_one_ok b address value :
  5 <= len b ->
  lh_mb_build_pdu_write_one (Some b) (len b) address value
  = Done (Some (filled (pdu_write_one address value) b), 5).
Proof.
  intros Hl. unfold lh_mb_build_pdu_write_one. rewrite (proj2 (Z.ltb_ge _ _)) by lia.
  by run_puts b.
Qed.

(** ** The echo of a write *)

Lemma be16_eq h l w : is_u8 h -> is_u8 l -> is_u16 w -> (be16 h l = w <-> h = hi w /\ l = lo w).
Proof.
  intros Hh Hl Hw. rewrite be16_val, hi_div, lo_mod by done. split; [|intros [-> ->]; zdm].
  intros <-. zdm.
Qed.
Lemma echo_checked h1 l1 h2 l2 v w :
  is_bytes [h1; l1; h2; l2] -> is_u16 v -> is_u16 w ->
  negb (be16 h1 l1 =? v) || negb (be16 h2 l2 =? w) = false
  <-> [h1; l1; h2; l2] = [hi v; lo v; hi w; lo w].
Proof.
  unfold is_bytes. rewrite !Forall_cons. intros (H1 & H2 & H3 & H4 & _) Hv Hw.
  rewrite orb_false_iff, !negb_false_iff, !Z.eqb_eq, !be16_eq by done. naive_solver.
Qed.

(** Both parsers of an echo, branch by branch. *)
Lemma take_short {A} n (l k : list A) : (length l < n)%nat -> length k = n -> take n l <> k.
Proof. intros Hl Hk <-. rewrite length_take in Hk. lia. Qed.
Ltac parse_echo pdu fc Hb :=
  let l1 := fresh in let l2 := fresh in let l3 := fresh in
  destruct (Z.ltb_spec (len pdu) 2) as [l1|l1];
    [split; [done | intros E; exfalso; revert E; apply take_short; [lia|done]]|];
  destruct pdu as [|p0 [|p1 r]]; [cbn in l1; lia..|];
  change (load (p0 :: p1 :: r) 0) with (Done p0); rewrite bind_done;
  destruct (Z.eqb_spec p0 (u8 (Z.lor fc 0x80))) as [->|];
    [split; [done | intros [= E _]; done]|];
  destruct (Z.ltb_spec (len (p0 :: p1 :: r)) 5) as [l2|l2];
    [split; [done | intros E; exfalso; revert E; apply take_short; [lia|done]]|];
  destruct r as [|p2 [|p3 [|p4 r]]]; [cbn in l2; lia..|];
  destruct (Z.eqb_spec p0 fc) as [->|]; cbn [negb];
    [|split; [done | by intros [= ? _]]];
  change (load (?a :: p1 :: ?r) 1) with (Done p1);
  change (load (?a :: p1 :: p2 :: ?r) 2) with (Done p2);
  change (load (?a :: p1 :: p2 :: p3 :: ?r) 3) with (Done p3);
  change (load (?a :: p1 :: p2 :: p3 :: p4 :: ?r) 4) with (Done p4);
  rewrite !bind_done; cbn [take];
  assert (HB : is_bytes [p1; p2; p3; p4])
    by exact (Forall_take _ 4 _ (Forall_drop _ 1 _ Hb)).

Lemma echo_branch fc p1 p2 p3 p4 v w (ex : option Z) :
  is_bytes [p1; p2; p3; p4] -> is_u16 v -> is_u16 w ->
  (if negb (be16 p1 p2 =? v) || negb (be16 p3 p4 =? w)
   then mret (lh_mb_status_garbage, ex) else mret (lh_mb_status_ok, ex))
    = Done (lh_mb_status_ok, ex)
  <-> [fc; p1; p2; p3; p4] = [fc; hi v; lo v; hi w; lo w].
Proof.
  intros HB Hv Hw. pose proof (echo_checked p1 p2 p3 p4 v w HB Hv Hw) as Hiff.
  destruct (negb _ || negb _); split; try done.
  - intros [= -> -> -> ->]. by pose proof (proj2 Hiff eq_refl).
  - intros _. f_equal. by apply (proj1 Hiff).
Qed.
Lemma parse_pdu_write_ok pdu address count exception :
  is_bytes pdu -> is_u16 address -> is_u16 count ->
  lh_mb_parse_pdu_write (Some pdu) (len pdu) address count exception
    = Done (lh_mb_status_ok, set_out exception 0)
  <-> take 5 pdu = pdu_read LH_MB_FC_WRITE_MANY address count.
Proof.
  intros Hb Ha Hc. unfold lh_mb_parse_pdu_write.
  parse_echo pdu LH_MB_FC_WRITE_MANY Hb. by apply echo_branch.
Qed.
Lemma parse_pdu_write_one_ok pdu address value exception :
  is_bytes pdu -> is_u16 address -> is_u16 value ->
  lh_mb_parse_pdu_write_one (Some pdu) (len pdu) address value exception
    = Done (lh_mb_status_ok, set_out exception 0)
  <-> take 5 pdu = pdu_write_one address value.
Proof.
  intros Hb Ha Hc. unfold lh_mb_parse_pdu_write_one.
  parse_echo pdu LH_MB_FC_WRITE_ONE Hb. by apply echo_branch.
Qed.

Lemma pdu_write_head address ws :
  take 5 (pdu_write address ws) = pdu_read LH_MB_FC_WRITE_MANY address (len ws).
Proof. done. Qed.

(** A write request is built in full (its length, its header and every
    word, the rest of the buffer left alone), and of all the byte strings a device
    can answer, the parser confirms the write exactly when the answer starts with
    that request's own first five bytes: function code, address and count, or for
    a single register the whole request. *)
Theorem write_confirmed_by_its_echo b address values count value pdu exception :
  is_u16 address -> is_u16 value -> is_bytes pdu ->
  1 <= count <= LH_MB_WRITE_MAX -> count <= len values -> 6 + 2 * count <= len b ->
  (exists request,
    lh_mb_build_pdu_write (Some b) (len b) address (Some values) count
      = Done (Some (request ++ drop (length request) b), len request) /\
    len request = 6 + 2 * count /\
    be_words (drop 6 request) = (u16 <$> take (Z.to_nat count) values) /\
    (lh_mb_parse_pdu_write (Some pdu) (len pdu) address count exception
       = Done (lh_mb_status_ok, set_out exception 0)
     <-> take 5 pdu = take 5 request)) /\
  (exists request,
    lh_mb_build_pdu_write_one (Some b) (len b) address value
      = Done (Some (request ++ drop (length request) b), len request) /\
    (lh_mb_parse_pdu_write_one (Some pdu) (len pdu) address value exception
       = Done (lh_mb_status_ok, set_out exception 0)
     <-> take 5 pdu = request)).
Proof.
  intros Ha Hv Hb Hc Hvs Hl. split.
  - set (ws := take (Z.to_nat count) values).
    assert (Hlen : len ws = count) by (subst ws; rewrite length_take; lia).
    exists (pdu_write address ws).
    assert (Hpl : length (pdu_write address ws) = (6 + 2 * length ws)%nat).
    { unfold pdu_write. rewrite length_app, length_be_bytes. done. }
    split; [rewrite build_pdu_write_ok by done; do 2 f_equal; lia|].
    split; [lia|]. split.
    + unfold pdu_write. rewrite drop_app_length' by done. clear.
      induction ws as [|w ws IH]; [done|]. rewrite be_bytes_cons.
      cbn [be_words fmap list_fmap]. f_equal; [|done].
      rewrite be16_val, hi_div, lo_mod by auto with cint. zdm.
    + rewrite pdu_write_head, Hlen. apply parse_pdu_write_ok; [done..|].
      unfold LH_MB_WRITE_MAX in *. zb.
  - exists (pdu_write_one address value).
    split; [by rewrite build_pdu_write_one_ok by lia|]. by apply parse_pdu_write_one_ok.
Qed.
Lemma write_confirmed_by_its_echo_witness :
  exists request,
    lh_mb_build_pdu_write (Some (local 10)) 10 7 (Some [258; 515]) 2
      = Done (Some (request ++ drop (length request) (local 10)), len request) /\
    len request = 10 /\ be_words (drop 6 request) = [258; 515] /\
    (lh_mb_parse_pdu_write (Some [16; 0; 7; 0; 2]) 5 7 2 None = Done (lh_mb_status_ok, None)
     <-> take 5 [16; 0; 7; 0; 2] = take 5 request).
Proof.
  apply (write_confirmed_by_its_echo (local 10) 7 [258; 515] 2 0 [16; 0; 7; 0; 2] None);
    unfold LH_MB_WRITE_MAX; first [zb | simpl; lia | repeat constructor; zb].
Defined.

(** ** Reading an answer *)

(** The first [n] words of an answer stored over an array. *)
Definition stored (ws values : list Z) : list Z := ws ++ drop (length ws) values.

Lemma parse_values pdu values n :
  (n <= Nat.div2 (length pdu - 2))%nat -> (n <= length values)%nat ->
  values_loop n 0 pdu values = Done (stored (take n (be_words (drop 2 pdu))) values).
Proof.
  intros Hn Hv. rewrite <-(filled_nil values) at 1. change 0 with (len (@nil Z)).
  by rewrite values_loop_filled by done.
Qed.

Lemma be_bytes_words n : forall bs,
  (2 * n <= length bs)%nat -> is_bytes bs ->
  be_bytes (take n (be_words bs)) = take (2 * n) bs.
Proof.
  induction n as [|n IH]; intros bs Hl Hb; [done|].
  destruct bs as [|h [|l bs]]; [simpl in Hl; lia..|].
  inversion_clear Hb as [|? ? Hh Hb']. inversion_clear Hb' as [|? ? Hlo Hbs].
  replace (2 * S n)%nat with (S (S (2 * n))) by lia. cbn [be_words take].
  rewrite be_bytes_cons, IH by (simpl in Hl; done || lia).
  by destruct (proj1 (be16_eq h l (be16 h l) Hh Hlo (u16_range _)) eq_refl) as [<- <-].
Qed.
Lemma refusal_code fc : 0 <= fc < 128 -> u8 (Z.lor fc 0x80) = fc + 128.
Proof.
  intros Hfc. assert (Hd : Z.land fc 128 = 0).
  { apply Z.bits_inj'; intros n Hn. rewrite Z.land_spec, Z.bits_0.
    destruct (Z.ltb_spec n 7); [|by rewrite (testbit_above fc 7) by lia].
    change 128 with (2 ^ 7). by rewrite Z.pow2_bits_false, andb_false_r by lia. }
  rewrite <-Z.lxor_lor, <-Z.add_nocarry_lxor by done. zdm.
Qed.

(** What an answer can be: the words asked for, or a refusal with its reason. *)
Definition is_answer (fc : Z) (pdu : buffer) (ws : list Z) : Prop :=
  is_words ws /\ 4 <= len pdu /\ 2 * len ws <= 255 /\
  exists tail, pdu = fc :: 2 * len ws :: be_bytes ws ++ tail.
Definition is_refusal (fc : Z) (pdu : buffer) (code : Z) : Prop :=
  exists tail, pdu = fc + 128 :: code :: tail.

Lemma answer_words fc pdu ws :
  is_answer fc pdu ws -> take (length ws) (be_words (drop 2 pdu)) = ws.
Proof. intros (Hw & _ & _ & tail & ->). cbn [drop]. by apply be_words_app. Qed.
Lemma answer_of_bytes fc bytes r :
  is_bytes (fc :: bytes :: r) -> bytes mod 2 = 0 -> bytes <= len r -> 4 <= len (fc :: bytes :: r) ->
  is_answer fc (fc :: bytes :: r) (take (Z.to_nat (bytes / 2)) (be_words r)).
Proof.
  intros Hb Hm Hl H4. inversion_clear Hb as [|? ? _ Hb']. inversion_clear Hb' as [|? ? Hu Hr].
  set (n := Z.to_nat (bytes / 2)). assert (Hn : bytes = Z.of_nat (2 * n)) by (subst n; zdm).
  assert (Hlen : length (take n (be_words r)) = n).
  { rewrite length_take, length_be_words. pose proof (Nat.div2_odd (length r)).
    destruct (Nat.odd (length r)); simpl in *; lia. }
  split; [|split; [done|split]].
  - apply Forall_take, (be_words_u16 (length r)); done.
  - rewrite Hlen. zb.
  - exists (drop (2 * n) r). rewrite be_bytes_words, take_drop, Hlen by (done || lia).
    do 2 f_equal. lia.
Qed.

Lemma parse_pdu_spec pdu fc expect values cap o e :
  is_bytes pdu -> len pdu <= 65535 -> 0 <= fc < 128 -> 0 <= cap <= len values ->
  exists r, lh_mb_parse_pdu (Some pdu) (len pdu) fc expect (Some values) cap o e = Done r /\
  match status r with
  | lh_mb_status_ok | lh_mb_status_partial =>
    exists ws, is_answer fc pdu ws /\
      words r = Some (stored (take (Z.to_nat cap) ws) values) /\
      out r = set_out o (len ws) /\ exception r = set_out e 0 /\
      (status r = lh_mb_status_ok <-> expect <= len ws)
  | lh_mb_status_exception =>
    exists code, is_refusal fc pdu code /\
      words r = Some values /\ out r = set_out o 0 /\ exception r = set_out e code
  | _ =>
    words r = Some values /\ out r = set_out o 0 /\ exception r = set_out e 0 /\
    (forall ws, ~ is_answer fc pdu ws) /\ (forall code, ~ is_refusal fc pdu code)
  end.
Proof.
  intros Hb Hl Hfc Hcap. unfold lh_mb_parse_pdu.
  destruct (Z.ltb_spec (len pdu) 2) as [l1|l1].
  { eexists. split; [done|]. cbn. split_and!; [done..| |].
    - intros ws (_ & ? & _). lia.
    - intros code (tail & ->). cbn in l1. lia. }
  destruct pdu as [|p0 [|p1 r]]; [cbn in l1; lia..|].
  change (load (p0 :: p1 :: r) 0) with (Done p0). change (load (p0 :: p1 :: r) 1) with (Done p1).
  rewrite !bind_done, refusal_code by done. destruct (Z.eqb_spec p0 (fc + 128)) as [->|Hex].
  { eexists. split; [done|]. cbn. exists p1. split_and!; [|done|done|].
    - by exists r.
    - by destruct e. }
  assert (Hnr : forall code, ~ is_refusal fc (p0 :: p1 :: r) code).
  { intros code [tail [= ? ? ?]]. done. }
  destruct (Z.ltb_spec (len (p0 :: p1 :: r)) 4) as [l2|l2].
  { eexists. split; [done|]. cbn [status words out exception]. split_and!; [done..| |done].
    intros ws (_ & ? & _). lia. }
  destruct (Z.eqb_spec p0 fc) as [->|Hne]; cbn [negb].
  2:{ eexists. split; [done|]. cbn [status words out exception]. split_and!; [done..| |done].
      intros ws (_ & _ & _ & tail & [= ? ? ?]). done. }
  destruct (Z.eqb_spec (p1 mod 2) 0) as [Hm|Hm]; cbn [negb].
  2:{ eexists. split; [done|]. cbn [status words out exception]. split_and!; [done..| |done].
      intros ws (_ & _ & _ & tail & [= Hp _]). subst p1. apply Hm. zdm. }
  assert (Hlr : len (fc :: p1 :: r) = len r + 2) by (simpl length; lia).
  assert (Hp1 : is_u8 p1) by by inversion_clear Hb as [|? ? _ Hb']; inversion_clear Hb'.
  rewrite Hlr, (u16_id (_ - 2)) by zb. destruct (Z.ltb_spec (len r + 2 - 2) p1) as [l3|l3].
  { eexists. split; [done|]. cbn [status words out exception]. split_and!; [done..| |done].
    intros ws (_ & _ & _ & tail & [= Hp Hr]). subst p1 r.
    rewrite length_app, length_be_bytes in l3. lia. }
  pose proof (answer_of_bytes fc p1 r Hb Hm ltac:(lia) ltac:(lia)) as Hans.
  set (ws := take _ _) in Hans. rewrite (u16_id (p1 / 2)) by zdm.
  assert (Hws : len ws = p1 / 2).
  { destruct Hans as (_ & _ & _ & tail & [= Hp _]). zdm. }
  set (n := if p1 / 2 <? cap then p1 / 2 else cap).
  assert (Hn : 0 <= n <= p1 / 2 /\ n <= cap) by (subst n; zcases; zdm).
  rewrite parse_values, !bind_done; [| |lia].
  2:{ cbn [length]. pose proof (Nat.div2_odd (length r)).
      replace (S (S (length r)) - 2)%nat with (length r) by lia.
      destruct (Nat.odd (length r)); simpl in *; zdm. }
  eexists. split; [done|]. cbn [status words out exception drop].
  assert (Hstored : take (Z.to_nat n) (be_words r) = take (Z.to_nat cap) ws).
  { subst ws n. rewrite take_take. f_equal. zcases. }
  rewrite drop_0, Hstored, <-Hws.
  assert (Ho : set_out (set_out o 0) (len ws) = set_out o (len ws)) by by destruct o.
  destruct (Z.ltb_spec (len ws) expect); exists ws; split_and!; try done; split; first [done | lia].
Qed.
(** Reading a device's answer is defined for every string of bytes it
    can send and never leaves the two arrays; the words are stored and counted
    exactly when the bytes are an answer to the function asked (too few words
    give a partial answer, words past the array are counted but not stored); a
    refusal gives its reason; and in every other case nothing is stored and the
    bytes are neither an answer nor a refusal. *)
Theorem answer_read_exactly pdu fc expect values cap o e :
  is_bytes pdu -> len pdu <= 65535 -> 0 <= fc < 128 -> 0 <= cap <= len values ->
  exists r, lh_mb_parse_pdu (Some pdu) (len pdu) fc expect (Some values) cap o e = Done r /\
  match status r with
  | lh_mb_status_ok | lh_mb_status_partial =>
    exists ws, is_answer fc pdu ws /\
      words r = Some (stored (take (Z.to_nat cap) ws) values) /\
      out r = set_out o (len ws) /\ exception r = set_out e 0 /\
      (status r = lh_mb_status_ok <-> expect <= len ws)
  | lh_mb_status_exception =>
    exists code, is_refusal fc pdu code /\
      words r = Some values /\ out r = set_out o 0 /\ exception r = set_out e code
  | _ =>
    words r = Some values /\ out r = set_out o 0 /\ exception r = set_out e 0 /\
    (forall ws, ~ is_answer fc pdu ws) /\ (forall code, ~ is_refusal fc pdu code)
  end.
Proof. apply parse_pdu_spec. Qed.
Lemma answer_read_exactly_witness :
  exists r, lh_mb_parse_pdu (Some [3; 4; 1; 2; 3; 4]) 6 3 2 (Some [0; 0; 0]) 3 (Some 9) (Some 9)
    = Done r /\
  match status r with
  | lh_mb_status_ok | lh_mb_status_partial =>
    exists ws, is_answer 3 [3; 4; 1; 2; 3; 4] ws /\
      words r = Some (stored (take (Z.to_nat 3) ws) [0; 0; 0]) /\
      out r = set_out (Some 9) (len ws) /\ exception r = set_out (Some 9) 0 /\
      (status r = lh_mb_status_ok <-> 2 <= len ws)
  | lh_mb_status_exception =>
    exists code, is_refusal 3 [3; 4; 1; 2; 3; 4] code /\
      words r = Some [0; 0; 0] /\ out r = set_out (Some 9) 0 /\ exception r = set_out (Some 9) code
  | _ =>
    words r = Some [0; 0; 0] /\ out r = set_out (Some 9) 0 /\ exception r = set_out (Some 9) 0 /\
    (forall ws, ~ is_answer 3 [3; 4; 1; 2; 3; 4] ws) /\
    (forall code, ~ is_refusal 3 [3; 4; 1; 2; 3; 4] code)
  end.
Proof.
  apply (answer_read_exactly [3; 4; 1; 2; 3; 4] 3 2 [0; 0; 0] 3 (Some 9) (Some 9));
    first [simpl; lia | repeat constructor; zb].
Defined.
