(* ===== verification/ModbusFrame.v ===== *)
(** * Modbus: frames

    The framing half of [lh/core/net/modbus/link.c]: wrapping a data unit for a
    serial line (unit, PDU, CRC) or for a network (seven-byte header), taking it
    off again, and finding where a frame ends.  Theorems: what is encoded is
    decoded and sized; the builders of [Modbus] are this encoding; a frame damaged
    in two adjacent bytes is refused; and the exact buffer sizes for which the
    copies stay inside their arrays. *)
From S2P Require Import Prelude Buffer Hash Modbus ModbusProofs.

Definition LH_MB_MBAP_HEAD : Z := 7.

Inductive lh_mb_framing : Type := lh_mb_framing_rtu | lh_mb_framing_mbap.
#[export] Instance lh_mb_framing_eq_dec : EqDecision lh_mb_framing.
Proof. solve_decision. Defined.

(** ** The code *)

Definition lh_mb_encode (framing : lh_mb_framing) (unit tx : Z) (pdu : option buffer)
    (pdu_length : Z) (out : option buffer) (cap : Z) : outcome (option buffer * Z) :=
  match out, pdu with
  | Some b, Some pdu =>
    match framing with
    | lh_mb_framing_mbap =>
      if cap <? u16 (LH_MB_MBAP_HEAD + pdu_length) then mret (out, 0) else
      b ← put b 0 (u8 (Z.shiftr tx 8));
      b ← put b 1 (lo tx);
      b ← put b 2 0;
      b ← put b 3 0;
      b ← put b 4 (u8 (Z.shiftr (1 + pdu_length) 8));
      b ← put b 5 (lo (1 + pdu_length));
      b ← put b 6 unit;
      b ← copy_bytes b 7 pdu pdu_length;
      mret (Some b, u16 (LH_MB_MBAP_HEAD + pdu_length))
    | lh_mb_framing_rtu =>
      if cap <? u16 (2 + pdu_length) then mret (out, 0) else
      b ← put b 0 unit;
      b ← copy_bytes b 1 pdu pdu_length;
      crc ← lh_mb_crc16 (Some b) (u16 (1 + pdu_length));
      b ← put b (1 + pdu_length) (lo crc);
      b ← put b (2 + pdu_length) (u8 (Z.shiftr crc 8));
      mret (Some b, u16 (3 + pdu_length))
    end
  | _, _ => mret (out, 0)
  end.

Definition lh_mb_rtu_frame_length (frame : buffer) (have fc : Z) : outcome Z :=
  if have <? 3 then mret 0 else
  f1 ← load frame 1;
  if negb (Z.land f1 0x80 =? 0) then mret 5 else
  if (fc =? LH_MB_FC_READ_HOLDING) || (fc =? LH_MB_FC_READ_INPUT) then
    f2 ← load frame 2; mret (u16 (5 + f2))
  else if (fc =? LH_MB_FC_WRITE_ONE) || (fc =? LH_MB_FC_WRITE_MANY) then mret 8
  else mret 0.

Definition lh_mb_decode (framing : lh_mb_framing) (unit : Z) (frame : option buffer) (length : Z)
    (pdu : option buffer) (pdu_length : option Z)
    : outcome (bool * option buffer * option Z) :=
  match frame, pdu, pdu_length with
  | Some frame, Some p, Some _ =>
    match framing with
    | lh_mb_framing_mbap =>
      if negb (length >? LH_MB_MBAP_HEAD) then mret (false, pdu, pdu_length) else
      f2 ← load frame 2; f3 ← load frame 3; f6 ← load frame 6;
      if negb (f2 =? 0) || negb (f3 =? 0) || negb (f6 =? unit)
      then mret (false, pdu, pdu_length) else
      let n := u16 (length - LH_MB_MBAP_HEAD) in
      p ← copy_bytes p 0 (drop 7 frame) n;
      mret (true, Some p, Some n)
    | lh_mb_framing_rtu =>
      if negb (length >=? 4) then mret (false, pdu, pdu_length) else
      f0 ← load frame 0;
      if negb (f0 =? unit) then mret (false, pdu, pdu_length) else
      crc ← lh_mb_crc16 (Some frame) (u16 (length - 2));
      h ← load frame (length - 1);
      l ← load frame (length - 2);
      if negb (crc =? be16 h l) then mret (false, pdu, pdu_length) else
      let n := u16 (length - 3) in
      p ← copy_bytes p 0 (drop 1 frame) n;
      mret (true, Some p, Some n)
    end
  | _, _, _ => mret (false, pdu, pdu_length)
  end.

Definition lh_mb_frame_length (framing : lh_mb_framing) (frame : option buffer) (have fc : Z)
    : outcome Z :=
  match frame with
  | None => mret 0
  | Some frame =>
    match framing with
    | lh_mb_framing_mbap =>
      if have <? LH_MB_MBAP_HEAD then mret 0 else
      f2 ← load frame 2; f3 ← load frame 3;
      if negb (f2 =? 0) || negb (f3 =? 0) then mret 0 else
      f4 ← load frame 4; f5 ← load frame 5;
      let length := be16 f4 f5 in
      if (length <? 2) || (length >? u16 (LH_MB_ADU_MAX - LH_MB_MBAP_HEAD + 1)) then mret 0 else
      mret (u16 (LH_MB_MBAP_HEAD + length - 1))
    | lh_mb_framing_rtu => lh_mb_rtu_frame_length frame have fc
    end
  end.

(** The captured answer of the comment in [lh_mb_frame_length]. *)
Example captured : let f := [0;1;0;0;0;9;1;3;6;0;1;0;1;0;1] in
  lh_mb_frame_length lh_mb_framing_mbap (Some f) 15 3 = Done 15 /\
  lh_mb_decode lh_mb_framing_mbap 1 (Some f) 15 (Some (local 8)) (Some 0)
  = Done (true, Some [3;6;0;1;0;1;0;1], Some 8).
Proof. by vm_compute. Qed.

(** ** The CRC of a frame *)

Definition crc16 (bytes : list Z) : Z := crc_fold 0xFFFF bytes 0xA001.

Lemma crc16_u16 bytes : is_bytes bytes -> is_u16 (crc16 bytes).
Proof. intros. apply (crc_fold_range 16); [lia|lia|lia|done|lia]. Qed.
Lemma mb_crc16_take b n :
  is_bytes b -> 0 <= n <= len b -> lh_mb_crc16 (Some b) n = Done (crc16 (take (Z.to_nat n) b)).
Proof.
  intros Hb Hn. unfold lh_mb_crc16. rewrite crc_update_fold, bind_done by lia.
  rewrite u16_id; [done|]. by apply crc16_u16, Forall_take.
Qed.
(** A frame that ends in its own CRC, low byte first, has CRC zero, and only such
    a frame. *)
Lemma crc16_residue m l h :
  is_bytes m -> is_u8 l -> is_u8 h -> (crc16 (m ++ [l; h]) = 0 <-> crc16 m = be16 h l).
Proof.
  intros Hm Hl Hh. unfold crc16. rewrite crc_fold_app.
  change (crc_fold 65535 m 0xA001) with (crc16 m).
  pose proof (crc16_u16 m Hm) as Hc. rewrite crc_fold_window.
  assert (HB : is_bytes [l; h]) by bytes.
  pose proof (le_value_range _ HB) as Hr. change (2 ^ (8 * len [l; h])) with 65536 in Hr.
  assert (Hv : le_value [l; h] = be16 h l).
  { rewrite be16_val, !le_value_cons by done. simpl. lia. }
  rewrite Hv in *. split.
  - intros H0. change 0 with (crc_bits (8 * length [l; h]) 0 0xA001) in H0.
    apply (crc_bits_inj 16) in H0; [|lia|lia|done|apply lxor_range; zb|lia].
    by apply Z.lxor_eq in H0.
  - intros ->. rewrite Z.lxor_nilpotent. done.
Qed.

(** ** Encoding *)

Definition frame_of (framing : lh_mb_framing) (unit tx : Z) (pdu : buffer) : buffer :=
  match framing with
  | lh_mb_framing_mbap =>
    [hi tx; lo tx; 0; 0; hi (1 + len pdu); lo (1 + len pdu); unit] ++ pdu
  | lh_mb_framing_rtu =>
    (unit :: pdu) ++ [lo (crc16 (unit :: pdu)); hi (crc16 (unit :: pdu))]
  end.
(** What the framing adds to a data unit. *)
Definition overhead (framing : lh_mb_framing) : nat :=
  match framing with lh_mb_framing_mbap => 7 | lh_mb_framing_rtu => 3 end.

Lemma length_frame_of framing unit tx pdu :
  length (frame_of framing unit tx pdu) = (overhead framing + length pdu)%nat.
Proof. destruct framing; [|done]. unfold frame_of. rewrite length_app. simpl. lia. Qed.
Lemma hi_shift w : is_u16 w -> u8 (Z.shiftr w 8) = hi w.
Proof. intros. rewrite hi_div, Z.shiftr_div_pow2 by lia. done. Qed.
Lemma frame_of_bytes framing unit tx pdu :
  is_u8 unit -> is_bytes pdu -> is_bytes (frame_of framing unit tx pdu).
Proof.
  intros Hu Hb. destruct framing; unfold frame_of; bytes.
Qed.

Section Encode.
Context (unit tx : Z) (pdu b : buffer).
Context (Hu : is_u8 unit) (Htx : is_u16 tx) (Hb : is_bytes pdu) (Hn : len pdu <= 65528).

Lemma encode_mbap_ok :
  7 + len pdu <= len b ->
  lh_mb_encode lh_mb_framing_mbap unit tx (Some pdu) (len pdu) (Some b) (len b)
  = Done (Some (filled (frame_of lh_mb_framing_mbap unit tx pdu) b), 7 + len pdu).
Proof using Htx Hn.
  intros Hl. unfold lh_mb_encode, LH_MB_MBAP_HEAD. cint.
  rewrite (proj2 (Z.ltb_ge _ _)) by lia. rewrite !hi_shift by zb. run_puts b.
  rewrite copy_filled by (simpl; lia). rewrite bind_done, take_ge by lia. done.
Qed.
Lemma encode_rtu_ok :
  3 + len pdu <= len b ->
  lh_mb_encode lh_mb_framing_rtu unit tx (Some pdu) (len pdu) (Some b) (len b)
  = Done (Some (filled (frame_of lh_mb_framing_rtu unit tx pdu) b), 3 + len pdu).
Proof using Hu Hb Hn.
  intros Hl. unfold lh_mb_encode. cint.
  rewrite (proj2 (Z.ltb_ge _ _)) by lia. run_puts b.
  rewrite copy_filled, bind_done, take_ge by (simpl; lia). cbn [app].
  assert (Hc : lh_mb_crc16 (Some (filled (unit :: pdu) b)) (1 + len pdu)
               = Done (crc16 (unit :: pdu))).
  { unfold lh_mb_crc16. rewrite crc_update_fold by (rewrite length_filled; simpl; lia).
    rewrite bind_done. replace (Z.to_nat (1 + len pdu)) with (length (unit :: pdu)) by (simpl; lia).
    rewrite take_filled. apply f_equal, u16_id, crc16_u16. by constructor. }
  rewrite Hc, bind_done. rewrite hi_shift by by apply crc16_u16; constructor.
  rewrite put_filled, bind_done by (simpl; lia).
  rewrite put_filled, bind_done by (rewrite length_app; simpl; lia).
  unfold frame_of. by rewrite <-app_assoc.
Qed.
End Encode.
Lemma encode_ok framing unit tx pdu b :
  is_u8 unit -> is_u16 tx -> is_bytes pdu -> len pdu <= 65528 ->
  Z.of_nat (overhead framing) + len pdu <= len b ->
  lh_mb_encode framing unit tx (Some pdu) (len pdu) (Some b) (len b)
  = Done (Some (filled (frame_of framing unit tx pdu) b), len (frame_of framing unit tx pdu)).
Proof.
  intros Hu Ht Hb Hn Hl. rewrite length_frame_of.
  destruct framing; [rewrite encode_rtu_ok by done | rewrite encode_mbap_ok by done];
    do 2 f_equal; simpl overhead; lia.
Qed.

(** Claim C39: encoding stores the frame and nothing else when the buffer has room
    for it and answers 0 without touching the buffer when it does not, except for
    one size: a serial frame checks for two bytes around the data unit and writes
    three, so a buffer of exactly that size is overrun by its last byte. *)
Theorem encode_bounds framing unit tx pdu b :
  is_u8 unit -> is_u16 tx -> is_bytes pdu -> len pdu <= 65528 ->
  lh_mb_encode framing unit tx (Some pdu) (len pdu) (Some b) (len b)
  = if len b <? match framing with
                | lh_mb_framing_mbap => 7 + len pdu
                | lh_mb_framing_rtu => 2 + len pdu
                end then Done (Some b, 0)
    else if len b =? 2 + len pdu then Undef
    else Done (Some (frame_of framing unit tx pdu
                     ++ drop (length (frame_of framing unit tx pdu)) b),
               len (frame_of framing unit tx pdu)).
Proof.
  intros Hu Ht Hb Hn. destruct framing.
  - destruct (Z.ltb_spec (len b) (2 + len pdu)).
    { unfold lh_mb_encode. cint. by rewrite (proj2 (Z.ltb_lt _ _)) by lia. }
    destruct (Z.eqb_spec (len b) (2 + len pdu)) as [E|].
    2:{ by apply encode_ok; [done..|simpl overhead; lia]. }
    unfold lh_mb_encode. cint. rewrite (proj2 (Z.ltb_ge _ _)) by lia. run_puts b.
    rewrite copy_filled, bind_done, take_ge by (simpl; lia). cbn [app].
    unfold lh_mb_crc16. rewrite crc_update_fold by (rewrite length_filled; simpl; lia).
    rewrite !bind_done, put_filled, bind_done by (simpl; lia).
    rewrite put_undef; [done|]. rewrite length_filled; rewrite ?length_app; simpl; lia.
  - destruct (Z.ltb_spec (len b) (7 + len pdu)).
    { unfold lh_mb_encode, LH_MB_MBAP_HEAD. cint. by rewrite (proj2 (Z.ltb_lt _ _)) by lia. }
    rewrite (proj2 (Z.eqb_neq _ _)) by lia. by apply encode_ok; [done..|simpl overhead; lia].
Qed.
Lemma encode_bounds_witness :
  lh_mb_encode lh_mb_framing_rtu 1 0 (Some [3; 0; 0; 0; 1]) 5 (Some (local 7)) 7 = Undef.
Proof.
  apply (encode_bounds lh_mb_framing_rtu 1 0 [3; 0; 0; 0; 1] (local 7));
    [zb | zb | repeat constructor; zb | simpl; lia].
Defined.

(** ** Decoding *)

(** The data unit inside the bytes [f] of one frame, if it is a frame for [unit]. *)
Definition payload (framing : lh_mb_framing) (unit : Z) (f : buffer) : option buffer :=
  match framing with
  | lh_mb_framing_mbap =>
    if (7 <? len f) && (nth 2 f 0 =? 0) && (nth 3 f 0 =? 0) && (nth 6 f 0 =? unit)
    then Some (drop 7 f) else None
  | lh_mb_framing_rtu =>
    if (4 <=? len f) && (nth 0 f 0 =? unit) && (crc16 f =? 0)
    then Some (take (length f - 3) (drop 1 f)) else None
  end.

Lemma crc_check f n :
  is_bytes f -> 4 <= n <= len f -> n <= 65535 ->
  (crc ← lh_mb_crc16 (Some f) (u16 (n - 2)); h ← load f (n - 1); l ← load f (n - 2);
   mret (crc =? be16 h l)) = Done (crc16 (take (Z.to_nat n) f) =? 0).
Proof.
  intros Hb Hn Hm. cint. rewrite mb_crc16_take by (done || lia). rewrite bind_done.
  destruct (load_byte f (n - 1) Hb) as (h & Eh & Hh); [lia|].
  destruct (load_byte f (n - 2) Hb) as (l & El & Hl); [lia|].
  rewrite Eh, El, !bind_done. f_equal.
  set (m := take (Z.to_nat (n - 2)) f).
  assert (E : take (Z.to_nat n) f = m ++ [l; h]).
  { unfold m. replace (Z.to_nat n) with (S (S (Z.to_nat (n - 2)))) by lia.
    assert (Hlk : forall i v, load f i = Done v -> 0 <= i -> f !! Z.to_nat i = Some v).
    { intros i v. unfold load. destruct (Z.ltb_spec i 0); [lia|].
      destruct (f !! Z.to_nat i); congruence. }
    rewrite (take_S_r f (S (Z.to_nat (n - 2))) h), (take_S_r f (Z.to_nat (n - 2)) l).
    - by rewrite <-app_assoc.
    - apply Hlk; [done|lia].
    - replace (S (Z.to_nat (n - 2))) with (Z.to_nat (n - 1)) by lia. apply Hlk; [done|lia]. }
  rewrite E. assert (Hbm : is_bytes m) by by apply Forall_take.
  pose proof (crc16_residue m l h Hbm Hl Hh) as Hiff.
  destruct (Z.eqb_spec (crc16 m) (be16 h l)), (Z.eqb_spec (crc16 (m ++ [l; h])) 0); tauto.
Qed.

Lemma nth_take {A} (d : A) i n l : (i < n)%nat -> nth i (take n l) d = nth i l d.
Proof. intros. rewrite !nth_lookup. by rewrite lookup_take_lt. Qed.

(** The decoder, as a function of the bytes of the frame alone. *)
Lemma decode_spec framing unit f n p z :
  is_bytes f -> 0 <= n <= len f -> n <= 65535 ->
  lh_mb_decode framing unit (Some f) n (Some p) (Some z)
  = match payload framing unit (take (Z.to_nat n) f) with
    | None => Done (false, Some p, Some z)
    | Some q => if len q <=? len p then Done (true, Some (filled q p), Some (len q)) else Undef
    end.
Proof.
  intros Hb Hn Hm. assert (Hlt : len (take (Z.to_nat n) f) = n) by (rewrite length_take; lia).
  assert (Hcp : forall q, 0 <= len q ->
    copy_bytes p 0 q (len q) = if len q <=? len p then Done (filled q p) else Undef).
  { intros q _. destruct (Z.leb_spec (len q) (len p)); [|by apply copy_undef; lia].
    rewrite <-(filled_nil p) at 1. by rewrite copy_filled, take_ge by (simpl; lia). }
  assert (Hcopy : forall k q m, 0 <= m -> q = take (Z.to_nat m) (drop k f) ->
    m <= len (drop k f) ->
    copy_bytes p 0 (drop k f) m = if len q <=? len p then Done (filled q p) else Undef).
  { intros k q m Hm0 -> Hle. rewrite length_take, length_drop in *.
    rewrite Nat.min_l, Z2Nat.id by lia.
    destruct (Z.leb_spec m (len p)); [|by apply copy_undef; lia].
    rewrite <-(filled_nil p) at 1.
    by rewrite copy_filled by (rewrite ?length_drop; simpl; lia). }
  unfold lh_mb_decode, payload. rewrite Hlt. destruct framing.
  - rewrite Z.geb_leb. destruct (Z.leb_spec 4 n) as [H4|]; cbn [negb andb]; [|done].
    rewrite (load_nth f 0), bind_done by lia. rewrite nth_take by lia.
    change (Z.to_nat 0) with 0%nat. destruct (Z.eqb_spec (nth 0 f 0) unit); cbn [negb andb]; [|done].
    pose proof (crc_check f n Hb ltac:(lia) Hm) as Hc.
    destruct (lh_mb_crc16 (Some f) (u16 (n - 2))) as [c| |]; try done. rewrite bind_done in *.
    destruct (load f (n - 1)) as [h| |]; try done. rewrite bind_done in *.
    destruct (load f (n - 2)) as [l| |]; try done. rewrite bind_done in *.
    injection Hc as ->. destruct (crc16 (take (Z.to_nat n) f) =? 0); cbn [negb]; [|done].
    cint. set (q := take (length (take (Z.to_nat n) f) - 3) (drop 1 (take (Z.to_nat n) f))).
    assert (Hq : q = take (Z.to_nat (n - 3)) (drop 1 f)).
    { unfold q. rewrite length_take, Nat.min_l, List.skipn_firstn_comm, take_take by lia. f_equal. lia. }
    assert (Hlq : len q = n - 3) by (rewrite Hq, length_take, length_drop; lia).
    rewrite (Hcopy 1%nat q) by (rewrite ?length_drop; done || lia).
    destruct (len q <=? len p); [|done]. rewrite bind_done. by rewrite Hlq.
  - rewrite Z.gtb_ltb. unfold LH_MB_MBAP_HEAD.
    destruct (Z.ltb_spec 7 n) as [H7|]; cbn [negb andb]; [|done].
    rewrite !load_nth, !bind_done by lia. rewrite !nth_take by lia.
    change (Z.to_nat 2) with 2%nat; change (Z.to_nat 3) with 3%nat; change (Z.to_nat 6) with 6%nat.
    destruct (nth 2 f 0 =? 0), (nth 3 f 0 =? 0), (nth 6 f 0 =? unit); cbn [negb andb orb]; try done.
    cint. set (q := drop 7 (take (Z.to_nat n) f)).
    assert (Hq : q = take (Z.to_nat (n - 7)) (drop 7 f)).
    { unfold q. rewrite List.skipn_firstn_comm. f_equal. lia. }
    assert (Hlq : len q = n - 7) by (rewrite Hq, length_take, length_drop; lia).
    rewrite (Hcopy 7%nat q) by (rewrite ?length_drop; done || lia).
    destruct (len q <=? len p); [|done]. rewrite bind_done. by rewrite Hlq.
Qed.

(** ** Round trip *)

Lemma payload_frame_of framing unit tx pdu :
  is_u8 unit -> is_u16 tx -> is_bytes pdu -> pdu <> [] ->
  payload framing unit (frame_of framing unit tx pdu) = Some pdu.
Proof.
  intros Hu Ht Hb Hne. assert (Hl : (1 <= length pdu)%nat) by (destruct pdu; [done|simpl; lia]).
  unfold payload. rewrite length_frame_of. destruct framing; cbn [overhead].
  - rewrite (proj2 (Z.leb_le 4 _)) by lia. unfold frame_of. cbn [app nth].
    rewrite Z.eqb_refl, app_comm_cons. cbn [andb].
    assert (Hc : crc16 ((unit :: pdu) ++ [lo (crc16 (unit :: pdu)); hi (crc16 (unit :: pdu))]) = 0).
    { apply crc16_residue; [bytes|apply lo_u8|apply hi_u8|].
      rewrite be16_hi_lo; [done|]. apply crc16_u16. bytes. }
    rewrite Hc. cbn [drop app Z.eqb]. f_equal.
    replace (3 + length pdu - 3)%nat with (length pdu) by lia.
    by rewrite drop_0, take_app_length.
  - rewrite (proj2 (Z.ltb_lt 7 _)) by lia. cbn. by rewrite Z.eqb_refl.
Qed.

(** The header of a network frame around [n] bytes. *)
Definition mbap_head (unit tx n : Z) : buffer :=
  [hi tx; lo tx; 0; 0; hi (1 + n); lo (1 + n); unit].
Lemma frame_length_head unit tx n more have fc :
  1 <= n <= 253 -> 7 <= have ->
  lh_mb_frame_length lh_mb_framing_mbap (Some (mbap_head unit tx n ++ more)) have fc
  = Done (7 + n).
Proof.
  intros Hn Hh. unfold lh_mb_frame_length, LH_MB_MBAP_HEAD.
  rewrite (proj2 (Z.ltb_ge _ _)) by lia. unfold mbap_head. cbn [app]. run_loads.
  cbn [Z.eqb negb orb]. rewrite be16_hi_lo by zb.
  change (u16 (LH_MB_ADU_MAX - 7 + 1)) with 254.
  rewrite (proj2 (Z.ltb_ge _ _)), Z.gtb_ltb, (proj2 (Z.ltb_ge _ _)) by lia. cbn [orb].
  cint. change (mret ?x) with (Done x). f_equal. lia.
Qed.
Lemma frame_length_mbap unit tx pdu more fc :
  1 <= len pdu <= 253 ->
  lh_mb_frame_length lh_mb_framing_mbap
    (Some (frame_of lh_mb_framing_mbap unit tx pdu ++ more))
    (len (frame_of lh_mb_framing_mbap unit tx pdu ++ more)) fc
  = Done (len (frame_of lh_mb_framing_mbap unit tx pdu)).
Proof.
  intros Hn. unfold frame_of. rewrite <-app_assoc.
  rewrite (frame_length_head unit tx (len pdu)) by (rewrite ?length_app; simpl; lia).
  f_equal. rewrite length_app. simpl. lia.
Qed.
Lemma payload_other framing unit other tx pdu :
  other <> unit -> payload framing other (frame_of framing unit tx pdu) = None.
Proof.
  intros Hother. unfold payload. destruct framing; unfold frame_of; cbn [app nth];
    (destruct (Z.eqb_spec unit other); [done|]; by rewrite andb_false_r).
Qed.

Lemma frame_length_rtu unit tx pdu more fc :
  is_bytes pdu -> len pdu <= 257 ->
  (exists ws, is_answer fc pdu ws /\ len pdu = 2 + 2 * len ws /\
     (fc = LH_MB_FC_READ_HOLDING \/ fc = LH_MB_FC_READ_INPUT)) \/
  (exists code, pdu = [fc + 128; code] /\ 0 <= fc < 128) \/
  (len pdu = 5 /\ nth 0 pdu 0 = fc /\ (fc = LH_MB_FC_WRITE_ONE \/ fc = LH_MB_FC_WRITE_MANY)) ->
  lh_mb_frame_length lh_mb_framing_rtu
    (Some (frame_of lh_mb_framing_rtu unit tx pdu ++ more))
    (len (frame_of lh_mb_framing_rtu unit tx pdu ++ more)) fc
  = Done (len (frame_of lh_mb_framing_rtu unit tx pdu)).
Proof.
  intros Hb Hn Hcases. unfold lh_mb_frame_length, lh_mb_rtu_frame_length.
  rewrite length_app, length_frame_of. cbn [overhead].
  rewrite (proj2 (Z.ltb_ge _ _)) by lia. unfold frame_of.
  destruct Hcases as [(ws & Ha & Hl & Hfc)|[(code & -> & Hfc)|(Hl & H0 & Hfc)]].
  - destruct Ha as (_ & _ & _ & tail & E).
    set (c := crc16 (unit :: pdu)) in *. rewrite E. cbn [app].
    run_loads.
    rewrite <-E.
    destruct Hfc as [-> | ->]; cbn -[u16]; rewrite u16_id by zb;
      change (mret ?x) with (Done x); f_equal; lia.
  - cbn [app].
    run_loads.
    assert (Z.land (fc + 128) 128 <> 0).
    { intros E. apply (f_equal (fun x => Z.testbit x 7)) in E.
      assert (H7 : Z.testbit (fc + 128) 7 = true)
        by (apply Z.testbit_true; [lia|]; change (2 ^ 7) with 128; zdm).
      by rewrite Z.land_spec, H7 in E. }
    by rewrite (proj2 (Z.eqb_neq _ _)).
  - destruct pdu as [|p0 [|p1 r]]; [simpl in Hl; lia..|]. cbn in H0. subst p0. cbn [app].
    run_loads.
    destruct Hfc as [-> | ->]; cbn -[length]; change (mret ?x) with (Done x); f_equal; lia.
Qed.

(** The data units a device answers a question of function code [fc] with. *)
Definition answers (fc : Z) (pdu : buffer) : Prop :=
  (exists ws, is_answer fc pdu ws /\ len pdu = 2 + 2 * len ws /\
     (fc = LH_MB_FC_READ_HOLDING \/ fc = LH_MB_FC_READ_INPUT)) \/
  (exists code, pdu = [fc + 128; code] /\ 0 <= fc < 128) \/
  (len pdu = 5 /\ nth 0 pdu 0 = fc /\ (fc = LH_MB_FC_WRITE_ONE \/ fc = LH_MB_FC_WRITE_MANY)).

(** Claim C25: a data unit that fits a frame survives the wire in both framings:
    the frame is encoded into a large enough buffer, its length is found at the
    start of whatever bytes follow it (for a serial line when it answers the
    question asked), it decodes to the same data unit for the unit it was
    addressed to, and to nothing for any other unit. *)
Theorem frame_roundtrip framing unit other tx pdu fc b p z more :
  is_u8 unit -> is_u16 tx -> is_bytes pdu -> 1 <= len pdu <= 253 -> is_bytes more ->
  (framing = lh_mb_framing_rtu -> answers fc pdu) ->
  len b >= 260 -> len p >= 260 -> len more <= 1000 -> other <> unit ->
  exists f, lh_mb_encode framing unit tx (Some pdu) (len pdu) (Some b) (len b)
      = Done (Some (f ++ drop (length f) b), len f) /\
    lh_mb_frame_length framing (Some (f ++ more)) (len (f ++ more)) fc = Done (len f) /\
    lh_mb_decode framing unit (Some (f ++ more)) (len f) (Some p) (Some z)
      = Done (true, Some (pdu ++ drop (length pdu) p), Some (len pdu)) /\
    lh_mb_decode framing other (Some (f ++ more)) (len f) (Some p) (Some z)
      = Done (false, Some p, Some z).
Proof.
  intros Hu Ht Hb Hn Hmore Hans Hlb Hlp Hlm Hother.
  exists (frame_of framing unit tx pdu).
  pose proof (length_frame_of framing unit tx pdu) as Hlf.
  assert (Hov : (overhead framing <= 7)%nat) by (destruct framing; simpl; lia).
  assert (HB : is_bytes (frame_of framing unit tx pdu ++ more)).
  { apply Forall_app. split; [by apply frame_of_bytes|done]. }
  split; [apply encode_ok; first [done | lia]|]. split.
  { destruct framing; [|by apply frame_length_mbap].
    apply frame_length_rtu; [done|lia|by apply Hans]. }
  rewrite !decode_spec by (rewrite ?length_app; done || lia).
  rewrite Nat2Z.id, take_app_length. split.
  - rewrite payload_frame_of by first [done | intros ->; simpl in Hn; lia].
    by rewrite (proj2 (Z.leb_le _ _)) by lia.
  - by rewrite payload_other.
Qed.
Lemma frame_roundtrip_witness :
  exists f, lh_mb_encode lh_mb_framing_rtu 1 0 (Some [3; 2; 1; 2]) 4 (Some (local 260)) 260
      = Done (Some (f ++ drop (length f) (local 260)), len f) /\
    lh_mb_frame_length lh_mb_framing_rtu (Some (f ++ [9])) (len (f ++ [9])) 3 = Done (len f) /\
    lh_mb_decode lh_mb_framing_rtu 1 (Some (f ++ [9])) (len f) (Some (local 260)) (Some 0)
      = Done (true, Some ([3; 2; 1; 2] ++ drop 4 (local 260)), Some 4) /\
    lh_mb_decode lh_mb_framing_rtu 2 (Some (f ++ [9])) (len f) (Some (local 260)) (Some 0)
      = Done (false, Some (local 260), Some 0).
Proof.
  apply (frame_roundtrip lh_mb_framing_rtu 1 2 0 [3; 2; 1; 2] 3 (local 260) (local 260) 0 [9]);
    try zb; try (repeat constructor; zb); try (simpl; lia).
  intros _. left. exists [258]. split; [|split; [done|by left]].
  split; [by repeat constructor|]. split; [simpl; lia|]. split; [simpl; lia|]. by exists [].
Defined.

(** Claim C26: a frame accepted on a serial line is never accepted again, by any
    unit, after any change confined to two neighbouring bytes, wherever they are:
    unit, function code, data or the CRC itself. *)
Theorem damaged_frame_refused unit other p x y s q z pdu n :
  is_bytes (p ++ x ++ s) -> is_bytes y -> length x = length y -> (length x <= 2)%nat -> x <> y ->
  len (p ++ x ++ s) <= 65535 ->
  lh_mb_decode lh_mb_framing_rtu unit (Some (p ++ x ++ s)) (len (p ++ x ++ s)) (Some q) (Some z)
    = Done (true, pdu, n) ->
  lh_mb_decode lh_mb_framing_rtu other (Some (p ++ y ++ s)) (len (p ++ y ++ s)) (Some q) (Some z)
    = Done (false, Some q, Some z).
Proof.
  intros HB Hy Hl H2 Hne Hm Hacc. unfold is_bytes in HB. rewrite !Forall_app in HB.
  destruct HB as (Hp & Hx & Hs).
  assert (Hlen : len (p ++ y ++ s) = len (p ++ x ++ s)) by (rewrite !length_app; lia).
  assert (Hcx : crc16 (p ++ x ++ s) = 0).
  { rewrite decode_spec, Nat2Z.id, take_ge in Hacc by (bytes || lia).
    unfold payload in Hacc. destruct (Z.eqb_spec (crc16 (p ++ x ++ s)) 0); [done|].
    by rewrite andb_false_r in Hacc. }
  rewrite decode_spec, Nat2Z.id, take_ge by (bytes || lia). unfold payload.
  destruct (Z.eqb_spec (crc16 (p ++ y ++ s)) 0) as [Hcy|]; [|by rewrite andb_false_r].
  exfalso. apply Hne. eapply (crc_fold_burst 16 0xA001 0xFFFF p x y s); try done; try lia.
  change (crc16 (p ++ x ++ s) = crc16 (p ++ y ++ s)). congruence.
Qed.
Lemma damaged_frame_refused_witness :
  lh_mb_decode lh_mb_framing_rtu 1 (Some ([1; 6] ++ [0; 7] ++ [0; 9; 24; 12])) 8
    (Some (local 260)) (Some 0) = Done (false, Some (local 260), Some 0).
Proof.
  apply (damaged_frame_refused 1 1 [1; 6] [0; 1] [0; 7] [0; 9; 24; 12] (local 260) 0
    (Some ([6; 0; 1; 0; 9] ++ drop 5 (local 260))) (Some 5));
    [repeat constructor; zb | repeat constructor; zb | done | simpl; lia | done | simpl; lia
    | vm_compute; reflexivity].
Defined.

(** ** The builders and the parser of whole serial frames *)

Lemma envelope_is_encode unit pdu n b :
  is_u8 unit -> 3 + n <= len b -> 0 < n <= 260 ->
  (b ← put b 0 unit;
   b ← copy_bytes b 1 pdu n;
   crc ← lh_mb_crc16 (Some b) (u16 (1 + n));
   b ← put b (1 + n) (lo crc);
   b ← put b (2 + n) (hi crc);
   mret (Some b, u16 (3 + n)))
  = lh_mb_encode lh_mb_framing_rtu unit 0 (Some pdu) n (Some b) (len b).
Proof.
  intros Hu Hb Hn. unfold lh_mb_encode. rewrite (u16_id (2 + n)) by zb.
  rewrite (proj2 (Z.ltb_ge _ _)) by lia.
  destruct (put b 0 unit) as [b0| |]; [|done..]. rewrite !bind_done.
  destruct (copy_bytes b0 1 pdu n) as [b1| |]; [|done..]. rewrite !bind_done.
  destruct (lh_mb_crc16 (Some b1) (u16 (1 + n))) as [c| |] eqn:E; [|done..].
  rewrite !bind_done. rewrite hi_shift; [done|].
  unfold lh_mb_crc16 in E. apply bind_inv in E as (r & _ & [= <-]). apply u16_range.
Qed.

Lemma read_length fc address count pdu n :
  lh_mb_build_pdu_read (Some (local 16)) 16 fc address count = Done (pdu, n) ->
  n = 0 \/ (n = 5 /\ exists q, pdu = Some q).
Proof.
  unfold lh_mb_build_pdu_read. destruct (_ || _ || _); [intros [= <- <-]; by left|].
  destruct (negb _); [intros [= <- <-]; by left|].
  intros E. outcome_inv. injection E as <- <-. right. split; [done|]. eauto.
Qed.
Lemma write_length values address count pdu n :
  0 <= count ->
  lh_mb_build_pdu_write (Some (local LH_MB_ADU_MAX)) LH_MB_ADU_MAX address values count
    = Done (pdu, n) ->
  n = 0 \/ (n = 6 + count * 2 /\ count <= LH_MB_WRITE_MAX /\ exists q, pdu = Some q).
Proof.
  intros Hc. unfold lh_mb_build_pdu_write. destruct values; [|intros [= <- <-]; by left].
  rewrite Z.gtb_ltb.
  destruct (Z.eqb_spec count 0), (Z.ltb_spec LH_MB_WRITE_MAX count); cbn [orb];
    try (intros [= <- <-]; by left).
  destruct (_ <? _); [intros [= <- <-]; by left|]. intros E. outcome_inv. injection E as <- <-.
  right. unfold LH_MB_WRITE_MAX in *. split; [|split; [done|eauto]]. apply u16_id. zb.
Qed.

(** The two builders of whole serial frames are the data-unit builder
    followed by the serial framing, for every argument and buffer size; where the
    frame does not fit they answer 0 and leave the buffer alone. *)
Theorem builders_are_the_encoding unit fc address count values b :
  is_u8 unit -> is_u16 count ->
  lh_mb_build_read (Some b) (len b) unit fc address count
  = ('(pdu, n) ← lh_mb_build_pdu_read (Some (local 16)) 16 fc address count;
     if (n =? 0) || (len b <? 3 + n) then mret (Some b, 0)
     else lh_mb_encode lh_mb_framing_rtu unit 0 pdu n (Some b) (len b)) /\
  lh_mb_build_write (Some b) (len b) unit address (Some values) count
  = (if len b <? 9 + count * 2 then mret (Some b, 0) else
     '(pdu, n) ← lh_mb_build_pdu_write (Some (local LH_MB_ADU_MAX)) LH_MB_ADU_MAX address
                   (Some values) count;
     if n =? 0 then mret (Some b, 0)
     else lh_mb_encode lh_mb_framing_rtu unit 0 pdu n (Some b) (len b)).
Proof.
  intros Hu Hc. split.
  - unfold lh_mb_build_read.
    destruct (lh_mb_build_pdu_read _ _ _ _ _) as [[pdu n]| |] eqn:E.
    + rewrite !bind_done. destruct (read_length _ _ _ _ _ E) as [-> |[-> [q ->]]].
      { by destruct (_ <? 8). }
      cbn [Z.eqb orb deref]. rewrite bind_done. destruct (Z.ltb_spec (len b) 8).
      { by rewrite (proj2 (Z.ltb_lt _ _)) by lia. }
      rewrite (proj2 (Z.ltb_ge _ _)) by lia. apply envelope_is_encode; [done|lia|lia].
    + unfold lh_mb_build_pdu_read in E. destruct (_ || _ || _); [done|].
      destruct (negb _); vm_compute in E; discriminate E.
    + unfold lh_mb_build_pdu_read in E. destruct (_ || _ || _); [done|].
      destruct (negb _); vm_compute in E; discriminate E.
  - unfold lh_mb_build_write.
    assert (Hz : forall m, (count =? 0) || (count >? LH_MB_READ_MAX) = true ->
      lh_mb_build_pdu_write (Some (local LH_MB_ADU_MAX)) LH_MB_ADU_MAX address
        (Some values) count = m -> m = Done (Some (local LH_MB_ADU_MAX), 0)).
    { intros m Hg <-. unfold lh_mb_build_pdu_write.
      replace ((count =? 0) || (count >? LH_MB_WRITE_MAX)) with true; [done|].
      revert Hg. unfold LH_MB_READ_MAX, LH_MB_WRITE_MAX. zcases. }
    destruct ((count =? 0) || (count >? LH_MB_READ_MAX)) eqn:Hg.
    { rewrite (Hz _ eq_refl eq_refl). rewrite bind_done. by destruct (_ <? _). }
    clear Hz. apply orb_false_iff in Hg as [Hg0 Hg1].
    unfold LH_MB_READ_MAX in Hg1. rewrite Z.gtb_ltb in Hg1. apply Z.ltb_ge in Hg1.
    rewrite (u16_id (9 + count * 2)) by zb. destruct (Z.ltb_spec (len b) (9 + count * 2)); [done|].
    destruct (lh_mb_build_pdu_write _ _ _ _ _) as [[pdu n]| |] eqn:E; [|done..].
    rewrite !bind_done. apply write_length in E as [-> |(-> & Hw & q & ->)]; [done| |zb].
    rewrite (proj2 (Z.eqb_neq _ _)) by zb. cbn [deref]. rewrite bind_done.
    apply envelope_is_encode; [done|lia|zb].
Qed.
Lemma builders_are_the_encoding_witness :
  lh_mb_build_read (Some (local 8)) 8 17 3 107 3
  = ('(pdu, n) ← lh_mb_build_pdu_read (Some (local 16)) 16 3 107 3;
     if (n =? 0) || (8 <? 3 + n) then mret (Some (local 8), 0)
     else lh_mb_encode lh_mb_framing_rtu 17 0 pdu n (Some (local 8)) 8).
Proof. apply (builders_are_the_encoding 17 3 107 3 [] (local 8)); zb. Defined.

(** The parser looks at no byte past the length it is given. *)
Lemma values_loop_prefix q junk : forall n i values,
  0 <= i -> 2 + 2 * (i + Z.of_nat n) <= len q ->
  values_loop n i (q ++ junk) values = values_loop n i q values.
Proof.
  induction n as [|n IH]; intros i values Hi Hl; [done|]. cbn [values_loop].
  rewrite (load_app_l q junk (2 + i * 2)), (load_app_l q junk (3 + i * 2)) by lia.
  destruct (load q (2 + i * 2)) as [h| |]; [|done..]. rewrite !bind_done.
  destruct (load q (3 + i * 2)) as [l| |]; [|done..]. rewrite !bind_done.
  destruct (put values i (be16 h l)) as [v| |]; [|done..]. rewrite !bind_done.
  apply IH; lia.
Qed.
Lemma parse_pdu_prefix q junk fc expect values cap o e :
  is_bytes q -> len q <= 65535 ->
  lh_mb_parse_pdu (Some (q ++ junk)) (len q) fc expect values cap o e
  = lh_mb_parse_pdu (Some q) (len q) fc expect values cap o e.
Proof.
  intros Hb Hm. unfold lh_mb_parse_pdu. destruct (Z.ltb_spec (len q) 2); [done|].
  rewrite !(load_app_l q junk) by lia.
  destruct (load q 0) as [p0| |]; [|done..]. rewrite !bind_done.
  destruct (_ =? u8 _); [done|]. destruct (_ <? 4); [done|]. destruct (negb _); [done|].
  destruct (load_byte q 1 Hb) as (p1 & E1 & Hp1); [lia|]. rewrite E1, !bind_done.
  destruct (negb _); [done|]. rewrite (u16_id (_ - 2)) by zb.
  destruct (Z.ltb_spec (len q - 2) p1); [done|]. destruct values as [vs|]; [|done].
  rewrite values_loop_prefix; [done|lia|].
  rewrite (u16_id (p1 / 2)) by zdm. destruct (Z.ltb_spec (p1 / 2) cap); zdm.
Qed.

(** Reading a whole serial frame from the unit asked is taking the frame
    off and parsing the data unit inside, as long as the frame has at most 263
    bytes; a longer one with a good CRC is copied past the end of the parser's
    260-byte buffer.  A frame that does not decode is reported as damaged. *)
Theorem read_frame_bounds adu unit fc expect values cap o e q z :
  is_bytes adu -> 5 <= len adu <= 65535 -> nth 0 adu 0 = unit ->
  nth 1 adu 0 <> u8 (Z.lor fc 0x80) -> len adu <= len q ->
  lh_mb_parse_read (Some adu) (len adu) unit fc expect values cap o e
  = ('(ours, pdu, n) ←
       lh_mb_decode lh_mb_framing_rtu unit (Some adu) (len adu) (Some q) (Some z);
     if negb ours
     then mret (mk_parsed lh_mb_status_crc values (set_out o 0) (set_out e 0))
     else if len adu <=? 263 then
       length ← deref n;
       r ← lh_mb_parse_pdu pdu length fc expect values cap (set_out o 0) None;
       mret (mk_parsed (status r) (words r) (out r) (set_out e 0))
     else Undef).
Proof.
  intros Hb Hl H0 H1 Hq. rewrite decode_spec, Nat2Z.id, take_ge by (done || lia).
  unfold payload. rewrite (proj2 (Z.leb_le 4 _)), H0, Z.eqb_refl by lia. cbn [andb].
  unfold lh_mb_parse_read. rewrite (proj2 (Z.ltb_ge _ _)) by lia.
  rewrite (load_nth adu 0), bind_done by lia. change (Z.to_nat 0) with 0%nat.
  rewrite H0, Z.eqb_refl. cbn [negb].
  rewrite (load_nth adu 1), bind_done by lia. change (Z.to_nat 1) with 1%nat.
  rewrite (proj2 (Z.eqb_neq _ _) H1), (proj2 (Z.ltb_ge _ 5)) by lia.
  pose proof (crc_check adu (len adu) Hb ltac:(lia) ltac:(lia)) as Hc.
  rewrite Nat2Z.id, (take_ge adu) in Hc by lia.
  destruct (lh_mb_crc16 (Some adu) _) as [c| |]; try done. rewrite bind_done in *.
  destruct (load adu (len adu - 1)) as [h| |]; try done. rewrite bind_done in *.
  destruct (load adu (len adu - 2)) as [l| |]; try done. rewrite bind_done in *.
  injection Hc as ->. destruct (crc16 adu =? 0); cbn [negb]; [|by rewrite bind_done].
  destruct adu as [|a0 [|a1 r]]; [simpl in Hl; lia..|]. cbn [nth] in *.
  assert (Hlr : len (a0 :: a1 :: r) = len r + 2) by (simpl length; lia).
  rewrite Hlr in *. cbn [drop]. rewrite drop_0.
  set (body := take (length (a0 :: a1 :: r) - 3) (a1 :: r)).
  assert (Hbody : body = a1 :: take (Z.to_nat (len r - 2)) r).
  { unfold body. cbn [length]. replace (S (S (length r)) - 3)%nat
      with (S (Z.to_nat (len r - 2))) by lia. done. }
  assert (Hlb : len body = len r - 1).
  { rewrite Hbody. cbn [length]. rewrite length_take. lia. }
  rewrite (proj2 (Z.leb_le (len body) _)) by lia. rewrite bind_done. cbn [deref].
  rewrite bind_done. rewrite <-(filled_nil (local LH_MB_ADU_MAX)) at 1.
  rewrite put_filled, bind_done by (simpl; lia). cbn [app].
  replace (len r + 2 - 4) with (len r - 2) by lia. destruct (Z.leb_spec (len r + 2) 263).
  - rewrite copy_filled, bind_done; [|done|lia|cbn [length app]; unfold local, LH_MB_ADU_MAX;
      rewrite length_replicate; lia].
    cbn [app]. rewrite <-Hbody. rewrite u16_id by zb. replace (len r + 2 - 3) with (len body) by lia.
    assert (Hbb : is_bytes body).
    { unfold body. apply Forall_take. by inversion_clear Hb. }
    unfold filled. rewrite !parse_pdu_prefix by (done || lia). done.
  - rewrite copy_undef; [done|]. rewrite length_filled by (simpl; lia).
    unfold local, LH_MB_ADU_MAX. rewrite length_replicate. lia.
Qed.
Lemma read_frame_bounds_witness :
  lh_mb_parse_read (Some ([1; 3] ++ replicate 260 0 ++ [63; 1])) 264 1 3 1 (Some [0]) 1
    (Some 0) None = Undef.
Proof.
  etransitivity;
    [apply (read_frame_bounds ([1; 3] ++ replicate 260 0 ++ [63; 1]) 1 3 1 (Some [0]) 1
      (Some 0) None (local 300) 0) | vm_compute; reflexivity].
  - apply Forall_app; split; [repeat constructor; zb|].
    apply Forall_app; split; [|repeat constructor; zb].
    apply Forall_replicate. zb.
  - vm_compute. split; congruence.
  - reflexivity.
  - vm_compute. congruence.
  - vm_compute. congruence.
Defined.
