(* ===== verification/ModbusPlan.v ===== *)
(** * Modbus: the plan

    [lh_mb_plan_reads] against its specification: wants in address order are cut
    into runs, one request each; no partition into runs the wire allows is
    shorter. *)
From S2P Require Import Prelude Buffer Hash Modbus.

(** ** Specification *)

(** A want of no registers is one register. *)
Definition size (w : lh_mb_want_t) : Z := if registers w =? 0 then 1 else registers w.
Definition bend (w : lh_mb_want_t) : Z := address w + size w.

(** Address-ordered, not overlapping, each within one read and the address space. *)
Fixpoint ordered (from : Z) (ws : list lh_mb_want_t) : Prop :=
  match ws with
  | [] => True
  | w :: ws => from <= address w /\ 0 <= registers w /\ size w <= LH_MB_READ_MAX /\
      bend w <= 65535 /\ ordered (bend w) ws
  end.

(** A run that starts at [start] and ends before [end_] may go on with [g]. *)
Fixpoint fits (start end_ : Z) (g : list lh_mb_want_t) : Prop :=
  match g with
  | [] => True
  | w :: g => address w - end_ <= LH_MB_GAP_MAX /\ bend w - start <= LH_MB_READ_MAX /\
      fits start (bend w) g
  end.
(** A run one request may carry. *)
Definition legal (g : list lh_mb_want_t) : Prop :=
  match g with [] => False | w :: g => fits (address w) (bend w) g end.

(** Where a run ends, and the request for it when it starts at index [at_]. *)
Definition run_end (end_ : Z) (g : list lh_mb_want_t) : Z :=
  match list.last g with Some w => bend w | None => end_ end.
Definition request_of (at_ : nat) (g : list lh_mb_want_t) : lh_mb_read_t :=
  match g with
  | [] => mk_read 0 0 0 0
  | w :: g => mk_read (address w) (run_end (bend w) g - address w) (Z.of_nat at_)
                (Z.of_nat (at_ + length g))
  end.
Fixpoint requests (at_ : nat) (gs : list (list lh_mb_want_t)) : list lh_mb_read_t :=
  match gs with [] => [] | g :: gs => request_of at_ g :: requests (at_ + length g) gs end.

(** ** The greedy partition *)

Fixpoint span (start end_ : Z) (ws : list lh_mb_want_t)
    : list lh_mb_want_t * list lh_mb_want_t :=
  match ws with
  | [] => ([], [])
  | w :: ws' =>
    if (address w - end_ <=? LH_MB_GAP_MAX) && (bend w - start <=? LH_MB_READ_MAX)
    then let '(t, r) := span start (bend w) ws' in (w :: t, r)
    else ([], ws)
  end.
Fixpoint greedy (fuel : nat) (ws : list lh_mb_want_t) : list (list lh_mb_want_t) :=
  match fuel, ws with
  | S fuel, w :: ws => let '(t, r) := span (address w) (bend w) ws in (w :: t) :: greedy fuel r
  | _, _ => []
  end.

Lemma span_app ws : forall start end_ t r, span start end_ ws = (t, r) -> ws = t ++ r.
Proof.
  induction ws as [|w ws IH]; intros start end_ t r; cbn [span]; [by intros [= <- <-]|].
  destruct (_ && _); [|by intros [= <- <-]].
  destruct (span start (bend w) ws) as [t' r'] eqn:E. intros [= <- <-].
  cbn [app]. f_equal. by eapply IH.
Qed.
Lemma span_fits ws : forall start end_ t r, span start end_ ws = (t, r) -> fits start end_ t.
Proof.
  induction ws as [|w ws IH]; intros start end_ t r; cbn [span]; [by intros [= <- <-]|].
  destruct (_ && _) eqn:Hc; [|by intros [= <- <-]].
  destruct (span start (bend w) ws) as [t' r'] eqn:E. intros [= <- <-].
  apply andb_true_iff in Hc as [H1 H2]. apply Z.leb_le in H1, H2.
  split; [done|]. split; [done|]. by eapply IH.
Qed.
(** The greedy run takes at least what any run takes. *)
Lemma span_takes h : forall start end_ t,
  fits start end_ h -> exists t1 r, span start end_ (h ++ t) = (h ++ t1, r) /\ t = t1 ++ r.
Proof.
  induction h as [|w h IH]; intros start end_ t Hf.
  { destruct (span start end_ t) as [t1 r] eqn:E. exists t1, r. split; [done|].
    by eapply span_app. }
  destruct Hf as (H1 & H2 & Hf). cbn [span app].
  rewrite !(proj2 (Z.leb_le _ _)) by done. cbn [andb].
  destruct (IH start (bend w) t Hf) as (t1 & r & -> & ->). by exists t1, r.
Qed.

Lemma span_length ws start end_ t r :
  span start end_ ws = (t, r) -> (length r <= length ws)%nat.
Proof. intros ->%span_app. rewrite length_app. lia. Qed.
Lemma greedy_fuel f : forall g ws, (length ws <= f)%nat -> (length ws <= g)%nat ->
  greedy f ws = greedy g ws.
Proof.
  induction f as [|f IH]; intros [|g] [|w ws] Hf Hg; simpl in Hf, Hg; try done; try lia.
  cbn [greedy]. destruct (span _ _ ws) as [t r] eqn:E. apply span_length in E.
  f_equal. apply IH; lia.
Qed.
Lemma greedy_concat f : forall ws, (length ws <= f)%nat -> concat (greedy f ws) = ws.
Proof.
  induction f as [|f IH]; intros [|w ws] Hf; simpl in Hf; try done; [lia|].
  cbn [greedy]. destruct (span _ _ ws) as [t r] eqn:E.
  pose proof (span_length _ _ _ _ _ E). apply span_app in E as ->.
  cbn [concat app]. by rewrite IH by lia.
Qed.
Lemma greedy_legal f : forall ws, Forall legal (greedy f ws).
Proof.
  induction f as [|f IH]; intros [|w ws]; cbn [greedy]; try by constructor.
  destruct (span _ _ ws) as [t r] eqn:E. constructor; [|apply IH].
  by eapply span_fits.
Qed.

(** ** It is shortest *)

Lemma fits_later g : forall start start' end_, start <= start' -> fits start end_ g ->
  fits start' end_ g.
Proof.
  induction g as [|w g IH]; intros start start' end_ Hs; [done|].
  intros (H1 & H2 & H3). split; [done|]. split; [lia|]. by eapply IH.
Qed.
Lemma fits_suffix a : forall from start end_ w b,
  ordered from (a ++ w :: b) -> start <= from ->
  fits start end_ (a ++ w :: b) -> fits (address w) (bend w) b.
Proof.
  induction a as [|v a IH]; intros from start end_ w b; cbn [app ordered fits].
  - intros (H1 & _) Hs (_ & _ & Hf). eapply fits_later; [|exact Hf]. lia.
  - intros (H1 & H2 & H3 & H4 & Ho) Hs (_ & _ & Hf). eapply IH; [exact Ho| |exact Hf].
    unfold bend, size. zcases.
Qed.
Lemma legal_suffix from a w b :
  ordered from (a ++ w :: b) -> legal (a ++ w :: b) -> legal (w :: b).
Proof.
  destruct a as [|v a]; [done|]. cbn [app ordered legal]. intros (H1 & H2 & H3 & H4 & Ho) Hf.
  eapply fits_suffix; [exact Ho| |exact Hf]. unfold bend, size. zcases.
Qed.
Lemma ordered_weaken from from' ws : from' <= from -> ordered from ws -> ordered from' ws.
Proof. destruct ws; [done|]. cbn. intros. naive_solver lia. Qed.
Lemma ordered_suffix a : forall from b, 0 <= from -> ordered from (a ++ b) -> ordered 0 b.
Proof.
  induction a as [|v a IH]; intros from b Hf; [by apply ordered_weaken|].
  cbn [app ordered]. intros (H1 & H2 & _ & _ & Ho). eapply IH; [|exact Ho].
  unfold bend, size. zcases.
Qed.

Lemma ordered_prefix a : forall from b, ordered from (a ++ b) -> ordered from a.
Proof.
  induction a as [|v a IH]; intros from b; [done|]. cbn [app ordered].
  intros (H1 & H2 & H3 & H4 & Ho). naive_solver.
Qed.

(** The greedy partition of a suffix is not longer. *)
Lemma greedy_suffix f : forall a b, (length (a ++ b) <= f)%nat -> ordered 0 (a ++ b) ->
  (length (greedy f b) <= length (greedy f (a ++ b)))%nat.
Proof.
  induction f as [|f IH]; intros a b Hf Ho; [by destruct b, (a ++ _)|].
  destruct a as [|v a]; [done|]. destruct b as [|w b]; [simpl; lia|]. cbn [app] in *.
  cbn [greedy]. destruct (span (address v) (bend v) (a ++ w :: b)) as [t r] eqn:E.
  pose proof (span_fits _ _ _ _ _ E) as Hft. pose proof (span_app _ _ _ _ _ E) as Happ.
  assert (Hor : ordered 0 r).
  { apply (ordered_suffix (v :: t) 0); [lia|]. cbn [app]. by rewrite <-Happ. }
  assert (Hlr : (length r <= f)%nat).
  { apply (f_equal length) in Happ. simpl in Hf. rewrite !length_app in *. lia. }
  assert (Hbehind : forall k, r = k ++ w :: b ->
    (length (greedy (S f) (w :: b)) <= S (length (greedy f r)))%nat).
  { intros k ->. rewrite (greedy_fuel (S f) f (w :: b)) by (rewrite length_app in Hlr; simpl in *; lia).
    by apply le_S, IH. }
  cbn [length]. apply app_eq_inv in Happ as [(k & Ha & Hr)|([|w' s] & Ht & Hb)].
  - by apply (Hbehind k).
  - by apply (Hbehind []).
  - cbn [app] in Hb. injection Hb as <- ->. subst t.
    assert (Hs : fits (address w) (bend w) s).
    { destruct Ho as (_ & Hr0 & _ & _ & Ho).
      rewrite app_comm_cons, app_assoc in Ho. apply ordered_prefix in Ho.
      apply (fits_suffix a (bend v) (address v) (bend v)); [done| |done].
      unfold bend, size. clear -Hr0. zcases. }
    cbn [greedy].
    destruct (span_takes s (address w) (bend w) r Hs) as (t1 & r' & -> & ->).
    cbn [length]. apply le_n_S. by apply IH.
Qed.
(** No partition into legal runs is shorter than the greedy one. *)
Lemma greedy_shortest other : forall f ws, concat other = ws -> (length ws <= f)%nat ->
  ordered 0 ws -> Forall legal other -> (length (greedy f ws) <= length other)%nat.
Proof.
  induction other as [|h other IH]; intros f ws <- Hf Ho Hl.
  { by destruct f. }
  inversion_clear Hl as [|? ? Hh Hl']. destruct h as [|w h]; [done|].
  destruct f as [|f]; [simpl in Hf; lia|]. cbn [concat app greedy] in *.
  destruct (span_takes h (address w) (bend w) (concat other) Hh) as (t1 & r & -> & Hc).
  cbn [length]. apply le_n_S.
  assert (Hof : ordered 0 (concat other)).
  { apply (ordered_suffix (w :: h) 0); [lia|done]. }
  assert (Hfo : (length (concat other) <= f)%nat).
  { cbn [length] in Hf. rewrite length_app in Hf. lia. }
  etransitivity; [|by apply (IH f (concat other))].
  rewrite Hc in *. by apply greedy_suffix.
Qed.

(** ** The code takes the greedy partition *)

Lemma size_pos w : 0 <= registers w -> 1 <= size w.
Proof. unfold size. zcases. Qed.
Lemma want_end_bend w : 0 <= address w -> 0 <= registers w -> bend w <= 65535 ->
  want_end w = bend w.
Proof.
  intros Ha Hr Hb. pose proof (size_pos w Hr). unfold want_end. apply u16_id.
  unfold bend, size in *. zb.
Qed.
Lemma reach_spec start end_ w :
  0 <= start <= end_ -> end_ <= address w -> 0 <= registers w -> bend w <= 65535 ->
  lh_mb_reach start end_ w
  = if (address w - end_ <=? LH_MB_GAP_MAX) && (bend w - start <=? LH_MB_READ_MAX)
    then bend w else 0.
Proof.
  intros Hs He Hr Hb. pose proof (size_pos w Hr). unfold lh_mb_reach.
  change (u16 _) with (want_end w). rewrite want_end_bend by lia.
  unfold lh_mb_want_get_address, LH_MB_GAP_MAX, LH_MB_READ_MAX.
  assert (end_ < bend w) by (unfold bend; lia).
  rewrite !Z.gtb_ltb, (proj2 (Z.ltb_lt end_ (bend w))) by done. cbv beta iota zeta.
  destruct (Z.ltb_spec end_ (address w)), (Z.ltb_spec 8 (address w - end_)),
    (Z.leb_spec (address w - end_) 8), (Z.ltb_spec 125 (bend w - start)),
    (Z.leb_spec (bend w - start) 125); cbn [andb]; (done || lia).
Qed.
Lemma run_end_cons end_ w t : run_end end_ (w :: t) = run_end (bend w) t.
Proof. unfold run_end. rewrite last_cons. by destruct (list.last t). Qed.

Lemma run_end_bounds t : forall start end_,
  ordered end_ t -> fits start end_ t -> 0 <= end_ <= 65535 -> end_ - start <= LH_MB_READ_MAX ->
  end_ <= run_end end_ t <= 65535 /\ run_end end_ t - start <= LH_MB_READ_MAX.
Proof.
  induction t as [|w t IH]; intros start end_ Ho Hf He Hl; [unfold run_end; cbn; lia|].
  destruct Ho as (H1 & H2 & H3 & H4 & Ho), Hf as (F1 & F2 & Hf).
  pose proof (size_pos w H2). rewrite run_end_cons.
  destruct (IH start (bend w) Ho Hf) as [H5 H6]; [unfold bend in *; lia|done|].
  split; [|done]. unfold bend in *. lia.
Qed.

Section Loops.
Context (ws : list lh_mb_want_t) (Hmax : len ws <= 65535).

Lemma load_rest i w rest : drop i ws = w :: rest -> load ws (Z.of_nat i) = Done w.
Proof using Type.
  intros E. apply load_ok. rewrite <-(Nat.add_0_r i), <-lookup_drop, E. done.
Qed.
Lemma rest_lt i w rest : drop i ws = w :: rest -> drop (S i) ws = rest /\ (i < length ws)%nat.
Proof using Type.
  intros E. split.
  - rewrite <-Nat.add_1_r, <-drop_drop, E. done.
  - apply (f_equal length) in E. rewrite length_drop in E. simpl in E. lia.
Qed.

Lemma take_loop_spec : forall rest fuel start end_ j,
  drop (S j) ws = rest -> (length rest < fuel)%nat -> (j < length ws)%nat ->
  ordered end_ rest -> 0 <= start <= end_ ->
  take_loop fuel ws (len ws) start end_ (Z.of_nat j)
  = let '(t, _) := span start end_ rest in Done (run_end end_ t, Z.of_nat (j + length t)).
Proof using Hmax.
  induction rest as [|w rest IH]; intros [|fuel] start end_ j Hd Hf Hj Ho Hs;
    try (simpl in Hf; lia); cbn [take_loop span].
  - apply (f_equal length) in Hd. rewrite length_drop in Hd. simpl in Hd.
    rewrite (proj2 (Z.ltb_ge _ _)) by lia. cbn [length]. by rewrite Nat.add_0_r.
  - destruct (rest_lt _ _ _ Hd) as [Hd' Hlt]. rewrite (proj2 (Z.ltb_lt _ _)) by lia.
    replace (Z.of_nat j + 1) with (Z.of_nat (S j)) by lia.
    rewrite (load_rest _ _ _ Hd), bind_done.
    destruct Ho as (H1 & H2 & H3 & H4 & Ho). rewrite reach_spec by lia.
    pose proof (size_pos w H2) as Hsz.
    destruct (_ && _); cbn [Z.eqb].
    + rewrite (proj2 (Z.eqb_neq _ _)) by (unfold bend; lia).
      rewrite (IH fuel start (bend w) (S j)) by
        first [done | lia | simpl in Hf; lia | unfold bend; lia].
      destruct (span start (bend w) rest) as [t r].
      cbn [length]. rewrite run_end_cons. do 2 f_equal. lia.
    + cbn [length]. by rewrite Nat.add_0_r.
Qed.

Lemma plan_loop_spec : forall fuel i p rs from,
  (length ws - i < fuel)%nat -> (i <= length ws)%nat -> 0 <= from -> ordered from (drop i ws) ->
  (length p <= length rs)%nat ->
  let gs := greedy (length (drop i ws)) (drop i ws) in
  plan_loop fuel ws (len ws) (filled p rs) (len rs) (len p) (Z.of_nat i)
  = Done (filled (p ++ take (length rs - length p) (requests i gs)) rs,
          Z.of_nat (Nat.min (length rs) (length p + length gs))).
Proof using Hmax.
  induction fuel as [|fuel IH]; intros i p rs from Hf Hi Hfrom Ho Hp; [lia|].
  cbn [plan_loop]. cbv zeta. destruct (drop i ws) as [|w rest] eqn:Hd.
  - apply (f_equal length) in Hd. rewrite length_drop in Hd. simpl in Hd.
    rewrite (proj2 (Z.ltb_ge _ _)) by lia. cbn [andb greedy length requests].
    rewrite take_nil, app_nil_r. do 2 f_equal. lia.
  - destruct (rest_lt _ _ _ Hd) as [Hd' Hlt].
    rewrite (proj2 (Z.ltb_lt (Z.of_nat i) _)) by lia. cbn [andb length greedy].
    pose proof Ho as (H1 & H2 & H3 & H4 & Ho'). pose proof (size_pos w H2) as Hsz.
    destruct (Z.ltb_spec (len p) (len rs)) as [Hcap|Hcap].
    2:{ replace (length rs - length p)%nat with 0%nat by lia. cbn [take].
        rewrite app_nil_r. do 2 f_equal. cbn [length]. destruct (span _ _ _). cbn [length]. lia. }
    rewrite (load_rest _ _ _ Hd), bind_done, want_end_bend by lia.
    rewrite (take_loop_spec rest) by
      (done || (rewrite Nat2Z.id; apply (f_equal length) in Hd'; rewrite length_drop in Hd'; lia)
       || (unfold bend; lia)).
    destruct (span (address w) (bend w) rest) as [t r] eqn:E. rewrite bind_done.
    pose proof (span_app _ _ _ _ _ E) as ->. pose proof (span_fits _ _ _ _ _ E) as Hft.
    destruct (run_end_bounds t (address w) (bend w)) as [Hb1 Hb2];
      [by eapply ordered_prefix|done|unfold bend in *; lia|unfold bend in *; lia|].
    destruct (lookup_lt_is_Some_2 (filled p rs) (length p)) as [one Hone];
      [rewrite length_filled; lia|].
    rewrite (load_ok _ _ _ Hone), bind_done, put_filled, bind_done by lia.
    assert (Hlr : (i + length t + length r < length ws)%nat).
    { apply (f_equal length) in Hd'. rewrite length_drop, length_app in Hd'. lia. }
    assert (Hdr : drop (S (i + length t)) ws = r).
    { replace (S (i + length t)) with (S i + length t)%nat by lia.
      by rewrite <-drop_drop, Hd', drop_app_length. }
    rewrite (u16_id (Z.of_nat (i + length t) + 1)) by zb.
    replace (Z.of_nat (i + length t) + 1) with (Z.of_nat (S (i + length t))) by lia.
    match goal with |- context [filled (p ++ [?q]) rs] => set (one' := q) end.
    replace (len p + 1) with (len (p ++ [one'])) by (rewrite length_app; simpl; lia).
    rewrite (IH _ _ _ 0); [|lia|lia|lia| |rewrite length_app; simpl; lia].
    2:{ rewrite Hdr. eapply (ordered_suffix t); [|exact Ho']. unfold bend. lia. }
    rewrite Hdr, <-app_assoc, length_app. cbn [length app].
    rewrite (greedy_fuel (length r) (length (t ++ r))) by (rewrite ?length_app; lia).
    replace (length rs - length p)%nat with (S (length rs - (length p + 1))) by lia.
    cbn [requests take]. f_equal. f_equal; [|lia]. f_equal. f_equal.
    replace (i + length (w :: t))%nat with (S (i + length t)) by (simpl; lia).
    f_equal. unfold one', request_of, lh_mb_read_set_last, lh_mb_read_set_first,
      lh_mb_read_set_count, lh_mb_read_set_start. cbn [start count first last].
    rewrite u16_id; [done|]. unfold LH_MB_READ_MAX, bend in *. zb.
Qed.
End Loops.

Lemma greedy_length_le f : forall l, (length (greedy f l) <= length l)%nat.
Proof.
  induction f as [|f IH]; intros [|w l]; cbn [greedy length]; try lia.
  destruct (span _ _ l) as [t r] eqn:E. apply span_length in E. cbn [length].
  specialize (IH r). lia.
Qed.
Lemma count_loop_spec ws : len ws <= 65535 -> forall fuel i made from,
  (length ws - i < fuel)%nat -> (i <= length ws)%nat -> 0 <= from -> ordered from (drop i ws) ->
  (made <= i)%nat ->
  count_loop fuel ws (len ws) (Z.of_nat made) (Z.of_nat i)
  = Done (Z.of_nat (made + length (greedy (length (drop i ws)) (drop i ws)))).
Proof.
  intros Hmax. induction fuel as [|fuel IH]; intros i made from Hf Hi Hfrom Ho Hm; [lia|].
  cbn [count_loop]. destruct (drop i ws) as [|w rest] eqn:Hd.
  - apply (f_equal length) in Hd. rewrite length_drop in Hd. simpl in Hd.
    rewrite (proj2 (Z.ltb_ge _ _)) by lia. cbn. by rewrite Nat.add_0_r.
  - destruct (rest_lt _ _ _ _ Hd) as [Hd' Hlt].
    rewrite (proj2 (Z.ltb_lt (Z.of_nat i) _)) by lia. cbn [length greedy].
    pose proof Ho as (H1 & H2 & H3 & H4 & Ho'). pose proof (size_pos w H2) as Hsz.
    rewrite (load_rest _ _ _ _ Hd), bind_done, want_end_bend by lia.
    rewrite (take_loop_spec ws Hmax rest) by
      (done || (rewrite Nat2Z.id; apply (f_equal length) in Hd'; rewrite length_drop in Hd'; lia)
       || (unfold bend; lia)).
    destruct (span (address w) (bend w) rest) as [t r] eqn:E. rewrite bind_done.
    pose proof (span_app _ _ _ _ _ E) as ->.
    assert (Hlr : (i + length t + length r < length ws)%nat).
    { apply (f_equal length) in Hd'. rewrite length_drop, length_app in Hd'. lia. }
    assert (Hdr : drop (S (i + length t)) ws = r).
    { replace (S (i + length t)) with (S i + length t)%nat by lia.
      by rewrite <-drop_drop, Hd', drop_app_length. }
    rewrite (u16_id (Z.of_nat (i + length t) + 1)), (u16_id (Z.of_nat made + 1)) by zb.
    replace (Z.of_nat (i + length t) + 1) with (Z.of_nat (S (i + length t))) by lia.
    replace (Z.of_nat made + 1) with (Z.of_nat (S made)) by lia.
    rewrite (IH _ _ 0); [|lia|lia|lia| |lia].
    2:{ rewrite Hdr. eapply (ordered_suffix t); [|exact Ho']. unfold bend. lia. }
    rewrite Hdr, (greedy_fuel (length r) (length (t ++ r))) by (rewrite ?length_app; lia).
    do 2 f_equal. cbn [length]. lia.
Qed.

(** ** What the requests cover *)

Definition covers (r : lh_mb_read_t) (i : nat) (w : lh_mb_want_t) : Prop :=
  first r <= Z.of_nat i <= last r /\ start r <= address w /\ bend w <= start r + count r.

Lemma fits_covers g : forall start end_ i w, ordered end_ g -> g !! i = Some w -> start <= end_ ->
  start <= address w /\ bend w <= run_end end_ g.
Proof.
  induction g as [|v g IH]; intros start end_ i w Ho Hi Hs; [done|].
  destruct Ho as (H1 & H2 & H3 & H4 & Ho). rewrite run_end_cons. pose proof (size_pos v H2).
  destruct i as [|i].
  - injection Hi as ->. split; [lia|]. clear -Ho. revert Ho. generalize (bend w) as e.
    induction g as [|u g IH]; intros e Ho; [unfold run_end; cbn; lia|].
    destruct Ho as (H1 & H2 & H3 & H4 & Ho). pose proof (size_pos u H2).
    rewrite run_end_cons. specialize (IH _ Ho). unfold bend in *. lia.
  - apply (IH start (bend v) i w Ho Hi). unfold bend. lia.
Qed.
Lemma request_of_legal at_ g : ordered 0 g -> legal g ->
  1 <= count (request_of at_ g) <= LH_MB_READ_MAX /\
  forall i w, g !! i = Some w -> covers (request_of at_ g) (at_ + i) w.
Proof.
  destruct g as [|w g]; [done|]. cbn [legal ordered]. intros (H1 & H2 & H3 & H4 & Ho) Hf.
  pose proof (size_pos w H2). unfold request_of. cbn [count start first last].
  destruct (run_end_bounds g (address w) (bend w)) as [H5 H6];
    [done|done|unfold bend in *; lia|unfold bend in *; lia|].
  split; [unfold bend in *; lia|]. intros i v Hi. unfold covers. cbn [count start first last].
  pose proof (lookup_lt_Some _ _ _ Hi) as Hlt. simpl in Hlt.
  split; [lia|]. replace (address w + (run_end (bend w) g - address w))
    with (run_end (bend w) g) by lia.
  destruct i as [|i].
  - injection Hi as <-. lia.
  - apply (fits_covers g (address w) (bend w) i v Ho Hi). unfold bend. lia.
Qed.
Lemma requests_cover gs : forall at_,
  ordered 0 (concat gs) -> Forall legal gs ->
  Forall (fun r => 1 <= count r <= LH_MB_READ_MAX) (requests at_ gs) /\
  forall i w, concat gs !! i = Some w ->
    exists r, r ∈ requests at_ gs /\ covers r (at_ + i) w.
Proof.
  induction gs as [|g gs IH]; intros at_ Ho Hl; [by split|].
  inversion_clear Hl as [|? ? Hg Hgs]. cbn [concat requests] in *.
  destruct (request_of_legal at_ g) as [Hc Hcov]; [by eapply ordered_prefix|done|].
  destruct (IH (at_ + length g)%nat) as [Hcs Hcovs]; [by eapply (ordered_suffix g 0)|done|].
  split; [by constructor|]. intros i w Hi.
  destruct (decide (i < length g)%nat) as [Hlt|Hge].
  - rewrite lookup_app_l in Hi by done. exists (request_of at_ g).
    split; [by left|]. by apply Hcov.
  - rewrite lookup_app_r in Hi by lia. destruct (Hcovs _ _ Hi) as (r & Hr & Hcv).
    exists r. split; [by right|].
    by replace (at_ + length g + (i - length g))%nat with (at_ + i)%nat in Hcv by lia.
Qed.
Lemma requests_length gs at_ : length (requests at_ gs) = length gs.
Proof. revert at_. induction gs as [|g gs IH]; intros at_; [done|]. simpl. by rewrite IH. Qed.

(** Claim C24: for wants in address order that do not overlap, the planner cuts
    the list into consecutive runs; every request asks for 1 to 125 registers,
    every want lies inside the request its index is recorded with, no way of
    cutting the list into runs that bridge gaps of at most 8 registers and span at
    most 125 has fewer of them, and the counter returns that number.  When the
    caller's array is too short it receives the first requests of the plan. *)
Theorem plan_is_fewest ws rs :
  ordered 0 ws -> len ws <= 65535 -> len rs <= 65535 -> rs <> [] -> ws <> [] ->
  exists gs,
    concat gs = ws /\ Forall legal gs /\
    (forall other, concat other = ws -> Forall legal other ->
       (length gs <= length other)%nat) /\
    lh_mb_count_requests (Some ws) (len ws) = Done (len gs) /\
    (exists rs', lh_mb_plan_reads (Some ws) (len ws) (Some rs) (len rs)
       = Done (Some rs', Z.min (len rs) (len gs)) /\
     take (length gs) rs' = take (length rs) (requests 0 gs)) /\
    Forall (fun r => 1 <= count r <= LH_MB_READ_MAX) (requests 0 gs) /\
    (forall i w, ws !! i = Some w -> exists r, r ∈ requests 0 gs /\ covers r i w).
Proof.
  intros Ho Hws Hrs Hne Hwne. exists (greedy (length ws) ws).
  assert (Hconcat : concat (greedy (length ws) ws) = ws) by by apply greedy_concat.
  assert (Hnz : len ws <> 0) by (destruct ws; [done|simpl; lia]).
  assert (Hrz : len rs <> 0) by (destruct rs; [done|simpl; lia]).
  destruct (requests_cover (greedy (length ws) ws) 0) as [Hcs Hcov];
    [by rewrite Hconcat|apply greedy_legal|]. rewrite Hconcat in Hcov.
  split; [done|]. split; [apply greedy_legal|]. split.
  { intros other Hc Hl. by apply greedy_shortest. }
  split.
  { unfold lh_mb_count_requests. rewrite (proj2 (Z.eqb_neq _ _)) by done.
    change 0 with (Z.of_nat 0). by rewrite (count_loop_spec ws Hws _ 0 0 0) by (done || lia). }
  split; [|done].
  unfold lh_mb_plan_reads. rewrite !(proj2 (Z.eqb_neq _ _)) by done. cbn [orb].
  pose proof (plan_loop_spec ws Hws (S (Z.to_nat (len ws))) 0 [] rs 0
    ltac:(lia) ltac:(lia) ltac:(lia) Ho ltac:(simpl; lia)) as Hrun.
  cbv zeta in Hrun. rewrite drop_0, filled_nil in Hrun. cbn [length app Z.of_nat] in Hrun.
  change (Z.of_nat 0) with 0 in Hrun.
  rewrite Hrun, bind_done, Nat.sub_0_r, Nat.add_0_l.
  eexists. split; [do 2 f_equal; lia|].
  set (q := take (length rs) (requests 0 (greedy (length ws) ws))).
  assert (Hq : length q = Nat.min (length rs) (length (greedy (length ws) ws))).
  { unfold q. by rewrite length_take, requests_length. }
  unfold filled. destruct (decide (length rs <= length (greedy (length ws) ws))%nat).
  - rewrite (drop_ge rs) by lia. rewrite app_nil_r. apply take_ge. lia.
  - rewrite take_app_length' by lia. done.
Qed.
Lemma plan_is_fewest_witness :
  let ws := [mk_want 10 2; mk_want 15 1; mk_want 100 4; mk_want 104 100] in
  exists gs,
    concat gs = ws /\ Forall legal gs /\
    (forall other, concat other = ws -> Forall legal other ->
       (length gs <= length other)%nat) /\
    lh_mb_count_requests (Some ws) 4 = Done (len gs) /\
    (exists rs', lh_mb_plan_reads (Some ws) 4 (Some [mk_read 0 0 0 0]) 1
       = Done (Some rs', Z.min 1 (len gs)) /\
     take (length gs) rs' = take 1 (requests 0 gs)) /\
    Forall (fun r => 1 <= count r <= LH_MB_READ_MAX) (requests 0 gs) /\
    (forall i w, ws !! i = Some w -> exists r, r ∈ requests 0 gs /\ covers r i w).
Proof.
  intros ws. apply (plan_is_fewest ws [mk_read 0 0 0 0]);
    [cbn; unfold bend, size, LH_MB_READ_MAX; simpl; lia | simpl; lia | simpl; lia | done | done].
Defined.

(** A want wider than one read is planned as one request no device accepts. *)
Lemma plan_oversized_want :
  lh_mb_plan_reads (Some [mk_want 0 200]) 1 (Some [mk_read 0 0 0 0]) 1
    = Done (Some [mk_read 0 200 0 0], 1) /\
  lh_mb_build_pdu_read (Some (local 16)) 16 LH_MB_FC_READ_HOLDING 0 200
    = Done (Some (local 16), 0).
Proof. by vm_compute. Qed.
