(* ===== verification/ModbusLink.v ===== *)
(** * Modbus: the link

    [lh/core/net/modbus/link.c] from the link's own state on, and
    [link/counters.c]: one device on one line, one question in flight.  The stream
    is that of [Io]; the clock is one more callback on the world.  An operation
    takes the world and the link and returns both with its result.  The proofs are
    in [ModbusLinkProofs]. *)
From S2P Require Import Prelude Buffer Hash Io Modbus ModbusProofs ModbusFrame.

(** [lh_mb_link_state_t]; a link stores it in a byte. *)
Definition lh_mb_link_idle : Z := 0.
Definition lh_mb_link_waiting : Z := 1.
Definition lh_mb_link_answered : Z := 2.
Definition lh_mb_link_failed : Z := 3.
Definition LH_MB_LINK_VALUES : Z := LH_MB_READ_MAX.

(** ** Counters *)

Record lh_mb_link_counters_t := mk_counters
  { c_sent : Z; c_done : Z; c_failed : Z; c_refused : Z; c_bytes : Z; c_us_busy : Z }.
Definition lh_mb_link_counters_get_sent (self : lh_mb_link_counters_t) : Z := c_sent self.
Definition lh_mb_link_counters_set_sent (self : lh_mb_link_counters_t) (v : Z)
    : lh_mb_link_counters_t :=
  mk_counters v (c_done self) (c_failed self) (c_refused self) (c_bytes self) (c_us_busy self).
Definition lh_mb_link_counters_get_done (self : lh_mb_link_counters_t) : Z := c_done self.
Definition lh_mb_link_counters_set_done (self : lh_mb_link_counters_t) (v : Z)
    : lh_mb_link_counters_t :=
  mk_counters (c_sent self) v (c_failed self) (c_refused self) (c_bytes self) (c_us_busy self).
Definition lh_mb_link_counters_get_failed (self : lh_mb_link_counters_t) : Z := c_failed self.
Definition lh_mb_link_counters_set_failed (self : lh_mb_link_counters_t) (v : Z)
    : lh_mb_link_counters_t :=
  mk_counters (c_sent self) (c_done self) v (c_refused self) (c_bytes self) (c_us_busy self).
Definition lh_mb_link_counters_get_refused (self : lh_mb_link_counters_t) : Z := c_refused self.
Definition lh_mb_link_counters_set_refused (self : lh_mb_link_counters_t) (v : Z)
    : lh_mb_link_counters_t :=
  mk_counters (c_sent self) (c_done self) (c_failed self) v (c_bytes self) (c_us_busy self).
Definition lh_mb_link_counters_get_bytes (self : lh_mb_link_counters_t) : Z := c_bytes self.
Definition lh_mb_link_counters_set_bytes (self : lh_mb_link_counters_t) (v : Z)
    : lh_mb_link_counters_t :=
  mk_counters (c_sent self) (c_done self) (c_failed self) (c_refused self) v (c_us_busy self).
Definition lh_mb_link_counters_get_us_busy (self : lh_mb_link_counters_t) : Z := c_us_busy self.
Definition lh_mb_link_counters_set_us_busy (self : lh_mb_link_counters_t) (v : Z)
    : lh_mb_link_counters_t :=
  mk_counters (c_sent self) (c_done self) (c_failed self) (c_refused self) (c_bytes self) v.
Definition lh_mb_link_counters_count_sent (self : lh_mb_link_counters_t)
    : lh_mb_link_counters_t :=
  lh_mb_link_counters_set_sent self (u32 (lh_mb_link_counters_get_sent self + 1)).
Definition lh_mb_link_counters_count_done (self : lh_mb_link_counters_t)
    : lh_mb_link_counters_t :=
  lh_mb_link_counters_set_done self (u32 (lh_mb_link_counters_get_done self + 1)).
Definition lh_mb_link_counters_count_failed (self : lh_mb_link_counters_t)
    : lh_mb_link_counters_t :=
  lh_mb_link_counters_set_failed self (u32 (lh_mb_link_counters_get_failed self + 1)).
Definition lh_mb_link_counters_count_refused (self : lh_mb_link_counters_t)
    : lh_mb_link_counters_t :=
  lh_mb_link_counters_set_refused self (u32 (lh_mb_link_counters_get_refused self + 1)).
Definition lh_mb_link_counters_add_bytes (self : lh_mb_link_counters_t) (bytes : Z)
    : lh_mb_link_counters_t :=
  lh_mb_link_counters_set_bytes self (u32 (lh_mb_link_counters_get_bytes self + bytes)).
Definition lh_mb_link_counters_add_us_busy (self : lh_mb_link_counters_t) (us : Z)
    : lh_mb_link_counters_t :=
  lh_mb_link_counters_set_us_busy self (u64 (lh_mb_link_counters_get_us_busy self + us)).

(** ** The link *)

Record lh_mb_link_t := mk_link {
  link_stream : lh_io_stream_t;
  link_framing : lh_mb_framing;
  link_unit : Z;
  link_fc : Z;
  link_asked_fc : Z;
  link_state : Z;
  link_reason : lh_mb_status;
  link_address : Z;
  link_expected : Z;
  link_got : Z;
  link_written : Z;
  link_held : Z;
  link_tx : Z;
  link_asked_tx : Z;
  link_since_us : Z;
  link_values : list Z;
  link_frame : buffer;
  link_counters : lh_mb_link_counters_t;
  link_now_us : Z;
  link_clock : Z;
  link_on_change : Z;
  link_owner : Z
}.

(** A [get_..._mut] hands out the member to be changed in place: what the code
    then stores there is a [put_...]. *)
Definition lh_mb_link_get_stream (self : lh_mb_link_t) : lh_io_stream_t := link_stream self.
Definition put_stream (self : lh_mb_link_t) (v : lh_io_stream_t) : lh_mb_link_t :=
  mk_link v (link_framing self) (link_unit self) (link_fc self) (link_asked_fc self) (link_state
    self) (link_reason self) (link_address self) (link_expected self) (link_got self)
    (link_written self) (link_held self) (link_tx self) (link_asked_tx self) (link_since_us
    self) (link_values self) (link_frame self) (link_counters self) (link_now_us self)
    (link_clock self) (link_on_change self) (link_owner self).
Definition lh_mb_link_get_framing (self : lh_mb_link_t) : lh_mb_framing := link_framing self.
Definition lh_mb_link_set_framing (self : lh_mb_link_t) (v : lh_mb_framing) : lh_mb_link_t :=
  mk_link (link_stream self) v (link_unit self) (link_fc self) (link_asked_fc self) (link_state
    self) (link_reason self) (link_address self) (link_expected self) (link_got self)
    (link_written self) (link_held self) (link_tx self) (link_asked_tx self) (link_since_us
    self) (link_values self) (link_frame self) (link_counters self) (link_now_us self)
    (link_clock self) (link_on_change self) (link_owner self).
Definition lh_mb_link_get_unit (self : lh_mb_link_t) : Z := link_unit self.
Definition lh_mb_link_set_unit (self : lh_mb_link_t) (v : Z) : lh_mb_link_t :=
  mk_link (link_stream self) (link_framing self) v (link_fc self) (link_asked_fc self)
    (link_state self) (link_reason self) (link_address self) (link_expected self) (link_got
    self) (link_written self) (link_held self) (link_tx self) (link_asked_tx self)
    (link_since_us self) (link_values self) (link_frame self) (link_counters self) (link_now_us
    self) (link_clock self) (link_on_change self) (link_owner self).
Definition lh_mb_link_get_fc (self : lh_mb_link_t) : Z := link_fc self.
Definition put_fc (self : lh_mb_link_t) (v : Z) : lh_mb_link_t :=
  mk_link (link_stream self) (link_framing self) (link_unit self) v (link_asked_fc self)
    (link_state self) (link_reason self) (link_address self) (link_expected self) (link_got
    self) (link_written self) (link_held self) (link_tx self) (link_asked_tx self)
    (link_since_us self) (link_values self) (link_frame self) (link_counters self) (link_now_us
    self) (link_clock self) (link_on_change self) (link_owner self).
Definition lh_mb_link_get_asked_fc (self : lh_mb_link_t) : Z := link_asked_fc self.
Definition lh_mb_link_set_asked_fc (self : lh_mb_link_t) (v : Z) : lh_mb_link_t :=
  mk_link (link_stream self) (link_framing self) (link_unit self) (link_fc self) v (link_state
    self) (link_reason self) (link_address self) (link_expected self) (link_got self)
    (link_written self) (link_held self) (link_tx self) (link_asked_tx self) (link_since_us
    self) (link_values self) (link_frame self) (link_counters self) (link_now_us self)
    (link_clock self) (link_on_change self) (link_owner self).
Definition lh_mb_link_get_state (self : lh_mb_link_t) : Z := link_state self.
Definition lh_mb_link_set_state (self : lh_mb_link_t) (v : Z) : lh_mb_link_t :=
  mk_link (link_stream self) (link_framing self) (link_unit self) (link_fc self) (link_asked_fc
    self) v (link_reason self) (link_address self) (link_expected self) (link_got self)
    (link_written self) (link_held self) (link_tx self) (link_asked_tx self) (link_since_us
    self) (link_values self) (link_frame self) (link_counters self) (link_now_us self)
    (link_clock self) (link_on_change self) (link_owner self).
Definition lh_mb_link_get_reason (self : lh_mb_link_t) : lh_mb_status := link_reason self.
Definition lh_mb_link_set_reason (self : lh_mb_link_t) (v : lh_mb_status) : lh_mb_link_t :=
  mk_link (link_stream self) (link_framing self) (link_unit self) (link_fc self) (link_asked_fc
    self) (link_state self) v (link_address self) (link_expected self) (link_got self)
    (link_written self) (link_held self) (link_tx self) (link_asked_tx self) (link_since_us
    self) (link_values self) (link_frame self) (link_counters self) (link_now_us self)
    (link_clock self) (link_on_change self) (link_owner self).
Definition lh_mb_link_get_address (self : lh_mb_link_t) : Z := link_address self.
Definition lh_mb_link_set_address (self : lh_mb_link_t) (v : Z) : lh_mb_link_t :=
  mk_link (link_stream self) (link_framing self) (link_unit self) (link_fc self) (link_asked_fc
    self) (link_state self) (link_reason self) v (link_expected self) (link_got self)
    (link_written self) (link_held self) (link_tx self) (link_asked_tx self) (link_since_us
    self) (link_values self) (link_frame self) (link_counters self) (link_now_us self)
    (link_clock self) (link_on_change self) (link_owner self).
Definition lh_mb_link_get_expected (self : lh_mb_link_t) : Z := link_expected self.
Definition lh_mb_link_set_expected (self : lh_mb_link_t) (v : Z) : lh_mb_link_t :=
  mk_link (link_stream self) (link_framing self) (link_unit self) (link_fc self) (link_asked_fc
    self) (link_state self) (link_reason self) (link_address self) v (link_got self)
    (link_written self) (link_held self) (link_tx self) (link_asked_tx self) (link_since_us
    self) (link_values self) (link_frame self) (link_counters self) (link_now_us self)
    (link_clock self) (link_on_change self) (link_owner self).
Definition lh_mb_link_get_got (self : lh_mb_link_t) : Z := link_got self.
Definition lh_mb_link_set_got (self : lh_mb_link_t) (v : Z) : lh_mb_link_t :=
  mk_link (link_stream self) (link_framing self) (link_unit self) (link_fc self) (link_asked_fc
    self) (link_state self) (link_reason self) (link_address self) (link_expected self) v
    (link_written self) (link_held self) (link_tx self) (link_asked_tx self) (link_since_us
    self) (link_values self) (link_frame self) (link_counters self) (link_now_us self)
    (link_clock self) (link_on_change self) (link_owner self).
Definition lh_mb_link_get_written (self : lh_mb_link_t) : Z := link_written self.
Definition lh_mb_link_set_written (self : lh_mb_link_t) (v : Z) : lh_mb_link_t :=
  mk_link (link_stream self) (link_framing self) (link_unit self) (link_fc self) (link_asked_fc
    self) (link_state self) (link_reason self) (link_address self) (link_expected self)
    (link_got self) v (link_held self) (link_tx self) (link_asked_tx self) (link_since_us self)
    (link_values self) (link_frame self) (link_counters self) (link_now_us self) (link_clock
    self) (link_on_change self) (link_owner self).
Definition lh_mb_link_get_held (self : lh_mb_link_t) : Z := link_held self.
Definition lh_mb_link_set_held (self : lh_mb_link_t) (v : Z) : lh_mb_link_t :=
  mk_link (link_stream self) (link_framing self) (link_unit self) (link_fc self) (link_asked_fc
    self) (link_state self) (link_reason self) (link_address self) (link_expected self)
    (link_got self) (link_written self) v (link_tx self) (link_asked_tx self) (link_since_us
    self) (link_values self) (link_frame self) (link_counters self) (link_now_us self)
    (link_clock self) (link_on_change self) (link_owner self).
Definition lh_mb_link_get_tx (self : lh_mb_link_t) : Z := link_tx self.
Definition lh_mb_link_set_tx (self : lh_mb_link_t) (v : Z) : lh_mb_link_t :=
  mk_link (link_stream self) (link_framing self) (link_unit self) (link_fc self) (link_asked_fc
    self) (link_state self) (link_reason self) (link_address self) (link_expected self)
    (link_got self) (link_written self) (link_held self) v (link_asked_tx self) (link_since_us
    self) (link_values self) (link_frame self) (link_counters self) (link_now_us self)
    (link_clock self) (link_on_change self) (link_owner self).
Definition lh_mb_link_get_asked_tx (self : lh_mb_link_t) : Z := link_asked_tx self.
Definition lh_mb_link_set_asked_tx (self : lh_mb_link_t) (v : Z) : lh_mb_link_t :=
  mk_link (link_stream self) (link_framing self) (link_unit self) (link_fc self) (link_asked_fc
    self) (link_state self) (link_reason self) (link_address self) (link_expected self)
    (link_got self) (link_written self) (link_held self) (link_tx self) v (link_since_us self)
    (link_values self) (link_frame self) (link_counters self) (link_now_us self) (link_clock
    self) (link_on_change self) (link_owner self).
Definition lh_mb_link_get_since_us (self : lh_mb_link_t) : Z := link_since_us self.
Definition lh_mb_link_set_since_us (self : lh_mb_link_t) (v : Z) : lh_mb_link_t :=
  mk_link (link_stream self) (link_framing self) (link_unit self) (link_fc self) (link_asked_fc
    self) (link_state self) (link_reason self) (link_address self) (link_expected self)
    (link_got self) (link_written self) (link_held self) (link_tx self) (link_asked_tx self) v
    (link_values self) (link_frame self) (link_counters self) (link_now_us self) (link_clock
    self) (link_on_change self) (link_owner self).
Definition lh_mb_link_get_values (self : lh_mb_link_t) : list Z := link_values self.
Definition put_values (self : lh_mb_link_t) (v : list Z) : lh_mb_link_t :=
  mk_link (link_stream self) (link_framing self) (link_unit self) (link_fc self) (link_asked_fc
    self) (link_state self) (link_reason self) (link_address self) (link_expected self)
    (link_got self) (link_written self) (link_held self) (link_tx self) (link_asked_tx self)
    (link_since_us self) v (link_frame self) (link_counters self) (link_now_us self) (link_clock
    self) (link_on_change self) (link_owner self).
Definition lh_mb_link_get_frame (self : lh_mb_link_t) : buffer := link_frame self.
Definition put_frame (self : lh_mb_link_t) (v : buffer) : lh_mb_link_t :=
  mk_link (link_stream self) (link_framing self) (link_unit self) (link_fc self) (link_asked_fc
    self) (link_state self) (link_reason self) (link_address self) (link_expected self)
    (link_got self) (link_written self) (link_held self) (link_tx self) (link_asked_tx self)
    (link_since_us self) (link_values self) v (link_counters self) (link_now_us self)
    (link_clock self) (link_on_change self) (link_owner self).
Definition lh_mb_link_get_counters (self : lh_mb_link_t) : lh_mb_link_counters_t := link_counters self.
Definition put_counters (self : lh_mb_link_t) (v : lh_mb_link_counters_t) : lh_mb_link_t :=
  mk_link (link_stream self) (link_framing self) (link_unit self) (link_fc self) (link_asked_fc
    self) (link_state self) (link_reason self) (link_address self) (link_expected self)
    (link_got self) (link_written self) (link_held self) (link_tx self) (link_asked_tx self)
    (link_since_us self) (link_values self) (link_frame self) v (link_now_us self) (link_clock
    self) (link_on_change self) (link_owner self).
Definition lh_mb_link_get_now_us (self : lh_mb_link_t) : Z := link_now_us self.
Definition lh_mb_link_set_now_us (self : lh_mb_link_t) (v : Z) : lh_mb_link_t :=
  mk_link (link_stream self) (link_framing self) (link_unit self) (link_fc self) (link_asked_fc
    self) (link_state self) (link_reason self) (link_address self) (link_expected self)
    (link_got self) (link_written self) (link_held self) (link_tx self) (link_asked_tx self)
    (link_since_us self) (link_values self) (link_frame self) (link_counters self) v (link_clock
    self) (link_on_change self) (link_owner self).
Definition lh_mb_link_get_clock (self : lh_mb_link_t) : Z := link_clock self.
Definition lh_mb_link_set_clock (self : lh_mb_link_t) (v : Z) : lh_mb_link_t :=
  mk_link (link_stream self) (link_framing self) (link_unit self) (link_fc self) (link_asked_fc
    self) (link_state self) (link_reason self) (link_address self) (link_expected self)
    (link_got self) (link_written self) (link_held self) (link_tx self) (link_asked_tx self)
    (link_since_us self) (link_values self) (link_frame self) (link_counters self) (link_now_us
    self) v (link_on_change self) (link_owner self).
Definition lh_mb_link_get_on_change (self : lh_mb_link_t) : Z := link_on_change self.
Definition lh_mb_link_set_on_change (self : lh_mb_link_t) (v : Z) : lh_mb_link_t :=
  mk_link (link_stream self) (link_framing self) (link_unit self) (link_fc self) (link_asked_fc
    self) (link_state self) (link_reason self) (link_address self) (link_expected self)
    (link_got self) (link_written self) (link_held self) (link_tx self) (link_asked_tx self)
    (link_since_us self) (link_values self) (link_frame self) (link_counters self) (link_now_us
    self) (link_clock self) v (link_owner self).
Definition lh_mb_link_get_owner (self : lh_mb_link_t) : Z := link_owner self.
Definition lh_mb_link_set_owner (self : lh_mb_link_t) (v : Z) : lh_mb_link_t :=
  mk_link (link_stream self) (link_framing self) (link_unit self) (link_fc self) (link_asked_fc
    self) (link_state self) (link_reason self) (link_address self) (link_expected self)
    (link_got self) (link_written self) (link_held self) (link_tx self) (link_asked_tx self)
    (link_since_us self) (link_values self) (link_frame self) (link_counters self) (link_now_us
    self) (link_clock self) (link_on_change self) v.

Definition lh_mb_link_get_stream_mut (self : lh_mb_link_t) : lh_io_stream_t := link_stream self.
Definition lh_mb_link_get_counters_mut (self : lh_mb_link_t) : lh_mb_link_counters_t :=
  link_counters self.
Definition lh_mb_link_get_values_mut (self : lh_mb_link_t) : list Z := link_values self.
Definition lh_mb_link_get_frame_mut (self : lh_mb_link_t) : buffer := link_frame self.
(** [lh_mb_link_counters_...(lh_mb_link_get_counters_mut(self))]. *)
Definition on_counters (f : lh_mb_link_counters_t -> lh_mb_link_counters_t)
    (self : lh_mb_link_t) : lh_mb_link_t :=
  put_counters self (f (lh_mb_link_get_counters_mut self)).
Definition is_mbap (self : lh_mb_link_t) : bool :=
  match lh_mb_link_get_framing self with
  | lh_mb_framing_mbap => true
  | lh_mb_framing_rtu => false
  end.

Definition lh_mb_link_set_fc (self : lh_mb_link_t) (fc : Z) : lh_mb_link_t :=
  if negb (lh_mb_link_get_state self =? lh_mb_link_idle) then self else put_fc self fc.
Definition lh_mb_link_set_stream (self : lh_mb_link_t) (stream : lh_io_stream_t)
    : lh_mb_link_t :=
  let self := put_stream self (lh_io_stream_assign (lh_mb_link_get_stream_mut self) stream) in
  let self := lh_mb_link_set_held self 0 in
  let self := lh_mb_link_set_state self lh_mb_link_idle in
  lh_mb_link_set_reason self lh_mb_status_ok.
Definition lh_mb_link_lose (self : lh_mb_link_t) : lh_mb_link_t * Z :=
  let self := lh_mb_link_set_held self 0 in
  let self := lh_mb_link_set_state self lh_mb_link_idle in
  let self := lh_mb_link_set_reason self lh_mb_status_lost in
  let self := on_counters lh_mb_link_counters_count_failed self in
  (self, lh_mb_link_failed).
(** [lh_memory_std_move] of the bytes behind the first [n] to the front. *)
Definition lh_mb_link_consume (self : lh_mb_link_t) (n : Z) : outcome lh_mb_link_t :=
  if negb (is_mbap self) || (n >=? lh_mb_link_get_held self)
  then mret (lh_mb_link_set_held self 0) else
  frame ← copy_bytes (lh_mb_link_get_frame_mut self) 0
            (drop (Z.to_nat n) (lh_mb_link_get_frame self)) (lh_mb_link_get_held self - n);
  let self := put_frame self frame in
  mret (lh_mb_link_set_held self (u16 (lh_mb_link_get_held self - n))).
(** The words, or [None] for [lh_null]; the count is stored when there is an answer. *)
Definition lh_mb_link_take (self : lh_mb_link_t) (count : option Z)
    : option (list Z) * option Z :=
  if negb (lh_mb_link_get_state self =? lh_mb_link_answered) then (None, count) else
  (Some (lh_mb_link_get_values self), set_out count (lh_mb_link_get_got self)).
Definition lh_mb_link_release (self : lh_mb_link_t) : lh_mb_link_t :=
  let self := lh_mb_link_set_state self lh_mb_link_idle in
  if negb (is_mbap self) then lh_mb_link_set_held self 0 else self.

Definition zero_link : lh_mb_link_t :=
  mk_link (mk_stream (mk_reader 0 0) (mk_writer 0 0)) lh_mb_framing_rtu 0 0 0 0
    lh_mb_status_ok 0 0 0 0 0 0 0 0 (local LH_MB_LINK_VALUES) (local LH_MB_ADU_MAX)
    (mk_counters 0 0 0 0 0 0) 0 0 0 0.
Definition lh_mb_link_init (stream : lh_io_stream_t) (framing : lh_mb_framing)
    (unit now_us clock : Z) : lh_mb_link_t :=
  let self := zero_link in
  let self := put_stream self (lh_io_stream_assign (lh_mb_link_get_stream_mut self) stream) in
  let self := lh_mb_link_set_framing self framing in
  let self := lh_mb_link_set_unit self unit in
  let self := lh_mb_link_set_fc self LH_MB_FC_READ_HOLDING in
  let self := lh_mb_link_set_asked_fc self LH_MB_FC_READ_HOLDING in
  let self := lh_mb_link_set_state self lh_mb_link_idle in
  let self := lh_mb_link_set_reason self lh_mb_status_ok in
  let self := lh_mb_link_set_now_us self now_us in
  lh_mb_link_set_clock self clock.

(** ** Questions *)

(** The clock callback: a call to it with its context. *)
Class Clock (W : Type) := { call_clock : Z -> Z -> W -> W * Z }.

Section Questions.
Context {W : Type} `{Callbacks W, Clock W}.

(** [now_us != lh_null ? now_us(clock) : 0] *)
Definition now (w : W) (self : lh_mb_link_t) : W * Z :=
  if lh_mb_link_get_now_us self =? 0 then (w, 0)
  else call_clock (lh_mb_link_get_now_us self) (lh_mb_link_get_clock self) w.

Definition lh_mb_link_send (w : W) (self : lh_mb_link_t) (pdu : option buffer)
    (pdu_length address count fc : Z) : outcome (W * lh_mb_link_t * bool) :=
  if pdu_length =? 0 then mret (w, self, false) else
  '(out, n) ← lh_mb_encode (lh_mb_link_get_framing self) (lh_mb_link_get_unit self)
                (lh_mb_link_get_tx self) pdu pdu_length (Some (local LH_MB_ADU_MAX))
                LH_MB_ADU_MAX;
  if n =? 0 then mret (w, self, false) else
  out ← deref out;
  request ← slice out 0 n;
  '(w, wrote) ← lh_io_stream_write w (lh_mb_link_get_stream_mut self) request;
  if wrote =? LH_IO_PENDING then mret (w, lh_mb_link_set_state self lh_mb_link_idle, false) else
  if negb (wrote =? n) then mret (w, fst (lh_mb_link_lose self), false) else
  let self := lh_mb_link_set_address self address in
  let self := lh_mb_link_set_expected self count in
  let self := if negb (is_mbap self) then lh_mb_link_set_held self 0 else self in
  let self := lh_mb_link_set_got self 0 in
  let self := lh_mb_link_set_asked_tx self (lh_mb_link_get_tx self) in
  let self := lh_mb_link_set_tx self (u16 (u32 (lh_mb_link_get_tx self + 1))) in
  let self := on_counters lh_mb_link_counters_count_sent self in
  let self := on_counters (fun c => lh_mb_link_counters_add_bytes c n) self in
  let self := lh_mb_link_set_reason self lh_mb_status_ok in
  let '(w, t) := now w self in
  let self := lh_mb_link_set_since_us self t in
  let self := lh_mb_link_set_asked_fc self fc in
  let self := lh_mb_link_set_state self lh_mb_link_waiting in
  mret (w, self, true).

Definition lh_mb_link_ask (w : W) (self : lh_mb_link_t) (address count : Z)
    : outcome (W * lh_mb_link_t * bool) :=
  if negb (lh_mb_link_get_state self =? lh_mb_link_idle) then mret (w, self, false) else
  if negb ((count >? 0) && (count <=? LH_MB_READ_MAX)) then mret (w, self, false) else
  '(pdu, n) ← lh_mb_build_pdu_read (Some (local LH_MB_ADU_MAX)) LH_MB_ADU_MAX
                (lh_mb_link_get_fc self) address count;
  lh_mb_link_send w self pdu n address count (lh_mb_link_get_fc self).

Definition lh_mb_link_write (w : W) (self : lh_mb_link_t) (address : Z)
    (values : option (list Z)) (count : Z) : outcome (W * lh_mb_link_t * bool) :=
  if negb (lh_mb_link_get_state self =? lh_mb_link_idle) then mret (w, self, false) else
  match values with
  | None => mret (w, self, false)
  | Some _ =>
    if negb (count >? 0) then mret (w, self, false) else
    '(pdu, n) ← lh_mb_build_pdu_write (Some (local LH_MB_ADU_MAX)) LH_MB_ADU_MAX address
                  values count;
    lh_mb_link_send w self pdu n address count LH_MB_FC_WRITE_MANY
  end.

Definition lh_mb_link_write_one (w : W) (self : lh_mb_link_t) (address value : Z)
    : outcome (W * lh_mb_link_t * bool) :=
  if negb (lh_mb_link_get_state self =? lh_mb_link_idle) then mret (w, self, false) else
  '(pdu, n) ← lh_mb_build_pdu_write_one (Some (local LH_MB_ADU_MAX)) LH_MB_ADU_MAX address
                value;
  '(w, self, sent) ← lh_mb_link_send w self pdu n address 1 LH_MB_FC_WRITE_ONE;
  if negb sent then mret (w, self, false) else
  mret (w, lh_mb_link_set_written self value, true).

(** ** Answers *)

(** What the loop over the received frames ends in: [Stop] returns the state,
    [Found] is the data unit of this question's answer. *)
Inductive search : Type := Stop (state : Z) | Found (pdu : buffer) (pdu_length : Z).

Fixpoint frames_loop (fuel : nat) (w : W) (self : lh_mb_link_t) (timeout_us : Z)
    (pdu : buffer) (pdu_length : Z) : outcome (W * lh_mb_link_t * search) :=
  match fuel with
  | O => Undef
  | S fuel =>
    need ← lh_mb_frame_length (lh_mb_link_get_framing self) (Some (lh_mb_link_get_frame self))
             (lh_mb_link_get_held self) (lh_mb_link_get_asked_fc self);
    if (need =? 0) && is_mbap self && (lh_mb_link_get_held self >=? LH_MB_MBAP_HEAD) then
      let self := lh_mb_link_set_held self 0 in
      let self := lh_mb_link_set_state self lh_mb_link_idle in
      let self := lh_mb_link_set_reason self lh_mb_status_garbage in
      let self := on_counters lh_mb_link_counters_count_failed self in
      mret (w, self, Stop lh_mb_link_failed)
    else if (need =? 0) || (lh_mb_link_get_held self <? need) then
      let '(w, t) := now w self in
      if negb (lh_mb_link_get_now_us self =? 0) && (timeout_us >? 0)
         && (u64 (t - lh_mb_link_get_since_us self) >? timeout_us) then
        let self := if negb (is_mbap self) then lh_mb_link_set_held self 0 else self in
        let self := lh_mb_link_set_state self lh_mb_link_idle in
        let self := lh_mb_link_set_reason self lh_mb_status_short in
        let self := on_counters lh_mb_link_counters_count_failed self in
        mret (w, self, Stop lh_mb_link_failed)
      else mret (w, self, Stop (lh_mb_link_get_state self))
    else
      '(ours, p, n) ← lh_mb_decode (lh_mb_link_get_framing self) (lh_mb_link_get_unit self)
                        (Some (lh_mb_link_get_frame self)) need (Some pdu) (Some pdu_length);
      pdu ← deref p;
      pdu_length ← deref n;
      ours ←
        (if ours && is_mbap self then
           f0 ← load (lh_mb_link_get_frame self) 0;
           f1 ← load (lh_mb_link_get_frame self) 1;
           mret (Z.lor (Z.shiftl f0 8) f1 =? lh_mb_link_get_asked_tx self)
         else mret ours);
      self ← lh_mb_link_consume self need;
      if ours : bool then mret (w, self, Found pdu pdu_length)
      else frames_loop fuel w self timeout_us pdu pdu_length
  end.

(** Parsing the answer by the function code of the question. *)
Definition read_answer (self : lh_mb_link_t) (pdu : buffer) (pdu_length : Z)
    : outcome (lh_mb_link_t * lh_mb_status) :=
  if lh_mb_link_get_asked_fc self =? LH_MB_FC_WRITE_MANY then
    let self := lh_mb_link_set_got self 0 in
    '(s, _) ← lh_mb_parse_pdu_write (Some pdu) pdu_length (lh_mb_link_get_address self)
                (lh_mb_link_get_expected self) None;
    mret (self, s)
  else if lh_mb_link_get_asked_fc self =? LH_MB_FC_WRITE_ONE then
    let self := lh_mb_link_set_got self 0 in
    '(s, _) ← lh_mb_parse_pdu_write_one (Some pdu) pdu_length (lh_mb_link_get_address self)
                (lh_mb_link_get_written self) None;
    mret (self, s)
  else
    r ← lh_mb_parse_pdu (Some pdu) pdu_length (lh_mb_link_get_asked_fc self)
          (lh_mb_link_get_expected self) (Some (lh_mb_link_get_values_mut self))
          LH_MB_LINK_VALUES (Some 0) None;
    values ← deref (words r);
    got ← deref (out r);
    let self := put_values self values in
    mret (lh_mb_link_set_got self got, status r).

(** From the answer on: the verdict, the counters and the state. *)
Definition settle (w : W) (self : lh_mb_link_t) (s : lh_mb_status)
    : W * lh_mb_link_t * Z :=
  let self := lh_mb_link_set_reason self s in
  if negb (bool_decide (s = lh_mb_status_ok)) && negb (bool_decide (s = lh_mb_status_partial))
  then
    let self := lh_mb_link_set_state self lh_mb_link_idle in
    let self := on_counters (if bool_decide (s = lh_mb_status_exception)
                             then lh_mb_link_counters_count_refused
                             else lh_mb_link_counters_count_failed) self in
    (w, self, lh_mb_link_failed)
  else
    let self := on_counters lh_mb_link_counters_count_done self in
    let '(w, self) :=
      if lh_mb_link_get_now_us self =? 0 then (w, self) else
      let '(w, t) := now w self in
      (w, on_counters (fun c => lh_mb_link_counters_add_us_busy c
                                  (u64 (t - lh_mb_link_get_since_us self))) self) in
    let self := lh_mb_link_set_state self lh_mb_link_answered in
    (w, self, lh_mb_link_get_state self).

Definition lh_mb_link_poll (w : W) (self : lh_mb_link_t) (timeout_us : Z)
    : outcome (W * lh_mb_link_t * Z) :=
  if negb (lh_mb_link_get_state self =? lh_mb_link_waiting)
  then mret (w, self, lh_mb_link_get_state self) else
  '(w, (got, bytes)) ←
    (if lh_mb_link_get_held self <? LH_MB_ADU_MAX
     then lh_io_stream_read w (lh_mb_link_get_stream_mut self)
            (LH_MB_ADU_MAX - lh_mb_link_get_held self)
     else mret (w, (LH_IO_PENDING, [])));
  frame ← copy_bytes (lh_mb_link_get_frame_mut self) (lh_mb_link_get_held self) bytes (len bytes);
  let self := put_frame self frame in
  if (got =? 0) || ((got <? 0) && negb (got =? LH_IO_PENDING)) then
    let '(self, state) := lh_mb_link_lose self in mret (w, self, state)
  else
  let self :=
    if got >? 0 then
      let self := lh_mb_link_set_held self (u16 (lh_mb_link_get_held self + u16 got)) in
      on_counters (fun c => lh_mb_link_counters_add_bytes c (u32 got)) self
    else self in
  '(w, self, found) ← frames_loop (S (Z.to_nat (lh_mb_link_get_held self))) w self timeout_us
                        (local LH_MB_ADU_MAX) 0;
  match found with
  | Stop state => mret (w, self, state)
  | Found pdu pdu_length =>
    '(self, s) ← read_answer self pdu pdu_length;
    mret (settle w self s)
  end.
End Questions.
