(* ===== verification/ModbusLinkProofs.v ===== *)
(** * Modbus: invariants of a link

    Over any stream that keeps to the reading contract and any clock: a link
    stays well formed whatever a device sends, no operation leaves an array or
    runs for ever, a poll ends a question in at most one way, and a request is the
    frame the protocol wants.  [ModbusLinkSpec] states the properties. *)
From S2P Require Import Prelude Buffer Hash Io Modbus ModbusProofs ModbusFrame ModbusLink.

Create HintDb getters.
#[export] Hint Unfold lh_mb_link_get_stream lh_mb_link_get_framing lh_mb_link_get_unit
  lh_mb_link_get_fc lh_mb_link_get_asked_fc lh_mb_link_get_state lh_mb_link_get_reason
  lh_mb_link_get_address lh_mb_link_get_expected lh_mb_link_get_got lh_mb_link_get_written
  lh_mb_link_get_held lh_mb_link_get_tx lh_mb_link_get_asked_tx lh_mb_link_get_since_us
  lh_mb_link_get_values lh_mb_link_get_frame lh_mb_link_get_counters lh_mb_link_get_now_us
  lh_mb_link_get_clock lh_mb_link_get_on_change lh_mb_link_get_owner
  lh_mb_link_get_stream_mut lh_mb_link_get_counters_mut lh_mb_link_get_values_mut
  lh_mb_link_get_frame_mut : getters.
Create HintDb link.
#[export] Hint Unfold lh_mb_link_set_framing lh_mb_link_set_unit lh_mb_link_set_asked_fc
  lh_mb_link_set_state lh_mb_link_set_reason lh_mb_link_set_address lh_mb_link_set_expected
  lh_mb_link_set_got lh_mb_link_set_written lh_mb_link_set_held lh_mb_link_set_tx
  lh_mb_link_set_asked_tx lh_mb_link_set_since_us lh_mb_link_set_now_us lh_mb_link_set_clock
  lh_mb_link_set_on_change lh_mb_link_set_owner
  put_stream put_values put_frame put_counters put_fc on_counters : link.
(** Members of a link after some stores. *)
Ltac link := autounfold with getters link in *; cbn [link_stream link_framing link_unit link_fc
  link_asked_fc link_state link_reason link_address link_expected link_got link_written
  link_held link_tx link_asked_tx link_since_us link_values link_frame link_counters
  link_now_us link_clock link_on_change link_owner] in *.

(** What reading promises (io/pending.h): as many bytes as it says, at most as
    many as it was asked for. *)
Class Line (W : Type) `{Callbacks W} :=
  line_law cb context w size w' r bytes :
    0 <= size -> call_read cb context w size = (w', (r, bytes)) ->
    is_bytes bytes /\ len bytes = Z.max 0 r /\ r <= size.

Definition known_fc (fc : Z) : Prop :=
  fc = LH_MB_FC_READ_HOLDING \/ fc = LH_MB_FC_READ_INPUT \/
  fc = LH_MB_FC_WRITE_ONE \/ fc = LH_MB_FC_WRITE_MANY.
Record wf (l : lh_mb_link_t) : Prop := {
  wf_frame : length (link_frame l) = 260%nat /\ is_bytes (link_frame l);
  wf_values : length (link_values l) = 125%nat /\ is_words (link_values l);
  wf_held : 0 <= link_held l <= 260;
  wf_unit : is_u8 (link_unit l);
  wf_tx : is_u16 (link_tx l) /\ is_u16 (link_asked_tx l);
  wf_asked : known_fc (link_asked_fc l);
  wf_question : is_u16 (link_address l) /\ is_u16 (link_expected l) /\ is_u16 (link_written l);
  wf_got : 0 <= link_got l <= 127;
  wf_state : link_state l = lh_mb_link_idle \/ link_state l = lh_mb_link_waiting \/
             link_state l = lh_mb_link_answered;
  wf_stream : read_cb (reader (link_stream l)) <> 0 /\ write_cb (writer (link_stream l)) <> 0
}.

(** ** Frames in the receive buffer *)

Lemma frame_length_bounds framing frame have fc :
  length frame = 260%nat -> is_bytes frame -> known_fc fc ->
  exists need, lh_mb_frame_length framing (Some frame) have fc = Done need /\
    (need = 0 \/ 5 <= need <= 260 /\ (framing = lh_mb_framing_mbap -> 8 <= need) /\ 3 <= have).
Proof.
  intros Hl Hb Hfc. unfold lh_mb_frame_length, lh_mb_rtu_frame_length.
  assert (Hld : forall i, 0 <= i < 260 -> exists v, load frame i = Done v /\ is_u8 v)
    by (intros; apply load_byte; [done|lia]).
  destruct framing.
  - destruct (Z.ltb_spec have 3); [eexists; split; [done|by left]|].
    destruct (Hld 1) as (v1 & -> & _); [lia|]. rewrite bind_done.
    destruct (negb _); [exists 5; split; [done|right; split; [lia|split; [done|lia]]]|].
    destruct (Hld 2) as (v2 & -> & Hv2); [lia|].
    assert (H5 : u16 (5 + v2) = 5 + v2) by (apply u16_id; zb).
    destruct Hfc as [-> | [-> | [-> | ->]]];
      [exists (5 + v2); rewrite <-H5 at 1 | exists (5 + v2); rewrite <-H5 at 1 | exists 8 | exists 8];
      (split; [done|]; right; split; [zb|]; split; [done|lia]).
  - unfold LH_MB_MBAP_HEAD. destruct (Z.ltb_spec have 7); [eexists; split; [done|by left]|].
    destruct (Hld 2) as (v2 & -> & _); [lia|]. rewrite bind_done.
    destruct (Hld 3) as (v3 & -> & _); [lia|]. rewrite bind_done.
    destruct (negb _ || negb _); [eexists; split; [done|by left]|].
    destruct (Hld 4) as (v4 & -> & _); [lia|]. rewrite bind_done.
    destruct (Hld 5) as (v5 & -> & _); [lia|]. rewrite bind_done. cbv zeta.
    change (u16 (LH_MB_ADU_MAX - 7 + 1)) with 254. rewrite Z.gtb_ltb.
    destruct (Z.ltb_spec (be16 v4 v5) 2); cbn [orb]; [eexists; split; [done|by left]|].
    destruct (Z.ltb_spec 254 (be16 v4 v5)); [eexists; split; [done|by left]|].
    eexists; split; [done|]. right. cint. lia.
Qed.
Lemma payload_bytes framing unit f q : is_bytes f -> payload framing unit f = Some q ->
  is_bytes q /\ len q <= len f.
Proof.
  intros Hb. unfold payload. destruct framing; destruct (_ && _); try done; intros [= <-].
  - split; [by apply Forall_take, Forall_drop|].
    rewrite length_take, length_drop. lia.
  - split; [by apply Forall_drop|]. rewrite length_drop. lia.
Qed.

(** A link that received, or dropped, some bytes. *)
Definition with_buffer (l : lh_mb_link_t) (frame : buffer) (held : Z) : lh_mb_link_t :=
  lh_mb_link_set_held (put_frame l frame) held.
(** A question that ended without an answer. *)
Definition gave_up (l : lh_mb_link_t) (s : lh_mb_status) : lh_mb_link_t :=
  on_counters lh_mb_link_counters_count_failed
    (lh_mb_link_set_reason (lh_mb_link_set_state l lh_mb_link_idle) s).
#[export] Hint Unfold with_buffer gave_up : link.

Lemma wf_with_buffer l frame held :
  wf l -> length frame = 260%nat -> is_bytes frame -> 0 <= held <= 260 ->
  wf (with_buffer l frame held).
Proof. intros []; split; link; done. Qed.
Lemma wf_gave_up l s : wf l -> wf (gave_up l s).
Proof. intros []; split; link; try done. by left. Qed.
Lemma with_buffer_twice l f h f' h' :
  with_buffer (with_buffer l f h) f' h' = with_buffer l f' h'.
Proof. done. Qed.
Lemma with_buffer_held l h : lh_mb_link_set_held l h = with_buffer l (link_frame l) h.
Proof. by destruct l. Qed.

Lemma with_buffer_same l : with_buffer l (link_frame l) (link_held l) = l.
Proof. by destruct l. Qed.
Lemma consume_spec l n :
  wf l -> 0 < n <= link_held l ->
  exists frame held, lh_mb_link_consume l n = Done (with_buffer l frame held) /\
    length frame = 260%nat /\ is_bytes frame /\ 0 <= held <= link_held l - n /\
    (is_mbap l = true -> held = link_held l - n /\
       take (Z.to_nat held) frame = take (Z.to_nat held) (drop (Z.to_nat n) (link_frame l))).
Proof.
  intros Hwf Hn. destruct Hwf as [[Hl Hb] _ Hh _ _ _ _ _ _ _].
  unfold lh_mb_link_consume. rewrite Z.geb_leb, !with_buffer_held. autounfold with getters.
  destruct (Z.leb_spec (link_held l) n) as [Hle|Hlt].
  { rewrite orb_true_r. exists (link_frame l), 0. split; [done|].
    split; [done|]. split; [done|]. split; [lia|]. intros _. split; [lia|done]. }
  rewrite orb_false_r. destruct (is_mbap l); cbn [negb].
  2:{ exists (link_frame l), 0. split; [done|]. by repeat split; try lia. }
  rewrite copy_ok by (rewrite ?length_drop; lia). rewrite bind_done.
  change (link_held (put_frame l ?f)) with (link_held l). rewrite u16_id by zb.
  rewrite Z.add_0_l. eexists _, (link_held l - n). split; [done|].
  rewrite take_0. cbn [app].
  split; [rewrite length_app, length_take, !length_drop; lia|].
  split; [apply Forall_app; split; [by apply Forall_take, Forall_drop|by apply Forall_drop]|].
  split; [lia|]. intros _. split; [done|]. rewrite take_app_le; [|rewrite length_take, length_drop; lia].
  rewrite take_take. f_equal. lia.
Qed.

(** ** Polling *)

Section Poll.
Context {W : Type} `{Callbacks W, Clock W}.

(** How the loop over the received frames can end. *)
Definition loop_ends (l : lh_mb_link_t) (r : outcome (W * lh_mb_link_t * search)) : Prop :=
  exists w' f h, length f = 260%nat /\ is_bytes f /\ 0 <= h <= 260 /\
    (r = Done (w', with_buffer l f h, Stop lh_mb_link_waiting) \/
     (exists s, (s = lh_mb_status_garbage \/ s = lh_mb_status_short) /\
        r = Done (w', gave_up (with_buffer l f h) s, Stop lh_mb_link_failed)) \/
     (exists p n, length p = 260%nat /\ is_bytes p /\ 0 <= n <= 257 /\
        r = Done (w', with_buffer l f h, Found p n))).
Lemma loop_ends_with_buffer l f h r : loop_ends (with_buffer l f h) r -> loop_ends l r.
Proof using Type.
  intros (w' & f' & h' & Hf & Hb & Hh & Hr). exists w', f', h'.
  by rewrite with_buffer_twice in Hr.
Qed.

Lemma decode_total framing unit f n pdu z :
  is_bytes f -> 0 <= n <= 260 -> length f = 260%nat -> length pdu = 260%nat -> is_bytes pdu ->
  0 <= z <= 257 -> (framing = lh_mb_framing_rtu -> 4 <= n) ->
  exists ours p m, lh_mb_decode framing unit (Some f) n (Some pdu) (Some z)
      = Done (ours, Some p, Some m) /\ length p = 260%nat /\ is_bytes p /\ 0 <= m <= 257.
Proof using Type.
  intros Hb Hn Hf Hp Hbp Hz Hrtu. rewrite decode_spec by (done || lia).
  destruct (payload framing unit _) as [q|] eqn:E; [|by eexists _, _, _].
  assert (Hlq : len q <= 257).
  { unfold payload in E. destruct framing; destruct (_ && _) eqn:Hc; try done;
      injection E as <-; rewrite ?length_take, !length_drop, length_take; lia. }
  apply payload_bytes in E as [Hbq _]; [|by apply Forall_take].
  rewrite (proj2 (Z.leb_le _ _)) by lia. eexists _, _, _. split; [done|].
  rewrite length_filled by lia. split; [done|]. split; [|lia].
  unfold filled. apply Forall_app. split; [done|]. by apply Forall_drop.
Qed.

Lemma frames_loop_ends : forall fuel w l timeout pdu n0,
  wf l -> link_state l = lh_mb_link_waiting -> link_held l < Z.of_nat fuel ->
  length pdu = 260%nat -> is_bytes pdu -> 0 <= n0 <= 257 ->
  loop_ends l (frames_loop fuel w l timeout pdu n0).
Proof using Type.
  induction fuel as [|fuel IH]; intros w l timeout pdu n0 Hwf Hst Hfuel Hp Hbp Hn0.
  { destruct Hwf. lia. }
  pose proof Hwf as [[Hlf Hbf] _ Hh _ _ Hfc _ _ _ _]. cbn [frames_loop].
  autounfold with getters. rewrite !with_buffer_held.
  destruct (frame_length_bounds (link_framing l) (link_frame l) (link_held l) (link_asked_fc l)
    Hlf Hbf Hfc) as (need & -> & Hneed). rewrite bind_done.
  destruct ((need =? 0) && is_mbap l && _).
  { exists w, (link_frame l), 0. split_and!; [done|done|lia|lia|]. right; left.
    exists lh_mb_status_garbage. split; [by left|done]. }
  destruct ((need =? 0) || (link_held l <? need)) eqn:Hc.
  { destruct (now w l) as [w' t]. destruct (_ && _).
    - exists w', (link_frame l), (if negb (is_mbap l) then 0 else link_held l).
      split_and!; [done|done|destruct (is_mbap l); simpl; lia|destruct (is_mbap l); simpl; lia|].
      right; left. exists lh_mb_status_short. split; [by right|].
      destruct (negb (is_mbap l)); [done|]. by rewrite with_buffer_same.
    - exists w', (link_frame l), (link_held l). split_and!; [done|done|lia|lia|]. left.
      by rewrite Hst, with_buffer_same. }
  apply orb_false_iff in Hc as [Hc1 Hc2]. apply Z.eqb_neq in Hc1. apply Z.ltb_ge in Hc2.
  destruct Hneed as [->|(Hneed & Hm & _)]; [done|].
  destruct (decode_total (link_framing l) (link_unit l) (link_frame l) need pdu n0 Hbf)
    as (ours & p & m & -> & Hlp & Hbp' & Hm'); try done; [lia|lia|].
  rewrite !bind_done. cbn [deref]. rewrite !bind_done.
  assert (exists b : bool, (if ours && is_mbap l
     then f0 ← load (link_frame l) 0; f1 ← load (link_frame l) 1;
          mret (Z.lor (Z.shiftl f0 8) f1 =? link_asked_tx l)
     else mret ours) = Done b) as [b ->].
  { destruct (ours && is_mbap l); [|by exists ours].
    destruct (load_byte (link_frame l) 0 Hbf) as (f0 & -> & _); [lia|].
    destruct (load_byte (link_frame l) 1 Hbf) as (f1 & -> & _); [lia|]. by eexists. }
  rewrite bind_done.
  destruct (consume_spec l need Hwf) as (f & h & -> & Hf & Hbf' & Hh' & _); [lia|].
  rewrite bind_done. destruct b.
  - exists w, f, h. split_and!; [done|done|lia|lia|]. right; right. by exists p, m.
  - eapply loop_ends_with_buffer, IH; try done; [|link; lia].
    by apply wf_with_buffer; [..|lia].
Qed.

(** *** Reading the answer *)

Lemma parse_write_total p n a v e :
  length p = 260%nat -> exists s x, lh_mb_parse_pdu_write (Some p) n a v e = Done (s, x).
Proof using Type.
  intros Hp. unfold lh_mb_parse_pdu_write. destruct (n <? 2); [by eexists _, _|].
  rewrite !load_nth by lia. rewrite !bind_done.
  repeat (case_match; [by eexists _, _|]). by eexists _, _.
Qed.
Lemma parse_write_one_total p n a v e :
  length p = 260%nat -> exists s x, lh_mb_parse_pdu_write_one (Some p) n a v e = Done (s, x).
Proof using Type.
  intros Hp. unfold lh_mb_parse_pdu_write_one. destruct (n <? 2); [by eexists _, _|].
  rewrite !load_nth by lia. rewrite !bind_done.
  repeat (case_match; [by eexists _, _|]). by eexists _, _.
Qed.
Lemma stored_words ws values :
  is_words ws -> is_words values -> length values = 125%nat ->
  length (stored (take 125 ws) values) = 125%nat /\ is_words (stored (take 125 ws) values).
Proof using Type.
  intros Hw Hv Hl. unfold stored. split.
  - rewrite length_app, length_drop, length_take. lia.
  - apply Forall_app. split; [by apply Forall_take|by apply Forall_drop].
Qed.

Lemma read_answer_total l p n :
  wf l -> length p = 260%nat -> is_bytes p -> 0 <= n <= 257 ->
  exists vs g s, read_answer l p n = Done (lh_mb_link_set_got (put_values l vs) g, s) /\
    0 <= g <= 127 /\ length vs = 125%nat /\ is_words vs.
Proof using Type.
  intros Hwf Hp Hb Hn. destruct Hwf as [_ [Hlv Hwv] _ _ _ Hfc _ _ _ _].
  assert (Hsame : forall g, lh_mb_link_set_got l g
    = lh_mb_link_set_got (put_values l (link_values l)) g) by by destruct l.
  unfold read_answer. autounfold with getters.
  destruct (Z.eqb_spec (link_asked_fc l) LH_MB_FC_WRITE_MANY).
  { destruct (parse_write_total p n (link_address l) (link_expected l) None Hp) as (s & x & E).
    exists (link_values l), 0, s. rewrite <-Hsame.
    split; [|split; [lia|done]].
    transitivity ('(s, _) ← lh_mb_parse_pdu_write (Some p) n (link_address l)
      (link_expected l) None; mret (lh_mb_link_set_got l 0, s)); [done|by rewrite E]. }
  destruct (Z.eqb_spec (link_asked_fc l) LH_MB_FC_WRITE_ONE).
  { destruct (parse_write_one_total p n (link_address l) (link_written l) None Hp) as (s & x & E).
    exists (link_values l), 0, s. rewrite <-Hsame.
    split; [|split; [lia|done]].
    transitivity ('(s, _) ← lh_mb_parse_pdu_write_one (Some p) n (link_address l)
      (link_written l) None; mret (lh_mb_link_set_got l 0, s)); [done|by rewrite E]. }
  assert (Hr : 0 <= link_asked_fc l < 128).
  { destruct Hfc as [-> | [-> | [-> | ->]]]; by vm_compute. }
  set (q := take (Z.to_nat n) p). assert (Hq : len q = n) by (unfold q; rewrite length_take; lia).
  assert (Hbq : is_bytes q) by by apply Forall_take.
  assert (exists junk, p = q ++ junk) as [junk Hpq]
    by (exists (drop (Z.to_nat n) p); unfold q; by rewrite take_drop).
  clearbody q. rewrite Hpq, <-Hq, parse_pdu_prefix by (done || lia).
  destruct (parse_pdu_spec q (link_asked_fc l) (link_expected l) (link_values l) 125 (Some 0) None
    Hbq) as (r & E & Hcase); [lia|done|lia|].
  change LH_MB_LINK_VALUES with 125. rewrite E, bind_done.
  assert (Hres : exists vs g, words r = Some vs /\ out r = Some g /\ 0 <= g <= 127 /\
    length vs = 125%nat /\ is_words vs).
  { destruct (status r);
      try (destruct Hcase as (-> & -> & _); exists (link_values l), 0; repeat split; first [done | lia]).
    - destruct Hcase as (ws & Ha & -> & -> & _). destruct Ha as (Hw & _ & Hlen & _).
      exists (stored (take 125 ws) (link_values l)), (len ws).
      destruct (stored_words ws (link_values l) Hw Hwv Hlv). repeat split; first [done | lia].
    - destruct Hcase as (ws & Ha & -> & -> & _). destruct Ha as (Hw & _ & Hlen & _).
      exists (stored (take 125 ws) (link_values l)), (len ws).
      destruct (stored_words ws (link_values l) Hw Hwv Hlv). repeat split; first [done | lia].
    - destruct Hcase as (c & _ & -> & -> & _). exists (link_values l), 0. repeat split; first [done | lia]. }
  destruct Hres as (vs & g & -> & -> & Hg & Hvs). cbn [deref]. rewrite !bind_done.
  by exists vs, g, (status r).
Qed.

(** *** One poll, one verdict *)

(** What a poll leaves alone. *)
Definition setup (l : lh_mb_link_t) :=
  (link_stream l, link_framing l, link_unit l, link_fc l, link_asked_fc l,
   (link_address l, link_expected l, link_written l, link_tx l, link_asked_tx l),
   (link_since_us l, link_now_us l, link_clock l, link_on_change l, link_owner l)).
Definition good (s : lh_mb_status) : Prop := s = lh_mb_status_ok \/ s = lh_mb_status_partial.
(** What a poll of a question in flight makes of it. *)
Definition verdict (l l' : lh_mb_link_t) (r : Z) : Prop :=
  let c := link_counters l in
  let c' := link_counters l' in
  c_sent c' = c_sent c /\
  ((r = lh_mb_link_waiting /\ link_state l' = lh_mb_link_waiting /\
    link_reason l' = link_reason l /\ c_done c' = c_done c /\ c_failed c' = c_failed c /\
    c_refused c' = c_refused c) \/
   (r = lh_mb_link_answered /\ link_state l' = lh_mb_link_answered /\
    good (link_reason l') /\ c_done c' = u32 (c_done c + 1) /\ c_failed c' = c_failed c /\
    c_refused c' = c_refused c) \/
   (r = lh_mb_link_failed /\ link_state l' = lh_mb_link_idle /\
    ~ good (link_reason l') /\ c_done c' = c_done c /\
    if decide (link_reason l' = lh_mb_status_exception)
    then c_refused c' = u32 (c_refused c + 1) /\ c_failed c' = c_failed c
    else c_failed c' = u32 (c_failed c + 1) /\ c_refused c' = c_refused c)).

Lemma settle_verdict w l s :
  wf l -> exists w' l' r, settle w l s = (w', l', r) /\ wf l' /\ setup l' = setup l /\
    verdict l l' r /\ r <> lh_mb_link_waiting.
Proof using Type.
  intros Hwf.
  assert (Hput : forall c st (Hst : st = lh_mb_link_idle \/ st = lh_mb_link_answered),
    wf (lh_mb_link_set_state (put_counters (lh_mb_link_set_reason l s) c) st)).
  { intros c st Hst. destruct Hwf; split; link; try done. tauto. }
  unfold settle, verdict, good.
  destruct (decide (s = lh_mb_status_ok \/ s = lh_mb_status_partial)) as [Hg|Hg].
  - replace (negb _ && negb _) with false by by destruct Hg; subst s.
    change (lh_mb_link_get_now_us ?x) with (link_now_us l).
    destruct (link_now_us l =? 0).
    + eexists _, _, _. split; [done|]. split; [apply Hput; by right|]. split; [done|].
      split; [|done]. split; [done|]. right; left. done.
    + destruct (now w _) as [w' t]. eexists _, _, _. split; [done|].
      split; [apply (Hput _ lh_mb_link_answered); by right|]. split; [done|].
      split; [|done]. split; [done|]. right; left. done.
  - assert (Hb : negb (bool_decide (s = lh_mb_status_ok)) &&
      negb (bool_decide (s = lh_mb_status_partial)) = true).
    { rewrite !bool_decide_eq_false_2 by tauto. done. }
    rewrite Hb. eexists _, _, _. split; [done|].
    split; [apply (Hput _ lh_mb_link_idle); by left|]. split; [done|]. split; [|done].
    link. destruct (decide (s = lh_mb_status_exception)) as [->|Hx].
    + split; [done|]. right; right. done.
    + rewrite bool_decide_eq_false_2 by done. split; [done|]. right; right. done.
Qed.

(** Two links between which only received bytes were counted and stored. *)
Definition same_question (l l1 : lh_mb_link_t) : Prop :=
  setup l1 = setup l /\ link_state l1 = link_state l /\ link_reason l1 = link_reason l /\
  c_sent (link_counters l1) = c_sent (link_counters l) /\
  c_done (link_counters l1) = c_done (link_counters l) /\
  c_failed (link_counters l1) = c_failed (link_counters l) /\
  c_refused (link_counters l1) = c_refused (link_counters l).
Lemma same_question_verdict l l1 l' r :
  same_question l l1 -> verdict l1 l' r -> verdict l l' r.
Proof using Type.
  intros (_ & H1 & H2 & H3 & H4 & H5 & H6). unfold verdict. by rewrite H2, H3, H4, H5, H6.
Qed.
Lemma gave_up_verdict l s :
  s <> lh_mb_status_ok -> s <> lh_mb_status_partial -> s <> lh_mb_status_exception ->
  verdict l (gave_up l s) lh_mb_link_failed.
Proof using Type.
  intros H1 H2 H3. split; [done|]. right; right. split; [done|]. split; [done|].
  split; [intros [?|?]; done|]. split; [done|]. by rewrite decide_False by done.
Qed.

Lemma poll_verdict `{!Line W} w l timeout :
  wf l -> link_state l = lh_mb_link_waiting ->
  exists w' l' r, lh_mb_link_poll w l timeout = Done (w', l', r) /\ wf l' /\
    setup l' = setup l /\ verdict l l' r.
Proof using Type.
  intros Hwf Hst. pose proof Hwf as [[Hlf Hbf] _ Hh _ _ _ _ _ _ [Hrd _]].
  unfold lh_mb_link_poll. autounfold with getters. rewrite Hst. cbn [negb Z.eqb].
  assert (Hread : exists w1 got bytes,
    (if link_held l <? LH_MB_ADU_MAX
     then lh_io_stream_read w (link_stream l) (LH_MB_ADU_MAX - link_held l)
     else mret (w, (LH_IO_PENDING, []))) = Done (w1, (got, bytes)) /\
    is_bytes bytes /\ len bytes = Z.max 0 got /\ got <= 260 - link_held l).
  { unfold LH_MB_ADU_MAX. destruct (Z.ltb_spec (link_held l) 260).
    - unfold lh_io_stream_read, lh_io_reader_read, lh_io_stream_get_reader,
        lh_io_reader_get_read_cb, fail_if. rewrite (proj2 (Z.eqb_neq _ _)) by done.
      rewrite bind_done. destruct (call_read _ _ w _) as [w1 [got bytes]] eqn:E.
      exists w1, got, bytes. split; [done|].
      eapply line_law; [|exact E]. lia.
    - exists w, LH_IO_PENDING, []. split; [done|]. unfold LH_IO_PENDING.
      split; [constructor|]. simpl. lia. }
  destruct Hread as (w1 & got & bytes & -> & Hby & Hlb & Hgot). rewrite bind_done.
  rewrite copy_ok by lia. rewrite bind_done. set (f := _ ++ _).
  assert (Hf : length f = 260%nat /\ is_bytes f).
  { unfold f. split; [rewrite !length_app, !length_take, length_drop; lia|bytes]. }
  clearbody f. destruct Hf as [Hf Hbf'].
  assert (Hput : put_frame l f = with_buffer l f (link_held l)) by by destruct l.
  rewrite Hput.
  destruct ((got =? 0) || ((got <? 0) && negb (got =? LH_IO_PENDING))) eqn:Hbad.
  { cbn [lh_mb_link_lose]. eexists _, _, _. split; [done|].
    change (wf (gave_up (with_buffer l f 0) lh_mb_status_lost) /\
      setup (gave_up (with_buffer l f 0) lh_mb_status_lost) = setup l /\
      verdict l (gave_up (with_buffer l f 0) lh_mb_status_lost) lh_mb_link_failed).
    split; [apply wf_gave_up, wf_with_buffer; done || lia|]. split; [done|].
    apply (same_question_verdict l (with_buffer l f 0)); [by repeat split|].
    by apply gave_up_verdict. }
  set (l1 := if got >? 0 then _ else _).
  assert (H1 : wf l1 /\ same_question l l1).
  { unfold l1. rewrite Z.gtb_ltb. destruct (Z.ltb_spec 0 got).
    - change (lh_mb_link_set_held (with_buffer l f ?a) ?b) with (with_buffer l f b).
      change (link_held (with_buffer l f (link_held l))) with (link_held l).
      rewrite (u16_id got), (u16_id (_ + got)) by zb.
      split; [|by repeat split].
      assert (Hwb : wf (with_buffer l f (link_held l + got))) by
        (apply wf_with_buffer; done || lia).
      destruct Hwb; split; link; done.
    - split; [apply wf_with_buffer; done || lia|by repeat split]. }
  clearbody l1. destruct H1 as [Hwf1 Hsame].
  pose proof Hsame as (Hset1 & Hst1 & _).
  destruct (frames_loop_ends (S (Z.to_nat (link_held l1))) w1 l1 timeout (local LH_MB_ADU_MAX) 0)
    as (w2 & f2 & h2 & Hf2 & Hbf2 & Hh2 & Hends); [done|by rewrite Hst1|destruct Hwf1; lia|done
    |by apply Forall_replicate|lia|].
  pose proof (wf_with_buffer l1 f2 h2 Hwf1 Hf2 Hbf2 Hh2) as Hwf2.
  assert (Hsame2 : same_question l (with_buffer l1 f2 h2)) by exact Hsame.
  destruct Hends as [-> | [(s & Hs & ->) | (p & n & Hp & Hbp & Hn & ->)]]; rewrite bind_done.
  - eexists _, _, _. split; [done|]. split; [done|]. split; [done|].
    split; [by apply Hsame2|]. left. split; [done|]. split; [by rewrite <-Hst, <-Hst1|].
    destruct Hsame2 as (_ & _ & ?). tauto.
  - eexists _, _, _. split; [done|]. split; [by apply wf_gave_up|]. split; [done|].
    apply (same_question_verdict _ _ _ _ Hsame2).
    apply gave_up_verdict; destruct Hs; subst s; done.
  - destruct (read_answer_total _ p n Hwf2 Hp Hbp Hn) as (vs & g & s & -> & Hg & Hlv & Hwv).
    rewrite bind_done. set (l3 := lh_mb_link_set_got _ g).
    assert (Hwf3 : wf l3) by (destruct Hwf2; split; link; done).
    destruct (settle_verdict w2 l3 s Hwf3) as (w' & l' & r & -> & Hwf' & Hset & Hv & _).
    exists w', l', r. split; [done|]. split; [done|]. split; [by rewrite Hset|].
    by apply (same_question_verdict l l3).
Qed.

(** ** Asking *)

Lemma encode_prefix framing unit tx q junk out cap :
  lh_mb_encode framing unit tx (Some (q ++ junk)) (len q) out cap
  = lh_mb_encode framing unit tx (Some q) (len q) out cap.
Proof using Type.
  assert (Hcp : forall b a, copy_bytes b a (q ++ junk) (len q) = copy_bytes b a q (len q)).
  { intros b a. unfold copy_bytes. rewrite length_app, Nat2Z.id, take_app_length, (take_ge q) by lia.
    by rewrite !(proj2 (Z.leb_le (len q) _)) by lia. }
  unfold lh_mb_encode. destruct out as [b|]; [|done]. destruct framing.
  - destruct (_ <? _); [done|]. destruct (put b 0 unit); [|done..]. rewrite !bind_done.
    by rewrite Hcp.
  - destruct (_ <? _); [done|].
    do 7 (match goal with |- mbind _ (put ?b ?i ?v) = _ => destruct (put b i v) end;
          [|done..]; rewrite !bind_done).
    by rewrite Hcp.
Qed.

(** A link whose question went out at [t]. *)
Definition question (l : lh_mb_link_t) (n address count fc t : Z) : lh_mb_link_t :=
  mk_link (link_stream l) (link_framing l) (link_unit l) (link_fc l) fc lh_mb_link_waiting
    lh_mb_status_ok address count 0 (link_written l) (if is_mbap l then link_held l else 0)
    (u16 (link_tx l + 1)) (link_tx l) t (link_values l) (link_frame l)
    (lh_mb_link_counters_add_bytes (lh_mb_link_counters_count_sent (link_counters l)) n)
    (link_now_us l) (link_clock l) (link_on_change l) (link_owner l).
(** What becomes of a request handed to the stream: it was taken whole, or not
    now, or the stream is lost. *)
Definition posted (w : W) (l : lh_mb_link_t) (request : buffer) (address count fc : Z)
    : W * lh_mb_link_t * bool :=
  let wr := writer (link_stream l) in
  let '(w, wrote) := call_write (write_cb wr) (writer_context wr) w request in
  if wrote =? LH_IO_PENDING then (w, lh_mb_link_set_state l lh_mb_link_idle, false)
  else if wrote =? len request then
    let '(w, t) := now w l in (w, question l (len request) address count fc t, true)
  else (w, gave_up (with_buffer l (link_frame l) 0) lh_mb_status_lost, false).

Lemma send_posts w l q address count fc :
  wf l -> is_bytes q -> 1 <= len q <= 253 ->
  lh_mb_link_send w l (Some (filled q (local LH_MB_ADU_MAX))) (len q) address count fc
  = Done (posted w l (frame_of (link_framing l) (link_unit l) (link_tx l) q) address count fc).
Proof using Type.
  intros Hwf Hb Hq. destruct Hwf as [_ _ _ Hu [Htx _] _ _ _ _ [_ Hwr]].
  unfold lh_mb_link_send. rewrite (proj2 (Z.eqb_neq _ _)) by lia. autounfold with getters.
  unfold filled. rewrite encode_prefix.
  set (fr := frame_of (link_framing l) (link_unit l) (link_tx l) q).
  assert (Hlf : 3 <= len fr <= 260).
  { unfold fr. rewrite length_frame_of. destruct (link_framing l); simpl overhead; lia. }
  change LH_MB_ADU_MAX with (len (local 260)) at 2. change LH_MB_ADU_MAX with 260.
  rewrite encode_ok; try done; [|lia|].
  2:{ change (len (local 260)) with 260. destruct (link_framing l); simpl overhead; lia. }
  fold fr. rewrite bind_done, (proj2 (Z.eqb_neq _ _)) by lia. cbn [deref]. rewrite bind_done.
  unfold slice. rewrite length_filled by (simpl; lia).
  rewrite !(proj2 (Z.leb_le _ _)) by (simpl; lia). cbn [andb]. rewrite bind_done.
  change (drop (Z.to_nat 0) ?x) with x. rewrite Nat2Z.id, take_filled.
  unfold lh_io_stream_write, lh_io_writer_write, lh_io_stream_get_writer,
    lh_io_writer_get_write_cb, lh_io_writer_get_context, fail_if.
  rewrite (proj2 (Z.eqb_neq _ _)) by done. rewrite bind_done. unfold posted.
  destruct (call_write _ _ w fr) as [w1 wrote]. change (mret ?x) with (Done x).
  rewrite bind_done. destruct (wrote =? LH_IO_PENDING); [done|].
  destruct (Z.eqb_spec wrote (len fr)) as [->|]; cbn [negb].
  2:{ by do 3 f_equal. }
  assert (Hnow : forall l', link_now_us l' = link_now_us l -> link_clock l' = link_clock l ->
    now w1 l' = now w1 l).
  { intros l' E1 E2. unfold now. autounfold with getters. by rewrite E1, E2. }
  match goal with |- context [now w1 ?l'] => rewrite (Hnow l') end.
  2:{ clear. destruct l. by destruct link_framing. }
  2:{ clear. destruct l. by destruct link_framing. }
  assert (Htx' : u16 (u32 (link_tx l + 1)) = u16 (link_tx l + 1)) by (unfold u32, u16; zdm).
  destruct (now w1 l) as [w2 t]. unfold question. rewrite <-Htx'. clear -l.
  destruct l; by destruct link_framing.
Qed.

Lemma build_read_pdu fc address count :
  fc = LH_MB_FC_READ_HOLDING \/ fc = LH_MB_FC_READ_INPUT -> 1 <= count <= LH_MB_READ_MAX ->
  lh_mb_build_pdu_read (Some (local LH_MB_ADU_MAX)) LH_MB_ADU_MAX fc address count
  = Done (Some (filled (pdu_read fc address count) (local LH_MB_ADU_MAX)), 5).
Proof using Type. intros Hfc Hc. by apply (build_pdu_read_ok (local LH_MB_ADU_MAX)). Qed.
Lemma pdu_read_bytes fc address count : is_u8 fc -> is_bytes (pdu_read fc address count).
Proof using Type. intros. unfold pdu_read. bytes. Qed.
Lemma read_code_u8 fc : fc = LH_MB_FC_READ_HOLDING \/ fc = LH_MB_FC_READ_INPUT -> is_u8 fc.
Proof using Type. intros [-> | ->]; by vm_compute. Qed.

Lemma ask_posts w l address count :
  wf l -> link_state l = lh_mb_link_idle ->
  link_fc l = LH_MB_FC_READ_HOLDING \/ link_fc l = LH_MB_FC_READ_INPUT ->
  1 <= count <= LH_MB_READ_MAX ->
  lh_mb_link_ask w l address count
  = Done (posted w l (frame_of (link_framing l) (link_unit l) (link_tx l)
                        (pdu_read (link_fc l) address count)) address count (link_fc l)).
Proof using Type.
  intros Hwf Hst Hfc Hc. unfold lh_mb_link_ask. autounfold with getters.
  rewrite Hst. cbn [negb Z.eqb]. rewrite Z.gtb_ltb, (proj2 (Z.ltb_lt _ _)) by lia.
  rewrite (proj2 (Z.leb_le _ _)) by lia. cbn [andb negb].
  rewrite build_read_pdu, bind_done by done. change 5 with (len (pdu_read (link_fc l) address count)).
  apply send_posts; [done| |simpl; lia]. by apply pdu_read_bytes, read_code_u8.
Qed.
Lemma write_posts w l address values :
  wf l -> link_state l = lh_mb_link_idle -> 1 <= len values <= LH_MB_WRITE_MAX ->
  lh_mb_link_write w l address (Some values) (len values)
  = Done (posted w l (frame_of (link_framing l) (link_unit l) (link_tx l)
                        (pdu_write address values)) address (len values) LH_MB_FC_WRITE_MANY).
Proof using Type.
  unfold LH_MB_WRITE_MAX. intros Hwf Hst Hc. unfold lh_mb_link_write. autounfold with getters.
  rewrite Hst. cbn [negb Z.eqb]. rewrite Z.gtb_ltb, (proj2 (Z.ltb_lt _ _)) by lia. cbn [negb].
  assert (Hl : len (pdu_write address values) = 6 + len values * 2).
  { unfold pdu_write. rewrite length_app, length_be_bytes. simpl length. lia. }
  pose proof (build_pdu_write_ok (local LH_MB_ADU_MAX) address values (len values)) as Hb.
  change (len (local LH_MB_ADU_MAX)) with LH_MB_ADU_MAX in Hb.
  rewrite Hb, bind_done, Nat2Z.id, take_ge, <-Hl by (unfold LH_MB_WRITE_MAX, LH_MB_ADU_MAX; lia).
  apply send_posts; [done| |lia]. unfold pdu_write. apply Forall_app.
  split; [|apply be_bytes_u8]. bytes; first [by vm_compute | apply u8_range].
Qed.
Lemma write_one_posts w l address value :
  wf l -> link_state l = lh_mb_link_idle ->
  lh_mb_link_write_one w l address value
  = let '(w, l, sent) := posted w l (frame_of (link_framing l) (link_unit l) (link_tx l)
      (pdu_write_one address value)) address 1 LH_MB_FC_WRITE_ONE in
    Done (w, if sent : bool then lh_mb_link_set_written l value else l, sent).
Proof using Type.
  intros Hwf Hst. unfold lh_mb_link_write_one. autounfold with getters.
  rewrite Hst. cbn [negb Z.eqb].
  pose proof (build_pdu_write_one_ok (local LH_MB_ADU_MAX) address value) as Hb.
  change (len (local LH_MB_ADU_MAX)) with LH_MB_ADU_MAX in Hb.
  rewrite Hb, bind_done by (unfold LH_MB_ADU_MAX; lia).
  change 5 with (len (pdu_write_one address value)).
  rewrite send_posts, bind_done; [|done| |simpl; lia].
  - by destruct (posted _ _ _ _ _ _) as [[w' l'] []].
  - unfold pdu_write_one. by bytes.
Qed.

(** What holds of a link between operations. *)
Record inv (l : lh_mb_link_t) : Prop := {
  inv_wf : wf l;
  inv_sent : is_u32 (c_sent (link_counters l));
  inv_tx : link_tx l = u16 (c_sent (link_counters l));
  inv_asked : link_state l = lh_mb_link_waiting ->
    link_asked_tx l = u16 (c_sent (link_counters l) - 1)
}.

Lemma inv_posted w l fr address count fc :
  inv l -> is_u16 address -> is_u16 count -> known_fc fc ->
  inv (snd (fst (posted w l fr address count fc))).
Proof using Type.
  intros [Hwf Hs Htx Hasked] Ha Hc Hfc. unfold posted.
  destruct (call_write _ _ w fr) as [w1 wrote]. destruct (wrote =? LH_IO_PENDING).
  { cbn [fst snd]. split; link; try done. destruct Hwf; split; link; try done. by left. }
  destruct (wrote =? len fr).
  2:{ cbn [fst snd]. split; try done.
      apply wf_gave_up, wf_with_buffer; try done; by destruct Hwf as [[]]. }
  destruct (now w1 l) as [w2 t]. cbn [fst snd]. unfold question. split.
  - destruct Hwf as [? ? ? ? [? ?] ? [? [? ?]] ? ? ?]. split; link; try done.
    all: first [ by right; left | lia | by split; [apply u16_range|]
               | by destruct (is_mbap l) | destruct (is_mbap l); lia ].
  - apply u32_range.
  - change (u16 (link_tx l + 1) = u16 (u32 (c_sent (link_counters l) + 1))).
    rewrite Htx. clear. zdm.
  - intros _. change (link_tx l = u16 (u32 (c_sent (link_counters l) + 1) - 1)).
    rewrite Htx. clear -Hs. zdm.
Qed.

(** ** Any sequence of operations *)

Inductive op : Type :=
| Ask (address count : Z)
| Write (address : Z) (values : list Z)
| Write_one (address value : Z)
| Poll (timeout_us : Z)
| Release
| Set_stream (stream : lh_io_stream_t)
| Set_fc (fc : Z).
Definition run (w : W) (l : lh_mb_link_t) (o : op) : outcome (W * lh_mb_link_t) :=
  match o with
  | Ask a c => '(w, l, _) ← lh_mb_link_ask w l a c; mret (w, l)
  | Write a vs => '(w, l, _) ← lh_mb_link_write w l a (Some vs) (len vs); mret (w, l)
  | Write_one a v => '(w, l, _) ← lh_mb_link_write_one w l a v; mret (w, l)
  | Poll t => '(w, l, _) ← lh_mb_link_poll w l t; mret (w, l)
  | Release => mret (w, lh_mb_link_release l)
  | Set_stream s => mret (w, lh_mb_link_set_stream l s)
  | Set_fc fc => mret (w, lh_mb_link_set_fc l fc)
  end.
(** The arguments a C caller can pass: values of their types, a stream with its
    two callbacks. *)
Definition op_ok (o : op) : Prop :=
  match o with
  | Ask a c => is_u16 a /\ is_u16 c
  | Write a vs => is_u16 a /\ len vs <= 65535
  | Write_one a v => is_u16 a /\ is_u16 v
  | Poll t => is_u32 t
  | Release => True
  | Set_stream s => read_cb (reader s) <> 0 /\ write_cb (writer s) <> 0
  | Set_fc fc => is_u8 fc
  end.

Lemma busy_ask w l a c : link_state l <> lh_mb_link_idle -> lh_mb_link_ask w l a c = Done (w, l, false).
Proof using Type.
  intros Hst. unfold lh_mb_link_ask. autounfold with getters.
  by rewrite (proj2 (Z.eqb_neq _ _)).
Qed.
Lemma busy_write w l a vs c : link_state l <> lh_mb_link_idle ->
  lh_mb_link_write w l a vs c = Done (w, l, false).
Proof using Type.
  intros Hst. unfold lh_mb_link_write. autounfold with getters.
  by rewrite (proj2 (Z.eqb_neq _ _)).
Qed.
Lemma busy_write_one w l a v : link_state l <> lh_mb_link_idle ->
  lh_mb_link_write_one w l a v = Done (w, l, false).
Proof using Type.
  intros Hst. unfold lh_mb_link_write_one. autounfold with getters.
  by rewrite (proj2 (Z.eqb_neq _ _)).
Qed.

Lemma ask_refused w l a c :
  link_state l = lh_mb_link_idle ->
  ~ (link_fc l = LH_MB_FC_READ_HOLDING \/ link_fc l = LH_MB_FC_READ_INPUT) \/
  ~ (1 <= c <= LH_MB_READ_MAX) -> lh_mb_link_ask w l a c = Done (w, l, false).
Proof using Type.
  intros Hst Hbad. unfold lh_mb_link_ask. autounfold with getters. rewrite Hst. cbn [negb Z.eqb].
  rewrite Z.gtb_ltb. destruct (Z.ltb_spec 0 c), (Z.leb_spec c LH_MB_READ_MAX); try done.
  cbn [andb negb]. destruct Hbad as [Hfc|Hc]; [|lia].
  unfold lh_mb_build_pdu_read. rewrite Z.gtb_ltb, (proj2 (Z.ltb_ge LH_MB_READ_MAX c)) by lia.
  rewrite (proj2 (Z.eqb_neq c 0)) by lia. cbn [orb Z.ltb Z.compare LH_MB_ADU_MAX Pos.compare].
  replace ((link_fc l =? LH_MB_FC_READ_HOLDING) || (link_fc l =? LH_MB_FC_READ_INPUT))
    with false; [done|].
  symmetry. apply orb_false_iff. split; apply Z.eqb_neq; tauto.
Qed.
Lemma write_refused w l a vs :
  link_state l = lh_mb_link_idle -> len vs <= 65535 -> ~ (1 <= len vs <= LH_MB_WRITE_MAX) ->
  lh_mb_link_write w l a (Some vs) (len vs) = Done (w, l, false).
Proof using Type.
  intros Hst Hl Hbad. unfold lh_mb_link_write. autounfold with getters. rewrite Hst.
  cbn [negb Z.eqb]. rewrite Z.gtb_ltb. destruct (Z.ltb_spec 0 (len vs)); [|done]. cbn [negb].
  unfold lh_mb_build_pdu_write. rewrite Z.gtb_ltb, (proj2 (Z.eqb_neq (len vs) 0)) by lia.
  by rewrite (proj2 (Z.ltb_lt LH_MB_WRITE_MAX _)) by lia.
Qed.

Lemma run_inv `{!Line W} w l o :
  inv l -> op_ok o -> exists w' l', run w l o = Done (w', l') /\ inv l'.
Proof using Type.
  intros Hinv Hok. pose proof Hinv as [Hwf Hs Htx Ha]. destruct o; cbn [run op_ok] in *.
  - destruct (decide (link_state l = lh_mb_link_idle)) as [Hst|Hst];
      [|rewrite busy_ask by done; by exists w, l].
    destruct (decide ((link_fc l = LH_MB_FC_READ_HOLDING \/ link_fc l = LH_MB_FC_READ_INPUT)
      /\ 1 <= count <= LH_MB_READ_MAX)) as [[Hfc Hc]|Hbad].
    + rewrite ask_posts by done. rewrite bind_done.
      destruct (posted _ _ _ _ _ _) as [[w' l'] b] eqn:E. exists w', l'. split; [done|].
      change l' with (snd (fst (w', l', b))). rewrite <-E. apply inv_posted; try tauto.
      unfold known_fc. tauto.
    + rewrite ask_refused; [by exists w, l|done|].
      destruct (decide (1 <= count <= LH_MB_READ_MAX)); [left; tauto|by right].
  - destruct (decide (link_state l = lh_mb_link_idle)) as [Hst|Hst];
      [|rewrite busy_write by done; by exists w, l].
    destruct (decide (1 <= len values <= LH_MB_WRITE_MAX)) as [Hc|Hbad].
    + rewrite write_posts by done. rewrite bind_done.
      destruct (posted _ _ _ _ _ _) as [[w' l'] b] eqn:E. exists w', l'. split; [done|].
      change l' with (snd (fst (w', l', b))). rewrite <-E. apply inv_posted; [done|tauto|zb|].
      unfold known_fc. tauto.
    + rewrite write_refused by tauto. by exists w, l.
  - destruct (decide (link_state l = lh_mb_link_idle)) as [Hst|Hst];
      [|rewrite busy_write_one by done; by exists w, l].
    rewrite write_one_posts by done.
    destruct (posted _ _ _ _ _ _) as [[w' l'] b] eqn:E. rewrite bind_done.
    assert (Hi : inv l').
    { change l' with (snd (fst (w', l', b))). rewrite <-E.
      apply inv_posted; [done|tauto|zb|unfold known_fc; tauto]. }
    eexists _, _. split; [done|]. destruct b; [|done].
    destruct Hi as [Hw ? ? ?]. split; try done. destruct Hw; split; link; try done. tauto.
  - destruct (decide (link_state l = lh_mb_link_waiting)) as [Hst|Hst].
    + destruct (poll_verdict w l timeout_us Hwf Hst) as (w' & l' & r & -> & Hw' & Hset & Hv).
      rewrite bind_done. exists w', l'. split; [done|]. unfold setup in Hset.
      injection Hset as ? ? ? ? ? ? ? ? ? ? ?. destruct Hv as (Hsent & _).
      split; [done|by rewrite Hsent|congruence|]. intros _. rewrite Hsent. rewrite <-Ha by done. congruence.
    + unfold lh_mb_link_poll. autounfold with getters. rewrite (proj2 (Z.eqb_neq _ _)) by done.
      by exists w, l.
  - exists w, (lh_mb_link_release l). split; [done|]. unfold lh_mb_link_release, is_mbap.
    autounfold with getters. destruct Hwf.
    split; link; destruct link_framing; try done; split; link; try done; try (by left); lia.
  - exists w, (lh_mb_link_set_stream l stream). split; [done|].
    unfold lh_mb_link_set_stream. destruct Hwf.
    split; link; try done; split; link; try done; try (by left); lia.
  - exists w, (lh_mb_link_set_fc l fc). split; [done|]. unfold lh_mb_link_set_fc.
    destruct (negb _); [done|]. destruct Hwf. split; link; try done; split; link; done.
Qed.
End Poll.
