(* ===== verification/ModbusLinkSpec.v ===== *)
(** * Modbus: the link as its user sees it

    The theorems about whole runs of a link and about the stream of network
    frames, on the invariants of [ModbusLinkProofs], and a scripted device to
    instantiate them with. *)
From S2P Require Import Prelude Buffer Hash Io Modbus ModbusProofs ModbusFrame ModbusLink ModbusLinkProofs.

Section Runs.
Context {W : Type} `{Callbacks W, Clock W}.

Inductive runs_to (w0 : W) (l0 : lh_mb_link_t) : W -> lh_mb_link_t -> Prop :=
| reach_init : runs_to w0 l0 w0 l0
| reach_step w l o w' l' :
    runs_to w0 l0 w l -> op_ok o -> run w l o = Done (w', l') -> runs_to w0 l0 w' l'.

Lemma init_inv stream framing unit now_us clock :
  is_u8 unit -> read_cb (reader stream) <> 0 -> write_cb (writer stream) <> 0 ->
  inv (lh_mb_link_init stream framing unit now_us clock).
Proof using Type.
  intros Hu Hr Hw. split; try done. split; try done; cbn; try lia.
  all: first [by left | split; [done|by apply Forall_replicate]].
Qed.
Lemma runs_inv `{!Line W} w0 l0 w l : inv l0 -> runs_to w0 l0 w l -> inv l.
Proof using Type.
  intros Hi Hr. induction Hr as [|w l o w' l' _ IH Hok Hrun]; [done|].
  destruct (run_inv w l o IH Hok) as (w2 & l2 & E & Hinv). congruence.
Qed.

(** Claim C1: starting from [lh_mb_link_init], after any sequence of operations
    over any stream that keeps to the reading contract, every further operation
    finishes without leaving an array; the link's state is idle, waiting or
    answered, the receive buffer is never overfilled, and the k-th question sent
    carries the transaction id k modulo 65536, so that an answer to any of the
    65535 questions before it carries another id. *)
Theorem link_never_stuck `{!Line W} w0 stream framing unit now_us clock w l o :
  is_u8 unit -> read_cb (reader stream) <> 0 -> write_cb (writer stream) <> 0 ->
  runs_to w0 (lh_mb_link_init stream framing unit now_us clock) w l -> op_ok o ->
  (exists w' l', run w l o = Done (w', l')) /\
  0 <= link_held l <= LH_MB_ADU_MAX /\ len (link_frame l) = LH_MB_ADU_MAX /\
  (link_state l = lh_mb_link_idle \/ link_state l = lh_mb_link_waiting \/
   link_state l = lh_mb_link_answered) /\
  link_tx l = c_sent (link_counters l) mod 65536 /\
  (link_state l = lh_mb_link_waiting ->
   link_asked_tx l = (c_sent (link_counters l) - 1) mod 65536).
Proof using Type.
  intros Hu Hr Hw Hreach Hok.
  assert (Hi : inv l) by (eapply runs_inv; [by apply init_inv|exact Hreach]).
  destruct (run_inv w l o Hi Hok) as (w' & l' & Hrun & _).
  destruct Hi as [[[Hlf _] _ Hh _ _ _ _ _ Hst _] _ Htx Ha].
  split; [by exists w', l'|]. split; [done|]. split; [by rewrite Hlf|]. done.
Qed.

(** Claim C2: polling a link with no question in flight changes nothing and
    reads nothing; polling one in flight always returns, with the question either
    still in flight and nothing counted, or answered and counted as done, or
    ended: refused by the device when the reason is an exception and failed
    otherwise, with the link idle again.  The question itself, the transaction
    ids and the configuration are never changed. *)
Theorem poll_gives_one_verdict `{!Line W} w l timeout :
  wf l ->
  (link_state l <> lh_mb_link_waiting ->
   lh_mb_link_poll w l timeout = Done (w, l, link_state l)) /\
  (link_state l = lh_mb_link_waiting ->
   exists w' l' r, lh_mb_link_poll w l timeout = Done (w', l', r) /\ wf l' /\
     setup l' = setup l /\ verdict l l' r).
Proof using Type.
  intros Hwf. split; [|by apply poll_verdict].
  intros Hst. unfold lh_mb_link_poll. autounfold with getters. by rewrite (proj2 (Z.eqb_neq _ _)).
Qed.

(** A request goes out only from idle: busy, the three ways of asking
    return false and touch neither the stream nor the link.  From idle, with
    arguments the protocol allows, exactly one frame is handed to the stream:
    this unit's, with this transaction id, around the request; and the link
    waits, stays idle or reports the stream lost as the whole frame, none of it
    or part of it was taken. *)
Theorem question_goes_out_from_idle w l address count values value :
  wf l -> 1 <= count <= LH_MB_READ_MAX -> 1 <= len values <= LH_MB_WRITE_MAX ->
  let framed pdu := frame_of (link_framing l) (link_unit l) (link_tx l) pdu in
  (link_state l <> lh_mb_link_idle ->
   lh_mb_link_ask w l address count = Done (w, l, false) /\
   lh_mb_link_write w l address (Some values) (len values) = Done (w, l, false) /\
   lh_mb_link_write_one w l address value = Done (w, l, false)) /\
  (link_state l = lh_mb_link_idle ->
   (link_fc l = LH_MB_FC_READ_HOLDING \/ link_fc l = LH_MB_FC_READ_INPUT ->
    lh_mb_link_ask w l address count
    = Done (posted w l (framed (pdu_read (link_fc l) address count)) address count
              (link_fc l))) /\
   lh_mb_link_write w l address (Some values) (len values)
   = Done (posted w l (framed (pdu_write address values)) address (len values)
             LH_MB_FC_WRITE_MANY) /\
   lh_mb_link_write_one w l address value
   = let '(w, l, sent) := posted w l (framed (pdu_write_one address value)) address 1
                            LH_MB_FC_WRITE_ONE in
     Done (w, if sent : bool then lh_mb_link_set_written l value else l, sent)).
Proof using Type.
  intros Hwf Hc Hvs framed. split.
  - intros Hst. by rewrite busy_ask, busy_write, busy_write_one.
  - intros Hst. split; [intros Hfc; by apply ask_posts|].
    split; [by apply write_posts|by apply write_one_posts].
Qed.

(** ** Finding the answer in the stream *)

(** The bytes received and not yet consumed. *)
Definition live (l : lh_mb_link_t) : buffer := take (Z.to_nat (link_held l)) (link_frame l).
(** A whole network frame that does not answer the question in flight. *)
Definition foreign (l : lh_mb_link_t) (f : buffer) : Prop :=
  exists unit tx q, f = frame_of lh_mb_framing_mbap unit tx q /\ is_u8 unit /\ is_u16 tx /\
    is_bytes q /\ 1 <= len q <= 253 /\ (unit <> link_unit l \/ tx <> link_asked_tx l).

Lemma live_frame l s : wf l -> live l = s ->
  link_held l = len s /\ exists junk, link_frame l = s ++ junk.
Proof using Type.
  intros [[Hlf _] _ Hh _ _ _ _ _ _ _] <-. unfold live. split.
  - rewrite length_take. lia.
  - exists (drop (Z.to_nat (link_held l)) (link_frame l)). by rewrite take_drop.
Qed.

(** One frame is taken off the front and compared with the question. *)
Lemma frames_loop_step fuel w l timeout p n unit tx q more :
  wf l -> link_framing l = lh_mb_framing_mbap ->
  live l = frame_of lh_mb_framing_mbap unit tx q ++ more ->
  is_u8 unit -> is_u16 tx -> is_bytes q -> 1 <= len q <= 253 ->
  length p = 260%nat ->
  exists f h p' n', length p' = 260%nat /\ wf (with_buffer l f h) /\
    live (with_buffer l f h) = more /\
    frames_loop (S fuel) w l timeout p n
    = (if (unit =? link_unit l) && (tx =? link_asked_tx l)
       then Done (w, with_buffer l f h, Found (filled q p) (len q))
       else frames_loop fuel w (with_buffer l f h) timeout p' n').
Proof using Type.
  intros Hwf Hfr Hlive Hu Htx Hq Hlq Hp.
  destruct (live_frame l _ Hwf Hlive) as [Hheld [junk Hframe]].
  pose proof Hwf as [[Hlf Hbf] _ Hh _ _ _ _ _ _ _].
  set (fr := frame_of lh_mb_framing_mbap unit tx q) in *.
  assert (Hlfr : len fr = 7 + len q) by (unfold fr; rewrite length_frame_of; simpl overhead; lia).
  rewrite length_app in Hheld.
  destruct (consume_spec l (len fr) Hwf) as (f & h & Hcons & Hf & Hbf' & Hh' & Hmbap); [lia|].
  destruct Hmbap as [-> Htake]; [unfold is_mbap, lh_mb_link_get_framing; by rewrite Hfr|].
  assert (Hwf' : wf (with_buffer l f (link_held l - len fr)))
    by (apply wf_with_buffer; done || lia).
  assert (Hmore : live (with_buffer l f (link_held l - len fr)) = more).
  { unfold live. cbn [with_buffer lh_mb_link_set_held put_frame link_held link_frame].
    rewrite Htake, Hframe, Nat2Z.id, <-app_assoc, drop_app_length.
    replace (Z.to_nat (link_held l - len fr)) with (length more) by lia. apply take_app_length. }
  assert (Hneed : lh_mb_frame_length (link_framing l) (Some (link_frame l)) (link_held l)
    (link_asked_fc l) = Done (len fr)).
  { rewrite Hfr, Hframe, Hlfr. unfold fr, frame_of. rewrite <-!app_assoc.
    apply frame_length_head; lia. }
  assert (Htk : take (Z.to_nat (len fr)) (link_frame l) = fr).
  { by rewrite Hframe, Nat2Z.id, <-app_assoc, take_app_length. }
  assert (Hf0 : load (link_frame l) 0 = Done (hi tx)) by by rewrite Hframe.
  assert (Hf1 : load (link_frame l) 1 = Done (lo tx)) by by rewrite Hframe.
  cbn [frames_loop]. autounfold with getters.
  rewrite Hneed, bind_done, (proj2 (Z.eqb_neq (len fr) 0)), (proj2 (Z.ltb_ge _ _)) by lia.
  cbn [andb orb]. rewrite decode_spec, Htk, Hfr by (done || lia).
  destruct (Z.eqb_spec unit (link_unit l)) as [Heq|Hne]; cbn [andb].
  2:{ unfold fr. rewrite payload_other, bind_done by congruence. fold fr. cbn [deref].
      rewrite !bind_done. cbn [andb]. rewrite bind_done, Hcons, bind_done.
      by exists f, (link_held l - len fr), p, n. }
  unfold fr. rewrite <-Heq, payload_frame_of by first [done | intros ->; simpl in Hlq; lia].
  fold fr. rewrite (proj2 (Z.leb_le (len q) _)), bind_done by lia. cbn [deref].
  rewrite !bind_done. unfold is_mbap at 1. autounfold with getters. rewrite Hfr. cbn [andb].
  rewrite Hf0, bind_done, Hf1, bind_done. change (mret ?x) with (Done x).
  rewrite bind_done, lor_bytes by apply lo_u8.
  replace (256 * hi tx + lo tx) with tx by (rewrite hi_div, lo_mod; zdm).
  rewrite Hcons, bind_done.
  exists f, (link_held l - len fr), (filled q p), (len q).
  split; [rewrite length_filled; lia|]. split; [done|]. split; [done|].
  by destruct (tx =? link_asked_tx l).
Qed.

Lemma frames_loop_skip others : forall fuel w l timeout p n more,
  wf l -> link_framing l = lh_mb_framing_mbap ->
  live l = concat others ++ more -> Forall (foreign l) others -> length p = 260%nat ->
  (length others <= fuel)%nat ->
  exists f h p' n', length p' = 260%nat /\ wf (with_buffer l f h) /\
    live (with_buffer l f h) = more /\
    frames_loop fuel w l timeout p n
    = frames_loop (fuel - length others) w (with_buffer l f h) timeout p' n'.
Proof using Type.
  induction others as [|fr others IH]; intros fuel w l timeout p n more Hwf Hfr Hlive Hall Hp Hfuel.
  { exists (link_frame l), (link_held l), p, n. rewrite with_buffer_same, Nat.sub_0_r. done. }
  inversion_clear Hall as [|? ? Hone Hrest].
  destruct Hone as (unit & tx & q & -> & Hu & Htx & Hq & Hlq & Hother).
  destruct fuel as [|fuel]; [simpl in Hfuel; lia|]. cbn [concat] in Hlive.
  rewrite <-app_assoc in Hlive.
  destruct (frames_loop_step fuel w l timeout p n unit tx q _ Hwf Hfr Hlive Hu Htx Hq Hlq Hp)
    as (f & h & p' & n' & Hp' & Hwf' & Hlive' & ->).
  replace ((unit =? link_unit l) && (tx =? link_asked_tx l)) with false.
  2:{ symmetry. apply andb_false_iff. rewrite !Z.eqb_neq. tauto. }
  destruct (IH fuel w (with_buffer l f h) timeout p' n' more) as (f2 & h2 & p2 & n2 & H1 & H2 & H3 & E);
    try done; [simpl in Hfuel; lia|].
  exists f2, h2, p2, n2. rewrite with_buffer_twice in *. split; [done|]. split; [done|].
  split; [done|]. by rewrite E.
Qed.

(** A poll that received [bytes]: they go behind those held, and the frames are
    looked at. *)
Lemma poll_receives `{!Line W} w l timeout w1 got bytes :
  wf l -> link_state l = lh_mb_link_waiting -> link_held l < 260 -> 0 < got ->
  call_read (read_cb (reader (link_stream l))) (reader_context (reader (link_stream l))) w
    (260 - link_held l) = (w1, (got, bytes)) ->
  exists l1, wf l1 /\ same_question l l1 /\ live l1 = live l ++ bytes /\
    link_values l1 = link_values l /\
    lh_mb_link_poll w l timeout
    = ('(w, self, found) ← frames_loop (S (Z.to_nat (link_held l1))) w1 l1 timeout
                             (local LH_MB_ADU_MAX) 0;
       match found with
       | Stop state => mret (w, self, state)
       | Found pdu pdu_length =>
         '(self, s) ← read_answer self pdu pdu_length;
         mret (settle w self s)
       end).
Proof using Type.
  intros Hwf Hst Hroom Hgot Hread. pose proof Hwf as [[Hlf Hbf] _ Hh _ _ _ _ _ _ [Hrd _]].
  assert (Hroom' : 0 <= 260 - link_held l) by lia.
  destruct (line_law _ _ _ _ _ _ _ Hroom' Hread) as (Hby & Hlb & Hsz).
  set (f := take (Z.to_nat (link_held l)) (link_frame l) ++ bytes
    ++ drop (Z.to_nat (link_held l + got)) (link_frame l)).
  assert (Hf : length f = 260%nat /\ is_bytes f).
  { unfold f. split; [rewrite !length_app, length_take, length_drop; lia|bytes]. }
  exists (on_counters (fun c => lh_mb_link_counters_add_bytes c (u32 got))
    (with_buffer l f (link_held l + got))).
  split; [|split; [by repeat split|split; [|split; [done|]]]].
  - assert (Hwb : wf (with_buffer l f (link_held l + got))) by
      (apply wf_with_buffer; try tauto; lia).
    destruct Hwb; split; link; done.
  - unfold live. cbn [on_counters put_counters with_buffer lh_mb_link_set_held put_frame
      link_held link_frame]. unfold f. rewrite app_assoc. apply take_app_length'.
    rewrite length_app, length_take. lia.
  - unfold lh_mb_link_poll. autounfold with getters. rewrite Hst. cbn [negb Z.eqb].
    change (link_held (on_counters ?g (with_buffer l f ?h))) with h.
    rewrite (proj2 (Z.ltb_lt (link_held l) LH_MB_ADU_MAX)) by (unfold LH_MB_ADU_MAX; lia).
    unfold lh_io_stream_read, lh_io_reader_read, lh_io_stream_get_reader,
      lh_io_reader_get_read_cb, lh_io_reader_get_context, fail_if.
    cbv beta zeta. rewrite (proj2 (Z.eqb_neq (read_cb _) 0)) by done. rewrite bind_done.
    change (LH_MB_ADU_MAX - link_held l) with (260 - link_held l). rewrite Hread.
    change (mret (w1, (got, bytes))) with (Done (w1, (got, bytes))).
    rewrite bind_done, copy_ok, bind_done by lia.
    rewrite (take_ge bytes) by lia. replace (len bytes) with got by lia. fold f.
    rewrite (proj2 (Z.eqb_neq got 0)), (proj2 (Z.ltb_ge got 0)) by lia. cbn [andb orb].
    rewrite Z.gtb_ltb, (proj2 (Z.ltb_lt 0 got)) by lia.
    change (link_held (put_frame l f)) with (link_held l).
    rewrite (u16_id got), (u16_id (_ + got)) by zb. done.
Qed.

Lemma foreign_count l others :
  Forall (foreign l) others -> (length others <= length (concat others))%nat.
Proof using Type.
  induction 1 as [|fr others (u & t & d & -> & _) _ IH]; [done|].
  cbn [concat length]. rewrite length_app, length_frame_of. simpl overhead. lia.
Qed.
(** The same, with the foreign frames in front already dropped. *)
Lemma poll_skips `{!Line W} w l timeout w1 got bytes others more :
  wf l -> link_state l = lh_mb_link_waiting -> link_framing l = lh_mb_framing_mbap ->
  link_held l < 260 -> 0 < got ->
  call_read (read_cb (reader (link_stream l))) (reader_context (reader (link_stream l))) w
    (260 - link_held l) = (w1, (got, bytes)) ->
  live l ++ bytes = concat others ++ more -> Forall (foreign l) others ->
  exists l2 fuel p n, wf l2 /\ setup l2 = setup l /\ link_state l2 = lh_mb_link_waiting /\
    live l2 = more /\ link_values l2 = link_values l /\ length p = 260%nat /\
    lh_mb_link_poll w l timeout
    = ('(w, self, found) ← frames_loop (S fuel) w1 l2 timeout p n;
       match found with
       | Stop state => mret (w, self, state)
       | Found pdu pdu_length =>
         '(self, s) ← read_answer self pdu pdu_length;
         mret (settle w self s)
       end).
Proof using Type.
  intros Hwf Hst Hfr Hroom Hgot Hread Hstream Hothers.
  destruct (poll_receives w l timeout w1 got bytes Hwf Hst Hroom Hgot Hread)
    as (l1 & Hwf1 & Hsame & Hlive & Hvals & ->). rewrite Hstream in Hlive.
  pose proof Hsame as (Hset & Hst1 & _). pose proof Hset as Hset'. unfold setup in Hset'.
  injection Hset' as _ Hfr1 Hu1 _ _ _ _ _ _ Hatx1 _ _ _ _ _.
  assert (Hothers1 : Forall (foreign l1) others).
  { eapply Forall_impl; [exact Hothers|]. intros fr (u & t & d & H1).
    exists u, t, d. by rewrite Hu1, Hatx1. }
  assert (Hlen : (length others <= Z.to_nat (link_held l1))%nat).
  { destruct (live_frame l1 _ Hwf1 Hlive) as [-> _]. rewrite length_app.
    pose proof (foreign_count l others Hothers). lia. }
  destruct (frames_loop_skip others (S (Z.to_nat (link_held l1))) w1 l1 timeout
    (local LH_MB_ADU_MAX) 0 _ Hwf1 ltac:(congruence) Hlive Hothers1 ltac:(done) ltac:(lia))
    as (f & h & p & n & Hp & Hwf2 & Hlive2 & ->).
  replace (S (Z.to_nat (link_held l1)) - length others)%nat
    with (S (Z.to_nat (link_held l1) - length others)) by lia.
  exists (with_buffer l1 f h), (Z.to_nat (link_held l1) - length others)%nat, p, n.
  split; [done|]. split; [done|]. split; [exact (eq_trans Hst1 Hst)|].
  split; [done|]. by split.
Qed.

Lemma parse_answer q fc expect values ws :
  is_answer fc q ws -> is_bytes q -> len q <= 65535 -> 0 <= fc < 128 ->
  length values = 125%nat ->
  lh_mb_parse_pdu (Some q) (len q) fc expect (Some values) 125 (Some 0) None
  = Done (mk_parsed (if len ws <? expect then lh_mb_status_partial else lh_mb_status_ok)
            (Some (stored (take 125 ws) values)) (Some (len ws)) None).
Proof using Type.
  intros Ha Hb Hl Hfc Hv.
  destruct (parse_pdu_spec q fc expect values 125 (Some 0) None Hb Hl Hfc) as (r & -> & Hr); [lia|].
  assert (Hnr : forall code, ~ is_refusal fc q code).
  { intros code [tail ->]. destruct Ha as (_ & _ & _ & tail' & [= ? _]). lia. }
  assert (Hsame : forall ws', is_answer fc q ws' -> ws' = ws).
  { intros ws' Ha'. pose proof (answer_words _ _ _ Ha) as W1.
    pose proof (answer_words _ _ _ Ha') as W2.
    destruct Ha as (_ & _ & _ & t & E), Ha' as (_ & _ & _ & t' & E').
    rewrite E in E'. injection E' as E' _. rewrite <-W2.
    by replace (length ws') with (length ws) by lia. }
  destruct r as [s vs o e]. cbn [status words out exception] in Hr.
  destruct s; try (by destruct Hr as (_ & _ & _ & Hna & _); destruct (Hna ws));
    try (by destruct Hr as (code & Href & _); destruct (Hnr code)).
  - destruct Hr as (ws' & Ha' & -> & -> & -> & Hs). rewrite (Hsame ws' Ha') in *.
    apply proj1 in Hs. rewrite (proj2 (Z.ltb_ge _ _)); [done|]. by apply Hs.
  - destruct Hr as (ws' & Ha' & -> & -> & -> & Hs). rewrite (Hsame ws' Ha') in *.
    apply proj2 in Hs. destruct (Z.ltb_spec (len ws) expect); [done|]. by specialize (Hs ltac:(lia)).
Qed.

(** Claim C3: over a network, when the bytes held and received are any number
    of whole frames that are not this question's (another unit's, or late
    answers carrying another transaction id), then a read answer to this
    question, then anything, the poll answers: the words are this answer's, the
    frames before it are gone, and what came after it is kept for the next
    question. *)
Theorem answer_found_behind_others `{!Line W} w l timeout w1 got bytes others q ws rest :
  wf l -> link_state l = lh_mb_link_waiting -> link_framing l = lh_mb_framing_mbap ->
  link_asked_fc l = LH_MB_FC_READ_HOLDING \/ link_asked_fc l = LH_MB_FC_READ_INPUT ->
  link_held l < 260 -> 0 < got ->
  call_read (read_cb (reader (link_stream l))) (reader_context (reader (link_stream l))) w
    (260 - link_held l) = (w1, (got, bytes)) ->
  live l ++ bytes = concat others
    ++ frame_of lh_mb_framing_mbap (link_unit l) (link_asked_tx l) q ++ rest ->
  Forall (foreign l) others -> is_answer (link_asked_fc l) q ws -> is_bytes q -> len q <= 253 ->
  exists w' l', lh_mb_link_poll w l timeout = Done (w', l', lh_mb_link_answered) /\
    live l' = rest /\ link_got l' = len ws /\
    link_values l' = stored (take 125 ws) (link_values l) /\
    link_reason l' = (if len ws <? link_expected l then lh_mb_status_partial
                      else lh_mb_status_ok).
Proof using Type.
  intros Hwf Hst Hfr Hfc Hroom Hgot Hread Hstream Hothers Hans Hq Hlq.
  destruct (poll_skips w l timeout w1 got bytes others _ Hwf Hst Hfr Hroom Hgot Hread Hstream
    Hothers) as (l2 & fuel & p & n & Hwf2 & Hset & Hst2 & Hlive2 & Hvals & Hp & ->).
  unfold setup in Hset. injection Hset as _ Hfr2 Hu2 _ Hafc2 _ Hexp2 _ _ Hatx2 _ _ _ _ _.
  assert (Hlq1 : 1 <= len q) by (destruct Hans as (_ & ? & _); lia).
  destruct (frames_loop_step fuel w1 l2 timeout p n (link_unit l) (link_asked_tx l) q rest Hwf2
    ltac:(congruence) Hlive2 ltac:(by destruct Hwf) ltac:(by destruct Hwf as [? ? ? ? []]) Hq
    ltac:(lia) Hp) as (f3 & h3 & p3 & n3 & _ & Hwf3 & Hlive3 & ->).
  rewrite Hu2, Hatx2, !Z.eqb_refl. cbn [andb]. rewrite bind_done.
  set (l3 := with_buffer l2 f3 h3) in *.
  unfold read_answer. autounfold with getters.
  change (link_asked_fc l3) with (link_asked_fc l2). rewrite Hafc2.
  assert (Hnw : link_asked_fc l <> LH_MB_FC_WRITE_MANY /\ link_asked_fc l <> LH_MB_FC_WRITE_ONE)
    by (destruct Hfc as [-> | ->]; done).
  rewrite (proj2 (Z.eqb_neq _ _) (proj1 Hnw)), (proj2 (Z.eqb_neq _ _) (proj2 Hnw)).
  change (link_expected l3) with (link_expected l2). change (link_values l3) with (link_values l2).
  rewrite Hexp2, Hvals. change LH_MB_LINK_VALUES with 125. unfold filled.
  rewrite parse_pdu_prefix, (parse_answer q _ _ _ ws) by
    first [done | lia | by destruct Hwf as [_ []] | destruct Hfc as [-> | ->]; by vm_compute].
  rewrite bind_done. cbn [words out status deref]. rewrite !bind_done.
  unfold settle. set (s := if len ws <? link_expected l then _ else _).
  replace (negb (bool_decide (s = lh_mb_status_ok)) && negb (bool_decide (s = lh_mb_status_partial)))
    with false by (unfold s; by destruct (_ <? _)).
  set (l4 := on_counters _ _). destruct (lh_mb_link_get_now_us l4 =? 0).
  - eexists _, _. split; [done|]. by split.
  - destruct (now w1 l4) as [w4 t]. eexists _, _. split; [done|]. by split.
Qed.

(** Claim C4: the start of a network frame is never lost or misread: when what
    has arrived is, behind any number of other frames, a proper prefix of one,
    the poll keeps exactly that prefix, whether the question is still waiting or
    has just timed out. *)
Theorem partial_frame_kept `{!Line W} w l timeout w1 got bytes others part unit tx q tail :
  wf l -> link_state l = lh_mb_link_waiting -> link_framing l = lh_mb_framing_mbap ->
  link_held l < 260 -> 0 < got ->
  call_read (read_cb (reader (link_stream l))) (reader_context (reader (link_stream l))) w
    (260 - link_held l) = (w1, (got, bytes)) ->
  live l ++ bytes = concat others ++ part ->
  part ++ tail = frame_of lh_mb_framing_mbap unit tx q -> tail <> [] -> 1 <= len q <= 253 ->
  Forall (foreign l) others ->
  exists w' l' r, lh_mb_link_poll w l timeout = Done (w', l', r) /\ live l' = part /\
    (r = lh_mb_link_waiting /\ link_state l' = lh_mb_link_waiting \/
     r = lh_mb_link_failed /\ link_state l' = lh_mb_link_idle /\
     link_reason l' = lh_mb_status_short /\ timeout > 0 /\ link_now_us l <> 0).
Proof using Type.
  intros Hwf Hst Hfr Hroom Hgot Hread Hstream Hpart Htail Hlq Hothers.
  destruct (poll_skips w l timeout w1 got bytes others part Hwf Hst Hfr Hroom Hgot Hread Hstream
    Hothers) as (l2 & fuel & p & n & Hwf2 & Hset & Hst2 & Hlive2 & Hvals & Hp & ->).
  unfold setup in Hset. injection Hset as _ Hfr2 _ _ _ _ _ _ _ _ _ Hnow2 _ _ _.
  rewrite Hfr in Hfr2.
  destruct (live_frame l2 part Hwf2 Hlive2) as [Hheld [junk Hframe]].
  assert (Hlp : len part < 7 + len q).
  { apply (f_equal length) in Hpart. rewrite length_app, length_frame_of in Hpart.
    simpl overhead in Hpart. destruct tail; [done|]. simpl length in Hpart. lia. }
  assert (Hneed : exists need, lh_mb_frame_length lh_mb_framing_mbap (Some (link_frame l2))
    (link_held l2) (link_asked_fc l2) = Done need /\
    (need = 0 /\ link_held l2 < 7 \/ link_held l2 < need)).
  { destruct (Z.ltb_spec (link_held l2) 7) as [Hlt|Hge].
    - exists 0. split; [|by left]. unfold lh_mb_frame_length, LH_MB_MBAP_HEAD.
      by rewrite (proj2 (Z.ltb_lt _ _)).
    - exists (7 + len q). split; [|right; lia].
      assert (exists more, part = mbap_head unit tx (len q) ++ more) as [more ->].
      { exists (drop 7 part). transitivity (take 7 part ++ drop 7 part); [by rewrite take_drop|].
        f_equal. rewrite <-(take_app_le part tail) by lia. rewrite Hpart. done. }
      rewrite Hframe, <-app_assoc. apply frame_length_head; lia. }
  destruct Hneed as (need & Hneed & Hcase).
  cbn [frames_loop]. autounfold with getters.
  rewrite Hfr2, Hneed, bind_done.
  replace ((need =? 0) && is_mbap l2 && (link_held l2 >=? LH_MB_MBAP_HEAD)) with false.
  2:{ rewrite Z.geb_leb. unfold LH_MB_MBAP_HEAD. symmetry.
      destruct Hcase as [[-> Hlt]|Hlt].
      - by rewrite (proj2 (Z.leb_gt _ _)), andb_false_r.
      - destruct (Z.eqb_spec need 0); [destruct Hwf2; lia|done]. }
  replace ((need =? 0) || (link_held l2 <? need)) with true.
  2:{ symmetry. destruct Hcase as [[-> _]|Hlt]; [done|].
      by rewrite (proj2 (Z.ltb_lt _ _)), orb_true_r. }
  destruct (now w1 l2) as [w' t].
  destruct (negb (link_now_us l2 =? 0) && (timeout >? 0) && _) eqn:Hc.
  - apply andb_true_iff in Hc as [Hc _]. apply andb_true_iff in Hc as [Hc1 Hc2].
    apply negb_true_iff, Z.eqb_neq in Hc1. rewrite bind_done.
    unfold is_mbap. autounfold with getters. rewrite Hfr2. cbn [negb].
    eexists _, _, _. split; [done|]. split; [done|]. right.
    repeat (split; [done|]). split; [by apply Z.gtb_lt in Hc2; lia|congruence].
  - rewrite bind_done. eexists _, _, _. split; [done|]. split; [done|]. by left; rewrite Hst2.
Qed.
End Runs.

(** ** A device that answers from a script *)

Module Script.
(** The chunks a read will return, and the requests written. *)
Record device := mk_device { replies : list buffer; requests : list buffer }.
#[global] Instance callbacks : Callbacks device := {
  call_read _ _ d size :=
    match replies d with
    | [] => (d, (LH_IO_PENDING, []))
    | r :: rs => let b := u8 <$> take (Z.to_nat size) r in
                 (mk_device rs (requests d), (len b, b))
    end;
  call_write _ _ d buf := (mk_device (replies d) (requests d ++ [buf]), len buf) }.
#[global] Instance clock : Clock device := { call_clock _ _ d := (d, 1000) }.
#[global] Instance line : Line device.
Proof.
  intros cb context d size d' r bytes Hs. cbn. destruct (replies d) as [|b bs]; intros [= <- <- <-].
  - split; [constructor|]. unfold LH_IO_PENDING. simpl. lia.
  - rewrite length_fmap, length_take. split; [|lia].
    apply Forall_fmap, Forall_true. intros x. apply u8_range.
Qed.
Definition stream : lh_io_stream_t := mk_stream (mk_reader 1 0) (mk_writer 1 0).
Definition link (framing : lh_mb_framing) : lh_mb_link_t :=
  lh_mb_link_init stream framing 1 1 0.
End Script.

Lemma script_link_wf framing : wf (Script.link framing).
Proof.
  apply inv_wf. unfold Script.link. apply init_inv; [zb | discriminate | discriminate].
Qed.

Lemma link_never_stuck_witness :
  (exists w' l', run (Script.mk_device [] []) (Script.link lh_mb_framing_mbap) (Poll 5)
     = Done (w', l')) /\
  0 <= link_held (Script.link lh_mb_framing_mbap) <= LH_MB_ADU_MAX /\
  len (link_frame (Script.link lh_mb_framing_mbap)) = LH_MB_ADU_MAX /\
  (link_state (Script.link lh_mb_framing_mbap) = lh_mb_link_idle \/
   link_state (Script.link lh_mb_framing_mbap) = lh_mb_link_waiting \/
   link_state (Script.link lh_mb_framing_mbap) = lh_mb_link_answered) /\
  link_tx (Script.link lh_mb_framing_mbap)
    = c_sent (link_counters (Script.link lh_mb_framing_mbap)) mod 65536 /\
  (link_state (Script.link lh_mb_framing_mbap) = lh_mb_link_waiting ->
   link_asked_tx (Script.link lh_mb_framing_mbap)
   = (c_sent (link_counters (Script.link lh_mb_framing_mbap)) - 1) mod 65536).
Proof.
  apply (link_never_stuck (Script.mk_device [] []) Script.stream lh_mb_framing_mbap 1 1 0);
    [zb | discriminate | discriminate | apply reach_init | unfold op_ok; zb].
Defined.

Lemma poll_gives_one_verdict_witness :
  (link_state (Script.link lh_mb_framing_rtu) <> lh_mb_link_waiting ->
   lh_mb_link_poll (Script.mk_device [] []) (Script.link lh_mb_framing_rtu) 9
   = Done (Script.mk_device [] [], Script.link lh_mb_framing_rtu, 0)) /\
  (link_state (Script.link lh_mb_framing_rtu) = lh_mb_link_waiting ->
   exists w' l' r,
     lh_mb_link_poll (Script.mk_device [] []) (Script.link lh_mb_framing_rtu) 9
       = Done (w', l', r) /\ wf l' /\
     setup l' = setup (Script.link lh_mb_framing_rtu) /\
     verdict (Script.link lh_mb_framing_rtu) l' r).
Proof.
  apply (poll_gives_one_verdict (Script.mk_device [] []) (Script.link lh_mb_framing_rtu) 9).
  apply script_link_wf.
Defined.

(** The link after it asked for one register. *)
Definition asked (framing : lh_mb_framing) : lh_mb_link_t :=
  snd (fst (posted (Script.mk_device [] []) (Script.link framing)
    (frame_of framing 1 0 (pdu_read LH_MB_FC_READ_HOLDING 0 1)) 0 1 LH_MB_FC_READ_HOLDING)).
Lemma asked_wf framing : wf (asked framing).
Proof.
  apply inv_wf. unfold asked. apply inv_posted; [|zb|zb|by left].
  unfold Script.link. apply init_inv; [zb | discriminate | discriminate].
Qed.

Lemma question_goes_out_from_idle_witness :
  let l := Script.link lh_mb_framing_mbap in
  let d := Script.mk_device [] [] in
  let framed pdu := frame_of (link_framing l) (link_unit l) (link_tx l) pdu in
  (link_state l <> lh_mb_link_idle ->
   lh_mb_link_ask d l 7 2 = Done (d, l, false) /\
   lh_mb_link_write d l 7 (Some [5]) 1 = Done (d, l, false) /\
   lh_mb_link_write_one d l 7 9 = Done (d, l, false)) /\
  (link_state l = lh_mb_link_idle ->
   (link_fc l = LH_MB_FC_READ_HOLDING \/ link_fc l = LH_MB_FC_READ_INPUT ->
    lh_mb_link_ask d l 7 2
    = Done (posted d l (framed (pdu_read (link_fc l) 7 2)) 7 2 (link_fc l))) /\
   lh_mb_link_write d l 7 (Some [5]) 1
   = Done (posted d l (framed (pdu_write 7 [5])) 7 1 LH_MB_FC_WRITE_MANY) /\
   lh_mb_link_write_one d l 7 9
   = let '(w, l, sent) := posted d l (framed (pdu_write_one 7 9)) 7 1 LH_MB_FC_WRITE_ONE in
     Done (w, if sent : bool then lh_mb_link_set_written l 9 else l, sent)).
Proof.
  intros l d. apply (question_goes_out_from_idle d l 7 2 [5] 9);
    [apply script_link_wf | unfold LH_MB_READ_MAX; lia | unfold LH_MB_WRITE_MAX; simpl; lia].
Defined.

(** A late answer to question 9, then this question's answer, then one byte. *)
Definition late : buffer := [0; 9; 0; 0; 0; 5; 1; 3; 2; 0; 5].
Definition fresh : buffer := [0; 0; 0; 0; 0; 5; 1; 3; 2; 1; 2].
Lemma late_foreign : foreign (asked lh_mb_framing_mbap) late.
Proof.
  exists 1, 9, [3; 2; 0; 5]. split; [done|]. split; [zb|]. split; [zb|].
  split; [repeat constructor; zb|]. split; [simpl; lia|]. by right.
Qed.
Lemma fresh_answer : is_answer 3 [3; 2; 1; 2] [258].
Proof. split; [bytes|]. split; [simpl; lia|]. split; [simpl; lia|]. by exists []. Qed.

Lemma answer_found_behind_others_witness :
  let l := asked lh_mb_framing_mbap in
  exists w' l', lh_mb_link_poll (Script.mk_device [late ++ fresh ++ [7]] []) l 0
      = Done (w', l', lh_mb_link_answered) /\
    live l' = [7] /\ link_got l' = 1 /\
    link_values l' = stored (take 125 [258]) (link_values l) /\
    link_reason l' = (if 1 <? link_expected l then lh_mb_status_partial else lh_mb_status_ok).
Proof.
  intros l. apply (answer_found_behind_others (Script.mk_device [late ++ fresh ++ [7]] []) l 0
    (Script.mk_device [] []) 23 (late ++ fresh ++ [7]) [late] [3; 2; 1; 2] [258] [7]);
    first [ apply asked_wf | reflexivity | by left | vm_compute; reflexivity
          | apply Forall_singleton, late_foreign | apply fresh_answer | repeat constructor; zb
          | simpl; lia | idtac ].
Defined.

Lemma partial_frame_kept_witness :
  let l := asked lh_mb_framing_mbap in
  exists w' l' r, lh_mb_link_poll (Script.mk_device [late ++ [0; 0; 0]] []) l 0
      = Done (w', l', r) /\ live l' = [0; 0; 0] /\
    (r = lh_mb_link_waiting /\ link_state l' = lh_mb_link_waiting \/
     r = lh_mb_link_failed /\ link_state l' = lh_mb_link_idle /\
     link_reason l' = lh_mb_status_short /\ 0 > 0 /\ link_now_us l <> 0).
Proof.
  intros l. apply (partial_frame_kept (Script.mk_device [late ++ [0; 0; 0]] []) l 0
    (Script.mk_device [] []) 14 (late ++ [0; 0; 0]) [late] [0; 0; 0] 1 0 [3; 2; 1; 2]
    [0; 0; 5; 1; 3; 2; 1; 2]);
    first [ apply asked_wf | reflexivity | discriminate | vm_compute; reflexivity
          | apply Forall_singleton, late_foreign | simpl; lia ].
Defined.

(** On a serial line a device that answers with more words than one
    read can ask for (a byte count of 254) is believed: the link reports 127 words
    received while its array of words holds 125, so a caller that reads as many
    words as [lh_mb_link_take] says leaves the array. *)
Theorem serial_answer_overcounts :
  let reply := [1; 3; 254] ++ replicate 254 0 ++ [198; 85] in
  exists d l vs,
    lh_mb_link_poll (Script.mk_device [reply] []) (asked lh_mb_framing_rtu) 0
      = Done (d, l, lh_mb_link_answered) /\
    lh_mb_link_take l (Some 0) = (Some vs, Some 127) /\ len vs = LH_MB_LINK_VALUES.
Proof. do 3 eexists. vm_compute. repeat split. Qed.
