(* ===== verification/View.v ===== *)
(** * String views and cursors, and the character classes of HTTP

    A view is the bytes it shows: two views of one array are two lists, and an operation
    that narrows a view gives the part of the list.  The functions of [util/str/ptr.c] are
    called at address 0, since by [StrPtrProofs] what they find does not depend on the
    address.  [str/view.c] in what the HTTP part uses, [str/cursor.c], [http/char.c] and
    [http/cursor.c]. *)
From S2P Require Import Prelude Buffer Bytes Digits Format StrPtr.

Definition lh_char_map_ht : Z := 9.
Definition lh_char_map_lf : Z := 10.
Definition lh_char_map_vt : Z := 11.
Definition lh_char_map_ff : Z := 12.
Definition lh_char_map_cr : Z := 13.
Definition lh_char_map_exclamation : Z := 33.
Definition lh_char_map_dquot : Z := 34.
Definition lh_char_map_hash : Z := 35.
Definition lh_char_map_dollar : Z := 36.
Definition lh_char_map_ampersand : Z := 38.
Definition lh_char_map_squote : Z := 39.
Definition lh_char_map_asterisk : Z := 42.
Definition lh_char_map_plus : Z := 43.
Definition lh_char_map_comma : Z := 44.
Definition lh_char_map_digit_1 : Z := 49.
Definition lh_char_map_digit_5 : Z := 53.
Definition lh_char_map_semicolon : Z := 59.
Definition lh_char_map_equals : Z := 61.
Definition lh_char_map_question : Z := 63.
Definition lh_char_map_backslash : Z := 92.
Definition lh_char_map_caret : Z := 94.
Definition lh_char_map_underscore : Z := 95.
Definition lh_char_map_grave : Z := 96.
Definition lh_char_map_pipe : Z := 124.
Definition lh_char_map_tilde : Z := 126.
Definition lh_char_map_del : Z := 127.

(** ** Views *)

Notation lh_str_view_t := (list Z).
Definition LH_STR_VIEW_INVALID : Z := LH_USIZE_T_MAX.
Definition lh_str_view_get_size (self : lh_str_view_t) : Z := len self.
Definition lh_str_view_get_data (self : lh_str_view_t) : buffer := self.
Definition lh_str_view_is_empty (self : lh_str_view_t) : bool := lh_str_view_get_size self =? 0.
(** [size] bytes at a pointer. *)
Definition lh_str_view_init_by_size (data : buffer) (size : Z) : lh_str_view_t := take (Z.to_nat size) data.
Definition lh_str_view_clear (self : lh_str_view_t) : lh_str_view_t := [].
Definition lh_str_view_from_offset (self : lh_str_view_t) (offset size : Z) : outcome lh_str_view_t :=
  let total := lh_str_view_get_size self in
  _ ← fail_ifn (offset <=? total) lh_runtime_error_code_out_of_range;
  _ ← fail_ifn (size <=? total - offset) lh_runtime_error_code_out_of_range;
  mret (lh_str_view_init_by_size (drop (Z.to_nat offset) self) size).
Definition lh_str_view_tail (self : lh_str_view_t) (offset : Z) : outcome lh_str_view_t :=
  let size := if lh_str_view_is_empty self then 0 else lh_str_view_get_size self in
  _ ← fail_if (offset >? size) lh_runtime_error_code_out_of_range;
  lh_str_view_from_offset self offset (size - offset).
Definition lh_str_view_get_char_from_begin (self : lh_str_view_t) (offset : Z) : outcome Z :=
  _ ← fail_ifn ((0 <=? offset) && (offset <? lh_str_view_get_size self)) lh_runtime_error_code_out_of_range;
  load self offset.
Definition lh_str_view_find_char (self : lh_str_view_t) (ch : Z) : outcome Z :=
  p ← lh_str_ptr_find_of_char self (lh_str_view_get_size self) ch;
  mret (default LH_STR_VIEW_INVALID p).
Definition lh_str_view_find_not_of (self chars : lh_str_view_t) : outcome Z :=
  p ← lh_str_ptr_find_not_of_chars 0 self (lh_str_view_get_size self) chars (lh_str_view_get_size chars);
  mret (default LH_STR_VIEW_INVALID p).
Definition lh_str_view_rfind_not_of (self chars : lh_str_view_t) : outcome Z :=
  p ← lh_str_ptr_rfind_not_of_chars 0 self (lh_str_view_get_size self) chars (lh_str_view_get_size chars);
  mret (default LH_STR_VIEW_INVALID p).
Definition lh_str_view_get_whitespace : lh_str_view_t :=
  [lh_char_map_space; lh_char_map_lf; lh_char_map_cr; lh_char_map_ht; lh_char_map_vt; lh_char_map_ff].
Definition lh_str_view_ltrim (self : lh_str_view_t) : outcome lh_str_view_t :=
  if lh_str_view_is_empty self then mret self else
  first ← lh_str_view_find_not_of self lh_str_view_get_whitespace;
  if first =? LH_STR_VIEW_INVALID then mret (lh_str_view_clear self) else
  lh_str_view_tail self first.
Definition lh_str_view_rtrim (self : lh_str_view_t) : outcome lh_str_view_t :=
  if lh_str_view_is_empty self then mret self else
  last ← lh_str_view_rfind_not_of self lh_str_view_get_whitespace;
  if last =? LH_STR_VIEW_INVALID then mret (lh_str_view_clear self) else
  lh_str_view_from_offset self 0 (u64 (last + 1)).
Definition lh_str_view_trim (self : lh_str_view_t) : outcome lh_str_view_t :=
  self ← lh_str_view_ltrim self;
  lh_str_view_rtrim self.

(** The table of cases outside ASCII, by the bytes: 192 to 222 without 215. *)
Definition fold_table : list (Z * Z) :=
  map (fun i => (65 + i, 97 + i)) (seqZ 0 26) ++ map (fun i => (i, i + 32)) (seqZ 192 23 ++ seqZ 216 7).
Fixpoint binary_search (fuel : nat) (table : list (Z * Z)) (key lo hi : Z) : outcome (option (Z * Z)) :=
  match fuel with
  | O => Undef
  | S fuel =>
    if lo <? hi then
      let mid := lo + (hi - lo) / 2 in
      from ← load table mid;
      if key <? fst from then binary_search fuel table key lo mid else
      if key >? fst from then binary_search fuel table key (mid + 1) hi else
      mret (Some from)
    else mret None
  end.
Definition lh_char_fold_case_nonascii (c : Z) : outcome Z :=
  r ← binary_search (S (length fold_table)) fold_table c 0 (len fold_table);
  mret (match r with Some r => snd r | None => c end).
Definition lh_char_fold_case (c : Z) : outcome Z :=
  if c <? 128 then mret (if (c >=? 65) && (c <=? 90) then c + 32 else c)
  else lh_char_fold_case_nonascii c.
(** Whether the first [n] bytes agree; the code's null pointer is [true]. *)
Fixpoint compare_fold (n : nat) (str src : buffer) (i : Z) : outcome bool :=
  match n with
  | O => mret true
  | S n =>
    a ← load str i;
    a ← lh_char_fold_case a;
    b ← load src i;
    b ← lh_char_fold_case b;
    if negb (a =? b) then mret false else compare_fold n str src (i + 1)
  end.
(** [lh_memory_compare] finds no difference. *)
Definition compare_same (str src : buffer) : bool := bool_decide (str = src).
Definition lh_str_ptr_equals_by_size (str : buffer) (str_size : Z) (src : buffer) (src_size : Z) (ignore_case : bool)
    : outcome bool :=
  if str_size =? src_size then
    if ignore_case then compare_fold (Z.to_nat (Z.min str_size src_size)) str src 0
    else mret (compare_same (take (Z.to_nat str_size) str) (take (Z.to_nat src_size) src))
  else mret false.
Definition lh_str_ptr_starts_with_by_size (str : buffer) (str_size : Z) (src : buffer) (src_size : Z) (ignore_case : bool)
    : outcome bool :=
  if str_size <? src_size then mret false else
  if ignore_case then compare_fold (Z.to_nat src_size) str src 0
  else mret (compare_same (take (Z.to_nat src_size) str) (take (Z.to_nat src_size) src)).
Definition lh_str_view_equals (self other : lh_str_view_t) (ignore_case : bool) : outcome bool :=
  lh_str_ptr_equals_by_size (lh_str_view_get_data self) (lh_str_view_get_size self) (lh_str_view_get_data other)
    (lh_str_view_get_size other) ignore_case.
Definition lh_str_view_starts_with (self other : lh_str_view_t) (ignore_case : bool) : outcome bool :=
  lh_str_ptr_starts_with_by_size (lh_str_view_get_data self) (lh_str_view_get_size self) (lh_str_view_get_data other)
    (lh_str_view_get_size other) ignore_case.
Definition lh_str_ptr_contains_char (chars : buffer) (chars_size ch : Z) : outcome bool :=
  p ← lh_str_ptr_find_of_char chars chars_size ch;
  mret (bool_decide (is_Some p)).

(** ** Cursors *)

Record lh_str_cursor_t := mk_cursor { cursor_text : lh_str_view_t; cursor_pos : Z }.
Definition lh_str_cursor_get_text := cursor_text.
Definition lh_str_cursor_set_text (self : lh_str_cursor_t) (v : lh_str_view_t) : lh_str_cursor_t := mk_cursor v (cursor_pos self).
Definition lh_str_cursor_get_pos := cursor_pos.
Definition lh_str_cursor_set_pos (self : lh_str_cursor_t) (v : Z) : lh_str_cursor_t := mk_cursor (cursor_text self) v.
Definition lh_str_cursor_init (self : lh_str_cursor_t) (text : lh_str_view_t) : lh_str_cursor_t :=
  lh_str_cursor_set_pos (lh_str_cursor_set_text self text) 0.
Definition lh_str_cursor_is_end (self : lh_str_cursor_t) : bool :=
  lh_str_cursor_get_pos self >=? lh_str_view_get_size (lh_str_cursor_get_text self).
Definition lh_str_cursor_get_left (self : lh_str_cursor_t) : Z :=
  u64 (lh_str_view_get_size (lh_str_cursor_get_text self) - lh_str_cursor_get_pos self).
Definition lh_str_cursor_peek (self : lh_str_cursor_t) (ahead : Z) : outcome Z :=
  let at_ := u64 (lh_str_cursor_get_pos self + ahead) in
  if at_ >=? lh_str_view_get_size (lh_str_cursor_get_text self) then mret lh_char_map_nul else
  lh_str_view_get_char_from_begin (lh_str_cursor_get_text self) at_.
Definition lh_str_cursor_get_rest (self : lh_str_cursor_t) : outcome lh_str_view_t :=
  lh_str_view_tail (lh_str_cursor_get_text self) (lh_str_cursor_get_pos self).
Definition lh_str_cursor_get_since (self : lh_str_cursor_t) (start : Z) : outcome lh_str_view_t :=
  lh_str_view_from_offset (lh_str_cursor_get_text self) start (u64 (lh_str_cursor_get_pos self - start)).
Definition lh_str_cursor_advance (self : lh_str_cursor_t) (count : Z) : lh_str_cursor_t :=
  lh_str_cursor_set_pos self (u64 (lh_str_cursor_get_pos self + Z.min count (lh_str_cursor_get_left self))).
Definition lh_str_cursor_get_char (self : lh_str_cursor_t) : outcome Z := lh_str_cursor_peek self 0.
Definition lh_str_cursor_is_word (self : lh_str_cursor_t) (word : lh_str_view_t) (ignore_case : bool) : outcome bool :=
  rest ← lh_str_cursor_get_rest self;
  lh_str_view_starts_with rest word ignore_case.
Definition lh_str_cursor_skip_char (self : lh_str_cursor_t) (ch : Z) : outcome (lh_str_cursor_t * bool) :=
  if lh_str_cursor_is_end self then mret (self, false) else
  c ← lh_str_cursor_get_char self;
  if negb (c =? ch) then mret (self, false) else
  mret (lh_str_cursor_advance self 1, true).
Definition lh_str_cursor_skip_word (self : lh_str_cursor_t) (word : lh_str_view_t) (ignore_case : bool)
    : outcome (lh_str_cursor_t * bool) :=
  same ← lh_str_cursor_is_word self word ignore_case;
  if negb same then mret (self, false) else
  mret (lh_str_cursor_advance self (lh_str_view_get_size word), true).
(** [while (!is_end(self) && test(get_char(self))) advance(self, 1)] *)
Fixpoint skip_while (fuel : nat) (test : Z -> outcome bool) (self : lh_str_cursor_t) : outcome lh_str_cursor_t :=
  match fuel with
  | O => Undef
  | S fuel =>
    if lh_str_cursor_is_end self then mret self else
    c ← lh_str_cursor_get_char self;
    t ← test c;
    if t : bool then skip_while fuel test (lh_str_cursor_advance self 1) else mret self
  end.
Definition skip_all (test : Z -> outcome bool) (self : lh_str_cursor_t) : outcome (lh_str_cursor_t * Z) :=
  let start := lh_str_cursor_get_pos self in
  self ← skip_while (S (length (cursor_text self))) test self;
  mret (self, u64 (lh_str_cursor_get_pos self - start)).
Definition lh_char_is_whitespace (ch : Z) : bool :=
  (ch =? lh_char_map_space) || ((ch >=? lh_char_map_ht) && (ch <=? lh_char_map_cr)).
Definition lh_str_cursor_skip_whitespace (self : lh_str_cursor_t) : outcome (lh_str_cursor_t * Z) :=
  skip_all (fun c => mret (lh_char_is_whitespace c)) self.

(** ** HTTP's character classes and the scans on a cursor *)

Definition lh_char_is_letter (ch : Z) : bool := lh_char_is_upper ch || lh_char_is_lower ch.
Definition lh_http_token_symbols : buffer :=
  [lh_char_map_exclamation; lh_char_map_hash; lh_char_map_dollar; lh_char_map_percent;
   lh_char_map_ampersand; lh_char_map_squote; lh_char_map_asterisk; lh_char_map_plus;
   lh_char_map_minus; lh_char_map_period; lh_char_map_caret; lh_char_map_underscore;
   lh_char_map_grave; lh_char_map_pipe; lh_char_map_tilde].
Definition lh_http_is_token_char (c : Z) : outcome bool :=
  if lh_char_is_letter c || lh_char_is_digit c then mret true else
  lh_str_ptr_contains_char lh_http_token_symbols (len lh_http_token_symbols) c.
Definition lh_http_is_target_char (c : Z) : bool :=
  (c >=? lh_char_map_exclamation) && (c <=? lh_char_map_tilde).
Definition lh_http_is_field_char (c : Z) : bool :=
  (c =? lh_char_map_ht) || ((c >=? lh_char_map_space) && negb (c =? lh_char_map_del)).

Definition lh_http_cursor_skip_ows (self : lh_str_cursor_t) : outcome (lh_str_cursor_t * Z) :=
  let chars := [lh_char_map_space; lh_char_map_ht] in
  skip_all (fun c => lh_str_ptr_contains_char chars 2 c) self.
Definition lh_http_cursor_skip_token (self : lh_str_cursor_t) : outcome (lh_str_cursor_t * Z) :=
  skip_all lh_http_is_token_char self.
Fixpoint quoted_loop (fuel : nat) (self : lh_str_cursor_t) : outcome (lh_str_cursor_t * bool) :=
  match fuel with
  | O => Undef
  | S fuel =>
    if lh_str_cursor_is_end self then lh_str_cursor_skip_char self lh_char_map_dquot else
    c ← lh_str_cursor_get_char self;
    if c =? lh_char_map_dquot then lh_str_cursor_skip_char self lh_char_map_dquot else
    '(self, escaped) ← lh_str_cursor_skip_char self lh_char_map_backslash;
    if escaped && lh_str_cursor_is_end self then mret (self, false) else
    c ← lh_str_cursor_get_char self;
    if negb (lh_http_is_field_char c) then mret (self, false) else
    quoted_loop fuel (lh_str_cursor_advance self 1)
  end.
Definition lh_http_cursor_try_skip_quoted (self : lh_str_cursor_t) : outcome (lh_str_cursor_t * bool) :=
  '(self, open) ← lh_str_cursor_skip_char self lh_char_map_dquot;
  if negb open then mret (self, false) else
  quoted_loop (S (length (cursor_text self))) self.
Definition lh_http_cursor_skip_quoted (self : lh_str_cursor_t) : outcome lh_str_cursor_t :=
  '(self, ok) ← lh_http_cursor_try_skip_quoted self;
  _ ← fail_ifn ok lh_runtime_error_code_invalid_range;
  mret self.

Example trim_ex : lh_str_view_trim [32; 9; 97; 32; 98; 13; 32] = Done [97; 32; 98].
Proof. vm_compute. done. Qed.
Example quoted_ex : lh_http_cursor_try_skip_quoted (mk_cursor [34; 97; 92; 34; 34; 59] 0)
  = Done (mk_cursor [34; 97; 92; 34; 34; 59] 5, true).
Proof. vm_compute. done. Qed.
Example fold_ex : mapM lh_char_fold_case [65; 122; 192; 215; 222; 223] = Done [97; 122; 224; 215; 254; 223].
Proof. vm_compute. done. Qed.
