(* ===== verification/ViewProofs.v ===== *)
(** * String views and cursors: correctness

    A cursor whose text is [pre ++ t] and whose position is after [pre] is [at_text pre t];
    each scan is then a function of [t] alone.  A run of characters of a class is the
    longest prefix in the class, [while_in], and what it leaves, [while_out]. *)
From S2P Require Import Prelude Buffer Bytes Digits Format StrPtr StrPtrProofs View.

(** Work out the lengths of concatenations. *)
Ltac lens := repeat progress (rewrite ?length_app in *; cbn [length] in * ).

(** ** Runs of a class *)

Fixpoint while_in (p : Z -> bool) (t : list Z) : list Z :=
  match t with [] => [] | c :: t => if p c then c :: while_in p t else [] end.
Fixpoint while_out (p : Z -> bool) (t : list Z) : list Z :=
  match t with [] => [] | c :: r => if p c then while_out p r else t end.
Definition all_in (p : Z -> bool) (t : list Z) : Prop := Forall (fun c => p c = true) t.
(** No character of the class comes first. *)
Definition stops (p : Z -> bool) (t : list Z) : Prop := match t with [] => True | c :: _ => p c = false end.

Lemma while_split p t : t = while_in p t ++ while_out p t.
Proof. induction t as [|c t IH]; simpl; [done|]. destruct (p c); simpl; [by rewrite <-IH|done]. Qed.
Lemma while_in_all p t : all_in p (while_in p t).
Proof. induction t as [|c t IH]; simpl; [constructor|]. destruct (p c) eqn:E; by constructor. Qed.
Lemma while_out_stops p t : stops p (while_out p t).
Proof. induction t as [|c t IH]; simpl; [done|]. by destruct (p c) eqn:E. Qed.
Lemma while_in_app p a t : all_in p a -> stops p t -> while_in p (a ++ t) = a.
Proof.
  induction 1 as [|c a Hc Ha IH]; simpl; intros Ht.
  - destruct t as [|c t]; simpl in *; [done|]. by rewrite Ht.
  - by rewrite Hc, IH.
Qed.
Lemma while_out_app p a t : all_in p a -> stops p t -> while_out p (a ++ t) = t.
Proof.
  induction 1 as [|c a Hc Ha IH]; simpl; intros Ht.
  - destruct t as [|c t]; simpl in *; [done|]. by rewrite Ht.
  - by rewrite Hc, IH.
Qed.
Lemma while_cases p t : exists a r, t = a ++ r /\ all_in p a /\ stops p r /\ while_in p t = a /\ while_out p t = r.
Proof.
  exists (while_in p t), (while_out p t). pose proof (while_split p t). pose proof (while_in_all p t).
  by pose proof (while_out_stops p t).
Qed.
Lemma while_out_length p t : (length (while_out p t) <= length t)%nat.
Proof. rewrite (while_split p t) at 2. rewrite length_app. lia. Qed.

(** ** Views *)

Lemma from_offset_app (a b c : list Z) i n : i = len a -> n = len b ->
  lh_str_view_from_offset (a ++ b ++ c) i n = Done b.
Proof.
  intros -> ->. unfold lh_str_view_from_offset, lh_str_view_get_size, fail_ifn, fail_if.
  rewrite !length_app, !(proj2 (Z.leb_le _ _)) by lia. cbn [negb]. rewrite !bind_done. f_equal.
  unfold lh_str_view_init_by_size. by rewrite !Nat2Z.id, drop_app_length, take_app_length.
Qed.
Lemma from_offset_prefix (a b : list Z) n : n = len a -> lh_str_view_from_offset (a ++ b) 0 n = Done a.
Proof. intros ->. by apply (from_offset_app [] a b). Qed.
Lemma from_offset_suffix (a b : list Z) i n : i = len a -> n = len b -> lh_str_view_from_offset (a ++ b) i n = Done b.
Proof. intros. rewrite <-(app_nil_r b) at 1. by apply from_offset_app. Qed.
Lemma view_is_empty (t : list Z) : lh_str_view_is_empty t = bool_decide (t = []).
Proof. by destruct t. Qed.

(** ** Cursors *)

Definition at_text (pre t : list Z) : lh_str_cursor_t := mk_cursor (pre ++ t) (len pre).
(** A text that fits in memory. *)
Definition fits (t : list Z) : Prop := len t < 18446744073709551615.

Lemma at_text_start t self : lh_str_cursor_init self t = at_text [] t.
Proof. done. Qed.
Lemma cursor_is_end pre t : lh_str_cursor_is_end (at_text pre t) = bool_decide (t = []).
Proof.
  unfold lh_str_cursor_is_end, lh_str_view_get_size. cbn [at_text cursor_text cursor_pos lh_str_cursor_get_pos lh_str_cursor_get_text].
  rewrite length_app, Z.geb_leb. destruct t as [|c t]; cbn [length].
  - by rewrite (proj2 (Z.leb_le _ _)) by lia.
  - by rewrite (proj2 (Z.leb_gt _ _)) by lia.
Qed.
Lemma cursor_get_char pre t : fits (pre ++ t) -> lh_str_cursor_get_char (at_text pre t) = Done (default 0 (head t)).
Proof.
  unfold fits, lh_str_cursor_get_char, lh_str_cursor_peek, lh_str_view_get_size, lh_str_view_get_char_from_begin.
  cbn [at_text cursor_text cursor_pos lh_str_cursor_get_pos lh_str_cursor_get_text]. intros Hf.
  rewrite Z.add_0_r, u64_id, Z.geb_leb by (rewrite length_app in Hf; zb).
  destruct t as [|c t]; cbn [length head default].
  - rewrite length_app. by rewrite (proj2 (Z.leb_le _ _)) by (simpl; lia).
  - rewrite length_app. rewrite (proj2 (Z.leb_gt _ _)) by (simpl; lia).
    unfold fail_ifn, fail_if, lh_str_view_get_size. rewrite length_app, (proj2 (Z.leb_le _ _)), (proj2 (Z.ltb_lt _ _)) by (simpl; lia).
    cbn [andb negb]. rewrite bind_done. apply load_ok.
    rewrite lookup_app_r by lia. rewrite Nat.sub_diag. reflexivity.
Qed.
Lemma cursor_advance pre w t n : fits (pre ++ w ++ t) -> n = len w ->
  lh_str_cursor_advance (at_text pre (w ++ t)) n = at_text (pre ++ w) t.
Proof.
  unfold fits, lh_str_cursor_advance, lh_str_cursor_get_left, lh_str_view_get_size, lh_str_cursor_set_pos, at_text.
  cbn [cursor_text cursor_pos lh_str_cursor_get_pos lh_str_cursor_get_text]. intros Hf ->.
  rewrite !length_app in *. rewrite (u64_id (_ - _)) by zb. rewrite u64_id by zb.
  rewrite app_assoc. f_equal. lia.
Qed.
Lemma cursor_next pre c t : fits (pre ++ c :: t) -> lh_str_cursor_advance (at_text pre (c :: t)) 1 = at_text (pre ++ [c]) t.
Proof. intros Hf. by apply (cursor_advance pre [c] t). Qed.
Lemma cursor_skip_char pre t ch : fits (pre ++ t) ->
  lh_str_cursor_skip_char (at_text pre t) ch
  = Done (match t with
          | c :: t' => if c =? ch then (at_text (pre ++ [c]) t', true) else (at_text pre t, false)
          | [] => (at_text pre t, false)
          end).
Proof.
  intros Hf. unfold lh_str_cursor_skip_char. rewrite cursor_is_end. destruct t as [|c t]; [done|].
  rewrite bool_decide_false by done. rewrite cursor_get_char, bind_done by done.
  change (default 0 (head (c :: t))) with c.
  destruct (Z.eqb_spec c ch); cbn [negb]; [by rewrite cursor_next|done].
Qed.
Lemma fits_assoc a b c : fits (a ++ b ++ c) <-> fits ((a ++ b) ++ c).
Proof. by rewrite app_assoc. Qed.

Section Skip.
Context (test : Z -> outcome bool) (p : Z -> bool) (test_ok : forall c, test c = Done (p c)).
Lemma skip_while_spec : forall fuel pre t, (length t < fuel)%nat -> fits (pre ++ t) ->
  skip_while fuel test (at_text pre t) = Done (at_text (pre ++ while_in p t) (while_out p t)).
Proof using test_ok.
  induction fuel as [|fuel IH]; intros pre t Hfuel Hf; [lia|]. cbn [skip_while].
  rewrite cursor_is_end. destruct t as [|c t]; [by rewrite app_nil_r|].
  rewrite bool_decide_false by done. rewrite cursor_get_char, bind_done, test_ok, bind_done by done.
  change (default 0 (head (c :: t))) with c. cbn [while_in while_out]. destruct (p c); [|by rewrite app_nil_r].
  rewrite cursor_next by done. rewrite IH, <-app_assoc; [done|cbn [length] in Hfuel; lia|].
  by apply fits_assoc.
Qed.
Lemma skip_all_spec pre t : fits (pre ++ t) ->
  skip_all test (at_text pre t) = Done (at_text (pre ++ while_in p t) (while_out p t), len (while_in p t)).
Proof using test_ok.
  intros Hf. unfold skip_all. rewrite skip_while_spec, bind_done; [|unfold at_text; cbn; rewrite length_app; lia|done].
  unfold lh_str_cursor_get_pos. cbn [at_text cursor_pos]. rewrite length_app. change (mret ?x) with (Done x). do 2 f_equal.
  unfold fits in Hf. rewrite (while_split p t), !length_app in Hf. rewrite u64_id by zb. lia.
Qed.
End Skip.

(** ** HTTP's classes *)

Definition is_tchar (c : Z) : bool :=
  lh_char_is_letter c || lh_char_is_digit c || bool_decide (c ∈ lh_http_token_symbols).
Definition is_ows (c : Z) : bool := (c =? 32) || (c =? 9).

Lemma contains_char_ok chars n ch : n = len chars -> lh_str_ptr_contains_char chars n ch = Done (bool_decide (ch ∈ chars)).
Proof.
  intros ->. unfold lh_str_ptr_contains_char, lh_str_ptr_find_of_char. rewrite (proj2 (Z.leb_le _ _)), Nat2Z.id by lia.
  change (mret ?x) with (Done x). rewrite bind_done, firstn_all. f_equal.
  induction chars as [|c chars IH]; [done|]. cbn [index_of]. destruct (Z.eqb_spec c ch) as [->|Hc].
  - rewrite bool_decide_true by (cbn; eauto). rewrite bool_decide_true by left. done.
  - rewrite (bool_decide_ext (ch ∈ c :: chars) (ch ∈ chars)) by (rewrite elem_of_cons; naive_solver).
    rewrite <-IH. apply bool_decide_ext. destruct (index_of _ chars); cbn; split; intros []; eauto; done.
Qed.
Lemma is_token_char_ok c : lh_http_is_token_char c = Done (is_tchar c).
Proof.
  unfold lh_http_is_token_char, is_tchar. destruct (lh_char_is_letter c || lh_char_is_digit c); [done|].
  by rewrite contains_char_ok.
Qed.
Lemma skip_token_spec pre t : fits (pre ++ t) ->
  lh_http_cursor_skip_token (at_text pre t) = Done (at_text (pre ++ while_in is_tchar t) (while_out is_tchar t), len (while_in is_tchar t)).
Proof. apply skip_all_spec. apply is_token_char_ok. Qed.
Lemma skip_ows_spec pre t : fits (pre ++ t) ->
  lh_http_cursor_skip_ows (at_text pre t) = Done (at_text (pre ++ while_in is_ows t) (while_out is_ows t), len (while_in is_ows t)).
Proof.
  apply skip_all_spec. intros c. rewrite contains_char_ok by done. f_equal. unfold is_ows.
  rewrite <-in_set_elem. cbn. rewrite orb_false_r. done.
Qed.

(** ** Trimming *)

Definition is_space (c : Z) : bool := bool_decide (c ∈ lh_str_view_get_whitespace).
Definition trim_end (v : list Z) : list Z := rev (while_out is_space (rev v)).
Definition trim (v : list Z) : list Z := trim_end (while_out is_space v).

Lemma index_of_while p t :
  index_of (fun c => negb (p c)) t = if decide (while_out p t = []) then None else Some (length (while_in p t)).
Proof.
  induction t as [|c t IH]; [done|]. cbn [index_of while_out while_in]. destruct (p c); cbn [negb length]; [|done].
  rewrite IH. by case_decide.
Qed.
Lemma trim_end_snoc v c : trim_end (v ++ [c]) = if is_space c then trim_end v else v ++ [c].
Proof.
  unfold trim_end. rewrite rev_app_distr. cbn [rev app while_out]. destruct (is_space c); [done|].
  change (c :: rev v) with ([c] ++ rev v). by rewrite rev_app_distr, rev_involutive.
Qed.
Lemma whitespace_bytes : is_bytes lh_str_view_get_whitespace.
Proof. unfold lh_str_view_get_whitespace, is_bytes. repeat (apply Forall_cons_2; [by vm_compute|]). apply Forall_nil_2. Qed.
Lemma rset_loop_trim set : set_is set lh_str_view_get_whitespace -> forall v fuel t,
  (length v <= fuel)%nat -> v <> [] -> is_bytes v -> fits (v ++ t) ->
  rset_loop (v ++ t) fuel false set (len v)
  = Done (if decide (trim_end v = []) then None else Some (len (trim_end v) - 1)).
Proof.
  intros Hset v. induction v as [|c v IH] using rev_ind; intros fuel t Hfuel Hne Hb Hf; [done|].
  unfold fits in Hf. rewrite !length_app in Hf. rewrite length_app in Hfuel. cbn [length] in *.
  destruct fuel as [|fuel]; [lia|]. cbn [rset_loop].
  rewrite length_app. cbn [length]. replace (Z.of_nat (length v + 1) - 1) with (len v) by lia.
  rewrite u64_id by zb. rewrite (load_ok _ _ c) by (rewrite <-app_assoc, lookup_app_r, Nat.sub_diag by lia; done).
  rewrite bind_done. apply Forall_app in Hb as [Hb Hc]. apply Forall_cons_1 in Hc as [Hc _]. rewrite (char_set_has_ok _ _ _ Hset Hc), bind_done.
  rewrite in_set_elem. fold (is_space c). rewrite trim_end_snoc. destruct (is_space c); cbn [eqb].
  - destruct (decide (v = [])) as [->|Hv]; [done|]. rewrite Z.gtb_ltb, (proj2 (Z.ltb_lt _ _)) by (destruct v; [done|cbn [length]; lia]).
    rewrite <-app_assoc. apply IH; [lia|done|done|]. unfold fits. rewrite !length_app. cbn [length]. lia.
  - rewrite decide_False by by destruct v. rewrite length_app. cbn [length]. change (mret ?x) with (Done x). do 2 f_equal. lia.
Qed.
Lemma rtrim_spec v : is_bytes v -> fits v -> lh_str_view_rtrim v = Done (trim_end v).
Proof.
  intros Hb Hf. unfold lh_str_view_rtrim. rewrite view_is_empty. case_bool_decide as Hne; [by subst|].
  unfold lh_str_view_rfind_not_of, lh_str_view_get_size, lh_str_ptr_rfind_not_of_chars.
  rewrite (proj2 (Z.eqb_neq _ _)) by by destruct v.
  rewrite chars_ascending_range_spec, bind_done by (done || apply whitespace_bytes).
  change (run_of lh_str_view_get_whitespace) with (@None (Z * Z)). cbv iota.
  destruct (fill_char_set_ok _ whitespace_bytes) as (set & -> & Hset). rewrite bind_done.
  pose proof (rset_loop_trim set Hset v (S (length v)) []) as H. rewrite app_nil_r in H.
  rewrite H, bind_done by (done || lia). change (mret ?x) with (Done x). rewrite bind_done. unfold fits in Hf.
  assert (len (trim_end v) <= len v).
  { unfold trim_end. rewrite length_rev. pose proof (while_out_length is_space (rev v)). rewrite length_rev in *. lia. }
  case_decide as Ht; cbn [default]; [by rewrite Z.eqb_refl, Ht|]. unfold id, LH_STR_VIEW_INVALID.
  rewrite (proj2 (Z.eqb_neq _ _)) by zb. rewrite Z.sub_add, u64_id by zb.
  pose proof (while_split is_space (rev v)) as E. apply (f_equal (@rev Z)) in E.
  rewrite rev_involutive, rev_app_distr in E. fold (trim_end v) in E. rewrite E at 1. by apply from_offset_prefix.
Qed.
Lemma ltrim_spec v : is_bytes v -> fits v -> lh_str_view_ltrim v = Done (while_out is_space v).
Proof.
  intros Hb Hf. unfold lh_str_view_ltrim. rewrite view_is_empty. case_bool_decide as Hne; [by subst|].
  unfold lh_str_view_find_not_of, lh_str_view_get_size.
  rewrite find_not_of_chars_spec, bind_done by (done || lia || apply whitespace_bytes).
  change (mret ?x) with (Done x). rewrite bind_done. unfold first_not_in. rewrite Nat2Z.id, firstn_all.
  rewrite (index_of_while is_space). case_decide as Ht; cbn; [by rewrite Ht|]. unfold id, LH_STR_VIEW_INVALID.
  pose proof (while_split is_space v) as E. unfold fits in Hf. pose proof (f_equal length E) as El. rewrite length_app in El.
  rewrite (proj2 (Z.eqb_neq _ _)) by zb. unfold lh_str_view_tail. rewrite view_is_empty, bool_decide_false by done.
  unfold lh_str_view_get_size, fail_if. rewrite Z.gtb_ltb, (proj2 (Z.ltb_ge _ _)), bind_done by lia.
  rewrite E at 1. apply from_offset_suffix; lia.
Qed.
Lemma while_out_bytes p t : is_bytes t -> is_bytes (while_out p t).
Proof. intros H. rewrite (while_split p t) in H. by apply Forall_app in H as [_ H]. Qed.
Lemma trim_spec v : is_bytes v -> fits v -> lh_str_view_trim v = Done (trim v).
Proof.
  intros Hb Hf. unfold lh_str_view_trim. rewrite ltrim_spec, bind_done by done. apply rtrim_spec.
  - by apply while_out_bytes.
  - unfold fits in *. pose proof (while_out_length is_space v). lia.
Qed.
