(* ===== verification/Http.v ===== *)
(** * HTTP message heads

    [http/parser.c] (lines, the start lines, the fields, with the limits and the error the
    parser keeps), [http/header.c], [http/request.c], [http/response.c], [http/version.c] and
    [http/method.c].  Theorems in [HttpProofs]. *)
From S2P Require Import Prelude Buffer Bytes Digits Format StrPtr View.

(** ** Fields, requests, responses *)

Record lh_http_header_t := mk_header { header_name : lh_str_view_t; header_value : lh_str_view_t }.
Definition lh_http_header_get_name := header_name.
Definition lh_http_header_set_name (self : lh_http_header_t) (v : lh_str_view_t) : lh_http_header_t := mk_header v (header_value self).
Definition lh_http_header_get_value := header_value.
Definition lh_http_header_set_value (self : lh_http_header_t) (v : lh_str_view_t) : lh_http_header_t := mk_header (header_name self) v.
Definition lh_http_header_set (self : lh_http_header_t) (name value : lh_str_view_t) : lh_http_header_t :=
  lh_http_header_set_value (lh_http_header_set_name self name) value.
(** The index of the field found, counted from [i]. *)
Fixpoint header_find_loop (n : nat) (headers : list lh_http_header_t) (i : Z) (name : lh_str_view_t) : outcome (option Z) :=
  match n with
  | O => mret None
  | S n =>
    h ← load headers i;
    same ← lh_str_view_equals (lh_http_header_get_name h) name true;
    if same : bool then mret (Some i) else header_find_loop n headers (i + 1) name
  end.
Definition lh_http_header_find (headers : list lh_http_header_t) (count : Z) (name : lh_str_view_t) : outcome (option Z) :=
  header_find_loop (Z.to_nat count) headers 0 name.

Record lh_http_request_t := mk_request {
  request_method : lh_str_view_t; request_target : lh_str_view_t;
  request_version_minor : Z; request_header_count : Z
}.
Definition lh_http_request_get_method := request_method.
Definition lh_http_request_set_method (self : lh_http_request_t) (v : lh_str_view_t) : lh_http_request_t :=
  mk_request v (request_target self) (request_version_minor self) (request_header_count self).
Definition lh_http_request_get_target := request_target.
Definition lh_http_request_set_target (self : lh_http_request_t) (v : lh_str_view_t) : lh_http_request_t :=
  mk_request (request_method self) v (request_version_minor self) (request_header_count self).
Definition lh_http_request_get_version_minor := request_version_minor.
Definition lh_http_request_set_version_minor (self : lh_http_request_t) (v : Z) : lh_http_request_t :=
  mk_request (request_method self) (request_target self) v (request_header_count self).
Definition lh_http_request_get_header_count := request_header_count.
Definition lh_http_request_set_header_count (self : lh_http_request_t) (v : Z) : lh_http_request_t :=
  mk_request (request_method self) (request_target self) (request_version_minor self) v.

(** The parts before and after the first [delim], when there is one. *)
Definition lh_str_view_split_once (self : lh_str_view_t) (delim : Z) : outcome (option (lh_str_view_t * lh_str_view_t)) :=
  if lh_str_view_is_empty self then mret None else
  at_ ← lh_str_view_find_char self delim;
  if at_ =? LH_STR_VIEW_INVALID then mret None else
  head ← lh_str_view_from_offset self 0 at_;
  tail ← lh_str_view_tail self (u64 (at_ + 1));
  mret (Some (head, tail)).
Definition lh_http_request_get_path (self : lh_http_request_t) : outcome lh_str_view_t :=
  let target := lh_http_request_get_target self in
  r ← lh_str_view_split_once target lh_char_map_question;
  mret (match r with Some (path, _) => path | None => target end).

Definition lh_http_method_get : Z := 0.
Definition lh_http_method_head : Z := 1.
Definition lh_http_method_post : Z := 2.
Definition lh_http_method_put : Z := 3.
Definition lh_http_method_delete : Z := 4.
Definition lh_http_method_connect : Z := 5.
Definition lh_http_method_options : Z := 6.
Definition lh_http_method_trace : Z := 7.
Definition lh_http_method_patch : Z := 8.
Definition lh_http_method_get_name (method : Z) : lh_str_view_t :=
  if method =? lh_http_method_get then [71; 69; 84] else
  if method =? lh_http_method_head then [72; 69; 65; 68] else
  if method =? lh_http_method_post then [80; 79; 83; 84] else
  if method =? lh_http_method_put then [80; 85; 84] else
  if method =? lh_http_method_delete then [68; 69; 76; 69; 84; 69] else
  if method =? lh_http_method_connect then [67; 79; 78; 78; 69; 67; 84] else
  if method =? lh_http_method_options then [79; 80; 84; 73; 79; 78; 83] else
  if method =? lh_http_method_trace then [84; 82; 65; 67; 69] else
  if method =? lh_http_method_patch then [80; 65; 84; 67; 72] else [].
Definition lh_http_request_is_method (self : lh_http_request_t) (method : Z) : outcome bool :=
  let actual := lh_http_request_get_method self in
  let name := lh_http_method_get_name method in
  if lh_str_view_is_empty name then mret false else lh_str_view_equals actual name false.

Record lh_http_response_t := mk_response {
  response_reason : lh_str_view_t; response_status : Z;
  response_version_minor : Z; response_header_count : Z
}.
Definition lh_http_response_get_reason := response_reason.
Definition lh_http_response_set_reason (self : lh_http_response_t) (v : lh_str_view_t) : lh_http_response_t :=
  mk_response v (response_status self) (response_version_minor self) (response_header_count self).
Definition lh_http_response_get_status := response_status.
Definition lh_http_response_set_status (self : lh_http_response_t) (v : Z) : lh_http_response_t :=
  mk_response (response_reason self) v (response_version_minor self) (response_header_count self).
Definition lh_http_response_get_version_minor := response_version_minor.
Definition lh_http_response_set_version_minor (self : lh_http_response_t) (v : Z) : lh_http_response_t :=
  mk_response (response_reason self) (response_status self) v (response_header_count self).
Definition lh_http_response_get_header_count := response_header_count.
Definition lh_http_response_set_header_count (self : lh_http_response_t) (v : Z) : lh_http_response_t :=
  mk_response (response_reason self) (response_status self) (response_version_minor self) v.

(** The minor version of "HTTP/1.n". *)
Definition version_prefix : lh_str_view_t := [72; 84; 84; 80; 47; 49; 46].
Definition lh_http_parse_version (text : lh_str_view_t) : outcome (option Z) :=
  if negb (lh_str_view_get_size text =? 8) then mret None else
  same ← lh_str_view_starts_with text version_prefix false;
  if negb same then mret None else
  c ← lh_str_view_get_char_from_begin text 7;
  if negb (lh_char_is_digit c) then mret None else
  d ← lh_char_to_digit c;
  mret (Some d).

(** ** The parser *)

Definition lh_http_parse_incomplete : Z := 0.
Definition lh_http_parse_complete : Z := 1.
Definition lh_http_parse_error : Z := 2.
Definition lh_http_error_none : Z := 0.
Definition lh_http_error_argument : Z := 1.
Definition lh_http_error_line_ending : Z := 2.
Definition lh_http_error_start_line : Z := 3.
Definition lh_http_error_header : Z := 4.
Definition lh_http_error_head_size : Z := 5.
Definition lh_http_error_line_size : Z := 6.
Definition lh_http_error_header_capacity : Z := 7.

Record lh_http_parser_t := mk_parser {
  head_size_max : Z; line_size_max : Z; consumed : Z; error_offset : Z; error : Z
}.
Definition lh_http_parser_get_head_size_max := head_size_max.
Definition lh_http_parser_set_head_size_max (self : lh_http_parser_t) (v : Z) : lh_http_parser_t :=
  mk_parser v (line_size_max self) (consumed self) (error_offset self) (error self).
Definition lh_http_parser_get_line_size_max := line_size_max.
Definition lh_http_parser_set_line_size_max (self : lh_http_parser_t) (v : Z) : lh_http_parser_t :=
  mk_parser (head_size_max self) v (consumed self) (error_offset self) (error self).
Definition lh_http_parser_get_consumed (self : option lh_http_parser_t) : Z :=
  match self with Some self => consumed self | None => 0 end.
Definition lh_http_parser_set_consumed (self : lh_http_parser_t) (v : Z) : lh_http_parser_t :=
  mk_parser (head_size_max self) (line_size_max self) v (error_offset self) (error self).
Definition lh_http_parser_get_error_offset (self : option lh_http_parser_t) : Z :=
  match self with Some self => error_offset self | None => 0 end.
Definition lh_http_parser_set_error_offset (self : lh_http_parser_t) (v : Z) : lh_http_parser_t :=
  mk_parser (head_size_max self) (line_size_max self) (consumed self) v (error self).
Definition lh_http_parser_get_error (self : option lh_http_parser_t) : Z :=
  match self with Some self => error self | None => lh_http_error_argument end.
Definition lh_http_parser_set_error (self : lh_http_parser_t) (v : Z) : lh_http_parser_t :=
  mk_parser (head_size_max self) (line_size_max self) (consumed self) (error_offset self) v.

Definition lh_http_parser_set_limits (self : option lh_http_parser_t) (head_size_max line_size_max : Z)
    : option lh_http_parser_t :=
  (fun self => lh_http_parser_set_line_size_max (lh_http_parser_set_head_size_max self head_size_max) line_size_max) <$> self.
Definition lh_http_parser_fail (self : lh_http_parser_t) (error offset : Z) : lh_http_parser_t * Z :=
  let self := lh_http_parser_set_error self error in
  let self := lh_http_parser_set_error_offset self offset in
  (self, lh_http_parse_error).
(** [output_set], [headers_set]: whether the pointers are not null; a view of an array is valid. *)
Definition lh_http_parser_begin (self : option lh_http_parser_t) (output_set headers_set : bool) (capacity : Z)
    : option lh_http_parser_t * bool :=
  match self with
  | None => (None, false)
  | Some self =>
    let self := lh_http_parser_set_consumed self 0 in
    let self := lh_http_parser_set_error_offset self 0 in
    let self := lh_http_parser_set_error self lh_http_error_none in
    if negb output_set || (negb headers_set && negb (capacity =? 0)) ||
       (lh_http_parser_get_head_size_max self =? 0) || (lh_http_parser_get_line_size_max self =? 0)
    then (Some (lh_http_parser_set_error self lh_http_error_argument), false)
    else (Some self, true)
  end.
Definition lh_http_parser_init (self : option lh_http_parser_t) : option lh_http_parser_t :=
  let self := lh_http_parser_set_limits self 8192 4096 in
  (fun self =>
    let self := lh_http_parser_set_consumed self 0 in
    let self := lh_http_parser_set_error_offset self 0 in
    lh_http_parser_set_error self lh_http_error_none) <$> self.

(** The loop of [lh_http_parser_find_line]: the status and the end, or [None] at the limit. *)
Fixpoint line_loop (fuel : nat) (self : lh_http_parser_t) (text : buffer) (start limit i end_ : Z)
    : outcome (option (lh_http_parser_t * Z * Z)) :=
  match fuel with
  | O => Undef
  | S fuel =>
    if i <? limit then
      c ← load text i;
      if c =? lh_char_map_lf then
        let '(self, status) := lh_http_parser_fail self lh_http_error_line_ending i in mret (Some (self, status, end_))
      else if c =? lh_char_map_cr then
        if i + 1 =? limit then mret None else
        d ← load text (i + 1);
        if negb (d =? lh_char_map_lf) then
          let '(self, status) := lh_http_parser_fail self lh_http_error_line_ending (i + 1) in mret (Some (self, status, end_))
        else mret (Some (self, lh_http_parse_complete, i))
      else if i - start >=? lh_http_parser_get_line_size_max self then
        let '(self, status) := lh_http_parser_fail self lh_http_error_line_size i in mret (Some (self, status, end_))
      else line_loop fuel self text start limit (i + 1) end_
    else mret None
  end.
(** The parser, the status, and [*end]. *)
Definition lh_http_parser_find_line (self : lh_http_parser_t) (input : lh_str_view_t) (start end_ : Z)
    : outcome (lh_http_parser_t * Z * Z) :=
  let text := lh_str_view_get_data input in
  let size := lh_str_view_get_size input in
  let head_size_max := lh_http_parser_get_head_size_max self in
  let limit := Z.min size head_size_max in
  r ← line_loop (S (length input)) self text start limit start end_;
  match r with
  | Some r => mret r
  | None =>
    if size >=? head_size_max then
      let '(self, status) := lh_http_parser_fail self lh_http_error_head_size head_size_max in mret (self, status, end_)
    else mret (self, lh_http_parse_incomplete, end_)
  end.

(** [while (i < end && is_token_char(text[i])) ++i] *)
Fixpoint token_end (fuel : nat) (text : buffer) (end_ i : Z) : outcome Z :=
  match fuel with
  | O => Undef
  | S fuel =>
    if i <? end_ then
      c ← load text i;
      t ← lh_http_is_token_char c;
      if t : bool then token_end fuel text end_ (i + 1) else mret i
    else mret i
  end.
(** The first byte that fails [ok] before [end_], if any. *)
Fixpoint bad_char (fuel : nat) (ok : Z -> bool) (text : buffer) (end_ i : Z) : outcome (option Z) :=
  match fuel with
  | O => Undef
  | S fuel =>
    if i <? end_ then
      c ← load text i;
      if negb (ok c) then mret (Some i) else bad_char fuel ok text end_ (i + 1)
    else mret None
  end.
(** The loop over the target: where it ends, or the byte that does not belong in it. *)
Fixpoint target_end (fuel : nat) (text : buffer) (end_ i : Z) : outcome (Z + Z) :=
  match fuel with
  | O => Undef
  | S fuel =>
    if i <? end_ then
      c ← load text i;
      if c =? lh_char_map_space then mret (inl i) else
      if negb (lh_http_is_target_char c) then mret (inr i) else target_end fuel text end_ (i + 1)
    else mret (inl i)
  end.

Definition lh_http_parser_parse_request_line (self : lh_http_parser_t) (input : lh_str_view_t) (end_ : Z)
    (request : lh_http_request_t) : outcome (lh_http_parser_t * lh_http_request_t * Z) :=
  let fuel := S (length input) in
  let text := lh_str_view_get_data input in
  let fail at_ := let '(self, status) := lh_http_parser_fail self lh_http_error_start_line at_ in
                  mret (self, request, status) : outcome _ in
  method ← token_end fuel text end_ 0;
  no_space ← (if (method =? 0) || (method =? end_) then mret true
              else c ← load text method; mret (negb (c =? lh_char_map_space)));
  if no_space : bool then fail method else
  let target := method + 1 in
  v ← target_end fuel text end_ target;
  match v with
  | inr bad => fail bad
  | inl version =>
    if (version =? target) || (version =? end_) then fail version else
    part ← lh_str_view_from_offset input (version + 1) (end_ - version - 1);
    minor ← lh_http_parse_version part;
    match minor with
    | None => fail version
    | Some minor =>
      let request := lh_http_request_set_version_minor request minor in
      part ← lh_str_view_from_offset input 0 method;
      let request := lh_http_request_set_method request part in
      part ← lh_str_view_from_offset input target (version - target);
      let request := lh_http_request_set_target request part in
      mret (self, request, lh_http_parse_complete)
    end
  end.
Definition lh_http_parser_parse_status_line (self : lh_http_parser_t) (input : lh_str_view_t) (end_ : Z)
    (response : lh_http_response_t) : outcome (lh_http_parser_t * lh_http_response_t * Z) :=
  let text := lh_str_view_get_data input in
  let fail at_ := let '(self, status) := lh_http_parser_fail self lh_http_error_start_line at_ in
                  mret (self, response, status) : outcome _ in
  if end_ <? 13 then fail 0 else
  part ← lh_str_view_from_offset input 0 8;
  minor ← lh_http_parse_version part;
  match minor with
  | None => fail 0
  | Some minor =>
    c8 ← load text 8;
    c9 ← load text 9;
    c10 ← load text 10;
    c11 ← load text 11;
    c12 ← load text 12;
    if negb (c8 =? lh_char_map_space) || (c9 <? lh_char_map_digit_1) || (c9 >? lh_char_map_digit_5) ||
       negb (lh_char_is_digit c10) || negb (lh_char_is_digit c11) || negb (c12 =? lh_char_map_space) then fail 0 else
    bad ← bad_char (S (length input)) lh_http_is_field_char text end_ 13;
    match bad with
    | Some i => fail i
    | None =>
      let response := lh_http_response_set_version_minor response minor in
      d9 ← lh_char_to_digit c9;
      d10 ← lh_char_to_digit c10;
      d11 ← lh_char_to_digit c11;
      let response := lh_http_response_set_status response (u16 (d9 * 100 + d10 * 10 + d11)) in
      part ← lh_str_view_from_offset input 13 (end_ - 13);
      let response := lh_http_response_set_reason response part in
      mret (self, response, lh_http_parse_complete)
    end
  end.
Definition lh_http_parser_parse_field (self : lh_http_parser_t) (input : lh_str_view_t) (begin end_ : Z)
    (header : lh_http_header_t) : outcome (lh_http_parser_t * lh_http_header_t * Z) :=
  let fuel := S (length input) in
  let text := lh_str_view_get_data input in
  let fail at_ := let '(self, status) := lh_http_parser_fail self lh_http_error_header at_ in
                  mret (self, header, status) : outcome _ in
  colon ← token_end fuel text end_ begin;
  no_colon ← (if (colon =? begin) || (colon =? end_) then mret true
              else c ← load text colon; mret (negb (c =? lh_char_map_colon)));
  if no_colon : bool then fail colon else
  bad ← bad_char fuel lh_http_is_field_char text end_ (colon + 1);
  match bad with
  | Some i => fail i
  | None =>
    part ← lh_str_view_from_offset input begin (colon - begin);
    let header := lh_http_header_set_name header part in
    part ← lh_str_view_from_offset input (colon + 1) (end_ - colon - 1);
    part ← lh_str_view_trim part;
    let header := lh_http_header_set_value header part in
    mret (self, header, lh_http_parse_complete)
  end.

Definition no_header : lh_http_header_t := mk_header [] [].
(** The field is a local; [*count] is written on success alone. *)
Fixpoint fields_loop (fuel : nat) (self : lh_http_parser_t) (input : lh_str_view_t) (offset : Z)
    (headers : list lh_http_header_t) (capacity number count : Z)
    : outcome (lh_http_parser_t * list lh_http_header_t * Z * Z) :=
  match fuel with
  | O => Undef
  | S fuel =>
    '(self, status, end_) ← lh_http_parser_find_line self input offset 0;
    if negb (status =? lh_http_parse_complete) then mret (self, headers, count, status) else
    if end_ =? offset then mret (lh_http_parser_set_consumed self (end_ + 2), headers, number, lh_http_parse_complete) else
    '(self, field, status) ← lh_http_parser_parse_field self input offset end_ no_header;
    if negb (status =? lh_http_parse_complete) then mret (self, headers, count, status) else
    if number =? capacity then
      let '(self, status) := lh_http_parser_fail self lh_http_error_header_capacity offset in
      mret (self, headers, count, status)
    else
    headers ← put headers number field;
    fields_loop fuel self input (end_ + 2) headers capacity (number + 1) count
  end.
Definition lh_http_parser_parse_fields (self : lh_http_parser_t) (input : lh_str_view_t) (offset : Z)
    (headers : list lh_http_header_t) (capacity count : Z)
    : outcome (lh_http_parser_t * list lh_http_header_t * Z * Z) :=
  fields_loop (S (length input)) self input offset headers capacity 0 count.

(** The start line, then the fields: what a request and a response share.  A null array of
    fields goes with a capacity of 0. *)
Definition parse_head {R} (parse_line : lh_http_parser_t -> lh_str_view_t -> Z -> R -> outcome (lh_http_parser_t * R * Z))
    (set_count : R -> Z -> R) (self : option lh_http_parser_t) (input : lh_str_view_t) (message : option R)
    (headers : option (list lh_http_header_t)) (header_capacity : Z)
    : outcome (option lh_http_parser_t * option R * option (list lh_http_header_t) * Z) :=
  match lh_http_parser_begin self (bool_decide (is_Some message)) (bool_decide (is_Some headers)) header_capacity with
  | (Some self, true) =>
    r ← assert_set message;
    '(self, status, end_) ← lh_http_parser_find_line self input 0 0;
    if negb (status =? lh_http_parse_complete) then mret (Some self, Some r, headers, status) else
    '(self, r, status) ← parse_line self input end_ r;
    if negb (status =? lh_http_parse_complete) then mret (Some self, Some r, headers, status) else
    '(self, hs, count, status) ←
      lh_http_parser_parse_fields self input (end_ + 2) (default [] headers) header_capacity 0;
    let headers := (fun _ => hs) <$> headers in
    if negb (status =? lh_http_parse_complete) then mret (Some self, Some r, headers, status) else
    mret (Some self, Some (set_count r count), headers, status)
  | (self, _) => mret (self, message, headers, lh_http_parse_error)
  end.
Definition lh_http_parser_request := parse_head lh_http_parser_parse_request_line lh_http_request_set_header_count.
Definition lh_http_parser_response := parse_head lh_http_parser_parse_status_line lh_http_response_set_header_count.
