(* ===== verification/HttpProofs.v ===== *)
(** * HTTP message heads: correctness

    A head is lines that end in CR LF.  [find_line] is the search for the end of a line as
    a function of the text that is visible within the limits; the scans of a line are runs
    of a class.  From these: what [parse_field] and the parsers of the start lines accept. *)
From S2P Require Import Prelude Buffer Bytes Digits Format StrPtr StrPtrProofs View ViewProofs Http.

Definition CR : Z := 13.
Definition LF : Z := 10.
(** Neither of the two characters that end a line. *)
Definition plain (line : list Z) : Prop := Forall (fun c => c <> CR /\ c <> LF) line.
Definition is_token (t : list Z) : Prop := t <> [] /\ all_in is_tchar t.
(** The line of a field. *)
Inductive field_line : list Z -> Prop :=
  | field_line_intro name value : is_token name -> all_in lh_http_is_field_char value -> field_line (name ++ 58 :: value).

(** ** Scans *)

Lemma token_end_spec post : forall fuel pre t, (length t < fuel)%nat ->
  token_end fuel (pre ++ t ++ post) (len (pre ++ t)) (len pre) = Done (len (pre ++ while_in is_tchar t)).
Proof.
  induction fuel as [|fuel IH]; intros pre t Hf; [lia|]. cbn [token_end]. destruct t as [|c t].
  { rewrite app_nil_r. cbn [while_in]. by rewrite app_nil_r, Z.ltb_irrefl. }
  rewrite (proj2 (Z.ltb_lt _ _)) by (rewrite length_app; cbn [length]; lia).
  rewrite (load_ok _ _ c) by (rewrite lookup_app_r, Nat.sub_diag by lia; done).
  rewrite bind_done, is_token_char_ok, bind_done. cbn [while_in length] in *.
  destruct (is_tchar c); [|by rewrite app_nil_r]. specialize (IH (pre ++ [c]) t). rewrite <-!app_assoc in IH. cbn [app] in IH.
  replace (len (pre ++ [c])) with (len pre + 1) in IH by (rewrite length_app; cbn [length]; lia). apply IH. lia.
Qed.
Lemma bad_char_spec ok post : forall fuel pre t, (length t < fuel)%nat ->
  bad_char fuel ok (pre ++ t ++ post) (len (pre ++ t)) (len pre)
  = Done (if decide (while_out ok t = []) then None else Some (len (pre ++ while_in ok t))).
Proof.
  induction fuel as [|fuel IH]; intros pre t Hf; [lia|]. cbn [bad_char]. destruct t as [|c t].
  { rewrite app_nil_r. cbn [while_in]. by rewrite Z.ltb_irrefl. }
  rewrite (proj2 (Z.ltb_lt _ _)) by (rewrite length_app; cbn [length]; lia).
  rewrite (load_ok _ _ c) by (rewrite lookup_app_r, Nat.sub_diag by lia; done).
  rewrite bind_done. cbn [while_in while_out length] in *. destruct (ok c); cbn [negb]; [|by rewrite app_nil_r].
  specialize (IH (pre ++ [c]) t). rewrite <-!app_assoc in IH. cbn [app] in IH.
  replace (len (pre ++ [c])) with (len pre + 1) in IH by (rewrite length_app; cbn [length]; lia). apply IH. lia.
Qed.
Lemma while_out_nil p t : while_out p t = [] <-> all_in p t.
Proof.
  split; intros H.
  - rewrite (while_split p t), H, app_nil_r. apply while_in_all.
  - rewrite <-(app_nil_r t). by apply while_out_app.
Qed.

(** ** Lines *)

(** What the search finds from some point on: the number of characters before the CR LF,
    nothing, or an error at a character. *)
Inductive line_end := Found (n : nat) | More | Wrong (error : Z) (at_ : nat).
Definition line_next (r : line_end) : line_end :=
  match r with Found n => Found (S n) | More => More | Wrong e n => Wrong e (S n) end.
(** [seen] characters of the line came before, [t] is visible. *)
Fixpoint find_line (line_max seen : Z) (t : list Z) : line_end :=
  match t with
  | [] => More
  | c :: t =>
    if c =? LF then Wrong lh_http_error_line_ending 0
    else if c =? CR then
      match t with
      | [] => More
      | d :: _ => if d =? LF then Found 0 else Wrong lh_http_error_line_ending 1
      end
    else if seen >=? line_max then Wrong lh_http_error_line_size 0
    else line_next (find_line line_max (seen + 1) t)
  end.
Lemma find_line_found m : forall t seen n, find_line m seen t = Found n <->
  exists line rest, t = line ++ CR :: LF :: rest /\ plain line /\ n = length line /\ (line <> [] -> seen + len line <= m).
Proof.
  induction t as [|c t IH]; intros seen n; cbn [find_line].
  { split; [done|]. intros (line & rest & E & _). by destruct line. }
  assert (forall P : Prop, P -> (exists line rest, c :: t = line ++ CR :: LF :: rest /\ plain line /\ n = length line /\
    (line <> [] -> seen + len line <= m)) -> (c = CR /\ exists rest, t = LF :: rest /\ n = 0%nat) \/
    (c <> CR /\ c <> LF /\ exists line rest, t = line ++ CR :: LF :: rest /\ plain line /\ n = S (length line) /\ seen + 1 + len line <= m)) as Hcase.
  { intros _ _ (line & rest & E & Hp & -> & Hm). destruct line as [|d line]; injection E as -> ->; [left; eauto|right].
    apply Forall_cons_1 in Hp as [[Hc Hl] Hp]. split_and!; try done. exists line, rest. split_and!; try done.
    specialize (Hm ltac:(done)). cbn [length] in Hm. lia. }
  specialize (Hcase True I).
  destruct (Z.eqb_spec c LF) as [->|Hlf]; [split; [done|]; intros [[? _]|(_ & ? & _)]%Hcase; done|].
  destruct (Z.eqb_spec c CR) as [->|Hcr].
  { destruct t as [|d t]; [split; [done|]; intros [(_ & ? & ? & _)|[]]%Hcase; done|]. destruct (Z.eqb_spec d LF) as [->|].
    - split; [intros [= <-]; exists [], t; split_and!; [done|apply Forall_nil_2|done|done]|]. by intros [(_ & ? & _ & ->)|[]]%Hcase.
    - split; [done|]. intros [(_ & ? & [= ->] & _)|[]]%Hcase; done. }
  rewrite Z.geb_leb. destruct (Z.leb_spec m seen).
  { split; [done|]. intros [[]|(_ & _ & line & rest & _ & _ & _ & ?)]%Hcase; [done|lia]. }
  split.
  - intros E. destruct (find_line m (seen + 1) t) as [k| |] eqn:Ek; try done. injection E as <-.
    apply IH in Ek as (line & rest & -> & Hp & -> & Hm). exists (c :: line), rest. split_and!; try done.
    { by constructor. } intros _. cbn [length]. destruct line; [cbn [length]; lia|]. specialize (Hm ltac:(done)). cbn [length] in *. lia.
  - intros [[]|(_ & _ & line & rest & Et & Hp & -> & Hm)]%Hcase; [done|].
    by rewrite (proj2 (IH (seen + 1) (length line))) by eauto 10.
Qed.

(** What was found does not change as more text arrives. *)
Lemma find_line_app m ext : forall t seen, find_line m seen t <> More -> find_line m seen (t ++ ext) = find_line m seen t.
Proof.
  induction t as [|c t IH]; intros seen H; [done|]. cbn [app find_line] in *. destruct (c =? LF); [done|].
  destruct (c =? CR); [by destruct t|]. destruct (seen >=? m); [done|]. rewrite IH; [done|]. intros E. by rewrite E in H.
Qed.
(** A line that has not arrived in full. *)
Lemma find_line_more m : forall line t ext seen, plain line -> t ++ ext = line ++ [CR; LF] -> ext <> [] ->
  (line <> [] -> seen + len line <= m) -> find_line m seen t = More.
Proof.
  induction line as [|c line IH]; intros t ext seen Hp E Hne Hm.
  - destruct t as [|a [|b t]]; [done| |]; cbn [app] in E; [by injection E as -> ->|]. injection E as -> -> E.
    by destruct t, ext.
  - destruct t as [|a t]; [done|]. injection E as -> E. apply Forall_cons_1 in Hp as [[Hc Hl] Hp]. cbn [find_line].
    specialize (Hm ltac:(done)). cbn [length] in Hm.
    rewrite (proj2 (Z.eqb_neq _ _) Hl), (proj2 (Z.eqb_neq _ _) Hc), Z.geb_leb, (proj2 (Z.leb_gt _ _)) by lia.
    by rewrite (IH t ext) by (done || lia).
Qed.

(** Text that is the start of a line of at most [m] characters and its end, not all of it. *)
Definition open_line (m : Z) (t : list Z) : Prop :=
  exists line, plain line /\ (t = line \/ t = line ++ [CR]) /\ (line <> [] -> len line <= m).
Lemma find_line_open m : forall t seen, find_line m seen t = More <->
  exists line, plain line /\ (t = line \/ t = line ++ [CR]) /\ (line <> [] -> seen + len line <= m).
Proof.
  induction t as [|c t IH]; intros seen; cbn [find_line].
  { split; [|done]. intros _. exists []. split_and!; [apply Forall_nil_2|by left|done]. }
  destruct (Z.eqb_spec c LF) as [->|Hlf].
  { split; [done|]. intros (line & Hp & [<-|E] & _); [by apply Forall_cons_1 in Hp as [[_ ?] _]|].
    destruct line as [|d line]; [done|]. injection E as <- _. by apply Forall_cons_1 in Hp as [[_ ?] _]. }
  destruct (Z.eqb_spec c CR) as [->|Hcr].
  { assert ((exists line, plain line /\ (CR :: t = line \/ CR :: t = line ++ [CR]) /\ (line <> [] -> seen + len line <= m)) <-> t = []) as ->.
    { split; [|intros ->; exists []; split_and!; [apply Forall_nil_2|by right|done]]. intros (line & Hp & [<-|E] & _); [by apply Forall_cons_1 in Hp as [[? _] _]|].
      destruct line as [|d line]; [by injection E|]. injection E as <- _. by apply Forall_cons_1 in Hp as [[? _] _]. }
    destruct t as [|d t]; [done|]. by destruct (d =? LF). }
  assert ((exists line, plain line /\ (c :: t = line \/ c :: t = line ++ [CR]) /\ (line <> [] -> seen + len line <= m)) <->
    seen < m /\ find_line m (seen + 1) t = More) as ->.
  { rewrite IH. split.
    - intros (line & Hp & Ht & Hm). destruct line as [|c' line]; [destruct Ht as [?|Ht]; [done|by injection Ht]|].
      specialize (Hm ltac:(done)). cbn [length] in Hm. split; [lia|]. apply Forall_cons_1 in Hp as [_ Hp]. exists line. split_and!; [done| |lia].
      destruct Ht as [Ht|Ht]; injection Ht as _ ->; auto.
    - intros (Hl & line & Hp & Ht & Hm). exists (c :: line). split_and!; [by constructor|destruct Ht as [->| ->]; auto|].
      intros _. cbn [length]. destruct line; [cbn [length]; lia|]. specialize (Hm ltac:(done)). cbn [length] in *. lia. }
  rewrite Z.geb_leb. destruct (Z.leb_spec m seen); [split; [done|lia]|]. destruct (find_line m (seen + 1) t); cbn [line_next]; naive_solver.
Qed.
Lemma open_line_more m t : open_line m t <-> find_line m 0 t = More.
Proof. by rewrite find_line_open. Qed.
(** It has no end of a line in it. *)
Lemma open_line_ends m line tl : plain line -> ~ open_line m (line ++ CR :: LF :: tl).
Proof.
  intros Hp (l & Hl & H & Hm). assert (find_line (len line + m) 0 (line ++ CR :: LF :: tl) = Found (length line)) as Hf.
  { apply find_line_found. exists line, tl. split_and!; try done. intros _. destruct l; cbn [length] in *; [|specialize (Hm ltac:(done)); lia].
    destruct H as [H|H]; [by destruct line|]. destruct line as [|c line]; [done|]. by destruct line. }
  assert (find_line (len line + m) 0 (line ++ CR :: LF :: tl) = More) as Ho; [|congruence]. apply find_line_open.
  exists l. split_and!; try done. intros Hn. specialize (Hm Hn). lia.
Qed.

Definition set_failed (self : lh_http_parser_t) (error at_ : Z) : lh_http_parser_t := fst (lh_http_parser_fail self error at_).
Lemma line_loop_spec self m post end_ start : lh_http_parser_get_line_size_max self = m ->
  forall t fuel pre, (length t < fuel)%nat ->
  line_loop fuel self (pre ++ t ++ post) start (len (pre ++ t)) (len pre) end_
  = Done (match find_line m (len pre - start) t with
          | Found n => Some (self, lh_http_parse_complete, len pre + Z.of_nat n)
          | More => None
          | Wrong e n => Some (set_failed self e (len pre + Z.of_nat n), lh_http_parse_error, end_)
          end).
Proof.
  intros Hm. induction t as [|c t IH]; intros fuel pre Hf; (destruct fuel as [|fuel]; [cbn [length] in Hf; lia|]); cbn [line_loop find_line].
  { rewrite app_nil_r. by rewrite Z.ltb_irrefl. }
  rewrite (proj2 (Z.ltb_lt _ _)) by (rewrite length_app; cbn [length]; lia).
  rewrite (load_ok _ _ c) by (rewrite lookup_app_r, Nat.sub_diag by lia; done). rewrite bind_done.
  change lh_char_map_lf with LF. change lh_char_map_cr with CR.
  destruct (Z.eqb_spec c LF) as [->|]; [by rewrite Z.add_0_r|]. destruct (Z.eqb_spec c CR) as [->|].
  { destruct t as [|d t].
    - rewrite (proj2 (Z.eqb_eq _ _)) by (rewrite length_app; cbn [length]; lia). done.
    - rewrite (proj2 (Z.eqb_neq _ _)) by (rewrite length_app; cbn [length]; lia).
      cbn [app]. rewrite cons_middle, (app_assoc pre [CR]). replace (len pre + 1) with (len (pre ++ [CR])) by (rewrite length_app; cbn [length]; lia).
      rewrite (load_ok _ _ d) by (rewrite lookup_app_r, Nat.sub_diag by lia; done). rewrite bind_done.
      destruct (Z.eqb_spec d LF); cbn [negb]; [by rewrite Z.add_0_r|]. replace (len pre + Z.of_nat 1) with (len (pre ++ [CR])) by (rewrite length_app; cbn [length]; lia). done. }
  rewrite Hm. destruct (len pre - start >=? m); [by rewrite Z.add_0_r|].
  specialize (IH fuel (pre ++ [c])). rewrite <-!app_assoc in IH. cbn [app] in IH.
  replace (len (pre ++ [c])) with (len pre + 1) in IH by (rewrite length_app; cbn [length]; lia). 
  cbn [app]. rewrite IH by (cbn [length] in Hf; lia). replace (len pre + 1 - start) with (len pre - start + 1) by lia.
  destruct (find_line m (len pre - start + 1) t) as [k| |e k]; cbn [line_next]; [|done|];
    by replace (len pre + Z.of_nat (S k)) with (len pre + 1 + Z.of_nat k) by lia.
Qed.

(** The part of [t] that the limit on the head leaves visible. *)
Definition visible (self : lh_http_parser_t) (pre t : list Z) : list Z :=
  take (Z.to_nat (lh_http_parser_get_head_size_max self - len pre)) t.
Lemma find_line_spec self pre t end_ : len pre <= lh_http_parser_get_head_size_max self ->
  lh_http_parser_find_line self (pre ++ t) (len pre) end_
  = Done (match find_line (lh_http_parser_get_line_size_max self) 0 (visible self pre t) with
          | Found n => (self, lh_http_parse_complete, len pre + Z.of_nat n)
          | Wrong e n => (set_failed self e (len pre + Z.of_nat n), lh_http_parse_error, end_)
          | More => if len (pre ++ t) >=? lh_http_parser_get_head_size_max self
                    then (set_failed self lh_http_error_head_size (lh_http_parser_get_head_size_max self), lh_http_parse_error, end_)
                    else (self, lh_http_parse_incomplete, end_)
          end).
Proof.
  intros Hpre. unfold lh_http_parser_find_line, lh_str_view_get_data, lh_str_view_get_size. cbv zeta.
  set (m := lh_http_parser_get_head_size_max self) in *.
  pose proof (line_loop_spec self _ (drop (length (visible self pre t)) t) end_ (len pre) eq_refl (visible self pre t)
    (S (length (pre ++ t))) pre) as H.
  assert (visible self pre t ++ drop (length (visible self pre t)) t = t) as Et.
  { unfold visible. fold m. rewrite length_take. destruct (Nat.le_ge_cases (Z.to_nat (m - len pre)) (length t)).
    - rewrite Nat.min_l by done. apply take_drop.
    - rewrite Nat.min_r, drop_all, app_nil_r by done. by apply take_ge. }
  rewrite Et in H. rewrite Z.sub_diag in H.
  replace (Z.min (len (pre ++ t)) m) with (len (pre ++ visible self pre t)).
  2:{ rewrite !length_app. unfold visible. fold m. rewrite length_take. lia. }
  rewrite H, bind_done. 2:{ rewrite length_app. unfold visible. rewrite length_take. lia. }
  destruct (find_line _ 0 _); [done| |done]. by destruct (_ >=? m).
Qed.

(** ** A field *)

Definition field_of (name value : list Z) : lh_http_header_t := mk_header name (trim value).
Lemma field_line_inv name u : all_in is_tchar name -> stops is_tchar u -> field_line (name ++ u) ->
  is_token name /\ exists value, u = 58 :: value /\ all_in lh_http_is_field_char value.
Proof.
  intros Hn Hu H. remember (name ++ u) as l eqn:El. destruct H as [name' value [Hne' Hn'] Hv].
  pose proof (f_equal (while_in is_tchar) El) as E1. pose proof (f_equal (while_out is_tchar) El) as E2.
  rewrite !while_in_app in E1 by done. rewrite !while_out_app in E2 by done. subst. split; [done|eauto].
Qed.
(** Every line is scanned to a result; it is complete exactly for the line of a field. *)
Lemma parse_field_spec self pre line post h : is_bytes line -> fits line ->
  exists self' h' status,
    lh_http_parser_parse_field self (pre ++ line ++ post) (len pre) (len (pre ++ line)) h = Done (self', h', status) /\
    (status = lh_http_parse_complete \/ status = lh_http_parse_error) /\
    (status = lh_http_parse_complete <-> field_line line) /\
    (forall name value, is_token name -> all_in lh_http_is_field_char value -> line = name ++ 58 :: value ->
       self' = self /\ h' = field_of name value).
Proof.
  intros Hb Hf. unfold lh_http_parser_parse_field, lh_str_view_get_data. cbv zeta.
  rewrite token_end_spec, bind_done by (rewrite !length_app; lia).
  destruct (while_cases is_tchar line) as (n & u & -> & Hn & Hu & -> & _).
  assert (forall name value, is_token name -> all_in lh_http_is_field_char value -> n ++ u = name ++ 58 :: value ->
    name = n /\ u = 58 :: value /\ is_token n) as Hinv.
  { intros name value [Hne Hn'] Hv El. pose proof (f_equal (while_in is_tchar) El) as E1.
    pose proof (f_equal (while_out is_tchar) El) as E2. rewrite !while_in_app in E1 by done. rewrite !while_out_app in E2 by done.
    by subst. }
  assert (forall at_, ~ (is_token n /\ exists value, u = 58 :: value /\ all_in lh_http_is_field_char value) ->
    exists self' h' status, (let '(self, status) := lh_http_parser_fail self lh_http_error_header at_ in
       (mret (self, h, status) : outcome _)) = Done (self', h', status) /\
    (status = lh_http_parse_complete \/ status = lh_http_parse_error) /\
    (status = lh_http_parse_complete <-> field_line (n ++ u)) /\
    (forall name value, is_token name -> all_in lh_http_is_field_char value -> n ++ u = name ++ 58 :: value ->
       self' = self /\ h' = field_of name value)) as Hbad.
  { intros at_ Hno. do 3 eexists. split; [done|]. split; [by right|]. split.
    - split; [done|]. intros H. by apply field_line_inv in H.
    - intros name value Ht Hv E. exfalso. apply Hno. destruct (Hinv _ _ Ht Hv E) as (-> & -> & ?). eauto. }
  destruct (decide (n = [])) as [->|Hne].
  { rewrite app_nil_r, Z.eqb_refl. cbn [orb mbind outcome_bind mret outcome_ret]. apply Hbad. by intros [[] _]. }
  rewrite (proj2 (Z.eqb_neq (len (pre ++ n)) (len pre))) by (rewrite length_app; destruct n; [done|cbn [length]; lia]).
  cbn [orb]. destruct u as [|c u].
  { rewrite app_nil_r in Hbad |- *. rewrite Z.eqb_refl. cbn [mbind outcome_bind mret outcome_ret]. apply Hbad. by intros (_ & ? & ? & _). }
  rewrite (proj2 (Z.eqb_neq _ _)) by (rewrite !length_app; cbn [length]; lia).
  assert (pre ++ (n ++ c :: u) ++ post = (pre ++ n) ++ c :: u ++ post) as Ea by by rewrite <-!app_assoc.
  rewrite Ea, (load_ok _ _ c) by (rewrite lookup_app_r, Nat.sub_diag by lia; done).
  rewrite bind_done. change lh_char_map_colon with 58. change (mret ?x) with (Done x). rewrite bind_done.
  destruct (Z.eqb_spec c 58) as [->|]; cbn [negb]; [|apply Hbad; naive_solver].
  pose proof (bad_char_spec lh_http_is_field_char post (S (length (pre ++ (n ++ 58 :: u) ++ post))) ((pre ++ n) ++ [58]) u) as Hbc.
  assert (((pre ++ n) ++ [58]) ++ u ++ post = pre ++ (n ++ 58 :: u) ++ post) as E1 by by rewrite <-!app_assoc.
  assert (((pre ++ n) ++ [58]) ++ u = pre ++ n ++ 58 :: u) as E2 by by rewrite <-!app_assoc.
  rewrite E1, E2 in Hbc. rewrite <-Ea. replace (len (pre ++ n) + 1) with (len ((pre ++ n) ++ [58])) by (rewrite !length_app; cbn [length]; lia).
  rewrite Hbc, bind_done by (rewrite !length_app; cbn [length]; lia). clear Hbc. case_decide as Hw.
  2:{ apply Hbad. intros (_ & v & [= <-] & Hv). by apply Hw, while_out_nil. }
  apply while_out_nil in Hw.
  assert (forall m, m = len n -> lh_str_view_from_offset (pre ++ (n ++ 58 :: u) ++ post) (len pre) m = Done n) as H1.
  { intros m ->. rewrite <-app_assoc. by apply from_offset_app. }
  rewrite H1, bind_done by (rewrite length_app; lia). rewrite <-E1, from_offset_app, bind_done.
  2: done. 2: rewrite !length_app; cbn [length]; lia.
  apply Forall_app in Hb as [_ Hb]. apply Forall_cons_1 in Hb as [_ Hb]. unfold fits in Hf. rewrite length_app in Hf. cbn [length] in Hf.
  rewrite trim_spec, bind_done by (done || unfold fits; lia). do 3 eexists. split; [done|]. split; [by left|]. split.
  - split; [|done]. intros _. by constructor.
  - intros name value Ht Hv E. destruct (Hinv _ _ Ht Hv E) as (-> & [= <-] & _). done.
Qed.
