(* ===== verification/HttpFormat.v ===== *)
(** * HTTP status codes and the heads of responses as text

    [http/status.c] and [http/format.c]: each piece is appended at an offset, which moves
    for the pieces written also when a later one does not fit.  The head is defined on the
    type of responses of [Http].  Theorems in [HttpFormatProofs]. *)
From stdpp Require Import strings.
From S2P Require Import Prelude Buffer Bytes Digits Format StrPtr View Http.

Definition lh_http_status_continue : Z := 100.
Definition lh_http_status_switching_protocols : Z := 101.
Definition lh_http_status_ok : Z := 200.
Definition lh_http_status_no_content : Z := 204.
Definition lh_http_status_reset_content : Z := 205.
Definition lh_http_status_not_modified : Z := 304.
Definition lh_http_status_bad_request : Z := 400.
Definition lh_http_status_not_found : Z := 404.
Definition lh_http_status_content_too_large : Z := 413.
Definition lh_http_status_unsupported_media_type : Z := 415.
Definition lh_http_status_expectation_failed : Z := 417.
Definition lh_http_status_internal_server_error : Z := 500.

Definition between (low high value : Z) : bool := (low <=? value) && (value <=? high).
Definition lh_http_status_is_valid (status : Z) : bool := between 100 599 status.
Definition lh_http_status_is_success (status : Z) : bool := between 200 299 status.
Definition lh_http_status_is_content_forbidden (status : Z) : bool :=
  between 100 199 status || (status =? lh_http_status_no_content) ||
  (status =? lh_http_status_reset_content) || (status =? lh_http_status_not_modified).
(** The bytes of a literal. *)
Definition literal (s : string) : lh_str_view_t :=
  (fun c => Z.of_N (Ascii.N_of_ascii c)) <$> String.list_ascii_of_string s.
Definition lh_http_status_get_reason (status : Z) : lh_str_view_t :=
  if status =? lh_http_status_continue then literal "Continue" else
  if status =? lh_http_status_switching_protocols then literal "Switching Protocols" else
  if status =? lh_http_status_ok then literal "OK" else
  if status =? lh_http_status_no_content then literal "No Content" else
  if status =? lh_http_status_reset_content then literal "Reset Content" else
  if status =? lh_http_status_not_modified then literal "Not Modified" else
  if status =? lh_http_status_bad_request then literal "Bad Request" else
  if status =? lh_http_status_not_found then literal "Not Found" else
  if status =? lh_http_status_content_too_large then literal "Content Too Large" else
  if status =? lh_http_status_unsupported_media_type then literal "Unsupported Media Type" else
  if status =? lh_http_status_expectation_failed then literal "Expectation Failed" else
  if status =? lh_http_status_internal_server_error then literal "Internal Server Error" else [].

(** ** The pieces of a head *)

(** A piece takes the buffer and the offset, and tells whether it fitted. *)
Notation piece := (option buffer -> Z -> outcome (option buffer * Z * bool)).
(** [&&]: the pieces after one that does not fit are not tried. *)
Fixpoint put_all (pieces : list piece) (out : option buffer) (offset : Z) : outcome (option buffer * Z * bool) :=
  match pieces with
  | [] => mret (out, offset, true)
  | p :: pieces =>
    '(out, offset, ok) ← p out offset;
    if ok : bool then put_all pieces out offset else mret (out, offset, false)
  end.
Definition put_text (text : lh_str_view_t) (capacity : Z) : piece := fun out offset =>
  lh_str_ptr_format_text_put_text out capacity offset (Some text) (len text).
Definition put_char (ch capacity : Z) : piece := fun out offset =>
  lh_str_ptr_format_text_put_run out capacity offset ch 1.
(** Text that may be empty, and is not written then. *)
Definition put_some (text : lh_str_view_t) (capacity : Z) : piece := fun out offset =>
  if lh_str_view_get_size text =? 0 then mret (out, offset, true) else put_text text capacity out offset.
Definition crlf : buffer := [lh_char_map_cr; lh_char_map_lf].

Definition lh_http_format_try_status_line (response : lh_http_response_t) (out : option buffer) (capacity offset : Z)
    : outcome (option buffer * Z * bool) :=
  let status := lh_http_response_get_status response in
  let minor := lh_http_response_get_version_minor response in
  if negb (lh_http_status_is_valid status) || negb (between 0 9 minor) then mret (out, offset, false) else
  '(digits, n) ← lh_str_ptr_format_uint status (Some (local LH_STR_FORMAT_UINT_DIGITS_MAX)) LH_STR_FORMAT_UINT_DIGITS_MAX;
  digits ← assert_set digits;
  let reason := lh_http_response_get_reason response in
  minor_char ← lh_char_from_digit minor;
  put_all [ put_text (literal "HTTP/1.") capacity;
            put_char minor_char capacity;
            put_char lh_char_map_space capacity;
            put_text (take (Z.to_nat n) digits) capacity;
            put_char lh_char_map_space capacity;
            put_some reason capacity;
            put_text crlf capacity ] out offset.
Definition lh_http_format_status_line (response : lh_http_response_t) (out : option buffer) (capacity offset : Z)
    : outcome (option buffer * Z) :=
  '(out, offset, ok) ← lh_http_format_try_status_line response out capacity offset;
  _ ← fail_ifn ok lh_runtime_error_code_invalid_range;
  mret (out, offset).
Definition lh_http_format_try_header (header : lh_http_header_t) (out : option buffer) (capacity offset : Z)
    : outcome (option buffer * Z * bool) :=
  put_all [ put_text (lh_http_header_get_name header) capacity;
            put_char lh_char_map_colon capacity;
            put_char lh_char_map_space capacity;
            put_some (lh_http_header_get_value header) capacity;
            put_text crlf capacity ] out offset.
Definition lh_http_format_header (header : lh_http_header_t) (out : option buffer) (capacity offset : Z)
    : outcome (option buffer * Z) :=
  '(out, offset, ok) ← lh_http_format_try_header header out capacity offset;
  _ ← fail_ifn ok lh_runtime_error_code_invalid_range;
  mret (out, offset).
(** The loop over the fields, [n] from the [i]th on. *)
Fixpoint put_headers (n : nat) (headers : list lh_http_header_t) (i capacity : Z) (out : option buffer) (offset : Z)
    : outcome (option buffer * Z * bool) :=
  match n with
  | O => mret (out, offset, true)
  | S n =>
    h ← load headers i;
    '(out, offset, ok) ← lh_http_format_try_header h out capacity offset;
    if ok : bool then put_headers n headers (i + 1) capacity out offset else mret (out, offset, false)
  end.
Definition lh_http_format_try_response_head (response : lh_http_response_t) (headers : list lh_http_header_t)
    (out : option buffer) (capacity offset : Z) : outcome (option buffer * Z * bool) :=
  put_all [ fun out offset => lh_http_format_try_status_line response out capacity offset;
            put_headers (Z.to_nat (lh_http_response_get_header_count response)) headers 0 capacity;
            put_text crlf capacity ] out offset.
Definition lh_http_format_response_head (response : lh_http_response_t) (headers : list lh_http_header_t)
    (out : option buffer) (capacity offset : Z) : outcome (option buffer * Z) :=
  '(out, offset, ok) ← lh_http_format_try_response_head response headers out capacity offset;
  _ ← fail_ifn ok lh_runtime_error_code_invalid_range;
  mret (out, offset).

(** "HTTP/1.1 200 OK CRLF A: b CRLF CRLF" in 25 bytes. *)
Example head_ex :
  let response := mk_response (literal "OK") 200 1 1 in
  match lh_http_format_try_response_head response [mk_header (literal "A") (literal "b")] (Some (local 30)) 30 0 with
  | Done (Some out, n, ok) =>
    (take (Z.to_nat n) out, n, ok)
    = (literal "HTTP/1.1 200 OK" ++ crlf ++ literal "A: b" ++ crlf ++ crlf, 25, true)
  | _ => False
  end.
Proof. vm_compute. done. Qed.
Lemma literal_bytes s : is_bytes (literal s).
Proof.
  unfold literal. apply Forall_fmap, Forall_true. intros c. cbn. unfold is_u8. pose proof (Ascii.N_ascii_bounded c). lia.
Qed.
