(* ===== verification/Framing.v ===== *)
(** * What the fields of a message say of its body

    [str/split/next.c] on a view, [http/framing.c] (transfer coding and Content-Length),
    [http/expect.c] and [http/content/encoding.c].  What a function writes through its
    output pointers on success is the result in [Some]; on failure they are left alone.  Theorems in
    [FramingProofs]. *)
From stdpp Require Import strings.
From S2P Require Import Prelude Buffer Bytes Digits Format StrPtr View Http HttpFormat.

Definition lh_http_header_name_content_encoding : lh_str_view_t := literal "Content-Encoding".
Definition lh_http_header_name_content_length : lh_str_view_t := literal "Content-Length".
Definition lh_http_header_name_transfer_encoding : lh_str_view_t := literal "Transfer-Encoding".
Definition lh_http_header_name_expect : lh_str_view_t := literal "Expect".
Definition lh_http_header_value_gzip : lh_str_view_t := literal "gzip".
Definition lh_http_header_value_identity : lh_str_view_t := literal "identity".
Definition lh_http_header_value_chunked : lh_str_view_t := literal "chunked".
Definition lh_http_header_value_continue : lh_str_view_t := literal "100-continue".

(** The part, whether a delimiter ended it, and the position after it. *)
Definition lh_str_ptr_split_next_of (str : buffer) (str_size : Z) (delims : buffer) (delim_count pos : Z)
    : outcome (option (lh_str_view_t * bool * Z)) :=
  let start := pos in
  if start >=? str_size then mret None else
  let rest := str_size - start in
  let from := drop (Z.to_nat start) str in
  delim_at ← lh_str_ptr_find_of_chars 0 from rest delims delim_count;
  match delim_at with
  | Some n => mret (Some (lh_str_view_init_by_size from n, true, u64 (u64 (start + n) + 1)))
  | None => mret (Some (lh_str_view_init_by_size from rest, false, str_size))
  end.
Definition lh_str_view_split_next_of (self : lh_str_view_t) (delims : buffer) (delim_count pos : Z)
    : outcome (option (lh_str_view_t * bool * Z)) :=
  if lh_str_view_is_empty self then mret None else
  lh_str_ptr_split_next_of (lh_str_view_get_data self) (lh_str_view_get_size self) delims delim_count pos.

(** [headers + next], [count - next]: the index is that in the whole array. *)
Definition find_from (headers : list lh_http_header_t) (count next : Z) (name : lh_str_view_t) : outcome (option Z) :=
  i ← lh_http_header_find (drop (Z.to_nat next) headers) (count - next) name;
  mret (match i with Some i => Some (next + i) | None => None end).

(** Chunked and gzip: what the one Transfer-Encoding says. *)
Definition read_transfer (value : lh_str_view_t) : outcome (option (bool * bool)) :=
  r ← lh_str_view_split_next_of value [lh_char_map_comma] 1 0;
  match r with
  | None => mret None
  | Some (part, delimiter, position) =>
    part ← lh_str_view_trim part;
    chunked ← lh_str_view_equals part lh_http_header_value_chunked true;
    if chunked && negb delimiter then mret (Some (true, false)) else
    gzip ← lh_str_view_equals part lh_http_header_value_gzip true;
    if negb gzip || negb delimiter then mret None else
    r ← lh_str_view_split_next_of value [lh_char_map_comma] 1 position;
    match r with
    | None | Some (_, true, _) => mret None
    | Some (part, false, _) =>
      part ← lh_str_view_trim part;
      chunked ← lh_str_view_equals part lh_http_header_value_chunked true;
      mret (if chunked : bool then Some (true, true) else None)
    end
  end.
Definition lh_http_framing_try_get_transfer (headers : list lh_http_header_t) (count : Z) : outcome (option (bool * bool)) :=
  let name := lh_http_header_name_transfer_encoding in
  i ← lh_http_header_find headers count name;
  match i with
  | None => mret (Some (false, false))
  | Some i =>
    let next := u64 (i + 1) in
    again ← find_from headers count next name;
    if bool_decide (is_Some again) then mret None else
    length ← lh_http_header_find headers count lh_http_header_name_content_length;
    if bool_decide (is_Some length) then mret None else
    field ← load headers i;
    read_transfer (lh_http_header_get_value field)
  end.
Definition lh_http_framing_get_transfer (headers : list lh_http_header_t) (count : Z) : outcome (bool * bool) :=
  r ← lh_http_framing_try_get_transfer headers count;
  match r with Some r => mret r | None => Fault lh_runtime_error_code_invalid_range end.
Definition lh_http_framing_try_is_chunked (headers : list lh_http_header_t) (count : Z) : outcome (option bool) :=
  r ← lh_http_framing_try_get_transfer headers count;
  mret (match r with Some (chunked, _) => Some chunked | None => None end).
Definition lh_http_framing_is_chunked (headers : list lh_http_header_t) (count : Z) : outcome bool :=
  r ← lh_http_framing_try_is_chunked headers count;
  match r with Some r => mret r | None => Fault lh_runtime_error_code_invalid_range end.
Definition lh_http_framing_try_get_content_length (headers : list lh_http_header_t) (count : Z) : outcome (option Z) :=
  transfer ← lh_http_header_find headers count lh_http_header_name_transfer_encoding;
  if bool_decide (is_Some transfer) then mret None else
  let length_name := lh_http_header_name_content_length in
  index ← lh_http_header_find headers count length_name;
  match index with
  | None => mret (Some 0)
  | Some index =>
    let next := u64 (index + 1) in
    again ← find_from headers count next length_name;
    if bool_decide (is_Some again) then mret None else
    field ← load headers index;
    let value := lh_http_header_get_value field in
    if lh_str_view_is_empty value then mret None else
    '(length, ok) ← lh_str_ptr_parse_ullong_digits (Some (lh_str_view_get_data value)) (lh_str_view_get_size value)
      LH_USIZE_T_MAX (Some 0);
    mret (if ok : bool then length else None)
  end.
Definition lh_http_framing_get_content_length (headers : list lh_http_header_t) (count : Z) : outcome Z :=
  r ← lh_http_framing_try_get_content_length headers count;
  match r with Some r => mret r | None => Fault lh_runtime_error_code_invalid_range end.

(** The members of one field's value: whether there is one, and [None] for one that is not expected. *)
Fixpoint members_loop (fuel : nat) (value : lh_str_view_t) (pos : Z) (member : bool) : outcome (option bool) :=
  match fuel with
  | O => Undef
  | S fuel =>
    r ← lh_str_view_split_next_of value [lh_char_map_comma] 1 pos;
    match r with
    | None => mret (Some member)
    | Some (part, _, pos) =>
      part ← lh_str_view_trim part;
      if lh_str_view_is_empty part then members_loop fuel value pos member else
      same ← lh_str_view_equals part lh_http_header_value_continue true;
      if same : bool then members_loop fuel value pos true else mret None
    end
  end.
Fixpoint expect_loop (fuel : nat) (headers : list lh_http_header_t) (count offset : Z) (found : bool)
    : outcome (option bool) :=
  match fuel with
  | O => Undef
  | S fuel =>
    i ← find_from headers count offset lh_http_header_name_expect;
    match i with
    | None => mret (Some found)
    | Some i =>
      field ← load headers i;
      let value := lh_http_header_get_value field in
      r ← members_loop (S (length value)) value 0 false;
      match r with
      | Some true => expect_loop fuel headers count (u64 (i + 1)) true
      | _ => mret None
      end
    end
  end.
Definition lh_http_expect_try_get_continue (headers : list lh_http_header_t) (count : Z) : outcome (option bool) :=
  if count =? 0 then mret (Some false) else
  expect_loop (S (Z.to_nat count)) headers count 0 false.
Definition lh_http_expect_get_continue (headers : list lh_http_header_t) (count : Z) : outcome bool :=
  r ← lh_http_expect_try_get_continue headers count;
  match r with Some r => mret r | None => Fault lh_runtime_error_code_invalid_range end.

Definition lh_http_content_encoding_try_is_gzip (headers : list lh_http_header_t) (count : Z) : outcome (option bool) :=
  let name := lh_http_header_name_content_encoding in
  i ← lh_http_header_find headers count name;
  match i with
  | None => mret (Some false)
  | Some i =>
    let next := u64 (i + 1) in
    again ← find_from headers count next name;
    if bool_decide (is_Some again) then mret None else
    field ← load headers i;
    gzip ← lh_str_view_equals (lh_http_header_get_value field) lh_http_header_value_gzip true;
    if gzip : bool then mret (Some true) else
    identity ← lh_str_view_equals (lh_http_header_get_value field) lh_http_header_value_identity true;
    mret (if identity : bool then Some false else None)
  end.
Definition lh_http_content_encoding_is_gzip (headers : list lh_http_header_t) (count : Z) : outcome bool :=
  r ← lh_http_content_encoding_try_is_gzip headers count;
  match r with Some r => mret r | None => Fault lh_runtime_error_code_invalid_range end.

Example transfer_ex : lh_http_framing_try_get_transfer
  [mk_header (literal "Host") (literal "x"); mk_header (literal "transfer-encoding") (literal "GZip , Chunked")] 2
  = Done (Some (true, true)).
Proof. vm_compute. done. Qed.
Example length_ex : lh_http_framing_try_get_content_length
  [mk_header (literal "Host") (literal "x"); mk_header (literal "content-length") (literal "1204")] 2 = Done (Some 1204).
Proof. vm_compute. done. Qed.
Example expect_ex : lh_http_expect_try_get_continue [mk_header (literal "expect") (literal " ,100-Continue")] 1
  = Done (Some true).
Proof. vm_compute. done. Qed.
