(* ===== verification/FramingProofs.v ===== *)
(** * What the fields say of the body: correctness

    The functions of [Framing] as functions of the values that the fields of a name have
    ([values]): a name is found whatever its case, and a list in a value is its pieces
    between commas, trimmed. *)
From stdpp Require Import strings.
From S2P Require Import Prelude Buffer Bytes Digits DigitsProofs Format StrPtr StrPtrProofs View ViewProofs Http HttpFormat Framing.

(** ** Text without regard to case *)

Definition lower (c : Z) : Z := match lh_char_fold_case c with Done v => v | _ => c end.
Definition same_text (a b : list Z) : bool := bool_decide (lower <$> a = lower <$> b).
Lemma fold_case_ok c : is_u8 c -> lh_char_fold_case c = Done (lower c).
Proof.
  intros Hc. assert (forallb (fun c => match lh_char_fold_case c with Done _ => true | _ => false end) (seqZ 0 256) = true) as H
    by (vm_compute; done).
  rewrite forallb_forall in H. specialize (H c). unfold lower. destruct (lh_char_fold_case c); [done|..];
    by discriminate H; apply list_elem_of_In, elem_of_seqZ; unfold is_u8 in Hc; lia.
Qed.
Lemma compare_fold_spec : forall a b pa pb, is_bytes a -> is_bytes b -> length a = length b -> len pa = len pb ->
  compare_fold (length a) (pa ++ a) (pb ++ b) (len pa) = Done (same_text a b).
Proof.
  induction a as [|x a IH]; intros b pa pb Ha Hb Hl Hp; destruct b as [|y b]; try done. cbn [length compare_fold].
  apply Forall_cons_1 in Ha as [Hx Ha]. apply Forall_cons_1 in Hb as [Hy Hb].
  rewrite (load_ok (pa ++ x :: a) _ x) by (rewrite lookup_app_r, Nat.sub_diag by lia; done).
  rewrite bind_done, fold_case_ok, bind_done, Hp by done.
  rewrite (load_ok (pb ++ y :: b) _ y) by (rewrite lookup_app_r, Nat.sub_diag by lia; done).
  rewrite bind_done, fold_case_ok, bind_done by done. unfold same_text in *. rewrite !fmap_cons.
  destruct (Z.eqb_spec (lower x) (lower y)) as [E|E]; cbn [negb].
  - specialize (IH b (pa ++ [x]) (pb ++ [y]) Ha Hb). rewrite <-!app_assoc in IH. cbn [app] in IH.
    replace (len (pa ++ [x])) with (len pb + 1) in IH by (lens; lia). rewrite IH by (lens; lia).
    f_equal. apply bool_decide_ext. rewrite E. split; [by intros ->|by intros [=]].
  - rewrite bool_decide_false; [done|]. by intros [=].
Qed.
Lemma equals_fold a b : is_bytes a -> is_bytes b -> lh_str_view_equals a b true = Done (same_text a b).
Proof.
  intros Ha Hb. unfold lh_str_view_equals, lh_str_ptr_equals_by_size, lh_str_view_get_size, lh_str_view_get_data.
  destruct (Z.eqb_spec (len a) (len b)) as [E|E].
  - rewrite E, Z.min_id, <-E, Nat2Z.id. apply (compare_fold_spec a b [] []); done || lia.
  - unfold same_text. rewrite bool_decide_false; [done|]. intros H%(f_equal length). rewrite !length_fmap in H. lia.
Qed.

(** ** Fields of a name *)

Definition named (name : list Z) (h : lh_http_header_t) : bool := same_text (header_name h) name.
(** The values of the fields of a name, in their order. *)
Fixpoint values (name : list Z) (hs : list lh_http_header_t) : list (list Z) :=
  match hs with
  | [] => []
  | h :: hs => if named name h then header_value h :: values name hs else values name hs
  end.
Definition header_ok (h : lh_http_header_t) : Prop :=
  is_bytes (header_name h) /\ is_bytes (header_value h) /\ fits (header_value h).

Lemma header_find_loop_spec name hs : forall pre post, is_bytes name -> Forall header_ok hs ->
  header_find_loop (length hs) (pre ++ hs ++ post) (len pre) name
  = Done ((fun n => len pre + Z.of_nat n) <$> index_of (named name) hs).
Proof.
  induction hs as [|h hs IH]; intros pre post Hn Hh; cbn [length header_find_loop index_of]; [done|].
  apply Forall_cons_1 in Hh as [(Hb & _) Hh].
  rewrite (load_ok _ _ h) by (rewrite lookup_app_r, Nat.sub_diag by lia; done).
  rewrite bind_done, equals_fold, bind_done by done. unfold named at 1. unfold lh_http_header_get_name.
  destruct (same_text (header_name h) name); [cbn; do 2 f_equal; lia|].
  specialize (IH (pre ++ [h]) post Hn Hh). rewrite <-app_assoc in IH. cbn [app] in IH.
  replace (len (pre ++ [h])) with (len pre + 1) in IH by (lens; lia). cbn [app]. rewrite IH. f_equal.
  destruct (index_of (named name) hs) as [n|]; cbn; [f_equal; lia|done].
Qed.
Lemma header_find_spec name hs post n : is_bytes name -> Forall header_ok hs -> n = len hs ->
  (values name hs = [] /\ lh_http_header_find (hs ++ post) n name = Done None) \/
  (exists a h b, hs = a ++ h :: b /\ values name hs = header_value h :: values name b /\
     lh_http_header_find (hs ++ post) n name = Done (Some (len a))).
Proof.
  intros Hn Hh ->. assert (lh_http_header_find (hs ++ post) (len hs) name = Done (Z.of_nat <$> index_of (named name) hs)) as ->.
  { unfold lh_http_header_find. rewrite Nat2Z.id. exact (header_find_loop_spec name hs [] post Hn Hh). }
  clear Hh. induction hs as [|h hs IH]; [by left|]. cbn [values index_of].
  destruct (named name h) eqn:E; [right; by exists [], h, hs|]. destruct IH as [[Hv Hi]|(a & h' & b & -> & Hv & Hi)].
  - left. split; [done|]. by destruct (index_of (named name) hs).
  - right. exists (h :: a), h', b. split_and!; [done|done|]. destruct (index_of (named name) (a ++ h' :: b)) as [n|]; [|done].
    injection Hi as Hi. cbn [fmap option_fmap option_map length]. do 2 f_equal. cbn in Hi. lia.
Qed.

(** ** Lists in a value *)

Definition no_comma (c : Z) : bool := negb (c =? 44).
(** The pieces of a text between commas, one more than there are commas. *)
Fixpoint pieces (t : list Z) : list (list Z) :=
  match t with
  | [] => [[]]
  | c :: t =>
    if c =? 44 then [] :: pieces t else
    match pieces t with p :: ps => (c :: p) :: ps | [] => [[c]] end
  end.
Lemma pieces_comma p t : all_in no_comma p -> pieces (p ++ 44 :: t) = p :: pieces t.
Proof.
  induction 1 as [|c p Hc Hp IH]; [done|]. cbn [app pieces]. unfold no_comma in Hc.
  destruct (c =? 44); [done|]. by rewrite IH.
Qed.
Lemma pieces_last p : all_in no_comma p -> pieces p = [p].
Proof.
  induction 1 as [|c p Hc Hp IH]; [done|]. cbn [pieces]. unfold no_comma in Hc. destruct (c =? 44); [done|]. by rewrite IH.
Qed.
Lemma pieces_nonempty t : pieces t <> [].
Proof. destruct t as [|c t]; [done|]. cbn [pieces]. destruct (c =? 44); [done|]. by destruct (pieces t). Qed.

Lemma index_of_comma p t : all_in no_comma p ->
  index_of (fun b => b =? 44) (p ++ 44 :: t) = Some (length p) /\ index_of (fun b => b =? 44) p = None.
Proof.
  induction 1 as [|c p Hc Hp [IH1 IH2]]; [done|]. cbn [app index_of length]. unfold no_comma in Hc. apply negb_true_iff in Hc.
  by rewrite Hc, IH1, IH2.
Qed.
(** What a call of the splitter finds behind [pre]. *)
Lemma split_next_comma pre t : fits (pre ++ t) -> t <> [] ->
  exists part rest delimiter, lh_str_view_split_next_of (pre ++ t) [lh_char_map_comma] 1 (len pre)
    = Done (Some (part, delimiter, len (pre ++ t) - len rest)) /\ all_in no_comma part /\
    ((delimiter = true /\ t = part ++ 44 :: rest) \/ (delimiter = false /\ t = part /\ rest = [])).
Proof.
  intros Hf Hne. unfold lh_str_view_split_next_of. rewrite view_is_empty, bool_decide_false by by destruct pre.
  unfold lh_str_ptr_split_next_of, lh_str_view_get_size, lh_str_view_get_data. cbv zeta. unfold fits in Hf.
  rewrite Z.geb_leb, (proj2 (Z.leb_gt _ _)) by (lens; destruct t; [done|]; cbn [length]; lia).
  rewrite Nat2Z.id, drop_app_length. replace (len (pre ++ t) - len pre) with (len t) by (lens; lia).
  change (lh_str_ptr_find_of_chars 0 t (len t) [lh_char_map_comma] 1) with (lh_str_ptr_find_of_char t (len t) 44).
  unfold lh_str_ptr_find_of_char. rewrite Z.leb_refl, Nat2Z.id, firstn_all. change (mret ?x) with (Done x). rewrite bind_done.
  destruct (while_cases no_comma t) as (p & r & -> & Hp & Hr & _). destruct r as [|c r].
  - rewrite app_nil_r in *. rewrite (proj2 (index_of_comma p [] Hp)). cbn [fmap option_fmap option_map].
    unfold lh_str_view_init_by_size. rewrite Nat2Z.id, firstn_all. exists p, [], false. split_and!; [|done|by right].
    cbn [length]. by rewrite Z.sub_0_r.
  - cbn in Hr. unfold no_comma in Hr. apply negb_false_iff, Z.eqb_eq in Hr as ->.
    rewrite (proj1 (index_of_comma p r Hp)). cbn [fmap option_fmap option_map].
    unfold lh_str_view_init_by_size. rewrite Nat2Z.id, take_app_length. exists p, r, true. split_and!; [|done|by left].
    do 4 f_equal. lens. rewrite (u64_id (len pre + len p)) by zb. rewrite u64_id by zb. lia.
Qed.
Lemma split_last_end t : lh_str_view_split_next_of t [lh_char_map_comma] 1 (len t) = Done None.
Proof.
  unfold lh_str_view_split_next_of. rewrite view_is_empty. case_bool_decide; [done|].
  unfold lh_str_ptr_split_next_of, lh_str_view_get_size. by rewrite Z.geb_leb, Z.leb_refl.
Qed.
Lemma piece_ok part v : is_bytes v -> fits v -> (exists pre post, v = pre ++ part ++ post) ->
  lh_str_view_trim part = Done (trim part) /\ is_bytes (trim part).
Proof.
  intros Hb Hf (pre & post & ->). unfold fits in *. rewrite !length_app in Hf.
  apply Forall_app in Hb as [_ [Hb _]%Forall_app].
  split; [apply trim_spec; [done|unfold fits; lia]|]. unfold trim, trim_end, is_bytes.
  apply Forall_rev, while_out_bytes, Forall_rev. by apply while_out_bytes.
Qed.

(** ** Transfer-Encoding *)

#[local] Arguments literal : simpl never.
Notation is_text part s := (same_text part (literal s)).
(** What one value of Transfer-Encoding says: chunked, or gzip and then chunked. *)
Definition coding (v : list Z) : option (bool * bool) :=
  match trim <$> pieces v with
  | [c] => if is_text c "chunked" then Some (true, false) else None
  | [g; c] => if is_text g "gzip" && is_text c "chunked" then Some (true, true) else None
  | _ => None
  end.
Lemma read_transfer_spec v : is_bytes v -> fits v -> read_transfer v = Done (coding v).
Proof.
  intros Hb Hf. unfold read_transfer, coding, lh_http_header_value_chunked, lh_http_header_value_gzip.
  destruct (decide (v = [])) as [->|Hne]; [by vm_compute|].
  destruct (split_next_comma [] v Hf Hne) as (part & rest & d & E1 & Hp & Hd). cbn [app] in E1. change (len []) with 0 in E1.
  rewrite E1, bind_done.
  destruct (piece_ok part v Hb Hf) as [-> Hpb].
  { exists []. destruct Hd as [[_ Hd]|(_ & Hd & _)]; [by eexists|]. exists []. by rewrite app_nil_r. }
  rewrite bind_done, !equals_fold, bind_done by (done || apply literal_bytes).
  destruct Hd as [[-> Hv]|(-> & Hv & ->)].
  2:{ rewrite Hv, pieces_last by done. cbn. destruct (is_text _ _); [done|]. by destruct (is_text _ _). }
  cbn [negb]. rewrite andb_false_r, bind_done, orb_false_r.
  replace (pieces v) with (part :: pieces rest) by (rewrite Hv; symmetry; by apply pieces_comma).
  replace (len v - len rest) with (len (part ++ [44])) by (rewrite Hv; lens; lia).
  assert (v = (part ++ [44]) ++ rest) as Hv2 by by rewrite <-app_assoc.
  destruct (is_text (trim part) "gzip") eqn:Eg; cbn [negb].
  2:{ destruct (pieces rest) as [|p1 [|p2 ps]] eqn:Ep; [by apply pieces_nonempty in Ep|..]; cbn; by rewrite ?Eg. }
  destruct (decide (rest = [])) as [->|Hrest].
  { rewrite app_nil_r in Hv2. rewrite Hv2, split_last_end, bind_done. cbn. by rewrite Eg. }
  rewrite Hv2 in Hf |- *. destruct (split_next_comma (part ++ [44]) rest Hf Hrest) as (p2 & r2 & d2 & -> & Hp2 & Hd2). rewrite bind_done.
  destruct Hd2 as [[-> Hr]|(-> & Hr & ->)]; rewrite Hr.
  { rewrite pieces_comma by done. destruct (pieces r2) as [|q qs] eqn:Eq; [by apply pieces_nonempty in Eq|]. done. }
  rewrite pieces_last by done. rewrite <-Hv2 in Hf. destruct (piece_ok p2 v Hb Hf) as [-> Hpb2].
  { exists (part ++ [44]), []. by rewrite app_nil_r, <-Hr. }
  rewrite bind_done, equals_fold, bind_done by (done || apply literal_bytes). cbn. rewrite Eg. by destruct (is_text _ _).
Qed.

(** ** Expect *)

(** Whether a member of a list is acceptable, and whether a value is: it names the one
    expectation, once or more. *)
Definition filled (m : list Z) : bool := negb (bool_decide (m = [])).
Definition member_ok (m : list Z) : bool := bool_decide (m = []) || is_text m "100-continue".
Definition expected (v : list Z) : bool :=
  let ms := trim <$> pieces v in forallb member_ok ms && existsb filled ms.
Lemma members_loop_spec : forall fuel pre t member, (length t < fuel)%nat -> is_bytes (pre ++ t) -> fits (pre ++ t) ->
  members_loop fuel (pre ++ t) (len pre) member
  = Done (let ms := trim <$> pieces t in
          if forallb member_ok ms then Some (member || existsb filled ms) else None).
Proof.
  induction fuel as [|fuel IH]; intros pre t member Hfuel Hb Hf; [lia|]. cbn [members_loop]. cbv zeta.
  destruct (decide (t = [])) as [->|Hne].
  { rewrite app_nil_r, split_last_end, bind_done. cbn. by rewrite orb_false_r. }
  destruct (split_next_comma pre t Hf Hne) as (part & rest & d & -> & Hp & Hd). rewrite bind_done.
  destruct (piece_ok part (pre ++ t) Hb Hf) as [-> Hpb].
  { exists pre. destruct Hd as [[_ ->]|(_ & -> & _)]; [by eexists|]. exists []. by rewrite app_nil_r. }
  rewrite bind_done, view_is_empty, equals_fold, bind_done by (done || apply literal_bytes).
  assert (exists pre', pre ++ t = pre' ++ rest /\ len (pre ++ t) - len rest = len pre' /\ (length rest < fuel)%nat /\
    forallb member_ok (trim <$> pieces t) = member_ok (trim part) && forallb member_ok (trim <$> pieces rest) /\
    existsb filled (trim <$> pieces t) = filled (trim part) || existsb filled (trim <$> pieces rest)) as (pre' & E & -> & Hfuel' & -> & ->).
  { destruct Hd as [[-> ->]|(-> & -> & ->)].
    - exists (pre ++ part ++ [44]). rewrite pieces_comma by done. lens. split_and!; [by rewrite <-!app_assoc|lia|lia|done|done].
    - exists (pre ++ part). rewrite pieces_last by done. lens.
      split_and!; [by rewrite app_nil_r|lia|destruct part; [done|cbn [length] in *; lia]| |].
      + change (forallb member_ok (trim <$> pieces [])) with true. cbn. by rewrite !andb_true_r.
      + change (existsb filled (trim <$> pieces [])) with false. cbn. by rewrite !orb_false_r. }
  rewrite E in Hb, Hf |- *. rewrite !IH by done. cbv zeta.
  change (filled (trim part)) with (negb (bool_decide (trim part = []))).
  change (member_ok (trim part)) with (bool_decide (trim part = []) || is_text (trim part) "100-continue").
  change lh_http_header_value_continue with (literal "100-continue").
  case_bool_decide as Hm; cbn [negb orb andb]; [done|].
  destruct (is_text (trim part) "100-continue"); cbn [andb orb]; [|done]. by rewrite orb_true_r.
Qed.
(** ** The fields together *)

Section Fields.
Context (hs extra : list lh_http_header_t) (Hok : Forall header_ok hs) (Hsmall : len hs < 18446744073709551615).

(** Looking again behind the field that was found. *)
Lemma find_again name a h b : is_bytes name -> hs = a ++ h :: b ->
  exists r, find_from (hs ++ extra) (len hs) (u64 (len a + 1)) name = Done r /\
    bool_decide (is_Some r) = negb (bool_decide (values name b = [])) /\ load (hs ++ extra) (len a) = Done h /\ header_ok h.
Proof using Hok Hsmall.
  intros Hn E. assert (Forall header_ok b /\ header_ok h) as [Hb Hh].
  { rewrite E in Hok. apply Forall_app in Hok as [_ H]. apply Forall_cons_1 in H as [? ?]. done. }
  assert (load (hs ++ extra) (len a) = Done h) as Hl.
  { apply load_ok. rewrite E, <-app_assoc, lookup_app_r, Nat.sub_diag by lia. done. }
  rewrite Hl. rewrite E in Hsmall |- *. rewrite u64_id by (rewrite length_app in Hsmall; cbn [length] in Hsmall; zb).
  unfold find_from. replace (drop (Z.to_nat (len a + 1)) ((a ++ h :: b) ++ extra)) with (b ++ extra).
  2:{ replace (Z.to_nat (len a + 1)) with (length (a ++ [h])) by (rewrite length_app; cbn [length]; lia).
      change (a ++ h :: b) with (a ++ [h] ++ b). by rewrite app_assoc, <-app_assoc, drop_app_length. }
  destruct (header_find_spec name b extra (len (a ++ h :: b) - (len a + 1)) Hn Hb) as [[Hv ->]|(a' & h' & b' & -> & Hv & ->)];
    [rewrite length_app; cbn [length]; lia|..]; rewrite bind_done; eexists; (split; [done|]); (split; [|done]); by rewrite Hv.
Qed.
(** Both functions look for a field that must be alone. *)
Lemma values_alone name a h b : hs = a ++ h :: b -> values name hs = header_value h :: values name b ->
  values name b = [] -> values name hs = [header_value h].
Proof using. intros _ -> ->. done. Qed.

Lemma transfer_spec :
  lh_http_framing_try_get_transfer (hs ++ extra) (len hs)
  = Done (match values (literal "Transfer-Encoding") hs, values (literal "Content-Length") hs with
          | [], _ => Some (false, false)
          | [v], [] => coding v
          | _, _ => None
          end).
Proof using Hok Hsmall.
  unfold lh_http_framing_try_get_transfer. cbv zeta. change lh_http_header_name_transfer_encoding with (literal "Transfer-Encoding").
  change lh_http_header_name_content_length with (literal "Content-Length").
  destruct (header_find_spec (literal "Transfer-Encoding") hs extra (len hs) (literal_bytes _) Hok eq_refl) as [[-> ->]|(a & h & b & E & Hv & ->)];
    rewrite bind_done; [done|]. rewrite Hv.
  destruct (find_again (literal "Transfer-Encoding") a h b (literal_bytes _) E) as (r & Er & Ea & El & Hh).
  rewrite Er, bind_done, Ea, El.
  clear Er Ea. case_bool_decide as Hb; cbn [negb]; [|by destruct (values _ b)]. rewrite Hb.
  destruct (header_find_spec (literal "Content-Length") hs extra (len hs) (literal_bytes _) Hok eq_refl) as [[-> ->]|(a2 & h2 & b2 & _ & -> & ->)];
    rewrite bind_done; [|done]. rewrite bool_decide_false by by intros []. rewrite bind_done.
  destruct Hh as (_ & Hbytes & Hfits). by apply read_transfer_spec.
Qed.

(** ** Content-Length *)

(** The number a value of Content-Length writes in decimal digits, when it is a size. *)
Definition length_of (v : list Z) : option Z :=
  match v, numeral dvalue 10 v with
  | _ :: _, Some n => if n <=? LH_USIZE_T_MAX then Some n else None
  | _, _ => None
  end.
Lemma length_spec :
  lh_http_framing_try_get_content_length (hs ++ extra) (len hs)
  = Done (match values (literal "Transfer-Encoding") hs, values (literal "Content-Length") hs with
          | [], [] => Some 0
          | [], [v] => length_of v
          | _, _ => None
          end).
Proof using Hok Hsmall.
  unfold lh_http_framing_try_get_content_length. cbv zeta. change lh_http_header_name_transfer_encoding with (literal "Transfer-Encoding").
  change lh_http_header_name_content_length with (literal "Content-Length").
  destruct (header_find_spec (literal "Transfer-Encoding") hs extra (len hs) (literal_bytes _) Hok eq_refl) as [[-> ->]|(a & h & b & E & -> & ->)];
    rewrite bind_done; [|done]. rewrite bool_decide_false by by intros [].
  destruct (header_find_spec (literal "Content-Length") hs extra (len hs) (literal_bytes _) Hok eq_refl) as [[-> ->]|(a & h & b & E & -> & ->)];
    rewrite bind_done; [done|].
  destruct (find_again (literal "Content-Length") a h b (literal_bytes _) E) as (r & Er & Ea & El & Hh).
  rewrite Er, bind_done, Ea, El. clear Er Ea. case_bool_decide as Hb; cbn [negb]; [|by destruct (values _ b)]. rewrite Hb, bind_done.
  destruct Hh as (_ & _ & Hfits). unfold lh_http_header_get_value, lh_str_view_get_data, lh_str_view_get_size, fits in *.
  rewrite view_is_empty. case_bool_decide as Hv; [by rewrite Hv|].
  rewrite parse_ullong_digits_spec, bind_done by (lia || zb). rewrite Nat2Z.id, firstn_all. unfold accepts, length_of.
  destruct (header_value h); [done|]. destruct (numeral _ _ _); [|done]. by destruct (_ <=? _).
Qed.


(** ** Expect, Content-Encoding *)

Lemma find_from_spec name pre t : is_bytes name -> hs = pre ++ t ->
  (values name t = [] /\ find_from (hs ++ extra) (len hs) (len pre) name = Done None) \/
  (exists a h b, t = a ++ h :: b /\ values name t = header_value h :: values name b /\ header_ok h /\
     find_from (hs ++ extra) (len hs) (len pre) name = Done (Some (len (pre ++ a))) /\ load (hs ++ extra) (len (pre ++ a)) = Done h).
Proof using Hok.
  intros Hn E. rewrite E in Hok |- *. apply Forall_app in Hok as [_ Ht]. unfold find_from.
  rewrite Nat2Z.id, <-app_assoc, drop_app_length.
  destruct (header_find_spec name t extra (len (pre ++ t) - len pre) Hn Ht) as [[Hv ->]|(a & h & b & -> & Hv & ->)];
    [rewrite length_app; lia|by left|right]. exists a, h, b. split_and!; [done|done| | |].
  - apply Forall_app in Ht as [_ Ht]. by apply Forall_cons_1 in Ht as [? _].
  - rewrite bind_done, length_app, Nat2Z.inj_add. done.
  - apply load_ok. rewrite app_assoc, (app_assoc pre), <-!app_assoc, app_assoc, lookup_app_r, Nat.sub_diag by lia. done.
Qed.
Lemma expect_loop_spec : forall fuel pre t found, hs = pre ++ t -> (length t < fuel)%nat ->
  expect_loop fuel (hs ++ extra) (len hs) (len pre) found
  = Done (let vs := values (literal "Expect") t in
          if forallb expected vs then Some (found || negb (bool_decide (vs = []))) else None).
Proof using Hok Hsmall.
  induction fuel as [|fuel IH]; intros pre t found E Hfuel; [lia|]. cbn [expect_loop]. cbv zeta.
  change lh_http_header_name_expect with (literal "Expect").
  destruct (find_from_spec (literal "Expect") pre t (literal_bytes _) E) as [[-> ->]|(a & h & b & Et & -> & (_ & Hb & Hf) & -> & El)]; rewrite bind_done.
  { cbn. by rewrite orb_false_r. }
  rewrite El, bind_done.
  unfold lh_http_header_get_value. pose proof (members_loop_spec (S (length (header_value h))) [] (header_value h) false) as Hm.
  cbn [app] in Hm. change (len []) with 0 in Hm. rewrite Hm, bind_done by (done || lia). cbv zeta. cbn [forallb orb]. unfold expected at 1.
  destruct (forallb member_ok _); [|done]. destruct (existsb filled _); [|done]. cbn [andb].
  specialize (IH (pre ++ a ++ [h]) b true). rewrite bool_decide_false by done. cbn [negb].
  replace (u64 (len (pre ++ a) + 1)) with (len (pre ++ a ++ [h])).
  2:{ rewrite E, Et in Hsmall. lens. rewrite u64_id by zb. lia. }
  rewrite IH; [by rewrite orb_true_r|by rewrite E, Et, <-!app_assoc|rewrite Et in Hfuel; lens; lia].
Qed.
Lemma expect_spec : lh_http_expect_try_get_continue (hs ++ extra) (len hs)
  = Done (let vs := values (literal "Expect") hs in if forallb expected vs then Some (negb (bool_decide (vs = []))) else None).
Proof using Hok Hsmall.
  unfold lh_http_expect_try_get_continue. destruct (Z.eqb_spec (len hs) 0) as [E|].
  - assert (hs = []) as Eh by (apply length_zero_iff_nil; lia). by rewrite Eh.
  - apply (expect_loop_spec _ [] hs false); [done|lia].
Qed.
Lemma encoding_spec : lh_http_content_encoding_try_is_gzip (hs ++ extra) (len hs)
  = Done (match values (literal "Content-Encoding") hs with
          | [] => Some false
          | [v] => if is_text v "gzip" then Some true else if is_text v "identity" then Some false else None
          | _ => None
          end).
Proof using Hok Hsmall.
  unfold lh_http_content_encoding_try_is_gzip. cbv zeta. change lh_http_header_name_content_encoding with (literal "Content-Encoding").
  destruct (header_find_spec (literal "Content-Encoding") hs extra (len hs) (literal_bytes _) Hok eq_refl) as [[-> ->]|(a & h & b & E & -> & ->)];
    rewrite bind_done; [done|].
  destruct (find_again (literal "Content-Encoding") a h b (literal_bytes _) E) as (r & Er & Ea & El & Hh).
  rewrite Er, bind_done, Ea, El. clear Er Ea. case_bool_decide as Hb; cbn [negb]; [|by destruct (values _ b)]. rewrite Hb, bind_done.
  destruct Hh as (_ & Hbytes & _). unfold lh_http_header_get_value. rewrite !equals_fold, !bind_done by (done || apply literal_bytes).
  unfold lh_http_header_value_gzip, lh_http_header_value_identity. destruct (is_text _ "gzip"); [done|]. by destruct (is_text _ "identity").
Qed.
End Fields.

(** Claim C20: the framing of a message is never in doubt.  For any fields, in an array of any
    size, whatever the case of the names: the transfer coding is read exactly when there is no
    Transfer-Encoding or one, without a Content-Length, that lists chunked or gzip and chunked;
    a length exactly when there is no Transfer-Encoding, and no Content-Length or one that
    is a decimal numeral of a size; so a message that is chunked has no length, one with both
    fields or with one of them repeated is refused by one of the two, and one that passes
    both has one framing.  The expectation and the content coding are read from all fields
    of their name.  No check fails and nothing outside the array is read. *)
Theorem framing_is_unambiguous hs extra : Forall header_ok hs -> len hs < 18446744073709551615 ->
  let te := values (literal "Transfer-Encoding") hs in
  let cl := values (literal "Content-Length") hs in
  let expect := values (literal "Expect") hs in
  exists transfer length,
    lh_http_framing_try_get_transfer (hs ++ extra) (len hs) = Done transfer /\
    lh_http_framing_try_get_content_length (hs ++ extra) (len hs) = Done length /\
    (forall c, transfer = Some c <-> (te = [] /\ c = (false, false)) \/ (exists v, te = [v] /\ cl = [] /\ coding v = Some c)) /\
    (forall n, length = Some n <-> te = [] /\ ((cl = [] /\ n = 0) \/ exists v, cl = [v] /\ length_of v = Some n)) /\
    ~ (exists gzip n, transfer = Some (true, gzip) /\ length = Some n) /\
    (te <> [] /\ cl <> [] -> transfer = None /\ length = None) /\
    lh_http_expect_try_get_continue (hs ++ extra) (len hs)
      = Done (if forallb expected expect then Some (negb (bool_decide (expect = []))) else None) /\
    lh_http_content_encoding_try_is_gzip (hs ++ extra) (len hs)
      = Done (match values (literal "Content-Encoding") hs with
              | [] => Some false
              | [v] => if is_text v "gzip" then Some true else if is_text v "identity" then Some false else None
              | _ => None
              end).
Proof.
  intros Hok Hsmall te cl expect. rewrite transfer_spec, length_spec, expect_spec, encoding_spec by done. fold te cl expect.
  do 2 eexists. split; [reflexivity|]. split; [reflexivity|]. split_and!; try done; destruct te as [|t1 [|]], cl as [|c1 [|]];
    naive_solver.
Qed.
Lemma framing_is_unambiguous_witness :
  exists transfer length,
    lh_http_framing_try_get_transfer [mk_header (literal "transfer-encoding") (literal "GZip , Chunked")] 1 = Done transfer /\
    lh_http_framing_try_get_content_length [mk_header (literal "transfer-encoding") (literal "GZip , Chunked")] 1 = Done length /\
    ~ (exists gzip n, transfer = Some (true, gzip) /\ length = Some n).
Proof.
  destruct (framing_is_unambiguous [mk_header (literal "transfer-encoding") (literal "GZip , Chunked")] [])
    as (transfer & length & H1 & H2 & _ & _ & H3 & _).
  - apply Forall_singleton. split_and!; [apply literal_bytes|apply literal_bytes|by vm_compute].
  - by vm_compute.
  - by exists transfer, length.
Defined.
