(* ===== verification/Chunked.v ===== *)
(** * Chunked transfer coding

    [http/chunked.c], over a whole buffer: the lines of sizes with their extensions, the
    parts, the trailers, and decoding in place, where the view of the input and the buffer
    the chunks move to are one array.  [http/chunked/decoder.c], by pieces: a machine of
    nine phases with the line it gathers and its limits.  Theorems in [ChunkedProofs] and
    [DecoderProofs]. *)
From S2P Require Import Prelude Buffer Bytes Digits Format StrPtr View Http.

(** ** The line of a size *)

Fixpoint extensions_loop (fuel : nat) (cursor : lh_str_cursor_t) : outcome bool :=
  match fuel with
  | O => Undef
  | S fuel =>
    if lh_str_cursor_is_end cursor then mret true else
    '(cursor, _) ← lh_http_cursor_skip_ows cursor;
    '(cursor, ok) ← lh_str_cursor_skip_char cursor lh_char_map_semicolon;
    if negb ok then mret false else
    '(cursor, _) ← lh_http_cursor_skip_ows cursor;
    '(cursor, n) ← lh_http_cursor_skip_token cursor;
    if n =? 0 then mret false else
    let after_name := lh_str_cursor_get_pos cursor in
    '(cursor, _) ← lh_http_cursor_skip_ows cursor;
    '(cursor, ok) ← lh_str_cursor_skip_char cursor lh_char_map_equals;
    if negb ok then extensions_loop fuel (lh_str_cursor_set_pos cursor after_name) else
    '(cursor, _) ← lh_http_cursor_skip_ows cursor;
    c ← lh_str_cursor_get_char cursor;
    if c =? lh_char_map_dquot then
      '(cursor, ok) ← lh_http_cursor_try_skip_quoted cursor;
      if negb ok then mret false else extensions_loop fuel cursor
    else
      '(cursor, n) ← lh_http_cursor_skip_token cursor;
      if n =? 0 then mret false else extensions_loop fuel cursor
  end.
Definition lh_http_chunked_are_extensions_valid (text : lh_str_view_t) : outcome bool :=
  extensions_loop (S (length text)) (lh_str_cursor_init (mk_cursor [] 0) text).
(** The size, when the line is valid. *)
Definition lh_http_chunked_try_parse_size (line : lh_str_view_t) : outcome (option Z) :=
  let text := lh_str_view_get_data line in
  let size := lh_str_view_get_size line in
  if size =? 0 then mret None else
  digits ← lh_str_ptr_count_radix_digits (Some text) size 16;
  if digits =? 0 then mret None else
  '(value, ok) ← lh_str_ptr_parse_radix_ullong (Some text) digits 16 LH_USIZE_T_MAX (Some 0);
  if negb ok then mret None else
  extensions ← lh_str_view_from_offset line digits (size - digits);
  valid ← lh_http_chunked_are_extensions_valid extensions;
  if negb valid then mret None else
  mret value.
Definition lh_http_chunked_parse_size (line : lh_str_view_t) : outcome Z :=
  size ← lh_http_chunked_try_parse_size line;
  match size with
  | Some size => mret size
  | None => Fault lh_runtime_error_code_invalid_range
  end.

(** ** A whole buffer *)

(** The parser without limits, which the functions below make afresh. *)
Definition unlimited : lh_http_parser_t :=
  default (mk_parser 0 0 0 0 0)
    (lh_http_parser_set_limits (lh_http_parser_init (Some (mk_parser 0 0 0 0 0))) LH_USIZE_T_MAX LH_USIZE_T_MAX).
(** The status, and the start of the data, its size and what follows when it is complete. *)
Definition lh_http_chunked_parse_part (input : lh_str_view_t) (offset : Z) : outcome (Z * option (Z * Z * Z)) :=
  let size := lh_str_view_get_size input in
  if offset >? size then mret (lh_http_parse_error, None) else
  '(_, status, end_) ← lh_http_parser_find_line unlimited input offset 0;
  if negb (status =? lh_http_parse_complete) then mret (status, None) else
  line ← lh_str_view_from_offset input offset (end_ - offset);
  length ← lh_http_chunked_try_parse_size line;
  match length with
  | None => mret (lh_http_parse_error, None)
  | Some length =>
    let start := u64 (end_ + 2) in
    let left := u64 (size - start) in
    let text := lh_str_view_get_data input in
    if negb (length =? 0) then
      if left <=? length then mret (lh_http_parse_incomplete, None) else
      c ← load text (u64 (start + length));
      if negb (c =? lh_char_map_cr) then mret (lh_http_parse_error, None) else
      if left - length <? 2 then mret (lh_http_parse_incomplete, None) else
      c ← load text (u64 (u64 (start + length) + 1));
      if negb (c =? lh_char_map_lf) then mret (lh_http_parse_error, None) else
      mret (lh_http_parse_complete, Some (start, length, u64 (u64 (start + length) + 2)))
    else mret (lh_http_parse_complete, Some (start, length, start))
  end.
Fixpoint trailers_loop (fuel : nat) (parser : lh_http_parser_t) (input : lh_str_view_t) (offset : Z)
    : outcome (Z * option Z) :=
  match fuel with
  | O => Undef
  | S fuel =>
    '(parser, status, end_) ← lh_http_parser_find_line parser input offset 0;
    if negb (status =? lh_http_parse_complete) then mret (status, None) else
    if end_ =? offset then mret (lh_http_parse_complete, Some (u64 (end_ + 2))) else
    '(parser, _, status) ← lh_http_parser_parse_field parser input offset end_ no_header;
    if negb (status =? lh_http_parse_complete) then mret (lh_http_parse_error, None) else
    trailers_loop fuel parser input (u64 (end_ + 2))
  end.
Definition lh_http_chunked_parse_trailers (input : lh_str_view_t) (offset : Z) : outcome (Z * option Z) :=
  if offset >? lh_str_view_get_size input then mret (lh_http_parse_error, None) else
  trailers_loop (S (length input)) unlimited input offset.
(** The parts up to the last: where it ends and the sum of the sizes, or the status to return. *)
Fixpoint scan_loop (fuel : nat) (input : lh_str_view_t) (offset total : Z) : outcome (Z + Z * Z) :=
  match fuel with
  | O => Undef
  | S fuel =>
    '(status, part) ← lh_http_chunked_parse_part input offset;
    match part with
    | None => mret (inl status)
    | Some (_, length, next) =>
      if length =? 0 then mret (inr (next, total)) else
      if length >? LH_USIZE_T_MAX - total then mret (inl lh_http_parse_error) else
      scan_loop fuel input next (u64 (total + length))
    end
  end.
Definition lh_http_chunked_scan (input : lh_str_view_t) : outcome (Z * option (Z * Z)) :=
  r ← scan_loop (S (length input)) input 0 0;
  match r with
  | inl status => mret (status, None)
  | inr (offset, total) =>
    '(status, next) ← lh_http_chunked_parse_trailers input offset;
    mret (status, next ← next; Some (next, total))
  end.
(** [lh_memory_std_move(data + written, data + start, length)] *)
Definition move_within (data : buffer) (written start length : Z) : outcome buffer :=
  copy_bytes data written (drop (Z.to_nat start) data) length.
(** The second walk: the view reads the buffer as the moves have left it. *)
Fixpoint decode_loop (fuel : nat) (data : buffer) (size offset written : Z) : outcome (buffer * bool) :=
  match fuel with
  | O => Undef
  | S fuel =>
    '(status, part) ← lh_http_chunked_parse_part (lh_str_view_init_by_size data size) offset;
    match part with
    | None => mret (data, false)
    | Some (start, length, next) =>
      if length =? 0 then mret (data, true) else
      data ← move_within data written start length;
      decode_loop fuel data size next (u64 (written + length))
    end
  end.
(** The buffer, the status, and [*consumed] and [*decoded] when it is complete. *)
Definition lh_http_chunked_decode (data : buffer) (size : Z) : outcome (buffer * Z * option (Z * Z)) :=
  '(status, r) ← lh_http_chunked_scan (lh_str_view_init_by_size data size);
  match r with
  | None => mret (data, status, None)
  | Some (wire, output) =>
    '(data, ok) ← decode_loop (S (Z.to_nat size)) data size 0 0;
    if negb ok then mret (data, lh_http_parse_error, None) else
    mret (data, lh_http_parse_complete, Some (wire, output))
  end.

(** ** By pieces *)

Inductive lh_http_chunked_decoder_phase_t :=
  | lh_http_chunked_decoder_phase_size
  | lh_http_chunked_decoder_phase_size_lf
  | lh_http_chunked_decoder_phase_data
  | lh_http_chunked_decoder_phase_data_cr
  | lh_http_chunked_decoder_phase_data_lf
  | lh_http_chunked_decoder_phase_trailer
  | lh_http_chunked_decoder_phase_trailer_lf
  | lh_http_chunked_decoder_phase_done
  | lh_http_chunked_decoder_phase_error.
#[export] Instance phase_eq_dec : EqDecision lh_http_chunked_decoder_phase_t.
Proof. solve_decision. Defined.

Record lh_http_chunked_decoder_t := mk_decoder {
  dec_line : buffer; dec_line_capacity : Z; dec_line_size : Z; dec_remaining : Z; dec_decoded : Z;
  dec_decoded_limit : Z; dec_metadata : Z; dec_metadata_limit : Z; dec_phase : lh_http_chunked_decoder_phase_t
}.
Definition lh_http_chunked_decoder_get_line := dec_line.
Definition lh_http_chunked_decoder_set_line (d : lh_http_chunked_decoder_t) v := mk_decoder v (dec_line_capacity d)
  (dec_line_size d) (dec_remaining d) (dec_decoded d) (dec_decoded_limit d) (dec_metadata d) (dec_metadata_limit d) (dec_phase d).
Definition lh_http_chunked_decoder_get_line_capacity := dec_line_capacity.
Definition lh_http_chunked_decoder_set_line_capacity (d : lh_http_chunked_decoder_t) v := mk_decoder (dec_line d) v
  (dec_line_size d) (dec_remaining d) (dec_decoded d) (dec_decoded_limit d) (dec_metadata d) (dec_metadata_limit d) (dec_phase d).
Definition lh_http_chunked_decoder_get_line_size := dec_line_size.
Definition lh_http_chunked_decoder_set_line_size (d : lh_http_chunked_decoder_t) v := mk_decoder (dec_line d) (dec_line_capacity d)
  v (dec_remaining d) (dec_decoded d) (dec_decoded_limit d) (dec_metadata d) (dec_metadata_limit d) (dec_phase d).
Definition lh_http_chunked_decoder_get_remaining := dec_remaining.
Definition lh_http_chunked_decoder_set_remaining (d : lh_http_chunked_decoder_t) v := mk_decoder (dec_line d) (dec_line_capacity d)
  (dec_line_size d) v (dec_decoded d) (dec_decoded_limit d) (dec_metadata d) (dec_metadata_limit d) (dec_phase d).
Definition lh_http_chunked_decoder_get_decoded := dec_decoded.
Definition lh_http_chunked_decoder_set_decoded (d : lh_http_chunked_decoder_t) v := mk_decoder (dec_line d) (dec_line_capacity d)
  (dec_line_size d) (dec_remaining d) v (dec_decoded_limit d) (dec_metadata d) (dec_metadata_limit d) (dec_phase d).
Definition lh_http_chunked_decoder_get_decoded_limit := dec_decoded_limit.
Definition lh_http_chunked_decoder_set_decoded_limit (d : lh_http_chunked_decoder_t) v := mk_decoder (dec_line d) (dec_line_capacity d)
  (dec_line_size d) (dec_remaining d) (dec_decoded d) v (dec_metadata d) (dec_metadata_limit d) (dec_phase d).
Definition lh_http_chunked_decoder_get_metadata := dec_metadata.
Definition lh_http_chunked_decoder_set_metadata (d : lh_http_chunked_decoder_t) v := mk_decoder (dec_line d) (dec_line_capacity d)
  (dec_line_size d) (dec_remaining d) (dec_decoded d) (dec_decoded_limit d) v (dec_metadata_limit d) (dec_phase d).
Definition lh_http_chunked_decoder_get_metadata_limit := dec_metadata_limit.
Definition lh_http_chunked_decoder_set_metadata_limit (d : lh_http_chunked_decoder_t) v := mk_decoder (dec_line d) (dec_line_capacity d)
  (dec_line_size d) (dec_remaining d) (dec_decoded d) (dec_decoded_limit d) (dec_metadata d) v (dec_phase d).
Definition lh_http_chunked_decoder_get_phase := dec_phase.
Definition lh_http_chunked_decoder_set_phase (d : lh_http_chunked_decoder_t) v := mk_decoder (dec_line d) (dec_line_capacity d)
  (dec_line_size d) (dec_remaining d) (dec_decoded d) (dec_decoded_limit d) (dec_metadata d) (dec_metadata_limit d) v.
Definition lh_http_chunked_decoder_init (self : lh_http_chunked_decoder_t) (line : buffer)
    (line_capacity decoded_limit metadata_limit : Z) : lh_http_chunked_decoder_t :=
  let self := lh_http_chunked_decoder_set_line self line in
  let self := lh_http_chunked_decoder_set_line_capacity self line_capacity in
  let self := lh_http_chunked_decoder_set_line_size self 0 in
  let self := lh_http_chunked_decoder_set_remaining self 0 in
  let self := lh_http_chunked_decoder_set_decoded self 0 in
  let self := lh_http_chunked_decoder_set_decoded_limit self decoded_limit in
  let self := lh_http_chunked_decoder_set_metadata self 0 in
  let self := lh_http_chunked_decoder_set_metadata_limit self metadata_limit in
  lh_http_chunked_decoder_set_phase self lh_http_chunked_decoder_phase_size.

Definition lh_http_chunked_decoder_try_finish_line (self : lh_http_chunked_decoder_t)
    : outcome (lh_http_chunked_decoder_t * bool) :=
  let line := lh_str_view_init_by_size (lh_http_chunked_decoder_get_line self) (lh_http_chunked_decoder_get_line_size self) in
  let phase := lh_http_chunked_decoder_get_phase self in
  r ← (if bool_decide (phase = lh_http_chunked_decoder_phase_size_lf) then
         size ← lh_http_chunked_try_parse_size line;
         match size with
         | None => mret None
         | Some size =>
           if size >? u64 (lh_http_chunked_decoder_get_decoded_limit self - lh_http_chunked_decoder_get_decoded self)
           then mret None else
           let self := lh_http_chunked_decoder_set_remaining self size in
           mret (Some (lh_http_chunked_decoder_set_phase self
             (if size =? 0 then lh_http_chunked_decoder_phase_trailer else lh_http_chunked_decoder_phase_data)))
         end
       else if bool_decide (phase = lh_http_chunked_decoder_phase_trailer_lf) then
         if lh_str_view_is_empty line then mret (Some (lh_http_chunked_decoder_set_phase self lh_http_chunked_decoder_phase_done))
         else
           parser ← assert_set (lh_http_parser_init (Some (mk_parser 0 0 0 0 0)));
           '(_, _, status) ← lh_http_parser_parse_field parser line 0 (lh_str_view_get_size line) no_header;
           if negb (status =? lh_http_parse_complete) then mret None else
           mret (Some (lh_http_chunked_decoder_set_phase self lh_http_chunked_decoder_phase_trailer))
       else mret None);
  match r with
  | None => mret (self, false)
  | Some self => mret (lh_http_chunked_decoder_set_line_size self 0, true)
  end.
Definition lh_http_chunked_decoder_finish_line (self : lh_http_chunked_decoder_t) : outcome lh_http_chunked_decoder_t :=
  '(self, ok) ← lh_http_chunked_decoder_try_finish_line self;
  _ ← fail_ifn ok lh_runtime_error_code_invalid_range;
  mret self.

(** One byte of the framing, counted already. *)
Definition feed_char (self : lh_http_chunked_decoder_t) (phase : lh_http_chunked_decoder_phase_t) (ch : Z)
    : outcome lh_http_chunked_decoder_t :=
  let fail := lh_http_chunked_decoder_set_phase self lh_http_chunked_decoder_phase_error in
  match phase with
  | lh_http_chunked_decoder_phase_size | lh_http_chunked_decoder_phase_trailer =>
    if ch =? lh_char_map_cr then
      mret (lh_http_chunked_decoder_set_phase self
        (if bool_decide (phase = lh_http_chunked_decoder_phase_size) then lh_http_chunked_decoder_phase_size_lf
         else lh_http_chunked_decoder_phase_trailer_lf))
    else if (ch =? lh_char_map_lf) ||
            (lh_http_chunked_decoder_get_line_size self >=? lh_http_chunked_decoder_get_line_capacity self) then mret fail
    else
      let length := lh_http_chunked_decoder_get_line_size self in
      line ← copy_bytes (lh_http_chunked_decoder_get_line self) length [ch] 1;
      let self := lh_http_chunked_decoder_set_line self line in
      mret (lh_http_chunked_decoder_set_line_size self (u64 (length + 1)))
  | lh_http_chunked_decoder_phase_size_lf | lh_http_chunked_decoder_phase_trailer_lf =>
    if negb (ch =? lh_char_map_lf) then mret fail else
    '(self, ok) ← lh_http_chunked_decoder_try_finish_line self;
    mret (if ok : bool then self else lh_http_chunked_decoder_set_phase self lh_http_chunked_decoder_phase_error)
  | lh_http_chunked_decoder_phase_data_cr =>
    mret (lh_http_chunked_decoder_set_phase self
      (if ch =? lh_char_map_cr then lh_http_chunked_decoder_phase_data_lf else lh_http_chunked_decoder_phase_error))
  | lh_http_chunked_decoder_phase_data_lf =>
    mret (lh_http_chunked_decoder_set_phase self
      (if ch =? lh_char_map_lf then lh_http_chunked_decoder_phase_size else lh_http_chunked_decoder_phase_error))
  | _ => mret fail
  end.
Fixpoint feed_loop (fuel : nat) (self : lh_http_chunked_decoder_t) (text : buffer) (size : Z) (output : buffer)
    (capacity in_ out : Z) : outcome (lh_http_chunked_decoder_t * buffer * Z * Z) :=
  match fuel with
  | O => Undef
  | S fuel =>
    if in_ <? size then
      let phase := lh_http_chunked_decoder_get_phase self in
      match phase with
      | lh_http_chunked_decoder_phase_done | lh_http_chunked_decoder_phase_error => mret (self, output, in_, out)
      | lh_http_chunked_decoder_phase_data =>
        let amount := Z.min (lh_http_chunked_decoder_get_remaining self) (Z.min (size - in_) (u64 (capacity - out))) in
        if amount =? 0 then mret (self, output, in_, out) else
        output ← copy_bytes output out (drop (Z.to_nat in_) text) amount;
        let in_ := u64 (in_ + amount) in
        let out := u64 (out + amount) in
        let self := lh_http_chunked_decoder_set_decoded self (u64 (lh_http_chunked_decoder_get_decoded self + amount)) in
        let self := lh_http_chunked_decoder_set_remaining self (u64 (lh_http_chunked_decoder_get_remaining self - amount)) in
        let self := if lh_http_chunked_decoder_get_remaining self =? 0
                    then lh_http_chunked_decoder_set_phase self lh_http_chunked_decoder_phase_data_cr else self in
        feed_loop fuel self text size output capacity in_ out
      | _ =>
        if lh_http_chunked_decoder_get_metadata self >=? lh_http_chunked_decoder_get_metadata_limit self then
          mret (lh_http_chunked_decoder_set_phase self lh_http_chunked_decoder_phase_error, output, in_, out)
        else
        ch ← load text in_;
        let in_ := u64 (in_ + 1) in
        let self := lh_http_chunked_decoder_set_metadata self (u64 (lh_http_chunked_decoder_get_metadata self + 1)) in
        self ← feed_char self phase ch;
        feed_loop fuel self text size output capacity in_ out
      end
    else mret (self, output, in_, out)
  end.
(** The decoder, the output, [*consumed], [*written] and the status. *)
Definition lh_http_chunked_decoder_feed (self : lh_http_chunked_decoder_t) (input : lh_str_view_t) (output : buffer)
    (capacity : Z) : outcome (lh_http_chunked_decoder_t * buffer * Z * Z * Z) :=
  let text := lh_str_view_get_data input in
  let size := lh_str_view_get_size input in
  '(self, output, in_, out) ← feed_loop (S (length input)) self text size output capacity 0 0;
  let status :=
    match lh_http_chunked_decoder_get_phase self with
    | lh_http_chunked_decoder_phase_done => lh_http_parse_complete
    | lh_http_chunked_decoder_phase_error => lh_http_parse_error
    | _ => lh_http_parse_incomplete
    end in
  mret (self, output, in_, out, status).

(** "4;a=b CRLF Wiki CRLF 0 CRLF x:y CRLF CRLF !" *)
Definition wiki : buffer := [52; 59; 97; 61; 98; 13; 10; 87; 105; 107; 105; 13; 10; 48; 13; 10; 120; 58; 121; 13; 10; 13; 10; 33].
Example wiki_decode : lh_http_chunked_decode wiki 24
  = Done ([87; 105; 107; 105] ++ drop 4 wiki, lh_http_parse_complete, Some (23, 4)).
Proof. vm_compute. done. Qed.
Example wiki_by_pieces :
  let d := lh_http_chunked_decoder_init (mk_decoder [] 0 0 0 0 0 0 0 lh_http_chunked_decoder_phase_done) (local 8) 8 100 100 in
  match lh_http_chunked_decoder_feed d wiki (local 5) 5 with
  | Done (_, output, n, m, status) => (output, n, m, status) = ([87; 105; 107; 105; 0], 23, 4, lh_http_parse_complete)
  | _ => False
  end.
Proof. vm_compute. done. Qed.
