(* ===== verification/ChunkedSpec.v ===== *)
(** * The grammar of the chunked transfer coding

    What a chunked body is on the wire, after RFC 9112: chunks of a size line, data and a
    line end, a last chunk of size zero, and trailer fields up to an empty line.  [chunked]
    relates the wire to its content; [cap] bounds the length of a line.  Then: what of a
    line [Chunked] accepts, against the grammar of sizes, extensions and fields. *)
From S2P Require Import Prelude Buffer Bytes Digits DigitsProofs Format StrPtr View ViewProofs Http HttpProofs Chunked.

(** ** The grammar *)

Inductive quoted_text : list Z -> Prop :=
  | quoted_nil : quoted_text []
  | quoted_char c t : lh_http_is_field_char c = true -> c <> 34 -> c <> 92 -> quoted_text t -> quoted_text (c :: t)
  | quoted_pair c t : lh_http_is_field_char c = true -> quoted_text t -> quoted_text (92 :: c :: t).
(** What may follow the name of an extension. *)
Inductive ext_value : list Z -> Prop :=
  | value_none : ext_value []
  | value_token a b t : all_in is_ows a -> all_in is_ows b -> is_token t -> ext_value (a ++ 61 :: b ++ t)
  | value_quoted a b q : all_in is_ows a -> all_in is_ows b -> quoted_text q -> ext_value (a ++ 61 :: b ++ 34 :: q ++ [34]).
Inductive extensions : list Z -> Prop :=
  | ext_none : extensions []
  | ext_more a b name value rest : all_in is_ows a -> all_in is_ows b -> is_token name -> ext_value value ->
      extensions rest -> extensions (a ++ 59 :: b ++ name ++ value ++ rest).
(** A line of a chunk's size: the hexadecimal numeral of [n], and extensions. *)
Inductive size_line (n : Z) : list Z -> Prop :=
  | size_line_intro digits exts : digits <> [] -> numeral (rvalue 16) 16 digits = Some n -> n <= LH_USIZE_T_MAX ->
      extensions exts -> size_line n (digits ++ exts).

Section Body.
Variable cap : Z.
Inductive trailers : list Z -> Prop :=
  | trailers_end : trailers [CR; LF]
  | trailers_field line rest : field_line line -> len line <= cap -> trailers rest ->
      trailers (line ++ CR :: LF :: rest).
Inductive chunked : list Z -> list Z -> Prop :=
  | chunked_last line rest : size_line 0 line -> len line <= cap -> trailers rest ->
      chunked (line ++ CR :: LF :: rest) []
  | chunked_chunk line n data wire content : size_line n line -> len line <= cap -> 0 < n -> len data = n ->
      chunked wire content -> chunked (line ++ CR :: LF :: data ++ CR :: LF :: wire) (data ++ content).
(** A body that breaks off: all that is there is in order, and what breaks off is a line, or the
    data of a chunk, or the line end after it. *)
Definition open_data (n : Z) (t : list Z) : Prop := len t <= n \/ exists data, t = data ++ [CR] /\ len data = n.
Inductive open_trailers : list Z -> Prop :=
  | open_trailers_line t : open_line cap t -> open_trailers t
  | open_trailers_field line t : field_line line -> len line <= cap -> open_trailers t -> open_trailers (line ++ CR :: LF :: t).
Inductive open_body : list Z -> Prop :=
  | open_body_line t : open_line cap t -> open_body t
  | open_body_data line n t : size_line n line -> len line <= cap -> 0 < n -> open_data n t -> open_body (line ++ CR :: LF :: t)
  | open_body_chunk line n data t : size_line n line -> len line <= cap -> 0 < n -> len data = n ->
      open_body t -> open_body (line ++ CR :: LF :: data ++ CR :: LF :: t)
  | open_body_last line t : size_line 0 line -> len line <= cap -> open_trailers t -> open_body (line ++ CR :: LF :: t).
End Body.

(** ** Extensions *)

Fixpoint quoted_rest (t : list Z) : option (list Z) :=
  match t with
  | [] => None
  | c :: t =>
    if c =? 34 then Some t else
    if c =? 92 then
      match t with
      | d :: t' => if lh_http_is_field_char d then quoted_rest t' else None
      | [] => None
      end
    else if lh_http_is_field_char c then quoted_rest t else None
  end.
Definition after_equals (t : list Z) : option (list Z) :=
  let t := while_out is_ows t in
  match t with
  | c :: q => if c =? 34 then quoted_rest q else
              if decide (while_in is_tchar t = []) then None else Some (while_out is_tchar t)
  | [] => None
  end.
(** What is left after one extension. *)
Definition next_ext (t : list Z) : option (list Z) :=
  match while_out is_ows t with
  | c :: t =>
    if c =? 59 then
      let t := while_out is_ows t in
      if decide (while_in is_tchar t = []) then None else
      let t := while_out is_tchar t in
      match while_out is_ows t with
      | c :: v => if c =? 61 then after_equals v else Some t
      | [] => Some t
      end
    else None
  | [] => None
  end.

Lemma quoted_rest_sound : forall n t t', (length t < n)%nat -> quoted_rest t = Some t' ->
  exists q, quoted_text q /\ t = q ++ 34 :: t'.
Proof.
  induction n as [|n IH]; intros t t' Hn; [lia|]. destruct t as [|c t]; cbn [quoted_rest length] in *; [done|].
  destruct (Z.eqb_spec c 34) as [->|]; [intros [= ->]; exists []; by split; [constructor|]|].
  destruct (Z.eqb_spec c 92) as [->|].
  - destruct t as [|d t]; [done|]. destruct (lh_http_is_field_char d) eqn:Ed; [|done].
    intros (q & Hq & ->)%IH; [|cbn [length] in Hn; lia]. exists (92 :: d :: q). by split; [constructor|].
  - destruct (lh_http_is_field_char c) eqn:Ec; [|done]. intros (q & Hq & ->)%IH; [|lia].
    exists (c :: q). by split; [constructor|].
Qed.
Lemma quoted_rest_complete q t' : quoted_text q -> quoted_rest (q ++ 34 :: t') = Some t'.
Proof.
  induction 1 as [|c t Hc H1 H2 Ht IH|c t Hc Ht IH]; cbn [app quoted_rest]; [done| |].
  - by rewrite !(proj2 (Z.eqb_neq _ _)), Hc.
  - change (92 =? 34) with false. change (92 =? 92) with true. cbv iota. by rewrite Hc.
Qed.

Lemma token_not_ows c : is_tchar c = true -> is_ows c = false.
Proof.
  unfold is_tchar, is_ows. intros Hc. destruct (Z.eqb_spec c 32) as [->|]; [by vm_compute in Hc|].
  destruct (Z.eqb_spec c 9) as [->|]; [by vm_compute in Hc|done].
Qed.
Lemma token_stops_ows t r : is_token t -> stops is_ows (t ++ r).
Proof.
  intros [Ht Hall]. destruct t as [|c t]; [done|]. inversion Hall; subst. by apply token_not_ows.
Qed.
Lemma ows_stops_token a c r : all_in is_ows a -> is_tchar c = false -> stops is_tchar (a ++ c :: r).
Proof.
  intros Ha Hc. destruct a as [|d a]; [done|]. inversion Ha; subst. cbn.
  destruct (is_tchar d) eqn:E; [|done]. apply token_not_ows in E. congruence.
Qed.
Lemma extensions_stop_token t : extensions t -> stops is_tchar t.
Proof. intros [|a b name value rest Ha]; [done|]. by apply ows_stops_token. Qed.
Lemma after_equals_complete a v rest : all_in is_ows a -> stops is_tchar rest ->
  (is_token v -> after_equals (a ++ v ++ rest) = Some rest) /\
  (quoted_text v -> after_equals (a ++ 34 :: v ++ 34 :: rest) = Some rest).
Proof.
  intros Ha Hr. split; intros Hv; unfold after_equals.
  - rewrite while_out_app by (done || by apply token_stops_ows). destruct Hv as [Hne Hall].
    rewrite while_in_app, while_out_app by done. destruct v as [|c v]; [done|]. cbn [app].
    inversion Hall; subst. destruct (Z.eqb_spec c 34) as [->|]; [by vm_compute in H1|].
    by rewrite decide_False.
  - rewrite while_out_app by done. change (34 =? 34) with true. cbv iota. by apply quoted_rest_complete.
Qed.
Lemma next_ext_complete a b name value rest :
  all_in is_ows a -> all_in is_ows b -> is_token name -> ext_value value -> extensions rest ->
  next_ext (a ++ 59 :: b ++ name ++ value ++ rest) = Some rest.
Proof.
  intros Ha Hb Hn Hv Hr. unfold next_ext. rewrite while_out_app by done. change (59 =? 59) with true. cbv iota.
  rewrite while_out_app by (done || by apply token_stops_ows).
  assert (stops is_tchar (value ++ rest)) as Hs.
  { destruct Hv as [|a' b' t Ha' Hb' Ht|a' b' q Ha' Hb' Hq]; [by apply extensions_stop_token|..];
      rewrite <-app_assoc; cbn [app]; by apply ows_stops_token. }
  destruct Hn as [Hne Hall]. rewrite while_in_app, while_out_app by done. rewrite decide_False by done.
  apply extensions_stop_token in Hr as Hr'.
  destruct Hv as [|a' b' t Ha' Hb' Ht|a' b' q Ha' Hb' Hq].
  - cbn [app]. destruct Hr as [|a' b' name' value' rest' Ha']; [done|]. by rewrite while_out_app.
  - rewrite <-app_assoc. cbn [app]. rewrite while_out_app by done. change (61 =? 61) with true. cbv iota.
    rewrite <-app_assoc. by apply after_equals_complete.
  - rewrite <-app_assoc. cbn [app]. rewrite while_out_app by done. change (61 =? 61) with true. cbv iota.
    rewrite <-app_assoc. cbn [app]. rewrite <-app_assoc. by apply after_equals_complete.
Qed.
Lemma token_run t : while_in is_tchar t <> [] -> is_token (while_in is_tchar t).
Proof. intros. split; [done|apply while_in_all]. Qed.
Lemma after_equals_sound t t' : after_equals t = Some t' ->
  exists a v, all_in is_ows a /\ t = a ++ v ++ t' /\ (is_token v \/ exists q, v = 34 :: q ++ [34] /\ quoted_text q).
Proof.
  unfold after_equals. destruct (while_cases is_ows t) as (a & r & -> & Ha & _ & _ & ->).
  intros H. exists a. destruct r as [|c u]; [done|]. destruct (Z.eqb_spec c 34) as [->|].
  - apply (quoted_rest_sound (S (length u))) in H as (q & Hq & ->); [|lia]. exists (34 :: q ++ [34]).
    split; [done|]. split; [by rewrite <-app_comm_cons, <-app_assoc|eauto].
  - case_decide as Hd; [done|]. injection H as <-. exists (while_in is_tchar (c :: u)).
    split; [done|]. split; [by rewrite <-while_split|left; by apply token_run].
Qed.
Lemma next_ext_sound t t' : next_ext t = Some t' ->
  exists a b name value, all_in is_ows a /\ all_in is_ows b /\ is_token name /\ ext_value value /\
    t = a ++ 59 :: b ++ name ++ value ++ t'.
Proof.
  unfold next_ext. destruct (while_cases is_ows t) as (a & u & -> & Ha & _ & _ & ->).
  destruct u as [|c u]; [done|]. destruct (Z.eqb_spec c 59) as [->|]; [|done].
  destruct (while_cases is_ows u) as (b & w & -> & Hb & _ & _ & ->). case_decide as Hd; [done|].
  apply token_run in Hd as Hn. destruct (while_cases is_tchar w) as (name & v & -> & _ & _ & E & ->).
  rewrite E in Hn. intros H. exists a, b, name.
  destruct (while_cases is_ows v) as (d & x & -> & Hd' & _ & _ & E'). rewrite E' in H.
  assert (d ++ x = t' \/ exists y, x = 61 :: y /\ after_equals y = Some t') as [<-|(y & -> & Hy)].
  { destruct x as [|c x]; [left; congruence|]. destruct (Z.eqb_spec c 61) as [->|]; [eauto|left; congruence]. }
  { exists []. split_and!; try done. constructor. }
  apply after_equals_sound in Hy as (b' & val & Hb' & -> & Hval).
  exists (d ++ 61 :: b' ++ val). split_and!; try done.
  - destruct Hval as [Hval|(q & -> & Hq)]; by constructor.
  - by rewrite <-!app_assoc, <-app_comm_cons, <-app_assoc.
Qed.
Lemma next_ext_length t t' : next_ext t = Some t' -> (length t' < length t)%nat.
Proof.
  intros (a & b & name & value & _ & _ & _ & _ & ->)%next_ext_sound. rewrite !length_app. cbn [length].
  rewrite !length_app. lia.
Qed.

(** ** The scans of a cursor *)

(** The scan goes past [t] up to [r], or fails. *)
Definition reaches (m : outcome (lh_str_cursor_t * bool)) (all : list Z) (r : option (list Z)) : Prop :=
  match r with
  | Some t' => exists pre', m = Done (at_text pre' t', true) /\ pre' ++ t' = all
  | None => exists c, m = Done (c, false)
  end.
Lemma quoted_loop_spec : forall fuel pre t, (length t < fuel)%nat -> fits (pre ++ t) ->
  reaches (quoted_loop fuel (at_text pre t)) (pre ++ t) (quoted_rest t).
Proof.
  induction fuel as [|fuel IH]; intros pre t Hfuel Hf; [lia|]. cbn [quoted_loop]. rewrite cursor_is_end.
  destruct t as [|c t]; [exists (at_text pre []); by rewrite bool_decide_true, cursor_skip_char by done|].
  rewrite bool_decide_false by done. rewrite cursor_get_char, bind_done by done.
  change (default 0 (head (c :: t))) with c. cbn [quoted_rest length] in *.
  change lh_char_map_dquot with 34. change lh_char_map_backslash with 92.
  rewrite !cursor_skip_char by done. destruct (Z.eqb_spec c 34) as [->|].
  { eexists. split; [done|]. by rewrite <-app_assoc. }
  rewrite bind_done. assert (fits ((pre ++ [c]) ++ t)) as Hf' by by rewrite <-app_assoc.
  destruct (Z.eqb_spec c 92) as [->|].
  - rewrite cursor_is_end. destruct t as [|d t]; [by eexists|]. rewrite bool_decide_false by done. cbn [andb].
    rewrite cursor_get_char, bind_done by done. change (default 0 (head (d :: t))) with d.
    destruct (lh_http_is_field_char d); cbn [negb]; [|by eexists]. rewrite cursor_next by done.
    specialize (IH ((pre ++ [92]) ++ [d]) t). rewrite <-!app_assoc in *. apply IH; cbn [length] in *; [lia|done].
  - cbn [andb]. rewrite cursor_get_char, bind_done by done. change (default 0 (head (c :: t))) with c.
    destruct (lh_http_is_field_char c); cbn [negb]; [|by eexists]. rewrite cursor_next by done.
    specialize (IH (pre ++ [c]) t). rewrite <-!app_assoc in *. apply IH; cbn [length] in *; [lia|done].
Qed.
Lemma try_skip_quoted_spec pre c t : fits (pre ++ c :: t) ->
  reaches (lh_http_cursor_try_skip_quoted (at_text pre (c :: t))) (pre ++ c :: t)
    (if c =? 34 then quoted_rest t else None).
Proof.
  intros Hf. unfold lh_http_cursor_try_skip_quoted. rewrite cursor_skip_char, bind_done by done.
  change lh_char_map_dquot with 34. destruct (Z.eqb_spec c 34) as [->|]; [|by eexists]. cbn [negb].
  pose proof (quoted_loop_spec (S (length (cursor_text (at_text (pre ++ [34]) t)))) (pre ++ [34]) t) as H.
  rewrite <-app_assoc in H. apply H; [|done]. unfold at_text. cbn [cursor_text]. rewrite !length_app. lia.
Qed.

Lemma len_zero (t : list Z) : (len t =? 0) = bool_decide (t = []).
Proof. by destruct t. Qed.
Lemma extensions_step fuel pre t : t <> [] -> fits (pre ++ t) ->
  match next_ext t with
  | Some t' => exists pre', pre' ++ t' = pre ++ t /\
      extensions_loop (S fuel) (at_text pre t) = extensions_loop fuel (at_text pre' t')
  | None => extensions_loop (S fuel) (at_text pre t) = Done false
  end.
Proof.
  intros Ht Hf. cbn [extensions_loop]. rewrite cursor_is_end, bool_decide_false by done.
  rewrite skip_ows_spec, bind_done by done. unfold next_ext. change lh_char_map_semicolon with 59.
  destruct (while_cases is_ows t) as (a & u & -> & _ & _ & -> & ->). rewrite app_assoc in Hf |- *.
  rewrite cursor_skip_char, bind_done by done. destruct u as [|c u]; [done|].
  destruct (Z.eqb_spec c 59) as [->|]; [|done]. cbn [negb]. rewrite cons_middle, app_assoc in Hf |- *.
  set (pre1 := (pre ++ a) ++ [59]) in *. clearbody pre1.
  rewrite skip_ows_spec, bind_done by done. destruct (while_cases is_ows u) as (b & w & -> & _ & _ & -> & ->).
  rewrite app_assoc in Hf |- *. rewrite skip_token_spec, bind_done by done. rewrite len_zero.
  destruct (while_cases is_tchar w) as (n & v & -> & _ & _ & -> & ->). rewrite app_assoc in Hf |- *.
  case_decide as Hn; [by rewrite bool_decide_true|]. rewrite bool_decide_false by done.
  set (pre2 := (pre1 ++ b) ++ n) in *. clearbody pre2. clear Hn.
  rewrite skip_ows_spec, bind_done by done. change lh_char_map_equals with 61.
  pose proof (while_split is_ows v) as Hv. set (d := while_in is_ows v) in *. set (x := while_out is_ows v) in *.
  assert (lh_str_cursor_set_pos (at_text (pre2 ++ d) x) (lh_str_cursor_get_pos (at_text pre2 v)) = at_text pre2 v) as Hback.
  { unfold lh_str_cursor_set_pos, at_text. cbn. by rewrite <-app_assoc, <-Hv. }
  rewrite cursor_skip_char, bind_done by (by rewrite <-app_assoc, <-Hv).
  destruct x as [|c x]; [cbn [negb]; rewrite Hback; eauto|].
  destruct (Z.eqb_spec c 61) as [->|]; [|cbn [negb]; rewrite Hback; eauto]. cbn [negb]. clear Hback.
  rewrite Hv in Hf |- *. rewrite cons_middle, !app_assoc in Hf |- *.
  set (pre3 := (pre2 ++ d) ++ [61]) in *. clearbody pre3. clearbody d. clear Hv.
  unfold after_equals. rewrite skip_ows_spec, bind_done by done.
  destruct (while_cases is_ows x) as (e & y & -> & _ & _ & -> & ->). rewrite app_assoc in Hf |- *.
  rewrite cursor_get_char, bind_done by done. change lh_char_map_dquot with 34. destruct y as [|c y].
  { change (default 0 (head []) =? 34) with false. cbv iota. by rewrite skip_token_spec, bind_done by done. }
  change (default 0 (head (c :: y))) with c. pose proof (try_skip_quoted_spec (pre3 ++ e) c y Hf) as Hq.
  destruct (c =? 34).
  - destruct (quoted_rest y) as [t'|]; [destruct Hq as (pre' & -> & Hp)|destruct Hq as [c' ->]]; rewrite bind_done; cbn [negb]; eauto.
  - rewrite skip_token_spec, bind_done by done. rewrite len_zero. case_decide as Hd; [by rewrite bool_decide_true|].
    rewrite bool_decide_false by done. eexists. split; [|done]. by rewrite <-app_assoc, <-while_split.
Qed.
Lemma extensions_loop_spec : forall fuel pre t, (length t < fuel)%nat -> fits (pre ++ t) ->
  exists b, extensions_loop fuel (at_text pre t) = Done b /\ (b = true <-> extensions t).
Proof.
  induction fuel as [|fuel IH]; intros pre t Hfuel Hf; [lia|]. destruct (decide (t = [])) as [->|Ht].
  { exists true. cbn [extensions_loop]. rewrite cursor_is_end. split; [done|]. split; [constructor|done]. }
  pose proof (extensions_step fuel pre t Ht Hf) as H. destruct (next_ext t) as [t'|] eqn:E.
  - destruct H as (pre' & Hp & ->). apply next_ext_length in E as Hl.
    destruct (IH pre' t') as (b & -> & Hb); [lia|by rewrite Hp|]. exists b. split; [done|]. rewrite Hb. split.
    + intros Hx. apply next_ext_sound in E as (a & b' & name & value & Ha & Hb' & Hn & Hv & ->). by constructor.
    + intros Hx. destruct Hx as [|a b' name value rest Ha Hb' Hn Hv Hr]; [done|].
      rewrite next_ext_complete in E by done. by injection E as <-.
  - exists false. split; [done|]. split; [done|]. intros Hx. exfalso.
    destruct Hx as [|a b' name value rest Ha Hb' Hn Hv Hr]; [done|]. by rewrite next_ext_complete in E.
Qed.

(** ** The line of a size *)

Definition is_hex (c : Z) : bool := bool_decide (is_Some (rvalue 16 c)).
Lemma hex_prefix_spec : forall fuel pre t, (length t < fuel)%nat -> fits (pre ++ t) ->
  prefix_loop (fun c => lh_char_is_radix_digit c 16) fuel (pre ++ t) (len (pre ++ t)) (len pre)
  = Done (len (pre ++ while_in is_hex t)).
Proof.
  induction fuel as [|fuel IH]; intros pre t Hfuel Hf; [lia|]. cbn [prefix_loop]. destruct t as [|c t].
  { cbn [while_in]. rewrite app_nil_r. by rewrite Z.ltb_irrefl. }
  rewrite (proj2 (Z.ltb_lt _ _)) by (rewrite length_app; cbn [length]; lia).
  rewrite (load_ok _ _ c) by (rewrite lookup_app_r, Nat.sub_diag by lia; done).
  rewrite bind_done, radix_digit_ok by lia. cbn [while_in length] in *. unfold is_hex at 1.
  change (mbind ?f (Done ?b)) with (f b). cbv beta. case_bool_decide; [|by rewrite app_nil_r].
  assert (fits ((pre ++ [c]) ++ t)) as Hf' by by rewrite <-app_assoc.
  specialize (IH (pre ++ [c]) t). rewrite <-!app_assoc in IH. cbn [app] in IH.
  rewrite u64_id by (unfold fits in Hf; rewrite length_app in Hf; cbn [length] in Hf; zb).
  replace (len (pre ++ [c])) with (len pre + 1) in IH by (rewrite length_app; cbn [length]; lia). apply IH; [lia|done].
Qed.
Lemma count_hex_spec t : fits t ->
  lh_str_ptr_count_radix_digits (Some t) (len t) 16 = Done (len (while_in is_hex t)).
Proof. intros. unfold lh_str_ptr_count_radix_digits. apply (hex_prefix_spec _ []); [lia|done]. Qed.
Lemma horner_all_hex digits : forall acc, all_in is_hex digits -> is_Some (horner (rvalue 16) 16 acc digits).
Proof.
  induction digits as [|c digits IH]; intros acc H; [by eexists|]. inversion H as [|x l Hc Hl]; subst.
  cbn [horner]. apply bool_decide_eq_true in Hc as [v ->]. by apply IH.
Qed.
Lemma horner_hex_all digits : forall acc v, horner (rvalue 16) 16 acc digits = Some v -> all_in is_hex digits.
Proof.
  induction digits as [|c digits IH]; intros acc v; cbn [horner]; [constructor|].
  destruct (rvalue 16 c) eqn:E; [|done]. intros H. constructor; [|by eapply IH].
  apply bool_decide_eq_true. eauto.
Qed.
Lemma hex_not_extension t : extensions t -> stops is_hex t.
Proof.
  intros [|a b name value rest Ha]; [done|]. destruct a as [|c a]; [done|]. inversion Ha as [|x l Hc Hl]; subst. cbn.
  unfold is_ows in Hc. apply orb_true_iff in Hc as [->%Z.eqb_eq| ->%Z.eqb_eq]; done.
Qed.
Lemma size_line_unique n m line : size_line n line -> size_line m line -> n = m.
Proof.
  intros [d1 e1 _ H1 _ He1] H. remember (d1 ++ e1) as l eqn:El. destruct H as [d2 e2 _ H2 _ He2].
  apply (f_equal (while_in is_hex)) in El. rewrite !while_in_app in El by
    (eauto using horner_hex_all, hex_not_extension). subst. congruence.
Qed.
Lemma try_parse_size_spec line : fits line ->
  exists r, lh_http_chunked_try_parse_size line = Done r /\ forall n, r = Some n <-> size_line n line.
Proof.
  intros Hf. unfold lh_http_chunked_try_parse_size, lh_str_view_get_data, lh_str_view_get_size. cbv zeta.
  assert (forall r : option Z, (forall n, size_line n line -> while_in is_hex line <> [] -> r = Some n) ->
            (forall n, r = Some n -> size_line n line) -> forall n, r = Some n <-> size_line n line) as Hlift.
  { intros r Hc Hs n. split; [apply Hs|]. intros Hl. apply Hc; [done|]. destruct Hl as [d e Hd Hn _ He].
    rewrite while_in_app by (eauto using horner_hex_all, hex_not_extension). done. }
  rewrite count_hex_spec, bind_done by done.
  destruct (while_cases is_hex line) as (d & e & -> & Hd & Hs & Ed & _). rewrite Ed in *. rewrite !len_zero.
  case_bool_decide as Hnil; [exists None; split; [done|]; apply Hlift; [|done]; intros n _ []; by destruct d|].
  case_bool_decide as Hd0; [exists None; by split; [|apply Hlift]|]. unfold fits in Hf. rewrite length_app in Hf.
  rewrite parse_radix_ullong_spec, bind_done by (rewrite ?length_app; try lia; zb).
  rewrite Nat2Z.id, take_app_length. destruct (horner_all_hex d 0 Hd) as [v Hv].
  assert (accepts (rvalue 16) 16 LH_USIZE_T_MAX d 0 = if v <=? LH_USIZE_T_MAX then (Some v, true) else (Some 0, false)) as ->.
  { unfold accepts, numeral. destruct d; [done|]. by rewrite Hv. }
  assert (forall n, size_line n (d ++ e) -> n = v /\ v <= LH_USIZE_T_MAX /\ extensions e) as Hinv.
  { intros n H. remember (d ++ e) as l eqn:El. destruct H as [d2 e2 Hd2 H2 Hm He2].
    pose proof (f_equal (while_in is_hex) El) as E1. pose proof (f_equal (while_out is_hex) El) as E2.
    rewrite !while_in_app in E1 by eauto using horner_hex_all, hex_not_extension.
    rewrite !while_out_app in E2 by eauto using horner_hex_all, hex_not_extension. subst.
    unfold numeral in H2. split_and!; [congruence|congruence|done]. }
  destruct (Z.leb_spec v LH_USIZE_T_MAX) as [Hmax|Hmax].
  - cbn [negb]. rewrite from_offset_suffix, bind_done by (rewrite ?length_app; lia).
    unfold lh_http_chunked_are_extensions_valid. rewrite at_text_start.
    destruct (extensions_loop_spec (S (length e)) [] e) as (b & -> & Hb); [lia|unfold fits; cbn [app]; lia|].
    rewrite bind_done. exists (if b then Some v else None). split; [by destruct b|]. apply Hlift.
    + intros n (-> & _ & He)%Hinv _. apply Hb in He. by rewrite He.
    + destruct b; [|done]. intros n [= <-]. constructor; try done. by apply Hb.
  - exists None. split; [done|]. apply Hlift; [|done]. intros n (_ & ? & _)%Hinv. lia.
Qed.
