(* ===== verification/ChunkedProofs.v ===== *)
(** * Chunked transfer coding: the decoder of a whole buffer

    The walk over the parts of a buffer recognises the grammar of [ChunkedSpec]: it is
    complete exactly on a chunked body, wherever the buffer goes on after it; decoding
    leaves the content at the start of the buffer and the rest of the buffer as it was. *)
From S2P Require Import Prelude Buffer Bytes Digits DigitsProofs Format StrPtr View ViewProofs Http HttpProofs Chunked ChunkedSpec.

(** ** One part *)

Lemma numeral_pos t n : numeral (rvalue 16) 16 t = Some n -> 0 <= n.
Proof.
  unfold numeral. assert (forall acc, 0 <= acc -> horner (rvalue 16) 16 acc t = Some n -> 0 <= n) as H; [|by apply H].
  induction t as [|c t IH]; intros acc Ha; cbn [horner]; [by intros [= <-]|].
  destruct (rvalue 16 c) as [d|] eqn:E; [|done]. apply IH. apply to_radix_ok in E. lia.
Qed.
Lemma size_line_range n line : size_line n line -> is_u64 n.
Proof. intros [digits exts _ H Hm _]. apply numeral_pos in H. zb. Qed.
Lemma tchar_plain c : is_tchar c = true -> c <> CR /\ c <> LF.
Proof. intros H. split; intros ->; by vm_compute in H. Qed.
Lemma field_char_plain c : lh_http_is_field_char c = true -> c <> CR /\ c <> LF.
Proof. intros H. split; intros ->; by vm_compute in H. Qed.
Lemma ows_plain c : is_ows c = true -> c <> CR /\ c <> LF.
Proof. intros H. split; intros ->; by vm_compute in H. Qed.
Lemma hex_plain c : is_hex c = true -> c <> CR /\ c <> LF.
Proof. intros H. split; intros ->; by vm_compute in H. Qed.
Lemma plain_nil : plain [].
Proof. apply Forall_nil_2. Qed.
Lemma plain_both a b : plain (a ++ b) <-> plain a /\ plain b.
Proof. unfold plain. by rewrite Forall_app. Qed.
Lemma plain_cons c t : plain (c :: t) <-> (c <> CR /\ c <> LF) /\ plain t.
Proof. unfold plain. by rewrite Forall_cons. Qed.
Lemma all_plain p t : (forall c, p c = true -> c <> CR /\ c <> LF) -> all_in p t -> plain t.
Proof. intros Hp H. eapply Forall_impl; [exact H|]. done. Qed.
Lemma token_plain t : all_in is_tchar t -> plain t.
Proof. apply all_plain, tchar_plain. Qed.
Lemma ows_all_plain t : all_in is_ows t -> plain t.
Proof. apply all_plain, ows_plain. Qed.
Lemma field_chars_plain t : all_in lh_http_is_field_char t -> plain t.
Proof. apply all_plain, field_char_plain. Qed.
Lemma quoted_plain q : quoted_text q -> plain q.
Proof. induction 1; repeat constructor; try done; by apply field_char_plain. Qed.
Create HintDb plain.
#[export] Hint Resolve token_plain ows_all_plain field_chars_plain quoted_plain plain_nil : plain.
Ltac plain_parts := rewrite ?plain_both, ?plain_cons; split_and?; try done; auto with plain.
Lemma ext_value_plain v : ext_value v -> plain v.
Proof.
  intros [|a b t Ha Hb [_ Ht]|a b q Ha Hb Hq]; [apply Forall_nil_2|..]; repeat plain_parts.
Qed.
#[export] Hint Resolve ext_value_plain : plain.
Lemma extensions_plain t : extensions t -> plain t.
Proof. induction 1 as [|a b name value rest Ha Hb [_ Hn] Hv Hr IH]; [apply Forall_nil_2|repeat plain_parts]. Qed.
Lemma size_line_plain n line : size_line n line -> plain line.
Proof.
  intros [digits exts _ H _ He]. apply plain_both. split; [|by apply extensions_plain].
  apply horner_hex_all in H. eapply all_plain; [apply hex_plain|done].
Qed.
Lemma field_line_plain line : field_line line -> plain line.
Proof. intros [name value [_ Hn] Hv]. plain_parts. Qed.

(** The part at the start of [t]: its line, its data and what follows. *)
Inductive part_at : list Z -> list Z -> Z -> list Z -> list Z -> Prop :=
  | part_last line rest : size_line 0 line -> part_at (line ++ CR :: LF :: rest) line 0 [] rest
  | part_data line n data rest : size_line n line -> 0 < n -> len data = n ->
      part_at (line ++ CR :: LF :: data ++ CR :: LF :: rest) line n data rest.

Lemma visible_all pre t : fits (pre ++ t) -> visible unlimited pre t = t.
Proof.
  intros Hf. unfold visible. apply take_ge. unfold fits in Hf. rewrite length_app in Hf.
  change (lh_http_parser_get_head_size_max unlimited) with 18446744073709551615. lia.
Qed.
Lemma unlimited_line self' pre t end_ : fits (pre ++ t) -> lh_http_parser_get_head_size_max self' = LH_USIZE_T_MAX ->
  lh_http_parser_get_line_size_max self' = LH_USIZE_T_MAX ->
  exists self status e,
  lh_http_parser_find_line self' (pre ++ t) (len pre) end_ = Done (self, status, e) /\
  match find_line LH_USIZE_T_MAX 0 t with
  | Found n => status = lh_http_parse_complete /\ e = len pre + Z.of_nat n /\ self = self'
  | More => status = lh_http_parse_incomplete /\ self = self'
  | Wrong _ _ => status = lh_http_parse_error
  end.
Proof.
  intros Hf Hh Hl. unfold fits in Hf. rewrite find_line_spec by (rewrite Hh; rewrite length_app in Hf; zb).
  assert (visible self' pre t = t) as ->.
  { unfold visible. apply take_ge. rewrite length_app in Hf. rewrite Hh. zb. }
  rewrite Hl, Hh, Z.geb_leb. rewrite (proj2 (Z.leb_gt _ _)) by zb.
  destruct (find_line _ 0 t); eauto 10.
Qed.
Lemma line_unique l1 l2 r1 r2 : plain l1 -> plain l2 -> l1 ++ CR :: r1 = l2 ++ CR :: r2 -> l1 = l2 /\ r1 = r2.
Proof.
  intros H1. revert l2. induction H1 as [|c l1 [Hc _] H1 IH]; intros l2 H2 E; destruct H2 as [|d l2 [Hd _] H2]; cbn [app] in E.
  - by injection E as ->.
  - congruence.
  - congruence.
  - injection E as -> E. by destruct (IH l2 H2 E) as [-> ->].
Qed.
Lemma size_line_first m1 m2 l1 l2 a b : size_line m1 l1 -> size_line m2 l2 ->
  l1 ++ CR :: LF :: a = l2 ++ CR :: LF :: b -> l1 = l2 /\ m1 = m2 /\ a = b.
Proof.
  intros H1 H2 E. apply line_unique in E as [-> E]; [|by eapply size_line_plain..].
  injection E as ->. by rewrite (size_line_unique _ _ _ H1 H2).
Qed.
Lemma part_at_unique t l1 n1 d1 r1 l2 n2 d2 r2 : part_at t l1 n1 d1 r1 -> part_at t l2 n2 d2 r2 ->
  l1 = l2 /\ n1 = n2 /\ d1 = d2 /\ r1 = r2.
Proof.
  intros H1 H2. destruct H1 as [l1 r1 Hs1|l1 n1 d1 r1 Hs1 Hn1 Hd1]; inversion H2 as [l r Hs E|l n d r Hs Hn Hd E]; subst;
    destruct (size_line_first _ _ _ _ _ _ Hs Hs1 E) as (-> & En & E'); try lia.
  - by subst.
  - apply app_inj_1 in E' as [-> E']; [by injection E' as ->|lia].
Qed.
(** [lh_http_chunked_parse_part] after the line of the size, where [length] bytes of data
    begin at [start]. *)
Definition part_tail (input : list Z) (start length : Z) : outcome (Z * option (Z * Z * Z)) :=
  let left := u64 (len input - start) in
  if negb (length =? 0) then
    if left <=? length then mret (lh_http_parse_incomplete, None) else
    c ← load input (u64 (start + length));
    if negb (c =? lh_char_map_cr) then mret (lh_http_parse_error, None) else
    if left - length <? 2 then mret (lh_http_parse_incomplete, None) else
    c ← load input (u64 (u64 (start + length) + 1));
    if negb (c =? lh_char_map_lf) then mret (lh_http_parse_error, None) else
    mret (lh_http_parse_complete, Some (start, length, u64 (u64 (start + length) + 2)))
  else mret (lh_http_parse_complete, Some (start, length, start)).
(** A result, when [whole ext] says that the text has what is looked for once [ext] has
    arrived and [open] that it is in order and breaks off: a result is good, or more has to
    arrive, or it is an error whatever arrives. *)
Definition verdict {A} (m : outcome (Z * option A)) (whole : list Z -> Prop) (good : A -> Prop) (open : Prop) : Prop :=
  (exists a, m = Done (lh_http_parse_complete, Some a) /\ good a) \/
  (m = Done (lh_http_parse_incomplete, None) /\ ~ whole [] /\ open) \/
  (m = Done (lh_http_parse_error, None) /\ (forall ext, ~ whole ext) /\ ~ open).
Lemma part_tail_spec pre rest n : fits (pre ++ rest) -> is_u64 n ->
  verdict (part_tail (pre ++ rest) (len pre) n)
    (fun ext => n <> 0 -> exists data tl, rest ++ ext = data ++ CR :: LF :: tl /\ len data = n)
    (fun '(start, m, next) => start = len pre /\ m = n /\ next = start + (if n =? 0 then 0 else n + 2) /\
       (n <> 0 -> exists data tl, rest = data ++ CR :: LF :: tl /\ len data = n))
    (0 < n /\ open_data n rest).
Proof.
  intros Hf Hn. unfold fits in Hf. unfold part_tail. rewrite length_app in *.
  replace (Z.of_nat (length pre + length rest) - len pre) with (len rest) by lia. rewrite (u64_id (len rest)) by zb.
  destruct (Z.eqb_spec n 0) as [->|Hn0]; cbn [negb]; [left; exists (len pre, 0, len pre); split_and!; [done|done|done|lia|done]|].
  destruct (Z.leb_spec (len rest) n) as [Hle|Hgt].
  { right. left. split; [done|]. split; [|by split; [zb|left]]. intros (d & tl & E & Hd)%(fun H => H Hn0). rewrite app_nil_r in E. rewrite E, length_app in Hle. cbn [length] in Hle. lia. }
  assert (forall k, load (pre ++ rest) (len pre + Z.of_nat k) = load rest (Z.of_nat k)) as Hload.
  { intros k. rewrite load_app_r by lia. f_equal. lia. }
  destruct (lookup_lt_is_Some_2 rest (Z.to_nat n)) as [c Hc]; [zb|].
  rewrite (u64_id (_ + n)) by zb. replace (len pre + n) with (len pre + Z.of_nat (Z.to_nat n)) by zb.
  rewrite Hload, (load_ok _ _ _ Hc), bind_done. change lh_char_map_cr with CR.
  pose proof (take_drop_middle _ _ _ Hc) as Erest. set (data := take (Z.to_nat n) rest) in *.
  set (tl := drop (S (Z.to_nat n)) rest) in *. assert (len data = n) as Hdata by (unfold data; rewrite length_take; zb).
  assert (forall ext d rs, rest ++ ext = d ++ CR :: LF :: rs -> len d = n -> c = CR /\ tl ++ ext = LF :: rs) as Hinv.
  { intros ext d rs E Hd. rewrite <-Erest, <-app_assoc in E. apply app_inj_1 in E as [_ E]; [|lia]. by injection E as. }
  assert (len rest = n + 1 + len tl) as Hlen by (rewrite <-Erest, length_app; cbn [length]; lia).
  assert (open_data n rest -> c = CR /\ tl = []) as Hopen.
  { intros [?|(d & E & Hd)]; [lia|]. rewrite <-Erest in E. apply app_inj_1 in E as [_ E]; [by injection E|lia]. }
  destruct (Z.eqb_spec c CR) as [->|]; cbn [negb].
  2:{ right. right. split; [done|]. split; [by intros ext (d & rs & E & [? _]%(Hinv _ _ _ E))%(fun H => H Hn0)|]. by intros [_ [? _]%Hopen]. }
  destruct (Z.ltb_spec (len rest - n) 2).
  { right. left. split; [done|]. split.
    - intros (d & rs & E & [_ E']%(Hinv _ _ _ E))%(fun H => H Hn0). rewrite app_nil_r in E'. rewrite E' in Hlen. cbn [length] in Hlen. lia.
    - split; [zb|]. right. exists data. split; [|done]. rewrite <-Erest. destruct tl; [done|cbn [length] in Hlen; lia]. }
  rewrite (u64_id (_ + 1)) by zb.
  replace (len pre + Z.of_nat (Z.to_nat n) + 1) with (len pre + Z.of_nat (S (Z.to_nat n))) by zb.
  rewrite Hload. destruct tl as [|d tl'] eqn:Etl; [cbn [length] in Hlen; lia|].
  rewrite (load_ok rest _ d) by (rewrite <-Erest, lookup_app_r by zb; by replace (S (Z.to_nat n) - length data)%nat with 1%nat by zb).
  rewrite bind_done. change lh_char_map_lf with LF. destruct (Z.eqb_spec d LF) as [->|]; cbn [negb].
  2:{ right. right. split; [done|]. split; [intros ext (d' & rs & E & [_ E']%(Hinv _ _ _ E))%(fun H => H Hn0); by injection E' as|]. by intros [_ [_ ?]%Hopen]. }
  left. eexists (_, _, _). split; [done|]. split_and!; [done|done| |eauto].
  cbn [length] in Hlen. rewrite u64_id by zb. zb.
Qed.
Lemma part_at_line u line n data rest : part_at u line n data rest -> exists tail,
  u = line ++ CR :: LF :: tail /\ size_line n line /\ (n <> 0 -> exists data rs, tail = data ++ CR :: LF :: rs /\ len data = n).
Proof. intros []; eexists; (split; [done|]); (split; [done|]); [done|eauto]. Qed.
Lemma fits_app_l a b : fits (a ++ b) -> fits a.
Proof. unfold fits. lens. lia. Qed.
Lemma fits_app_r a b : fits (a ++ b) -> fits b.
Proof. unfold fits. lens. lia. Qed.
Lemma find_plain line tl : plain line -> fits (line ++ CR :: LF :: tl) -> find_line LH_USIZE_T_MAX 0 (line ++ CR :: LF :: tl) = Found (length line).
Proof.
  intros Hp Hf. apply find_line_found. exists line, tl. split_and!; [done|done|done|].
  intros _. unfold fits in Hf. rewrite length_app in Hf. zb.
Qed.
(** A part that breaks off. *)
Definition open_part (t : list Z) : Prop :=
  open_line LH_USIZE_T_MAX t \/ exists line n tl, t = line ++ CR :: LF :: tl /\ size_line n line /\ 0 < n /\ open_data n tl.
Lemma parse_part_spec pre t : fits (pre ++ t) ->
  verdict (lh_http_chunked_parse_part (pre ++ t) (len pre))
    (fun ext => fits (pre ++ t ++ ext) /\ exists line n data rest, part_at (t ++ ext) line n data rest)
    (fun '(start, n, next) => exists line data rest, part_at t line n data rest /\
      start = len pre + len line + 2 /\ next = start + (if n =? 0 then 0 else n + 2))
    (open_part t).
Proof.
  intros Hf. unfold lh_http_chunked_parse_part, lh_str_view_get_size, lh_str_view_get_data. cbv zeta.
  rewrite Z.gtb_ltb, (proj2 (Z.ltb_ge _ _)) by (rewrite length_app; lia).
  destruct (unlimited_line unlimited pre t 0 Hf eq_refl eq_refl) as (self & status & e & -> & Hr). rewrite bind_done.
  assert (forall ext, (fits (pre ++ t ++ ext) /\ exists line n data rest, part_at (t ++ ext) line n data rest) ->
    exists n line tail, t ++ ext = line ++ CR :: LF :: tail /\ size_line n line /\ (n <> 0 -> exists data rs, tail = data ++ CR :: LF :: rs /\ len data = n)
      /\ find_line LH_USIZE_T_MAX 0 (t ++ ext) = Found (length line)) as Hpart.
  { intros ext [Hfe (line & n & data & rest & Hp)].
    apply part_at_line in Hp as (tail & E & Hs & Ht).
    exists n, line, tail. split_and!; try done. apply find_line_found. exists line, tail. split_and!; [done|by eapply size_line_plain|done|].
    intros _. unfold fits in Hfe. rewrite E, !length_app in Hfe. zb. }
  destruct (find_line LH_USIZE_T_MAX 0 t) as [k| |] eqn:Ek.
  2:{ destruct Hr as [-> _]. right. left. split; [done|]. split; [|left; by apply open_line_more]. intros (? & ? & ? & _ & _ & _ & H)%Hpart.
      rewrite app_nil_r in H. congruence. }
  2:{ subst status. right. right. split; [done|]. split.
      - intros ext H. apply Hpart in H as (? & ? & ? & _ & _ & _ & H). rewrite find_line_app in H by by rewrite Ek. congruence.
      - intros [H|(l & n & tl & -> & Hl & _)]; [apply open_line_more in H; congruence|]. apply fits_app_r in Hf. rewrite (find_plain l tl) in Ek by (done || by eapply size_line_plain). congruence. }
  destruct Hr as (-> & -> & _). apply find_line_found in Ek as (line & rest & -> & Hp & -> & _).
  cbn [negb Z.eqb Pos.eqb]. rewrite from_offset_app, bind_done by lia.
  pose proof Hf as Hf'. unfold fits in Hf'. rewrite !length_app in Hf'. cbn [length] in Hf'.
  destruct (try_parse_size_spec line) as (r & -> & Hsize); [unfold fits; lia|]. rewrite bind_done.
  assert (forall ext n l tl, (line ++ CR :: LF :: rest) ++ ext = l ++ CR :: LF :: tl -> size_line n l ->
    r = Some n /\ l = line /\ rest ++ ext = tl) as Hinv.
  { intros ext n l tl E Hl. rewrite <-app_assoc in E. apply line_unique in E as [-> E]; [|done|by eapply size_line_plain].
    injection E as E. split_and!; try done. by apply Hsize. }
  assert (open_part (line ++ CR :: LF :: rest) -> exists n, r = Some n /\ 0 < n /\ open_data n rest) as Hopen.
  { intros [H|(l & n & tl & E & Hl & Hn & Hd)]; [by apply open_line_ends in H|]. rewrite <-(app_nil_r (line ++ _)) in E.
    destruct (Hinv _ _ _ _ E Hl) as (-> & _ & <-). rewrite app_nil_r in Hd. eauto. }
  destruct r as [n|].
  2:{ right. right. split; [done|]. split; [intros ext (n & l & tl & E & Hl & _)%Hpart; by destruct (Hinv _ _ _ _ E Hl)|]. by intros (? & ? & _)%Hopen. }
  assert (size_line n line) as Hn by by apply Hsize. apply size_line_range in Hn as Hrange.
  set (pre' := pre ++ line ++ [CR; LF]). assert (pre ++ line ++ CR :: LF :: rest = pre' ++ rest) as Ei.
  { unfold pre'. by rewrite <-!app_assoc. }
  assert (len pre' = len pre + len line + 2) as Hpre' by (unfold pre'; rewrite !length_app; cbn [length]; lia).
  rewrite (u64_id (len pre + len line + 2)) by zb. rewrite <-Hpre', Ei. fold (part_tail (pre' ++ rest) (len pre') n).
  destruct (part_tail_spec pre' rest n) as [([[start m] next] & -> & -> & -> & -> & Hd)|[(-> & Hno & [Hpos Hod])|(-> & Hno & Hnod)]]; [by rewrite <-Ei|done|..].
  - left. eexists (_, _, _). split; [done|]. destruct (Z.eqb_spec n 0) as [->|Hn0].
    + exists line, [], rest. split_and!; [by constructor|lia|lia].
    + destruct (Hd Hn0) as (data & tl & -> & Hlen). exists line, data, tl. split_and!; [constructor; [done|zb|done]|lia|lia].
  - right. left. split; [done|]. split; [|right; by exists line, n, rest]. intros (m & l & tl & E & Hl & Ht & _)%Hpart.
    destruct (Hinv _ _ _ _ E Hl) as ([= ->] & _ & E'). apply Hno. by rewrite E'.
  - right. right. split; [done|]. split; [|by intros (? & [= <-] & ?)%Hopen]. intros ext (m & l & tl & E & Hl & Ht & _)%Hpart.
    destruct (Hinv _ _ _ _ E Hl) as ([= ->] & _ & E'). apply (Hno ext). by rewrite E'.
Qed.

(** ** The trailers *)

Notation trailers_max := (trailers LH_USIZE_T_MAX).
Lemma trailers_line line tl tr rest : plain line -> trailers_max tr -> line ++ CR :: LF :: tl = tr ++ rest ->
  (line = [] /\ tr = [CR; LF] /\ tl = rest) \/
  (field_line line /\ exists tr', tr = line ++ CR :: LF :: tr' /\ trailers_max tr' /\ tl = tr' ++ rest).
Proof.
  intros Hp Htr E. destruct Htr as [|l r Hl _ Hr].
  - left. cbn [app] in E. apply (line_unique line []) in E as [-> E]; [|done|apply plain_nil]. injection E as ->. by split_and!.
  - right. rewrite <-app_assoc in E. apply line_unique in E as [-> E]; [|done|by apply field_line_plain].
    injection E as ->. eauto.
Qed.
Lemma trailers_found t tr rest : fits t -> trailers_max tr -> t = tr ++ rest ->
  exists line tl, t = line ++ CR :: LF :: tl /\ plain line /\ find_line LH_USIZE_T_MAX 0 t = Found (length line).
Proof.
  intros Hf Htr ->. assert (exists line tl, tr ++ rest = line ++ CR :: LF :: tl /\ plain line) as (line & tl & E & Hp).
  { destruct Htr as [|l r Hl _ Hr]; [exists [], rest; split; [done|apply plain_nil]|]. exists l, (r ++ rest). rewrite <-app_assoc. split; [done|by apply field_line_plain]. }
  exists line, tl. split_and!; try done. apply find_line_found. exists line, tl. split_and!; try done.
  intros _. unfold fits in Hf. rewrite E, !length_app in Hf. zb.
Qed.
Lemma field_line_nonempty line : field_line line -> line <> [].
Proof. intros [name value [Hn _] _]. by destruct name. Qed.
Lemma open_trailers_inv t : open_trailers LH_USIZE_T_MAX t -> open_line LH_USIZE_T_MAX t \/
  exists line tl, t = line ++ CR :: LF :: tl /\ field_line line /\ open_trailers LH_USIZE_T_MAX tl.
Proof. intros [u Hu|line u Hl _ Hu]; [by left|right; eauto]. Qed.
Lemma open_trailers_next line tl : plain line -> open_trailers LH_USIZE_T_MAX (line ++ CR :: LF :: tl) -> field_line line /\ open_trailers LH_USIZE_T_MAX tl.
Proof.
  intros Hp [H|(l & u & E & Hl & Hu)]%open_trailers_inv; [by apply open_line_ends in H|].
  apply line_unique in E as [-> E]; [|done|by apply field_line_plain]. by injection E as ->.
Qed.
Lemma trailers_loop_spec : forall fuel pre t, (length t < fuel)%nat -> fits (pre ++ t) -> is_bytes t ->
  verdict (trailers_loop fuel unlimited (pre ++ t) (len pre))
    (fun ext => fits (pre ++ t ++ ext) /\ exists tr rest, t ++ ext = tr ++ rest /\ trailers_max tr)
    (fun next => exists tr rest, t = tr ++ rest /\ trailers_max tr /\ next = len pre + len tr)
    (open_trailers LH_USIZE_T_MAX t).
Proof.
  induction fuel as [|fuel IH]; intros pre t Hfuel Hf Hb; [lia|]. cbn [trailers_loop].
  destruct (unlimited_line unlimited pre t 0 Hf eq_refl eq_refl) as (self & status & e & -> & Hr). rewrite bind_done.
  assert (forall ext tr rest, fits (pre ++ t ++ ext) -> t ++ ext = tr ++ rest -> trailers_max tr ->
    exists line : list Z, find_line LH_USIZE_T_MAX 0 (t ++ ext) = Found (length line)) as Hfound.
  { intros ext tr rest Hfe E Htr. assert (fits (t ++ ext)) as Hfe' by (unfold fits in *; rewrite length_app in Hfe; lia).
    destruct (trailers_found _ _ _ Hfe' Htr E) as (l & tl & _ & _ & ?). by exists l. }
  destruct (find_line LH_USIZE_T_MAX 0 t) as [k| |] eqn:Ek.
  2:{ destruct Hr as [-> _]. right. left. split; [done|]. split; [|by apply open_trailers_line, open_line_more]. intros (Hfe & tr & rest & E & Htr).
      destruct (Hfound [] tr rest Hfe E Htr) as [l H]. rewrite app_nil_r in H. congruence. }
  2:{ subst status. right. right. split; [done|]. split.
      - intros ext (Hfe & tr & rest & E & Htr). destruct (Hfound ext tr rest Hfe E Htr) as [l H]. rewrite find_line_app in H by by rewrite Ek. congruence.
      - intros Ho. apply fits_app_r in Hf. apply open_trailers_inv in Ho as [H|(l & tl & -> & Hl & _)]; [apply open_line_more in H; congruence|].
        rewrite (find_plain l tl) in Ek by (done || by apply field_line_plain). congruence. }
  destruct Hr as (-> & -> & ->). apply find_line_found in Ek as (line & tl & -> & Hp & -> & _).
  change (negb (lh_http_parse_complete =? lh_http_parse_complete)) with false. cbv iota. clear Hfound.
  pose proof Hf as Hf'. unfold fits in Hf'. rewrite !length_app in Hf'. cbn [length] in Hf'.
  assert (u64 (len pre + len line + 2) = len pre + len line + 2) as Hu by (apply u64_id; zb).
  destruct (decide (line = [])) as [->|Hne].
  { cbn [length]. rewrite Z.add_0_r, Z.eqb_refl. left. eexists. split; [done|]. exists [CR; LF], tl.
    split_and!; [done|constructor|]. cbn [length] in Hu. rewrite Z.add_0_r in Hu. by rewrite Hu. }
  rewrite (proj2 (Z.eqb_neq _ _)) by (destruct line; [done|cbn [length]; lia]).
  apply Forall_app in Hb as [Hbl Hb]. apply Forall_cons_1 in Hb as [_ Hb]. apply Forall_cons_1 in Hb as [_ Hb].
  destruct (parse_field_spec unlimited pre line (CR :: LF :: tl) no_header Hbl ltac:(unfold fits; lia)) as (self' & h' & st & Hpf & _ & Hst & Hself).
  rewrite length_app, Nat2Z.inj_add in Hpf. rewrite Hpf, bind_done.
  assert (forall ext tr rest, (line ++ CR :: LF :: tl) ++ ext = tr ++ rest -> trailers_max tr ->
    field_line line /\ exists tr', tr = line ++ CR :: LF :: tr' /\ trailers_max tr' /\ tl ++ ext = tr' ++ rest) as Hinv.
  { intros ext tr rest E Htr. rewrite <-app_assoc in E. by destruct (trailers_line _ _ _ _ Hp Htr E) as [(? & _)|?]. }
  destruct (Z.eqb_spec st lh_http_parse_complete) as [Hc|Hc]; cbn [negb].
  2:{ right. right. split; [done|]. split; [intros ext (_ & tr & rest & E & Htr); destruct (Hinv _ _ _ E Htr) as [Hl _]; by apply Hc, Hst|].
      intros [Hl _]%open_trailers_next; [by apply Hc, Hst|done]. }
  apply Hst in Hc as Hl. assert (self' = unlimited) as ->.
  { destruct Hl as [name value Hn Hv]. by destruct (Hself name value Hn Hv eq_refl) as [-> _]. }
  set (pre' := pre ++ line ++ [CR; LF]). assert (forall x, pre ++ (line ++ CR :: LF :: tl) ++ x = pre' ++ tl ++ x) as Ei.
  { intros x. unfold pre'. by rewrite <-!app_assoc. }
  assert (pre ++ line ++ CR :: LF :: tl = pre' ++ tl) as Ei' by (specialize (Ei []); by rewrite !app_nil_r in Ei).
  assert (len pre' = len pre + len line + 2) as Hpre' by (unfold pre'; rewrite !length_app; cbn [length]; lia).
  rewrite Hu, <-Hpre', Ei'. destruct (IH pre' tl) as [(next & -> & tr & rest & -> & Htr & ->)|[(-> & Hno & Ho)|(-> & Hno & Ho)]].
  { rewrite length_app in Hfuel. cbn [length] in Hfuel. lia. } { by rewrite <-Ei'. } { done. }
  - left. eexists. split; [done|]. exists (line ++ CR :: LF :: tr), rest. split_and!.
    + by rewrite <-app_assoc.
    + constructor; [done|zb|done].
    + rewrite Hpre', length_app. cbn [length]. lia.
  - right. left. split; [done|]. split; [|constructor; [done|zb|done]]. intros (Hfe & tr & rest & E & Htr).
    destruct (Hinv _ _ _ E Htr) as (_ & tr' & _ & Htr' & E'). apply Hno. split; [by rewrite <-Ei|eauto].
  - right. right. split; [done|]. split; [|by intros [_ ?]%open_trailers_next]. intros ext (Hfe & tr & rest & E & Htr).
    destruct (Hinv _ _ _ E Htr) as (_ & tr' & _ & Htr' & E'). apply (Hno ext). split; [by rewrite <-Ei|eauto].
Qed.

(** ** The parts up to the last *)

Inductive chunks : list Z -> list Z -> Prop :=
  | chunks_last line : size_line 0 line -> chunks (line ++ [CR; LF]) []
  | chunks_more line n data body content : size_line n line -> 0 < n -> len data = n -> chunks body content ->
      chunks (line ++ CR :: LF :: data ++ CR :: LF :: body) (data ++ content).
Notation chunked_max := (chunked LH_USIZE_T_MAX).
Lemma chunked_split wire content : fits wire ->
  chunked_max wire content <-> exists body tr, wire = body ++ tr /\ chunks body content /\ trailers_max tr.
Proof.
  intros Hf. split.
  - induction 1 as [line rest Hs _ Ht|line n data wire content Hs _ Hn Hd Hc IH].
    + exists (line ++ [CR; LF]), rest. rewrite <-app_assoc. split_and!; [done|by constructor|done].
    + destruct IH as (body & tr & -> & Hb & Ht).
      { unfold fits in *. lens. lia. }
      exists (line ++ CR :: LF :: data ++ CR :: LF :: body), tr. split_and!; [|by econstructor|done].
      rewrite <-app_assoc. cbn [app]. by rewrite <-app_assoc.
  - intros (body & tr & -> & Hb & Ht). revert Hf. induction Hb as [line Hs|line n data body content Hs Hn Hd Hb IH]; intros Hf.
    + rewrite <-app_assoc. unfold fits in Hf. rewrite !length_app in Hf. constructor; [done|zb|done].
    + rewrite <-app_assoc. cbn [app]. rewrite <-app_assoc. cbn [app]. unfold fits in *.
      lens. econstructor; [done|zb|done|done|]. apply IH. lia.
Qed.
Lemma part_at_app t line n data tl ext : part_at t line n data tl -> part_at (t ++ ext) line n data (tl ++ ext).
Proof.
  intros []; rewrite <-app_assoc; cbn [app]; [by constructor|]. rewrite <-app_assoc. cbn [app]. by constructor.
Qed.
Lemma part_at_length t line n data tl : part_at t line n data tl ->
  len t = len line + 2 + (if n =? 0 then 0 else n + 2) + len tl /\ len data = n.
Proof.
  intros [l r Hs|l m d r Hs Hm Hd]; lens; [cbn; lia|]. rewrite (proj2 (Z.eqb_neq _ _)) by lia. lia.
Qed.
(** Where a body breaks off. *)
Lemma open_body_first t : fits t -> open_body LH_USIZE_T_MAX t <-> open_part t \/ exists line n data tl, part_at t line n data tl /\
  (if n =? 0 then open_trailers LH_USIZE_T_MAX tl else open_body LH_USIZE_T_MAX tl).
Proof.
  intros Hf. split.
  - intros [u Hu|line n u Hs _ Hn Hd|line n data u Hs _ Hn Hd Hu|line u Hs _ Hu]; [by left; left|left; right; eauto 10|right..].
    + exists line, n, data, u. split; [by constructor|]. by rewrite (proj2 (Z.eqb_neq _ _)) by lia.
    + exists line, 0, [], u. split; [by constructor|done].
  - unfold fits in Hf. intros [[Ho|(line & n & tl & -> & Hs & Hn & Hd)]|(line & n & data & tl & Hp & Ho)].
    + by constructor.
    + apply open_body_data with n; [done|rewrite length_app in Hf; zb|done|done].
    + destruct Hp as [l r Hs|l m d r Hs Hm Hd]; rewrite length_app in Hf; [apply open_body_last; [done|zb|done]|].
      rewrite (proj2 (Z.eqb_neq _ _)) in Ho by lia. apply open_body_chunk with m; (done || zb).
Qed.
Lemma part_not_open t line n data tl : part_at t line n data tl -> ~ open_part t.
Proof.
  intros Hp Ho. assert (exists l m r, t = l ++ CR :: LF :: r /\ size_line m l /\ (0 < m -> ~ open_data m r)) as (l & m & r & -> & Hs & Hno).
  { destruct Hp as [l r Hs|l m d r Hs Hm Hd]; [exists l, 0, r; split_and!; (done || lia)|]. eexists l, m, _. split_and!; [done|done|].
    intros _ [Hl|(d' & E & Hl)]; [rewrite length_app in Hl; cbn [length] in Hl; lia|]. apply app_inj_1 in E as [_ E]; [done|lia]. }
  destruct Ho as [Ho|(l' & m' & r' & E & Hs' & Hm' & Hd)]; [apply open_line_ends in Ho; [done|by eapply size_line_plain]|].
  destruct (size_line_first _ _ _ _ _ _ Hs' Hs (eq_sym E)) as (-> & -> & ->). by apply Hno.
Qed.
Lemma open_body_part t line n data tl : fits t -> part_at t line n data tl ->
  open_body LH_USIZE_T_MAX t <-> if n =? 0 then open_trailers LH_USIZE_T_MAX tl else open_body LH_USIZE_T_MAX tl.
Proof.
  intros Hf Hp. rewrite open_body_first by done. split; [|by right; eauto 10].
  intros [Ho|(l & m & d & r & Hp' & Ho)]; [by apply part_not_open in Hp|]. by destruct (part_at_unique _ _ _ _ _ _ _ _ _ Hp Hp') as (-> & -> & -> & ->).
Qed.
(** The chunks of a text begin with its first part. *)
Lemma chunks_first u line n data tl body content rest : part_at u line n data tl -> chunks body content -> u = body ++ rest ->
  (n = 0 /\ content = [] /\ tl = rest /\ body = line ++ [CR; LF]) \/
  (0 < n /\ exists body' content', body = line ++ CR :: LF :: data ++ CR :: LF :: body' /\ content = data ++ content' /\
     chunks body' content' /\ tl = body' ++ rest).
Proof.
  intros Hp Hc ->. destruct Hc as [l Hs|l m d b c Hs Hm Hd Hb].
  - assert (part_at ((l ++ [CR; LF]) ++ rest) l 0 [] rest) as Hp' by (rewrite <-app_assoc; by constructor).
    destruct (part_at_unique _ _ _ _ _ _ _ _ _ Hp Hp') as (-> & -> & -> & ->). by left.
  - assert (part_at ((l ++ CR :: LF :: d ++ CR :: LF :: b) ++ rest) l m d (b ++ rest)) as Hp'.
    { rewrite <-app_assoc. cbn [app]. rewrite <-app_assoc. by constructor. }
    destruct (part_at_unique _ _ _ _ _ _ _ _ _ Hp Hp') as (-> & -> & -> & ->). right. eauto 10.
Qed.
Lemma chunks_part u body content rest : chunks body content -> u = body ++ rest -> exists line n data tl, part_at u line n data tl.
Proof.
  intros [l Hs|l m d b c Hs Hm Hd Hb] ->.
  - exists l, 0, [], rest. rewrite <-app_assoc. by constructor.
  - exists l, m, d, (b ++ rest). rewrite <-app_assoc. cbn [app]. rewrite <-app_assoc. by constructor.
Qed.
Definition has_chunks (t : list Z) (body content : list Z) : Prop := chunks body content /\ exists rest, t = body ++ rest.
Lemma scan_loop_spec : forall fuel pre t total, (length t < fuel)%nat -> fits (pre ++ t) -> 0 <= total <= len pre ->
  (exists body content, has_chunks t body content /\ (forall u, t = body ++ u -> open_body LH_USIZE_T_MAX t <-> open_trailers LH_USIZE_T_MAX u) /\
     scan_loop fuel (pre ++ t) (len pre) total = Done (inr (len pre + len body, total + len content))) \/
  (scan_loop fuel (pre ++ t) (len pre) total = Done (inl lh_http_parse_incomplete) /\ (forall body content, ~ has_chunks t body content) /\
     open_body LH_USIZE_T_MAX t) \/
  (scan_loop fuel (pre ++ t) (len pre) total = Done (inl lh_http_parse_error) /\
     (forall ext body content, fits (pre ++ t ++ ext) -> ~ has_chunks (t ++ ext) body content) /\ ~ open_body LH_USIZE_T_MAX t).
Proof.
  induction fuel as [|fuel IH]; intros pre t total Hfuel Hf Htot; [lia|]. cbn [scan_loop].
  assert (fits t) as Hft by by eapply fits_app_r.
  destruct (parse_part_spec pre t Hf) as [([[start n] next] & -> & line & data & tl & Hp & -> & ->)|[(-> & Hno & Ho)|(-> & Hno & Ho)]]; rewrite bind_done.
  2:{ right. left. split; [done|]. split; [|apply open_body_first; auto]. intros body content [Hc [rest E]]. apply Hno. rewrite !app_nil_r. split; [done|by eapply chunks_part]. }
  2:{ right. right. split; [done|]. split; [intros ext body content Hfe [Hc [rest E]]; apply (Hno ext); split; [done|by eapply chunks_part]|].
      intros [?|(line & n & data & tl & Hp & _)]%open_body_first; [done| |done]. apply (Hno []). rewrite !app_nil_r. eauto 10. }
  apply (open_body_part _ _ _ _ _ Hft) in Hp as Hob.
  pose proof (part_at_length _ _ _ _ _ Hp) as [Hlen Hdata]. pose proof Hf as Hf'. unfold fits in Hf'. rewrite length_app in Hf'.
  assert (forall ext body content rest, chunks body content -> t ++ ext = body ++ rest ->
    (n = 0 /\ content = [] /\ tl ++ ext = rest /\ body = line ++ [CR; LF]) \/
    (0 < n /\ exists body' content', body = line ++ CR :: LF :: data ++ CR :: LF :: body' /\ content = data ++ content' /\
     chunks body' content' /\ tl ++ ext = body' ++ rest)) as Hinv.
  { intros ext body content rest Hc E. eapply chunks_first; [by apply part_at_app|done|done]. }
  destruct (Z.eqb_spec n 0) as [->|Hn0].
  { left. exists (line ++ [CR; LF]), []. inversion Hp as [l r Hs E|]; subst; [|lia]. split.
    - split; [by constructor|]. exists tl. by rewrite <-app_assoc.
    - split; [|rewrite length_app; cbn [length]; do 3 f_equal; lia]. intros u E'. rewrite <-app_assoc in E'. apply app_inv_head in E'. injection E' as <-. done. }
  rewrite Z.gtb_ltb, (proj2 (Z.ltb_ge _ _)) by zb. rewrite u64_id by zb.
  inversion Hp as [|l m d r Hs Hm Hd E]; subst; [done|].
  set (pre' := pre ++ line ++ CR :: LF :: data ++ [CR; LF]).
  assert (forall x, pre ++ (line ++ CR :: LF :: data ++ CR :: LF :: tl) ++ x = pre' ++ tl ++ x) as Ei.
  { intros x. unfold pre'. rewrite <-!app_assoc. cbn [app]. by rewrite <-!app_assoc. }
  assert (pre ++ line ++ CR :: LF :: data ++ CR :: LF :: tl = pre' ++ tl) as Ei' by (specialize (Ei []); by rewrite !app_nil_r in Ei).
  assert (len pre + len line + 2 + (len data + 2) = len pre') as Hpre' by (unfold pre'; lens; lia).
  rewrite Hpre', Ei'. destruct (IH pre' tl (total + len data)) as [(body & content & [Hc [rest ->]] & Ho & ->)|[(-> & Hno & Ho)|(-> & Hno & Ho)]].
  { lia. } { by rewrite <-Ei'. } { lia. }
  - left. exists (line ++ CR :: LF :: data ++ CR :: LF :: body), (data ++ content). split.
    + split; [by econstructor|]. exists rest. rewrite <-app_assoc. cbn [app]. by rewrite <-app_assoc.
    + split; [|rewrite <-Hpre'; lens; do 3 f_equal; lia]. intros u E'. rewrite Hob. apply Ho.
      rewrite <-app_assoc in E'. apply app_inv_head in E'. cbn [app] in E'. injection E' as E'. rewrite <-app_assoc in E'. apply app_inv_head in E'. by injection E'.
  - right. left. split; [done|]. split; [|by apply Hob]. intros body content [Hc [rest E]]. specialize (Hinv [] body content rest Hc). rewrite !app_nil_r in Hinv.
    destruct (Hinv E) as [[? _]|(_ & body' & content' & _ & _ & Hc' & E')]; [lia|]. apply (Hno body' content'). split; [done|eauto].
  - right. right. split; [done|]. split; [|by rewrite Hob]. intros ext body content Hfe [Hc [rest E]].
    destruct (Hinv ext body content rest Hc E) as [[? _]|(_ & body' & content' & _ & _ & Hc' & E')]; [lia|].
    apply (Hno ext body' content'); [by rewrite <-Ei|split; [done|eauto]].
Qed.

(** ** The scan *)

Lemma chunks_unique b1 c1 b2 c2 r1 r2 : chunks b1 c1 -> chunks b2 c2 -> b1 ++ r1 = b2 ++ r2 -> b1 = b2 /\ c1 = c2 /\ r1 = r2.
Proof.
  intros H1. revert b2 c2. induction H1 as [l Hs|l m d b c Hs Hm Hd Hb IH]; intros b2 c2 H2 E.
  - assert (part_at ((l ++ [CR; LF]) ++ r1) l 0 [] r1) as Hp by (rewrite <-app_assoc; by constructor).
    destruct (chunks_first _ _ _ _ _ _ _ _ Hp H2 E) as [(_ & -> & -> & ->)|[? _]]; [done|lia].
  - assert (part_at ((l ++ CR :: LF :: d ++ CR :: LF :: b) ++ r1) l m d (b ++ r1)) as Hp.
    { rewrite <-app_assoc. cbn [app]. rewrite <-app_assoc. by constructor. }
    destruct (chunks_first _ _ _ _ _ _ _ _ Hp H2 E) as [[-> _]|(_ & b' & c' & -> & -> & H2' & E')]; [lia|].
    by destruct (IH _ _ H2' E') as (-> & -> & ->).
Qed.
(** The text begins with a chunked body. *)
Definition has_body (t wire content : list Z) : Prop := chunked_max wire content /\ exists rest, t = wire ++ rest.
Lemma has_body_inv t wire content : fits t -> has_body t wire content ->
  exists body tr, has_chunks t body content /\ wire = body ++ tr /\ trailers_max tr /\ exists rest, t = body ++ tr ++ rest.
Proof.
  intros Hf [Hc [rest ->]]. apply chunked_split in Hc as (body & tr & -> & Hb & Ht); [|by eapply fits_app_l].
  exists body, tr. rewrite <-!app_assoc. split_and!; eauto. by split; [|exists (tr ++ rest)].
Qed.
Lemma trailers_unique t1 t2 r1 r2 : trailers_max t1 -> trailers_max t2 -> t1 ++ r1 = t2 ++ r2 -> t1 = t2.
Proof.
  intros H1. revert t2. induction H1 as [|l r Hl Hc Hr IH]; intros t2 H2 E.
  - cbn [app] in E. destruct (trailers_line [] r1 t2 r2 plain_nil H2 E) as [(_ & -> & _)|(Hl & _)]; [done|].
    by apply field_line_nonempty in Hl.
  - rewrite <-app_assoc in E. cbn [app] in E.
    destruct (trailers_line l (r ++ r1) t2 r2 (field_line_plain l Hl) H2 E) as [(-> & _)|(_ & tr' & -> & Htr & E')].
    + by apply field_line_nonempty in Hl.
    + by rewrite (IH tr').
Qed.
(** At most one body begins a text. *)
Lemma has_body_unique t w1 c1 w2 c2 : fits t -> has_body t w1 c1 -> has_body t w2 c2 -> w1 = w2 /\ c1 = c2.
Proof.
  intros Hf H1 H2. apply has_body_inv in H1 as (b1 & t1 & [Hc1 _] & -> & Ht1 & r1 & ->); [|done].
  apply has_body_inv in H2 as (b2 & t2 & [Hc2 _] & -> & Ht2 & r2 & E); [|done].
  destruct (chunks_unique _ _ _ _ _ _ Hc1 Hc2 E) as (<- & <- & E'). by rewrite (trailers_unique _ _ _ _ Ht1 Ht2 E').
Qed.
Lemma scan_spec input : fits input -> is_bytes input ->
  (exists wire content, has_body input wire content /\
     lh_http_chunked_scan input = Done (lh_http_parse_complete, Some (len wire, len content))) \/
  (lh_http_chunked_scan input = Done (lh_http_parse_incomplete, None) /\ (forall wire content, ~ has_body input wire content) /\
     open_body LH_USIZE_T_MAX input) \/
  (lh_http_chunked_scan input = Done (lh_http_parse_error, None) /\
     (forall ext wire content, fits (input ++ ext) -> ~ has_body (input ++ ext) wire content) /\ ~ open_body LH_USIZE_T_MAX input).
Proof.
  intros Hf Hb. unfold lh_http_chunked_scan.
  pose proof (scan_loop_spec (S (length input)) [] input 0 ltac:(lia) Hf ltac:(cbn [length]; lia)) as H.
  cbn [app length] in H. change (Z.of_nat 0) with 0 in H.
  destruct H as [(body & content & [Hc [u Eu]] & Ho & ->)|[(-> & Hno & Ho)|(-> & Hno & Ho)]]; rewrite bind_done.
  2:{ right. left. split; [done|]. split; [|done]. intros wire content Hw. apply has_body_inv in Hw as (body & tr & Hb' & _); [|done]. by eapply Hno. }
  2:{ right. right. split; [done|]. split; [|done]. intros ext wire content Hfe Hw. apply has_body_inv in Hw as (body & tr & Hb' & _); [|done]. by eapply (Hno ext). }
  rewrite !Z.add_0_l. unfold lh_http_chunked_parse_trailers, lh_str_view_get_size.
  rewrite Z.gtb_ltb, (proj2 (Z.ltb_ge _ _)) by (rewrite Eu; lens; lia).
  assert (forall ext wire content', fits (input ++ ext) -> has_body (input ++ ext) wire content' ->
    fits (body ++ u ++ ext) /\ exists tr rest, u ++ ext = tr ++ rest /\ trailers_max tr) as Hinv.
  { intros ext wire content' Hfe Hw. apply has_body_inv in Hw as (b' & tr & [Hc' [r' Er]] & -> & Ht & rest & E); [|done].
    rewrite Eu, <-app_assoc in E, Hfe. destruct (chunks_unique _ _ _ _ _ _ Hc Hc' E) as (<- & <- & E'). split; [done|eauto]. }
  destruct (trailers_loop_spec (S (length input)) body u) as [(next & H & tr & rest & E & Htr & ->)|[(H & Hno & Hu)|(H & Hno & Hu)]].
  { rewrite Eu. lens. lia. } { by rewrite <-Eu. } { rewrite Eu in Hb. by apply Forall_app in Hb as [_ Hb]. }
  all: rewrite <-Eu in H; rewrite H, bind_done.
  - left. exists (body ++ tr), content. split; [split|].
    + apply chunked_split; [|eauto]. rewrite Eu, E, app_assoc in Hf. by eapply fits_app_l.
    + exists rest. by rewrite <-app_assoc, <-E.
    + change (mbind ?f (Some ?x)) with (f x). cbv beta. by rewrite length_app, Nat2Z.inj_add.
  - right. left. split; [done|]. split; [|by apply (Ho u)]. intros wire content' Hw. apply Hno. apply (Hinv [] wire content'); by rewrite app_nil_r.
  - right. right. split; [done|]. split; [|by rewrite (Ho u)]. intros ext wire content' Hfe Hw. apply (Hno ext). by apply (Hinv ext wire content').
Qed.

(** ** Decoding in place *)

Lemma parse_part_ok pre t line n data tl : fits (pre ++ t) -> part_at t line n data tl ->
  lh_http_chunked_parse_part (pre ++ t) (len pre)
  = Done (lh_http_parse_complete, Some (len pre + len line + 2, n, len pre + len line + 2 + (if n =? 0 then 0 else n + 2))).
Proof.
  intros Hf Hp. destruct (parse_part_spec pre t Hf) as [([[start m] next] & -> & line' & data' & tl' & Hp' & -> & ->)|[(_ & Hno & _)|(_ & Hno & _)]].
  - by destruct (part_at_unique _ _ _ _ _ _ _ _ _ Hp Hp') as (-> & -> & _ & _).
  - exfalso. apply Hno. rewrite !app_nil_r. eauto 10.
  - exfalso. apply (Hno []). rewrite !app_nil_r. eauto 10.
Qed.
(** Bytes are taken from further on in the array, and the array is not longer after it. *)
Lemma move_within_ok done s start data b : drop (Z.to_nat start) (done ++ s) = data ++ b -> (length data <= length s)%nat ->
  move_within (done ++ s) (len done) start (len data) = Done (done ++ data ++ drop (length data) s).
Proof.
  intros E Hl. unfold move_within. rewrite E, copy_ok by (lens; lia). rewrite !Nat2Z.id, take_app_length, take_app_length.
  replace (Z.to_nat (len done + len data)) with (length done + length data)%nat by lia. by rewrite drop_app_add.
Qed.
(** One chunk: its data join what was decoded, [done], and less is left of the rest. *)
Lemma decode_step fuel done junk t1 t2 line n data tl : part_at t1 line n data tl -> 0 < n -> fits (done ++ junk ++ t1) ->
  exists junk', junk' ++ tl ++ t2 = drop (length data) (junk ++ t1 ++ t2) /\
  decode_loop (S fuel) (done ++ junk ++ t1 ++ t2) (len (done ++ junk ++ t1)) (len (done ++ junk)) (len done)
  = decode_loop fuel ((done ++ data) ++ junk' ++ tl ++ t2) (len ((done ++ data) ++ junk' ++ tl))
      (len ((done ++ data) ++ junk')) (len (done ++ data)).
Proof.
  intros Hp Hn Hf. pose proof (part_at_length _ _ _ _ _ Hp) as [Hlen Hd]. rewrite (proj2 (Z.eqb_neq n 0)) in Hlen by lia.
  cbn [decode_loop]. unfold lh_str_view_init_by_size. rewrite Nat2Z.id.
  assert (take (length (done ++ junk ++ t1)) (done ++ junk ++ t1 ++ t2) = (done ++ junk) ++ t1) as ->.
  { by rewrite !(app_assoc done), !(app_assoc (done ++ junk)), take_app_length. }
  rewrite (parse_part_ok (done ++ junk) t1 line n data tl), bind_done by (done || by rewrite <-app_assoc).
  change (negb (lh_http_parse_complete =? lh_http_parse_complete)) with false. cbv iota.
  rewrite (proj2 (Z.eqb_neq n 0)) by lia.
  assert (exists head, head ++ tl ++ t2 = junk ++ t1 ++ t2 /\ (length data <= length head)%nat /\ len head = len junk + (len t1 - len tl))
    as (head & Eh & Hl & Hh).
  { destruct Hp as [|l m d r Hs Hm]; [lia|]. exists (junk ++ l ++ CR :: LF :: d ++ [CR; LF]). lens. split_and!; [|lia|lia].
    rewrite <-!app_assoc. cbn [app]. by rewrite <-!app_assoc. }
  exists (drop (length data) head). split; [by rewrite <-Eh, drop_app_le by done|].
  rewrite <-Hd at 1. rewrite (move_within_ok _ _ _ data (CR :: LF :: tl ++ t2)), bind_done.
  2:{ destruct Hp as [|l m d r Hs Hm]; [lia|].
      assert (done ++ junk ++ (l ++ CR :: LF :: d ++ CR :: LF :: r) ++ t2 = (done ++ junk ++ l ++ [CR; LF]) ++ d ++ CR :: LF :: r ++ t2) as ->
        by (rewrite <-!app_assoc; cbn [app]; by rewrite <-!app_assoc).
      rewrite drop_app_length'; [done|]. lens. lia. }
  2:{ rewrite <-Eh. lens. lia. }
  f_equal.
  - rewrite <-Eh, drop_app_le by done. by rewrite <-!app_assoc.
  - lens. rewrite length_drop. lia.
  - lens. rewrite length_drop. lia.
  - lens. rewrite u64_id; unfold fits in Hf; lens; zb.
Qed.
Lemma decode_loop_ok body content : chunks body content -> forall fuel done junk rest1 rest2,
  (length body < fuel)%nat -> fits (done ++ junk ++ body ++ rest1) ->
  decode_loop fuel (done ++ junk ++ body ++ rest1 ++ rest2) (len (done ++ junk ++ body ++ rest1)) (len (done ++ junk)) (len done)
  = Done (done ++ content ++ drop (length content) (junk ++ body ++ rest1 ++ rest2), true).
Proof.
  intros Hc. induction Hc as [l Hs|l n data body content Hs Hn Hd Hb IH]; intros fuel done junk rest1 rest2 Hfuel Hf;
    (destruct fuel as [|fuel]; [lia|]).
  - cbn [decode_loop]; unfold lh_str_view_init_by_size; rewrite Nat2Z.id. set (body := l ++ [CR; LF]) in *.
    assert (done ++ junk ++ body ++ rest1 ++ rest2 = (done ++ junk ++ body ++ rest1) ++ rest2) as -> by by rewrite <-!app_assoc.
    rewrite take_app_length. assert (done ++ junk ++ body ++ rest1 = (done ++ junk) ++ body ++ rest1) as E by by rewrite <-!app_assoc.
    rewrite E. rewrite (parse_part_ok (done ++ junk) (body ++ rest1) l 0 [] rest1); [|by rewrite <-E|].
    2:{ unfold body. rewrite <-app_assoc. by constructor. }
    rewrite bind_done. change (0 =? 0) with true. cbv iota. by rewrite <-!app_assoc.
  - set (chunk := l ++ CR :: LF :: data ++ CR :: LF :: body) in *.
    destruct (decode_step fuel done junk (chunk ++ rest1) rest2 l n data (body ++ rest1)) as (junk' & Ej & E).
    { unfold chunk. rewrite <-app_assoc. cbn [app]. rewrite <-app_assoc. by constructor. } { done. } { done. }
    assert (length body < fuel)%nat as Hfuel' by (unfold chunk in Hfuel; lens; lia).
    assert (fits ((done ++ data) ++ junk' ++ body ++ rest1)) as Hf'.
    { apply (f_equal length) in Ej. rewrite length_drop in Ej. unfold fits, chunk in *. lens. lia. }
    specialize (IH fuel (done ++ data) junk' rest1 rest2 Hfuel' Hf').
    rewrite <-(app_assoc body), <-(app_assoc chunk) in E, Ej.
    rewrite E, IH, Ej, drop_drop, length_app. by rewrite <-!app_assoc.
Qed.

Lemma chunked_decode_spec data size :
  0 <= size <= len data -> fits data -> is_bytes data ->
  let input := take (Z.to_nat size) data in
  (exists wire content, has_body input wire content /\
     lh_http_chunked_decode data size
     = Done (content ++ drop (length content) data, lh_http_parse_complete, Some (len wire, len content))) \/
  (lh_http_chunked_decode data size = Done (data, lh_http_parse_incomplete, None) /\
     (forall wire content, ~ has_body input wire content) /\ open_body LH_USIZE_T_MAX input) \/
  (lh_http_chunked_decode data size = Done (data, lh_http_parse_error, None) /\
     (forall ext wire content, fits (input ++ ext) -> ~ has_body (input ++ ext) wire content) /\ ~ open_body LH_USIZE_T_MAX input).
Proof.
  intros Hs Hf Hb input. unfold lh_http_chunked_decode, lh_str_view_init_by_size. fold input.
  pose proof (take_drop (Z.to_nat size) data) as Ed. fold input in Ed.
  assert (fits input) as Hfi by (rewrite <-Ed in Hf; by eapply fits_app_l).
  assert (is_bytes input) as Hbi by (rewrite <-Ed in Hb; by apply Forall_app in Hb as [Hb _]).
  destruct (scan_spec input Hfi Hbi) as [(wire & content & Hw & ->)|[(-> & Hno & Ho)|(-> & Hno & Ho)]]; rewrite bind_done; [left|by right; left|by right; right].
  exists wire, content. split; [done|]. apply has_body_inv in Hw as (body & tr & [Hc _] & -> & _ & rest & E); [|done].
  assert (size = len input) as Hsize by (unfold input; rewrite length_take; lia).
  set (tail := drop (Z.to_nat size) data) in *.
  pose proof (decode_loop_ok body content Hc (S (Z.to_nat size)) [] [] (tr ++ rest) tail) as H.
  cbn [app] in H. rewrite <-E in H. change (Z.of_nat (@length Z [])) with 0 in H.
  assert (body ++ (tr ++ rest) ++ tail = data) as E'.
  { transitivity (input ++ tail); [|done]. rewrite E. by rewrite <-!app_assoc. }
  rewrite E', <-Hsize in H. rewrite H, bind_done; [done| |done].
  rewrite Hsize, E. lens. lia.
Qed.

(** Claim C17: decoding a chunked body in place.  When the buffer begins with a chunked body of
    the grammar, [lh_http_chunked_decode] completes, consumes the body and nothing after it,
    and the content is at the start of the buffer, the rest of which is as it was.  When it
    does not, the buffer is untouched; the status is incomplete exactly if what is there is in
    order and breaks off inside a line, the data of a chunk or the line end after it
    ([open_body]), and error in every other case, where no continuation is a body.  (What is
    inside a line that has not ended is not looked at.)  Neither a run-time check fails nor is
    a byte outside the buffer touched. *)
Theorem chunked_decode_is_standard data size :
  0 <= size <= len data -> fits data -> is_bytes data ->
  let input := take (Z.to_nat size) data in
  (exists wire content, has_body input wire content /\
     lh_http_chunked_decode data size
     = Done (content ++ drop (length content) data, lh_http_parse_complete, Some (len wire, len content))) \/
  (lh_http_chunked_decode data size = Done (data, lh_http_parse_incomplete, None) /\
     (forall wire content, ~ has_body input wire content) /\ open_body LH_USIZE_T_MAX input) \/
  (lh_http_chunked_decode data size = Done (data, lh_http_parse_error, None) /\
     (forall ext wire content, fits (input ++ ext) -> ~ has_body (input ++ ext) wire content) /\ ~ open_body LH_USIZE_T_MAX input).
Proof. apply chunked_decode_spec. Qed.
Lemma wiki_ok : is_bytes wiki /\ fits wiki.
Proof. split; [|vm_compute; reflexivity]. unfold wiki, is_bytes. repeat (apply Forall_cons_2; [by vm_compute|]). apply Forall_nil_2. Qed.
Lemma chunked_decode_is_standard_witness :
  exists wire content, has_body (take 24 wiki) wire content /\
    lh_http_chunked_decode wiki 24 = Done (content ++ drop (length content) wiki, lh_http_parse_complete, Some (len wire, len content)).
Proof.
  destruct (chunked_decode_is_standard wiki 24) as [H|[[E _]|[E _]]].
  - by vm_compute.
  - apply wiki_ok.
  - apply wiki_ok.
  - exact H.
  - vm_compute in E. discriminate.
  - vm_compute in E. discriminate.
Defined.
