(* ===== verification/DecoderProofs.v ===== *)
(** * Chunked transfer coding: the decoder by pieces

    What a decoder still accepts, [accepts d wire content], is the residual of the grammar
    after the bytes it has seen, within its limits.  A byte of framing turns it into that of
    the next state, a byte of data takes it from both the wire and the content; so pieces of
    any size, with room for any number of bytes, lead to the residual of all that was fed. *)
From S2P Require Import Prelude Buffer Bytes Digits DigitsProofs Format StrPtr View ViewProofs Http HttpProofs Chunked ChunkedSpec ChunkedProofs.

Ltac dec_unfold := unfold lh_http_chunked_decoder_get_line, lh_http_chunked_decoder_set_line,
  lh_http_chunked_decoder_get_line_capacity, lh_http_chunked_decoder_set_line_capacity,
  lh_http_chunked_decoder_get_line_size, lh_http_chunked_decoder_set_line_size,
  lh_http_chunked_decoder_get_remaining, lh_http_chunked_decoder_set_remaining,
  lh_http_chunked_decoder_get_decoded, lh_http_chunked_decoder_set_decoded,
  lh_http_chunked_decoder_get_decoded_limit, lh_http_chunked_decoder_set_decoded_limit,
  lh_http_chunked_decoder_get_metadata, lh_http_chunked_decoder_set_metadata,
  lh_http_chunked_decoder_get_metadata_limit, lh_http_chunked_decoder_set_metadata_limit,
  lh_http_chunked_decoder_get_phase, lh_http_chunked_decoder_set_phase in *.
Ltac dec_cbn := dec_unfold; cbn [dec_line dec_line_capacity dec_line_size dec_remaining dec_decoded dec_decoded_limit
  dec_metadata dec_metadata_limit dec_phase] in *.

(** ** The residual *)

(** The line gathered so far. *)
Definition current (d : lh_http_chunked_decoder_t) : list Z := take (Z.to_nat (dec_line_size d)) (dec_line d).
Definition accepts_phase (d : lh_http_chunked_decoder_t) (w content : list Z) : Prop :=
  let cap := dec_line_capacity d in
  match dec_phase d with
  | lh_http_chunked_decoder_phase_size => chunked cap (current d ++ w) content
  | lh_http_chunked_decoder_phase_size_lf => chunked cap (current d ++ CR :: w) content
  | lh_http_chunked_decoder_phase_data =>
      exists data wire content', w = data ++ CR :: LF :: wire /\ content = data ++ content' /\ len data = dec_remaining d /\
        chunked cap wire content'
  | lh_http_chunked_decoder_phase_data_cr => exists wire, w = CR :: LF :: wire /\ chunked cap wire content
  | lh_http_chunked_decoder_phase_data_lf => exists wire, w = LF :: wire /\ chunked cap wire content
  | lh_http_chunked_decoder_phase_trailer => trailers cap (current d ++ w) /\ content = []
  | lh_http_chunked_decoder_phase_trailer_lf => trailers cap (current d ++ CR :: w) /\ content = []
  | lh_http_chunked_decoder_phase_done => w = [] /\ content = []
  | lh_http_chunked_decoder_phase_error => False
  end.
Definition accepts (d : lh_http_chunked_decoder_t) (w content : list Z) : Prop :=
  dec_metadata d + (len w - len content) <= dec_metadata_limit d /\
  dec_decoded d + len content <= dec_decoded_limit d /\ accepts_phase d w content.

Definition in_data (d : lh_http_chunked_decoder_t) : Prop := dec_phase d = lh_http_chunked_decoder_phase_data.
(** Between the line of a size and the next line. *)
Definition in_chunk (ph : lh_http_chunked_decoder_phase_t) : bool :=
  match ph with
  | lh_http_chunked_decoder_phase_data | lh_http_chunked_decoder_phase_data_cr | lh_http_chunked_decoder_phase_data_lf => true
  | _ => false
  end.
Record dec_ok (d : lh_http_chunked_decoder_t) : Prop := {
  ok_capacity : 0 <= dec_line_size d <= dec_line_capacity d;
  ok_line : dec_line_capacity d <= len (dec_line d);
  ok_small : dec_line_capacity d < LH_USIZE_T_MAX;
  ok_bytes : is_bytes (current d);
  ok_plain : plain (current d);
  ok_metadata : 0 <= dec_metadata d <= dec_metadata_limit d;
  ok_metadata_limit : is_u64 (dec_metadata_limit d);
  ok_decoded : 0 <= dec_decoded d <= dec_decoded_limit d;
  ok_decoded_limit : is_u64 (dec_decoded_limit d);
  ok_cleared : in_chunk (dec_phase d) = true -> dec_line_size d = 0;
  ok_remaining : in_data d -> 0 < dec_remaining d <= dec_decoded_limit d - dec_decoded d
}.

(** ** Framing *)

Lemma trailers_inv cap line tl : plain line -> trailers cap (line ++ CR :: LF :: tl) <->
  (line = [] /\ tl = []) \/ (field_line line /\ len line <= cap /\ trailers cap tl).
Proof.
  intros Hp. split.
  - intros H. remember (line ++ CR :: LF :: tl) as u eqn:Eu. destruct H as [|l r Hl Hc Hr].
    + left. symmetry in Eu. apply (line_unique line []) in Eu as [-> E]; [|done|apply plain_nil]. by injection E as ->.
    + right. apply line_unique in Eu as [-> E]; [|by apply field_line_plain|done]. by injection E as ->.
  - intros [[-> ->]|(Hl & Hc & Hr)]; by constructor.
Qed.
Lemma chunked_inv cap line tl content : plain line -> chunked cap (line ++ CR :: LF :: tl) content <->
  len line <= cap /\ ((size_line 0 line /\ trailers cap tl /\ content = []) \/
    (exists n data wire content', size_line n line /\ 0 < n /\ len data = n /\ tl = data ++ CR :: LF :: wire /\
       content = data ++ content' /\ chunked cap wire content')).
Proof.
  intros Hp. split.
  - intros H. remember (line ++ CR :: LF :: tl) as u eqn:Eu. destruct H as [l r Hs Hc Hr|l n d w c Hs Hc Hn Hd Hw].
    + apply line_unique in Eu as [-> E]; [|by eapply size_line_plain|done]. injection E as ->. eauto 10.
    + apply line_unique in Eu as [-> E]; [|by eapply size_line_plain|done]. injection E as <-. split; [done|right]. eauto 12.
  - intros [Hc [(Hs & Hr & ->)|(n & d & w & c & Hs & Hn & Hd & -> & -> & Hw)]]; by econstructor.
Qed.
(** A line in progress: the next character is CR, or a character of a line that fits. *)
Lemma first_line_char cap line c w : plain line ->
  (exists l tl, line ++ c :: w = l ++ CR :: LF :: tl /\ plain l /\ len l <= cap) -> c = CR \/ (c <> CR /\ c <> LF /\ len line < cap).
Proof.
  intros Hp (l & tl & E & Hl & Hcap). revert l cap Hl E Hcap.
  induction Hp as [|a line [Ha Hb] Hp IH]; intros [|b l] cap Hl E Hcap; cbn [app] in E; cbn [length] in *.
  - injection E as -> _. by left.
  - injection E as -> _. apply plain_cons in Hl as [[? ?] _]. right. split_and!; try done. lia.
  - by injection E as -> _.
  - injection E as -> E. apply plain_cons in Hl as [_ Hl].
    destruct (IH l (cap - 1) Hl E ltac:(lia)) as [?|(? & ? & ?)]; [by left|right]. split_and!; try done. lia.
Qed.
Lemma trailers_first cap u : 0 <= cap -> trailers cap u -> exists l tl, u = l ++ CR :: LF :: tl /\ plain l /\ len l <= cap.
Proof.
  intros Hcap [|l r Hl Hc Hr]; [exists [], []|exists l, r]; split_and!; try done; [apply plain_nil|by apply field_line_plain].
Qed.
Lemma chunked_first cap u content : chunked cap u content -> exists l tl, u = l ++ CR :: LF :: tl /\ plain l /\ len l <= cap.
Proof. intros [l r Hs Hc Hr|l n d w c Hs Hc Hn Hd Hw]; eexists l, _; split_and!; try done; by eapply size_line_plain. Qed.
Lemma chunked_framing cap u content : chunked cap u content -> len content + 5 <= len u.
Proof.
  induction 1 as [l r Hs Hc Hr|l n d w c Hs Hc Hn Hd Hw IH]; lens.
  - destruct Hs as [[|? ?] exts]; [done|]. destruct Hr; lens; lia.
  - lia.
Qed.

Record step_ok (d : lh_http_chunked_decoder_t) (ch : Z) (d' : lh_http_chunked_decoder_t) : Prop := {
  step_dec_ok : dec_ok d';
  step_metadata : dec_metadata d' = dec_metadata d + 1;
  step_limit : dec_metadata_limit d' = dec_metadata_limit d;
  step_accepts w c : accepts d (ch :: w) c <-> accepts d' w c
}.
(** The limits of framing and data are kept by a byte of framing. *)
Lemma step_intro d ch d' : dec_ok d' -> dec_metadata d' = dec_metadata d + 1 -> dec_metadata_limit d' = dec_metadata_limit d ->
  dec_decoded d' = dec_decoded d -> dec_decoded_limit d' = dec_decoded_limit d ->
  (forall w c, dec_decoded d + len c <= dec_decoded_limit d -> accepts_phase d (ch :: w) c <-> accepts_phase d' w c) ->
  step_ok d ch d'.
Proof.
  intros Hok Hm Hl Hd Hdl H. constructor; try done. intros w c. unfold accepts. rewrite Hm, Hl, Hd, Hdl. cbn [length].
  replace (dec_metadata d + (Z.of_nat (S (length w)) - len c)) with (dec_metadata d + 1 + (len w - len c)) by lia.
  split; intros (? & Hc & Hp); split_and!; try done; by apply (H w c Hc).
Qed.
Definition count_metadata (d : lh_http_chunked_decoder_t) : lh_http_chunked_decoder_t :=
  lh_http_chunked_decoder_set_metadata d (u64 (lh_http_chunked_decoder_get_metadata d + 1)).
Definition counted (d : lh_http_chunked_decoder_t) : Prop := dec_metadata d < dec_metadata_limit d.
Lemma count_ok d : dec_ok d -> counted d -> u64 (dec_metadata d + 1) = dec_metadata d + 1.
Proof. intros [] Hc. unfold counted in Hc. apply u64_id. zb. Qed.
(** The state after a byte, when only the phase changes, to one that is not of data. *)
Lemma phase_step d ch ph : dec_ok d -> counted d -> ph <> lh_http_chunked_decoder_phase_data ->
  (in_chunk ph = true -> dec_line_size d = 0) ->
  (forall w c, dec_decoded d + len c <= dec_decoded_limit d ->
     accepts_phase d (ch :: w) c <-> accepts_phase (lh_http_chunked_decoder_set_phase d ph) w c) ->
  step_ok d ch (lh_http_chunked_decoder_set_phase (count_metadata d) ph).
Proof.
  intros Hok Hc Hph Hin H. pose proof (count_ok d Hok Hc) as Hu. destruct Hok. unfold counted in Hc.
  apply step_intro; unfold count_metadata; dec_cbn; rewrite ?Hu; try done.
  constructor; unfold in_data; dec_cbn; rewrite ?Hu; try done. lia.
Qed.
Lemma error_step d ch : dec_ok d -> counted d ->
  (forall w c, dec_decoded d + len c <= dec_decoded_limit d -> ~ accepts_phase d (ch :: w) c) ->
  step_ok d ch (lh_http_chunked_decoder_set_phase (count_metadata d) lh_http_chunked_decoder_phase_error).
Proof. intros Hok Hc H. apply phase_step; try done. intros w c Hd. split; [by apply H|done]. Qed.

(** A character of a line in progress. *)
Definition gathers (ph : lh_http_chunked_decoder_phase_t) : Prop :=
  ph = lh_http_chunked_decoder_phase_size \/ ph = lh_http_chunked_decoder_phase_trailer.
Lemma current_append d ch line : dec_ok d -> dec_line_size d < dec_line_capacity d ->
  copy_bytes (dec_line d) (dec_line_size d) [ch] 1 = Done line ->
  take (Z.to_nat (dec_line_size d + 1)) line = current d ++ [ch] /\ len line = len (dec_line d).
Proof.
  intros [] Hl. rewrite copy_ok by (cbn [length]; lia). intros [= <-]. unfold current.
  assert (length (take (Z.to_nat (dec_line_size d)) (dec_line d)) = Z.to_nat (dec_line_size d)) as Ht by (rewrite length_take; lia).
  split.
  - replace (Z.to_nat (dec_line_size d + 1)) with (length (take (Z.to_nat (dec_line_size d)) (dec_line d)) + 1)%nat by lia.
    by rewrite take_app_add.
  - rewrite !length_app, Ht. cbn [length]. rewrite length_drop. lia.
Qed.
Lemma line_step d ch : dec_ok d -> counted d -> gathers (dec_phase d) -> is_u8 ch ->
  exists d', feed_char (count_metadata d) (dec_phase d) ch = Done d' /\ step_ok d ch d'.
Proof.
  intros Hok Hc Hg Hch. pose proof (count_ok d Hok Hc) as Hu.
  assert (forall w c, accepts_phase d (ch :: w) c -> ch = CR \/ (ch <> CR /\ ch <> LF /\ dec_line_size d < dec_line_capacity d)) as Hfirst.
  { intros w c H. unfold accepts_phase in H. assert (len (current d) = dec_line_size d) as <-.
    { destruct Hok. unfold current. rewrite length_take. lia. }
    destruct Hg as [Hg|Hg]; rewrite Hg in H; (eapply first_line_char; [apply Hok|]).
    - by eapply chunked_first.
    - destruct H as [H _]. eapply trailers_first; [|done]. destruct Hok. lia. }
  assert (feed_char (count_metadata d) (dec_phase d) ch =
    if ch =? CR then Done (lh_http_chunked_decoder_set_phase (count_metadata d) (if bool_decide (dec_phase d = lh_http_chunked_decoder_phase_size)
      then lh_http_chunked_decoder_phase_size_lf else lh_http_chunked_decoder_phase_trailer_lf)) else
    if (ch =? LF) || (dec_line_size d >=? dec_line_capacity d) then
      Done (lh_http_chunked_decoder_set_phase (count_metadata d) lh_http_chunked_decoder_phase_error) else
    line ← copy_bytes (dec_line d) (dec_line_size d) [ch] 1;
    Done (lh_http_chunked_decoder_set_line_size (lh_http_chunked_decoder_set_line (count_metadata d) line) (u64 (dec_line_size d + 1)))) as ->.
  { by destruct Hg as [-> | ->]. }
  destruct (Z.eqb_spec ch CR) as [->|Hcr].
  { eexists. split; [done|]. destruct Hg as [Hg|Hg]; rewrite Hg; [rewrite bool_decide_true by done|rewrite bool_decide_false by done];
      apply phase_step; try done; intros w c _; unfold accepts_phase; by rewrite Hg. }
  destruct ((ch =? LF) || (dec_line_size d >=? dec_line_capacity d)) eqn:Eb.
  { eexists. split; [done|]. apply error_step; try done. intros w c _ H. apply Hfirst in H as [?|(_ & H1 & H2)]; [done|].
    rewrite Z.geb_leb in Eb. apply orb_true_iff in Eb as [?%Z.eqb_eq|?%Z.leb_le]; [done|lia]. }
  apply orb_false_iff in Eb as [Hlf%Z.eqb_neq Hcap]. rewrite Z.geb_leb in Hcap. apply Z.leb_gt in Hcap.
  destruct (copy_bytes (dec_line d) (dec_line_size d) [ch] 1) as [line| |] eqn:Ecp.
  2,3: rewrite copy_ok in Ecp by (destruct Hok; cbn [length]; lia); done.
  destruct (current_append d ch line Hok Hcap Ecp) as [Hcur Hlen]. rewrite bind_done. eexists. split; [done|].
  assert (u64 (dec_line_size d + 1) = dec_line_size d + 1) as Hu' by (apply u64_id; destruct Hok; zb).
  destruct Hok. unfold counted in Hc. apply step_intro; unfold count_metadata; dec_cbn; rewrite ?Hu; try done.
  - constructor; unfold in_data, current; dec_cbn; rewrite ?Hu, ?Hu', ?Hcur, ?Hlen; try done; try lia.
    + apply Forall_app. split; [done|]. by apply Forall_cons_2; [|apply Forall_nil_2].
    + apply plain_both. split; [done|]. apply plain_cons. split; [done|apply plain_nil].
    + by destruct Hg as [-> | ->].
  - intros w c _. unfold accepts_phase, current. dec_cbn. rewrite Hu', Hcur. fold (current d).
    destruct Hg as [-> | ->]; by rewrite <-app_assoc.
Qed.

(** The line feed after a line of a size. *)
Lemma current_fits d : dec_ok d -> len (current d) = dec_line_size d /\ fits (current d).
Proof. intros []. assert (len (current d) = dec_line_size d) as E by (unfold current; rewrite length_take; lia). split; [done|]. unfold fits. zb. Qed.
Definition after_size (d : lh_http_chunked_decoder_t) (n : Z) : lh_http_chunked_decoder_t :=
  lh_http_chunked_decoder_set_line_size (lh_http_chunked_decoder_set_phase (lh_http_chunked_decoder_set_remaining (count_metadata d) n)
    (if n =? 0 then lh_http_chunked_decoder_phase_trailer else lh_http_chunked_decoder_phase_data)) 0.
Lemma after_size_step d n : dec_ok d -> counted d -> dec_phase d = lh_http_chunked_decoder_phase_size_lf -> size_line n (current d) ->
  n <= dec_decoded_limit d - dec_decoded d -> step_ok d LF (after_size d n).
Proof.
  intros Hok Hc Hph Hn Hle. pose proof (count_ok d Hok Hc) as Hu. apply size_line_range in Hn as Hr.
  destruct (current_fits d Hok) as [Hcur _]. pose proof Hok as Hok'. destruct Hok. unfold counted in Hc.
  apply step_intro; unfold after_size, count_metadata; dec_cbn; rewrite ?Hu; try done.
  - constructor; unfold in_data, current; dec_cbn; rewrite ?Hu; try done; try lia; [apply Forall_nil_2|apply plain_nil|].
    destruct (Z.eqb_spec n 0); [done|]. zb.
  - intros w c _. unfold accepts_phase, current. dec_cbn. rewrite Hph. fold (current d). rewrite chunked_inv by done.
    destruct (Z.eqb_spec n 0) as [->|Hn0].
    + cbn [Z.to_nat take app]. rewrite Hcur. split; [|naive_solver lia].
      intros (_ & [(_ & ? & ->)|(m & data & wire & c' & Hm & H0 & _)]); [done|].
      specialize (size_line_unique _ _ _ Hn Hm). lia.
    + rewrite Hcur. split.
      * intros (_ & [(H0 & _)|(m & data & wire & c' & Hm & _ & Hd & -> & -> & Hw)]).
        { by specialize (size_line_unique _ _ _ Hn H0). }
        rewrite (size_line_unique _ _ _ Hn Hm). exists data, wire, c'. done.
      * intros (data & wire & c' & -> & -> & Hd & Hw). split; [lia|right]. exists n, data, wire, c'. split_and!; try done. zb.
Qed.
Lemma size_lf_step d ch : dec_ok d -> counted d -> dec_phase d = lh_http_chunked_decoder_phase_size_lf ->
  exists d', feed_char (count_metadata d) (dec_phase d) ch = Done d' /\ step_ok d ch d'.
Proof.
  intros Hok Hc Hph. pose proof (count_ok d Hok Hc) as Hu. destruct (current_fits d Hok) as [Hcur Hfits]. rewrite Hph. cbn [feed_char].
  change lh_char_map_lf with LF. destruct (Z.eqb_spec ch LF) as [->|Hlf]; cbn [negb].
  2:{ eexists. split; [done|]. apply error_step; try done. intros w c _ H. unfold accepts_phase in H. rewrite Hph in H.
      apply chunked_first in H as (l & tl & E & Hl & _). apply line_unique in E as [_ E]; [|by destruct Hok|done]. by injection E as. }
  unfold lh_http_chunked_decoder_try_finish_line. cbv zeta.
  change (lh_str_view_init_by_size (lh_http_chunked_decoder_get_line (count_metadata d)) (lh_http_chunked_decoder_get_line_size (count_metadata d))) with (current d).
  change (lh_http_chunked_decoder_get_phase (count_metadata d)) with (dec_phase d). rewrite Hph. rewrite bool_decide_true by done.
  destruct (try_parse_size_spec (current d) Hfits) as (r & -> & Hsize). rewrite bind_done.
  change (lh_http_chunked_decoder_get_decoded_limit (count_metadata d)) with (dec_decoded_limit d).
  change (lh_http_chunked_decoder_get_decoded (count_metadata d)) with (dec_decoded d).
  assert (forall w c, dec_decoded d + len c <= dec_decoded_limit d -> accepts_phase d (LF :: w) c ->
    exists n, r = Some n /\ n <= dec_decoded_limit d - dec_decoded d) as Hneed.
  { intros w c Hd H. unfold accepts_phase in H. rewrite Hph in H. apply chunked_inv in H as (_ & H); [|by destruct Hok].
    destruct H as [(Hs & _ & _)|(n & data & wire & c' & Hs & _ & Hn & _ & -> & _)].
    - exists 0. destruct Hok. split; [by apply Hsize|lia].
    - exists n. split; [by apply Hsize|]. lens. lia. }
  rewrite u64_id by (destruct Hok; zb). destruct r as [n|].
  2:{ eexists. split; [done|]. apply error_step; try done. intros w c Hd H. by destruct (Hneed w c Hd H) as (? & ? & _). }
  rewrite Z.gtb_ltb. destruct (Z.ltb_spec (dec_decoded_limit d - dec_decoded d) n) as [Hlt|Hle].
  { eexists. split; [done|]. apply error_step; try done. intros w c Hd H. destruct (Hneed w c Hd H) as (? & [= <-] & ?). lia. }
  eexists. split; [done|]. apply after_size_step; try done. by apply Hsize.
Qed.

(** The line feed after a line of the trailer. *)
Definition after_trailer (d : lh_http_chunked_decoder_t) (ph : lh_http_chunked_decoder_phase_t) : lh_http_chunked_decoder_t :=
  lh_http_chunked_decoder_set_line_size (lh_http_chunked_decoder_set_phase (count_metadata d) ph) 0.
Lemma after_trailer_step d ph : dec_ok d -> counted d -> dec_phase d = lh_http_chunked_decoder_phase_trailer_lf ->
  (current d = [] /\ ph = lh_http_chunked_decoder_phase_done) \/ (field_line (current d) /\ ph = lh_http_chunked_decoder_phase_trailer) ->
  step_ok d LF (after_trailer d ph).
Proof.
  intros Hok Hc Hph Hcase. pose proof (count_ok d Hok Hc) as Hu. destruct (current_fits d Hok) as [Hcur _].
  assert (ph <> lh_http_chunked_decoder_phase_data) as Hnd by by destruct Hcase as [[_ ->]|[_ ->]].
  destruct Hok. unfold counted in Hc. apply step_intro; unfold after_trailer, count_metadata; dec_cbn; rewrite ?Hu; try done.
  - constructor; unfold in_data, current; dec_cbn; rewrite ?Hu; try done; try lia; [apply Forall_nil_2|apply plain_nil].
  - intros w c _. unfold accepts_phase, current. dec_cbn. rewrite Hph. fold (current d). rewrite trailers_inv by done.
    destruct Hcase as [[E ->]|[Hl ->]]; cbn [Z.to_nat take app].
    + rewrite E. split; [|naive_solver]. intros [[[_ ->]|(Hl & _)] ->]; [done|]. by apply field_line_nonempty in Hl.
    + split; [|naive_solver lia]. intros [[[E _]|(_ & _ & ?)] ->]; [by apply field_line_nonempty in Hl|done].
Qed.
Lemma trailer_lf_step d ch : dec_ok d -> counted d -> dec_phase d = lh_http_chunked_decoder_phase_trailer_lf ->
  exists d', feed_char (count_metadata d) (dec_phase d) ch = Done d' /\ step_ok d ch d'.
Proof.
  intros Hok Hc Hph. destruct (current_fits d Hok) as [Hcur Hfits]. rewrite Hph. cbn [feed_char].
  change lh_char_map_lf with LF. destruct (Z.eqb_spec ch LF) as [->|Hlf]; cbn [negb].
  2:{ eexists. split; [done|]. apply error_step; try done. intros w c _ H. unfold accepts_phase in H. rewrite Hph in H. destruct H as [H _].
      apply trailers_first in H as (l & tl & E & Hl & _); [|destruct Hok; lia].
      apply line_unique in E as [_ E]; [|by destruct Hok|done]. by injection E as. }
  unfold lh_http_chunked_decoder_try_finish_line. cbv zeta.
  change (lh_str_view_init_by_size (lh_http_chunked_decoder_get_line (count_metadata d)) (lh_http_chunked_decoder_get_line_size (count_metadata d))) with (current d).
  change (lh_http_chunked_decoder_get_phase (count_metadata d)) with (dec_phase d). rewrite Hph.
  rewrite bool_decide_false, bool_decide_true by done. rewrite view_is_empty. case_bool_decide as E.
  { rewrite bind_done. eexists. split; [done|]. apply after_trailer_step; auto. }
  change (assert_set (lh_http_parser_init (Some (mk_parser 0 0 0 0 0)))) with (Done (mk_parser 8192 4096 0 0 0)). rewrite bind_done.
  destruct (parse_field_spec (mk_parser 8192 4096 0 0 0) [] (current d) [] no_header) as (self & h & st & H & _ & Hst & _).
  { by destruct Hok. } { done. }
  cbn [app length] in H. rewrite app_nil_r in H. change (Z.of_nat 0) with 0 in H. unfold lh_str_view_get_size. rewrite H, bind_done.
  destruct (Z.eqb_spec st lh_http_parse_complete) as [Hs|Hs]; cbn [negb]; rewrite bind_done.
  - eexists. split; [done|]. apply after_trailer_step; try done. right. split; [by apply Hst|done].
  - eexists. split; [done|]. apply error_step; try done. intros w c _ Ha. unfold accepts_phase in Ha. rewrite Hph in Ha.
    destruct Ha as [Ha _]. apply trailers_inv in Ha as [[? _]|(Hl & _)]; [done| |by destruct Hok]. by apply Hs, Hst.
Qed.
Lemma data_end_step d ch : dec_ok d -> counted d ->
  dec_phase d = lh_http_chunked_decoder_phase_data_cr \/ dec_phase d = lh_http_chunked_decoder_phase_data_lf ->
  exists d', feed_char (count_metadata d) (dec_phase d) ch = Done d' /\ step_ok d ch d'.
Proof.
  intros Hok Hc Hcase. assert (dec_line_size d = 0) as H0 by (destruct Hok; by destruct Hcase as [E|E]; rewrite E in *; auto).
  destruct Hcase as [Hph|Hph]; rewrite Hph; cbn [feed_char]; eexists; (split; [done|]).
  - change lh_char_map_cr with CR. destruct (Z.eqb_spec ch CR) as [->|Hn].
    + apply phase_step; try done. intros w c _. unfold accepts_phase. dec_cbn. rewrite Hph. naive_solver.
    + apply error_step; try done. intros w c _. unfold accepts_phase. rewrite Hph. naive_solver.
  - change lh_char_map_lf with LF. destruct (Z.eqb_spec ch LF) as [->|Hn].
    + apply phase_step; try done. intros w c _. unfold accepts_phase, current. dec_cbn. rewrite Hph, H0. cbn [Z.to_nat take app]. naive_solver.
    + apply error_step; try done. intros w c _. unfold accepts_phase. rewrite Hph. naive_solver.
Qed.

(** ** Any byte *)

Definition in_framing (d : lh_http_chunked_decoder_t) : Prop :=
  dec_phase d <> lh_http_chunked_decoder_phase_data /\ dec_phase d <> lh_http_chunked_decoder_phase_done /\
  dec_phase d <> lh_http_chunked_decoder_phase_error.
Lemma framing_step d ch : dec_ok d -> counted d -> in_framing d -> is_u8 ch ->
  exists d', feed_char (count_metadata d) (dec_phase d) ch = Done d' /\ step_ok d ch d'.
Proof.
  intros Hok Hc (H1 & H2 & H3) Hch. destruct (dec_phase d) eqn:E; rewrite <-E; try done.
  - apply line_step; try done. by left.
  - by apply size_lf_step.
  - apply data_end_step; auto.
  - apply data_end_step; auto.
  - apply line_step; try done. by right.
  - by apply trailer_lf_step.
Qed.
Lemma plain_prefix line w l tl : plain line -> plain l -> line ++ w = l ++ CR :: tl -> exists m, l = line ++ m /\ w = m ++ CR :: tl.
Proof.
  intros Hp. revert l. induction Hp as [|a line [Ha _] Hp IH]; intros l Hl E; [by exists l|].
  destruct l as [|b l]; cbn [app] in E; [by injection E as -> _|]. injection E as -> E.
  apply plain_cons in Hl as [_ Hl]. destruct (IH l Hl E) as (m & -> & ->). by exists m.
Qed.
Lemma chunked_rest cap line w content : plain line -> chunked cap (line ++ w) content -> len content + 1 <= len w.
Proof.
  intros Hp H. destruct (chunked_first _ _ _ H) as (l & tl & E & Hl & _). rewrite E in H.
  apply plain_prefix in E as (m & -> & ->); [|done|done]. apply chunked_inv in H as [_ H]; [|done]. lens.
  destruct H as [(_ & _ & ->)|(n & d & wire & c' & _ & _ & _ & -> & -> & Hw)]; lens; [lia|].
  apply chunked_framing in Hw. lia.
Qed.
(** Outside data, there is framing still to come. *)
Lemma framing_left d w c : dec_ok d -> in_framing d -> accepts_phase d w c -> len c + 1 <= len w.
Proof.
  intros Hok (H1 & H2 & H3) H. assert (plain (current d)) as Hp by by destruct Hok.
  assert (0 <= dec_line_capacity d) as Hcap by (destruct Hok; lia).
  assert (forall u, trailers (dec_line_capacity d) (current d ++ u) -> 1 <= len u) as Htr.
  { intros u (l & tl & E & Hl & _)%trailers_first; [|done]. apply plain_prefix in E as (m & -> & ->); [|done|done]. lens. lia. }
  unfold accepts_phase in H. destruct (dec_phase d); try done.
  - by eapply chunked_rest.
  - destruct (chunked_first _ _ _ H) as (l & tl & E & Hl & _). apply line_unique in E as [<- ->]; [|done|done].
    apply chunked_inv in H as [_ H]; [|done]. lens. destruct H as [(_ & _ & ->)|(n & e & wire & c' & _ & _ & _ & -> & -> & Hw)]; lens; [lia|].
    apply chunked_framing in Hw. lia.
  - destruct H as (wire & -> & Hw). apply chunked_framing in Hw. lens. lia.
  - destruct H as (wire & -> & Hw). apply chunked_framing in Hw. lens. lia.
  - destruct H as [H ->]. apply Htr in H. cbn [length]. lia.
  - destruct H as [H ->]. apply trailers_first in H as (l & tl & E & Hl & _); [|done].
    apply line_unique in E as [_ ->]; [|done|done]. cbn [length]. lia.
Qed.
Lemma no_room d w c : dec_ok d -> in_framing d -> ~ counted d -> ~ accepts d w c.
Proof.
  intros Hok Hf Hc (Hm & _ & H). apply framing_left in H; [|done|done]. unfold counted in Hc. lia.
Qed.

(** Bytes of data, some or all of those left of a chunk. *)
Definition after_data (d : lh_http_chunked_decoder_t) (amount : Z) : lh_http_chunked_decoder_t :=
  let d := lh_http_chunked_decoder_set_decoded d (u64 (lh_http_chunked_decoder_get_decoded d + amount)) in
  let d := lh_http_chunked_decoder_set_remaining d (u64 (lh_http_chunked_decoder_get_remaining d - amount)) in
  if lh_http_chunked_decoder_get_remaining d =? 0 then lh_http_chunked_decoder_set_phase d lh_http_chunked_decoder_phase_data_cr else d.
Lemma data_step d bs : dec_ok d -> in_data d -> 0 < len bs <= dec_remaining d ->
  dec_ok (after_data d (len bs)) /\ dec_metadata (after_data d (len bs)) = dec_metadata d /\
  dec_metadata_limit (after_data d (len bs)) = dec_metadata_limit d /\
  forall w c, accepts d (bs ++ w) c <-> exists c', c = bs ++ c' /\ accepts (after_data d (len bs)) w c'.
Proof.
  intros Hok Hph Hb. destruct Hok. unfold in_data in *. specialize (ok_remaining0 Hph). rewrite Hph in ok_cleared0.
  assert (after_data d (len bs) = mk_decoder (dec_line d) (dec_line_capacity d) (dec_line_size d) (dec_remaining d - len bs)
    (dec_decoded d + len bs) (dec_decoded_limit d) (dec_metadata d) (dec_metadata_limit d)
    (if dec_remaining d - len bs =? 0 then lh_http_chunked_decoder_phase_data_cr else lh_http_chunked_decoder_phase_data)) as ->.
  { unfold after_data. dec_cbn. rewrite !u64_id by zb. destruct (_ =? 0); [done|]. by rewrite Hph. }
  split_and!; [|done|done|].
  - constructor; unfold in_data, current; dec_cbn; try done; try lia; [by rewrite ok_cleared0|].
    destruct (Z.eqb_spec (dec_remaining d - len bs) 0); [done|lia].
  - intros w c. unfold accepts, accepts_phase, current. dec_cbn. rewrite Hph.
    assert (forall data wire, bs ++ w = data ++ wire -> len data = dec_remaining d -> exists data', data = bs ++ data' /\ w = data' ++ wire) as Hsplit.
    { intros data wire E Hd. exists (drop (length bs) data). pose proof (f_equal (drop (length bs)) E) as E1.
      pose proof (f_equal (take (length bs)) E) as E2. rewrite drop_app_length, drop_app_le in E1 by lia.
      rewrite take_app_length, take_app_le in E2 by lia. split; [|done]. rewrite E2 at 1. by rewrite take_drop. }
    split.
    + intros (Hm & Hd & data & wire & c' & E & -> & Hr & Hw). destruct (Hsplit _ _ E Hr) as (data' & -> & ->).
      exists (data' ++ c'). lens. split_and!; [by rewrite <-app_assoc|lia|lia|].
      destruct (Z.eqb_spec (dec_remaining d - len bs) 0) as [H0|H0].
      * destruct data'; [|cbn [length] in *; lia]. cbn [app] in *. eauto.
      * exists data', wire, c'. split_and!; try done. lia.
    + intros (c' & -> & Hm & Hd & H). lens. split_and!; [lia|lia|].
      destruct (Z.eqb_spec (dec_remaining d - len bs) 0) as [H0|H0].
      * destruct H as (wire & -> & Hw). exists bs, wire, c'. split_and!; try done. lia.
      * destruct H as (data' & wire & c'' & -> & -> & Hr & Hw). exists (bs ++ data'), wire, c''. rewrite <-!app_assoc. lens. split_and!; try done. lia.
Qed.

(** ** A piece of input *)

(** From [d], the bytes [bs] of [t] were taken, [e] was decoded from them, and there was a
    reason to stop. *)
Record fed (d : lh_http_chunked_decoder_t) (t bs e : list Z) (d' : lh_http_chunked_decoder_t) (room : Z) : Prop := {
  fed_ok : dec_ok d';
  fed_metadata : dec_metadata d' = dec_metadata d + (len bs - len e);
  fed_limit : dec_metadata_limit d' = dec_metadata_limit d;
  fed_room : len e <= room;
  fed_accepts w c : accepts d (bs ++ w) c <-> exists c', c = e ++ c' /\ accepts d' w c';
  fed_stop : exists rest, t = bs ++ rest /\ (rest = [] \/ dec_phase d' = lh_http_chunked_decoder_phase_done \/
    dec_phase d' = lh_http_chunked_decoder_phase_error \/ (in_data d' /\ len e = room))
}.
Lemma fed_nothing d t room : dec_ok d -> 0 <= room -> (t = [] \/ dec_phase d = lh_http_chunked_decoder_phase_done \/
    dec_phase d = lh_http_chunked_decoder_phase_error \/ (in_data d /\ 0 = room)) -> fed d t [] [] d room.
Proof.
  intros Hok Hr Hs. constructor; cbn [length]; try done; try lia; [|by exists t].
  intros w c. cbn [app]. split; [eauto|by intros (c' & -> & H)].
Qed.
Lemma fed_trans d t b1 e1 d1 b2 e2 d2 room t' : t = b1 ++ t' ->
  dec_metadata d1 = dec_metadata d + (len b1 - len e1) -> dec_metadata_limit d1 = dec_metadata_limit d ->
  (forall w c, accepts d (b1 ++ w) c <-> exists c', c = e1 ++ c' /\ accepts d1 w c') ->
  fed d1 t' b2 e2 d2 (room - len e1) -> fed d t (b1 ++ b2) (e1 ++ e2) d2 room.
Proof.
  intros -> Hm Hl Ha [Hok Hm2 Hl2 Hr Ha2 (rest & -> & Hstop)]. constructor; lens; try done; try lia.
  - intros w c. rewrite <-app_assoc, Ha. split.
    + intros (c' & -> & H). apply Ha2 in H as (c'' & -> & H). exists c''. by rewrite <-app_assoc.
    + intros (c' & -> & H). rewrite <-app_assoc. eexists. split; [done|]. apply Ha2. eauto.
  - exists rest. rewrite <-app_assoc. split; [done|]. destruct Hstop as [?|[?|[?|[? ?]]]]; [auto..|].
    right. right. right. split; [done|lia].
Qed.
Section Feed.
Context (out0 : buffer) (cap : Z) (Hcap : 0 <= cap <= len out0) (Hcap64 : is_u64 cap).
Lemma feed_data_round fuel d pre t p amount : dec_ok d -> in_data d -> fits (pre ++ t) -> t <> [] -> len p <= cap ->
  amount = Z.min (dec_remaining d) (Z.min (len t) (cap - len p)) ->
  feed_loop (S fuel) d (pre ++ t) (len (pre ++ t)) (filled p out0) cap (len pre) (len p)
  = if amount =? 0 then Done (d, filled p out0, len pre, len p) else
    feed_loop fuel (after_data d amount) (pre ++ t) (len (pre ++ t))
      (filled (p ++ take (Z.to_nat amount) t) out0) cap (len pre + amount) (len p + amount).
Proof using Hcap Hcap64.
  intros Hok Hph Hf Hne Hp Hamount. unfold fits in Hf. cbn [feed_loop].
  rewrite (proj2 (Z.ltb_lt _ _)) by (lens; destruct t; [done|cbn [length]; lia]).
  change (lh_http_chunked_decoder_get_phase d) with (dec_phase d). rewrite Hph.
  change (lh_http_chunked_decoder_get_remaining d) with (dec_remaining d).
  replace (len (pre ++ t) - len pre) with (len t) by (lens; lia). rewrite (u64_id (cap - len p)) by zb.
  rewrite <-Hamount. destruct (Z.eqb_spec amount 0); [done|]. rewrite Nat2Z.id, drop_app_length.
  assert (0 < amount) by (destruct Hok; specialize (ok_remaining0 Hph); lia).
  rewrite copy_filled, bind_done by lia. rewrite length_app in Hf.
  rewrite (u64_id (len pre + amount)), (u64_id (len p + amount)) by zb. done.
Qed.
Lemma feed_framing_round fuel d pre ch t p : dec_ok d -> in_framing d -> is_u8 ch -> fits (pre ++ ch :: t) ->
  exists d', (counted d /\ step_ok d ch d' /\
    feed_loop (S fuel) d (pre ++ ch :: t) (len (pre ++ ch :: t)) (filled p out0) cap (len pre) (len p)
    = feed_loop fuel d' (pre ++ ch :: t) (len (pre ++ ch :: t)) (filled p out0) cap (len pre + 1) (len p)) \/
  (~ counted d /\ d' = lh_http_chunked_decoder_set_phase d lh_http_chunked_decoder_phase_error /\
    feed_loop (S fuel) d (pre ++ ch :: t) (len (pre ++ ch :: t)) (filled p out0) cap (len pre) (len p)
    = Done (d', filled p out0, len pre, len p)).
Proof using.
  intros Hok Hfr Hch Hf. unfold fits in Hf. rewrite length_app in Hf. cbn [length] in Hf.
  assert (feed_loop (S fuel) d (pre ++ ch :: t) (len (pre ++ ch :: t)) (filled p out0) cap (len pre) (len p)
    = if dec_metadata d >=? dec_metadata_limit d then
        Done (lh_http_chunked_decoder_set_phase d lh_http_chunked_decoder_phase_error, filled p out0, len pre, len p) else
      c ← load (pre ++ ch :: t) (len pre);
      d' ← feed_char (count_metadata d) (dec_phase d) c;
      feed_loop fuel d' (pre ++ ch :: t) (len (pre ++ ch :: t)) (filled p out0) cap (u64 (len pre + 1)) (len p)) as ->.
  { cbn [feed_loop]. rewrite (proj2 (Z.ltb_lt _ _)) by (lens; lia). change (lh_http_chunked_decoder_get_phase d) with (dec_phase d).
    destruct Hfr as (? & ? & ?). by destruct (dec_phase d). }
  rewrite Z.geb_leb. destruct (Z.leb_spec (dec_metadata_limit d) (dec_metadata d)) as [Hle|Hlt].
  - eexists. right. split; [unfold counted; lia|done].
  - destruct (framing_step d ch Hok Hlt Hfr Hch) as (d' & E & Hs). exists d'. left. split; [done|]. split; [done|].
    rewrite (load_ok _ _ ch) by (rewrite lookup_app_r, Nat.sub_diag by lia; done). rewrite bind_done, E, bind_done.
    by rewrite u64_id by zb.
Qed.
Lemma feed_loop_spec : forall fuel d pre t p, (length t < fuel)%nat -> dec_ok d -> is_bytes t -> fits (pre ++ t) -> len p <= cap ->
  exists d' bs e, fed d t bs e d' (cap - len p) /\
    feed_loop fuel d (pre ++ t) (len (pre ++ t)) (filled p out0) cap (len pre) (len p)
    = Done (d', filled (p ++ e) out0, len pre + len bs, len p + len e).
Proof using Hcap Hcap64.
  assert (forall d t p, dec_ok d -> len p <= cap -> (t = [] \/ dec_phase d = lh_http_chunked_decoder_phase_done \/
    dec_phase d = lh_http_chunked_decoder_phase_error \/ (in_data d /\ 0 = cap - len p)) ->
    forall pre fuel, feed_loop (S fuel) d (pre ++ t) (len (pre ++ t)) (filled p out0) cap (len pre) (len p) = Done (d, filled p out0, len pre, len p) ->
    exists d' bs e, fed d t bs e d' (cap - len p) /\ feed_loop (S fuel) d (pre ++ t) (len (pre ++ t)) (filled p out0) cap (len pre) (len p)
    = Done (d', filled (p ++ e) out0, len pre + len bs, len p + len e)) as Hstop.
  { intros d t p Hok Hp Hs pre fuel ->. exists d, [], []. split; [apply fed_nothing; [done|lia|done]|]. cbn [length]. by rewrite app_nil_r, !Z.add_0_r. }
  induction fuel as [|fuel IH]; intros d pre t p Hfuel Hok Hb Hf Hp; [lia|].
  destruct (decide (t = [])) as [->|Hne].
  { apply Hstop; auto. cbn [feed_loop]. by rewrite app_nil_r, Z.ltb_irrefl. }
  destruct (decide (in_data d)) as [Hph|Hph].
  { rewrite (feed_data_round fuel d pre t p _ Hok Hph Hf Hne Hp eq_refl).
    set (amount := Z.min (dec_remaining d) (Z.min (len t) (cap - len p))).
    assert (0 < dec_remaining d) by (destruct Hok; specialize (ok_remaining0 Hph); lia).
    assert (0 < len t) by (destruct t; [done|cbn [length]; lia]). destruct (Z.eqb_spec amount 0) as [Ha0|Ha0].
    { specialize (Hstop d t p Hok Hp ltac:(right; right; right; split; [done|lia]) pre fuel).
      rewrite (feed_data_round fuel d pre t p amount Hok Hph Hf Hne Hp eq_refl) in Hstop. rewrite Ha0 in Hstop. by apply Hstop. }
    set (bs := take (Z.to_nat amount) t). assert (len bs = amount) as Hbs by (unfold bs; rewrite length_take; lia).
    pose proof (take_drop (Z.to_nat amount) t) as Et. fold bs in Et. set (t' := drop (Z.to_nat amount) t) in *.
    destruct (data_step d bs Hok Hph) as (Hok' & Hm & Hl & Ha); [lia|].
    destruct (IH (after_data d (len bs)) (pre ++ bs) t' (p ++ bs)) as (d' & bs' & e & Hfed & E).
    { rewrite <-Et in Hfuel. lens. lia. } { done. } { rewrite <-Et in Hb. by apply Forall_app in Hb as [_ Hb]. }
    { by rewrite <-app_assoc, Et. } { lens. lia. }
    exists d', (bs ++ bs'), (bs ++ e). split.
    - apply (fed_trans d t bs bs (after_data d (len bs)) bs' e d' _ t'); [done|rewrite Hm; lia|done|done|]. replace (cap - len p - len bs) with (cap - len (p ++ bs)) by (lens; lia). done.
    - rewrite <-app_assoc, Et in E. rewrite <-Hbs. replace (len pre + len bs) with (len (pre ++ bs)) by (lens; lia).
      replace (len p + len bs) with (len (p ++ bs)) by (lens; lia). rewrite E, <-app_assoc.
      replace (len (pre ++ bs) + len bs') with (len pre + len (bs ++ bs')) by (lens; lia).
      by replace (len (p ++ bs) + len e) with (len p + len (bs ++ e)) by (lens; lia). }
  destruct (decide (in_framing d)) as [Hfr|Hfr].
  2:{ assert (dec_phase d = lh_http_chunked_decoder_phase_done \/ dec_phase d = lh_http_chunked_decoder_phase_error) as Hend.
      { unfold in_framing, in_data in *. destruct (dec_phase d); naive_solver. }
      apply Hstop; [done|done|tauto|]. cbn [feed_loop]. change (lh_http_chunked_decoder_get_phase d) with (dec_phase d).
      destruct (len pre <? len (pre ++ t)); [|done]. by destruct Hend as [-> | ->]. }
  destruct t as [|ch t]; [done|]. inversion Hb as [|x l Hch Hb']; subst.
  destruct (feed_framing_round fuel d pre ch t p Hok Hfr Hch Hf) as (d1 & [(Hc & [Hok1 Hm1 Hl1 Ha1] & ->)|(Hc & -> & ->)]).
  - destruct (IH d1 (pre ++ [ch]) t p) as (d' & bs & e & Hfed & E); [cbn [length] in Hfuel; lia|done|done|by rewrite <-app_assoc|done|].
    exists d', (ch :: bs), e. split.
    + apply (fed_trans d _ [ch] [] d1 bs e d' _ t); [done|cbn [length]; lia|done| |].
      * intros w c. cbn [app]. rewrite Ha1. split; [eauto|by intros (c' & -> & H)].
      * cbn [length]. by rewrite Z.sub_0_r.
    + rewrite <-app_assoc in E. cbn [app] in E. replace (len pre + 1) with (len (pre ++ [ch])) by (lens; lia). rewrite E.
      by replace (len (pre ++ [ch]) + len bs) with (len pre + len (ch :: bs)) by (lens; lia).
  - exists (lh_http_chunked_decoder_set_phase d lh_http_chunked_decoder_phase_error), [], []. split; [|cbn [length]; by rewrite app_nil_r, !Z.add_0_r].
    destruct Hok. constructor; dec_cbn; cbn [length]; try lia; [constructor; unfold in_data; dec_cbn; done| |].
    + intros w c. cbn [app]. split; [by intros H; apply no_room in H|]. by intros (c' & _ & _ & _ & []).
    + exists (ch :: t). split; [done|auto].
Qed.
End Feed.

Definition status_of (d : lh_http_chunked_decoder_t) : Z :=
  match dec_phase d with
  | lh_http_chunked_decoder_phase_done => lh_http_parse_complete
  | lh_http_chunked_decoder_phase_error => lh_http_parse_error
  | _ => lh_http_parse_incomplete
  end.
Lemma feed_spec d input output cap : dec_ok d -> is_bytes input -> fits input -> 0 <= cap <= len output -> is_u64 cap ->
  exists d' bs e, fed d input bs e d' cap /\
    lh_http_chunked_decoder_feed d input output cap = Done (d', filled e output, len bs, len e, status_of d').
Proof.
  intros Hok Hb Hf Hc Hc64. 
  destruct (feed_loop_spec output cap Hc Hc64 (S (length input)) d [] input [] ltac:(lia) Hok Hb Hf ltac:(cbn [length]; lia))
    as (d' & bs & e & Hfed & E). exists d', bs, e. cbn [length app] in E, Hfed. change (Z.of_nat 0) with 0 in E, Hfed.
  rewrite Z.sub_0_r in Hfed. split; [done|]. unfold lh_http_chunked_decoder_feed, lh_str_view_get_data, lh_str_view_get_size.
  rewrite filled_nil, !Z.add_0_l in E. by rewrite E.
Qed.

(** ** A body in pieces *)

(** A chunked body within limits: of a line, of the content and of the rest. *)
Definition within (cap decoded_limit metadata_limit : Z) (wire content : list Z) : Prop :=
  chunked cap wire content /\ len content <= decoded_limit /\ len wire - len content <= metadata_limit.
(** Pieces fed to a decoder: what it took of them, what it gave, and its state. *)
Inductive session (d0 : lh_http_chunked_decoder_t) : list Z -> list Z -> lh_http_chunked_decoder_t -> Prop :=
  | session_start : session d0 [] [] d0
  | session_feed taken given d input output cap d' output' consumed written status :
      session d0 taken given d -> is_bytes input -> fits input -> 0 <= cap <= len output -> is_u64 cap ->
      lh_http_chunked_decoder_feed d input output cap = Done (d', output', consumed, written, status) ->
      session d0 (taken ++ take (Z.to_nat consumed) input) (given ++ take (Z.to_nat written) output') d'.
Lemma fed_take d t bs e d' room out : fed d t bs e d' room -> take (Z.to_nat (len bs)) t = bs /\ take (Z.to_nat (len e)) (filled e out) = e.
Proof. intros [_ _ _ _ _ (rest & -> & _)]. by rewrite !Nat2Z.id, take_app_length, take_filled. Qed.
Lemma session_accepts d0 taken given d : dec_ok d0 -> session d0 taken given d -> dec_ok d /\
  forall w c, accepts d0 (taken ++ w) c <-> exists c', c = given ++ c' /\ accepts d w c'.
Proof.
  intros Hok. induction 1 as [|taken given d input output cap d' output' n m st _ [Hd IH] Hb Hf Hc Hc64 E].
  { split; [done|]. intros w c. cbn [app]. split; [eauto|by intros (c' & -> & H)]. }
  destruct (feed_spec d input output cap Hd Hb Hf Hc Hc64) as (d1 & bs & e & Hfed & E'). rewrite E' in E. injection E as -> <- <- <- <-.
  destruct (fed_take _ _ _ _ _ _ output Hfed) as [-> ->]. destruct Hfed as [Hok' _ _ _ Ha _]. split; [done|].
  intros w c. rewrite <-app_assoc, IH. split.
  - intros (c' & -> & H). apply Ha in H as (c'' & -> & H). exists c''. by rewrite <-app_assoc.
  - intros (c' & -> & H). rewrite <-app_assoc. eexists. split; [done|]. apply Ha. eauto.
Qed.
Lemma accepts_nothing d : dec_ok d -> (dec_phase d = lh_http_chunked_decoder_phase_done <-> accepts d [] []).
Proof.
  intros Hok. split.
  - intros E. unfold accepts, accepts_phase. rewrite E. cbn [length]. destruct Hok. split_and!; try done; lia.
  - intros (_ & _ & H). destruct (decide (in_framing d)) as [Hf|Hf].
    + apply framing_left in H; [|done|done]. by cbn [length] in H.
    + unfold in_framing, accepts_phase in *. destruct (dec_phase d); try done; try (exfalso; apply Hf; split_and!; discriminate).
      destruct H as (data & wire & c & E & _). by destruct data.
Qed.
Section Session.
Context (d0 : lh_http_chunked_decoder_t) (line : buffer) (line_capacity decoded_limit metadata_limit : Z).
Context (Hcap : 0 <= line_capacity <= len line) (Hsmall : line_capacity < LH_USIZE_T_MAX).
Context (Hdl : is_u64 decoded_limit) (Hml : is_u64 metadata_limit).
Notation start := (lh_http_chunked_decoder_init d0 line line_capacity decoded_limit metadata_limit).
Lemma start_state : start = mk_decoder line line_capacity 0 0 0 decoded_limit 0 metadata_limit lh_http_chunked_decoder_phase_size.
Proof using. reflexivity. Qed.
Lemma start_ok : dec_ok start.
Proof using Hcap Hsmall Hdl Hml.
  rewrite start_state. constructor; unfold in_data, current; cbn [dec_line dec_line_capacity dec_line_size dec_remaining
    dec_decoded dec_decoded_limit dec_metadata dec_metadata_limit dec_phase].
  - lia.
  - lia.
  - exact Hsmall.
  - apply Forall_nil_2.
  - apply plain_nil.
  - unfold is_u64 in Hml. lia.
  - exact Hml.
  - unfold is_u64 in Hdl. lia.
  - exact Hdl.
  - intros _. reflexivity.
  - intros [=].
Qed.
Lemma start_accepts w c : accepts start w c <-> within line_capacity decoded_limit metadata_limit w c.
Proof using.
  rewrite start_state. unfold accepts, within, accepts_phase, current. cbn [dec_line dec_line_capacity dec_line_size
    dec_decoded dec_decoded_limit dec_metadata dec_metadata_limit dec_phase Z.to_nat take app].
  rewrite !Z.add_0_l. split; intros (? & ? & ?); by split_and!.
Qed.
(** Claim C15: the decoder by pieces recognises the grammar.  However a body is cut into pieces
    and however much room each call is given, the decoder is done exactly when what it took
    is a chunked body within its limits, and then it gave the content; what it gave before is
    always a prefix of the content; it is in error only if no continuation is a body within
    the limits.  Every call returns: it takes the whole piece unless it is done, in error or
    out of room, stores what it decoded at the start of the output, leaves the rest of the
    output as it was, and reports the state it is in. *)
Theorem decoder_is_standard taken given d input output cap : session start taken given d ->
  is_bytes input -> fits input -> 0 <= cap <= len output -> is_u64 cap ->
  let body := within line_capacity decoded_limit metadata_limit in
  (dec_phase d = lh_http_chunked_decoder_phase_done <-> body taken given) /\
  (forall rest content, body (taken ++ rest) content -> exists more, content = given ++ more) /\
  (dec_phase d = lh_http_chunked_decoder_phase_error -> forall rest content, ~ body (taken ++ rest) content) /\
  exists d' bs e, lh_http_chunked_decoder_feed d input output cap = Done (d', filled e output, len bs, len e, status_of d') /\
    len e <= cap /\ exists rest, input = bs ++ rest /\
    (rest = [] \/ status_of d' <> lh_http_parse_incomplete \/ len e = cap).
Proof using Hcap Hsmall Hdl Hml.
  intros Hs Hb Hf Hc Hc64 body. destruct (session_accepts _ _ _ _ start_ok Hs) as [Hok Ha].
  assert (forall w c, body (taken ++ w) c <-> exists c', c = given ++ c' /\ accepts d w c') as Hbody
    by (intros; rewrite <-Ha; symmetry; apply start_accepts).
  split_and!.
  - rewrite accepts_nothing by done. specialize (Hbody [] given). rewrite app_nil_r in Hbody. rewrite Hbody. split.
    + intros H. exists []. by rewrite app_nil_r.
    + intros (c' & E & H). apply (f_equal length) in E. lens. by destruct c'; [|cbn [length] in E; lia].
  - intros rest content (c' & -> & _)%Hbody. eauto.
  - intros E rest content (c' & _ & _ & _ & H)%Hbody. unfold accepts_phase in H. by rewrite E in H.
  - destruct (feed_spec d input output cap Hok Hb Hf Hc Hc64) as (d' & bs & e & [_ _ _ Hr _ (rest & -> & Hstop)] & E).
    exists d', bs, e. split; [done|]. split; [done|]. exists rest. split; [done|]. unfold status_of.
    destruct Hstop as [?|[-> |[-> |[_ ?]]]]; auto.
Qed.
End Session.
Definition wiki_start : lh_http_chunked_decoder_t :=
  lh_http_chunked_decoder_init (mk_decoder [] 0 0 0 0 0 0 0 lh_http_chunked_decoder_phase_error) (local 8) 8 100 100.
Lemma wiki_part n k : is_bytes (take n (drop k wiki)) /\ fits (take n (drop k wiki)).
Proof.
  destruct wiki_ok as [Hb Hf]. split; [by apply Forall_take, Forall_drop|].
  unfold fits in *. rewrite length_take, length_drop. lia.
Qed.
Lemma wiki_feed taken given d n k d' output' consumed written status : session wiki_start taken given d ->
  lh_http_chunked_decoder_feed d (take n (drop k wiki)) (local 3) 3 = Done (d', output', consumed, written, status) ->
  session wiki_start (taken ++ take (Z.to_nat consumed) (take n (drop k wiki))) (given ++ take (Z.to_nat written) output') d'.
Proof. intros Hs E. apply (session_feed _ taken given d _ (local 3) 3 d' output' consumed written status); [done|apply wiki_part|apply wiki_part|split; vm_compute; discriminate|unfold is_u64; lia|done]. Qed.
(** The body in two pieces, the first cut within the data, with room for three bytes each. *)
Lemma wiki_session : exists taken given d, session wiki_start taken given d /\
  taken = take 23 wiki /\ given = [87; 105; 107; 105] /\ dec_phase d = lh_http_chunked_decoder_phase_done.
Proof.
  do 3 eexists. split.
  - eapply (wiki_feed _ _ _ 14 10); [eapply (wiki_feed _ _ _ 11 0); [apply session_start|vm_compute; reflexivity]|vm_compute; reflexivity].
  - vm_compute. done.
Qed.
Lemma decoder_is_standard_witness : within 8 100 100 (take 23 wiki) [87; 105; 107; 105].
Proof.
  destruct wiki_session as (taken & given & d & Hs & <- & <- & Hd).
  destruct (decoder_is_standard (mk_decoder [] 0 0 0 0 0 0 0 lh_http_chunked_decoder_phase_error) (local 8) 8 100 100
    ltac:(split; vm_compute; discriminate) ltac:(vm_compute; reflexivity) ltac:(unfold is_u64; lia) ltac:(unfold is_u64; lia)
    taken given d [] [] 0 Hs ltac:(apply Forall_nil_2) ltac:(vm_compute; reflexivity) ltac:(split; vm_compute; discriminate)
    ltac:(unfold is_u64; lia)) as [H _].
  by apply H.
Defined.

(** ** The two decoders *)

Lemma chunked_weaken cap cap' wire content : cap <= cap' -> chunked cap wire content -> chunked cap' wire content.
Proof.
  intros Hle. assert (forall t, trailers cap t -> trailers cap' t) as Ht by (induction 1; constructor; done || lia).
  induction 1; econstructor; eauto; lia.
Qed.
(** The two decoders agree.  When a decoder, with whatever limits, has taken a body in
    pieces, decoding a buffer that holds the body and whatever came after it consumes as
    many bytes and leaves at its start the bytes the decoder gave. *)
Theorem pieces_agree_with_buffer d0 line line_capacity decoded_limit metadata_limit taken given d rest :
  0 <= line_capacity <= len line -> line_capacity < LH_USIZE_T_MAX -> is_u64 decoded_limit -> is_u64 metadata_limit ->
  session (lh_http_chunked_decoder_init d0 line line_capacity decoded_limit metadata_limit) taken given d ->
  dec_phase d = lh_http_chunked_decoder_phase_done -> is_bytes (taken ++ rest) -> fits (taken ++ rest) ->
  lh_http_chunked_decode (taken ++ rest) (len (taken ++ rest))
  = Done (given ++ drop (length given) (taken ++ rest), lh_http_parse_complete, Some (len taken, len given)).
Proof.
  intros Hcap Hsmall Hdl Hml Hs Hd Hb Hf.
  destruct (session_accepts _ _ _ _ (start_ok d0 line line_capacity decoded_limit metadata_limit Hcap Hsmall Hdl Hml) Hs) as [Hok Ha].
  apply (accepts_nothing d Hok) in Hd. specialize (Ha [] given). rewrite app_nil_r, start_accepts in Ha.
  assert (within line_capacity decoded_limit metadata_limit taken given) as [Hc _].
  { apply Ha. exists []. by rewrite app_nil_r. }
  apply (chunked_weaken _ LH_USIZE_T_MAX) in Hc; [|lia].
  assert (has_body (taken ++ rest) taken given) as Hbody by (split; eauto).
  destruct (chunked_decode_spec (taken ++ rest) (len (taken ++ rest))) as [(wire & content & Hw & ->)|[(_ & Hno & _)|(_ & Hno & _)]]; rewrite ?Nat2Z.id, ?firstn_all in *;
    [lia|done|done|..|exfalso; by eapply Hno|exfalso; eapply (Hno []); by rewrite app_nil_r].
  by destruct (has_body_unique _ _ _ _ _ Hf Hbody Hw) as [-> ->].
Qed.
Lemma pieces_agree_with_buffer_witness :
  lh_http_chunked_decode wiki 24 = Done ([87; 105; 107; 105] ++ drop 4 wiki, lh_http_parse_complete, Some (23, 4)).
Proof.
  destruct wiki_session as (taken & given & d & Hs & Ht & Hg & Hd).
  pose proof (pieces_agree_with_buffer (mk_decoder [] 0 0 0 0 0 0 0 lh_http_chunked_decoder_phase_error) (local 8) 8 100 100
    taken given d [33] ltac:(split; vm_compute; discriminate) ltac:(vm_compute; reflexivity)
    ltac:(unfold is_u64; lia) ltac:(unfold is_u64; lia) Hs Hd) as H.
  subst taken given. apply H; [apply (proj1 wiki_ok)|apply (proj2 wiki_ok)].
Defined.
