(* ===== verification/Body.v ===== *)
(** * The reader of a message body

    [http/body/reader.c]: a body of a known length or a chunked one, taken from a source by
    way of the wire buffer, which holds what was read beyond the head at first.  The source
    is a reader of [Io], whose callback acts on the world [W]; the decoder and the wire
    buffer, which the caller owns and lends, are fields of the record.  Theorems in
    [BodyProofs]. *)
From S2P Require Import Prelude Buffer Bytes Io View Http Chunked.

Definition LH_SSIZE_T_MAX : Z := 9223372036854775807.

Record lh_http_body_reader_t := mk_body_reader {
  body_source : lh_io_reader_t; body_decoder : option lh_http_chunked_decoder_t; body_wire : buffer;
  body_wire_capacity : Z; body_wire_size : Z; body_wire_pos : Z; body_remaining : Z; body_failed : bool
}.
Definition lh_http_body_reader_get_source := body_source.
Definition lh_http_body_reader_set_source (b : lh_http_body_reader_t) v := mk_body_reader v (body_decoder b) (body_wire b)
  (body_wire_capacity b) (body_wire_size b) (body_wire_pos b) (body_remaining b) (body_failed b).
Definition lh_http_body_reader_get_decoder := body_decoder.
Definition lh_http_body_reader_set_decoder (b : lh_http_body_reader_t) v := mk_body_reader (body_source b) v (body_wire b)
  (body_wire_capacity b) (body_wire_size b) (body_wire_pos b) (body_remaining b) (body_failed b).
Definition lh_http_body_reader_get_wire := body_wire.
Definition lh_http_body_reader_set_wire (b : lh_http_body_reader_t) v := mk_body_reader (body_source b) (body_decoder b) v
  (body_wire_capacity b) (body_wire_size b) (body_wire_pos b) (body_remaining b) (body_failed b).
Definition lh_http_body_reader_get_wire_capacity := body_wire_capacity.
Definition lh_http_body_reader_set_wire_capacity (b : lh_http_body_reader_t) v := mk_body_reader (body_source b) (body_decoder b)
  (body_wire b) v (body_wire_size b) (body_wire_pos b) (body_remaining b) (body_failed b).
Definition lh_http_body_reader_get_wire_size := body_wire_size.
Definition lh_http_body_reader_set_wire_size (b : lh_http_body_reader_t) v := mk_body_reader (body_source b) (body_decoder b)
  (body_wire b) (body_wire_capacity b) v (body_wire_pos b) (body_remaining b) (body_failed b).
Definition lh_http_body_reader_get_wire_pos := body_wire_pos.
Definition lh_http_body_reader_set_wire_pos (b : lh_http_body_reader_t) v := mk_body_reader (body_source b) (body_decoder b)
  (body_wire b) (body_wire_capacity b) (body_wire_size b) v (body_remaining b) (body_failed b).
Definition lh_http_body_reader_get_remaining := body_remaining.
Definition lh_http_body_reader_set_remaining (b : lh_http_body_reader_t) v := mk_body_reader (body_source b) (body_decoder b)
  (body_wire b) (body_wire_capacity b) (body_wire_size b) (body_wire_pos b) v (body_failed b).
Definition lh_http_body_reader_get_failed := body_failed.
Definition lh_http_body_reader_set_failed (b : lh_http_body_reader_t) v := mk_body_reader (body_source b) (body_decoder b)
  (body_wire b) (body_wire_capacity b) (body_wire_size b) (body_wire_pos b) (body_remaining b) v.

Definition lh_http_body_reader_init_length (self : lh_http_body_reader_t) (source : lh_io_reader_t) (wire : buffer)
    (capacity available length : Z) : lh_http_body_reader_t :=
  let self := lh_http_body_reader_set_source self source in
  let self := lh_http_body_reader_set_decoder self None in
  let self := lh_http_body_reader_set_wire self wire in
  let self := lh_http_body_reader_set_wire_capacity self capacity in
  let self := lh_http_body_reader_set_wire_size self available in
  let self := lh_http_body_reader_set_wire_pos self 0 in
  let self := lh_http_body_reader_set_remaining self length in
  lh_http_body_reader_set_failed self false.
Definition lh_http_body_reader_init_chunked (self : lh_http_body_reader_t) (source : lh_io_reader_t) (wire : buffer)
    (capacity available : Z) (decoder : lh_http_chunked_decoder_t) : lh_http_body_reader_t :=
  lh_http_body_reader_set_decoder (lh_http_body_reader_init_length self source wire capacity available 0) (Some decoder).

Section Read.
Context {W : Type} `{Callbacks W}.

(** The reader, the world and the result. *)
Definition lh_http_body_reader_refill (w : W) (self : lh_http_body_reader_t) : outcome (W * lh_http_body_reader_t * Z) :=
  '(w, (n, bytes)) ← lh_io_reader_read w (lh_http_body_reader_get_source self) (lh_http_body_reader_get_wire_capacity self);
  wire ← copy_bytes (lh_http_body_reader_get_wire self) 0 bytes (len bytes);
  let self := lh_http_body_reader_set_wire self wire in
  if n >? 0 then
    let self := lh_http_body_reader_set_wire_pos self 0 in
    mret (w, lh_http_body_reader_set_wire_size self (u64 n), n)
  else mret (w, self, n).

(** The loop of [lh_http_body_reader_read]: each round refills the wire buffer when it is
    used up and takes from it; the world, the reader, [out] and the result. *)
Fixpoint body_loop (fuel : nat) (w : W) (self : lh_http_body_reader_t) (out : buffer) (capacity : Z)
    : outcome (W * lh_http_body_reader_t * buffer * Z) :=
  match fuel with
  | O => Undef
  | S fuel =>
    let finished := match lh_http_body_reader_get_decoder self with
                    | None => lh_http_body_reader_get_remaining self =? 0
                    | Some d => bool_decide (lh_http_chunked_decoder_get_phase d = lh_http_chunked_decoder_phase_done)
                    end in
    if finished then mret (w, self, out, 0) else
    '(w, self, got) ←
      (if lh_http_body_reader_get_wire_pos self =? lh_http_body_reader_get_wire_size self then
         '(w, self, got) ← lh_http_body_reader_refill w self;
         mret (w, self, Some got)
       else mret (w, self, None));
    if bool_decide (got = Some LH_IO_PENDING) then mret (w, self, out, LH_IO_PENDING) else
    if match got with Some got => got <=? 0 | None => false end then
      mret (w, lh_http_body_reader_set_failed self true, out, LH_IO_ERROR)
    else
    let pos := lh_http_body_reader_get_wire_pos self in
    let available := u64 (lh_http_body_reader_get_wire_size self - pos) in
    let wire := drop (Z.to_nat pos) (lh_http_body_reader_get_wire self) in
    match lh_http_body_reader_get_decoder self with
    | None =>
      let n := Z.min capacity (Z.min available (lh_http_body_reader_get_remaining self)) in
      out ← copy_bytes out 0 wire n;
      let self := lh_http_body_reader_set_wire_pos self (u64 (pos + n)) in
      let self := lh_http_body_reader_set_remaining self (u64 (lh_http_body_reader_get_remaining self - n)) in
      mret (w, self, out, n)
    | Some decoder =>
      '(decoder, out, consumed, written, status) ←
        lh_http_chunked_decoder_feed decoder (lh_str_view_init_by_size wire available) out capacity;
      let self := lh_http_body_reader_set_decoder self (Some decoder) in
      let self := lh_http_body_reader_set_wire_pos self (u64 (pos + consumed)) in
      let self := if status =? lh_http_parse_error then lh_http_body_reader_set_failed self true else self in
      if negb (written =? 0) then mret (w, self, out, written) else
      if status =? lh_http_parse_error then mret (w, self, out, LH_IO_ERROR) else
      if status =? lh_http_parse_complete then mret (w, self, out, 0) else
      body_loop fuel w self out capacity
    end
  end.
Definition lh_http_body_reader_read (fuel : nat) (w : W) (self : lh_http_body_reader_t) (out : buffer) (size : Z)
    : outcome (W * lh_http_body_reader_t * buffer * Z) :=
  if size =? 0 then mret (w, self, out, 0) else
  if lh_http_body_reader_get_failed self then mret (w, self, out, LH_IO_ERROR) else
  let capacity := Z.min size LH_SSIZE_T_MAX in
  body_loop fuel w self out capacity.
End Read.

(** The bytes of the wire that the body did not take. *)
Definition lh_http_body_reader_get_unread (self : lh_http_body_reader_t) : lh_str_view_t :=
  let pos := lh_http_body_reader_get_wire_pos self in
  lh_str_view_init_by_size (drop (Z.to_nat pos) (lh_http_body_reader_get_wire self))
    (u64 (lh_http_body_reader_get_wire_size self - pos)).
