(* ===== verification/BodyProofs.v ===== *)
(** * The reader of a message body: correctness

    What is left of the body is a residual, as for the decoder; a read moves bytes from the
    source through the wire buffer, and takes the residual on by the bytes it took and the
    content it gave.  The bound on framing bounds the rounds of a read, whatever the source
    sends. *)
From S2P Require Import Prelude Buffer Bytes Digits DigitsProofs Format StrPtr View ViewProofs Http HttpProofs Chunked ChunkedSpec ChunkedProofs DecoderProofs Io Body.

Ltac body_unfold := unfold lh_http_body_reader_get_source, lh_http_body_reader_set_source, lh_http_body_reader_get_decoder,
  lh_http_body_reader_set_decoder, lh_http_body_reader_get_wire, lh_http_body_reader_set_wire, lh_http_body_reader_get_wire_capacity,
  lh_http_body_reader_set_wire_capacity, lh_http_body_reader_get_wire_size, lh_http_body_reader_set_wire_size,
  lh_http_body_reader_get_wire_pos, lh_http_body_reader_set_wire_pos, lh_http_body_reader_get_remaining,
  lh_http_body_reader_set_remaining, lh_http_body_reader_get_failed, lh_http_body_reader_set_failed in *.
Ltac body_cbn := body_unfold; cbn [body_source body_decoder body_wire body_wire_capacity body_wire_size body_wire_pos
  body_remaining body_failed] in *.

(** What is left of the body: [w] on the wire is [content]. *)
Definition body_accepts (b : lh_http_body_reader_t) (w content : list Z) : Prop :=
  match body_decoder b with
  | None => w = content /\ len w = body_remaining b
  | Some d => accepts d w content
  end.
(** The bytes of the wire buffer that were not taken. *)
Definition unread (b : lh_http_body_reader_t) : list Z :=
  take (Z.to_nat (body_wire_size b - body_wire_pos b)) (drop (Z.to_nat (body_wire_pos b)) (body_wire b)).
Record body_ok (b : lh_http_body_reader_t) : Prop := {
  ok_pos : 0 <= body_wire_pos b <= body_wire_size b;
  ok_size : body_wire_size b <= body_wire_capacity b;
  ok_wire : 0 < body_wire_capacity b <= len (body_wire b);
  ok_wire_small : body_wire_capacity b < LH_USIZE_T_MAX;
  ok_wire_bytes : is_bytes (body_wire b);
  ok_left : is_u64 (body_remaining b);
  ok_decoder d : body_decoder b = Some d -> dec_ok d
}.
(** The rounds a read may need: one more than the framing still allowed. *)
Definition rounds (b : lh_http_body_reader_t) : nat :=
  match body_decoder b with
  | None => 1
  | Some d => S (Z.to_nat (dec_metadata_limit d - dec_metadata d))
  end.
Definition finished (b : lh_http_body_reader_t) : bool :=
  match body_decoder b with
  | None => body_remaining b =? 0
  | Some d => bool_decide (dec_phase d = lh_http_chunked_decoder_phase_done)
  end.
Lemma finished_accepts b : body_ok b -> (finished b = true <-> body_accepts b [] []).
Proof.
  intros []. unfold finished, body_accepts. destruct (body_decoder b) as [d|].
  - rewrite bool_decide_eq_true. apply accepts_nothing. by apply ok_decoder0.
  - rewrite Z.eqb_eq. cbn [length]. split; [intros; split; [done|lia]|intros [_ ?]; lia].
Qed.

Section Source.
Context {W : Type} `{!Callbacks W} (source : lh_io_reader_t).
(** What the source has handed out, and whether it has ended or failed. *)
Context (delivered : W -> list Z) (ended : W -> bool).
(** A read of the source answers how many bytes it stored, no more than it was asked for,
    that there are none yet, or another code that is not positive, which is its end. *)
Definition source_ok : Prop := read_cb source <> 0 /\ forall w size,
  let '(w', (n, bytes)) := call_read (read_cb source) (reader_context source) w size in
  0 < size -> len bytes <= size /\ is_bytes bytes /\ (0 < n -> n = len bytes) /\
    delivered w' = delivered w ++ (if 0 <? n then bytes else []) /\
    ended w' = ended w || ((n <=? 0) && negb (n =? LH_IO_PENDING)).
Context (Hsource : source_ok).

(** *** Refilling *)

Lemma refill_spec w b : body_ok b -> body_source b = source -> unread b = [] ->
  exists w' b' n bytes, lh_http_body_reader_refill w b = Done (w', b', n) /\ body_ok b' /\ body_source b' = source /\
    body_decoder b' = body_decoder b /\ body_remaining b' = body_remaining b /\ body_failed b' = body_failed b /\
    unread b' = (if 0 <? n then bytes else []) /\ (0 < n -> n = len bytes) /\
    delivered w' = delivered w ++ unread b' /\ ended w' = ended w || ((n <=? 0) && negb (n =? LH_IO_PENDING)).
Proof using Hsource.
  intros Hok Hs Hun. pose proof Hsource as [Hcb Hread]. unfold lh_http_body_reader_refill, lh_io_reader_read. body_cbn. rewrite Hs.
  unfold lh_io_reader_get_read_cb, lh_io_reader_get_context. rewrite (proj2 (Z.eqb_neq _ _)) by done. cbn [fail_if]. rewrite bind_done.
  specialize (Hread w (body_wire_capacity b)). destruct (call_read _ _ w _) as [w' [n bytes]]. change (mret ?x) with (Done x). rewrite bind_done.
  destruct Hok. destruct Hread as (Hlen & Hbytes & Hn & Hdel & Hend); [lia|].
  rewrite copy_ok, bind_done by lia. change (take (Z.to_nat 0) (body_wire b)) with (@nil Z). cbn [app]. rewrite Z.add_0_l, !Nat2Z.id, firstn_all.
  set (wire := bytes ++ drop (length bytes) (body_wire b)).
  assert (len wire = len (body_wire b)) as Hw by (unfold wire; lens; rewrite length_drop; lia).
  assert (is_bytes wire) as Hwb by (apply Forall_app; split; [done|by apply Forall_drop]).
  exists w'. rewrite Z.gtb_ltb. destruct (Z.ltb_spec 0 n) as [Hp|Hp].
  - specialize (Hn Hp). rewrite u64_id by zb. eexists _, n, bytes. split; [done|]. body_cbn. split; [constructor; body_cbn; try done; lia|].
    rewrite (proj2 (Z.ltb_lt 0 n)) by done.
    assert (unread (mk_body_reader source (body_decoder b) wire (body_wire_capacity b) n 0 (body_remaining b) (body_failed b)) = bytes) as ->.
    { unfold unread. body_cbn. rewrite Z.sub_0_r. change (drop (Z.to_nat 0) wire) with wire. unfold wire. by rewrite Hn, Nat2Z.id, take_app_length. }
    by split_and!.
  - eexists _, n, bytes. split; [done|]. split; [constructor; body_cbn; try done; lia|].
    rewrite (proj2 (Z.ltb_ge 0 n)) by done.
    assert (unread (mk_body_reader source (body_decoder b) wire (body_wire_capacity b) (body_wire_size b) (body_wire_pos b)
      (body_remaining b) (body_failed b)) = []) as ->.
    { unfold unread in *. body_cbn. apply (f_equal length) in Hun. rewrite length_take, length_drop in Hun. cbn [length] in Hun.
      assert (body_wire_size b - body_wire_pos b = 0) as -> by lia. done. }
    split_and!; try done; body_cbn; done.
Qed.

(** *** Taking from the wire *)

(** [body_loop] from where the wire buffer has bytes. *)
Definition body_take (fuel : nat) (w : W) (self : lh_http_body_reader_t) (out : buffer) (capacity : Z)
    : outcome (W * lh_http_body_reader_t * buffer * Z) :=
  let pos := lh_http_body_reader_get_wire_pos self in
  let available := u64 (lh_http_body_reader_get_wire_size self - pos) in
  let wire := drop (Z.to_nat pos) (lh_http_body_reader_get_wire self) in
  match lh_http_body_reader_get_decoder self with
  | None =>
    let n := Z.min capacity (Z.min available (lh_http_body_reader_get_remaining self)) in
    out ← copy_bytes out 0 wire n;
    let self := lh_http_body_reader_set_wire_pos self (u64 (pos + n)) in
    let self := lh_http_body_reader_set_remaining self (u64 (lh_http_body_reader_get_remaining self - n)) in
    mret (w, self, out, n)
  | Some decoder =>
    '(decoder, out, consumed, written, status) ←
      lh_http_chunked_decoder_feed decoder (lh_str_view_init_by_size wire available) out capacity;
    let self := lh_http_body_reader_set_decoder self (Some decoder) in
    let self := lh_http_body_reader_set_wire_pos self (u64 (pos + consumed)) in
    let self := if status =? lh_http_parse_error then lh_http_body_reader_set_failed self true else self in
    if negb (written =? 0) then mret (w, self, out, written) else
    if status =? lh_http_parse_error then mret (w, self, out, LH_IO_ERROR) else
    if status =? lh_http_parse_complete then mret (w, self, out, 0) else
    body_loop fuel w self out capacity
  end.
Definition dead (b : lh_http_body_reader_t) : Prop := forall w c, ~ body_accepts b w c.
(** From [b] to [b'] bytes were taken from the wire buffer, and [e] was given. *)
Record took (b : lh_http_body_reader_t) (taken e : list Z) (b' : lh_http_body_reader_t) : Prop := {
  took_ok : body_ok b';
  took_source : body_source b' = body_source b;
  took_unread : unread b = taken ++ unread b';
  took_accepts w c : body_accepts b (taken ++ w) c <-> exists c', c = e ++ c' /\ body_accepts b' w c';
  took_failed : body_failed b' = true -> body_failed b = true \/ dead b'
}.
Lemma unread_length b : body_ok b -> len (unread b) = body_wire_size b - body_wire_pos b.
Proof using. intros []. unfold unread. rewrite length_take, length_drop. lia. Qed.
Lemma unread_bytes b : body_ok b -> is_bytes (unread b).
Proof using. intros []. by apply Forall_take, Forall_drop. Qed.
(** The reader when [n] more bytes of the wire buffer are taken. *)
Lemma unread_after b taken rest n : body_ok b -> unread b = taken ++ rest -> n = len taken ->
  take (Z.to_nat (body_wire_size b - (body_wire_pos b + n))) (drop (Z.to_nat (body_wire_pos b + n)) (body_wire b)) = rest.
Proof using.
  intros Hok E ->. pose proof (unread_length b Hok) as Hl. rewrite E in Hl. lens. destruct Hok.
  apply (f_equal (drop (length taken))) in E. rewrite drop_app_length in E. rewrite <-E. unfold unread.
  rewrite skipn_firstn_comm, drop_drop. f_equal; [lia|]. f_equal. lia.
Qed.
Lemma take_length fuel w b out capacity : body_ok b -> body_decoder b = None -> finished b = false -> unread b <> [] ->
  0 < capacity <= len out -> capacity <= LH_SSIZE_T_MAX ->
  exists e b', body_take fuel w b out capacity = Done (w, b', filled e out, len e) /\ 0 < len e <= capacity /\ took b e e b'.
Proof using.
  intros Hok Hd Hfin Hne Hc Hcs. pose proof (unread_length b Hok) as Hl. pose proof Hok as Hok'. destruct Hok.
  unfold finished in Hfin. rewrite Hd in Hfin. apply Z.eqb_neq in Hfin.
  assert (0 < len (unread b)) by (destruct (unread b); [done|cbn [length]; lia]).
  unfold body_take. body_cbn. rewrite Hd. rewrite (u64_id (_ - _)) by zb. set (n := Z.min capacity (Z.min _ (body_remaining b))).
  assert (0 < n /\ n <= capacity /\ n <= len (unread b) /\ n <= body_remaining b) as (Hn0 & Hnc & Hnu & Hnr) by (unfold is_u64 in *; lia).
  clearbody n. set (e := take (Z.to_nat n) (unread b)). assert (len e = n) as He by (unfold e; rewrite length_take; lia).
  pose proof (take_drop (Z.to_nat n) (unread b)) as Eu. fold e in Eu.
  assert (copy_bytes out 0 (drop (Z.to_nat (body_wire_pos b)) (body_wire b)) n = Done (filled e out)) as ->.
  { rewrite copy_ok by (rewrite ?length_drop; lia). unfold filled. rewrite Z.add_0_l. change (take (Z.to_nat 0) out) with (@nil Z). cbn [app].
    do 2 f_equal; [|f_equal; lia]. unfold e, unread. rewrite take_take. f_equal. lia. }
  rewrite bind_done, !u64_id by zb. exists e. eexists. split; [by rewrite He|]. split; [lia|].
  constructor; body_cbn; try done.
  - constructor; body_cbn; try done; try lia. zb.
  - unfold unread at 2. body_cbn. by rewrite (unread_after b e (drop (Z.to_nat n) (unread b)) n Hok' (eq_sym Eu) (eq_sym He)).
  - intros w0 c. unfold body_accepts. body_cbn. rewrite Hd. split.
    + intros [<- Hw]. exists w0. lens. split_and!; [done|done|lia].
    + intros (c' & -> & -> & Hw). split; [done|]. lens. lia.
  - auto.
Qed.
(** The reader after the decoder was fed. *)
Definition after_feed (b : lh_http_body_reader_t) (d' : lh_http_chunked_decoder_t) (consumed : Z) : lh_http_body_reader_t :=
  mk_body_reader (body_source b) (Some d') (body_wire b) (body_wire_capacity b) (body_wire_size b)
    (u64 (body_wire_pos b + consumed)) (body_remaining b)
    (if status_of d' =? lh_http_parse_error then true else body_failed b).
Lemma error_dead b d : body_decoder b = Some d -> dec_phase d = lh_http_chunked_decoder_phase_error -> dead b.
Proof using. intros Hd Hp w c H. unfold body_accepts in H. rewrite Hd in H. destruct H as (_ & _ & H). unfold accepts_phase in H. by rewrite Hp in H. Qed.
Lemma status_error d : status_of d = lh_http_parse_error <-> dec_phase d = lh_http_chunked_decoder_phase_error.
Proof using. unfold status_of. by destruct (dec_phase d). Qed.
Lemma status_complete d : status_of d = lh_http_parse_complete <-> dec_phase d = lh_http_chunked_decoder_phase_done.
Proof using. unfold status_of. by destruct (dec_phase d). Qed.
Lemma after_feed_took b d d' bs e room : body_ok b -> body_decoder b = Some d -> fed d (unread b) bs e d' room ->
  took b bs e (after_feed b d' (len bs)).
Proof using.
  intros Hok Hd [Hokd _ _ _ Ha (rest & E & _)]. pose proof (unread_length b Hok) as Hl. rewrite E in Hl. lens. pose proof Hok as Hok'. destruct Hok.
  assert (u64 (body_wire_pos b + len bs) = body_wire_pos b + len bs) as Hu by (apply u64_id; zb).
  unfold after_feed. constructor; body_cbn; rewrite ?Hu; try done.
  - constructor; body_cbn; rewrite ?Hu; try done; try lia. by intros ? [= <-].
  - unfold unread at 2. body_cbn. by rewrite (unread_after b bs rest (len bs) Hok' E eq_refl).
  - intros w c. unfold body_accepts. body_cbn. rewrite Hd. apply Ha.
  - destruct (Z.eqb_spec (status_of d') lh_http_parse_error) as [He|He]; [|by left]. intros _. right.
    apply status_error in He. by eapply error_dead.
Qed.
Lemma take_chunked fuel w b d out capacity : body_ok b -> body_decoder b = Some d -> unread b <> [] ->
  0 < capacity <= len out -> capacity <= LH_SSIZE_T_MAX ->
  exists taken e b', took b taken e b' /\ len e <= capacity /\
    ((0 < len e /\ body_take fuel w b out capacity = Done (w, b', filled e out, len e)) \/
     (e = [] /\ body_failed b' = true /\ body_take fuel w b out capacity = Done (w, b', out, LH_IO_ERROR)) \/
     (e = [] /\ finished b' = true /\ body_take fuel w b out capacity = Done (w, b', out, 0)) \/
     (e = [] /\ unread b' = [] /\ (rounds b' < rounds b)%nat /\ body_failed b' = body_failed b /\
      body_take fuel w b out capacity = body_loop fuel w b' out capacity)).
Proof using.
  intros Hok Hd Hne Hc Hcs. pose proof (unread_length b Hok) as Hl.
  assert (dec_ok d) as Hokd by by apply Hok.
  assert (fits (unread b)) as Hf by (destruct Hok; unfold fits, LH_USIZE_T_MAX in *; lia).
  destruct (feed_spec d (unread b) out capacity Hokd (unread_bytes b Hok) Hf ltac:(lia) ltac:(unfold is_u64, LH_SSIZE_T_MAX in *; lia))
    as (d' & bs & e & Hfed & E).
  pose proof (after_feed_took b d d' bs e capacity Hok Hd Hfed) as Htook.
  exists bs, e, (after_feed b d' (len bs)). split; [done|]. split; [apply Hfed|].
  assert (body_take fuel w b out capacity =
    let b' := after_feed b d' (len bs) in
    if negb (len e =? 0) then Done (w, b', filled e out, len e) else
    if status_of d' =? lh_http_parse_error then Done (w, b', filled e out, LH_IO_ERROR) else
    if status_of d' =? lh_http_parse_complete then Done (w, b', filled e out, 0) else body_loop fuel w b' (filled e out) capacity) as ->.
  { unfold body_take. body_cbn. rewrite Hd, u64_id by (destruct Hok; zb). unfold lh_str_view_init_by_size. fold (unread b).
    rewrite E, bind_done. unfold after_feed. by destruct (status_of d' =? lh_http_parse_error). }
  cbv zeta. destruct (Z.eqb_spec (len e) 0) as [He|He]; cbn [negb]; [|left; split; [lia|done]]. right.
  assert (e = []) as -> by (destruct e; [done|cbn [length] in He; lia]). rewrite filled_nil.
  destruct (Z.eqb_spec (status_of d') lh_http_parse_error) as [Hs|Hs].
  { left. split_and!; [done| |done]. unfold after_feed. cbn [body_failed]. by rewrite Hs. }
  right. destruct (Z.eqb_spec (status_of d') lh_http_parse_complete) as [Hsc|Hsc].
  { left. split_and!; [done| |done]. unfold finished, after_feed. cbn [body_decoder]. by apply bool_decide_eq_true, status_complete. }
  right. rewrite status_error in Hs. rewrite status_complete in Hsc. destruct Hfed as [Hokd' Hm Hlim _ _ (rest & Eu & Hstop)].
  destruct Hstop as [->|[?|[?|[_ ?]]]]; [|done|done|lia]. rewrite app_nil_r in Eu. rewrite Eu in Hne.
  split_and!; [done| | |unfold after_feed; cbn [body_failed]; by rewrite (proj2 (Z.eqb_neq _ _)) by by rewrite status_error|done].
  - destruct Htook as [_ _ Hu _ _]. apply (f_equal length) in Hu. rewrite Eu in Hu. rewrite length_app in Hu.
    apply nil_length_inv. lia.
  - unfold rounds, after_feed. cbn [body_decoder]. rewrite Hd, Hm, Hlim. assert (0 < len bs) by (destruct bs; [done|cbn [length]; lia]).
    pose proof (ok_metadata d' Hokd') as Hmeta. rewrite Hm, Hlim in Hmeta. cbn [length] in *. lia.
Qed.

(** *** A read *)

(** From [w] and [b] to [w'] and [b'] the bytes [arrived] came in, [taken] were taken and
    [e] was given. *)
Record moved (w : W) (b : lh_http_body_reader_t) (arrived taken e : list Z) (w' : W) (b' : lh_http_body_reader_t) : Prop := {
  moved_ok : body_ok b';
  moved_source : body_source b' = body_source b;
  moved_delivered : delivered w' = delivered w ++ arrived;
  moved_wire : unread b ++ arrived = taken ++ unread b';
  moved_accepts v c : body_accepts b (taken ++ v) c <-> exists c', c = e ++ c' /\ body_accepts b' v c';
  moved_ended : ended w = true -> ended w' = true;
  moved_failed : body_failed b' = true -> body_failed b = true \/ ended w' = true \/ dead b'
}.
Lemma moved_refl w b : body_ok b -> moved w b [] [] [] w b.
Proof using.
  intros Hok. constructor; try done; [by rewrite app_nil_r|by rewrite app_nil_r| |by left].
  intros v c. cbn [app]. split; [eauto|by intros (c' & -> & H)].
Qed.
Lemma moved_trans w b a1 t1 e1 w1 b1 a2 t2 e2 w2 b2 : moved w b a1 t1 e1 w1 b1 -> moved w1 b1 a2 t2 e2 w2 b2 ->
  moved w b (a1 ++ a2) (t1 ++ t2) (e1 ++ e2) w2 b2.
Proof using.
  intros [Ho1 Hs1 Hd1 Hw1 Ha1 He1 Hf1] [Ho2 Hs2 Hd2 Hw2 Ha2 He2 Hf2]. constructor; try done.
  - congruence.
  - by rewrite Hd2, Hd1, <-app_assoc.
  - by rewrite app_assoc, Hw1, <-!app_assoc, Hw2.
  - intros v c. rewrite <-app_assoc, Ha1. split.
    + intros (c' & -> & H). apply Ha2 in H as (c'' & -> & H). exists c''. by rewrite <-app_assoc.
    + intros (c' & -> & H). rewrite <-app_assoc. eexists. split; [done|]. apply Ha2. eauto.
  - auto.
  - intros H. destruct (Hf2 H) as [H1|[?|?]]; [|auto|auto]. destruct (Hf1 H1) as [?|[?|Hdead]]; [auto|auto|].
    right. right. intros v c Hv. apply (Hdead (t2 ++ v) (e2 ++ c)), Ha2. eauto.
Qed.
Lemma moved_take w b taken e b' : took b taken e b' -> moved w b [] taken e w b'.
Proof using.
  intros [Hok Hs Hu Ha Hf]. constructor; try done; [by rewrite app_nil_r|by rewrite app_nil_r|]. intros H. destruct (Hf H); auto.
Qed.
Lemma moved_refill w b w' b' : body_ok b' -> body_source b' = body_source b -> body_decoder b' = body_decoder b ->
  body_remaining b' = body_remaining b -> body_failed b' = body_failed b -> unread b = [] ->
  delivered w' = delivered w ++ unread b' -> (ended w = true -> ended w' = true) -> moved w b (unread b') [] [] w' b'.
Proof using.
  intros Hok Hs Hd Hr Hf Hu Hdel He. constructor; try done; [by rewrite Hu| |rewrite Hf; by left].
  intros v c. cbn [app]. unfold body_accepts. rewrite Hd, Hr. split; [eauto|by intros (c' & -> & H)].
Qed.
(** What a read answers: bytes of the content, or that there are none yet, an error, or the end. *)
Definition answer (b' : lh_http_body_reader_t) (e : list Z) (out out' : buffer) (r capacity : Z) : Prop :=
  (r = len e /\ 0 < r <= capacity /\ out' = filled e out) \/
  (e = [] /\ out' = out /\ (r = LH_IO_PENDING \/ (r = LH_IO_ERROR /\ body_failed b' = true) \/ (r = 0 /\ finished b' = true))).
Lemma take_spec fuel w b out capacity : body_ok b -> finished b = false -> unread b <> [] ->
  0 < capacity <= len out -> capacity <= LH_SSIZE_T_MAX ->
  exists taken e b', took b taken e b' /\
    ((exists out' r, body_take fuel w b out capacity = Done (w, b', out', r) /\ answer b' e out out' r capacity) \/
     (e = [] /\ (rounds b' < rounds b)%nat /\ body_failed b' = body_failed b /\ body_take fuel w b out capacity = body_loop fuel w b' out capacity)).
Proof using.
  intros Hok Hfin Hne Hc Hcs. destruct (body_decoder b) as [d|] eqn:Hd.
  - destruct (take_chunked fuel w b d out capacity Hok Hd Hne Hc Hcs) as (taken & e & b' & Ht & Hle & H).
    exists taken, e, b'. split; [done|]. unfold answer.
    destruct H as [(H0 & ->)|[(-> & Hf & ->)|[(-> & Hf & ->)|(-> & _ & Hr & Hf & ->)]]]; [left..|right; by split_and!];
      do 2 eexists; (split; [reflexivity|]); [left; split_and!; done || lia|right; split_and!; auto..].
  - destruct (take_length fuel w b out capacity Hok Hd Hfin Hne Hc Hcs) as (e & b' & -> & He & Ht).
    exists e, e, b'. split; [done|]. left. do 2 eexists. split; [done|]. left. split_and!; done || lia.
Qed.
Lemma body_loop_spec : forall fuel w b out capacity, body_ok b -> body_source b = source -> (rounds b <= fuel)%nat ->
  0 < capacity <= len out -> capacity <= LH_SSIZE_T_MAX ->
  exists arrived taken e w' b' out' r, body_loop fuel w b out capacity = Done (w', b', out', r) /\
    moved w b arrived taken e w' b' /\ answer b' e out out' r capacity.
Proof using Hsource.
  induction fuel as [|fuel IH]; intros w b out capacity Hok Hs Hr Hc Hcs.
  { exfalso. unfold rounds in Hr. destruct (body_decoder b); lia. }
  assert (body_loop (S fuel) w b out capacity =
    if finished b then Done (w, b, out, 0) else
    '(w, b, got) ← (if body_wire_pos b =? body_wire_size b then
         '(w, b, got) ← lh_http_body_reader_refill w b; mret (w, b, Some got) else mret (w, b, None));
    if bool_decide (got = Some LH_IO_PENDING) then Done (w, b, out, LH_IO_PENDING) else
    if match got with Some got => got <=? 0 | None => false end then
      Done (w, lh_http_body_reader_set_failed b true, out, LH_IO_ERROR)
    else body_take fuel w b out capacity) as ->.
  { done. }
  destruct (finished b) eqn:Hfin.
  { exists [], [], [], w, b, out, 0. split; [done|]. split; [by apply moved_refl|]. right. split_and!; auto. }
  assert (forall w1 b1 a1, moved w b a1 [] [] w1 b1 -> finished b1 = false -> rounds b1 = rounds b -> unread b1 <> [] ->
    exists arrived taken e w' b' out' r, body_take fuel w1 b1 out capacity = Done (w', b', out', r) /\
      moved w b arrived taken e w' b' /\ answer b' e out out' r capacity) as Hgo.
  { intros w1 b1 a1 Hm Hfin1 Hr1 Hne. pose proof (moved_ok _ _ _ _ _ _ _ Hm) as Hok1.
    destruct (take_spec fuel w1 b1 out capacity Hok1 Hfin1 Hne Hc Hcs) as (taken & e & b' & Ht & [(out' & r & -> & Ha)|(-> & Hr' & Hf & ->)]).
    - do 7 eexists. split; [done|]. split; [|done].
      exact (moved_trans _ _ _ _ _ _ _ _ _ _ _ _ Hm (moved_take _ _ _ _ _ Ht)).
    - destruct (IH w1 b' out capacity) as (a2 & t2 & e2 & w' & b'' & out' & r & -> & Hm2 & Ha); try done.
      { apply Ht. } { destruct Ht as [_ -> _ _ _]. by rewrite (moved_source _ _ _ _ _ _ _ Hm). } { lia. }
      do 7 eexists. split; [done|]. split; [|done].
      exact (moved_trans _ _ _ _ _ _ _ _ _ _ _ _ Hm (moved_trans _ _ _ _ _ _ _ _ _ _ _ _ (moved_take w1 _ _ _ _ Ht) Hm2)). }
  pose proof (unread_length b Hok) as Hl. destruct (Z.eqb_spec (body_wire_pos b) (body_wire_size b)) as [Hp|Hp].
  2:{ rewrite bind_done. rewrite bool_decide_false by done. apply (Hgo w b []); [by apply moved_refl|done|done|].
      intros E. rewrite E in Hl. cbn [length] in Hl. lia. }
  assert (unread b = []) as Hu by (apply nil_length_inv; lia).
  destruct (refill_spec w b Hok Hs Hu) as (w1 & b1 & n & bytes & -> & Hok1 & Hs1 & Hd1 & Hr1 & Hf1 & Hu1 & Hn & Hdel & Hend).
  rewrite !bind_done. assert (ended w = true -> ended w1 = true) as Hmono by (intros E; by rewrite Hend, E).
  assert (moved w b (unread b1) [] [] w1 b1) as Hm by (apply moved_refill; done || congruence).
  case_bool_decide as Hpend.
  { do 7 eexists. split; [done|]. split; [done|]. right. split_and!; auto. }
  assert (n <> LH_IO_PENDING) as Hnp by congruence. destruct (Z.leb_spec n 0) as [Hn0|Hn0].
  - exists (unread b1), [], [], w1, (lh_http_body_reader_set_failed b1 true), out, LH_IO_ERROR.
    split; [done|]. split; [|right; split_and!; [done|done|right; left; by split]].
    rewrite (proj2 (Z.eqb_neq _ _) Hnp), orb_true_r in Hend.
    destruct Hm as [Ho Hso Hde Hwi Hac Hen _]. constructor.
    + destruct Ho; by constructor.
    + exact Hso.
    + exact Hde.
    + exact Hwi.
    + exact Hac.
    + exact Hen.
    + intros _. right. left. exact Hend.
  - apply (Hgo w1 b1 (unread b1) Hm).
    + unfold finished. by rewrite Hd1, Hr1.
    + unfold rounds. by rewrite Hd1.
    + rewrite Hu1, (proj2 (Z.ltb_lt _ _)) by done. destruct bytes; [cbn [length] in Hn; lia|done].
Qed.

Lemma read_spec fuel w b out size : body_ok b -> body_source b = source -> (rounds b <= fuel)%nat -> 0 < size <= len out ->
  (body_failed b = true -> ended w = true \/ dead b) ->
  exists arrived taken e w' b' out' r, lh_http_body_reader_read fuel w b out size = Done (w', b', out', r) /\
    moved w b arrived taken e w' b' /\ answer b' e out out' r size /\ (body_failed b' = true -> ended w' = true \/ dead b').
Proof using Hsource.
  intros Hok Hs Hfuel Hsize Hfail. unfold lh_http_body_reader_read. rewrite (proj2 (Z.eqb_neq _ _)) by lia.
  change (lh_http_body_reader_get_failed b) with (body_failed b). destruct (body_failed b) eqn:Ef.
  { exists [], [], [], w, b, out, LH_IO_ERROR. split; [done|]. split; [by apply moved_refl|]. split; [|by auto].
    right. split_and!; [done|done|right; left; by split]. }
  destruct (body_loop_spec fuel w b out (Z.min size LH_SSIZE_T_MAX) Hok Hs Hfuel) as (a & t & e & w' & b' & out' & r & -> & Hm & Ha);
    [unfold LH_SSIZE_T_MAX in *; lia|lia|]. exists a, t, e, w', b', out', r. split; [done|]. split; [done|]. split.
  - destruct Ha as [(-> & Hr & ->)|?]; [left; split_and!; done || lia|by right].
  - intros H. destruct (moved_failed _ _ _ _ _ _ _ Hm H) as [?|?]; [congruence|done].
Qed.

(** ** A body, read to its end *)

(** What a reader of a body is told to read: [body wire content], with [arrived] in the
    wire buffer already. *)
Inductive starts (arrived : list Z) : lh_http_body_reader_t -> (list Z -> list Z -> Prop) -> Prop :=
  | starts_length self wire capacity length : len arrived <= capacity <= len wire -> 0 < capacity < LH_USIZE_T_MAX ->
      is_bytes wire -> is_u64 length -> take (Z.to_nat (len arrived)) wire = arrived ->
      starts arrived (lh_http_body_reader_init_length self source wire capacity (len arrived) length)
        (fun w content => w = content /\ len w = length)
  | starts_chunked self wire capacity d0 line line_capacity decoded_limit metadata_limit :
      len arrived <= capacity <= len wire -> 0 < capacity < LH_USIZE_T_MAX ->
      is_bytes wire -> take (Z.to_nat (len arrived)) wire = arrived ->
      0 <= line_capacity <= len line -> line_capacity < LH_USIZE_T_MAX -> is_u64 decoded_limit -> is_u64 metadata_limit ->
      starts arrived (lh_http_body_reader_init_chunked self source wire capacity (len arrived)
          (lh_http_chunked_decoder_init d0 line line_capacity decoded_limit metadata_limit))
        (within line_capacity decoded_limit metadata_limit).
(** Reads, each with rounds enough: the content given so far, the world and the reader. *)
Inductive reading (w0 : W) (b0 : lh_http_body_reader_t) : list Z -> W -> lh_http_body_reader_t -> Prop :=
  | reading_start : reading w0 b0 [] w0 b0
  | reading_step given w b fuel out size w' b' out' r : reading w0 b0 given w b -> 0 < size <= len out -> (rounds b <= fuel)%nat ->
      lh_http_body_reader_read fuel w b out size = Done (w', b', out', r) ->
      reading w0 b0 (given ++ take (Z.to_nat r) out') w' b'.

Lemma starts_ok arrived b0 body : starts arrived b0 body ->
  body_ok b0 /\ body_source b0 = source /\ body_failed b0 = false /\ unread b0 = arrived /\ forall w c, body_accepts b0 w c <-> body w c.
Proof using.
  assert (forall wire cap n d, len arrived <= cap <= len wire -> 0 < cap < LH_USIZE_T_MAX -> is_bytes wire -> is_u64 n ->
    (forall d', d = Some d' -> dec_ok d') -> take (Z.to_nat (len arrived)) wire = arrived ->
    let b := mk_body_reader source d wire cap (len arrived) 0 n false in body_ok b /\ unread b = arrived) as Hmk.
  { intros wire cap n d Hc Hc0 Hb Hn Hd Ha b. split; [constructor; unfold b; cbn [body_source body_decoder body_wire body_wire_capacity
      body_wire_size body_wire_pos body_remaining body_failed]; lia || assumption|].
    unfold unread, b. cbn [body_wire body_wire_size body_wire_pos]. by rewrite Z.sub_0_r. }
  intros [self wire cap n Hc Hc0 Hb Hn Ha|self wire cap d0 line lc dl ml Hc Hc0 Hb Ha Hl Hs Hdl Hml].
  - destruct (Hmk wire cap n None Hc Hc0 Hb Hn ltac:(intros ? [=]) Ha) as [Hok Hu]. exact (conj Hok (conj eq_refl (conj eq_refl (conj Hu (fun w c => iff_refl _))))).
  - destruct (Hmk wire cap 0 (Some (lh_http_chunked_decoder_init d0 line lc dl ml)) Hc Hc0 Hb ltac:(unfold is_u64; lia)) as [Hok Hu]; [|done|].
    { intros d' [= <-]. by apply start_ok. }
    exact (conj Hok (conj eq_refl (conj eq_refl (conj Hu (start_accepts d0 line lc dl ml))))).
Qed.
Lemma answer_given b' e out out' r size : 0 < size -> answer b' e out out' r size ->
  take (Z.to_nat r) out' = e /\ out' = filled e out /\ (r = LH_IO_PENDING \/ r = LH_IO_ERROR \/ 0 <= r <= size).
Proof using.
  intros Hs [(-> & Hr & ->)|(-> & -> & [-> |[[-> _]|[-> _]]])]; rewrite ?Nat2Z.id, ?take_filled; split_and!; auto; right; right; lia.
Qed.
(** What holds along the reads. *)
Record progress (b0 : lh_http_body_reader_t) (given : list Z) (w : W) (b : lh_http_body_reader_t) (taken : list Z) : Prop := {
  progress_ok : body_ok b;
  progress_source : body_source b = source;
  progress_wire : unread b0 ++ delivered w = taken ++ unread b;
  progress_accepts v c : body_accepts b0 (taken ++ v) c <-> exists c', c = given ++ c' /\ body_accepts b v c';
  progress_failed : body_failed b = true -> ended w = true \/ dead b
}.
Lemma progress_step b0 given w b taken fuel out size : progress b0 given w b taken -> (rounds b <= fuel)%nat -> 0 < size <= len out ->
  exists e w' b' out' r more, lh_http_body_reader_read fuel w b out size = Done (w', b', out', r) /\
    answer b' e out out' r size /\ progress b0 (given ++ e) w' b' (taken ++ more).
Proof using Hsource.
  intros [Hok Hs Hw Ha Hf] Hfuel Hsize.
  destruct (read_spec fuel w b out size Hok Hs Hfuel Hsize Hf) as (arr & t & e & w' & b' & out' & r & -> & [Mok Ms Md Mw Ma _ _] & Hans & Hf').
  exists e, w', b', out', r, t. split; [done|]. split; [done|]. constructor; [done|congruence| | |done].
  - by rewrite Md, app_assoc, Hw, <-!app_assoc, Mw.
  - intros v c. rewrite <-app_assoc, Ha. split.
    + intros (c' & -> & H). apply Ma in H as (c'' & -> & H). exists c''. by rewrite <-app_assoc.
    + intros (c' & -> & H). rewrite <-app_assoc. eexists. split; [done|]. apply Ma. eauto.
Qed.
Lemma reading_progress w0 b0 given w b : delivered w0 = [] -> body_ok b0 -> body_source b0 = source -> body_failed b0 = false ->
  reading w0 b0 given w b -> exists taken, progress b0 given w b taken.
Proof using Hsource.
  intros Hw0 Hok Hs Hf. induction 1 as [|given w b fuel out size w' b' out' r _ [taken IH] Hsize Hfuel E].
  - exists []. constructor; try done; [by rewrite Hw0, app_nil_r| |by rewrite Hf].
    intros v c. cbn [app]. split; [eauto|by intros (c' & -> & H)].
  - destruct (progress_step b0 given w b taken fuel out size IH Hfuel Hsize) as (e & w1 & b1 & o1 & r1 & more & E' & Ha & Hp).
    rewrite E' in E. injection E as -> -> -> ->. exists (taken ++ more). by destruct (answer_given b' e out out' r size ltac:(lia) Ha) as [-> _].
Qed.

(** Claim C16: a body is delivered as it was sent.  From a reader set up for a length or for a
    chunked body within limits, with [arrived] in its wire buffer and a source that goes on
    from there, reads of any sizes give the content in order: what was given is a prefix of
    the content of every body that continues what was taken from the wire; a read of 0 says
    that the body is complete, and the bytes after it are those [get_unread] shows; an error
    is reported only if the source has ended or no continuation is a body.  Every read
    returns after at most one round more than the framing bytes still allowed, whatever the
    source sends, and leaves the output as it was beyond what it gives. *)
Theorem body_is_delivered arrived b0 body w0 given w b fuel out size :
  starts arrived b0 body -> delivered w0 = [] -> reading w0 b0 given w b -> 0 < size <= len out -> (rounds b <= fuel)%nat ->
  exists w' b' out' r taken, lh_http_body_reader_read fuel w b out size = Done (w', b', out', r) /\
    (r = LH_IO_PENDING \/ r = LH_IO_ERROR \/ 0 <= r <= size) /\
    let e := take (Z.to_nat r) out' in
    out' = filled e out /\
    arrived ++ delivered w' = taken ++ lh_http_body_reader_get_unread b' /\
    (forall ext content, body (taken ++ ext) content -> exists more, content = (given ++ e) ++ more) /\
    (r = 0 -> body taken (given ++ e)) /\
    (r = LH_IO_ERROR -> ended w' = true \/ forall ext content, ~ body (taken ++ ext) content).
Proof using Hsource.
  intros Hst Hw0 Hr Hsize Hfuel. destruct (starts_ok _ _ _ Hst) as (Hok & Hs & Hf & Hu & Hbody).
  destruct (reading_progress w0 b0 given w b Hw0 Hok Hs Hf Hr) as [taken0 Hp].
  destruct (progress_step b0 given w b taken0 fuel out size Hp Hfuel Hsize) as (e & w' & b' & out' & r & more & E & Ha & [Pok Ps Pw Pa Pf]).
  destruct (answer_given b' e out out' r size ltac:(lia) Ha) as (He & Hout & Hres).
  exists w', b', out', r, (taken0 ++ more). cbv zeta. rewrite He. split_and!; try done.
  - rewrite <-Hu, Pw. f_equal. unfold unread, lh_http_body_reader_get_unread, lh_str_view_init_by_size. body_cbn.
    by rewrite u64_id by (destruct Pok; zb).
  - intros ext content H. apply Hbody, Pa in H as (c' & -> & _). eauto.
  - intros ->. apply Hbody. rewrite <-(app_nil_r (taken0 ++ more)). apply Pa. exists []. rewrite app_nil_r. split; [done|].
    apply finished_accepts; [done|]. destruct Ha as [(_ & ? & _)|(_ & _ & [[=]|[[[=] _]|[_ ?]]])]; [lia|done].
  - intros ->. destruct Ha as [(_ & [? _] & _)|(_ & _ & [[=]|[[_ Hfl]|[[=] _]]])]; [unfold LH_IO_ERROR in *; lia|].
    destruct (Pf Hfl) as [?|Hd]; [by left|right]. intros ext content H. apply Hbody, Pa in H as (c' & _ & H). by eapply Hd.
Qed.
End Source.

(** A source that hands out a text four bytes at a time: what it handed out, what is left of
    the text, and whether it said that there is no more. *)
Notation text_source := (list Z * list Z * bool)%type.
#[export] Instance text_callbacks : Callbacks text_source := {|
  call_read := fun _ _ '(given, rest, over) size =>
    match rest with
    | [] => ((given, [], true), (0, []))
    | _ => let bytes := u8 <$> take (Z.to_nat (Z.min 4 size)) rest in
           ((given ++ bytes, drop (Z.to_nat (Z.min 4 size)) rest, over), (len bytes, bytes))
    end;
  call_write := fun _ _ w _ => (w, 0)
|}.
Lemma text_source_ok : source_ok (mk_reader 1 0) (fun w : text_source => w.1.1) (fun w : text_source => w.2).
Proof.
  split; [done|]. intros [[given rest] over] size. cbn [call_read text_callbacks read_cb reader_context]. destruct rest as [|c rest].
  { intros Hs. cbn [fst snd length]. split_and!; [lia|apply Forall_nil_2|lia|by rewrite app_nil_r|by rewrite orb_true_r]. }
  intros Hs. cbn [fst snd]. set (bytes := u8 <$> take (Z.to_nat (Z.min 4 size)) (c :: rest)).
  assert (0 < len bytes <= size) as Hl.
  { unfold bytes. rewrite length_fmap, length_take. cbn [length]. lia. }
  rewrite (proj2 (Z.ltb_lt _ _)), (proj2 (Z.leb_gt _ _)) by lia. split_and!; try done; [lia| |by rewrite orb_false_r].
  apply Forall_fmap, Forall_true. intros x. apply u8_range.
Qed.
Definition wiki_body : lh_http_body_reader_t :=
  lh_http_body_reader_init_chunked (mk_body_reader (mk_reader 0 0) None [] 0 0 0 0 true) (mk_reader 1 0) (take 3 wiki ++ local 5) 8 3 wiki_start.
Lemma body_is_delivered_witness : exists w' b' out' r taken,
  lh_http_body_reader_read 101 ([], drop 3 wiki, false) wiki_body (local 10) 10 = Done (w', b', out', r) /\
  take 3 wiki ++ w'.1.1 = taken ++ lh_http_body_reader_get_unread b' /\ take (Z.to_nat r) out' = [87; 105; 107; 105].
Proof.
  destruct (body_is_delivered (mk_reader 1 0) (fun w : text_source => w.1.1) (fun w : text_source => w.2) text_source_ok (take 3 wiki) wiki_body
    (within 8 100 100) ([], drop 3 wiki, false) [] ([], drop 3 wiki, false) wiki_body 101 (local 10) 10) as (w' & b' & out' & r & taken & E & _ & _ & Hw & _).
  - apply (starts_chunked (mk_reader 1 0) (take 3 wiki)).
    + split; vm_compute; discriminate.
    + split; vm_compute; reflexivity.
    + apply Forall_app. split; [apply Forall_take, wiki_ok|]. unfold local. apply Forall_replicate. split; discriminate || reflexivity.
    + reflexivity.
    + split; vm_compute; discriminate.
    + vm_compute. reflexivity.
    + unfold is_u64. lia.
    + unfold is_u64. lia.
  - reflexivity.
  - apply reading_start.
  - split; vm_compute; (discriminate || reflexivity).
  - vm_compute. lia.
  - exists w', b', out', r, taken. split; [exact E|]. split; [exact Hw|]. vm_compute in E. injection E as <- <- <- <-. vm_compute. reflexivity.
Defined.
