(* ===== verification/HeadProofs.v ===== *)
(** * HTTP message heads: the grammar, and that the parser recognises it

    A head is a start line, the lines of the fields and an empty line, each ended by CR LF.
    [head] relates its text to what it says, within the limits of a parser: the size of the
    head and of a line and the number of fields.  The two kinds of heads share everything
    but the start line, so the proof is for any start line ([parse_head_spec]). *)
From S2P Require Import Prelude Buffer Bytes Digits DigitsProofs Format StrPtr StrPtrProofs View ViewProofs Http HttpProofs Chunked ChunkedSpec ChunkedProofs.

(** The lines of fields, each at most [line_max] long, and the empty line. *)
Inductive fields (line_max : Z) : list Z -> list lh_http_header_t -> Prop :=
  | fields_end : fields line_max [CR; LF] []
  | fields_more name value w hs : is_token name -> all_in lh_http_is_field_char value -> len (name ++ 58 :: value) <= line_max ->
      fields line_max w hs -> fields line_max ((name ++ 58 :: value) ++ CR :: LF :: w) (field_of name value :: hs).

(** ** Lines within the limits *)

Section Limits.
Context (self : lh_http_parser_t).
Notation head_max := (lh_http_parser_get_head_size_max self).
Notation line_max := (lh_http_parser_get_line_size_max self).

(** [u] begins with [line] and its end, [before] characters after the beginning of the head. *)
Definition line_at (before : Z) (u line tl : list Z) : Prop :=
  u = line ++ CR :: LF :: tl /\ plain line /\ (line <> [] -> len line <= line_max) /\ before + len line + 2 <= head_max.

Lemma line_found pre u line tl : line_at (len pre) u line tl ->
  find_line line_max 0 (visible self pre u) = Found (length line).
Proof.
  intros (-> & Hp & Hm & Hh). apply find_line_found.
  exists line, (take (Z.to_nat (head_max - len pre) - length line - 2) tl). split_and!; [|done|done|intros H; by specialize (Hm H)].
  unfold visible. rewrite take_app_ge by lia. f_equal.
  destruct (Z.to_nat (head_max - len pre) - length line)%nat as [|[|k]] eqn:Ek; [lia..|]. cbn [firstn Nat.sub]. by rewrite ?Nat.sub_0_r.
Qed.
Lemma visible_app pre t ext : exists ext', visible self pre (t ++ ext) = visible self pre t ++ ext' /\
  (len (pre ++ t) >= head_max -> ext' = []).
Proof.
  unfold visible. rewrite firstn_app. eexists. split; [done|]. rewrite length_app. intros H.
  replace (Z.to_nat (head_max - len pre) - length t)%nat with 0%nat by lia. done.
Qed.
(** [u] is a line that breaks off, with room for its end. *)
Definition open_at (before : Z) (u : list Z) : Prop := open_line line_max u /\ before + len u < head_max.
Lemma open_visible pre u : len pre + len u < head_max -> visible self pre u = u.
Proof. intros H. unfold visible. apply take_ge. lia. Qed.
Lemma open_at_ends b u line tl : line_at b u line tl -> ~ open_at b u.
Proof. intros (-> & Hp & _) [H _]. by apply open_line_ends in H. Qed.
(** The search for the end of a line: found, or more has to arrive, or nothing that arrives
    makes it a line. *)
Lemma find_line_verdict pre t end_ : len pre <= head_max ->
  (exists line tl, line_at (len pre) t line tl /\
     lh_http_parser_find_line self (pre ++ t) (len pre) end_ = Done (self, lh_http_parse_complete, len pre + len line)) \/
  (lh_http_parser_find_line self (pre ++ t) (len pre) end_ = Done (self, lh_http_parse_incomplete, end_) /\
     (forall line tl, ~ line_at (len pre) t line tl) /\ open_at (len pre) t) \/
  (exists e at_, lh_http_parser_find_line self (pre ++ t) (len pre) end_ = Done (set_failed self e at_, lh_http_parse_error, end_) /\
     e <> lh_http_error_none /\ (forall ext line tl, ~ line_at (len pre) (t ++ ext) line tl) /\ ~ open_at (len pre) t).
Proof.
  intros Hpre. rewrite find_line_spec by done.
  destruct (find_line line_max 0 (visible self pre t)) as [n| |e n] eqn:E.
  - left. apply find_line_found in E as (line & tl & E & Hp & -> & Hm).
    assert (t = line ++ CR :: LF :: tl ++ drop (Z.to_nat (head_max - len pre)) t) as Et.
    { rewrite <-(take_drop (Z.to_nat (head_max - len pre)) t) at 1. fold (visible self pre t). rewrite E. by rewrite <-app_assoc. }
    exists line, (tl ++ drop (Z.to_nat (head_max - len pre)) t). split; [|done]. split_and!; [done|done|intros H; by specialize (Hm H)|].
    pose proof (f_equal length E) as El. unfold visible in El. rewrite length_take in El. lens. lia.
  - rewrite Z.geb_leb. destruct (Z.leb_spec head_max (len (pre ++ t))).
    + right. right. do 2 eexists. split; [done|]. split; [done|]. split; [|intros [_ ?]; lens; lia]. intros ext line tl H1%line_found.
      destruct (visible_app pre t ext) as (ext' & Ev & Hnil). rewrite Ev, Hnil, app_nil_r in H1 by lia. congruence.
    + right. left. split; [done|]. split; [intros line tl H1%line_found; congruence|]. rewrite length_app in *.
      rewrite open_visible in E by lia. split; [by apply open_line_more|lia].
  - right. right. do 2 eexists. split; [done|]. split; [|split].
    + assert (forall t s, find_line line_max s t = Wrong e n -> e <> lh_http_error_none) as Hw; [|by eapply Hw].
      clear. intros t. revert n. induction t as [|c t IH]; intros n s; cbn [find_line]; [done|].
      destruct (c =? LF); [by intros [= <- _]|]. destruct (c =? CR).
      { destruct t as [|d t]; [done|]. destruct (d =? LF); [done|by intros [= <- _]]. }
      destruct (s >=? line_max); [by intros [= <- _]|]. destruct (find_line line_max (s + 1) t) eqn:E; [done..|].
      intros [= -> <-]. by eapply IH.
    + intros ext line tl H1%line_found. destruct (visible_app pre t ext) as (ext' & Ev & _).
      rewrite Ev, find_line_app in H1 by by rewrite E. congruence.
    + intros [Ho Hl]. rewrite open_visible in E by lia. apply open_line_more in Ho. congruence.
Qed.
Lemma line_at_unique b u l1 t1 l2 t2 ext : line_at b u l1 t1 -> line_at b (u ++ ext) l2 t2 -> l1 = l2 /\ t2 = t1 ++ ext.
Proof.
  intros (-> & Hp1 & _) (E & Hp2 & _). rewrite <-app_assoc in E. apply line_unique in E as [-> E]; [|done..].
  injection E as <-. done.
Qed.

(** ** Fields *)

(** The fields that begin [u], [before] characters into the head, when [number] fields more
    have room. *)
Definition fields_at (before room : Z) (u w : list Z) (hs : list lh_http_header_t) : Prop :=
  (exists rest, u = w ++ rest) /\ fields line_max w hs /\ before + len w <= head_max /\ len hs <= room.

Lemma field_of_line line : field_line line -> exists name value, is_token name /\ all_in lh_http_is_field_char value /\ line = name ++ 58 :: value.
Proof. intros [name value Hn Hv]. eauto. Qed.
Lemma fields_first b room u w hs : fields_at b room u w hs ->
  (exists tl, line_at b u [] tl /\ w = [CR; LF] /\ hs = []) \/
  (exists name value tl w' hs', line_at b u (name ++ 58 :: value) tl /\ is_token name /\ all_in lh_http_is_field_char value /\
     w = (name ++ 58 :: value) ++ CR :: LF :: w' /\ hs = field_of name value :: hs' /\
     fields_at (b + len (name ++ 58 :: value) + 2) (room - 1) tl w' hs').
Proof.
  intros ([rest ->] & Hf & Hm & Hr). destruct Hf as [|name value w hs Hn Hv Hl Hf].
  - left. exists rest. split_and!; [|done|done]. split_and!; [done|apply plain_nil|done|]. cbn [length] in *. lia.
  - right. exists name, value, (w ++ rest), w, hs. assert (field_line (name ++ 58 :: value)) by done.
    split_and!; try done.
    + split_and!; [by rewrite <-app_assoc|by apply field_line_plain|done|]. lens. lia.
    + split_and!; [by eexists|done| |cbn [length] in Hr; lia]. lens. lia.
Qed.
Lemma fields_two w hs : fields line_max w hs -> 2 <= len w.
Proof. intros []; lens; lia. Qed.
Lemma fields_unique w1 hs1 : fields line_max w1 hs1 -> forall b u r w2 hs2, (exists rest, u = w1 ++ rest) -> fields_at b r u w2 hs2 -> w1 = w2 /\ hs1 = hs2.
Proof.
  induction 1 as [|name value w hs Hn Hv Hl Hf IH]; intros b' u r' w2 hs2 [rest ->] H2.
  - apply fields_first in H2 as [(tl & _ & -> & ->)|(name & value & tl & w' & hs' & (E & Hp & _) & Hn & Hv & _)]; [done|].
    exfalso. change ([CR; LF] ++ rest) with ([] ++ CR :: LF :: rest) in E. apply line_unique in E as [E _]; [|apply plain_nil|done].
    by destruct name.
  - rewrite <-app_assoc in H2. assert (plain (name ++ 58 :: value)) as Hp by by apply field_line_plain.
    apply fields_first in H2 as [(tl & (E & _) & _)|(name' & value' & tl & w' & hs' & (E & Hp' & _) & Hn' & Hv' & -> & -> & Hf')].
    + exfalso. apply (line_unique _ []) in E as [E _]; [|done|apply plain_nil]. by destruct name.
    + cbn [app] in E. apply line_unique in E as [E1 E]; [|done..]. injection E as E.
      assert (name = name' /\ value = value') as [-> ->].
      { pose proof (f_equal (while_in is_tchar) E1) as E2. pose proof (f_equal (while_out is_tchar) E1) as E3.
        destruct Hn, Hn'. rewrite !while_in_app in E2 by done. rewrite !while_out_app in E3 by done. by injection E3 as ->. }
      destruct (IH (b' + len (name' ++ 58 :: value') + 2) tl (r' - 1) w' hs') as [-> ->]; [by exists rest|done|done].
Qed.

(** The fields break off: whole lines of fields, fewer than [room], and then a line that breaks
    off. *)
Inductive open_fields (before room : Z) (u : list Z) : Prop :=
  | open_fields_line : open_at before u -> open_fields before room u
  | open_fields_more name value tl : line_at before u (name ++ 58 :: value) tl -> is_token name -> all_in lh_http_is_field_char value ->
      0 < room -> open_fields (before + len (name ++ 58 :: value) + 2) (room - 1) tl -> open_fields before room u.
Lemma open_fields_next b room u line tl : line_at b u line tl -> open_fields b room u <->
  exists name value, line = name ++ 58 :: value /\ is_token name /\ all_in lh_http_is_field_char value /\ 0 < room /\ open_fields (b + len line + 2) (room - 1) tl.
Proof.
  intros Hl. split.
  - intros [Ho|name value tl' Hl' Hn Hv Hr Ho]; [by apply (open_at_ends _ _ _ _ Hl) in Ho|]. rewrite <-(app_nil_r u) in Hl'.
    destruct (line_at_unique _ _ _ _ _ _ _ Hl Hl') as [-> ->]. rewrite app_nil_r in Ho. by exists name, value.
  - intros (name & value & -> & Hn & Hv & Hr & Ho). by eapply open_fields_more.
Qed.

Lemma parse_field_fails input begin end_ h self' h' : lh_http_parser_parse_field self input begin end_ h = Done (self', h', lh_http_parse_error) ->
  exists at_, self' = set_failed self lh_http_error_header at_.
Proof.
  unfold lh_http_parser_parse_field. cbv zeta. intros E.
  repeat match goal with
  | E : (x ← ?m; _) = Done _ |- _ => destruct m; [rewrite bind_done in E|discriminate E..]
  | E : (if ?b then _ else _) = Done _ |- _ => destruct b
  | E : (match ?o with Some _ => _ | None => _ end) = Done _ |- _ => destruct o
  end; try discriminate E; injection E as <- <-; by eexists.
Qed.
Lemma fields_loop_spec : forall fuel pre t dn tl capacity count, (length t < fuel)%nat -> len pre <= head_max ->
  is_bytes t -> fits (pre ++ t) -> len dn <= capacity -> capacity <= len (dn ++ tl) ->
  (exists w hs, fields_at (len pre) (capacity - len dn) t w hs /\
     fields_loop fuel self (pre ++ t) (len pre) (dn ++ tl) capacity (len dn) count
     = Done (lh_http_parser_set_consumed self (len pre + len w), dn ++ hs ++ drop (length hs) tl, len dn + len hs, lh_http_parse_complete)) \/
  (exists headers', fields_loop fuel self (pre ++ t) (len pre) (dn ++ tl) capacity (len dn) count
     = Done (self, headers', count, lh_http_parse_incomplete) /\ length headers' = length (dn ++ tl) /\
     (forall w hs, ~ fields_at (len pre) (capacity - len dn) t w hs) /\ open_fields (len pre) (capacity - len dn) t) \/
  (exists headers' e at_, fields_loop fuel self (pre ++ t) (len pre) (dn ++ tl) capacity (len dn) count
     = Done (set_failed self e at_, headers', count, lh_http_parse_error) /\ length headers' = length (dn ++ tl) /\
     e <> lh_http_error_none /\ (forall ext w hs, ~ fields_at (len pre) (capacity - len dn) (t ++ ext) w hs) /\
     ~ open_fields (len pre) (capacity - len dn) t).
Proof.
  induction fuel as [|fuel IH]; intros pre t dn tl capacity count Hfuel Hpre Hb Hf Hdn Hcap; [lia|]. cbn [fields_loop].
  destruct (find_line_verdict pre t 0 Hpre) as [(line & tl' & Hline & ->)|[(-> & Hno & Ho)|(e & at_ & -> & He & Hno & Ho)]]; rewrite bind_done.
  2:{ right. left. eexists. split; [done|]. split; [done|]. split; [|by apply open_fields_line]. intros w hs [(tl0 & H & _)|(? & ? & tl0 & ? & ? & H & _)]%fields_first; by eapply Hno. }
  2:{ right. right. do 3 eexists. split; [done|]. split; [done|]. split; [done|].
      split; [|intros [?|? ? ? Hl%(fun H => H) _ _ _ _]; [done|]; rewrite <-(app_nil_r t) in Hl; by eapply (Hno [])]. intros ext w hs [(tl0 & H & _)|(? & ? & tl0 & ? & ? & H & _)]%fields_first; by eapply Hno. }
  change (negb (lh_http_parse_complete =? lh_http_parse_complete)) with false. cbv iota.
  destruct (decide (line = [])) as [->|Hne].
  { change (len []) with 0. rewrite Z.add_0_r, Z.eqb_refl. left. exists [CR; LF], []. split; [|cbn; by rewrite Z.add_0_r].
    destruct Hline as (-> & _ & _ & Hm). cbn [length] in Hm. split_and!; [by exists tl'|constructor|cbn [length]; lia|cbn [length]; lia]. }
  rewrite (proj2 (Z.eqb_neq _ _)) by (destruct line; [done|cbn [length]; lia]).
  pose proof (open_fields_next _ (capacity - len dn) _ _ _ Hline) as Hopen.
  destruct Hline as (Et & Hp & Hlm & Hhm) eqn:Hline'. clear Hline'. specialize (Hlm Hne).
  assert (forall ext w hs, fields_at (len pre) (capacity - len dn) (t ++ ext) w hs -> exists name value w' hs',
    line = name ++ 58 :: value /\ is_token name /\ all_in lh_http_is_field_char value /\ w = line ++ CR :: LF :: w' /\
    hs = field_of name value :: hs' /\ fields_at (len pre + len line + 2) (capacity - len dn - 1) (tl' ++ ext) w' hs') as Hinv.
  { intros ext w hs [(tl0 & H & _)|(name & value & tl0 & w' & hs' & H & Hn & Hv & -> & -> & Hr)]%fields_first.
    - by destruct (line_at_unique _ _ _ _ _ _ _ Hline H) as [-> _].
    - destruct (line_at_unique _ _ _ _ _ _ _ Hline H) as [-> ->]. exists name, value, w', hs'. done. }
  assert (is_bytes line /\ is_bytes tl' /\ fits line) as (Hbl & Hbt & Hfl).
  { rewrite Et in Hb. apply Forall_app in Hb as [? Hb]. apply Forall_cons_1 in Hb as [_ Hb]. apply Forall_cons_1 in Hb as [_ Hb].
    split_and!; [done|done|]. unfold fits in *. rewrite Et in Hf. lens. lia. }
  destruct (parse_field_spec self pre line (CR :: LF :: tl') no_header Hbl Hfl) as (self' & h' & st & Hpf & Hor & Hst & Hself).
  rewrite <-Et, length_app, Nat2Z.inj_add in Hpf. rewrite Hpf, bind_done.
  destruct (Z.eqb_spec st lh_http_parse_complete) as [Hc|Hc]; cbn [negb].
  2:{ destruct Hor as [Hor| ->]; [done|]. apply parse_field_fails in Hpf as [at_ ->]. right. right. do 3 eexists. split; [done|].
      split; [done|]. split; [done|]. split; [intros ext w hs (name & value & _ & _ & -> & Hn & Hv & _)%Hinv; by apply Hc, Hst|].
      intros (name & value & -> & Hn & Hv & _)%Hopen. by apply Hc, Hst. }
  apply Hst in Hc as (name & value & Hn & Hv & El)%field_of_line. destruct (Hself _ _ Hn Hv El) as [-> ->].
  destruct (Z.eqb_spec (len dn) capacity) as [Hfull|Hroom].
  { right. right. do 3 eexists. split; [done|]. split; [done|]. split; [done|]. split; [|intros (? & ? & _ & _ & _ & ? & _)%Hopen; lia].
    intros ext w hs (? & ? & w' & hs' & _ & _ & _ & _ & _ & (_ & _ & _ & Hr))%Hinv. lia. }
  destruct tl as [|y tl]; [rewrite app_nil_r in Hcap; lia|]. rewrite put_next, bind_done.
  set (pre' := pre ++ line ++ [CR; LF]). assert (forall x, pre ++ (line ++ CR :: LF :: tl') ++ x = pre' ++ tl' ++ x) as Ei.
  { intros x. unfold pre'. by rewrite <-!app_assoc. }
  assert (pre ++ t = pre' ++ tl') as Ei' by (specialize (Ei []); by rewrite Et, !app_nil_r in *).
  assert (len pre' = len pre + len line + 2) as Hpre' by (unfold pre'; lens; lia).
  assert (forall h, len (dn ++ [h]) = len dn + 1) as Hdn1 by (intros; lens; lia).
  rewrite <-Hpre', Ei', <-(Hdn1 (field_of name value)).
  destruct (IH pre' tl' (dn ++ [field_of name value]) tl capacity count) as [(w & hs & Hfs & ->)|[(headers' & -> & Hl & Hno & Ho)|(headers' & e & at_ & -> & Hl & He & Hno & Ho)]].
  all: rewrite ?Hdn1 in *; rewrite <-?Ei' in *; rewrite <-?Hpre' in Hinv, Hopen; try done.
  { rewrite Et in Hfuel. lens. lia. } { lia. } { lia. } { lens. lia. }
  all: replace (capacity - (len dn + 1)) with (capacity - len dn - 1) in * by lia.
  - left. exists (line ++ CR :: LF :: w), (field_of name value :: hs). destruct Hfs as ([rest ->] & Hfs & Hm & Hr). split.
    + split_and!; [exists rest; by rewrite Et, <-app_assoc|by rewrite El; constructor; rewrite <-?El|rewrite Hpre' in Hm; lens; lia|cbn [length]; lia].
    + rewrite <-!app_assoc. cbn [app length]. cbn [drop skipn].
      replace (len pre + len (line ++ CR :: LF :: w)) with (len pre' + len w) by (rewrite Hpre'; lens; lia).
      by replace (len dn + Z.of_nat (S (length hs))) with (len dn + 1 + len hs) by lia.
  - right. left. eexists. split; [done|]. split; [rewrite Hl; lens; lia|]. split; [|apply Hopen; exists name, value; split_and!; (done || lia)]. intros w hs H.
    rewrite <-(app_nil_r t) in H. destruct (Hinv [] w hs H) as (? & ? & w' & hs' & _ & _ & _ & _ & _ & Hr). rewrite app_nil_r in Hr. by eapply Hno.
  - right. right. do 3 eexists. split; [done|]. split; [rewrite Hl; lens; lia|]. split; [done|].
    split; [|by intros (? & ? & _ & _ & _ & _ & ?)%Hopen]. intros ext w hs H.
    destruct (Hinv ext w hs H) as (? & ? & w' & hs' & _ & _ & _ & _ & _ & Hr). by eapply Hno.
Qed.
End Limits.
Lemma open_fields_limits s1 s2 b room u : lh_http_parser_get_head_size_max s1 = lh_http_parser_get_head_size_max s2 ->
  lh_http_parser_get_line_size_max s1 = lh_http_parser_get_line_size_max s2 -> open_fields s1 b room u -> open_fields s2 b room u.
Proof.
  intros Eh El. induction 1 as [b room u Ho|b room u name value tl Hl Hn Hv Hr _ IH].
  - apply open_fields_line. unfold open_at in *. by rewrite <-Eh, <-El.
  - eapply open_fields_more; [|done..]. unfold line_at in *. by rewrite <-Eh, <-El.
Qed.

(** ** A head with any start line *)

Section Head.
Context {R : Type} (parse_line : lh_http_parser_t -> lh_str_view_t -> Z -> R -> outcome (lh_http_parser_t * R * Z)).
Context (set_count : R -> Z -> R) (start_line : R -> list Z -> R -> Prop).
(** What a start line has to be, and what its parser does of it. *)
Definition start_line_ok : Prop := forall r line r', start_line r line r' -> plain line /\ line <> [].
Definition parses_line : Prop := forall self line post r, is_bytes line -> fits line ->
  (exists r', start_line r line r' /\ parse_line self (line ++ post) (len line) r = Done (self, r', lh_http_parse_complete)) \/
  (exists e at_, parse_line self (line ++ post) (len line) r = Done (set_failed self e at_, r, lh_http_parse_error) /\
     e <> lh_http_error_none /\ forall r', ~ start_line r line r').
Context (Hstart : start_line_ok) (Hparses : parses_line).

(** The text [w] of a head that sets the message [r] to [m], with the fields [hs]. *)
Inductive head (self : lh_http_parser_t) (room : Z) (r : R) : list Z -> R -> list lh_http_header_t -> Prop :=
  | head_intro line m w hs : start_line r line m -> len line <= lh_http_parser_get_line_size_max self ->
      fields (lh_http_parser_get_line_size_max self) w hs -> len (line ++ CR :: LF :: w) <= lh_http_parser_get_head_size_max self -> len hs <= room ->
      head self room r (line ++ CR :: LF :: w) (set_count m (len hs)) hs.
Lemma head_first self room r u w m hs rest : u = w ++ rest -> head self room r w m hs ->
  exists line tl w' m', line_at self 0 u line tl /\ start_line r line m' /\ w = line ++ CR :: LF :: w' /\
    m = set_count m' (len hs) /\ fields_at self (len line + 2) room tl w' hs /\ tl = w' ++ rest.
Proof using Hstart.
  intros -> [line m' w' hs' Hl Hlm Hf Hm Hr]. destruct (Hstart _ _ _ Hl) as [Hp _]. pose proof (fields_two _ _ _ Hf).
  exists line, (w' ++ rest), w', m'. split; [|split_and!; try done; split_and!; [by exists rest|done|lens; lia|done]].
  split_and!; [by rewrite <-app_assoc|done|done|lens; lia].
Qed.

(** A head that breaks off, in its first line or in its fields. *)
Definition open_head (self : lh_http_parser_t) (room : Z) (r : R) (u : list Z) : Prop :=
  open_at self 0 u \/ exists line tl m, line_at self 0 u line tl /\ start_line r line m /\ open_fields self (len line + 2) room tl.
Lemma open_head_next self room r u line tl : line_at self 0 u line tl ->
  open_head self room r u <-> (exists m, start_line r line m) /\ open_fields self (len line + 2) room tl.
Proof using.
  intros Hl. split.
  - intros [Ho|(l & t & m & Hl' & Hm & Ho)]; [by apply (open_at_ends _ _ _ _ _ Hl) in Ho|]. rewrite <-(app_nil_r u) in Hl'.
    destruct (line_at_unique _ _ _ _ _ _ _ _ Hl Hl') as [-> ->]. rewrite app_nil_r in Ho. eauto.
  - intros [[m Hm] Ho]. right. eauto 10.
Qed.

Section Parse.
Context (self0 : lh_http_parser_t) (r : R) (headers : list lh_http_header_t) (capacity : Z).
Context (Hhm : 0 < lh_http_parser_get_head_size_max self0) (Hlm : 0 < lh_http_parser_get_line_size_max self0).
Context (Hcap : 0 <= capacity <= len headers).
(** The parser as a call begins. *)
Definition fresh : lh_http_parser_t :=
  mk_parser (lh_http_parser_get_head_size_max self0) (lh_http_parser_get_line_size_max self0) 0 0 lh_http_error_none.
Lemma begin_ok : lh_http_parser_begin (Some self0) true true capacity = (Some fresh, true).
Proof using Hhm Hlm.
  clear Hcap. unfold lh_http_parser_begin. cbn [negb orb andb].
  change (lh_http_parser_set_error (lh_http_parser_set_error_offset (lh_http_parser_set_consumed self0 0) 0) lh_http_error_none) with fresh.
  rewrite !(proj2 (Z.eqb_neq _ _)); [done|..]; unfold fresh, lh_http_parser_get_head_size_max, lh_http_parser_get_line_size_max in *; cbn; lia.
Qed.
Notation run input := (parse_head parse_line set_count (Some self0) input (Some r) (Some headers) capacity).
Lemma parse_head_spec input : is_bytes input -> fits input ->
  (exists w m hs rest, input = w ++ rest /\ head self0 capacity r w m hs /\
     run input = Done (Some (lh_http_parser_set_consumed fresh (len w)), Some m, Some (hs ++ drop (length hs) headers), lh_http_parse_complete)) \/
  (exists m headers', run input = Done (Some fresh, Some m, Some headers', lh_http_parse_incomplete) /\ length headers' = length headers /\
     (forall w m' hs rest, input = w ++ rest -> ~ head self0 capacity r w m' hs) /\ open_head self0 capacity r input) \/
  (exists m headers' e at_, run input = Done (Some (set_failed fresh e at_), Some m, Some headers', lh_http_parse_error) /\
     length headers' = length headers /\ e <> lh_http_error_none /\
     (forall ext w m' hs rest, input ++ ext = w ++ rest -> ~ head self0 capacity r w m' hs) /\ ~ open_head self0 capacity r input).
Proof using All.
  intros Hb Hf. unfold parse_head. change (bool_decide (is_Some (Some r))) with true.
  change (bool_decide (is_Some (Some headers))) with true. rewrite begin_ok. cbn [assert_set default]. rewrite bind_done.
  destruct (find_line_verdict fresh [] input 0) as [(line & tl & Hline & E)|[(E & Hno & Ho)|(e & at_ & E & He & Hno & Ho)]].
  { change (0 <= lh_http_parser_get_head_size_max self0). lia. }
  all: cbn [app] in E; change (len []) with 0 in E; rewrite E, bind_done; clear E.
  - change (negb (lh_http_parse_complete =? lh_http_parse_complete)) with false. cbv iota.
    pose proof (open_head_next self0 capacity r input line tl Hline) as Hopen.
    destruct Hline as (Ei & Hp & Hll & Hlh) eqn:Hd. clear Hd.
    assert (is_bytes line /\ is_bytes tl /\ fits line) as (Hbl & Hbt & Hfl).
    { rewrite Ei in Hb. apply Forall_app in Hb as [? Hb]. apply Forall_cons_1 in Hb as [_ Hb]. apply Forall_cons_1 in Hb as [_ Hb].
      split_and!; [done|done|]. unfold fits in *. rewrite Ei in Hf. lens. lia. }
    assert (forall ext w m hs rest, input ++ ext = w ++ rest -> head self0 capacity r w m hs -> exists w' m',
      start_line r line m' /\ w = line ++ CR :: LF :: w' /\ m = set_count m' (len hs) /\
      fields_at self0 (len line + 2) capacity (tl ++ ext) w' hs) as Hinv.
    { intros ext w m hs rest Ew Hh. destruct (head_first _ _ _ _ _ _ _ _ Ew Hh) as (l2 & tl2 & w' & m' & Hl2 & Hs & -> & -> & Hfs & Et).
      destruct (line_at_unique self0 0 input line tl l2 tl2 ext Hline Hl2) as [-> ->].
      exists w', m'. by split_and!. }
    destruct (Hparses fresh line (CR :: LF :: tl) r Hbl Hfl) as [(m & Hm & E)|(e & at_ & E & He & Hno)];
      rewrite <-Ei in E; rewrite Z.add_0_l, E, bind_done.
    2:{ right. right. do 4 eexists. split; [done|]. split; [done|]. split; [done|]. split; [|by intros [[m ?%Hno] _]%Hopen]. intros ext w m hs rest Ew Hh.
        destruct (Hinv _ _ _ _ _ Ew Hh) as (w' & m' & H & _). by apply Hno in H. }
    change (negb (lh_http_parse_complete =? lh_http_parse_complete)) with false. cbv iota.
    set (pre := line ++ [CR; LF]). assert (input = pre ++ tl) as Ei' by (unfold pre; by rewrite <-app_assoc).
    assert (len line + 2 = len pre) as Hpre by (unfold pre; lens; lia). rewrite Hpre in Hinv, Hopen |- *. unfold lh_http_parser_parse_fields.
    change (id headers) with headers.
    destruct (fields_loop_spec fresh (S (length (pre ++ tl))) pre tl [] headers capacity 0) as
      [(w & hs & Hfs & E2)|[(headers' & E2 & Hl & Hno & Ho)|(headers' & e & at_ & E2 & Hl & He & Hno & Ho)]];
      [lens; lia|change (len pre <= lh_http_parser_get_head_size_max self0); change (len line + 2 <= lh_http_parser_get_head_size_max self0) in Hlh; lia|done|by rewrite <-Ei'|cbn [length]; lia|cbn [app]; lia|..].
    all: rewrite Ei'; change (len (@nil lh_http_header_t)) with 0 in *; cbn [app] in E2; rewrite E2, bind_done; rewrite Z.sub_0_r in *.
    + left. exists (line ++ CR :: LF :: w), (set_count m (len hs)), hs. destruct Hfs as ([rest ->] & Hfs & Hwm & Hr). exists rest. split_and!.
      * unfold pre. by rewrite <-!app_assoc.
      * constructor; [done|apply Hll; by destruct (Hstart _ _ _ Hm)|done| |done].
        change (len pre + len w <= lh_http_parser_get_head_size_max self0) in Hwm. unfold pre in Hwm. lens. lia.
      * change (negb (lh_http_parse_complete =? lh_http_parse_complete)) with false. cbv iota. rewrite Z.add_0_l.
        by replace (len pre + len w) with (len (line ++ CR :: LF :: w)) by (unfold pre; lens; lia).
    + right. left. do 2 eexists. split; [done|]. split; [done|]. split; [|rewrite <-Ei'; apply Hopen; split; [by exists m|by apply (open_fields_limits fresh)]]. intros w m' hs rest Ew Hh. rewrite <-Ei', <-(app_nil_r input) in Ew.
      destruct (Hinv [] _ _ _ _ Ew Hh) as (w' & m2 & _ & _ & _ & H). rewrite app_nil_r in H. by eapply Hno.
    + right. right. do 4 eexists. split; [done|]. split; [done|]. split; [done|]. split; [|rewrite <-Ei'; intros [_ ?]%Hopen; apply Ho; by apply (open_fields_limits self0)]. intros ext w m' hs rest Ew Hh. rewrite <-Ei' in Ew.
      destruct (Hinv _ _ _ _ _ Ew Hh) as (w' & m2 & _ & _ & _ & H). by eapply Hno.
  - right. left. do 2 eexists. split; [done|]. split; [done|]. split; [|by left]. intros w m' hs rest Ew Hh.
    destruct (head_first _ _ _ _ _ _ _ _ Ew Hh) as (line & tl & ? & ? & Hline & _). by eapply (Hno line tl).
  - right. right. do 4 eexists. split; [done|]. split; [done|]. split; [done|].
    split; [|intros [?|(line & tl & m & Hline & _)]; [done|]; rewrite <-(app_nil_r input) in Hline; by apply (Hno [] line tl)]. intros ext w m' hs rest Ew Hh.
    destruct (head_first _ _ _ _ _ _ _ _ Ew Hh) as (line & tl & ? & ? & Hline & _). by eapply (Hno ext line tl).
Qed.
End Parse.

(** A text begins with at most one head, and that says one thing. *)
Lemma head_unique self room r w1 m1 hs1 r1 w2 m2 hs2 r2 :
  (forall line m1 m2, start_line r line m1 -> start_line r line m2 -> m1 = m2) ->
  head self room r w1 m1 hs1 -> head self room r w2 m2 hs2 -> w1 ++ r1 = w2 ++ r2 -> w1 = w2 /\ m1 = m2 /\ hs1 = hs2.
Proof using Hstart.
  intros Hfun H1 H2 E.
  destruct (head_first self room r (w1 ++ r1) w1 m1 hs1 r1 eq_refl H1) as (l1 & tl1 & w1' & m1' & Hl1 & Hs1 & -> & -> & Hf1 & Et1).
  destruct (head_first self room r _ w2 m2 hs2 r2 E H2) as (l2 & tl2 & w2' & m2' & Hl2 & Hs2 & -> & -> & Hf2 & Et2).
  destruct (line_at_unique self 0 _ _ _ l2 tl2 [] Hl1) as [-> ->]; [by rewrite app_nil_r|]. rewrite app_nil_r in *.
  destruct Hf1 as (_ & Hf1 & _). destruct (fields_unique self w1' hs1 Hf1 _ _ _ _ _ (ex_intro _ _ Et1) Hf2) as [-> ->].
  by rewrite (Hfun _ _ _ Hs1 Hs2).
Qed.
End Head.
