(* ===== verification/StartLine.v ===== *)
(** * The start lines of HTTP heads, and that heads survive the wire

    The grammar of the request line and of the status line, that the parsers of [Http]
    recognise them, and with [HeadProofs] what the two parsers of heads accept; then the
    round trip of a response from [HttpFormat] to the parser. *)
From stdpp Require Import strings.
From S2P Require Import Prelude Buffer Bytes Digits DigitsProofs Format FormatProofs StrPtr StrPtrProofs View ViewProofs Http HttpProofs HttpFormat Chunked ChunkedSpec ChunkedProofs HeadProofs.

(** ** Versions *)

Definition version_text (minor : Z) : list Z := version_prefix ++ [48 + minor].
Lemma parse_version_spec text :
  (exists minor, 0 <= minor <= 9 /\ text = version_text minor /\ lh_http_parse_version text = Done (Some minor)) \/
  (lh_http_parse_version text = Done None /\ forall minor, 0 <= minor <= 9 -> text <> version_text minor).
Proof.
  unfold lh_http_parse_version, lh_str_view_get_size. destruct (Z.eqb_spec (len text) 8) as [Hl|Hl]; cbn [negb].
  2:{ right. split; [done|]. intros minor _ ->. by cbn in Hl. }
  do 8 (destruct text as [|? text]; [done|]). destruct text; [|cbn [length] in Hl; lia].
  change (lh_str_view_starts_with [z; z0; z1; z2; z3; z4; z5; z6] version_prefix false)
    with (Done (bool_decide ([z; z0; z1; z2; z3; z4; z5] = version_prefix))). rewrite bind_done.
  case_bool_decide as Hv; cbn [negb].
  2:{ right. split; [done|]. intros minor _ E. apply Hv. by injection E as -> -> -> -> -> -> -> _. }
  change (lh_str_view_get_char_from_begin [z; z0; z1; z2; z3; z4; z5; z6] 7) with (Done z6). rewrite bind_done.
  injection Hv as -> -> -> -> -> -> ->. destruct (lh_char_is_digit z6) eqn:Hd; cbn [negb].
  - left. apply is_digit_spec in Hd. exists (z6 - 48). split; [lia|].
    destruct (to_digit_ok z6 (z6 - 48)) as [-> _]; [by apply dvalue_spec|]. split; [|done]. unfold version_text. cbn [app version_prefix].
    by replace (48 + (z6 - 48)) with z6 by lia.
  - right. split; [done|]. intros minor Hm E. injection E as ->. assert (lh_char_is_digit (48 + minor) = true); [|congruence].
    apply is_digit_spec. lia.
Qed.

(** ** The request line *)

Lemma target_end_spec post : forall fuel pre t, (length t < fuel)%nat ->
  target_end fuel (pre ++ t ++ post) (len (pre ++ t)) (len pre)
  = Done (let n := len (pre ++ while_in lh_http_is_target_char t) in
          match while_out lh_http_is_target_char t with
          | c :: _ => if c =? 32 then inl n else inr n
          | [] => inl n
          end).
Proof.
  induction fuel as [|fuel IH]; intros pre t Hf; [lia|]. cbn [target_end]. destruct t as [|c t].
  { rewrite app_nil_r. cbn [while_in while_out]. by rewrite Z.ltb_irrefl, app_nil_r. }
  rewrite (proj2 (Z.ltb_lt _ _)) by (rewrite length_app; cbn [length]; lia).
  rewrite (load_ok _ _ c) by (rewrite lookup_app_r, Nat.sub_diag by lia; done).
  rewrite bind_done. cbn [while_in while_out length] in *. change lh_char_map_space with 32.
  destruct (Z.eqb_spec c 32) as [->|Hc]; [by rewrite app_nil_r|].
  destruct (lh_http_is_target_char c); cbn [negb]; [|by rewrite app_nil_r, (proj2 (Z.eqb_neq _ _))].
  specialize (IH (pre ++ [c]) t). rewrite <-!app_assoc in IH. cbn [app] in IH.
  replace (len (pre ++ [c])) with (len pre + 1) in IH by (lens; lia). apply IH. lia.
Qed.
(** What a request line sets of the request [r]. *)
Inductive request_line (r : lh_http_request_t) : list Z -> lh_http_request_t -> Prop :=
  | request_line_intro method target minor : is_token method -> target <> [] -> all_in lh_http_is_target_char target -> 0 <= minor <= 9 ->
      request_line r (method ++ 32 :: target ++ 32 :: version_text minor)
        (mk_request method target minor (request_header_count r)).
Lemma version_plain minor : 0 <= minor <= 9 -> plain (version_text minor).
Proof. intros. unfold plain, version_text, version_prefix, CR, LF. repeat constructor; lia. Qed.
Lemma target_char_plain c : lh_http_is_target_char c = true -> c <> CR /\ c <> LF.
Proof. unfold lh_http_is_target_char, lh_char_map_exclamation, CR, LF. intros [H _]%andb_true_iff. rewrite Z.geb_leb in H. lia. Qed.
Lemma request_line_ok : start_line_ok request_line.
Proof.
  intros r line r' [method target minor [Hne Hm] _ Ht Hv]. split; [|by destruct method].
  apply plain_both. split; [by apply token_plain|]. apply plain_cons. split; [by unfold CR, LF|]. apply plain_both.
  split; [by apply (all_plain _ _ target_char_plain)|]. apply plain_cons. split; [by unfold CR, LF|]. by apply version_plain.
Qed.
Lemma request_line_inv r m u r' : all_in is_tchar m -> stops is_tchar u -> request_line r (m ++ u) r' ->
  m <> [] /\ exists a v minor, u = 32 :: a ++ 32 :: v /\ a <> [] /\ all_in lh_http_is_target_char a /\ 0 <= minor <= 9 /\ v = version_text minor.
Proof.
  intros Hm Hu H. remember (m ++ u) as l eqn:El. destruct H as [method target minor [Hne Hmt] Htn Ht Hv].
  pose proof (f_equal (while_in is_tchar) El) as E1. pose proof (f_equal (while_out is_tchar) El) as E2.
  rewrite !while_in_app in E1 by done. rewrite !while_out_app in E2 by done. subst. split; [done|eauto 10].
Qed.
(** A start line is refused at a place. *)
Lemma start_line_fails {R} (start : R -> list Z -> R -> Prop) (m : outcome (lh_http_parser_t * R * Z)) self r line at_ :
  (forall r', ~ start r line r') ->
  m = Done (set_failed self lh_http_error_start_line at_, r, lh_http_parse_error) ->
  (exists r', start r line r' /\ m = Done (self, r', lh_http_parse_complete)) \/
  (exists e at_, m = Done (set_failed self e at_, r, lh_http_parse_error) /\ e <> lh_http_error_none /\ forall r', ~ start r line r').
Proof. intros Hno ->. right. by do 2 eexists. Qed.
Lemma request_parses : parses_line lh_http_parser_parse_request_line request_line.
Proof.
  intros self line post r Hb Hf. unfold lh_http_parser_parse_request_line, lh_str_view_get_data. cbv zeta.
  pose proof (token_end_spec post (S (length (line ++ post))) [] line ltac:(lens; lia)) as Et.
  cbn [app] in Et. change (len []) with 0 in Et. rewrite Et, bind_done. clear Et.
  destruct (while_cases is_tchar line) as (m & u & -> & Hm & Hu & -> & _).
  pose proof (request_line_inv r m u) as Hinv.
  destruct (decide (m = [])) as [->|Hmn].
  { cbn [length orb]. change (Z.of_nat 0 =? 0) with true. cbn [orb]. rewrite bind_done.
    apply (start_line_fails _ _ _ _ _ 0); [|done]. intros r' H. by destruct (Hinv r' Hm Hu H). }
  rewrite (proj2 (Z.eqb_neq (len m) 0)) by (destruct m; [done|cbn [length]; lia]). cbn [orb].
  destruct u as [|c u].
  { rewrite app_nil_r in *. rewrite Z.eqb_refl, bind_done. apply (start_line_fails _ _ _ _ _ (len m)); [|done].
    intros r' H. destruct (Hinv r' Hm Hu) as (_ & ? & ? & ? & ? & _); [by rewrite ?app_nil_r|done]. }
  rewrite (proj2 (Z.eqb_neq _ _)) by (lens; lia).
  rewrite <-app_assoc. cbn [app]. rewrite (load_ok _ _ c) by (rewrite lookup_app_r, Nat.sub_diag by lia; done). rewrite bind_done.
  change (mret (negb (c =? lh_char_map_space))) with (Done (negb (c =? 32))). rewrite bind_done.
  destruct (Z.eqb_spec c 32) as [->|Hc]; cbn [negb].
  2:{ apply (start_line_fails _ _ _ _ _ (len m)); [|done]. intros r' H. destruct (Hinv r' Hm Hu H) as (_ & ? & ? & ? & [=] & _). done. }
  pose proof (target_end_spec post (S (length ((m ++ 32 :: u) ++ post))) (m ++ [32]) u ltac:(lens; lia)) as Et.
  rewrite <-!app_assoc in Et. cbn [app] in Et. replace (len (m ++ [32])) with (len m + 1) in Et by (lens; lia).
  rewrite Et, bind_done. clear Et.
  destruct (while_cases lh_http_is_target_char u) as (a & v & -> & Ha & Hv & -> & ->). cbv zeta.
  assert (forall r', request_line r (m ++ 32 :: a ++ v) r' -> a <> [] /\ exists minor, v = 32 :: version_text minor /\ 0 <= minor <= 9) as Hinv2.
  { intros r' H. destruct (Hinv r' Hm Hu H) as (_ & a' & v' & minor & [= E] & Hne & Ha' & Hmin & ->).
    pose proof (f_equal (while_in lh_http_is_target_char) E) as E1. pose proof (f_equal (while_out lh_http_is_target_char) E) as E2.
    rewrite !while_in_app in E1 by done. rewrite !while_out_app in E2 by done. subst. eauto. }
  clear Hinv. destruct v as [|c v].
  { rewrite app_nil_r in *. rewrite Z.eqb_refl, orb_true_r. apply (start_line_fails _ _ _ _ _ (len (m ++ 32 :: a))); [|done].
    intros r' H. by destruct (Hinv2 r' H) as (_ & ? & ? & _). }
  destruct (Z.eqb_spec c 32) as [->|Hc].
  2:{ apply (start_line_fails _ _ _ _ _ (len (m ++ 32 :: a))); [|done]. intros r' H. destruct (Hinv2 r' H) as (_ & ? & [=] & _). done. }
  destruct (decide (a = [])) as [->|Han].
  { rewrite (proj2 (Z.eqb_eq (len (m ++ [32])) (len m + 1))) by (lens; lia). cbn [orb].
    apply (start_line_fails _ _ _ _ _ (len (m ++ [32]))); [|done]. intros r' H. by destruct (Hinv2 r' H) as [? _]. }
  rewrite (proj2 (Z.eqb_neq (len (m ++ 32 :: a)) _)) by (destruct a; [done|lens; lia]).
  rewrite (proj2 (Z.eqb_neq (len (m ++ 32 :: a)) _)) by (lens; lia). cbn [orb].
  assert (m ++ 32 :: (a ++ 32 :: v) ++ post = (m ++ 32 :: a ++ [32]) ++ v ++ post) as E1.
  { rewrite <-!app_assoc. cbn [app]. by rewrite <-!app_assoc. }
  rewrite E1, (from_offset_app _ v post (len (m ++ 32 :: a) + 1)), bind_done by (lens; lia).
  destruct (parse_version_spec v) as [(minor & Hmin & -> & ->)|[-> Hno]]; rewrite bind_done.
  2:{ apply (start_line_fails _ _ _ _ _ (len (m ++ 32 :: a))); [|done]. intros r' H.
      destruct (Hinv2 r' H) as (_ & minor & [= ->] & Hmin). by eapply Hno. }
  left. exists (mk_request m a minor (request_header_count r)). split; [by constructor|].
  rewrite <-E1, (from_offset_prefix m), bind_done by done.
  assert (m ++ 32 :: (a ++ 32 :: version_text minor) ++ post = (m ++ [32]) ++ a ++ 32 :: version_text minor ++ post) as ->.
  { by rewrite <-!app_assoc. }
  by rewrite from_offset_app, bind_done by (lens; lia).
Qed.

(** ** The status line *)

Inductive status_line (r : lh_http_response_t) : list Z -> lh_http_response_t -> Prop :=
  | status_line_intro minor a b c reason : 0 <= minor <= 9 -> 1 <= a <= 5 -> 0 <= b <= 9 -> 0 <= c <= 9 -> all_in lh_http_is_field_char reason ->
      status_line r (version_text minor ++ 32 :: 48 + a :: 48 + b :: 48 + c :: 32 :: reason)
        (mk_response reason (a * 100 + b * 10 + c) minor (response_header_count r)).
Lemma status_line_ok : start_line_ok status_line.
Proof.
  intros r line r' [minor a b c reason Hv Ha Hb Hc Hr]. split; [|by unfold version_text, version_prefix]. apply plain_both. split; [by apply version_plain|].
  repeat (apply plain_cons; split; [unfold CR, LF; lia|]). by apply field_chars_plain.
Qed.
Lemma digit_inv c : lh_char_is_digit c = true -> exists d, c = 48 + d /\ 0 <= d <= 9 /\ lh_char_to_digit c = Done d.
Proof.
  intros H%is_digit_spec. exists (c - 48). destruct (to_digit_ok c (c - 48)) as [-> _]; [by apply dvalue_spec|]. split_and!; [lia..|done].
Qed.
Lemma digit_is d : 0 <= d <= 9 -> lh_char_is_digit (48 + d) = true.
Proof. intros. apply is_digit_spec. lia. Qed.
Lemma to_digit_48 d : 0 <= d <= 9 -> lh_char_to_digit (48 + d) = Done d.
Proof. intros H. destruct (digit_inv _ (digit_is d H)) as (e & E & _ & ->). by replace e with d by lia. Qed.
(** The checks after the version of a status line. *)
Definition bad_status (c8 c9 c10 c11 c12 : Z) : bool :=
  negb (c8 =? 32) || (c9 <? 49) || (c9 >? 53) || negb (lh_char_is_digit c10) || negb (lh_char_is_digit c11) || negb (c12 =? 32).
Lemma bad_status_spec c8 c9 c10 c11 c12 : bad_status c8 c9 c10 c11 c12 = false <->
  c8 = 32 /\ c12 = 32 /\ exists a b c, 1 <= a <= 5 /\ 0 <= b <= 9 /\ 0 <= c <= 9 /\ c9 = 48 + a /\ c10 = 48 + b /\ c11 = 48 + c.
Proof.
  unfold bad_status. rewrite !orb_false_iff, !negb_false_iff, !Z.eqb_eq, Z.ltb_ge, Z.gtb_ltb, Z.ltb_ge. split.
  - intros (((((-> & H1) & H2) & (b & -> & Hb & _)%digit_inv) & (c & -> & Hc & _)%digit_inv) & ->). split_and!; [done..|].
    exists (c9 - 48), b, c. split_and!; lia.
  - intros (-> & -> & a & b & c & Ha & Hb & Hc & -> & -> & ->). rewrite !digit_is by lia. split_and!; lia || done.
Qed.
Lemma status_parses : parses_line lh_http_parser_parse_status_line status_line.
Proof.
  intros self line post r Hb Hf. unfold lh_http_parser_parse_status_line, lh_str_view_get_data. cbv zeta.
  assert (forall r', status_line r line r' -> exists minor c9 c10 c11 reason, 0 <= minor <= 9 /\
    line = version_text minor ++ 32 :: c9 :: c10 :: c11 :: 32 :: reason /\ bad_status 32 c9 c10 c11 32 = false /\ all_in lh_http_is_field_char reason) as Hinv.
  { intros r' [minor a b c reason Hv Ha Hb' Hc Hr]. exists minor, (48 + a), (48 + b), (48 + c), reason.
    split; [done|]. split; [done|]. split; [|done]. apply bad_status_spec. split; [done|]. split; [done|]. by exists a, b, c. }
  destruct (Z.ltb_spec (len line) 13) as [Hl|Hl].
  { apply (start_line_fails _ _ _ _ _ 0); [|done]. intros r' (minor & c9 & c10 & c11 & reason & _ & -> & _)%Hinv. cbn in Hl. lia. }
  assert (exists v c8 c9 c10 c11 c12 reason, len v = 8 /\ line = v ++ c8 :: c9 :: c10 :: c11 :: c12 :: reason) as
    (v & c8 & c9 & c10 & c11 & c12 & reason & Hv & ->).
  { exists (take 8 line). pose proof (length_drop line 8) as Hd. pose proof (take_drop 8 line) as E. pose proof (length_take line 8) as Ht.
    destruct (drop 8 line) as [|c8 [|c9 [|c10 [|c11 [|c12 reason]]]]]; cbn [length] in Hd; [lia..|].
    exists c8, c9, c10, c11, c12, reason. split; [lia|done]. }
  assert (forall minor c9' c10' c11' reason', v ++ c8 :: c9 :: c10 :: c11 :: c12 :: reason = version_text minor ++ 32 :: c9' :: c10' :: c11' :: 32 :: reason' ->
    v = version_text minor /\ c8 = 32 /\ c9 = c9' /\ c10 = c10' /\ c11 = c11' /\ c12 = 32 /\ reason = reason') as Heq.
  { intros minor c9' c10' c11' reason' E. apply app_inj_1 in E as [-> E]; [|change (length (version_text minor)) with 8%nat; lia]. by injection E. }
  rewrite <-app_assoc. cbn [app]. rewrite (from_offset_prefix v), bind_done by lia.
  destruct (parse_version_spec v) as [(minor & Hmin & Ev & ->)|[-> Hno]]; rewrite bind_done.
  2:{ apply (start_line_fails _ _ _ _ _ 0); [|done]. intros r' (minor & ? & ? & ? & ? & Hmin & [-> _]%Heq & _)%Hinv. by eapply (Hno minor). }
  assert (forall k c, 8 <= k -> (c8 :: c9 :: c10 :: c11 :: c12 :: reason ++ post) !! Z.to_nat (k - 8) = Some c ->
    load (v ++ c8 :: c9 :: c10 :: c11 :: c12 :: reason ++ post) k = Done c) as Hload.
  { intros k c Hk Hi. replace k with (Z.of_nat (length v + Z.to_nat (k - 8))) by lia. apply load_ok.
    rewrite lookup_app_r by lia. by replace (length v + Z.to_nat (k - 8) - length v)%nat with (Z.to_nat (k - 8)) by lia. }
  rewrite (Hload 8 c8), bind_done, (Hload 9 c9), bind_done, (Hload 10 c10), bind_done, (Hload 11 c11), bind_done, (Hload 12 c12), bind_done by done.
  change lh_char_map_space with 32. change lh_char_map_digit_1 with 49. change lh_char_map_digit_5 with 53.
  fold (bad_status c8 c9 c10 c11 c12). destruct (bad_status c8 c9 c10 c11 c12) eqn:Hbad.
  { apply (start_line_fails _ _ _ _ _ 0); [|done]. intros r' (? & ? & ? & ? & ? & _ & (_ & -> & -> & -> & -> & -> & _)%Heq & H & _)%Hinv. congruence. }
  apply bad_status_spec in Hbad as (-> & -> & a & b & c & Ha & Hb' & Hc & -> & -> & ->).
  pose proof (bad_char_spec lh_http_is_field_char post (S (length (v ++ 32 :: 48 + a :: 48 + b :: 48 + c :: 32 :: reason ++ post)))
    (v ++ [32; 48 + a; 48 + b; 48 + c; 32]) reason ltac:(lens; lia)) as Hbc.
  rewrite <-!app_assoc in Hbc. cbn [app] in Hbc. replace (len (v ++ [32; 48 + a; 48 + b; 48 + c; 32])) with 13 in Hbc by (lens; lia).
  rewrite Hbc, bind_done. clear Hbc. case_decide as Hw.
  2:{ eapply start_line_fails; [|done]. intros r' (? & ? & ? & ? & ? & _ & (_ & _ & _ & _ & _ & _ & ->)%Heq & _ & H)%Hinv.
      by apply Hw, while_out_nil. }
  apply while_out_nil in Hw. left. exists (mk_response reason (a * 100 + b * 10 + c) minor (response_header_count r)).
  split; [rewrite Ev; by constructor|]. rewrite (to_digit_48 a), bind_done, (to_digit_48 b), bind_done, (to_digit_48 c), bind_done by lia.
  rewrite u16_id by zb.
  assert (v ++ 32 :: 48 + a :: 48 + b :: 48 + c :: 32 :: reason ++ post = (v ++ [32; 48 + a; 48 + b; 48 + c; 32]) ++ reason ++ post) as ->.
  { by rewrite <-!app_assoc. }
  by rewrite from_offset_app, bind_done by (lens; lia).
Qed.

(** A line says one thing. *)
Lemma request_line_functional r line m1 m2 : request_line r line m1 -> request_line r line m2 -> m1 = m2.
Proof.
  intros [method target minor [Hne Hm] Htn Ht Hv] H2. remember (method ++ 32 :: target ++ 32 :: version_text minor) as l eqn:El.
  destruct H2 as [method' target' minor' [Hne' Hm'] Htn' Ht' Hv'].
  pose proof (f_equal (while_in is_tchar) El) as E1. pose proof (f_equal (while_out is_tchar) El) as E2.
  rewrite !while_in_app in E1 by done. rewrite !while_out_app in E2 by done. injection E2 as E2.
  pose proof (f_equal (while_in lh_http_is_target_char) E2) as E3. pose proof (f_equal (while_out lh_http_is_target_char) E2) as E4.
  rewrite !while_in_app in E3 by done. rewrite !while_out_app in E4 by done. unfold version_text in E4. injection E4 as E4.
  rewrite E1, E3. by replace minor with minor' by lia.
Qed.
Lemma status_line_functional r line m1 m2 : status_line r line m1 -> status_line r line m2 -> m1 = m2.
Proof.
  intros [minor a b c reason Hv Ha Hb Hc Hr] H2. remember (version_text minor ++ _) as l eqn:El.
  destruct H2 as [minor' a' b' c' reason' Hv' Ha' Hb' Hc' Hr'].
  apply app_inj_1 in El as [E1 E2]; [|done]. unfold version_text in E1. injection E1 as E1. injection E2 as E2 E3 E4 ->.
  f_equal; lia.
Qed.

(** ** Heads *)

(** What a parser of heads answers to an input, for the grammar of its start line: it
    accepts the head the input begins with and sets the message and the fields; it says that
    more has to arrive if the input is in order and breaks off ([open_head]); else it is an
    error, and nothing that arrives makes a head. *)
Definition head_verdict {R} (start_line : R -> list Z -> R -> Prop) (set_count : R -> Z -> R)
    (parse : option lh_http_parser_t -> lh_str_view_t -> option R -> option (list lh_http_header_t) -> Z ->
      outcome (option lh_http_parser_t * option R * option (list lh_http_header_t) * Z))
    (self : lh_http_parser_t) (r : R) (headers : list lh_http_header_t) (capacity : Z) (input : list Z) : Prop :=
  let head := head set_count start_line self capacity r in
  let run := parse (Some self) input (Some r) (Some headers) capacity in
  (exists w m hs rest, input = w ++ rest /\ head w m hs /\
     (forall w' m' hs' rest', input = w' ++ rest' -> head w' m' hs' -> w' = w /\ m' = m /\ hs' = hs) /\
     run = Done (Some (lh_http_parser_set_consumed (fresh self) (len w)), Some m, Some (hs ++ drop (length hs) headers), lh_http_parse_complete)) \/
  (exists m headers', run = Done (Some (fresh self), Some m, Some headers', lh_http_parse_incomplete) /\ length headers' = length headers /\
     (forall w m' hs rest, input = w ++ rest -> ~ head w m' hs) /\ open_head start_line self capacity r input) \/
  (exists m headers' e at_, run = Done (Some (set_failed (fresh self) e at_), Some m, Some headers', lh_http_parse_error) /\
     length headers' = length headers /\ e <> lh_http_error_none /\
     (forall ext w m' hs rest, input ++ ext = w ++ rest -> ~ head w m' hs) /\ ~ open_head start_line self capacity r input).
Lemma head_verdict_intro {R} (start_line : R -> list Z -> R -> Prop) set_count parse_line self r headers capacity input :
  start_line_ok start_line -> parses_line parse_line start_line ->
  (forall line m1 m2, start_line r line m1 -> start_line r line m2 -> m1 = m2) ->
  0 < lh_http_parser_get_head_size_max self -> 0 < lh_http_parser_get_line_size_max self -> 0 <= capacity <= len headers ->
  is_bytes input -> fits input ->
  head_verdict start_line set_count (parse_head parse_line set_count) self r headers capacity input.
Proof.
  intros Hs Hp Hfun Hh Hl Hc Hb Hf.
  destruct (parse_head_spec parse_line set_count start_line Hs Hp self r headers capacity Hh Hl Hc input Hb Hf) as [(w & m & hs & rest & E & H & Hr)|H];
    [left|by right].
  exists w, m, hs, rest. split_and!; try done. intros w' m' hs' rest' E' H'. rewrite E in E'.
  destruct (head_unique set_count start_line Hs self capacity r w m hs rest w' m' hs' rest' Hfun H H' E') as (-> & -> & ->). done.
Qed.

(** Claim C18: the parser recognises heads.  For every input, limits and room for fields, of
    requests and of responses: the head the input begins with, if it begins with one within
    the limits, is consumed, and the message and the fields are what it says.  If not, the
    status is incomplete exactly if the input is whole lines that are in order and within the
    limits and then a line that breaks off ([open_head]; what is in that line is looked at
    when it has ended), and an error with its kind and place in every other case, where
    nothing that arrives makes it a head.  What a head says is unique; no check fails, and
    nothing outside the input and the room is touched. *)
Theorem heads_are_standard self headers capacity input request response :
  0 < lh_http_parser_get_head_size_max self -> 0 < lh_http_parser_get_line_size_max self -> 0 <= capacity <= len headers ->
  is_bytes input -> fits input ->
  head_verdict request_line lh_http_request_set_header_count lh_http_parser_request self request headers capacity input /\
  head_verdict status_line lh_http_response_set_header_count lh_http_parser_response self response headers capacity input.
Proof.
  intros. split; apply head_verdict_intro; try done.
  - apply request_line_ok.
  - apply request_parses.
  - apply request_line_functional.
  - apply status_line_ok.
  - apply status_parses.
  - apply status_line_functional.
Qed.
(** "GET /x HTTP/1.1 CRLF a: b CRLF CRLF" and a byte of the body. *)
Definition get_text : list Z := literal "GET /x HTTP/1.1" ++ [13; 10] ++ literal "a: b" ++ [13; 10; 13; 10; 33].
Lemma heads_are_standard_witness :
  head_verdict request_line lh_http_request_set_header_count lh_http_parser_request (mk_parser 64 32 0 0 0)
    (mk_request [] [] 0 0) [no_header] 1 get_text /\
  lh_http_parser_request (Some (mk_parser 64 32 0 0 0)) get_text (Some (mk_request [] [] 0 0)) (Some [no_header]) 1
  = Done (Some (mk_parser 64 32 25 0 0), Some (mk_request (literal "GET") (literal "/x") 1 1),
          Some [mk_header (literal "a") (literal "b")], lh_http_parse_complete).
Proof.
  split; [|by vm_compute]. apply (heads_are_standard _ _ _ _ _ (mk_response [] 0 0 0)).
  - by vm_compute.
  - by vm_compute.
  - by split; vm_compute.
  - unfold get_text, is_bytes. repeat apply Forall_app_2; try apply literal_bytes; repeat (apply Forall_cons_2; [by vm_compute|]); apply Forall_nil_2.
  - by vm_compute.
Defined.
