(* ===== verification/HttpFormatProofs.v ===== *)
(** * Heads of responses as text: correctness

    Each piece of a head [writes] its text behind what was written, as much of it as fits;
    without a buffer it counts.  Then the round trip: the parser of [Http] reads the head
    that [HttpFormat] writes back to the same response and fields. *)
From stdpp Require Import strings.
From S2P Require Import Prelude Buffer Bytes Digits DigitsProofs Format FormatProofs StrPtr StrPtrProofs View ViewProofs Http HttpProofs HttpFormat Chunked ChunkedSpec ChunkedProofs HeadProofs StartLine.

(** ** Pieces *)

Section Write.
Context (b : option buffer) (size : Z).

(** With [p] written before: all of [t] when it fits, and otherwise a prefix and failure. *)
Definition writes (pc : piece) (t : list Z) : Prop := forall p, room_ok b size p t ->
  if too_long b size p t then exists q, q `prefix_of` t /\ pc (dest b p) (len p) = Done (dest b (p ++ q), len (p ++ q), false)
  else pc (dest b p) (len p) = Done (dest b (p ++ t), len (p ++ t), true).

Lemma writes_result pc t : (forall p, room_ok b size p t -> pc (dest b p) (len p) = Done (put_result b size p t)) -> writes pc t.
Proof using.
  intros H p Hr. rewrite H by done. unfold put_result. destruct (too_long b size p t); [|done].
  exists []. split; [apply prefix_nil|]. by rewrite app_nil_r.
Qed.
Lemma writes_text t : writes (put_text t size) t.
Proof using. apply writes_result. intros p Hr. unfold put_text. rewrite <-(app_nil_r t) at 1. by apply put_text_spec. Qed.
Lemma writes_char ch : is_u8 ch -> writes (put_char ch size) [ch].
Proof using. intros Hc. apply writes_result. intros p Hr. exact (put_run_spec b size p ch 1 Hc Hr). Qed.
Lemma writes_nothing pc : (forall out offset, pc out offset = Done (out, offset, true)) -> writes pc [].
Proof using.
  intros H p Hr. rewrite H, app_nil_r. unfold too_long, room_ok in *. destruct b; [|done].
  by rewrite (proj2 (Z.ltb_ge _ _)) by (cbn [length]; lia).
Qed.
Lemma writes_some t : writes (put_some t size) t.
Proof using.
  unfold put_some, lh_str_view_get_size. destruct t as [|c t]; [by apply writes_nothing|]. apply writes_text.
Qed.
Lemma room_split p t u : room_ok b size p (t ++ u) -> room_ok b size p t /\
  (too_long b size p t = true -> too_long b size p (t ++ u) = true) /\
  (too_long b size p t = false -> room_ok b size (p ++ t) u /\ too_long b size (p ++ t) u = too_long b size p (t ++ u)).
Proof using.
  unfold room_ok, too_long. destruct b as [d|]; rewrite !length_app.
  - intros (? & ? & ?). rewrite !Z.ltb_lt, Z.ltb_ge. split_and!; [lia..|]. intros ?. split_and!; [lia..|]. f_equal. lia.
  - intros ?. split_and!; [lia|done|]. intros _. split; [lia|done].
Qed.
Lemma writes_app pc1 pc2 t u : writes pc1 t -> writes pc2 u ->
  writes (fun out offset => '(out, offset, ok) ← pc1 out offset; if ok : bool then pc2 out offset else mret (out, offset, false)) (t ++ u).
Proof using.
  intros H1 H2 p Hr. destruct (room_split _ _ _ Hr) as (Hr1 & Ht & Hf). specialize (H1 p Hr1).
  destruct (too_long b size p t) eqn:E1.
  - rewrite Ht by done. destruct H1 as (q & Hq & ->). exists q. split; [by apply prefix_app_r|]. done.
  - rewrite H1, bind_done. destruct (Hf eq_refl) as [Hr2 <-]. specialize (H2 (p ++ t) Hr2).
    destruct (too_long b size (p ++ t) u).
    + destruct H2 as (q & Hq & ->). exists (t ++ q). split; [by apply prefix_app|]. by rewrite app_assoc.
    + by rewrite H2, app_assoc.
Qed.
Lemma writes_all pieces texts : Forall2 writes pieces texts -> writes (put_all pieces) (concat texts).
Proof using.
  induction 1 as [|pc t pieces texts Hpc _ IH]; [by apply writes_nothing|]. cbn [put_all concat]. by apply writes_app.
Qed.

(** Piece by piece. *)
Ltac pieces := repeat (apply Forall2_cons_2; [first [apply writes_text|apply writes_char; first [by vm_compute|zb]|apply writes_some]|]); apply Forall2_nil_2.

(** ** Lines *)

Definition header_text (h : lh_http_header_t) : list Z := header_name h ++ [58; 32] ++ header_value h ++ crlf.
Lemma writes_header h : writes (fun out offset => lh_http_format_try_header h out size offset) (header_text h).
Proof using.
  assert (header_text h = concat [header_name h; [58]; [32]; header_value h; crlf]) as ->.
  { unfold header_text. cbn [concat]. by rewrite app_nil_r. }
  apply writes_all. pieces.
Qed.
Lemma writes_headers hs : forall pre post,
  writes (put_headers (length hs) (pre ++ hs ++ post) (len pre) size) (concat (header_text <$> hs)).
Proof using.
  induction hs as [|h hs IH]; intros pre post; cbn [length]; [by apply writes_nothing|].
  specialize (IH (pre ++ [h]) post). rewrite <-app_assoc in IH. cbn [app] in IH.
  replace (len (pre ++ [h])) with (len pre + 1) in IH by (lens; lia). rewrite fmap_cons. cbn [concat].
  pose proof (writes_app _ _ _ _ (writes_header h) IH) as H. intros p Hr. specialize (H p Hr). cbn [put_headers].
  rewrite (load_ok _ _ h) by (rewrite lookup_app_r, Nat.sub_diag by lia; done). rewrite bind_done. exact H.
Qed.

Definition response_ok (r : lh_http_response_t) : Prop :=
  100 <= response_status r <= 599 /\ 0 <= response_version_minor r <= 9.
Definition status_text (r : lh_http_response_t) : list Z :=
  version_text (response_version_minor r) ++ [32] ++ decimal (response_status r) ++ [32] ++ response_reason r ++ crlf.
Lemma writes_status_line r : response_ok r ->
  writes (fun out offset => lh_http_format_try_status_line r out size offset) (status_text r).
Proof using.
  intros [Hs Hm].
  assert (status_text r = concat [literal "HTTP/1."; [48 + response_version_minor r]; [32]; decimal (response_status r); [32]; response_reason r; crlf]) as ->.
  { unfold status_text, version_text. cbn [concat]. by rewrite app_nil_r, <-!app_assoc. }
  assert (writes (put_all [put_text (literal "HTTP/1.") size; put_char (48 + response_version_minor r) size; put_char lh_char_map_space size;
    put_text (decimal (response_status r)) size; put_char lh_char_map_space size; put_some (response_reason r) size; put_text crlf size])
    (concat [literal "HTTP/1."; [48 + response_version_minor r]; [32]; decimal (response_status r); [32]; response_reason r; crlf])) as H.
  { apply writes_all. pieces. }
  intros p Hr. specialize (H p Hr). unfold lh_http_format_try_status_line. cbv zeta.
  unfold lh_http_response_get_status, lh_http_response_get_version_minor, lh_http_response_get_reason.
  assert (is_u32 (response_status r)) as Hu by zb. assert (len (decimal (response_status r)) <= 3) as Hd.
  { apply (decimal_length_pow _ 3); [|lia]. change (10 ^ Z.of_nat 3) with 1000. lia. }
  unfold lh_http_status_is_valid, between. rewrite !(proj2 (Z.leb_le _ _)) by lia. cbn [andb negb orb]. change LH_STR_FORMAT_UINT_DIGITS_MAX with 12.
  rewrite format_uint_spec, bind_done by (done || (change (len (local 12)) with 12; lia)).
  rewrite (proj2 (Z.ltb_ge _ _)) by lia. cbn [assert_set]. rewrite bind_done, Nat2Z.id, take_filled.
  unfold lh_char_from_digit, fail_if. rewrite Z.gtb_ltb, (proj2 (Z.ltb_ge _ _)), bind_done by lia. exact H.
Qed.
End Write.
Lemma try_status_line_refuses r out size offset : ~ response_ok r ->
  lh_http_format_try_status_line r out size offset = Done (out, offset, false).
Proof.
  intros Hno. unfold lh_http_format_try_status_line. cbv zeta. unfold lh_http_status_is_valid, between, lh_http_response_get_status, lh_http_response_get_version_minor.
  unfold response_ok in Hno. destruct (Z.leb_spec 100 (response_status r)), (Z.leb_spec (response_status r) 599), (Z.leb_spec 0 (response_version_minor r)),
    (Z.leb_spec (response_version_minor r) 9); try done; exfalso; apply Hno; lia.
Qed.

(** ** The head of a response *)

Definition response_text (r : lh_http_response_t) (hs : list lh_http_header_t) : list Z :=
  status_text r ++ concat (header_text <$> hs) ++ crlf.
Lemma writes_head b size r hs extra : response_ok r -> response_header_count r = len hs ->
  writes b size (fun out offset => lh_http_format_try_response_head r (hs ++ extra) out size offset) (response_text r hs).
Proof.
  intros Hr Hc. assert (response_text r hs = concat [status_text r; concat (header_text <$> hs); crlf]) as ->.
  { unfold response_text. cbn [concat]. by rewrite app_nil_r. }
  apply writes_all. unfold lh_http_response_get_header_count. rewrite Hc, Nat2Z.id. apply Forall2_cons_2; [by apply writes_status_line|].
  apply Forall2_cons_2; [exact (writes_headers b size hs [] extra)|].
  apply Forall2_cons_2; [apply writes_text|apply Forall2_nil_2].
Qed.

(** ** What is read back *)

(** A response whose text is read back: a reason of field characters, fields with names
    that are tokens and values without spaces around them, of which each has been counted. *)
Record sendable (r : lh_http_response_t) (hs : list lh_http_header_t) : Prop := {
  sendable_ok : response_ok r;
  sendable_reason : all_in lh_http_is_field_char (response_reason r);
  sendable_count : response_header_count r = len hs;
  sendable_fields : Forall (fun h => is_token (header_name h) /\ all_in lh_http_is_field_char (header_value h) /\
                                     trim (header_value h) = header_value h) hs
}.
(** The lines and the whole are within the limits of a parser. *)
Definition lines_fit (self : lh_http_parser_t) (r : lh_http_response_t) (hs : list lh_http_header_t) : Prop :=
  len (status_text r) - 2 <= lh_http_parser_get_line_size_max self /\
  Forall (fun h => len (header_text h) - 2 <= lh_http_parser_get_line_size_max self) hs /\
  len (response_text r hs) <= lh_http_parser_get_head_size_max self.

Lemma decimal_status s : 100 <= s <= 599 ->
  exists a b c, 1 <= a <= 5 /\ 0 <= b <= 9 /\ 0 <= c <= 9 /\ decimal s = [48 + a; 48 + b; 48 + c] /\ s = a * 100 + b * 10 + c.
Proof.
  intros Hs. assert (forallb (fun s => bool_decide (decimal s = [48 + s / 100; 48 + s / 10 mod 10; 48 + s mod 10])) (seqZ 100 500) = true) as H
    by (vm_compute; done).
  rewrite forallb_forall in H. specialize (H s). rewrite bool_decide_eq_true in H. rewrite <-list_elem_of_In, elem_of_seqZ in H.
  exists (s / 100), (s / 10 mod 10), (s mod 10).
  pose proof (Z.div_mod s 100). pose proof (Z.div_mod s 10). pose proof (Z.div_mod (s / 10) 10).
  pose proof (Z.mod_pos_bound s 10). pose proof (Z.mod_pos_bound (s / 10) 10). pose proof (Z.mod_pos_bound s 100).
  assert (s / 100 = s / 10 / 10) by (rewrite Z.div_div; done). split_and!; try lia. apply H. lia.
Qed.
Lemma trim_space v : trim (32 :: v) = trim v.
Proof. done. Qed.
Lemma header_line n v w : header_text (mk_header n v) ++ w = (n ++ 58 :: 32 :: v) ++ CR :: LF :: w.
Proof. unfold header_text. cbn [header_name header_value app]. rewrite <-!app_assoc. cbn [app]. by rewrite <-app_assoc. Qed.
Lemma fields_text m hs : Forall (fun h => is_token (header_name h) /\ all_in lh_http_is_field_char (header_value h) /\ trim (header_value h) = header_value h) hs ->
  Forall (fun h => len (header_text h) - 2 <= m) hs -> fields m (concat (header_text <$> hs) ++ crlf) hs.
Proof.
  intros H. induction H as [|[n v] hs (Hn & Hv & Ht) _ IH]; intros Hl; [constructor|].
  apply Forall_cons_1 in Hl as [Hl Hls]. specialize (IH Hls). cbn [header_name header_value] in *.
  assert (all_in lh_http_is_field_char (32 :: v)) as Hv2 by by constructor.
  assert (forall w, len (n ++ 58 :: 32 :: v) <= m -> fields m w hs -> fields m ((n ++ 58 :: 32 :: v) ++ CR :: LF :: w) (field_of n (32 :: v) :: hs)) as H
    by (intros; by apply fields_more). unfold field_of in H. rewrite trim_space, Ht in H.
  rewrite fmap_cons. cbn [concat]. rewrite <-app_assoc, header_line. apply H; [|done].
  unfold header_text, crlf in Hl. cbn [header_name header_value] in Hl. lens. lia.
Qed.
Lemma text_is_head self room r0 r hs : sendable r hs -> lines_fit self r hs -> len hs <= room ->
  head lh_http_response_set_header_count status_line self room r0 (response_text r hs) r hs.
Proof.
  intros [[Hs Hm] Hr Hc Hf] (Hl1 & Hl2 & Hl3) Hroom. destruct r as [reason s minor count]. cbn in Hs, Hm, Hr, Hc. subst count.
  destruct (decimal_status s Hs) as (a & b & c & Ha & Hb & Hc & Hd & ->).
  pose proof (status_line_intro r0 minor a b c reason Hm Ha Hb Hc Hr) as Hsl.
  pose proof (fields_text (lh_http_parser_get_line_size_max self) hs Hf Hl2) as Hfs.
  set (r := mk_response reason (a * 100 + b * 10 + c) minor (len hs)) in *.
  set (line := version_text minor ++ 32 :: 48 + a :: 48 + b :: 48 + c :: 32 :: reason) in *.
  assert (status_text r = line ++ [CR; LF]) as Est.
  { unfold status_text, line, r. cbn [response_reason response_status response_version_minor]. rewrite Hd, <-!app_assoc. done. }
  assert (response_text r hs = line ++ CR :: LF :: concat (header_text <$> hs) ++ crlf) as Et.
  { unfold response_text. by rewrite Est, <-app_assoc. }
  rewrite Et in *. rewrite Est in Hl1. apply (head_intro lh_http_response_set_header_count _ self room r0 _ _ _ hs Hsl); [lens; lia|done|done|done].
Qed.

(** Claim C19: the head of a response survives the wire.  Formatting writes its text behind what
    was written when there is room, and otherwise a prefix and reports failure; without a
    buffer it counts the text; a status or a version outside its range is refused.  The
    parser, within its limits, reads the text back, whatever follows it, to the same
    response and the same fields, and consumes exactly the text. *)
Theorem response_survives_wire r hs extra : sendable r hs ->
  (forall b size p, room_ok b size p (response_text r hs) ->
     if too_long b size p (response_text r hs)
     then exists q, q `prefix_of` response_text r hs /\
       lh_http_format_try_response_head r (hs ++ extra) (dest b p) size (len p) = Done (dest b (p ++ q), len (p ++ q), false)
     else lh_http_format_try_response_head r (hs ++ extra) (dest b p) size (len p)
          = Done (dest b (p ++ response_text r hs), len (p ++ response_text r hs), true)) /\
  (forall bad out size offset, ~ response_ok bad ->
     lh_http_format_try_response_head bad (hs ++ extra) out size offset = Done (out, offset, false)) /\
  (forall self r0 headers capacity rest, lines_fit self r hs -> len hs <= capacity <= len headers ->
     is_bytes (response_text r hs ++ rest) -> fits (response_text r hs ++ rest) ->
     lh_http_parser_response (Some self) (response_text r hs ++ rest) (Some r0) (Some headers) capacity
     = Done (Some (lh_http_parser_set_consumed (fresh self) (len (response_text r hs))), Some r,
             Some (hs ++ drop (length hs) headers), lh_http_parse_complete)).
Proof.
  intros Hs. split; [|split].
  - intros b size. apply writes_head; by destruct Hs.
  - intros bad out size offset Hbad. unfold lh_http_format_try_response_head. cbn [put_all]. rewrite try_status_line_refuses by done.
    done.
  - intros self r0 headers capacity rest Hl Hc Hb Hf. pose proof (text_is_head self capacity r0 r hs Hs Hl) as Hh.
    assert (0 < len (status_text r) - 2) as Hpos.
    { unfold status_text, version_text, version_prefix, crlf. lens. lia. }
    assert (head_verdict status_line lh_http_response_set_header_count lh_http_parser_response self r0 headers capacity (response_text r hs ++ rest)) as H.
    { destruct Hl as (H1 & _ & H3). unfold response_text in H3. apply head_verdict_intro; try done; [apply status_line_ok|apply status_parses|
        apply status_line_functional|lens; lia|lia|lia]. }
    destruct H as [(w & m & hs' & rest' & E & _ & Huniq & Hrun)|[(m & headers' & _ & _ & Hno & _)|(m & headers' & e & at_ & _ & _ & _ & Hno & _)]].
    + destruct (Huniq _ _ _ rest eq_refl (Hh ltac:(lia))) as (<- & <- & <-). exact Hrun.
    + by destruct (Hno _ _ _ rest eq_refl (Hh ltac:(lia))).
    + destruct (Hno [] (response_text r hs) r hs rest); [by rewrite app_nil_r|apply Hh; lia].
Qed.
Definition ok_response : lh_http_response_t := mk_response (literal "OK") 200 1 1.
Definition ok_fields : list lh_http_header_t := [mk_header (literal "A") (literal "b")].
Lemma response_survives_wire_witness :
  lh_http_parser_response (Some (mk_parser 64 32 0 0 0)) (response_text ok_response ok_fields ++ [33]) (Some (mk_response [] 0 0 0)) (Some [no_header]) 1
  = Done (Some (mk_parser 64 32 25 0 0), Some ok_response, Some ok_fields, lh_http_parse_complete).
Proof.
  apply (response_survives_wire ok_response ok_fields []).
  - split; [by split; vm_compute|repeat constructor|done|]. apply Forall_singleton. split_and!; [by split; [|repeat constructor]|repeat constructor|by vm_compute].
  - split_and!; [by vm_compute| |by vm_compute]. apply Forall_singleton. by vm_compute.
  - by split; vm_compute.
  - assert (response_text ok_response ok_fields ++ [33] = literal "HTTP/1.1 200 OK" ++ [13; 10] ++ literal "A: b" ++ [13; 10; 13; 10; 33]) as -> by by vm_compute.
    unfold is_bytes. repeat apply Forall_app_2; try apply literal_bytes; repeat (apply Forall_cons_2; [by vm_compute|]); apply Forall_nil_2.
  - by vm_compute.
Defined.
