(* ===== verification/Exec.v ===== *)
(** * Executors: tasks, the queue between threads, mailboxes

    [exec/task.c], [exec/queue.c] (many producers, one consumer, no lock), [exec/mailbox.c]
    and [exec/executor.c].  As in [Spsc] a function is a program over the actions the threads
    share; here an action gives a machine word, and it is run in three ways: alone ([alone]),
    the producers and the consumer of a queue interleaved ([queue_step]), and the owners of a
    mailbox's places interleaved ([mailbox_step]).  Theorems in [QueueProofs],
    [QueueThreads] and [MailboxProofs].

    A task is an address, 0 for null.  The queue and the mailbox are the record of what does
    not change; their atomics are words of the shared state, since one mailbox is modelled
    at a time. *)
From stdpp Require Import functions.
From S2P Require Import Prelude.

(** ** Programs *)

(** The plain fields of a task. *)
Inductive task_field := Work_cb | Complete_cb | Destroy_cb | User | Mailbox | Cancelled.
#[export] Instance task_field_eq_dec : EqDecision task_field.
Proof. solve_decision. Defined.
Inductive act :=
| Get_front | Set_front (v : Z)
(* [lh_atomic_ptr_*] on [back]: get with acquire order, set relaxed, exchange *)
| Get_back | Set_back (v : Z) | Exchange_back (v : Z)
(* [lh_atomic_ptr_*] on a task's [next]: get with acquire order, set relaxed, set with release order *)
| Get_next (task : Z) | Clear_next (task v : Z) | Link_next (task v : Z)
(* [lh_atomic_uint_*] on [used] *)
| Get_used | Set_used (v : Z) | Compare_exchange_used (expected desired : Z) | Fetch_sub_used (v : Z)
| Get_task (task : Z) (f : task_field) | Set_task (task : Z) (f : task_field) (v : Z)
(* a callback of a task: which, its user pointer, the executor's local pointer *)
| Call (cb user local : Z).
Inductive prog (A : Type) : Type :=
| Ret (a : A)
| Do (a : act) (k : Z -> prog A)
| Fail (code : Z).
Arguments Ret {A} _.
Arguments Do {A} _ _.
Arguments Fail {A} _.
#[export] Instance prog_ret : MRet prog := fun A a => Ret a.
#[export] Instance prog_bind : MBind prog := fun A B f =>
  fix bind m :=
    match m with
    | Ret a => f a
    | Do a k => Do a (fun v => bind (k v))
    | Fail c => Fail c
    end.
Definition do (a : act) : prog Z := Do a Ret.
(** An action whose value is not used. *)
Definition do_ (a : act) : prog unit := Do a (fun _ => Ret tt).

(** ** [exec/task.c] *)

Definition lh_exec_task_get_work_cb (self : Z) : prog Z := do (Get_task self Work_cb).
Definition lh_exec_task_set_work_cb (self v : Z) : prog unit := do_ (Set_task self Work_cb v).
Definition lh_exec_task_get_complete_cb (self : Z) : prog Z := do (Get_task self Complete_cb).
Definition lh_exec_task_set_complete_cb (self v : Z) : prog unit := do_ (Set_task self Complete_cb v).
Definition lh_exec_task_get_destroy_cb (self : Z) : prog Z := do (Get_task self Destroy_cb).
Definition lh_exec_task_set_destroy_cb (self v : Z) : prog unit := do_ (Set_task self Destroy_cb v).
Definition lh_exec_task_get_user (self : Z) : prog Z := do (Get_task self User).
Definition lh_exec_task_set_user (self v : Z) : prog unit := do_ (Set_task self User v).
Definition lh_exec_task_get_mailbox (self : Z) : prog Z := do (Get_task self Mailbox).
Definition lh_exec_task_set_mailbox (self v : Z) : prog unit := do_ (Set_task self Mailbox v).
Definition lh_exec_task_is_cancelled (self : Z) : prog bool :=
  v ← do (Get_task self Cancelled); mret (negb (v =? 0)).
Definition lh_exec_task_set_cancelled (self : Z) (v : bool) : prog unit := do_ (Set_task self Cancelled (if v then 1 else 0)).
Definition lh_exec_task_get_next_task (self : Z) : prog Z := do (Get_next self).
Definition lh_exec_task_init (self work_cb complete_cb destroy_cb user : Z) : prog unit :=
  _ ← lh_exec_task_set_work_cb self work_cb;
  _ ← lh_exec_task_set_complete_cb self complete_cb;
  _ ← lh_exec_task_set_destroy_cb self destroy_cb;
  _ ← lh_exec_task_set_user self user;
  _ ← do_ (Clear_next self 0);
  _ ← lh_exec_task_set_mailbox self 0;
  lh_exec_task_set_cancelled self false.
Definition lh_exec_task_run_work (self local : Z) : prog unit :=
  cb ← lh_exec_task_get_work_cb self;
  user ← lh_exec_task_get_user self;
  do_ (Call cb user local).
Definition lh_exec_task_run_complete (self : Z) : prog unit :=
  cb ← lh_exec_task_get_complete_cb self;
  if negb (cb =? 0) then user ← lh_exec_task_get_user self; do_ (Call cb user 0) else mret tt.
Definition lh_exec_task_run_destroy (self : Z) : prog unit :=
  cb ← lh_exec_task_get_destroy_cb self;
  if negb (cb =? 0) then user ← lh_exec_task_get_user self; do_ (Call cb user 0) else mret tt.

(** ** [exec/queue.c] *)

(** The address of the queue's own task; [back] and [front] are shared. *)
Record lh_exec_queue_t := mk_queue { stub : Z }.
Definition lh_exec_queue_get_stub_mut (self : lh_exec_queue_t) : Z := stub self.
Definition lh_exec_queue_get_front (self : lh_exec_queue_t) : prog Z := do Get_front.
Definition lh_exec_queue_set_front (self : lh_exec_queue_t) (front : Z) : prog unit := do_ (Set_front front).
Definition lh_exec_queue_init (self : lh_exec_queue_t) : prog unit :=
  let stub := lh_exec_queue_get_stub_mut self in
  _ ← lh_exec_task_init stub 0 0 0 0;
  _ ← do_ (Set_back stub);
  lh_exec_queue_set_front self stub.
Definition lh_exec_queue_push (self : lh_exec_queue_t) (task : Z) : prog unit :=
  _ ← do_ (Clear_next task 0);
  previous ← do (Exchange_back task);
  do_ (Link_next previous task).
(** [try_pop] once [front] is not the stub and [next] is what was read of it. *)
Definition pop_front (self : lh_exec_queue_t) (front next : Z) : prog Z :=
  let stub := lh_exec_queue_get_stub_mut self in
  if negb (next =? 0) then
    _ ← lh_exec_queue_set_front self next;
    mret front
  else
  back ← do Get_back;
  if negb (front =? back) then mret 0 else
  _ ← lh_exec_queue_push self stub;
  next ← lh_exec_task_get_next_task front;
  if negb (next =? 0) then
    _ ← lh_exec_queue_set_front self next;
    mret front
  else mret 0.
Definition lh_exec_queue_try_pop (self : lh_exec_queue_t) : prog Z :=
  let stub := lh_exec_queue_get_stub_mut self in
  front ← lh_exec_queue_get_front self;
  next ← lh_exec_task_get_next_task front;
  if front =? stub then
    if next =? 0 then mret 0 else
    _ ← lh_exec_queue_set_front self next;
    let front := next in
    next ← lh_exec_task_get_next_task front;
    pop_front self front next
  else pop_front self front next.

(** ** [exec/mailbox.c] *)

Record lh_exec_mailbox_t := mk_mailbox { mailbox_address : Z; capacity : Z; finished : lh_exec_queue_t }.
Definition lh_exec_mailbox_get_capacity (self : lh_exec_mailbox_t) : Z := capacity self.
Definition lh_exec_mailbox_set_capacity (self : lh_exec_mailbox_t) (v : Z) : lh_exec_mailbox_t :=
  mk_mailbox (mailbox_address self) v (finished self).
Definition lh_exec_mailbox_get_finished_mut (self : lh_exec_mailbox_t) : lh_exec_queue_t := finished self.
Definition lh_exec_mailbox_get_used_count (self : lh_exec_mailbox_t) : prog Z := do Get_used.
Definition lh_exec_mailbox_init (self : lh_exec_mailbox_t) (capacity : Z) : prog lh_exec_mailbox_t :=
  let self := lh_exec_mailbox_set_capacity self capacity in
  _ ← do_ (Set_used 0);
  _ ← lh_exec_queue_init (lh_exec_mailbox_get_finished_mut self);
  mret self.
(** The loop tries until the exchange succeeds or the mailbox is full; [None] is the end of the
    fuel, with the loop still trying. *)
Fixpoint lh_exec_mailbox_try_reserve (fuel : nat) (self : lh_exec_mailbox_t) : prog (option bool) :=
  match fuel with
  | O => mret None
  | S fuel =>
    let capacity := lh_exec_mailbox_get_capacity self in
    seen ← do Get_used;
    if seen >=? capacity then mret (Some false) else
    done ← do (Compare_exchange_used seen (u32 (seen + 1)));
    if negb (done =? 0) then mret (Some true) else lh_exec_mailbox_try_reserve fuel self
  end.
Definition lh_exec_mailbox_release (self : lh_exec_mailbox_t) : prog unit := do_ (Fetch_sub_used 1).
Definition lh_exec_mailbox_post (self : lh_exec_mailbox_t) (task : Z) : prog unit :=
  lh_exec_queue_push (lh_exec_mailbox_get_finished_mut self) task.
Definition lh_exec_mailbox_try_take (self : lh_exec_mailbox_t) : prog Z :=
  lh_exec_queue_try_pop (lh_exec_mailbox_get_finished_mut self).
Definition lh_exec_mailbox_deliver (self : lh_exec_mailbox_t) (task : Z) : prog unit :=
  cancelled ← lh_exec_task_is_cancelled task;
  _ ← (if negb cancelled then lh_exec_task_run_complete task else mret tt);
  _ ← lh_exec_task_run_destroy task;
  lh_exec_mailbox_release self.
(** The loop of dispatch, [n] rounds from the limit. *)
Fixpoint dispatch_loop (n : nat) (self : lh_exec_mailbox_t) (count : Z) : prog Z :=
  match n with
  | O => mret count
  | S n =>
    task ← lh_exec_mailbox_try_take self;
    if task =? 0 then mret count else
    _ ← lh_exec_mailbox_deliver self task;
    dispatch_loop n self (u32 (count + 1))
  end.
Definition lh_exec_mailbox_dispatch (self : lh_exec_mailbox_t) : prog Z :=
  limit ← lh_exec_mailbox_get_used_count self;
  dispatch_loop (Z.to_nat limit) self 0.

(** ** [exec/executor.c] *)

(** [accept] is the executor's callback with its context. *)
Definition lh_exec_executor_try_submit (accept : Z -> prog bool) (fuel : nat) (task : Z) (mailbox : lh_exec_mailbox_t)
    : prog (option bool) :=
  reserved ← lh_exec_mailbox_try_reserve fuel mailbox;
  match reserved with
  | None => mret None
  | Some false => mret (Some false)
  | Some true =>
    _ ← lh_exec_task_set_mailbox task (mailbox_address mailbox);
    accepted ← accept task;
    if accepted : bool then mret (Some true) else
    _ ← lh_exec_mailbox_release mailbox;
    mret (Some false)
  end.

(** ** The shared state

    [back_log] is every value [back] has had, in order; [seen_back] is the oldest of them the
    consumer may still read.  [used_log] is every value [used] has had, newest first.  The
    fields of tasks are plain.  Of each call of a callback [calls] keeps how many places were
    taken when it was made. *)
Record memory := mk_memory {
  back_log : list Z; seen_back : nat; next_of : Z -> Z; front_of : Z;
  used_log : list Z; fields : Z -> task_field -> Z; calls : list (Z * Z * Z * Z) }.
Definition with_back (m : memory) (log : list Z) (seen : nat) : memory :=
  mk_memory log seen (next_of m) (front_of m) (used_log m) (fields m) (calls m).
Definition with_next (m : memory) (task v : Z) : memory :=
  mk_memory (back_log m) (seen_back m) (<[task := v]> (next_of m)) (front_of m) (used_log m) (fields m) (calls m).
Definition with_front (m : memory) (v : Z) : memory :=
  mk_memory (back_log m) (seen_back m) (next_of m) v (used_log m) (fields m) (calls m).
Definition with_used_log (m : memory) (log : list Z) : memory :=
  mk_memory (back_log m) (seen_back m) (next_of m) (front_of m) log (fields m) (calls m).
Definition with_used (m : memory) (v : Z) : memory := with_used_log m (v :: used_log m).
Definition with_field (m : memory) (task : Z) (f : task_field) (v : Z) : memory :=
  mk_memory (back_log m) (seen_back m) (next_of m) (front_of m) (used_log m)
    (<[task := <[f := v]> (fields m task)]> (fields m)) (calls m).
Definition newest_back (m : memory) : Z := default 0 (last (back_log m)).
Definition used (m : memory) : Z := default 0 (head (used_log m)).
Definition with_call (m : memory) (cb user local : Z) : memory :=
  mk_memory (back_log m) (seen_back m) (next_of m) (front_of m) (used_log m) (fields m) (calls m ++ [(cb, user, local, used m)]).

(** An action on the newest values.  The value of an action without a result is 0.  [consumer]
    tells whose exchange it is: after its own the consumer reads nothing older. *)
Definition perform (consumer : bool) (m : memory) (a : act) : Z * memory :=
  match a with
  | Get_front => (front_of m, m)
  | Set_front v => (0, with_front m v)
  | Get_back => (newest_back m, with_back m (back_log m) (if consumer then pred (length (back_log m)) else seen_back m))
  (* only at the start, before the queue is shared *)
  | Set_back v => (0, with_back m [v] 0)
  | Exchange_back v =>
    (newest_back m, with_back m (back_log m ++ [v]) (if consumer then length (back_log m) else seen_back m))
  | Get_next t => (next_of m t, m)
  | Clear_next t v | Link_next t v => (0, with_next m t v)
  | Get_used => (used m, m)
  (* only at the start, as [Set_back] *)
  | Set_used v => (0, with_used_log m [v])
  | Compare_exchange_used e d => if used m =? e then (1, with_used m d) else (0, m)
  | Fetch_sub_used v => (used m, with_used m (u32 (used m - v)))
  | Get_task t f => (fields m t f, m)
  | Set_task t f v => (0, with_field m t f v)
  | Call cb user local => (0, with_call m cb user local)
  end.

(** ** Running alone *)

Fixpoint alone {A} (m : memory) (p : prog A) : outcome (A * memory) :=
  match p with
  | Ret a => Done (a, m)
  | Do a k => alone (perform true m a).2 (k (perform true m a).1)
  | Fail c => Fault c
  end.

(** ** Running with other threads

    A read may be old.  The consumer reads any value [back] had since the last one it saw.  Of
    [next] it reads the newest value or null: a task's links from earlier rounds in a queue
    cannot be read any more, because the reader learned of the task after its pusher cleared
    [next].  Of [used] any value of the past is allowed.  Exchanges act on the newest value. *)
Inductive action (consumer : bool) (m : memory) : act -> Z -> memory -> Prop :=
| action_now a : action consumer m a (perform consumer m a).1 (perform consumer m a).2
| action_old_back j v :
    consumer = true -> (seen_back m <= j)%nat -> back_log m !! j = Some v ->
    action consumer m Get_back v (with_back m (back_log m) j)
| action_old_next t : action consumer m (Get_next t) 0 m
| action_old_used v : v ∈ used_log m -> action consumer m Get_used v m.

(** A queue with any number of producers and its consumer.  [held] are the tasks the callers
    have, to push when they like; a popped task is theirs again.  [returned] is what the
    consumer was given, in order. *)
Record system := mk_system {
  mem : memory; producers : gmap nat (prog unit); consumer : option (prog Z);
  held : gset Z; returned : list Z }.
Inductive queue_step (q : lh_exec_queue_t) : system -> system -> Prop :=
| push_starts m ps c h r k t :
    ps !! k = None -> t ∈ h ->
    queue_step q (mk_system m ps c h r) (mk_system m (<[k := lh_exec_queue_push q t]> ps) c (h ∖ {[t]}) r)
| push_acts m ps c h r k a f v m' :
    ps !! k = Some (Do a f) -> action false m a v m' ->
    queue_step q (mk_system m ps c h r) (mk_system m' (<[k := f v]> ps) c h r)
| push_ends m ps c h r k :
    ps !! k = Some (Ret tt) ->
    queue_step q (mk_system m ps c h r) (mk_system m (delete k ps) c h r)
| pop_starts m ps h r :
    queue_step q (mk_system m ps None h r) (mk_system m ps (Some (lh_exec_queue_try_pop q)) h r)
| pop_acts m ps a f h r v m' :
    action true m a v m' ->
    queue_step q (mk_system m ps (Some (Do a f)) h r) (mk_system m' ps (Some (f v)) h r)
| pop_ends m ps h r t :
    queue_step q (mk_system m ps (Some (Ret t)) h r)
      (mk_system m ps None (if t =? 0 then h else {[t]} ∪ h) (if t =? 0 then r else r ++ [t])).
(** From an initialised queue; none of the callers' tasks is null or the queue's own. *)
Inductive queue_reachable (q : lh_exec_queue_t) (h : gset Z) : system -> Prop :=
| queue_begins m0 m :
    stub q <> 0 -> 0 ∉ h -> stub q ∉ h ->
    alone m0 (lh_exec_queue_init q) = Done (tt, m) ->
    queue_reachable q h (mk_system m ∅ None h [])
| queue_moves s s' : queue_reachable q h s -> queue_step q s s' -> queue_reachable q h s'.

(** The submitters of a mailbox and the owner: [places] of them have reserved and not
    released.  A reservation that used up its fuel goes on trying. *)
Record office := mk_office { office_mem : memory; reserving : gmap nat (prog (option bool)); places : Z; refused : bool }.
Inductive mailbox_step (mb : lh_exec_mailbox_t) : office -> office -> Prop :=
| reserve_starts m ts n b k fuel :
    ts !! k = None ->
    mailbox_step mb (mk_office m ts n b) (mk_office m (<[k := lh_exec_mailbox_try_reserve (S fuel) mb]> ts) n b)
| reserve_acts m ts n b k a f v m' a' f' :
    ts !! k = Some (Do a f) -> action false m a v m' -> f v = Do a' f' ->
    mailbox_step mb (mk_office m ts n b) (mk_office m' (<[k := f v]> ts) n b)
| reserve_goes_on m ts n b k a f v m' fuel :
    ts !! k = Some (Do a f) -> action false m a v m' -> f v = Ret None ->
    mailbox_step mb (mk_office m ts n b) (mk_office m' (<[k := lh_exec_mailbox_try_reserve (S fuel) mb]> ts) n b)
| reserve_succeeds m ts n b k a f v m' :
    ts !! k = Some (Do a f) -> action false m a v m' -> f v = Ret (Some true) ->
    mailbox_step mb (mk_office m ts n b) (mk_office m' (delete k ts) (n + 1) b)
| reserve_fails m ts n b k a f v m' :
    ts !! k = Some (Do a f) -> action false m a v m' -> f v = Ret (Some false) ->
    mailbox_step mb (mk_office m ts n b) (mk_office m' (delete k ts) n true)
| place_released m ts n b a f v m' :
    0 < n -> lh_exec_mailbox_release mb = Do a f -> action false m a v m' ->
    mailbox_step mb (mk_office m ts n b) (mk_office m' ts (n - 1) b).
Inductive mailbox_reachable (mb : lh_exec_mailbox_t) : office -> Prop :=
| mailbox_begins m0 m :
    alone m0 (lh_exec_mailbox_init mb (capacity mb)) = Done (mb, m) ->
    mailbox_reachable mb (mk_office m ∅ 0 false)
| mailbox_moves o o' : mailbox_reachable mb o -> mailbox_step mb o o' -> mailbox_reachable mb o'.
