(* ===== verification/QueueProofs.v ===== *)
(** * The queue between threads: what it promises

    The chain of links from [front] to the newest [back] ([chain]) is kept by every action of
    [push] and [try_pop], whoever interleaves.  From it: run alone the queue is a FIFO
    ([try_pop_alone], [push_alone]).  All interleavings are in [QueueThreads]. *)
From stdpp Require Import functions.
From S2P Require Import Prelude Exec.

(** ** The chain

    [f] is the place of [front] among the values [back] has had.  From there each task links
    to the following one, or does not yet and the link is [pend]ing. *)
Record chain (q : lh_exec_queue_t) (m : memory) (f : nat) (pend : Z -> Z -> Prop) : Prop := {
  chain_front : back_log m !! f = Some (front_of m);
  chain_nodup : NoDup (drop f (back_log m));
  chain_nonzero : 0 ∉ drop f (back_log m);
  chain_next : forall i x y, (f <= i)%nat -> back_log m !! i = Some x -> back_log m !! S i = Some y ->
    next_of m x = y \/ next_of m x = 0 /\ pend x y;
  chain_last : forall x, last (back_log m) = Some x -> next_of m x = 0;
  chain_stub : forall i, back_log m !! i = Some (stub q) -> (i <= seen_back m)%nat }.

Lemma live_at (log : list Z) f i x : (f <= i)%nat -> log !! i = Some x -> x ∈ drop f log.
Proof. intros Hi Hx. apply list_elem_of_lookup. exists (i - f)%nat. rewrite lookup_drop. by replace (f + (i - f))%nat with i by lia. Qed.
Lemma live_inv (log : list Z) f x : x ∈ drop f log -> exists i, (f <= i)%nat /\ log !! i = Some x.
Proof. rewrite list_elem_of_lookup. intros [i Hi]. rewrite lookup_drop in Hi. exists (f + i)%nat. split; [lia|done]. Qed.
Lemma live_inj (log : list Z) f i j x :
  NoDup (drop f log) -> (f <= i)%nat -> (f <= j)%nat -> log !! i = Some x -> log !! j = Some x -> i = j.
Proof.
  intros Hn Hi Hj H1 H2. rewrite NoDup_alt in Hn.
  assert (i - f = j - f)%nat; [|lia]. apply (Hn _ _ x); rewrite lookup_drop.
  - by replace (f + (i - f))%nat with i by lia.
  - by replace (f + (j - f))%nat with j by lia.
Qed.
Lemma last_at (log : list Z) x : last log = Some x <-> log !! pred (length log) = Some x.
Proof. by rewrite last_lookup. Qed.
Lemma drop_snoc (log : list Z) f x : (f <= length log)%nat -> drop f (log ++ [x]) = drop f log ++ [x].
Proof. intros. by rewrite drop_app_le. Qed.

Section chain.
Context (q : lh_exec_queue_t).

Lemma chain_len m f pend : chain q m f pend -> (f < length (back_log m))%nat.
Proof. intros C. apply lookup_lt_is_Some. eexists. apply (chain_front _ _ _ _ C). Qed.
Lemma chain_weaken m f pend pend' :
  chain q m f pend -> (forall x y, pend x y -> pend' x y) -> chain q m f pend'.
Proof. intros [] H. split; try done. naive_solver. Qed.
Lemma front_nonzero m f pend : chain q m f pend -> front_of m <> 0.
Proof.
  intros C E. apply (chain_nonzero _ _ _ _ C). rewrite <- E.
  apply (live_at _ _ f); [lia|]. apply (chain_front _ _ _ _ C).
Qed.

(** A task outside the chain may have its [next] set. *)
Lemma chain_outside m f pend t v :
  chain q m f pend -> t ∉ drop f (back_log m) -> chain q (with_next m t v) f pend.
Proof.
  intros C Ht. assert (Hx : forall i x, (f <= i)%nat -> back_log m !! i = Some x -> <[t := v]> (next_of m) x = next_of m x).
  { intros i x Hi Hx. apply fn_lookup_insert_ne. intros <-. by apply Ht, (live_at _ _ i). }
  pose proof (chain_len _ _ _ C). destruct C. split; try done; simpl.
  - intros i x y Hi H1 H2. rewrite (Hx i) by done. eauto.
  - intros x Hl. rewrite (Hx (pred (length (back_log m)))); [auto|lia|]. by apply last_at.
Qed.

(** The exchange of a task outside the chain puts it at the end, its link pending. *)
Lemma chain_exchange who m f pend t :
  chain q m f pend -> t ∉ drop f (back_log m) -> t <> 0 -> next_of m t = 0 -> (t = stub q -> who = true) ->
  chain q (perform who m (Exchange_back t)).2 f (fun x y => pend x y \/ x = newest_back m /\ y = t).
Proof.
  intros C Ht H0 Hn Hw. pose proof (chain_len _ _ _ C) as Hl. destruct C as [C1 C2 C3 C4 C5 C6].
  split; simpl.
  - by rewrite lookup_app_l.
  - rewrite drop_snoc by lia. apply NoDup_app. split; [done|]. split; [|apply NoDup_singleton].
    intros x Hx Hx'. apply list_elem_of_singleton in Hx' as ->. done.
  - rewrite drop_snoc by lia. rewrite elem_of_app, list_elem_of_singleton. intros [|]; congruence.
  - intros i x y Hi H1 H2. pose proof (lookup_lt_Some _ _ _ H2) as H3. rewrite length_app in H3. simpl in H3.
    rewrite lookup_app_l in H1 by lia. destruct (decide (S i < length (back_log m))%nat) as [Hc|Hc].
    + rewrite lookup_app_l in H2 by done. destruct (C4 i x y Hi H1 H2) as [|[]]; auto.
    + assert (E : i = pred (length (back_log m))) by lia. subst i.
      rewrite lookup_app_r in H2 by lia. replace (_ - _)%nat with 0%nat in H2 by lia. injection H2 as <-.
      apply last_at in H1. right. split; [by apply C5|]. right. unfold newest_back. by rewrite H1.
  - intros x. rewrite last_snoc. by intros [= <-].
  - intros i Hi. destruct (decide (i < length (back_log m))%nat) as [Hc|Hc].
    + rewrite lookup_app_l in Hi by done. specialize (C6 i Hi). destruct who; simpl; lia.
    + rewrite lookup_app_r in Hi by lia. destruct (i - _)%nat eqn:E; [|done]. injection Hi as ->.
      rewrite Hw by done. lia.
Qed.

(** A pending link is made. *)
Lemma chain_link m f pend (pend' : Z -> Z -> Prop) i x y :
  chain q m f pend -> (f <= i)%nat -> back_log m !! i = Some x -> back_log m !! S i = Some y ->
  (forall x' y', pend x' y' -> x' <> x -> pend' x' y') ->
  chain q (with_next m x y) f pend'.
Proof.
  intros [C1 C2 C3 C4 C5 C6] Hi H1 H2 Hp. split; try done; simpl.
  - intros j x' y' Hj E1 E2. destruct (decide (x = x')) as [<-|Hne].
    + rewrite fn_lookup_insert. pose proof (live_inj _ _ _ _ _ C2 Hi Hj H1 E1) as <-. left. congruence.
    + rewrite fn_lookup_insert_ne by done. destruct (C4 j x' y' Hj E1 E2) as [|[]]; auto.
  - intros x' Hl. rewrite fn_lookup_insert_ne; [by apply C5|]. intros <-. apply last_at in Hl.
    pose proof (lookup_lt_Some _ _ _ H2).
    pose proof (live_inj _ _ i (pred (length (back_log m))) _ C2 Hi ltac:(lia) H1 Hl). lia.
Qed.

(** What a link of the front that has been made says, and moving on along it. *)
Lemma front_linked m f pend :
  chain q m f pend -> next_of m (front_of m) <> 0 -> back_log m !! S f = Some (next_of m (front_of m)).
Proof.
  intros C Hn. pose proof (chain_len _ _ _ C) as Hl. destruct C as [C1 C2 C3 C4 C5 C6].
  destruct (back_log m !! S f) as [y|] eqn:E.
  - destruct (C4 f _ y ltac:(lia) C1 E) as [->|[]]; done.
  - destruct Hn. apply C5, last_at. apply lookup_ge_None in E.
    by replace (pred (length (back_log m))) with f by lia.
Qed.
Lemma chain_advance m f pend v :
  chain q m f pend -> next_of m (front_of m) = v -> v <> 0 -> chain q (with_front m v) (S f) pend.
Proof.
  intros C Hv H0. pose proof (front_linked _ _ _ C ltac:(congruence)) as Hf. rewrite Hv in Hf.
  destruct C as [C1 C2 C3 C4 C5 C6].
  pose proof (drop_S _ _ _ C1) as E. rewrite E in C2, C3. split; simpl; try done.
  - by apply NoDup_cons in C2 as [].
  - by apply not_elem_of_cons in C3 as [].
  - intros i x y Hi. apply C4. lia.
Qed.
Lemma chain_seen m f pend j :
  chain q m f pend -> (seen_back m <= j)%nat -> chain q (with_back m (back_log m) j) f pend.
Proof. intros [C1 C2 C3 C4 C5 C6] Hj. split; try done; simpl. intros i Hi. specialize (C6 i Hi). lia. Qed.
(** What the consumer reads of [back] is the front it holds only when the stub is not in the chain. *)
Lemma stub_free m f pend j :
  chain q m f pend -> front_of m <> stub q -> (seen_back m <= j)%nat -> back_log m !! j = Some (front_of m) ->
  stub q ∉ drop f (back_log m).
Proof.
  intros [C1 C2 C3 C4 C5 C6] Hs Hj Hf Hin. apply live_inv in Hin as (i & Hi & Hx).
  pose proof (C6 i Hx). assert (i = f); [|congruence].
  pose proof (live_inj _ _ j f _ C2 ltac:(lia) ltac:(lia) Hf C1). lia.
Qed.
End chain.

(** ** Alone *)

Lemma alone_bind {A B} (p : prog A) (g : A -> prog B) m :
  alone m (p ≫= g) = '(a, m') ← alone m p; alone m' (g a).
Proof. revert m. induction p as [a|a k IH|c]; intros m; [done| |done]. apply IH. Qed.

(** The rest of the memory, which a queue operation leaves alone. *)
Definition same_rest (m m' : memory) : Prop :=
  used_log m' = used_log m /\ fields m' = fields m /\ calls m' = calls m.
Definition none (x y : Z) : Prop := False.
Definition waiting (q : lh_exec_queue_t) (l : list Z) : list Z := filter (fun t => t <> stub q) l.
(** A queue at rest that holds the tasks [ts], the oldest first. *)
Definition queue_holds (q : lh_exec_queue_t) (m : memory) (ts : list Z) : Prop :=
  exists f, chain q m f none /\ waiting q (drop f (back_log m)) = ts.

Lemma init_holds q m0 : stub q <> 0 -> exists m, alone m0 (lh_exec_queue_init q) = Done (tt, m) /\
  chain q m 0 none /\ back_log m = [stub q] /\ used_log m = used_log m0.
Proof.
  intros H0. eexists. split; [reflexivity|]. split; [|done]. split; simpl; try done.
  - apply NoDup_singleton.
  - by rewrite list_elem_of_singleton.
  - intros x [= <-]. by rewrite fn_lookup_insert.
  - intros [|i] H; [lia|done].
Qed.

Section alone.
Context (q : lh_exec_queue_t) (stub_set : stub q <> 0).

Lemma chain_alone m f : chain q m f none -> next_of m (front_of m) = 0 -> drop f (back_log m) = [front_of m].
Proof.
  intros C Hn. pose proof (front_nonzero _ _ _ _ C) as H0. destruct C as [C1 C2 C3 C4 C5 C6].
  rewrite (drop_S _ _ _ C1). f_equal. destruct (drop (S f) (back_log m)) as [|y l] eqn:E; [done|].
  assert (Hy : back_log m !! S f = Some y) by (rewrite <- (Nat.add_0_r (S f)), <- lookup_drop, E; done).
  destruct (C4 f _ y ltac:(lia) C1 Hy) as [Hx|[_ []]]. destruct C3. rewrite <- Hn, Hx.
  by apply (live_at _ _ (S f)); [lia|].
Qed.
Lemma drop_singleton_newest m f x : drop f (back_log m) = [x] -> newest_back m = x.
Proof.
  intros E. unfold newest_back. rewrite <- (take_drop f (back_log m)), E, last_app. done.
Qed.

Lemma push_chain m f t :
  chain q m f none -> t ∉ drop f (back_log m) -> t <> 0 ->
  exists m', alone m (lh_exec_queue_push q t) = Done (tt, m') /\ chain q m' f none /\
    back_log m' = back_log m ++ [t] /\ next_of m' (newest_back m) = t /\
    front_of m' = front_of m /\ same_rest m m'.
Proof.
  intros C Ht H0. pose proof (chain_len _ _ _ _ C) as Hl.
  apply (chain_outside _ _ _ _ _ 0 C) in Ht as C1.
  pose proof (chain_exchange q true _ f none t C1 Ht H0 (fn_lookup_insert _ _ _) ltac:(done)) as C2.
  destruct (last (back_log m)) as [x|] eqn:Hx; [|by apply last_None in Hx; rewrite Hx in Hl; simpl in Hl; lia].
  assert (Hb : newest_back m = x) by (unfold newest_back; by rewrite Hx).
  assert (C3 : chain q (with_next (perform true (with_next m t 0) (Exchange_back t)).2 x t) f none).
  { apply last_at in Hx. apply (chain_link _ _ _ _ none (pred (length (back_log m))) x t C2); simpl; [lia| | |].
    - by rewrite lookup_app_l by lia.
    - rewrite lookup_app_r by lia. by replace (_ - _)%nat with 0%nat by lia.
    - intros x' y' [[]|[-> _]]. done. }
  eexists. split; [reflexivity|]. simpl. change (newest_back (with_next m t 0)) with (newest_back m).
  rewrite Hb. split_and!; try done. apply fn_lookup_insert.
Qed.
Lemma push_alone m ts t :
  queue_holds q m ts -> t ∉ ts -> t <> 0 -> t <> stub q ->
  exists m', alone m (lh_exec_queue_push q t) = Done (tt, m') /\ queue_holds q m' (ts ++ [t]) /\ same_rest m m'.
Proof.
  intros (f & C & Hw) Ht H0 Hs. pose proof (chain_len _ _ _ _ C) as Hl.
  assert (Ht' : t ∉ drop f (back_log m)).
  { intros Hin. apply Ht. rewrite <- Hw. by apply list_elem_of_filter. }
  destruct (push_chain m f t C Ht' H0) as (m' & E & C' & Eb & _ & _ & Hr). exists m'. split; [done|]. split; [|done].
  exists f. split; [done|]. rewrite Eb, drop_snoc by lia. unfold waiting in *.
  by rewrite filter_app, Hw, filter_cons_True.
Qed.

Lemma front_in m f pend : chain q m f pend -> drop f (back_log m) = front_of m :: drop (S f) (back_log m).
Proof. intros C. apply drop_S, (chain_front _ _ _ _ C). Qed.

Lemma pop_front_alone m f :
  chain q m f none -> front_of m <> stub q ->
  exists m', alone m (pop_front q (front_of m) (next_of m (front_of m))) = Done (front_of m, m') /\
    queue_holds q m' (waiting q (drop (S f) (back_log m))) /\ same_rest m m'.
Proof.
  intros C Hs. unfold pop_front. destruct (Z.eqb_spec (next_of m (front_of m)) 0) as [Hn|Hn]; cbn [negb].
  - pose proof (chain_alone _ _ C Hn) as Hd. pose proof (drop_singleton_newest _ _ _ Hd) as Hb.
    pose proof (chain_len _ _ _ _ C) as Hl.
    pose proof (chain_seen q m f none _ C (Nat.le_max_l (seen_back m) (pred (length (back_log m))))) as C0.
    assert (Ht : stub q ∉ drop f (back_log m)) by (rewrite Hd, list_elem_of_singleton; congruence).
    assert (C1 : chain q (with_back m (back_log m) (pred (length (back_log m)))) f none).
    { destruct C as [? ? ? ? ? C6]. split; try done. intros i Hi. apply lookup_lt_Some in Hi. simpl in *. lia. }
    destruct (push_chain _ f (stub q) C1 Ht stub_set) as (m' & E & C' & Eb & En & Ef & Hr).
    simpl in Eb, En, Ef. change (newest_back (with_back _ _ _)) with (newest_back m) in En. rewrite Hb in En.
    rewrite alone_bind. cbn [alone do perform fst snd mbind outcome_bind]. rewrite Hb, Z.eqb_refl. cbn [negb].
    change (lh_exec_queue_get_stub_mut q) with (stub q). rewrite alone_bind, E. simpl. rewrite En.
    rewrite (proj2 (Z.eqb_neq _ _)) by done. simpl. eexists. split; [reflexivity|]. split; [|done].
    exists (S f). rewrite <- Ef in En. split; [by apply chain_advance|]. simpl. rewrite Eb.
    rewrite drop_app_le by lia. rewrite (front_in _ _ _ C) in Hd. injection Hd as Hd. rewrite Hd. unfold waiting; simpl.
    rewrite filter_cons_False by (intros H; done). done.
  - simpl. eexists. split; [reflexivity|]. split; [|done]. exists (S f). split; [|done]. by apply chain_advance.
Qed.

Lemma try_pop_alone m ts :
  queue_holds q m ts ->
  exists m', alone m (lh_exec_queue_try_pop q) = Done (default 0 (head ts), m') /\
    queue_holds q m' (tail ts) /\ same_rest m m'.
Proof.
  intros (f & C & <-). rewrite (front_in _ _ _ C). unfold waiting. cbn -[filter pop_front].
  change (lh_exec_queue_get_stub_mut q) with (stub q).
  destruct (Z.eqb_spec (front_of m) (stub q)) as [Hs|Hs].
  - rewrite filter_cons_False by tauto.
    destruct (Z.eqb_spec (next_of m (front_of m)) 0) as [Hn|Hn].
    + pose proof (chain_alone _ _ C Hn) as Hd. rewrite (front_in _ _ _ C) in Hd. injection Hd as Hd. rewrite Hd.
      exists m. split; [done|]. split; [|by repeat split]. exists f. split; [done|].
      rewrite (front_in _ _ _ C), Hd. unfold waiting. by rewrite filter_cons_False by tauto.
    + pose proof (chain_advance _ _ _ _ _ C eq_refl Hn) as C'.
      assert (Hs' : front_of (with_front m (next_of m (front_of m))) <> stub q).
      { simpl. intros E. pose proof (front_linked _ _ _ _ C Hn) as Hf.
        pose proof (chain_nodup _ _ _ _ C) as Hnd.
        pose proof (live_inj _ _ f (S f) _ Hnd ltac:(lia) ltac:(lia) (chain_front _ _ _ _ C)
          ltac:(rewrite Hf, E, Hs; done)). lia. }
      destruct (pop_front_alone _ _ C' Hs') as (m' & E & Hh & Hr). simpl in E, Hh. cbn -[filter pop_front]. rewrite E.
      pose proof (front_in _ _ _ C') as Hd. simpl in Hd, Hs'. rewrite Hd, filter_cons_True by done. simpl.
      exists m'. split_and!; try done.
  - rewrite filter_cons_True by done. destruct (pop_front_alone _ _ C Hs) as (m' & E & Hh & Hr).
    exists m'. split_and!; try done.
Qed.
End alone.
