(* ===== verification/QueueThreads.v ===== *)
(** * The queue between threads: all interleavings

    A producer in [push] and the consumer in [try_pop] are at one of a few points ([pushing],
    [popping]); [queue_inv] says what holds between them and is kept by every step.  Then the
    tasks come out once each, in the order of the exchanges ([tasks_come_out_once_in_order]),
    and a queue at rest gives the oldest. *)
From stdpp Require Import functions.
From S2P Require Import Prelude Exec QueueProofs.

(** ** Where the threads are *)

(** Where a producer is in [push]. *)
Inductive pushing := Push_clear (t : Z) | Push_exchange (t : Z) | Push_link (previous t : Z) | Push_done.
Definition push_prog (q : lh_exec_queue_t) (ph : pushing) : prog unit :=
  match ph with
  | Push_clear t => lh_exec_queue_push q t
  | Push_exchange t => previous ← do (Exchange_back t); do_ (Link_next previous t)
  | Push_link previous t => do_ (Link_next previous t)
  | Push_done => mret tt
  end.
(** Where the consumer is in [try_pop]; [fr] is the front it took. *)
Inductive popping :=
| Pop_begin | Pop_next (fr : Z) | Pop_step (v : Z) | Pop_after (fr : Z) | Pop_take (fr v : Z) | Pop_back (fr : Z)
| Pop_clear (fr : Z) | Pop_exchange (fr : Z) | Pop_link (fr previous : Z) | Pop_again (fr : Z) | Pop_done (v : Z).
Definition take_prog (q : lh_exec_queue_t) (fr next : Z) : prog Z :=
  if negb (next =? 0) then _ ← lh_exec_queue_set_front q next; mret fr else mret 0.
Definition pop_prog (q : lh_exec_queue_t) (ph : popping) : prog Z :=
  match ph with
  | Pop_begin => lh_exec_queue_try_pop q
  | Pop_next fr =>
    next ← lh_exec_task_get_next_task fr;
    if fr =? stub q then
      if next =? 0 then mret 0 else
      _ ← lh_exec_queue_set_front q next;
      next' ← lh_exec_task_get_next_task next; pop_front q next next'
    else pop_front q fr next
  | Pop_step v => _ ← lh_exec_queue_set_front q v; next' ← lh_exec_task_get_next_task v; pop_front q v next'
  | Pop_after fr => next ← lh_exec_task_get_next_task fr; pop_front q fr next
  | Pop_take fr v => _ ← lh_exec_queue_set_front q v; mret fr
  | Pop_back fr => pop_front q fr 0
  | Pop_clear fr => _ ← lh_exec_queue_push q (stub q); next ← lh_exec_task_get_next_task fr; take_prog q fr next
  | Pop_exchange fr =>
    _ ← push_prog q (Push_exchange (stub q)); next ← lh_exec_task_get_next_task fr; take_prog q fr next
  | Pop_link fr previous =>
    _ ← push_prog q (Push_link previous (stub q)); next ← lh_exec_task_get_next_task fr; take_prog q fr next
  | Pop_again fr => next ← lh_exec_task_get_next_task fr; take_prog q fr next
  | Pop_done v => mret v
  end.

(** The task a producer has, and whether it is still its own. *)
Definition task_of (ph : pushing) : option Z :=
  match ph with Push_clear t | Push_exchange t | Push_link _ t => Some t | Push_done => None end.
Definition own_of (ph : pushing) : option Z :=
  match ph with Push_clear t | Push_exchange t => Some t | _ => None end.
(** The task that left the chain and is about to be returned. *)
Definition carried (c : option popping) : list Z :=
  match c with Some (Pop_done v) => if v =? 0 then [] else [v] | _ => [] end.
Definition pending (q : lh_exec_queue_t) (ps : gmap nat pushing) (c : option popping) (x y : Z) : Prop :=
  (exists k, ps !! k = Some (Push_link x y)) \/ (exists fr, c = Some (Pop_link fr x)) /\ y = stub q.
(** A link someone is about to make lies in the chain. *)
Definition in_chain (m : memory) (f : nat) (x y : Z) : Prop :=
  exists i, (f <= i)%nat /\ back_log m !! i = Some x /\ back_log m !! S i = Some y /\ next_of m x = 0.

(** What the consumer relies on at each point. *)
Definition pop_ok (q : lh_exec_queue_t) (m : memory) (f : nat) (ph : popping) : Prop :=
  match ph with
  | Pop_begin => True
  | Pop_next fr => fr = front_of m
  | Pop_step v => front_of m = stub q /\ v = next_of m (stub q) /\ v <> 0
  | Pop_after fr | Pop_back fr | Pop_again fr => fr = front_of m /\ fr <> stub q
  | Pop_take fr v => fr = front_of m /\ fr <> stub q /\ v = next_of m fr /\ v <> 0
  | Pop_clear fr => fr = front_of m /\ fr <> stub q /\ stub q ∉ drop f (back_log m)
  | Pop_exchange fr => fr = front_of m /\ fr <> stub q /\ stub q ∉ drop f (back_log m) /\ next_of m (stub q) = 0
  | Pop_link fr x => fr = front_of m /\ fr <> stub q /\ in_chain m f x (stub q)
  | Pop_done v => v <> stub q
  end.
(** What a producer relies on. *)
Definition push_ok (q : lh_exec_queue_t) (m : memory) (f : nat) (ph : pushing) : Prop :=
  match ph with
  | Push_clear t => True
  | Push_exchange t => next_of m t = 0
  | Push_link x t => in_chain m f x t /\ t <> stub q
  | Push_done => True
  end.

(** Where each task of [all] is: held by a caller, still a producer's, in the [live] part of the
    queue, or on its way out.  It is in one place only. *)
Record whereabouts (q : lh_exec_queue_t) (all h : gset Z) (ps : gmap nat pushing) (live carry : list Z) : Prop := {
  wh_all : 0 ∉ all /\ stub q ∉ all;
  wh_apart : forall k1 k2 ph1 ph2 t, ps !! k1 = Some ph1 -> ps !! k2 = Some ph2 ->
    task_of ph1 = Some t -> task_of ph2 = Some t -> k1 = k2;
  wh_where : forall t, t ∈ all <-> t ∈ h \/ (exists k ph, ps !! k = Some ph /\ own_of ph = Some t) \/
    (t <> stub q /\ t ∈ live) \/ t ∈ carry;
  wh_held : forall t, t ∈ h -> t ∉ live /\ t ∉ carry /\ forall k ph, ps !! k = Some ph -> own_of ph <> Some t;
  wh_own : forall k ph t, ps !! k = Some ph -> own_of ph = Some t -> t ∉ live /\ t ∉ carry;
  wh_carry : forall t, t ∈ carry -> t ∉ live }.

(** [f] is the place of the front, [ps] and [c] where the threads are, [all] the tasks there are. *)
Record queue_inv (q : lh_exec_queue_t) (all : gset Z) (s : system) (f : nat) (ps : gmap nat pushing)
    (c : option popping) : Prop := {
  inv_chain : chain q (mem s) f (pending q ps c);
  inv_producers : producers s = push_prog q <$> ps;
  inv_consumer : consumer s = pop_prog q <$> c;
  inv_push : forall k ph, ps !! k = Some ph -> push_ok q (mem s) f ph;
  inv_pop : forall ph, c = Some ph -> pop_ok q (mem s) f ph;
  inv_where : whereabouts q all (held s) ps (drop f (back_log (mem s))) (carried c);
  inv_returned : returned s ++ carried c = waiting q (take f (back_log (mem s))) }.

(** *** Whereabouts *)

Section whereabouts.
Context (q : lh_exec_queue_t) (all h : gset Z).
Ltac by_key :=
  repeat match goal with
  | H : <[_ := _]> _ !! _ = Some _ |- _ => let N := fresh "N" in apply lookup_insert_Some in H as [[<- <-]|[N H]]
  end.

(** A producer moves on with its task. *)
Lemma wh_phase ps live carry k ph ph' :
  whereabouts q all h ps live carry -> ps !! k = Some ph -> task_of ph' = task_of ph -> own_of ph' = own_of ph ->
  whereabouts q all h (<[k := ph']> ps) live carry.
Proof.
  intros [W1 W2 W3 W4 W5 W6] Hk Ht Ho. split; try done.
  - intros k1 k2 ph1 ph2 t H1 H2 E1 E2. by_key; try done; rewrite ?Ht in *; eauto.
  - intros t. rewrite W3. split; (intros [|[(k1 & ph1 & H1 & E1)|]]; [tauto| |tauto]); right; left.
    + destruct (decide (k1 = k)) as [->|Hne].
      * exists k, ph'. rewrite lookup_insert_eq, Ho. split; [done|]. congruence.
      * exists k1, ph1. by rewrite lookup_insert_ne.
    + by_key; [exists k, ph; split; [done|congruence]|eauto].
  - intros t H. destruct (W4 t H) as (? & ? & Hn). split_and!; try done.
    intros k1 ph1 Hk1. by_key; [rewrite Ho|]; eauto.
  - intros k1 ph1 t H1 E1. by_key; [rewrite Ho in E1|]; eauto.
Qed.
(** Its task enters the queue. *)
Lemma wh_exchange ps live carry k t x :
  whereabouts q all h ps live carry -> ps !! k = Some (Push_exchange t) ->
  whereabouts q all h (<[k := Push_link x t]> ps) (live ++ [t]) carry.
Proof.
  intros [W1 W2 W3 W4 W5 W6] Hk.
  assert (Hs : t <> stub q) by (intros ->; apply W1, W3; eauto 6).
  split; try done.
  - intros k1 k2 ph1 ph2 t' H1 H2 E1 E2. by_key; try done; simpl in *; eauto.
  - intros t'. rewrite W3, elem_of_app, list_elem_of_singleton.
    split; (intros [|[(k1 & ph1 & H1 & E1)|]]; [tauto| |try tauto]).
    + destruct (decide (k1 = k)) as [->|Hne].
      * rewrite Hk in H1. injection H1 as <-. injection E1 as ->. tauto.
      * right; left. exists k1, ph1. by rewrite lookup_insert_ne.
    + by_key; [done|eauto 6].
    + destruct H as [[? [| ->]]|]; [tauto| |tauto]. right; left. eauto.
  - intros t' H. destruct (W4 t' H) as (? & ? & Hn). rewrite elem_of_app, list_elem_of_singleton. split_and!; try done.
    + intros [| <-]; [done|]. by apply (Hn k _ Hk).
    + intros k1 ph1 Hk1. by_key; [done|]. eauto.
  - intros k1 ph1 t' H1 E1. rewrite elem_of_app, list_elem_of_singleton. by_key; [done|].
    destruct (W5 _ _ _ H1 E1). split; [|done]. intros [| <-]; [done|]. apply N.
    apply (W2 k k1 _ _ _ Hk H1 eq_refl). destruct ph1; simpl in *; congruence.
  - intros t' H. rewrite elem_of_app, list_elem_of_singleton. intros [| <-]; [by apply (W6 t')|].
    by apply (W5 k _ _ Hk eq_refl).
Qed.
Lemma wh_stub ps live carry :
  whereabouts q all h ps live carry -> whereabouts q all h ps (live ++ [stub q]) carry.
Proof.
  intros [W1 W2 W3 W4 W5 W6].
  assert (Hs : forall t, t ∈ all -> t ∉ live -> t ∉ live ++ [stub q]).
  { intros t Ha Hl. rewrite elem_of_app, list_elem_of_singleton. intros [| ->]; tauto. }
  split; try done.
  - intros t. rewrite W3, elem_of_app, list_elem_of_singleton. tauto.
  - intros t H. destruct (W4 t H) as (? & ? & ?). split_and!; try done. apply Hs; [|done]. apply W3. tauto.
  - intros k ph t H E. destruct (W5 _ _ _ H E). split; [|done]. apply Hs; [|done]. apply W3. eauto 8.
  - intros t H. apply Hs; [|by apply W6]. apply W3. tauto.
Qed.
(** A producer is through. *)
Lemma wh_done ps live carry k x t :
  whereabouts q all h ps live carry -> ps !! k = Some (Push_link x t) ->
  whereabouts q all h (<[k := Push_done]> ps) live carry.
Proof.
  intros [W1 W2 W3 W4 W5 W6] Hk. split; try done.
  - intros k1 k2 ph1 ph2 t' H1 H2 E1 E2. by_key; try done; eauto.
  - intros t'. rewrite W3. split; (intros [|[(k1 & ph1 & H1 & E1)|]]; [tauto| |tauto]); right; left.
    + exists k1, ph1. rewrite lookup_insert_ne; [done|]. intros <-. rewrite Hk in H1. by injection H1 as <-.
    + by_key; [done|eauto].
  - intros t' H. destruct (W4 t' H) as (? & ? & Hn). split_and!; try done. intros k1 ph1 Hk1. by_key; [done|]. eauto.
  - intros k1 ph1 t' H1 E1. by_key; [done|]. eauto.
Qed.
Lemma wh_gone ps live carry k :
  whereabouts q all h ps live carry -> ps !! k = Some Push_done -> whereabouts q all h (delete k ps) live carry.
Proof.
  intros [W1 W2 W3 W4 W5 W6] Hk. split; try done.
  - intros k1 k2 ph1 ph2 t' H1 H2. apply lookup_delete_Some in H1 as [_ H1], H2 as [_ H2]. eauto.
  - intros t'. rewrite W3. split; (intros [|[(k1 & ph1 & H1 & E1)|]]; [tauto| |tauto]); right; left.
    + exists k1, ph1. rewrite lookup_delete_ne; [done|]. intros <-. rewrite Hk in H1. by injection H1 as <-.
    + apply lookup_delete_Some in H1 as [_ H1]. eauto.
  - intros t' H. destruct (W4 t' H) as (? & ? & Hn). split_and!; try done.
    intros k1 ph1 Hk1. apply lookup_delete_Some in Hk1 as [_ Hk1]. eauto.
  - intros k1 ph1 t' H1 E1. apply lookup_delete_Some in H1 as [_ H1]. eauto.
Qed.
(** A caller starts to push a task it holds. *)
Lemma wh_start ps live carry k t :
  whereabouts q all h ps live carry -> ps !! k = None -> t ∈ h ->
  (forall k' x t', ps !! k' = Some (Push_link x t') -> t' ∈ live) ->
  whereabouts q all (h ∖ {[t]}) (<[k := Push_clear t]> ps) live carry.
Proof.
  intros [W1 W2 W3 W4 W5 W6] Hk Hh Hl. destruct (W4 t Hh) as (Hn1 & Hn2 & Hn3).
  assert (Hf : forall k' ph, ps !! k' = Some ph -> task_of ph <> Some t).
  { intros k' ph H. specialize (Hn3 k' ph H). destruct ph; simpl in *; try done. intros [= ->]. eauto. }
  split; try done.
  - intros k1 k2 ph1 ph2 t' H1 H2 E1 E2. by_key; simpl in *; try done; try congruence; eauto.
    + injection E2 as <-. by destruct (Hf _ _ H1).
    + injection E1 as <-. by destruct (Hf _ _ H2).
  - intros t'. rewrite W3. rewrite elem_of_difference, elem_of_singleton.
    split; (intros [|[(k1 & ph1 & H1 & E1)|]]; [| |tauto]).
    + destruct (decide (t' = t)) as [->|]; [|tauto]. right; left. exists k, (Push_clear t). by rewrite lookup_insert_eq.
    + right; left. exists k1, ph1. rewrite lookup_insert_ne; [done|]. congruence.
    + by destruct H; left.
    + by_key; [injection E1 as <-; tauto|eauto 6].
  - intros t'. rewrite elem_of_difference, elem_of_singleton. intros [H Hne]. destruct (W4 t' H) as (? & ? & Hn).
    split_and!; try done. intros k1 ph1 Hk1. by_key; simpl; [congruence|eauto].
  - intros k1 ph1 t' H1 E1. by_key; [injection E1 as <-|]; eauto.
Qed.
(** The front leaves the queue. *)
Lemma wh_take ps live fr :
  whereabouts q all h ps (fr :: live) [] -> NoDup (fr :: live) ->
  whereabouts q all h ps live (if fr =? stub q then [] else [fr]).
Proof.
  intros [W1 W2 W3 W4 W5 W6] Hn. apply NoDup_cons in Hn as [Hn _].
  assert (Hc : forall t, t ∈ (if fr =? stub q then [] else [fr]) <-> t = fr /\ fr <> stub q).
  { intros t. destruct (Z.eqb_spec fr (stub q)); rewrite ?elem_of_nil, ?list_elem_of_singleton; tauto. }
  split; try done.
  - intros t. rewrite W3, Hc, elem_of_cons, elem_of_nil. destruct (decide (t = fr)) as [->|]; [|tauto].
    split; [|tauto]. intros [|[|[|]]]; tauto.
  - intros t H. rewrite Hc. destruct (W4 t H) as (Hl & _ & ?). rewrite elem_of_cons in Hl. tauto.
  - intros k ph t H E. rewrite Hc. destruct (W5 _ _ _ H E) as [Hl _]. rewrite elem_of_cons in Hl. tauto.
  - intros t. rewrite Hc. by intros [-> _].
Qed.
(** The consumer returns the task to its caller. *)
Lemma wh_return ps live t :
  whereabouts q all h ps live [t] -> whereabouts q all ({[t]} ∪ h) ps live [].
Proof.
  intros [W1 W2 W3 W4 W5 W6]. split; try done.
  - intros t'. rewrite W3. set_solver.
  - intros t'. rewrite elem_of_union, elem_of_singleton. intros [->|H].
    + split_and!; [apply W6; set_solver|set_solver|]. intros k ph H E. destruct (W5 k ph t H E). set_solver.
    + destruct (W4 t' H) as (? & ? & ?). split_and!; try done. set_solver.
  - intros k ph t' H E. destruct (W5 k ph t' H E). set_solver.
  - set_solver.
Qed.
End whereabouts.

(** ** What one thread relies on and the others keep *)

Section rely.
Context (q : lh_exec_queue_t) (m : memory) (f : nat) (pend : Z -> Z -> Prop) (C : chain q m f pend).

Lemma front_live : front_of m ∈ drop f (back_log m).
Proof using C. apply (live_at _ _ f); [lia|]. apply (chain_front _ _ _ _ C). Qed.
Lemma in_chain_live x y : in_chain m f x y -> x ∈ drop f (back_log m) /\ y ∈ drop f (back_log m).
Proof using. intros (i & Hi & H1 & H2 & _). split; [by apply (live_at _ _ i)|by apply (live_at _ _ (S i)); [lia|]]. Qed.
Lemma in_chain_next x y v : in_chain m f x y -> forall t, t <> x -> in_chain (with_next m t v) f x y.
Proof using. intros (i & Hi & H1 & H2 & H3) t Ht. exists i. split_and!; try done. simpl. by rewrite fn_lookup_insert_ne. Qed.
Lemma in_chain_exchange x y t j : in_chain m f x y -> in_chain (with_back m (back_log m ++ [t]) j) f x y.
Proof using.
  intros (i & Hi & H1 & H2 & H3). exists i. split_and!; try done; simpl.
  - by apply lookup_app_l_Some.
  - by apply lookup_app_l_Some.
Qed.
Lemma in_chain_advance x y v :
  in_chain m f x y -> next_of m (front_of m) <> 0 -> in_chain (with_front m v) (S f) x y.
Proof using C.
  intros (i & Hi & H1 & H2 & H3) Hn. exists i. split_and!; try done.
  destruct (decide (i = f)) as [->|]; [|lia]. rewrite (chain_front _ _ _ _ C) in H1. congruence.
Qed.
(** Two links in the chain from one task are one. *)
Lemma in_chain_fun x y y' : in_chain m f x y -> in_chain m f x y' -> y = y'.
Proof using C.
  intros (i & Hi & H1 & H2 & H3) (j & Hj & E1 & E2 & E3).
  pose proof (live_inj _ _ _ _ _ (chain_nodup _ _ _ _ C) Hi Hj H1 E1) as <-. congruence.
Qed.
(** The task that was the newest links to the one after it. *)
Lemma in_chain_new t j :
  in_chain (with_back m (back_log m ++ [t]) j) f (newest_back m) t.
Proof using C.
  pose proof (chain_len _ _ _ _ C) as Hl.
  destruct (last (back_log m)) as [x|] eqn:Hx; [|by apply last_None in Hx; rewrite Hx in Hl; simpl in Hl; lia].
  unfold newest_back. rewrite Hx. exists (pred (length (back_log m))). pose proof (proj1 (last_at _ _) Hx) as Hi.
  split_and!; simpl; [lia| | |].
  - by apply lookup_app_l_Some.
  - rewrite lookup_app_r by lia. by replace (_ - _)%nat with 0%nat by lia.
  - by apply (chain_last _ _ _ _ C).
Qed.

(** *** A task outside the chain gets a null link *)
Lemma push_ok_outside t ph :
  push_ok q m f ph -> t ∉ drop f (back_log m) -> push_ok q (with_next m t 0) f ph.
Proof using.
  intros H Ht. destruct ph as [|t'|x t'|]; simpl in *; try done.
  - destruct (decide (t = t')) as [->|]; [apply fn_lookup_insert|by rewrite fn_lookup_insert_ne].
  - destruct H as [H ?]. split; [|done]. apply in_chain_next; [done|]. intros ->. by apply in_chain_live in H as [? _].
Qed.
Lemma pop_ok_outside t ph :
  pop_ok q m f ph -> t ∉ drop f (back_log m) -> t <> stub q -> pop_ok q (with_next m t 0) f ph.
Proof using C.
  intros H Ht Hs. pose proof front_live as Hf.
  assert (Hfr : t <> front_of m) by congruence.
  destruct ph; simpl in *; rewrite ?fn_lookup_insert_ne by naive_solver; try done.
  destruct H as (? & ? & H). split_and!; try done. apply in_chain_next; [done|]. intros ->.
  by apply in_chain_live in H as [? _].
Qed.
(** *** A task enters the queue *)
Lemma push_ok_exchange t j ph : push_ok q m f ph -> push_ok q (with_back m (back_log m ++ [t]) j) f ph.
Proof using. destruct ph; simpl; try done. intros [H ?]. split; [|done]. by apply in_chain_exchange. Qed.
Lemma pop_ok_exchange t j ph :
  pop_ok q m f ph -> t <> stub q -> pop_ok q (with_back m (back_log m ++ [t]) j) f ph.
Proof using C.
  pose proof (chain_len _ _ _ _ C) as Hl.
  intros H Hs. destruct ph; simpl in *; try done; rewrite ?drop_snoc, ?elem_of_app, ?list_elem_of_singleton by lia.
  - naive_solver.
  - naive_solver.
  - destruct H as (? & ? & H). split_and!; try done. by apply in_chain_exchange.
Qed.
(** *** A link is made *)
Lemma push_ok_link x y ph :
  push_ok q m f ph -> in_chain m f x y -> own_of ph <> Some x -> (forall t, ph <> Push_link x t) ->
  push_ok q (with_next m x y) f ph.
Proof using.
  intros H Hc Ho Hl. destruct ph as [|t|x' t|]; simpl in *; try done.
  - rewrite fn_lookup_insert_ne; [done|congruence].
  - destruct H as [H ?]. split; [|done]. apply in_chain_next; [done|]. intros ->. by destruct (Hl t).
Qed.
Lemma pop_ok_link x y ph :
  pop_ok q m f ph -> in_chain m f x y -> (forall fr, ph <> Pop_link fr x) -> pop_ok q (with_next m x y) f ph.
Proof using.
  intros H Hc Hl. pose proof (in_chain_live _ _ Hc) as [Hx _]. destruct Hc as (_ & _ & _ & _ & Hn).
  destruct ph; simpl in *; try done.
  - destruct H as (? & -> & ?). rewrite fn_lookup_insert_ne by congruence. done.
  - destruct H as (? & ? & -> & ?). rewrite fn_lookup_insert_ne by congruence. done.
  - destruct H as (? & ? & Hs & ?). rewrite fn_lookup_insert_ne by congruence. done.
  - destruct H as (? & ? & H). split_and!; try done. apply in_chain_next; [done|]. intros ->. by destruct (Hl fr).
Qed.
End rely.

(** ** Every step keeps the invariant *)

Lemma pending_phase q ps c k ph ph' x y :
  ps !! k = Some ph -> ph <> Push_link x y -> pending q ps c x y -> pending q (<[k := ph']> ps) c x y.
Proof.
  intros Hk Hn [[k' H]|H]; [left|by right]. exists k'. rewrite lookup_insert_ne; [done|]. intros <-. congruence.
Qed.
(** What holds of every producer's phase holds after one of them moves. *)
Lemma all_phases (P P' : pushing -> Prop) (ps : gmap nat pushing) k ph' :
  (forall k1 ph1, ps !! k1 = Some ph1 -> P ph1) -> P' ph' -> (forall k1 ph1, k1 <> k -> ps !! k1 = Some ph1 -> P ph1 -> P' ph1) ->
  forall k1 ph1, <[k := ph']> ps !! k1 = Some ph1 -> P' ph1.
Proof. intros HP Hk Ho k1 ph1 H1. apply lookup_insert_Some in H1 as [[<- <-]|[N H1]]; eauto. Qed.
Lemma chain_seen_newest q m f pend :
  chain q m f pend -> chain q (with_back m (back_log m) (pred (length (back_log m)))) f pend.
Proof. intros [? ? ? ? ? C6]. split; try done. simpl. intros i Hi. apply lookup_lt_Some in Hi. lia. Qed.

Section steps.
Context (q : lh_exec_queue_t) (all : gset Z) (stub_set : stub q <> 0).

Notation state m h r ps c := (mk_system m (push_prog q <$> ps) (pop_prog q <$> c) h r).

Lemma producer_acts m h r f ps c k ph a g v m' :
  queue_inv q all (state m h r ps c) f ps c -> ps !! k = Some ph -> push_prog q ph = Do a g ->
  action false m a v m' ->
  exists ph', g v = push_prog q ph' /\ queue_inv q all (state m' h r (<[k := ph']> ps) c) f (<[k := ph']> ps) c.
Proof using.
  intros [C _ _ Hpush Hpop W R] Hk Hp Ha. simpl in *.
  pose proof (chain_len _ _ _ _ C) as Hl. pose proof (Hpush k ph Hk) as Hok.
  destruct ph as [t|t|x t|]; simpl in Hp; [| | |done]; injection Hp as <- <-; inversion Ha; subst; simpl in *.
  - destruct (wh_own _ _ _ _ _ _ W _ _ _ Hk eq_refl) as [Ht _].
    assert (Hs : t <> stub q) by (intros ->; apply (proj2 (wh_all _ _ _ _ _ _ W)), (wh_where _ _ _ _ _ _ W); eauto 6).
    exists (Push_exchange t). split; [done|]. split; simpl; try done.
    + eapply chain_weaken; [by apply chain_outside|]. intros x y. by apply (pending_phase _ _ _ _ _ _ _ _ Hk).
    + apply (all_phases _ _ _ _ _ Hpush); [apply fn_lookup_insert|]. intros. by apply push_ok_outside.
    + intros ph Hc. apply (pop_ok_outside _ _ _ _ C); auto.
    + by apply (wh_phase _ _ _ _ _ _ _ _ _ W Hk).
  - destruct (wh_own _ _ _ _ _ _ W _ _ _ Hk eq_refl) as [Ht _].
    assert (Hin : t ∈ all) by (apply (wh_where _ _ _ _ _ _ W); eauto 6).
    assert (Hs : t <> stub q) by (intros ->; by apply (proj2 (wh_all _ _ _ _ _ _ W))).
    assert (H0 : t <> 0) by (intros ->; by apply (proj1 (wh_all _ _ _ _ _ _ W))).
    exists (Push_link (newest_back m) t). split; [done|]. split; simpl; try done.
    + eapply chain_weaken; [apply (chain_exchange q false _ _ _ t C); try done; by intros ->|]. intros x y [H|[-> ->]].
      * by apply (pending_phase _ _ _ _ _ _ _ _ Hk).
      * left. exists k. apply lookup_insert_eq.
    + apply (all_phases _ _ _ _ _ Hpush); [by split; [apply (in_chain_new _ _ _ _ C)|]|].
      intros. by apply push_ok_exchange.
    + intros ph Hc. apply (pop_ok_exchange _ _ _ _ C); auto.
    + rewrite drop_snoc by lia. by apply wh_exchange.
    + rewrite R. by rewrite take_app_le by lia.
  - destruct Hok as [Hc Hs]. pose proof (in_chain_live _ _ _ _ Hc) as [Hx Ht]. pose proof Hc as (i & Hi & H1 & H2 & H3).
    exists Push_done. split; [done|]. split; simpl; try done.
    + apply (chain_link _ _ _ _ _ i x t C Hi H1 H2). intros x' y' Hp' Hne.
      apply (pending_phase _ _ _ _ _ _ _ _ Hk); [congruence|done].
    + apply (all_phases _ _ _ _ _ Hpush); [done|]. intros k1 ph1 Hne Hk1 Hok1. apply push_ok_link; try done.
      * intros Ho. by destruct (wh_own _ _ _ _ _ _ W _ _ _ Hk1 Ho).
      * intros t' ->. destruct Hok1 as [Hc' _]. pose proof (in_chain_fun _ _ _ _ C _ _ _ Hc Hc') as <-.
        by apply Hne, (wh_apart _ _ _ _ _ _ W _ _ _ _ t Hk1 Hk).
    + intros ph Ec. apply pop_ok_link; [by apply Hpop|done|]. intros fr ->. destruct (Hpop _ Ec) as (_ & _ & Hc').
      by apply Hs, (in_chain_fun _ _ _ _ C x).
    + by apply (wh_done _ _ _ _ _ _ _ _ _ W Hk).
Qed.

(** The consumer goes from one point to another and changes nothing a producer could see. *)
Lemma consumer_moves m h r f ps ph ph' j :
  queue_inv q all (state m h r ps (Some ph)) f ps (Some ph) -> chain q (with_back m (back_log m) j) f (pending q ps (Some ph)) ->
  (forall fr x, ph <> Pop_link fr x) -> pop_ok q m f ph' -> carried (Some ph') = carried (Some ph) ->
  queue_inv q all (state (with_back m (back_log m) j) h r ps (Some ph')) f ps (Some ph').
Proof using.
  intros [_ _ _ Hpush _ W R] C' Hl Hok Hc. split; cbn [mem producers consumer held returned]; try done.
  - apply (chain_weaken _ _ _ _ _ C'). intros x y [H|[[fr [= ->]] _]]; [by left|]. by destruct (Hl fr x).
  - intros ? [= <-]. by destruct ph'.
  - by rewrite Hc.
  - by rewrite Hc.
Qed.
Lemma consumer_stays m h r f ps ph ph' :
  queue_inv q all (state m h r ps (Some ph)) f ps (Some ph) ->
  (forall fr x, ph <> Pop_link fr x) -> pop_ok q m f ph' -> carried (Some ph') = carried (Some ph) ->
  queue_inv q all (state m h r ps (Some ph')) f ps (Some ph').
Proof using.
  intros I Hl Hok Hc. assert (E : with_back m (back_log m) (seen_back m) = m) by (by destruct m).
  pose proof (consumer_moves _ _ _ _ _ _ ph' (seen_back m) I) as H. rewrite E in H.
  apply H; try done. apply (inv_chain _ _ _ _ _ _ I).
Qed.

(** [front] moves on to the next task; the old one is the stub or is carried away. *)
Lemma consumer_advances m h r f ps ph ph' v :
  queue_inv q all (state m h r ps (Some ph)) f ps (Some ph) ->
  (forall fr x, ph <> Pop_link fr x) -> carried (Some ph) = [] -> next_of m (front_of m) = v -> v <> 0 ->
  carried (Some ph') = (if front_of m =? stub q then [] else [front_of m]) ->
  pop_ok q (with_front m v) (S f) ph' ->
  queue_inv q all (state (with_front m v) h r ps (Some ph')) (S f) ps (Some ph').
Proof using.
  intros [C _ _ Hpush _ W R] Hl Hc0 Hv H0 Hc Hok. simpl in C, Hpush. cbn [mem held returned] in *.
  assert (Hd : drop f (back_log m) = front_of m :: drop (S f) (back_log m)) by apply (front_in _ _ _ _ C).
  rewrite Hc0 in W, R. split; simpl; try done.
  - eapply chain_weaken; [by apply chain_advance|]. intros x y [H|[[fr [= ->]] _]]; [by left|]. by destruct (Hl fr x).
  - intros k ph1 Hk. specialize (Hpush k ph1 Hk). destruct ph1; simpl in *; try done.
    destruct Hpush as [Hch ?]. split; [|done]. apply (in_chain_advance _ _ _ _ C); congruence.
  - by intros ? [= <-].
  - change (match ph' with Pop_done v => if v =? 0 then [] else [v] | _ => [] end) with (carried (Some ph')). rewrite Hc.
    apply wh_take; rewrite <- Hd; [done|]. apply (chain_nodup _ _ _ _ C).
  - change (match ph' with Pop_done v => if v =? 0 then [] else [v] | _ => [] end) with (carried (Some ph')). rewrite Hc.
    rewrite app_nil_r in R. rewrite (take_S_r _ _ _ (chain_front _ _ _ _ C)). unfold waiting in *.
    rewrite filter_app, <- R. f_equal. destruct (Z.eqb_spec (front_of m) (stub q)).
    + by rewrite filter_cons_False by tauto.
    + by rewrite filter_cons_True by done.
Qed.

(** Reading a link gives null or what it is. *)
Lemma next_read who m t v m' : action who m (Get_next t) v m' -> m' = m /\ (v = 0 \/ v = next_of m t).
Proof using. intros H. inversion H; subst; simpl; auto. Qed.
Lemma front_read m v m' : action true m Get_front v m' -> m' = m /\ v = front_of m.
Proof using. intros H. by inversion H; subst. Qed.
(** What is read of [back] was there since the consumer last looked. *)
Lemma back_read m v m' f pend :
  chain q m f pend -> action true m Get_back v m' ->
  exists j, m' = with_back m (back_log m) j /\ back_log m !! j = Some v /\ chain q m' f pend.
Proof using.
  intros C H. pose proof (chain_len _ _ _ _ C). inversion H; subst; simpl.
  - exists (pred (length (back_log m))). split_and!; [done| |by apply chain_seen_newest].
    apply last_at. unfold newest_back. destruct (last (back_log m)) eqn:E; [done|].
    apply last_None in E. rewrite E in H0. simpl in H0. lia.
  - exists j. split_and!; try done. by apply chain_seen.
Qed.

(** The points at which the consumer has read the link of the front that it will hand out. *)
Lemma front_taken m fr v g :
  g v = pop_front q fr v -> fr = front_of m -> fr <> stub q -> v = 0 \/ v = next_of m fr ->
  forall f, exists ph', g v = pop_prog q ph' /\ pop_ok q m f ph' /\ carried (Some ph') = [].
Proof using.
  intros Hg Hf Hs Hv f. destruct (Z.eqb_spec v 0) as [->|H0].
  - exists (Pop_back fr). done.
  - exists (Pop_take fr v). split_and!; [|by destruct Hv|done]. rewrite Hg. unfold pop_front.
    by rewrite (proj2 (Z.eqb_neq _ _) H0).
Qed.

Lemma consumer_acts m h r f ps ph a g v m' :
  queue_inv q all (state m h r ps (Some ph)) f ps (Some ph) -> pop_prog q ph = Do a g ->
  action true m a v m' ->
  exists f' ph', g v = pop_prog q ph' /\ queue_inv q all (state m' h r ps (Some ph')) f' ps (Some ph').
Proof using stub_set.
  intros I Hp Ha. pose proof (inv_chain _ _ _ _ _ _ I) as C. simpl in C. pose proof (inv_pop _ _ _ _ _ _ I _ eq_refl) as Hok.
  pose proof (chain_len _ _ _ _ C) as Hl. simpl in Hok.
  destruct ph as [|fr|v1|fr|fr v1|fr|fr|fr|fr x|fr|v1]; simpl in Hp; [..|done]; injection Hp as <- <-; simpl in Hok.
  - apply front_read in Ha as [-> ->]. exists f, (Pop_next (front_of m)). split; [done|].
    by apply (consumer_stays _ _ _ _ _ Pop_begin).
  - apply next_read in Ha as [-> Hv]. subst fr. destruct (Z.eqb_spec (front_of m) (stub q)) as [Hs|Hs].
    + destruct (Z.eqb_spec v 0) as [->|H0].
      * exists f, (Pop_done 0). split; [done|]. apply (consumer_stays _ _ _ _ _ _ _ I); try done; simpl; congruence.
      * exists f, (Pop_step v). split; [done|]. apply (consumer_stays _ _ _ _ _ _ _ I); try done. simpl.
        rewrite <- Hs at 2. naive_solver.
    + destruct (front_taken m (front_of m) v (fun v => pop_front q (front_of m) v) eq_refl eq_refl Hs Hv f) as (ph' & E & Ho & Hc).
      exists f, ph'. split; [done|]. by apply (consumer_stays _ _ _ _ _ _ _ I).
  - destruct Hok as (Hs & Hv & H0). inversion Ha; subst v m' a0 || inversion Ha; subst. simpl.
    exists (S f), (Pop_after (next_of m (stub q))). split; [done|].
    assert (Hn : next_of m (front_of m) = next_of m (stub q)) by congruence.
    apply (consumer_advances _ _ _ _ _ _ _ _ I); try done.
    + by rewrite Hs, Z.eqb_refl.
    + simpl. split; [done|]. intros E. pose proof (front_linked _ _ _ _ C ltac:(congruence)) as Hf. rewrite Hn, E in Hf.
      pose proof (chain_front _ _ _ _ C) as H1. rewrite Hs in H1.
      pose proof (live_inj _ _ f (S f) _ (chain_nodup _ _ _ _ C) ltac:(lia) ltac:(lia) H1 Hf). lia.
  - apply next_read in Ha as [-> Hv]. destruct Hok as [-> Hs].
    destruct (front_taken m (front_of m) v (fun v => pop_front q (front_of m) v) eq_refl eq_refl Hs Hv f) as (ph' & E & Ho & Hc).
    exists f, ph'. split; [done|]. by apply (consumer_stays _ _ _ _ _ _ _ I).
  - destruct Hok as (-> & Hs & Hv & H0). inversion Ha; subst. simpl.
    exists (S f), (Pop_done (front_of m)). split; [done|].
    apply (consumer_advances _ _ _ _ _ _ _ _ I); try done. simpl.
    rewrite (proj2 (Z.eqb_neq _ _) Hs), (proj2 (Z.eqb_neq _ _) (front_nonzero _ _ _ _ C)). done.
  - destruct Hok as [-> Hs]. destruct (back_read _ _ _ _ _ C Ha) as (j & -> & Hj & C').
    destruct (Z.eqb_spec (front_of m) v) as [<-|Hne].
    + exists f, (Pop_clear (front_of m)). split; [done|].
      apply (consumer_moves _ _ _ _ _ _ _ _ I); try done. simpl. split_and!; try done.
      by apply (stub_free q _ f _ j C').
    + exists f, (Pop_done 0). split; [done|].
      apply (consumer_moves _ _ _ _ _ _ _ _ I); try done; simpl; congruence.
  - destruct Hok as (-> & Hs & Hf). inversion Ha; subst. simpl.
    exists f, (Pop_exchange (front_of m)). split; [done|]. destruct I as [_ _ _ Hpush _ W R]. split; simpl; try done.
    + eapply chain_weaken; [by apply chain_outside|]. intros x y [H|[[fr [=]] _]]. by left.
    + intros k ph Hk. apply push_ok_outside; [by apply (Hpush k)|done].
    + intros ? [= <-]. simpl. split_and!; try done. apply fn_lookup_insert.
  - destruct Hok as (-> & Hs & Hf & Hn). inversion Ha; subst. simpl.
    exists f, (Pop_link (front_of m) (newest_back m)). split; [done|]. destruct I as [_ _ _ Hpush _ W R]. split; simpl; try done.
    + eapply chain_weaken; [by apply (chain_exchange q true _ _ _ (stub q) C)|].
      intros x y [[H|[[fr [=]] _]]|[-> ->]]; [by left|]. right. eauto.
    + intros k ph Hk. apply push_ok_exchange. by apply (Hpush k).
    + intros ? [= <-]. simpl. split_and!; try done. apply (in_chain_new _ _ _ _ C).
    + rewrite drop_snoc by lia. by apply wh_stub.
    + simpl in R. rewrite R. by rewrite take_app_le by lia.
  - destruct Hok as (-> & Hs & Hc). inversion Ha; subst. simpl.
    pose proof (in_chain_live _ _ _ _ Hc) as [Hx _]. pose proof Hc as (i & Hi & H1 & H2 & H3).
    exists f, (Pop_again (front_of m)). split; [done|]. destruct I as [_ _ _ Hpush _ W R]. split; simpl; try done.
    + apply (chain_link _ _ _ _ _ i x (stub q) C Hi H1 H2). intros x' y' [H|[[fr [= _ <-]] _]] Hne; [by left|done].
    + intros k ph Hk. apply push_ok_link; try done.
      * by apply (Hpush k).
      * intros Ho. by destruct (wh_own _ _ _ _ _ _ W _ _ _ Hk Ho).
      * intros t ->. destruct (Hpush k _ Hk) as [Hc' Ht]. by apply Ht, (in_chain_fun _ _ _ _ C x).
    + by intros ? [= <-].
  - apply next_read in Ha as [-> Hv]. destruct Hok as [-> Hs]. destruct (Z.eqb_spec v 0) as [->|H0].
    + exists f, (Pop_done 0). split; [done|]. apply (consumer_stays _ _ _ _ _ _ _ I); try done; simpl; congruence.
    + exists f, (Pop_take (front_of m) v).
      split; [unfold take_prog; simpl; by rewrite (proj2 (Z.eqb_neq _ _) H0)|].
      apply (consumer_stays _ _ _ _ _ _ _ I); try done. simpl. by destruct Hv.
Qed.

Lemma step_inv s s' f ps c :
  queue_inv q all s f ps c -> queue_step q s s' -> exists f' ps' c', queue_inv q all s' f' ps' c'.
Proof using stub_set.
  intros I Hs. pose proof (inv_producers _ _ _ _ _ _ I) as Ep. pose proof (inv_consumer _ _ _ _ _ _ I) as Ec.
  destruct Hs as [m prs co hd r k t Hk Ht|m prs co hd r k a g v m' Hk Ha|m prs co hd r k Hk|m prs hd r|m prs a g hd r v m' Ha|m prs hd r t];
    simpl in Ep, Ec; subst.
  - rewrite lookup_fmap in Hk. apply fmap_None in Hk. destruct I as [C _ _ Hpush Hpop W R]. simpl in *.
    exists f, (<[k := Push_clear t]> ps), c. split; simpl; try done.
    + eapply chain_weaken; [done|]. intros x y [[k' H]|H]; [left|by right]. exists k'.
      rewrite lookup_insert_ne; [done|congruence].
    + by rewrite fmap_insert.
    + by apply (all_phases _ _ _ _ _ Hpush).
    + apply wh_start; try done. intros k' x t' H. by destruct (in_chain_live _ _ _ _ (proj1 (Hpush _ _ H))).
  - rewrite lookup_fmap in Hk. apply fmap_Some in Hk as (ph & Hk & Hp).
    destruct (producer_acts _ _ _ _ _ _ _ _ _ _ _ _ I Hk (eq_sym Hp) Ha) as (ph' & E & I').
    exists f, (<[k := ph']> ps), c. rewrite E. by rewrite <- fmap_insert.
  - rewrite lookup_fmap in Hk. apply fmap_Some in Hk as (ph & Hk & Hp). destruct ph; try done.
    exists f, (delete k ps), c. destruct I as [C _ _ Hpush Hpop W R]. simpl in *. split; simpl; try done.
    + eapply chain_weaken; [done|]. intros x y [[k' H]|H]; [left|by right]. exists k'.
      rewrite lookup_delete_ne; [done|congruence].
    + by rewrite fmap_delete.
    + intros k1 ph1 H1. apply lookup_delete_Some in H1 as [_ H1]. by apply (Hpush k1).
    + by apply wh_gone.
  - destruct c as [ph|]; [done|]. exists f, ps, (Some Pop_begin). destruct I as [C _ _ Hpush _ W R]. split; try done.
    + eapply chain_weaken; [done|]. intros x y [H|[[fr [=]] _]]. by left.
    + by intros ? [= <-].
  - destruct c as [ph|]; [|done]. injection Ec as Hp.
    assert (I' : queue_inv q all (mk_system m (push_prog q <$> ps) (pop_prog q <$> Some ph) hd r) f ps (Some ph)).
    { destruct I as [C E1 _ Hpush Hpop W R]. split; done. }
    destruct (consumer_acts _ _ _ _ _ _ _ _ _ _ I' (eq_sym Hp) Ha) as (f' & ph' & E & I'').
    exists f', ps, (Some ph'). by rewrite E.
  - destruct c as [ph|]; [|done]. injection Ec as Hp. destruct ph; try done.
    injection Hp as ->. exists f, ps, None. destruct I as [C _ _ Hpush _ W R]. simpl in *. split; simpl; try done.
    + eapply chain_weaken; [done|]. intros x y [H|[[fr [=]] _]]. by left.
    + destruct (Z.eqb_spec v 0); [done|]. by apply wh_return.
    + destruct (Z.eqb_spec v 0); [done|]. by rewrite app_nil_r.
Qed.
End steps.

Lemma queue_reachable_inv q all s :
  queue_reachable q all s -> stub q <> 0 /\ exists f ps c, queue_inv q all s f ps c.
Proof.
  induction 1 as [m0 m H0 Hn Hs E|s s' _ (H0 & f & ps & c & I) Hs].
  - split; [done|]. destruct (init_holds q m0 H0) as (m' & E' & C & Hb & _). rewrite E in E'. injection E' as <-.
    exists 0%nat, ∅, None. split; try done.
    + eapply chain_weaken; [done|]. intros ? ? [].
    + simpl. rewrite Hb. split; try done.
      * intros t. change (drop 0 [stub q]) with [stub q]. simpl. rewrite elem_of_nil, list_elem_of_singleton.
        split; [tauto|]. intros [|[(k & ph & Hk & _)|[[]|[]]]]; [done|done|done].
      * intros t Ht. split; [|split; [by intros Hi; apply elem_of_nil in Hi|done]].
        simpl. rewrite list_elem_of_singleton. congruence.
      * intros t Ht. by apply elem_of_nil in Ht.
  - split; [done|]. by apply (step_inv _ _ H0 _ _ _ _ _ I).
Qed.

(** Claim C10: The queue under any number of producers and its consumer, over all interleavings, old
    values of the links and of [back] included.  The tasks come out in the order in which the
    exchanges of [push] put them in, each once: what [back] went through, without the queue's
    own stub, is what was returned followed by what is [inside], and nothing is inside twice.
    When nobody is in a call, every task is with the callers or inside and not both, and
    [try_pop] gives the oldest, or null exactly when nothing is inside. *)
Theorem tasks_come_out_once_in_order q all s :
  queue_reachable q all s ->
  exists inside,
    waiting q (back_log (mem s)) = returned s ++ inside /\ NoDup inside /\
    (producers s = ∅ -> consumer s = None ->
     (forall t, t ∈ all <-> t ∈ held s \/ t ∈ inside) /\ (forall t, t ∈ inside -> t ∉ held s) /\
     exists m', alone (mem s) (lh_exec_queue_try_pop q) = Done (default 0 (head inside), m') /\
       queue_holds q m' (tail inside)).
Proof.
  intros H. apply queue_reachable_inv in H as (H0 & f & ps & c & [C Ep Ec Hpush Hpop W R]).
  exists (carried c ++ waiting q (drop f (back_log (mem s)))). split_and!.
  - rewrite app_assoc, R. unfold waiting. by rewrite <- filter_app, take_drop.
  - apply NoDup_app. split; [by destruct c as [[]|]; simpl; try destruct (_ =? 0); try apply NoDup_nil_2; apply NoDup_singleton|].
    split; [|apply NoDup_filter, (chain_nodup _ _ _ _ C)].
    intros t Ht Hi. apply list_elem_of_filter in Hi as [_ Hi]. by apply (wh_carry _ _ _ _ _ _ W t).
  - intros Ep' Ec'. rewrite Ep' in Ep. symmetry in Ep. apply fmap_empty_inv in Ep as ->.
    rewrite Ec' in Ec. destruct c; [done|]. simpl. unfold waiting. split_and!.
    + intros t. rewrite (wh_where _ _ _ _ _ _ W), list_elem_of_filter. simpl. rewrite elem_of_nil.
      split; [|tauto]. intros [|[(k & ph & Hk & _)|[|[]]]]; [tauto|done|tauto].
    + intros t Ht Hh. apply list_elem_of_filter in Ht as [_ Ht]. by destruct (wh_held _ _ _ _ _ _ W t Hh).
    + assert (Hh : queue_holds q (mem s) (waiting q (drop f (back_log (mem s))))).
      { exists f. split; [|done]. eapply chain_weaken; [done|]. intros x y [[k Hk]|[[fr [=]] _]]. done. }
      destruct (try_pop_alone q H0 _ _ Hh) as (m' & E & Hh' & _). by exists m'.
Qed.

(** A task pushed between two looks of the consumer. *)
Lemma tasks_come_out_once_in_order_witness : exists s inside,
  held s = {[3]} /\ back_log (mem s) = [1; 2] /\
  waiting (mk_queue 1) (back_log (mem s)) = returned s ++ inside /\ NoDup inside /\
  forall t, t ∈ ({[2; 3]} : gset Z) <-> t ∈ held s \/ t ∈ inside.
Proof.
  pose (q := mk_queue 1). pose (m0 := mk_memory [] 0 (fun _ => 0) 0 [] (fun _ _ => 0) []).
  pose proof (queue_begins q {[2; 3]} m0 _ ltac:(done) ltac:(set_solver) ltac:(set_solver) eq_refl) as R.
  eapply queue_moves in R; [|apply (push_starts q _ _ _ _ _ 0%nat 2); [reflexivity|set_solver]].
  eapply queue_moves in R; [|eapply (push_acts q _ _ _ _ _ 0%nat); [reflexivity|apply action_now]].
  eapply queue_moves in R; [|eapply (push_acts q _ _ _ _ _ 0%nat); [reflexivity|apply action_now]].
  eapply queue_moves in R; [|eapply (push_acts q _ _ _ _ _ 0%nat); [reflexivity|apply action_now]].
  eapply queue_moves in R; [|eapply (push_ends q _ _ _ _ _ 0%nat); reflexivity].
  destruct (tasks_come_out_once_in_order _ _ _ R) as (inside & H1 & H2 & H3).
  eexists _, inside. split; [|split; [|split; [exact H1|split; [exact H2|apply H3; reflexivity]]]].
  - simpl. set_solver.
  - reflexivity.
Defined.
