(* ===== verification/MailboxProofs.v ===== *)
(** * Mailboxes: places and delivery

    The places of a mailbox never pass its capacity, whoever reserves and releases at the
    same time ([places_never_exceed]); a dispatch delivers the finished tasks oldest first,
    each completely ([dispatch_delivers]); a refused task's place goes back
    ([try_submit_alone]). *)
From stdpp Require Import functions.
From S2P Require Import Prelude Exec QueueProofs.

(** ** Places, over all interleavings *)

Section places.
Context (mb : lh_exec_mailbox_t) (Hc : 0 <= capacity mb < 4294967296).

(** A reservation between its read and its exchange. *)
Definition comparing (fuel : nat) (seen : Z) : prog (option bool) :=
  done ← do (Compare_exchange_used seen (u32 (seen + 1)));
  if negb (done =? 0) then mret (Some true) else lh_exec_mailbox_try_reserve fuel mb.
Definition reserve_ok (p : prog (option bool)) : Prop :=
  exists fuel, p = lh_exec_mailbox_try_reserve (S fuel) mb \/ exists seen, 0 <= seen < capacity mb /\ p = comparing fuel seen.
Definition log_ok (o : office) : Prop :=
  head (used_log (office_mem o)) = Some (places o) /\ Forall (fun v => 0 <= v <= capacity mb) (used_log (office_mem o)) /\
  (refused o = true -> capacity mb ∈ used_log (office_mem o)).
Definition office_inv (o : office) : Prop := log_ok o /\ forall k p, reserving o !! k = Some p -> reserve_ok p.

Lemma places_range o : log_ok o -> 0 <= places o <= capacity mb.
Proof using.
  intros (Hh & Hr & _). rewrite Forall_forall in Hr. apply Hr. destruct (used_log _); [done|].
  injection Hh as ->. by left.
Qed.
Lemma log_put m ts ts' n n' b :
  log_ok (mk_office m ts n b) -> 0 <= n' <= capacity mb -> log_ok (mk_office (with_used m n') ts' n' b).
Proof using.
  intros (Hh & Hr & Hb) Hn. split_and!; simpl in *; [done|by constructor|]. intros E. right. auto.
Qed.
Lemma used_places m ts n b : log_ok (mk_office m ts n b) -> used m = n.
Proof using. intros (Hh & _). simpl in Hh. unfold used. by rewrite Hh. Qed.

(** What a reserving thread's next action does. *)
Lemma reserve_step p a f v m m' ts n b :
  log_ok (mk_office m ts n b) -> reserve_ok p -> p = Do a f -> action false m a v m' ->
  m' = m /\ (reserve_ok (f v) \/ f v = Ret None \/ f v = Ret (Some false) /\ capacity mb ∈ used_log m) \/
  f v = Ret (Some true) /\ m' = with_used m (n + 1) /\ n < capacity mb.
Proof using Hc.
  intros Hl [fuel [->|(seen & Hs & ->)]] Hp Ha; injection Hp as <- <-.
  - left. assert (Hv : m' = m /\ v ∈ used_log m).
    { destruct Hl as (Hh & _). simpl in Hh. inversion Ha; subst; simpl; [|done]. split; [done|]. unfold used.
      destruct (used_log m); [done|]. by left. }
    destruct Hv as [-> Hv]. split; [done|]. destruct Hl as (_ & Hr & _). simpl in Hr.
    rewrite Forall_forall in Hr. specialize (Hr v Hv). rewrite Z.geb_leb.
    destruct (Z.leb_spec (lh_exec_mailbox_get_capacity mb) v) as [Hle|Hlt]; unfold lh_exec_mailbox_get_capacity in *.
    + right. right. split; [done|]. by replace (capacity mb) with v by lia.
    + left. exists fuel. right. exists v. split; [lia|done].
  - rewrite <- (used_places _ _ _ _ Hl) in *. inversion Ha; subst; simpl. destruct (Z.eqb_spec (used m) seen) as [<-|Hne]; simpl.
    + right. rewrite u32_id by zb. split_and!; [done|done|lia].
    + left. split; [done|]. destruct fuel as [|fuel]; [by right; left|]. left. exists fuel. by left.
Qed.

Lemma office_step o o' : office_inv o -> mailbox_step mb o o' -> office_inv o'.
Proof using Hc.
  intros [Hl Ht] Hs. destruct Hs as [m ts n b k fuel Hk|m ts n b k a f v m' a' f' Hk Ha Hf|m ts n b k a f v m' fuel Hk Ha Hf
    |m ts n b k a f v m' Hk Ha Hf|m ts n b k a f v m' Hk Ha Hf|m ts n b a f v m' Hn Hr Ha]; simpl in Ht;
    try (destruct (reserve_step _ _ _ _ _ _ _ _ _ Hl (Ht _ _ Hk) eq_refl Ha) as
      [[-> [Ho|[Ho|[Ho Hin]]]]|(Ho & -> & Hlt)]); try (rewrite Hf in Ho; try discriminate Ho).
  - split; [done|]. intros k' p H. simpl in H. apply lookup_insert_Some in H as [[<- <-]|[? H]]; [|by apply (Ht k')].
    exists fuel. by left.
  - split; [done|]. intros k' p H. simpl in H. apply lookup_insert_Some in H as [[<- <-]|[? H]]; [|by apply (Ht k')]. by rewrite Hf.
  - destruct Ho as [? [Ho|(? & _ & Ho)]]; discriminate Ho.
  - split; [done|]. intros k' p H. simpl in H. apply lookup_insert_Some in H as [[<- <-]|[? H]]; [|by apply (Ht k')].
    exists fuel. by left.
  - destruct Ho as [? [Ho|(? & _ & Ho)]]; discriminate Ho.
  - split; [|intros k' p H; simpl in H; apply lookup_delete_Some in H as [_ H]; by apply (Ht k')].
    apply (log_put _ ts _ n _ _ Hl). pose proof (places_range _ Hl) as Hp. simpl in Hp. lia.
  - destruct Ho as [? [Ho|(? & _ & Ho)]]; discriminate Ho.
  - split; [|intros k' p H; simpl in H; apply lookup_delete_Some in H as [_ H]; by apply (Ht k')].
    destruct Hl as (Hh & Hr & _). by split_and!.
  - split; [|done]. injection Hr as <- <-. inversion Ha; subst. simpl. rewrite (used_places _ _ _ _ Hl).
    pose proof (places_range _ Hl) as Hp. simpl in Hp. rewrite u32_id by zb. apply (log_put _ ts _ n _ _ Hl). lia.
Qed.
Lemma office_begins m0 m : alone m0 (lh_exec_mailbox_init mb (capacity mb)) = Done (mb, m) -> used_log m = [0].
Proof using. unfold lh_exec_mailbox_init. rewrite alone_bind. cbn. intros [= _ <-]. done. Qed.
Lemma office_reachable o : mailbox_reachable mb o -> office_inv o.
Proof using Hc.
  induction 1 as [m0 m E|o o' _ IH Hs]; [|exact (office_step _ _ IH Hs)].
  apply office_begins in E. split; [|done]. unfold log_ok. simpl. rewrite E.
  split_and!; [done| |done]. constructor; [lia|constructor].
Qed.
End places.

(** Claim C11: However submitters and the owner interleave, with reads of the count as old as they may be,
    the count is the number of places taken, and never more than the capacity; a reservation
    is refused only when all places were taken at some moment. *)
Theorem places_never_exceed mb o :
  0 <= capacity mb < 4294967296 -> mailbox_reachable mb o ->
  used (office_mem o) = places o /\ 0 <= places o <= capacity mb /\
  (refused o = true -> capacity mb ∈ used_log (office_mem o)).
Proof.
  intros Hc H. apply (office_reachable _ Hc) in H as [Hl _]. split; [|split].
  - destruct o as [m ts n b]. exact (used_places _ _ _ _ _ Hl).
  - exact (places_range _ _ Hl).
  - apply Hl.
Qed.

(** Two places, one taken and given back. *)
Lemma places_never_exceed_witness : exists o,
  places o = 1 /\ used (office_mem o) = places o /\ 0 <= places o <= 2.
Proof.
  pose (mb := mk_mailbox 8 2 (mk_queue 1)). pose (m0 := mk_memory [] 0 (fun _ => 0) 0 [] (fun _ _ => 0) []).
  pose proof (mailbox_begins mb m0 _ eq_refl) as R.
  eapply mailbox_moves in R; [|apply (reserve_starts mb _ _ _ _ 0%nat 0%nat); reflexivity].
  eapply mailbox_moves in R; [|eapply (reserve_acts mb _ _ _ _ 0%nat); [reflexivity|apply action_now|reflexivity]].
  eapply mailbox_moves in R; [|eapply (reserve_succeeds mb _ _ _ _ 0%nat); [reflexivity|apply action_now|reflexivity]].
  destruct (places_never_exceed mb _ ltac:(simpl; lia) R) as (H1 & H2 & _).
  eexists. split; [|split; [exact H1|exact H2]]. reflexivity.
Defined.

(** ** Delivery, alone *)

(** The calls a delivery makes: [complete] unless the task was cancelled, then [destroy],
    each if the task has it; [places] are taken during both of them. *)
Definition calls_of (m : memory) (t places : Z) : list (Z * Z * Z * Z) :=
  (if (fields m t Cancelled =? 0) && negb (fields m t Complete_cb =? 0)
   then [(fields m t Complete_cb, fields m t User, 0, places)] else []) ++
  (if negb (fields m t Destroy_cb =? 0) then [(fields m t Destroy_cb, fields m t User, 0, places)] else []).
(** The calls of a dispatch that begins with [places] taken: a place fewer from task to task. *)
Fixpoint calls_of_all (m : memory) (ts : list Z) (places : Z) : list (Z * Z * Z * Z) :=
  match ts with [] => [] | t :: ts => calls_of m t places ++ calls_of_all m ts (places - 1) end.

(** What a queue operation leaves alone is all a delivery touches. *)
Lemma holds_change q m m' ts :
  queue_holds q m ts -> back_log m' = back_log m -> seen_back m' = seen_back m -> next_of m' = next_of m ->
  front_of m' = front_of m -> queue_holds q m' ts.
Proof.
  intros (f & [C1 C2 C3 C4 C5 C6] & <-) E1 E2 E3 E4. exists f. rewrite E1. split; [|done].
  split; rewrite ?E1, ?E2, ?E3, ?E4; done.
Qed.
Lemma holds_nonzero q m ts : queue_holds q m ts -> 0 ∉ ts.
Proof. intros (f & C & <-) H. apply list_elem_of_filter in H as [_ H]. by apply (chain_nonzero _ _ _ _ C). Qed.

Lemma calls_of_all_fields m1 m2 ts : forall n, fields m1 = fields m2 -> calls_of_all m1 ts n = calls_of_all m2 ts n.
Proof. induction ts as [|t ts IH]; intros n E; [done|]. cbn [calls_of_all]. unfold calls_of. by rewrite E, (IH _ E). Qed.

Section deliver.
Context (mb : lh_exec_mailbox_t) (stub_set : stub (finished mb) <> 0).

Lemma deliver_alone m t ts :
  queue_holds (finished mb) m ts -> is_u32 (used m - 1) ->
  exists m', alone m (lh_exec_mailbox_deliver mb t) = Done (tt, m') /\ queue_holds (finished mb) m' ts /\
    used m' = used m - 1 /\ fields m' = fields m /\ calls m' = calls m ++ calls_of m t (used m).
Proof using.
  intros Hq Hu. unfold lh_exec_mailbox_deliver, lh_exec_task_is_cancelled, lh_exec_task_run_complete,
    lh_exec_task_run_destroy, calls_of. cbn -[u32].
  destruct (Z.eqb_spec (fields m t Cancelled) 0); cbn -[u32];
    [destruct (Z.eqb_spec (fields m t Complete_cb) 0); cbn -[u32]|];
    (destruct (Z.eqb_spec (fields m t Destroy_cb) 0); cbn -[u32]);
    (eexists; split; [reflexivity|]; cbn -[u32]; rewrite ?app_nil_r, <- ?app_assoc; split_and!;
      [by eapply holds_change|change (u32 (used m - 1) = used m - 1); by apply u32_id|done|done]).
Qed.

Lemma dispatch_loop_alone n : forall m ts c,
  queue_holds (finished mb) m ts -> Z.of_nat n <= used m -> is_u32 (used m) -> 0 <= c -> c + Z.of_nat n <= LH_UINT_T_MAX ->
  let d := Nat.min n (length ts) in
  exists m', alone m (dispatch_loop n mb c) = Done (c + Z.of_nat d, m') /\ queue_holds (finished mb) m' (drop d ts) /\
    used m' = used m - Z.of_nat d /\ fields m' = fields m /\ calls m' = calls m ++ calls_of_all m (take d ts) (used m).
Proof using stub_set.
  induction n as [|n IH]; intros m ts c Hq Hn Hu Hc Hb; cbn [dispatch_loop].
  - simpl. exists m. rewrite Z.add_0_r, Z.sub_0_r, app_nil_r, drop_0. done.
  - destruct (try_pop_alone _ stub_set _ _ Hq) as (m1 & E & Hq1 & (Eu & Ef & Ecl)).
    rewrite alone_bind. unfold lh_exec_mailbox_try_take, lh_exec_mailbox_get_finished_mut. rewrite E.
    cbn [mbind outcome_bind].
    destruct ts as [|t ts].
    + simpl. exists m1. rewrite Z.add_0_r, Z.sub_0_r, app_nil_r. unfold used. rewrite Eu. done.
    + cbn [head tail default from_option id]. change (id t) with t.
      pose proof (holds_nonzero _ _ _ Hq) as H0. apply not_elem_of_cons in H0 as [H0 _].
      rewrite (proj2 (Z.eqb_neq t 0)) by done. unfold used in *.
      destruct (deliver_alone m1 t ts Hq1) as (m2 & E2 & Hq2 & Eu2 & Ef2 & Ec2); [unfold used; rewrite Eu; zb|].
      unfold used in *. rewrite Eu in Eu2. rewrite alone_bind, E2.
      cbn [mbind outcome_bind length Nat.min take drop]. rewrite u32_id by zb.
      destruct (IH m2 ts (c + 1) Hq2) as (m3 & E3 & Hq3 & Eu3 & Ef3 & Ec3); [zb|zb|zb|zb|].
      exists m3. rewrite E3. split_and!; [do 2 f_equal; lia|done|lia|congruence|].
      rewrite Ec3, Ec2, Ecl, <- app_assoc. cbn [calls_of_all]. rewrite Eu2. unfold calls_of at 1. rewrite Ef.
      rewrite (calls_of_all_fields m2 m) by congruence. by rewrite Eu.
Qed.
End deliver.

(** Claim C12: Dispatch by the owner, nobody else at work: it delivers the finished tasks, oldest first,
    as many as there are places taken when it starts.  Each delivery runs [complete] (not of a
    cancelled task), then [destroy], and only then gives the place back: of each call the
    number of places taken is known, and the place of a task is still counted in both of its
    calls and no longer in those of the next task.  The rest stays in order; the number
    delivered is returned.  (The callbacks are opaque and do not touch the mailbox.) *)
Theorem dispatch_delivers mb m ts :
  stub (finished mb) <> 0 -> queue_holds (finished mb) m ts -> is_u32 (used m) ->
  let d := Nat.min (Z.to_nat (used m)) (length ts) in
  exists m', alone m (lh_exec_mailbox_dispatch mb) = Done (Z.of_nat d, m') /\
    queue_holds (finished mb) m' (drop d ts) /\ used m' = used m - Z.of_nat d /\
    calls m' = calls m ++ calls_of_all m (take d ts) (used m).
Proof.
  intros Hs Hq Hu d. unfold lh_exec_mailbox_dispatch. rewrite alone_bind. cbn -[dispatch_loop].
  destruct (dispatch_loop_alone mb Hs (Z.to_nat (used m)) m ts 0 Hq) as (m' & E & Hq' & Eu & _ & Ec); [zb|zb|zb|zb|].
  exists m'. rewrite E. done.
Qed.

(** ** Submitting, alone *)

(** Submitting to a mailbox with room takes a place and names the mailbox in the task; the place
    is kept exactly when the executor accepts.  A full mailbox refuses and nothing changes. *)
Theorem try_submit_alone accept fuel mb task m :
  is_u32 (capacity mb) -> 0 <= used m ->
  (forall m, exists b m', alone m (accept task) = Done (b, m') /\ used m' = used m) ->
  (used m >= capacity mb -> alone m (lh_exec_executor_try_submit accept (S fuel) task mb) = Done (Some false, m)) /\
  (used m < capacity mb -> exists b m1 m2,
     alone (with_field (with_used m (used m + 1)) task Mailbox (mailbox_address mb)) (accept task) = Done (b, m1) /\
     alone m (lh_exec_executor_try_submit accept (S fuel) task mb) = Done (Some b, m2) /\
     used m2 = used m + (if b then 1 else 0)).
Proof.
  intros Hc Hu Ha. unfold lh_exec_executor_try_submit. rewrite alone_bind. cbn -[u32].
  unfold lh_exec_mailbox_get_capacity. rewrite Z.geb_leb.
  split; intros Hl; [rewrite (proj2 (Z.leb_le _ _)) by lia; done|].
  rewrite (proj2 (Z.leb_gt _ _)) by lia. cbn -[u32]. rewrite Z.eqb_refl. cbn -[u32]. rewrite u32_id by zb.
  destruct (Ha (with_field (with_used m (used m + 1)) task Mailbox (mailbox_address mb))) as (b & m1 & E & Eu).
  change (used (with_field (with_used m (used m + 1)) task Mailbox (mailbox_address mb))) with (used m + 1) in Eu.
  exists b, m1. setoid_rewrite alone_bind. rewrite E. cbn -[u32]. destruct b; cbn -[u32].
  - exists m1. done.
  - eexists. split_and!; [done|done|]. cbn -[u32]. change (u32 (used m1 - 1) = used m + 0). rewrite Eu, u32_id by zb. lia.
Qed.

(** Two finished tasks, the second cancelled. *)
Lemma dispatch_delivers_witness :
  let fields t f :=
    match f with Complete_cb => 100 | Destroy_cb => 101 | User => 7 * t | Cancelled => if t =? 6 then 1 else 0 | _ => 0 end in
  let m := mk_memory [1; 5; 6] 0 (fun t => if t =? 1 then 5 else if t =? 5 then 6 else 0) 1 [2] fields [] in
  exists m', alone m (lh_exec_mailbox_dispatch (mk_mailbox 8 2 (mk_queue 1))) = Done (2, m') /\
    used m' = 0 /\ calls m' = [(100, 35, 0, 2); (101, 35, 0, 2); (101, 42, 0, 1)].
Proof.
  intros fields m. destruct (dispatch_delivers (mk_mailbox 8 2 (mk_queue 1)) m [5; 6]) as (m' & E & _ & Eu & Ec).
  - done.
  - exists 0%nat. split; [|done]. split; simpl; try done.
    + apply (bool_decide_unpack _). vm_compute. exact I.
    + by apply (bool_decide_unpack _).
    + intros [|[|[|i]]] x y _; simpl; intros; simplify_eq; auto.
    + by intros x [= <-].
    + intros [|[|[|i]]]; simpl; intros; simplify_eq; lia.
  - vm_compute. split; congruence.
  - exists m'. split_and!; [exact E|rewrite Eu; reflexivity|rewrite Ec; reflexivity].
Defined.

(** An executor that takes nothing. *)
Lemma try_submit_alone_witness :
  let m := mk_memory [1] 0 (fun _ => 0) 1 [1] (fun _ _ => 0) [] in
  exists m2, alone m (lh_exec_executor_try_submit (fun _ => mret false) 1 5 (mk_mailbox 8 2 (mk_queue 1))) =
    Done (Some false, m2) /\ used m2 = 1.
Proof.
  intros m. destruct (try_submit_alone (fun _ => mret false) 0 (mk_mailbox 8 2 (mk_queue 1)) 5 m) as [_ H].
  - simpl. zb.
  - done.
  - intros m'. exists false, m'. done.
  - destruct H as (b & m1 & m2 & E1 & E2 & Eu); [done|]. injection E1 as <- <-. exists m2. split; [exact E2|exact Eu].
Defined.
