(* ===== verification/Deflate.v ===== *)
(** * DEFLATE

    [compress/deflate.c] with [deflate/tokens.c], [deflate/matcher.c] and
    [deflate/encoder.c]: the decoder of the three kinds of blocks, the canonical prefix codes,
    and the encoder, which finds matches by hash chains and writes each block stored or with
    the fixed codes, whichever is shorter.  The incremental reader of [deflate/reader.c] is
    not modelled.

    A function [try_f] that can refuse gives [None] for false, its out-parameters in [Some];
    one that writes into the output gives the output with it, refused or not ([writing]).  The
    bit scan is the portable one.  Theorems in [HuffmanProofs], [PutProofs],
    [InflateProofs] and [DeflateProofs], against the format in [DeflateSpec]. *)
From S2P Require Import Prelude Buffer Bytes Swar Memory Block.

(** ** Refusal *)

Definition attempt (A : Type) : Type := outcome (option A).
#[export] Instance attempt_ret : MRet attempt := fun A a => Done (Some a).
#[export] Instance attempt_bind : MBind attempt := fun A B f m =>
  match m with Done (Some a) => f a | Done None => Done None | Fault c => Fault c | Undef => Undef end.
Definition refuse {A} : attempt A := Done None.
Definition surely {A} (m : outcome A) : attempt A := match m with Done a => Done (Some a) | Fault c => Fault c | Undef => Undef end.

(** What may also write into the output array. *)
Definition writing (A : Type) : Type := buffer -> outcome (buffer * option A).
#[export] Instance writing_ret : MRet writing := fun A a out => Done (out, Some a).
#[export] Instance writing_bind : MBind writing := fun A B f m out =>
  match m out with
  | Done (out, Some a) => f a out
  | Done (out, None) => Done (out, None)
  | Fault c => Fault c
  | Undef => Undef
  end.
Definition only {A} (m : attempt A) : writing A := fun out =>
  match m with Done r => Done (out, r) | Fault c => Fault c | Undef => Undef end.
Definition store (f : buffer -> outcome buffer) : writing unit := fun out =>
  match f out with Done out => Done (out, Some tt) | Fault c => Fault c | Undef => Undef end.

(** [lh_runtime_check_ifn(try_f(...), lh_runtime_error_code_invalid_range)] *)
Definition must {A} (m : attempt A) : outcome A :=
  r ← m; match r with Some a => Done a | None => Fault lh_runtime_error_code_invalid_range end.
Definition must_write {A} (m : writing A) (out : buffer) : outcome (buffer * A) :=
  '(out, r) ← m out; match r with Some a => Done (out, a) | None => Fault lh_runtime_error_code_invalid_range end.

(** Arithmetic on [lh_int_t]: the overflow is undefined. *)
Definition int (x : Z) : outcome Z :=
  if (-2147483648 <=? x) && (x <=? 2147483647) then Done x else Undef.
(** [lh_interval_closed_is_add_overflow(a, b, 0U, LH_USIZE_T_MAX)] *)
Definition adds_over (a b : Z) : bool := (b >? 0) && (u64 (LH_USIZE_T_MAX - a) <? b).
(** [lh_memory_std_set] of the first [n] elements of an array to 0. *)
Definition clear (a : list Z) (n : Z) : outcome (list Z) :=
  if (0 <=? n) && (n <=? len a) then Done (replicate (Z.to_nat n) 0 ++ drop (Z.to_nat n) a) else Undef.

(** ** Tables *)

Definition LH_COMPRESS_DEFLATE_FIXED_DISTANCE_BITS : Z := 5.
Definition LH_COMPRESS_DEFLATE_FIXED_LITERAL_CODES : Z := 288.
Definition LH_COMPRESS_DEFLATE_FIXED_DISTANCE_CODES : Z := 32.
Definition LH_COMPRESS_DEFLATE_LITERAL_SYMBOLS : Z := 286.
Definition LH_COMPRESS_DEFLATE_DISTANCE_SYMBOLS : Z := 30.
Definition LH_COMPRESS_DEFLATE_END_OF_BLOCK : Z := 256.
Definition LH_COMPRESS_DEFLATE_FIRST_LENGTH_SYMBOL : Z := 257.
Definition LH_COMPRESS_DEFLATE_STORED_MAX : Z := 65535.
Definition LH_COMPRESS_DEFLATE_STORED_OVERHEAD : Z := 5.
Definition LH_COMPRESS_DEFLATE_WINDOW_SIZE : Z := 32768.
Definition LH_COMPRESS_DEFLATE_TOKENS_LIMIT : Z := 16384.
Definition LH_COMPRESS_DEFLATE_MATCHER_HASH_SIZE : Z := 32768.
Definition LH_COMPRESS_DEFLATE_MATCHER_MIN_MATCH : Z := 3.
Definition LH_COMPRESS_DEFLATE_MATCHER_MAX_MATCH : Z := 258.
Definition LH_COMPRESS_DEFLATE_MATCHER_INPUT_LIMIT : Z := 0xFFFFFFFE.

Definition lh_compress_deflate_length_base : list Z :=
  [3; 4; 5; 6; 7; 8; 9; 10; 11; 13; 15; 17; 19; 23; 27;
   31; 35; 43; 51; 59; 67; 83; 99; 115; 131; 163; 195; 227; 258].
Definition lh_compress_deflate_length_extra : list Z :=
  [0; 0; 0; 0; 0; 0; 0; 0; 1; 1; 1; 1; 2; 2; 2; 2; 3; 3; 3; 3; 4; 4; 4; 4; 5; 5; 5; 5; 0].
Definition lh_compress_deflate_distance_base : list Z :=
  [1; 2; 3; 4; 5; 7; 9; 13; 17; 25; 33; 49; 65; 97; 129;
   193; 257; 385; 513; 769; 1025; 1537; 2049; 3073; 4097; 6145; 8193; 12289; 16385; 24577].
Definition lh_compress_deflate_distance_extra : list Z :=
  [0; 0; 0; 0; 1; 1; 2; 2; 3; 3; 4; 4; 5; 5; 6; 6; 7; 7; 8; 8; 9; 9; 10; 10; 11; 11; 12; 12; 13; 13].

Definition lh_compress_deflate_get_length_base (index : Z) : outcome Z := load lh_compress_deflate_length_base index.
Definition lh_compress_deflate_get_length_extra (index : Z) : outcome Z := load lh_compress_deflate_length_extra index.
Definition lh_compress_deflate_get_distance_base (code : Z) : outcome Z := load lh_compress_deflate_distance_base code.
Definition lh_compress_deflate_get_distance_extra (code : Z) : outcome Z := load lh_compress_deflate_distance_extra code.
Definition lh_bit_scan_reverse_u32 (x : Z) : Z := scan_reverse_loop 32 x 31.
Definition lh_compress_deflate_get_length_index (length : Z) : Z :=
  let x := u32 (length - 3) in
  if x <? 8 then x else
  if length =? 258 then 28 else
  let top := lh_bit_scan_reverse_u32 x in
  u32 (u32 (u32 (top - 1) * 4) + Z.land (Z.shiftr x (u32 (top - 2))) 3).
Definition lh_compress_deflate_get_distance_code (distance : Z) : Z :=
  let x := u32 (distance - 1) in
  if x <? 4 then x else
  let top := lh_bit_scan_reverse_u32 x in
  u32 (u32 (top * 2) + Z.land (Z.shiftr x (u32 (top - 1))) 1).
Definition lh_compress_deflate_get_fixed_length (symbol : Z) : Z :=
  if symbol <? 144 then 8 else
  if symbol <? 256 then 9 else
  if symbol <? 280 then 7 else 8.
Definition lh_compress_deflate_fill_fixed_lengths (lit_lengths dist_lengths : buffer) : outcome (buffer * buffer) :=
  lit_lengths ← for_up 0 LH_COMPRESS_DEFLATE_FIXED_LITERAL_CODES
    (fun i a => put a i (u8 (lh_compress_deflate_get_fixed_length i))) lit_lengths;
  dist_lengths ← set_bytes dist_lengths 0 LH_COMPRESS_DEFLATE_FIXED_DISTANCE_BITS LH_COMPRESS_DEFLATE_FIXED_DISTANCE_CODES;
  mret (lit_lengths, dist_lengths).

(** ** Bits and codes *)

Fixpoint bits_loop (n : nat) (input : buffer) (size pos i result : Z) : attempt (Z * Z) :=
  match n with
  | O => mret (pos, result)
  | S n =>
    if pos / 8 >=? size then refuse else
    byte ← surely (load input (pos / 8));
    let bit := Z.land (Z.shiftr byte (pos mod 8)) 1 in
    bits_loop n input size (u64 (pos + 1)) (i + 1) (Z.lor result (u32 (Z.shiftl bit i)))
  end.
(** The new position and the value. *)
Definition lh_compress_deflate_try_bits (input : buffer) (size position count : Z) : attempt (Z * Z) :=
  if adds_over position count then refuse else
  bits_loop (Z.to_nat count) input size position 0 0.
Definition lh_compress_deflate_bits (input : buffer) (size position count : Z) : outcome (Z * Z) :=
  must (lh_compress_deflate_try_bits input size position count).

(** How many codes of each length; false when a length is over 15. *)
Fixpoint lengths_loop (n : nat) (lengths : buffer) (i : Z) (counts : list Z) : outcome (bool * list Z) :=
  match n with
  | O => mret (true, counts)
  | S n =>
    l ← load lengths i;
    if l >? 15 then mret (false, counts) else
    c ← load counts l;
    counts ← put counts l (u16 (c + 1));
    lengths_loop n lengths (i + 1) counts
  end.
(** The space of codes left after the lengths up to 15, refused when it is overdrawn, and the
    number of symbols, which only [is_tree_valid] counts. *)
Fixpoint left_loop (n : nat) (counts : list Z) (length room symbols : Z) : attempt (Z * Z) :=
  match n with
  | O => mret (room, symbols)
  | S n =>
    c ← surely (load counts length);
    room ← surely (room ← int (room * 2); int (room - c));
    if room <? 0 then refuse else left_loop n counts (length + 1) room (u32 (symbols + c))
  end.
Definition offsets_of (counts : list Z) : outcome (list Z) :=
  offsets ← put (local 16) 1 0;
  for_up 1 15 (fun l offsets =>
    o ← load offsets l;
    c ← load counts l;
    put offsets (l + 1) (u16 (o + c))) offsets.
Definition sort_symbols (lengths : buffer) (size : Z) (offsets symbols : list Z) : outcome (list Z * list Z) :=
  for_up 0 size (fun i '(offsets, symbols) =>
    l ← load lengths i;
    if negb (l =? 0) then
      o ← load offsets l;
      symbols ← put symbols o (u16 i);
      offsets ← put offsets l (u16 (o + 1));
      mret (offsets, symbols)
    else mret (offsets, symbols)) (offsets, symbols).
(** Whether it could be built, and the two arrays. *)
Definition lh_compress_deflate_try_build (lengths : buffer) (size : Z) (counts symbols : list Z)
    : outcome (bool * list Z * list Z) :=
  counts ← clear counts 16;
  '(ok, counts) ← lengths_loop (Z.to_nat size) lengths 0 counts;
  if negb ok then mret (false, counts, symbols) else
  room ← left_loop 15 counts 1 1 0;
  match room with
  | None => mret (false, counts, symbols)
  | Some _ =>
    offsets ← offsets_of counts;
    '(_, symbols) ← sort_symbols lengths size offsets symbols;
    mret (true, counts, symbols)
  end.
Definition lh_compress_deflate_build (lengths : buffer) (size : Z) (counts symbols : list Z) : outcome (list Z * list Z) :=
  '(ok, counts, symbols) ← lh_compress_deflate_try_build lengths size counts symbols;
  if ok : bool then mret (counts, symbols) else Fault lh_runtime_error_code_invalid_range.
Definition lh_compress_deflate_is_tree_valid (counts : list Z) (allow_single allow_empty : bool) : outcome bool :=
  r ← left_loop 15 counts 1 1 0;
  match r with
  | None => mret false
  | Some (room, symbols) =>
    if symbols =? 0 then mret allow_empty else
    if room =? 0 then mret true else
    if allow_single && (symbols =? 1) then c ← load counts 1; mret (c =? 1) else mret false
  end.

Fixpoint symbol_loop (n : nat) (input : buffer) (size : Z) (counts symbols : list Z) (length pos code first index : Z)
    : attempt (Z * Z) :=
  match n with
  | O => refuse
  | S n =>
    '(pos, bit) ← lh_compress_deflate_try_bits input size pos 1;
    let code := Z.lor code bit in
    count ← surely (load counts length);
    if (code >=? first) && (u32 (code - first) <? count) then
      symbol ← surely (load symbols (u32 (index + u32 (code - first))));
      mret (pos, symbol)
    else
      symbol_loop n input size counts symbols (length + 1) pos (u32 (Z.shiftl code 1))
        (u32 (Z.shiftl (u32 (first + count)) 1)) (u32 (index + count))
  end.
Definition lh_compress_deflate_try_symbol (input : buffer) (size position : Z) (counts symbols : list Z) : attempt (Z * Z) :=
  symbol_loop 15 input size counts symbols 1 position 0 0 0.
Definition lh_compress_deflate_symbol (input : buffer) (size position : Z) (counts symbols : list Z) : outcome (Z * Z) :=
  must (lh_compress_deflate_try_symbol input size position counts symbols).

(** ** Stored blocks *)

Definition lh_compress_deflate_get_pad_bits (position : Z) : Z := u64 (8 - position mod 8) mod 8.
Definition lh_compress_deflate_try_stored_header (input : buffer) (input_size position : Z) : attempt (Z * Z) :=
  if adds_over position 7 then refuse else
  let pos := u64 (position + lh_compress_deflate_get_pad_bits position) in
  '(pos, value) ← lh_compress_deflate_try_bits input input_size pos 16;
  '(pos, inverse) ← lh_compress_deflate_try_bits input input_size pos 16;
  if negb (Z.lxor value inverse =? 65535) then refuse else
  mret (pos, value).
Definition lh_compress_deflate_stored_header (input : buffer) (input_size position : Z) : outcome (Z * Z) :=
  must (lh_compress_deflate_try_stored_header input input_size position).
(** The new position and how much is written then. *)
Definition lh_compress_deflate_try_stored (input : buffer) (input_size position capacity written : Z) : writing (Z * Z) :=
  let used := written in
  if used >? capacity then only refuse else
  '(pos, length) ← only (lh_compress_deflate_try_stored_header input input_size position);
  if (length >? u64 (capacity - used)) || (length >? u64 (input_size - pos / 8)) || (length >? u64 (LH_USIZE_T_MAX - pos) / 8)
  then only refuse else
  _ ← (if negb (length =? 0) then store (fun output => copy_bytes output used (drop (Z.to_nat (pos / 8)) input) length)
       else mret tt);
  mret (u64 (pos + u64 (length * 8)), u64 (used + length)).
Definition lh_compress_deflate_stored (input : buffer) (input_size position : Z) (output : buffer) (capacity written : Z)
    : outcome (buffer * (Z * Z)) :=
  must_write (lh_compress_deflate_try_stored input input_size position capacity written) output.

(** ** Trees *)

(** The four arrays a block is decoded with, which the code passes one by one. *)
Record trees := mk_trees { lit_counts : list Z; lit_symbols : list Z; dist_counts : list Z; dist_symbols : list Z }.
Definition build_lit (lengths : buffer) (size : Z) (t : trees) : outcome (bool * trees) :=
  '(ok, c, s) ← lh_compress_deflate_try_build lengths size (lit_counts t) (lit_symbols t);
  mret (ok, mk_trees c s (dist_counts t) (dist_symbols t)).
Definition build_dist (lengths : buffer) (size : Z) (t : trees) : outcome (bool * trees) :=
  '(ok, c, s) ← lh_compress_deflate_try_build lengths size (dist_counts t) (dist_symbols t);
  mret (ok, mk_trees (lit_counts t) (lit_symbols t) c s).
Definition lh_compress_deflate_try_fixed (t : trees) : outcome (bool * trees) :=
  '(lit_lengths, dist_lengths) ← lh_compress_deflate_fill_fixed_lengths
    (local LH_COMPRESS_DEFLATE_FIXED_LITERAL_CODES) (local LH_COMPRESS_DEFLATE_FIXED_DISTANCE_CODES);
  '(ok, t) ← build_lit lit_lengths LH_COMPRESS_DEFLATE_FIXED_LITERAL_CODES t;
  if negb ok then mret (false, t) else
  build_dist dist_lengths LH_COMPRESS_DEFLATE_FIXED_DISTANCE_CODES t.
Definition lh_compress_deflate_fixed (t : trees) : outcome trees :=
  '(ok, t) ← lh_compress_deflate_try_fixed t;
  if ok : bool then mret t else Fault lh_runtime_error_code_invalid_range.

Definition code_length_order : list Z := [16; 17; 18; 0; 8; 7; 9; 6; 10; 5; 11; 4; 12; 3; 13; 2; 14; 1; 15].
Fixpoint order_loop (n : nat) (input : buffer) (input_size pos i : Z) (code_lengths : buffer) : attempt (Z * buffer) :=
  match n with
  | O => mret (pos, code_lengths)
  | S n =>
    '(pos, v) ← lh_compress_deflate_try_bits input input_size pos 3;
    o ← surely (load code_length_order i);
    code_lengths ← surely (put code_lengths o (u8 v));
    order_loop n input input_size pos (i + 1) code_lengths
  end.
(** [lengths[i++] = value], [n] times. *)
Fixpoint repeat_loop (n : nat) (lengths : buffer) (i value : Z) : outcome (buffer * Z) :=
  match n with
  | O => mret (lengths, i)
  | S n =>
    lengths ← put lengths i value;
    repeat_loop n lengths (u32 (i + 1)) value
  end.
(** The code lengths of both alphabets, run by run; each round consumes a bit. *)
Fixpoint runs_loop (fuel : nat) (input : buffer) (input_size pos : Z) (counts symbols : list Z) (total i : Z)
    (lengths : buffer) : attempt (Z * buffer) :=
  match fuel with
  | O => Undef
  | S fuel =>
    if i <? total then
      '(pos, symbol) ← lh_compress_deflate_try_symbol input input_size pos counts symbols;
      if symbol <? 16 then
        lengths ← surely (put lengths i (u8 symbol));
        runs_loop fuel input input_size pos counts symbols total (u32 (i + 1)) lengths
      else
      if (symbol >? 18) || ((symbol =? 16) && (i =? 0)) then refuse else
      let bits := if symbol =? 16 then 2 else if symbol =? 17 then 3 else 7 in
      '(pos, extra) ← lh_compress_deflate_try_bits input input_size pos bits;
      let repeat := u32 (extra + (if symbol =? 18 then 11 else 3)) in
      if repeat >? u32 (total - i) then refuse else
      value ← surely (if symbol =? 16 then load lengths (u32 (i - 1)) else mret 0);
      '(lengths, i) ← surely (repeat_loop (Z.to_nat repeat) lengths i value);
      runs_loop fuel input input_size pos counts symbols total i lengths
    else mret (pos, lengths)
  end.
(** The part of [try_dynamic] that reads the lengths: the position, [hlit], [hdist], [lengths]. *)
Definition read_lengths (input : buffer) (input_size pos : Z) : attempt (Z * Z * Z * buffer) :=
  '(pos, hlit) ← lh_compress_deflate_try_bits input input_size pos 5;
  '(pos, hdist) ← lh_compress_deflate_try_bits input input_size pos 5;
  '(pos, hclen) ← lh_compress_deflate_try_bits input input_size pos 4;
  let hlit := u32 (hlit + 257) in
  let hdist := u32 (hdist + 1) in
  let hclen := u32 (hclen + 4) in
  if hlit >? LH_COMPRESS_DEFLATE_LITERAL_SYMBOLS then refuse else
  '(pos, code_lengths) ← order_loop (Z.to_nat hclen) input input_size pos 0 (local 19);
  '(ok, code_counts, code_symbols) ← surely (lh_compress_deflate_try_build code_lengths 19 (local 16) (local 19));
  if negb ok then refuse else
  valid ← surely (lh_compress_deflate_is_tree_valid code_counts false false);
  if negb valid then refuse else
  let total := u32 (hlit + hdist) in
  '(pos, lengths) ← runs_loop (S (Z.to_nat total)) input input_size pos code_counts code_symbols total 0 (local 320);
  mret (pos, hlit, hdist, lengths).
(** The new position, if the block's trees could be read, and the arrays. *)
Definition lh_compress_deflate_try_dynamic (input : buffer) (input_size position : Z) (t : trees)
    : outcome (option Z * trees) :=
  r ← read_lengths input input_size position;
  match r with
  | None => mret (None, t)
  | Some (pos, hlit, hdist, lengths) =>
    end_length ← load lengths 256;
    if end_length =? 0 then mret (None, t) else
    '(ok, t) ← build_lit lengths hlit t;
    if negb ok then mret (None, t) else
    valid ← lh_compress_deflate_is_tree_valid (lit_counts t) true false;
    if negb valid then mret (None, t) else
    '(ok, t) ← build_dist (drop (Z.to_nat hlit) lengths) hdist t;
    if negb ok then mret (None, t) else
    valid ← lh_compress_deflate_is_tree_valid (dist_counts t) true true;
    if negb valid then mret (None, t) else
    mret (Some pos, t)
  end.
Definition lh_compress_deflate_dynamic (input : buffer) (input_size position : Z) (t : trees) : outcome (Z * trees) :=
  '(r, t) ← lh_compress_deflate_try_dynamic input input_size position t;
  match r with Some pos => Done (pos, t) | None => Fault lh_runtime_error_code_invalid_range end.

(** ** Matches *)

(** [lh_memory_set_pattern(output + at, n, output + from, k)] in the memory that holds the output
    at address 1. *)
Definition set_pattern_in (output : buffer) (at_ n from k : Z) : outcome buffer :=
  '(mem, _) ← lh_memory_set_pattern (0 :: output) (1 + at_) n (1 + from) k;
  mret (tail mem).
Definition lh_compress_deflate_try_copy_match (capacity written distance length : Z) : writing Z :=
  let used := written in
  if (used >? capacity) || (distance =? 0) || (distance >? LH_COMPRESS_DEFLATE_WINDOW_SIZE) || (distance >? used) ||
     (length >? u64 (capacity - used)) then only refuse else
  _ ← (if negb (length =? 0) then store (fun output => set_pattern_in output used length (u64 (used - distance)) distance)
       else mret tt);
  mret (u64 (used + length)).
Definition lh_compress_deflate_copy_match (output : buffer) (capacity written distance length : Z) : outcome (buffer * Z) :=
  must_write (lh_compress_deflate_try_copy_match capacity written distance length) output.
(** The new position, the length and the distance. *)
Definition lh_compress_deflate_try_match (input : buffer) (input_size position symbol : Z) (dist_counts dist_symbols : list Z)
    : attempt (Z * Z * Z) :=
  if (symbol <? LH_COMPRESS_DEFLATE_FIRST_LENGTH_SYMBOL) || (symbol >=? LH_COMPRESS_DEFLATE_LITERAL_SYMBOLS) then refuse else
  let li := u32 (symbol - LH_COMPRESS_DEFLATE_FIRST_LENGTH_SYMBOL) in
  n ← surely (lh_compress_deflate_get_length_extra li);
  '(pos, extra) ← lh_compress_deflate_try_bits input input_size position n;
  base ← surely (lh_compress_deflate_get_length_base li);
  let result_length := u32 (base + extra) in
  '(pos, distance_symbol) ← lh_compress_deflate_try_symbol input input_size pos dist_counts dist_symbols;
  if distance_symbol >=? LH_COMPRESS_DEFLATE_DISTANCE_SYMBOLS then refuse else
  n ← surely (lh_compress_deflate_get_distance_extra distance_symbol);
  '(pos, extra) ← lh_compress_deflate_try_bits input input_size pos n;
  base ← surely (lh_compress_deflate_get_distance_base distance_symbol);
  mret (pos, result_length, u32 (base + extra)).
Definition lh_compress_deflate_match (input : buffer) (input_size position symbol : Z) (dist_counts dist_symbols : list Z)
    : outcome (Z * Z * Z) :=
  must (lh_compress_deflate_try_match input input_size position symbol dist_counts dist_symbols).

(** ** The decoder *)

(** The loop over the symbols of a block; each consumes a bit. *)
Fixpoint codes_loop (fuel : nat) (t : trees) (input : buffer) (input_size capacity pos used : Z) : writing (Z * Z) :=
  match fuel with
  | O => fun _ => Undef
  | S fuel =>
    '(pos, symbol) ← only (lh_compress_deflate_try_symbol input input_size pos (lit_counts t) (lit_symbols t));
    if symbol <? LH_COMPRESS_DEFLATE_END_OF_BLOCK then
      if used >=? capacity then only refuse else
      _ ← store (fun output => put output used (u8 symbol));
      codes_loop fuel t input input_size capacity pos (u64 (used + 1))
    else
    if symbol =? LH_COMPRESS_DEFLATE_END_OF_BLOCK then mret (pos, used) else
    '(pos, length, distance) ← only (lh_compress_deflate_try_match input input_size pos symbol (dist_counts t) (dist_symbols t));
    used ← lh_compress_deflate_try_copy_match capacity used distance length;
    codes_loop fuel t input input_size capacity pos used
  end.
Definition fresh_trees : trees :=
  mk_trees (local 16) (local LH_COMPRESS_DEFLATE_FIXED_LITERAL_CODES) (local 16) (local LH_COMPRESS_DEFLATE_FIXED_DISTANCE_CODES).
(** The trees of a block of the types 1 and 2, and the position behind them. *)
Definition read_trees (type : Z) (input : buffer) (input_size pos : Z) : attempt (Z * trees) :=
  if type =? 1 then
    '(ok, t) ← surely (lh_compress_deflate_try_fixed fresh_trees);
    if negb ok then refuse else mret (pos, t)
  else
    '(r, t) ← surely (lh_compress_deflate_try_dynamic input input_size pos fresh_trees);
    match r with None => refuse | Some pos => mret (pos, t) end.
(** One block: whether it was the last, the position and how much is written then. *)
Definition decode_block (input : buffer) (input_size capacity pos used : Z) : writing (Z * Z * Z) :=
  '(pos, final) ← only (lh_compress_deflate_try_bits input input_size pos 1);
  '(pos, type) ← only (lh_compress_deflate_try_bits input input_size pos 2);
  if type =? 0 then
    '(pos, used) ← lh_compress_deflate_try_stored input input_size pos capacity used;
    mret (final, pos, used)
  else
  if type >? 2 then only refuse else
  '(pos, t) ← only (read_trees type input input_size pos);
  '(pos, used) ← codes_loop (S (Z.to_nat (8 * input_size))) t input input_size capacity pos used;
  mret (final, pos, used).
Fixpoint blocks_loop (fuel : nat) (input : buffer) (input_size capacity pos used : Z) : writing (Z * Z) :=
  match fuel with
  | O => fun _ => Undef
  | S fuel =>
    '(final, pos, used) ← decode_block input input_size capacity pos used;
    if final =? 0 then blocks_loop fuel input input_size capacity pos used else mret (pos, used)
  end.
(** How many bytes were consumed and how many written. *)
Definition lh_compress_deflate_try_decode (input : buffer) (input_size capacity : Z) : writing (Z * Z) :=
  '(pos, used) ← blocks_loop (S (Z.to_nat (8 * input_size))) input input_size capacity 0 0;
  mret (u64 (pos + 7) / 8, used).
Definition lh_compress_deflate_decode (input : buffer) (input_size : Z) (output : buffer) (capacity : Z)
    : outcome (buffer * (Z * Z)) :=
  must_write (lh_compress_deflate_try_decode input input_size capacity) output.

(** ** Writing bits and codes *)

Fixpoint put_loop (fuel : nat) (mask bits at_ : Z) (output : buffer) : outcome buffer :=
  match fuel with
  | O => Undef
  | S fuel =>
    if negb (mask =? 0) then
      byte ← load output at_;
      output ← put output at_ (u8 (Z.lor (Z.land byte (u32 (Z.lnot mask))) bits));
      put_loop fuel (Z.shiftr mask 8) (Z.shiftr bits 8) (at_ + 1) output
    else mret output
  end.
(** A mask of 32 bits is used up after four bytes. *)
Definition lh_compress_deflate_try_put_bits (capacity position count value : Z) : writing Z :=
  let pos := position in
  if adds_over pos count then only refuse else
  let end_ := u64 (pos + count) in
  if negb (count =? 0) && (u64 (end_ - 1) / 8 >=? capacity) then only refuse else
  let shift := pos mod 8 in
  let mask := u32 (Z.shiftl (u32 (u32 (Z.shiftl 1 count) - 1)) shift) in
  let bits := Z.land (u32 (Z.shiftl (u32 value) shift)) mask in
  _ ← store (put_loop 5 mask bits (pos / 8));
  mret end_.
Definition lh_compress_deflate_put_bits (output : buffer) (capacity position count value : Z) : outcome (buffer * Z) :=
  must_write (lh_compress_deflate_try_put_bits capacity position count value) output.

Fixpoint reverse_loop (n : nat) (x result : Z) : Z :=
  match n with
  | O => result
  | S n => reverse_loop n (Z.shiftr x 1) (Z.lor (u32 (Z.shiftl result 1)) (Z.land x 1))
  end.
Definition lh_bit_reverse_u32 (x count : Z) : Z := reverse_loop (Z.to_nat count) x 0.
(** The first code of each length. *)
Definition first_codes (counts : list Z) : outcome (list Z) :=
  next ← put (local 16) 0 0;
  '(next, _) ← for_up 1 16 (fun l '(next, code) =>
    shorter ← (if l =? 1 then mret 0 else load counts (u32 (l - 1)));
    let code := u32 (Z.shiftl (u32 (code + shorter)) 1) in
    next ← put next l (u16 code);
    mret (next, code)) (next, 0);
  mret next.
Definition assign_codes (lengths : buffer) (size : Z) (next codes : list Z) : outcome (list Z * list Z) :=
  for_up 0 size (fun i '(next, codes) =>
    l ← load lengths i;
    if l =? 0 then codes ← put codes i 0; mret (next, codes) else
    n ← load next l;
    codes ← put codes i (u16 (lh_bit_reverse_u32 n l));
    next ← put next l (u16 (n + 1));
    mret (next, codes)) (next, codes).
Definition lh_compress_deflate_try_codes (lengths : buffer) (size : Z) (codes : list Z) : outcome (bool * list Z) :=
  if size >? LH_COMPRESS_DEFLATE_FIXED_LITERAL_CODES then mret (false, codes) else
  '(ok, counts, _) ← lh_compress_deflate_try_build lengths size (local 16) (local LH_COMPRESS_DEFLATE_FIXED_LITERAL_CODES);
  if negb ok then mret (false, codes) else
  next ← first_codes counts;
  '(_, codes) ← assign_codes lengths size next codes;
  mret (true, codes).
Definition lh_compress_deflate_codes (lengths : buffer) (size : Z) (codes : list Z) : outcome (list Z) :=
  '(ok, codes) ← lh_compress_deflate_try_codes lengths size codes;
  if ok : bool then mret codes else Fault lh_runtime_error_code_invalid_range.
Definition lh_compress_deflate_try_put_symbol (capacity position : Z) (codes : list Z) (lengths : buffer) (symbol : Z) : writing Z :=
  l ← only (surely (load lengths symbol));
  if l =? 0 then only refuse else
  c ← only (surely (load codes symbol));
  lh_compress_deflate_try_put_bits capacity position l c.
Definition lh_compress_deflate_put_symbol (output : buffer) (capacity position : Z) (codes : list Z) (lengths : buffer) (symbol : Z)
    : outcome (buffer * Z) :=
  must_write (lh_compress_deflate_try_put_symbol capacity position codes lengths symbol) output.
(** The codes a block is written with. *)
Record coder := mk_coder { lit_codes : list Z; lit_lengths : buffer; dist_codes : list Z; dist_lengths : buffer }.
Definition lh_compress_deflate_try_put_match (capacity position : Z) (c : coder) (length distance : Z) : writing Z :=
  if (length <? LH_COMPRESS_DEFLATE_MATCHER_MIN_MATCH) || (length >? LH_COMPRESS_DEFLATE_MATCHER_MAX_MATCH) ||
     (distance =? 0) || (distance >? LH_COMPRESS_DEFLATE_WINDOW_SIZE) then only refuse else
  let index := lh_compress_deflate_get_length_index length in
  let code := lh_compress_deflate_get_distance_code distance in
  pos ← lh_compress_deflate_try_put_symbol capacity position (lit_codes c) (lit_lengths c)
    (u32 (index + LH_COMPRESS_DEFLATE_FIRST_LENGTH_SYMBOL));
  extra ← only (surely (lh_compress_deflate_get_length_extra index));
  base ← only (surely (lh_compress_deflate_get_length_base index));
  pos ← lh_compress_deflate_try_put_bits capacity pos extra (u32 (length - base));
  pos ← lh_compress_deflate_try_put_symbol capacity pos (dist_codes c) (dist_lengths c) code;
  extra ← only (surely (lh_compress_deflate_get_distance_extra code));
  base ← only (surely (lh_compress_deflate_get_distance_base code));
  lh_compress_deflate_try_put_bits capacity pos extra (u32 (distance - base)).
Definition lh_compress_deflate_put_match (output : buffer) (capacity position : Z) (c : coder) (length distance : Z)
    : outcome (buffer * Z) :=
  must_write (lh_compress_deflate_try_put_match capacity position c length distance) output.

(** ** Writing stored blocks *)

Definition lh_compress_deflate_try_put_stored (input : buffer) (input_size : Z) (final : bool) (capacity position : Z) : writing Z :=
  if input_size >? LH_COMPRESS_DEFLATE_STORED_MAX then only refuse else
  let length := u32 input_size in
  pos ← lh_compress_deflate_try_put_bits capacity position 3 (if final then 1 else 0);
  pos ← lh_compress_deflate_try_put_bits capacity pos (lh_compress_deflate_get_pad_bits pos) 0;
  pos ← lh_compress_deflate_try_put_bits capacity pos 16 length;
  pos ← lh_compress_deflate_try_put_bits capacity pos 16 (Z.lxor length LH_COMPRESS_DEFLATE_STORED_MAX);
  let at_ := pos / 8 in
  if input_size >? u64 (capacity - at_) then only refuse else
  _ ← (if negb (input_size =? 0) then store (fun output => copy_bytes output at_ input input_size) else mret tt);
  mret (u64 (pos + u64 (input_size * 8))).
Definition lh_compress_deflate_put_stored (input : buffer) (input_size : Z) (final : bool) (output : buffer) (capacity position : Z)
    : outcome (buffer * Z) :=
  must_write (lh_compress_deflate_try_put_stored input input_size final capacity position) output.
Definition lh_compress_deflate_get_block_count (size block_size : Z) : Z :=
  let whole := size / block_size in
  if (size =? 0) || negb (size mod block_size =? 0) then u64 (whole + 1) else whole.
Definition lh_compress_deflate_try_blocks_bound (size block_size : Z) : option Z :=
  let overhead := u64 (lh_compress_deflate_get_block_count size block_size * LH_COMPRESS_DEFLATE_STORED_OVERHEAD) in
  if adds_over size overhead then None else Some (u64 (size + overhead)).
Definition lh_compress_deflate_blocks_bound (size block_size : Z) : outcome Z :=
  must (Done (lh_compress_deflate_try_blocks_bound size block_size)).
Definition lh_compress_deflate_try_stored_bound (size : Z) : option Z :=
  lh_compress_deflate_try_blocks_bound size LH_COMPRESS_DEFLATE_STORED_MAX.
Definition lh_compress_deflate_stored_bound (size : Z) : outcome Z := must (Done (lh_compress_deflate_try_stored_bound size)).
(** Each round but the last takes 65535 bytes. *)
Fixpoint stored_loop (fuel : nat) (input : buffer) (input_size capacity pos done : Z) : writing Z :=
  match fuel with
  | O => fun _ => Undef
  | S fuel =>
    let chunk := Z.min (u64 (input_size - done)) LH_COMPRESS_DEFLATE_STORED_MAX in
    let next := u64 (done + chunk) in
    pos ← lh_compress_deflate_try_put_stored (drop (Z.to_nat done) input) chunk (next =? input_size) capacity pos;
    if next <? input_size then stored_loop fuel input input_size capacity pos next else mret pos
  end.
Definition lh_compress_deflate_try_encode_stored (input : buffer) (input_size capacity : Z) : writing Z :=
  pos ← stored_loop (S (Z.to_nat input_size)) input input_size capacity 0 0;
  mret (pos / 8).
Definition lh_compress_deflate_encode_stored (input : buffer) (input_size : Z) (output : buffer) (capacity : Z)
    : outcome (buffer * Z) :=
  must_write (lh_compress_deflate_try_encode_stored input input_size capacity) output.

(** ** [deflate/tokens.c] *)

Record lh_compress_deflate_tokens_t := mk_tokens { count : Z; values : list Z; distances : list Z }.
Definition lh_compress_deflate_tokens_get_count (self : lh_compress_deflate_tokens_t) : Z := count self.
Definition lh_compress_deflate_tokens_set_count (self : lh_compress_deflate_tokens_t) (v : Z) : lh_compress_deflate_tokens_t :=
  mk_tokens v (values self) (distances self).
Definition lh_compress_deflate_tokens_get_values (self : lh_compress_deflate_tokens_t) : list Z := values self.
Definition lh_compress_deflate_tokens_get_distances (self : lh_compress_deflate_tokens_t) : list Z := distances self.
Definition lh_compress_deflate_tokens_reset (self : lh_compress_deflate_tokens_t) : lh_compress_deflate_tokens_t :=
  lh_compress_deflate_tokens_set_count self 0.
Definition lh_compress_deflate_tokens_is_full (self : lh_compress_deflate_tokens_t) : bool :=
  lh_compress_deflate_tokens_get_count self >=? LH_COMPRESS_DEFLATE_TOKENS_LIMIT.
Definition lh_compress_deflate_tokens_get_distance (self : lh_compress_deflate_tokens_t) (index : Z) : outcome Z :=
  load (lh_compress_deflate_tokens_get_distances self) index.
Definition lh_compress_deflate_tokens_get_literal (self : lh_compress_deflate_tokens_t) (index : Z) : outcome Z :=
  load (lh_compress_deflate_tokens_get_values self) index.
Definition lh_compress_deflate_tokens_get_length (self : lh_compress_deflate_tokens_t) (index : Z) : outcome Z :=
  v ← load (lh_compress_deflate_tokens_get_values self) index;
  mret (u32 (v + LH_COMPRESS_DEFLATE_MATCHER_MIN_MATCH)).
Definition lh_compress_deflate_tokens_is_literal (self : lh_compress_deflate_tokens_t) (index : Z) : outcome bool :=
  d ← lh_compress_deflate_tokens_get_distance self index;
  mret (d =? 0).
(** [values[count] = v; distances[count] = d; set_count(count + 1)] *)
Definition push_token (self : lh_compress_deflate_tokens_t) (v d : Z) : outcome lh_compress_deflate_tokens_t :=
  let count := lh_compress_deflate_tokens_get_count self in
  vs ← put (values self) count v;
  ds ← put (distances self) count d;
  mret (lh_compress_deflate_tokens_set_count (mk_tokens count vs ds) (u64 (count + 1))).
Definition lh_compress_deflate_tokens_try_push_literal (self : lh_compress_deflate_tokens_t) (literal : Z)
    : attempt lh_compress_deflate_tokens_t :=
  if lh_compress_deflate_tokens_is_full self then refuse else surely (push_token self literal 0).
Definition lh_compress_deflate_tokens_try_push_match (self : lh_compress_deflate_tokens_t) (length distance : Z)
    : attempt lh_compress_deflate_tokens_t :=
  if lh_compress_deflate_tokens_is_full self || (length <? LH_COMPRESS_DEFLATE_MATCHER_MIN_MATCH) ||
     (length >? LH_COMPRESS_DEFLATE_MATCHER_MAX_MATCH) || (distance =? 0) || (distance >? LH_COMPRESS_DEFLATE_WINDOW_SIZE)
  then refuse else
  surely (push_token self (u8 (length - LH_COMPRESS_DEFLATE_MATCHER_MIN_MATCH)) (u16 distance)).
Definition lh_compress_deflate_tokens_push_literal (self : lh_compress_deflate_tokens_t) (literal : Z)
    : outcome lh_compress_deflate_tokens_t :=
  must (lh_compress_deflate_tokens_try_push_literal self literal).
Definition lh_compress_deflate_tokens_push_match (self : lh_compress_deflate_tokens_t) (length distance : Z)
    : outcome lh_compress_deflate_tokens_t :=
  must (lh_compress_deflate_tokens_try_push_match self length distance).

(** ** [deflate/matcher.c] *)

(** [head]: by hash, one more than the newest position with it; [prev]: by position, what [head]
    held before. *)
Record lh_compress_deflate_matcher_t := mk_matcher { chain_limit : Z; head : list Z; prev : list Z }.
Definition lh_compress_deflate_matcher_get_chain_limit (self : lh_compress_deflate_matcher_t) : Z := chain_limit self.
Definition lh_compress_deflate_matcher_set_chain_limit (self : lh_compress_deflate_matcher_t) (v : Z) : lh_compress_deflate_matcher_t :=
  mk_matcher v (head self) (prev self).
Definition lh_compress_deflate_matcher_get_head (self : lh_compress_deflate_matcher_t) : list Z := head self.
Definition lh_compress_deflate_matcher_get_prev (self : lh_compress_deflate_matcher_t) : list Z := prev self.
Definition lh_compress_deflate_matcher_get_hash (input : buffer) (at_ : Z) : outcome Z :=
  a0 ← load input at_;
  a1 ← load input (at_ + 1);
  a2 ← load input (at_ + 2);
  let value := Z.lxor (Z.lxor (u64 (Z.shiftl a0 10)) (u64 (Z.shiftl a1 5))) a2 in
  mret (Z.land value (u64 (LH_COMPRESS_DEFLATE_MATCHER_HASH_SIZE - 1))).
(** The comparison in the memory that holds the input at address 1. *)
Definition lh_compress_deflate_matcher_get_match_size (input : buffer) (size candidate position : Z) : outcome Z :=
  let limit := Z.min (u64 (size - position)) LH_COMPRESS_DEFLATE_MATCHER_MAX_MATCH in
  diff ← lh_memory_std_compare (0 :: input) (1 + candidate) (1 + position) limit;
  match diff with
  | None => mret limit
  | Some diff => mret (diff - (1 + candidate))
  end.
Definition lh_compress_deflate_matcher_can_improve (input : buffer) (candidate position length : Z) : outcome bool :=
  a ← load input (u64 (candidate + length));
  b ← load input (u64 (position + length));
  mret (a =? b).
Definition lh_compress_deflate_matcher_reset (self : lh_compress_deflate_matcher_t) : outcome lh_compress_deflate_matcher_t :=
  head ← clear (head self) LH_COMPRESS_DEFLATE_MATCHER_HASH_SIZE;
  mret (mk_matcher (chain_limit self) head (prev self)).
Definition lh_compress_deflate_matcher_insert (self : lh_compress_deflate_matcher_t) (input : buffer) (size position : Z)
    : outcome lh_compress_deflate_matcher_t :=
  if u64 (size - position) <? LH_COMPRESS_DEFLATE_MATCHER_MIN_MATCH then mret self else
  hash ← lh_compress_deflate_matcher_get_hash input position;
  let slot := Z.land position (u64 (LH_COMPRESS_DEFLATE_WINDOW_SIZE - 1)) in
  before ← load (head self) hash;
  prev ← put (prev self) slot before;
  head ← put (head self) hash (u32 (position + 1));
  mret (mk_matcher (chain_limit self) head prev).
(** The walk along a chain; the entries fall, so it is no longer than the first one.  The best
    length and its distance. *)
Fixpoint chain_loop (fuel : nat) (input : buffer) (size position limit longest : Z) (prev : list Z)
    (step entry best_length best_distance : Z) : outcome (Z * Z) :=
  match fuel with
  | O => Undef
  | S fuel =>
    if (step <? limit) && negb (entry =? 0) then
      let candidate := u64 (entry - 1) in
      let back := u64 (position - candidate) in
      if (candidate >=? position) || (back >? LH_COMPRESS_DEFLATE_WINDOW_SIZE) then mret (best_length, best_distance) else
      improve ← lh_compress_deflate_matcher_can_improve input candidate position best_length;
      '(stop, best_length, best_distance) ←
        (if improve : bool then
           found ← lh_compress_deflate_matcher_get_match_size input size candidate position;
           if found >? best_length then mret (found =? longest, found, back) else mret (false, best_length, best_distance)
         else mret (false, best_length, best_distance));
      if stop : bool then mret (best_length, best_distance) else
      next ← load prev (Z.land candidate (u64 (LH_COMPRESS_DEFLATE_WINDOW_SIZE - 1)));
      if next >=? entry then mret (best_length, best_distance) else
      chain_loop fuel input size position limit longest prev (u64 (step + 1)) next best_length best_distance
    else mret (best_length, best_distance)
  end.
(** The length and the distance. *)
Definition lh_compress_deflate_matcher_try_find (self : lh_compress_deflate_matcher_t) (input : buffer) (size position : Z)
    : attempt (Z * Z) :=
  if u64 (size - position) <? LH_COMPRESS_DEFLATE_MATCHER_MIN_MATCH then refuse else
  hash ← surely (lh_compress_deflate_matcher_get_hash input position);
  entry ← surely (load (lh_compress_deflate_matcher_get_head self) hash);
  let longest := Z.min (u64 (size - position)) LH_COMPRESS_DEFLATE_MATCHER_MAX_MATCH in
  '(best_length, best_distance) ← surely (chain_loop (S (Z.to_nat entry)) input size position
    (lh_compress_deflate_matcher_get_chain_limit self) longest (lh_compress_deflate_matcher_get_prev self) 0 entry 0 0);
  if best_length <? LH_COMPRESS_DEFLATE_MATCHER_MIN_MATCH then refuse else
  mret (best_length, best_distance).
Definition lh_compress_deflate_matcher_init (self : lh_compress_deflate_matcher_t) (chain_limit : Z)
    : outcome lh_compress_deflate_matcher_t :=
  lh_compress_deflate_matcher_reset (lh_compress_deflate_matcher_set_chain_limit self chain_limit).
Definition lh_compress_deflate_matcher_find (self : lh_compress_deflate_matcher_t) (input : buffer) (size position : Z)
    : outcome (Z * Z) :=
  must (lh_compress_deflate_matcher_try_find self input size position).

(** ** The encoder: [deflate/encoder.c] and the rest of [deflate.c] *)

Record lh_compress_deflate_encoder_t := mk_encoder { matcher : lh_compress_deflate_matcher_t; tokens : lh_compress_deflate_tokens_t }.
Definition lh_compress_deflate_encoder_get_matcher (self : lh_compress_deflate_encoder_t) : lh_compress_deflate_matcher_t := matcher self.
Definition lh_compress_deflate_encoder_get_tokens (self : lh_compress_deflate_encoder_t) : lh_compress_deflate_tokens_t := tokens self.
Definition lh_compress_deflate_encoder_init (self : lh_compress_deflate_encoder_t) (chain_limit : Z)
    : outcome lh_compress_deflate_encoder_t :=
  m ← lh_compress_deflate_matcher_init (matcher self) chain_limit;
  mret (mk_encoder m (lh_compress_deflate_tokens_reset (tokens self))).

(** One more at a place of a table of counts. *)
Definition tally (freq : list Z) (i : Z) : outcome (list Z) := n ← load freq i; put freq i (u64 (n + 1)).
Definition lh_compress_deflate_count_symbols (tokens : lh_compress_deflate_tokens_t) (lit_freq dist_freq : list Z)
    : outcome (list Z * list Z) :=
  lit_freq ← clear lit_freq LH_COMPRESS_DEFLATE_LITERAL_SYMBOLS;
  dist_freq ← clear dist_freq LH_COMPRESS_DEFLATE_DISTANCE_SYMBOLS;
  '(lit_freq, dist_freq) ← for_up 0 (lh_compress_deflate_tokens_get_count tokens) (fun i '(lit_freq, dist_freq) =>
    literal ← lh_compress_deflate_tokens_is_literal tokens i;
    if literal : bool then
      b ← lh_compress_deflate_tokens_get_literal tokens i;
      lit_freq ← tally lit_freq b;
      mret (lit_freq, dist_freq)
    else
    length ← lh_compress_deflate_tokens_get_length tokens i;
    lit_freq ← tally lit_freq (u32 (lh_compress_deflate_get_length_index length + LH_COMPRESS_DEFLATE_FIRST_LENGTH_SYMBOL));
    distance ← lh_compress_deflate_tokens_get_distance tokens i;
    dist_freq ← tally dist_freq (lh_compress_deflate_get_distance_code distance);
    mret (lit_freq, dist_freq)) (lit_freq, dist_freq);
  lit_freq ← put lit_freq LH_COMPRESS_DEFLATE_END_OF_BLOCK 1;
  mret (lit_freq, dist_freq).
Definition lh_compress_deflate_get_codes_cost (lit_lengths dist_lengths : buffer) (lit_freq dist_freq : list Z) : outcome Z :=
  bits ← for_up 0 LH_COMPRESS_DEFLATE_LITERAL_SYMBOLS (fun s bits =>
    cost ← load lit_lengths s;
    cost ← (if s >=? LH_COMPRESS_DEFLATE_FIRST_LENGTH_SYMBOL then
              extra ← lh_compress_deflate_get_length_extra (u32 (s - LH_COMPRESS_DEFLATE_FIRST_LENGTH_SYMBOL));
              mret (u32 (cost + extra))
            else mret cost);
    freq ← load lit_freq s;
    mret (u64 (bits + u64 (freq * cost)))) 0;
  for_up 0 LH_COMPRESS_DEFLATE_DISTANCE_SYMBOLS (fun d bits =>
    l ← load dist_lengths d;
    extra ← lh_compress_deflate_get_distance_extra d;
    freq ← load dist_freq d;
    mret (u64 (bits + u64 (freq * u32 (l + extra))))) bits.
Definition lh_compress_deflate_get_stored_cost (size position : Z) : Z :=
  let header := u64 (3 + lh_compress_deflate_get_pad_bits (u64 (position + 3))) in
  u64 (u64 (header + 32) + u64 (size * 8)).
Fixpoint put_tokens_loop (n : nat) (tokens : lh_compress_deflate_tokens_t) (c : coder) (capacity pos i : Z) : writing Z :=
  match n with
  | O => mret pos
  | S n =>
    literal ← only (surely (lh_compress_deflate_tokens_is_literal tokens i));
    pos ← (if literal : bool then
             b ← only (surely (lh_compress_deflate_tokens_get_literal tokens i));
             lh_compress_deflate_try_put_symbol capacity pos (lit_codes c) (lit_lengths c) b
           else
             length ← only (surely (lh_compress_deflate_tokens_get_length tokens i));
             distance ← only (surely (lh_compress_deflate_tokens_get_distance tokens i));
             lh_compress_deflate_try_put_match capacity pos c length distance);
    put_tokens_loop n tokens c capacity pos (i + 1)
  end.
Definition lh_compress_deflate_try_put_tokens (tokens : lh_compress_deflate_tokens_t) (c : coder) (capacity position : Z) : writing Z :=
  pos ← put_tokens_loop (Z.to_nat (lh_compress_deflate_tokens_get_count tokens)) tokens c capacity position 0;
  lh_compress_deflate_try_put_symbol capacity pos (lit_codes c) (lit_lengths c) LH_COMPRESS_DEFLATE_END_OF_BLOCK.
Definition lh_compress_deflate_put_tokens (tokens : lh_compress_deflate_tokens_t) (c : coder) (output : buffer) (capacity position : Z)
    : outcome (buffer * Z) :=
  must_write (lh_compress_deflate_try_put_tokens tokens c capacity position) output.

(** [insert] for each byte of a token: the matcher and the position behind it. *)
Definition insert_all (length : Z) (m : lh_compress_deflate_matcher_t) (input : buffer) (input_size at_ : Z)
    : outcome lh_compress_deflate_matcher_t :=
  for_up at_ (at_ + length) (fun at_ m => lh_compress_deflate_matcher_insert m input input_size at_) m.
(** Each round takes a byte of the input. *)
Fixpoint collect_loop (fuel : nat) (m : lh_compress_deflate_matcher_t) (tokens : lh_compress_deflate_tokens_t) (input : buffer)
    (input_size limit at_ : Z) : outcome (lh_compress_deflate_matcher_t * lh_compress_deflate_tokens_t * Z) :=
  match fuel with
  | O => Undef
  | S fuel =>
    if (at_ <? limit) && negb (lh_compress_deflate_tokens_is_full tokens) then
      found ← lh_compress_deflate_matcher_try_find m input limit at_;
      '(tokens, length) ←
        match found with
        | Some (length, distance) =>
          tokens ← lh_compress_deflate_tokens_push_match tokens (u32 length) (u32 distance);
          mret (tokens, length)
        | None =>
          b ← load input at_;
          tokens ← lh_compress_deflate_tokens_push_literal tokens b;
          mret (tokens, 1)
        end;
      m ← insert_all length m input input_size at_;
      collect_loop fuel m tokens input input_size limit (u64 (at_ + length))
    else mret (m, tokens, at_)
  end.
(** The matcher and the tokens, and where the block ends. *)
Definition lh_compress_deflate_try_collect (m : lh_compress_deflate_matcher_t) (tokens : lh_compress_deflate_tokens_t) (input : buffer)
    (input_size begin : Z) : outcome (lh_compress_deflate_matcher_t * lh_compress_deflate_tokens_t * option Z) :=
  if (input_size >? LH_COMPRESS_DEFLATE_MATCHER_INPUT_LIMIT) || (begin >? input_size) then mret (m, tokens, None) else
  let limit := u64 (begin + Z.min (u64 (input_size - begin)) LH_COMPRESS_DEFLATE_STORED_MAX) in
  let tokens := lh_compress_deflate_tokens_reset tokens in
  '(m, tokens, end_) ← collect_loop (S (Z.to_nat (limit - begin))) m tokens input input_size limit begin;
  mret (m, tokens, Some end_).
Definition lh_compress_deflate_collect (m : lh_compress_deflate_matcher_t) (tokens : lh_compress_deflate_tokens_t) (input : buffer)
    (input_size begin : Z) : outcome (lh_compress_deflate_matcher_t * lh_compress_deflate_tokens_t * Z) :=
  '(m, tokens, r) ← lh_compress_deflate_try_collect m tokens input input_size begin;
  match r with Some end_ => Done (m, tokens, end_) | None => Fault lh_runtime_error_code_invalid_range end.
(** The codes of [put_block]: the fixed ones. *)
Definition fixed_coder (lit_lengths dist_lengths : buffer) : outcome coder :=
  lit_codes ← lh_compress_deflate_codes lit_lengths LH_COMPRESS_DEFLATE_FIXED_LITERAL_CODES (local LH_COMPRESS_DEFLATE_FIXED_LITERAL_CODES);
  dist_codes ← lh_compress_deflate_codes dist_lengths LH_COMPRESS_DEFLATE_FIXED_DISTANCE_CODES (local LH_COMPRESS_DEFLATE_FIXED_DISTANCE_CODES);
  mret (mk_coder lit_codes lit_lengths dist_codes dist_lengths).
Definition lh_compress_deflate_try_put_block (tokens : lh_compress_deflate_tokens_t) (input : buffer) (input_size : Z) (final : bool)
    (capacity position : Z) : writing Z :=
  if input_size >? LH_COMPRESS_DEFLATE_STORED_MAX then only refuse else
  '(lit_lengths, dist_lengths) ← only (surely (lh_compress_deflate_fill_fixed_lengths
    (local LH_COMPRESS_DEFLATE_FIXED_LITERAL_CODES) (local LH_COMPRESS_DEFLATE_FIXED_DISTANCE_CODES)));
  '(lit_freq, dist_freq) ← only (surely (lh_compress_deflate_count_symbols tokens
    (local LH_COMPRESS_DEFLATE_LITERAL_SYMBOLS) (local LH_COMPRESS_DEFLATE_DISTANCE_SYMBOLS)));
  cost ← only (surely (lh_compress_deflate_get_codes_cost lit_lengths dist_lengths lit_freq dist_freq));
  let fixed := u64 (3 + cost) in
  if lh_compress_deflate_get_stored_cost input_size position <? fixed then
    lh_compress_deflate_try_put_stored input input_size final capacity position
  else
  c ← only (surely (fixed_coder lit_lengths dist_lengths));
  pos ← lh_compress_deflate_try_put_bits capacity position 3 (if final then 3 else 2);
  lh_compress_deflate_try_put_tokens tokens c capacity pos.
Definition lh_compress_deflate_put_block (tokens : lh_compress_deflate_tokens_t) (input : buffer) (input_size : Z) (final : bool)
    (output : buffer) (capacity position : Z) : outcome (buffer * Z) :=
  must_write (lh_compress_deflate_try_put_block tokens input input_size final capacity position) output.
Definition lh_compress_deflate_try_bound (size : Z) : option Z :=
  lh_compress_deflate_try_blocks_bound size LH_COMPRESS_DEFLATE_TOKENS_LIMIT.
Definition lh_compress_deflate_bound (size : Z) : outcome Z := must (Done (lh_compress_deflate_try_bound size)).
(** What the encoder leaves, and the position, if it did not refuse. *)
Fixpoint encode_loop (fuel : nat) (e : lh_compress_deflate_encoder_t) (input : buffer) (input_size capacity pos begin : Z)
    (output : buffer) : outcome (lh_compress_deflate_encoder_t * buffer * option Z) :=
  match fuel with
  | O => Undef
  | S fuel =>
    '(m, tokens, end_) ← lh_compress_deflate_try_collect (matcher e) (tokens e) input input_size begin;
    let e := mk_encoder m tokens in
    match end_ with
    | None => mret (e, output, None)
    | Some end_ =>
      '(output, pos) ← lh_compress_deflate_try_put_block tokens (drop (Z.to_nat begin) input) (u64 (end_ - begin))
        (end_ =? input_size) capacity pos output;
      match pos with
      | None => mret (e, output, None)
      | Some pos =>
        if end_ <? input_size then encode_loop fuel e input input_size capacity pos end_ output
        else mret (e, output, Some pos)
      end
    end
  end.
Definition lh_compress_deflate_try_encode (encoder : lh_compress_deflate_encoder_t) (input : buffer) (input_size : Z)
    (output : buffer) (capacity : Z) : outcome (lh_compress_deflate_encoder_t * buffer * option Z) :=
  m ← lh_compress_deflate_matcher_reset (lh_compress_deflate_encoder_get_matcher encoder);
  let e := mk_encoder m (lh_compress_deflate_encoder_get_tokens encoder) in
  '(e, output, pos) ← encode_loop (S (Z.to_nat input_size)) e input input_size capacity 0 0 output;
  match pos with
  | None => mret (e, output, None)
  | Some pos =>
    '(output, pos) ← lh_compress_deflate_try_put_bits capacity pos (lh_compress_deflate_get_pad_bits pos) 0 output;
    mret (e, output, (fun pos => pos / 8) <$> pos)
  end.
Definition lh_compress_deflate_encode (encoder : lh_compress_deflate_encoder_t) (input : buffer) (input_size : Z)
    (output : buffer) (capacity : Z) : outcome (lh_compress_deflate_encoder_t * buffer * Z) :=
  '(e, output, r) ← lh_compress_deflate_try_encode encoder input input_size output capacity;
  match r with Some n => Done (e, output, n) | None => Fault lh_runtime_error_code_invalid_range end.
