(* ===== verification/HuffmanProofs.v ===== *)
(** * DEFLATE: bits and canonical prefix codes

    [bits]: the bits of an array from a position on, the lowest of each byte first, and what
    [try_bits] and [try_put_bits] do in terms of them.  [codeword]: the code of a symbol in
    the canonical code of a list of lengths (RFC 1951, 3.2.2); [try_build] makes the tables of
    it, and [try_symbol] gives a symbol exactly when its word comes next
    ([try_symbol_spec]). *)
From S2P Require Import Prelude Buffer Bytes Swar Deflate.

(** ** Attempts *)

Lemma bind_some {A B} (a : A) (f : A -> attempt B) : mbind (M := attempt) f (Done (Some a)) = f a.
Proof. done. Qed.
Lemma bind_none {A B} (f : A -> attempt B) : mbind (M := attempt) f (Done None) = Done None.
Proof. done. Qed.
Lemma surely_done {A} (a : A) : surely (Done a) = Done (Some a).
Proof. done. Qed.

(** ** Bits *)

Definition bit_at (bs : buffer) (i : Z) : bool := Z.testbit (byte_at bs (i / 8)) (i mod 8).
Definition bits (bs : buffer) (a n : Z) : list bool := map (bit_at bs) (seqZ a n).
(** The number with given bits, the lowest first, and the lowest bits of a number. *)
Fixpoint num (l : list bool) : Z := match l with [] => 0 | b :: l => Z.b2z b + 2 * num l end.
Definition nbits (n v : Z) : list bool := map (Z.testbit v) (seqZ 0 n).

Lemma length_bits bs a n : 0 <= n -> len (bits bs a n) = n.
Proof. intros. unfold bits. rewrite length_map, length_seqZ. lia. Qed.
Lemma length_nbits n v : 0 <= n -> len (nbits n v) = n.
Proof. intros. unfold nbits. rewrite length_map, length_seqZ. lia. Qed.
Lemma bits_app bs a m n : 0 <= m -> 0 <= n -> bits bs a (m + n) = bits bs a m ++ bits bs (a + m) n.
Proof. intros. unfold bits. rewrite seqZ_app by lia. by rewrite map_app. Qed.
Lemma bits_nil bs a : bits bs a 0 = [].
Proof. done. Qed.
Lemma bits_one bs a : bits bs a 1 = [bit_at bs a].
Proof. done. Qed.
Lemma bits_cons bs a n : 0 < n -> bits bs a n = bit_at bs a :: bits bs (a + 1) (n - 1).
Proof. intros. replace n with (1 + (n - 1)) at 1 by lia. rewrite bits_app by lia. done. Qed.
Lemma num_app l r : num (l ++ r) = num l + 2 ^ len l * num r.
Proof.
  induction l as [|b l IH]; [simpl; lia|]. cbn [num app length]. rewrite IH.
  rewrite Nat2Z.inj_succ, Z.pow_succ_r by lia. lia.
Qed.
Lemma num_range l : 0 <= num l < 2 ^ len l.
Proof.
  induction l as [|b l IH]; [simpl; lia|]. cbn [num length]. rewrite Nat2Z.inj_succ, Z.pow_succ_r by lia. destruct b; simpl Z.b2z; lia.
Qed.
Lemma num_testbit l i : Z.testbit (num l) (Z.of_nat i) = default false (l !! i).
Proof.
  revert i. induction l as [|b l IH]; intros i; cbn [num]; [by rewrite Z.bits_0|].
  destruct i as [|i]; cbn [lookup list_lookup].
  - destruct b; simpl Z.b2z; [rewrite Z.add_comm, Z.testbit_odd_0|rewrite Z.add_0_l, Z.testbit_even_0]; done.
  - rewrite Nat2Z.inj_succ. destruct b; simpl Z.b2z; [rewrite Z.add_comm, Z.testbit_odd_succ|rewrite Z.add_0_l, Z.testbit_even_succ]; try lia; apply IH.
Qed.
Lemma nbits_lookup n v (i : nat) : Z.of_nat i < n -> nbits n v !! i = Some (Z.testbit v (Z.of_nat i)).
Proof. intros. unfold nbits. rewrite list_lookup_fmap, lookup_seqZ_lt by lia. done. Qed.
Lemma num_nbits n v : 0 <= n -> num (nbits n v) = v mod 2 ^ n.
Proof.
  intros Hn. apply Z.bits_inj'. intros i Hi. rewrite <- (Z2Nat.id i) by lia. rewrite num_testbit.
  destruct (decide (i < n)) as [Hl|Hl].
  - rewrite nbits_lookup by lia. simpl. rewrite Z.mod_pow2_bits_low by lia. done.
  - rewrite (proj2 (lookup_ge_None _ _)) by (pose proof (length_nbits n v Hn); lia). rewrite Z.mod_pow2_bits_high by lia. done.
Qed.
Lemma nbits_num l : nbits (len l) (num l) = l.
Proof.
  apply list_eq. intros i. destruct (decide (i < length l)%nat) as [H|H].
  - rewrite nbits_lookup by lia. rewrite num_testbit. destruct (lookup_lt_is_Some_2 l i H) as [b ->]. done.
  - rewrite !(proj2 (lookup_ge_None _ _)); [done|lia|]. pose proof (length_nbits (len l) (num l)). lia.
Qed.
Lemma nbits_small n v : 0 <= v < 2 ^ n -> num (nbits n v) = v.
Proof.
  intros Hv. assert (0 <= n) by (destruct (decide (0 <= n)); [done|]; rewrite Z.pow_neg_r in Hv; lia).
  rewrite num_nbits by done. by apply Z.mod_small.
Qed.

(** ** Reading bits *)

(** An input: bytes, in an array that holds the [size] of them. *)
Definition input_ok (input : buffer) (size : Z) : Prop := is_bytes input /\ 0 <= size <= len input /\ 8 * size < 2 ^ 63.

Lemma adds_over_spec a b : is_u64 a -> 0 <= b -> adds_over a b = (LH_USIZE_T_MAX <? a + b).
Proof.
  intros Ha Hb. unfold adds_over. rewrite u64_id by zb. unfold LH_USIZE_T_MAX. rewrite Z.gtb_ltb.
  destruct (Z.ltb_spec 0 b), (Z.ltb_spec (18446744073709551615 - a) b), (Z.ltb_spec 18446744073709551615 (a + b)); simpl; zb || done.
Qed.
Lemma lor_bit r i b : 0 <= i -> 0 <= r < 2 ^ i -> Z.lor r (Z.shiftl (Z.b2z b) i) = r + 2 ^ i * Z.b2z b.
Proof. intros Hi Hr. rewrite Z.shiftl_mul_pow2, Z.lor_comm, lor_disjoint by lia. lia. Qed.
Lemma land_1 x k : 0 <= k -> Z.land (Z.shiftr x k) 1 = Z.b2z (Z.testbit x k).
Proof.
  intros Hk. rewrite Z.shiftr_div_pow2 by done. change 1 with (Z.ones 1) at 1. rewrite Z.land_ones by lia.
  by rewrite Z.testbit_spec' by done.
Qed.

Section reading.
Context (input : buffer) (size : Z) (I : input_ok input size).

Lemma bits_loop_spec n : forall pos i result,
  0 <= pos <= 8 * size -> 0 <= i -> i + Z.of_nat n <= 32 -> 0 <= result < 2 ^ i ->
  bits_loop n input size pos i result =
    Done (if pos + Z.of_nat n <=? 8 * size then Some (pos + Z.of_nat n, result + 2 ^ i * num (bits input pos (Z.of_nat n))) else None).
Proof using I.
  destruct I as (Hb & Hs & Hm). induction n as [|n IH]; intros pos i result Hp Hi Hn Hr; cbn [bits_loop].
  - rewrite Z.add_0_r, (proj2 (Z.leb_le _ _)) by lia. rewrite bits_nil. simpl. by rewrite Z.mul_0_r, Z.add_0_r.
  - rewrite Z.geb_leb. destruct (Z.leb_spec size (pos / 8)) as [Hle|Hlt].
    + rewrite (proj2 (Z.leb_gt _ _)); [done|]. zdm.
    + assert (Hpos : pos < 8 * size) by zdm. rewrite byte_at_load by zdm. rewrite surely_done, bind_some.
      rewrite land_1 by (apply Z.mod_pos_bound; lia). change (Z.testbit (byte_at input (pos / 8)) (pos mod 8)) with (bit_at input pos).
      assert (H2 : 2 ^ i * 2 <= 2 ^ 32) by (rewrite Z.mul_comm, <- Z.pow_succ_r by lia; apply Z.pow_le_mono_r; lia).
      assert (H0 : 0 < 2 ^ i) by (apply Z.pow_pos_nonneg; lia).
      rewrite (u32_id (Z.shiftl _ _)) by (rewrite Z.shiftl_mul_pow2 by lia; destruct (bit_at input pos); simpl; zb).
      rewrite lor_bit by lia. rewrite u64_id by zb.
      rewrite IH; [|lia|lia|lia|rewrite Z.pow_add_r by lia; destruct (bit_at input pos); simpl Z.b2z; lia].
      replace (pos + 1 + Z.of_nat n) with (pos + Z.of_nat (S n)) by lia. rewrite (bits_cons _ _ (Z.of_nat (S n))) by lia.
      replace (Z.of_nat (S n) - 1) with (Z.of_nat n) by lia. cbn [num]. rewrite Z.pow_add_r by lia.
      destruct (_ <=? _); [|done]. do 3 f_equal. lia.
Qed.
Lemma try_bits_spec pos n :
  0 <= pos <= 8 * size -> 0 <= n <= 32 ->
  lh_compress_deflate_try_bits input size pos n =
    Done (if pos + n <=? 8 * size then Some (pos + n, num (bits input pos n)) else None).
Proof using I.
  intros Hp Hn. unfold lh_compress_deflate_try_bits. rewrite adds_over_spec by (destruct I; zb).
  rewrite (proj2 (Z.ltb_ge _ _)) by (destruct I; zb). rewrite bits_loop_spec by (simpl; lia).
  rewrite Z2Nat.id by lia. destruct (_ <=? _); [|done]. do 3 f_equal. lia.
Qed.
(** The bits [w] come next at [pos]. *)
Definition next_bits (pos : Z) (w : list bool) : Prop :=
  0 <= pos /\ pos + len w <= 8 * size /\ bits input pos (len w) = w.
Lemma next_bits_app pos v w : next_bits pos (v ++ w) <-> next_bits pos v /\ next_bits (pos + len v) w.
Proof using.
  unfold next_bits. rewrite length_app, Nat2Z.inj_add, bits_app by lia. split.
  - intros (H1 & H2 & H3). apply app_inj_1 in H3 as [-> ->]; [|pose proof (length_bits input pos (len v)); lia].
    split_and!; try done; lia.
  - intros ((H1 & H2 & ->) & H4 & H5 & ->). split_and!; try done; lia.
Qed.
Lemma next_bits_read pos w : next_bits pos w -> len w <= 32 ->
  lh_compress_deflate_try_bits input size pos (len w) = Done (Some (pos + len w, num w)).
Proof using I.
  intros (H1 & H2 & H3) Hw. rewrite try_bits_spec by lia. by rewrite (proj2 (Z.leb_le _ _)), H3 by lia.
Qed.
Lemma next_nbits_read pos n v : next_bits pos (nbits n v) -> 0 <= n <= 32 -> 0 <= v < 2 ^ n ->
  lh_compress_deflate_try_bits input size pos n = Done (Some (pos + n, v)).
Proof using I.
  intros H Hn Hv. pose proof (next_bits_read _ _ H) as E. rewrite length_nbits, nbits_small in E by lia. apply E. lia.
Qed.
End reading.

(** ** Canonical codes *)

(** How many of the lengths are [l]; the first code of length [l]; how many codes are shorter. *)
Definition cn (L : list Z) (l : nat) : Z := if decide (l = 0%nat) then 0 else len (filter (fun x => x = Z.of_nat l) L).
Fixpoint first_code (L : list Z) (l : nat) : Z := match l with O => 0 | S l => 2 * (first_code L l + cn L l) end.
Fixpoint shorter (L : list Z) (l : nat) : Z := match l with O => 0 | S l => shorter L l + cn L l end.
Definition length_of (L : list Z) (i : Z) : Z := byte_at L i.
(** How many symbols before [i] have a code of its length. *)
Definition rank (L : list Z) (i : Z) : Z := cn (take (Z.to_nat i) L) (Z.to_nat (length_of L i)).
Definition code (L : list Z) (i : Z) : Z := first_code L (Z.to_nat (length_of L i)) + rank L i.
(** The code of a symbol as it is written, its highest bit first. *)
Definition codeword (L : list Z) (i : Z) : list bool := rev (nbits (length_of L i) (code L i)).
(** Lengths of a code: at most 15, and no more codes than there is room for. *)
Definition code_ok (L : list Z) : Prop :=
  Forall (fun l => 0 <= l <= 15) L /\ forall l, (l <= 15)%nat -> first_code L l + cn L l <= 2 ^ Z.of_nat l.

Lemma cn_nonneg L l : 0 <= cn L l.
Proof. unfold cn. destruct (decide _); lia. Qed.
Lemma cn_app L M l : cn (L ++ M) l = cn L l + cn M l.
Proof. unfold cn. destruct (decide _); [lia|]. rewrite filter_app, length_app. lia. Qed.
Lemma cn_one x l : cn [x] l = if decide (l <> 0%nat /\ x = Z.of_nat l) then 1 else 0.
Proof.
  unfold cn. destruct (decide (l = 0%nat)) as [->|H]; [by rewrite decide_False by tauto|].
  destruct (decide (x = Z.of_nat l)) as [->|Hx].
  - rewrite filter_cons_True, decide_True by done. done.
  - rewrite filter_cons_False, decide_False by naive_solver. done.
Qed.
Lemma cn_le L l : cn L l <= len L.
Proof. unfold cn. destruct (decide _); [lia|]. pose proof (length_filter (fun x => x = Z.of_nat l) L). lia. Qed.
Lemma first_nonneg L l : 0 <= first_code L l.
Proof. induction l as [|l IH]; cbn [first_code]; [lia|]. pose proof (cn_nonneg L l). lia. Qed.
Lemma shorter_nonneg L l : 0 <= shorter L l.
Proof. induction l as [|l IH]; cbn [shorter]; [lia|]. pose proof (cn_nonneg L l). lia. Qed.
Lemma shorter_mono L l m : (l <= m)%nat -> shorter L l <= shorter L m.
Proof. induction 1 as [|m _ IH]; [lia|]. cbn [shorter]. pose proof (cn_nonneg L m). lia. Qed.
Lemma shorter_app L M l : shorter (L ++ M) l = shorter L l + shorter M l.
Proof. induction l as [|l IH]; cbn [shorter]; [lia|]. rewrite cn_app. lia. Qed.
Lemma shorter_one x l : shorter [x] l <= 1.
Proof.
  enough ((Z.of_nat l <= x -> shorter [x] l = 0) /\ shorter [x] l <= 1) by lia.
  induction l as [|l' [IH1 IH2]]; cbn [shorter]; [lia|]. rewrite cn_one. destruct (decide _) as [[H0 ->]|Hn]; [|lia].
  split; [lia|]. rewrite IH1 by lia. lia.
Qed.
Lemma shorter_le L l : shorter L l <= len L.
Proof.
  induction L as [|x L IH]; [induction l as [|l IH]; cbn [shorter]; [done|]; unfold cn; simpl; destruct (decide _); simpl in *; lia|].
  change (x :: L) with ([x] ++ L). rewrite shorter_app, length_app. pose proof (shorter_one x l). simpl length. lia.
Qed.

Lemma take_next L i : 0 <= i < len L -> take (Z.to_nat (i + 1)) L = take (Z.to_nat i) L ++ [byte_at L i].
Proof.
  intros Hi. replace (Z.to_nat (i + 1)) with (S (Z.to_nat i)) by lia. apply take_S_r. unfold byte_at. rewrite nth_lookup.
  destruct (lookup_lt_is_Some_2 L (Z.to_nat i)) as [v ->]; [lia|done].
Qed.
(** A symbol's rank is below the number of its length. *)
Lemma rank_range L i : 0 <= i < len L -> 0 < length_of L i -> 0 <= rank L i < cn L (Z.to_nat (length_of L i)).
Proof.
  intros Hi Hl. unfold rank. split; [apply cn_nonneg|]. rewrite <- (take_drop (Z.to_nat (i + 1)) L) at 3. rewrite take_next by done.
  rewrite !cn_app, cn_one. rewrite decide_True by (unfold length_of in *; lia).
  pose proof (cn_nonneg (drop (Z.to_nat (i + 1)) L) (Z.to_nat (length_of L i))). lia.
Qed.
(** Two symbols of one length with one rank are the same. *)
Lemma rank_inj L i j : 0 <= i < len L -> 0 <= j < len L -> 0 < length_of L i -> length_of L i = length_of L j -> rank L i = rank L j -> i = j.
Proof.
  assert (forall i j, 0 <= i < j -> j < len L -> 0 < length_of L i -> length_of L i = length_of L j -> rank L i < rank L j) as H.
  { clear i j. intros i j Hi Hj Hl El. unfold rank. rewrite <- El. set (l := Z.to_nat (length_of L i)).
    replace (take (Z.to_nat j) L) with (take (Z.to_nat (i + 1)) L ++ drop (Z.to_nat (i + 1)) (take (Z.to_nat j) L)).
    - rewrite take_next by lia. rewrite !cn_app, cn_one, decide_True by (unfold l, length_of in *; lia).
      pose proof (cn_nonneg (drop (Z.to_nat (i + 1)) (take (Z.to_nat j) L)) l). lia.
    - rewrite <- (take_drop (Z.to_nat (i + 1)) (take (Z.to_nat j) L)) at 2. f_equal. rewrite take_take. f_equal. lia. }
  intros Hi Hj Hl El Er. destruct (Z.lt_trichotomy i j) as [C|[C|C]]; [|done|].
  - pose proof (H i j). lia.
  - pose proof (H j i). lia.
Qed.
(** The first code of a longer length, against the end of a shorter one. *)
Lemma first_grows L l k : 2 ^ Z.of_nat (S k) * (first_code L l + cn L l) <= first_code L (l + S k).
Proof.
  induction k as [|k IH].
  - rewrite Nat.add_1_r. cbn [first_code]. simpl Z.of_nat. lia.
  - replace (l + S (S k))%nat with (S (l + S k)) by lia. cbn [first_code]. rewrite (Nat2Z.inj_succ (S k)), Z.pow_succ_r by lia.
    pose proof (cn_nonneg L (l + S k)). lia.
Qed.
Lemma length_of_range L i : code_ok L -> 0 <= i < len L -> 0 <= length_of L i <= 15.
Proof.
  intros [H _] Hi. unfold length_of, byte_at. rewrite Forall_forall in H. apply H.
  apply list_elem_of_lookup. exists (Z.to_nat i). rewrite nth_lookup. destruct (lookup_lt_is_Some_2 L (Z.to_nat i)) as [v ->]; [lia|done].
Qed.
Lemma code_range L i : code_ok L -> 0 <= i < len L -> 0 < length_of L i -> 0 <= code L i < 2 ^ length_of L i.
Proof.
  intros Hc Hi Hl. unfold code. pose proof (rank_range L i Hi Hl). pose proof (first_nonneg L (Z.to_nat (length_of L i))).
  pose proof (length_of_range L i Hc Hi). destruct Hc as [_ Hk]. specialize (Hk (Z.to_nat (length_of L i)) ltac:(lia)).
  rewrite Z2Nat.id in Hk by lia. lia.
Qed.
Lemma length_codeword L i : code_ok L -> 0 <= i < len L -> len (codeword L i) = length_of L i.
Proof. intros Hc Hi. pose proof (length_of_range L i Hc Hi). unfold codeword. rewrite length_rev, length_nbits; lia. Qed.

(** ** Building the tables *)

Definition counts_ok (L counts : list Z) : Prop :=
  16 <= len counts /\ forall l, (0 < l <= 15)%nat -> byte_at counts (Z.of_nat l) = cn L l.
Definition symbols_ok (L symbols : list Z) : Prop :=
  shorter L 16 <= len symbols /\
  forall i, 0 <= i < len L -> 0 < length_of L i -> byte_at symbols (shorter L (Z.to_nat (length_of L i)) + rank L i) = i.
(** The tables of the code of [L]. *)
Definition tables_ok (L counts symbols : list Z) : Prop := code_ok L /\ len L < 65536 /\ counts_ok L counts /\ symbols_ok L symbols.

Lemma byte_at_put (b : list Z) i j v : 0 <= i < len b -> 0 <= j ->
  byte_at (<[Z.to_nat i := v]> b) j = if decide (j = i) then v else byte_at b j.
Proof.
  intros Hi Hj. unfold byte_at. rewrite !nth_lookup. destruct (decide (j = i)) as [->|H].
  - rewrite list_lookup_insert_eq by lia. done.
  - rewrite list_lookup_insert_ne by lia. done.
Qed.

Lemma shorter_S L l : shorter L (S l) = shorter L l + cn L l.
Proof. done. Qed.
(** Where the tables keep a symbol. *)
Definition slot (L : list Z) (i : Z) : Z := shorter L (Z.to_nat (length_of L i)) + rank L i.
Lemma slot_range L i : code_ok L -> 0 <= i < len L -> 0 < length_of L i -> 0 <= slot L i < shorter L 16.
Proof.
  intros Hc Hi Hl. pose proof (rank_range L i Hi Hl). pose proof (length_of_range L i Hc Hi).
  pose proof (shorter_nonneg L (Z.to_nat (length_of L i))). unfold slot. split; [lia|].
  pose proof (shorter_mono L (S (Z.to_nat (length_of L i))) 16 ltac:(lia)) as H3. rewrite shorter_S in H3. lia.
Qed.
Lemma slot_inj L i j : 0 <= i < len L -> 0 <= j < len L -> 0 < length_of L i -> 0 < length_of L j -> slot L i = slot L j -> i = j.
Proof.
  assert (forall i j, 0 <= i < len L -> 0 <= j < len L -> 0 < length_of L i < length_of L j -> slot L i < slot L j) as H.
  { clear. intros i j Hi Hj Hl. unfold slot. pose proof (rank_range L i Hi ltac:(lia)). pose proof (rank_range L j Hj ltac:(lia)).
    pose proof (shorter_mono L (S (Z.to_nat (length_of L i))) (Z.to_nat (length_of L j)) ltac:(lia)) as H3. rewrite shorter_S in H3. lia. }
  intros Hi Hj Hli Hlj E. destruct (Z.lt_trichotomy (length_of L i) (length_of L j)) as [C|[C|C]].
  - pose proof (H i j). lia.
  - apply (rank_inj L); try done. unfold slot in E. rewrite C in E. lia.
  - pose proof (H j i). lia.
Qed.

(** Lengths as the code gets them: bytes, the first [size] of an array. *)
Definition lengths_ok (lengths : buffer) (size : Z) : Prop := is_bytes lengths /\ 0 <= size <= len lengths /\ size < 65536.
Section build.
Context (lengths : buffer) (size : Z) (Hl : lengths_ok lengths size).
Let L := take (Z.to_nat size) lengths.

Lemma length_L : len L = size.
Proof using Hl. destruct Hl as (_ & ? & _). unfold L. rewrite length_take. lia. Qed.
Lemma length_at i : 0 <= i < size -> load lengths i = Done (length_of L i) /\ is_u8 (length_of L i).
Proof using Hl.
  intros Hi. destruct Hl as (Hb & ? & _). unfold length_of, L. rewrite byte_at_take by lia.
  split; [by apply byte_at_load; lia|by apply byte_at_u8].
Qed.
Lemma cn_next i l : 0 <= i < size ->
  cn (take (Z.to_nat (i + 1)) L) l = cn (take (Z.to_nat i) L) l + if decide (l <> 0%nat /\ length_of L i = Z.of_nat l) then 1 else 0.
Proof using Hl. intros Hi. rewrite take_next by (rewrite length_L; done). by rewrite cn_app, cn_one. Qed.
Lemma cn_prefix i l : 0 <= i -> 0 <= cn (take (Z.to_nat i) L) l <= i.
Proof using Hl.
  intros Hi. split; [apply cn_nonneg|]. pose proof (cn_le (take (Z.to_nat i) L) l) as H. rewrite length_take in H. pose proof length_L. lia.
Qed.

Lemma lengths_loop_spec n : forall i counts,
  i + Z.of_nat n = size -> 0 <= i -> 16 <= len counts ->
  Forall (fun l => 0 <= l <= 15) (take (Z.to_nat i) L) ->
  0 <= byte_at counts 0 -> (forall l, (0 < l <= 15)%nat -> byte_at counts (Z.of_nat l) = cn (take (Z.to_nat i) L) l) ->
  exists ok counts', lengths_loop n lengths i counts = Done (ok, counts') /\ length counts' = length counts /\
    (ok = true <-> Forall (fun l => 0 <= l <= 15) L) /\ (ok = true -> counts_ok L counts').
Proof using Hl.
  induction n as [|n IH]; intros i counts Hn Hi Hc HF H0 Hk; cbn [lengths_loop].
  - exists true, counts. replace (take (Z.to_nat i) L) with L in * by (symmetry; apply take_ge; pose proof length_L; lia).
    split_and!; try done.
  - destruct (length_at i) as [-> Hu]; [lia|]. rewrite bind_done, Z.gtb_ltb. destruct (Z.ltb_spec 15 (length_of L i)) as [Hb|Hb].
    + exists false, counts. split_and!; try done. split; [done|]. intros HF'. exfalso. rewrite Forall_forall in HF'.
      assert (byte_at L i ∈ L); [|specialize (HF' _ H); unfold length_of in Hb; lia].
      apply list_elem_of_lookup. exists (Z.to_nat i). unfold byte_at. rewrite nth_lookup.
      destruct (lookup_lt_is_Some_2 L (Z.to_nat i)) as [v ->]; [pose proof length_L; lia|done].
    + rewrite byte_at_load, bind_done by zb. rewrite put_ok, bind_done by zb.
      set (l := length_of L i) in *. destruct (IH (i + 1) (<[Z.to_nat l := u16 (byte_at counts l + 1)]> counts))
        as (ok & counts' & E & El & Eo & Ec); [lia|lia|by rewrite length_insert| | | |].
      * rewrite take_next by (pose proof length_L; lia). apply Forall_app. split; [done|]. constructor; [|done].
        change (0 <= l <= 15). zb.
      * rewrite byte_at_put by zb. destruct (decide _); [apply u16_range|done].
      * intros k Hk'. rewrite byte_at_put by zb. rewrite cn_next by lia. change (length_of L i) with l.
        destruct (decide (Z.of_nat k = l)) as [<-|Hne].
        -- rewrite decide_True by (split; [lia|done]). rewrite Hk by done. pose proof (cn_prefix i k Hi). destruct Hl as (_ & _ & ?).
           rewrite u16_id by zb. done.
        -- rewrite decide_False by naive_solver. rewrite Hk by done. lia.
      * exists ok, counts'. rewrite E, El, length_insert. done.
Qed.

(** The space left after the codes of length [l]. *)
Definition room (l : nat) : Z := 2 ^ Z.of_nat l - (first_code L l + cn L l).
Lemma room_next l : room (S l) = room l * 2 - cn L (S l).
Proof using. unfold room. cbn [first_code]. rewrite Nat2Z.inj_succ, Z.pow_succ_r by lia. lia. Qed.
Lemma room_le l : (l <= 15)%nat -> room l <= 32768.
Proof using.
  intros Hl'. unfold room. pose proof (first_nonneg L l). pose proof (cn_nonneg L l).
  pose proof (Z.pow_le_mono_r 2 (Z.of_nat l) 15 ltac:(lia) ltac:(lia)). change (2 ^ 15) with 32768 in *. lia.
Qed.
Lemma left_loop_spec counts n : counts_ok L counts -> forall l s,
  (l + n = 15)%nat -> 0 <= room l -> 0 <= s <= shorter L (S l) -> exists r,
  left_loop n counts (Z.of_nat (S l)) (room l) s = Done r /\
  match r with
  | Some (a, b) => a = room 15 /\ b = s + (shorter L 16 - shorter L (S l)) /\ forall k, (l <= k <= 15)%nat -> 0 <= room k
  | None => exists k, (k <= 15)%nat /\ room k < 0
  end.
Proof using Hl.
  intros [Hc Hk]. pose proof length_L as HL. destruct Hl as (_ & _ & Hs). induction n as [|n IH]; intros l s Hn Hr Hsl; cbn [left_loop].
  - eexists. split; [done|]. replace l with 15%nat in * by lia. split_and!; [done|lia|]. intros k Hk'. replace k with 15%nat by lia. lia.
  - rewrite byte_at_load by lia. rewrite Hk by lia. rewrite surely_done, bind_some.
    pose proof (cn_nonneg L (S l)). pose proof (cn_le L (S l)). pose proof (room_le l ltac:(lia)).
    assert (Ei : forall x, -65536 <= x <= 65536 -> int x = Done x).
    { intros x Hx. unfold int. by rewrite (proj2 (Z.leb_le _ _)), (proj2 (Z.leb_le _ _)) by lia. }
    rewrite (Ei (room l * 2)) by lia. rewrite bind_done, Ei, surely_done, bind_some by lia. rewrite <- room_next.
    destruct (Z.ltb_spec (room (S l)) 0) as [Hneg|Hpos].
    + eexists. split; [done|]. exists (S l). split; [lia|done].
    + replace (Z.of_nat (S l) + 1) with (Z.of_nat (S (S l))) by lia.
      pose proof (shorter_le L (S (S l))) as Hle. rewrite (shorter_S L (S l)) in Hle.
      rewrite u32_id by zb. destruct (IH (S l) (s + cn L (S l))) as (r & E & Hspec); [lia|done|rewrite (shorter_S L (S l)); lia|].
      exists r. split; [done|]. destruct r as [[a b]|]; [|done]. destruct Hspec as (-> & -> & Hall).
      split_and!; [done|rewrite (shorter_S L (S l)); lia|]. intros k Hk'. destruct (decide (k = l)) as [->|]; [lia|]. apply Hall. lia.
Qed.
Lemma room_0 : room 0 = 1.
Proof using. done. Qed.

Lemma left_loop_start counts : code_ok L -> counts_ok L counts ->
  left_loop 15 counts 1 1 0 = Done (Some (2 ^ 15 - (first_code L 15 + cn L 15), shorter L 16)).
Proof using Hl.
  intros Hco Hc. assert (H1 : shorter L 1 = 0) by done.
  destruct (left_loop_spec counts 15 Hc 0 0 eq_refl ltac:(rewrite room_0; lia) ltac:(lia)) as (r & E & Hr). rewrite room_0 in E.
  change (Z.of_nat 1) with 1 in E. rewrite E.
  destruct r as [[rm sy]|]; [|destruct Hr as (k & Hk & Hneg); pose proof (proj2 Hco k Hk); unfold room in Hneg; lia].
  destruct Hr as (-> & -> & _). unfold room. do 3 f_equal. lia.
Qed.

Lemma offsets_of_spec counts : counts_ok L counts -> exists offsets, offsets_of counts = Done offsets /\ len offsets = 16 /\
  forall l, (0 < l <= 15)%nat -> byte_at offsets (Z.of_nat l) = shorter L l.
Proof using Hl.
  intros [Hc Hk]. pose proof length_L as HL. destruct Hl as (_ & _ & Hs). unfold offsets_of. rewrite put_ok, bind_done by (simpl; lia).
  destruct (for_up_rule (fun i offsets => len offsets = 16 /\ forall l, (0 < l)%nat -> Z.of_nat l <= i -> byte_at offsets (Z.of_nat l) = shorter L l)
    1 15 (fun l offsets => o ← load offsets l; c ← load counts l; put offsets (l + 1) (u16 (o + c))) (<[Z.to_nat 1 := 0]> (local 16)))
    as (offsets & E & Eo & Ho); [lia| | |].
  - split; [done|]. intros l H1 H2. by replace l with 1%nat by lia.
  - intros i a Hi [Ha Ho]. cbv beta. rewrite (byte_at_load a i), bind_done by lia. rewrite (byte_at_load counts i), bind_done, put_ok by lia.
    eexists. split; [done|]. split; [by rewrite length_insert|]. intros l Hl0 Hl1. rewrite byte_at_put by lia.
    destruct (decide (Z.of_nat l = i + 1)) as [El|Hne]; [|apply Ho; lia].
    destruct l as [|l]; [lia|]. replace i with (Z.of_nat l) by lia. rewrite Ho, Hk by lia. rewrite <- shorter_S.
    pose proof (shorter_nonneg L (S l)). pose proof (shorter_le L (S l)). apply u16_id. zb.
  - exists offsets. split_and!; try done. intros l Hl'. apply Ho; lia.
Qed.
Lemma sort_symbols_spec offsets symbols : code_ok L -> len offsets = 16 -> shorter L 16 <= len symbols ->
  (forall l, (0 < l <= 15)%nat -> byte_at offsets (Z.of_nat l) = shorter L l) ->
  exists offsets' symbols', sort_symbols lengths size offsets symbols = Done (offsets', symbols') /\
    length symbols' = length symbols /\ symbols_ok L symbols'.
Proof using Hl.
  intros Hc Ho Hsy Hof. pose proof length_L as HL. pose proof Hl as (_ & Hsz & Hs). unfold sort_symbols.
  set (P := fun i '(offsets, symbols') => len offsets = 16 /\ length symbols' = length symbols /\
    (forall l, (0 < l <= 15)%nat -> byte_at offsets (Z.of_nat l) = shorter L l + cn (take (Z.to_nat i) L) l) /\
    forall j, 0 <= j < i -> 0 < length_of L j -> byte_at symbols' (slot L j) = j).
  match goal with |- context [for_up 0 size ?body _] =>
    destruct (for_up_rule P 0 size body (offsets, symbols)) as ([offsets' symbols'] & E & HP) end.
  - lia.
  - split_and!; try done; [|intros; lia]. intros l Hl'. rewrite take_0. unfold cn. simpl. destruct (decide _); rewrite Hof by done; simpl; lia.
  - intros i [os sy] Hi (Hos & Hsl & Hcn & Hrev). cbv beta iota. destruct (length_at i) as [-> Hu]; [lia|]. rewrite bind_done.
    pose proof (length_of_range L i Hc ltac:(lia)) as Hli.
    destruct (Z.eqb_spec (length_of L i) 0) as [H0|H0]; cbn [negb].
    + eexists. split; [done|]. split_and!; try done.
      * intros l Hl'. rewrite cn_next, decide_False by naive_solver lia. rewrite Hcn by done. lia.
      * intros j Hj Hlj. destruct (decide (j = i)) as [->|]; [lia|]. apply Hrev; lia.
    + pose proof (slot_range L i Hc ltac:(lia) ltac:(lia)) as Hslot.
      assert (Eo : byte_at os (length_of L i) = slot L i).
      { pose proof (Hcn (Z.to_nat (length_of L i)) ltac:(lia)) as H. rewrite Z2Nat.id in H by lia. exact H. }
      pose proof (shorter_le L 16). rewrite (byte_at_load os), bind_done, Eo by lia.
      rewrite (put_ok sy), bind_done, (put_ok os), bind_done by lia.
      eexists. split; [done|]. split_and!; try by rewrite length_insert.
      * intros l Hl'. rewrite byte_at_put by lia. rewrite cn_next by lia. destruct (decide (Z.of_nat l = length_of L i)) as [El|Hne].
        -- rewrite decide_True by (split; [lia|done]).
           assert (slot L i = shorter L l + cn (take (Z.to_nat i) L) l) by (rewrite <- Eo, <- El, Hcn; done).
           rewrite u16_id by zb. lia.
        -- rewrite decide_False by naive_solver. rewrite Hcn by done. lia.
      * intros j Hj Hlj. pose proof (slot_range L j Hc ltac:(lia) ltac:(lia)). rewrite byte_at_put by lia.
        destruct (decide (slot L j = slot L i)) as [E|Hne].
        -- rewrite (slot_inj L j i) by lia. apply u16_id. zb.
        -- apply Hrev; [|done]. destruct (decide (j = i)) as [->|]; [done|lia].
  - exists offsets', symbols'. rewrite E. destruct HP as (_ & Hsl & _ & Hrev). split_and!; try done.
    split; [lia|]. intros i Hi. apply Hrev. lia.
Qed.

(** It says whether the lengths are those of a code, and then makes its tables. *)
Lemma try_build_spec counts symbols : 16 <= len counts -> size <= len symbols ->
  exists ok counts' symbols', lh_compress_deflate_try_build lengths size counts symbols = Done (ok, counts', symbols') /\
    length counts' = length counts /\ length symbols' = length symbols /\
    (ok = true <-> code_ok L) /\ (ok = true -> tables_ok L counts' symbols').
Proof using Hl.
  intros Hc Hsy. pose proof length_L as HL. pose proof Hl as (_ & Hsz & Hs).
  unfold lh_compress_deflate_try_build, clear. rewrite (proj2 (Z.leb_le _ _)) by lia. cbn [andb]. rewrite (proj2 (Z.leb_le _ _)), bind_done by lia.
  set (zeros := replicate (Z.to_nat 16) 0 ++ drop (Z.to_nat 16) counts).
  assert (Hz : length zeros = length counts) by (unfold zeros; rewrite length_app, length_replicate, length_drop; lia).
  assert (Ez : forall l, 0 <= l < 16 -> byte_at zeros l = 0).
  { intros l Hl'. unfold zeros. rewrite byte_at_app_l by (rewrite length_replicate; lia). by apply byte_at_replicate. }
  destruct (lengths_loop_spec (Z.to_nat size) 0 zeros) as (ok & counts' & E & El & Eo & Ec); [lia|lia|lia|done|by rewrite Ez| |].
  { intros l Hl'. rewrite Ez by lia. unfold cn. rewrite take_0. by destruct (decide _). }
  rewrite E, bind_done. destruct ok; cbn [negb].
  2: { exists false, counts', symbols. split_and!; try done; [lia|]. split; [done|]. intros [HF _]. by apply Eo. }
  specialize (Ec eq_refl). pose proof (proj1 Eo eq_refl) as HF.
  destruct (left_loop_spec counts' 15 Ec 0 0 eq_refl ltac:(rewrite room_0; lia) ltac:(change (shorter L 1) with 0; lia)) as (r & El' & Hr). rewrite room_0 in El'.
  change (Z.of_nat 1) with 1 in El'. rewrite El', bind_done. destruct r as [[a b]|].
  - destruct Hr as (_ & _ & Hr). assert (Hco : code_ok L).
    { split; [done|]. intros l Hl'. specialize (Hr l ltac:(lia)). unfold room in Hr. lia. }
    destruct (offsets_of_spec counts' Ec) as (offsets & Eof & Hof & Hsh). rewrite Eof, bind_done.
    destruct (sort_symbols_spec offsets symbols Hco Hof) as (offsets' & symbols' & Es & Esl & Hok);
      [pose proof (shorter_le L 16); lia|done|]. rewrite Es, bind_done.
    exists true, counts', symbols'. split_and!; try done; [lia|]. intros _. split_and!; try done. lia.
  - exists false, counts', symbols. split_and!; try done; [lia|]. split; [done|]. intros [_ Hco].
    destruct Hr as (k & Hk & Hneg). specialize (Hco k Hk). unfold room in Hneg. lia.
Qed.
End build.

(** ** Reading a symbol *)

(** The lowest [n] bits of a number, the highest first. *)
Definition msb (n : nat) (v : Z) : list bool := rev (nbits (Z.of_nat n) v).
Lemma msb_S n v : msb (S n) v = Z.testbit v (Z.of_nat n) :: msb n v.
Proof.
  unfold msb, nbits. replace (Z.of_nat (S n)) with (Z.of_nat n + 1) by lia. rewrite seqZ_app by lia.
  rewrite map_app, rev_app_distr. simpl. by rewrite Z.add_0_l.
Qed.
Lemma length_msb n v : length (msb n v) = n.
Proof. unfold msb. rewrite length_rev. pose proof (length_nbits (Z.of_nat n) v). lia. Qed.
Lemma msb_snoc n v b : msb n v ++ [b] = msb (S n) (2 * v + Z.b2z b).
Proof.
  induction n as [|n IH]; [rewrite msb_S; cbn [app]; f_equal; by destruct b; rewrite ?Z.testbit_odd_0, ?Z.add_0_r, ?Z.testbit_even_0|].
  rewrite !msb_S in *. rewrite <- app_comm_cons, IH. f_equal. rewrite Nat2Z.inj_succ.
  destruct b; simpl Z.b2z; [rewrite Z.testbit_odd_succ|rewrite Z.add_0_r, Z.testbit_even_succ]; (done || lia).
Qed.
Lemma rank_surj L l r : 0 <= r < cn L l -> exists i, 0 <= i < len L /\ length_of L i = Z.of_nat l /\ rank L i = r.
Proof.
  induction L as [|x L IH] using rev_ind; intros Hr; [unfold cn in Hr; simpl in Hr; destruct (decide _); simpl in Hr; lia|].
  rewrite cn_app, cn_one in Hr. destruct (decide (r < cn L l)) as [Hlt|Hge].
  - destruct IH as (i & Hi & El & Er); [lia|]. exists i. unfold length_of, rank in *. rewrite length_app, byte_at_app_l by lia.
    split_and!; [lia|simpl; lia|done|]. unfold length_of. rewrite byte_at_app_l, take_app_le by lia. done.
  - destruct (decide _) as [[Hl ->]|]; [|lia]. exists (len L). unfold rank, length_of. rewrite length_app.
    rewrite byte_at_app_r, Z.sub_diag by lia. change (byte_at [Z.of_nat l] 0) with (Z.of_nat l).
    split_and!; [lia|simpl; lia|done|]. rewrite take_app_le, take_ge by lia. rewrite Nat2Z.id. lia.
Qed.
Lemma codeword_msb L i : code_ok L -> 0 <= i < len L -> codeword L i = msb (Z.to_nat (length_of L i)) (code L i).
Proof. intros Hc Hi. pose proof (length_of_range L i Hc Hi). unfold codeword, msb. by rewrite Z2Nat.id by lia. Qed.

Section symbols.
Context (input : buffer) (size : Z) (I : input_ok input size).
Context (L counts syms : list Z) (T : tables_ok L counts syms).

(** The first [l - 1] bits read from [pos] are those of [c]; none of the shorter codes is among them. *)
Definition at_length (pos : Z) (l : nat) (c : Z) : Prop :=
  0 <= pos /\ (0 < l <= 15)%nat /\ next_bits input size (pos - (Z.of_nat l - 1)) (msb (pred l) c) /\
  0 <= c < 2 ^ (Z.of_nat l - 1) /\ first_code L l <= 2 * c.
Lemma first_S l : first_code L (S l) = 2 * (first_code L l + cn L l).
Proof using. done. Qed.
Lemma kraft l : (l <= 15)%nat -> 0 <= first_code L l /\ 0 <= cn L l /\ first_code L l + cn L l <= 2 ^ Z.of_nat l <= 32768.
Proof using T.
  intros Hl. destruct T as ([_ Hk] & _). specialize (Hk l Hl). pose proof (first_nonneg L l). pose proof (cn_nonneg L l).
  pose proof (Z.pow_le_mono_r 2 (Z.of_nat l) 15 ltac:(lia) ltac:(lia)). change (2 ^ 15) with 32768 in *. lia.
Qed.

Lemma symbol_loop_spec n : forall pos l c,
  (l + n = 16)%nat -> at_length pos l c -> exists r,
  symbol_loop n input size counts syms (Z.of_nat l) pos (2 * c) (first_code L l) (shorter L l) = Done r /\
  match r with
  | Some (pos', s) => 0 <= s < len L /\ 0 < length_of L s /\ next_bits input size (pos - (Z.of_nat l - 1)) (codeword L s) /\
      pos' = pos - (Z.of_nat l - 1) + length_of L s
  | None => True
  end.
Proof using I T.
  pose proof T as (Hco & HL & [Hc Hk] & [Hs Hrev]).
  induction n as [|n IH]; intros pos l c Hn (Hp & Hl & Hb & Hcr & Hf); cbn [symbol_loop]; [by eexists|].
  pose proof Hb as (_ & Hb2 & _). rewrite length_msb in Hb2.
  rewrite (try_bits_spec _ _ I) by lia. destruct (Z.leb_spec (pos + 1) (8 * size)) as [Hr|Hr]; [|by eexists].
  rewrite bind_some. cbn beta iota. rewrite bits_one. cbn [num]. rewrite Z.mul_0_r, Z.add_0_r. set (b := bit_at input pos).
  pose proof (kraft l ltac:(lia)) as (Hf0 & Hc0 & Hfc & Hpw).
  assert (Hpow : 2 ^ (Z.of_nat l - 1) * 2 = 2 ^ Z.of_nat l) by (rewrite Z.mul_comm, <- Z.pow_succ_r by lia; f_equal; lia).
  replace (Z.lor (2 * c) (Z.b2z b)) with (2 * c + Z.b2z b).
  2: { change 2 with (2 ^ 1). rewrite Z.mul_comm, lor_disjoint by (destruct b; simpl; lia). lia. }
  set (v := 2 * c + Z.b2z b). assert (Hv : 2 * c <= v < 2 ^ Z.of_nat l) by (unfold v; destruct b; simpl Z.b2z; lia).
  assert (Hnb : next_bits input size (pos - (Z.of_nat l - 1)) (msb l v)).
  { replace l with (S (pred l)) at 2 by lia. unfold v. rewrite <- msb_snoc. apply next_bits_app. split; [done|].
    rewrite length_msb. replace (pos - (Z.of_nat l - 1) + Z.of_nat (pred l)) with pos by lia. by split_and!. }
  rewrite (byte_at_load counts), Hk, surely_done, bind_some by lia. rewrite Z.geb_leb, (proj2 (Z.leb_le _ _)) by lia. cbn [andb].
  rewrite (u32_id (v - _)) by zb. pose proof (shorter_nonneg L l). pose proof (shorter_le L (S l)) as Hsl. rewrite (shorter_S L l) in Hsl.
  pose proof (shorter_mono L (S l) 16 ltac:(lia)) as Hm. rewrite (shorter_S L l) in Hm.
  destruct (Z.ltb_spec (v - first_code L l) (cn L l)) as [Hhit|Hmiss].
  - destruct (rank_surj L l (v - first_code L l)) as (i & Hi & El & Er); [lia|].
    rewrite (u32_id (shorter L l + _)) by zb. rewrite (byte_at_load syms) by lia. rewrite surely_done, bind_some.
    replace (shorter L l + (v - first_code L l)) with (shorter L (Z.to_nat (length_of L i)) + rank L i) by (rewrite El, Nat2Z.id, Er; lia).
    rewrite Hrev by lia. eexists. split; [reflexivity|]. split_and!; [lia|lia|lia| |lia].
    rewrite codeword_msb by (done || lia). unfold code. rewrite El, Nat2Z.id, Er. by replace (first_code L l + (v - first_code L l)) with v by lia.
  - assert (Ev : u32 (Z.shiftl v 1) = 2 * v) by (rewrite Z.shiftl_mul_pow2 by lia; change (2 ^ 1) with 2; rewrite u32_id by zb; lia).
    assert (Ef : u32 (Z.shiftl (u32 (first_code L l + cn L l)) 1) = first_code L (S l)).
    { rewrite (u32_id (_ + _)) by zb. rewrite Z.shiftl_mul_pow2 by lia. change (2 ^ 1) with 2. rewrite u32_id by zb. rewrite first_S. lia. }
    rewrite Ev, Ef, u32_id by zb. rewrite <- shorter_S. replace (Z.of_nat l + 1) with (Z.of_nat (S l)) by lia.
    destruct (decide (l = 15)%nat) as [->|Hne].
    { replace n with O by lia. by eexists. }
    destruct (IH (pos + 1) (S l) v) as (r & E & Hr'); [lia| |].
    + split_and!; [lia|lia|lia| |lia| |].
      * replace (pos + 1 - (Z.of_nat (S l) - 1)) with (pos - (Z.of_nat l - 1)) by lia. done.
      * replace (Z.of_nat (S l) - 1) with (Z.of_nat l) by lia. lia.
      * rewrite first_S. lia.
    + exists r. split; [done|]. destruct r as [[pos' s]|]; [|done].
      replace (pos + 1 - (Z.of_nat (S l) - 1)) with (pos - (Z.of_nat l - 1)) in Hr' by lia. done.
Qed.

(** A symbol's code is found. *)
Lemma symbol_loop_finds i n : 0 <= i < len L -> 0 < length_of L i -> forall pos (k : nat),
  let l := Z.to_nat (length_of L i - Z.of_nat k) in
  (Z.of_nat k < length_of L i) -> (l + n = 16)%nat -> next_bits input size pos (msb (S k) (code L i)) ->
  symbol_loop n input size counts syms (Z.of_nat l) pos (2 * (code L i / 2 ^ Z.of_nat (S k))) (first_code L l) (shorter L l)
  = Done (Some (pos + Z.of_nat (S k), i)).
Proof using I T.
  intros Hi Hli. pose proof T as (Hco & HL & [Hc Hk] & [Hs Hrev]).
  pose proof (length_of_range L i Hco Hi) as Hlr. pose proof (rank_range L i Hi Hli) as Hra.
  induction n as [|n IH]; intros pos k l Hkl Hn Hb; [lia|]. cbn [symbol_loop].
  assert (Hl : (0 < l <= 15)%nat) by lia. pose proof (kraft l ltac:(lia)) as (Hf0 & Hc0 & Hfc & Hpw).
  rewrite msb_S in Hb. pose proof Hb as (Hp & Hp2 & _). cbn [length] in Hp2.
  change (?x :: ?y) with ([x] ++ y) in Hb. apply next_bits_app in Hb as [Hb1 Hb2]. change (len [_]) with 1 in Hb2.
  destruct Hb1 as (_ & _ & Hb1). rewrite (try_bits_spec _ _ I) by lia. rewrite (proj2 (Z.leb_le _ _)), bind_some by lia.
  cbn beta iota. change (len [_]) with 1 in Hb1. rewrite Hb1. cbn [num]. rewrite Z.mul_0_r, Z.add_0_r.
  set (C := code L i) in *. assert (HC : 0 <= C) by (pose proof (code_range L i Hco Hi Hli); lia).
  assert (Ev : Z.lor (2 * (C / 2 ^ Z.of_nat (S k))) (Z.b2z (Z.testbit C (Z.of_nat k))) = C / 2 ^ Z.of_nat k).
  { change 2 with (2 ^ 1) at 1. rewrite Z.mul_comm, lor_disjoint by (destruct (Z.testbit _ _); simpl; lia).
    rewrite Z.testbit_spec' by lia. replace (2 ^ Z.of_nat (S k)) with (2 ^ Z.of_nat k * 2) by (rewrite Nat2Z.inj_succ, Z.pow_succ_r; lia). rewrite <- Z.div_div by lia.
    pose proof (Z.div_mod (C / 2 ^ Z.of_nat k) 2). change (2 ^ 1) with 2. lia. }
  rewrite Ev. set (v := C / 2 ^ Z.of_nat k) in *. rewrite (byte_at_load counts), Hk, surely_done, bind_some by lia.
  assert (Hv0 : first_code L l <= v /\ v < 2 ^ Z.of_nat l).
  { unfold v. split.
    - apply Z.div_le_lower_bound; [lia|]. destruct k as [|k].
      + change (2 ^ Z.of_nat 0) with 1. unfold C, code. replace (Z.to_nat (length_of L i)) with l by lia. lia.
      + pose proof (first_grows L l k) as H. replace (l + S k)%nat with (Z.to_nat (length_of L i)) in H by lia. unfold C, code. nia.
    - apply Z.div_lt_upper_bound; [lia|]. rewrite <- Z.pow_add_r by lia. pose proof (code_range L i Hco Hi Hli). fold C in H.
      replace (Z.of_nat k + Z.of_nat l) with (length_of L i) by lia. lia. }
  rewrite Z.geb_leb, (proj2 (Z.leb_le _ _)) by lia. cbn [andb]. rewrite (u32_id (v - _)) by zb.
  pose proof (shorter_nonneg L l). pose proof (shorter_le L (S l)) as Hsl. rewrite (shorter_S L l) in Hsl.
  destruct k as [|k].
  - assert (El : l = Z.to_nat (length_of L i)) by lia. assert (E0 : v = first_code L l + rank L i) by (unfold v; change (2 ^ Z.of_nat 0) with 1; rewrite Z.div_1_r; unfold C, code; by rewrite <- El).
    rewrite E0. rewrite <- El in Hra. rewrite (proj2 (Z.ltb_lt _ _)) by lia.
    pose proof (shorter_mono L (S l) 16 ltac:(lia)) as Hm. rewrite (shorter_S L l) in Hm.
    replace (first_code L l + rank L i - first_code L l) with (rank L i) by lia. rewrite (u32_id (shorter L l + _)), (byte_at_load syms), surely_done, bind_some by zb.
    rewrite El, Hrev by lia. done.
  - assert (Hmiss : first_code L l + cn L l <= v).
    { unfold v. apply Z.div_le_lower_bound; [lia|]. pose proof (first_grows L l k) as Hg.
      replace (l + S k)%nat with (Z.to_nat (length_of L i)) in Hg by lia. unfold C, code. lia. }
    rewrite (proj2 (Z.ltb_ge _ _)) by lia.
    assert (E2 : u32 (Z.shiftl v 1) = 2 * v) by (rewrite Z.shiftl_mul_pow2 by lia; change (2 ^ 1) with 2; rewrite u32_id by zb; lia).
    assert (Ef : u32 (Z.shiftl (u32 (first_code L l + cn L l)) 1) = first_code L (S l)).
    { rewrite (u32_id (_ + _)) by zb. rewrite Z.shiftl_mul_pow2 by lia. change (2 ^ 1) with 2. rewrite u32_id by zb. rewrite first_S. lia. }
    rewrite E2, Ef, u32_id by zb. rewrite <- shorter_S. specialize (IH (pos + 1) k).
    replace (Z.to_nat (length_of L i - Z.of_nat k)) with (S l) in IH by lia. cbv zeta in IH.
    replace (Z.of_nat l + 1) with (Z.of_nat (S l)) by lia. unfold v. rewrite IH by (lia || done). do 3 f_equal. lia.
Qed.

(** [try_symbol] decides the canonical code: it gives the symbol whose word comes next in the
    input and steps over the word, and refuses when no symbol's word comes next. *)
Lemma try_symbol_spec pos : 0 <= pos <= 8 * size -> exists r,
  lh_compress_deflate_try_symbol input size pos counts syms = Done r /\
  forall pos' s, r = Some (pos', s) <->
    (0 <= s < len L /\ 0 < length_of L s /\ next_bits input size pos (codeword L s) /\ pos' = pos + length_of L s).
Proof using I T.
  intros Hp. pose proof T as (Hco & _). unfold lh_compress_deflate_try_symbol.
  destruct (symbol_loop_spec 15 pos 1 0) as (r & E & Hr); [done| |].
  { refine (conj _ (conj _ (conj _ (conj _ _)))); [lia|lia| |done|done].
    refine (conj _ (conj _ _)); [lia|simpl; lia|done]. }
  change (2 * 0) with 0 in E. change (Z.of_nat 1) with 1 in E. change (first_code L 1) with 0 in E. change (shorter L 1) with 0 in E.
  replace (pos - (Z.of_nat 1 - 1)) with pos in Hr by lia. exists r. split; [done|].
  intros pos' s. split; [intros ->; done|]. intros (Hs & Hl & Hb & ->).
  pose proof (length_of_range L s Hco Hs). pose proof (code_range L s Hco Hs Hl).
  rewrite codeword_msb in Hb by done. pose proof (symbol_loop_finds s 15 Hs Hl pos (pred (Z.to_nat (length_of L s)))) as F. cbv zeta in F.
  replace (Z.to_nat (length_of L s - Z.of_nat (pred (Z.to_nat (length_of L s))))) with 1%nat in F by lia.
  replace (S (pred (Z.to_nat (length_of L s)))) with (Z.to_nat (length_of L s)) in F by lia. rewrite Z2Nat.id in F by lia.
  rewrite Z.div_small in F by lia. specialize (F ltac:(lia) eq_refl Hb). change (2 * 0) with 0 in F.
  change (Z.of_nat 1) with 1 in F. change (first_code L 1) with 0 in F. change (shorter L 1) with 0 in F. congruence.
Qed.
End symbols.
