(* ===== verification/DeflateSpec.v ===== *)
(** * DEFLATE: the format (RFC 1951)

    What a stream of bits means, without reference to the code: literals and matches with
    given prefix codes ([token_bits]), what they give ([gives]), the three kinds of blocks
    ([block]) and their sequence ([stream]).  The codes of a list of lengths are those of
    [HuffmanProofs]. *)
From S2P Require Import Prelude Buffer Bytes Swar Deflate HuffmanProofs.

(** ** Literals and matches *)

Inductive token := Literal (b : Z) | Match (n d : Z).
(** The lengths of matches: four symbols for each number of extra bits from one on, the last
    symbol for 258 alone.  The distances: two for each. *)
Definition length_extra (i : Z) : Z := if i =? 28 then 0 else Z.max 0 (i / 4 - 1).
Definition distance_extra (i : Z) : Z := Z.max 0 (i / 2 - 1).
Definition sum_below (f : Z -> Z) (i : Z) : Z := foldr (fun j s => f j + s) 0 (seqZ 0 i).
Definition length_base (i : Z) : Z := if i =? 28 then 258 else 3 + sum_below (fun j => 2 ^ length_extra j) i.
Definition distance_base (i : Z) : Z := 1 + sum_below (fun j => 2 ^ distance_extra j) i.

(** The word of a symbol that has one. *)
Definition is_word (L : list Z) (s : Z) (w : list bool) : Prop := 0 <= s < len L /\ 0 < length_of L s /\ w = codeword L s.
(** The bits of a token with the codes [LL] of literals and lengths and [LD] of distances. *)
Inductive token_bits (LL LD : list Z) : token -> list bool -> Prop :=
| literal_bits b w : b < 256 -> is_word LL b w -> token_bits LL LD (Literal b) w
| match_bits i w1 e1 j w2 e2 :
    0 <= i < 29 -> is_word LL (257 + i) w1 -> len e1 = length_extra i ->
    0 <= j < 30 -> is_word LD j w2 -> len e2 = distance_extra j ->
    token_bits LL LD (Match (length_base i + num e1) (distance_base j + num e2)) (w1 ++ e1 ++ w2 ++ e2).
Inductive tokens_bits (LL LD : list Z) : list token -> list bool -> Prop :=
| tokens_end w : is_word LL 256 w -> tokens_bits LL LD [] w
| tokens_next t ts w w' : token_bits LL LD t w -> tokens_bits LL LD ts w' -> tokens_bits LL LD (t :: ts) (w ++ w').

(** What follows after [h]: a literal, or the [n] bytes from [d] back, which may run into
    themselves. *)
Definition copied (h : list Z) (n d : Z) : list Z := map (fun i => byte_at h (len h - d + i mod d)) (seqZ 0 n).
Inductive gives : list Z -> list token -> list Z -> Prop :=
| gives_end h : gives h [] h
| gives_literal h b ts h' : gives (h ++ [b]) ts h' -> gives h (Literal b :: ts) h'
| gives_match h n d ts h' : 1 <= d <= 32768 -> d <= len h -> gives (h ++ copied h n d) ts h' -> gives h (Match n d :: ts) h'.

(** ** Blocks *)

Definition bytes_bits (bs : list Z) : list bool := bits bs 0 (8 * len bs).
Definition fixed_lit : list Z := replicate 144 8 ++ replicate 112 9 ++ replicate 24 7 ++ replicate 8 8.
Definition fixed_dist : list Z := replicate 32 5.

(** The lengths of a dynamic block, themselves coded: a length, the last one three to six times
    more, or zeros, three to ten or eleven to 138. *)
Inductive run := Length (l : Z) | Again (n : Z) | Zeros (n : Z) | Many_zeros (n : Z).
Inductive run_bits (LC : list Z) : run -> list bool -> Prop :=
| run_length l w : l < 16 -> is_word LC l w -> run_bits LC (Length l) w
| run_again w e : is_word LC 16 w -> len e = 2 -> run_bits LC (Again (3 + num e)) (w ++ e)
| run_zeros w e : is_word LC 17 w -> len e = 3 -> run_bits LC (Zeros (3 + num e)) (w ++ e)
| run_many w e : is_word LC 18 w -> len e = 7 -> run_bits LC (Many_zeros (11 + num e)) (w ++ e).
(** Runs after the lengths [p] that make [n] lengths in all. *)
Inductive runs_bits (LC : list Z) (n : Z) : list Z -> list bool -> list Z -> Prop :=
| runs_end p : len p = n -> runs_bits LC n p [] p
| runs_length p l w w' q : run_bits LC (Length l) w -> len p < n ->
    runs_bits LC n (p ++ [l]) w' q -> runs_bits LC n p (w ++ w') q
| runs_again p l k w w' q : run_bits LC (Again k) w -> last p = Some l -> len p + k <= n ->
    runs_bits LC n (p ++ replicate (Z.to_nat k) l) w' q -> runs_bits LC n p (w ++ w') q
| runs_zeros p r k w w' q : run_bits LC r w -> r = Zeros k \/ r = Many_zeros k -> len p + k <= n ->
    runs_bits LC n (p ++ replicate (Z.to_nat k) 0) w' q -> runs_bits LC n p (w ++ w') q.
(** A code has to be complete; one of a single word of one bit and, for the distances, none at
    all may be allowed. *)
Definition complete (L : list Z) : Prop := first_code L 15 + cn L 15 = 2 ^ 15.
Definition single (L : list Z) : Prop := shorter L 16 = 1 /\ cn L 1 = 1.
Definition empty (L : list Z) : Prop := shorter L 16 = 0.
(** The lengths of the code of lengths come in this order. *)
Definition in_order (ls : list Z) : list Z :=
  foldl (fun L '(o, l) => <[Z.to_nat o := l]> L) (replicate 19 0) (zip code_length_order ls).
Inductive dynamic_header : list bool -> list Z -> list Z -> Prop :=
| dynamic_header_bits ls LL LD w :
    257 <= len LL <= 286 -> 1 <= len LD <= 32 -> 4 <= len ls <= 19 -> Forall (fun l => 0 <= l < 8) ls ->
    code_ok (in_order ls) -> complete (in_order ls) ->
    runs_bits (in_order ls) (len LL + len LD) [] w (LL ++ LD) ->
    length_of LL 256 <> 0 -> code_ok LL -> complete LL \/ single LL ->
    code_ok LD -> complete LD \/ single LD \/ empty LD ->
    dynamic_header (nbits 5 (len LL - 257) ++ nbits 5 (len LD - 1) ++ nbits 4 (len ls - 4) ++ mjoin (nbits 3 <$> ls) ++ w) LL LD.

(** The bits of a block that starts at [pos] after its first bit, and what it makes of [h]. *)
Inductive block (pos : Z) : list bool -> list Z -> list Z -> Prop :=
| stored_block pad bs h :
    len pad = (- (pos + 2)) mod 8 -> is_bytes bs -> len bs < 65536 ->
    block pos ([false; false] ++ pad ++ nbits 16 (len bs) ++ nbits 16 (65535 - len bs) ++ bytes_bits bs) h (h ++ bs)
| fixed_block ts w h h' :
    tokens_bits fixed_lit fixed_dist ts w -> gives h ts h' -> block pos ([true; false] ++ w) h h'
| dynamic_block w LL LD ts w' h h' :
    dynamic_header w LL LD -> tokens_bits LL LD ts w' -> gives h ts h' -> block pos ([false; true] ++ w ++ w') h h'.
(** A stream from [pos] on: blocks, the last one marked. *)
Inductive stream : Z -> list bool -> list Z -> list Z -> Prop :=
| stream_last pos w h h' : block (pos + 1) w h h' -> stream pos (true :: w) h h'
| stream_more pos w w' h h1 h' :
    block (pos + 1) w h h1 -> stream (pos + 1 + len w) w' h1 h' -> stream pos (false :: w ++ w') h h'.
