(* ===== verification/PutProofs.v ===== *)
(** * DEFLATE: what is written

    [emits]: a step of the encoder writes given bits at a position, changes nothing else, and
    refuses exactly when they do not fit.  Bits, codes, symbols and stored blocks in terms of
    it. *)
From S2P Require Import Prelude Buffer Bytes Swar Deflate HuffmanProofs.

(** ** Writing *)

Definition written (out : buffer) (pos : Z) (w : list bool) (out' : buffer) : Prop :=
  length out' = length out /\ is_bytes out' /\
  forall i, 0 <= i -> bit_at out' i = if (pos <=? i) && (i <? pos + len w) then nth (Z.to_nat (i - pos)) w false else bit_at out i.
Definition emits (cap : Z) (m : writing Z) (pos : Z) (w : list bool) : Prop :=
  forall out, is_bytes out -> cap <= len out ->
  if pos + len w <=? 8 * cap then exists out', m out = Done (out', Some (pos + len w)) /\ written out pos w out'
  else exists out', m out = Done (out', None) /\ length out' = length out /\ is_bytes out'.

Lemma written_nil out pos : is_bytes out -> written out pos [] out.
Proof.
  intros Hb. split_and!; try done. intros i Hi. destruct (_ && _) eqn:E; [|done]. apply andb_true_iff in E as [E1%Z.leb_le E2%Z.ltb_lt]. simpl in *. lia.
Qed.
Lemma written_app out pos v w out1 out2 : 0 <= pos ->
  written out pos v out1 -> written out1 (pos + len v) w out2 -> written out pos (v ++ w) out2.
Proof.
  intros Hp (L1 & B1 & W1) (L2 & B2 & W2). split_and!; [congruence|done|]. intros i Hi. rewrite W2, length_app by done.
  destruct (Z.leb_spec (pos + len v) i), (Z.ltb_spec i (pos + len v + len w)), (Z.leb_spec pos i),
    (Z.ltb_spec i (pos + Z.of_nat (length v + length w))); cbn [andb]; try lia.
  - rewrite app_nth2 by lia. f_equal. lia.
  - rewrite W1 by done. destruct (Z.leb_spec pos i), (Z.ltb_spec i (pos + len v)); cbn [andb]; (done || lia).
  - rewrite W1 by done. destruct (Z.leb_spec pos i), (Z.ltb_spec i (pos + len v)); cbn [andb]; try lia. rewrite app_nth1 by lia. done.
  - rewrite W1 by done. destruct (Z.leb_spec pos i), (Z.ltb_spec i (pos + len v)); cbn [andb]; (done || lia).
Qed.
(** What was written can be read; what was there before is still there. *)
Lemma written_bits out pos w out' : 0 <= pos -> written out pos w out' -> bits out' pos (len w) = w.
Proof.
  intros Hp (_ & _ & W). apply list_eq. intros i. unfold bits. rewrite list_lookup_fmap.
  destruct (decide (i < length w)%nat) as [Hi|Hi].
  - rewrite lookup_seqZ_lt by lia. simpl. rewrite W by lia. rewrite (proj2 (Z.leb_le _ _)), (proj2 (Z.ltb_lt _ _)) by lia. cbn [andb].
    replace (Z.to_nat (pos + Z.of_nat i - pos)) with i by lia. rewrite nth_lookup.
    destruct (lookup_lt_is_Some_2 w i Hi) as [b ->]. done.
  - rewrite (proj2 (lookup_ge_None w i)) by lia. rewrite lookup_seqZ_ge by lia. done.
Qed.
Lemma written_before out pos w out' a n : 0 <= a -> a + n <= pos -> written out pos w out' -> bits out' a n = bits out a n.
Proof.
  intros Ha Hn (_ & _ & W). unfold bits. apply map_ext_in. intros i Hi. apply list_elem_of_In, elem_of_seqZ in Hi.
  rewrite W by lia. rewrite (proj2 (Z.leb_gt _ _)) by lia. done.
Qed.

Section emits.
Context (cap : Z) (Hcap : 0 <= cap /\ 8 * cap < 2 ^ 63).

Lemma emits_ret pos : 0 <= pos <= 8 * cap -> emits cap (mret pos) pos [].
Proof using. intros Hp out Hb Hc. rewrite (proj2 (Z.leb_le _ _)) by (simpl; lia). exists out. rewrite Z.add_0_r. split; [done|by apply written_nil]. Qed.
Lemma emits_bind m f pos v w :
  0 <= pos -> emits cap m pos v -> (pos + len v <= 8 * cap -> emits cap (f (pos + len v)) (pos + len v) w) ->
  emits cap (pos ← m; f pos) pos (v ++ w).
Proof using.
  intros Hp Hm Hf out Hb Hc. rewrite length_app. specialize (Hm out Hb Hc).
  destruct (Z.leb_spec (pos + len v) (8 * cap)) as [Hv|Hv].
  - destruct Hm as (out1 & E1 & W1). unfold mbind, writing_bind. rewrite E1. pose proof W1 as (L1 & B1 & _).
    specialize (Hf Hv out1 B1 ltac:(lia)). rewrite Nat2Z.inj_add, Z.add_assoc.
    destruct (Z.leb_spec (pos + len v + len w) (8 * cap)).
    + destruct Hf as (out2 & E2 & W2). exists out2. split; [done|]. by eapply written_app.
    + destruct Hf as (out2 & E2 & L2 & B2). exists out2. split_and!; [done|congruence|done].
  - rewrite (proj2 (Z.leb_gt _ _)) by lia. destruct Hm as (out1 & E1 & L1 & B1). unfold mbind, writing_bind. rewrite E1. by exists out1.
Qed.
Lemma emits_only {A} (r : A) (f : A -> writing Z) pos w :
  emits cap (f r) pos w -> emits cap (a ← only (surely (Done r)); f a) pos w.
Proof using. done. Qed.
Lemma emits_ext m m' pos w : (forall out, m out = m' out) -> emits cap m' pos w -> emits cap m pos w.
Proof using. intros E H out Hb Hc. rewrite E. by apply H. Qed.

(** ** Bits *)

Lemma put_byte_bit byte mask bs j : is_u8 byte -> 0 <= mask < 2 ^ 32 -> 0 <= bs -> (forall i, 0 <= i -> Z.testbit bs i = true -> Z.testbit mask i = true) ->
  0 <= j < 8 -> Z.testbit (u8 (Z.lor (Z.land byte (u32 (Z.lnot mask))) bs)) j = if Z.testbit mask j then Z.testbit bs j else Z.testbit byte j.
Proof using.
  intros Hb Hm Hbs Hsub Hj. unfold u8, u32. change 256 with (2 ^ 8). change 4294967296 with (2 ^ 32).
  rewrite Z.mod_pow2_bits_low, Z.lor_spec, Z.land_spec, Z.mod_pow2_bits_low, Z.lnot_spec by lia.
  destruct (Z.testbit mask j) eqn:E; cbn [negb]; [by rewrite andb_false_r|]. rewrite andb_true_r.
  destruct (Z.testbit bs j) eqn:E2; [|by rewrite orb_false_r]. rewrite Hsub in E; [done|lia|done].
Qed.
Lemma put_loop_spec fuel : forall mask bs at_ out m,
  is_bytes out -> 0 <= at_ -> 0 <= mask < 2 ^ 32 -> mask < 2 ^ m -> 0 <= m /\ m + 8 <= 8 * Z.of_nat fuel -> 8 * at_ + m <= 8 * len out ->
  0 <= bs -> (forall i, 0 <= i -> Z.testbit bs i = true -> Z.testbit mask i = true) ->
  exists out', put_loop fuel mask bs at_ out = Done out' /\ length out' = length out /\ is_bytes out' /\
    forall i, 0 <= i -> bit_at out' i = if (8 * at_ <=? i) && Z.testbit mask (i - 8 * at_) then Z.testbit bs (i - 8 * at_) else bit_at out i.
Proof using.
  induction fuel as [|fuel IH]; intros mask bs at_ out m Hb Ha Hm Hmm Hmf Hl Hbs Hsub; [lia|]. cbn [put_loop].
  destruct (Z.eqb_spec mask 0) as [->|H0]; cbn [negb].
  - exists out. split_and!; try done. intros i Hi. by rewrite Z.bits_0, andb_false_r.
  - assert (0 < m) by (destruct (decide (m = 0)) as [->|]; [simpl in Hmm; lia|lia]).
    rewrite byte_at_load, bind_done by lia. rewrite put_ok, bind_done by lia.
    set (v := u8 _). assert (Hbv : is_bytes (<[Z.to_nat at_ := v]> out)) by (apply put_bytes; [done|apply u8_range]).
    assert (Hb8 : is_u8 (byte_at out at_)) by by apply byte_at_u8.
    destruct (IH (Z.shiftr mask 8) (Z.shiftr bs 8) (at_ + 1) (<[Z.to_nat at_ := v]> out) (Z.max 0 (m - 8))) as (out' & E & L & B & Hbit).
    + done.
    + lia.
    + rewrite Z.shiftr_div_pow2 by lia. split; [apply Z.div_pos; lia|]. apply Z.div_lt_upper_bound; lia.
    + rewrite Z.shiftr_div_pow2 by lia. apply Z.div_lt_upper_bound; [lia|]. rewrite <- Z.pow_add_r by lia.
      eapply Z.lt_le_trans; [exact Hmm|]. apply Z.pow_le_mono_r; lia.
    + lia.
    + rewrite length_insert. lia.
    + rewrite Z.shiftr_div_pow2 by lia. apply Z.div_pos; lia.
    + intros i Hi. rewrite !Z.shiftr_spec by lia. apply Hsub. lia.
    + exists out'. rewrite E. split_and!; [done|by rewrite L, length_insert|done|]. intros i Hi. rewrite Hbit by done.
      unfold bit_at at 1. rewrite byte_at_put by zdm.
      destruct (Z.leb_spec (8 * (at_ + 1)) i) as [H1|H1]; cbn [andb].
      * rewrite (proj2 (Z.leb_le _ _)) by lia. cbn [andb]. rewrite !Z.shiftr_spec by lia.
        replace (i - 8 * (at_ + 1) + 8) with (i - 8 * at_) by lia. rewrite decide_False by zdm. done.
      * destruct (decide (i / 8 = at_)) as [Ei|Ei].
        -- rewrite (proj2 (Z.leb_le _ _)) by zdm. cbn [andb]. unfold v. rewrite put_byte_bit by (done || zdm).
           unfold bit_at. rewrite Ei. replace (i mod 8) with (i - 8 * at_) by zdm. done.
        -- rewrite (proj2 (Z.leb_gt _ _)) by zdm. done.
Qed.

Lemma put_bits_emits pos n value : 0 <= pos <= 8 * cap -> 0 <= n <= 16 -> 0 <= value < 2 ^ 32 ->
  emits cap (lh_compress_deflate_try_put_bits cap pos n value) pos (nbits n value).
Proof using Hcap.
  intros Hp Hn Hv out Hb Hc. unfold lh_compress_deflate_try_put_bits. rewrite length_nbits by lia.
  rewrite adds_over_spec by zb. rewrite (proj2 (Z.ltb_ge _ _)) by zb. rewrite (u64_id (pos + n)) by zb.
  replace (negb (n =? 0) && (u64 (pos + n - 1) / 8 >=? cap)) with (negb (pos + n <=? 8 * cap)).
  2: { destruct (Z.eqb_spec n 0) as [->|]; cbn [negb andb]; [by rewrite (proj2 (Z.leb_le _ _)) by lia|].
       rewrite u64_id by zb. rewrite Z.geb_leb. destruct (Z.leb_spec (pos + n) (8 * cap)), (Z.leb_spec cap ((pos + n - 1) / 8)); cbn [negb]; (done || zdm). }
  destruct (Z.leb_spec (pos + n) (8 * cap)) as [Hf|Hf]; cbn [negb]; [|by exists out].
  set (sh := pos mod 8). assert (Hsh : 0 <= sh < 8) by (apply Z.mod_pos_bound; lia).
  assert (Hpw : 1 <= 2 ^ n <= 65536) by (split; [pose proof (Z.pow_pos_nonneg 2 n); lia|apply (Z.pow_le_mono_r 2 n 16); lia]).
  assert (Hps : 1 <= 2 ^ sh <= 128) by (split; [pose proof (Z.pow_pos_nonneg 2 sh); lia|apply (Z.pow_le_mono_r 2 sh 7); lia]).
  assert (Em : u32 (Z.shiftl (u32 (u32 (Z.shiftl 1 n) - 1)) sh) = (2 ^ n - 1) * 2 ^ sh).
  { rewrite !Z.shiftl_mul_pow2 by lia. rewrite Z.mul_1_l. rewrite (u32_id (2 ^ n)), (u32_id (2 ^ n - 1)) by zb. apply u32_id. unfold is_u32. nia. }
  rewrite Em. set (mask := (2 ^ n - 1) * 2 ^ sh).
  assert (Hmask : 0 <= mask < 2 ^ (n + sh)) by (unfold mask; rewrite Z.pow_add_r by lia; nia).
  assert (H32 : 2 ^ (n + sh) <= 2 ^ 32) by (apply Z.pow_le_mono_r; lia).
  assert (Hmt : forall j, 0 <= j -> Z.testbit mask j = (sh <=? j) && (j <? sh + n)).
  { intros j Hj. unfold mask. replace (2 ^ n - 1) with (Z.ones n) by (rewrite Z.ones_equiv; lia). rewrite <- Z.shiftl_mul_pow2 by lia.
    rewrite Z.shiftl_spec by lia. destruct (Z.leb_spec sh j) as [H1|H1]; [|by rewrite Z.testbit_neg_r by lia].
    rewrite Z.testbit_ones by lia. rewrite (proj2 (Z.leb_le _ _)) by lia. simpl.
    destruct (Z.ltb_spec (j - sh) n), (Z.ltb_spec j (sh + n)); (done || lia). }
  rewrite (u32_id value) by zb. set (bs := Z.land _ mask).
  assert (Hbs : forall j, 0 <= j -> Z.testbit bs j = Z.testbit mask j && Z.testbit value (j - sh)).
  { intros j Hj. unfold bs. rewrite Z.land_spec. destruct (Z.testbit mask j) eqn:E; rewrite ?andb_true_r, ?andb_false_r; [|done]. cbn [andb].
    rewrite Hmt in E by lia. apply andb_true_iff in E as [E1 E2]. unfold u32. change 4294967296 with (2 ^ 32).
    rewrite Z.mod_pow2_bits_low by lia. rewrite Z.shiftl_spec by lia. done. }
  destruct (put_loop_spec 5 mask bs (pos / 8) out (n + sh)) as (out' & E & L & B & Hbit); try done.
  - zdm.
  - lia.
  - lia.
  - lia.
  - unfold sh in *. zdm.
  - unfold bs. apply Z.land_nonneg. right. lia.
  - intros j Hj Ht. rewrite Hbs in Ht by done. by apply andb_true_iff in Ht as [? _].
  - exists out'. unfold mbind, writing_bind, store. rewrite E. split; [done|]. split_and!; [done|done|].
    intros i Hi. rewrite Hbit by done. rewrite length_nbits by lia.
    assert (Ep : 8 * (pos / 8) = pos - sh) by (unfold sh; zdm). rewrite Ep.
    destruct (Z.leb_spec (pos - sh) i) as [H1|H1]; cbn [andb].
    + rewrite Hbs, Hmt by lia.
      destruct (Z.leb_spec sh (i - (pos - sh))), (Z.ltb_spec (i - (pos - sh)) (sh + n)), (Z.leb_spec pos i), (Z.ltb_spec i (pos + n)); cbn [andb]; try lia; try done.
      rewrite nth_lookup, nbits_lookup by lia. simpl. f_equal. lia.
    + rewrite (proj2 (Z.leb_gt pos i)) by lia. done.
Qed.
End emits.

(** ** Codes *)

Lemma reverse_loop_spec n : forall x r, 0 <= x -> 0 <= r -> r < 2 ^ (32 - Z.of_nat n) -> (n <= 32)%nat ->
  reverse_loop n x r = 2 ^ Z.of_nat n * r + num (msb n x).
Proof.
  induction n as [|n IH]; intros x r Hx H0 Hr Hn; cbn [reverse_loop]; [change (msb 0 x) with (@nil bool); simpl num; change (2 ^ Z.of_nat 0) with 1; lia|].
  assert (E : 2 ^ (32 - Z.of_nat n) = 2 * 2 ^ (32 - Z.of_nat (S n))) by (rewrite <- Z.pow_succ_r by lia; f_equal; lia).
  assert (H32 : 2 ^ (32 - Z.of_nat n) <= 2 ^ 32) by (apply Z.pow_le_mono_r; lia).
  rewrite Z.shiftl_mul_pow2 by lia. change (2 ^ 1) with 2. rewrite u32_id by zb.
  assert (Eb : Z.land x 1 = Z.b2z (Z.testbit x 0)) by (rewrite <- (land_1 x 0) by lia; by rewrite Z.shiftr_0_r).
  rewrite Eb. replace (Z.lor (r * 2) (Z.b2z (Z.testbit x 0))) with (2 * r + Z.b2z (Z.testbit x 0)).
  2: { change 2 with (2 ^ 1). rewrite lor_disjoint by (destruct (Z.testbit _ _); simpl; lia). lia. }
  rewrite Z.shiftr_div_pow2 by lia. change (2 ^ 1) with 2.
  rewrite IH; [|apply Z.div_pos; lia|destruct (Z.testbit x 0); simpl Z.b2z; lia|destruct (Z.testbit x 0); simpl Z.b2z; lia|lia].
  replace (msb (S n) x) with (msb n (x / 2) ++ [Z.testbit x 0]).
  2: { rewrite msb_snoc. f_equal. rewrite (Z.bit0_mod x). pose proof (Z.div_mod x 2). lia. }
  rewrite num_app, length_msb. cbn [num]. rewrite Nat2Z.inj_succ, Z.pow_succ_r by lia. lia.
Qed.

Section codes.
Context (lengths : buffer) (size : Z) (Hl : lengths_ok lengths size).
Let L := take (Z.to_nat size) lengths.
Context (Hco : code_ok L).

Lemma first_le l : (l <= 15)%nat -> 0 <= first_code L l + cn L l <= 32768.
Proof using Hco.
  intros Hl'. destruct Hco as [_ Hk]. specialize (Hk l Hl'). pose proof (first_nonneg L l). pose proof (cn_nonneg L l).
  pose proof (Z.pow_le_mono_r 2 (Z.of_nat l) 15 ltac:(lia) ltac:(lia)). change (2 ^ 15) with 32768 in *. lia.
Qed.
Lemma first_codes_spec counts : counts_ok L counts -> exists next, first_codes counts = Done next /\ len next = 16 /\
  forall l, (0 < l <= 15)%nat -> byte_at next (Z.of_nat l) = first_code L l.
Proof using Hl Hco.
  intros [Hc Hk]. unfold first_codes. rewrite put_ok, bind_done by (simpl; lia).
  set (P := fun i '(next, code) => len next = 16 /\ code = first_code L (Z.to_nat (i - 1)) /\
    forall l, (0 < l)%nat -> Z.of_nat l < i -> byte_at next (Z.of_nat l) = first_code L l).
  match goal with |- context [for_up 1 16 ?body ?a] => destruct (for_up_rule P 1 16 body a) as ([next code] & E & Hn & _ & Hf) end.
  - lia.
  - split_and!; [done|done|lia].
  - intros i [next code] Hi (Hn & Hco' & Hf). cbv beta iota.
    set (sh := if i =? 1 then mret 0 else load counts (u32 (i - 1))).
    assert (Es : sh = Done (cn L (Z.to_nat (i - 1)))).
    { unfold sh. destruct (Z.eqb_spec i 1) as [->|]; [done|]. rewrite u32_id by zb. rewrite byte_at_load by lia. f_equal.
      rewrite <- Hk by lia. f_equal. lia. }
    rewrite Es, bind_done, Hco'. pose proof (first_le (Z.to_nat (i - 1)) ltac:(lia)) as Hle.
    rewrite (u32_id (_ + _)) by zb. rewrite Z.shiftl_mul_pow2 by lia. change (2 ^ 1) with 2. rewrite u32_id by zb.
    assert (Ec : (first_code L (Z.to_nat (i - 1)) + cn L (Z.to_nat (i - 1))) * 2 = first_code L (Z.to_nat i)).
    { replace (Z.to_nat i) with (S (Z.to_nat (i - 1))) by lia. cbn [first_code]. lia. }
    rewrite Ec. rewrite put_ok, bind_done by lia. eexists. split; [done|]. split_and!.
    + by rewrite length_insert.
    + f_equal. lia.
    + intros l H1 H2. rewrite byte_at_put by lia. destruct (decide (Z.of_nat l = i)) as [<-|]; [|apply Hf; lia].
      rewrite Nat2Z.id. apply u16_id. pose proof (first_le l ltac:(lia)). pose proof (cn_nonneg L l). pose proof (first_nonneg L l). zb.
  - exists next. rewrite E. split_and!; try done. intros l Hl'. apply Hf; lia.
Qed.
Lemma assign_codes_spec next codes : len next = 16 -> size <= len codes ->
  (forall l, (0 < l <= 15)%nat -> byte_at next (Z.of_nat l) = first_code L l) ->
  exists next' codes', assign_codes lengths size next codes = Done (next', codes') /\ length codes' = length codes /\
    forall i, 0 <= i < size -> 0 < length_of L i -> byte_at codes' i = num (codeword L i).
Proof using Hl Hco.
  intros Hn Hs Hf. pose proof (length_L _ _ Hl) as HL. fold L in HL. unfold assign_codes.
  set (P := fun i '(next, codes') => len next = 16 /\ length codes' = length codes /\
    (forall l, (0 < l <= 15)%nat -> byte_at next (Z.of_nat l) = first_code L l + cn (take (Z.to_nat i) L) l) /\
    forall j, 0 <= j < i -> 0 < length_of L j -> byte_at codes' j = num (codeword L j)).
  match goal with |- context [for_up 0 size ?body ?a] =>
    destruct (for_up_rule P 0 size body a) as ([next' codes'] & E & _ & Hcl & _ & Hrev) end.
  - destruct Hl; lia.
  - split_and!; try done; [|lia]. intros l Hl'. rewrite Hf by done. unfold cn. simpl. destruct (decide _); simpl; lia.
  - intros i [ne cs] Hi (Hne & Hcs & Hcn & Hrev). cbv beta iota. destruct (length_at _ _ Hl i) as [-> Hu]; [lia|]. rewrite bind_done.
    fold L. pose proof (length_of_range L i Hco ltac:(lia)) as Hli. destruct (Z.eqb_spec (length_of L i) 0) as [H0|H0].
    + rewrite (put_ok cs), bind_done by lia. eexists. split; [done|]. split_and!; [done|by rewrite length_insert| |].
      * intros l Hl'. rewrite (cn_next _ _ Hl) by lia. fold L. rewrite decide_False by (intros [? ?]; lia). rewrite Hcn by done. lia.
      * intros j Hj Hlj. rewrite byte_at_put by lia. destruct (decide (j = i)) as [->|]; [lia|]. apply Hrev; lia.
    + assert (Ec : byte_at ne (length_of L i) = code L i).
      { pose proof (Hcn (Z.to_nat (length_of L i)) ltac:(lia)) as H. rewrite Z2Nat.id in H by lia. exact H. }
      rewrite (byte_at_load ne), bind_done, Ec by lia. rewrite (put_ok cs), bind_done, (put_ok ne), bind_done by lia.
      pose proof (code_range L i Hco ltac:(lia) ltac:(lia)) as Hcr.
      assert (2 ^ length_of L i <= 32768) by (apply (Z.pow_le_mono_r 2 _ 15); lia).
      eexists. split; [done|]. split_and!; [by rewrite length_insert|by rewrite length_insert| |].
      * intros l Hl'. rewrite byte_at_put by lia. rewrite (cn_next _ _ Hl) by lia. fold L.
        destruct (decide (Z.of_nat l = length_of L i)) as [El|Hne'].
        -- rewrite decide_True by (split; [lia|done]).
           assert (code L i = first_code L l + cn (take (Z.to_nat i) L) l) by (rewrite <- Ec, <- El, Hcn; done).
           rewrite u16_id by zb. lia.
        -- rewrite decide_False by naive_solver. rewrite Hcn by done. lia.
      * intros j Hj Hlj. rewrite byte_at_put by lia. destruct (decide (j = i)) as [->|]; [|apply Hrev; lia].
        unfold lh_bit_reverse_u32. rewrite reverse_loop_spec by lia. rewrite Z.mul_0_r, Z.add_0_l, codeword_msb by (done || lia).
        pose proof (num_range (msb (Z.to_nat (length_of L i)) (code L i))) as Hnr. rewrite length_msb, Z2Nat.id in Hnr by lia.
        apply u16_id. zb.
  - exists next', codes'. rewrite E. split_and!; try done.
Qed.
Lemma try_codes_spec codes : size <= 288 -> size <= len codes ->
  exists codes', lh_compress_deflate_try_codes lengths size codes = Done (true, codes') /\ length codes' = length codes /\
    forall i, 0 <= i < size -> 0 < length_of L i -> byte_at codes' i = num (codeword L i).
Proof using Hl Hco.
  intros Hs Hc. unfold lh_compress_deflate_try_codes. rewrite Z.gtb_ltb, (proj2 (Z.ltb_ge _ _)) by done.
  destruct (try_build_spec _ _ Hl (local 16) (local LH_COMPRESS_DEFLATE_FIXED_LITERAL_CODES)) as (ok & counts & syms & E & _ & _ & Hok & Ht);
    [simpl; lia|simpl; lia|]. rewrite E, bind_done. destruct ok; [|by assert (false = true) by by apply Hok].
  cbn [negb]. destruct (Ht eq_refl) as (_ & _ & Hcn & _). destruct (first_codes_spec counts Hcn) as (next & En & Hn & Hf). rewrite En, bind_done.
  destruct (assign_codes_spec next codes Hn Hc Hf) as (next' & codes' & Ea & Hla & Hcode). rewrite Ea, bind_done. by exists codes'.
Qed.
End codes.

(** Codes to write with: of [L], in arrays. *)
Definition codes_for (L : list Z) (codes lengths : list Z) : Prop :=
  code_ok L /\ len L <= len lengths /\ len L <= len codes /\
  forall i, 0 <= i < len L -> byte_at lengths i = length_of L i /\ (0 < length_of L i -> byte_at codes i = num (codeword L i)).

Lemma put_symbol_emits cap L codes lengths pos s :
  0 <= cap /\ 8 * cap < 2 ^ 63 -> codes_for L codes lengths -> 0 <= s < len L -> 0 < length_of L s -> 0 <= pos <= 8 * cap ->
  emits cap (lh_compress_deflate_try_put_symbol cap pos codes lengths s) pos (codeword L s).
Proof.
  intros Hcap (Hco & Hll & Hlc & Hat) Hs Hl Hp. destruct (Hat s Hs) as [El Ec]. specialize (Ec Hl). unfold lh_compress_deflate_try_put_symbol.
  rewrite (byte_at_load lengths), El by lia. apply emits_only. rewrite (proj2 (Z.eqb_neq _ _)) by lia.
  rewrite (byte_at_load codes), Ec by lia. apply emits_only.
  pose proof (length_of_range L s Hco Hs). pose proof (length_codeword L s Hco Hs) as Hlw.
  pose proof (num_range (codeword L s)) as Hr. rewrite Hlw in Hr.
  assert (2 ^ length_of L s <= 2 ^ 32) by (apply Z.pow_le_mono_r; lia).
  pose proof (put_bits_emits cap Hcap pos (length_of L s) (num (codeword L s)) Hp ltac:(lia) ltac:(lia)) as Hw.
  replace (nbits (length_of L s) (num (codeword L s))) with (codeword L s) in Hw by (by rewrite <- Hlw, nbits_num). done.
Qed.
