(* ===== verification/InflateProofs.v ===== *)
(** * DEFLATE: the decoder decides the format

    On any input and any output array the decoder returns, stays inside its arrays, and
    accepts exactly the streams of [DeflateSpec] whose data fits ([inflate_is_standard]). *)
From S2P Require Import Prelude Buffer Bytes Swar Memory MemoryProofs Block BlockProofs Deflate HuffmanProofs DeflateSpec.

(** ** Attempts that decide *)

(** The attempt returns, and gives [a] exactly when [P a]. *)
Definition decides {A} (m : attempt A) (P : A -> Prop) : Prop := exists r, m = Done r /\ forall a, r = Some a <-> P a.
Lemma decides_ext {A} (m : attempt A) (P Q : A -> Prop) : (forall a, P a <-> Q a) -> decides m P -> decides m Q.
Proof. intros H (r & E & Hr). exists r. split; [done|]. intros a. by rewrite Hr. Qed.
Lemma decides_ret {A} (a : A) : decides (mret a) (fun b => b = a).
Proof. exists (Some a). split; [done|]. intros b. split; [by intros [= ->]|by intros ->]. Qed.
Lemma decides_done {A} (a : A) : decides (surely (Done a)) (fun b => b = a).
Proof. apply decides_ret. Qed.
Lemma decides_refuse {A} (P : A -> Prop) : (forall a, ~ P a) -> decides refuse P.
Proof. intros H. exists None. split; [done|]. intros a. split; [done|]. intros Ha. by destruct (H a). Qed.
Lemma decides_bind {A B} (m : attempt A) (f : A -> attempt B) P Q :
  decides m P -> (forall a, P a -> decides (f a) (Q a)) -> decides (m ≫= f) (fun b => exists a, P a /\ Q a b).
Proof.
  intros (r & E & Hr) Hf. unfold mbind, attempt_bind. rewrite E. destruct r as [a|].
  - destruct (Hf a) as (r' & E' & Hr'); [by apply Hr|]. exists r'. split; [done|]. intros b. rewrite Hr'. split.
    + intros HQ. exists a. split; [by apply Hr|done].
    + intros (a' & Ha' & HQ). apply Hr in Ha'. by injection Ha' as ->.
  - exists None. split; [done|]. intros b. split; [done|]. intros (a & Ha & _). by apply Hr in Ha.
Qed.

(** Writers: what they accept and the data that is in the output then. *)
Definition verdict {A} (cap : Z) (m : writing A) (out : buffer) (P : A -> list Z -> Prop) : Prop :=
  exists out' r, m out = Done (out', r) /\ length out' = length out /\ is_bytes out' /\
    drop (Z.to_nat cap) out' = drop (Z.to_nat cap) out /\
    (forall a, r = Some a -> exists h, P a h) /\
    (forall a h, P a h -> r = Some a /\ take (length h) out' = h).
Lemma verdict_ext {A} cap (m : writing A) out (P Q : A -> list Z -> Prop) :
  (forall a h, P a h <-> Q a h) -> verdict cap m out P -> verdict cap m out Q.
Proof.
  intros H (out' & r & E & El & Eb & Ed & Hs & Hc). exists out', r. split_and!; try done.
  - intros a Ha. destruct (Hs a Ha) as [h Hh]. exists h. by apply H.
  - intros a h Hh. apply Hc. by apply H.
Qed.
Lemma verdict_only {A} cap (m : attempt A) out h P :
  is_bytes out -> take (length h) out = h -> decides m P -> verdict cap (only m) out (fun a h' => P a /\ h' = h).
Proof.
  intros Hb Hh (r & -> & Hr). exists out, r. split_and!; try done.
  - intros a Ha. exists h. split; [by apply Hr|done].
  - intros a h' [Ha ->]. split; [by apply Hr|done].
Qed.
Lemma verdict_ret {A} cap out h (a : A) : is_bytes out -> take (length h) out = h -> verdict cap (mret a) out (fun b h' => b = a /\ h' = h).
Proof.
  intros Hb Hh. exists out, (Some a). split_and!; try done.
  - intros b [= ->]. by exists h.
  - by intros b h' [-> ->].
Qed.
Lemma verdict_refuse {A} cap out (P : A -> list Z -> Prop) : is_bytes out -> (forall a h, ~ P a h) -> verdict cap (only refuse) out P.
Proof.
  intros Hb Hn. exists out, None. split_and!; try done. intros a h Hh. by destruct (Hn a h).
Qed.
Lemma verdict_bind {A B} cap (m : writing A) (f : A -> writing B) out P Q :
  verdict cap m out P -> (forall a h h', P a h -> P a h' -> length h = length h') ->
  (forall a h out1, P a h -> take (length h) out1 = h -> length out1 = length out -> is_bytes out1 -> verdict cap (f a) out1 (Q a h)) ->
  verdict cap (m ≫= f) out (fun b h' => exists a h, P a h /\ Q a h b h').
Proof.
  intros (out1 & r & E & El & Eb & Ed & Hs & Hc) Hlen Hf. unfold mbind, writing_bind, verdict. rewrite E. destruct r as [a|].
  - destruct (Hs a eq_refl) as [h Hh]. destruct (Hc a h Hh) as [_ Ht].
    destruct (Hf a h out1 Hh Ht El Eb) as (out2 & r2 & E2 & El2 & Eb2 & Ed2 & Hs2 & Hc2). exists out2, r2. split_and!; try congruence.
    + intros b Hb. destruct (Hs2 b Hb) as [h' Hh']. eauto.
    + intros b h' (a' & h1 & Ha' & HQ). destruct (Hc a' h1 Ha') as [[= <-] Ht'].
      assert (h1 = h) as -> by (rewrite <- Ht, <- Ht'; f_equal; by apply (Hlen a)). by apply Hc2.
  - exists out1, None. split_and!; try done. intros b h' (a & h & Ha & _). by destruct (Hc a h Ha).
Qed.
(** A literal or a copy put after the data. *)
Lemma verdict_store cap (g : buffer -> outcome buffer) out h bs :
  is_bytes out -> is_bytes bs -> take (length h) out = h -> len h + len bs <= cap -> cap <= len out ->
  g out = Done (take (length h) out ++ bs ++ drop (length h + length bs) out) ->
  verdict cap (store g) out (fun _ h' => h' = h ++ bs).
Proof.
  intros Hb Hbs Hh Hl Hc Hg. unfold verdict, store. rewrite Hg. eexists _, _. split; [done|]. split_and!.
  - rewrite !length_app, length_take, length_drop. lia.
  - apply Forall_app. split; [by apply Forall_take|]. apply Forall_app. split; [done|by apply Forall_drop].
  - rewrite Hh, app_assoc, drop_app_ge by (rewrite length_app; lia). rewrite drop_drop. f_equal. rewrite length_app. lia.
  - intros [] _. by eexists.
  - intros [] h' ->. split; [done|]. rewrite Hh, app_assoc. by rewrite take_app_length.
Qed.

(** ** Bits and symbols *)

Section reader.
Context (input : buffer) (size : Z) (I : input_ok input size).
Notation next := (next_bits input size).

Lemma next_end pos w : next pos w -> 0 <= pos + len w <= 8 * size.
Proof using. intros (? & ? & _). lia. Qed.
(** Two words of one length that come next are the same. *)
Lemma next_unique pos v w : next pos v -> next pos w -> len v = len w -> v = w.
Proof using. intros (_ & _ & Hv) (_ & _ & Hw) E. by rewrite <- Hv, <- Hw, E. Qed.
Lemma next_nil pos : next pos [] <-> 0 <= pos <= 8 * size.
Proof using. unfold next_bits. rewrite bits_nil. simpl. split; [lia|]. intros. split_and!; (done || lia). Qed.

Lemma try_bits_decides pos n : 0 <= pos <= 8 * size -> 0 <= n <= 32 ->
  decides (lh_compress_deflate_try_bits input size pos n)
    (fun '(pos', v) => exists e, len e = n /\ next pos e /\ pos' = pos + len e /\ v = num e).
Proof using I.
  intros Hp Hn. rewrite (try_bits_spec _ _ I) by lia. eexists. split; [done|]. intros [pos' v].
  destruct (Z.leb_spec (pos + n) (8 * size)) as [Hl|Hl].
  - split.
    + intros [= <- <-]. exists (bits input pos n). pose proof (length_bits input pos n ltac:(lia)) as El. rewrite El.
      split_and!; try done. unfold next_bits. rewrite El. split_and!; (done || lia).
    + intros (e & El & (_ & _ & Hb) & -> & ->). by rewrite <- El, Hb.
  - split; [done|]. intros (e & El & (_ & He & _) & _). lia.
Qed.
Lemma try_nbits_decides pos n : 0 <= pos <= 8 * size -> 0 <= n <= 32 ->
  decides (lh_compress_deflate_try_bits input size pos n)
    (fun '(pos', v) => 0 <= v < 2 ^ n /\ next pos (nbits n v) /\ pos' = pos + n).
Proof using I.
  intros Hp Hn. apply (decides_ext _ (fun '(pos', v) => exists e, len e = n /\ next pos e /\ pos' = pos + len e /\ v = num e)).
  2: by apply try_bits_decides.
  intros [pos' v]. split.
  - intros (e & <- & He & -> & ->). rewrite nbits_num. split_and!; [apply num_range..|done|done].
  - intros (Hv & Hb & ->). exists (nbits n v). rewrite length_nbits, nbits_small by lia. done.
Qed.
Lemma try_symbol_decides L counts syms pos : tables_ok L counts syms -> 0 <= pos <= 8 * size ->
  decides (lh_compress_deflate_try_symbol input size pos counts syms)
    (fun '(pos', s) => exists w, is_word L s w /\ next pos w /\ pos' = pos + len w).
Proof using I.
  intros T Hp. destruct (try_symbol_spec input size I L counts syms T pos Hp) as (r & E & Hr). exists r. split; [done|].
  intros [pos' s]. rewrite Hr. pose proof T as (Hco & _). split.
  - intros (Hs & Hl & Hb & ->). exists (codeword L s). rewrite length_codeword by done. done.
  - intros (w & (Hs & Hl & ->) & Hb & ->). rewrite length_codeword by done. done.
Qed.
Lemma word_length L s w : code_ok L -> is_word L s w -> 0 < len w <= 15.
Proof using. intros Hc (Hs & Hl & ->). rewrite length_codeword by done. pose proof (length_of_range L s Hc Hs). lia. Qed.
End reader.

(** ** Lengths and distances *)

Lemma tables_are_formulas :
  Forall (fun i => load lh_compress_deflate_length_base i = Done (length_base i) /\
    load lh_compress_deflate_length_extra i = Done (length_extra i)) (seqZ 0 29) /\
  Forall (fun j => load lh_compress_deflate_distance_base j = Done (distance_base j) /\
    load lh_compress_deflate_distance_extra j = Done (distance_extra j)) (seqZ 0 30).
Proof. split; repeat (constructor; [by vm_compute|]); constructor. Qed.
Lemma length_table i : 0 <= i < 29 ->
  lh_compress_deflate_get_length_base i = Done (length_base i) /\ lh_compress_deflate_get_length_extra i = Done (length_extra i).
Proof. intros Hi. apply (proj1 (Forall_forall _ _) (proj1 tables_are_formulas)), elem_of_seqZ. lia. Qed.
Lemma distance_table j : 0 <= j < 30 ->
  lh_compress_deflate_get_distance_base j = Done (distance_base j) /\ lh_compress_deflate_get_distance_extra j = Done (distance_extra j).
Proof. intros Hi. apply (proj1 (Forall_forall _ _) (proj2 tables_are_formulas)), elem_of_seqZ. lia. Qed.
Lemma formula_ranges :
  Forall (fun i => (0 <=? length_extra i) && (length_extra i <=? 5) && (3 <=? length_base i) && (length_base i + 2 ^ length_extra i <=? 290) = true) (seqZ 0 29) /\
  Forall (fun j => (0 <=? distance_extra j) && (distance_extra j <=? 13) && (1 <=? distance_base j) && (distance_base j + 2 ^ distance_extra j <=? 32769) = true) (seqZ 0 30).
Proof. split; repeat (constructor; [by vm_compute|]); constructor. Qed.
Lemma length_ranges i : 0 <= i < 29 -> 0 <= length_extra i <= 5 /\ 3 <= length_base i /\ length_base i + 2 ^ length_extra i <= 290.
Proof. intros Hi. pose proof (proj1 (Forall_forall _ _) (proj1 formula_ranges) i ltac:(apply elem_of_seqZ; lia)) as H. cbv beta in H. lia. Qed.
Lemma distance_ranges j : 0 <= j < 30 -> 0 <= distance_extra j <= 13 /\ 1 <= distance_base j /\ distance_base j + 2 ^ distance_extra j <= 32769.
Proof. intros Hi. pose proof (proj1 (Forall_forall _ _) (proj2 formula_ranges) j ltac:(apply elem_of_seqZ; lia)) as H. cbv beta in H. lia. Qed.

(** ** Matches *)

(** The bits of a match after its first word. *)
Definition match_rest (LD : list Z) (i : Z) (n d : Z) (w : list bool) : Prop :=
  exists e1 j w2 e2, len e1 = length_extra i /\ 0 <= j < 30 /\ is_word LD j w2 /\ len e2 = distance_extra j /\
    n = length_base i + num e1 /\ d = distance_base j + num e2 /\ w = e1 ++ w2 ++ e2.

Section matches.
Context (input : buffer) (size : Z) (I : input_ok input size).
Notation next := (next_bits input size).
Context (LD counts syms : list Z) (T : tables_ok LD counts syms).

(** The rest of it: the word of the distance and its extra bits. *)
Lemma try_match_decides pos s : 0 <= pos <= 8 * size -> 0 <= s < 65536 ->
  decides (lh_compress_deflate_try_match input size pos s counts syms)
    (fun '(pos', n, d) => exists i w, s = 257 + i /\ 0 <= i < 29 /\ match_rest LD i n d w /\ next pos w /\ pos' = pos + len w).
Proof using I T.
  intros Hp Hs. unfold lh_compress_deflate_try_match.
  destruct ((s <? LH_COMPRESS_DEFLATE_FIRST_LENGTH_SYMBOL) || (s >=? LH_COMPRESS_DEFLATE_LITERAL_SYMBOLS)) eqn:Es.
  - apply decides_refuse. intros [[pos' n] d] (i & w & -> & Hi & _). rewrite Z.geb_leb in Es.
    unfold LH_COMPRESS_DEFLATE_FIRST_LENGTH_SYMBOL, LH_COMPRESS_DEFLATE_LITERAL_SYMBOLS in Es. lia.
  - apply orb_false_iff in Es as [E1 E2]. rewrite Z.geb_leb in E2.
    unfold LH_COMPRESS_DEFLATE_FIRST_LENGTH_SYMBOL, LH_COMPRESS_DEFLATE_LITERAL_SYMBOLS, LH_COMPRESS_DEFLATE_DISTANCE_SYMBOLS in *.
    apply Z.ltb_ge in E1. apply Z.leb_gt in E2. set (i := s - 257). assert (Hi : 0 <= i < 29) by (unfold i; lia).
    rewrite (u32_id i) by zb. destruct (length_table i Hi) as [-> ->]. rewrite !surely_done, bind_some.
    pose proof (length_ranges i Hi) as (Hx & Hb & Hr).
    set (R := fun (p : Z * Z) (q : Z * Z) '(pos', n, d) => 0 <= q.2 < 30 /\ exists e2, len e2 = distance_extra q.2 /\
      next q.1 e2 /\ pos' = q.1 + len e2 /\ n = length_base i + p.2 /\ d = distance_base q.2 + num e2).
    set (S := fun (p q : Z * Z) => exists w2, is_word LD q.2 w2 /\ next p.1 w2 /\ q.1 = p.1 + len w2).
    eapply (decides_ext _ (fun a => exists p, (exists e1, len e1 = length_extra i /\ next pos e1 /\ p.1 = pos + len e1 /\ p.2 = num e1) /\
      exists q, S p q /\ R p q a)).
    2: { apply (decides_bind _ _ _ (fun p a => exists q, S p q /\ R p q a)).
         { eapply decides_ext; [|apply (try_bits_decides input size I pos (length_extra i)); lia]. by intros [? ?]. }
         intros [pos1 extra] (e1 & Ee1 & He1 & E3 & E4). cbn [fst snd] in E3, E4. subst pos1 extra. rewrite ?surely_done, ?bind_some.
         pose proof (next_end _ _ _ _ He1). apply (decides_bind _ _ (S _) (R _)).
         { eapply decides_ext; [|by apply (try_symbol_decides input size I LD counts syms (pos + len e1) T)]. by intros [? ?]. }
         intros [pos2 j] (w2 & Hw2 & He2 & Ep). cbn [fst snd] in *. subst pos2. pose proof (next_end _ _ _ _ He2).
         destruct (j >=? 30) eqn:Ej; rewrite Z.geb_leb in Ej.
         { apply decides_refuse. intros [[? ?] ?] [? _]. cbn [snd] in *. lia. }
         apply Z.leb_gt in Ej. assert (Hj : 0 <= j < 30) by (destruct Hw2; lia). destruct (distance_table j Hj) as [-> ->].
         rewrite !surely_done, bind_some. pose proof (distance_ranges j Hj) as (Hx2 & Hb2 & Hr2).
         eapply decides_ext; [|apply decides_bind; [by apply (try_bits_decides input size I (pos + len e1 + len w2) (distance_extra j)); lia|]].
         2: { intros [pos3 x2] H'. cbv beta iota. rewrite bind_some.
              apply (decides_ext _ (fun b => b = (pos3, u32 (length_base i + num e1), u32 (distance_base j + x2)))); [|apply decides_ret].
              intros b. instantiate (1 := fun p b => b = (p.1, u32 (length_base i + num e1), u32 (distance_base j + p.2))). done. }
         intros [[pos' n] d]. pose proof (num_range e1) as Hn1. rewrite Ee1 in Hn1.
         assert (2 ^ length_extra i <= 32) by (apply (Z.pow_le_mono_r 2 _ 5); lia).
         assert (2 ^ distance_extra j <= 32768) by (apply (Z.pow_le_mono_r 2 _ 15); lia).
         unfold R. cbn [fst snd]. split.
         - intros ([pos3 x2] & (e2 & Ee2 & He3 & -> & ->) & [= -> -> ->]). pose proof (num_range e2) as Hn2. rewrite Ee2 in Hn2.
           split; [done|]. exists e2. rewrite !u32_id by zb. done.
         - intros (_ & e2 & Ee2 & He3 & -> & -> & ->). pose proof (num_range e2) as Hn2. rewrite Ee2 in Hn2.
           exists (pos + len e1 + len w2 + len e2, num e2). split; [by exists e2|]. cbn [fst snd]. by rewrite !u32_id by zb. }
    intros [[pos' n] d]. unfold R, S. cbn [fst snd]. split.
    + intros ([pos1 extra] & (e1 & Ee1 & He1 & E3 & E4) & [pos2 j] & (w2 & Hw2 & He2 & E5) & Hj & e2 & Ee2 & He3 & -> & -> & ->). cbn [fst snd] in *. subst.
      exists i, (e1 ++ w2 ++ e2). split_and!; [unfold i; lia|lia|lia|by exists e1, j, w2, e2| |rewrite !length_app; lia].
      rewrite !next_bits_app. done.
    + intros (i' & w & Hsi & _ & (e1 & j & w2 & e2 & Ee1 & Hj & Hw2 & Ee2 & -> & -> & ->) & Hn & ->).
      replace i' with i in * by (unfold i; lia). rewrite !next_bits_app in Hn. destruct Hn as (N1 & N2 & N3).
      exists (pos + len e1, num e1). split; [by exists e1|]. exists (pos + len e1 + len w2, j). split; [by exists w2|].
      split; [done|]. exists e2. rewrite !length_app. cbn [fst snd]. split_and!; try done. lia.
Qed.
End matches.

(** ** Writing what a token gives *)

(** The data [h] so far is at the start of the output. *)
Definition holds (cap : Z) (out h : list Z) : Prop :=
  is_bytes out /\ take (length h) out = h /\ len h <= cap /\ cap <= len out /\ cap < 2 ^ 63.

Lemma length_copied h n d : 0 <= n -> len (copied h n d) = n.
Proof. intros. unfold copied. rewrite length_map, length_seqZ. lia. Qed.
Lemma copied_bytes h n d : is_bytes h -> is_bytes (copied h n d).
Proof. intros H. unfold copied. apply Forall_map, Forall_true. intros. by apply byte_at_u8. Qed.
Lemma holds_bytes cap out h : holds cap out h -> is_bytes h.
Proof. intros (Hb & <- & _). by apply Forall_take. Qed.
Lemma holds_byte cap out h i : holds cap out h -> 0 <= i < len h -> byte_at out i = byte_at h i.
Proof. intros (_ & Ht & _) Hi. rewrite <- Ht, byte_at_take by lia. done. Qed.
Lemma holds_length cap out h : holds cap out h -> 0 <= len h <= cap.
Proof. intros (_ & _ & ? & _). lia. Qed.

Lemma set_pattern_in_spec cap out h n d : holds cap out h -> 0 < n -> len h + n <= cap -> 1 <= d <= len h ->
  set_pattern_in out (len h) n (len h - d) d = Done (take (length h) out ++ copied h n d ++ drop (length h + length (copied h n d)) out).
Proof.
  intros H Hn Hc Hd. pose proof H as (Hb & Ht & Hl & Hlen & H63). unfold set_pattern_in.
  rewrite set_pattern_repeats; cbn [length]; [|constructor; [zb|done]|lia|lia|lia|lia|lia|lia|lia].
  rewrite (proj2 (Z.eqb_neq n 0)), (proj2 (Z.eqb_neq d 0)) by lia. cbn [orb]. rewrite bind_done. f_equal.
  unfold with_bytes. replace (Z.to_nat (1 + len h)) with (S (length h)) by lia. cbn [firstn app tail].
  assert (E : map (fun i => byte_at (0 :: out) (1 + (len h - d) + i mod d)) (seqZ 0 n) = copied h n d).
  { unfold copied. apply map_ext. intros i. pose proof (Z.mod_pos_bound i d ltac:(lia)).
    change (0 :: out) with ([0] ++ out). rewrite byte_at_app_r by (cbn [length]; lia). cbn [length].
    replace (1 + (len h - d) + i mod d - Z.of_nat 1) with (len h - d + i mod d) by lia. apply (holds_byte cap); [done|lia]. }
  rewrite E. do 2 f_equal. pose proof (length_copied h n d ltac:(lia)).
  replace (Z.to_nat (1 + len h + len (copied h n d))) with (S (length h + length (copied h n d))) by lia. done.
Qed.
Lemma store_verdict cap g out h bs : holds cap out h -> is_bytes bs -> len h + len bs <= cap ->
  g out = Done (take (length h) out ++ bs ++ drop (length h + length bs) out) -> verdict cap (store g) out (fun _ h' => h' = h ++ bs).
Proof. intros (Hb & Ht & Hl & Hlen & _) Hbs Hc Hg. by apply verdict_store. Qed.
Lemma holds_ret {A} cap out h (a : A) : holds cap out h -> verdict cap (mret a) out (fun b h' => b = a /\ h' = h).
Proof. intros (Hb & Ht & _). by apply verdict_ret. Qed.
Lemma holds_only {A} cap (m : attempt A) out h P : holds cap out h -> decides m P -> verdict cap (only m) out (fun a h' => P a /\ h' = h).
Proof. intros (Hb & Ht & _). by apply verdict_only. Qed.
(** A step that leaves [h'], and what follows it. *)
Lemma holds_bind {A B} cap (m : writing A) (f : A -> writing B) out h P Q : holds cap out h ->
  verdict cap m out P -> (forall a h', P a h' -> len h' <= cap) -> (forall a h1 h2, P a h1 -> P a h2 -> length h1 = length h2) ->
  (forall a h' out1, P a h' -> holds cap out1 h' -> length out1 = length out -> verdict cap (f a) out1 (Q a h')) ->
  verdict cap (m ≫= f) out (fun b h2 => exists a h', P a h' /\ Q a h' b h2).
Proof.
  intros (Hb & Ht & Hl & Hlen & H63) Hm Hc Hd Hf. apply verdict_bind; [done|done|].
  intros a h' out1 Ha Ht1 Hl1 Hb1. apply Hf; [done| |done]. split_and!; try done; [by apply (Hc a)|lia].
Qed.
(** A step that only reads. *)
Lemma holds_read {A B} cap (m : attempt A) (f : A -> writing B) out h P Q : holds cap out h ->
  decides m P -> (forall a, P a -> verdict cap (f a) out (Q a)) ->
  verdict cap (a ← only m; f a) out (fun b h2 => exists a, P a /\ Q a b h2).
Proof.
  intros H (r & E & Hr) Hf. unfold mbind, writing_bind, only, verdict. rewrite E. destruct r as [a|].
  - destruct (Hf a) as (out2 & r2 & E2 & El2 & Eb2 & Ed2 & Hs2 & Hc2); [by apply Hr|]. exists out2, r2. split_and!; try done.
    + intros b Hb. destruct (Hs2 b Hb) as [h' Hh']. exists h', a. split; [by apply Hr|done].
    + intros b h' (a' & Ha' & HQ). apply Hr in Ha' as [= <-]. by apply Hc2.
  - destruct H as (Hb & _). exists out, None. split_and!; try done. intros b h' (a & Ha & _). by apply Hr in Ha.
Qed.

Lemma copy_match_verdict cap out h n d : holds cap out h -> is_u32 n -> is_u32 d ->
  verdict cap (lh_compress_deflate_try_copy_match cap (len h) d n) out
    (fun used h' => 1 <= d <= 32768 /\ d <= len h /\ h' = h ++ copied h n d /\ used = len h' /\ len h' <= cap).
Proof.
  intros H Hn Hd. pose proof H as (Hb & Ht & Hl & Hlen & H63). unfold lh_compress_deflate_try_copy_match, LH_COMPRESS_DEFLATE_WINDOW_SIZE.
  rewrite (u64_id (cap - len h)) by zb. rewrite !Z.gtb_ltb. rewrite (proj2 (Z.ltb_ge _ _)) by lia. cbn [orb].
  pose proof (length_copied h n d ltac:(zb)) as Hlc.
  destruct (Z.eqb_spec d 0) as [|H0]; cbn [orb]; [apply (verdict_refuse _ _ _ Hb); intros; lia|].
  destruct (Z.ltb_spec 32768 d) as [|H1]; cbn [orb]; [apply (verdict_refuse _ _ _ Hb); intros; lia|].
  destruct (Z.ltb_spec (len h) d) as [|H2]; cbn [orb]; [apply (verdict_refuse _ _ _ Hb); intros; lia|].
  destruct (Z.ltb_spec (cap - len h) n) as [H3|H3].
  { apply (verdict_refuse _ _ _ Hb). intros used h' (_ & _ & -> & _ & Hf). rewrite length_app in Hf. lia. }
  rewrite (u64_id (len h + n)), (u64_id (len h - d)) by zb.
  assert (Hres : len (h ++ copied h n d) = len h + n) by (rewrite length_app; lia).
  destruct (Z.eqb_spec n 0) as [->|Hn0]; cbn [negb].
  - change (mbind (M := writing) ?f (mret tt)) with (f tt). eapply verdict_ext; [|by apply (holds_ret cap out h)].
    intros used h'. cbv beta. change (copied h 0 d) with (@nil Z). rewrite app_nil_r. split.
    + intros [-> ->]. split_and!; (done || zb).
    + intros (_ & _ & -> & -> & _). split; [lia|done].
  - eapply verdict_ext; [|apply (holds_bind cap _ _ out h (fun _ h' => h' = h ++ copied h n d) (fun _ h' b h2 => b = len h + n /\ h2 = h') H)].
    + intros used h'. cbv beta. split.
      * intros ([] & h1 & -> & -> & ->). split_and!; (done || zb).
      * intros (_ & _ & -> & -> & _). exists tt, (h ++ copied h n d). done.
    + apply store_verdict; [done|by apply copied_bytes, (holds_bytes cap out)|lia|]. apply (set_pattern_in_spec cap); (done || zb).
    + intros _ h' ->. lia.
    + by intros _ ? ? -> ->.
    + intros _ h' out1 -> H' _. by apply holds_ret.
Qed.

(** ** The symbols of a block *)

(** What follows the word of a symbol [s]: nothing, tokens, or the rest of a match and tokens. *)
Definition follows (LL LD : list Z) (s : Z) (ts : list token) (w : list bool) : Prop :=
  (s = 256 /\ ts = [] /\ w = []) \/
  (s < 256 /\ exists ts', ts = Literal s :: ts' /\ tokens_bits LL LD ts' w) \/
  (exists i n d w1 ts' w2, s = 257 + i /\ 0 <= i < 29 /\ match_rest LD i n d w1 /\ ts = Match n d :: ts' /\
    tokens_bits LL LD ts' w2 /\ w = w1 ++ w2).
Lemma tokens_follow LL LD ts w : tokens_bits LL LD ts w <->
  exists s w1 w2, is_word LL s w1 /\ follows LL LD s ts w2 /\ w = w1 ++ w2.
Proof.
  split.
  - intros [w1 Hw|t ts' w1 w2 Ht Hts].
    + exists 256, w1, []. rewrite app_nil_r. split_and!; try done. by left.
    + destruct Ht as [b w1 Hb Hw|i w1 e1 j w2' e2 Hi Hw1 He1 Hj Hw2 He2].
      * exists b, w1, w2. split_and!; try done. right. left. split; [done|]. by exists ts'.
      * exists (257 + i), w1, (e1 ++ w2' ++ e2 ++ w2). split_and!; [done| |by rewrite <- !app_assoc].
        right. right. exists i, (length_base i + num e1), (distance_base j + num e2), (e1 ++ w2' ++ e2), ts', w2.
        split_and!; try done; try lia; [by exists e1, j, w2', e2|by rewrite <- !app_assoc].
  - intros (s & w1 & w2 & Hw & [(-> & -> & ->)|[(Hs & ts' & -> & Hts)|(i & n & d & w3 & ts' & w4 & -> & Hi & (e1 & j & w5 & e2 & H1 & H2 & H3 & H4 & -> & -> & ->) & -> & Hts & ->)]] & ->).
    + rewrite app_nil_r. by constructor.
    + constructor; [by constructor|done].
    + replace (w1 ++ (e1 ++ w5 ++ e2) ++ w4) with ((w1 ++ e1 ++ w5 ++ e2) ++ w4) by (by rewrite <- !app_assoc).
      constructor; [by constructor|done].
Qed.
Lemma gives_length h ts h' : Forall (fun t => match t with Literal _ => True | Match n _ => 0 <= n end) ts -> gives h ts h' -> len h <= len h'.
Proof.
  intros HF H. induction H as [h|h b ts h' _ IH|h n d ts h' _ _ _ IH]; [lia|apply Forall_cons in HF as [_ HF]..].
  - specialize (IH HF). rewrite length_app in IH. lia.
  - specialize (IH HF). rewrite length_app in IH. lia.
Qed.
Lemma match_rest_range LD i n d w : 0 <= i < 29 -> match_rest LD i n d w -> 3 <= n < 290 /\ 1 <= d <= 32768.
Proof.
  intros Hi (e1 & j & w2 & e2 & E1 & Hj & _ & E2 & -> & -> & _).
  pose proof (num_range e1) as H1. pose proof (num_range e2) as H2. rewrite E1 in H1. rewrite E2 in H2.
  pose proof (length_ranges i Hi). pose proof (distance_ranges j Hj). lia.
Qed.
Lemma tokens_positive LL LD ts w : tokens_bits LL LD ts w -> Forall (fun t => match t with Literal _ => True | Match n _ => 0 <= n end) ts.
Proof.
  induction 1 as [|t ts w w' Ht _ IH]; [done|]. constructor; [|done]. destruct Ht as [|i w1 e1 j w2 e2 Hi _ _ _ _ _]; [done|].
  pose proof (num_range e1). pose proof (length_ranges i Hi). lia.
Qed.

Section block_codes.
Context (input : buffer) (size : Z) (I : input_ok input size) (cap : Z).
Notation next := (next_bits input size).
Context (LL LD : list Z) (t : trees).
Context (TL : tables_ok LL (lit_counts t) (lit_symbols t)) (TD : tables_ok LD (dist_counts t) (dist_symbols t)).

(** What the loop does from [pos] with the data [h]. *)
Definition codes_read (pos : Z) (h : list Z) (b : Z * Z) (h' : list Z) : Prop :=
  exists ts w, tokens_bits LL LD ts w /\ next pos w /\ b.1 = pos + len w /\ gives h ts h' /\ b.2 = len h' /\ len h' <= cap.
Definition codes_rest (s pos : Z) (h : list Z) (b : Z * Z) (h' : list Z) : Prop :=
  exists ts w, follows LL LD s ts w /\ next pos w /\ b.1 = pos + len w /\ gives h ts h' /\ b.2 = len h' /\ len h' <= cap.
Lemma codes_read_split pos h b h' : codes_read pos h b h' <->
  exists p : Z * Z, (exists w, is_word LL p.2 w /\ next pos w /\ p.1 = pos + len w) /\ codes_rest p.2 p.1 h b h'.
Proof using.
  split.
  - intros (ts & w & Ht & Hn & Hb & Hr). apply tokens_follow in Ht as (s & w1 & w2 & Hw & Hf & ->). apply next_bits_app in Hn as [H1 H2].
    exists (pos + len w1, s). cbn [fst snd]. split; [by exists w1|]. exists ts, w2. split_and!; try done; try apply Hr. rewrite Hb, length_app. lia.
  - intros ([p s] & (w1 & Hw & H1 & E) & (ts & w2 & Hf & H2 & Hb & Hr)). cbn [fst snd] in *. subst p. exists ts, (w1 ++ w2).
    split; [apply tokens_follow; by exists s, w1, w2|]. rewrite next_bits_app. split_and!; try done; try apply Hr. rewrite Hb, length_app. lia.
Qed.
Lemma rest_end pos h b h' : 0 <= pos <= 8 * size -> len h <= cap -> codes_rest 256 pos h b h' <-> b = (pos, len h) /\ h' = h.
Proof using.
  intros Hp Hc. split.
  - intros (ts & w & [(_ & -> & ->)|[[? _]|(i & n & d & w1 & ts' & w2 & ? & ? & _)]] & _ & Hb & Hg & Hu & _); [|lia|lia].
    inversion Hg; subst. destruct b as [b1 b2]. cbn [fst snd length] in *. split; [f_equal; lia|done].
  - intros [-> ->]. exists [], []. cbn [fst snd length]. split_and!; try done; [by left|by apply next_nil|lia|constructor].
Qed.
Lemma rest_literal s pos h b h' : s < 256 -> codes_rest s pos h b h' <-> codes_read pos (h ++ [s]) b h'.
Proof using.
  intros Hs. split.
  - intros (ts & w & [(? & _ & _)|[(_ & ts' & -> & Hts)|(i & n & d & w1 & ts' & w2 & ? & ? & _)]] & Hn & Hb & Hg & Hu); [lia| |lia].
    exists ts', w. inversion Hg; subst. done.
  - intros (ts & w & Ht & Hn & Hb & Hg & Hu). exists (Literal s :: ts), w. split_and!; try done; try apply Hu.
    + right. left. split; [done|]. by exists ts.
    + by constructor.
Qed.
(** A match: its rest is read, the bytes are copied, and the loop goes on. *)
Definition match_read (s pos : Z) (q : Z * Z * Z) : Prop :=
  exists i w, s = 257 + i /\ 0 <= i < 29 /\ match_rest LD i q.1.2 q.2 w /\ next pos w /\ q.1.1 = pos + len w.
Definition match_copied (h : list Z) (q : Z * Z * Z) (used : Z) (h' : list Z) : Prop :=
  1 <= q.2 <= 32768 /\ q.2 <= len h /\ h' = h ++ copied h q.1.2 q.2 /\ used = len h' /\ len h' <= cap.
Lemma rest_match s pos h b h' : 256 < s -> codes_rest s pos h b h' <->
  exists q, match_read s pos q /\ exists used h1, match_copied h q used h1 /\ codes_read q.1.1 h1 b h'.
Proof using.
  intros Hs. split.
  - intros (ts & w & [(? & _ & _)|[[? _]|(i & n & d & w1 & ts' & w2 & -> & Hi & Hm & -> & Hts & ->)]] & Hn & Hb & Hg & Hu & Hl); [lia|lia|].
    apply next_bits_app in Hn as [H1 H2]. exists (pos + len w1, n, d). cbn [fst snd]. split; [by exists i, w1|].
    inversion Hg as [| |? ? ? ? ? Hd Hd2 Hg']; subst. pose proof (gives_length _ _ _ (tokens_positive _ _ _ _ Hts) Hg') as Hlen.
    exists (len (h ++ copied h n d)), (h ++ copied h n d). split; [unfold match_copied; cbn [fst snd]; split_and!; (done || lia)|].
    exists ts', w2. split_and!; try done. rewrite Hb, length_app. lia.
  - intros ([[p n] d] & (i & w1 & -> & Hi & Hm & H1 & E) & used & h1 & (Hd & Hd2 & -> & -> & Hc) & (ts & w2 & Hts & H2 & Hb & Hg & Hu & Hl)).
    cbn [fst snd] in *. subst p. exists (Match n d :: ts), (w1 ++ w2). rewrite next_bits_app. split_and!; try done.
    + right. right. exists i, n, d, w1, ts, w2. done.
    + rewrite Hb, length_app. lia.
    + by constructor.
Qed.

Lemma codes_loop_verdict fuel : forall pos h out, holds cap out h -> 0 <= pos <= 8 * size -> 8 * size - pos < Z.of_nat fuel ->
  verdict cap (codes_loop fuel t input size cap pos (len h)) out (codes_read pos h).
Proof using I TL TD.
  pose proof TL as (HLL & HLlen & _). induction fuel as [|fuel IH]; intros pos h out H Hp Hf; [lia|]. cbn [codes_loop].
  pose proof H as (Hb & _ & Hl & Hlen & H63).
  eapply verdict_ext; [intros b h'; symmetry; apply codes_read_split|].
  apply (holds_read cap _ _ out h _ (fun p b h2 => codes_rest p.2 p.1 h b h2) H).
  { eapply decides_ext; [|by apply (try_symbol_decides input size I LL)]. by intros [? ?]. }
  intros [pos1 s] (w & Hw & Hn & E). cbn [fst snd] in *. subst pos1. pose proof (next_end _ _ _ _ Hn) as Hp1.
  pose proof (word_length _ _ _ HLL Hw) as Hwl. assert (Hs : 0 <= s < 65536) by (destruct Hw; lia).
  unfold LH_COMPRESS_DEFLATE_END_OF_BLOCK. destruct (Z.ltb_spec s 256) as [Hlt|Hge].
  - eapply verdict_ext; [intros b h'; symmetry; by apply rest_literal|]. rewrite Z.geb_leb. destruct (Z.leb_spec cap (len h)).
    + apply verdict_refuse; [done|]. intros b h' (ts & w' & Ht & _ & _ & Hg & _ & Hl').
      pose proof (gives_length _ _ _ (tokens_positive _ _ _ _ Ht) Hg) as Hg'. rewrite length_app in Hg'. simpl in Hg'. lia.
    + eapply verdict_ext; [|apply (holds_bind cap _ _ out h (fun _ h' => h' = h ++ [s]) (fun _ h' b h2 => codes_read (pos + len w) h' b h2) H)].
      * intros b h'. cbv beta. split; [by intros ([] & h1 & -> & Hr)|]. intros Hr. exists tt, (h ++ [s]). done.
      * apply (store_verdict cap _ out h [s] H); [by constructor; [zb|]|simpl; lia|]. rewrite u8_id by zb. rewrite put_ok by lia. f_equal.
        rewrite Nat2Z.id. rewrite insert_take_drop by lia. rewrite Nat.add_1_r. done.
      * intros _ h' ->. rewrite length_app. simpl. lia.
      * by intros _ ? ? -> ->.
      * intros _ h' out1 -> H' _. replace (u64 (len h + 1)) with (len (h ++ [s])) by (rewrite length_app, u64_id by zb; simpl; lia). apply IH; (done || lia).
  - destruct (Z.eqb_spec s 256) as [->|Hne].
    + eapply verdict_ext; [intros b h'; symmetry; by apply rest_end|]. by apply holds_ret.
    + eapply verdict_ext; [intros b h'; symmetry; apply rest_match; lia|].
      apply (holds_read cap _ _ out h _ (fun q b h2 => exists used h1, match_copied h q used h1 /\ codes_read q.1.1 h1 b h2) H).
      { eapply decides_ext; [|by apply (try_match_decides input size I LD _ _ TD (pos + len w) s)]. by intros [[? ?] ?]. }
      intros [[pos2 n] d] (i & w2 & -> & Hi & Hm & Hn2 & E). cbn [fst snd] in *. subst pos2. pose proof (next_end _ _ _ _ Hn2).
      pose proof (match_rest_range _ _ _ _ _ Hi Hm).
      apply (holds_bind cap _ _ out h (match_copied h (pos + len w + len w2, n, d)) (fun used h1 b h2 => codes_read (pos + len w + len w2) h1 b h2) H).
      * apply copy_match_verdict; [done|zb..].
      * intros used h' (_ & _ & _ & _ & Hc). done.
      * intros used h1 h2 (_ & _ & _ & E1 & _) (_ & _ & _ & E2 & _). lia.
      * intros used h' out1 (_ & _ & _ & -> & _) H' _. apply IH; [done|lia|lia].
Qed.
End block_codes.

(** ** Stored blocks *)

Lemma complement_spec v w : 0 <= v < 65536 -> 0 <= w < 65536 -> Z.lxor v w = 65535 <-> w = 65535 - v.
Proof.
  intros Hv Hw. assert (E : Z.lxor v (65535 - v) = 65535).
  { change 65535 with (Z.ones 16). assert (Hd : Z.ldiff v (Z.ones 16) = 0) by (apply Z.ldiff_ones_r_low; [lia|]; destruct (decide (v = 0)) as [->|]; [done|]; apply Z.log2_lt_pow2; lia).
    rewrite Z.sub_nocarry_ldiff by done. apply Z.bits_inj'. intros i Hi. rewrite Z.lxor_spec, Z.ldiff_spec.
    apply (f_equal (fun z => Z.testbit z i)) in Hd. rewrite Z.ldiff_spec, Z.bits_0 in Hd. by destruct (Z.testbit v i), (Z.testbit (Z.ones 16) i). }
  split.
  - intros H. rewrite <- E in H. apply (f_equal (Z.lxor v)) in H. by rewrite <- !Z.lxor_assoc, Z.lxor_nilpotent, !Z.lxor_0_l in H.
  - by intros ->.
Qed.
Lemma pad_bits_spec pos : 0 <= pos -> lh_compress_deflate_get_pad_bits pos = (- pos) mod 8.
Proof. intros Hp. unfold lh_compress_deflate_get_pad_bits. zdm. Qed.

Lemma length_bytes_bits bs : len (bytes_bits bs) = 8 * len bs.
Proof. unfold bytes_bits. rewrite length_bits by lia. done. Qed.
Lemma bytes_bits_inj a b : is_bytes a -> is_bytes b -> bytes_bits a = bytes_bits b -> a = b.
Proof.
  intros Ha Hb E. pose proof (f_equal (fun l => len l) E) as El. cbv beta in El. rewrite !length_bytes_bits in El.
  apply byte_at_ext; [lia|]. intros i Hi. apply Z.bits_inj'. intros j Hj.
  pose proof (byte_at_u8 a i Ha). pose proof (byte_at_u8 b i Hb). destruct (decide (j < 8)) as [H8|H8].
  - apply (f_equal (fun l => l !! Z.to_nat (8 * i + j))) in E. unfold bytes_bits, bits in E. cbv beta in E.
    rewrite !list_lookup_fmap, !lookup_seqZ_lt in E by lia. injection E as E. unfold bit_at in E.
    replace ((0 + Z.of_nat (Z.to_nat (8 * i + j))) / 8) with i in E by zdm.
    replace ((0 + Z.of_nat (Z.to_nat (8 * i + j))) mod 8) with j in E by zdm. done.
  - assert (Hhi : forall x, is_u8 x -> Z.testbit x j = false); [|by rewrite !Hhi].
    intros x Hx. destruct (decide (x = 0)) as [->|]; [apply Z.bits_0|]. apply Z.bits_above_log2; [zb|].
    apply Z.lt_le_trans with 8; [|lia]. apply Z.log2_lt_pow2; zb.
Qed.
Lemma aligned_bits input k n : 0 <= k -> 0 <= n -> k + n <= len input ->
  bits input (8 * k) (8 * n) = bytes_bits (take (Z.to_nat n) (drop (Z.to_nat k) input)).
Proof.
  intros Hk Hn Hl. unfold bytes_bits, bits. rewrite length_take, length_drop. replace (8 * Z.of_nat (_ `min` _)) with (8 * n) by lia.
  apply list_eq. intros i. rewrite !list_lookup_fmap. destruct (decide (Z.of_nat i < 8 * n)) as [Hi|Hi]; [|by rewrite !lookup_seqZ_ge by lia].
  rewrite !lookup_seqZ_lt by lia. cbn [fmap option_fmap option_map]. f_equal. unfold bit_at.
  rewrite byte_at_take, byte_at_drop by zdm. f_equal; [f_equal; zdm|zdm].
Qed.

Section stored.
Context (input : buffer) (size : Z) (I : input_ok input size).
Notation next := (next_bits input size).

Lemma next_any pos n : 0 <= pos -> 0 <= n -> pos + n <= 8 * size -> next pos (bits input pos n).
Proof using. intros. unfold next_bits. rewrite length_bits by done. split_and!; (done || lia). Qed.
Lemma next_bytes k bs : 0 <= k <= size -> is_bytes bs ->
  next (8 * k) (bytes_bits bs) <-> k + len bs <= size /\ bs = take (length bs) (drop (Z.to_nat k) input).
Proof using I.
  pose proof I as (Hb & Hs & _). intros Hk Hbs. unfold next_bits. rewrite length_bytes_bits. split.
  - intros (_ & Hl & E). split; [lia|]. rewrite aligned_bits in E by lia. rewrite Nat2Z.id in E. symmetry. apply bytes_bits_inj; [|done|done].
    by apply Forall_take, Forall_drop.
  - intros [Hl E]. split_and!; [lia|lia|]. rewrite aligned_bits, Nat2Z.id by lia. by rewrite <- E.
Qed.
Lemma stored_header_decides pos : 0 <= pos <= 8 * size ->
  decides (lh_compress_deflate_try_stored_header input size pos)
    (fun '(pos', v) => exists pad, len pad = (- pos) mod 8 /\ 0 <= v < 65536 /\
      next pos (pad ++ nbits 16 v ++ nbits 16 (65535 - v)) /\ pos' = pos + len pad + 32).
Proof using I.
  pose proof I as (Hb & Hs & Hm). intros Hp. unfold lh_compress_deflate_try_stored_header.
  rewrite adds_over_spec by zb. rewrite (proj2 (Z.ltb_ge _ _)) by zb. rewrite pad_bits_spec, (u64_id (_ + _)) by zdm.
  set (pad := bits input pos ((- pos) mod 8)). assert (Elen : len pad = (- pos) mod 8) by (apply length_bits; zdm).
  assert (Hpad : next pos pad) by (apply next_any; zdm). pose proof (next_end _ _ _ _ Hpad).
  assert (Huniq : forall v w, len v = (- pos) mod 8 -> next pos (v ++ w) <-> v = pad /\ next (pos + len pad) w).
  { intros v w Ev. rewrite next_bits_app. split.
    - intros [H1 H2]. assert (v = pad) as -> by (eapply (next_unique input size pos); eauto; lia). done.
    - intros [-> H2]. done. }
  rewrite <- Elen. set (R := fun (p q : Z * Z) => 0 <= q.2 < 2 ^ 16 /\ next p.1 (nbits 16 q.2) /\ q.1 = p.1 + 16).
  eapply (decides_ext _ (fun a => exists p, R (pos + len pad, 0) p /\ exists q, R p q /\ (Z.lxor p.2 q.2 = 65535 /\ a = (q.1, p.2)))).
  - intros [pos' v]. unfold R. cbn [fst snd]. split.
    + intros ([p v1] & (Hv1 & N1 & E1) & [q v2] & (Hv2 & N2 & E2) & Hx & [= -> ->]). cbn [fst snd] in *. subst p q.
      apply complement_spec in Hx as ->; [|lia..]. exists pad. split_and!; [done|lia|lia| |lia].
      apply Huniq; [done|]. split; [done|]. rewrite next_bits_app, length_nbits by lia. done.
    + intros (pad' & Epad & Hv & N & ->). apply (Huniq pad') in N as [-> N]; [|lia].
      rewrite next_bits_app, length_nbits in N by lia. destruct N as [N1 N2].
      exists (pos + len pad + 16, v). cbn [fst snd]. split; [done|]. exists (pos + len pad + 16 + 16, 65535 - v). cbn [fst snd].
      split_and!; [lia|lia|done|lia|apply complement_spec; lia|f_equal; lia].
  - apply (decides_bind _ _ (R (pos + len pad, 0)) (fun p a => exists q, R p q /\ (Z.lxor p.2 q.2 = 65535 /\ a = (q.1, p.2)))).
    { eapply decides_ext; [|by apply (try_nbits_decides input size I (pos + len pad) 16); lia]. by intros [? ?]. }
    intros [p v1] (Hv1 & N1 & E1). cbn [fst snd] in *. pose proof (next_end _ _ _ _ N1) as Hl. rewrite length_nbits in Hl by lia.
    apply (decides_bind _ _ (R (p, v1)) (fun q a => Z.lxor v1 q.2 = 65535 /\ a = (q.1, v1))).
    { eapply decides_ext; [|by apply (try_nbits_decides input size I p 16); lia]. by intros [? ?]. }
    intros [q v2] (Hv2 & N2 & E2). cbn [fst snd] in *. destruct (Z.eqb_spec (Z.lxor v1 v2) 65535) as [E|E]; cbn [negb].
    + eapply decides_ext; [|apply decides_ret]. intros a. cbn [fst snd]. tauto.
    + apply decides_refuse. intros a [? _]. done.
Qed.
(** The block's data, when it is all there and fits. *)
Lemma try_stored_verdict cap out h pos : holds cap out h -> 0 <= pos <= 8 * size ->
  verdict cap (lh_compress_deflate_try_stored input size pos cap (len h)) out
    (fun b h' => exists pad bs, len pad = (- pos) mod 8 /\ is_bytes bs /\ len bs < 65536 /\
      next pos ((pad ++ nbits 16 (len bs) ++ nbits 16 (65535 - len bs)) ++ bytes_bits bs) /\
      b.1 = pos + len pad + 32 + 8 * len bs /\ h' = h ++ bs /\ b.2 = len h' /\ len h' <= cap).
Proof using I.
  pose proof I as (Hib & Hs & Hm). intros H Hp. pose proof H as (Hb & Ht & Hl & Hlen & H63). unfold lh_compress_deflate_try_stored.
  rewrite Z.gtb_ltb, (proj2 (Z.ltb_ge _ _)) by lia.
  set (S := fun (p : Z * Z) => exists pad, len pad = (- pos) mod 8 /\ 0 <= p.2 < 65536 /\
    next pos (pad ++ nbits 16 p.2 ++ nbits 16 (65535 - p.2)) /\ p.1 = pos + len pad + 32).
  set (R := fun (p b : Z * Z) h' => exists bs, is_bytes bs /\ len bs = p.2 /\ next p.1 (bytes_bits bs) /\ b.1 = p.1 + 8 * len bs /\
    h' = h ++ bs /\ b.2 = len h' /\ len h' <= cap).
  apply (verdict_ext _ _ _ (fun b h' => exists p, S p /\ R p b h')).
  { intros b h'. unfold S, R. split.
    - intros ([p v] & (pad & Hpad & Hv & N & E) & bs & Hbs & El & N2 & Eb & -> & Hu). cbn [fst snd] in *. subst p v.
      exists pad, bs. split_and!; try done; try lia; try apply Hu. rewrite next_bits_app. split; [done|].
      replace (pos + len (pad ++ nbits 16 (len bs) ++ nbits 16 (65535 - len bs))) with (pos + len pad + 32); [done|].
      rewrite !length_app, !Nat2Z.inj_add, !length_nbits by lia. lia.
    - intros (pad & bs & Hpad & Hbs & Hl2 & N & Eb & -> & Hu). rewrite next_bits_app in N. destruct N as [N1 N2].
      exists (pos + len pad + 32, len bs). cbn [fst snd]. split; [exists pad; split_and!; (done || lia)|].
      exists bs. split_and!; try done; try lia; try apply Hu.
      replace (pos + len (pad ++ nbits 16 (len bs) ++ nbits 16 (65535 - len bs))) with (pos + len pad + 32) in N2; [done|].
      rewrite !length_app, !Nat2Z.inj_add, !length_nbits by lia. lia. }
  apply (holds_read cap _ _ out h S R H).
  { eapply decides_ext; [|by apply stored_header_decides]. by intros [? ?]. }
  intros [p n] (pad & Hpad & Hn & N & E). cbn [fst snd] in *. pose proof (next_end _ _ _ _ N) as Hpe.
  rewrite !length_app, !Nat2Z.inj_add, !length_nbits in Hpe by lia.
  assert (Hal : p = 8 * (p / 8)) by zdm. set (k := p / 8) in *. assert (Hk : 0 <= k <= size) by lia.
  rewrite !Z.gtb_ltb, (u64_id (cap - len h)), (u64_id (size - k)), (u64_id (LH_USIZE_T_MAX - p)) by zb.
  destruct (Z.ltb_spec (cap - len h) n) as [H1|H1]; cbn [orb].
  { apply verdict_refuse; [done|]. intros b h' (bs & _ & El & _ & _ & -> & _ & Hc). cbn [snd] in El. rewrite length_app in Hc. lia. }
  destruct (Z.ltb_spec (size - k) n) as [H2|H2]; cbn [orb].
  { apply verdict_refuse; [done|]. intros b h' (bs & Hbs & El & N2 & _). cbn [fst snd] in *. rewrite Hal in N2. apply next_bytes in N2; [lia|done|done]. }
  rewrite (proj2 (Z.ltb_ge _ n)) by zdm. cbn [orb].
  set (bs := take (Z.to_nat n) (drop (Z.to_nat k) input)).
  assert (Hbs : is_bytes bs) by (by apply Forall_take, Forall_drop). assert (Elb : len bs = n) by (unfold bs; rewrite length_take, length_drop; lia).
  apply (verdict_ext _ _ _ (fun b h' => b = (p + 8 * n, len h + n) /\ h' = h ++ bs)).
  { intros b h'. unfold R. cbn [fst snd]. split.
    - intros [-> ->]. exists bs. rewrite length_app. cbn [fst snd]. split_and!; try done; try lia.
      rewrite Hal. apply next_bytes; [done|done|]. split; [lia|]. unfold bs. by rewrite length_take, length_drop, Nat.min_l by lia.
    - intros (bs' & Hbs' & El' & N2 & Eb & -> & Hu & _). rewrite Hal in N2. apply next_bytes in N2 as [_ Ebs]; [|done|done].
      assert (bs' = bs) as -> by (rewrite Ebs; unfold bs; f_equal; lia). split; [|done]. rewrite length_app in Hu. destruct b. cbn [fst snd] in *. f_equal; lia. }
  rewrite (u64_id (n * 8)), (u64_id (p + n * 8)), (u64_id (len h + n)) by zb. replace (p + n * 8) with (p + 8 * n) by lia.
  destruct (Z.eqb_spec n 0) as [->|Hn0]; cbn [negb].
  - change (mbind (M := writing) ?f (mret tt)) with (f tt). eapply verdict_ext; [|by apply (holds_ret cap out h)].
    intros b h'. change bs with (@nil Z). by rewrite app_nil_r.
  - eapply verdict_ext; [|apply (holds_bind cap _ _ out h (fun _ h' => h' = h ++ bs) (fun _ h' b h2 => b = (p + 8 * n, len h + n) /\ h2 = h') H)].
    + intros b h'. cbv beta. split; [by intros ([] & h1 & -> & -> & ->)|]. intros [-> ->]. by exists tt, (h ++ bs).
    + apply (store_verdict cap _ out h bs H); [done|lia|]. rewrite copy_ok by (rewrite ?length_drop; lia). rewrite Nat2Z.id. fold bs.
      do 4 f_equal. lia.
    + intros _ h' ->. rewrite length_app. lia.
    + by intros _ ? ? -> ->.
    + intros _ h' out1 -> H' _. by apply holds_ret.
Qed.
End stored.

(** ** Trees *)

Lemma code_lengths_ok L : code_ok L -> len L < 65536 -> lengths_ok L (len L).
Proof. intros [HF _] Hl. split_and!; try lia. eapply Forall_impl; [exact HF|]. intros x. cbv beta. unfold is_u8. lia. Qed.
Lemma empty_codes L l : shorter L 16 = 0 -> (l <= 15)%nat -> cn L l = 0 /\ first_code L l = 0.
Proof.
  intros H0 Hl. assert (Hc : forall k, (k <= 15)%nat -> cn L k = 0).
  { intros k Hk. pose proof (shorter_mono L (S k) 16 ltac:(lia)) as Hm. rewrite (shorter_S L k) in Hm.
    pose proof (shorter_nonneg L k). pose proof (cn_nonneg L k). lia. }
  split; [by apply Hc|]. induction l as [|l IH]; [done|]. cbn [first_code]. rewrite IH, Hc by lia. done.
Qed.
Lemma left_loop_code L counts : code_ok L -> len L < 65536 -> counts_ok L counts ->
  left_loop 15 counts 1 1 0 = Done (Some (2 ^ 15 - (first_code L 15 + cn L 15), shorter L 16)).
Proof.
  intros Hco HL. pose proof (code_lengths_ok L Hco HL) as Hlo.
  assert (H : forall M, M = take (Z.to_nat (len L)) L -> code_ok M -> counts_ok M counts ->
    left_loop 15 counts 1 1 0 = Done (Some (2 ^ 15 - (first_code M 15 + cn M 15), shorter M 16))).
  { intros M ->. by apply left_loop_start. }
  apply H; [|done]. rewrite Nat2Z.id. symmetry. by apply take_ge.
Qed.
Lemma is_tree_valid_spec L counts a e : code_ok L -> len L < 65536 -> counts_ok L counts ->
  exists b, lh_compress_deflate_is_tree_valid counts a e = Done b /\
    (b = true <-> complete L \/ (a = true /\ single L) \/ (e = true /\ empty L)).
Proof.
  intros Hco HL Hc. unfold lh_compress_deflate_is_tree_valid. rewrite (left_loop_code L) by done. rewrite bind_done.
  unfold complete, single, empty.
  destruct (Z.eqb_spec (shorter L 16) 0) as [H0|H0].
  { exists e. split; [done|]. destruct (empty_codes L 15 H0 ltac:(lia)) as [E1 E2]. rewrite E1, E2, H0.
    split; [intros ->; right; right; done|]. intros [?|[[_ [? _]]|[? _]]]; done. }
  destruct (Z.eqb_spec (2 ^ 15 - (first_code L 15 + cn L 15)) 0) as [H1|H1].
  { exists true. split; [done|]. split; [left; lia|done]. }
  destruct a; cbn [andb].
  - destruct (Z.eqb_spec (shorter L 16) 1) as [H2|H2].
    + destruct Hc as [Hc1 Hc2]. rewrite byte_at_load, bind_done by lia. pose proof (Hc2 1%nat ltac:(lia)) as E1. change (Z.of_nat 1) with 1 in E1. rewrite E1.
      eexists. split; [done|]. rewrite Z.eqb_eq. split; [intros ?; right; left; done|]. intros [?|[[_ [_ ?]]|[_ ?]]]; (done || lia).
    + exists false. split; [done|]. split; [done|]. intros [?|[[_ [? _]]|[_ ?]]]; (done || lia).
  - exists false. split; [done|]. split; [done|]. intros [?|[[? _]|[_ ?]]]; (done || lia).
Qed.

Section lengths.
Context (input : buffer) (size : Z) (I : input_ok input size).
Notation next := (next_bits input size).

(** The lengths of the code of lengths, three bits each. *)
Definition assigned (a : list Z) (i : Z) (ls : list Z) : list Z :=
  foldl (fun L '(o, l) => <[Z.to_nat o := l]> L) a (zip (drop (Z.to_nat i) code_length_order) ls).
Lemma order_at i : 0 <= i < 19 -> exists o, load code_length_order i = Done o /\ 0 <= o < 19 /\
  drop (Z.to_nat i) code_length_order = o :: drop (Z.to_nat (i + 1)) code_length_order.
Proof using.
  intros Hi. rewrite byte_at_load by (cbn; lia). eexists. split; [done|].
  assert (Forall (fun i => 0 <= byte_at code_length_order i < 19 /\ drop (Z.to_nat i) code_length_order = byte_at code_length_order i :: drop (Z.to_nat (i + 1)) code_length_order) (seqZ 0 19)) as HF.
  { repeat (constructor; [by vm_compute|]). constructor. }
  apply (proj1 (Forall_forall _ _) HF). apply elem_of_seqZ. lia.
Qed.
Lemma order_loop_decides n : forall pos i a, 0 <= pos <= 8 * size -> 0 <= i -> i + Z.of_nat n <= 19 -> length a = 19%nat ->
  decides (order_loop n input size pos i a)
    (fun '(pos', a') => exists ls, length ls = n /\ Forall (fun l => 0 <= l < 8) ls /\ next pos (mjoin (nbits 3 <$> ls)) /\
      pos' = pos + 3 * Z.of_nat n /\ a' = assigned a i ls).
Proof using I.
  induction n as [|n IH]; intros pos i a Hp Hi Hn Ha; cbn [order_loop].
  - eapply decides_ext; [|apply decides_ret]. intros [pos' a']. split.
    + intros [= -> ->]. exists []. split_and!; try done; [by apply next_nil|lia|unfold assigned; by rewrite zip_with_nil_r].
    + intros (ls & Hl & _ & _ & -> & ->). apply length_zero_iff_nil in Hl as ->. unfold assigned. rewrite zip_with_nil_r. cbn [foldl]. f_equal. lia.
  - destruct (order_at i) as (o & Eo & Ho & Ed); [lia|].
    set (R := fun (p b : Z * list Z) => exists ls, length ls = n /\ Forall (fun l => 0 <= l < 8) ls /\ next p.1 (mjoin (nbits 3 <$> ls)) /\
      b.1 = p.1 + 3 * Z.of_nat n /\ b.2 = assigned p.2 (i + 1) ls).
    eapply (decides_ext _ (fun b => exists p : Z * Z, (0 <= p.2 < 8 /\ next pos (nbits 3 p.2) /\ p.1 = pos + 3) /\ R (p.1, <[Z.to_nat o := p.2]> a) b)).
    + intros [pos' a']. unfold R. cbn [fst snd]. split.
      * intros ([p v] & (Hv & N & E) & ls & Hl & HF & N2 & E1 & E2). cbn [fst snd] in *. subst p pos' a'. exists (v :: ls).
        split_and!; [by rewrite <- Hl|by constructor| |lia|unfold assigned; rewrite Ed; done].
        cbn [fmap list_fmap mjoin list_join]. rewrite next_bits_app, length_nbits by lia. done.
      * intros (ls & Hl & HF & N & -> & ->). destruct ls as [|v ls]; [done|]. apply Forall_cons in HF as [Hv HF].
        cbn [fmap list_fmap mjoin list_join] in N. rewrite next_bits_app, length_nbits in N by lia. destruct N as [N1 N2].
        exists (pos + 3, v). cbn [fst snd]. split; [done|]. exists ls. injection Hl as Hl.
        split_and!; [done|done|done|lia|unfold assigned; rewrite Ed; done].
    + apply (decides_bind _ _ _ (fun p b => R (p.1, <[Z.to_nat o := p.2]> a) b)).
      { eapply decides_ext; [|by apply (try_nbits_decides input size I pos 3); lia]. by intros [? ?]. }
      intros [p v] (Hv & N & E). cbn [fst snd] in *. rewrite Eo, surely_done, bind_some, put_ok, surely_done, bind_some by lia.
      rewrite u8_id by zb. pose proof (next_end _ _ _ _ N) as He. rewrite length_nbits in He by lia.
      eapply decides_ext; [|apply (IH p (i + 1)); [lia..|by rewrite length_insert]]. by intros [? ?].
Qed.

(** The array of lengths with [p] in it so far. *)
Definition held (p : list Z) : list Z := p ++ replicate (320 - length p) 0.
Lemma length_held p : (length p <= 320)%nat -> length (held p) = 320%nat.
Proof using. intros H. unfold held. rewrite length_app, length_replicate. lia. Qed.
Lemma put_held p v : (length p < 320)%nat -> put (held p) (len p) v = Done (held (p ++ [v])).
Proof using.
  intros H. rewrite put_ok by (rewrite length_held; lia). f_equal. unfold held. rewrite Nat2Z.id, insert_app_r_alt, Nat.sub_diag by lia.
  rewrite length_app. cbn [length]. replace (320 - length p)%nat with (S (320 - (length p + 1))) by lia. cbn [replicate].
  rewrite <- app_assoc. done.
Qed.
Lemma repeat_loop_spec n v : forall p, len p + Z.of_nat n <= 320 ->
  repeat_loop n (held p) (len p) v = Done (held (p ++ replicate n v), len p + Z.of_nat n).
Proof using.
  induction n as [|n IH]; intros p H; cbn [repeat_loop replicate]; [by rewrite app_nil_r, Z.add_0_r|].
  rewrite put_held, bind_done by lia. rewrite u32_id by zb. specialize (IH (p ++ [v])). rewrite length_app in IH. cbn [length] in IH.
  replace (len p + 1) with (Z.of_nat (length p + 1)) by lia. rewrite IH by lia. rewrite <- app_assoc. cbn [app]. do 2 f_equal. lia.
Qed.
Lemma load_held_last p l : last p = Some l -> (length p <= 320)%nat -> load (held p) (u32 (len p - 1)) = Done l.
Proof using.
  intros Hp Hl. destruct p as [|x p]; [done|]. rewrite u32_id by (cbn [length] in *; zb). unfold held. rewrite load_app_l by (cbn [length]; lia).
  rewrite last_lookup in Hp. unfold load. rewrite (proj2 (Z.ltb_ge _ _)) by (cbn [length]; lia).
  replace (Z.to_nat (len (x :: p) - 1)) with (pred (length (x :: p))) by lia. by rewrite Hp.
Qed.

Definition run_extra (s : Z) : Z := if s =? 16 then 2 else if s =? 17 then 3 else 7.
Definition run_base (s : Z) : Z := if s =? 18 then 11 else 3.
Definition run_value (s : Z) (p : list Z) (v : Z) : Prop := if s =? 16 then last p = Some v else v = 0.
Context (LC counts syms : list Z) (T : tables_ok LC counts syms) (total : Z) (Ht : total <= 320) (HLC : len LC = 19).
(** What follows the word of [s], after the lengths [p]. *)
Definition run_rest (s : Z) (p : list Z) (w : list bool) (q : list Z) : Prop :=
  (s < 16 /\ runs_bits LC total (p ++ [s]) w q) \/
  (16 <= s <= 18 /\ exists e v w', len e = run_extra s /\ run_value s p v /\ len p + (run_base s + num e) <= total /\
    runs_bits LC total (p ++ replicate (Z.to_nat (run_base s + num e)) v) w' q /\ w = e ++ w').
Lemma runs_split p w q : len p < total ->
  runs_bits LC total p w q <-> exists s w1 w2, is_word LC s w1 /\ run_rest s p w2 q /\ w = w1 ++ w2.
Proof using.
  intros Hp. split.
  - intros H. inversion H as [? ?|p0 l w1 w2 q0 Hr Hl Hrs|p0 l k w1 w2 q0 Hr Hla Hl Hrs|p0 r k w1 w2 q0 Hr Hk Hl Hrs]; subst; [lia|..].
    + inversion Hr; subst. exists l, w1, w2. split_and!; try done. by left.
    + inversion Hr as [|w0 e Hw0 He0| |]; subst. exists 16, w0, (e ++ w2). rewrite <- app_assoc. split_and!; try done. right. split; [lia|].
      exists e, l, w2. split_and!; try done.
    + destruct Hk as [-> | ->]; inversion Hr as [| |w0 e Hw0 He0|w0 e Hw0 He0]; subst.
      * exists 17, w0, (e ++ w2). rewrite <- app_assoc. split_and!; try done. right. split; [lia|]. exists e, 0, w2. split_and!; try done.
      * exists 18, w0, (e ++ w2). rewrite <- app_assoc. split_and!; try done. right. split; [lia|]. exists e, 0, w2. split_and!; try done.
  - intros (s & w1 & w2 & Hw & [[Hs Hr]|(Hs & e & v & w' & He & Hv & Hl & Hr & ->)] & ->).
    + apply runs_length with s; [by constructor|done|done].
    + rewrite app_assoc. assert (s = 16 \/ s = 17 \/ s = 18) as [-> | [-> | ->]] by lia.
      * apply runs_again with v (3 + num e); try done. by constructor.
      * cbn in Hv. subst v. apply runs_zeros with (Zeros (3 + num e)) (3 + num e); try done; [by constructor|by left].
      * cbn in Hv. subst v. apply runs_zeros with (Many_zeros (11 + num e)) (11 + num e); try done; [by constructor|by right].
Qed.
Definition runs_read (p : list Z) (pos : Z) (b : Z * list Z) : Prop :=
  exists w q, runs_bits LC total p w q /\ next pos w /\ b.1 = pos + len w /\ b.2 = held q.
Lemma runs_read_split p pos b : len p < total -> runs_read p pos b <->
  exists a : Z * Z, (exists w, is_word LC a.2 w /\ next pos w /\ a.1 = pos + len w) /\
    exists w q, run_rest a.2 p w q /\ next a.1 w /\ b.1 = a.1 + len w /\ b.2 = held q.
Proof using.
  intros Hp. split.
  - intros (w & q & Hr & Hn & Hb & Hq). apply runs_split in Hr as (s & w1 & w2 & Hw & Hr & ->); [|done].
    rewrite next_bits_app in Hn. destruct Hn as [N1 N2]. exists (pos + len w1, s). cbn [fst snd]. split; [by exists w1|].
    exists w2, q. split_and!; try done. rewrite Hb, length_app. lia.
  - intros ([p1 s] & (w1 & Hw & N1 & E) & w2 & q & Hr & N2 & Hb & Hq). cbn [fst snd] in *. subst p1.
    exists (w1 ++ w2), q. rewrite next_bits_app, length_app. split_and!; try done; [apply runs_split; [done|by exists s, w1, w2]|lia].
Qed.
Lemma runs_end_only p w q : len p = total -> runs_bits LC total p w q <-> w = [] /\ q = p.
Proof using Ht.
  intros Hp. split.
  - intros H. inversion H as [? ?|p0 l w1 w2 q0 Hr Hl Hrs|p0 l k w1 w2 q0 Hr Hla Hl Hrs|p0 r k w1 w2 q0 Hr Hk Hl Hrs]; subst; [done|lia|..].
    + inversion Hr as [|w0 e Hw0 He0| |]; subst. pose proof (num_range e). lia.
    + destruct Hk as [-> | ->]; inversion Hr as [| |w0 e Hw0 He0|w0 e Hw0 He0]; subst; pose proof (num_range e); lia.
  - intros [-> ->]. by constructor.
Qed.

(** A run of more than one length. *)
Definition runs_fill (s : Z) (p : list Z) (pos1 : Z) (b : Z * list Z) : Prop :=
  exists a : Z * Z, (exists e, len e = run_extra s /\ next pos1 e /\ a.1 = pos1 + len e /\ a.2 = num e) /\
    exists v, run_value s p v /\ len p + (run_base s + a.2) <= total /\ runs_read (p ++ replicate (Z.to_nat (run_base s + a.2)) v) a.1 b.
Lemma run_rest_fill s p pos1 b : 16 <= s <= 18 ->
  (exists w q, run_rest s p w q /\ next pos1 w /\ b.1 = pos1 + len w /\ b.2 = held q) <-> runs_fill s p pos1 b.
Proof using.
  intros Hs. split.
  - intros (w & q & [[? _]|(_ & e & v & w' & He & Hv & Hl & Hr & ->)] & N & Hb & Hq); [lia|]. rewrite next_bits_app in N. destruct N as [N1 N2].
    exists (pos1 + len e, num e). cbn [fst snd]. split; [by exists e|]. exists v. split_and!; try done. exists w', q.
    split_and!; try done. rewrite Hb, length_app. lia.
  - intros ([p1 x] & (e & He & N1 & E & Ex) & v & Hv & Hl & w' & q & Hr & N2 & Hb & Hq). cbn [fst snd] in *. subst p1 x.
    exists (e ++ w'), q. rewrite next_bits_app, length_app. split_and!; try done; [|lia]. right. split; [lia|]. by exists e, v, w'.
Qed.
Lemma run_rest_length s p pos1 b : 0 <= s < 16 ->
  (exists w q, run_rest s p w q /\ next pos1 w /\ b.1 = pos1 + len w /\ b.2 = held q) <-> runs_read (p ++ [s]) pos1 b.
Proof using.
  intros Hs. split.
  - intros (w & q & [[_ Hr]|(? & _)] & Hn); [by exists w, q|lia].
  - intros (w & q & Hr & Hn). exists w, q. split; [left; split; [lia|done]|done].
Qed.

Lemma runs_loop_decides fuel : forall pos p, 0 <= pos <= 8 * size -> len p <= total -> total - len p < Z.of_nat fuel ->
  decides (runs_loop fuel input size pos counts syms total (len p) (held p)) (runs_read p pos).
Proof using I T Ht HLC.
  pose proof T as (Hco & _). induction fuel as [|fuel IH]; intros pos p Hp Hl Hf; [lia|]. cbn [runs_loop].
  destruct (Z.ltb_spec (len p) total) as [Hlt|Hge].
  2: { eapply decides_ext; [|apply decides_ret]. intros b. cbv beta. split.
       - intros ->. exists [], p. rewrite runs_end_only by lia. split_and!; try done; [by apply next_nil|cbn; lia].
       - intros (w & q & Hr & _ & Hb & Hq). apply runs_end_only in Hr as [-> ->]; [|lia]. destruct b as [b1 b2]. cbn in *. f_equal; [lia|done]. }
  eapply decides_ext; [intros b; symmetry; by apply runs_read_split|].
  apply (decides_bind _ _ _ (fun a b => exists w q, run_rest a.2 p w q /\ next a.1 w /\ b.1 = a.1 + len w /\ b.2 = held q)).
  { eapply decides_ext; [|by apply (try_symbol_decides input size I LC _ _ pos T)]. by intros [? ?]. }
  intros [pos1 s] (w & Hw & N1 & E). cbn [fst snd] in *. pose proof (next_end _ _ _ _ N1).
  assert (Hs : 0 <= s < 19) by (destruct Hw; lia).
  destruct (Z.ltb_spec s 16) as [H16|H16].
  - eapply decides_ext; [intros b; symmetry; apply run_rest_length; lia|].
    rewrite u8_id, put_held, surely_done, bind_some by zb. rewrite u32_id by zb.
    replace (len p + 1) with (len (p ++ [s])) by (rewrite length_app; cbn; lia). apply IH; rewrite ?length_app; cbn; lia.
  - eapply decides_ext; [intros b; symmetry; apply run_rest_fill; lia|]. rewrite Z.gtb_ltb, (proj2 (Z.ltb_ge _ _)) by lia. cbn [orb].
    fold (run_extra s). fold (run_base s).
    assert (Hx : 0 <= run_extra s <= 7) by (unfold run_extra; repeat case_match; lia).
    assert (Hrb : 0 < run_base s <= 11) by (unfold run_base; case_match; lia).
    destruct ((s =? 16) && (len p =? 0)) eqn:E0.
    { apply andb_true_iff in E0 as [E1 E2]. apply Z.eqb_eq in E1 as ->. apply Z.eqb_eq in E2.
      destruct p as [|? ?]; [|done]. apply decides_refuse. intros b (a & _ & v & Hv & _). done. }
    apply (decides_bind _ _ _ (fun a b => exists v, run_value s p v /\ len p + (run_base s + a.2) <= total /\ runs_read (p ++ replicate (Z.to_nat (run_base s + a.2)) v) a.1 b)).
    { eapply decides_ext; [|apply (try_bits_decides input size I pos1 (run_extra s)); lia]. by intros [? ?]. }
    intros [pos2 x] (e & He & N2 & E2 & Ex). cbn [fst snd] in *. pose proof (next_end _ _ _ _ N2).
    pose proof (num_range e) as Hnr. rewrite He in Hnr. assert (2 ^ run_extra s <= 128) by (apply (Z.pow_le_mono_r 2 _ 7); lia).
    rewrite (u32_id (x + _)), (u32_id (total - _)) by zb. rewrite Z.gtb_ltb. replace (x + run_base s) with (run_base s + x) by lia.
    destruct (Z.ltb_spec (total - len p) (run_base s + x)) as [Hbig|Hfit].
    { apply decides_refuse. intros b (v & _ & ? & _). lia. }
    assert (exists v, (if s =? 16 then load (held p) (u32 (len p - 1)) else mret 0) = Done v /\ forall v', run_value s p v' <-> v' = v) as (v & Ev & Hv).
    { unfold run_value. destruct (Z.eqb_spec s 16) as [->|]; [|by exists 0].
      destruct (last p) as [l|] eqn:El; [|apply last_None in El; by subst p]. exists l. rewrite (load_held_last p l) by (done || lia).
      split; [done|]. intros v'. split; [by intros [= ->]|by intros ->]. }
    rewrite Ev, surely_done, bind_some. rewrite repeat_loop_spec, surely_done, bind_some by lia.
    apply (decides_ext _ (runs_read (p ++ replicate (Z.to_nat (run_base s + x)) v) pos2)).
    { intros b. split; [intros Hr; exists v; split_and!; [by apply Hv|lia|done]|]. intros (v' & Hv' & _ & Hr). by apply Hv in Hv' as ->. }
    replace (len p + Z.of_nat (Z.to_nat (run_base s + x))) with (len (p ++ replicate (Z.to_nat (run_base s + x)) v)) by (rewrite length_app, length_replicate; lia).
    apply IH; rewrite ?length_app, ?length_replicate; lia.
Qed.
End lengths.

(** ** The lengths of a dynamic block *)

Lemma assigned_ok a i ls : Forall (fun l => 0 <= l < 8) a -> Forall (fun l => 0 <= l < 8) ls ->
  length (assigned a i ls) = length a /\ Forall (fun l => 0 <= l < 8) (assigned a i ls).
Proof.
  unfold assigned. generalize (drop (Z.to_nat i) code_length_order) as os. intros os. revert a ls.
  induction os as [|o os IH]; intros a ls Ha Hls; [done|]. destruct ls as [|l ls]; [done|]. apply Forall_cons in Hls as [Hl Hls].
  cbn [zip_with foldl]. destruct (IH (<[Z.to_nat o := l]> a) ls) as [E HF]; [by apply Forall_insert|done|].
  split; [by rewrite E, length_insert|done].
Qed.
Lemma in_order_ok ls : Forall (fun l => 0 <= l < 8) ls -> length (in_order ls) = 19%nat /\ is_bytes (in_order ls).
Proof.
  intros H. destruct (assigned_ok (replicate 19 0) 0 ls) as [E HF]; [repeat constructor; lia|done|].
  split; [exact E|]. eapply Forall_impl; [exact HF|]. cbv beta. intros. zb.
Qed.
Lemma length_threes ls : len (mjoin (nbits 3 <$> ls)) = 3 * len ls.
Proof.
  induction ls as [|l ls IH]; [done|]. change (mjoin (nbits 3 <$> l :: ls)) with (nbits 3 l ++ mjoin (nbits 3 <$> ls)).
  rewrite length_app, Nat2Z.inj_add, length_nbits, IH by lia. cbn [length]. lia.
Qed.
Lemma runs_total LC n p w q : runs_bits LC n p w q -> len q = n.
Proof. by induction 1. Qed.

Section dynamic.
Context (input : buffer) (size : Z) (I : input_ok input size).
Notation next := (next_bits input size).

Definition lengths_after (hl hd hc p : Z) (b : Z * Z * Z * list Z) : Prop :=
  hl + 257 <= 286 /\ exists ls, len ls = hc + 4 /\ Forall (fun l => 0 <= l < 8) ls /\ next p (mjoin (nbits 3 <$> ls)) /\
    code_ok (in_order ls) /\ complete (in_order ls) /\
    exists r, runs_read input size (in_order ls) (hl + 257 + (hd + 1)) [] (p + 3 * (hc + 4)) r /\ b = (r.1, hl + 257, hd + 1, r.2).
Lemma lengths_after_decides hl hd hc p : 0 <= hl < 32 -> 0 <= hd < 32 -> 0 <= hc < 16 -> 0 <= p <= 8 * size ->
  decides (let hlit := u32 (hl + 257) in let hdist := u32 (hd + 1) in let hclen := u32 (hc + 4) in
    if hlit >? LH_COMPRESS_DEFLATE_LITERAL_SYMBOLS then refuse else
    '(pos, code_lengths) ← order_loop (Z.to_nat hclen) input size p 0 (local 19);
    '(ok, code_counts, code_symbols) ← surely (lh_compress_deflate_try_build code_lengths 19 (local 16) (local 19));
    if negb ok then refuse else
    valid ← surely (lh_compress_deflate_is_tree_valid code_counts false false);
    if negb valid then refuse else
    let total := u32 (hlit + hdist) in
    '(pos, lengths) ← runs_loop (S (Z.to_nat total)) input size pos code_counts code_symbols total 0 (local 320);
    mret (pos, hlit, hdist, lengths)) (lengths_after hl hd hc p).
Proof using I.
  intros Hhl Hhd Hhc Hp. cbv zeta. rewrite (u32_id (hl + 257)), (u32_id (hd + 1)), (u32_id (hc + 4)), (u32_id (hl + 257 + _)) by zb.
  unfold LH_COMPRESS_DEFLATE_LITERAL_SYMBOLS. rewrite Z.gtb_ltb. destruct (Z.ltb_spec 286 (hl + 257)).
  { apply decides_refuse. intros b [? _]. lia. }
  set (R := fun cl p1 (b : Z * Z * Z * list Z) => code_ok cl /\ complete cl /\
    exists r, runs_read input size cl (hl + 257 + (hd + 1)) [] p1 r /\ b = (r.1, hl + 257, hd + 1, r.2)).
  apply (decides_ext _ (fun b => exists a : Z * list Z, (exists ls, length ls = Z.to_nat (hc + 4) /\ Forall (fun l => 0 <= l < 8) ls /\
    next p (mjoin (nbits 3 <$> ls)) /\ a.1 = p + 3 * Z.of_nat (Z.to_nat (hc + 4)) /\ a.2 = assigned (local 19) 0 ls) /\ R a.2 a.1 b)).
  { intros b. unfold lengths_after. split.
    - intros ([p1 cl] & (ls & Hl & HF & N & E1 & E2) & Hr). cbn [fst snd] in *. subst p1 cl. split; [lia|]. exists ls.
      rewrite Z2Nat.id in Hr by lia. split_and!; [lia|done|done|apply Hr..].
    - intros (_ & ls & Hl & HF & N & Hr). exists (p + 3 * (hc + 4), in_order ls). cbn [fst snd]. split; [|done].
      exists ls. rewrite Z2Nat.id by lia. split_and!; (done || lia). }
  apply (decides_bind _ _ _ (fun a b => R a.2 a.1 b)).
  { eapply decides_ext; [|apply (order_loop_decides input size I (Z.to_nat (hc + 4)) p 0 (local 19)); [lia..|done]]. by intros [? ?]. }
  intros [p1 cl] (ls & Hl & HF & N & E1 & E2). cbn [fst snd] in *. change (assigned (local 19) 0 ls) with (in_order ls) in E2. subst cl.
  pose proof (in_order_ok ls HF) as [Hlen Hb]. set (cl := in_order ls) in *.
  assert (Hlo : lengths_ok cl 19) by (split_and!; [done|lia|lia|lia]).
  assert (Ecl : take (Z.to_nat 19) cl = cl) by (apply take_ge; lia).
  destruct (try_build_spec cl 19 Hlo (local 16) (local 19)) as (ok & counts & syms & -> & _ & _ & Hok & HT); [rewrite length_local; lia|rewrite length_local; lia|].
  rewrite Ecl in Hok, HT. rewrite surely_done, bind_some. destruct ok; cbn [negb].
  2: { apply decides_refuse. intros b (Hco & _). by apply Hok in Hco. }
  specialize (HT eq_refl). pose proof HT as (Hco & _ & Hc & _).
  destruct (is_tree_valid_spec cl counts false false Hco ltac:(lia) Hc) as (v & -> & Hv). rewrite surely_done, bind_some.
  destruct v; cbn [negb].
  2: { apply decides_refuse. intros b (_ & Hcm & _). assert (false = true) by (apply Hv; by left). done. }
  assert (Hcm : complete cl) by (destruct (proj1 Hv eq_refl) as [?|[[? _]|[? _]]]; done).
  assert (Ep : next_bits input size p (mjoin (nbits 3 <$> ls))) by done. pose proof (next_end _ _ _ _ Ep) as Hpe.
  pose proof (length_threes ls) as Hj.
  apply (decides_ext _ (fun b => exists r, runs_read input size cl (hl + 257 + (hd + 1)) [] p1 r /\ b = (r.1, hl + 257, hd + 1, r.2))).
  { intros b. unfold R. tauto. }
  apply (decides_bind _ _ _ (fun r b => b = (r.1, hl + 257, hd + 1, r.2))).
  - pose proof (runs_loop_decides input size I cl counts syms HT (hl + 257 + (hd + 1)) ltac:(lia) ltac:(lia)
      (S (Z.to_nat (hl + 257 + (hd + 1)))) p1 []) as Hr. apply Hr; cbn [length]; lia.
  - intros [p2 a] _. apply decides_ret.
Qed.

Definition lengths_read (pos : Z) (b : Z * Z * Z * list Z) : Prop :=
  exists hl hd hc, (0 <= hl < 32 /\ 0 <= hd < 32 /\ 0 <= hc < 16) /\ next pos (nbits 5 hl ++ nbits 5 hd ++ nbits 4 hc) /\
    lengths_after hl hd hc (pos + 14) b.
Lemma read_lengths_decides pos : 0 <= pos <= 8 * size -> decides (read_lengths input size pos) (lengths_read pos).
Proof using I.
  intros Hp. unfold read_lengths.
  set (B := fun n p (a : Z * Z) => 0 <= a.2 < 2 ^ n /\ next p (nbits n a.2) /\ a.1 = p + n).
  apply (decides_ext _ (fun b => exists a1, B 5 pos a1 /\ exists a2, B 5 a1.1 a2 /\ exists a3, B 4 a2.1 a3 /\ lengths_after a1.2 a2.2 a3.2 a3.1 b)).
  { intros b. unfold B, lengths_read. split.
    - intros ([p1 hl] & (H1 & N1 & E1) & [p2 hd] & (H2 & N2 & E2) & [p3 hc] & (H3 & N3 & E3) & Ha). cbn [fst snd] in *. subst p1 p2 p3.
      exists hl, hd, hc. rewrite !next_bits_app, !length_nbits by lia. replace (pos + 14) with (pos + 5 + 5 + 4) by lia. done.
    - intros (hl & hd & hc & (H1 & H2 & H3) & N & Ha). rewrite !next_bits_app, !length_nbits in N by lia. destruct N as (N1 & N2 & N3).
      exists (pos + 5, hl). cbn [fst snd]. split; [done|]. exists (pos + 5 + 5, hd). cbn [fst snd]. split; [done|].
      exists (pos + 5 + 5 + 4, hc). cbn [fst snd]. split; [done|]. by replace (pos + 5 + 5 + 4) with (pos + 14) by lia. }
  assert (Hstep : forall n p, 0 <= n <= 32 -> 0 <= p <= 8 * size -> decides (lh_compress_deflate_try_bits input size p n) (B n p)).
  { intros n p Hn Hp'. eapply decides_ext; [|by apply (try_nbits_decides input size I p n)]. by intros [? ?]. }
  assert (Hend : forall n p a, 0 <= n -> B n p a -> 0 <= a.1 <= 8 * size).
  { intros n p a Hn (_ & N & E). pose proof (next_end _ _ _ _ N) as H. rewrite length_nbits in H by lia. lia. }
  apply (decides_bind _ _ (B 5 pos) (fun a1 b => exists a2, B 5 a1.1 a2 /\ exists a3, B 4 a2.1 a3 /\ lengths_after a1.2 a2.2 a3.2 a3.1 b)); [apply Hstep; lia|].
  intros a1 H1. pose proof (Hend 5 _ _ ltac:(lia) H1) as L1. destruct a1 as [p1 hl]. cbn [fst snd] in *.
  apply (decides_bind _ _ (B 5 p1) (fun a2 b => exists a3, B 4 a2.1 a3 /\ lengths_after hl a2.2 a3.2 a3.1 b)); [apply Hstep; lia|].
  intros a2 H2. pose proof (Hend 5 _ _ ltac:(lia) H2) as L2. destruct a2 as [p2 hd]. cbn [fst snd] in *.
  apply (decides_bind _ _ (B 4 p2) (fun a3 b => lengths_after hl hd a3.2 a3.1 b)); [apply Hstep; lia|].
  intros a3 H3. pose proof (Hend 4 _ _ ltac:(lia) H3) as L3. destruct a3 as [p3 hc]. cbn [fst snd] in *.
  destruct H1 as (R1 & _), H2 as (R2 & _), H3 as (R3 & _). apply lengths_after_decides; cbn [snd] in *; lia.
Qed.

(** The lengths of a dynamic block that can be decoded with. *)
Definition codes_valid (LL LD : list Z) : Prop :=
  length_of LL 256 <> 0 /\ code_ok LL /\ (complete LL \/ single LL) /\ code_ok LD /\ (complete LD \/ single LD \/ empty LD).
Lemma held_inj p q : held p = held q -> length p = length q -> p = q.
Proof using. unfold held. intros E El. apply app_inj_1 in E as [? _]; done. Qed.
Lemma header_lengths pos p LL LD : (exists w, dynamic_header w LL LD /\ next pos w /\ p = pos + len w) <->
  257 <= len LL <= 286 /\ 1 <= len LD <= 32 /\ lengths_read pos (p, len LL, len LD, held (LL ++ LD)) /\ codes_valid LL LD.
Proof using.
  split.
  - intros (w & H & N & ->). destruct H as [ls LL LD w HLL HLD Hls HF Hco Hcm Hr He Hl Hlv Hd Hdv].
    split_and!; try done; try lia. rewrite !next_bits_app, !length_nbits in N by lia. destruct N as (N1 & N2 & N3 & N4 & N5).
    exists (len LL - 257), (len LD - 1), (len ls - 4). rewrite !next_bits_app, !length_nbits by lia.
    split; [lia|]. split; [done|]. split; [lia|]. exists ls. split_and!; try done; try lia.
    { by replace (pos + 14) with (pos + 5 + 5 + 4) by lia. }
    replace (len LL - 257 + 257 + (len LD - 1 + 1)) with (len LL + len LD) by lia.
    rewrite length_threes in N5. eexists (pos + 14 + 3 * len ls + len w, held (LL ++ LD)). cbn [fst snd]. split.
    + exists w, (LL ++ LD). cbn [fst snd]. replace (pos + 14 + 3 * (len ls - 4 + 4)) with (pos + 5 + 5 + 4 + 3 * len ls) by lia.
      split_and!; try done; lia.
    + rewrite !length_app, !Nat2Z.inj_add, !length_nbits, length_threes by lia. apply (f_equal2 pair); [|done]. apply (f_equal2 pair); [|lia]. apply (f_equal2 pair); lia.
  - intros (HLL & HLD & (hl & hd & hc & Hrg & N & _ & ls & Hls & HF & N2 & Hco & Hcm & [p' a] & (w & q & Hr & N3 & Ep & Ea) & [= -> Ell Eld <-]) & (He & Hl & Hlv & Hd & Hdv)).
    cbn [fst snd] in *. pose proof (runs_total _ _ _ _ _ Hr) as Hq. apply held_inj in Ea; [|rewrite length_app; lia]. subst q p'.
    rewrite !next_bits_app, !length_nbits in N by lia. destruct N as (N0 & N1 & N4).
    eexists. split; [apply (dynamic_header_bits ls LL LD w); try done; try lia|].
    { by replace (len LL + len LD) with (hl + 257 + (hd + 1)) by lia. }
    replace (len LL - 257) with hl by lia. replace (len LD - 1) with hd by lia. replace (len ls - 4) with hc by lia.
    rewrite !next_bits_app, !length_app, !Nat2Z.inj_add, !length_nbits, length_threes by lia.
    replace (pos + 14) with (pos + 5 + 5 + 4) in * by lia. replace (3 * (hc + 4)) with (3 * len ls) in * by lia.
    split_and!; try done. lia.
Qed.
Lemma runs_bytes LC n p w q : is_bytes p -> runs_bits LC n p w q -> is_bytes q.
Proof using.
  intros Hp H. induction H as [|p l w w' q Hr Hl _ IH|p l k w w' q Hr Hla Hl _ IH|p r k w w' q Hr Hk Hl _ IH]; [done|apply IH..];
    apply Forall_app; (split; [done|]).
  - constructor; [|done]. inversion Hr as [? ? ? Hw| | |]; subst. destruct Hw. zb.
  - apply Forall_replicate. apply last_Some_elem_of in Hla. unfold is_bytes in Hp. rewrite Forall_forall in Hp. by apply Hp.
  - apply Forall_replicate. zb.
Qed.
End dynamic.

(** ** The trees of a block *)

(** An attempt that gives something that stands for the one thing there is. *)
Definition yields {A X} (m : attempt A) (S : X -> Prop) (V : X -> A -> Prop) : Prop :=
  exists r, m = Done r /\ match r with Some a => exists x, S x /\ V x a /\ forall y, S y -> y = x | None => forall x, ~ S x end.
Lemma holds_yield {A B X} cap (m : attempt A) (f : A -> writing B) out h (S : X -> Prop) V Q : holds cap out h ->
  yields m S V -> (forall a x, S x -> V x a -> verdict cap (f a) out (Q x)) ->
  verdict cap (a ← only m; f a) out (fun b h2 => exists x, S x /\ Q x b h2).
Proof.
  intros H (r & E & Hr) Hf. unfold mbind, writing_bind, only, verdict. rewrite E. destruct r as [a|].
  - destruct Hr as (x & Sx & Vx & Hu). destruct (Hf a x Sx Vx) as (out2 & r2 & E2 & El2 & Eb2 & Ed2 & Hs2 & Hc2). exists out2, r2. split_and!; try done.
    + intros b Hb. destruct (Hs2 b Hb) as [h' Hh']. by exists h', x.
    + intros b h' (y & Sy & HQ). apply Hu in Sy as ->. by apply Hc2.
  - destruct H as (Hb & _). exists out, None. split_and!; try done. intros b h' (x & Sx & _). by apply Hr in Sx.
Qed.

Lemma build_lit_spec lengths n t L : lengths_ok lengths n -> L = take (Z.to_nat n) lengths ->
  16 <= len (lit_counts t) -> n <= len (lit_symbols t) ->
  exists ok t', build_lit lengths n t = Done (ok, t') /\ (ok = true <-> code_ok L) /\
    (ok = true -> tables_ok L (lit_counts t') (lit_symbols t')) /\ dist_counts t' = dist_counts t /\ dist_symbols t' = dist_symbols t.
Proof.
  intros Hl -> Hc Hs. destruct (try_build_spec lengths n Hl _ _ Hc Hs) as (ok & c & s & E & _ & _ & Hok & HT).
  unfold build_lit. rewrite E, bind_done. by eexists _, _.
Qed.
Lemma build_dist_spec lengths n t L : lengths_ok lengths n -> L = take (Z.to_nat n) lengths ->
  16 <= len (dist_counts t) -> n <= len (dist_symbols t) ->
  exists ok t', build_dist lengths n t = Done (ok, t') /\ (ok = true <-> code_ok L) /\
    (ok = true -> tables_ok L (dist_counts t') (dist_symbols t')) /\ lit_counts t' = lit_counts t /\ lit_symbols t' = lit_symbols t.
Proof.
  intros Hl -> Hc Hs. destruct (try_build_spec lengths n Hl _ _ Hc Hs) as (ok & c & s & E & _ & _ & Hok & HT).
  unfold build_dist. rewrite E, bind_done. by eexists _, _.
Qed.
Lemma fixed_lengths_filled : lh_compress_deflate_fill_fixed_lengths (local LH_COMPRESS_DEFLATE_FIXED_LITERAL_CODES)
  (local LH_COMPRESS_DEFLATE_FIXED_DISTANCE_CODES) = Done (fixed_lit, fixed_dist).
Proof. by vm_compute. Qed.
Lemma fixed_codes_ok : code_ok fixed_lit /\ code_ok fixed_dist.
Proof.
  split; (split; [repeat constructor; lia|]); intros l Hl; do 16 (destruct l as [|l]; [by vm_compute|]); lia.
Qed.
Lemma fixed_lengths_ok : lengths_ok fixed_lit 288 /\ lengths_ok fixed_dist 32.
Proof. split; (split; [repeat constructor; zb|split; [cbn; lia|lia]]). Qed.

(** The code of a block, as far as it decides: the position behind it, and the lengths. *)
Definition tables_for (x : Z * list Z * list Z) (a : Z * trees) : Prop :=
  a.1 = x.1.1 /\ tables_ok x.1.2 (lit_counts a.2) (lit_symbols a.2) /\ tables_ok x.2 (dist_counts a.2) (dist_symbols a.2).

Section trees.
Context (input : buffer) (size : Z) (I : input_ok input size).
Notation next := (next_bits input size).

Definition block_codes (type pos : Z) (x : Z * list Z * list Z) : Prop :=
  if type =? 1 then x = (pos, fixed_lit, fixed_dist)
  else exists w, dynamic_header w x.1.2 x.2 /\ next pos w /\ x.1.1 = pos + len w.
Lemma fixed_trees : exists t, lh_compress_deflate_try_fixed fresh_trees = Done (true, t) /\
  tables_ok fixed_lit (lit_counts t) (lit_symbols t) /\ tables_ok fixed_dist (dist_counts t) (dist_symbols t).
Proof using.
  unfold lh_compress_deflate_try_fixed. rewrite fixed_lengths_filled, bind_done.
  destruct fixed_codes_ok as [C1 C2], fixed_lengths_ok as [L1 L2].
  destruct (build_lit_spec fixed_lit 288 fresh_trees fixed_lit L1) as (ok & t & E & Hok & HT & Ed1 & Ed2); [done|by vm_compute|by vm_compute|].
  change LH_COMPRESS_DEFLATE_FIXED_LITERAL_CODES with 288. rewrite E, bind_done. apply Hok in C1 as ->. cbn [negb].
  destruct (build_dist_spec fixed_dist 32 t fixed_dist L2) as (ok & t2 & E2 & Hok2 & HT2 & Ed3 & Ed4); [done|rewrite Ed1; by vm_compute|rewrite Ed2; by vm_compute|].
  change LH_COMPRESS_DEFLATE_FIXED_DISTANCE_CODES with 32. rewrite E2. apply Hok2 in C2 as ->. exists t2. rewrite Ed3, Ed4. split_and!; auto.
Qed.
Definition header_read (pos : Z) (x : Z * list Z * list Z) : Prop :=
  257 <= len x.1.2 <= 286 /\ 1 <= len x.2 <= 32 /\ lengths_read input size pos (x.1.1, len x.1.2, len x.2, held (x.1.2 ++ x.2)) /\ codes_valid x.1.2 x.2.
Lemma held_codes LL LD : is_bytes (LL ++ LD) -> 257 <= len LL <= 286 -> 1 <= len LD <= 32 ->
  load (held (LL ++ LD)) 256 = Done (length_of LL 256) /\
  lengths_ok (held (LL ++ LD)) (len LL) /\ take (Z.to_nat (len LL)) (held (LL ++ LD)) = LL /\
  lengths_ok (drop (Z.to_nat (len LL)) (held (LL ++ LD))) (len LD) /\ take (Z.to_nat (len LD)) (drop (Z.to_nat (len LL)) (held (LL ++ LD))) = LD.
Proof using.
  intros Hb HLL HLD. assert (Hlen : length (held (LL ++ LD)) = 320%nat) by (apply length_held; rewrite length_app; lia).
  assert (Hh : is_bytes (held (LL ++ LD))) by (apply Forall_app; split; [done|apply Forall_replicate; zb]).
  assert (Et : take (Z.to_nat (len LL)) (held (LL ++ LD)) = LL) by (unfold held; rewrite Nat2Z.id, <- app_assoc; by rewrite take_app_length).
  assert (Ed : drop (Z.to_nat (len LL)) (held (LL ++ LD)) = LD ++ replicate (320 - length (LL ++ LD)) 0) by (unfold held; rewrite Nat2Z.id, <- app_assoc; by rewrite drop_app_length).
  split_and!.
  - rewrite byte_at_load by lia. unfold length_of. f_equal. unfold held. rewrite <- app_assoc, byte_at_app_l by lia. done.
  - split_and!; (done || lia).
  - done.
  - split_and!; [by apply Forall_drop|lia|rewrite length_drop; lia|lia].
  - rewrite Ed, Nat2Z.id. by rewrite take_app_length.
Qed.
Lemma try_dynamic_spec pos : 0 <= pos <= 8 * size -> exists r t,
  lh_compress_deflate_try_dynamic input size pos fresh_trees = Done (r, t) /\
  match r with Some p => exists LL LD, header_read pos (p, LL, LD) /\ tables_for (p, LL, LD) (p, t)
  | None => forall x, ~ header_read pos x end.
Proof using I.
  intros Hp. unfold lh_compress_deflate_try_dynamic. destruct (read_lengths_decides input size I pos Hp) as (r & -> & Hr). rewrite bind_done.
  destruct r as [[[[p hlit] hdist] a]|].
  2: { eexists _, _. split; [done|]. intros x (_ & _ & Hx & _). by apply Hr in Hx. }
  assert (Hrd : lengths_read input size pos (p, hlit, hdist, a)) by by apply Hr.
  assert (Hf : forall x, header_read pos x -> hlit = len x.1.2 /\ hdist = len x.2 /\ a = held (x.1.2 ++ x.2)).
  { intros x (_ & _ & Hx & _). apply Hr in Hx. by injection Hx as -> -> -> ->. }
  assert (exists LL LD, 257 <= len LL <= 286 /\ 1 <= len LD <= 32 /\ is_bytes (LL ++ LD) /\ hlit = len LL /\ hdist = len LD /\ a = held (LL ++ LD))
    as (LL & LD & HLL & HLD & Hb & -> & -> & ->).
  { destruct Hrd as (hl & hd & hc & Hrg & _ & Hmax & ls & _ & _ & _ & _ & _ & [p' a'] & (w & q & Hruns & _ & _ & Ea) & [= -> -> -> ->]).
    pose proof (runs_total _ _ _ _ _ Hruns) as Hq. pose proof (runs_bytes _ _ _ _ _ (Forall_nil_2 _) Hruns) as Hb.
    exists (take (Z.to_nat (hl + 257)) q), (drop (Z.to_nat (hl + 257)) q). rewrite take_drop, length_take, length_drop. cbn [snd] in Ea. split_and!; (done || lia). }
  assert (Hx : forall x, header_read pos x -> x.1.2 = LL /\ x.2 = LD).
  { intros x Hx. destruct (Hf x Hx) as (E1 & E2 & E3). apply held_inj in E3; [|rewrite !length_app; lia]. apply app_inj_1 in E3 as [-> ->]; [done|lia]. }
  clear Hf. destruct (held_codes LL LD Hb HLL HLD) as (-> & L1 & T1 & L2 & T2). rewrite bind_done.
  assert (Hno : forall t : trees, ~ codes_valid LL LD -> exists r t', Done (None, t) = Done (r, t') /\
    match r with Some p => exists LL LD, header_read pos (p, LL, LD) /\ tables_for (p, LL, LD) (p, t') | None => forall x, ~ header_read pos x end).
  { intros t Hn. eexists _, _. split; [done|]. intros x Hx'. destruct (Hx x Hx') as [E1 E2]. destruct Hx' as (_ & _ & _ & Hv). by rewrite E1, E2 in Hv. }
  destruct (Z.eqb_spec (length_of LL 256) 0) as [H0|H0]; [by apply Hno; intros (? & _)|].
  destruct (build_lit_spec _ _ fresh_trees LL L1 (eq_sym T1)) as (ok & t1 & E1 & Ok1 & HT1 & Ed1 & Ed2); [by vm_compute|change (len LL <= 288); lia|].
  rewrite E1, bind_done. destruct ok; cbn [negb]; [|apply Hno; intros (_ & Hc & _); by apply Ok1 in Hc]. specialize (HT1 eq_refl).
  destruct (is_tree_valid_spec LL (lit_counts t1) true false) as (v & Ev & Hv); [apply HT1|lia|apply HT1|]. rewrite Ev, bind_done.
  destruct v; cbn [negb]; [|apply Hno; intros (_ & _ & Hc & _); assert (false = true) by (apply Hv; tauto); done].
  destruct (build_dist_spec _ _ t1 LD L2 (eq_sym T2)) as (ok & t2 & E2 & Ok2 & HT2 & Ed3 & Ed4); [rewrite Ed1; by vm_compute|rewrite Ed2; change (len LD <= 32); lia|].
  rewrite E2, bind_done. destruct ok; cbn [negb]; [|apply Hno; intros (_ & _ & _ & Hc & _); by apply Ok2 in Hc]. specialize (HT2 eq_refl).
  destruct (is_tree_valid_spec LD (dist_counts t2) true true) as (v & Ev2 & Hv2); [apply HT2|lia|apply HT2|]. rewrite Ev2, bind_done.
  destruct v; cbn [negb]; [|apply Hno; intros (_ & _ & _ & _ & Hc); assert (false = true) by (apply Hv2; tauto); done].
  eexists _, _. split; [done|]. exists LL, LD. split.
  - unfold header_read, codes_valid; cbn [fst snd]; split_and!; try done; try lia; [apply HT1| |apply HT2|].
    + destruct (proj1 Hv eq_refl) as [?|[[_ ?]|[? _]]]; [by left|by right|done].
    + destruct (proj1 Hv2 eq_refl) as [?|[[_ ?]|[_ ?]]]; auto.
  - split; [done|]. cbn [fst snd]. rewrite Ed3, Ed4. done.
Qed.
Lemma read_trees_yields type pos : 0 <= pos <= 8 * size -> yields (read_trees type input size pos) (block_codes type pos) tables_for.
Proof using I.
  intros Hp. unfold read_trees, block_codes, yields. destruct (type =? 1).
  - destruct fixed_trees as (t & -> & T1 & T2). exists (Some (pos, t)). split; [done|]. exists (pos, fixed_lit, fixed_dist). done.
  - destruct (try_dynamic_spec pos Hp) as (r & t & -> & Hr). rewrite surely_done, bind_some.
    assert (Hx : forall x, (exists w, dynamic_header w x.1.2 x.2 /\ next pos w /\ x.1.1 = pos + len w) <-> header_read pos x)
      by (intros x; apply (header_lengths input size)).
    destruct r as [p|]; eexists; (split; [done|]).
    + destruct Hr as (LL & LD & Hh & HT). exists (p, LL, LD). split_and!; [by apply Hx|done|]. intros [[p' LL'] LD'] Hy. apply Hx in Hy.
      destruct Hh as (HLL & HLD & Hl & _), Hy as (HLL' & HLD' & Hl' & _). cbn [fst snd] in *.
      destruct (read_lengths_decides input size I pos Hp) as (r & _ & Hr). apply Hr in Hl, Hl'. rewrite Hl in Hl'. injection Hl' as -> E1 E2 E3.
      apply held_inj in E3; [|rewrite !length_app; lia]. apply app_inj_1 in E3 as [-> ->]; [done|lia].
    + intros x Hx'. apply Hx in Hx'. by apply Hr in Hx'.
Qed.
End trees.

(** ** Blocks and streams *)

Section stream.
Context (input : buffer) (size : Z) (I : input_ok input size) (cap : Z).
Notation next := (next_bits input size).

(** What follows the three bits at the start of a block, by type. *)
Definition block_rest (type p : Z) (h : list Z) (b : Z * Z) (h' : list Z) : Prop :=
  if type =? 0 then exists pad bs, len pad = (- p) mod 8 /\ is_bytes bs /\ len bs < 65536 /\
    next p ((pad ++ nbits 16 (len bs) ++ nbits 16 (65535 - len bs)) ++ bytes_bits bs) /\
    b.1 = p + len pad + 32 + 8 * len bs /\ h' = h ++ bs /\ b.2 = len h' /\ len h' <= cap
  else type <= 2 /\ exists x, block_codes input size type p x /\ codes_read input size cap x.1.2 x.2 x.1.1 h b h'.
Lemma block_is_rest p w h h' : block p w h h' <->
  exists type w', 0 <= type < 4 /\ w = nbits 2 type ++ w' /\
    ((type = 0 /\ exists pad bs, len pad = (- (p + 2)) mod 8 /\ is_bytes bs /\ len bs < 65536 /\ h' = h ++ bs /\
       w' = (pad ++ nbits 16 (len bs) ++ nbits 16 (65535 - len bs)) ++ bytes_bits bs) \/
     (type = 1 /\ exists ts, tokens_bits fixed_lit fixed_dist ts w' /\ gives h ts h') \/
     (type = 2 /\ exists w1 LL LD ts w2, dynamic_header w1 LL LD /\ tokens_bits LL LD ts w2 /\ gives h ts h' /\ w' = w1 ++ w2)).
Proof using.
  split.
  - intros [pad bs h0 Hp Hb Hl|ts w0 h0 h1 Ht Hg|w1 LL LD ts w2 h0 h1 Hd Ht Hg].
    + eexists 0, _. split_and!; [lia|lia|reflexivity|]. left. split; [done|]. exists pad, bs. rewrite <- !app_assoc. done.
    + eexists 1, _. split_and!; [lia|lia|reflexivity|]. right. left. split; [done|]. by exists ts.
    + eexists 2, _. split_and!; [lia|lia|reflexivity|]. right. right. split; [done|]. by exists w1, LL, LD, ts, w2.
  - intros (type & w' & Ht & -> & [(-> & pad & bs & Hp & Hb & Hl & -> & ->)|[(-> & ts & Hts & Hg)|(-> & w1 & LL & LD & ts & w2 & Hd & Hts & Hg & ->)]]).
    + rewrite <- !app_assoc. change (nbits 2 0) with [false; false]. by constructor.
    + change (nbits 2 1) with [true; false]. by econstructor.
    + change (nbits 2 2) with [false; true]. by econstructor.
Qed.
Definition block_read (pos : Z) (h : list Z) (b : Z * Z * Z) (h' : list Z) : Prop :=
  exists f w, block (pos + 1) w h h' /\ next pos (f :: w) /\ b = (Z.b2z f, pos + 1 + len w, len h') /\ len h' <= cap.
Lemma rest_is_block p h b h' : 0 <= p ->
  (exists type, 0 <= type < 4 /\ next p (nbits 2 type) /\ block_rest type (p + 2) h b h') <->
  (exists w, block p w h h' /\ next p w /\ b = (p + len w, len h') /\ len h' <= cap).
Proof using.
  intros Hp. split.
  - intros (type & Ht & N & Hr). unfold block_rest in Hr. destruct (Z.eqb_spec type 0) as [->|H0].
    + destruct Hr as (pad & bs & Hpad & Hb & Hl & N2 & E1 & -> & E2 & Hc). eexists. split; [apply block_is_rest; exists 0; eexists; split_and!; [lia|lia|done|left; split; [done|]; exists pad, bs; done]|].
      rewrite next_bits_app, length_nbits by lia. split_and!; [done|done| |done].
      destruct b as [b1 b2]. cbn [fst snd] in *. subst. f_equal.
      rewrite !length_app, !Nat2Z.inj_add, !length_nbits, length_bytes_bits by lia. lia.
    + destruct Hr as (Ht2 & [[p1 LL] LD] & Hx & ts & w & Hts & N2 & E1 & Hg & E2 & Hc). unfold block_codes in Hx. cbn [fst snd] in *.
      destruct b as [b1 b2]. cbn [fst snd] in *. destruct (Z.eqb_spec type 1) as [->|H1].
      * injection Hx as -> -> ->. exists (nbits 2 1 ++ w). rewrite next_bits_app, length_app, Nat2Z.inj_add, !length_nbits by lia.
        split_and!; [|done|done|f_equal; lia|done]. apply block_is_rest. exists 1, w. split_and!; [lia|lia|done|]. right. left. split; [done|]. by exists ts.
      * assert (type = 2) as -> by lia. destruct Hx as (w1 & Hd & N1 & ->).
        exists (nbits 2 2 ++ w1 ++ w). rewrite !next_bits_app, !length_app, !Nat2Z.inj_add, !length_nbits by lia.
        split_and!; [|done|done|done|f_equal; lia|done]. apply block_is_rest. exists 2, (w1 ++ w). split_and!; [lia|lia|done|]. right. right. split; [done|]. by exists w1, LL, LD, ts, w.
  - intros (w & Hb & N & -> & Hc). apply block_is_rest in Hb as (type & w' & Ht & -> & Hr). rewrite next_bits_app, length_nbits in N by lia.
    destruct N as [N1 N2]. exists type. split_and!; [lia|lia|done|]. unfold block_rest.
    rewrite length_app, Nat2Z.inj_add, length_nbits by lia.
    destruct Hr as [(-> & pad & bs & Hp' & Hb & Hl & -> & ->)|[(-> & ts & Hts & Hg)|(-> & w1 & LL & LD & ts & w2 & Hd & Hts & Hg & ->)]]; cbn [Z.eqb fst snd].
    + exists pad, bs. split_and!; try done. rewrite !length_app, !Nat2Z.inj_add, !length_nbits, length_bytes_bits by lia. lia.
    + split; [lia|]. exists (p + 2, fixed_lit, fixed_dist). split; [done|]. exists ts, w'. cbn [fst snd]. split_and!; try done. lia.
    + split; [lia|]. exists (p + 2 + len w1, LL, LD). rewrite next_bits_app in N2. destruct N2 as [N2 N3]. rewrite length_app. split.
      * exists w1. done.
      * exists ts, w2. cbn [fst snd]. split_and!; try done. lia.
Qed.

Lemma decode_block_verdict pos h out : holds cap out h -> 0 <= pos <= 8 * size ->
  verdict cap (decode_block input size cap pos (len h)) out (block_read pos h).
Proof using I.
  intros H Hp. unfold decode_block. pose proof H as (Hb & _).
  set (B := fun n p (a : Z * Z) => 0 <= a.2 < 2 ^ n /\ next p (nbits n a.2) /\ a.1 = p + n).
  assert (Hstep : forall n p, 0 <= n <= 32 -> 0 <= p <= 8 * size -> decides (lh_compress_deflate_try_bits input size p n) (B n p)).
  { intros n p Hn Hp'. eapply decides_ext; [|by apply (try_nbits_decides input size I p n)]. by intros [? ?]. }
  assert (Hend : forall n p a, 0 <= n -> B n p a -> 0 <= a.1 <= 8 * size).
  { intros n p a Hn (_ & N & E). pose proof (next_end _ _ _ _ N) as Hne. rewrite length_nbits in Hne by lia. lia. }
  apply (verdict_ext _ _ _ (fun b h' => exists a1, B 1 pos a1 /\ exists a2, B 2 a1.1 a2 /\ exists q h1, block_rest a2.2 a2.1 h q h1 /\
    b = (a1.2, q.1, q.2) /\ h' = h1)).
  { intros b h'. unfold B, block_read. split.
    - intros ([p1 f] & (H1 & N1 & E1) & [p2 ty] & (H2 & N2 & E2) & q & h1 & Hr & -> & ->). cbn [fst snd] in *. subst p1 p2.
      destruct (proj1 (rest_is_block (pos + 1) h q h1 ltac:(lia))) as (w & Hw & N & -> & Hc); [exists ty; split_and!; [lia|lia|done|]; by rewrite <- Z.add_assoc in Hr |- *|].
      exists (Z.testbit f 0), w. change (Z.testbit f 0 :: w) with ([Z.testbit f 0] ++ w). rewrite next_bits_app. cbn [fst snd].
      assert (f = Z.b2z (Z.testbit f 0)) as Ef by (assert (f = 0 \/ f = 1) as [-> | ->] by lia; done). split_and!; try done. by rewrite <- Ef.
    - intros (f & w & Hw & N & -> & Hc). change (f :: w) with ([f] ++ w) in N. rewrite next_bits_app in N. destruct N as [N1 N2].
      destruct (proj2 (rest_is_block (pos + 1) h (pos + 1 + len w, len h') h' ltac:(lia))) as (ty & Hty & N3 & Hr); [by exists w|].
      exists (pos + 1, Z.b2z f). cbn [fst snd]. split; [split_and!; [by destruct f|by destruct f| |done]; by destruct f|].
      exists (pos + 1 + 2, ty). cbn [fst snd]. split; [done|]. by exists (pos + 1 + len w, len h'), h'. }
  apply (holds_read cap _ _ out h (B 1 pos) (fun a1 b h' => exists a2, B 2 a1.1 a2 /\ exists q h1, block_rest a2.2 a2.1 h q h1 /\
    b = (a1.2, q.1, q.2) /\ h' = h1) H); [apply Hstep; lia|].
  intros a1 H1. pose proof (Hend 1 _ _ ltac:(lia) H1) as L1. destruct a1 as [p1 f]. cbn [fst snd] in *.
  apply (holds_read cap _ _ out h (B 2 p1) (fun a2 b h' => exists q h1, block_rest a2.2 a2.1 h q h1 /\ b = (f, q.1, q.2) /\ h' = h1) H); [apply Hstep; lia|].
  intros a2 H2. pose proof (Hend 2 _ _ ltac:(lia) H2) as L2. destruct a2 as [p2 ty]. cbn [fst snd] in *.
  assert (Hpair : forall m : writing (Z * Z), verdict cap m out (block_rest ty p2 h) ->
    verdict cap ('(pos, used) ← m; mret (f, pos, used)) out (fun b h' => exists q h1, block_rest ty p2 h q h1 /\ b = (f, q.1, q.2) /\ h' = h1)).
  { intros m Hm. apply (holds_bind cap m _ out h (block_rest ty p2 h) (fun q h1 b h' => b = (f, q.1, q.2) /\ h' = h1) H Hm).
    - intros q h' Hr. unfold block_rest in Hr. case_match; [by destruct Hr as (? & ? & ? & ? & ? & ? & ? & ? & ? & ?)|].
      by destruct Hr as (_ & ? & _ & ? & ? & _ & _ & _ & _ & _ & ?).
    - intros q h1 h2 Hr1 Hr2. unfold block_rest in *. case_match.
      + destruct Hr1 as (? & ? & ? & ? & ? & ? & ? & ? & ? & ?), Hr2 as (? & ? & ? & ? & ? & ? & ? & ? & ? & ?). lia.
      + destruct Hr1 as (_ & ? & _ & ? & ? & _ & _ & _ & _ & ? & _), Hr2 as (_ & ? & _ & ? & ? & _ & _ & _ & _ & ? & _). lia.
    - intros [q1 q2] h1 out1 _ H' _. by apply holds_ret. }
  destruct H2 as (Hty & _). cbn [snd] in Hty. unfold block_rest in *. destruct (Z.eqb_spec ty 0) as [->|H0].
  - apply Hpair. by apply (try_stored_verdict input size I).
  - rewrite Z.gtb_ltb. destruct (Z.ltb_spec 2 ty) as [H3|H3].
    { apply verdict_refuse; [done|]. intros b h' (q & h1 & [? _] & _). lia. }
    apply (verdict_ext _ _ _ (fun b h' => exists x, block_codes input size ty p2 x /\ exists q h1, codes_read input size cap x.1.2 x.2 x.1.1 h q h1 /\ b = (f, q.1, q.2) /\ h' = h1)).
    { intros b h'. split; [intros (x & Hx & q & h1 & Hr & Hrest)|intros (q & h1 & (_ & x & Hx & Hr) & Hrest)].
      - exists q, h1. split_and!; try done; try apply Hrest. by exists x.
      - exists x. split; [done|]. by exists q, h1. }
    apply (holds_yield cap _ _ out h (block_codes input size ty p2) tables_for (fun x b h' => exists q h1, codes_read input size cap x.1.2 x.2 x.1.1 h q h1 /\ b = (f, q.1, q.2) /\ h' = h1) H); [by apply read_trees_yields|].
    intros [p3 t] [[p3' LL] LD] Hx (E3 & TL & TD). cbn [fst snd] in *. subst p3'.
    assert (Hp3 : 0 <= p3 <= 8 * size).
    { unfold block_codes in Hx. cbn [fst snd] in Hx. destruct (ty =? 1); [injection Hx as -> _ _; lia|]. destruct Hx as (w & _ & N & ->). apply (next_end _ _ _ _ N). }
    apply (holds_bind cap _ _ out h (codes_read input size cap LL LD p3 h) (fun q h1 b h' => b = (f, q.1, q.2) /\ h' = h1) H).
    + apply (codes_loop_verdict input size I cap LL LD t TL TD); [done|lia|lia].
    + by intros q h' (? & ? & _ & _ & _ & _ & _ & ?).
    + intros q h1 h2 (? & ? & _ & _ & _ & _ & ? & _) (? & ? & _ & _ & _ & _ & ? & _). lia.
    + intros [q1 q2] h1 out1 _ H' _. by apply holds_ret.
Qed.

Lemma block_length p w h h' : block p w h h' -> len h <= len h'.
Proof using.
  intros [pad bs h0 _ _ _|ts w0 h0 h1 Ht Hg|w1 LL LD ts w2 h0 h1 _ Ht Hg]; [rewrite length_app; lia|..];
    (eapply gives_length; [by eapply tokens_positive|done]).
Qed.
Lemma stream_length p w h h' : stream p w h h' -> len h <= len h'.
Proof using. induction 1 as [p w h h' Hb|p w w' h h1 h' Hb _ IH]; apply block_length in Hb; lia. Qed.
Definition stream_read (pos : Z) (h : list Z) (b : Z * Z) (h' : list Z) : Prop :=
  exists w, stream pos w h h' /\ next pos w /\ b = (pos + len w, len h') /\ len h' <= cap.
Lemma stream_read_split pos h b h' : stream_read pos h b h' <->
  exists a h1, block_read pos h a h1 /\ if a.1.1 =? 0 then stream_read a.1.2 h1 b h' else b = (a.1.2, a.2) /\ h' = h1.
Proof using.
  split.
  - intros (w & Hs & N & -> & Hc). inversion Hs as [p w0 h0 h1 Hb|p w1 w2 h0 h1 h2 Hb Hs2]; subst.
    + exists (1, pos + 1 + len w0, len h'), h'. split; [by exists true, w0|]. cbn [fst snd Z.eqb length]. split; [f_equal; lia|done].
    + change (false :: w1 ++ w2) with ((false :: w1) ++ w2) in N. rewrite next_bits_app in N. destruct N as [N1 N2].
      exists (0, pos + 1 + len w1, len h1), h1. pose proof (stream_length _ _ _ _ Hs2). split.
      * exists false, w1. split_and!; try done. lia.
      * cbn [fst snd Z.eqb]. exists w2. cbn [length] in *. replace (pos + 1 + len w1) with (pos + Z.of_nat (S (length w1))) by lia.
        split_and!; [by replace (pos + Z.of_nat (S (length w1))) with (pos + 1 + len w1) by lia|done| |done]. rewrite length_app. f_equal. lia.
  - intros (a & h1 & (f & w & Hb & N & -> & Hc) & Hr). cbn [fst snd] in Hr. destruct f; cbn [Z.b2z Z.eqb] in Hr.
    + destruct Hr as [-> ->]. exists (true :: w). split_and!; [by constructor|done|cbn [length]; f_equal; lia|done].
    + destruct Hr as (w' & Hs & N' & -> & Hc'). exists (false :: w ++ w'). change (false :: w ++ w') with ((false :: w) ++ w').
      rewrite next_bits_app. cbn [length] in *. replace (pos + Z.of_nat (S (length w))) with (pos + 1 + len w) by lia.
      split_and!; [by econstructor|done|done| |done]. rewrite length_app. cbn [length]. f_equal. lia.
Qed.
Lemma blocks_loop_verdict fuel : forall pos h out, holds cap out h -> 0 <= pos <= 8 * size -> 8 * size - pos < Z.of_nat fuel ->
  verdict cap (blocks_loop fuel input size cap pos (len h)) out (stream_read pos h).
Proof using I.
  induction fuel as [|fuel IH]; intros pos h out H Hp Hf; [lia|]. cbn [blocks_loop].
  eapply verdict_ext; [intros b h'; symmetry; apply stream_read_split|].
  apply (holds_bind cap _ _ out h (block_read pos h) (fun a h1 b h' => if a.1.1 =? 0 then stream_read a.1.2 h1 b h' else b = (a.1.2, a.2) /\ h' = h1) H).
  - by apply decode_block_verdict.
  - by intros a h' (? & ? & _ & _ & _ & ?).
  - intros a h1 h2 (? & ? & _ & _ & -> & _) (? & ? & _ & _ & E & _). injection E as _ _ E. lia.
  - intros a h1 out1 (f & w & _ & N & -> & _) H' _. cbn [fst snd]. pose proof (next_end _ _ _ _ N) as He. cbn [length] in He.
    destruct f; cbn [Z.b2z Z.eqb]; [by apply holds_ret|]. apply IH; [done|lia|lia].
Qed.
End stream.

(** ** The fixed codes *)

Lemma fixed_word s : 0 <= s < 288 -> is_word fixed_lit s (codeword fixed_lit s).
Proof.
  intros Hs. split; [exact Hs|]. split; [|done].
  assert (H : forallb (fun s => 0 <? length_of fixed_lit s) (seqZ 0 288) = true) by by vm_compute.
  rewrite forallb_forall in H. apply Z.ltb_lt, H, list_elem_of_In, elem_of_seqZ. lia.
Qed.
Lemma fixed_distance_word s : 0 <= s < 32 -> is_word fixed_dist s (codeword fixed_dist s).
Proof.
  intros Hs. split; [exact Hs|]. split; [|done].
  assert (H : forallb (fun s => 0 <? length_of fixed_dist s) (seqZ 0 32) = true) by by vm_compute.
  rewrite forallb_forall in H. apply Z.ltb_lt, H, list_elem_of_In, elem_of_seqZ. lia.
Qed.
(** A literal and a match, for the witness. *)
Lemma seven_as : exists w, stream 0 w [] (replicate 7 97) /\ w = bits [75; 132; 0; 0] 0 (len w) /\ len w = 30.
Proof.
  eexists. split.
  - apply stream_last. eapply (fixed_block _ [Literal 97; Match (length_base 3 + num []) (distance_base 0 + num [])]).
    + eapply tokens_next; [apply literal_bits; [lia|apply fixed_word; lia]|].
      eapply tokens_next; [eapply (match_bits _ _ 3 _ [] 0 _ []); [lia|apply fixed_word; lia|done|lia|apply fixed_distance_word; lia|done]|].
      apply tokens_end, fixed_word. lia.
    + apply gives_literal. apply gives_match; [by vm_compute|by vm_compute|]. vm_compute. apply gives_end.
  - by vm_compute.
Qed.

Lemma try_decode_verdict input size out cap : input_ok input size -> holds cap out [] ->
  verdict cap (lh_compress_deflate_try_decode input size cap) out
    (fun b h => exists w, stream 0 w [] h /\ next_bits input size 0 w /\ b = ((len w + 7) / 8, len h) /\ len h <= cap).
Proof.
  intros I H. pose proof I as (_ & Hs & Hm).
  eapply verdict_ext; [|apply (holds_bind cap _ _ out [] (stream_read input size cap 0 []) (fun q h1 b h2 => b = (u64 (q.1 + 7) / 8, q.2) /\ h2 = h1) H)].
  - intros b h'. split.
    + intros (q & h1 & (w & Hst & N & -> & Hc) & -> & ->). exists w. pose proof (next_end _ _ _ _ N). cbn [fst snd]. by rewrite u64_id by zb.
    + intros (w & Hst & N & -> & Hc). exists (0 + len w, len h'), h'. pose proof (next_end _ _ _ _ N). cbn [fst snd]. rewrite u64_id by zb.
      split; [by exists w|done].
  - apply (blocks_loop_verdict input size I cap (S (Z.to_nat (8 * size))) 0 [] out H); lia.
  - by intros q h' (w & _ & _ & _ & ?).
  - intros q h1 h2 (w1 & _ & _ & -> & _) (w2 & _ & _ & E & _). injection E as _ E. lia.
  - intros [p u] h1 out1 _ H' _. by apply holds_ret.
Qed.

(** Claim C14: the decoder of DEFLATE decides the format.  On any input and for any output array the
    call returns; it never writes beyond the capacity it is given, nor changes the size of the
    array.  It accepts exactly when the input starts with a stream of the format (any number of
    stored, fixed and dynamic blocks, the last one marked) whose data fits the capacity, and
    then the data is in the output, its size and the number of input bytes that the stream
    touches are returned. *)
Theorem inflate_is_standard input size out cap :
  input_ok input size -> is_bytes out -> 0 <= cap <= len out -> cap < 2 ^ 63 ->
  exists out' r, lh_compress_deflate_try_decode input size cap out = Done (out', r) /\
    length out' = length out /\ is_bytes out' /\ drop (Z.to_nat cap) out' = drop (Z.to_nat cap) out /\
    (r <> None <-> exists w h, stream 0 w [] h /\ next_bits input size 0 w /\ len h <= cap) /\
    (forall w h, stream 0 w [] h -> next_bits input size 0 w -> len h <= cap ->
      r = Some ((len w + 7) / 8, len h) /\ take (length h) out' = h).
Proof.
  intros I Hb Hc H63. assert (H : holds cap out []) by (split_and!; (done || (cbn [length]; lia))).
  destruct (try_decode_verdict input size out cap I H) as (out' & r & E & El & Eb & Ed & Hsound & Hcomp).
  exists out', r. split_and!; try done.
  - split.
    + destruct r as [b|]; [|done]. intros _. destruct (Hsound b eq_refl) as (h & w & Hst & N & _ & Hh). by exists w, h.
    + intros (w & h & Hst & N & Hh). destruct (Hcomp ((len w + 7) / 8, len h) h) as [-> _]; [by exists w|done].
  - intros w h Hst N Hh. apply Hcomp. by exists w.
Qed.
Lemma inflate_is_standard_witness : exists out' r,
  lh_compress_deflate_try_decode [75; 132; 0; 0] 4 10 (local 12) = Done (out', r) /\ r = Some (4, 7) /\ take 7 out' = replicate 7 97.
Proof.
  destruct (inflate_is_standard [75; 132; 0; 0] 4 (local 12) 10) as (out' & r & E & _ & _ & _ & _ & Hr).
  - split; [repeat constructor; zb|cbn [length]; lia].
  - repeat constructor; zb.
  - rewrite length_local; lia.
  - lia.
  - exists out', r. split; [exact E|]. destruct seven_as as (w & Hs & Hw & Hl).
    destruct (Hr w (replicate 7 97) Hs) as [-> Ht]; [|rewrite length_replicate; lia|].
    + split_and!; [lia|rewrite Hl; lia|by rewrite <- Hw].
    + split; [by rewrite Hl|exact Ht].
Defined.
