(* ===== verification/DeflateProofs.v ===== *)
(** * DEFLATE: the encoder writes the format

    What the encoder writes is a stream of [DeflateSpec] that gives the input, never longer
    than the bound it promises, so that it decodes to the input ([deflate_roundtrip]). *)
From S2P Require Import Prelude Buffer Bytes Swar Memory MemoryProofs Block BlockProofs Deflate HuffmanProofs DeflateSpec PutProofs InflateProofs.

(** ** Lengths and distances *)

Lemma length_index_spec n : 3 <= n <= 258 -> let i := lh_compress_deflate_get_length_index n in
  0 <= i < 29 /\ length_base i <= n < length_base i + 2 ^ length_extra i.
Proof.
  intros Hn i. assert (H : forallb (fun n => let i := lh_compress_deflate_get_length_index n in
    (0 <=? i) && (i <? 29) && (length_base i <=? n) && (n <? length_base i + 2 ^ length_extra i)) (seqZ 3 256) = true) by by vm_compute.
  rewrite forallb_forall in H. specialize (H n ltac:(apply list_elem_of_In, elem_of_seqZ; lia)). cbv zeta in H. fold i in H. lia.
Qed.
Lemma scan_log2 x : 0 < x < 2 ^ 32 -> lh_bit_scan_reverse_u32 x = Z.log2 x.
Proof.
  intros Hx. unfold lh_bit_scan_reverse_u32. pose proof (Z.log2_nonneg x). assert (Z.log2 x < 32) by (apply Z.log2_lt_pow2; lia).
  rewrite <- (Z2Nat.id (Z.log2 x)) at 1 by lia. change 31 with (Z.of_nat 31). apply scan_reverse_spec; [|intros j Hj|lia|lia].
  - rewrite Z2Nat.id by lia. apply Z.bit_log2. lia.
  - apply Z.bits_above_log2; lia.
Qed.
(** The distances whose offset has a given highest bit and a given bit below it. *)
Lemma distance_formulas : forallb (fun top => forallb (fun b =>
  (distance_base (2 * top + b) =? 1 + (2 + b) * 2 ^ (top - 1)) && (distance_extra (2 * top + b) =? top - 1)) [0; 1]) (seqZ 2 13) = true.
Proof. by vm_compute. Qed.
Lemma distance_code_spec d : 1 <= d <= 32768 -> let j := lh_compress_deflate_get_distance_code d in
  0 <= j < 30 /\ distance_base j <= d < distance_base j + 2 ^ distance_extra j.
Proof.
  intros Hd. cbv zeta. unfold lh_compress_deflate_get_distance_code. rewrite (u32_id (d - 1)) by zb. set (x := d - 1) in *.
  match goal with |- 0 <= ?e < 30 /\ _ => set (j := e) end.
  destruct (Z.ltb_spec x 4) as [H4|H4].
  { assert (j = x) as -> by done.
    assert (x = 0 \/ x = 1 \/ x = 2 \/ x = 3) as Hx by (unfold x in *; lia).
    destruct Hx as [E|[E|[E|E]]]; rewrite E; (replace d with (x + 1) by (unfold x; lia)); rewrite E; by vm_compute. }
  set (top := Z.log2 x). assert (Ht : 2 <= top <= 14).
  { unfold top. split; [apply (Z.log2_le_pow2 x 2); lia|]. enough (Z.log2 x < 15) by lia. apply Z.log2_lt_pow2; unfold x; lia. }
  pose proof (Z.log2_spec x ltac:(unfold x in *; lia)) as Hlog. fold top in Hlog.
  set (p := 2 ^ (top - 1)). assert (Hp : 0 < p) by (apply Z.pow_pos_nonneg; lia).
  assert (E1 : 2 ^ top = 2 * p) by (unfold p; rewrite <- Z.pow_succ_r by lia; f_equal; lia).
  assert (E2 : 2 ^ Z.succ top = 4 * p) by (rewrite Z.pow_succ_r by lia; lia).
  set (b := x / p - 2). assert (Hb : 0 <= b <= 1).
  { unfold b. split; [enough (2 <= x / p) by lia; apply Z.div_le_lower_bound; lia|enough (x / p < 4) by lia; apply Z.div_lt_upper_bound; lia]. }
  assert (Ej : j = 2 * top + b).
  { unfold j. rewrite scan_log2 by (unfold x in *; zb). fold top. rewrite Z.shiftr_div_pow2 by (rewrite u32_id by zb; lia).
    rewrite (u32_id (top - 1)), (u32_id (top * 2)) by zb. fold p. change 1 with (Z.ones 1). rewrite Z.land_ones by lia. change (2 ^ 1) with 2.
    assert ((x / p) mod 2 = b) as -> by (unfold b; destruct (decide (x / p = 2)) as [->|]; [done|]; assert (x / p = 3) as -> by lia; done).
    rewrite u32_id by zb. lia. }
  pose proof distance_formulas as HF. rewrite forallb_forall in HF. specialize (HF top ltac:(apply list_elem_of_In, elem_of_seqZ; lia)).
  cbv beta in HF. rewrite forallb_forall in HF. specialize (HF b). cbv beta in HF. rewrite <- Ej in HF. fold p in HF.
  assert (Hin : In b [0; 1]) by (cbn; lia). specialize (HF Hin). apply andb_true_iff in HF as [F1%Z.eqb_eq F2%Z.eqb_eq].
  rewrite F1, F2. assert (Hq : x / p = 2 + b) by (unfold b; lia). clearbody b. split; [lia|].
  pose proof (Z.div_mod x p ltac:(lia)) as Hdm. pose proof (Z.mod_pos_bound x p Hp). rewrite Hq in Hdm. fold p. unfold x in *. lia.
Qed.

(** ** Tokens as they are written *)

(** What the encoder puts into its tokens. *)
Definition token_ok (t : token) : Prop :=
  match t with Literal b => is_u8 b | Match n d => 3 <= n <= 258 /\ 1 <= d <= 32768 end.
Definition token_word (t : token) : list bool :=
  match t with
  | Literal b => codeword fixed_lit b
  | Match n d =>
    let i := lh_compress_deflate_get_length_index n in
    let j := lh_compress_deflate_get_distance_code d in
    codeword fixed_lit (257 + i) ++ nbits (length_extra i) (n - length_base i) ++
    codeword fixed_dist j ++ nbits (distance_extra j) (d - distance_base j)
  end.
Definition tokens_word (ts : list token) : list bool := mjoin (token_word <$> ts) ++ codeword fixed_lit 256.

Lemma token_word_bits t : token_ok t -> token_bits fixed_lit fixed_dist t (token_word t).
Proof.
  destruct t as [b|n d]; cbn [token_ok token_word].
  - intros Hb. apply literal_bits; [zb|]. apply fixed_word. zb.
  - intros [Hn Hd]. destruct (length_index_spec n Hn) as [Hi Hin]. destruct (distance_code_spec d Hd) as [Hj Hjd].
    set (i := lh_compress_deflate_get_length_index n) in *. set (j := lh_compress_deflate_get_distance_code d) in *.
    pose proof (length_ranges i Hi). pose proof (distance_ranges j Hj).
    replace n with (length_base i + num (nbits (length_extra i) (n - length_base i))) at 1 by (rewrite nbits_small; lia).
    replace d with (distance_base j + num (nbits (distance_extra j) (d - distance_base j))) at 1 by (rewrite nbits_small; lia).
    apply match_bits; [lia|apply fixed_word; lia|apply length_nbits; lia|lia|apply fixed_distance_word; lia|apply length_nbits; lia].
Qed.
Lemma tokens_word_bits ts : Forall token_ok ts -> tokens_bits fixed_lit fixed_dist ts (tokens_word ts).
Proof.
  induction 1 as [|t ts Ht _ IH]; [apply tokens_end, fixed_word; lia|].
  change (tokens_word (t :: ts)) with ((token_word t ++ mjoin (token_word <$> ts)) ++ codeword fixed_lit 256).
  rewrite <- app_assoc. apply tokens_next; [by apply token_word_bits|done].
Qed.

Section put.
Context (cap : Z) (Hcap : 0 <= cap /\ 8 * cap < 2 ^ 63).
Context (c : coder) (CL : codes_for fixed_lit (lit_codes c) (lit_lengths c)) (CD : codes_for fixed_dist (dist_codes c) (dist_lengths c)).

Lemma put_literal_emits pos s : 0 <= s < 288 -> 0 <= pos <= 8 * cap ->
  emits cap (lh_compress_deflate_try_put_symbol cap pos (lit_codes c) (lit_lengths c) s) pos (codeword fixed_lit s).
Proof using Hcap CL.
  intros Hs Hp. destruct (fixed_word s Hs) as (Hr & Hl & _). by apply put_symbol_emits.
Qed.
Lemma put_match_emits pos n d : 3 <= n <= 258 -> 1 <= d <= 32768 -> 0 <= pos <= 8 * cap ->
  emits cap (lh_compress_deflate_try_put_match cap pos c n d) pos (token_word (Match n d)).
Proof using Hcap CL CD.
  intros Hn Hd Hp. unfold lh_compress_deflate_try_put_match, LH_COMPRESS_DEFLATE_MATCHER_MIN_MATCH, LH_COMPRESS_DEFLATE_MATCHER_MAX_MATCH,
    LH_COMPRESS_DEFLATE_WINDOW_SIZE, LH_COMPRESS_DEFLATE_FIRST_LENGTH_SYMBOL. rewrite !Z.gtb_ltb.
  rewrite (proj2 (Z.ltb_ge n 3)), (proj2 (Z.ltb_ge 258 n)), (proj2 (Z.eqb_neq d 0)), (proj2 (Z.ltb_ge _ d)) by lia. cbn [orb token_word].
  destruct (length_index_spec n Hn) as [Hi Hin]. destruct (distance_code_spec d Hd) as [Hj Hjd].
  set (i := lh_compress_deflate_get_length_index n) in *. set (j := lh_compress_deflate_get_distance_code d) in *.
  pose proof (length_ranges i Hi). pose proof (distance_ranges j Hj). cbv zeta. rewrite (u32_id (i + 257)) by zb. rewrite (Z.add_comm i 257).
  apply emits_bind; [lia|by apply put_literal_emits; lia|]. intros H1.
  destruct (length_table i Hi) as [-> ->]. do 2 apply emits_only. rewrite (u32_id (n - _)) by zb.
  apply emits_bind; [lia|apply put_bits_emits; (done || lia)|]. intros H2.
  destruct (fixed_distance_word j ltac:(lia)) as (Hr & Hl & _).
  apply emits_bind; [lia|apply put_symbol_emits; (done || lia)|]. intros H3.
  destruct (distance_table j Hj) as [-> ->]. do 2 apply emits_only. rewrite (u32_id (d - _)) by zb.
  apply put_bits_emits; (done || lia).
Qed.
End put.

(** ** Stored blocks *)

Definition stored_word (pos : Z) (final : bool) (bs : list Z) : list bool :=
  let pad := (- (pos + 3)) mod 8 in
  [final; false; false] ++ nbits pad 0 ++ nbits 16 (len bs) ++ nbits 16 (65535 - len bs) ++ bytes_bits bs.

Lemma bytes_bits_at bs i : 0 <= i < 8 * len bs -> nth (Z.to_nat i) (bytes_bits bs) false = bit_at bs i.
Proof.
  intros Hi. rewrite nth_lookup. unfold bytes_bits, bits. rewrite list_lookup_fmap, lookup_seqZ_lt by lia. cbn. by rewrite Z2Nat.id by lia.
Qed.
(** Bytes copied to a byte's boundary. *)
Lemma copy_emits cap pos input n : 0 <= cap /\ 8 * cap < 2 ^ 63 -> is_bytes input -> 0 <= n <= len input -> n <= 65535 -> pos mod 8 = 0 -> 0 <= pos <= 8 * cap ->
  emits cap (if n >? u64 (cap - pos / 8) then only refuse else
    _ ← (if negb (n =? 0) then store (fun output => copy_bytes output (pos / 8) input n) else mret tt);
    mret (u64 (pos + u64 (n * 8)))) pos (bytes_bits (take (Z.to_nat n) input)).
Proof.
  intros Hcap Hb Hn Hn2 Hal Hp out Ho Hc. rewrite length_bytes_bits, length_take. rewrite (u64_id (cap - _)), (u64_id (n * 8)), (u64_id (pos + _)) by zdm.
  rewrite Z.gtb_ltb. replace (Z.of_nat (Z.to_nat n `min` length input)) with n by lia.
  destruct (Z.ltb_spec (cap - pos / 8) n) as [H1|H1]; [rewrite (proj2 (Z.leb_gt _ _)) by zdm; by exists out|].
  rewrite (proj2 (Z.leb_le _ _)) by zdm. replace (pos + n * 8) with (pos + 8 * n) by lia.
  destruct (Z.eqb_spec n 0) as [->|Hn0]; cbn [negb].
  { exists out. split; [done|]. by apply written_nil. }
  destruct (copy_done out (pos / 8) input n) as (out' & E); [zdm..|]. unfold mbind, writing_bind, store. rewrite E. exists out'. split; [done|].
  destruct (copy_byte_at _ _ _ _ _ E) as [El Eb]. split_and!; [lia|exact (copy_is_bytes _ _ _ _ _ Ho Hb E)|].
  intros i Hi. rewrite length_bytes_bits, length_take. replace (Z.of_nat (Z.to_nat n `min` length input)) with n by lia.
  unfold bit_at at 1. rewrite Eb by zdm.
  destruct (Z.leb_spec pos i) as [H2|H2], (Z.ltb_spec i (pos + 8 * n)) as [H3|H3]; cbn [andb].
  - rewrite (proj2 (Z.leb_le _ _)), (proj2 (Z.ltb_lt _ _)) by zdm. cbn [andb].
    rewrite bytes_bits_at by (rewrite length_take; lia). unfold bit_at. rewrite byte_at_take by zdm. f_equal; [f_equal; zdm|zdm].
  - rewrite (proj2 (Z.ltb_ge (i / 8) _)) by zdm. by rewrite andb_false_r.
  - rewrite (proj2 (Z.leb_gt _ (i / 8))) by zdm. done.
  - lia.
Qed.
Lemma stored_emits cap pos input n final : 0 <= cap /\ 8 * cap < 2 ^ 63 -> is_bytes input -> 0 <= n <= len input -> n <= 65535 -> 0 <= pos <= 8 * cap ->
  emits cap (lh_compress_deflate_try_put_stored input n final cap pos) pos (stored_word pos final (take (Z.to_nat n) input)).
Proof.
  intros Hcap Hb Hn Hn2 Hp. unfold lh_compress_deflate_try_put_stored, LH_COMPRESS_DEFLATE_STORED_MAX, stored_word.
  rewrite Z.gtb_ltb, (proj2 (Z.ltb_ge _ _)) by lia. rewrite (u32_id n) by zb. cbv zeta.
  assert (El : len (take (Z.to_nat n) input) = n) by (rewrite length_take; lia). rewrite El.
  replace [final; false; false] with (nbits 3 (if final then 1 else 0)) by by destruct final.
  pose proof (Z.mod_pos_bound (- (pos + 3)) 8 ltac:(lia)).
  apply emits_bind; [lia|apply put_bits_emits; (done || (destruct final; lia))|]. rewrite length_nbits by lia. intros H1.
  rewrite pad_bits_spec by lia. apply emits_bind; [lia|apply put_bits_emits; (done || lia)|]. rewrite length_nbits by lia. intros H2.
  apply emits_bind; [lia|apply put_bits_emits; (done || lia)|]. rewrite length_nbits by lia. intros H3.
  assert (Ex : Z.lxor n 65535 = 65535 - n).
  { rewrite <- (proj2 (complement_spec n (65535 - n) ltac:(lia) ltac:(lia)) eq_refl) at 1. rewrite <- Z.lxor_assoc, Z.lxor_nilpotent. apply Z.lxor_0_l. }
  rewrite Ex. apply emits_bind; [lia|apply put_bits_emits; (done || lia)|]. rewrite length_nbits by lia. intros H4.
  apply copy_emits; (done || zdm).
Qed.
Lemma stored_word_block pos final bs h : is_bytes bs -> len bs < 65536 ->
  exists w, stored_word pos final bs = final :: w /\ block (pos + 1) w h (h ++ bs).
Proof.
  intros Hb Hl. eexists. split; [reflexivity|]. apply stored_block; [|done|done].
  replace (pos + 1 + 2) with (pos + 3) by lia. apply length_nbits. apply Z.mod_pos_bound. lia.
Qed.
Lemma length_stored_word pos final bs : len (stored_word pos final bs) = 35 + (- (pos + 3)) mod 8 + 8 * len bs.
Proof.
  unfold stored_word. pose proof (Z.mod_pos_bound (- (pos + 3)) 8 ltac:(lia)).
  rewrite !length_app, !Nat2Z.inj_add, !length_nbits, length_bytes_bits by lia. cbn [length]. lia.
Qed.

(** ** The array of tokens *)

Definition token_value (t : token) : Z := match t with Literal b => b | Match n _ => n - 3 end.
Definition token_distance (t : token) : Z := match t with Literal _ => 0 | Match _ d => d end.
(** The arrays have room for all and hold the tokens [ts]. *)
Definition tokens_hold (self : lh_compress_deflate_tokens_t) (ts : list token) : Prop :=
  len (values self) = 16384 /\ len (distances self) = 16384 /\ count self = len ts /\ len ts <= 16384 /\ Forall token_ok ts /\
  forall i t, ts !! i = Some t -> byte_at (values self) (Z.of_nat i) = token_value t /\ byte_at (distances self) (Z.of_nat i) = token_distance t.

Definition tokens_room (self : lh_compress_deflate_tokens_t) : Prop := len (values self) = 16384 /\ len (distances self) = 16384.
Lemma tokens_hold_room self ts : tokens_hold self ts -> tokens_room self.
Proof. by intros (Hv & Hd & _). Qed.
Lemma tokens_reset_hold self : tokens_room self -> tokens_hold (lh_compress_deflate_tokens_reset self) [].
Proof. intros (Hv & Hd). split_and!; done. Qed.
Lemma tokens_full self ts : tokens_hold self ts -> lh_compress_deflate_tokens_is_full self = (16384 <=? len ts).
Proof. intros (_ & _ & Hc & _). unfold lh_compress_deflate_tokens_is_full, lh_compress_deflate_tokens_get_count. by rewrite Hc, Z.geb_leb. Qed.
Lemma push_token_hold self ts t : tokens_hold self ts -> len ts < 16384 -> token_ok t -> exists self',
  push_token self (token_value t) (token_distance t) = Done self' /\ tokens_hold self' (ts ++ [t]).
Proof.
  intros (Hv & Hd & Hc & Hl & HF & Ha) Hlt Ht. unfold push_token, lh_compress_deflate_tokens_get_count. rewrite Hc.
  rewrite !put_ok, !bind_done by lia. eexists. split; [done|]. unfold lh_compress_deflate_tokens_set_count. cbn [values distances count].
  rewrite u64_id by zb. split_and!; cbn [values distances count]; rewrite ?length_insert, ?length_app; cbn [length]; try lia.
  - apply Forall_app. split; [done|by constructor].
  - intros i x Hx. rewrite !byte_at_put by lia. apply lookup_app_Some in Hx as [Hx|[Hi Hx]].
    + pose proof (lookup_lt_Some _ _ _ Hx). rewrite !decide_False by lia. by apply Ha.
    + apply list_lookup_singleton_Some in Hx as [H0 <-]. rewrite !decide_True by lia. done.
Qed.
Lemma push_literal_hold self ts b : tokens_hold self ts -> len ts < 16384 -> is_u8 b -> exists self',
  lh_compress_deflate_tokens_push_literal self b = Done self' /\ tokens_hold self' (ts ++ [Literal b]).
Proof.
  intros H Hl Hb. destruct (push_token_hold self ts (Literal b) H Hl Hb) as (self' & E & H').
  unfold lh_compress_deflate_tokens_push_literal, lh_compress_deflate_tokens_try_push_literal, must.
  rewrite (tokens_full self ts H), (proj2 (Z.leb_gt _ _)) by done. cbn [token_value token_distance] in E. rewrite E. by exists self'.
Qed.
Lemma push_match_hold self ts n d : tokens_hold self ts -> len ts < 16384 -> 3 <= n <= 258 -> 1 <= d <= 32768 -> exists self',
  lh_compress_deflate_tokens_push_match self (u32 n) (u32 d) = Done self' /\ tokens_hold self' (ts ++ [Match n d]).
Proof.
  intros H Hl Hn Hd. destruct (push_token_hold self ts (Match n d) H Hl (conj Hn Hd)) as (self' & E & H').
  unfold lh_compress_deflate_tokens_push_match, lh_compress_deflate_tokens_try_push_match, must.
  rewrite (tokens_full self ts H), (proj2 (Z.leb_gt _ _)) by done. rewrite (u32_id n), (u32_id d), !Z.gtb_ltb by zb.
  unfold LH_COMPRESS_DEFLATE_MATCHER_MIN_MATCH, LH_COMPRESS_DEFLATE_MATCHER_MAX_MATCH, LH_COMPRESS_DEFLATE_WINDOW_SIZE.
  rewrite (proj2 (Z.ltb_ge n 3)), (proj2 (Z.ltb_ge 258 n)), (proj2 (Z.eqb_neq d 0)), (proj2 (Z.ltb_ge _ d)) by lia. cbn [orb].
  cbn [token_value token_distance] in E. rewrite u8_id, u16_id, E by zb. by exists self'.
Qed.
(** What the accessors give. *)
Lemma token_at self ts i t : tokens_hold self ts -> ts !! i = Some t -> token_ok t /\
  load (values self) (Z.of_nat i) = Done (token_value t) /\ load (distances self) (Z.of_nat i) = Done (token_distance t).
Proof.
  intros (Hv & Hd & Hc & Hl & HF & Ha) Hi. pose proof (lookup_lt_Some _ _ _ Hi). destruct (Ha i t Hi) as [E1 E2].
  rewrite !byte_at_load, E1, E2 by lia. split; [|done]. by eapply Forall_lookup_1.
Qed.

Lemma put_tokens_loop_emits cap c self ts n : 0 <= cap /\ 8 * cap < 2 ^ 63 ->
  codes_for fixed_lit (lit_codes c) (lit_lengths c) -> codes_for fixed_dist (dist_codes c) (dist_lengths c) -> tokens_hold self ts ->
  forall pos i, (i + n = length ts)%nat -> 0 <= pos <= 8 * cap ->
  emits cap (put_tokens_loop n self c cap pos (Z.of_nat i)) pos (mjoin (token_word <$> drop i ts)).
Proof.
  intros Hcap CL CD H. induction n as [|n IH]; intros pos i Hi Hp; cbn [put_tokens_loop].
  - rewrite drop_ge by lia. by apply emits_ret.
  - destruct (lookup_lt_is_Some_2 ts i ltac:(lia)) as [t Ht]. destruct (token_at self ts i t H Ht) as (Hok & Ev & Ed).
    rewrite (drop_S _ _ _ Ht). change (mjoin (token_word <$> t :: drop (S i) ts)) with (token_word t ++ mjoin (token_word <$> drop (S i) ts)).
    unfold lh_compress_deflate_tokens_is_literal, lh_compress_deflate_tokens_get_literal, lh_compress_deflate_tokens_get_length,
      lh_compress_deflate_tokens_get_distance, lh_compress_deflate_tokens_get_distances, lh_compress_deflate_tokens_get_values.
    rewrite Ev, Ed. rewrite !bind_done. apply emits_only.
    apply emits_bind; [lia| |intros Hp2; replace (Z.of_nat i + 1) with (Z.of_nat (S i)) by lia; apply IH; lia].
    destruct t as [b|n' d]; cbn [token_distance token_value token_ok] in *.
    + rewrite Z.eqb_refl. apply emits_only. apply put_literal_emits; (done || zb).
    + rewrite (proj2 (Z.eqb_neq d 0)) by lia. do 2 apply emits_only. unfold LH_COMPRESS_DEFLATE_MATCHER_MIN_MATCH.
      rewrite (u32_id (n' - 3 + 3)) by zb. replace (n' - 3 + 3) with n' by lia. apply put_match_emits; (done || lia).
Qed.
Lemma put_tokens_emits cap c self ts pos : 0 <= cap /\ 8 * cap < 2 ^ 63 ->
  codes_for fixed_lit (lit_codes c) (lit_lengths c) -> codes_for fixed_dist (dist_codes c) (dist_lengths c) -> tokens_hold self ts ->
  0 <= pos <= 8 * cap -> emits cap (lh_compress_deflate_try_put_tokens self c cap pos) pos (tokens_word ts).
Proof.
  intros Hcap CL CD H Hp. unfold lh_compress_deflate_try_put_tokens, lh_compress_deflate_tokens_get_count, tokens_word.
  pose proof H as (_ & _ & -> & _). rewrite Nat2Z.id.
  apply emits_bind; [lia| |intros Hp2; apply put_literal_emits; (done || (unfold LH_COMPRESS_DEFLATE_END_OF_BLOCK; lia))].
  replace (mjoin (token_word <$> ts)) with (mjoin (token_word <$> drop 0 ts)) by done. by apply (put_tokens_loop_emits cap c self ts (length ts)).
Qed.

(** ** The cost of the fixed codes *)

Lemma sum_below_next f i : 0 <= i -> sum_below f (i + 1) = sum_below f i + f i.
Proof.
  intros Hi. unfold sum_below. rewrite seqZ_app by lia. rewrite foldr_app. change (seqZ (0 + i) 1) with [0 + i]. cbn [foldr].
  rewrite Z.add_0_l. induction (seqZ 0 i) as [|x l IH]; cbn [foldr]; lia.
Qed.
Lemma sum_below_ext f g n : (forall i, 0 <= i < n -> f i = g i) -> sum_below f n = sum_below g n.
Proof.
  intros H. destruct (decide (0 <= n)) as [Hn|]; [|unfold sum_below; by rewrite !seqZ_nil by lia].
  revert H. pattern n. apply natlike_ind; [done| |done]. intros k Hk IH H. unfold Z.succ. rewrite !sum_below_next by lia.
  rewrite IH by (intros; apply H; lia). rewrite H by lia. done.
Qed.
Lemma sum_below_range f n m : 0 <= n -> (forall i, 0 <= i < n -> 0 <= f i <= m) -> 0 <= sum_below f n <= m * n.
Proof.
  intros Hn H. revert n Hn H. refine (natlike_ind _ _ _); [intros _; change (sum_below f 0) with 0; lia|].
  intros k Hk IH H. unfold Z.succ in *. rewrite sum_below_next by lia. pose proof (H k ltac:(lia)).
  assert (IH' : 0 <= sum_below f k <= m * k) by (apply IH; intros; apply H; lia). lia.
Qed.
(** The symbols of a table of counts, at given costs. *)
Definition total (freq : list Z) (cost : Z -> Z) : Z := sum_below (fun s => byte_at freq s * cost s) (len freq).
Lemma total_put freq cost i v : 0 <= i < len freq ->
  total (<[Z.to_nat i := v]> freq) cost = total freq cost + (v - byte_at freq i) * cost i.
Proof.
  intros Hi. unfold total. rewrite length_insert.
  enough (H : forall n, 0 <= n -> n <= len freq -> sum_below (fun s => byte_at (<[Z.to_nat i := v]> freq) s * cost s) n =
    sum_below (fun s => byte_at freq s * cost s) n + if i <? n then (v - byte_at freq i) * cost i else 0).
  { rewrite H by lia. by rewrite (proj2 (Z.ltb_lt _ _)) by lia. }
  intros n Hn. pattern n. apply natlike_ind; [|intros k Hk IH Hkl|done].
  { intros _. rewrite (proj2 (Z.ltb_ge _ _)) by lia. done. }
  unfold Z.succ in *. rewrite !sum_below_next, IH, byte_at_put by lia.
  destruct (decide (k = i)) as [->|Hne].
  - rewrite (proj2 (Z.ltb_ge i i)), (proj2 (Z.ltb_lt i (i + 1))) by lia. lia.
  - destruct (Z.ltb_spec i k), (Z.ltb_spec i (k + 1)); lia.
Qed.
Definition lit_cost (s : Z) : Z := length_of fixed_lit s + (if s >=? 257 then length_extra (s - 257) else 0).
Definition dist_cost (j : Z) : Z := length_of fixed_dist j + distance_extra j.
Lemma costs_range : (forall s, 0 <= s < 286 -> 0 <= lit_cost s <= 20) /\ (forall j, 0 <= j < 30 -> 0 <= dist_cost j <= 20).
Proof.
  split; intros s Hs.
  - assert (H : forallb (fun s => (0 <=? lit_cost s) && (lit_cost s <=? 20)) (seqZ 0 286) = true) by by vm_compute.
    rewrite forallb_forall in H. specialize (H s ltac:(apply list_elem_of_In, elem_of_seqZ; lia)). lia.
  - assert (H : forallb (fun s => (0 <=? dist_cost s) && (dist_cost s <=? 20)) (seqZ 0 30) = true) by by vm_compute.
    rewrite forallb_forall in H. specialize (H s ltac:(apply list_elem_of_In, elem_of_seqZ; lia)). lia.
Qed.
Lemma length_fixed_word s : 0 <= s < 288 -> len (codeword fixed_lit s) = length_of fixed_lit s.
Proof. intros Hs. by apply length_codeword; [apply fixed_codes_ok|]. Qed.
Lemma length_token_word t : token_ok t -> len (token_word t) =
  match t with Literal b => lit_cost b
  | Match n d => lit_cost (257 + lh_compress_deflate_get_length_index n) + dist_cost (lh_compress_deflate_get_distance_code d) end.
Proof.
  destruct t as [b|n d]; cbn [token_ok token_word].
  - intros Hb. rewrite length_fixed_word by zb. unfold lit_cost. rewrite Z.geb_leb, (proj2 (Z.leb_gt _ _)) by zb. lia.
  - intros [Hn Hd]. destruct (length_index_spec n Hn) as [Hi Hin]. destruct (distance_code_spec d Hd) as [Hj Hjd].
    set (i := lh_compress_deflate_get_length_index n) in *. set (j := lh_compress_deflate_get_distance_code d) in *.
    pose proof (length_ranges i Hi). pose proof (distance_ranges j Hj). unfold lit_cost, dist_cost.
    rewrite !length_app, !Nat2Z.inj_add, !length_nbits, length_fixed_word by lia.
    rewrite (length_codeword fixed_dist j) by (by apply fixed_codes_ok || (change (len fixed_dist) with 32; lia)).
    rewrite Z.geb_leb, (proj2 (Z.leb_le _ _)) by lia. replace (257 + i - 257) with i by lia. lia.
Qed.

(** Counts of at most [m] for [n] symbols. *)
Definition counts_up_to (n m : Z) (freq : list Z) : Prop := len freq = n /\ forall s, 0 <= s -> 0 <= byte_at freq s <= m.
Lemma tally_spec freq n m i : counts_up_to n m freq -> 0 <= m < 2 ^ 32 -> 0 <= i < n -> exists freq',
  tally freq i = Done freq' /\ counts_up_to n (m + 1) freq' /\ (forall cost, total freq' cost = total freq cost + cost i) /\
  forall j, 0 <= j -> j <> i -> byte_at freq' j = byte_at freq j.
Proof.
  intros [Hl Hb] Hm Hi. unfold tally. pose proof (Hb i ltac:(lia)). rewrite byte_at_load, bind_done, put_ok by lia. rewrite u64_id by zb.
  eexists. split; [done|]. split_and!.
  - split; [by rewrite length_insert|]. intros s Hs. rewrite byte_at_put by lia. pose proof (Hb s Hs). destruct (decide _); lia.
  - intros cost. rewrite total_put by lia. lia.
  - intros j Hj Hne. rewrite byte_at_put by lia. by rewrite decide_False.
Qed.
Lemma total_zero n cost : total (replicate n 0) cost = 0.
Proof.
  unfold total. rewrite (sum_below_ext _ (fun _ => 0)).
  - pose proof (sum_below_range (fun _ => 0) (len (replicate n 0)) 0 ltac:(lia) ltac:(intros; lia)). lia.
  - intros i Hi. rewrite length_replicate in Hi. rewrite byte_at_replicate by lia. lia.
Qed.
Lemma clear_local n : 0 <= n -> clear (local n) n = Done (local n).
Proof.
  intros Hn. unfold clear. rewrite length_local by done. rewrite (proj2 (Z.leb_le _ _)), (proj2 (Z.leb_le _ _)) by lia. cbn [andb].
  unfold local. by rewrite drop_ge, app_nil_r by (rewrite length_replicate; lia).
Qed.
Lemma mjoin_take_next ts i t : ts !! i = Some t -> len (mjoin (token_word <$> take (S i) ts)) = len (mjoin (token_word <$> take i ts)) + len (token_word t).
Proof.
  intros Ht. rewrite (take_S_r _ _ _ Ht), fmap_app, join_app, length_app. change (mjoin (token_word <$> [t])) with (token_word t ++ []). rewrite app_nil_r. lia.
Qed.
Lemma count_symbols_spec self ts : tokens_hold self ts -> exists lf df,
  lh_compress_deflate_count_symbols self (local LH_COMPRESS_DEFLATE_LITERAL_SYMBOLS) (local LH_COMPRESS_DEFLATE_DISTANCE_SYMBOLS) = Done (lf, df) /\
  counts_up_to 286 16385 lf /\ counts_up_to 30 16385 df /\ total lf lit_cost + total df dist_cost = len (tokens_word ts).
Proof.
  intros H. pose proof H as (_ & _ & Hc & Hl & HF & _). unfold lh_compress_deflate_count_symbols, lh_compress_deflate_tokens_get_count,
    LH_COMPRESS_DEFLATE_LITERAL_SYMBOLS, LH_COMPRESS_DEFLATE_DISTANCE_SYMBOLS. rewrite !clear_local, !bind_done by lia.
  set (P := fun i '(lf, df) => counts_up_to 286 i lf /\ counts_up_to 30 i df /\ byte_at lf 256 = 0 /\
    total lf lit_cost + total df dist_cost = len (mjoin (token_word <$> take (Z.to_nat i) ts))).
  match goal with |- context [for_up 0 ?n ?body ?a] => destruct (for_up_rule P 0 n body a) as ([lf df] & E & Hlf & Hdf & H0 & Ht) end.
  - lia.
  - assert (Hz : forall n, 0 <= n -> counts_up_to n 0 (local n)).
    { intros n Hn. split; [by apply length_local|]. intros s Hs. unfold local. destruct (decide (s < n)); [rewrite byte_at_replicate by lia; lia|].
      rewrite byte_at_out by (rewrite length_replicate; lia). lia. }
    split_and!; [apply Hz; lia|apply Hz; lia|done|]. unfold local. by rewrite !total_zero.
  - intros i [lf df] Hi (Hlf & Hdf & H0 & Ht). cbv beta iota. rewrite Hc in Hi.
    destruct (lookup_lt_is_Some_2 ts (Z.to_nat i) ltac:(lia)) as [t Hti]. destruct (token_at self ts _ t H Hti) as (Hok & Ev & Ed).
    rewrite Z2Nat.id in Ev, Ed by lia. pose proof (mjoin_take_next ts _ t Hti) as Hnext.
    replace (S (Z.to_nat i)) with (Z.to_nat (i + 1)) in Hnext by lia. rewrite (length_token_word t Hok) in Hnext.
    unfold lh_compress_deflate_tokens_is_literal, lh_compress_deflate_tokens_get_literal, lh_compress_deflate_tokens_get_length,
      lh_compress_deflate_tokens_get_distance, lh_compress_deflate_tokens_get_distances, lh_compress_deflate_tokens_get_values.
    rewrite Ev, Ed, !bind_done. assert (Hup : forall n f, counts_up_to n i f -> counts_up_to n (i + 1) f).
    { intros n f [Hn Hf]. split; [done|]. intros s Hs. specialize (Hf s Hs). lia. }
    destruct t as [b|n d]; cbn [token_value token_distance token_ok] in *.
    + rewrite Z.eqb_refl. destruct (tally_spec lf 286 i b Hlf ltac:(lia) ltac:(zb)) as (lf' & E & Hlf' & Htl & Hne). rewrite E, bind_done.
      eexists. split; [done|]. split_and!; [done|by apply Hup|rewrite Hne by zb; done|rewrite Htl; lia].
    + destruct Hok as [Hn Hd]. rewrite (proj2 (Z.eqb_neq d 0)) by lia. unfold LH_COMPRESS_DEFLATE_MATCHER_MIN_MATCH, LH_COMPRESS_DEFLATE_FIRST_LENGTH_SYMBOL.
      rewrite (u32_id (n - 3 + 3)) by zb. replace (n - 3 + 3) with n by lia.
      destruct (length_index_spec n Hn) as [Hli _]. destruct (distance_code_spec d Hd) as [Hdj _]. rewrite (u32_id (_ + 257)) by zb.
      rewrite (Z.add_comm _ 257). destruct (tally_spec lf 286 i (257 + lh_compress_deflate_get_length_index n) Hlf ltac:(lia) ltac:(lia)) as (lf' & E & Hlf' & Htl & Hne).
      rewrite E, !bind_done. destruct (tally_spec df 30 i _ Hdf ltac:(lia) Hdj) as (df' & E' & Hdf' & Htd & _). rewrite E', bind_done.
      eexists. split; [done|]. split_and!; [done|done|rewrite Hne by lia; done|rewrite Htl, Htd; lia].
  - rewrite E, bind_done. destruct Hlf as [Ll Hlf]. unfold LH_COMPRESS_DEFLATE_END_OF_BLOCK. rewrite put_ok, bind_done by lia. eexists _, _. split; [done|].
    rewrite Hc, Nat2Z.id in *. rewrite take_ge in Ht by lia. split_and!.
    + split; [by rewrite length_insert|]. intros s Hs. rewrite byte_at_put by lia. specialize (Hlf s Hs). destruct (decide _); lia.
    + destruct Hdf as [? Hdf]. split; [done|]. intros s Hs. specialize (Hdf s Hs). lia.
    + rewrite total_put, H0 by lia. unfold tokens_word. rewrite length_app, Nat2Z.inj_add, length_fixed_word by lia. change (length_of fixed_lit 256) with 7.
      change (lit_cost 256) with 7. lia.
Qed.
Lemma total_partial freq cost n m : counts_up_to n m freq -> (forall s, 0 <= s < n -> 0 <= cost s <= 20) -> 0 <= m ->
  forall i, 0 <= i <= n -> 0 <= sum_below (fun s => byte_at freq s * cost s) i <= 20 * m * i.
Proof.
  intros [Hl Hb] Hcost Hm i Hi. apply sum_below_range; [lia|]. intros s Hs. specialize (Hb s ltac:(lia)). specialize (Hcost s ltac:(lia)). nia.
Qed.
Lemma codes_cost_spec lf df : counts_up_to 286 16385 lf -> counts_up_to 30 16385 df ->
  lh_compress_deflate_get_codes_cost fixed_lit fixed_dist lf df = Done (total lf lit_cost + total df dist_cost) /\
  0 <= total lf lit_cost + total df dist_cost < 2 ^ 40.
Proof.
  intros Hlf Hdf. destruct costs_range as [Hlc Hdc].
  pose proof (total_partial lf lit_cost _ _ Hlf Hlc ltac:(lia)) as Hpl. pose proof (total_partial df dist_cost _ _ Hdf Hdc ltac:(lia)) as Hpd.
  unfold total. pose proof Hlf as [Ll Bl]. pose proof Hdf as [Ld Bd]. rewrite Ll, Ld. pose proof (Hpl 286 ltac:(lia)). pose proof (Hpd 30 ltac:(lia)). split; [|lia].
  unfold lh_compress_deflate_get_codes_cost, LH_COMPRESS_DEFLATE_LITERAL_SYMBOLS, LH_COMPRESS_DEFLATE_DISTANCE_SYMBOLS, LH_COMPRESS_DEFLATE_FIRST_LENGTH_SYMBOL.
  match goal with |- context [for_up 0 286 ?body 0] => destruct (for_up_rule (fun i b => b = sum_below (fun s => byte_at lf s * lit_cost s) i) 0 286 body 0) as (b & -> & Hbl) end.
  - lia.
  - done.
  - intros s bits Hs ->. cbv beta. rewrite (byte_at_load fixed_lit), bind_done by (change (len fixed_lit) with 288; lia). fold (length_of fixed_lit s).
    assert (E : (if s >=? 257 then extra ← lh_compress_deflate_get_length_extra (u32 (s - 257)); mret (u32 (length_of fixed_lit s + extra)) else mret (length_of fixed_lit s)) = Done (lit_cost s)).
    { unfold lit_cost. specialize (Hlc s Hs). unfold lit_cost in Hlc. rewrite Z.geb_leb in *. destruct (Z.leb_spec 257 s); [|by rewrite Z.add_0_r].
      rewrite u32_id by zb. destruct (length_table (s - 257) ltac:(lia)) as [_ ->]. rewrite bind_done. by rewrite u32_id by zb. }
    rewrite E, bind_done, (byte_at_load lf), bind_done by lia. eexists. split; [done|]. rewrite sum_below_next by lia.
    specialize (Hlc s Hs). specialize (Bl s ltac:(lia)). pose proof (Hpl s ltac:(lia)).
    assert (0 <= byte_at lf s * lit_cost s <= 16385 * 20) by nia. rewrite (u64_id (_ * _)) by zb. by rewrite u64_id by zb.
  - rewrite bind_done, Hbl.
    match goal with |- for_up 0 30 ?body ?a = _ => destruct (for_up_rule (fun i b => b = a + sum_below (fun s => byte_at df s * dist_cost s) i) 0 30 body a) as (b' & -> & ->) end; [lia|by rewrite Z.add_0_r| |done].
    intros s bits Hs ->. cbv beta. rewrite (byte_at_load fixed_dist), bind_done by (change (len fixed_dist) with 32; lia). fold (length_of fixed_dist s).
    destruct (distance_table s Hs) as [_ ->]. rewrite bind_done, (byte_at_load df), bind_done by lia. eexists. split; [done|]. rewrite sum_below_next by lia.
    specialize (Hdc s Hs). specialize (Bd s ltac:(lia)). pose proof (Hpd s ltac:(lia)). change (length_of fixed_dist s + distance_extra s) with (dist_cost s).
    assert (0 <= byte_at df s * dist_cost s <= 16385 * 20) by nia.
    rewrite (u32_id (dist_cost s)) by zb. rewrite (u64_id (_ * _)) by zb. rewrite u64_id by zb. lia.
Qed.

(** ** Blocks *)

Lemma fixed_coder_spec : exists c, fixed_coder fixed_lit fixed_dist = Done c /\
  codes_for fixed_lit (lit_codes c) (lit_lengths c) /\ codes_for fixed_dist (dist_codes c) (dist_lengths c).
Proof.
  destruct fixed_codes_ok as [C1 C2], fixed_lengths_ok as [L1 L2]. unfold fixed_coder, lh_compress_deflate_codes.
  change LH_COMPRESS_DEFLATE_FIXED_LITERAL_CODES with 288. change LH_COMPRESS_DEFLATE_FIXED_DISTANCE_CODES with 32.
  destruct (try_codes_spec fixed_lit 288 L1 C1 (local 288)) as (lc & E1 & Ll & Hl); [lia|rewrite length_local; lia|].
  destruct (try_codes_spec fixed_dist 32 L2 C2 (local 32)) as (dc & E2 & Ld & Hd); [lia|rewrite length_local; lia|].
  rewrite E1, !bind_done, E2, !bind_done. eexists. split; [done|]. cbn [lit_codes lit_lengths dist_codes dist_lengths].
  split; (split_and!; [done|done|rewrite ?Ll, ?Ld; done|]); intros i Hi; (split; [done|]); intros Hp; [apply Hl|apply Hd]; done.
Qed.
Lemma stored_cost_spec n pos : 0 <= n <= 65535 -> 0 <= pos < 2 ^ 63 ->
  lh_compress_deflate_get_stored_cost n pos = 35 + (- (pos + 3)) mod 8 + 8 * n.
Proof.
  intros Hn Hp. unfold lh_compress_deflate_get_stored_cost. rewrite (u64_id (pos + 3)) by zb. rewrite pad_bits_spec by lia. cbv zeta.
  pose proof (Z.mod_pos_bound (- (pos + 3)) 8 ltac:(lia)). cint. lia.
Qed.
(** A block's bits, no more than a stored block has, that take the data [h] on to [h ++ bs]. *)
Definition block_word (pos : Z) (final : bool) (h bs : list Z) (w : list bool) : Prop :=
  (exists w', w = final :: w' /\ block (pos + 1) w' h (h ++ bs)) /\ len w <= 35 + (- (pos + 3)) mod 8 + 8 * len bs.
Lemma put_block_emits cap self ts input n final pos h : 0 <= cap /\ 8 * cap < 2 ^ 63 -> tokens_hold self ts ->
  is_bytes input -> 0 <= n <= len input -> n <= 65535 -> 0 <= pos <= 8 * cap -> gives h ts (h ++ take (Z.to_nat n) input) ->
  exists w, block_word pos final h (take (Z.to_nat n) input) w /\
    emits cap (lh_compress_deflate_try_put_block self input n final cap pos) pos w.
Proof.
  intros Hcap H Hb Hn Hn2 Hp Hg. pose proof H as (_ & _ & _ & _ & HF & _).
  destruct (count_symbols_spec self ts H) as (lf & df & Ec & Hlf & Hdf & Ht). destruct (codes_cost_spec lf df Hlf Hdf) as [Ek Hk].
  destruct fixed_coder_spec as (c & Ef & CL & CD). assert (El : len (take (Z.to_nat n) input) = n) by (rewrite length_take; lia).
  unfold lh_compress_deflate_try_put_block, LH_COMPRESS_DEFLATE_STORED_MAX. rewrite Z.gtb_ltb, (proj2 (Z.ltb_ge _ n)) by lia.
  assert (Hext : forall m w, emits cap (if lh_compress_deflate_get_stored_cost n pos <? u64 (3 + (total lf lit_cost + total df dist_cost)) then
      lh_compress_deflate_try_put_stored input n final cap pos else m fixed_lit fixed_dist) pos w ->
    emits cap ('(lit_lengths, dist_lengths) ← only (surely (lh_compress_deflate_fill_fixed_lengths
        (local LH_COMPRESS_DEFLATE_FIXED_LITERAL_CODES) (local LH_COMPRESS_DEFLATE_FIXED_DISTANCE_CODES)));
      '(lit_freq, dist_freq) ← only (surely (lh_compress_deflate_count_symbols self
        (local LH_COMPRESS_DEFLATE_LITERAL_SYMBOLS) (local LH_COMPRESS_DEFLATE_DISTANCE_SYMBOLS)));
      cost ← only (surely (lh_compress_deflate_get_codes_cost lit_lengths dist_lengths lit_freq dist_freq));
      let fixed := u64 (3 + cost) in
      if lh_compress_deflate_get_stored_cost n pos <? fixed then lh_compress_deflate_try_put_stored input n final cap pos else
      m lit_lengths dist_lengths) pos w).
  { intros m w Hw. rewrite fixed_lengths_filled. apply emits_only. rewrite Ec. apply emits_only. rewrite Ek. by apply emits_only. }
  pose proof (stored_cost_spec n pos ltac:(lia) ltac:(lia)) as Esc.
  specialize (Hext (fun lit_lengths dist_lengths => c ← only (surely (fixed_coder lit_lengths dist_lengths));
        pos ← lh_compress_deflate_try_put_bits cap pos 3 (if final then 3 else 2); lh_compress_deflate_try_put_tokens self c cap pos)).
  destruct (Z.ltb_spec (35 + (- (pos + 3)) mod 8 + 8 * n) (3 + (total lf lit_cost + total df dist_cost))) as [Hs|Hs].
  - exists (stored_word pos final (take (Z.to_nat n) input)). split; [|apply Hext; rewrite Esc, u64_id, (proj2 (Z.ltb_lt _ _)) by zb; by apply stored_emits].
    split; [|rewrite length_stored_word; lia]. apply stored_word_block; [by apply Forall_take|lia].
  - exists (nbits 3 (if final then 3 else 2) ++ tokens_word ts). split.
    + split; [|rewrite length_app, Nat2Z.inj_add, length_nbits by lia; lia]. exists ([true; false] ++ tokens_word ts). split; [by destruct final|].
      eapply fixed_block; [by apply tokens_word_bits|done].
    + apply Hext. rewrite Esc, u64_id, (proj2 (Z.ltb_ge _ _)) by zb. rewrite Ef. apply emits_only. apply emits_bind; [lia|apply put_bits_emits; [done|lia|lia|destruct final; lia]|]. rewrite length_nbits by lia. intros Hp2.
      apply (put_tokens_emits cap c self ts _ Hcap CL CD H). lia.
Qed.

(** ** Matches that are found *)

Definition matcher_ok (m : lh_compress_deflate_matcher_t) : Prop :=
  (len (head m) = 32768 /\ Forall is_u32 (head m)) /\ (len (prev m) = 32768 /\ Forall is_u32 (prev m)).
Lemma u32_at l i : Forall is_u32 l -> is_u32 (byte_at l i).
Proof.
  intros H. unfold byte_at. rewrite nth_lookup. destruct (l !! Z.to_nat i) as [x|] eqn:E; [|cbn; zb]. by eapply Forall_lookup_1 in E.
Qed.
(** A table read and written at a place kept in 15 bits. *)
Lemma masked_range v : 0 <= Z.land v (u64 (32768 - 1)) < 32768.
Proof. change (u64 (32768 - 1)) with (Z.ones 15). rewrite Z.land_ones by lia. apply Z.mod_pos_bound. lia. Qed.

Section matcher.
Context (input : buffer) (Hb : is_bytes input) (H63 : len input < 2 ^ 63).

Lemma get_hash_spec at_ : 0 <= at_ -> at_ + 3 <= len input ->
  exists h, lh_compress_deflate_matcher_get_hash input at_ = Done h /\ 0 <= h < 32768.
Proof using.
  intros Ha Hl. unfold lh_compress_deflate_matcher_get_hash. rewrite !byte_at_load, !bind_done by lia. eexists. split; [done|]. apply masked_range.
Qed.
Lemma insert_spec m size pos : matcher_ok m -> 0 <= pos <= size -> size <= len input -> size < 2 ^ 32 ->
  exists m', lh_compress_deflate_matcher_insert m input size pos = Done m' /\ matcher_ok m'.
Proof using H63.
  intros ([Hh Fh] & [Hp Fp]) Hpos Hs H32. unfold lh_compress_deflate_matcher_insert, LH_COMPRESS_DEFLATE_MATCHER_MIN_MATCH. rewrite u64_id by zb.
  destruct (Z.ltb_spec (size - pos) 3); [by exists m|]. destruct (get_hash_spec pos) as (h & -> & Hr); [lia..|]. rewrite bind_done.
  unfold LH_COMPRESS_DEFLATE_WINDOW_SIZE. pose proof (masked_range pos). cbv zeta.
  rewrite (byte_at_load (head m)), bind_done, (put_ok (prev m)), bind_done, (put_ok (head m)), bind_done by lia. eexists. split; [done|].
  split; cbn [head prev]; (split; [by rewrite length_insert|apply Forall_insert; try done]); [apply u32_range|by apply u32_at].
Qed.
Lemma insert_all_spec m size n pos : matcher_ok m -> 0 <= pos -> 0 <= n -> pos + n <= size -> size <= len input -> size < 2 ^ 32 ->
  exists m', insert_all n m input size pos = Done m' /\ matcher_ok m'.
Proof using H63.
  intros Hm Hp Hn Hs Hl H32. unfold insert_all.
  destruct (for_up_rule (fun _ m => matcher_ok m) pos (pos + n) (fun at_ m => lh_compress_deflate_matcher_insert m input size at_) m) as (m' & E & H'); [lia|done| |by exists m'].
  intros i m1 Hi Hm1. apply insert_spec; (done || lia).
Qed.

(** [n] bytes at [pos] are those from [d] back. *)
Definition valid_match (pos n d : Z) : Prop :=
  1 <= d <= 32768 /\ d <= pos /\ forall i, 0 <= i < n -> byte_at input (pos - d + i) = byte_at input (pos + i).
Lemma match_size_spec size cand pos : 0 <= cand < pos -> pos <= size -> size <= len input ->
  exists n, lh_compress_deflate_matcher_get_match_size input size cand pos = Done n /\ 0 <= n <= Z.min (size - pos) 258 /\
    forall i, 0 <= i < n -> byte_at input (cand + i) = byte_at input (pos + i).
Proof using Hb H63.
  intros Hc Hp Hs. unfold lh_compress_deflate_matcher_get_match_size, LH_COMPRESS_DEFLATE_MATCHER_MAX_MATCH. rewrite u64_id by zb. set (lim := Z.min (size - pos) 258).
  unfold lh_memory_std_compare. rewrite !assert_ref_ok, !bind_done by lia. rewrite compare_bytes_spec' by (cbn [length]; (lia || (constructor; [zb|done]))).
  rewrite bind_done. pose proof (first_where_inv (differ (0 :: input) (1 + cand) (1 + pos)) lim) as Hf.
  assert (Hd : forall i, 0 <= i < lim -> differ (0 :: input) (1 + cand) (1 + pos) i = false -> byte_at input (cand + i) = byte_at input (pos + i)).
  { intros i Hi Hd. unfold differ in Hd. apply negb_false_iff, Z.eqb_eq in Hd. change (0 :: input) with ([0] ++ input) in Hd.
    rewrite !byte_at_app_r in Hd by (cbn [length]; lia). cbn [length] in Hd.
    replace (1 + cand + i - Z.of_nat 1) with (cand + i) in Hd by lia. replace (1 + pos + i - Z.of_nat 1) with (pos + i) in Hd by lia. done. }
  destruct (first_where _ lim) as [k|]; cbn [fmap option_fmap option_map].
  - destruct Hf as (Hk & _ & Hbefore). eexists. split; [done|]. split; [lia|]. intros i Hi. apply Hd; [lia|]. apply Hbefore. lia.
  - exists lim. split; [done|]. split; [lia|]. intros i Hi. apply Hd; [lia|]. apply Hf. lia.
Qed.
(** The walk along a chain only finds matches. *)
Definition best_ok (pos longest bl bd : Z) : Prop := 0 <= bl <= longest /\ (0 < bl -> valid_match pos bl bd).
Lemma chain_loop_spec size pos limit longest prev fuel : 0 <= pos -> pos < size -> size <= len input -> longest = Z.min (size - pos) 258 ->
  len prev = 32768 /\ Forall is_u32 prev -> forall step entry bl bd,
  is_u32 entry -> entry < Z.of_nat fuel -> best_ok pos longest bl bd -> bl < longest ->
  exists bl' bd', chain_loop fuel input size pos limit longest prev step entry bl bd = Done (bl', bd') /\ best_ok pos longest bl' bd'.
Proof using Hb H63.
  intros Hp Hps Hs Hlong [Hlp Fp]. induction fuel as [|fuel IH]; intros step entry bl bd He Hf Hok Hlt; [zb|]. cbn [chain_loop].
  assert (Hret : exists bl' bd', mret (bl, bd) = Done (bl', bd') /\ best_ok pos longest bl' bd') by (by exists bl, bd).
  destruct ((step <? limit) && negb (entry =? 0)) eqn:Ec; [|done]. apply andb_true_iff in Ec as [_ Ec]. apply negb_true_iff, Z.eqb_neq in Ec.
  cbv zeta. rewrite (u64_id (entry - 1)) by zb. rewrite Z.geb_leb. destruct (Z.leb_spec pos (entry - 1)) as [|Hc]; cbn [orb]; [done|].
  unfold LH_COMPRESS_DEFLATE_WINDOW_SIZE. rewrite (u64_id (pos - (entry - 1))), Z.gtb_ltb by zb. destruct (Z.ltb_spec 32768 (pos - (entry - 1))) as [|Hback]; [done|].
  unfold lh_compress_deflate_matcher_can_improve. pose proof (proj1 Hok). rewrite (u64_id (entry - 1 + bl)), (u64_id (pos + bl)) by zb. rewrite !(byte_at_load input), !bind_done by zb.
  set (step2 := fun bl' bd' stop => (stop = false -> bl' < longest) /\ best_ok pos longest bl' bd').
  assert (Hm : exists stop bl' bd', (if byte_at input (entry - 1 + bl) =? byte_at input (pos + bl) then
      found ← lh_compress_deflate_matcher_get_match_size input size (entry - 1) pos;
      if found >? bl then mret (found =? longest, found, pos - (entry - 1)) else mret (false, bl, bd)
    else mret (false, bl, bd)) = Done (stop, bl', bd') /\ step2 bl' bd' stop).
  { destruct (_ =? _); [|exists false, bl, bd; split; [done|split; [done|done]]].
    destruct (match_size_spec size (entry - 1) pos) as (found & -> & Hfr & Hfv); [zb..|]. rewrite bind_done, Z.gtb_ltb.
    destruct (Z.ltb_spec bl found); [|exists false, bl, bd; split; [done|split; done]].
    eexists _, _, _. split; [done|]. split; [intros E%Z.eqb_neq; lia|]. split; [lia|]. intros _.
    split; [zb|]. split; [zb|]. intros i Hi. rewrite <- Hfv by done. f_equal. lia. }
  destruct Hm as (stop & bl' & bd' & -> & Hlt' & Hok'). rewrite bind_done. destruct stop; [by exists bl', bd'|].
  pose proof (masked_range (entry - 1)). rewrite (byte_at_load prev), bind_done by lia. rewrite Z.geb_leb.
  destruct (Z.leb_spec entry (byte_at prev (Z.land (entry - 1) (u64 (32768 - 1))))); [by exists bl', bd'|].
  apply IH; [by apply u32_at|lia|done|by apply Hlt'].
Qed.
Lemma try_find_spec m size pos : matcher_ok m -> 0 <= pos -> pos < size -> size <= len input -> exists r,
  lh_compress_deflate_matcher_try_find m input size pos = Done r /\
  match r with Some (n, d) => 3 <= n <= 258 /\ pos + n <= size /\ valid_match pos n d | None => True end.
Proof using Hb H63.
  intros ([Hh Fh] & Hprev) Hp Hps Hs. unfold lh_compress_deflate_matcher_try_find, LH_COMPRESS_DEFLATE_MATCHER_MIN_MATCH. rewrite u64_id by zb.
  destruct (Z.ltb_spec (size - pos) 3); [by eexists|]. destruct (get_hash_spec pos) as (h & -> & Hr); [lia..|]. rewrite surely_done, bind_some.
  unfold lh_compress_deflate_matcher_get_head. rewrite (byte_at_load (head m)), surely_done, bind_some by lia. cbv zeta. unfold LH_COMPRESS_DEFLATE_MATCHER_MAX_MATCH.
  pose proof (u32_at (head m) h Fh).
  destruct (chain_loop_spec size pos (lh_compress_deflate_matcher_get_chain_limit m) (Z.min (size - pos) 258) (prev m) (S (Z.to_nat (byte_at (head m) h))) Hp Hps Hs eq_refl Hprev
    0 (byte_at (head m) h) 0 0) as (bl & bd & E & Hbl & Hv); [done|zb| |lia|].
  { split; [lia|]. lia. }
  unfold lh_compress_deflate_matcher_get_prev. rewrite E, surely_done, bind_some. destruct (Z.ltb_spec bl 3); [by eexists|].
  eexists. split; [done|]. split; [lia|]. split; [lia|]. apply Hv. lia.
Qed.
(** What a match gives is what comes next. *)
Lemma copied_valid pos n d : 0 <= n -> pos + n <= len input -> valid_match pos n d ->
  copied (take (Z.to_nat pos) input) n d = take (Z.to_nat n) (drop (Z.to_nat pos) input).
Proof using.
  intros Hn Hl (Hd & Hdp & Hv). assert (Elen : len (take (Z.to_nat pos) input) = pos) by (rewrite length_take; lia).
  apply byte_at_ext; [rewrite length_copied, length_take, length_drop; lia|]. rewrite length_copied by lia. intros i Hi.
  rewrite byte_at_take, byte_at_drop by lia. rewrite Z2Nat.id by lia. unfold copied, byte_at at 1. rewrite nth_lookup, list_lookup_fmap, lookup_seqZ_lt by lia.
  cbn [fmap option_fmap option_map default]. rewrite Elen. replace (0 + Z.of_nat (Z.to_nat i)) with i by lia.
  pose proof (Z.mod_pos_bound i d ltac:(lia)). cbn. rewrite byte_at_take by lia.
  assert (Hper : forall k, (0 <= k) -> forall j, 0 <= j < n -> j < k -> byte_at input (pos + j) = byte_at input (pos - d + j mod d)).
  { refine (natlike_ind _ _ _); [lia|]. intros k Hk IH j Hj Hjk. rewrite <- Hv by done. destruct (decide (j < d)).
    - by rewrite Z.mod_small by lia.
    - replace (pos - d + j) with (pos + (j - d)) by lia. rewrite IH by lia. f_equal. f_equal.
      replace (j - d) with (j + (-1) * d) by lia. by rewrite Z.mod_add by lia. }
  symmetry. apply (Hper (i + 1)); lia.
Qed.

(** ** Collecting tokens *)

Lemma gives_snoc h ts h1 t h2 : gives h ts h1 -> gives h1 [t] h2 -> gives h (ts ++ [t]) h2.
Proof using.
  induction 1 as [h|h b ts h1 _ IH|h n d ts h1 Hd Hdl _ IH]; intros H; cbn [app]; [done|constructor; by apply IH|by constructor; [..|apply IH]].
Qed.
Lemma take_more n k : 0 <= n -> 0 <= k -> take (Z.to_nat (n + k)) input = take (Z.to_nat n) input ++ take (Z.to_nat k) (drop (Z.to_nat n) input).
Proof using. intros Hn Hk. rewrite Z2Nat.inj_add by done. symmetry. apply take_take_drop. Qed.
Lemma gives_next_literal at_ : 0 <= at_ < len input ->
  gives (take (Z.to_nat at_) input) [Literal (byte_at input at_)] (take (Z.to_nat (at_ + 1)) input).
Proof using. intros Ha. rewrite take_next by lia. apply gives_literal. apply gives_end. Qed.
Lemma gives_next_match at_ n d : 0 <= at_ -> 0 <= n -> at_ + n <= len input -> valid_match at_ n d ->
  gives (take (Z.to_nat at_) input) [Match n d] (take (Z.to_nat (at_ + n)) input).
Proof using.
  intros Ha Hn Hl Hv. rewrite take_more, <- (copied_valid at_ n d) by done. destruct Hv as (Hd & Hdl & _).
  apply gives_match; [done|rewrite length_take; lia|]. apply gives_end.
Qed.
(** The tokens [ts] take the data from [from] to [to]. *)
Definition tokens_give (ts : list token) (from to : Z) : Prop :=
  gives (take (Z.to_nat from) input) ts (take (Z.to_nat to) input) /\ len ts <= to - from.
Lemma collect_loop_spec size limit from fuel : 0 <= from -> limit <= size -> size <= len input -> size < 2 ^ 32 -> forall m tokens ts at_,
  matcher_ok m -> tokens_hold tokens ts -> tokens_give ts from at_ -> from <= at_ <= limit -> limit - at_ < Z.of_nat fuel ->
  exists m' tokens' at' ts', collect_loop fuel m tokens input size limit at_ = Done (m', tokens', at') /\
    matcher_ok m' /\ tokens_hold tokens' ts' /\ tokens_give ts' from at' /\ at_ <= at' <= limit /\ (at' = limit \/ len ts' = 16384).
Proof using Hb H63.
  intros Hfrom Hlim Hs H32. induction fuel as [|fuel IH]; intros m tokens ts at_ Hm Ht [Hg Hl] Ha Hf; [lia|]. cbn [collect_loop].
  rewrite (tokens_full tokens ts Ht). pose proof (proj1 (proj2 (proj2 (proj2 Ht)))) as Hmax.
  destruct (Z.ltb_spec at_ limit) as [Hlt|Hge]; cbn [andb].
  2: { exists m, tokens, at_, ts. split_and!; try done; try lia. }
  destruct (Z.leb_spec 16384 (len ts)) as [Hfull|Hroom]; cbn [negb].
  { exists m, tokens, at_, ts. split_and!; try done; lia. }
  assert (Hstep : forall tokens' t n, tokens_hold tokens' (ts ++ [t]) -> 1 <= n -> at_ + n <= limit ->
    gives (take (Z.to_nat at_) input) [t] (take (Z.to_nat (at_ + n)) input) ->
    exists m' tokens'' at' ts', (m ← insert_all n m input size at_; collect_loop fuel m tokens' input size limit (u64 (at_ + n))) = Done (m', tokens'', at') /\
    matcher_ok m' /\ tokens_hold tokens'' ts' /\ tokens_give ts' from at' /\ at_ <= at' <= limit /\ (at' = limit \/ len ts' = 16384)).
  { intros tokens' t n Ht' Hn Hnl Hgt. destruct (insert_all_spec m size n at_ Hm) as (m' & -> & Hm'); [lia..|]. rewrite bind_done, u64_id by zb.
    destruct (IH m' tokens' (ts ++ [t]) (at_ + n) Hm' Ht') as (m2 & tk2 & at2 & ts2 & E & H1 & H2 & H3 & H4 & H5); [|lia|lia|].
    - split; [by eapply gives_snoc|]. rewrite length_app. cbn [length]. lia.
    - exists m2, tk2, at2, ts2. split_and!; (done || lia). }
  destruct (try_find_spec m limit at_ Hm) as (r & -> & Hr); [lia..|]. rewrite bind_done. destruct r as [[n d]|].
  - destruct Hr as (Hn & Hnl & Hv). pose proof Hv as (Hd & _). destruct (push_match_hold tokens ts n d Ht Hroom Hn Hd) as (tokens' & -> & Ht').
    rewrite !bind_done. apply (Hstep tokens' (Match n d) n Ht'); [lia|lia|]. apply gives_next_match; (done || lia).
  - rewrite byte_at_load, bind_done by lia. destruct (push_literal_hold tokens ts (byte_at input at_) Ht Hroom) as (tokens' & -> & Ht'); [by apply byte_at_u8|].
    rewrite !bind_done. apply (Hstep tokens' _ 1 Ht'); [lia|lia|]. apply gives_next_literal. lia.
Qed.
(** A block takes all that is left, 65535 bytes, or the bytes of a full array of tokens. *)
Lemma try_collect_spec m tokens size begin : matcher_ok m -> tokens_room tokens -> 0 <= begin <= size -> size <= len input -> size < 2 ^ 32 - 1 ->
  exists m' tokens' end_ ts, lh_compress_deflate_try_collect m tokens input size begin = Done (m', tokens', Some end_) /\
    matcher_ok m' /\ tokens_hold tokens' ts /\ tokens_give ts begin end_ /\ begin <= end_ <= size /\ end_ - begin <= 65535 /\
    (end_ = size \/ begin + 16384 <= end_).
Proof using Hb H63.
  intros Hm Ht Hbe Hs H32. unfold lh_compress_deflate_try_collect, LH_COMPRESS_DEFLATE_MATCHER_INPUT_LIMIT, LH_COMPRESS_DEFLATE_STORED_MAX.
  rewrite !Z.gtb_ltb, (proj2 (Z.ltb_ge _ size)), (proj2 (Z.ltb_ge _ begin)) by lia. cbn [orb]. cbv zeta.
  rewrite (u64_id (size - begin)), (u64_id (begin + _)) by zb. set (limit := begin + Z.min (size - begin) 65535).
  destruct (collect_loop_spec size limit begin (S (Z.to_nat (limit - begin))) ltac:(lia) ltac:(lia) Hs ltac:(lia) m (lh_compress_deflate_tokens_reset tokens) [] begin Hm)
    as (m' & tk & at' & ts & -> & H1 & H2 & [H3 H3'] & H4 & H5); [by apply tokens_reset_hold|split; [apply gives_end|cbn [length]; lia]|lia|lia|].
  rewrite bind_done. exists m', tk, at', ts. split_and!; try done; try lia.
Qed.
End matcher.

(** ** The encoder *)

Definition encoder_ok (e : lh_compress_deflate_encoder_t) : Prop := matcher_ok (matcher e) /\ tokens_room (tokens e).
Definition up8 (x : Z) : Z := 8 * ((x + 7) / 8).
(** The most blocks that [n] bytes are cut into. *)
Definition blocks_of (n : Z) : Z := if n =? 0 then 1 else (n + 16383) / 16384.
Lemma block_word_room pos final h bs w : 0 <= pos -> block_word pos final h bs w -> pos + len w <= up8 pos + 40 + 8 * len bs.
Proof. intros Hp [_ Hl]. unfold up8. zdm. Qed.
Lemma up8_le x y : x <= y -> up8 x <= up8 y.
Proof. intros H. unfold up8. zdm. Qed.
Lemma up8_up8 x k : up8 (up8 x + 40 + 8 * k) = up8 x + 40 + 8 * k.
Proof. unfold up8. zdm. Qed.

Section encode.
Context (input : buffer) (size cap : Z) (Hb : is_bytes input) (H63 : len input < 2 ^ 63) (Hs : 0 <= size <= len input) (H32 : size < 2 ^ 32 - 1).
Context (Hcap : 0 <= cap /\ 8 * cap < 2 ^ 63).

Lemma encode_loop_spec fuel : forall e begin pos out, encoder_ok e -> 0 <= begin <= size -> 0 <= pos <= 8 * cap -> is_bytes out -> cap <= len out ->
  size - begin < Z.of_nat fuel ->
  let most := up8 pos + 8 * (size - begin) + 40 * blocks_of (size - begin) in
  exists e' out' r, encode_loop fuel e input size cap pos begin out = Done (e', out', r) /\ encoder_ok e' /\ length out' = length out /\ is_bytes out' /\
  match r with
  | Some pos' => exists w, stream pos w (take (Z.to_nat begin) input) (take (Z.to_nat size) input) /\ written out pos w out' /\
      pos' = pos + len w /\ pos' <= 8 * cap /\ up8 pos' <= most
  | None => 8 * cap < most
  end.
Proof using Hb H63 Hs H32 Hcap.
  induction fuel as [|fuel IH]; intros e begin pos out [Hm Ht] Hbe Hp Hbo Hco Hf most; [lia|]. cbn [encode_loop].
  destruct (try_collect_spec input Hb H63 (matcher e) (tokens e) size begin Hm Ht Hbe ltac:(lia) H32) as (m' & tk & end_ & ts & -> & Hm' & Htk & [Hg _] & He & Hn & Hend).
  rewrite bind_done. set (e' := mk_encoder m' tk). assert (He' : encoder_ok e') by (split; [done|by eapply tokens_hold_room]).
  rewrite (u64_id (end_ - begin)) by zb. set (n := end_ - begin) in *.
  rewrite (ltac:(lia) : end_ = begin + n) in Hg. rewrite take_more in Hg by lia.
  destruct (put_block_emits cap tk ts (drop (Z.to_nat begin) input) n (end_ =? size) pos (take (Z.to_nat begin) input) Hcap Htk) as (w & Hw & Hemit);
    [by apply Forall_drop|rewrite length_drop; lia|lia|lia|done|].
  pose proof (block_word_room _ _ _ _ _ (proj1 Hp) Hw) as Hroom. destruct Hw as [(w' & -> & Hblock) _].
  assert (El : len (take (Z.to_nat n) (drop (Z.to_nat begin) input)) = n) by (rewrite length_take, length_drop; lia). rewrite El in Hroom.
  rewrite <- take_more in Hblock by lia. replace (begin + n) with end_ in Hblock by lia.
  assert (Hblocks : 1 <= blocks_of (size - begin) /\ (end_ < size -> 1 + blocks_of (size - end_) <= blocks_of (size - begin))).
  { unfold blocks_of. destruct (Z.eqb_spec (size - begin) 0), (Z.eqb_spec (size - end_) 0); zdm. }
  specialize (Hemit out Hbo Hco). pose proof (up8_le _ _ Hroom) as Hup. rewrite up8_up8 in Hup.
  destruct (Z.leb_spec (pos + len ((end_ =? size) :: w')) (8 * cap)) as [Hfit|Hno].
  2: { destruct Hemit as (out1 & -> & L1 & B1). rewrite bind_done. exists e', out1, None. split_and!; try done. unfold most. lia. }
  destruct Hemit as (out1 & -> & W1). rewrite bind_done. pose proof W1 as (L1 & B1 & _).
  destruct (Z.ltb_spec end_ size) as [Hlt|Hge].
  - rewrite (proj2 (Z.eqb_neq _ _)) in * by lia.
    destruct (IH e' end_ (pos + len (false :: w')) out1 He') as (e2 & out2 & r & -> & He2 & L2 & B2 & Hr); [lia|lia|done|lia|lia|].
    exists e2, out2, r. split_and!; try done; [congruence|]. destruct r as [pos'|].
    + destruct Hr as (w2 & Hst & W2 & -> & Hp2 & Hup2). exists (false :: w' ++ w2). split_and!.
      * eapply stream_more; [done|]. replace (pos + 1 + len w') with (pos + len (false :: w')) by (cbn [length]; lia). done.
      * change (false :: w' ++ w2) with ((false :: w') ++ w2). eapply written_app; [lia|done|done].
      * cbn [length]. rewrite length_app. lia.
      * done.
      * unfold most. lia.
    + unfold most. lia.
  - assert (end_ = size) as -> by lia. rewrite Z.eqb_refl in *. exists e', out1, (Some (pos + len (true :: w'))). split_and!; try done.
    exists (true :: w'). split_and!; try done; [by constructor|]. unfold most. lia.
Qed.
End encode.

Lemma bound_spec size : 0 <= size < 2 ^ 32 -> lh_compress_deflate_try_bound size = Some (size + 5 * blocks_of size).
Proof.
  intros Hs. unfold lh_compress_deflate_try_bound, lh_compress_deflate_try_blocks_bound, lh_compress_deflate_get_block_count,
    LH_COMPRESS_DEFLATE_TOKENS_LIMIT, LH_COMPRESS_DEFLATE_STORED_OVERHEAD, blocks_of. cbv zeta.
  assert (E : (if (size =? 0) || negb (size mod 16384 =? 0) then u64 (size / 16384 + 1) else size / 16384) = if size =? 0 then 1 else (size + 16383) / 16384).
  { destruct (Z.eqb_spec size 0) as [->|]; [done|]. cbn [orb]. destruct (Z.eqb_spec (size mod 16384) 0); cbn [negb]; zdm. }
  rewrite E. set (k := if size =? 0 then 1 else (size + 16383) / 16384). assert (0 <= k <= 2 ^ 20) by (unfold k; destruct (size =? 0); zdm).
  rewrite (u64_id (k * 5)), adds_over_spec, (proj2 (Z.ltb_ge _ _)) by zb. rewrite u64_id by zb. f_equal. lia.
Qed.
Lemma up8_pad x : 0 <= x -> x + (- x) mod 8 = up8 x.
Proof. intros Hx. unfold up8. zdm. Qed.
(** What the encoder leaves in the output: a stream that gives the input. *)
Lemma try_encode_spec e input size out cap : encoder_ok e -> is_bytes input -> len input < 2 ^ 63 -> 0 <= size <= len input -> size < 2 ^ 32 - 1 ->
  is_bytes out -> 0 <= cap <= len out -> 8 * cap < 2 ^ 63 ->
  exists e' out' r, lh_compress_deflate_try_encode e input size out cap = Done (e', out', r) /\ encoder_ok e' /\ length out' = length out /\ is_bytes out' /\
  match r with
  | Some n => exists w, stream 0 w [] (take (Z.to_nat size) input) /\ next_bits out' n 0 w /\ n = (len w + 7) / 8 /\ n <= cap /\ n <= size + 5 * blocks_of size
  | None => cap < size + 5 * blocks_of size
  end.
Proof.
  intros [[[Hh Fh] Hprev] Ht] Hb H63 Hs H32 Ho Hc Hc63. unfold lh_compress_deflate_try_encode, lh_compress_deflate_matcher_reset,
    lh_compress_deflate_encoder_get_matcher, lh_compress_deflate_encoder_get_tokens, clear, LH_COMPRESS_DEFLATE_MATCHER_HASH_SIZE.
  rewrite (proj2 (Z.leb_le 0 32768)), (proj2 (Z.leb_le 32768 _)) by lia. cbn [andb]. rewrite !bind_done.
  set (m := mk_matcher _ _ _). assert (He : encoder_ok (mk_encoder m (tokens e))).
  { split; [split|done]; cbn [matcher head prev m]; [|done]. rewrite drop_ge, app_nil_r by lia. split; [by rewrite length_replicate|apply Forall_replicate; zb]. }
  destruct (encode_loop_spec input size cap Hb H63 Hs H32 (conj (proj1 Hc) Hc63) (S (Z.to_nat size)) _ 0 0 out He) as (e' & out1 & r & -> & He' & L1 & B1 & Hr);
    [lia|lia|done|lia|lia|]. rewrite bind_done. change (up8 0) with 0 in Hr. rewrite Z.sub_0_r in Hr.
  destruct r as [pos|]; [|exists e', out1, None; split_and!; try done; lia].
  destruct Hr as (w & Hst & W & -> & Hp & Hup). rewrite Z.add_0_l in *. rewrite pad_bits_spec by lia. pose proof (up8_pad (len w) ltac:(lia)) as Epad.
  pose proof (Z.mod_pos_bound (- len w) 8 ltac:(lia)) as Hpad.
  pose proof (put_bits_emits cap (conj (proj1 Hc) Hc63) (len w) ((- len w) mod 8) 0 ltac:(lia) ltac:(lia) ltac:(lia) out1 B1 ltac:(lia)) as Hput.
  rewrite length_nbits, Epad in Hput by lia. assert (Hfit : up8 (len w) <= 8 * cap) by (unfold up8; zdm).
  rewrite (proj2 (Z.leb_le _ _)) in Hput by done. destruct Hput as (out2 & -> & W2). rewrite bind_done. pose proof W2 as (L2 & B2 & _).
  assert (E8 : up8 (len w) / 8 = (len w + 7) / 8) by (unfold up8; zdm). cbn [fmap option_fmap option_map]. rewrite E8.
  exists e', out2, (Some ((len w + 7) / 8)). split_and!; try done; [congruence|]. exists w. split_and!; [done| |done|unfold up8 in *; zdm|unfold up8 in *; zdm].
  split_and!; [lia|zdm|]. rewrite (written_before out1 (len w) _ out2 0 (len w)) by (done || lia). by apply (written_bits out 0 w).
Qed.

(** Claim C13: encoding with DEFLATE and decoding gives the input back.  For an encoder whose arrays have
    their sizes, any input of at most 4294967294 bytes and any output array, the encoder
    returns; it refuses only if the capacity is below the bound that [lh_compress_deflate_try_bound] promises, and
    what it writes is no longer than that bound; and the decoder, on the bytes written and
    with room for the data, gives exactly the input, having consumed exactly the bytes that
    were written.  (The encoder can be used again: its arrays keep their sizes.) *)
Theorem deflate_roundtrip e input size out cap : encoder_ok e -> is_bytes input -> len input < 2 ^ 63 -> 0 <= size <= len input -> size < 2 ^ 32 - 1 ->
  is_bytes out -> 0 <= cap <= len out -> 8 * cap < 2 ^ 63 ->
  exists e' out' r bound, lh_compress_deflate_try_encode e input size out cap = Done (e', out', r) /\ encoder_ok e' /\ length out' = length out /\
  lh_compress_deflate_try_bound size = Some bound /\ (r = None -> cap < bound) /\
  forall n, r = Some n -> n <= cap /\ n <= bound /\
    forall dst room, is_bytes dst -> size <= room <= len dst -> room < 2 ^ 63 ->
    exists dst', lh_compress_deflate_try_decode out' n room dst = Done (dst', Some (n, size)) /\ take (Z.to_nat size) dst' = take (Z.to_nat size) input.
Proof.
  intros He Hb H63 Hs H32 Ho Hc Hc63. destruct (try_encode_spec e input size out cap He Hb H63 Hs H32 Ho Hc Hc63) as (e' & out' & r & E & He' & L & B & Hr).
  exists e', out', r, (size + 5 * blocks_of size). split_and!; try done; [by apply bound_spec; lia|by intros ->|].
  intros n ->. destruct Hr as (w & Hst & N & En & Hn & Hbd). split_and!; [done|done|]. intros dst room Hd Hroom Hr63.
  assert (H : holds room dst []) by (split_and!; (done || (cbn [length]; lia))). pose proof (next_end _ _ _ _ N).
  assert (I : input_ok out' n) by (split_and!; (done || lia)).
  assert (El : len (take (Z.to_nat size) input) = size) by (rewrite length_take; lia).
  destruct (try_decode_verdict out' n dst room I H) as (dst' & r & Ed & _ & _ & _ & _ & Hcomp). exists dst'.
  destruct (Hcomp (n, size) (take (Z.to_nat size) input)) as [-> Ht]; [exists w; rewrite El, <- En; split_and!; (done || lia)|].
  split; [done|]. rewrite <- Ht. f_equal. rewrite length_take. lia.
Qed.
Lemma deflate_roundtrip_witness : exists e' out' r bound,
  lh_compress_deflate_try_encode (mk_encoder (mk_matcher 8 (replicate 32768 0) (replicate 32768 0)) (mk_tokens 0 (replicate 16384 0) (replicate 16384 0)))
    (replicate 40 7) 40 (local 60) 60 = Done (e', out', r) /\ lh_compress_deflate_try_bound 40 = Some bound /\ bound = 45 /\
  exists n, r = Some n /\ exists dst', lh_compress_deflate_try_decode out' n 50 (local 50) = Done (dst', Some (n, 40)) /\ take 40 dst' = replicate 40 7.
Proof.
  assert (Hz : forall n, Forall is_u32 (replicate n 0)) by (intros n; apply Forall_replicate; zb).
  destruct (deflate_roundtrip (mk_encoder (mk_matcher 8 (replicate 32768 0) (replicate 32768 0)) (mk_tokens 0 (replicate 16384 0) (replicate 16384 0)))
    (replicate 40 7) 40 (local 60) 60) as (e' & out' & r & bound & E & _ & _ & Eb & Hnone & Hsome).
  - split; (split; cbn [head prev values distances matcher tokens]); try (by rewrite length_replicate); (split; [by rewrite length_replicate|apply Hz]).
  - apply Forall_replicate. zb.
  - rewrite length_replicate. lia.
  - rewrite length_replicate. lia.
  - lia.
  - apply Forall_replicate. zb.
  - rewrite length_local; lia.
  - lia.
  - exists e', out', r, bound. split; [exact E|]. split; [exact Eb|].
    assert (Hbound : bound = 45) by (assert (E2 : lh_compress_deflate_try_bound 40 = Some 45) by (by vm_compute); congruence).
    split; [exact Hbound|]. destruct r as [n|]; [|specialize (Hnone eq_refl); lia]. exists n. split; [done|].
    destruct (Hsome n eq_refl) as (_ & _ & Hd). apply (Hd (local 50) 50); [apply Forall_replicate; zb|rewrite length_local; lia|lia].
Defined.
