(* ===== verification/Gzip.v ===== *)
(** * Gzip

    [compress/gzip.c] and [compress/gzip/header/decoder.c]: members of a gzip file, each a
    header, a DEFLATE stream and a trailer with the CRC-32 and the size of the data.  The header
    decoder is incremental, a state machine over the bytes; [gzip.c] uses it on whole
    inputs.  The incremental reader of [gzip/reader.c] is not modelled.  Theorems in
    [GzipProofs]. *)
From S2P Require Import Prelude Buffer Bytes Hash Deflate.

Definition LH_COMPRESS_GZIP_HEADER_ID1 : Z := 31.
Definition LH_COMPRESS_GZIP_HEADER_ID2 : Z := 139.
Definition LH_COMPRESS_GZIP_HEADER_METHOD_DEFLATE : Z := 8.
Definition LH_COMPRESS_GZIP_HEADER_OS_UNKNOWN : Z := 255.
Definition LH_COMPRESS_GZIP_HEADER_SIZE : Z := 10.
Definition LH_COMPRESS_GZIP_TRAILER_SIZE : Z := 8.

Definition lh_bit_pack_le32 (value : Z) (out : buffer) (at_ : Z) : outcome buffer :=
  out ← put out at_ (u8 value);
  out ← put out (at_ + 1) (u8 (Z.shiftr value 8));
  out ← put out (at_ + 2) (u8 (Z.shiftr value 16));
  put out (at_ + 3) (u8 (Z.shiftr value 24)).
Definition lh_bit_unpack_le32 (b : buffer) (at_ : Z) : outcome Z :=
  b0 ← load b at_;
  b1 ← load b (at_ + 1);
  b2 ← load b (at_ + 2);
  b3 ← load b (at_ + 3);
  mret (Z.lor (Z.lor b0 (u32 (Z.shiftl b1 8))) (Z.lor (u32 (Z.shiftl b2 16)) (u32 (Z.shiftl b3 24)))).

(** ** The header decoder *)

Inductive lh_compress_gzip_header_decoder_phase_t :=
| lh_compress_gzip_header_decoder_phase_fixed
| lh_compress_gzip_header_decoder_phase_extra_low
| lh_compress_gzip_header_decoder_phase_extra_high
| lh_compress_gzip_header_decoder_phase_extra
| lh_compress_gzip_header_decoder_phase_name
| lh_compress_gzip_header_decoder_phase_comment
| lh_compress_gzip_header_decoder_phase_crc_low
| lh_compress_gzip_header_decoder_phase_crc_high
| lh_compress_gzip_header_decoder_phase_done
| lh_compress_gzip_header_decoder_phase_error.
#[export] Instance header_phase_eq : EqDecision lh_compress_gzip_header_decoder_phase_t.
Proof. solve_decision. Defined.
Record lh_compress_gzip_header_decoder_t := mk_header_decoder {
  hd_size : Z; hd_limit : Z; hd_remaining : Z; hd_crc : Z; hd_value : Z; hd_flags : Z; hd_fixed : Z;
  hd_phase : lh_compress_gzip_header_decoder_phase_t }.
Notation decoder := lh_compress_gzip_header_decoder_t.
Definition lh_compress_gzip_header_decoder_get_size := hd_size.
Definition lh_compress_gzip_header_decoder_set_size (d : decoder) v :=
  mk_header_decoder v (hd_limit d) (hd_remaining d) (hd_crc d) (hd_value d) (hd_flags d) (hd_fixed d) (hd_phase d).
Definition lh_compress_gzip_header_decoder_get_limit := hd_limit.
Definition lh_compress_gzip_header_decoder_set_limit (d : decoder) v :=
  mk_header_decoder (hd_size d) v (hd_remaining d) (hd_crc d) (hd_value d) (hd_flags d) (hd_fixed d) (hd_phase d).
Definition lh_compress_gzip_header_decoder_get_remaining := hd_remaining.
Definition lh_compress_gzip_header_decoder_set_remaining (d : decoder) v :=
  mk_header_decoder (hd_size d) (hd_limit d) v (hd_crc d) (hd_value d) (hd_flags d) (hd_fixed d) (hd_phase d).
Definition lh_compress_gzip_header_decoder_get_crc := hd_crc.
Definition lh_compress_gzip_header_decoder_set_crc (d : decoder) v :=
  mk_header_decoder (hd_size d) (hd_limit d) (hd_remaining d) v (hd_value d) (hd_flags d) (hd_fixed d) (hd_phase d).
Definition lh_compress_gzip_header_decoder_get_value := hd_value.
Definition lh_compress_gzip_header_decoder_set_value (d : decoder) v :=
  mk_header_decoder (hd_size d) (hd_limit d) (hd_remaining d) (hd_crc d) v (hd_flags d) (hd_fixed d) (hd_phase d).
Definition lh_compress_gzip_header_decoder_get_flags := hd_flags.
Definition lh_compress_gzip_header_decoder_set_flags (d : decoder) v :=
  mk_header_decoder (hd_size d) (hd_limit d) (hd_remaining d) (hd_crc d) (hd_value d) v (hd_fixed d) (hd_phase d).
Definition lh_compress_gzip_header_decoder_get_fixed := hd_fixed.
Definition lh_compress_gzip_header_decoder_set_fixed (d : decoder) v :=
  mk_header_decoder (hd_size d) (hd_limit d) (hd_remaining d) (hd_crc d) (hd_value d) (hd_flags d) v (hd_phase d).
Definition lh_compress_gzip_header_decoder_get_phase := hd_phase.
Definition lh_compress_gzip_header_decoder_set_phase (d : decoder) v :=
  mk_header_decoder (hd_size d) (hd_limit d) (hd_remaining d) (hd_crc d) (hd_value d) (hd_flags d) (hd_fixed d) v.

Definition lh_compress_gzip_header_decoder_init (self : decoder) (limit : Z) : decoder :=
  let self := lh_compress_gzip_header_decoder_set_size self 0 in
  let self := lh_compress_gzip_header_decoder_set_limit self limit in
  let self := lh_compress_gzip_header_decoder_set_remaining self 0 in
  let self := lh_compress_gzip_header_decoder_set_crc self 0 in
  let self := lh_compress_gzip_header_decoder_set_value self 0 in
  let self := lh_compress_gzip_header_decoder_set_flags self 0 in
  let self := lh_compress_gzip_header_decoder_set_fixed self 0 in
  lh_compress_gzip_header_decoder_set_phase self lh_compress_gzip_header_decoder_phase_fixed.
(** On to the first part whose flag is still set; the flag is cleared. *)
Definition lh_compress_gzip_header_decoder_next (self : decoder) : decoder :=
  let flags := lh_compress_gzip_header_decoder_get_flags self in
  let '(mask, phase) :=
    if negb (Z.land flags 4 =? 0) then (4, lh_compress_gzip_header_decoder_phase_extra_low) else
    if negb (Z.land flags 8 =? 0) then (8, lh_compress_gzip_header_decoder_phase_name) else
    if negb (Z.land flags 16 =? 0) then (16, lh_compress_gzip_header_decoder_phase_comment) else
    if negb (Z.land flags 2 =? 0) then (2, lh_compress_gzip_header_decoder_phase_crc_low) else
    (0, lh_compress_gzip_header_decoder_phase_done) in
  let self := lh_compress_gzip_header_decoder_set_flags self (u8 (Z.land flags (u32 (Z.lnot mask)))) in
  lh_compress_gzip_header_decoder_set_phase self phase.
(** A byte that does not fit one of the first four. *)
Definition bad_fixed (index byte : Z) : bool :=
  ((index =? 0) && negb (byte =? LH_COMPRESS_GZIP_HEADER_ID1)) ||
  ((index =? 1) && negb (byte =? LH_COMPRESS_GZIP_HEADER_ID2)) ||
  ((index =? 2) && negb (byte =? LH_COMPRESS_GZIP_HEADER_METHOD_DEFLATE)) ||
  ((index =? 3) && negb (Z.land byte 224 =? 0)).
(** What a byte does in a phase; leaving the loop is the phase of an error. *)
Definition header_byte (self : decoder) (phase : lh_compress_gzip_header_decoder_phase_t) (byte : Z) : decoder :=
  let fail := lh_compress_gzip_header_decoder_set_phase self lh_compress_gzip_header_decoder_phase_error in
  match phase with
  | lh_compress_gzip_header_decoder_phase_fixed =>
    let index := lh_compress_gzip_header_decoder_get_fixed self in
    if bad_fixed index byte then fail else
    let self := if index =? 3 then lh_compress_gzip_header_decoder_set_flags self byte else self in
    let self := lh_compress_gzip_header_decoder_set_fixed self (u8 (index + 1)) in
    if index =? LH_COMPRESS_GZIP_HEADER_SIZE - 1 then lh_compress_gzip_header_decoder_next self else self
  | lh_compress_gzip_header_decoder_phase_extra_low =>
    let self := lh_compress_gzip_header_decoder_set_value self byte in
    lh_compress_gzip_header_decoder_set_phase self lh_compress_gzip_header_decoder_phase_extra_high
  | lh_compress_gzip_header_decoder_phase_extra_high =>
    let length := u16 (Z.lor (lh_compress_gzip_header_decoder_get_value self) (Z.shiftl byte 8)) in
    let self := lh_compress_gzip_header_decoder_set_remaining self length in
    if length =? 0 then lh_compress_gzip_header_decoder_next self
    else lh_compress_gzip_header_decoder_set_phase self lh_compress_gzip_header_decoder_phase_extra
  | lh_compress_gzip_header_decoder_phase_extra =>
    let remaining := u64 (lh_compress_gzip_header_decoder_get_remaining self - 1) in
    let self := lh_compress_gzip_header_decoder_set_remaining self remaining in
    if remaining =? 0 then lh_compress_gzip_header_decoder_next self else self
  | lh_compress_gzip_header_decoder_phase_name | lh_compress_gzip_header_decoder_phase_comment =>
    if byte =? 0 then lh_compress_gzip_header_decoder_next self else self
  | lh_compress_gzip_header_decoder_phase_crc_low =>
    let self := lh_compress_gzip_header_decoder_set_value self byte in
    lh_compress_gzip_header_decoder_set_phase self lh_compress_gzip_header_decoder_phase_crc_high
  | lh_compress_gzip_header_decoder_phase_crc_high =>
    let expected := u16 (Z.lor (lh_compress_gzip_header_decoder_get_value self) (Z.shiftl byte 8)) in
    lh_compress_gzip_header_decoder_set_phase self
      (if expected =? Z.land (lh_compress_gzip_header_decoder_get_crc self) 65535
       then lh_compress_gzip_header_decoder_phase_done else lh_compress_gzip_header_decoder_phase_error)
  | _ => fail
  end.
Fixpoint header_loop (fuel : nat) (self : decoder) (input : buffer) (size i : Z) : outcome (decoder * Z) :=
  match fuel with
  | O => Undef
  | S fuel =>
    if i <? size then
      let phase := lh_compress_gzip_header_decoder_get_phase self in
      if bool_decide (phase = lh_compress_gzip_header_decoder_phase_done) ||
         bool_decide (phase = lh_compress_gzip_header_decoder_phase_error) then mret (self, i) else
      let count := lh_compress_gzip_header_decoder_get_size self in
      if count >=? lh_compress_gzip_header_decoder_get_limit self
      then mret (lh_compress_gzip_header_decoder_set_phase self lh_compress_gzip_header_decoder_phase_error, i) else
      byte ← load input i;
      let i := u64 (i + 1) in
      let self := lh_compress_gzip_header_decoder_set_size self (u64 (count + 1)) in
      self ← (if negb (bool_decide (phase = lh_compress_gzip_header_decoder_phase_crc_low)) &&
                 negb (bool_decide (phase = lh_compress_gzip_header_decoder_phase_crc_high)) then
                crc ← lh_hash_crc32_update (lh_compress_gzip_header_decoder_get_crc self) [byte] 1;
                mret (lh_compress_gzip_header_decoder_set_crc self crc)
              else mret self);
      header_loop fuel (header_byte self phase byte) input size i
    else mret (self, i)
  end.
(** The decoder, [*consumed] and the phase. *)
Definition lh_compress_gzip_header_decoder_try_feed (self : decoder) (input : buffer) (size : Z)
    : outcome (decoder * Z * lh_compress_gzip_header_decoder_phase_t) :=
  '(self, i) ← header_loop (S (Z.to_nat size)) self input size 0;
  mret (self, i, lh_compress_gzip_header_decoder_get_phase self).
Definition lh_compress_gzip_header_decoder_feed (self : decoder) (input : buffer) (size : Z)
    : outcome (decoder * Z * lh_compress_gzip_header_decoder_phase_t) :=
  '(self, consumed, phase) ← lh_compress_gzip_header_decoder_try_feed self input size;
  if bool_decide (phase = lh_compress_gzip_header_decoder_phase_error) then Fault lh_runtime_error_code_invalid_range
  else mret (self, consumed, phase).

(** ** Decoding members *)

Definition fresh_decoder : decoder := mk_header_decoder 0 0 0 0 0 0 0 lh_compress_gzip_header_decoder_phase_fixed.
Definition lh_compress_gzip_try_header (input : buffer) (input_size : Z) : attempt Z :=
  let decoder := lh_compress_gzip_header_decoder_init fresh_decoder input_size in
  '(_, used, phase) ← surely (lh_compress_gzip_header_decoder_try_feed decoder input input_size);
  if negb (bool_decide (phase = lh_compress_gzip_header_decoder_phase_done)) then refuse else mret used.
Definition lh_compress_gzip_header (input : buffer) (input_size : Z) : outcome Z := must (lh_compress_gzip_try_header input input_size).
Definition lh_compress_gzip_try_trailer_values (trailer : buffer) (trailer_size crc decoded_size : Z) : outcome bool :=
  if trailer_size <? LH_COMPRESS_GZIP_TRAILER_SIZE then mret false else
  a ← lh_bit_unpack_le32 trailer 0;
  if negb (a =? crc) then mret false else
  b ← lh_bit_unpack_le32 trailer 4;
  mret (b =? u32 decoded_size).
Definition lh_compress_gzip_trailer_values (trailer : buffer) (trailer_size crc decoded_size : Z) : outcome unit :=
  ok ← lh_compress_gzip_try_trailer_values trailer trailer_size crc decoded_size;
  fail_ifn ok lh_runtime_error_code_invalid_range.
Definition lh_compress_gzip_try_trailer (trailer : buffer) (trailer_size : Z) (decoded : buffer) (decoded_size : Z) : outcome bool :=
  crc ← lh_hash_crc32 decoded decoded_size;
  lh_compress_gzip_try_trailer_values trailer trailer_size crc decoded_size.
Definition lh_compress_gzip_trailer (trailer : buffer) (trailer_size : Z) (decoded : buffer) (decoded_size : Z) : outcome unit :=
  ok ← lh_compress_gzip_try_trailer trailer trailer_size decoded decoded_size;
  fail_ifn ok lh_runtime_error_code_invalid_range.
(** A call on [output + at_]. *)
Definition write_within {A} (at_ : Z) (m : writing A) : writing A := fun output =>
  '(rest, r) ← m (drop (Z.to_nat at_) output); mret (take (Z.to_nat at_) output ++ rest, r).
(** The trailer at [pos] against the data at [output + total]. *)
Definition trailer_at (input : buffer) (input_size pos total decoded : Z) : writing bool := fun output =>
  ok ← lh_compress_gzip_try_trailer (drop (Z.to_nat pos) input) (u64 (input_size - pos)) (drop (Z.to_nat total) output) decoded;
  mret (output, Some ok).
(** The members from [pos] on, behind [total] bytes of data; each takes a byte at least. *)
Fixpoint gzip_members_loop (fuel : nat) (input : buffer) (input_size capacity pos total : Z) : writing Z :=
  match fuel with
  | O => fun _ => Undef
  | S fuel =>
    if pos <? input_size then
      header_size ← only (lh_compress_gzip_try_header (drop (Z.to_nat pos) input) (u64 (input_size - pos)));
      let pos := u64 (pos + header_size) in
      '(consumed, decoded) ← write_within total
        (lh_compress_deflate_try_decode (drop (Z.to_nat pos) input) (u64 (input_size - pos)) (u64 (capacity - total)));
      let pos := u64 (pos + consumed) in
      ok ← trailer_at input input_size pos total decoded;
      if negb ok then only refuse else
      let total := u64 (total + decoded) in
      gzip_members_loop fuel input input_size capacity (u64 (pos + LH_COMPRESS_GZIP_TRAILER_SIZE)) total
    else mret total
  end.
Definition lh_compress_gzip_try_decode (input : buffer) (input_size capacity : Z) : writing Z :=
  if input_size =? 0 then only refuse else
  gzip_members_loop (S (Z.to_nat input_size)) input input_size capacity 0 0.
Definition lh_compress_gzip_decode (input : buffer) (input_size : Z) (output : buffer) (capacity : Z) : outcome (buffer * Z) :=
  must_write (lh_compress_gzip_try_decode input input_size capacity) output.

(** ** Encoding a member *)

(** [at[0] = ...; at[1] = ...; at[2] = ...; at[9] = ...] *)
Definition lh_compress_gzip_try_put_header (capacity written : Z) : writing Z :=
  let used := written in
  if (used >? capacity) || (u64 (capacity - used) <? LH_COMPRESS_GZIP_HEADER_SIZE) then only refuse else
  _ ← store (fun output => set_bytes output used 0 LH_COMPRESS_GZIP_HEADER_SIZE);
  _ ← store (fun output => put output used LH_COMPRESS_GZIP_HEADER_ID1);
  _ ← store (fun output => put output (used + 1) LH_COMPRESS_GZIP_HEADER_ID2);
  _ ← store (fun output => put output (used + 2) LH_COMPRESS_GZIP_HEADER_METHOD_DEFLATE);
  _ ← store (fun output => put output (used + (LH_COMPRESS_GZIP_HEADER_SIZE - 1)) LH_COMPRESS_GZIP_HEADER_OS_UNKNOWN);
  mret (u64 (used + LH_COMPRESS_GZIP_HEADER_SIZE)).
Definition lh_compress_gzip_put_header (output : buffer) (capacity written : Z) : outcome (buffer * Z) :=
  must_write (lh_compress_gzip_try_put_header capacity written) output.
Definition lh_compress_gzip_try_put_trailer (crc decoded_size capacity written : Z) : writing Z :=
  let used := written in
  if (used >? capacity) || (u64 (capacity - used) <? LH_COMPRESS_GZIP_TRAILER_SIZE) then only refuse else
  _ ← store (fun output => lh_bit_pack_le32 crc output used);
  _ ← store (fun output => lh_bit_pack_le32 (u32 decoded_size) output (u64 (used + 4)));
  mret (u64 (used + LH_COMPRESS_GZIP_TRAILER_SIZE)).
Definition lh_compress_gzip_put_trailer (crc decoded_size : Z) (output : buffer) (capacity written : Z) : outcome (buffer * Z) :=
  must_write (lh_compress_gzip_try_put_trailer crc decoded_size capacity written) output.
Definition lh_compress_gzip_try_bound (size : Z) : option Z :=
  let frame := u32 (LH_COMPRESS_GZIP_HEADER_SIZE + LH_COMPRESS_GZIP_TRAILER_SIZE) in
  match lh_compress_deflate_try_bound size with
  | None => None
  | Some stream => if adds_over stream frame then None else Some (u64 (stream + frame))
  end.
Definition lh_compress_gzip_bound (size : Z) : outcome Z := must (Done (lh_compress_gzip_try_bound size)).
Definition lh_compress_gzip_try_encode (encoder : lh_compress_deflate_encoder_t) (input : buffer) (input_size : Z)
    (output : buffer) (capacity : Z) : outcome (lh_compress_deflate_encoder_t * buffer * option Z) :=
  '(output, used) ← lh_compress_gzip_try_put_header capacity 0 output;
  match used with
  | None => mret (encoder, output, None)
  | Some used =>
    if u64 (capacity - used) <? LH_COMPRESS_GZIP_TRAILER_SIZE then mret (encoder, output, None) else
    '(encoder, rest, body) ← lh_compress_deflate_try_encode encoder input input_size (drop (Z.to_nat used) output)
      (u64 (u64 (capacity - used) - LH_COMPRESS_GZIP_TRAILER_SIZE));
    let output := take (Z.to_nat used) output ++ rest in
    match body with
    | None => mret (encoder, output, None)
    | Some body =>
      let used := u64 (used + body) in
      crc ← lh_hash_crc32 input input_size;
      '(output, used) ← lh_compress_gzip_try_put_trailer crc input_size capacity used output;
      mret (encoder, output, used)
    end
  end.
Definition lh_compress_gzip_encode (encoder : lh_compress_deflate_encoder_t) (input : buffer) (input_size : Z)
    (output : buffer) (capacity : Z) : outcome (lh_compress_deflate_encoder_t * buffer * Z) :=
  '(e, output, r) ← lh_compress_gzip_try_encode encoder input input_size output capacity;
  match r with Some n => Done (e, output, n) | None => Fault lh_runtime_error_code_invalid_range end.
