(* ===== verification/GzipProofs.v ===== *)
(** * Gzip: the members and the round trip

    The format of RFC 1952, without reference to the code: [header], [member] and
    [members].  The header decoder, a machine that takes a byte at a time, accepts exactly the
    headers ([header_decides]); the decoder of a buffer accepts exactly the sequences of members
    and gives their data; what the encoder writes is one member with the input as its data. *)
From S2P Require Import Prelude Buffer Bytes Hash Swar Memory Block Deflate HuffmanProofs DeflateSpec PutProofs InflateProofs DeflateProofs Gzip.

(** ** The format *)

Definition crc32 (bs : list Z) : Z := Z.lxor (crc_fold 0xFFFFFFFF bs LH_HASH_CRC32_POLYNOMIAL) 0xFFFFFFFF.
(** The optional parts of a header: a counted field, a text that ends in a zero byte, and the low
    half of the checksum of the bytes before it. *)
Definition counted (e : list Z) : Prop := exists k bs, e = k ++ bs /\ len k = 2 /\ is_bytes k /\ is_bytes bs /\ le_value k = len bs.
Definition text (e : list Z) : Prop := exists s, e = s ++ [0] /\ Forall (fun c => 0 < c < 256) s.
Definition check (pre e : list Z) : Prop := len e = 2 /\ is_bytes e /\ le_value e = crc32 pre mod 65536.
Definition part (flags i : Z) (P : list Z -> Prop) (e : list Z) : Prop := if Z.testbit flags i then P e else e = [].
(** The parts behind [pre]. *)
Definition parts_check (flags : Z) (pre r : list Z) : Prop := part flags 1 (check pre) r.
Definition parts_comment (flags : Z) (pre r : list Z) : Prop := exists c r', r = c ++ r' /\ part flags 4 text c /\ parts_check flags (pre ++ c) r'.
Definition parts_name (flags : Z) (pre r : list Z) : Prop := exists n r', r = n ++ r' /\ part flags 3 text n /\ parts_comment flags (pre ++ n) r'.
Definition parts (flags : Z) (pre r : list Z) : Prop := exists e r', r = e ++ r' /\ part flags 2 counted e /\ parts_name flags (pre ++ e) r'.
(** The three highest flags are reserved; time, level and system may be anything. *)
Definition header (h : list Z) : Prop := exists flags info r,
  h = [31; 139; 8; flags] ++ info ++ r /\ 0 <= flags < 32 /\ len info = 6 /\ is_bytes info /\ parts flags ([31; 139; 8; flags] ++ info) r.

(** A stream in whole bytes, a member and a file of members with their data. *)
Definition deflated (s d : list Z) : Prop := exists w, stream 0 w [] d /\ next_bits s (len s) 0 w /\ len s = (len w + 7) / 8.
Definition trailer (t d : list Z) : Prop := len t = 8 /\ le_value (take 4 t) = crc32 d /\ le_value (drop 4 t) = len d mod 2 ^ 32.
Definition member (f d : list Z) : Prop := exists h s t, f = h ++ s ++ t /\ header h /\ deflated s d /\ trailer t d.
Inductive members : list Z -> list Z -> Prop :=
| members_none : members [] []
| members_next f d f' d' : member f d -> members f' d' -> members (f ++ f') (d ++ d').

(** ** The checksum *)

Definition crc_next (crc b : Z) : Z := Z.lxor (lh_hash_crc_reflected_byte (Z.lxor crc 0xFFFFFFFF) b LH_HASH_CRC32_POLYNOMIAL) 0xFFFFFFFF.
Lemma crc32_update_one crc b : lh_hash_crc32_update crc [b] 1 = Done (crc_next crc b).
Proof. done. Qed.
Lemma lxor_twice x y : Z.lxor (Z.lxor x y) y = x.
Proof. by rewrite Z.lxor_assoc, Z.lxor_nilpotent, Z.lxor_0_r. Qed.
Lemma crc32_snoc pre b : crc32 (pre ++ [b]) = crc_next (crc32 pre) b.
Proof. unfold crc32, crc_next, crc_fold. by rewrite foldl_app, lxor_twice. Qed.
Lemma crc32_of data size : 0 <= size <= len data -> lh_hash_crc32 data size = Done (crc32 (take (Z.to_nat size) data)).
Proof. intros. unfold lh_hash_crc32, lh_hash_crc32_update. by rewrite crc_update_fold. Qed.
Lemma crc32_range bs : is_bytes bs -> is_u32 (crc32 bs).
Proof.
  intros Hb. apply (lxor_range 32); [lia| |lia]. apply crc_fold_range; [lia|compute; split; congruence|lia|done|lia].
Qed.

(** ** The header decoder as a machine *)

Notation done_ := lh_compress_gzip_header_decoder_phase_done.
Notation error_ := lh_compress_gzip_header_decoder_phase_error.
(** A byte: counted, added to the checksum unless it belongs to it, and taken. *)
Definition fed (d : decoder) (b : Z) : decoder :=
  let c := lh_compress_gzip_header_decoder_set_size d (u64 (hd_size d + 1)) in
  let c := match hd_phase d with
           | lh_compress_gzip_header_decoder_phase_crc_low | lh_compress_gzip_header_decoder_phase_crc_high => c
           | _ => lh_compress_gzip_header_decoder_set_crc c (crc_next (hd_crc d) b)
           end in
  header_byte c (hd_phase d) b.
(** The machine takes exactly these bytes. *)
Inductive runs : decoder -> list Z -> Prop :=
| runs_done d : hd_phase d = done_ -> runs d []
| runs_byte d b r : hd_phase d <> done_ -> hd_phase d <> error_ -> is_u8 b -> runs (fed d b) r -> runs d (b :: r).
Lemma runs_at_done d r : hd_phase d = done_ -> runs d r <-> r = [].
Proof. intros H. split; [by inversion 1|]. intros ->. by constructor. Qed.
Lemma runs_at_error d r : hd_phase d = error_ -> ~ runs d r.
Proof. intros H. inversion 1; congruence. Qed.
Lemma runs_on d r : hd_phase d <> done_ -> hd_phase d <> error_ -> runs d r <-> exists b r', r = b :: r' /\ is_u8 b /\ runs (fed d b) r'.
Proof.
  intros H1 H2. split; [inversion 1; [done|eauto]|]. intros (b & r' & -> & Hb & Hr). by constructor.
Qed.

Lemma header_byte_keeps d p b : hd_size (header_byte d p b) = hd_size d /\ hd_limit (header_byte d p b) = hd_limit d.
Proof.
  unfold header_byte, lh_compress_gzip_header_decoder_next, lh_compress_gzip_header_decoder_get_flags.
  destruct p; cbv zeta; repeat case_match; done.
Qed.
Lemma fed_keeps d b : hd_size (fed d b) = u64 (hd_size d + 1) /\ hd_limit (fed d b) = hd_limit d.
Proof.
  unfold fed. rewrite !(proj1 (header_byte_keeps _ _ _)), !(proj2 (header_byte_keeps _ _ _)). by destruct (hd_phase d).
Qed.
(** The loop runs the machine until it is done; it never reaches the limit of a whole input. *)
Lemma header_loop_runs input size fuel : forall d i, is_bytes input -> 0 <= i <= size -> size <= len input -> size < 2 ^ 63 ->
  hd_size d = i -> hd_limit d = size -> size - i < Z.of_nat fuel ->
  exists d' j, header_loop fuel d input size i = Done (d', j) /\
    forall n, (hd_phase d' = done_ /\ n = j) <-> (i <= n <= size /\ runs d (take (Z.to_nat (n - i)) (drop (Z.to_nat i) input))).
Proof.
  induction fuel as [|fuel IH]; intros d i Hb Hi Hl H63 Es El Hf; [lia|]. cbn [header_loop].
  assert (Hstop : hd_phase d = done_ \/ i = size -> forall n, (hd_phase d = done_ /\ n = i) <-> (i <= n <= size /\ runs d (take (Z.to_nat (n - i)) (drop (Z.to_nat i) input)))).
  { intros Hs n. split.
    - intros [Hd ->]. split; [lia|]. rewrite Z.sub_diag. by constructor.
    - intros [Hn Hr]. destruct Hs as [Hd|Hz].
      + split; [done|]. apply runs_at_done in Hr; [|done]. apply (f_equal length) in Hr. rewrite length_take, length_drop in Hr. simpl in Hr. lia.
      + replace (n - i) with 0 in Hr by lia. inversion Hr. split; [done|lia]. }
  destruct (Z.ltb_spec i size) as [Hlt|Hge]; [|exists d, i; split; [done|apply Hstop; lia]].
  unfold lh_compress_gzip_header_decoder_get_phase, lh_compress_gzip_header_decoder_get_size, lh_compress_gzip_header_decoder_get_limit.
  destruct (bool_decide_reflect (hd_phase d = done_)) as [Hd|Hd]; [exists d, i; split; [done|apply Hstop; by left]|].
  destruct (bool_decide_reflect (hd_phase d = error_)) as [He|He]; cbn [orb].
  { exists d, i. split; [done|]. intros n. split; [by intros [? _]|]. intros [_ Hr]. by apply runs_at_error in Hr. }
  rewrite Es, El, Z.geb_leb, (proj2 (Z.leb_gt _ _)) by lia. destruct (load_byte input i Hb ltac:(lia)) as (b & Eb & Hu). rewrite Eb, bind_done, u64_id by zb.
  assert (Efed : (self ← (if negb (bool_decide (hd_phase d = lh_compress_gzip_header_decoder_phase_crc_low)) &&
                 negb (bool_decide (hd_phase d = lh_compress_gzip_header_decoder_phase_crc_high)) then
                crc ← lh_hash_crc32_update (lh_compress_gzip_header_decoder_get_crc (lh_compress_gzip_header_decoder_set_size d (i + 1))) [b] 1;
                mret (lh_compress_gzip_header_decoder_set_crc (lh_compress_gzip_header_decoder_set_size d (i + 1)) crc)
              else mret (lh_compress_gzip_header_decoder_set_size d (i + 1)));
      header_loop fuel (header_byte self (hd_phase d) b) input size (i + 1)) = header_loop fuel (fed d b) input size (i + 1)).
  { unfold fed. rewrite Es, u64_id by zb. destruct (hd_phase d); reflexivity. }
  rewrite Efed. destruct (IH (fed d b) (i + 1) Hb) as (d' & j & E & Hj); [lia|lia|done| | |lia|].
  { rewrite (proj1 (fed_keeps d b)), u64_id; zb. }
  { by rewrite (proj2 (fed_keeps d b)). }
  exists d', j. split; [done|]. intros n. rewrite Hj, (runs_on d) by done.
  assert (Ei : drop (Z.to_nat i) input = b :: drop (Z.to_nat (i + 1)) input).
  { replace (Z.to_nat (i + 1)) with (S (Z.to_nat i)) by lia. apply drop_S. revert Eb. unfold load. rewrite (proj2 (Z.ltb_ge _ _)) by lia.
    by destruct (input !! Z.to_nat i); [intros [= ->]|]. }
  split.
  - intros [Hn Hr]. split; [lia|]. eexists b, _. rewrite Ei. replace (Z.to_nat (n - i)) with (S (Z.to_nat (n - (i + 1)))) by lia. done.
  - intros (Hn & b' & r' & E' & _ & Hr). destruct (decide (n = i)) as [->|]; [by rewrite Z.sub_diag in E'|]. split; [lia|].
    rewrite Ei in E'. replace (Z.to_nat (n - i)) with (S (Z.to_nat (n - (i + 1)))) in E' by lia. cbn [take firstn] in E'. by injection E' as <- <-.
Qed.

(** ** The machine takes the format *)

Definition cleared (d : decoder) (p : lh_compress_gzip_header_decoder_phase_t) (i : Z) : decoder :=
  lh_compress_gzip_header_decoder_set_phase (lh_compress_gzip_header_decoder_set_flags d (Z.clearbit (hd_flags d) i)) p.
Lemma next_spec d : 0 <= hd_flags d < 32 -> lh_compress_gzip_header_decoder_next d =
  if Z.testbit (hd_flags d) 2 then cleared d lh_compress_gzip_header_decoder_phase_extra_low 2 else
  if Z.testbit (hd_flags d) 3 then cleared d lh_compress_gzip_header_decoder_phase_name 3 else
  if Z.testbit (hd_flags d) 4 then cleared d lh_compress_gzip_header_decoder_phase_comment 4 else
  if Z.testbit (hd_flags d) 1 then cleared d lh_compress_gzip_header_decoder_phase_crc_low 1 else
  lh_compress_gzip_header_decoder_set_phase d done_.
Proof.
  unfold cleared, lh_compress_gzip_header_decoder_next, lh_compress_gzip_header_decoder_get_flags. destruct d as [si li re cr va fl fx ph]. cbn [hd_flags]. intros Hf.
  destruct fl as [|p|p]; [done| |lia]. do 5 (destruct p as [p|p|]; [| |done]); try lia; done.
Qed.
Lemma clearbit_small f i : 0 <= f < 32 -> 0 <= Z.clearbit f i < 32.
Proof.
  intros Hf. rewrite Z.clearbit_spec'. assert (0 <= Z.ldiff f (2 ^ i)) by (apply Z.ldiff_nonneg; lia).
  assert (Z.ldiff f (2 ^ i) <= f); [|lia]. apply Z.ldiff_le; [lia|]. apply Z.bits_inj'. intros n _. rewrite !Z.ldiff_spec, Z.bits_0.
  by destruct (Z.testbit f n), (Z.testbit (2 ^ i) n).
Qed.
Lemma part_clear f i j P e : i <> j -> part (Z.clearbit f i) j P e = part f j P e.
Proof. intros H. unfold part. by rewrite Z.clearbit_neq. Qed.

Ltac hd_simpl := cbn [fed header_byte hd_phase hd_crc hd_flags hd_value hd_remaining hd_size hd_limit hd_fixed
  lh_compress_gzip_header_decoder_set_phase lh_compress_gzip_header_decoder_set_value lh_compress_gzip_header_decoder_set_crc
  lh_compress_gzip_header_decoder_set_size lh_compress_gzip_header_decoder_set_remaining lh_compress_gzip_header_decoder_set_flags
  lh_compress_gzip_header_decoder_set_fixed lh_compress_gzip_header_decoder_get_value lh_compress_gzip_header_decoder_get_crc
  lh_compress_gzip_header_decoder_get_remaining lh_compress_gzip_header_decoder_get_fixed lh_compress_gzip_header_decoder_get_flags cleared].

Lemma low_high l h : is_u8 l -> is_u8 h -> u16 (Z.lor l (Z.shiftl h 8)) = le_value [l; h].
Proof.
  intros Hl Hh. rewrite Z.lor_comm, lor_bytes by done. rewrite !le_value_cons by (done || by constructor). cbn [le_value]. rewrite u16_id by zb. lia.
Qed.
Lemma runs_check d pre r : hd_phase d = lh_compress_gzip_header_decoder_phase_crc_low -> hd_crc d = crc32 pre -> runs d r <-> check pre r.
Proof.
  intros Hp Hc. destruct d as [si li re cr va fl fx ph]. cbn [hd_phase hd_crc] in Hp, Hc. subst ph cr.
  assert (E : forall l h, is_u8 l -> is_u8 h -> (u16 (Z.lor l (Z.shiftl h 8)) =? Z.land (crc32 pre) 65535) = (le_value [l; h] =? crc32 pre mod 65536)).
  { intros l h Hl Hh. rewrite low_high by done. change 65535 with (Z.ones 16). by rewrite Z.land_ones. }
  rewrite runs_on by done. split.
  - intros (l & r1 & -> & Hl & Hr). apply runs_on in Hr as (h & r2 & -> & Hh & Hr); [|done..]. revert Hr. unfold fed. hd_simpl. rewrite E by done.
    destruct (Z.eqb_spec (le_value [l; h]) (crc32 pre mod 65536)) as [He|]; [|intros Hr; by apply runs_at_error in Hr].
    intros Hr. apply runs_at_done in Hr as ->; [|done]. split; [done|]. split; [by do 2 (constructor; [done|])|done].
  - intros (Hl & Hb & He). destruct r as [|l [|h [|]]]; try (cbn [length] in Hl; lia). inversion_clear Hb as [|? ? Hl' Hb']. inversion_clear Hb' as [|? ? Hh _].
    exists l, [h]. split_and!; [done|done|]. apply runs_on; [done..|]. exists h, []. split_and!; [done|done|]. unfold fed. hd_simpl. rewrite E by done.
    rewrite (proj2 (Z.eqb_eq _ _) He). by constructor.
Qed.

(** The parts after the next one, from any state with the right checksum and flags. *)
Definition goes_on (f : Z) (Q : list Z -> list Z -> Prop) : Prop :=
  forall d pre r, hd_crc d = crc32 pre -> hd_flags d = f -> runs (lh_compress_gzip_header_decoder_next d) r <-> Q pre r.
Lemma runs_text Q r : forall d pre, hd_phase d = lh_compress_gzip_header_decoder_phase_name \/ hd_phase d = lh_compress_gzip_header_decoder_phase_comment ->
  hd_crc d = crc32 pre -> goes_on (hd_flags d) Q ->
  runs d r <-> exists e r', r = e ++ r' /\ text e /\ Q (pre ++ e) r'.
Proof.
  induction r as [|b r IH]; intros d pre Hp Hc HQ.
  { split; [inversion 1; destruct Hp; congruence|]. intros (e & r' & E & (s & -> & _) & _). by destruct s. }
  rewrite runs_on by (destruct Hp; congruence).
  assert (Ef : fed d b = if b =? 0 then lh_compress_gzip_header_decoder_next (lh_compress_gzip_header_decoder_set_crc (lh_compress_gzip_header_decoder_set_size d (u64 (hd_size d + 1))) (crc32 (pre ++ [b])))
    else lh_compress_gzip_header_decoder_set_crc (lh_compress_gzip_header_decoder_set_size d (u64 (hd_size d + 1))) (crc32 (pre ++ [b]))).
  { rewrite crc32_snoc, <- Hc. unfold fed. by destruct Hp as [-> | ->]. }
  destruct (Z.eqb_spec b 0) as [->|Hb0]; (split; [intros (b' & r' & [= <- <-] & Hb & Hr)|]).
  - rewrite Ef in Hr. apply (HQ _ (pre ++ [0])) in Hr; [|done..]. exists [0], r. split_and!; [done|by exists []|done].
  - intros (e & r' & E & (s & -> & Hs) & Hq). destruct s as [|c s]; [|injection E as <- _; inversion_clear Hs; lia].
    injection E as ->. eexists _, _. split_and!; [done|zb|]. rewrite Ef. by apply (HQ _ (pre ++ [0])).
  - rewrite Ef in Hr. apply (IH _ (pre ++ [b])) in Hr as (e & r' & -> & (s & -> & Hs) & Hq); [|done..].
    exists (b :: s ++ [0]), r'. rewrite <- app_assoc in Hq. split_and!; [done| |done]. exists (b :: s). split; [done|]. constructor; [zb|done].
  - intros (e & r' & E & (s & -> & Hs) & Hq). destruct s as [|c s]; [by injection E as -> _|]. injection E as <- ->. inversion_clear Hs as [|? ? Hc0 Hs'].
    eexists _, _. split_and!; [done|zb|]. rewrite Ef. apply (IH _ (pre ++ [b])); [done..|]. exists (s ++ [0]), r'. split_and!; [done|by exists s|]. by rewrite <- app_assoc.
Qed.
Lemma runs_extra Q r : forall d pre, hd_phase d = lh_compress_gzip_header_decoder_phase_extra -> 0 < hd_remaining d < 65536 ->
  hd_crc d = crc32 pre -> goes_on (hd_flags d) Q ->
  runs d r <-> exists bs r', r = bs ++ r' /\ len bs = hd_remaining d /\ is_bytes bs /\ Q (pre ++ bs) r'.
Proof.
  induction r as [|b r IH]; intros d pre Hp Hk Hc HQ.
  { split; [inversion 1; congruence|]. intros (bs & r' & E & Hl & _). destruct bs; [cbn [length] in Hl; lia|done]. }
  rewrite runs_on by congruence.
  set (d1 := lh_compress_gzip_header_decoder_set_remaining (lh_compress_gzip_header_decoder_set_crc
    (lh_compress_gzip_header_decoder_set_size d (u64 (hd_size d + 1))) (crc32 (pre ++ [b]))) (hd_remaining d - 1)).
  assert (Ef : fed d b = if hd_remaining d - 1 =? 0 then lh_compress_gzip_header_decoder_next d1 else d1).
  { unfold d1. rewrite crc32_snoc, <- Hc. unfold fed. rewrite Hp. hd_simpl. by rewrite u64_id by zb. }
  destruct (Z.eqb_spec (hd_remaining d - 1) 0) as [H1|H1]; (split; [intros (b' & r' & [= <- <-] & Hb & Hr)|]).
  - rewrite Ef in Hr. apply (HQ _ (pre ++ [b])) in Hr; [|done..]. exists [b], r. split_and!; [done|cbn [length]; lia|by constructor|done].
  - intros (bs & r' & E & Hl & Hbs & Hq). destruct bs as [|c [|]]; try (cbn [length] in Hl; lia). injection E as <- ->. inversion_clear Hbs.
    eexists _, _. split_and!; [done|done|]. rewrite Ef. by apply (HQ _ (pre ++ [b])).
  - rewrite Ef in Hr. apply (IH _ (pre ++ [b])) in Hr as (bs & r' & -> & Hl & Hbs & Hq); [|done|unfold d1; hd_simpl; lia|done..].
    exists (b :: bs), r'. rewrite <- app_assoc in Hq. unfold d1 in Hl. revert Hl. hd_simpl. intros Hl. split_and!; [done|cbn [length]; lia|by constructor|done].
  - intros (bs & r' & E & Hl & Hbs & Hq). destruct bs as [|c bs]; [cbn [length] in Hl; lia|]. injection E as <- ->. inversion_clear Hbs as [|? ? Hb Hbs'].
    eexists _, _. split_and!; [done|done|]. rewrite Ef. apply (IH _ (pre ++ [b])); [done|unfold d1; hd_simpl; lia|done..|]. exists bs, r'.
    unfold d1. hd_simpl. cbn [length] in Hl. rewrite <- app_assoc. split_and!; (done || lia).
Qed.
Lemma runs_counted Q r d pre : hd_phase d = lh_compress_gzip_header_decoder_phase_extra_low -> hd_crc d = crc32 pre -> goes_on (hd_flags d) Q ->
  runs d r <-> exists e r', r = e ++ r' /\ counted e /\ Q (pre ++ e) r'.
Proof.
  intros Hp Hc HQ. rewrite runs_on by congruence.
  assert (Hstep : forall l r1, is_u8 l -> runs (fed d l) r1 <-> exists h r2, r1 = h :: r2 /\ is_u8 h /\
    exists bs r', r2 = bs ++ r' /\ len bs = le_value [l; h] /\ is_bytes bs /\ Q (pre ++ [l; h] ++ bs) r').
  { intros l r1 Hl. destruct d as [si li re cr va fl fx ph]. cbn [hd_phase hd_crc hd_flags] in Hp, Hc, HQ. subst ph cr.
    unfold fed. hd_simpl. rewrite runs_on by done. f_equiv. intros h. f_equiv. intros r2.
    assert (Ec : crc_next (crc_next (crc32 pre) l) h = crc32 (pre ++ [l; h])) by (by rewrite <- !crc32_snoc, <- app_assoc).
    split; intros (-> & Hh & H); (split; [done|]; split; [done|]); revert H; unfold fed; hd_simpl; rewrite Ec, low_high by done;
      (assert (Hv : 0 <= le_value [l; h] < 65536) by (rewrite !le_value_cons by done; cbn [le_value]; zb); destruct (Z.eqb_spec (le_value [l; h]) 0) as [E0|E0]).
    - intros H. apply (HQ _ (pre ++ [l; h])) in H; [|done..]. exists [], r2. rewrite E0. split_and!; [done|done|by constructor|done].
    - intros H. apply (runs_extra Q _ _ (pre ++ [l; h])) in H as (bs & r' & -> & Hn & Hb & Hq); [|done|hd_simpl; lia|done..]. exists bs, r'.
      rewrite <- app_assoc in Hq. done.
    - intros (bs & r' & -> & Hn & Hb & Hq). destruct bs; [|cbn [length] in Hn; lia]. by apply (HQ _ (pre ++ [l; h])).
    - intros (bs & r' & -> & Hn & Hb & Hq). apply (runs_extra Q _ _ (pre ++ [l; h])); [done|hd_simpl; lia|done..|]. exists bs, r'. by rewrite <- app_assoc. }
  split.
  - intros (l & r1 & -> & Hl & Hr). apply Hstep in Hr as (h & r2 & -> & Hh & bs & r' & -> & Hn & Hb & Hq); [|done].
    exists ([l; h] ++ bs), r'. split_and!; [done| |done]. exists [l; h], bs. split_and!; try done. by do 2 (constructor; [done|]).
  - intros (e & r' & -> & (k & bs & -> & Hk & Hbk & Hb & Hn) & Hq). destruct k as [|l [|h [|]]]; try (cbn [length] in Hk; lia).
    inversion_clear Hbk as [|? ? Hl Hbk']. inversion_clear Hbk' as [|? ? Hh _]. eexists l, _. split_and!; [done|done|]. apply Hstep; [done|]. eauto 10.
Qed.

(** From the last part to the first. *)
Lemma goes_on_check f : 0 <= f < 32 -> Z.testbit f 2 = false -> Z.testbit f 3 = false -> Z.testbit f 4 = false -> goes_on f (parts_check f).
Proof.
  intros Hf H2 H3 H4 d pre r Hc Hd. rewrite next_spec by lia. rewrite Hd, H2, H3, H4. unfold parts_check, part.
  destruct (Z.testbit f 1); [by apply runs_check|by apply runs_at_done].
Qed.
Lemma goes_on_part f i P Q :
  (Z.testbit f i = true -> forall d pre r, hd_crc d = crc32 pre -> hd_flags d = f ->
    runs (lh_compress_gzip_header_decoder_next d) r <-> exists e r', r = e ++ r' /\ P e /\ Q (pre ++ e) r') ->
  (Z.testbit f i = false -> goes_on f Q) ->
  goes_on f (fun pre r => exists e r', r = e ++ r' /\ part f i P e /\ Q (pre ++ e) r').
Proof.
  intros Ht Hf d pre r Hc Hd. unfold part. destruct (Z.testbit f i); [by apply Ht|]. rewrite (Hf eq_refl d pre r Hc Hd). split.
  - intros H. exists [], r. by rewrite app_nil_r.
  - intros (? & r' & -> & -> & H). by rewrite app_nil_r in H.
Qed.
Lemma goes_on_ext f Q R : (forall pre r, Q pre r <-> R pre r) -> goes_on f Q -> goes_on f R.
Proof. intros H HQ d pre r Hc Hd. rewrite <- H. by apply HQ. Qed.
Ltac flag := rewrite ?Z.clearbit_eq, ?Z.clearbit_neq by lia; done.
Lemma parts_check_clear f i pre r : 1 <> i -> parts_check (Z.clearbit f i) pre r <-> parts_check f pre r.
Proof. intros H. unfold parts_check. by rewrite part_clear. Qed.
Lemma parts_comment_clear f i pre r : 4 <> i -> 1 <> i -> parts_comment (Z.clearbit f i) pre r <-> parts_comment f pre r.
Proof. intros H1 H2. unfold parts_comment. do 2 (f_equiv; intros ?). by rewrite part_clear, parts_check_clear. Qed.
Lemma parts_name_clear f i pre r : 3 <> i -> 4 <> i -> 1 <> i -> parts_name (Z.clearbit f i) pre r <-> parts_name f pre r.
Proof. intros H1 H2 H3. unfold parts_name. do 2 (f_equiv; intros ?). by rewrite part_clear, parts_comment_clear. Qed.
Lemma goes_on_comment f : 0 <= f < 32 -> Z.testbit f 2 = false -> Z.testbit f 3 = false -> goes_on f (parts_comment f).
Proof.
  intros Hf H2 H3. pose proof (clearbit_small f 4 Hf) as Hs. apply goes_on_part; intros H4; [|by apply goes_on_check].
  intros d pre r Hc Hd. rewrite next_spec by lia. rewrite Hd, H2, H3, H4. apply runs_text; [by right|done|]. unfold cleared. hd_simpl. rewrite Hd.
  eapply goes_on_ext; [|apply goes_on_check; (done || flag)]. intros. by apply parts_check_clear.
Qed.
Lemma goes_on_name f : 0 <= f < 32 -> Z.testbit f 2 = false -> goes_on f (parts_name f).
Proof.
  intros Hf H2. pose proof (clearbit_small f 3 Hf) as Hs. apply goes_on_part; intros H3; [|by apply goes_on_comment].
  intros d pre r Hc Hd. rewrite next_spec by lia. rewrite Hd, H2, H3. apply runs_text; [by left|done|]. unfold cleared. hd_simpl. rewrite Hd.
  eapply goes_on_ext; [|apply goes_on_comment; (done || flag)]. intros. by apply parts_comment_clear.
Qed.
Lemma goes_on_parts f : 0 <= f < 32 -> goes_on f (parts f).
Proof.
  intros Hf. pose proof (clearbit_small f 2 Hf) as Hs. apply goes_on_part; intros H2; [|by apply goes_on_name].
  intros d pre r Hc Hd. rewrite next_spec by lia. rewrite Hd, H2. apply runs_counted; [done|done|]. unfold cleared. hd_simpl. rewrite Hd.
  eapply goes_on_ext; [|apply goes_on_name; (done || flag)]. intros. by apply parts_name_clear.
Qed.
Definition fixed_at (d : decoder) (i : Z) (pre : list Z) : Prop :=
  hd_phase d = lh_compress_gzip_header_decoder_phase_fixed /\ hd_fixed d = i /\ hd_crc d = crc32 pre.
(** The state after one of the first ten bytes, before the next part. *)
Definition after_fixed (d : decoder) (b : Z) : decoder :=
  let d := lh_compress_gzip_header_decoder_set_crc (lh_compress_gzip_header_decoder_set_size d (u64 (hd_size d + 1))) (crc_next (hd_crc d) b) in
  lh_compress_gzip_header_decoder_set_fixed (if hd_fixed d =? 3 then lh_compress_gzip_header_decoder_set_flags d b else d) (hd_fixed d + 1).
Lemma after_fixed_at d i pre b : fixed_at d i pre -> fixed_at (after_fixed d b) (i + 1) (pre ++ [b]) /\ hd_flags (after_fixed d b) = if i =? 3 then b else hd_flags d.
Proof.
  intros (Hp & <- & Hc). unfold fixed_at, after_fixed. rewrite crc32_snoc, <- Hc. hd_simpl. by destruct (hd_fixed d =? 3).
Qed.
Lemma runs_fixed d i pre r : fixed_at d i pre -> 0 <= i < 10 ->
  runs d r <-> exists b r', r = b :: r' /\ is_u8 b /\ bad_fixed i b = false /\
    runs (if i =? 9 then lh_compress_gzip_header_decoder_next (after_fixed d b) else after_fixed d b) r'.
Proof.
  intros (Hp & Hi & _) H10. rewrite runs_on by congruence. do 2 (f_equiv; intros ?).
  assert (E : fed d a = if bad_fixed i a then lh_compress_gzip_header_decoder_set_phase (lh_compress_gzip_header_decoder_set_crc (lh_compress_gzip_header_decoder_set_size d (u64 (hd_size d + 1)))
      (crc_next (hd_crc d) a)) error_ else if i =? 9 then lh_compress_gzip_header_decoder_next (after_fixed d a) else after_fixed d a).
  { unfold fed, after_fixed. rewrite Hp. hd_simpl. rewrite Hi. destruct (bad_fixed i a); [done|].
    replace (lh_compress_gzip_header_decoder_get_fixed _) with i by (destruct (i =? 3); done). rewrite u8_id by zb. done. }
  rewrite E. destruct (bad_fixed i a); [|naive_solver]. split; [|naive_solver]. intros (_ & _ & H). by apply runs_at_error in H.
Qed.
(** The bytes four to nine may be anything. *)
Lemma runs_info Q n : forall d pre r, (1 <= n <= 6)%nat -> fixed_at d (10 - Z.of_nat n) pre -> goes_on (hd_flags d) Q ->
  runs d r <-> exists info r', r = info ++ r' /\ len info = Z.of_nat n /\ is_bytes info /\ Q (pre ++ info) r'.
Proof.
  induction n as [|n IH]; intros d pre r Hn Hd HQ; [lia|]. rewrite (runs_fixed _ _ _ _ Hd) by lia.
  assert (Hbad : forall b, bad_fixed (10 - Z.of_nat (S n)) b = false).
  { intros b. unfold bad_fixed. by rewrite !(proj2 (Z.eqb_neq (10 - Z.of_nat (S n)) _)) by lia. }
  assert (Hnext : forall b r', runs (if 10 - Z.of_nat (S n) =? 9 then lh_compress_gzip_header_decoder_next (after_fixed d b) else after_fixed d b) r' <->
    exists info r2, r' = info ++ r2 /\ len info = Z.of_nat n /\ is_bytes info /\ Q ((pre ++ [b]) ++ info) r2).
  { intros b r'. destruct (after_fixed_at d _ pre b Hd) as [Ha Hf]. rewrite (proj2 (Z.eqb_neq _ 3)) in Hf by lia.
    destruct (Z.eqb_spec (10 - Z.of_nat (S n)) 9) as [E|E].
    - assert (n = 0%nat) as -> by lia. rewrite (HQ (after_fixed d b) (pre ++ [b]) r' ltac:(apply Ha) Hf). split.
      + intros H. exists [], r'. rewrite app_nil_r. split_and!; (done || by constructor).
      + intros ([|] & r2 & -> & Hl & _ & H); [by rewrite app_nil_r in H|cbn [length] in Hl; lia].
    - apply IH; [lia| |by rewrite Hf]. by replace (10 - Z.of_nat n) with (10 - Z.of_nat (S n) + 1) by lia. }
  split.
  - intros (b & r' & -> & Hb & _ & Hr). apply Hnext in Hr as (info & r2 & -> & Hl & Hi & Hq). rewrite <- app_assoc in Hq.
    exists (b :: info), r2. split_and!; [done|cbn [length]; lia|by constructor|done].
  - intros (info & r2 & -> & Hl & Hi & Hq). destruct info as [|b info]; [cbn [length] in Hl; lia|]. inversion_clear Hi as [|? ? Hb Hi'].
    exists b, (info ++ r2). split_and!; [done|done|apply Hbad|]. apply Hnext. exists info, r2. rewrite <- app_assoc. cbn [length] in Hl. split_and!; (done || lia).
Qed.
Lemma flags_small b : is_u8 b -> Z.land b 224 = 0 <-> 0 <= b < 32.
Proof.
  intros Hb. split.
  - intros H. destruct (Z.ltb_spec b 32); [zb|]. exfalso. destruct b as [|p|p]; [zb| |zb].
    do 8 (try (destruct p as [p|p|])); try zb; discriminate H.
  - intros H. destruct b as [|p|p]; [done| |lia]. do 5 (try (destruct p as [p|p|])); try lia; done.
Qed.
Lemma bad_fixed_first i b k : bad_fixed i b = false -> (i, k) ∈ [(0, 31); (1, 139); (2, 8)] -> b = k.
Proof. rewrite !elem_of_cons, elem_of_nil. unfold bad_fixed. intros H [[= -> ->]|[[= -> ->]|[[= -> ->]|[]]]];
  cbn [Z.eqb Pos.eqb andb orb] in H; rewrite ?orb_false_r in H; by apply negb_false_iff, Z.eqb_eq in H. Qed.
Lemma runs_header d r : fixed_at d 0 [] -> runs d r <-> header r.
Proof.
  intros H0. set (d1 := after_fixed d 31). set (d2 := after_fixed d1 139). set (d3 := after_fixed d2 8).
  pose proof (proj1 (after_fixed_at d 0 [] 31 H0)) as H1. pose proof (proj1 (after_fixed_at d1 1 [31] 139 H1)) as H2.
  pose proof (proj1 (after_fixed_at d2 2 [31; 139] 8 H2)) as H3.
  assert (Hinfo : forall f r', 0 <= f < 32 -> runs (after_fixed d3 f) r' <-> exists info r2, r' = info ++ r2 /\ len info = 6 /\ is_bytes info /\ parts f ([31; 139; 8; f] ++ info) r2).
  { intros f r' Hf. destruct (after_fixed_at d3 3 [31; 139; 8] f H3) as [H4 Hfl]. cbn [Z.eqb Pos.eqb] in Hfl.
    apply (runs_info (parts f) 6); [lia|done|]. rewrite Hfl. by apply goes_on_parts. }
  rewrite (runs_fixed _ _ _ _ H0) by lia. split.
  - intros (b & r1 & -> & _ & B & Hr). apply (bad_fixed_first _ _ 31) in B as ->; [|set_solver]. change (runs d1 r1) in Hr.
    apply (runs_fixed _ _ _ _ H1) in Hr as (b & r2 & -> & _ & B & Hr); [|lia]. apply (bad_fixed_first _ _ 139) in B as ->; [|set_solver]. change (runs d2 r2) in Hr.
    apply (runs_fixed _ _ _ _ H2) in Hr as (b & r3 & -> & _ & B & Hr); [|lia]. apply (bad_fixed_first _ _ 8) in B as ->; [|set_solver]. change (runs d3 r3) in Hr.
    apply (runs_fixed _ _ _ _ H3) in Hr as (f & r4 & -> & Hu & B & Hr); [|lia]. change (runs (after_fixed d3 f) r4) in Hr.
    assert (Hf : 0 <= f < 32) by (apply flags_small; [done|]; unfold bad_fixed in B; lia).
    apply Hinfo in Hr as (info & r5 & -> & Hl & Hi & Hp); [|done]. by exists f, info, r5.
  - intros (f & info & r2 & -> & Hf & Hl & Hi & Hp). eexists _, _. split_and!; [done|zb|done|]. change (runs d1 ([139; 8; f] ++ info ++ r2)).
    apply (runs_fixed _ _ _ _ H1); [lia|]. eexists _, _. split_and!; [done|zb|done|]. change (runs d2 ([8; f] ++ info ++ r2)).
    apply (runs_fixed _ _ _ _ H2); [lia|]. eexists _, _. split_and!; [done|zb|done|]. change (runs d3 ([f] ++ info ++ r2)).
    apply (runs_fixed _ _ _ _ H3); [lia|]. eexists _, _. split_and!; [done|zb| |].
    + pose proof (proj2 (flags_small f ltac:(zb)) Hf). unfold bad_fixed. lia.
    + apply Hinfo; [done|]. by exists info, r2.
Qed.
Lemma try_header_decides input size : input_ok input size ->
  decides (lh_compress_gzip_try_header input size) (fun n => 0 <= n <= size /\ header (take (Z.to_nat n) input)).
Proof.
  intros (Hb & Hs & Hm). unfold lh_compress_gzip_try_header, lh_compress_gzip_header_decoder_try_feed. cbv zeta.
  set (d := lh_compress_gzip_header_decoder_init fresh_decoder size).
  destruct (header_loop_runs input size (S (Z.to_nat size)) d 0 Hb) as (d' & j & -> & Hj); [lia|lia|lia|done|done|lia|]. rewrite bind_done.
  unfold lh_compress_gzip_header_decoder_get_phase. cbn [surely mret outcome_ret]. change (mbind (M := attempt) ?f (Done (Some ?a))) with (f a). cbv beta iota.
  assert (Hr : forall n, (hd_phase d' = done_ /\ n = j) <-> (0 <= n <= size /\ header (take (Z.to_nat n) input))).
  { intros n. rewrite Hj, Z.sub_0_r. change (Z.to_nat 0) with 0%nat. rewrite drop_0, runs_header; done. }
  destruct (bool_decide_reflect (hd_phase d' = done_)) as [E|E]; cbn [negb].
  - eapply decides_ext; [|apply decides_ret]. intros n. rewrite <- Hr. naive_solver.
  - apply decides_refuse. intros n Hn. apply Hr in Hn. naive_solver.
Qed.

(** ** Trailers and streams in their place *)

Lemma lor_le32 a b c d : is_u8 a -> is_u8 b -> is_u8 c -> is_u8 d ->
  Z.lor (Z.lor a (u32 (Z.shiftl b 8))) (Z.lor (u32 (Z.shiftl c 16)) (u32 (Z.shiftl d 24))) = le_value [a; b; c; d].
Proof.
  intros Ha Hb Hc Hd. assert (E8 : 2 ^ 8 = 256) by done. assert (E16 : 2 ^ 16 = 65536) by done. assert (E24 : 2 ^ 24 = 16777216) by done.
  rewrite !Z.shiftl_mul_pow2 by lia. rewrite !u32_id by zb.
  rewrite (Z.lor_comm a), (lor_disjoint b a 8), (Z.lor_comm (c * 2 ^ 16)), (lor_disjoint d (c * 2 ^ 16) 24), Z.lor_comm by zb.
  replace (d * 2 ^ 24 + c * 2 ^ 16) with ((d * 2 ^ 8 + c) * 2 ^ 16) by lia. rewrite lor_disjoint by zb. rewrite !le_value_cons by done. cbn [le_value]. lia.
Qed.
Lemma unpack_le32_ok b i : is_bytes b -> 0 <= i -> i + 4 <= len b -> lh_bit_unpack_le32 b i = Done (le_value (take 4 (drop (Z.to_nat i) b))).
Proof.
  intros Hb Hi Hl. unfold lh_bit_unpack_le32.
  assert (E : forall j, 0 <= j < 4 -> load b (i + j) = load (take 4 (drop (Z.to_nat i) b)) j).
  { intros j Hj. rewrite load_take, load_drop by lia. f_equal. lia. }
  rewrite <- (Z.add_0_r i) at 1. rewrite !E by lia. pose proof (Forall_take is_u8 4 _ (Forall_drop is_u8 (Z.to_nat i) _ Hb)) as Hq.
  assert (Hq4 : length (take 4 (drop (Z.to_nat i) b)) = 4%nat) by (rewrite length_take, length_drop; lia).
  destruct (take 4 (drop (Z.to_nat i) b)) as [|x0 [|x1 [|x2 [|x3 [|]]]]]; try discriminate Hq4. clear E.
  rewrite !Forall_cons in Hq. destruct Hq as (H0 & H1 & H2 & H3 & _). rewrite <- lor_le32 by done. done.
Qed.
Lemma try_trailer_spec t size out n : is_bytes t -> 0 <= size <= len t -> 0 <= n <= len out ->
  exists ok, lh_compress_gzip_try_trailer t size out n = Done ok /\ (ok = true <-> 8 <= size /\ trailer (take 8 t) (take (Z.to_nat n) out)).
Proof.
  intros Hb Hs Hn. unfold lh_compress_gzip_try_trailer, lh_compress_gzip_try_trailer_values, LH_COMPRESS_GZIP_TRAILER_SIZE. rewrite crc32_of, bind_done by lia.
  destruct (Z.ltb_spec size 8) as [|H8]; [exists false; split; [done|]; split; [done|lia]|].
  rewrite !unpack_le32_ok by (done || lia). rewrite !bind_done. change (Z.to_nat 0) with 0%nat. change (Z.to_nat 4) with 4%nat. rewrite drop_0.
  assert (Et : forall X, trailer (take 8 t) X <-> le_value (take 4 t) = crc32 X /\ le_value (take 4 (drop 4 t)) = len X mod 2 ^ 32).
  { intros X. unfold trailer. rewrite length_take, take_take. change (take 4 (drop 4 t)) with (take (8 - 4) (drop 4 t)). rewrite take_drop_commute. change (4 + (8 - 4))%nat with 8%nat. change (4 `min` 8)%nat with 4%nat.
    split; [tauto|]. intros H. split; [lia|done]. }
  destruct (Z.eqb_spec (le_value (take 4 t)) (crc32 (take (Z.to_nat n) out))) as [E|E]; cbn [negb].
  - eexists. split; [done|]. rewrite Et, Z.eqb_eq. unfold u32. rewrite length_take. replace (Z.of_nat (Z.to_nat n `min` length out)) with n by lia.
    change (2 ^ 32) with 4294967296. tauto.
  - exists false. split; [done|]. rewrite Et. split; [done|]. tauto.
Qed.
Lemma bits_take input n a k : 0 <= a -> a + k <= 8 * n -> 0 <= k -> bits (take (Z.to_nat n) input) a k = bits input a k.
Proof.
  intros Ha Hn Hk. unfold bits. apply map_ext_in. intros i Hi. apply list_elem_of_In, elem_of_seqZ in Hi. unfold bit_at. rewrite byte_at_take by zdm. done.
Qed.
Lemma deflated_take input size n d : input_ok input size ->
  (exists w, stream 0 w [] d /\ next_bits input size 0 w /\ n = (len w + 7) / 8) <-> (0 <= n <= size /\ deflated (take (Z.to_nat n) input) d).
Proof.
  intros (Hb & Hs & Hm). unfold deflated, next_bits. split.
  - intros (w & Hw & (_ & He & Hn) & ->). split; [zdm|]. exists w. rewrite length_take. split_and!; [done|lia|zdm| |zdm].
    rewrite bits_take by zdm. done.
  - intros (Hn & w & Hw & (_ & He & Hn') & El). rewrite length_take in *. exists w. split_and!; [done|lia|lia| |lia]. rewrite <- Hn' at 2. by rewrite bits_take by zdm.
Qed.

(** ** The members of a file *)

Lemma header_length h : header h -> 10 <= len h.
Proof. intros (f & info & r & -> & _ & Hl & _). rewrite !length_app. cbn [length]. lia. Qed.
Lemma members_nil d : members [] d <-> d = [].
Proof.
  split; [|intros ->; constructor]. inversion 1 as [|f d1 f' d' (h & s & t & -> & Hh & _) _ E]; [done|].
  apply (f_equal length) in E. rewrite !length_app in E. pose proof (header_length h Hh). cbn [length] in E. lia.
Qed.
(** A writer on the rest of the output. *)
Lemma write_within_verdict {A} cap (m : writing A) out h P : holds cap out h -> verdict (cap - len h) m (drop (length h) out) P ->
  verdict cap (write_within (len h) m) out (fun a h' => exists d, h' = h ++ d /\ P a d).
Proof.
  intros (Hb & Ht & Hl & Hlen & H63) (out' & r & E & El & Eb & Ed & Hs & Hc). unfold verdict, write_within. rewrite Nat2Z.id, E, bind_done, Ht. rewrite length_drop in El.
  eexists _, _. split; [done|]. split_and!.
  - rewrite length_app. lia.
  - apply Forall_app. split; [|done]. rewrite <- Ht. by apply Forall_take.
  - rewrite drop_app_ge by lia. replace (Z.to_nat cap - length h)%nat with (Z.to_nat (cap - len h)) by lia. rewrite Ed, drop_drop. f_equal. lia.
  - intros a Ha. destruct (Hs a Ha) as [d Hd]. exists (h ++ d), d. done.
  - intros a h' (d & -> & Hd). destruct (Hc a d Hd) as [-> Hd']. split; [done|]. rewrite length_app, take_app_ge by lia.
    by replace (length h + length d - length h)%nat with (length d) by lia; rewrite Hd'.
Qed.
Lemma verdict_step {A B} cap (m : writing A) (f : A -> writing B) out a P : m out = Done (out, Some a) -> verdict cap (f a) out P -> verdict cap (m ≫= f) out P.
Proof. intros E. unfold verdict, mbind, writing_bind. by rewrite E. Qed.

Section members.
Context (input : buffer) (size : Z) (I : input_ok input size).
(** The input from [pos] on. *)
Definition rest (pos : Z) : list Z := take (Z.to_nat (size - pos)) (drop (Z.to_nat pos) input).
Lemma rest_split pos a r : 0 <= pos <= size ->
  rest pos = a ++ r <-> (pos + len a <= size /\ a = take (length a) (drop (Z.to_nat pos) input) /\ r = rest (pos + len a)).
Proof using I.
  destruct I as (_ & Hs & _). intros Hp. unfold rest.
  assert (E : pos + len a <= size -> take (Z.to_nat (size - pos)) (drop (Z.to_nat pos) input) =
    take (length a) (drop (Z.to_nat pos) input) ++ take (Z.to_nat (size - (pos + len a))) (drop (Z.to_nat (pos + len a)) input)).
  { intros Hl. replace (Z.to_nat (size - pos)) with (length a + Z.to_nat (size - (pos + len a)))%nat by lia.
    replace (Z.to_nat (pos + len a)) with (Z.to_nat pos + length a)%nat by lia. by rewrite <- drop_drop, take_take_drop. }
  split.
  - intros H. assert (Hl : pos + len a <= size).
    { apply (f_equal length) in H. rewrite length_take, length_drop, length_app in H. lia. }
    split; [done|]. rewrite (E Hl) in H. apply app_inj_1 in H as [-> <-]; [split; [|done]|]; rewrite ?length_take, ?length_drop; f_equal; lia.
  - intros (Hl & Ha & ->). rewrite (E Hl). by rewrite <- Ha.
Qed.
Lemma rest_ok pos : 0 <= pos <= size -> input_ok (drop (Z.to_nat pos) input) (size - pos).
Proof using I. destruct I as (Hb & Hs & Hm). intros Hp. split; [by apply Forall_drop|]. rewrite length_drop. lia. Qed.


(** A member at [pos] with the data [d], read by its parts. *)
Definition member_at (pos n c : Z) (d : list Z) : Prop :=
  (0 <= n <= size - pos /\ header (take (Z.to_nat n) (drop (Z.to_nat pos) input))) /\
  (0 <= c <= size - (pos + n) /\ deflated (take (Z.to_nat c) (drop (Z.to_nat (pos + n)) input)) d) /\
  (8 <= size - (pos + n + c) /\ trailer (take 8 (drop (Z.to_nat (pos + n + c)) input)) d).
Lemma members_rest pos d : 0 <= pos < size ->
  members (rest pos) d <-> exists n c d1 d2, d = d1 ++ d2 /\ member_at pos n c d1 /\ members (rest (pos + n + c + 8)) d2.
Proof using I.
  intros Hp. pose proof I as (_ & Hs & _). assert (Hlen : len (rest pos) = size - pos) by (unfold rest; rewrite length_take, length_drop; lia). split.
  - remember (rest pos) as f0 eqn:Ef. destruct 1 as [|f d1 f' d2 (h & s & t & -> & Hh & Hd & Ht) Hf]; [cbn [length] in Hlen; lia|].
    exists (len h), (len s), d1, d2. rewrite <- !app_assoc in Ef. symmetry in Ef. apply (rest_split pos) in Ef as (H1 & E1 & Ef); [|lia].
    symmetry in Ef. apply (rest_split (pos + len h)) in Ef as (H2 & E2 & Ef); [|lia]. symmetry in Ef. apply rest_split in Ef as (H3 & E3 & Ef); [|lia].
    pose proof Ht as (H8 & _). rewrite H8 in Ef, H3. replace (length t) with 8%nat in E3 by lia. split; [done|]. rewrite <- Ef. split; [|done].
    unfold member_at. rewrite !Nat2Z.id. rewrite <- E1, <- E2, <- E3. split_and!; (done || lia).
  - intros (n & c & d1 & d2 & -> & ((Hn & Hh) & (Hc & Hd) & H8 & Ht) & Hr).
    set (h := take (Z.to_nat n) _) in *. set (s := take (Z.to_nat c) _) in *. set (t := take 8 _) in *.
    assert (Lh : len h = n) by (unfold h; rewrite length_take, length_drop; lia). assert (Ls : len s = c) by (unfold s; rewrite length_take, length_drop; lia).
    assert (Lt : len t = 8) by (unfold t; rewrite length_take, length_drop; lia).
    assert (E : rest pos = (h ++ s ++ t) ++ rest (pos + n + c + 8)).
    { rewrite <- !app_assoc. apply rest_split; [lia|]. rewrite Lh. split_and!; [lia|unfold h at 1; f_equal; lia|]. symmetry.
      apply rest_split; [lia|]. rewrite Ls. split_and!; [lia|unfold s at 1; f_equal; lia|]. symmetry.
      apply rest_split; [lia|]. rewrite Lt. split_and!; [lia|unfold t at 1; f_equal; lia|done]. }
    rewrite E. constructor; [|done]. by exists h, s, t.
Qed.

(** The stream at [p], its data put behind [h], and the trailer at [p]. *)
Definition stream_at (cap p : Z) (h : list Z) (q : Z * Z) (h1 : list Z) : Prop :=
  exists d, h1 = h ++ d /\ (0 <= q.1 <= size - p /\ deflated (take (Z.to_nat q.1) (drop (Z.to_nat p) input)) d) /\ q.2 = len d /\ len h1 <= cap.
Lemma stream_at_verdict cap p h out : holds cap out h -> 0 <= p <= size ->
  verdict cap (write_within (len h) (lh_compress_deflate_try_decode (drop (Z.to_nat p) input) (u64 (size - p)) (u64 (cap - len h)))) out (stream_at cap p h).
Proof using I.
  intros H Hp. pose proof I as (_ & Hs & Hm). pose proof H as (Hb & _ & Hl & Hco & H63). rewrite !u64_id by zb. pose proof (rest_ok p Hp) as Ip.
  eapply verdict_ext; [|eapply write_within_verdict; [exact H|eapply try_decode_verdict; [exact Ip|]]].
  - intros q h1. unfold stream_at. f_equiv. intros d. cbv beta. split.
    + intros (-> & w & Hw & N & -> & Hd). cbn [fst snd]. split; [done|]. split; [apply (deflated_take _ _ _ _ Ip); by exists w|]. rewrite length_app. split; [done|lia].
    + intros (-> & Hd & E & Hl1). apply (deflated_take _ _ _ _ Ip) in Hd as (w & Hw & N & E1). rewrite length_app in Hl1. split; [done|]. exists w.
      destruct q as [q1 q2]. cbn [fst snd] in *. subst. split_and!; (done || lia).
  - split_and!; [by apply Forall_drop|done|cbn [length]; lia|rewrite length_drop; lia|lia].
Qed.
Lemma trailer_at_spec cap p h d out : holds cap out (h ++ d) -> 0 <= p <= size ->
  exists ok, trailer_at input size p (len h) (len d) out = Done (out, Some ok) /\ (ok = true <-> 8 <= size - p /\ trailer (take 8 (drop (Z.to_nat p) input)) d).
Proof using I.
  intros H Hp. pose proof I as (Hi & Hs & Hm). pose proof H as (Hb & Ht & Hl & Hco & H63). rewrite length_app in Ht, Hl. unfold trailer_at. rewrite u64_id by zb.
  destruct (try_trailer_spec (drop (Z.to_nat p) input) (size - p) (drop (Z.to_nat (len h)) out) (len d)) as (ok & -> & Hok);
    [by apply Forall_drop|rewrite length_drop; lia|rewrite length_drop; lia|].
  rewrite bind_done. exists ok. split; [done|]. rewrite Hok, !Nat2Z.id. rewrite (take_drop_commute out), Ht. by rewrite drop_app_length.
Qed.
(** The loop reads the members that are left. *)
Lemma gzip_members_loop_verdict cap fuel : forall pos h out, holds cap out h -> 0 <= pos <= size -> size - pos < Z.of_nat fuel ->
  verdict cap (gzip_members_loop fuel input size cap pos (len h)) out
    (fun n h' => n = len h' /\ len h' <= cap /\ exists d, h' = h ++ d /\ members (rest pos) d).
Proof using I.
  induction fuel as [|fuel IH]; intros pos h out H Hp Hf; [lia|]. cbn [gzip_members_loop]. pose proof I as (_ & Hs & Hm). pose proof (holds_length _ _ _ H) as Hlh.
  destruct (Z.ltb_spec pos size) as [Hlt|Hge].
  2: { eapply verdict_ext; [|by apply (holds_ret cap out h)]. intros n h'. unfold rest. replace (Z.to_nat (size - pos)) with 0%nat by lia. rewrite take_0. split.
       - intros [-> ->]. split_and!; [done|lia|]. exists []. by rewrite app_nil_r, members_nil.
       - intros (-> & _ & d & -> & Hd). apply members_nil in Hd as ->. by rewrite app_nil_r. }
  rewrite (u64_id (size - pos)) by zb.
  apply (verdict_ext _ _ _ (fun b h2 => exists n, (0 <= n <= size - pos /\ header (take (Z.to_nat n) (drop (Z.to_nat pos) input))) /\
    exists q h1, stream_at cap (pos + n) h q h1 /\
    ((8 <= size - (pos + n + q.1) /\ trailer (take 8 (drop (Z.to_nat (pos + n + q.1)) input)) (drop (length h) h1)) /\
    b = len h2 /\ len h2 <= cap /\ exists d2, h2 = h1 ++ d2 /\ members (rest (pos + n + q.1 + 8)) d2))).
  { intros b h2. split.
    - intros (n & Hn & [c u] & h1 & (d1 & -> & Hc & _ & _) & Ht & -> & Hl & d2 & -> & Hd2). cbn [fst snd] in *. rewrite drop_app_length in Ht.
      split_and!; [done|done|]. exists (d1 ++ d2). rewrite app_assoc. split; [done|]. apply members_rest; [lia|]. by exists n, c, d1, d2.
    - intros (-> & Hl & d & -> & Hd). apply members_rest in Hd as (n & c & d1 & d2 & -> & (Hn & Hc & Ht) & Hd2); [|lia].
      exists n. split; [done|]. exists (c, len d1), (h ++ d1). rewrite drop_app_length. rewrite app_assoc, length_app in Hl. split; [exists d1; split; [done|]; split; [exact Hc|]; split; [done|lia]|].
      split_and!; [by apply Ht|by apply Ht|done|rewrite app_assoc, length_app; lia|by exists d2; rewrite app_assoc]. }
  apply (holds_read cap _ _ out h); [done|by apply try_header_decides, rest_ok|]. intros n [Hn _]. rewrite (u64_id (pos + n)) by zb.
  apply (holds_bind cap _ _ out h (stream_at cap (pos + n) h)); [done|by apply stream_at_verdict; (done || lia)|by intros q h1 (_ & _ & _ & _ & ?)| |].
  { intros q h1 h1' (d & -> & _ & E & _) (d' & -> & _ & E' & _). rewrite !length_app. lia. }
  intros [c u] h1 out1 (d & -> & [Hc _] & Eu & _) H1 _. cbn [fst snd] in *. rewrite Eu, drop_app_length, (u64_id (pos + n + c)) by zb.
  pose proof (holds_length _ _ _ H1) as Hl1. pose proof H1 as (Hb1 & _ & _ & _ & H63). rewrite length_app in Hl1.
  destruct (trailer_at_spec cap (pos + n + c) h d out1 H1 ltac:(lia)) as (ok & E & Hok). eapply verdict_step; [exact E|]. cbv beta.
  destruct ok; cbn [negb].
  - destruct (proj1 Hok eq_refl) as [H8 Ht]. rewrite !u64_id by (unfold LH_COMPRESS_GZIP_TRAILER_SIZE; zb). replace (len h + len d) with (len (h ++ d)) by (rewrite length_app; lia).
    eapply verdict_ext; [|apply (IH (pos + n + c + LH_COMPRESS_GZIP_TRAILER_SIZE) (h ++ d) out1 H1); unfold LH_COMPRESS_GZIP_TRAILER_SIZE; lia].
    intros b h2. cbv beta. unfold LH_COMPRESS_GZIP_TRAILER_SIZE. tauto.
  - apply verdict_refuse; [done|]. intros b h2 [Ht _]. by apply Hok in Ht.
Qed.
End members.

(** The decoder of a buffer decides the format, and gives the data.  On any input and any output
    array it returns, writes nothing beyond the capacity, and accepts exactly the files of one
    or more members whose data fits. *)
Theorem gunzip_is_standard input size out cap :
  input_ok input size -> is_bytes out -> 0 <= cap <= len out -> cap < 2 ^ 63 ->
  exists out' r, lh_compress_gzip_try_decode input size cap out = Done (out', r) /\
    length out' = length out /\ is_bytes out' /\ drop (Z.to_nat cap) out' = drop (Z.to_nat cap) out /\
    (r <> None <-> size <> 0 /\ exists d, members (take (Z.to_nat size) input) d /\ len d <= cap) /\
    (forall d, size <> 0 -> members (take (Z.to_nat size) input) d -> len d <= cap -> r = Some (len d) /\ take (length d) out' = d).
Proof.
  intros I Hb Hc H63. pose proof I as (_ & Hs & _). unfold lh_compress_gzip_try_decode. destruct (Z.eqb_spec size 0) as [->|H0].
  { exists out, None. split_and!; try done. by split; [|intros []]. }
  assert (H : holds cap out []) by (split_and!; (done || (cbn [length]; lia))).
  assert (Er : rest input size 0 = take (Z.to_nat size) input) by (unfold rest; by rewrite Z.sub_0_r).
  destruct (gzip_members_loop_verdict input size I cap (S (Z.to_nat size)) 0 [] out H) as (out' & r & E & El & Eb & Ed & Hsound & Hcomp); [lia|lia|].
  rewrite Er in Hsound, Hcomp. exists out', r. split_and!; try done.
  - split.
    + destruct r as [n|]; [|done]. intros _. destruct (Hsound n eq_refl) as (h & _ & Hl & d & -> & Hd). split; [done|]. by exists d.
    + intros (_ & d & Hd & Hl). destruct (Hcomp (len d) d) as [-> _]; [split_and!; [done|done|by exists d]|done].
  - intros d _ Hd Hl. apply Hcomp. split_and!; [done|done|by exists d].
Qed.

(** ** Encoding *)

Definition le32 (v : Z) : list Z := [v mod 256; v / 256 mod 256; v / 65536 mod 256; v / 16777216 mod 256].
Lemma le32_bytes v : is_bytes (le32 v).
Proof. repeat constructor; zdm. Qed.
Lemma le_value_le32 v : is_u32 v -> le_value (le32 v) = v.
Proof.
  intros Hv. pose proof (le32_bytes v) as Hb. unfold is_bytes, le32 in *. rewrite !Forall_cons in Hb. rewrite !le_value_cons by tauto. cbn [le_value]. zdm.
Qed.
Lemma pack_le32_ok v p a b c d tl : is_u32 v -> lh_bit_pack_le32 v (p ++ [a; b; c; d] ++ tl) (len p) = Done (p ++ le32 v ++ tl).
Proof.
  intros Hv. unfold lh_bit_pack_le32. cbn [app]. rewrite put_next, bind_done.
  replace (len p + 1) with (len (p ++ [u8 v])) by (rewrite length_app; cbn [length]; lia). rewrite put_next, bind_done.
  replace (len p + 2) with (len ((p ++ [u8 v]) ++ [u8 (Z.shiftr v 8)])) by (rewrite !length_app; cbn [length]; lia). rewrite put_next, bind_done.
  replace (len p + 3) with (len (((p ++ [u8 v]) ++ [u8 (Z.shiftr v 8)]) ++ [u8 (Z.shiftr v 16)])) by (rewrite !length_app; cbn [length]; lia). rewrite put_next.
  rewrite <- !app_assoc. cbn [app]. rewrite !Z.shiftr_div_pow2 by lia. done.
Qed.
Definition plain_header : list Z := [31; 139; 8; 0; 0; 0; 0; 0; 0; 255].
Lemma plain_header_ok : header plain_header.
Proof.
  exists 0, [0; 0; 0; 0; 0; 255], []. split_and!; [done|lia|done|done|repeat constructor; zb|].
  exists [], []. split_and!; [done|done|]. exists [], []. split_and!; [done|done|]. exists [], []. by split_and!.
Qed.
Lemma put_header_ok out cap : is_bytes out -> 0 <= cap <= len out -> cap < 2 ^ 63 ->
  lh_compress_gzip_try_put_header cap 0 out = if cap <? 10 then Done (out, None) else Done (plain_header ++ drop 10 out, Some 10).
Proof.
  intros Hb Hc H63. unfold lh_compress_gzip_try_put_header, LH_COMPRESS_GZIP_HEADER_SIZE. cbv zeta. rewrite Z.gtb_ltb, (proj2 (Z.ltb_ge cap 0)), Z.sub_0_r, u64_id by zb.
  cbn [orb]. destruct (Z.ltb_spec cap 10) as [|H10]; [done|].
  assert (Hl : (10 <= length out)%nat) by lia. do 10 (destruct out as [|? out]; [cbn [length] in Hl; lia|]).
  unfold mbind, writing_bind, store, set_bytes. rewrite copy_ok by (rewrite ?length_replicate; cbn [length]; lia).
  set (l := take _ _ ++ _). change l with ([0; 0; 0; 0; 0; 0; 0; 0; 0; 0] ++ out). clear l.
  rewrite put_ok by (cbn [length app]; lia). cbv iota beta. rewrite put_ok by (cbn [length app insert list_insert Z.to_nat]; rewrite ?length_insert; cbn [length app]; lia).
  rewrite put_ok by (rewrite ?length_insert; cbn [length app]; lia). rewrite put_ok by (rewrite ?length_insert; cbn [length app]; lia). done.
Qed.
Lemma put_trailer_ok p q tl crc n cap : length q = 8%nat -> is_u32 crc -> cap < 2 ^ 63 -> len p + 8 <= cap ->
  lh_compress_gzip_try_put_trailer crc n cap (len p) (p ++ q ++ tl) = Done (p ++ (le32 crc ++ le32 (u32 n)) ++ tl, Some (len p + 8)).
Proof.
  intros Hq Hc H63 Hcap. destruct q as [|a0 [|a1 [|a2 [|a3 [|a4 [|a5 [|a6 [|a7 [|]]]]]]]]]; try discriminate Hq.
  unfold lh_compress_gzip_try_put_trailer, LH_COMPRESS_GZIP_TRAILER_SIZE. cbv zeta. rewrite Z.gtb_ltb, (proj2 (Z.ltb_ge cap _)), u64_id, (proj2 (Z.ltb_ge _ 8)) by zb. cbn [orb].
  unfold mbind, writing_bind, store. change ([a0; a1; a2; a3; a4; a5; a6; a7] ++ tl) with ([a0; a1; a2; a3] ++ [a4; a5; a6; a7] ++ tl).
  rewrite pack_le32_ok by done.
  rewrite (u64_id (len p + 4)) by zb. replace (len p + 4) with (len (p ++ le32 crc)) by (rewrite length_app; cbn [length le32]; lia).
  rewrite (app_assoc p). rewrite pack_le32_ok by apply u32_range. rewrite u64_id by zb. by rewrite <- !app_assoc.
Qed.
Lemma trailer_bytes d n : is_bytes d -> len d = n -> trailer (le32 (crc32 d) ++ le32 (u32 n)) d.
Proof.
  intros Hb <-. unfold trailer. change (take 4 (le32 (crc32 d) ++ le32 (u32 (len d)))) with (le32 (crc32 d)).
  change (drop 4 (le32 (crc32 d) ++ le32 (u32 (len d)))) with (le32 (u32 (len d))).
  rewrite !le_value_le32 by (apply u32_range || by apply crc32_range). done.
Qed.

(** What the encoder leaves in the output: one member that holds the input. *)
Lemma gzip_encode_spec e input size out cap : encoder_ok e -> is_bytes input -> len input < 2 ^ 63 -> 0 <= size <= len input -> size < 2 ^ 32 - 1 ->
  is_bytes out -> 0 <= cap <= len out -> 8 * cap < 2 ^ 63 ->
  exists e' out' r, lh_compress_gzip_try_encode e input size out cap = Done (e', out', r) /\ encoder_ok e' /\ length out' = length out /\ is_bytes out' /\
  match r with
  | Some n => 0 <= n <= cap /\ n <= size + 5 * blocks_of size + 18 /\ member (take (Z.to_nat n) out') (take (Z.to_nat size) input)
  | None => cap < size + 5 * blocks_of size + 18
  end.
Proof.
  intros He Hb H63 Hs H32 Ho Hc Hc63. assert (0 <= blocks_of size) by (unfold blocks_of; destruct (size =? 0); zdm).
  unfold lh_compress_gzip_try_encode. rewrite put_header_ok by (done || lia). destruct (Z.ltb_spec cap 10) as [|H10].
  { rewrite bind_done. exists e, out, None. split_and!; (done || lia). }
  rewrite bind_done, (u64_id (cap - 10)) by zb. unfold LH_COMPRESS_GZIP_TRAILER_SIZE.
  assert (Hph : is_bytes plain_header) by (repeat constructor; zb). assert (Hd10 : is_bytes (drop 10 out)) by by apply Forall_drop.
  destruct (Z.ltb_spec (cap - 10) 8) as [|H18].
  { exists e, (plain_header ++ drop 10 out), None. split_and!; [done|done|rewrite length_app, length_drop; cbn [length plain_header]; lia|by apply Forall_app|lia]. }
  rewrite (u64_id (cap - 10 - 8)) by zb. change (drop (Z.to_nat 10) (plain_header ++ drop 10 out)) with (drop 10 out).
  change (take (Z.to_nat 10) (plain_header ++ drop 10 out)) with plain_header.
  destruct (try_encode_spec e input size (drop 10 out) (cap - 10 - 8) He Hb H63 Hs H32 Hd10) as (e' & body & r & -> & He' & Lb & Bb & Hr); [rewrite length_drop; lia|lia|].
  rewrite bind_done. rewrite length_drop in Lb. destruct r as [n|].
  2: { exists e', (plain_header ++ body), None. split_and!; [done|done|rewrite length_app; cbn [length plain_header]; lia|by apply Forall_app|lia]. }
  destruct Hr as (w & Hst & N & En & Hn & Hbd). rewrite (u64_id (10 + n)) by zdm. rewrite crc32_of, bind_done by lia.
  set (s := take (Z.to_nat n) body). set (q := take 8 (drop (Z.to_nat n) body)). set (tl := drop 8 (drop (Z.to_nat n) body)).
  assert (Eb : plain_header ++ body = (plain_header ++ s) ++ q ++ tl) by (unfold s, q, tl; by rewrite !take_drop, <- app_assoc, take_drop).
  assert (0 <= n) by zdm. assert (Ls : len s = n) by (unfold s; rewrite length_take; lia).
  assert (Lq : length q = 8%nat) by (unfold q; rewrite length_take, length_drop; lia).
  assert (Lp : len (plain_header ++ s) = 10 + n) by (rewrite length_app; cbn [length plain_header]; lia).
  set (d := take (Z.to_nat size) input) in *. assert (Hbd' : is_bytes d) by by apply Forall_take.
  assert (Ld : len d = size) by (unfold d; rewrite length_take; lia).
  rewrite Eb, <- Lp. rewrite put_trailer_ok by (done || lia || by apply crc32_range). rewrite bind_done, Lp.
  set (t := le32 (crc32 d) ++ le32 (u32 size)). assert (Lt : len t = 8) by done.
  assert (Ht : trailer t d) by by apply trailer_bytes.
  exists e', ((plain_header ++ s) ++ t ++ tl), (Some (10 + n + 8)). split_and!; [done|done| | |lia|lia|lia|].
  - apply (f_equal length) in Eb. rewrite !length_app in *. cbn [length plain_header] in *. lia.
  - apply Forall_app. split; [apply Forall_app; split; [done|by apply Forall_take]|]. apply Forall_app.
    split; [apply Forall_app; split; apply le32_bytes|by do 2 apply Forall_drop].
  - rewrite app_assoc. rewrite take_app_length' by (rewrite (length_app (plain_header ++ s)); lia). exists plain_header, s, t. rewrite <- app_assoc.
    split_and!; [done|apply plain_header_ok| |done]. unfold s. apply (proj1 (deflated_take body n n d ltac:(split; [done|lia]))).
    by exists w.
Qed.
Lemma gzip_bound_spec size : 0 <= size < 2 ^ 32 -> lh_compress_gzip_try_bound size = Some (size + 5 * blocks_of size + 18).
Proof.
  intros Hs. unfold lh_compress_gzip_try_bound. rewrite bound_spec by done. cbv zeta. change (u32 _) with 18.
  assert (0 <= blocks_of size <= 2 ^ 20) by (unfold blocks_of; destruct (size =? 0); zdm).
  rewrite adds_over_spec, (proj2 (Z.ltb_ge _ _)) by zb. by rewrite u64_id by zb.
Qed.
(** Encoding and decoding gives the input back.  For an encoder whose arrays have their sizes and
    any input of at most 4294967294 bytes the encoder returns; it refuses only below the bound
    that [lh_compress_gzip_try_bound] promises and writes no more; and the decoder, on what was written and with room
    for the data, gives exactly the input. *)
Theorem gzip_roundtrip e input size out cap : encoder_ok e -> is_bytes input -> len input < 2 ^ 63 -> 0 <= size <= len input -> size < 2 ^ 32 - 1 ->
  is_bytes out -> 0 <= cap <= len out -> 8 * cap < 2 ^ 63 ->
  exists e' out' r bound, lh_compress_gzip_try_encode e input size out cap = Done (e', out', r) /\ encoder_ok e' /\ length out' = length out /\
  lh_compress_gzip_try_bound size = Some bound /\ (r = None -> cap < bound) /\
  forall n, r = Some n -> n <= cap /\ n <= bound /\
    forall dst room, is_bytes dst -> size <= room <= len dst -> room < 2 ^ 63 ->
    exists dst', lh_compress_gzip_try_decode out' n room dst = Done (dst', Some size) /\ take (Z.to_nat size) dst' = take (Z.to_nat size) input.
Proof.
  intros He Hb H63 Hs H32 Ho Hc Hc63. destruct (gzip_encode_spec e input size out cap He Hb H63 Hs H32 Ho Hc Hc63) as (e' & out' & r & E & He' & L & B & Hr).
  exists e', out', r, (size + 5 * blocks_of size + 18). split_and!; try done; [by apply gzip_bound_spec; lia|by intros ->|].
  intros n ->. destruct Hr as (Hn & Hbd & Hm). split_and!; [lia|done|]. intros dst room Hd Hroom Hr63.
  assert (I : input_ok out' n) by (split_and!; (done || lia)). set (d := take (Z.to_nat size) input) in *.
  assert (Ld : len d = size) by (unfold d; rewrite length_take; lia).
  assert (Hms : members (take (Z.to_nat n) out') d).
  { rewrite <- (app_nil_r d), <- (app_nil_r (take _ _)). by constructor; [|constructor]. }
  assert (n <> 0) as Hn0.
  { destruct Hm as (h & s & t & Ef & Hh & _). pose proof (header_length h Hh). apply (f_equal length) in Ef. rewrite length_take, length_app in Ef. lia. }
  destruct (gunzip_is_standard out' n dst room I Hd ltac:(lia) Hr63) as (dst' & r & Ed & _ & _ & _ & _ & Hcomp).
  destruct (Hcomp d Hn0 Hms ltac:(lia)) as [-> Ht]. exists dst'. rewrite Ld in Ed. split; [done|]. rewrite <- Ht. f_equal. lia.
Qed.
(** A member of seven letters by another encoder: a name in the header, then what [stream] gives. *)
Example gunzip_name : exists out, lh_compress_gzip_try_decode
    [31; 139; 8; 8; 0; 0; 0; 0; 0; 3; 120; 0; 75; 132; 0; 0; 116; 32; 139; 91; 7; 0; 0; 0] 24 10 (local 12) = Done (out, Some 7) /\ take 7 out = replicate 7 97.
Proof. eexists. by vm_compute. Qed.
